(* ===== verification/_CoqProject ===== *)
-Q . S2P
Prelude.v
Order.v
Text.v
Digest.v
Boundary.v
Compatibility.v
Workspace.v
StoreBase.v
StoreNames.v
StoreSample.v
StoreBoard.v
StoreItems.v
StoreObserved.v
StoreReviews.v
StoreThreads.v
StoreRecords.v
StoreMachine.v
StoreWitnesses.v
Sessions.v
SessionRules.v
SessionProofs.v
SessionLifecycle.v
SessionWitnesses.v
TimeReview.v
Runtime.v
RuntimeOrder.v
RuntimeEndpoints.v
RuntimeSupervisor.v
RuntimeProofs.v
Conversations.v
ConversationStore.v
ConversationQueue.v
ConversationRules.v
ConversationProofs.v
ConversationSteps.v
ConversationPump.v
ConversationHistory.v
ConversationPositions.v
ConversationFeedback.v
ConversationGuarantees.v
ConversationWitnesses.v
Captures.v
WorkServices.v
WorkSets.v
WorkSetRequests.v
WorkSetMerge.v
WorkSetStore.v
WorkSetCalls.v
WorkSetScheduler.v
WorkSetRules.v
WorkSetTriples.v
WorkSetInvariant.v
WorkSetDispatch.v
WorkSetMachine.v
WorkSetSent.v
WorkSetGuarantees.v
WorkSetSample.v
Collaboration.v
CollaborationRun.v
CollaborationPlans.v
CollaborationGate.v
CollaborationRules.v
CollaborationProofs.v
CollaborationProgress.v
CollaborationGuarantees.v
CollaborationWitnesses.v
Worktrees.v
TurnWorld.v
TurnCaptures.v
TurnRestore.v
TurnChecks.v
TurnIntegration.v
WorktreeProofs.v
TurnRestoreRules.v
TurnRestoreProofs.v
TurnCaptureProofs.v
TurnIntegrationProofs.v
TurnWitnesses.v
AgentReports.v
AgentReportProofs.v
