(* ===== verification/Prelude.v ===== *)
(** * WTS: a verification library for the local workspace supervisor

    WTS keeps workspaces of Git worktrees on a developer's machine, shows them on a board, runs
    their services and hands work to coding agents.  This library models the Rust crates of the
    program and proves what makes them correct.  Paths are relative to [src/].

    ** The program and its parts

    - [crates/wts-core] holds pure contracts: the boundary compiler, which turns a draft of
      services, pins and capabilities into leases, request headers and a digest; the solver that
      chooses compatible commits; the contract of workspace requests.
    - [crates/wts-store] keeps workspaces, board lanes, work-item links, observations and review
      threads in SQLite.
    - [crates/wts-app] is the service on top: the ledger of agent sessions, the conversations with
      agents and their queue, sets of isolated tasks on top of that queue, the supervisor of
      service processes, time reviews, and the calls that combine them with Git worktrees and
      providers.
    - [crates/wts-git] and [crates/wts-integrations] talk to Git and to Jira, GitLab, GitHub and
      OpenProject; [crates/wts-server] and [src-tauri] expose the service over HTTP and in a
      window; [src/] (TypeScript) is the interface.

    The conversations use the ledger ([begin_launch], [finish], [interrupt], [fail]); a work set
    creates a conversation for each of its tasks and sends it one message; the service creates
    records in the store from requests the contract has accepted; the supervisor, the
    collaborations and the time reviews stand alone.

    ** Files

    Shared: [Prelude] (results, fallible folds, list lemmas, tactics), [Order] (Rust's orderings,
    stable sorting, [dedup]), [Text] (strings as lists of Unicode scalar values, UTF-8, paths,
    decimals), [Digest] (length-prefixed digests, ordered maps).

    - [Boundary]: [wts-core/src/lib.rs].  [compile], [verify] and [revise] with every rejection.
      The compiler decides exactly the compilable drafts, leases are disjoint, the headers carry
      the authority and no other, and equal digests mean equal authority.
    - [Compatibility]: [wts-core/src/compatibility.rs].  The search is optimal among all
      selections that keep the constraints, and rejects only problems without one.
    - [Workspace]: [wts-core/src/workspace.rs].  Validation accepts exactly the requests of a
      declarative specification and answers their canonical form.
    - [StoreBase] to [StoreWitnesses]: [wts-store/src/sqlite.rs] and [model.rs].  The tables are
      finite maps and lists in a record; every operation is a function on them with its error
      paths and its transaction ([transact]).  [StoreBoard]: placement is exact, revisions step by
      one, the event log explains the board.  [StoreItems], [StoreObserved]: links stay unique.
      [StoreReviews], [StoreThreads]: threads are resolved once.  [StoreRecords]: creation is
      idempotent and succeeds, records are read back, views stay under the root, a removed
      workspace answers no read of its record, no list, no lane and no change of either (the
      tables of links, observations and threads keep their rows).
      [StoreMachine]: over any history of operations no read finds a corrupt row.  [StoreNames]:
      the directory names derived from identifiers and labels.
    - [Sessions] to [SessionWitnesses]: [wts-app/src/agent_sessions.rs].  The ledger is one file;
      each call reads, changes and replaces it.  It stays readable, refines a lifecycle of
      statuses and never changes a finished session; the two ways it can become unreadable (a
      clock that steps back, a launch over a full ledger) are theorems and findings.
    - [TimeReview]: the drafts of [wts-app/src/time_review.rs], equal to a decision at every
      instant, and the schedule of reviews.
    - [Runtime] to [RuntimeProofs]: [wts-app/src/runtime.rs].  Preparation always ends with a
      start order that respects dependencies or names a cycle; a child sees the supervisor's
      variables and cannot override them; the limits and the distinctness of ports are invariant;
      a failed start is rolled back, provided the system terminates what it is asked to, except
      in two cases that are findings: between two services the cancellation flag is seen, or the
      log directory cannot be made.
    - [Conversations] to [ConversationWitnesses]: [wts-app/src/agent_conversations.rs].
      [Conversations] holds records and pure functions, [ConversationStore] the directory and its
      operations as state transformers, [ConversationQueue] the pump and the life of a turn,
      [ConversationRules] the lifecycle of a message and the invariant, [ConversationProofs] and
      [ConversationSteps] the triples of the operations, [ConversationPump] the loop of the pump,
      [ConversationHistory] histories of several hosts, [ConversationPositions] and
      [ConversationFeedback] what is shown to users and agents, [ConversationGuarantees] the
      theorems: one turn per workspace, first in first out, progress, requests are sent once,
      messages follow their lifecycle, positions are ranks, the bounded scan is the latest turns.
    - [Captures], [WorkServices]: [wts-git/src/checkpoint.rs] and
      [wts-app/src/agent_turn_changes.rs].  Captures of worktrees, the record a turn leaves, their
      digest, and what readers make of them.  [WorkServices] is the class of what the work sets
      ask of the rest of the program: conversations, workspaces, worktrees, Git and the disk.
    - [WorkSets] to [WorkSetSample]: [wts-app/src/agent_work_sets.rs].  [WorkSets] holds the
      records, the check of a request, the order of prerequisites and the merge of their results;
      [WorkSetStore] the directory, [WorkSetCalls] creation, refresh and cancellation,
      [WorkSetScheduler] the preparation of a task and one pass.  [WorkSetRequests]: a request is
      accepted exactly when its tasks can be ordered.  [WorkSetMerge]: the merge is three-way.
      [WorkSetRules] is the lifecycle of a set, [WorkSetTriples], [WorkSetInvariant]
      and [WorkSetDispatch] the triples of the operations, [WorkSetMachine]
      histories of calls, [WorkSetSent] what a pass hands over.  [WorkSetGuarantees]: sets stay
      readable and follow the lifecycle, a task waits for its prerequisites, a pass dispatches at
      most three, cancellations are recorded once; two ways in which a failure of the disk or of
      an acknowledgement does more harm than it should are theorems and findings.

    - [Collaboration] to [CollaborationWitnesses]: [wts-app/src/collaboration.rs].
      [Collaboration] holds plans, their preparation, dependencies, results and evidence,
      [CollaborationRun] the gate and the threads: an event is one step of one thread, a history
      any interleaving of them over any number of calls.  [CollaborationPlans]: which plans and
      dependencies are accepted.  [CollaborationGate]: the permits out are those of the workers.
      [CollaborationRules], [CollaborationProofs]: every task is once pending, in flight or done.
      [CollaborationProgress]: the measure of the work left.  [CollaborationGuarantees]:
      what evidence is kept; agents are few, confined and apart, wait for their
      prerequisites and do not start once cancelled; calls end, with complete reports.

    - [Worktrees], [WorktreeProofs]: [wts-git/src/source_file.rs] and [checkpoint.rs].  Worktrees
      are maps of nodes; reading, saving and restoring a file and capturing a worktree, with the
      comparisons before each replacement.
    - [TurnWorld]: what is stored about a turn, and the world of the calls on turns: worktrees with
      their moments, stored files, the outside, and the history of states.
    - [TurnCaptures], [TurnCaptureProofs]: [wts-app/src/agent_turn_changes.rs].  The captures
      before and after a turn, its snapshots and its receipt; a ready receipt is exact.
    - [TurnRestore] to [TurnRestoreProofs]: [wts-app/src/agent_turn_restore.rs].  Previews,
      restores, retries and recoveries with journal and marker.  [TurnRestoreRules]: what every
      call keeps.  [TurnRestoreProofs]: only files that are as the task left them are replaced, by
      their version from before; a retry that stops before its marker is written leaves the turn
      for good.  That and the removal of a file that was ignored are findings.
    - [TurnChecks], [TurnIntegration], [TurnIntegrationProofs]: [wts-app/src/agent_turn_checks.rs],
      [agent_turn_decisions.rs] and [agent_work_item_integration.rs].  Runs of checks, the log of a
      user's decisions, and the integration of a checked candidate with journal and marker.  What
      the saved runs prove; only a candidate whose checks passed is applied, over files that are as
      the work set started from them; a log of decisions stays readable; a file that stays pending
      after it was applied makes the result unreadable, which is a finding.
    - [AgentReports], [AgentReportProofs]: [wts-app/src/evidence.rs].  The checks of the reports
      agents write.  They decide a declarative condition, and what an accepted report names lies
      below the workspace once links are followed.

    The files named [...Witnesses], [StoreSample] and [WorkSetSample] instantiate the parameters and
    apply each theorem to concrete runs, evaluated by the kernel.

    ** Conventions

    A Rust [Result] is [result]; [?] is [let?], a guard with an early return is [ensure].  Integers
    are [N] or [Z] with the checks, saturation and wrapping of the code written out ([clamp_u64],
    [checked_add_u64], [wrapping_u32]).  Strings are lists of scalar values; where the code counts
    bytes the model takes [byte_len].  [HashMap] and [BTreeMap] are [gmap], iterated in key order
    where the code iterates.  Identifiers are natural numbers.

    Calls on worktrees meet others at work.  Before each access the script of moments is asked
    what they changed, whether the system calls that follow work, fail, or fail after the change
    was made, and with which stamps; theorems hold for every script.  A moment covers the checks
    and the system call that follow it: the last comparison of a file and its replacement are one
    moment, as are the bytes of one file that is read, and the directories made for one path.
    Every state of disk and worktrees on the way is kept in a history, which is what a host that
    stops may leave behind.

    Recursion that is not structural carries fuel: [dependency_order] gets the number of services,
    one for each it emits, and [prepare_stack_decides] shows that is enough; waiting for a service
    recurses over the polls it is given; [resolve_tasks] gets one round more than there are tasks,
    since each round but the last finds a new one ([work_request_decides]); [ancestor] gets the
    number of tasks, since prerequisites are acyclic ([ancestor_spec]); [resolve_remaining] gets
    one round more than there are tasks, since each round removes one ([dependencies_decide]).
    Loops of the code over lists are structural.

    ** Parameters

    Code that is not in the repository, and I/O, is a parameter or an input: SHA-256 (with
    collisions as an explicit alternative), UUID and URL parsing, the JSON codecs
    ([Libraries], [SessionJson], [ConversationLibraries]; what is written is read back), base64 and
    PNG ([CaptureLibraries]), lengths of stored JSON and digests of effects ([CaptureJson], [TurnJson],
    [CheckJson]), clocks, fresh identifiers, the file system, [bind], processes and
    leases of other operations.  Fresh identifiers are assumed to be new, and a write to change the
    modification time, where a theorem says so.  A lock that a call holds from its first read to its
    last write makes the call one step; poisoned locks are errors before the first effect.  The
    services around work sets and turns ([WorkServices], [TurnServices]) may answer anything and
    change their state at every request; the process of a check and the plan it comes from are such
    answers.  The list of tasks handed over ([wd_sent]) is kept for the theorems only.
    Revisions of sets and conversations are unbounded: the code adds one per change to a [u64].

    ** Not modelled

    The service facade ([service.rs]) orders calls of the modelled components and of Git and the
    providers and maps their records to views; the HTTP server, the desktop shell and the
    interface pass them on.  The clients of Git, Jira, GitLab, GitHub and OpenProject are commands
    and requests whose answers are parsed leniently, without a contract to prove against but the
    other side's.  Agent processes, launchers, previews, the processes of checks and
    summaries of their results are operating-system calls and text.  The manifest lists each part with its reason. *)

From stdpp Require Export base tactics option list gmap sets numbers pretty strings.
From Stdlib Require Export ZArith Lia.

Declare Scope wts_scope.
Delimit Scope wts_scope with wts.

(** ** Fallible code: Rust's [Result<T, E>] *)

Inductive result (T E : Type) : Type :=
| Ok (value : T)
| Err (error : E).
Arguments Ok {T E} value.
Arguments Err {T E} error.

#[export] Instance result_eq_dec {T E} `{EqDecision T} `{EqDecision E} :
  EqDecision (result T E).
Proof. solve_decision. Defined.

Definition rbind {T U E} (r : result T E) (k : T → result U E) : result U E :=
  match r with
  | Ok t => k t
  | Err e => Err e
  end.

Definition rmap {T U E} (f : T → U) (r : result T E) : result U E :=
  match r with
  | Ok t => Ok (f t)
  | Err e => Err e
  end.

Definition ok_or {T E} (o : option T) (e : E) : result T E :=
  match o with
  | Some t => Ok t
  | None => Err e
  end.

(** Early return: [guard_err b e] is [if b { return Err(e) }]. *)
Definition guard_err {E} (b : bool) (e : E) : result () E :=
  if b then Err e else Ok ().

Definition is_ok {T E} (r : result T E) : bool :=
  match r with Ok _ => true | Err _ => false end.

(** [o.map(f).transpose()?] for a fallible [f]. *)
Definition transpose_map {T U E} (f : T → result U E) (o : option T) :
    result (option U) E :=
  match o with
  | None => Ok None
  | Some t => rmap Some (f t)
  end.

Notation "'let?' x ':=' r 'in' k" := (rbind r (λ x, k))
  (at level 10, x pattern, r at level 100, k at level 200,
   format "'[v' 'let?'  x  ':='  r  'in'  '/' k ']'") : wts_scope.
Notation "'ensure' r 'in' k" := (rbind r (λ _, k))
  (at level 10, r at level 100, k at level 200,
   format "'[v' 'ensure'  r  'in'  '/' k ']'") : wts_scope.
Open Scope wts_scope.

(** A [for] loop whose body may leave the enclosing function with [Err]. *)
Fixpoint try_fold {A St E} (body : St → A → result St E) (s : St) (l : list A) :
    result St E :=
  match l with
  | [] => Ok s
  | a :: l' => rbind (body s a) (λ s', try_fold body s' l')
  end.

(** The same loop with [enumerate()]. *)
Fixpoint try_fold_i {A St E} (body : nat → St → A → result St E) (i : nat) (s : St)
    (l : list A) : result St E :=
  match l with
  | [] => Ok s
  | a :: l' => rbind (body i s a) (λ s', try_fold_i body (S i) s' l')
  end.

(** ** Machine integers *)

(** Unsigned integers are [N] and signed ones [Z]; the width is written where the code
    can reach it. *)
Definition u16_max : N := 65535.
Definition u32_max : N := (2 ^ 32 - 1)%N.
Definition u64_max : N := (2 ^ 64 - 1)%N.
Definition i64_max : Z := (2 ^ 63 - 1)%Z.
Definition i64_min : Z := (- 2 ^ 63)%Z.
Definition in_u16 (n : N) : Prop := (n ≤ u16_max)%N.
Definition in_u32 (n : N) : Prop := (n ≤ u32_max)%N.
Definition in_u64 (n : N) : Prop := (n ≤ u64_max)%N.
Definition in_i64 (z : Z) : Prop := (i64_min ≤ z ≤ i64_max)%Z.

(** Wrapping addition on [u32] (a release build; a debug build stops there). *)
Definition wrapping_u32 (n : N) : N := (n mod 2 ^ 32)%N.

(** [i64::saturating_sub] and friends. *)
Definition clamp_i64 (z : Z) : Z := Z.max i64_min (Z.min i64_max z).
Definition clamp_u64 (n : N) : N := N.min u64_max n.

(** [u64::try_from] of an [i64], [i64::try_from] of a [u64], [u32::try_from] of an [i64]. *)
Definition u64_try_from (z : Z) : option N := if (z <? 0)%Z then None else Some (Z.to_N z).
Definition i64_try_from (n : N) : option Z :=
  if (Z.of_N n <=? i64_max)%Z then Some (Z.of_N n) else None.
Definition u32_try_from (z : Z) : option N :=
  if ((z <? 0) || (Z.of_N u32_max <? z))%Z then None else Some (Z.to_N z).

(** [u64::checked_add]. *)
Definition checked_add_u64 (m n : N) : option N :=
  if (m + n <=? u64_max)%N then Some (m + n)%N else None.

(** ** Tactics *)

(** Split every [rbind], [guard_err], boolean test and option match that stands
    in the way of a hypothesis [H : _ = Ok _] or [H : _ = Err _]. *)
Ltac inv_result H :=
  repeat (cbn [rbind rmap ok_or guard_err transpose_map] in H;
    first
    [ discriminate H
    | progress (injection H as H)
    | match type of H with
      | rbind ?r _ = _ => destruct r eqn:?; cbn [rbind] in H
      | rmap _ ?r = _ => destruct r eqn:?; cbn [rmap] in H
      | ok_or ?o _ = _ => destruct o eqn:?; cbn [ok_or] in H
      | guard_err ?b _ = _ => destruct b eqn:?; cbn [guard_err] in H
      | (if ?b then _ else _) = _ => destruct b eqn:?
      | match ?o with _ => _ end = _ => destruct o eqn:?
      end ]).

(** Split boolean hypotheses into their Prop readings. *)
Ltac bool_split :=
  repeat match goal with
  | H : _ && _ = true |- _ => apply andb_prop in H as [? ?]
  | H : _ || _ = false |- _ => apply orb_false_elim in H as [? ?]
  | H : negb _ = true |- _ => apply negb_true_iff in H
  | H : negb _ = false |- _ => apply negb_false_iff in H
  | H : bool_decide _ = true |- _ => apply bool_decide_eq_true_1 in H
  | H : bool_decide _ = false |- _ => apply bool_decide_eq_false_1 in H
  | H : (_ <? _)%Z = true |- _ => apply Z.ltb_lt in H
  | H : (_ <? _)%Z = false |- _ => apply Z.ltb_ge in H
  | H : (_ <=? _)%Z = true |- _ => apply Z.leb_le in H
  | H : (_ <=? _)%Z = false |- _ => apply Z.leb_gt in H
  | H : (_ =? _)%Z = true |- _ => apply Z.eqb_eq in H
  | H : (_ =? _)%Z = false |- _ => apply Z.eqb_neq in H
  | H : (_ <? _)%N = true |- _ => apply N.ltb_lt in H
  | H : (_ <? _)%N = false |- _ => apply N.ltb_ge in H
  | H : (_ <=? _)%N = true |- _ => apply N.leb_le in H
  | H : (_ <=? _)%N = false |- _ => apply N.leb_gt in H
  | H : (_ =? _)%N = true |- _ => apply N.eqb_eq in H
  | H : (_ =? _)%N = false |- _ => apply N.eqb_neq in H
  | H : (_ <? _)%nat = true |- _ => apply Nat.ltb_lt in H
  | H : (_ <? _)%nat = false |- _ => apply Nat.ltb_ge in H
  | H : (_ <=? _)%nat = true |- _ => apply Nat.leb_le in H
  | H : (_ <=? _)%nat = false |- _ => apply Nat.leb_gt in H
  end.

(** Membership in an explicit list. *)
Ltac in_list := repeat first [by left | right].

Create HintDb wts discriminated.
Create Rewrite HintDb wts.

(** ** Lemmas on fallible loops *)

Lemma rbind_Ok {T U E} (r : result T E) (k : T → result U E) u :
  rbind r k = Ok u ↔ ∃ t, r = Ok t ∧ k t = Ok u.
Proof. destruct r; simpl; naive_solver. Qed.

Lemma rbind_Err {T U E} (r : result T E) (k : T → result U E) e :
  rbind r k = Err e ↔ r = Err e ∨ ∃ t, r = Ok t ∧ k t = Err e.
Proof. destruct r; simpl; naive_solver. Qed.

Lemma guard_err_Ok {E} b (e : E) u : guard_err b e = Ok u ↔ b = false.
Proof. destruct b, u; simpl; naive_solver. Qed.

Lemma guard_err_Err {E} b (e e' : E) : guard_err b e = Err e' ↔ b = true ∧ e = e'.
Proof. destruct b; simpl; naive_solver. Qed.

Lemma ensure_Ok {U E} b (e : E) (k : () → result U E) u :
  rbind (guard_err b e) k = Ok u ↔ b = false ∧ k tt = Ok u.
Proof. destruct b; simpl; naive_solver. Qed.

Lemma rmap_Ok {T U E} (f : T → U) (r : result T E) u :
  rmap f r = Ok u ↔ ∃ t, r = Ok t ∧ f t = u.
Proof. destruct r; simpl; naive_solver. Qed.

(** An invariant indexed by the already processed prefix holds at the end of a
    loop that did not return early. *)
Lemma try_fold_ind {A St E} (body : St → A → result St E) (I : list A → St → Prop) l s s' :
  try_fold body s l = Ok s' →
  I [] s →
  (∀ done a rest t t', l = done ++ a :: rest → I done t → body t a = Ok t' →
     I (done ++ [a]) t') →
  I l s'.
Proof.
  intros Hrun H0 Hstep.
  assert (∀ rest pre t, l = pre ++ rest → I pre t → try_fold body t rest = Ok s' → I l s')
    as Hgen.
  { induction rest as [|a rest IH]; intros pre t Heq HI Hr; simpl in Hr.
    - injection Hr as <-. by rewrite Heq, app_nil_r.
    - apply rbind_Ok in Hr as (t' & Hb & Hr).
      apply (IH (pre ++ [a]) t'); [by rewrite <- app_assoc | by eapply Hstep | done]. }
  by apply (Hgen l [] s).
Qed.

Lemma try_fold_app {A St E} (body : St → A → result St E) s l1 l2 :
  try_fold body s (l1 ++ l2) = rbind (try_fold body s l1) (λ t, try_fold body t l2).
Proof.
  revert s; induction l1 as [|a l1 IH]; intros s; simpl; [done|].
  destruct (body s a); simpl; auto.
Qed.

(** A loop that returned early did so in one of its turns. *)
Lemma try_fold_Err {A St E} (body : St → A → result St E) s l e :
  try_fold body s l = Err e → ∃ t a, a ∈ l ∧ body t a = Err e.
Proof.
  revert s; induction l as [|a l IH]; intros s; cbn; [done|].
  intros [He|(t & _ & He)]%rbind_Err; [exists s, a; split; [left|done]|].
  destruct (IH t He) as (t' & a' & Ha & Hb). exists t', a'. split; [by right|done].
Qed.

Lemma ok_or_Ok {T E} (o : option T) (e : E) x : ok_or o e = Ok x ↔ o = Some x.
Proof. destruct o; cbn; split; congruence. Qed.

Lemma ok_or_Err {T E} (o : option T) (e e' : E) : ok_or o e = Err e' ↔ o = None ∧ e = e'.
Proof. destruct o; cbn; split; [done|by intros [? _]|by intros [= ->]|by intros [_ ->]]. Qed.

(** ** Lemmas on lists *)

Lemma NoDup_short {A} (l : list A) : (length l ≤ 1)%nat → NoDup l.
Proof. destruct l as [|x [|y l]]; cbn; [constructor|intros _; apply NoDup_singleton|lia]. Qed.

Lemma length_omap_le {A B} (f : A → option B) (l : list A) : (length (omap f l) ≤ length l)%nat.
Proof. induction l as [|x l IH]; cbn; [done|]. destruct (f x); cbn; lia. Qed.


Lemma Forall_iff_forall {A} (P : A → Prop) l : Forall P l ↔ ∀ x, x ∈ l → P x.
Proof. apply Forall_forall. Qed.

Lemma existsb_spec {A} (f : A → bool) l : existsb f l = true ↔ ∃ x, x ∈ l ∧ f x = true.
Proof.
  rewrite existsb_exists. setoid_rewrite list_elem_of_In. done.
Qed.

Lemma existsb_false {A} (f : A → bool) l : existsb f l = false ↔ ∀ x, x ∈ l → f x = false.
Proof.
  rewrite <- not_true_iff_false, existsb_spec. split.
  - intros Hn x Hx. apply not_true_iff_false. intros Hf. apply Hn. eauto.
  - intros Hall (x & Hx & Hf). by rewrite Hall in Hf.
Qed.

Lemma size_list_to_set_le {A} `{Countable A} (l : list A) : (size (list_to_set l : gset A) ≤ length l)%nat.
Proof.
  induction l as [|x l IH]; [done|]. cbn [list_to_set length].
  rewrite size_union_alt, size_singleton.
  pose proof (subseteq_size ((list_to_set l : gset A) ∖ {[x]}) (list_to_set l)) as Hle.
  specialize (Hle ltac:(set_solver)). lia.
Qed.

Lemma size_list_to_set_iff {A} `{Countable A} (l : list A) :
  size (list_to_set l : gset A) = length l ↔ NoDup l.
Proof.
  split; [|apply size_list_to_set]. induction l as [|x l IH]; [constructor|].
  cbn [list_to_set length]. intros Hs. pose proof (size_list_to_set_le l) as Hle.
  assert (x ∉ l) as Hx.
  { intros Hx. rewrite subseteq_union_1_L in Hs by set_solver. lia. }
  rewrite size_union, size_singleton in Hs by set_solver. constructor; [done|apply IH; lia].
Qed.

Lemma forallb_spec {A} (f : A → bool) l : forallb f l = true ↔ ∀ x, x ∈ l → f x = true.
Proof. rewrite forallb_forall. setoid_rewrite list_elem_of_In. done. Qed.

Lemma NoDup_fmap_inj_on {A B} (f : A → B) l x y :
  NoDup (f <$> l) → x ∈ l → y ∈ l → f x = f y → x = y.
Proof.
  induction l as [|a l IH]; [by intros _ ?%elem_of_nil|].
  rewrite fmap_cons, NoDup_cons, !elem_of_cons, list_elem_of_fmap.
  intros [Hnin Hnd] [->|Hx] [->|Hy] Heq; eauto; exfalso; apply Hnin; eauto.
Qed.

Lemma filter_fmap {A B} (f : A → B) (P : B → Prop) `{∀ b, Decision (P b)} (l : list A) :
  filter P (f <$> l) = f <$> filter (λ a, P (f a)) l.
Proof.
  induction l as [|a l IH]; [done|]. rewrite fmap_cons, !filter_cons, IH. by case_decide.
Qed.

Lemma NoDup_fmap_filter {A B} (f : A → B) (P : A → Prop) `{∀ x, Decision (P x)} (l : list A) :
  NoDup (f <$> l) → NoDup (f <$> filter P l).
Proof.
  induction l as [|x l IH]; [done|]. rewrite fmap_cons, NoDup_cons, filter_cons.
  intros [Hx Hl]. case_decide; [|auto]. rewrite fmap_cons, NoDup_cons. split; [|auto].
  intros (y & Hy & Hin)%list_elem_of_fmap. apply Hx, list_elem_of_fmap. exists y.
  split; [done|]. by apply list_elem_of_filter in Hin as [_ ?].
Qed.

(** ** Conditions on every pair of a list *)

(** Every two elements at different positions, the earlier one first. *)
Fixpoint pairwise {A} (R : A → A → Prop) (l : list A) : Prop :=
  match l with
  | [] => True
  | x :: l' => Forall (R x) l' ∧ pairwise R l'
  end.

Lemma pairwise_perm {A} (R : A → A → Prop) l k :
  (∀ x y, R x y → R y x) → l ≡ₚ k → pairwise R l → pairwise R k.
Proof.
  intros Hsym. induction 1 as [|x l k Hp IH|x y l|l k m _ IH1 _ IH2]; cbn; auto.
  - intros [Hx Hl]. split; [by rewrite <- Hp|auto].
  - rewrite !Forall_cons. intros [[Hxy Hy] [Hx Hl]]. auto.
Qed.

Lemma pairwise_app {A} (R : A → A → Prop) l k :
  pairwise R (l ++ k) ↔ pairwise R l ∧ pairwise R k ∧ ∀ x y, x ∈ l → y ∈ k → R x y.
Proof.
  induction l as [|a l IH]; cbn.
  - split; [|tauto]. intros H. split_and!; [done..|]. by intros x y ?%elem_of_nil.
  - rewrite Forall_app, IH. rewrite !Forall_forall. setoid_rewrite elem_of_cons. naive_solver.
Qed.

Lemma pairwise_elem {A} (R : A → A → Prop) l x y :
  (∀ x y, R x y → R y x) → pairwise R l → x ∈ l → y ∈ l → x = y ∨ R x y.
Proof.
  intros Hsym. induction l as [|a l IH]; cbn; [by intros _ ?%elem_of_nil|].
  rewrite Forall_forall, !elem_of_cons. intros [Ha Hl] [->|Hx] [->|Hy]; auto.
Qed.

Lemma pairwise_fmap {A B} (f : A → B) (R : B → B → Prop) l :
  pairwise R (f <$> l) ↔ pairwise (λ x y, R (f x) (f y)) l.
Proof. induction l as [|a l IH]; cbn; [done|]. by rewrite Forall_fmap, IH. Qed.

Lemma pairwise_impl {A} (R S : A → A → Prop) l :
  (∀ x y, R x y → S x y) → pairwise R l → pairwise S l.
Proof.
  intros H. induction l as [|a l IH]; cbn; [done|]. intros [Ha Hl].
  split; [|auto]. eapply Forall_impl; [exact Ha|]. auto.
Qed.

Lemma pairwise_NoDup {A B} (f : A → B) l :
  pairwise (λ x y, f x ≠ f y) l ↔ NoDup (f <$> l).
Proof.
  induction l as [|a l IH]; cbn; [split; [constructor|done]|].
  rewrite NoDup_cons, IH, list_elem_of_fmap, Forall_forall. naive_solver.
Qed.

(** ** Loops that validate each element against the ones before it *)

Fixpoint all_accepted {A} (accept : list A → A → Prop) (pre rest : list A) : Prop :=
  match rest with
  | [] => True
  | a :: rest' => accept pre a ∧ all_accepted accept (pre ++ [a]) rest'
  end.

(** If each turn decides [accept] against the processed prefix and keeps the invariant, the
    loop decides [all_accepted]. *)
Lemma try_fold_i_decides {A St E} (body : nat → St → A → result St E)
    (inv : list A → St → Prop) (accept : list A → A → Prop) i st pre rest :
  (∀ i pre st a, inv pre st →
     match body i st a with
     | Ok st' => accept pre a ∧ inv (pre ++ [a]) st'
     | Err _ => ¬ accept pre a
     end) →
  inv pre st →
  match try_fold_i body i st rest with
  | Ok st' => all_accepted accept pre rest ∧ inv (pre ++ rest) st'
  | Err _ => ¬ all_accepted accept pre rest
  end.
Proof.
  intros Hbody. revert i st pre; induction rest as [|a rest IH]; intros i st pre Hinv; cbn.
  - by rewrite app_nil_r.
  - specialize (Hbody i pre st a Hinv). destruct (body i st a) as [st'|e]; cbn; [|tauto].
    destruct Hbody as [Ha Hinv']. specialize (IH (S i) st' (pre ++ [a]) Hinv').
    rewrite <- app_assoc in IH. destruct (try_fold_i _ _ _ _); tauto.
Qed.

(** When acceptance is a condition on the element and one on each earlier element, it is
    independent of the loop. *)
Lemma all_accepted_pairwise {A} (P : A → Prop) (R : A → A → Prop) accept pre rest :
  (∀ pre a, accept pre a ↔ P a ∧ ∀ x, x ∈ pre → R x a) →
  all_accepted accept pre rest ↔
  Forall P rest ∧ pairwise R rest ∧ ∀ x y, x ∈ pre → y ∈ rest → R x y.
Proof.
  intros Hacc. revert pre; induction rest as [|a rest IH]; intros pre; cbn.
  - split; [|done]. intros _. split_and!; [constructor|done|]. by intros x y _ ?%elem_of_nil.
  - rewrite Hacc, IH, Forall_cons, Forall_forall, Forall_forall.
    setoid_rewrite elem_of_app. setoid_rewrite list_elem_of_singleton.
    setoid_rewrite elem_of_cons. naive_solver.
Qed.

(** A boolean property of all numbers below a concrete bound, by evaluation. *)
Lemma forallb_below (P : N → bool) n :
  forallb P (N.of_nat <$> seq 0 (N.to_nat n)) = true → ∀ c, (c < n)%N → P c = true.
Proof.
  rewrite forallb_spec. intros H c Hc. apply H, list_elem_of_fmap. exists (N.to_nat c).
  rewrite N2Nat.id. split; [done|]. apply elem_of_seq. lia.
Qed.

(** Elements of a list with distinct keys are determined by their key. *)
Lemma NoDup_key_inj {A B} (f : A → B) (l : list A) x y :
  NoDup (f <$> l) → x ∈ l → y ∈ l → f x = f y → x = y.
Proof.
  induction l as [|a l IH]; [by intros _ ?%elem_of_nil|].
  rewrite fmap_cons, NoDup_cons, !elem_of_cons. intros [Hn Hl] [->|Hx] [->|Hy] Hf; auto.
  - destruct Hn. rewrite Hf. by apply list_elem_of_fmap_2.
  - destruct Hn. rewrite <- Hf. by apply list_elem_of_fmap_2.
Qed.
