(* ===== verification/Order.v ===== *)
(** * Orders, stable sorting and de-duplication

    The comparison functions of Rust's [Ord] and the [Vec] operations the program
    uses with them: [sort_by] (a stable sort), [dedup_by] on adjacent elements and
    [windows(2)].  [sort_by] is written as insertion sort; [sort_by_stable] and
    [stable_sort_unique] show that every stable sort computes the same list. *)

From S2P Require Import Prelude.
From stdpp Require Export sorting.

(** ** Comparison functions *)

(** A total preorder given as a three-way comparison (the contract Rust states
    for the closure of [sort_by]). *)
Class PreCmp {A} (cmp : A → A → comparison) : Prop := {
  cmp_antisym x y : cmp y x = CompOpp (cmp x y);
  cmp_le_trans x y z : cmp x y ≠ Gt → cmp y z ≠ Gt → cmp x z ≠ Gt
}.

Arguments cmp_antisym {A} cmp {_} x y.
Arguments cmp_le_trans {A} cmp {_} x y z.

(** A total order: elements that compare equal are equal ([Ord]). *)
Class TotalCmp {A} (cmp : A → A → comparison) : Prop := {
  total_pre :: PreCmp cmp;
  cmp_eq x y : cmp x y = Eq → x = y
}.
Arguments cmp_eq {A} cmp {_} x y.

(** [Ord::cmp] of a sequence: lexicographic. *)
Fixpoint list_cmp {A} (cmp : A → A → comparison) (l k : list A) : comparison :=
  match l, k with
  | [], [] => Eq
  | [], _ :: _ => Lt
  | _ :: _, [] => Gt
  | x :: l', y :: k' =>
      match cmp x y with
      | Eq => list_cmp cmp l' k'
      | c => c
      end
  end.

(** [Ordering::then]. *)
Definition cmp_then (c d : comparison) : comparison :=
  match c with Eq => d | _ => c end.

(** Comparison by a key. *)
Definition cmp_on {A B} (f : A → B) (cmp : B → B → comparison) (x y : A) : comparison :=
  cmp (f x) (f y).

(** The reversed order ([right.cmp(left)]). *)
Definition rev_cmp {A} (cmp : A → A → comparison) (x y : A) : comparison := cmp y x.

Definition pair_cmp {A B} (ca : A → A → comparison) (cb : B → B → comparison)
    (p q : A * B) : comparison :=
  cmp_then (ca p.1 q.1) (cb p.2 q.2).

(** [None < Some _]. *)
Definition option_cmp {A} (cmp : A → A → comparison) (o p : option A) : comparison :=
  match o, p with
  | None, None => Eq
  | None, Some _ => Lt
  | Some _, None => Gt
  | Some x, Some y => cmp x y
  end.

Definition cmp_le {A} (cmp : A → A → comparison) (x y : A) : Prop := cmp x y ≠ Gt.

#[export] Instance cmp_le_dec {A} (cmp : A → A → comparison) x y :
  Decision (cmp_le cmp x y).
Proof. unfold cmp_le. apply _. Defined.

#[global] Typeclasses Opaque cmp_on rev_cmp pair_cmp option_cmp list_cmp cmp_then.

(** ** Stable sorting *)

Fixpoint insert_by {A} (cmp : A → A → comparison) (x : A) (l : list A) : list A :=
  match l with
  | [] => [x]
  | y :: l' =>
      match cmp x y with
      | Gt => y :: insert_by cmp x l'
      | _ => x :: l
      end
  end.

(** [slice::sort_by]. *)
Fixpoint sort_by {A} (cmp : A → A → comparison) (l : list A) : list A :=
  match l with
  | [] => []
  | x :: l' => insert_by cmp x (sort_by cmp l')
  end.

(** [Vec::dedup_by(|next, kept| same next kept)]: drop an element when it equals the
    last one that was kept. *)
Fixpoint dedup_from {A} (same : A → A → bool) (kept : A) (l : list A) : list A :=
  match l with
  | [] => []
  | x :: l' => if same x kept then dedup_from same kept l' else x :: dedup_from same x l'
  end.

Definition dedup_by {A} (same : A → A → bool) (l : list A) : list A :=
  match l with
  | [] => []
  | x :: l' => x :: dedup_from same x l'
  end.

Definition dedup {A} `{EqDecision A} (l : list A) : list A :=
  dedup_by (λ x y, bool_decide (x = y)) l.

(** The first pair of adjacent equal keys: [for pair in v.windows(2)]. *)
Fixpoint first_adjacent_dup {A B} `{EqDecision B} (key : A → B) (l : list A) : option A :=
  match l with
  | x :: ((y :: _) as l') =>
      if decide (key x = key y) then Some x else first_adjacent_dup key l'
  | _ => None
  end.

(** ** Laws of the comparison functions *)

Section cmp_laws.
Context {A : Type} (cmp : A → A → comparison) `{!PreCmp cmp}.

Lemma cmp_refl x : cmp x x = Eq.
Proof. pose proof (cmp_antisym cmp x x) as H. by destruct (cmp x x). Qed.

Lemma cmp_Eq_sym x y : cmp x y = Eq → cmp y x = Eq.
Proof. intros H. by rewrite (cmp_antisym cmp), H. Qed.

Lemma cmp_Gt_le x y : cmp x y = Gt → cmp_le cmp y x.
Proof. intros H. unfold cmp_le. by rewrite (cmp_antisym cmp), H. Qed.

Lemma cmp_Eq_iff x y : cmp x y = Eq ↔ cmp_le cmp x y ∧ cmp_le cmp y x.
Proof.
  unfold cmp_le. rewrite (cmp_antisym cmp x y). destruct (cmp x y); simpl; naive_solver.
Qed.

#[export] Instance cmp_le_preorder : PreOrder (cmp_le cmp).
Proof.
  split; [intros x; unfold cmp_le; by rewrite cmp_refl|].
  intros x y z. by apply (cmp_le_trans cmp).
Qed.

#[export] Instance cmp_le_total : Total (cmp_le cmp).
Proof.
  intros x y. unfold cmp_le. rewrite (cmp_antisym cmp x y).
  destruct (cmp x y); simpl; auto.
Qed.

Lemma cmp_Eq_trans x y z : cmp x y = Eq → cmp y z = Eq → cmp x z = Eq.
Proof. rewrite !cmp_Eq_iff. intros [??] [??]; split; etrans; eauto. Qed.

Lemma cmp_Eq_left x y z : cmp x y = Eq → cmp x z = cmp y z.
Proof.
  intros Hxy. pose proof (cmp_Eq_sym _ _ Hxy) as Hyx.
  apply cmp_Eq_iff in Hxy as [H1 H2].
  destruct (cmp x z) eqn:Hx, (cmp y z) eqn:Hy; try done; exfalso.
  - apply cmp_Eq_iff in Hx as [H3 H4].
    assert (cmp_le cmp z y) as Hzy by by etrans.
    apply Hzy. by rewrite (cmp_antisym cmp), Hy.
  - apply cmp_Eq_iff in Hx as [H3 H4]. assert (cmp_le cmp y z) as Hyz by by etrans. by apply Hyz.
  - apply cmp_Eq_iff in Hy as [H3 H4].
    assert (cmp_le cmp z x) as Hzx by by etrans.
    apply Hzx. by rewrite (cmp_antisym cmp), Hx.
  - assert (cmp_le cmp y z) as Hyz by (etrans; [apply H2|]; unfold cmp_le; by rewrite Hx).
    by apply Hyz.
  - apply cmp_Eq_iff in Hy as [H3 H4]. assert (cmp_le cmp x z) as Hxz by by etrans. by apply Hxz.
  - assert (cmp_le cmp x z) as Hxz by (etrans; [apply H1|]; unfold cmp_le; by rewrite Hy).
    by apply Hxz.
Qed.
End cmp_laws.

Lemma cmp_eq_iff {A} (cmp : A → A → comparison) `{!TotalCmp cmp} x y : cmp x y = Eq ↔ x = y.
Proof. split; [apply (cmp_eq cmp)|intros ->; apply (cmp_refl cmp)]. Qed.

#[export] Instance cmp_le_anti_symm {A} (cmp : A → A → comparison) `{!TotalCmp cmp} :
  AntiSymm (=) (cmp_le cmp).
Proof. intros x y ??. apply (cmp_eq cmp). by apply (cmp_Eq_iff cmp). Qed.

#[export] Instance N_total_cmp : TotalCmp N.compare.
Proof.
  split; [split|].
  - intros x y. apply N.compare_antisym.
  - intros x y z. rewrite !N.compare_le_iff. lia.
  - intros x y. apply N.compare_eq.
Qed.

#[export] Instance Z_total_cmp : TotalCmp Z.compare.
Proof.
  split; [split|].
  - intros x y. apply Z.compare_antisym.
  - intros x y z. rewrite !Z.compare_le_iff. lia.
  - intros x y. apply Z.compare_eq.
Qed.

#[export] Instance cmp_on_pre {A B} (f : A → B) cmp `{!PreCmp cmp} : PreCmp (cmp_on f cmp).
Proof.
  split; unfold cmp_on; [intros; apply (cmp_antisym cmp) | intros x y z; apply (cmp_le_trans cmp)].
Qed.

#[export] Instance rev_cmp_pre {A} (cmp : A → A → comparison) `{!PreCmp cmp} : PreCmp (rev_cmp cmp).
Proof.
  split; unfold rev_cmp; [intros; apply (cmp_antisym cmp) | intros x y z ??; by eapply (cmp_le_trans cmp)].
Qed.

(** Lexicographic composition of two comparisons on the same type. *)
Lemma cmp_then_Eq c d : cmp_then c d = Eq ↔ c = Eq ∧ d = Eq.
Proof. destruct c; cbn; naive_solver. Qed.

#[export] Instance cmp_then_pre {A} (c d : A → A → comparison) `{!PreCmp c, !PreCmp d} :
  PreCmp (λ x y, cmp_then (c x y) (d x y)).
Proof.
  split.
  - intros x y. rewrite (cmp_antisym c x y), (cmp_antisym d x y).
    by destruct (c x y).
  - intros x y z. unfold cmp_then. intros Hxy Hyz.
    destruct (c x y) eqn:Exy; [|destruct (c y z) eqn:Eyz|done].
    + rewrite (cmp_Eq_left c x y z Exy).
      destruct (c y z); [by eapply (cmp_le_trans d)|done|done].
    + apply (cmp_Eq_sym c) in Eyz. rewrite (cmp_antisym c z x).
      by rewrite (cmp_Eq_left c z y x Eyz), (cmp_antisym c x y), Exy.
    + destruct (c x z) eqn:Exz; [|done|].
      * apply (cmp_Eq_sym c) in Exz. rewrite (cmp_antisym c z y) in Eyz.
        rewrite (cmp_Eq_left c z x y Exz), Exy in Eyz. done.
      * exfalso. revert Exz. apply (cmp_le_trans _ x y z); by rewrite ?Exy, ?Eyz.
    + done.
Qed.

#[export] Instance pair_cmp_total {A B} (ca : A → A → comparison) (cb : B → B → comparison)
  `{!TotalCmp ca, !TotalCmp cb} : TotalCmp (pair_cmp ca cb).
Proof.
  split.
  - apply (cmp_then_pre (cmp_on fst ca) (cmp_on snd cb)).
  - intros [x1 x2] [y1 y2]; unfold pair_cmp, cmp_then; simpl.
    destruct (ca x1 y1) eqn:E; [|done|done]. intros E'.
    by rewrite (cmp_eq _ _ _ E), (cmp_eq _ _ _ E').
Qed.

#[export] Instance option_cmp_total {A} (cmp : A → A → comparison) `{!TotalCmp cmp} :
  TotalCmp (option_cmp cmp).
Proof.
  split; [split|].
  - intros [x|] [y|]; simpl; auto. apply (cmp_antisym cmp).
  - intros [x|] [y|] [z|]; simpl; auto; try done. apply (cmp_le_trans cmp).
  - intros [x|] [y|]; simpl; try done. intros H. by rewrite (cmp_eq _ _ _ H).
Qed.

Lemma list_cmp_antisym {A} (cmp : A → A → comparison) `{!PreCmp cmp} l k :
  list_cmp cmp k l = CompOpp (list_cmp cmp l k).
Proof.
  revert k; induction l as [|x l IH]; intros [|y k]; simpl; try done.
  rewrite (cmp_antisym cmp x y). destruct (cmp x y); simpl; auto.
Qed.

#[export] Instance list_cmp_total {A} (cmp : A → A → comparison) `{!TotalCmp cmp} :
  TotalCmp (list_cmp cmp).
Proof.
  split; [split|].
  - intros l k. by apply list_cmp_antisym; apply _.
  - intros l. induction l as [|x l IH]; intros [|y k] [|z m]; simpl; try done.
    intros H1 H2.
    destruct (cmp x y) eqn:Exy; [| |done].
    + rewrite (cmp_Eq_left cmp x y z Exy). destruct (cmp y z); [by apply (IH k)|done|done].
    + destruct (cmp y z) eqn:Eyz; [| |done].
      * apply (cmp_eq cmp) in Eyz as ->. by rewrite Exy.
      * destruct (cmp x z) eqn:Exz; [|done|].
        -- apply (cmp_eq cmp) in Exz as ->. by rewrite (cmp_antisym cmp), Exy in Eyz.
        -- exfalso. revert Exz. apply (cmp_le_trans _ x y z); by rewrite ?Exy, ?Eyz.
  - intros l. induction l as [|x l IH]; intros [|y k]; simpl; try done.
    destruct (cmp x y) eqn:E; [|done|done].
    intros H. by rewrite (cmp_eq _ _ _ E), (IH _ H).
Qed.

(** ** Laws of the stable sort *)

Lemma StronglySorted_snoc {A} (R : A → A → Prop) l x :
  StronglySorted R l → Forall (λ y, R y x) l → StronglySorted R (l ++ [x]).
Proof.
  induction 1 as [|y l _ IH Hy]; cbn; [repeat constructor|].
  intros [Hyx Hl]%Forall_cons. constructor; [auto|]. apply Forall_app. by split; [|constructor].
Qed.

Lemma StronglySorted_reverse {A} (R : A → A → Prop) l :
  StronglySorted R l → StronglySorted (flip R) (reverse l).
Proof.
  induction 1 as [|x l _ IH Hx]; [constructor|]. rewrite reverse_cons.
  apply StronglySorted_snoc; [done|]. by rewrite Forall_reverse.
Qed.

Lemma StronglySorted_impl {A} (R S : A → A → Prop) l :
  (∀ x y, R x y → S x y) → StronglySorted R l → StronglySorted S l.
Proof.
  intros HRS. induction 1 as [|x l _ IH Hx]; constructor; [done|].
  eapply Forall_impl; [exact Hx|]. auto.
Qed.

Section sort_laws.
Context {A : Type} (cmp : A → A → comparison) `{!PreCmp cmp}.

Lemma insert_by_perm x l : insert_by cmp x l ≡ₚ x :: l.
Proof.
  induction l as [|y l IH]; simpl; [done|].
  destruct (cmp x y); [done..|]. rewrite IH. apply Permutation_swap.
Qed.

Lemma sort_by_perm l : sort_by cmp l ≡ₚ l.
Proof. induction l as [|x l IH]; simpl; [done|]. by rewrite insert_by_perm, IH. Qed.

Lemma elem_of_sort_by x l : x ∈ sort_by cmp l ↔ x ∈ l.
Proof. by rewrite (sort_by_perm l). Qed.

Lemma length_sort_by l : length (sort_by cmp l) = length l.
Proof. by rewrite (sort_by_perm l). Qed.

Lemma insert_by_sorted x l :
  StronglySorted (cmp_le cmp) l → StronglySorted (cmp_le cmp) (insert_by cmp x l).
Proof.
  induction 1 as [|y l Hl IH Hall]; simpl; [repeat constructor|].
  assert (cmp_le cmp x y → StronglySorted (cmp_le cmp) (x :: y :: l)) as Hle.
  { intros Hle. repeat constructor; try done.
    eapply Forall_impl; [done|]. intros z. by etrans. }
  unfold cmp_le in Hle at 1. destruct (cmp x y) eqn:E; [by apply Hle..|].
  constructor; [done|]. rewrite insert_by_perm. constructor; [|done].
  by apply (cmp_Gt_le cmp).
Qed.

Lemma sort_by_sorted l : StronglySorted (cmp_le cmp) (sort_by cmp l).
Proof. induction l; simpl; [constructor | by apply insert_by_sorted]. Qed.

(** Elements that compare equal keep their order. *)
Lemma insert_by_filter x l z :
  StronglySorted (cmp_le cmp) l →
  filter (λ y, cmp z y = Eq) (insert_by cmp x l) = filter (λ y, cmp z y = Eq) (x :: l).
Proof.
  induction 1 as [|y l Hl IH Hall]; simpl; [done|].
  destruct (cmp x y) eqn:Exy; [done..|].
  rewrite !filter_cons, IH, filter_cons.
  destruct (decide (cmp z y = Eq)) as [Hzy|]; [|done].
  destruct (decide (cmp z x = Eq)) as [Hzx|]; [|done]. exfalso.
  by rewrite <- (cmp_Eq_left cmp z x y Hzx), Hzy in Exy.
Qed.

Lemma sort_by_stable l z :
  filter (λ y, cmp z y = Eq) (sort_by cmp l) = filter (λ y, cmp z y = Eq) l.
Proof.
  induction l as [|x l IH]; simpl; [done|].
  rewrite insert_by_filter by apply sort_by_sorted. rewrite !filter_cons.
  case_decide; by rewrite IH.
Qed.

(** The result is determined by sortedness and stability: any algorithm with these two
    properties computes [sort_by]. *)
Lemma stable_sort_unique l k :
  StronglySorted (cmp_le cmp) l → StronglySorted (cmp_le cmp) k → l ≡ₚ k →
  (∀ z, filter (λ y, cmp z y = Eq) l = filter (λ y, cmp z y = Eq) k) → l = k.
Proof.
  intros Hl. revert k. induction Hl as [|x l Hl IH Hx]; intros k Hk Hp Hf.
  { by apply Permutation_nil_l in Hp. }
  destruct Hk as [|y k Hk Hy]; [by apply Permutation_nil_r in Hp|].
  assert (cmp x y = Eq) as Hxy.
  { apply (cmp_Eq_iff cmp). split.
    - assert (y ∈ x :: l) as [->|Hin]%elem_of_cons by (rewrite Hp; left); [done|].
      rewrite Forall_forall in Hx. auto.
    - assert (x ∈ y :: k) as [->|Hin]%elem_of_cons by (rewrite <- Hp; left); [done|].
      rewrite Forall_forall in Hy. auto. }
  assert (x = y) as ->.
  { pose proof (Hf x) as Hf'. rewrite !filter_cons in Hf'.
    rewrite !decide_True in Hf' by (done || apply (cmp_refl cmp)). by injection Hf'. }
  f_equal. apply IH; [done|by apply Permutation_cons_inv in Hp|].
  intros z. specialize (Hf z). rewrite !filter_cons in Hf. case_decide; congruence.
Qed.

(** Equal inputs up to order give equal outputs when ties are equal elements. *)
Lemma sort_by_unique l k :
  (∀ x y, x ∈ l → y ∈ l → cmp x y = Eq → x = y) → l ≡ₚ k → sort_by cmp l = sort_by cmp k.
Proof.
  intros Htie Hp. apply (StronglySorted_unique_strong (cmp_le cmp)).
  - intros x y Hx Hy H1 H2. rewrite elem_of_sort_by in Hx, Hy. rewrite <- Hp in Hy.
    apply Htie; [done..|]. by apply (cmp_Eq_iff cmp).
  - apply sort_by_sorted.
  - apply sort_by_sorted.
  - by rewrite !sort_by_perm.
Qed.

Lemma sort_by_id l : StronglySorted (cmp_le cmp) l → sort_by cmp l = l.
Proof.
  induction 1 as [|x l Hl IH Hall]; simpl; [done|]. rewrite IH.
  destruct l as [|y l]; simpl; [done|].
  apply Forall_cons in Hall as [Hle _]. unfold cmp_le in Hle.
  by destruct (cmp x y).
Qed.

Lemma sort_by_idemp l : sort_by cmp (sort_by cmp l) = sort_by cmp l.
Proof. apply sort_by_id, sort_by_sorted. Qed.
End sort_laws.

Lemma sort_by_key_perm {A B} (f : A → B) (c : B → B → comparison) `{!TotalCmp c} l k :
  NoDup (f <$> l) → l ≡ₚ k → sort_by (cmp_on f c) l = sort_by (cmp_on f c) k.
Proof.
  intros Hnd. apply (sort_by_unique (cmp_on f c)). intros x y Hx Hy Hc.
  apply (NoDup_key_inj f l); [done..|]. by apply (cmp_eq c).
Qed.

Lemma sort_by_perm_total {A} (cmp : A → A → comparison) `{!TotalCmp cmp} l k :
  l ≡ₚ k → sort_by cmp l = sort_by cmp k.
Proof. apply (sort_by_unique cmp). intros x y _ _. apply (cmp_eq cmp). Qed.

#[export] Instance sort_by_proper {A} (cmp : A → A → comparison) `{!TotalCmp cmp} :
  Proper ((≡ₚ) ==> (=)) (sort_by cmp).
Proof. intros l k. by apply sort_by_perm_total. Qed.

(** Sorting by a key commutes with projecting the key. *)
Lemma fmap_insert_by {A B} (f : A → B) (c : B → B → comparison) x l :
  f <$> insert_by (cmp_on f c) x l = insert_by c (f x) (f <$> l).
Proof.
  induction l as [|y l IH]; [done|]. cbn. change (cmp_on f c x y) with (c (f x) (f y)).
  destruct (c (f x) (f y)); [done..|]. cbn. f_equal. apply IH.
Qed.

Lemma fmap_sort_by {A B} (f : A → B) (c : B → B → comparison) l :
  f <$> sort_by (cmp_on f c) l = sort_by c (f <$> l).
Proof. induction l as [|x l IH]; [done|]. cbn. by rewrite fmap_insert_by, IH. Qed.

(** Sorting by a key on which two lists agree, element by element. *)
Lemma insert_by_Forall2 {A} (R : relation A) cmp x y l k :
  (∀ a a' b b', R a a' → R b b' → cmp a b = cmp a' b') →
  R x y → Forall2 R l k → Forall2 R (insert_by cmp x l) (insert_by cmp y k).
Proof.
  intros Hc Hxy. induction 1 as [|a b l k Hab Hlk IH]; simpl; [by repeat constructor|].
  rewrite (Hc x y a b) by done. destruct (cmp y b); by repeat constructor.
Qed.

Lemma sort_by_Forall2 {A} (R : relation A) cmp l k :
  (∀ a a' b b', R a a' → R b b' → cmp a b = cmp a' b') →
  Forall2 R l k → Forall2 R (sort_by cmp l) (sort_by cmp k).
Proof. intros Hc. induction 1; simpl; [done|]. by apply insert_by_Forall2. Qed.

(** ** Laws of de-duplication *)

Lemma elem_of_dedup_from {A} (same : A → A → bool) x kept l :
  x ∈ dedup_from same kept l → x ∈ l.
Proof.
  revert kept; induction l as [|y l IH]; intros kept; simpl; [done|].
  destruct (same y kept); rewrite ?elem_of_cons; naive_solver.
Qed.

Lemma elem_of_dedup_by {A} (same : A → A → bool) x l : x ∈ dedup_by same l → x ∈ l.
Proof.
  destruct l as [|y l]; simpl; [done|]. rewrite !elem_of_cons.
  intros [->|?%elem_of_dedup_from]; auto.
Qed.

Lemma dedup_from_sublist {A} (same : A → A → bool) kept l :
  sublist (dedup_from same kept l) l.
Proof.
  revert kept; induction l as [|y l IH]; intros kept; simpl; [constructor|].
  destruct (same y kept); constructor; auto.
Qed.

Lemma dedup_by_sublist {A} (same : A → A → bool) l : sublist (dedup_by same l) l.
Proof. destruct l; simpl; constructor. apply dedup_from_sublist. Qed.

(** Every dropped element is equivalent to one that is kept. *)
Lemma dedup_from_repr {A} (same : A → A → bool) x kept l :
  (∀ a, same a a = true) →
  x ∈ l → ∃ y, y ∈ kept :: dedup_from same kept l ∧ same x y = true.
Proof.
  intros Hrefl. revert kept; induction l as [|z l IH]; intros kept; simpl; [by intros ?%elem_of_nil|].
  rewrite elem_of_cons. intros [->|Hx].
  - destruct (same z kept) eqn:E.
    + exists kept. split; [left|done].
    + exists z. split; [right; left|done].
  - destruct (same z kept) eqn:E; [by apply IH|].
    destruct (IH z Hx) as (y & Hy & Hxy). exists y. split; [by right|done].
Qed.

Lemma dedup_by_repr {A} (same : A → A → bool) x l :
  (∀ a, same a a = true) → x ∈ l → ∃ y, y ∈ dedup_by same l ∧ same x y = true.
Proof.
  intros Hrefl. destruct l as [|z l]; simpl; [by intros ?%elem_of_nil|].
  rewrite elem_of_cons. intros [->|Hx].
  - exists z. split; [left|done].
  - by apply dedup_from_repr.
Qed.

(** In a sorted list the representative is the element itself or one that sorts before it. *)
Lemma dedup_from_first {A} (same : A → A → bool) (R : relation A) x kept l :
  (∀ a, same a a = true) → StronglySorted R (kept :: l) →
  x ∈ l → ∃ y, y ∈ kept :: dedup_from same kept l ∧ same x y = true ∧ (y = x ∨ R y x).
Proof.
  intros Hrefl. revert kept; induction l as [|z l IH]; intros kept Hs; simpl;
    [by intros ?%elem_of_nil|].
  apply StronglySorted_inv in Hs as [Hs Hk].
  pose proof (StronglySorted_inv Hs) as [Hs' _].
  rewrite elem_of_cons. intros [->|Hx].
  - destruct (same z kept) eqn:E.
    + exists kept. split_and!; [by left|done|right]. by apply Forall_inv in Hk.
    + exists z. split_and!; [by right; left|done|by left].
  - destruct (same z kept) eqn:E.
    + apply IH; [|done]. constructor; [done|]. by apply Forall_inv_tail in Hk.
    + destruct (IH z Hs Hx) as (y & Hy & Hxy). exists y. split; [by right|done].
Qed.

Lemma dedup_by_first {A} (same : A → A → bool) (R : relation A) x l :
  (∀ a, same a a = true) → StronglySorted R l →
  x ∈ l → ∃ y, y ∈ dedup_by same l ∧ same x y = true ∧ (y = x ∨ R y x).
Proof.
  intros Hrefl Hs. destruct l as [|z l]; simpl; [by intros ?%elem_of_nil|].
  rewrite elem_of_cons. intros [->|Hx].
  - exists z. split_and!; [left|done|by left].
  - by apply dedup_from_first.
Qed.

Lemma elem_of_dedup {A} `{EqDecision A} (x : A) l : x ∈ dedup l ↔ x ∈ l.
Proof.
  split; [apply elem_of_dedup_by|]. intros Hx.
  destruct (dedup_by_repr (λ x y, bool_decide (x = y)) x l) as (y & Hy & Hxy); [|done|].
  - intros a. by apply bool_decide_eq_true_2.
  - by apply bool_decide_eq_true_1 in Hxy as ->.
Qed.

(** Sorting and de-duplicating under a total order depends on the set of elements only. *)
Lemma dedup_from_sorted {A} `{EqDecision A} (cmp : A → A → comparison) `{!TotalCmp cmp} x l :
  StronglySorted (cmp_le cmp) (x :: l) →
  StronglySorted (λ a b, cmp a b = Lt)
    (x :: dedup_from (λ x y, bool_decide (x = y)) x l).
Proof.
  revert x; induction l as [|y l IH]; intros x Hs; simpl; [repeat constructor|].
  apply StronglySorted_inv in Hs as [Hs Hx].
  pose proof (Forall_inv Hx) as Hxy. case_bool_decide as Heq.
  - subst y. by apply IH.
  - constructor; [by apply IH|].
    assert (cmp x y = Lt) as Hlt.
    { unfold cmp_le in Hxy. destruct (cmp x y) eqn:E; [|done|done].
      apply (cmp_eq cmp) in E. congruence. }
    constructor; [done|]. apply Forall_forall. intros z Hz%elem_of_dedup_from.
    apply StronglySorted_inv in Hs as [_ Hy]. rewrite Forall_forall in Hy, Hx.
    assert (cmp_le cmp x z) as Hxz by (apply Hx; by right).
    destruct (cmp x z) eqn:E; [|done|done]. exfalso.
    apply (cmp_eq cmp) in E as ->. specialize (Hy z Hz). unfold cmp_le in Hy.
    by rewrite (cmp_antisym cmp), Hlt in Hy.
Qed.

Lemma dedup_sort_sorted {A} `{EqDecision A} (cmp : A → A → comparison) `{!TotalCmp cmp} l :
  StronglySorted (λ a b, cmp a b = Lt) (dedup (sort_by cmp l)).
Proof.
  pose proof (sort_by_sorted cmp l) as Hs. unfold dedup, dedup_by.
  destruct (sort_by cmp l) as [|x k]; [constructor|]. by apply dedup_from_sorted.
Qed.

Lemma StronglySorted_Lt_NoDup {A} (cmp : A → A → comparison) `{!TotalCmp cmp} l :
  StronglySorted (λ a b, cmp a b = Lt) l → NoDup l.
Proof.
  induction 1 as [|x l Hl IH Hx]; constructor; [|done]. intros Hin.
  rewrite Forall_forall in Hx. specialize (Hx x Hin). by rewrite (cmp_refl cmp) in Hx.
Qed.

Lemma StronglySorted_Lt_unique {A} (cmp : A → A → comparison) `{!TotalCmp cmp} l k :
  StronglySorted (λ a b, cmp a b = Lt) l → StronglySorted (λ a b, cmp a b = Lt) k →
  (∀ x, x ∈ l ↔ x ∈ k) → l = k.
Proof.
  intros Hl Hk Hin.
  apply (StronglySorted_unique_strong (λ a b, cmp a b = Lt)); [|done|done|].
  - intros x y _ _ H1 H2. by rewrite (cmp_antisym cmp), H1 in H2.
  - apply NoDup_Permutation; eauto using StronglySorted_Lt_NoDup.
Qed.

Lemma dedup_sort_ext {A} `{EqDecision A} (cmp : A → A → comparison) `{!TotalCmp cmp} l k :
  (∀ x, x ∈ l ↔ x ∈ k) → dedup (sort_by cmp l) = dedup (sort_by cmp k).
Proof.
  intros Hin. apply (StronglySorted_Lt_unique cmp); [apply dedup_sort_sorted; apply _..|].
  intros x. by rewrite !elem_of_dedup, !(elem_of_sort_by cmp).
Qed.

Lemma dedup_sort_id {A} `{EqDecision A} (cmp : A → A → comparison) `{!TotalCmp cmp} l :
  StronglySorted (λ a b, cmp a b = Lt) l → dedup (sort_by cmp l) = l.
Proof.
  intros Hl. apply (StronglySorted_Lt_unique cmp); [by apply dedup_sort_sorted|done|].
  intros x. by rewrite elem_of_dedup, (elem_of_sort_by cmp).
Qed.

(** ** Adjacent duplicates of a sorted list *)

Lemma first_adjacent_dup_Some {A B} `{EqDecision B} (key : A → B) l x :
  first_adjacent_dup key l = Some x → x ∈ l ∧ ¬ NoDup (key <$> l).
Proof.
  induction l as [|a [|b l] IH]; [done..|].
  cbn [first_adjacent_dup]. case_decide as Hk.
  - intros [= <-]. split; [left|]. rewrite !fmap_cons, Hk, NoDup_cons. intros [[] _]. left.
  - intros [Hx Hnd]%IH. split; [by right|]. rewrite fmap_cons, NoDup_cons. tauto.
Qed.

Lemma first_adjacent_dup_None {A B} `{EqDecision B} (key : A → B)
    (c : B → B → comparison) `{!TotalCmp c} l :
  StronglySorted (cmp_le (cmp_on key c)) l → first_adjacent_dup key l = None →
  NoDup (key <$> l).
Proof.
  induction 1 as [|a l Hl IH Ha]; [intros _; constructor|].
  destruct l as [|b l]; [intros _; apply NoDup_singleton|].
  cbn [first_adjacent_dup]. case_decide as Hk; [done|]. intros Hd.
  rewrite fmap_cons, NoDup_cons. split; [|by apply IH].
  intros (z & Hz & Hin)%list_elem_of_fmap. apply Hk.
  pose proof (Forall_inv Ha) as Hab. unfold cmp_le, cmp_on in Hab.
  apply elem_of_cons in Hin as [->|Hin]; [done|].
  apply StronglySorted_inv in Hl as [_ Hb]. rewrite Forall_forall in Hb.
  specialize (Hb z Hin). unfold cmp_le, cmp_on in Hb.
  apply (anti_symm (cmp_le c)); [done|]. by rewrite Hz.
Qed.

Lemma first_adjacent_dup_fmap {A B} `{EqDecision B} (key : A → B) l :
  key <$> first_adjacent_dup key l = first_adjacent_dup id (key <$> l).
Proof.
  induction l as [|a [|b l] IH]; [done..|]. cbn -[decide].
  case_decide; [done|]. apply IH.
Qed.
