(* ===== verification/Text.v ===== *)
(** * Text: Rust strings as lists of Unicode scalar values

    A Rust [String] is modelled as the list of its [char]s, each the number of its
    code point.  [String::len] counts UTF-8 bytes ([byte_len]), [chars().count()] is
    the length of the list.  Rust compares strings by their UTF-8 bytes, which is the
    code-point order ([str_cmp], see [utf8_cmp]). *)

From S2P Require Import Prelude Order.
From Stdlib Require Import Ascii.

Local Open Scope N_scope.

(** A Rust [char] and a Rust [String]. *)
Abbreviation char := N (only parsing).
Abbreviation str := (list N).

(** A string literal of the program (all of them are ASCII). *)
Fixpoint lit (s : string) : str :=
  match s with
  | EmptyString => []
  | String a s' => N_of_ascii a :: lit s'
  end.

(** ** Character classes *)

Definition in_range (lo hi c : char) : bool := (lo <=? c) && (c <=? hi).

(** [char::is_control]: the Unicode category Cc. *)
Definition is_control (c : char) : bool := in_range 0 31 c || in_range 127 159 c.

(** [char::is_whitespace]: the Unicode property White_Space. *)
Definition is_whitespace (c : char) : bool :=
  in_range 9 13 c || (c =? 32) || (c =? 133) || (c =? 160) || (c =? 5760)
  || in_range 8192 8202 c || (c =? 8232) || (c =? 8233) || (c =? 8239) || (c =? 8287)
  || (c =? 12288).

Definition is_ascii (c : char) : bool := c <? 128.
Definition is_ascii_uppercase (c : char) : bool := in_range 65 90 c.
Definition is_ascii_lowercase (c : char) : bool := in_range 97 122 c.
Definition is_ascii_digit (c : char) : bool := in_range 48 57 c.
Definition is_ascii_alphabetic (c : char) : bool := is_ascii_uppercase c || is_ascii_lowercase c.
Definition is_ascii_alphanumeric (c : char) : bool := is_ascii_alphabetic c || is_ascii_digit c.
Definition is_ascii_hexdigit (c : char) : bool :=
  is_ascii_digit c || in_range 97 102 c || in_range 65 70 c.
(** [char::is_ascii_punctuation]-free classes used by the validators. *)
Definition is_ascii_graphic (c : char) : bool := in_range 33 126 c.
Definition is_lower_hex (c : char) : bool := is_ascii_digit c || in_range 97 102 c.

Definition to_ascii_lowercase_char (c : char) : char := if is_ascii_uppercase c then c + 32 else c.
Definition to_ascii_uppercase_char (c : char) : char := if is_ascii_lowercase c then c - 32 else c.
Definition to_ascii_lowercase (s : str) : str := to_ascii_lowercase_char <$> s.
Definition to_ascii_uppercase (s : str) : str := to_ascii_uppercase_char <$> s.

(** A Unicode scalar value. *)
Definition is_scalar (c : char) : bool := (c <? 55296) || in_range 57344 1114111 c.

(** ** UTF-8 *)

Definition utf8_len (c : char) : N :=
  if c <? 128 then 1 else if c <? 2048 then 2 else if c <? 65536 then 3 else 4.

Definition utf8_char (c : char) : list N :=
  if c <? 128 then [c]
  else if c <? 2048 then [192 + c / 64; 128 + c mod 64]
  else if c <? 65536 then [224 + c / 4096; 128 + (c / 64) mod 64; 128 + c mod 64]
  else [240 + c / 262144; 128 + (c / 4096) mod 64; 128 + (c / 64) mod 64; 128 + c mod 64].

(** [str::as_bytes]. *)
Definition utf8 (s : str) : list N := s ≫= utf8_char.

(** [str::len]. *)
Fixpoint byte_len (s : str) : N :=
  match s with
  | [] => 0
  | c :: s' => utf8_len c + byte_len s'
  end.

(** ** Searching and splitting *)

Fixpoint strip_prefix (p s : str) : option str :=
  match p, s with
  | [], _ => Some s
  | a :: p', b :: s' => if a =? b then strip_prefix p' s' else None
  | _ :: _, [] => None
  end.

Definition starts_with (p s : str) : bool :=
  match strip_prefix p s with Some _ => true | None => false end.

Definition ends_with (p s : str) : bool := starts_with (reverse p) (reverse s).

(** [s.strip_suffix(p)]. *)
Definition strip_suffix (p s : str) : option str :=
  reverse <$> strip_prefix (reverse p) (reverse s).

(** [s.contains(p)] for a string pattern. *)
Fixpoint contains (p s : str) : bool :=
  starts_with p s || match s with [] => false | _ :: s' => contains p s' end.

(** [s.split(sep)] for a [char] separator. *)
Fixpoint split_char (sep : char) (s : str) : list str :=
  match s with
  | [] => [[]]
  | c :: s' =>
      if c =? sep then [] :: split_char sep s'
      else match split_char sep s' with
           | [] => [[c]]
           | w :: ws => (c :: w) :: ws
           end
  end.

(** [s.split_once(sep)] for a [char] separator. *)
Fixpoint split_once (sep : char) (s : str) : option (str * str) :=
  match s with
  | [] => None
  | c :: s' =>
      if c =? sep then Some ([], s')
      else match split_once sep s' with
           | Some (a, b) => Some (c :: a, b)
           | None => None
           end
  end.

(** [s.rsplit_once(sep)] for a [char] separator. *)
Definition rsplit_once (sep : char) (s : str) : option (str * str) :=
  match split_once sep (reverse s) with
  | Some (after, before) => Some (reverse before, reverse after)
  | None => None
  end.

(** [Vec<String>::join(sep)]. *)
Fixpoint join (sep : str) (l : list str) : str :=
  match l with
  | [] => []
  | [w] => w
  | w :: l' => w ++ sep ++ join sep l'
  end.

Fixpoint drop_while {A} (f : A → bool) (l : list A) : list A :=
  match l with
  | [] => []
  | x :: l' => if f x then drop_while f l' else l
  end.

Definition trim_start (s : str) : str := drop_while is_whitespace s.
Definition trim_end (s : str) : str := reverse (drop_while is_whitespace (reverse s)).
Definition trim (s : str) : str := trim_end (trim_start s).
#[global] Arguments trim _ : simpl never.

Definition is_empty (s : str) : bool := match s with [] => true | _ => false end.

(** Decimal rendering of an unsigned number ([to_string]). *)
Definition dec (n : N) : str := lit (pretty n).
Definition zdec (z : Z) : str := lit (pretty z).

(** [format!("{n:04}")]. *)
Definition dec04 (n : N) : str :=
  let d := dec n in replicate (4 - length d) 48 ++ d.

(** ** Unix paths *)

(** [std::path::Component] on Unix. *)
Inductive component :=
| RootDir
| CurDir
| ParentDir
| NormalDir (name : str).

#[export] Instance component_eq_dec : EqDecision component.
Proof. solve_decision. Defined.

Definition is_absolute (path : str) : bool := starts_with (lit "/") path.

Definition segment_component (segment : str) : list component :=
  if is_empty segment then []
  else if bool_decide (segment = lit ".") then []
  else if bool_decide (segment = lit "..") then [ParentDir]
  else [NormalDir segment].

(** [Path::components]: repeated separators and inner [.] segments are dropped, a leading [.]
    is kept. *)
Definition path_components (path : str) : list component :=
  (if is_absolute path then [RootDir]
   else match split_char 47 path with
        | first :: _ => if bool_decide (first = lit ".") then [CurDir] else []
        | [] => []
        end) ++
  (split_char 47 path ≫= segment_component).

(** [Path::join]. *)
Definition path_join (base path : str) : str :=
  if is_absolute path then path
  else if is_empty base || ends_with (lit "/") base then base ++ path
  else base ++ lit "/" ++ path.

(** ** Ordering *)

Definition str_cmp : str → str → comparison := list_cmp N.compare.

#[export] Instance str_cmp_total : TotalCmp str_cmp.
Proof. unfold str_cmp. apply _. Qed.
#[global] Typeclasses Opaque str_cmp.

Definition str_lt (s t : str) : bool := match str_cmp s t with Lt => true | _ => false end.
Definition str_le (s t : str) : bool := match str_cmp s t with Gt => false | _ => true end.

(** ** Literals *)

Lemma is_empty_nil (l : str) : is_empty l = false ↔ l ≠ [].
Proof. by destruct l. Qed.

Lemma lit_inj s t : lit s = lit t → s = t.
Proof.
  revert t; induction s as [|a s IH]; intros [|b t]; simpl; try done.
  intros [= Hc Hs]. f_equal; [|by apply IH].
  by rewrite <- (ascii_N_embedding a), <- (ascii_N_embedding b), Hc.
Qed.

#[export] Instance lit_inj' : Inj (=) (=) lit.
Proof. intros s t. apply lit_inj. Qed.

#[export] Instance dec_inj : Inj (=) (=) dec.
Proof. intros m n H. apply (inj lit) in H. by apply (inj pretty) in H. Qed.

Lemma lit_app s t : lit (s +:+ t) = lit s ++ lit t.
Proof. induction s as [|a s IH]; simpl; [done|]. by rewrite IH. Qed.

(** ** Trimming *)

Lemma drop_while_suffix {A} (f : A → bool) l : ∃ k, l = k ++ drop_while f l ∧ forallb f k = true.
Proof.
  induction l as [|x l (k & Hk & Hf)]; simpl; [by exists []|].
  destruct (f x) eqn:E; [|by exists []].
  exists (x :: k). simpl. by rewrite E, Hf, <- Hk.
Qed.

Lemma drop_while_head {A} (f : A → bool) l x l' : drop_while f l = x :: l' → f x = false.
Proof.
  induction l as [|y l IH]; simpl; [done|].
  destruct (f y) eqn:E; [done|]. by intros [= -> _].
Qed.

Lemma drop_while_id {A} (f : A → bool) l :
  (∀ x l', l = x :: l' → f x = false) → drop_while f l = l.
Proof. destruct l as [|x l]; simpl; [done|]. intros H. by rewrite (H x l). Qed.

Lemma elem_of_drop_while {A} (f : A → bool) l x : x ∈ drop_while f l → x ∈ l.
Proof.
  destruct (drop_while_suffix f l) as (k & Hk & _). intros Hx. rewrite Hk, elem_of_app. by right.
Qed.

Lemma elem_of_trim c s : c ∈ trim s → c ∈ s.
Proof.
  unfold trim, trim_end, trim_start.
  rewrite elem_of_reverse. intros H%elem_of_drop_while. rewrite elem_of_reverse in H.
  by eapply elem_of_drop_while.
Qed.

(** What [trim] leaves: no whitespace at either end. *)
Definition trimmed (s : str) : Prop :=
  (∀ c s', s = c :: s' → is_whitespace c = false) ∧
  (∀ c s', s = s' ++ [c] → is_whitespace c = false).

Lemma trim_end_prefix s : ∃ k, s = trim_end s ++ k.
Proof.
  unfold trim_end. destruct (drop_while_suffix is_whitespace (reverse s)) as (k & Hk & _).
  exists (reverse k). rewrite <- reverse_app, <- Hk. by rewrite reverse_involutive.
Qed.

Lemma trim_trimmed s : trimmed (trim s).
Proof.
  split; intros c s'.
  - unfold trim. destruct (trim_end_prefix (trim_start s)) as [k Hk]. intros Heq.
    rewrite Heq in Hk. unfold trim_start in Hk.
    by apply drop_while_head in Hk.
  - unfold trim, trim_end. intros Heq. apply (f_equal reverse) in Heq.
    rewrite reverse_involutive, reverse_app in Heq. by apply drop_while_head in Heq.
Qed.

Lemma trimmed_trim s : trimmed s → trim s = s.
Proof.
  intros [Hs He]. unfold trim, trim_start. rewrite drop_while_id by done.
  unfold trim_end. rewrite drop_while_id; [apply reverse_involutive|].
  intros c s' Heq. apply (He c (reverse s')).
  rewrite <- (reverse_involutive s), Heq, reverse_cons. done.
Qed.

Lemma trim_idemp s : trim (trim s) = trim s.
Proof. apply trimmed_trim, trim_trimmed. Qed.

#[export] Hint Resolve trim_trimmed : wts.
#[export] Hint Rewrite trim_idemp : wts.

(** ** UTF-8 is injective and order preserving *)

(** Decode one character (the inverse of [utf8_char] on its image). *)
Definition utf8_decode_char (l : list N) : option (char * list N) :=
  match l with
  | b0 :: r0 =>
      if b0 <? 128 then Some (b0, r0)
      else match r0 with
      | b1 :: r1 =>
          if b0 <? 224 then Some ((b0 - 192) * 64 + (b1 - 128), r1)
          else match r1 with
          | b2 :: r2 =>
              if b0 <? 240 then Some ((b0 - 224) * 4096 + (b1 - 128) * 64 + (b2 - 128), r2)
              else match r2 with
              | b3 :: r3 =>
                  Some ((b0 - 240) * 262144 + (b1 - 128) * 4096 + (b2 - 128) * 64 + (b3 - 128), r3)
              | [] => None
              end
          | [] => None
          end
      | [] => None
      end
  | [] => None
  end.

Ltac N_cases :=
  repeat match goal with
  | H : (_ <? _) = true |- _ => apply N.ltb_lt in H
  | H : (_ <? _) = false |- _ => apply N.ltb_ge in H
  | |- context [?a <? ?b] => destruct (N.ltb_spec a b)
  end.

(** [lia] with division and remainder by constants. *)
Ltac div_lia := zify; Z.to_euclidean_division_equations; lia.

Lemma utf8_decode_char_app c r :
  c < 1114112 → utf8_decode_char (utf8_char c ++ r) = Some (c, r).
Proof.
  intros Hc. unfold utf8_char.
  destruct (c <? 128) eqn:E1; [cbn; by rewrite E1|].
  destruct (c <? 2048) eqn:E2; [|destruct (c <? 65536) eqn:E3]; cbn; N_cases;
    try (exfalso; div_lia); do 2 f_equal; div_lia.
Qed.

(** Every character of a Rust string is a scalar value. *)
Definition valid_str (s : str) : bool := forallb is_scalar s.

Lemma is_scalar_bound c : is_scalar c = true → c < 1114112.
Proof.
  unfold is_scalar, in_range. intros [H|H]%orb_prop.
  - apply N.ltb_lt in H. lia.
  - apply andb_prop in H as [_ H]. apply N.leb_le in H. lia.
Qed.

Lemma utf8_nonempty c : ∃ b l, utf8_char c = b :: l.
Proof. unfold utf8_char. repeat case_match; eauto. Qed.

Lemma utf8_inj s t : valid_str s = true → valid_str t = true → utf8 s = utf8 t → s = t.
Proof.
  unfold utf8, valid_str. revert t.
  induction s as [|a s IH]; intros [|b t]; cbn; [done| | |].
  - intros _ _ H. destruct (utf8_nonempty b) as (x & l & Hx). by rewrite Hx in H.
  - intros _ _ H. destruct (utf8_nonempty a) as (x & l & Hx). by rewrite Hx in H.
  - intros [Ha Hs]%andb_prop [Hb Ht]%andb_prop Heq.
    apply (f_equal utf8_decode_char) in Heq.
    rewrite !utf8_decode_char_app in Heq by by apply is_scalar_bound.
    injection Heq as -> Heq. f_equal. by apply IH.
Qed.

(** A test that only ASCII bytes pass reads the characters of a string. *)
Lemma utf8_char_ascii (f : N → bool) c :
  (∀ b, f b = true → b < 128) → forallb f (utf8_char c) = f c.
Proof.
  intros Hf. unfold utf8_char. destruct (N.ltb_spec c 128); [by cbn; rewrite andb_true_r|].
  assert (∀ b, 128 ≤ b → f b = false) as Hhigh.
  { intros b Hb. apply not_true_iff_false. intros Ht%Hf. lia. }
  rewrite (Hhigh c) by done.
  destruct (c <? 2048); [|destruct (c <? 65536)]; cbn [forallb];
    (rewrite Hhigh; [done|]); (eapply N.le_trans; [|apply N.le_add_r]); done.
Qed.

Lemma utf8_ascii (f : N → bool) s :
  (∀ b, f b = true → b < 128) → forallb f (utf8 s) = forallb f s.
Proof.
  intros Hf. induction s as [|c s IH]; [done|]. unfold utf8 in *. cbn [mbind list_bind].
  by rewrite forallb_app, utf8_char_ascii, IH.
Qed.

Lemma split_once_Some sep s a b :
  split_once sep s = Some (a, b) ↔ s = a ++ sep :: b ∧ sep ∉ a.
Proof.
  revert a b; induction s as [|c s IH]; intros a b; cbn [split_once].
  { split; [done|]. intros [? _]. by destruct a. }
  destruct (N.eqb_spec c sep) as [->|Hne].
  - split; [intros [= <- <-]; split; [done|by apply not_elem_of_nil]|].
    intros [Heq Hn]. destruct a as [|d a]; cbn in Heq; [by injection Heq as ->|].
    injection Heq as -> _. by destruct Hn; left.
  - destruct (split_once sep s) as [[a' b']|].
    + destruct (IH a' b') as [IH1 _]. destruct (IH1 eq_refl) as [-> Hn]. split.
      * intros [= <- <-]. split; [done|]. by rewrite not_elem_of_cons.
      * intros [Heq Hn']. destruct a as [|d a]; cbn in Heq; injection Heq as -> Heq; [done|].
        rewrite not_elem_of_cons in Hn'. destruct (IH a b) as [_ IH2].
        by injection (IH2 (conj Heq (proj2 Hn'))) as -> ->.
    + split; [done|]. intros [Heq Hn]. destruct a as [|d a]; cbn in Heq; injection Heq as -> Heq; [done|].
      rewrite not_elem_of_cons in Hn. destruct (IH a b) as [_ IH2].
      by discriminate (IH2 (conj Heq (proj2 Hn))).
Qed.

Lemma byte_len_utf8 s : N.of_nat (length (utf8 s)) = byte_len s.
Proof.
  unfold utf8. induction s as [|c s IH]; cbn; [done|].
  rewrite length_app, Nat2N.inj_add, IH. f_equal.
  unfold utf8_char, utf8_len. by repeat case_match.
Qed.

Lemma low6_lt a b : a < b → a / 64 = b / 64 → a mod 64 < b mod 64.
Proof. div_lia. Qed.

Lemma div64_le a b : a ≤ b → a / 64 ≤ b / 64.
Proof. div_lia. Qed.

Lemma cmp_low6 a b (p q : list N) :
  a ≤ b → a / 64 = b / 64 → (a = b → str_cmp p q = Lt) →
  str_cmp (128 + a mod 64 :: p) (128 + b mod 64 :: q) = Lt.
Proof.
  intros Hab Hdiv Hrest. unfold str_cmp in *. cbn -[N.div N.modulo N.add N.compare] in *.
  destruct (decide (a = b)) as [<-|Hne].
  - rewrite N.compare_refl. by apply Hrest.
  - pose proof (low6_lt a b ltac:(lia) Hdiv).
    by destruct (N.compare_spec (128 + a mod 64) (128 + b mod 64)); [lia| |lia].
Qed.

Lemma cmp_head_lt k j (p q : list N) : k < j → str_cmp (k :: p) (j :: q) = Lt.
Proof. intros H. unfold str_cmp. simpl. by apply N.compare_lt_iff in H as ->. Qed.

Lemma cmp_head_le k j (p q : list N) :
  k ≤ j → (k = j → str_cmp p q = Lt) → str_cmp (k :: p) (j :: q) = Lt.
Proof.
  intros H Hpq. unfold str_cmp in *. simpl. destruct (N.compare_spec k j); [auto|done|lia].
Qed.

Lemma utf8_char_lt a b x y :
  a < b → b < 1114112 → str_cmp (utf8_char a ++ x) (utf8_char b ++ y) = Lt.
Proof.
  intros Hab Hb. unfold utf8_char.
  change 262144 with (64 * 64 * 64). change 4096 with (64 * 64).
  rewrite <- !N.Div0.div_div.
  assert (a / 64 ≤ b / 64) as H1 by (apply div64_le; lia).
  assert (a / 64 / 64 ≤ b / 64 / 64) as H2 by by apply div64_le.
  assert (a / 64 / 64 / 64 ≤ b / 64 / 64 / 64) as H3 by by apply div64_le.
  assert (a / 64 = b / 64 → a = b → str_cmp x y = Lt) as Hno by lia.
  destruct (N.ltb_spec a 128); [|destruct (N.ltb_spec a 2048); [|destruct (N.ltb_spec a 65536)]];
    (destruct (N.ltb_spec b 128); [|destruct (N.ltb_spec b 2048); [|destruct (N.ltb_spec b 65536)]]);
    try (exfalso; lia); cbn [app];
    try (apply cmp_head_lt; first [lia | div_lia]);
    apply cmp_head_le; try lia; intros ?; repeat (apply cmp_low6; [lia|lia|intros ?]); lia.
Qed.

(** Rust's byte-wise string order is the code-point order. *)
Lemma utf8_cmp s t :
  valid_str s = true → valid_str t = true → list_cmp N.compare (utf8 s) (utf8 t) = str_cmp s t.
Proof.
  unfold utf8, valid_str. revert t.
  induction s as [|a s IH]; intros [|b t]; cbn; try done.
  - intros _ _. by destruct (utf8_nonempty b) as (x & l & ->).
  - intros _ _. by destruct (utf8_nonempty a) as (x & l & ->).
  - intros [Ha Hs]%andb_prop [Hb Ht]%andb_prop.
    apply is_scalar_bound in Ha, Hb.
    change (list_cmp N.compare) with str_cmp.
    destruct (N.compare_spec a b) as [<-|Hlt|Hlt].
    + unfold str_cmp. induction (utf8_char a) as [|z l IHl]; cbn; [by apply IH|].
      by rewrite N.compare_refl.
    + by apply utf8_char_lt.
    + rewrite (cmp_antisym str_cmp). by rewrite utf8_char_lt.
Qed.

(** ** Decimal numbers *)

(** The value of a string of decimal digits. *)
Definition digits_value_from (a : N) (s : str) : N := foldl (λ acc c, acc * 10 + (c - 48)) a s.
Definition digits_value (s : str) : N := digits_value_from 0 s.

Lemma pretty_N_char_digit x :
  x < 10 → N_of_ascii (pretty_N_char x) - 48 = x ∧ is_ascii_digit (N_of_ascii (pretty_N_char x)) = true.
Proof.
  intros Hx.
  assert (x = 0 ∨ x = 1 ∨ x = 2 ∨ x = 3 ∨ x = 4 ∨ x = 5 ∨ x = 6 ∨ x = 7 ∨ x = 8 ∨ x = 9)
    as Hcases by lia.
  by repeat destruct Hcases as [->|Hcases]; try rewrite Hcases.
Qed.

Lemma pretty_N_go_value x s :
  digits_value_from 0 (lit (pretty_N_go x s)) = digits_value_from x (lit s).
Proof.
  revert s. induction (N.lt_wf_0 x) as [x _ IH]; intros s.
  destruct (decide (x = 0)) as [->|Hx]; [by rewrite pretty_N_go_0|].
  rewrite pretty_N_go_step, IH by (try apply N.div_lt; lia). cbn.
  destruct (pretty_N_char_digit (x `mod` 10)) as [-> _]; [by apply N.mod_lt|].
  f_equal. rewrite (N.div_mod x 10) at 3 by done. lia.
Qed.

Lemma pretty_N_go_digits x s :
  forallb is_ascii_digit (lit s) = true → forallb is_ascii_digit (lit (pretty_N_go x s)) = true.
Proof.
  revert s. induction (N.lt_wf_0 x) as [x _ IH]; intros s Hs.
  destruct (decide (x = 0)) as [->|Hx]; [by rewrite pretty_N_go_0|].
  rewrite pretty_N_go_step by lia. apply IH; [apply N.div_lt; lia|].
  cbn. destruct (pretty_N_char_digit (x `mod` 10)) as [_ ->]; [by apply N.mod_lt|done].
Qed.

Lemma dec_value n : digits_value (dec n) = n.
Proof.
  unfold dec, digits_value, pretty, pretty_N. case_decide; [by subst|].
  by rewrite pretty_N_go_value.
Qed.

Lemma dec_digits n : forallb is_ascii_digit (dec n) = true.
Proof. unfold dec, pretty, pretty_N. case_decide; [done|]. by apply pretty_N_go_digits. Qed.

Lemma digits_value_zeros k s : digits_value (replicate k 48 ++ s) = digits_value s.
Proof. induction k as [|k IH]; [done|]. exact IH. Qed.

#[export] Instance dec04_inj : Inj (=) (=) dec04.
Proof.
  intros m n H. apply (f_equal digits_value) in H. unfold dec04 in H.
  by rewrite !digits_value_zeros, !dec_value in H.
Qed.

(** ** ASCII case mapping *)

Lemma to_ascii_uppercase_char_idemp c :
  to_ascii_uppercase_char (to_ascii_uppercase_char c) = to_ascii_uppercase_char c.
Proof.
  unfold to_ascii_uppercase_char. destruct (is_ascii_lowercase c) eqn:E; [|by rewrite E].
  destruct (is_ascii_lowercase (c - 32)) eqn:E'; [|done]. exfalso.
  unfold is_ascii_lowercase, in_range in E, E'. bool_split. lia.
Qed.

Lemma to_ascii_lowercase_char_idemp c :
  to_ascii_lowercase_char (to_ascii_lowercase_char c) = to_ascii_lowercase_char c.
Proof.
  unfold to_ascii_lowercase_char. destruct (is_ascii_uppercase c) eqn:E; [|by rewrite E].
  destruct (is_ascii_uppercase (c + 32)) eqn:E'; [|done]. exfalso.
  unfold is_ascii_uppercase, in_range in E, E'. bool_split. lia.
Qed.

Lemma is_whitespace_upper c : is_whitespace (to_ascii_uppercase_char c) = is_whitespace c.
Proof.
  destruct (N.ltb_spec c 128) as [Hc|Hc].
  - apply eqb_prop. revert c Hc. by apply forallb_below.
  - unfold to_ascii_uppercase_char, is_ascii_lowercase, in_range.
    destruct (N.leb_spec c 122); [lia|]. by rewrite andb_false_r.
Qed.

Lemma to_ascii_uppercase_idemp s :
  to_ascii_uppercase (to_ascii_uppercase s) = to_ascii_uppercase s.
Proof.
  unfold to_ascii_uppercase. rewrite <- list_fmap_compose. apply list_fmap_ext.
  intros _ c _. apply to_ascii_uppercase_char_idemp.
Qed.

Lemma to_ascii_lowercase_idemp s :
  to_ascii_lowercase (to_ascii_lowercase s) = to_ascii_lowercase s.
Proof.
  unfold to_ascii_lowercase. rewrite <- list_fmap_compose. apply list_fmap_ext.
  intros _ c _. apply to_ascii_lowercase_char_idemp.
Qed.

(** A character map that keeps whitespace keeps a string trimmed. *)
Lemma trimmed_fmap (f : char → char) s :
  (∀ c, is_whitespace (f c) = is_whitespace c) → trimmed s → trimmed (f <$> s).
Proof.
  intros Hf [Hs He]. split; intros c s' Heq.
  - destruct s as [|a s]; [done|]. injection Heq as <- _. rewrite Hf. by eapply Hs.
  - destruct s as [|a s _] using rev_ind; [by destruct s'|].
    rewrite fmap_app in Heq. apply app_inj_2 in Heq as [_ [= <-]]; [|done].
    rewrite Hf. by eapply He.
Qed.

Lemma trim_upper_trim s :
  trim (to_ascii_uppercase (trim s)) = to_ascii_uppercase (trim s).
Proof.
  apply trimmed_trim, trimmed_fmap; [apply is_whitespace_upper|apply trim_trimmed].
Qed.
