(* ===== verification/Digest.v ===== *)
(** * Digests and ordered maps

    [digest_parts] of [crates/wts-core/src/lib.rs]: the length-prefixed byte stream that
    WTS hashes.  SHA-256 and hexadecimal rendering belong to the crates [sha2] and [hex];
    they are one parameter, [sha256_hex], of every definition that hashes.  What the code
    contributes is the byte stream, and [encode_parts_inj] shows that the stream determines
    the parts.  [BTreeMap<String, String>] is a [gmap] together with its key-ordered
    iteration [bt_iter]. *)

From S2P Require Import Prelude Order Text.

Local Open Scope N_scope.

(** ** Byte streams *)

(** [n.to_be_bytes()] for an [n] of [k] bytes. *)
Fixpoint be_bytes (k : nat) (n : N) : list N :=
  match k with
  | O => []
  | S k' => be_bytes k' (n / 256) ++ [n mod 256]
  end.

(** One part of the stream: its length as a 64-bit big-endian number, then its bytes. *)
Definition encode_part (part : str) : list N :=
  be_bytes 8 (byte_len part) ++ utf8 part.

Definition encode_parts (parts : list str) : list N := parts ≫= encode_part.

(** What Rust guarantees of a [String] in memory: scalar values, at most [isize::MAX]
    bytes. *)
Definition rust_str (s : str) : Prop := valid_str s = true ∧ byte_len s < 2 ^ 63.

Definition digest_parts (sha256_hex : list N → str) (parts : list str) : str :=
  sha256_hex (encode_parts parts).

(** ** [BTreeMap<String, V>] *)

Definition bt_iter {V} (m : gmap str V) : list (str * V) :=
  sort_by (cmp_on fst str_cmp) (map_to_list m).

(** ** Lemmas *)

Lemma length_be_bytes k n : length (be_bytes k n) = k.
Proof. revert n; induction k as [|k IH]; intros n; simpl; [done|]. rewrite length_app, IH. simpl. lia. Qed.

Lemma be_bytes_inj k m n :
  m < 256 ^ N.of_nat k → n < 256 ^ N.of_nat k → be_bytes k m = be_bytes k n → m = n.
Proof.
  revert m n; induction k as [|k IH]; intros m n; cbn [be_bytes].
  - change (256 ^ N.of_nat 0) with 1. lia.
  - rewrite Nat2N.inj_succ, N.pow_succ_r by lia. intros Hm Hn [Hd Hr]%app_inj_tail.
    assert (m / 256 = n / 256) as Hq by (apply IH; [by apply N.Div0.div_lt_upper_bound..|done]).
    rewrite (N.div_mod m 256), (N.div_mod n 256), Hq, Hr; lia.
Qed.

Lemma encode_part_app_inj p q r s :
  rust_str p → rust_str q → encode_part p ++ r = encode_part q ++ s → p = q ∧ r = s.
Proof.
  intros [Hp Hpl] [Hq Hql]. unfold encode_part. rewrite <- !app_assoc. intros Heq.
  apply app_inj_1 in Heq as [Hlen Heq]; [|by rewrite !length_be_bytes].
  apply be_bytes_inj in Hlen; [|etrans; [done|]; cbn; lia..].
  assert (length (utf8 p) = length (utf8 q)) as Hl.
  { apply (inj N.of_nat). by rewrite !byte_len_utf8. }
  apply app_inj_1 in Heq as [Hu Hrest]; [|done].
  split; [by apply utf8_inj|done].
Qed.

(** The stream determines the parts. *)
Lemma encode_parts_inj l k :
  Forall rust_str l → Forall rust_str k → encode_parts l = encode_parts k → l = k.
Proof.
  unfold encode_parts. intros Hl. revert k.
  induction Hl as [|p l Hp Hl IH]; intros [|q k] Hk; cbn; [done| | |].
  - intros H. by destruct (byte_len q / 256 / 256 / 256 / 256 / 256 / 256 / 256).
  - intros H. by destruct (byte_len p / 256 / 256 / 256 / 256 / 256 / 256 / 256).
  - intros H. apply Forall_cons in Hk as [Hq Hk].
    change (encode_part p ++ (l ≫= encode_part) = encode_part q ++ (k ≫= encode_part)) in H.
    apply encode_part_app_inj in H as [-> H]; [|done..]. f_equal. by apply IH.
Qed.

(** Two equal digests of different inputs are a collision of the hash function, with the
    two streams as its evidence. *)
Definition collides (sha256_hex : list N → str) (x y : list N) : Prop :=
  x ≠ y ∧ sha256_hex x = sha256_hex y.

Lemma digest_parts_eq sha l k :
  Forall rust_str l → Forall rust_str k → digest_parts sha l = digest_parts sha k →
  l = k ∨ collides sha (encode_parts l) (encode_parts k).
Proof.
  intros Hl Hk Heq. destruct (decide (encode_parts l = encode_parts k)) as [He|He].
  - left. by apply encode_parts_inj.
  - by right.
Qed.

Lemma bt_iter_perm {V} (m : gmap str V) : bt_iter m ≡ₚ map_to_list m.
Proof. apply sort_by_perm. Qed.

Lemma bt_iter_inj {V} (m n : gmap str V) : bt_iter m = bt_iter n → m = n.
Proof.
  intros H. apply map_to_list_inj. by rewrite <- !bt_iter_perm, H.
Qed.

Lemma elem_of_bt_iter {V} (m : gmap str V) k v : (k, v) ∈ bt_iter m ↔ m !! k = Some v.
Proof. by rewrite bt_iter_perm, elem_of_map_to_list. Qed.

(** Iteration is in strictly increasing key order. *)
Lemma bt_iter_sorted {V} (m : gmap str V) :
  StronglySorted (cmp_le (cmp_on fst str_cmp)) (bt_iter m).
Proof. apply sort_by_sorted. apply _. Qed.

Lemma flatten_pairs_inj (l k : list (str * str)) :
  (l ≫= λ '(a, b), [a; b]) = (k ≫= λ '(a, b), [a; b]) → l = k.
Proof.
  revert k; induction l as [|[a b] l IH]; intros [|[c d] k]; cbn; try done.
  intros [= -> -> H]. f_equal. by apply IH.
Qed.

#[export] Instance rust_str_dec s : Decision (rust_str s).
Proof. unfold rust_str. apply _. Defined.

(** Repeated insertion, as in a sequence of [fields.insert(k, v)] calls. *)
Lemma foldl_insert_list_to_map {V} (l : list (str * V)) (m : gmap str V) :
  foldl (λ m '(k, v), <[k := v]> m) m l = list_to_map (reverse l) ∪ m.
Proof.
  revert m; induction l as [|[k v] l IH]; intros m; cbn [foldl].
  - by rewrite reverse_nil, list_to_map_nil, (left_id_L ∅ (∪)).
  - rewrite IH, reverse_cons, list_to_map_app. cbn.
    rewrite <- (assoc_L (∪)). f_equal. by rewrite insert_empty, <- insert_union_singleton_l.
Qed.

Lemma foldl_insert_lookup {V} (l : list (str * V)) k v :
  (k, v) ∈ l → (∀ w, (k, w) ∈ l → w = v) →
  (foldl (λ m '(k, v), <[k := v]> m) ∅ l : gmap str V) !! k = Some v.
Proof.
  intros Hin Huniq. rewrite foldl_insert_list_to_map, (right_id_L ∅ (∪)).
  apply elem_of_list_to_map_1'; [|by rewrite elem_of_reverse].
  intros w Hw. rewrite elem_of_reverse in Hw. symmetry. auto.
Qed.

Lemma foldl_insert_lookup_in {V} (l : list (str * V)) k v :
  (foldl (λ m '(k, v), <[k := v]> m) ∅ l : gmap str V) !! k = Some v → (k, v) ∈ l.
Proof.
  rewrite foldl_insert_list_to_map, (right_id_L ∅ (∪)).
  intros H%elem_of_list_to_map_2. by rewrite elem_of_reverse in H.
Qed.
