(* ===== verification/Boundary.v ===== *)
(** * The workspace-boundary protocol ([crates/wts-core/src/lib.rs])

    [compile] turns a draft into the authority of one workspace: pinned repositories,
    loopback port leases and the closed list of capabilities, bound by one digest.
    [verify] decides an action against it, [detect_scope_drift] reports a graph edge that
    leaves it, and [revise] replaces it with a parent-linked successor.  SHA-256 is the
    section variable [sha256_hex] (see [Digest]); debug-only overflow panics aside,
    [u32] addition wraps. *)

From S2P Require Import Prelude Order Text Digest.

Local Open Scope N_scope.

(** ** Data *)

Record RepositoryPin := {
  rp_name : str;
  rp_base_ref : str;
  rp_base_commit : str;
  rp_relevance_basis_points : N;
  rp_evidence : list str
}.

Record ServiceSpec := {
  ss_id : str;
  ss_repository : str;
  ss_default_port : N;
  ss_depends_on : list str
}.

Record RuntimeLease := {
  rl_service_id : str;
  rl_loopback_port : N;
  rl_hostname : str;
  rl_namespace : str
}.

Inductive Effect := Read | Write | Execute | Network.

Record Capability := {
  cap_effect : Effect;
  cap_resource : str
}.

Record WorkspaceBoundary := {
  wb_issue_key : str;
  wb_revision : N;
  wb_parent_digest : option str;
  wb_base_graph_digest : str;
  wb_overlay_digest : str;
  wb_repositories : list RepositoryPin;
  wb_runtime_leases : list RuntimeLease;
  wb_capabilities : list Capability;
  wb_digest : str
}.

Record BoundaryDraft := {
  bd_issue_key : str;
  bd_base_graph_digest : str;
  bd_repositories : list RepositoryPin;
  bd_services : list ServiceSpec
}.

Record ActionEnvelope := {
  ae_boundary_digest : str;
  ae_effect : Effect;
  ae_resource : str
}.

Record GraphObservation := {
  go_source_repository : str;
  go_target_repository : str;
  go_edge : str
}.

Record ScopeDrift := {
  sd_observation : GraphObservation;
  sd_reason : str
}.

Inductive BoundaryError :=
| MissingIssue
| EmptyScope
| DuplicateRepository (name : str)
| ServiceOutsideScope (service repository : str)
| PortSpaceExhausted (service : str)
| StaleBoundary
| CapabilityDenied.

#[export] Instance effect_eq_dec : EqDecision Effect.
Proof. solve_decision. Defined.
#[export] Instance capability_eq_dec : EqDecision Capability.
Proof. solve_decision. Defined.
#[export] Instance boundary_error_eq_dec : EqDecision BoundaryError.
Proof. solve_decision. Defined.

(** ** Helpers *)

Definition effect_key (effect : Effect) : str :=
  match effect with
  | Read => lit "read"
  | Write => lit "write"
  | Execute => lit "execute"
  | Network => lit "network"
  end.

Definition slug_char (character : char) : char :=
  if is_ascii_alphanumeric character then to_ascii_lowercase_char character else 45.

Definition slug (value : str) : str :=
  join (lit "-") (filter (λ part, is_empty part = false) (split_char 45 (slug_char <$> value))).

(** [(default_port..=u16::MAX).find(|candidate| !reserved.contains(candidate))]. *)
Fixpoint find_port (fuel : nat) (candidate : N) (reserved : gset N) : option N :=
  match fuel with
  | O => None
  | S fuel' =>
      if decide (candidate ∈ reserved) then find_port fuel' (candidate + 1) reserved
      else Some candidate
  end.

Definition first_free_port (default_port : N) (reserved : gset N) : option N :=
  find_port (N.to_nat (u16_max + 1 - default_port)) default_port reserved.

(** The repository loop: evidence is a set. *)
Definition normalize_pin (repository : RepositoryPin) : RepositoryPin :=
  {| rp_name := rp_name repository;
     rp_base_ref := rp_base_ref repository;
     rp_base_commit := rp_base_commit repository;
     rp_relevance_basis_points := rp_relevance_basis_points repository;
     rp_evidence := dedup (sort_by str_cmp (rp_evidence repository)) |}.

Definition sorted_pins (repositories : list RepositoryPin) : list RepositoryPin :=
  normalize_pin <$> sort_by (cmp_on rp_name str_cmp) repositories.

(** The first service loop: every service belongs to an approved repository. *)
Definition check_service (repository_names : gset str) (service : ServiceSpec) :
    result ServiceSpec BoundaryError :=
  if decide (ss_repository service ∈ repository_names) then
    Ok {| ss_id := ss_id service;
          ss_repository := ss_repository service;
          ss_default_port := ss_default_port service;
          ss_depends_on := dedup (sort_by str_cmp (ss_depends_on service)) |}
  else Err (ServiceOutsideScope (ss_id service) (ss_repository service)).

Fixpoint check_services (repository_names : gset str) (services : list ServiceSpec) :
    result (list ServiceSpec) BoundaryError :=
  match services with
  | [] => Ok []
  | service :: rest =>
      let? service' := check_service repository_names service in
      let? rest' := check_services repository_names rest in
      Ok (service' :: rest')
  end.

(** The second service loop: one loopback port per service. *)
Definition lease_for (namespace : str) (service : ServiceSpec) (port : N) : RuntimeLease :=
  {| rl_service_id := ss_id service;
     rl_loopback_port := port;
     rl_hostname := slug (ss_id service) ++ lit "." ++ namespace ++ lit ".wts";
     rl_namespace := namespace |}.

Fixpoint assign_leases (namespace : str) (reserved : gset N) (services : list ServiceSpec) :
    result (list RuntimeLease) BoundaryError :=
  match services with
  | [] => Ok []
  | service :: rest =>
      let? loopback_port :=
        ok_or (first_free_port (ss_default_port service) reserved)
              (PortSpaceExhausted (ss_id service)) in
      let? rest' := assign_leases namespace ({[loopback_port]} ∪ reserved) rest in
      Ok (lease_for namespace service loopback_port :: rest')
  end.

Definition overlay_parts (issue_key base_graph_digest : str) (repositories : list RepositoryPin) :
    list str :=
  [issue_key; base_graph_digest] ++
  (repositories ≫= λ repository,
     [rp_name repository; rp_base_commit repository; rp_base_ref repository]).

Definition capability_cmp (a b : Capability) : comparison :=
  cmp_then (str_cmp (effect_key (cap_effect a)) (effect_key (cap_effect b)))
           (str_cmp (cap_resource a) (cap_resource b)).

Definition lease_capabilities (lease : RuntimeLease) : list Capability :=
  [ {| cap_effect := Execute; cap_resource := lit "process:" ++ rl_service_id lease |};
    {| cap_effect := Network; cap_resource := lit "loopback:" ++ dec (rl_loopback_port lease) |} ].

Definition workspace_capabilities (issue_key : str) : list Capability :=
  [ {| cap_effect := Read; cap_resource := lit "workspace:" ++ issue_key ++ lit "/**" |};
    {| cap_effect := Write; cap_resource := lit "workspace:" ++ issue_key ++ lit "/**" |} ].

Definition capabilities_of (issue_key : str) (leases : list RuntimeLease) : list Capability :=
  sort_by capability_cmp (workspace_capabilities issue_key ++ (leases ≫= lease_capabilities)).

(** ** The boundary digest *)

Definition repo_field (repository : RepositoryPin) : str * str :=
  (lit "repo:" ++ rp_name repository,
   rp_base_ref repository ++ lit "|" ++ rp_base_commit repository ++ lit "|" ++
   dec (rp_relevance_basis_points repository) ++ lit "|" ++
   join (lit ",") (rp_evidence repository)).

Definition lease_field (lease : RuntimeLease) : str * str :=
  (lit "lease:" ++ rl_service_id lease,
   dec (rl_loopback_port lease) ++ lit "|" ++ rl_hostname lease ++ lit "|" ++ rl_namespace lease).

Definition capability_field (index : nat) (capability : Capability) : str * str :=
  (lit "capability:" ++ dec04 (N.of_nat index),
   effect_key (cap_effect capability) ++ lit "|" ++ cap_resource capability).

Definition header_fields (b : WorkspaceBoundary) : list (str * str) :=
  [ (lit "issue", wb_issue_key b);
    (lit "revision", dec (wb_revision b));
    (lit "parent", default [] (wb_parent_digest b));
    (lit "base_graph", wb_base_graph_digest b);
    (lit "overlay", wb_overlay_digest b) ].

(** The insertions into [fields], in program order. *)
Definition field_insertions (b : WorkspaceBoundary) : list (str * str) :=
  header_fields b ++ (repo_field <$> wb_repositories b) ++
  (lease_field <$> wb_runtime_leases b) ++ imap capability_field (wb_capabilities b).

Definition digest_fields (b : WorkspaceBoundary) : gmap str str :=
  foldl (λ fields '(k, v), <[k := v]> fields) ∅ (field_insertions b).

Definition digest_field_parts (b : WorkspaceBoundary) : list str :=
  bt_iter (digest_fields b) ≫= λ '(k, v), [k; v].

Section boundary.
Context (sha256_hex : list N → str).

Definition compute_digest (b : WorkspaceBoundary) : str :=
  digest_parts sha256_hex (digest_field_parts b).

Definition set_digest (b : WorkspaceBoundary) (d : str) : WorkspaceBoundary :=
  {| wb_issue_key := wb_issue_key b;
     wb_revision := wb_revision b;
     wb_parent_digest := wb_parent_digest b;
     wb_base_graph_digest := wb_base_graph_digest b;
     wb_overlay_digest := wb_overlay_digest b;
     wb_repositories := wb_repositories b;
     wb_runtime_leases := wb_runtime_leases b;
     wb_capabilities := wb_capabilities b;
     wb_digest := d |}.

(** ** Compilation *)

Definition compile (draft : BoundaryDraft) (occupied_ports : gset N) :
    result WorkspaceBoundary BoundaryError :=
  ensure guard_err (is_empty (trim (bd_issue_key draft))) MissingIssue in
  ensure guard_err (bool_decide (bd_repositories draft = [])) EmptyScope in
  let issue_key := to_ascii_uppercase (trim (bd_issue_key draft)) in
  let repositories := sorted_pins (bd_repositories draft) in
  ensure match first_adjacent_dup rp_name repositories with
         | Some repository => Err (DuplicateRepository (rp_name repository))
         | None => Ok ()
         end in
  let repository_names : gset str := list_to_set (rp_name <$> repositories) in
  let? services :=
    check_services repository_names (sort_by (cmp_on ss_id str_cmp) (bd_services draft)) in
  let namespace := slug issue_key in
  let? runtime_leases := assign_leases namespace occupied_ports services in
  let overlay_digest :=
    digest_parts sha256_hex (overlay_parts issue_key (bd_base_graph_digest draft) repositories) in
  let boundary :=
    {| wb_issue_key := issue_key;
       wb_revision := 1;
       wb_parent_digest := None;
       wb_base_graph_digest := bd_base_graph_digest draft;
       wb_overlay_digest := overlay_digest;
       wb_repositories := repositories;
       wb_runtime_leases := runtime_leases;
       wb_capabilities := capabilities_of issue_key runtime_leases;
       wb_digest := [] |} in
  Ok (set_digest boundary (compute_digest boundary)).

(** ** Decisions *)

Definition verify (b : WorkspaceBoundary) (action : ActionEnvelope) : result () BoundaryError :=
  if decide (ae_boundary_digest action ≠ wb_digest b) then Err StaleBoundary
  else if existsb (λ capability,
            bool_decide (cap_effect capability = ae_effect action) &&
            bool_decide (cap_resource capability = ae_resource action)) (wb_capabilities b)
  then Ok ()
  else Err CapabilityDenied.

Definition detect_scope_drift (b : WorkspaceBoundary) (observation : GraphObservation) :
    option ScopeDrift :=
  let approved : gset str := list_to_set (rp_name <$> wb_repositories b) in
  if decide (go_source_repository observation ∈ approved ∧
             go_target_repository observation ∉ approved)
  then Some {| sd_reason :=
                 go_source_repository observation ++ lit " introduced an observed " ++
                 go_edge observation ++ lit " edge to excluded repository " ++
                 go_target_repository observation;
               sd_observation := observation |}
  else None.

Definition revise (b : WorkspaceBoundary) (draft : BoundaryDraft) (occupied_ports : gset N) :
    result WorkspaceBoundary BoundaryError :=
  let? revised := compile draft occupied_ports in
  let revised' :=
    {| wb_issue_key := wb_issue_key revised;
       wb_revision := wrapping_u32 (wb_revision b + 1);
       wb_parent_digest := Some (wb_digest b);
       wb_base_graph_digest := wb_base_graph_digest revised;
       wb_overlay_digest := wb_overlay_digest revised;
       wb_repositories := wb_repositories revised;
       wb_runtime_leases := wb_runtime_leases revised;
       wb_capabilities := wb_capabilities revised;
       wb_digest := wb_digest revised |} in
  Ok (set_digest revised' (compute_digest revised')).
End boundary.

(** ** Port search *)

Lemma find_port_Some fuel candidate reserved p :
  find_port fuel candidate reserved = Some p →
  candidate ≤ p < candidate + N.of_nat fuel ∧ (p ∉ reserved) ∧
  ∀ q, candidate ≤ q < p → q ∈ reserved.
Proof.
  revert candidate; induction fuel as [|fuel IH]; intros candidate; cbn [find_port]; [done|].
  case_decide as Hc.
  - intros (Hb & Hp & Hq)%IH. split; [lia|]. split; [done|]. intros q Hr.
    destruct (decide (q = candidate)) as [->|]; [done|]. apply Hq. lia.
  - intros [= <-]. split; [lia|]. split; [done|lia].
Qed.

Lemma find_port_None fuel candidate reserved :
  find_port fuel candidate reserved = None →
  ∀ q, candidate ≤ q < candidate + N.of_nat fuel → q ∈ reserved.
Proof.
  revert candidate; induction fuel as [|fuel IH]; intros candidate; cbn [find_port]; [lia|].
  case_decide as Hc; [|done]. intros HN q Hq.
  destruct (decide (q = candidate)) as [->|]; [done|]. apply (IH _ HN). lia.
Qed.

Lemma first_free_port_Some d reserved p :
  first_free_port d reserved = Some p →
  d ≤ p ≤ u16_max ∧ (p ∉ reserved) ∧ ∀ q, d ≤ q < p → q ∈ reserved.
Proof. intros (H & ? & ?)%find_port_Some. unfold u16_max in *. split; [lia|done]. Qed.

Lemma first_free_port_None d reserved :
  first_free_port d reserved = None → ∀ q, d ≤ q ≤ u16_max → q ∈ reserved.
Proof. intros H q Hq. apply (find_port_None _ _ _ H). unfold u16_max in *. lia. Qed.

(** ** Lease assignment *)

(** A service and the port it may hold: not below its default, a 16-bit port, not held by
    another session. *)
Definition port_fits (occupied : gset N) (service : ServiceSpec) (port : N) : Prop :=
  ss_default_port service ≤ port ≤ u16_max ∧ port ∉ occupied.

(** First fit: every smaller candidate was taken. *)
Definition first_fit (taken : gset N) (service : ServiceSpec) (port : N) : Prop :=
  ∀ q, ss_default_port service ≤ q < port → q ∈ taken.

Lemma assign_leases_Ok namespace services reserved leases :
  assign_leases namespace reserved services = Ok leases →
  ∃ ports,
    leases = zip_with (lease_for namespace) services ports ∧
    Forall2 (port_fits reserved) services ports ∧ NoDup ports ∧
    ∀ i service port, services !! i = Some service → ports !! i = Some port →
      first_fit (reserved ∪ list_to_set (take i ports)) service port.
Proof.
  revert reserved leases; induction services as [|s rest IH]; intros reserved leases H; cbn in H.
  - injection H as <-. exists []. repeat split; [constructor..|]. by intros [].
  - destruct (first_free_port (ss_default_port s) reserved) as [p|] eqn:Ep; [|done].
    cbn in H. destruct (assign_leases namespace _ rest) as [ls|] eqn:El; [|done].
    injection H as <-. apply first_free_port_Some in Ep as (Hb & Hp & Hq).
    destruct (IH _ _ El) as (ports & -> & Hf & Hnd & Hfit). exists (p :: ports).
    split_and!; [done| | |].
    + constructor; [by split|]. eapply Forall2_impl; [done|]. intros t q [??]. split; [done|set_solver].
    + constructor; [|done]. intros Hin.
      apply list_elem_of_lookup in Hin as [i Hi].
      destruct (Forall2_lookup_r _ _ _ _ _ Hf Hi) as (t & _ & _ & Hn). set_solver.
    + intros [|i] t q; cbn.
      * intros [= <-] [= <-] r Hr. apply elem_of_union_l, Hq. done.
      * intros Ht Hi r Hr. specialize (Hfit i t q Ht Hi r Hr). set_solver.
Qed.

(** The start of the block of taken ports that ends at the top of the port space. *)
Lemma full_block_start (full : gset N) d :
  (∀ q, d ≤ q ≤ u16_max → q ∈ full) →
  ∃ m, m ≤ d ∧ (∀ q, m ≤ q ≤ u16_max → q ∈ full) ∧ (m = 0 ∨ m - 1 ∉ full).
Proof.
  induction d as [|d IH] using N.peano_ind; intros Hd; [exists 0; split_and!; auto; lia|].
  destruct (decide (d ∈ full)) as [Hin|Hnin].
  - destruct IH as (m & ? & ? & ?).
    + intros q Hq. destruct (decide (q = d)) as [->|]; [done|]. apply Hd. lia.
    + exists m. split_and!; [lia|done|done].
  - exists (N.succ d). split_and!; [lia|done|right]. by replace (N.succ d - 1) with d by lia.
Qed.

(** The counting argument: the services already placed at or above [m] need the ports at or
    above [m] in every assignment, and [s] needs one more. *)
Lemma first_fit_hall occupied placed ports s fs :
  Forall2 (λ t p, port_fits occupied t p ∧ first_fit (occupied ∪ list_to_set ports) t p)
    placed ports →
  (∀ q, ss_default_port s ≤ q ≤ u16_max → q ∈ occupied ∪ list_to_set ports) →
  Forall2 (port_fits occupied) (placed ++ [s]) fs → NoDup fs → False.
Proof.
  intros Hplaced Hfull Hfs Hnd.
  apply Forall2_app_inv_l in Hfs as (fs0 & fs1 & Hfs0 & Hfs1 & ->).
  apply Forall2_cons_inv_l in Hfs1 as (f & fs1' & [Hfb Hfo] & Hnil%Forall2_nil_inv_l & ->).
  subst fs1'.
  destruct (full_block_start _ _ Hfull) as (m & Hm & Hblock & Hstart).
  set (high := (filter (λ pf : N * N, m ≤ pf.1) (zip ports fs0))).
  assert (Hlen : length ports = length fs0).
  { by rewrite <- (Forall2_length _ _ _ Hplaced), (Forall2_length _ _ _ Hfs0). }
  assert (Hin : high.*2 ++ [f] ⊆ filter (λ p, m ≤ p) ports).
  { assert (∀ q, m ≤ q ≤ u16_max → q ∉ occupied → q ∈ filter (λ p, m ≤ p) ports) as Hq.
    { intros q Hq Ho. apply list_elem_of_filter. split; [lia|].
      specialize (Hblock q Hq). set_solver. }
    intros q [Hq'|Hq']%elem_of_app.
    - apply list_elem_of_fmap in Hq' as ([p q'] & -> & Hpq).
      apply list_elem_of_filter in Hpq as [Hp [i Hi]%list_elem_of_lookup].
      apply lookup_zip_Some in Hi as [Hi1 Hi2]. simpl in *.
      destruct (Forall2_lookup_r _ _ _ _ _ Hplaced Hi1) as (t & Ht & [Hb Ho] & Hff).
      destruct (Forall2_lookup_lr _ _ _ _ _ _ Hfs0 Ht Hi2) as [Hb' Ho'].
      apply Hq; [|done]. split; [|lia]. destruct (decide (ss_default_port t < m)); [|lia].
      exfalso. destruct Hstart as [->|Hstart]; [lia|]. apply Hstart, Hff. lia.
    - apply list_elem_of_singleton in Hq' as ->. apply Hq; [lia|done]. }
  assert (Hnd' : NoDup (high.*2 ++ [f])).
  { eapply sublist_NoDup; [exact Hnd|]. apply sublist_app; [|done].
    rewrite <- (snd_zip ports fs0) by lia. apply fmap_sublist, sublist_filter. }
  apply NoDup_submseteq, submseteq_length in Hin; [|done].
  assert (length (filter (λ p, m ≤ p) ports) = length high) as Hcount.
  { rewrite <- (fst_zip ports fs0) at 1 by lia. by rewrite filter_fmap, length_fmap. }
  rewrite length_app, length_fmap, Hcount in Hin. simpl in Hin. lia.
Qed.

Lemma assign_leases_Err namespace services reserved e :
  assign_leases namespace reserved services = Err e →
  ∃ placed s rest ports,
    services = placed ++ s :: rest ∧ e = PortSpaceExhausted (ss_id s) ∧
    Forall2 (λ t p, port_fits reserved t p ∧ first_fit (reserved ∪ list_to_set ports) t p)
      placed ports ∧
    ∀ q, ss_default_port s ≤ q ≤ u16_max → q ∈ reserved ∪ list_to_set ports.
Proof.
  revert reserved; induction services as [|s rest IH]; intros reserved; cbn; [done|].
  destruct (first_free_port (ss_default_port s) reserved) as [p|] eqn:Ep; cbn.
  - destruct (assign_leases namespace _ rest) as [ls|e'] eqn:El; [done|]. intros [= ->].
    apply first_free_port_Some in Ep as (Hb & Hp & Hq).
    destruct (IH _ El) as (placed & s' & rest' & ports & -> & -> & Hf & Hfull).
    exists (s :: placed), s', rest', (p :: ports). split_and!; [done|done| |].
    + constructor.
      * split; [by split|]. intros q Hr. apply elem_of_union_l, Hq. done.
      * eapply Forall2_impl; [done|]. intros t q [[? ?] Hff]. split; [split; [done|set_solver]|].
        intros r Hr. specialize (Hff r Hr). set_solver.
    + intros q Hr. specialize (Hfull q Hr). set_solver.
  - intros [= <-]. exists [], s, rest, []. split_and!; [done|done|constructor|].
    intros q Hq. apply elem_of_union_l. by apply (first_free_port_None _ _ Ep).
Qed.

(** First fit is complete: it fails only when no assignment of distinct free ports exists. *)
Lemma assign_leases_complete namespace services occupied e :
  assign_leases namespace occupied services = Err e →
  ¬ ∃ ports, Forall2 (port_fits occupied) services ports ∧ NoDup ports.
Proof.
  intros (placed & s & rest & ports & -> & _ & Hf & Hfull)%assign_leases_Err (fs & Hfs & Hnd).
  rewrite cons_middle, app_assoc in Hfs.
  apply Forall2_app_inv_l in Hfs as (fs0 & fs1 & Hfs0 & _ & ->).
  apply (first_fit_hall _ _ _ _ _ Hf Hfull Hfs0). by apply NoDup_app in Hnd as [? _].
Qed.

(** ** Scope of services *)

Definition normalize_service (service : ServiceSpec) : ServiceSpec :=
  {| ss_id := ss_id service;
     ss_repository := ss_repository service;
     ss_default_port := ss_default_port service;
     ss_depends_on := dedup (sort_by str_cmp (ss_depends_on service)) |}.

Lemma check_services_spec names services :
  match check_services names services with
  | Ok services' =>
      services' = normalize_service <$> services ∧
      Forall (λ s, ss_repository s ∈ names) services
  | Err e =>
      ∃ s, s ∈ services ∧ (ss_repository s ∉ names) ∧
           e = ServiceOutsideScope (ss_id s) (ss_repository s)
  end.
Proof.
  induction services as [|s rest IH]; cbn; [by repeat constructor|].
  unfold check_service. case_decide as Hs; cbn.
  - destruct (check_services names rest) as [rest'|e]; cbn.
    + destruct IH as [-> IH]. split; [done|by constructor].
    + destruct IH as (t & Ht & Hn & ->). exists t. split_and!; [by right|done|done].
  - exists s. split_and!; [by left|done|done].
Qed.

(** The services with everything but their dependency list. *)
Definition service_equiv (s t : ServiceSpec) : Prop :=
  ss_id s = ss_id t ∧ ss_repository s = ss_repository t ∧ ss_default_port s = ss_default_port t.

Lemma check_services_equiv names l k :
  Forall2 service_equiv l k →
  match check_services names l, check_services names k with
  | Ok l', Ok k' => Forall2 service_equiv l' k'
  | Err e, Err e' => e = e'
  | _, _ => False
  end.
Proof.
  induction 1 as [|s t l k (Hid & Hrepo & Hport) Hlk IH]; cbn; [done|].
  unfold check_service. rewrite Hrepo, Hid. case_decide; cbn; [|done].
  destruct (check_services names l), (check_services names k); cbn; try done.
  by repeat constructor.
Qed.

Lemma assign_leases_equiv namespace reserved l k :
  Forall2 service_equiv l k →
  assign_leases namespace reserved l = assign_leases namespace reserved k.
Proof.
  intros H. revert reserved.
  induction H as [|s t l k (Hid & Hrepo & Hport) Hlk IH]; intros reserved; cbn; [done|].
  rewrite Hport, Hid. destruct (first_free_port _ _) as [p|]; cbn; [|done].
  rewrite IH. unfold lease_for. by rewrite Hid.
Qed.

(** ** The normalized repository list *)

Lemma sorted_pins_names l : rp_name <$> sorted_pins l = sort_by str_cmp (rp_name <$> l).
Proof.
  unfold sorted_pins. rewrite <- list_fmap_compose, <- fmap_sort_by. done.
Qed.

Lemma sorted_pins_dup l :
  rp_name <$> first_adjacent_dup rp_name (sorted_pins l)
  = first_adjacent_dup id (sort_by str_cmp (rp_name <$> l)).
Proof. by rewrite first_adjacent_dup_fmap, sorted_pins_names. Qed.

Lemma first_adjacent_dup_sorted (l : list str) :
  match first_adjacent_dup id (sort_by str_cmp l) with
  | Some x => x ∈ l ∧ ¬ NoDup l
  | None => NoDup l
  end.
Proof.
  pose proof (sort_by_perm str_cmp l) as Hp.
  destruct (first_adjacent_dup id (sort_by str_cmp l)) as [x|] eqn:E.
  - apply first_adjacent_dup_Some in E as [Hx Hnd].
    rewrite list_fmap_id, Hp in Hnd. by rewrite Hp in Hx.
  - apply (first_adjacent_dup_None id str_cmp) in E.
    + by rewrite list_fmap_id, Hp in E.
    + apply (sort_by_sorted str_cmp).
Qed.

Lemma sorted_pins_unique l k :
  normalize_pin <$> l ≡ₚ normalize_pin <$> k → NoDup (rp_name <$> l) →
  sorted_pins l = sorted_pins k.
Proof.
  intros Hp Hnd. unfold sorted_pins.
  assert (∀ m, normalize_pin <$> sort_by (cmp_on rp_name str_cmp) m
             = sort_by (cmp_on rp_name str_cmp) (normalize_pin <$> m)) as Hcomm.
  { intros m. symmetry. rewrite <- (fmap_sort_by normalize_pin). done. }
  rewrite !Hcomm. apply sort_by_unique; [apply _| |done].
  intros x y Hx Hy Hxy. apply (cmp_eq str_cmp) in Hxy.
  apply (NoDup_fmap_inj_on rp_name (normalize_pin <$> l)); try done.
  by rewrite <- list_fmap_compose.
Qed.

(** ** Equivalent drafts *)

Definition pin_equiv (p q : RepositoryPin) : Prop :=
  rp_name p = rp_name q ∧ rp_base_ref p = rp_base_ref q ∧
  rp_base_commit p = rp_base_commit q ∧
  rp_relevance_basis_points p = rp_relevance_basis_points q ∧
  ∀ e, e ∈ rp_evidence p ↔ e ∈ rp_evidence q.

(** The same content in another order: repositories, evidence, services and dependencies. *)
Definition draft_equiv (d e : BoundaryDraft) : Prop :=
  bd_issue_key d = bd_issue_key e ∧
  bd_base_graph_digest d = bd_base_graph_digest e ∧
  (∃ l, Forall2 pin_equiv (bd_repositories d) l ∧ l ≡ₚ bd_repositories e) ∧
  (∃ l, Forall2 service_equiv (bd_services d) l ∧ l ≡ₚ bd_services e).

Lemma normalize_pin_equiv p q : pin_equiv p q → normalize_pin p = normalize_pin q.
Proof.
  destruct p, q. intros (H1 & H2 & H3 & H4 & H5). unfold normalize_pin. cbn in *.
  rewrite H1, H2, H3, H4. f_equal. by apply (dedup_sort_ext str_cmp).
Qed.

Lemma sorted_services_equiv l m k :
  NoDup (ss_id <$> l) → Forall2 service_equiv l m → m ≡ₚ k →
  Forall2 service_equiv (sort_by (cmp_on ss_id str_cmp) l) (sort_by (cmp_on ss_id str_cmp) k).
Proof.
  intros Hnd Hlm Hmk.
  assert (ss_id <$> l = ss_id <$> m) as Hids.
  { clear -Hlm. induction Hlm as [|? ? ? ? [? _] _ IH]; cbn; [done|]. by f_equal. }
  rewrite <- (sort_by_unique (cmp_on ss_id str_cmp) m k); [| |done].
  - apply sort_by_Forall2; [|done]. intros a a' b b' [Ha _] [Hb _].
    unfold cmp_on. by rewrite Ha, Hb.
  - intros x y Hx Hy Hxy. apply (cmp_eq str_cmp) in Hxy.
    rewrite Hids in Hnd. by apply (NoDup_fmap_inj_on ss_id m).
Qed.

(** ** The digest *)

Definition boundary_in_memory (b : WorkspaceBoundary) : Prop :=
  Forall rust_str (digest_field_parts b).

#[export] Instance boundary_in_memory_dec b : Decision (boundary_in_memory b).
Proof. unfold boundary_in_memory. apply _. Defined.

Lemma elem_of_field_insertions b k v :
  (k, v) ∈ field_insertions b ↔
  (k, v) ∈ header_fields b ∨
  (∃ r, r ∈ wb_repositories b ∧ (k, v) = repo_field r) ∨
  (∃ l, l ∈ wb_runtime_leases b ∧ (k, v) = lease_field l) ∨
  (∃ i c, wb_capabilities b !! i = Some c ∧ (k, v) = capability_field i c).
Proof.
  unfold field_insertions. rewrite !elem_of_app, !list_elem_of_fmap, elem_of_lookup_imap.
  naive_solver.
Qed.

Definition header_keys : list str :=
  [lit "issue"; lit "revision"; lit "parent"; lit "base_graph"; lit "overlay"].

Lemma header_fields_keys b : (header_fields b).*1 = header_keys.
Proof. done. Qed.

Lemma header_keys_NoDup : NoDup header_keys.
Proof. by apply (bool_decide_unpack _); vm_compute. Qed.

(** Every key but the five of the header starts with one of three prefixes. *)
Lemma header_key_shape k : k ∈ header_keys →
  starts_with (lit "repo:") k = false ∧ starts_with (lit "lease:") k = false ∧
  starts_with (lit "capability:") k = false.
Proof.
  intros Hk. apply (Forall_forall (λ k, starts_with (lit "repo:") k = false ∧
    starts_with (lit "lease:") k = false ∧ starts_with (lit "capability:") k = false) header_keys);
    [|done]. repeat constructor.
Qed.

Lemma header_field_unique b k v w : (k, v) ∈ header_fields b → (k, w) ∈ field_insertions b → w = v.
Proof.
  intros Hv Hw. pose proof (list_elem_of_fmap_2 fst _ _ Hv) as Hk.
  rewrite header_fields_keys in Hk. apply header_key_shape in Hk as (Hr & Hl & Hc).
  apply elem_of_field_insertions in Hw.
  destruct Hw as [Hw|[(r & _ & Hw)|[(l & _ & Hw)|(i & c & _ & Hw)]]].
  - pose proof header_keys_NoDup as Hnd. rewrite <- (header_fields_keys b) in Hnd.
    pose proof (NoDup_fmap_inj_on fst _ (k, w) (k, v) Hnd Hw Hv eq_refl) as Heq. by injection Heq.
  - injection Hw as Hk _. by rewrite Hk in Hr.
  - injection Hw as Hk _. by rewrite Hk in Hl.
  - injection Hw as Hk _. by rewrite Hk in Hc.
Qed.

Lemma lookup_header_field b k v :
  (k, v) ∈ header_fields b → digest_fields b !! k = Some v.
Proof.
  intros Hin. apply foldl_insert_lookup; [apply elem_of_field_insertions; by left|].
  intros w. by apply header_field_unique.
Qed.

Lemma capability_field_inj i j c d :
  capability_field i c = capability_field j d → i = j ∧ c = d.
Proof.
  unfold capability_field. intros [= Hk Hv]. apply (inj dec04) in Hk. split; [lia|].
  destruct c as [e1 r1], d as [e2 r2]. cbn in Hv.
  destruct e1, e2; cbn in Hv; simplify_eq; done.
Qed.

Lemma capability_key_inj b i c w :
  (capability_field i c).1 = w.1 → w ∈ field_insertions b →
  ∃ d, wb_capabilities b !! i = Some d ∧ w = capability_field i d.
Proof.
  destruct w as [k v]. intros Hk Hw. cbn in Hk. subst k.
  apply elem_of_field_insertions in Hw.
  destruct Hw as [Hw|[(r & _ & Hw)|[(l & _ & Hw)|(j & d & Hj & Hw)]]].
  - apply (list_elem_of_fmap_2 fst) in Hw. rewrite header_fields_keys in Hw.
    by apply header_key_shape in Hw as (_ & _ & Hw).
  - by injection Hw.
  - by injection Hw.
  - exists d. assert (i = j) as ->; [|by rewrite Hw].
    unfold capability_field in Hw. injection Hw as Hw _. apply (inj dec04) in Hw. lia.
Qed.

Lemma lookup_capability_field b i c :
  wb_capabilities b !! i = Some c →
  digest_fields b !! (capability_field i c).1 = Some (capability_field i c).2.
Proof.
  intros Hi. apply foldl_insert_lookup.
  - apply elem_of_field_insertions. right; right; right. exists i, c. by rewrite <- surjective_pairing.
  - intros w Hw. destruct (capability_key_inj b i c (_, w) eq_refl Hw) as (d & Hd & Heq).
    rewrite Hd in Hi. injection Hi as ->. by injection Heq.
Qed.

Lemma capabilities_from_fields b1 b2 i c :
  digest_fields b1 = digest_fields b2 → wb_capabilities b1 !! i = Some c →
  wb_capabilities b2 !! i = Some c.
Proof.
  intros Heq Hi. apply lookup_capability_field in Hi. rewrite Heq in Hi.
  apply foldl_insert_lookup_in in Hi. rewrite <- surjective_pairing in Hi.
  destruct (capability_key_inj b2 i c _ eq_refl Hi) as (d & Hd & Hcd).
  by apply capability_field_inj in Hcd as [_ <-].
Qed.

(** What the digest binds. *)
Definition same_authority (b1 b2 : WorkspaceBoundary) : Prop :=
  wb_issue_key b1 = wb_issue_key b2 ∧ wb_revision b1 = wb_revision b2 ∧
  default [] (wb_parent_digest b1) = default [] (wb_parent_digest b2) ∧
  wb_base_graph_digest b1 = wb_base_graph_digest b2 ∧
  wb_overlay_digest b1 = wb_overlay_digest b2 ∧
  wb_capabilities b1 = wb_capabilities b2.

Lemma digest_fields_authority b1 b2 : digest_fields b1 = digest_fields b2 → same_authority b1 b2.
Proof.
  intros Heq.
  assert (∀ k v1 v2, (k, v1) ∈ header_fields b1 → (k, v2) ∈ header_fields b2 → v1 = v2) as Hh.
  { intros k v1 v2 H1%lookup_header_field H2%lookup_header_field.
    rewrite Heq, H2 in H1. by injection H1. }
  unfold header_fields in Hh.
  split_and!.
  - apply (Hh (lit "issue")); in_list.
  - apply dec_inj, (Hh (lit "revision")); in_list.
  - apply (Hh (lit "parent")); in_list.
  - apply (Hh (lit "base_graph")); in_list.
  - apply (Hh (lit "overlay")); in_list.
  - apply list_eq. intros i. apply option_eq. intros c.
    split; intros H; by eapply capabilities_from_fields; [|done].
Qed.

Lemma digest_field_parts_inj b1 b2 :
  digest_field_parts b1 = digest_field_parts b2 → digest_fields b1 = digest_fields b2.
Proof. intros H%flatten_pairs_inj. by apply bt_iter_inj. Qed.

(** ** Compilation *)

Section boundary_proofs.
Context (sha256_hex : list N → str).

(** A draft that names an issue and a non-empty, duplicate-free scope that contains every
    service. *)
Definition draft_valid (draft : BoundaryDraft) : Prop :=
  trim (bd_issue_key draft) ≠ [] ∧ bd_repositories draft ≠ [] ∧
  NoDup (rp_name <$> bd_repositories draft) ∧
  Forall (λ s, ss_repository s ∈ rp_name <$> bd_repositories draft) (bd_services draft).

(** Distinct free ports exist for all services of the draft. *)
Definition ports_assignable (occupied : gset N) (services : list ServiceSpec) : Prop :=
  ∃ ports, Forall2 (port_fits occupied) services ports ∧ NoDup ports.

Lemma ports_assignable_perm occupied l k :
  l ≡ₚ k → ports_assignable occupied l → ports_assignable occupied k.
Proof.
  intros Hp (ports & Hf & Hnd).
  destruct (Permutation_Forall2 Hp Hf) as (ports' & Hpp & Hf').
  exists ports'. split; [done|by rewrite <- Hpp].
Qed.

Lemma ports_assignable_normalize occupied l :
  ports_assignable occupied (normalize_service <$> l) ↔ ports_assignable occupied l.
Proof.
  unfold ports_assignable. split; intros (ports & Hf & Hnd); exists ports; (split; [|done]).
  - exact (proj1 (Forall2_fmap_l normalize_service (port_fits occupied) _ _) Hf).
  - exact (proj2 (Forall2_fmap_l normalize_service (port_fits occupied) _ _) Hf).
Qed.

Definition compiled_leases (draft : BoundaryDraft) (occupied : gset N) :
    result (list RuntimeLease) BoundaryError :=
  assign_leases (slug (to_ascii_uppercase (trim (bd_issue_key draft)))) occupied
    (normalize_service <$> sort_by (cmp_on ss_id str_cmp) (bd_services draft)).

(** The boundary that a valid draft and its leases determine. *)
Definition boundary_of (draft : BoundaryDraft) (leases : list RuntimeLease) : WorkspaceBoundary :=
  let issue_key := to_ascii_uppercase (trim (bd_issue_key draft)) in
  let b :=
    {| wb_issue_key := issue_key;
       wb_revision := 1;
       wb_parent_digest := None;
       wb_base_graph_digest := bd_base_graph_digest draft;
       wb_overlay_digest := digest_parts sha256_hex
         (overlay_parts issue_key (bd_base_graph_digest draft) (sorted_pins (bd_repositories draft)));
       wb_repositories := sorted_pins (bd_repositories draft);
       wb_runtime_leases := leases;
       wb_capabilities := capabilities_of issue_key leases;
       wb_digest := [] |} in
  set_digest b (compute_digest sha256_hex b).

Lemma elem_of_pin_names l x :
  x ∈ (list_to_set (rp_name <$> sorted_pins l) : gset str) ↔ x ∈ rp_name <$> l.
Proof. by rewrite elem_of_list_to_set, sorted_pins_names, (elem_of_sort_by str_cmp). Qed.

(** Every outcome of [compile], with the condition under which it happens. *)
Lemma compile_cases draft occupied :
  match compile sha256_hex draft occupied with
  | Ok b => draft_valid draft ∧ ∃ leases,
      compiled_leases draft occupied = Ok leases ∧ b = boundary_of draft leases
  | Err MissingIssue => trim (bd_issue_key draft) = []
  | Err EmptyScope => bd_repositories draft = []
  | Err (DuplicateRepository name) =>
      name ∈ rp_name <$> bd_repositories draft ∧ ¬ NoDup (rp_name <$> bd_repositories draft)
  | Err (ServiceOutsideScope service repository) =>
      ∃ s, s ∈ bd_services draft ∧ ss_id s = service ∧ ss_repository s = repository ∧
        repository ∉ rp_name <$> bd_repositories draft
  | Err (PortSpaceExhausted service) =>
      draft_valid draft ∧ compiled_leases draft occupied = Err (PortSpaceExhausted service)
  | Err StaleBoundary | Err CapabilityDenied => False
  end.
Proof.
  unfold compile.
  destruct (is_empty (trim (bd_issue_key draft))) eqn:Hissue; cbn.
  { by destruct (trim (bd_issue_key draft)). }
  case_bool_decide as Hrepos; cbn; [done|].
  pose proof (sorted_pins_dup (bd_repositories draft)) as Hdup.
  pose proof (first_adjacent_dup_sorted (rp_name <$> bd_repositories draft)) as Hadj.
  rewrite <- Hdup in Hadj. clear Hdup.
  destruct (first_adjacent_dup rp_name _) as [p|]; cbn in *; [done|].
  pose proof (check_services_spec (list_to_set (rp_name <$> sorted_pins (bd_repositories draft)))
    (sort_by (cmp_on ss_id str_cmp) (bd_services draft))) as Hcs.
  destruct (check_services _ _) as [services|e]; cbn.
  - destruct Hcs as [-> Hscope].
    assert (draft_valid draft) as Hvalid.
    { split_and!; [|done|done|].
      - by destruct (trim (bd_issue_key draft)).
      - rewrite sort_by_perm in Hscope. eapply Forall_impl; [done|].
        intros s. apply elem_of_pin_names. }
    unfold compiled_leases.
    destruct (assign_leases _ _ _) as [leases|e] eqn:El; cbn; [eauto|].
    apply assign_leases_Err in El as (? & ? & ? & ? & _ & -> & _). done.
  - destruct Hcs as (s & Hs & Hn & ->). rewrite sort_by_perm in Hs.
    exists s. rewrite elem_of_pin_names in Hn. done.
Qed.

Lemma compile_Ok_inv draft occupied b :
  compile sha256_hex draft occupied = Ok b →
  draft_valid draft ∧ ∃ leases,
    compiled_leases draft occupied = Ok leases ∧ b = boundary_of draft leases.
Proof. intros H. pose proof (compile_cases draft occupied) as Hc. by rewrite H in Hc. Qed.

Lemma compiled_leases_assignable draft occupied :
  match compiled_leases draft occupied with
  | Ok _ => ports_assignable occupied (bd_services draft)
  | Err _ => ¬ ports_assignable occupied (bd_services draft)
  end.
Proof.
  pose proof (sort_by_perm (cmp_on ss_id str_cmp) (bd_services draft)) as Hp.
  unfold compiled_leases. destruct (assign_leases _ _ _) as [leases|e] eqn:El.
  - apply assign_leases_Ok in El as (ports & _ & Hf & Hnd & _).
    eapply ports_assignable_perm; [exact Hp|].
    apply ports_assignable_normalize. by exists ports.
  - intros Ha. apply (assign_leases_complete _ _ _ _ El).
    apply ports_assignable_normalize. by eapply ports_assignable_perm.
Qed.

(** C1: compilation is total and decides exactly: it succeeds for a valid draft whose
    services can all be given distinct free ports at or above their defaults, and otherwise
    reports the condition that fails.  First-fit assignment in identifier order is complete:
    [PortSpaceExhausted] is returned only when no assignment exists at all. *)
Theorem compile_decides draft occupied :
  match compile sha256_hex draft occupied with
  | Ok _ => draft_valid draft ∧ ports_assignable occupied (bd_services draft)
  | Err MissingIssue => trim (bd_issue_key draft) = []
  | Err EmptyScope => bd_repositories draft = []
  | Err (DuplicateRepository name) =>
      name ∈ rp_name <$> bd_repositories draft ∧ ¬ NoDup (rp_name <$> bd_repositories draft)
  | Err (ServiceOutsideScope service repository) =>
      ∃ s, s ∈ bd_services draft ∧ ss_id s = service ∧ ss_repository s = repository ∧
        repository ∉ rp_name <$> bd_repositories draft
  | Err (PortSpaceExhausted _) =>
      draft_valid draft ∧ ¬ ports_assignable occupied (bd_services draft)
  | Err StaleBoundary | Err CapabilityDenied => False
  end.
Proof.
  pose proof (compile_cases draft occupied) as Hc.
  pose proof (compiled_leases_assignable draft occupied) as Ha.
  destruct (compile sha256_hex draft occupied) as [b|[]]; try done.
  - destruct Hc as [Hv (leases & Hl & _)]. by rewrite Hl in Ha.
  - destruct Hc as [Hv Hl]. by rewrite Hl in Ha.
Qed.

(** Equal content in another order compiles to the same boundary or the same error:
    repository, evidence, service and dependency order are irrelevant when the service
    identifiers are distinct. *)
Theorem compile_order_independent d e occupied :
  draft_equiv d e → NoDup (ss_id <$> bd_services d) →
  compile sha256_hex d occupied = compile sha256_hex e occupied.
Proof.
  intros (Hkey & Hbase & (pins & Hpins & Hpp) & (services & Hs & Hsp)) Hids.
  assert (normalize_pin <$> bd_repositories d ≡ₚ normalize_pin <$> bd_repositories e) as Hnorm.
  { rewrite <- Hpp. clear -Hpins. induction Hpins as [|p q ? ? Hpq _ IH]; [done|].
    rewrite !fmap_cons, (normalize_pin_equiv p q Hpq). by constructor. }
  assert (rp_name <$> bd_repositories d ≡ₚ rp_name <$> bd_repositories e) as Hnames.
  { apply (fmap_Permutation rp_name) in Hnorm. by rewrite <- !list_fmap_compose in Hnorm. }
  pose proof (sorted_pins_dup (bd_repositories d)) as Hd.
  pose proof (sorted_pins_dup (bd_repositories e)) as He.
  pose proof (first_adjacent_dup_sorted (rp_name <$> bd_repositories d)) as Hadj.
  rewrite <- (sort_by_perm_total str_cmp _ _ Hnames) in He.
  unfold compile. rewrite <- Hkey, <- Hbase.
  destruct (guard_err _ _); cbn; [|done].
  assert (bool_decide (bd_repositories d = []) = bool_decide (bd_repositories e = [])) as ->.
  { apply bool_decide_ext. apply Permutation_length in Hnames. rewrite !length_fmap in Hnames.
    by destruct (bd_repositories d), (bd_repositories e). }
  destruct (guard_err _ _); cbn; [|done].
  rewrite <- Hd in Hadj, He.
  destruct (first_adjacent_dup rp_name (sorted_pins (bd_repositories d))) as [p|],
    (first_adjacent_dup rp_name (sorted_pins (bd_repositories e))) as [q|]; try done; cbn in *.
  { by injection He as ->. }
  rewrite <- (sorted_pins_unique _ _ Hnorm Hadj).
  pose proof (sorted_services_equiv _ _ _ Hids Hs Hsp) as Hsort.
  apply (check_services_equiv
    (list_to_set (rp_name <$> sorted_pins (bd_repositories d)))) in Hsort.
  destruct (check_services _ (sort_by _ (bd_services d))) as [l|],
    (check_services _ (sort_by _ (bd_services e))) as [k|]; cbn; try done; [|by subst].
  by rewrite (assign_leases_equiv _ _ _ _ Hsort).
Qed.

(** The leases name the declared services, each once. *)
Lemma compiled_service_ids draft occupied b :
  compile sha256_hex draft occupied = Ok b →
  rl_service_id <$> wb_runtime_leases b = sort_by str_cmp (ss_id <$> bd_services draft).
Proof.
  intros (_ & leases & Hl & ->)%compile_Ok_inv. cbn [wb_runtime_leases boundary_of set_digest wb_issue_key].
  apply assign_leases_Ok in Hl as (ports & -> & Hf & _). apply Forall2_length in Hf as Hlen.
  rewrite <- fmap_sort_by.
  transitivity (ss_id <$> (normalize_service <$> sort_by (cmp_on ss_id str_cmp) (bd_services draft)));
    [|by rewrite <- list_fmap_compose].
  clear -Hlen. revert ports Hlen.
  induction (normalize_service <$> _) as [|s l IH]; intros [|p ports]; try done.
  intros [= Hlen]. cbn. f_equal. by apply IH.
Qed.

(** The leases of a compiled boundary: one per declared service in identifier order, on
    pairwise distinct 16-bit ports that no other session holds, each the first free port at
    or above the default of its service. *)
Theorem compile_leases_exclusive draft occupied b :
  compile sha256_hex draft occupied = Ok b →
  rl_service_id <$> wb_runtime_leases b = sort_by str_cmp (ss_id <$> bd_services draft) ∧
  NoDup (rl_loopback_port <$> wb_runtime_leases b) ∧
  ∀ i lease, wb_runtime_leases b !! i = Some lease →
    ∃ s, s ∈ bd_services draft ∧ rl_service_id lease = ss_id s ∧
      port_fits occupied s (rl_loopback_port lease) ∧
      first_fit (occupied ∪ list_to_set (take i (rl_loopback_port <$> wb_runtime_leases b)))
        s (rl_loopback_port lease) ∧
      rl_hostname lease = slug (ss_id s) ++ lit "." ++ slug (wb_issue_key b) ++ lit ".wts".
Proof.
  intros Hc. pose proof (compiled_service_ids _ _ _ Hc) as Hids.
  apply compile_Ok_inv in Hc as (_ & leases & Hl & ->).
  cbn [wb_runtime_leases boundary_of set_digest wb_issue_key] in *.
  apply assign_leases_Ok in Hl as (ports & -> & Hf & Hnd & Hfit).
  set (services := normalize_service <$> sort_by (cmp_on ss_id str_cmp) (bd_services draft)) in *.
  pose proof (Forall2_length _ _ _ Hf) as Hlen.
  assert (∀ namespace, rl_loopback_port <$> zip_with (lease_for namespace) services ports = ports)
    as Hports.
  { intros namespace. apply fmap_zip_with_r; [done|lia]. }
  rewrite Hports. split_and!; [done|done|].
  - intros i lease (t & p & -> & Ht & Hp)%lookup_zip_with_Some.
    destruct (Forall2_lookup_lr _ _ _ _ _ _ Hf Ht Hp) as [Hb Ho].
    pose proof (Hfit i t p Ht Hp) as Hff.
    unfold services in Ht. apply list_lookup_fmap_Some in Ht as (s & -> & Hs).
    exists s. split_and!; try done.
    apply list_elem_of_lookup_2 in Hs. by apply elem_of_sort_by in Hs.
Qed.

(** ** Decisions *)

Lemma verify_Ok b action :
  verify b action = Ok () ↔
  ae_boundary_digest action = wb_digest b ∧
  {| cap_effect := ae_effect action; cap_resource := ae_resource action |} ∈ wb_capabilities b.
Proof.
  unfold verify. destruct (decide (ae_boundary_digest action = wb_digest b)) as [Hd|Hd].
  2: { rewrite decide_True by done. split; [done|]. by intros [? _]. }
  rewrite decide_False by by intros ?.
  destruct (existsb _ _) eqn:E.
  - split; [|done]. intros _. split; [done|].
    apply existsb_spec in E as ([e r] & Hin & Hc). cbn in Hc. bool_split. by subst.
  - split; [done|]. intros [_ Hin]. exfalso.
    assert (true = false) as Hf; [|done]. rewrite <- E. symmetry. apply existsb_spec.
    eexists. split; [exact Hin|]. cbn. by rewrite !bool_decide_eq_true_2.
Qed.

Lemma elem_of_capabilities_of issue_key leases c :
  c ∈ capabilities_of issue_key leases ↔
  c ∈ workspace_capabilities issue_key ∨ ∃ lease, lease ∈ leases ∧ c ∈ lease_capabilities lease.
Proof.
  unfold capabilities_of, capability_cmp. rewrite sort_by_perm, elem_of_app, list_elem_of_bind.
  naive_solver.
Qed.

(** [verify] on a compiled boundary grants an action exactly when it carries the current
    digest and names the workspace's own files, a declared service's process, or a loopback
    port leased to one. *)
Theorem compiled_authority draft occupied b action :
  compile sha256_hex draft occupied = Ok b →
  verify b action = Ok () ↔
  ae_boundary_digest action = wb_digest b ∧
  match ae_effect action with
  | Read | Write => ae_resource action = lit "workspace:" ++ wb_issue_key b ++ lit "/**"
  | Execute => ∃ s, s ∈ bd_services draft ∧ ae_resource action = lit "process:" ++ ss_id s
  | Network => ∃ lease, lease ∈ wb_runtime_leases b ∧
      ae_resource action = lit "loopback:" ++ dec (rl_loopback_port lease)
  end.
Proof.
  intros Hc. pose proof (compiled_service_ids _ _ _ Hc) as Hids.
  apply compile_Ok_inv in Hc as (_ & leases & Hl & ->).
  rewrite verify_Ok. cbn [wb_capabilities boundary_of set_digest wb_issue_key wb_runtime_leases].
  cbn [wb_runtime_leases boundary_of set_digest] in Hids.
  apply and_iff_compat_l. rewrite elem_of_capabilities_of.
  unfold workspace_capabilities, lease_capabilities.
  assert (∀ id, id ∈ rl_service_id <$> leases ↔ id ∈ ss_id <$> bd_services draft) as Hmem.
  { intros id. by rewrite Hids, (elem_of_sort_by str_cmp). }
  setoid_rewrite list_elem_of_fmap in Hmem. setoid_rewrite elem_of_cons.
  setoid_rewrite list_elem_of_singleton.
  destruct (ae_effect action); split.
  - by intros [[[= ->]|?]|(lease & _ & [?|?])].
  - intros ->. by left; left.
  - by intros [[?|[= ->]]|(lease & _ & [?|?])].
  - intros ->. by left; right.
  - intros [[?|?]|(lease & Hin & [[= ->]|?])]; [done..| |done].
    destruct (proj1 (Hmem (rl_service_id lease))) as (s & -> & Hs); eauto.
  - intros (s & Hs & ->). right. destruct (proj2 (Hmem (ss_id s))) as (l & -> & Hl'); eauto.
  - intros [[?|?]|(lease & Hin & [?|[= ->]])]; [done..|by exists lease].
  - intros (l & Hl' & ->). right. exists l. auto.
Qed.

(** The boundary digest binds the authority: two boundaries with the same digest have the
    same issue, revision, parent, base graph, overlay and capability list, unless their two
    byte streams are a SHA-256 collision. *)
Theorem digest_binds_authority b1 b2 :
  boundary_in_memory b1 → boundary_in_memory b2 →
  compute_digest sha256_hex b1 = compute_digest sha256_hex b2 →
  same_authority b1 b2 ∨
  collides sha256_hex (encode_parts (digest_field_parts b1)) (encode_parts (digest_field_parts b2)).
Proof.
  intros H1 H2 [Heq|Hcol]%digest_parts_eq; [left|by right|done..].
  by apply digest_fields_authority, digest_field_parts_inj.
Qed.

Lemma set_digest_fields b d : digest_fields (set_digest b d) = digest_fields b.
Proof. done. Qed.

(** A revision is linked to its parent and supersedes it: its number is the next one,
    its digest is that of its own content, and an action authored against the parent is
    stale (or the two byte streams are a SHA-256 collision). *)
Theorem revise_supersedes b draft occupied b' :
  revise sha256_hex b draft occupied = Ok b' →
  wb_revision b < u32_max → wb_digest b = compute_digest sha256_hex b →
  boundary_in_memory b → boundary_in_memory b' →
  wb_parent_digest b' = Some (wb_digest b) ∧ wb_revision b' = wb_revision b + 1 ∧
  wb_digest b' = compute_digest sha256_hex b' ∧
  (∃ c, compile sha256_hex draft occupied = Ok c ∧ wb_capabilities b' = wb_capabilities c) ∧
  ((∀ action, ae_boundary_digest action = wb_digest b → verify b' action = Err StaleBoundary) ∨
   collides sha256_hex (encode_parts (digest_field_parts b)) (encode_parts (digest_field_parts b'))).
Proof.
  unfold revise. intros Hr Hrev Hdig Hm Hm'.
  destruct (compile sha256_hex draft occupied) as [c|] eqn:Hc; [|done]. cbn in Hr.
  injection Hr as <-.
  assert (wrapping_u32 (wb_revision b + 1) = wb_revision b + 1) as Hwrap.
  { unfold wrapping_u32, u32_max in *. apply N.mod_small. lia. }
  split_and!; [done|by cbn; rewrite Hwrap|done|by exists c|].
  match goal with |- context [verify ?x] => set (b' := x) in * end.
  destruct (decide (wb_digest b = wb_digest b')) as [Heq|Hne].
  - right. rewrite Hdig in Heq. change (wb_digest b') with (compute_digest sha256_hex b') in Heq.
    apply digest_parts_eq in Heq as [Heq|]; [exfalso|done..].
    apply digest_field_parts_inj, digest_fields_authority in Heq as (_ & Heq & _).
    unfold b' in Heq. cbn in Heq. rewrite Hwrap in Heq. lia.
  - left. intros action Ha. unfold verify. rewrite decide_True; [done|]. by rewrite Ha.
Qed.
End boundary_proofs.

(** ** Witnesses *)

Section witnesses.

Definition sample_pin (name commit : string) (evidence : list str) : RepositoryPin :=
  {| rp_name := lit name; rp_base_ref := lit "main"; rp_base_commit := lit commit;
     rp_relevance_basis_points := 9000; rp_evidence := evidence |}.

Definition sample_draft (repositories : list RepositoryPin) : BoundaryDraft :=
  {| bd_issue_key := lit "task-42";
     bd_base_graph_digest := lit "graph-base-42";
     bd_repositories := repositories;
     bd_services :=
       [ {| ss_id := lit "ledger-events"; ss_repository := lit "ledger-events";
            ss_default_port := 9100; ss_depends_on := [lit "orders-api"] |};
         {| ss_id := lit "orders-api"; ss_repository := lit "orders-api";
            ss_default_port := 9000; ss_depends_on := [] |} ] |}.

Definition sample_evidence : list str := [lit "ticket"; lit "graph-path"].
Definition draft_a : BoundaryDraft :=
  sample_draft [sample_pin "ledger-events" "bbb" sample_evidence;
                sample_pin "orders-api" "aaa" sample_evidence].
Definition draft_b : BoundaryDraft :=
  sample_draft [sample_pin "orders-api" "aaa" (reverse sample_evidence);
                sample_pin "ledger-events" "bbb" sample_evidence].
Definition draft_c : BoundaryDraft :=
  sample_draft [sample_pin "ledger-events" "bbb" sample_evidence;
                sample_pin "orders-api" "aaa" sample_evidence;
                sample_pin "risk-engine" "ccc" sample_evidence].
Definition held_ports : gset N := list_to_set [9000; 9001; 9100].

(** A stand-in for SHA-256 that keeps its input. *)
Definition identity_hash (bytes : list N) : str := bytes.

Definition compiled_a : WorkspaceBoundary :=
  match compile identity_hash draft_a held_ports with
  | Ok b => b
  | Err _ => set_digest
      {| wb_issue_key := []; wb_revision := 0; wb_parent_digest := None;
         wb_base_graph_digest := []; wb_overlay_digest := []; wb_repositories := [];
         wb_runtime_leases := []; wb_capabilities := []; wb_digest := [] |} []
  end.

Definition revised_a : WorkspaceBoundary :=
  match revise identity_hash compiled_a draft_c held_ports with
  | Ok b => b
  | Err _ => compiled_a
  end.

Lemma compiled_a_ok : compile identity_hash draft_a held_ports = Ok compiled_a.
Proof. vm_compute. reflexivity. Qed.

Lemma revised_a_ok : revise identity_hash compiled_a draft_c held_ports = Ok revised_a.
Proof. vm_compute. reflexivity. Qed.

Lemma compile_order_independent_witness :
  draft_equiv draft_a draft_b ∧ NoDup (ss_id <$> bd_services draft_a) ∧
  compile identity_hash draft_a held_ports = compile identity_hash draft_b held_ports.
Proof.
  assert (draft_equiv draft_a draft_b) as He.
  { split_and!; [done|done| |].
    - exists (reverse (bd_repositories draft_b)). split; [|apply reverse_Permutation].
      constructor; [by split_and!|]. constructor; [|constructor].
      split_and!; [done..|]. intros x. cbn [rp_evidence sample_pin]. by rewrite elem_of_reverse.
    - exists (bd_services draft_a). split; [|done]. by repeat constructor. }
  assert (NoDup (ss_id <$> bd_services draft_a)) as Hn.
  { by apply (bool_decide_unpack _); vm_compute. }
  split_and!; [exact He|exact Hn|].
  exact (compile_order_independent identity_hash draft_a draft_b held_ports He Hn).
Defined.

Lemma compile_leases_exclusive_witness :
  compile identity_hash draft_a held_ports = Ok compiled_a ∧
  NoDup (rl_loopback_port <$> wb_runtime_leases compiled_a) ∧
  rl_loopback_port <$> wb_runtime_leases compiled_a = [9101; 9002].
Proof.
  split_and!; [exact compiled_a_ok| |vm_compute; reflexivity].
  exact (proj1 (proj2 (compile_leases_exclusive identity_hash draft_a held_ports compiled_a
    compiled_a_ok))).
Defined.

Definition sample_action : ActionEnvelope :=
  {| ae_boundary_digest := wb_digest compiled_a; ae_effect := Network;
     ae_resource := lit "loopback:9002" |}.

Lemma compiled_authority_witness :
  verify compiled_a sample_action = Ok () ∧
  ∃ lease, lease ∈ wb_runtime_leases compiled_a ∧
    ae_resource sample_action = lit "loopback:" ++ dec (rl_loopback_port lease).
Proof.
  assert (verify compiled_a sample_action = Ok ()) as Hv by (vm_compute; reflexivity).
  split; [exact Hv|].
  exact (proj2 (proj1 (compiled_authority identity_hash draft_a held_ports compiled_a
    sample_action compiled_a_ok) Hv)).
Defined.

Lemma compiled_a_in_memory : boundary_in_memory compiled_a.
Proof. apply (bool_decide_unpack _). vm_compute. exact I. Qed.

Lemma revised_a_in_memory : boundary_in_memory revised_a.
Proof. apply (bool_decide_unpack _). vm_compute. exact I. Qed.

Lemma digest_binds_authority_witness :
  boundary_in_memory compiled_a ∧
  (same_authority compiled_a (set_digest compiled_a []) ∨
   collides identity_hash (encode_parts (digest_field_parts compiled_a))
     (encode_parts (digest_field_parts (set_digest compiled_a [])))).
Proof.
  split; [exact compiled_a_in_memory|].
  exact (digest_binds_authority identity_hash compiled_a (set_digest compiled_a [])
    compiled_a_in_memory compiled_a_in_memory eq_refl).
Defined.

Lemma revise_supersedes_witness :
  revise identity_hash compiled_a draft_c held_ports = Ok revised_a ∧
  wb_revision revised_a = 2 ∧ wb_parent_digest revised_a = Some (wb_digest compiled_a).
Proof.
  assert (wb_digest compiled_a = compute_digest identity_hash compiled_a) as Hd.
  { vm_compute. reflexivity. }
  assert (wb_revision compiled_a < u32_max) as Hr by (vm_compute; reflexivity).
  pose proof (revise_supersedes identity_hash compiled_a draft_c held_ports revised_a
    revised_a_ok Hr Hd compiled_a_in_memory revised_a_in_memory) as (Hp & Hn & _).
  split_and!; [exact revised_a_ok|vm_compute; reflexivity|exact Hp].
Defined.
End witnesses.
