(* ===== verification/Compatibility.v ===== *)
(** * Commit-vector selection ([crates/wts-core/src/compatibility.rs])

    [solve_compatibility_vector] picks one commit per required repository.  It walks the
    repositories in name order and their candidates in evidence order ([search]), extends
    the chosen prefix only with candidates that every earlier choice allows, and keeps the
    best complete vector.  The theorems compare this backtracking search with its
    specification: among all compatible vectors, the highest evidence score, and among
    those the lexicographically smallest commit list. *)

From S2P Require Import Prelude Order Text.

Local Open Scope N_scope.

(** ** Data *)

Record CommitCandidate := {
  cc_repository : str;
  cc_base_ref : str;
  cc_commit : str;
  cc_evidence_score : N;
  cc_evidence : list str
}.

Record CompatiblePair := {
  cp_left_repository : str;
  cp_left_commit : str;
  cp_right_repository : str;
  cp_right_commit : str;
  cp_evidence : list str
}.

Record CompatibilityProblem := {
  required_repositories : list str;
  candidates : list CommitCandidate;
  compatible_pairs : list CompatiblePair
}.

Record CompatibilityVector := {
  cv_commits : list CommitCandidate;
  cv_evidence_score : N
}.

Inductive CompatibilityError :=
| EmptyProblem
| DuplicateRepository (name : str)
| MissingCandidates (repository : str)
| CandidateOutsideClosure (repository commit : str)
| NoCompatibleVector.

#[export] Instance candidate_eq_dec : EqDecision CommitCandidate.
Proof. solve_decision. Defined.
#[export] Instance vector_eq_dec : EqDecision CompatibilityVector.
Proof. solve_decision. Defined.
#[export] Instance compatibility_error_eq_dec : EqDecision CompatibilityError.
Proof. solve_decision. Defined.

(** ** Constraints *)

Record CompatibilityConstraints := {
  constrained_repository_pairs : gset (str * str);
  allowed_commit_pairs : gset (str * str * str * str)
}.

Definition canonical_pair (pair : CompatiblePair) : str * str * str * str :=
  if str_le (cp_left_repository pair) (cp_right_repository pair)
  then (cp_left_repository pair, cp_left_commit pair, cp_right_repository pair, cp_right_commit pair)
  else (cp_right_repository pair, cp_right_commit pair, cp_left_repository pair, cp_left_commit pair).

Definition canonical_candidate_pair (left right : CommitCandidate) : str * str * str * str :=
  if str_le (cc_repository left) (cc_repository right)
  then (cc_repository left, cc_commit left, cc_repository right, cc_commit right)
  else (cc_repository right, cc_commit right, cc_repository left, cc_commit left).

Definition add_pair (c : CompatibilityConstraints) (pair : CompatiblePair) :
    CompatibilityConstraints :=
  let '(lr, lc, rr, rc) := canonical_pair pair in
  {| constrained_repository_pairs := {[(lr, rr)]} ∪ constrained_repository_pairs c;
     allowed_commit_pairs := {[(lr, lc, rr, rc)]} ∪ allowed_commit_pairs c |}.

(** [CompatibilityConstraints::new]. *)
Definition new_constraints (pairs : list CompatiblePair) : CompatibilityConstraints :=
  foldl add_pair {| constrained_repository_pairs := ∅; allowed_commit_pairs := ∅ |} pairs.

Definition allows (c : CompatibilityConstraints) (left right : CommitCandidate) : bool :=
  let '(lr, lc, rr, rc) := canonical_candidate_pair left right in
  if decide ((lr, rr) ∈ constrained_repository_pairs c)
  then bool_decide ((lr, lc, rr, rc) ∈ allowed_commit_pairs c)
  else true.

(** ** The search *)

Definition canonical_commits (commits : list CommitCandidate) : list (str * str) :=
  (λ candidate, (cc_repository candidate, cc_commit candidate)) <$> commits.

Definition commits_cmp : list (str * str) → list (str * str) → comparison :=
  list_cmp (pair_cmp str_cmp str_cmp).

Definition is_better (candidate : CompatibilityVector) (current : option CompatibilityVector) :
    bool :=
  match current with
  | None => true
  | Some current =>
      (cv_evidence_score current <? cv_evidence_score candidate) ||
      ((cv_evidence_score candidate =? cv_evidence_score current) &&
       match commits_cmp (canonical_commits (cv_commits candidate))
                         (canonical_commits (cv_commits current)) with
       | Lt => true
       | _ => false
       end)
  end.

(** [search] at [index]: [repositories] is the suffix still to be decided, [best] is the
    in/out parameter. *)
Fixpoint search (repositories : list str) (candidates : gmap str (list CommitCandidate))
    (constraints : CompatibilityConstraints) (chosen : list CommitCandidate) (score : N)
    (best : option CompatibilityVector) : option CompatibilityVector :=
  match repositories with
  | [] =>
      let vector := {| cv_commits := chosen; cv_evidence_score := score |} in
      if is_better vector best then Some vector else best
  | repository :: rest =>
      match candidates !! repository with
      | None => best
      | Some options =>
          foldl (λ best candidate,
            if forallb (λ existing, allows constraints existing candidate) chosen
            then search rest candidates constraints (chosen ++ [candidate])
                   (score + cc_evidence_score candidate) best
            else best) best options
      end
  end.

(** ** Preparation of the candidates *)

Definition normalize_candidate (c : CommitCandidate) : CommitCandidate :=
  {| cc_repository := cc_repository c; cc_base_ref := cc_base_ref c; cc_commit := cc_commit c;
     cc_evidence_score := cc_evidence_score c;
     cc_evidence := dedup (sort_by str_cmp (cc_evidence c)) |}.

(** One turn of the grouping loop. *)
Definition group_candidate (required : gset str) (groups : gmap str (list CommitCandidate))
    (candidate : CommitCandidate) :
    result (gmap str (list CommitCandidate)) CompatibilityError :=
  if decide (cc_repository candidate ∈ required)
  then Ok (<[cc_repository candidate :=
              default [] (groups !! cc_repository candidate) ++ [normalize_candidate candidate]]>
           groups)
  else Err (CandidateOutsideClosure (cc_repository candidate) (cc_commit candidate)).

Definition candidate_cmp (left right : CommitCandidate) : comparison :=
  cmp_then (N.compare (cc_evidence_score right) (cc_evidence_score left))
    (cmp_then (str_cmp (cc_commit left) (cc_commit right))
              (str_cmp (cc_base_ref left) (cc_base_ref right))).

Definition order_options (options : list CommitCandidate) : list CommitCandidate :=
  dedup_by (λ left right, bool_decide (cc_commit left = cc_commit right))
    (sort_by candidate_cmp options).

(** One turn of the ordering loop. *)
Definition order_candidates (groups : gmap str (list CommitCandidate)) (repository : str) :
    result (gmap str (list CommitCandidate)) CompatibilityError :=
  let? options := ok_or (groups !! repository) (MissingCandidates repository) in
  Ok (<[repository := order_options options]> groups).

Definition solve_compatibility_vector (problem : CompatibilityProblem) :
    result CompatibilityVector CompatibilityError :=
  ensure guard_err (bool_decide (required_repositories problem = [])) EmptyProblem in
  let repositories := sort_by str_cmp (required_repositories problem) in
  ensure match first_adjacent_dup id repositories with
         | Some name => Err (DuplicateRepository name)
         | None => Ok ()
         end in
  let required : gset str := list_to_set repositories in
  let? groups := try_fold (group_candidate required) ∅ (candidates problem) in
  let? groups := try_fold order_candidates groups repositories in
  let constraints := new_constraints (compatible_pairs problem) in
  ok_or (search repositories groups constraints [] 0 None) NoCompatibleVector.

(** ** Meaning of the constraints *)

(** [p] is evidence about the two repositories. *)
Definition declares (p : CompatiblePair) (r s : str) : Prop :=
  (cp_left_repository p = r ∧ cp_right_repository p = s) ∨
  (cp_left_repository p = s ∧ cp_right_repository p = r).

(** [p] lists the two commits as compatible. *)
Definition lists (p : CompatiblePair) (a b : CommitCandidate) : Prop :=
  (cp_left_repository p = cc_repository a ∧ cp_left_commit p = cc_commit a ∧
   cp_right_repository p = cc_repository b ∧ cp_right_commit p = cc_commit b) ∨
  (cp_left_repository p = cc_repository b ∧ cp_left_commit p = cc_commit b ∧
   cp_right_repository p = cc_repository a ∧ cp_right_commit p = cc_commit a).

(** Two repositories with any declared pair have a closed relationship. *)
Definition pair_compatible (pairs : list CompatiblePair) (a b : CommitCandidate) : Prop :=
  (∃ p, p ∈ pairs ∧ declares p (cc_repository a) (cc_repository b)) →
  ∃ p, p ∈ pairs ∧ lists p a b.

Lemma str_le_spec s t : str_le s t = true ↔ cmp_le str_cmp s t.
Proof. unfold str_le, cmp_le. by destruct (str_cmp s t). Qed.

Lemma str_le_total s t : str_le s t = false → str_le t s = true.
Proof. rewrite str_le_spec. unfold str_le. intros H. apply (cmp_Gt_le str_cmp). by destruct (str_cmp s t). Qed.

Lemma str_le_anti s t : str_le s t = true → str_le t s = true → s = t.
Proof. rewrite !str_le_spec. apply (anti_symm (cmp_le str_cmp)). Qed.

Definition canonical4 (r c s d : str) : str * str * str * str :=
  if str_le r s then (r, c, s, d) else (s, d, r, c).

Lemma canonical4_swap r c s d : r ≠ s → canonical4 r c s d = canonical4 s d r c.
Proof.
  intros Hne. unfold canonical4.
  destruct (str_le r s) eqn:E1, (str_le s r) eqn:E2; try done.
  - exfalso. by apply Hne, str_le_anti.
  - apply str_le_total in E1. congruence.
Qed.

Lemma canonical4_eq r c s d r' c' s' d' :
  r' ≠ s' → canonical4 r c s d = canonical4 r' c' s' d' ↔
  (r = r' ∧ c = c' ∧ s = s' ∧ d = d') ∨ (r = s' ∧ c = d' ∧ s = r' ∧ d = c').
Proof.
  intros Hne. split.
  - unfold canonical4. destruct (str_le r s), (str_le r' s'); intros [= -> -> -> ->]; auto.
  - intros [(-> & -> & -> & ->)|(-> & -> & -> & ->)]; [done|]. by apply canonical4_swap.
Qed.

Lemma canonical4_repos r c s d r' c' s' d' :
  r' ≠ s' →
  ((canonical4 r c s d).1.1.1, (canonical4 r c s d).1.2) =
  ((canonical4 r' c' s' d').1.1.1, (canonical4 r' c' s' d').1.2) ↔
  (r = r' ∧ s = s') ∨ (r = s' ∧ s = r').
Proof.
  intros Hne.
  assert (∀ a b e f, ((canonical4 a b e f).1.1.1, (canonical4 a b e f).1.2)
    = ((canonical4 a [] e []).1.1.1, (canonical4 a [] e []).1.2)) as Herase.
  { intros. unfold canonical4. by destruct (str_le _ _). }
  rewrite (Herase r), (Herase r'). split.
  - intros H. assert (canonical4 r [] s [] = canonical4 r' [] s' []) as Heq.
    { revert H. unfold canonical4. destruct (str_le r s), (str_le r' s'); cbn; by intros [= -> ->]. }
    apply canonical4_eq in Heq; naive_solver.
  - intros [[-> ->]|[-> ->]]; [done|]. by rewrite canonical4_swap.
Qed.

Lemma elem_of_foldl_add_pair pairs c :
  (∀ rs, rs ∈ constrained_repository_pairs (foldl add_pair c pairs) ↔
     rs ∈ constrained_repository_pairs c ∨
     ∃ p, p ∈ pairs ∧ rs = ((canonical_pair p).1.1.1, (canonical_pair p).1.2)) ∧
  (∀ q, q ∈ allowed_commit_pairs (foldl add_pair c pairs) ↔
     q ∈ allowed_commit_pairs c ∨ ∃ p, p ∈ pairs ∧ q = canonical_pair p).
Proof.
  revert c; induction pairs as [|p pairs IH]; intros c; cbn [foldl].
  { split; intros q; (split; [by left|]); intros [?|(p & Hp & _)]; [done| |done|];
      by apply elem_of_nil in Hp. }
  destruct (IH (add_pair c p)) as [IH1 IH2]. unfold add_pair in *.
  destruct (canonical_pair p) as [[[lr lc] rr] rc] eqn:Ep.
  split; intros q; rewrite ?IH1, ?IH2; cbn; rewrite elem_of_union, elem_of_singleton;
    setoid_rewrite elem_of_cons; split.
  1, 3: intros [[->|?]|(p' & ? & ?)];
    [right; exists p; rewrite Ep; auto | by left | right; eauto].
  1, 2: intros [?|(p' & [->|?] & Hq)];
    [left; by right | left; left; by rewrite Ep in Hq | right; eauto].
Qed.

Lemma allows_spec pairs a b :
  cc_repository a ≠ cc_repository b →
  allows (new_constraints pairs) a b = true ↔ pair_compatible pairs a b.
Proof.
  intros Hne. unfold allows, new_constraints, pair_compatible.
  destruct (elem_of_foldl_add_pair pairs
    {| constrained_repository_pairs := ∅; allowed_commit_pairs := ∅ |}) as [H1 H2].
  cbn [constrained_repository_pairs allowed_commit_pairs] in H1, H2.
  assert (∀ p, declares p (cc_repository a) (cc_repository b) ↔
    ((canonical_pair p).1.1.1, (canonical_pair p).1.2) =
    ((canonical_candidate_pair a b).1.1.1, (canonical_candidate_pair a b).1.2)) as Hd.
  { intros p. symmetry.
    exact (canonical4_repos (cp_left_repository p) (cp_left_commit p) (cp_right_repository p)
      (cp_right_commit p) _ (cc_commit a) _ (cc_commit b) Hne). }
  assert (∀ p, lists p a b ↔ canonical_pair p = canonical_candidate_pair a b) as Hl.
  { intros p. symmetry.
    exact (canonical4_eq (cp_left_repository p) (cp_left_commit p) (cp_right_repository p)
      (cp_right_commit p) _ (cc_commit a) _ (cc_commit b) Hne). }
  setoid_rewrite Hd. setoid_rewrite Hl.
  destruct (canonical_candidate_pair a b) as [[[lr lc] rr] rc]. cbn.
  specialize (H1 (lr, rr)). specialize (H2 (lr, lc, rr, rc)).
  rewrite elem_of_empty in H1. rewrite elem_of_empty in H2.
  case_decide as Hc; [rewrite bool_decide_eq_true|]; naive_solver.
Qed.

(** ** The search enumerates the compatible vectors *)

Definition total_score (commits : list CommitCandidate) : N :=
  foldr (λ c acc, cc_evidence_score c + acc) 0 commits.

(** [commits] may follow [chosen]: each is allowed with everything before it. *)
Fixpoint compatible_after (constraints : CompatibilityConstraints)
    (chosen commits : list CommitCandidate) : Prop :=
  match commits with
  | [] => True
  | c :: rest =>
      (∀ existing, existing ∈ chosen → allows constraints existing c = true) ∧
      compatible_after constraints (chosen ++ [c]) rest
  end.

(** One listed option per repository. *)
Definition picks (groups : gmap str (list CommitCandidate)) (repositories : list str)
    (commits : list CommitCandidate) : Prop :=
  Forall2 (λ r c, ∃ options, groups !! r = Some options ∧ c ∈ options) repositories commits.

(** The specification of the search space, in the order the search visits it. *)
Fixpoint extensions (repositories : list str) (groups : gmap str (list CommitCandidate))
    (constraints : CompatibilityConstraints) (chosen : list CommitCandidate) (score : N) :
    list CompatibilityVector :=
  match repositories with
  | [] => [{| cv_commits := chosen; cv_evidence_score := score |}]
  | r :: rest =>
      default [] (groups !! r) ≫= λ c,
        if forallb (λ existing, allows constraints existing c) chosen
        then extensions rest groups constraints (chosen ++ [c]) (score + cc_evidence_score c)
        else []
  end.

Definition consider (best : option CompatibilityVector) (v : CompatibilityVector) :
    option CompatibilityVector := if is_better v best then Some v else best.

Lemma search_extensions repositories groups constraints chosen score best :
  search repositories groups constraints chosen score best
  = foldl consider best (extensions repositories groups constraints chosen score).
Proof.
  revert chosen score best; induction repositories as [|r rest IH]; intros chosen score best;
    cbn [search extensions]; [done|].
  destruct (groups !! r) as [options|]; cbn [from_option id]; [|done].
  revert best; induction options as [|c options IHo]; intros best; [done|].
  rewrite bind_cons, foldl_app, <- IHo. cbn [foldl].
  destruct (forallb _ chosen); [by rewrite IH|done].
Qed.

Lemma elem_of_extensions v repositories groups constraints chosen score :
  v ∈ extensions repositories groups constraints chosen score ↔
  ∃ commits, picks groups repositories commits ∧
    compatible_after constraints chosen commits ∧
    v = {| cv_commits := chosen ++ commits; cv_evidence_score := score + total_score commits |}.
Proof.
  unfold picks. revert v chosen score; induction repositories as [|r rest IH];
    intros v chosen score; cbn [extensions].
  - rewrite list_elem_of_singleton. split.
    + intros ->. exists []. cbn. by rewrite app_nil_r, N.add_0_r.
    + intros (commits & ->%Forall2_nil_inv_l & _ & ->). cbn. by rewrite app_nil_r, N.add_0_r.
  - rewrite list_elem_of_bind. split.
    + intros (c & Hv & Hc). destruct (forallb _ chosen) eqn:Hall; [|by apply elem_of_nil in Hv].
      apply IH in Hv as (commits & Hp & Hcomp & ->). exists (c :: commits). split_and!.
      * constructor; [|done]. destruct (groups !! r) as [options|] eqn:Er; [eauto|].
        by apply elem_of_nil in Hc.
      * split; [by apply forallb_spec|done].
      * cbn. rewrite <- app_assoc, N.add_assoc. done.
    + intros (commits & Hp & Hcomp & ->).
      apply Forall2_cons_inv_l in Hp as (c & commits' & (options & Hr & Hc) & Hp & ->).
      destruct Hcomp as [Hall Hcomp]. exists c. rewrite Hr. split; [|done].
      apply forallb_spec in Hall. rewrite Hall. apply IH. exists commits'. split_and!; [done..|].
      cbn. by rewrite <- app_assoc, N.add_assoc.
Qed.

(** ** The best vector *)

(** Higher score first, then smaller commit list. *)
Definition vector_cmp (v w : CompatibilityVector) : comparison :=
  cmp_then (N.compare (cv_evidence_score w) (cv_evidence_score v))
    (commits_cmp (canonical_commits (cv_commits v)) (canonical_commits (cv_commits w))).

#[export] Instance commits_cmp_total : TotalCmp commits_cmp.
Proof. unfold commits_cmp. apply _. Qed.
#[global] Typeclasses Opaque commits_cmp.

#[export] Instance vector_cmp_pre : PreCmp vector_cmp.
Proof.
  apply (cmp_then_pre (cmp_on cv_evidence_score (rev_cmp N.compare))
    (cmp_on (λ v, canonical_commits (cv_commits v)) commits_cmp)).
Qed.

Lemma is_better_Lt v w : is_better v (Some w) = true ↔ vector_cmp v w = Lt.
Proof.
  unfold is_better, vector_cmp, cmp_then.
  destruct (N.compare_spec (cv_evidence_score w) (cv_evidence_score v)) as [Heq|Hlt|Hgt].
  - rewrite (proj2 (N.ltb_ge _ _)), (proj2 (N.eqb_eq _ _)) by lia. cbn.
    by destruct (commits_cmp _ _).
  - by rewrite (proj2 (N.ltb_lt _ _)).
  - rewrite (proj2 (N.ltb_ge _ _)), (proj2 (N.eqb_neq _ _)) by lia. done.
Qed.

(** The fold keeps a vector that no other one beats. *)
Lemma foldl_consider_best l best :
  match foldl consider best l with
  | Some m => (Some m = best ∨ m ∈ l) ∧ ∀ v, Some v = best ∨ v ∈ l → cmp_le vector_cmp m v
  | None => best = None ∧ l = []
  end.
Proof.
  revert best; induction l as [|v l IH]; intros best; cbn [foldl].
  - destruct best as [b|]; [|done]. split; [by left|].
    intros v [[= ->]|?%elem_of_nil]; [reflexivity|done].
  - specialize (IH (consider best v)).
    assert (cmp_le vector_cmp v v) as Hrefl by reflexivity.
    unfold consider in *. destruct (is_better v best) eqn:Hb.
    + destruct (foldl _ _ l) as [m|]; [|by destruct IH].
      destruct IH as [Hm Hall]. split; [rewrite elem_of_cons; naive_solver|].
      assert (cmp_le vector_cmp m v) as Hmv by (apply Hall; by left).
      intros w. rewrite elem_of_cons. intros [Hw|[->|Hw]]; [|done|apply Hall; by right].
      subst best. apply is_better_Lt in Hb. etrans; [done|]. unfold cmp_le. by rewrite Hb.
    + destruct best as [b|]; [|done].
      destruct (foldl _ _ l) as [m|]; [|by destruct IH].
      destruct IH as [Hm Hall]. split; [rewrite elem_of_cons; naive_solver|].
      assert (cmp_le vector_cmp m b) as Hmb by (apply Hall; by left).
      intros w. rewrite elem_of_cons. intros [Hw|[->|Hw]]; [apply Hall; by left| |apply Hall; by right].
      etrans; [done|]. destruct (vector_cmp v b) eqn:E; [| |by apply (cmp_Gt_le vector_cmp)].
      * apply (cmp_Eq_sym vector_cmp) in E. unfold cmp_le. by rewrite E.
      * apply is_better_Lt in E. congruence.
Qed.

(** ** The prepared candidates *)

#[export] Instance candidate_cmp_pre : PreCmp candidate_cmp.
Proof.
  apply (cmp_then_pre (cmp_on cc_evidence_score (rev_cmp N.compare))
    (λ x y, cmp_then (cmp_on cc_commit str_cmp x y) (cmp_on cc_base_ref str_cmp x y))).
Qed.

Definition group_of (cands : list CommitCandidate) (r : str) : list CommitCandidate :=
  normalize_candidate <$> filter (λ c, cc_repository c = r) cands.

Lemma try_fold_group required cands m :
  match try_fold (group_candidate required) m cands with
  | Ok m' =>
      Forall (λ c, cc_repository c ∈ required) cands ∧
      ∀ r, m' !! r = if decide (group_of cands r = []) then m !! r
                     else Some (default [] (m !! r) ++ group_of cands r)
  | Err e => ∃ c, c ∈ cands ∧ (cc_repository c ∉ required) ∧
      e = CandidateOutsideClosure (cc_repository c) (cc_commit c)
  end.
Proof.
  revert m; induction cands as [|c cands IH]; intros m; cbn [try_fold].
  { split; [constructor|]. intros r. by rewrite decide_True. }
  unfold group_candidate at 1. case_decide as Hc; cbn [rbind].
  2: { exists c. split_and!; [by left|done|done]. }
  specialize (IH (<[cc_repository c :=
    default [] (m !! cc_repository c) ++ [normalize_candidate c]]> m)).
  destruct (try_fold _ _ cands) as [m'|e].
  - destruct IH as [Hall IH]. split; [by constructor|]. intros r. rewrite IH.
    unfold group_of in *. rewrite filter_cons. destruct (decide (cc_repository c = r)) as [<-|Hne].
    + rewrite lookup_insert_eq, fmap_cons. cbn [from_option id].
      rewrite (decide_False (P := _ :: _ = [])) by done. case_decide as Hg.
      * by rewrite Hg.
      * by rewrite <- app_assoc.
    + by rewrite lookup_insert_ne by done.
  - destruct IH as (d & Hd & Hn & ->). exists d. split_and!; [by right|done|done].
Qed.

Lemma try_fold_order repositories m :
  NoDup repositories →
  match try_fold order_candidates m repositories with
  | Ok m' =>
      (∀ r, r ∈ repositories → is_Some (m !! r)) ∧
      ∀ r, m' !! r = if decide (r ∈ repositories) then order_options <$> m !! r else m !! r
  | Err e => ∃ r, r ∈ repositories ∧ m !! r = None ∧ e = MissingCandidates r
  end.
Proof.
  revert m; induction repositories as [|r repositories IH]; intros m Hnd; cbn [try_fold].
  { split; [by intros r ?%elem_of_nil|]. intros r. rewrite decide_False; [done|]. by intros ?%elem_of_nil. }
  apply NoDup_cons in Hnd as [Hr Hnd]. unfold order_candidates at 1.
  destruct (m !! r) as [options|] eqn:Er; cbn [ok_or rbind].
  2: { exists r. split_and!; [by left|done|done]. }
  specialize (IH (<[r := order_options options]> m) Hnd).
  destruct (try_fold _ _ repositories) as [m'|e].
  - destruct IH as [Hs IH]. split.
    + intros s [->|Hin]%elem_of_cons; [by rewrite Er|].
      specialize (Hs s Hin). by rewrite lookup_insert_ne in Hs by (intros ->; done).
    + intros s. rewrite IH. destruct (decide (r = s)) as [<-|Hne].
      * rewrite decide_False, lookup_insert_eq by done.
        rewrite decide_True by by left. by rewrite Er.
      * rewrite lookup_insert_ne by done. repeat case_decide; set_solver.
  - destruct IH as (s & Hs & Hn & ->). exists s. split_and!; [by right| |done].
    by rewrite lookup_insert_ne in Hn by (intros ->; done).
Qed.

Definition sorted_required (problem : CompatibilityProblem) : list str :=
  sort_by str_cmp (required_repositories problem).

Definition problem_valid (problem : CompatibilityProblem) : Prop :=
  required_repositories problem ≠ [] ∧ NoDup (required_repositories problem) ∧
  Forall (λ c, cc_repository c ∈ required_repositories problem) (candidates problem) ∧
  ∀ r, r ∈ required_repositories problem → group_of (candidates problem) r ≠ [].

(** The search that a valid problem runs. *)
Definition prepared (problem : CompatibilityProblem) (groups : gmap str (list CommitCandidate)) :
    Prop :=
  ∀ r, groups !! r = if decide (r ∈ required_repositories problem)
                     then Some (order_options (group_of (candidates problem) r)) else None.

Definition run_search (problem : CompatibilityProblem) (groups : gmap str (list CommitCandidate)) :
    option CompatibilityVector :=
  search (sorted_required problem) groups (new_constraints (compatible_pairs problem)) [] 0 None.

Lemma solve_cases problem :
  match solve_compatibility_vector problem with
  | Ok v => problem_valid problem ∧ ∃ groups,
      prepared problem groups ∧ run_search problem groups = Some v
  | Err EmptyProblem => required_repositories problem = []
  | Err (DuplicateRepository name) =>
      name ∈ required_repositories problem ∧ ¬ NoDup (required_repositories problem)
  | Err (CandidateOutsideClosure repository commit) =>
      ∃ c, c ∈ candidates problem ∧ cc_repository c = repository ∧ cc_commit c = commit ∧
        repository ∉ required_repositories problem
  | Err (MissingCandidates repository) =>
      repository ∈ required_repositories problem ∧ group_of (candidates problem) repository = []
  | Err NoCompatibleVector => problem_valid problem ∧ ∃ groups,
      prepared problem groups ∧ run_search problem groups = None
  end.
Proof.
  unfold solve_compatibility_vector. case_bool_decide as Hne; cbn [guard_err rbind]; [done|].
  fold (sorted_required problem).
  assert (∀ r, r ∈ sorted_required problem ↔ r ∈ required_repositories problem) as Hin
    by (intros r; apply (elem_of_sort_by str_cmp)).
  destruct (first_adjacent_dup id (sorted_required problem)) as [name|] eqn:Edup; cbn [rbind].
  { apply first_adjacent_dup_Some in Edup as [Hn Hnd]. rewrite list_fmap_id in Hnd.
    unfold sorted_required in *. by rewrite sort_by_perm in Hn, Hnd. }
  assert (NoDup (sorted_required problem)) as Hnd.
  { apply (first_adjacent_dup_None id str_cmp) in Edup; [by rewrite list_fmap_id in Edup|].
    apply (sort_by_sorted str_cmp). }
  pose proof (try_fold_group (list_to_set (sorted_required problem)) (candidates problem) ∅) as Hg.
  destruct (try_fold (group_candidate _) ∅ (candidates problem)) as [m|e]; cbn [rbind].
  2: { destruct Hg as (c & Hc & Hn & ->). exists c. rewrite elem_of_list_to_set, Hin in Hn. done. }
  destruct Hg as [Hall Hm].
  pose proof (try_fold_order (sorted_required problem) m Hnd) as Ho.
  assert (∀ r, m !! r = if decide (group_of (candidates problem) r = []) then None
    else Some (group_of (candidates problem) r)) as Hm'.
  { intros r. rewrite Hm, lookup_empty. done. }
  destruct (try_fold order_candidates m _) as [groups|e]; cbn [rbind].
  2: { destruct Ho as (r & Hr & Hn & ->). rewrite Hin in Hr. split; [done|].
       rewrite Hm' in Hn. by case_decide. }
  destruct Ho as [Hsome Hgroups].
  assert (problem_valid problem) as Hvalid.
  { split_and!; [done| | |].
    - unfold sorted_required in Hnd. by rewrite sort_by_perm in Hnd.
    - eapply Forall_impl; [done|]. intros c. by rewrite elem_of_list_to_set, Hin.
    - intros r Hr Hempty. apply Hin, Hsome in Hr as [g Hr]. rewrite Hm', decide_True in Hr; done. }
  assert (prepared problem groups) as Hprep.
  { intros r. rewrite Hgroups, Hm'. destruct (decide (r ∈ required_repositories problem)) as [Hr|Hr].
    - rewrite decide_True by by apply Hin.
      destruct Hvalid as (_ & _ & _ & Hgr). by rewrite decide_False by by apply Hgr.
    - rewrite decide_False by by rewrite Hin. case_decide as Hg; [done|]. exfalso. apply Hr.
      destruct Hvalid as (_ & _ & Hcl & _). unfold group_of in Hg.
      destruct (filter _ (candidates problem)) as [|c l] eqn:Ef; [done|].
      assert (c ∈ filter (λ c, cc_repository c = r) (candidates problem)) as Hc by (rewrite Ef; left).
      apply list_elem_of_filter in Hc as [<- Hc]. rewrite Forall_forall in Hcl. auto. }
  fold (run_search problem groups).
  destruct (run_search problem groups) eqn:Er; cbn [ok_or]; eauto.
Qed.

(** ** Selections *)

(** Every two commits of a choice are compatible. *)
Definition mutually_compatible (pairs : list CompatiblePair) (w : list CommitCandidate) : Prop :=
  ∀ i j a b, (i < j)%nat → w !! i = Some a → w !! j = Some b → pair_compatible pairs a b.

(** One input candidate per required repository, in name order, mutually compatible. *)
Definition selection (problem : CompatibilityProblem) (w : list CommitCandidate) : Prop :=
  Forall2 (λ r c, c ∈ candidates problem ∧ cc_repository c = r) (sorted_required problem) w ∧
  mutually_compatible (compatible_pairs problem) w.

(** [y] stands for [c]: the same commit with at least as much evidence. *)
Definition represents (c y : CommitCandidate) : Prop :=
  cc_repository c = cc_repository y ∧ cc_commit c = cc_commit y ∧
  cc_evidence_score c ≤ cc_evidence_score y.

Lemma pair_compatible_same pairs a b a' b' :
  cc_repository a = cc_repository a' → cc_commit a = cc_commit a' →
  cc_repository b = cc_repository b' → cc_commit b = cc_commit b' →
  pair_compatible pairs a b → pair_compatible pairs a' b'.
Proof. unfold pair_compatible, lists. by intros -> -> -> ->. Qed.

Lemma compatible_after_pairs constraints chosen l :
  compatible_after constraints chosen l ↔
  (∀ e x, e ∈ chosen → x ∈ l → allows constraints e x = true) ∧
  (∀ i j a b, (i < j)%nat → l !! i = Some a → l !! j = Some b → allows constraints a b = true).
Proof.
  revert chosen; induction l as [|c l IH]; intros chosen; cbn [compatible_after].
  { split; [|done]. intros _. split; [by intros e x _ ?%elem_of_nil|done]. }
  rewrite IH. split.
  - intros (Hc & Hl & Hp). split.
    + intros e x He [->|Hx]%elem_of_cons; [by apply Hc|]. apply Hl; [|done]. set_solver.
    + intros [|i] [|j] a b Hij Ha Hb; cbn in *; try lia.
      * injection Ha as ->. apply Hl; [set_solver|]. by apply list_elem_of_lookup_2 in Hb.
      * apply (Hp i j); [lia|done..].
  - intros (Hl & Hp). split_and!.
    + intros e He. apply Hl; [done|left].
    + intros e x [He|He%list_elem_of_singleton]%elem_of_app Hx; [apply Hl; [done|by right]|].
      subst e.
      apply list_elem_of_lookup in Hx as [j Hj]. by apply (Hp 0%nat (S j)); [lia|..].
    + intros i j a b Hij Ha Hb. by apply (Hp (S i) (S j)); [lia|..].
Qed.

Lemma sorted_required_NoDup problem : problem_valid problem → NoDup (sorted_required problem).
Proof. intros (_ & Hnd & _). unfold sorted_required. by rewrite sort_by_perm. Qed.

(** On a choice with one commit per repository the program's constraint check is mutual
    compatibility. *)
Lemma compatible_after_mutual pairs repositories w :
  NoDup repositories → Forall2 (λ r c, cc_repository c = r) repositories w →
  compatible_after (new_constraints pairs) [] w ↔ mutually_compatible pairs w.
Proof.
  intros Hnd Hw. rewrite compatible_after_pairs. unfold mutually_compatible.
  assert (∀ i j a b, (i < j)%nat → w !! i = Some a → w !! j = Some b →
    cc_repository a ≠ cc_repository b) as Hne.
  { intros i j a b Hij Ha Hb Heq.
    destruct (Forall2_lookup_r _ _ _ _ _ Hw Ha) as (r & Hr & <-).
    destruct (Forall2_lookup_r _ _ _ _ _ Hw Hb) as (s & Hs & <-).
    rewrite <- Heq in Hs. pose proof (NoDup_lookup _ _ _ _ Hnd Hr Hs). lia. }
  split.
  - intros [_ H] i j a b Hij Ha Hb. apply allows_spec; eauto.
  - intros H. split; [by intros e x ?%elem_of_nil|].
    intros i j a b Hij Ha Hb. apply allows_spec; eauto.
Qed.

Lemma elem_of_order_options r cands c :
  c ∈ order_options (group_of cands r) →
  ∃ c0, c0 ∈ cands ∧ cc_repository c0 = r ∧ c = normalize_candidate c0.
Proof.
  intros Hc%elem_of_dedup_by. unfold group_of in Hc.
  rewrite (elem_of_sort_by candidate_cmp) in Hc.
  apply list_elem_of_fmap in Hc as (c0 & -> & Hc0).
  apply list_elem_of_filter in Hc0 as [Hr Hc0]. eauto.
Qed.

Lemma order_options_represents r cands c0 :
  c0 ∈ cands → cc_repository c0 = r →
  ∃ y, y ∈ order_options (group_of cands r) ∧ represents c0 y.
Proof.
  intros Hc Hr.
  destruct (dedup_by_first (λ left right, bool_decide (cc_commit left = cc_commit right))
    (cmp_le candidate_cmp) (normalize_candidate c0) (sort_by candidate_cmp (group_of cands r)))
    as (y & Hy & Hsame & Hle).
  - intros a. by apply bool_decide_eq_true_2.
  - apply (sort_by_sorted candidate_cmp).
  - apply (elem_of_sort_by candidate_cmp), list_elem_of_fmap_2, list_elem_of_filter. done.
  - exists y. split; [done|]. apply bool_decide_eq_true_1 in Hsame. cbn in Hsame.
    destruct (elem_of_order_options r cands y Hy) as (d & _ & Hdr & Hyd).
    split_and!; [by rewrite Hyd, Hr|done|].
    destruct Hle as [->|Hle]; [done|].
    unfold cmp_le, candidate_cmp, cmp_then in Hle. cbn [normalize_candidate cc_evidence_score] in Hle.
    destruct (N.compare_spec (cc_evidence_score c0) (cc_evidence_score y)); [lia|lia|done].
Qed.

Lemma represents_canonical w w' :
  Forall2 represents w w' → canonical_commits w = canonical_commits w' ∧ total_score w ≤ total_score w'.
Proof.
  induction 1 as [|c y w w' (Hr & Hc & Hs) _ [IH1 IH2]]; [done|].
  unfold canonical_commits, total_score in *. cbn. split; [by rewrite Hr, Hc, IH1|lia].
Qed.

Lemma represents_mutual pairs w w' :
  Forall2 represents w w' → mutually_compatible pairs w → mutually_compatible pairs w'.
Proof.
  intros Hw Hm i j a b Hij Ha Hb.
  destruct (Forall2_lookup_r _ _ _ _ _ Hw Ha) as (a0 & Ha0 & Hra & Hca & _).
  destruct (Forall2_lookup_r _ _ _ _ _ Hw Hb) as (b0 & Hb0 & Hrb & Hcb & _).
  eapply pair_compatible_same; [..|by apply (Hm i j)]; done.
Qed.

(** Every selection is represented in the search space. *)
Lemma selection_represented problem groups w :
  problem_valid problem → prepared problem groups → selection problem w →
  ∃ w', Forall2 represents w w' ∧ picks groups (sorted_required problem) w' ∧
    compatible_after (new_constraints (compatible_pairs problem)) [] w'.
Proof.
  intros Hv Hp [Hw Hm].
  assert (Forall (λ r, r ∈ required_repositories problem) (sorted_required problem)) as Hreq.
  { apply Forall_forall. intros r. by apply (elem_of_sort_by str_cmp). }
  assert (∃ w', Forall2 represents w w' ∧ picks groups (sorted_required problem) w' ∧
    Forall2 (λ r c, cc_repository c = r) (sorted_required problem) w') as (w' & H1 & H2 & H3).
  { clear Hm. unfold picks. induction Hw as [|r c rs w [Hc Hr] Hw IH]; [by exists []|].
    apply Forall_cons in Hreq as [Hrr Hreq]. destruct (IH Hreq) as (w' & H1 & H2 & H3).
    destruct (order_options_represents r (candidates problem) c Hc Hr) as (y & Hy & Hcy).
    exists (y :: w'). split_and!; constructor; try done.
    - exists (order_options (group_of (candidates problem) r)). split; [|done].
      by rewrite Hp, decide_True.
    - destruct Hcy as [Hcy _]. congruence. }
  exists w'. split_and!; [done..|].
  apply (compatible_after_mutual _ _ _ (sorted_required_NoDup _ Hv) H3).
  by eapply represents_mutual.
Qed.

(** Every vector of the search space is a selection with normalized evidence. *)
Lemma picks_selection problem groups w' :
  problem_valid problem → prepared problem groups →
  picks groups (sorted_required problem) w' →
  compatible_after (new_constraints (compatible_pairs problem)) [] w' →
  ∃ w, selection problem w ∧ w' = normalize_candidate <$> w ∧ total_score w' = total_score w.
Proof.
  intros Hv Hp Hpick Hcomp.
  assert (∃ w, Forall2 (λ r c, c ∈ candidates problem ∧ cc_repository c = r)
      (sorted_required problem) w ∧ w' = normalize_candidate <$> w ∧
      total_score w' = total_score w) as (w & Hw & -> & Hs).
  { clear Hcomp. unfold picks in Hpick.
    induction Hpick as [|r c rs w' (options & Ho & Hc) _ (w & Hw & -> & Hs)]; [by exists []|].
    rewrite Hp in Ho. case_decide; [|done]. injection Ho as <-.
    apply elem_of_order_options in Hc as (c0 & Hc0 & Hr & ->).
    exists (c0 :: w). split_and!; [by constructor|done|].
    unfold total_score in *. cbn. by rewrite Hs. }
  exists w. split_and!; [|done..]. split; [done|].
  apply (compatible_after_mutual _ (sorted_required problem)) in Hcomp.
  - intros i j a b Hij Ha Hb.
    eapply (pair_compatible_same _ (normalize_candidate a) (normalize_candidate b)); try done.
    apply (Hcomp i j); [done|by rewrite list_lookup_fmap, Ha|by rewrite list_lookup_fmap, Hb].
  - by apply sorted_required_NoDup.
  - clear -Hw. induction Hw as [|r c rs w [_ Hr] _ IH]; constructor; done.
Qed.

(** ** Correctness of the solver *)

(** C2: the solver is sound and optimal: the vector it returns is a mutually compatible choice
    of one input candidate per required repository, with the sum of their scores, and no
    other such choice has a higher score, or the same score with a smaller commit list. *)
Theorem solve_optimal problem v :
  solve_compatibility_vector problem = Ok v →
  (∃ w, selection problem w ∧ cv_commits v = normalize_candidate <$> w ∧
        cv_evidence_score v = total_score w) ∧
  ∀ w, selection problem w →
    total_score w < cv_evidence_score v ∨
    (total_score w = cv_evidence_score v ∧
     cmp_le commits_cmp (canonical_commits (cv_commits v)) (canonical_commits w)).
Proof.
  intros Hs. pose proof (solve_cases problem) as Hc. rewrite Hs in Hc.
  destruct Hc as (Hv & groups & Hp & Hr). unfold run_search in Hr.
  rewrite search_extensions in Hr.
  pose proof (foldl_consider_best (extensions (sorted_required problem) groups
    (new_constraints (compatible_pairs problem)) [] 0) None) as Hb.
  rewrite Hr in Hb. destruct Hb as [[?|Hin] Hbest]; [done|]. split.
  - apply elem_of_extensions in Hin as (w' & Hpick & Hcomp & ->).
    destruct (picks_selection _ _ _ Hv Hp Hpick Hcomp) as (w & Hw & -> & Hsum).
    exists w. split_and!; [done|done|]. cbn. by rewrite N.add_0_l.
  - intros w Hw. destruct (selection_represented _ _ _ Hv Hp Hw) as (w' & Hrep & Hpick & Hcomp).
    apply represents_canonical in Hrep as [Hcan Hle].
    assert (cmp_le vector_cmp v {| cv_commits := w'; cv_evidence_score := total_score w' |}) as Hcmp.
    { apply Hbest. right. apply elem_of_extensions. exists w'. by rewrite N.add_0_l. }
    unfold cmp_le, vector_cmp, cmp_then in Hcmp. cbn [cv_commits cv_evidence_score] in Hcmp.
    rewrite <- Hcan in Hcmp. destruct (N.compare_spec (total_score w') (cv_evidence_score v));
      [|left; lia|done].
    destruct (decide (total_score w = cv_evidence_score v)); [by right|left; lia].
Qed.

(** The solver decides: it fails with [NoCompatibleVector] exactly on a well-formed
    problem without any compatible choice, and every other error names what is wrong with
    the input. *)
Theorem solve_decides problem :
  match solve_compatibility_vector problem with
  | Ok _ => problem_valid problem ∧ ∃ w, selection problem w
  | Err EmptyProblem => required_repositories problem = []
  | Err (DuplicateRepository name) =>
      name ∈ required_repositories problem ∧ ¬ NoDup (required_repositories problem)
  | Err (CandidateOutsideClosure repository commit) =>
      ∃ c, c ∈ candidates problem ∧ cc_repository c = repository ∧ cc_commit c = commit ∧
        repository ∉ required_repositories problem
  | Err (MissingCandidates repository) =>
      repository ∈ required_repositories problem ∧
      ∀ c, c ∈ candidates problem → cc_repository c ≠ repository
  | Err NoCompatibleVector => problem_valid problem ∧ ¬ ∃ w, selection problem w
  end.
Proof.
  pose proof (solve_cases problem) as Hc.
  destruct (solve_compatibility_vector problem) as [v|[]]; try done.
  - destruct Hc as (Hv & groups & Hp & Hr). split; [done|]. unfold run_search in Hr.
    rewrite search_extensions in Hr.
    pose proof (foldl_consider_best (extensions (sorted_required problem) groups
      (new_constraints (compatible_pairs problem)) [] 0) None) as Hb.
    rewrite Hr in Hb. destruct Hb as [[?|Hin] _]; [done|].
    apply elem_of_extensions in Hin as (w' & Hpick & Hcomp & ->).
    destruct (picks_selection _ _ _ Hv Hp Hpick Hcomp) as (w & Hw & _). eauto.
  - destruct Hc as [Hr Hg]. split; [done|]. intros c Hin Heq.
    assert (normalize_candidate c ∈ group_of (candidates problem) repository) as Hin'
      by by apply list_elem_of_fmap_2, list_elem_of_filter.
    rewrite Hg in Hin'. by apply elem_of_nil in Hin'.
  - destruct Hc as (Hv & groups & Hp & Hr). split; [done|]. intros [w Hw].
    destruct (selection_represented _ _ _ Hv Hp Hw) as (w' & _ & Hpick & Hcomp).
    unfold run_search in Hr. rewrite search_extensions in Hr.
    pose proof (foldl_consider_best (extensions (sorted_required problem) groups
      (new_constraints (compatible_pairs problem)) [] 0) None) as Hb.
    rewrite Hr in Hb. destruct Hb as [_ Hnil].
    assert ({| cv_commits := w'; cv_evidence_score := total_score w' |} ∈ ([] : list _)) as Hbad.
    { rewrite <- Hnil. apply elem_of_extensions. exists w'. by rewrite N.add_0_l. }
    by apply elem_of_nil in Hbad.
Qed.

(** ** Independence of the input order *)

Lemma new_constraints_ext pairs pairs' :
  (∀ p, p ∈ pairs ↔ p ∈ pairs') → new_constraints pairs = new_constraints pairs'.
Proof.
  intros Heq. unfold new_constraints.
  set (c0 := {| constrained_repository_pairs := ∅; allowed_commit_pairs := ∅ |}).
  destruct (elem_of_foldl_add_pair pairs c0) as [H1 H2].
  destruct (elem_of_foldl_add_pair pairs' c0) as [H3 H4].
  destruct (foldl add_pair c0 pairs) as [a b], (foldl add_pair c0 pairs') as [a' b'].
  cbn [constrained_repository_pairs allowed_commit_pairs] in *.
  f_equal; apply set_eq; intros q.
  - rewrite H1, H3. by setoid_rewrite Heq.
  - rewrite H2, H4. by setoid_rewrite Heq.
Qed.

(** Candidates that the ordering cannot tell apart carry the same evidence. *)
Definition ties_agree (cands : list CommitCandidate) : Prop :=
  ∀ a b, a ∈ cands → b ∈ cands → cc_repository a = cc_repository b →
    cc_commit a = cc_commit b → cc_base_ref a = cc_base_ref b →
    cc_evidence_score a = cc_evidence_score b →
    ∀ e, e ∈ cc_evidence a ↔ e ∈ cc_evidence b.

Lemma candidate_cmp_Eq a b :
  candidate_cmp a b = Eq →
  cc_evidence_score a = cc_evidence_score b ∧ cc_commit a = cc_commit b ∧
  cc_base_ref a = cc_base_ref b.
Proof.
  unfold candidate_cmp, cmp_then.
  destruct (N.compare_spec (cc_evidence_score b) (cc_evidence_score a)); [|done..].
  destruct (str_cmp (cc_commit a) (cc_commit b)) eqn:Ec; [|done..].
  intros Er. split_and!; [done|by apply (cmp_eq str_cmp)..].
Qed.

Lemma group_of_perm cands cands' r :
  cands ≡ₚ cands' → group_of cands r ≡ₚ group_of cands' r.
Proof. intros Hp. unfold group_of. by rewrite Hp. Qed.

Lemma order_options_perm cands cands' r :
  cands ≡ₚ cands' → ties_agree cands →
  order_options (group_of cands r) = order_options (group_of cands' r).
Proof.
  intros Hp Hties. unfold order_options. f_equal.
  apply sort_by_unique; [apply _| |by apply group_of_perm].
  intros x y Hx Hy (Hs & Hc & Hb)%candidate_cmp_Eq. unfold group_of in Hx, Hy.
  apply list_elem_of_fmap in Hx as (a & -> & Ha), Hy as (b & -> & Hb').
  apply list_elem_of_filter in Ha as [Hra Ha], Hb' as [Hrb Hb'].
  cbn in Hs, Hc, Hb. unfold normalize_candidate. rewrite Hs, Hc, Hb.
  f_equal; [congruence|]. apply (dedup_sort_ext str_cmp), Hties; congruence.
Qed.

Lemma try_fold_order_ext repositories m1 m2 :
  NoDup repositories →
  (∀ r, r ∈ repositories → order_options <$> m1 !! r = order_options <$> m2 !! r) →
  (∀ r, r ∉ repositories → m1 !! r = m2 !! r) →
  try_fold order_candidates m1 repositories = try_fold order_candidates m2 repositories.
Proof.
  revert m1 m2; induction repositories as [|r repositories IH]; intros m1 m2 Hnd Hin Hout;
    cbn [try_fold].
  { f_equal. apply map_eq. intros r. apply Hout. by intros ?%elem_of_nil. }
  apply NoDup_cons in Hnd as [Hr Hnd].
  assert (order_options <$> m1 !! r = order_options <$> m2 !! r) as Heq by (apply Hin; left).
  unfold order_candidates at 1 3.
  destruct (m1 !! r) as [g1|], (m2 !! r) as [g2|]; try done; cbn [ok_or rbind].
  cbn in Heq. injection Heq as Heq. rewrite Heq. apply IH; [done| |].
  - intros s Hs. rewrite !lookup_insert_ne by (intros ->; done). apply Hin. by right.
  - intros s Hs. destruct (decide (r = s)) as [<-|Hne]; [by rewrite !lookup_insert_eq|].
    rewrite !lookup_insert_ne by done. apply Hout. by intros [->|?]%elem_of_cons.
Qed.

(** The selected vector does not depend on the order of repositories, candidates,
    evidence pairs or their repetition, as long as indistinguishable candidates carry the
    same evidence. *)
Theorem solve_order_independent p q :
  required_repositories p ≡ₚ required_repositories q →
  candidates p ≡ₚ candidates q →
  (∀ x, x ∈ compatible_pairs p ↔ x ∈ compatible_pairs q) →
  Forall (λ c, cc_repository c ∈ required_repositories p) (candidates p) →
  ties_agree (candidates p) →
  solve_compatibility_vector p = solve_compatibility_vector q.
Proof.
  intros Hreq Hcand Hpairs Hclosed Hties. unfold solve_compatibility_vector.
  assert (bool_decide (required_repositories p = []) = bool_decide (required_repositories q = []))
    as ->.
  { apply bool_decide_ext. apply Permutation_length in Hreq.
    by destruct (required_repositories p), (required_repositories q). }
  destruct (guard_err _ _); cbn [rbind]; [|done].
  rewrite <- (sort_by_perm_total str_cmp _ _ Hreq).
  destruct (first_adjacent_dup id (sort_by str_cmp (required_repositories p))) eqn:Ed;
    cbn [rbind]; [done|].
  set (repositories := sort_by str_cmp (required_repositories p)) in *.
  assert (NoDup repositories) as Hnd.
  { apply (first_adjacent_dup_None id str_cmp) in Ed; [by rewrite list_fmap_id in Ed|].
    apply (sort_by_sorted str_cmp). }
  assert (∀ cands, cands ≡ₚ candidates p → ∃ m,
    try_fold (group_candidate (list_to_set repositories)) ∅ cands = Ok m ∧
    ∀ r, m !! r = if decide (group_of cands r = []) then None else Some (group_of cands r)) as Hgroup.
  { intros cands Hc. pose proof (try_fold_group (list_to_set repositories) cands ∅) as Hg.
    destruct (try_fold _ ∅ cands) as [m|e].
    - exists m. split; [done|]. intros r. destruct Hg as [_ Hg]. by rewrite Hg, lookup_empty.
    - destruct Hg as (c & Hin & Hn & _). exfalso. apply Hn. rewrite Hc in Hin.
      rewrite Forall_forall in Hclosed. apply elem_of_list_to_set, (elem_of_sort_by str_cmp). auto. }
  destruct (Hgroup (candidates p)) as (m1 & -> & Hm1); [done|].
  destruct (Hgroup (candidates q)) as (m2 & -> & Hm2); [done|]. cbn [rbind].
  rewrite (new_constraints_ext _ _ Hpairs).
  assert (∀ r, group_of (candidates p) r = [] ↔ group_of (candidates q) r = []) as Hnil.
  { intros r. pose proof (group_of_perm _ _ r Hcand) as Hp. split; intros Hg; rewrite Hg in Hp.
    - by apply Permutation_nil_l in Hp.
    - by apply Permutation_nil_r in Hp. }
  rewrite (try_fold_order_ext repositories m1 m2); [done|done| |].
  - intros r _. rewrite Hm1, Hm2. specialize (Hnil r).
    repeat case_decide; try tauto. cbn. f_equal. by apply order_options_perm.
  - intros r Hr. rewrite Hm1, Hm2. specialize (Hnil r).
    repeat case_decide; try tauto. exfalso. apply Hr.
    destruct (group_of (candidates p) r) as [|c l] eqn:Eg; [done|].
    assert (c ∈ group_of (candidates p) r) as Hc by (rewrite Eg; left).
    apply list_elem_of_fmap in Hc as (c0 & -> & Hc0). apply list_elem_of_filter in Hc0 as [<- Hc0].
    rewrite Forall_forall in Hclosed. apply (elem_of_sort_by str_cmp). auto.
Qed.

(** ** Witnesses *)

Section witnesses.

Definition sample_candidate (repository commit : string) (score : N) : CommitCandidate :=
  {| cc_repository := lit repository; cc_base_ref := lit "main"; cc_commit := lit commit;
     cc_evidence_score := score; cc_evidence := [lit "ci"] |}.

Definition sample_pair (lr lc rr rc : string) : CompatiblePair :=
  {| cp_left_repository := lit lr; cp_left_commit := lit lc; cp_right_repository := lit rr;
     cp_right_commit := lit rc; cp_evidence := [lit "integration-ci"] |}.

Definition sample_candidates : list CommitCandidate :=
  [ sample_candidate "orders-api" "orders-new" 100;
    sample_candidate "orders-api" "orders-stable" 90;
    sample_candidate "billing-sdk" "billing-new" 100;
    sample_candidate "billing-sdk" "billing-stable" 90 ].

Definition sample_problem : CompatibilityProblem :=
  {| required_repositories := [lit "orders-api"; lit "billing-sdk"];
     candidates := sample_candidates;
     compatible_pairs :=
       [ sample_pair "orders-api" "orders-new" "billing-sdk" "billing-stable";
         sample_pair "orders-api" "orders-stable" "billing-sdk" "billing-stable" ] |}.

Definition reordered_problem : CompatibilityProblem :=
  {| required_repositories := [lit "billing-sdk"; lit "orders-api"];
     candidates := reverse sample_candidates;
     compatible_pairs := compatible_pairs sample_problem |}.

Definition sample_vector : CompatibilityVector :=
  {| cv_commits := [ sample_candidate "billing-sdk" "billing-stable" 90;
                     sample_candidate "orders-api" "orders-new" 100 ];
     cv_evidence_score := 190 |}.

Lemma solve_optimal_witness :
  solve_compatibility_vector sample_problem = Ok sample_vector ∧
  ∃ w, selection sample_problem w ∧ cv_commits sample_vector = normalize_candidate <$> w ∧
    cv_evidence_score sample_vector = total_score w.
Proof.
  assert (solve_compatibility_vector sample_problem = Ok sample_vector) as Hs
    by (vm_compute; reflexivity).
  split; [exact Hs|]. exact (proj1 (solve_optimal sample_problem sample_vector Hs)).
Defined.

Lemma solve_order_independent_witness :
  ties_agree sample_candidates ∧
  solve_compatibility_vector sample_problem = solve_compatibility_vector reordered_problem.
Proof.
  assert (ties_agree sample_candidates) as Ht.
  { intros a b Ha Hb _ _ _ _ e.
    assert (∀ c, c ∈ sample_candidates → cc_evidence c = [lit "ci"]) as Hc.
    { apply Forall_forall. by repeat constructor. }
    by rewrite (Hc a Ha), (Hc b Hb). }
  split; [exact Ht|]. apply solve_order_independent.
  - apply Permutation_swap.
  - symmetry. apply reverse_Permutation.
  - intros x. reflexivity.
  - apply (bool_decide_unpack _). vm_compute. exact I.
  - exact Ht.
Defined.
End witnesses.
