(* ===== verification/Workspace.v ===== *)
(** * Workspace creation requests ([crates/wts-core/src/workspace.rs])

    The pure contract in front of the store: [normalize] validates an untrusted creation
    request and returns its canonical form, or the first error in program order.  Unicode
    lower-casing is a table of the standard library's Unicode version; it is the section
    variable [to_lowercase], and every theorem holds for any such function. *)

From S2P Require Import Prelude Order Text.

Local Open Scope N_scope.

(** ** Limits *)

Definition MAX_WORKSPACE_TITLE_CHARS : nat := 240.
Definition MAX_REPOSITORIES_PER_WORKSPACE : nat := 32.
Definition MAX_REPOSITORY_LABEL_CHARS : nat := 128.
Definition MAX_BASE_REF_CHARS : nat := 255.
Definition MAX_REPOSITORY_SET_LABEL_CHARS : nat := 120.
Definition MAX_OPENPROJECT_DISPLAY_ID_CHARS : nat := 80.
Definition MAX_RUNTIME_SERVICES : nat := 32.
Definition MAX_RUNTIME_PORTS_PER_SERVICE : nat := 8.
Definition MAX_RUNTIME_IDENTIFIER_CHARS : N := 160.

(** ** Data *)

Inductive WorkspaceIntent :=
| Jira (issue_key : str)
| OpenProject (work_package_id : N) (display_id : str)
| RepositorySet (label : str).

Inductive WorkspaceProvider := Codex | OpenCode | Hermes | VsCode | Copilot.

Inductive WorkspaceWorkflowState := Ready | Active | Review | Parked.

Inductive WorkspaceMaterializationState := Unknown | NotMaterialized | Materialized | NeedsAttention.

Record WorkspaceRepositoryRequest := {
  wr_repository_id : option str;
  wr_label : str;
  wr_base_ref : str
}.

Inductive RuntimePortPolicy := Prefer | Fixed.

Record RuntimePortSelection := {
  ps_port_id : str;
  ps_preferred_port : N;
  ps_policy : RuntimePortPolicy
}.

Record RuntimeServiceSelection := {
  rs_candidate_id : str;
  rs_ports : list RuntimePortSelection
}.

Record RuntimePlanSelection := {
  rp_analysis_digest : str;
  rp_services : list RuntimeServiceSelection
}.

Inductive WorkspacePlanningFolder := Plans | PlansAndKanban.
Inductive WorkspacePlanningFormat := Notes | Kanban.

Record WorkspacePlanningSelection := {
  pl_folder : WorkspacePlanningFolder;
  pl_format : WorkspacePlanningFormat
}.

Record CreateWorkspaceRequest := {
  cr_intent : WorkspaceIntent;
  cr_title : str;
  cr_preferred_provider : WorkspaceProvider;
  cr_repositories : list WorkspaceRepositoryRequest;
  cr_runtime : option RuntimePlanSelection;
  cr_planning : option WorkspacePlanningSelection
}.

Inductive WorkspaceValidationError :=
| MissingTitle
| TitleTooLong
| InvalidTitle
| InvalidIssueKey
| InvalidOpenProjectWorkPackage
| MissingRepositorySetLabel
| RepositorySetLabelTooLong
| InvalidRepositorySetLabel
| EmptyRepositories
| TooManyRepositories
| MissingRepositoryLabel (index : nat)
| RepositoryLabelTooLong (index : nat)
| InvalidRepositoryLabel (index : nat)
| InvalidRepositoryId (repository : str)
| InvalidBaseRef (repository : str)
| DuplicateRepository (label : str)
| DuplicateRepositoryId (repository : str)
| InvalidRuntimeAnalysisDigest
| EmptyRuntimeServices
| TooManyRuntimeServices
| InvalidRuntimeCandidateId (index : nat)
| DuplicateRuntimeCandidateId (candidate_id : str)
| TooManyRuntimePorts (candidate_id : str)
| InvalidRuntimePortId (candidate_id : str) (index : nat)
| DuplicateRuntimePortId (candidate_id port_id : str)
| InvalidRuntimePort (candidate_id port_id : str).

#[export] Instance workflow_state_eq_dec : EqDecision WorkspaceWorkflowState.
Proof. solve_decision. Defined.
#[export] Instance materialization_state_eq_dec : EqDecision WorkspaceMaterializationState.
Proof. solve_decision. Defined.
#[export] Instance intent_eq_dec : EqDecision WorkspaceIntent.
Proof. solve_decision. Defined.
#[export] Instance provider_eq_dec : EqDecision WorkspaceProvider.
Proof. solve_decision. Defined.
#[export] Instance repository_request_eq_dec : EqDecision WorkspaceRepositoryRequest.
Proof. solve_decision. Defined.
#[export] Instance port_policy_eq_dec : EqDecision RuntimePortPolicy.
Proof. solve_decision. Defined.
#[export] Instance port_selection_eq_dec : EqDecision RuntimePortSelection.
Proof. solve_decision. Defined.
#[export] Instance service_selection_eq_dec : EqDecision RuntimeServiceSelection.
Proof. solve_decision. Defined.
#[export] Instance plan_selection_eq_dec : EqDecision RuntimePlanSelection.
Proof. solve_decision. Defined.
#[export] Instance planning_folder_eq_dec : EqDecision WorkspacePlanningFolder.
Proof. solve_decision. Defined.
#[export] Instance planning_format_eq_dec : EqDecision WorkspacePlanningFormat.
Proof. solve_decision. Defined.
#[export] Instance planning_selection_eq_dec : EqDecision WorkspacePlanningSelection.
Proof. solve_decision. Defined.
#[export] Instance create_request_eq_dec : EqDecision CreateWorkspaceRequest.
Proof. solve_decision. Defined.
#[export] Instance validation_error_eq_dec : EqDecision WorkspaceValidationError.
Proof. solve_decision. Defined.

(** The [Display] texts of the errors. *)
Definition validation_error_text (error : WorkspaceValidationError) : str :=
  match error with
  | MissingTitle => lit "workspace title is required"
  | TitleTooLong => lit "workspace title exceeds 240 characters"
  | InvalidTitle => lit "workspace title contains control characters"
  | InvalidIssueKey => lit "Jira issue key is invalid"
  | InvalidOpenProjectWorkPackage => lit "OpenProject work-package identity is invalid"
  | MissingRepositorySetLabel => lit "repository-set label is required"
  | RepositorySetLabelTooLong => lit "repository-set label exceeds 120 characters"
  | InvalidRepositorySetLabel =>
      lit "repository-set label contains control characters or invalid path characters"
  | EmptyRepositories => lit "at least one repository request is required"
  | TooManyRepositories => lit "a workspace may contain at most 32 repositories"
  | MissingRepositoryLabel index =>
      lit "repository label is required at index " ++ dec (N.of_nat index)
  | RepositoryLabelTooLong index =>
      lit "repository label at index " ++ dec (N.of_nat index) ++ lit " exceeds 128 characters"
  | InvalidRepositoryLabel index =>
      lit "repository label at index " ++ dec (N.of_nat index) ++
      lit " contains control characters or path separators"
  | InvalidRepositoryId repository => lit "repository identifier is invalid for " ++ repository
  | InvalidBaseRef repository => lit "repository base ref is invalid for " ++ repository
  | DuplicateRepository label => lit "repository labels must be unique: " ++ label
  | DuplicateRepositoryId repository =>
      lit "repository identifiers must be unique: " ++ repository
  | InvalidRuntimeAnalysisDigest =>
      lit "runtime analysis digest must be a lowercase sha256 digest"
  | EmptyRuntimeServices => lit "a runtime plan must select at least one service"
  | TooManyRuntimeServices => lit "a runtime plan may select at most 32 services"
  | InvalidRuntimeCandidateId index =>
      lit "runtime candidate identifier is invalid at index " ++ dec (N.of_nat index)
  | DuplicateRuntimeCandidateId candidate_id =>
      lit "runtime candidate identifiers must be unique: " ++ candidate_id
  | TooManyRuntimePorts candidate_id =>
      lit "runtime candidate " ++ candidate_id ++ lit " may configure at most 8 ports"
  | InvalidRuntimePortId candidate_id index =>
      lit "runtime port identifier is invalid for candidate " ++ candidate_id ++
      lit " at index " ++ dec (N.of_nat index)
  | DuplicateRuntimePortId candidate_id port_id =>
      lit "runtime port identifiers must be unique within candidate " ++ candidate_id ++
      lit ": " ++ port_id
  | InvalidRuntimePort candidate_id port_id =>
      lit "runtime port " ++ port_id ++ lit " for candidate " ++ candidate_id ++
      lit " must be between 1024 and 65535"
  end.

(** ** Validators *)

Definition is_path_separator (c : char) : bool := (c =? 47) || (c =? 92).

Definition has_control_or_path_separator (value : str) : bool :=
  existsb (λ c, is_control c || is_path_separator c) value.

Definition invalid_repository_set_label (value : str) : bool :=
  existsb (λ c, is_control c || (c =? 92)) value ||
  existsb (λ segment,
    let trimmed := trim segment in
    is_empty trimmed || bool_decide (trimmed = lit ".") || bool_decide (trimmed = lit ".."))
    (split_char 47 value).

Definition valid_issue_key (issue_key : str) : bool :=
  match split_once 45 issue_key with
  | None => false
  | Some (project, number) =>
      if (byte_len project <? 2) || (16 <? byte_len project)
         || negb (match utf8 project with b :: _ => is_ascii_uppercase b | [] => false end)
         || negb (forallb (λ b, is_ascii_uppercase b || is_ascii_digit b) (utf8 project))
      then false
      else (1 <=? byte_len number) && (byte_len number <=? 10)
           && negb (starts_with (lit "0") number)
           && forallb is_ascii_digit (utf8 number)
  end.

Definition valid_hex_digest (prefix value : str) : bool :=
  match strip_prefix prefix value with
  | None => false
  | Some digest => (byte_len digest =? 64) && forallb is_lower_hex (utf8 digest)
  end.

Definition valid_repository_id (value : str) : bool := valid_hex_digest (lit "repo_") value.
Definition valid_analysis_digest (value : str) : bool := valid_hex_digest (lit "sha256:") value.

Definition valid_runtime_identifier (value : str) : bool :=
  negb (is_empty value) && (byte_len value <=? MAX_RUNTIME_IDENTIFIER_CHARS)
  && forallb (λ b, is_ascii_alphanumeric b || (b =? 46) || (b =? 95) || (b =? 58) || (b =? 45))
       (utf8 value).

(** [matches!(c, '~' | '^' | ':' | '?' | '*' | '[' | '\\')]. *)
Definition is_ref_metachar (c : char) : bool :=
  (c =? 126) || (c =? 94) || (c =? 58) || (c =? 63) || (c =? 42) || (c =? 91) || (c =? 92).

Definition valid_base_ref (base_ref : str) : bool :=
  if is_empty base_ref || (MAX_BASE_REF_CHARS <? length base_ref)%nat
     || starts_with (lit "-") base_ref || starts_with (lit "/") base_ref
     || ends_with (lit "/") base_ref || ends_with (lit ".") base_ref
     || ends_with (lit ".lock") base_ref || contains (lit "..") base_ref
     || contains (lit "@{") base_ref || contains (lit "//") base_ref
  then false
  else negb (existsb (λ c, is_control c || is_whitespace c || is_ref_metachar c) base_ref).

(** ** Normalization *)

Definition normalize_workspace_title (title : str) : result str WorkspaceValidationError :=
  let title := trim title in
  ensure guard_err (is_empty title) MissingTitle in
  ensure guard_err (MAX_WORKSPACE_TITLE_CHARS <? length title)%nat TitleTooLong in
  ensure guard_err (existsb is_control title) InvalidTitle in
  Ok title.

Record RenameWorkspaceRequest := { rn_title : str }.

(** [RenameWorkspaceRequest::normalize]. *)
Definition normalize_rename (request : RenameWorkspaceRequest) :
    result RenameWorkspaceRequest WorkspaceValidationError :=
  let? title := normalize_workspace_title (rn_title request) in
  Ok {| rn_title := title |}.

Definition normalize_intent (intent : WorkspaceIntent) :
    result WorkspaceIntent WorkspaceValidationError :=
  match intent with
  | Jira issue_key =>
      let issue_key := to_ascii_uppercase (trim issue_key) in
      ensure guard_err (negb (valid_issue_key issue_key)) InvalidIssueKey in
      Ok (Jira issue_key)
  | OpenProject work_package_id display_id =>
      let display_id := trim display_id in
      ensure guard_err
        ((work_package_id =? 0) || is_empty display_id
         || (MAX_OPENPROJECT_DISPLAY_ID_CHARS <? length display_id)%nat
         || has_control_or_path_separator display_id) InvalidOpenProjectWorkPackage in
      Ok (OpenProject work_package_id display_id)
  | RepositorySet label =>
      let label := trim label in
      ensure guard_err (is_empty label) MissingRepositorySetLabel in
      ensure guard_err (MAX_REPOSITORY_SET_LABEL_CHARS <? length label)%nat
               RepositorySetLabelTooLong in
      ensure guard_err (invalid_repository_set_label label) InvalidRepositorySetLabel in
      Ok (RepositorySet label)
  end.

(** One turn of the port loop; the state is [port_ids]. *)
Definition check_port (candidate_id : str) (port_index : nat) (port_ids : gset str)
    (port : RuntimePortSelection) : result (gset str) WorkspaceValidationError :=
  ensure guard_err (negb (valid_runtime_identifier (ps_port_id port)))
           (InvalidRuntimePortId candidate_id port_index) in
  ensure guard_err (bool_decide (ps_port_id port ∈ port_ids))
           (DuplicateRuntimePortId candidate_id (ps_port_id port)) in
  ensure guard_err (ps_preferred_port port <? 1024)
           (InvalidRuntimePort candidate_id (ps_port_id port)) in
  Ok ({[ps_port_id port]} ∪ port_ids).

(** One turn of the service loop; the state is [candidate_ids] and the services done so
    far. *)
Definition normalize_service (service_index : nat)
    (state : gset str * list RuntimeServiceSelection) (service : RuntimeServiceSelection) :
    result (gset str * list RuntimeServiceSelection) WorkspaceValidationError :=
  let '(candidate_ids, done) := state in
  let candidate_id := rs_candidate_id service in
  ensure guard_err (negb (valid_runtime_identifier candidate_id))
           (InvalidRuntimeCandidateId service_index) in
  ensure guard_err (bool_decide (candidate_id ∈ candidate_ids))
           (DuplicateRuntimeCandidateId candidate_id) in
  ensure guard_err (MAX_RUNTIME_PORTS_PER_SERVICE <? length (rs_ports service))%nat
           (TooManyRuntimePorts candidate_id) in
  let? _ := try_fold_i (check_port candidate_id) 0 ∅ (rs_ports service) in
  Ok ({[candidate_id]} ∪ candidate_ids,
      done ++ [{| rs_candidate_id := candidate_id;
                  rs_ports := sort_by (cmp_on ps_port_id str_cmp) (rs_ports service) |}]).

Definition normalize_runtime (runtime : RuntimePlanSelection) :
    result RuntimePlanSelection WorkspaceValidationError :=
  ensure guard_err (negb (valid_analysis_digest (rp_analysis_digest runtime)))
           InvalidRuntimeAnalysisDigest in
  ensure guard_err (bool_decide (rp_services runtime = [])) EmptyRuntimeServices in
  ensure guard_err (MAX_RUNTIME_SERVICES <? length (rp_services runtime))%nat
           TooManyRuntimeServices in
  let? state := try_fold_i normalize_service 0 (∅, []) (rp_services runtime) in
  Ok {| rp_analysis_digest := rp_analysis_digest runtime;
        rp_services := sort_by (cmp_on rs_candidate_id str_cmp) state.2 |}.

Section normalize.
Context (to_lowercase : str → str).

(** The state of the repository loop: [labels], [repository_ids] and the requests done. *)
Record RepositoryLoop := {
  lp_labels : gmap str bool;
  lp_repository_ids : gset str;
  lp_done : list WorkspaceRepositoryRequest
}.

Definition check_repository_id (label : str) (repository_id : option str) (ids : gset str) :
    result (gset str) WorkspaceValidationError :=
  match repository_id with
  | None => Ok ids
  | Some id =>
      ensure guard_err (negb (valid_repository_id id)) (InvalidRepositoryId label) in
      ensure guard_err (bool_decide (id ∈ ids)) (DuplicateRepositoryId label) in
      Ok ({[id]} ∪ ids)
  end.

Definition normalize_repository (index : nat) (state : RepositoryLoop)
    (repository : WorkspaceRepositoryRequest) : result RepositoryLoop WorkspaceValidationError :=
  let label := trim (wr_label repository) in
  ensure guard_err (is_empty label) (MissingRepositoryLabel index) in
  ensure guard_err (MAX_REPOSITORY_LABEL_CHARS <? length label)%nat
           (RepositoryLabelTooLong index) in
  ensure guard_err (has_control_or_path_separator label) (InvalidRepositoryLabel index) in
  let? ids := check_repository_id label (wr_repository_id repository) (lp_repository_ids state) in
  let base_ref := trim (wr_base_ref repository) in
  ensure guard_err (negb (valid_base_ref base_ref)) (InvalidBaseRef label) in
  let canonical_label := to_lowercase label in
  let pinned := bool_decide (is_Some (wr_repository_id repository)) in
  ensure guard_err
    (match lp_labels state !! canonical_label with
     | Some previous_pinned => negb previous_pinned || negb pinned
     | None => false
     end) (DuplicateRepository label) in
  Ok {| lp_labels := <[canonical_label := pinned]> (lp_labels state);
        lp_repository_ids := ids;
        lp_done := lp_done state ++
          [{| wr_repository_id := wr_repository_id repository; wr_label := label;
              wr_base_ref := base_ref |}] |}.

Definition repository_cmp (left right : WorkspaceRepositoryRequest) : comparison :=
  cmp_then (str_cmp (to_lowercase (wr_label left)) (to_lowercase (wr_label right)))
    (cmp_then (option_cmp str_cmp (wr_repository_id left) (wr_repository_id right))
              (str_cmp (wr_base_ref left) (wr_base_ref right))).

Definition normalize (request : CreateWorkspaceRequest) :
    result CreateWorkspaceRequest WorkspaceValidationError :=
  let? title := normalize_workspace_title (cr_title request) in
  let? intent := normalize_intent (cr_intent request) in
  let? runtime := transpose_map normalize_runtime (cr_runtime request) in
  ensure guard_err (bool_decide (cr_repositories request = [])) EmptyRepositories in
  ensure guard_err (MAX_REPOSITORIES_PER_WORKSPACE <? length (cr_repositories request))%nat
           TooManyRepositories in
  let? state := try_fold_i normalize_repository 0
    {| lp_labels := ∅; lp_repository_ids := ∅; lp_done := [] |} (cr_repositories request) in
  Ok {| cr_intent := intent; cr_title := title;
        cr_preferred_provider := cr_preferred_provider request;
        cr_repositories := sort_by repository_cmp (lp_done state);
        cr_runtime := runtime; cr_planning := cr_planning request |}.
End normalize.

(** ** Acceptance, declaratively *)

Definition title_ok (title : str) : Prop :=
  trim title ≠ [] ∧ (length (trim title) ≤ MAX_WORKSPACE_TITLE_CHARS)%nat ∧
  existsb is_control (trim title) = false.

Definition intent_ok (intent : WorkspaceIntent) : Prop :=
  match intent with
  | Jira issue_key => valid_issue_key (to_ascii_uppercase (trim issue_key)) = true
  | OpenProject work_package_id display_id =>
      work_package_id ≠ 0 ∧ trim display_id ≠ [] ∧
      (length (trim display_id) ≤ MAX_OPENPROJECT_DISPLAY_ID_CHARS)%nat ∧
      has_control_or_path_separator (trim display_id) = false
  | RepositorySet label =>
      trim label ≠ [] ∧ (length (trim label) ≤ MAX_REPOSITORY_SET_LABEL_CHARS)%nat ∧
      invalid_repository_set_label (trim label) = false
  end.

Definition port_ok (port : RuntimePortSelection) : Prop :=
  valid_runtime_identifier (ps_port_id port) = true ∧ 1024 ≤ ps_preferred_port port.

Definition service_ok (service : RuntimeServiceSelection) : Prop :=
  valid_runtime_identifier (rs_candidate_id service) = true ∧
  (length (rs_ports service) ≤ MAX_RUNTIME_PORTS_PER_SERVICE)%nat ∧
  Forall port_ok (rs_ports service) ∧ NoDup (ps_port_id <$> rs_ports service).

Definition runtime_ok (runtime : RuntimePlanSelection) : Prop :=
  valid_analysis_digest (rp_analysis_digest runtime) = true ∧
  rp_services runtime ≠ [] ∧ (length (rp_services runtime) ≤ MAX_RUNTIME_SERVICES)%nat ∧
  Forall service_ok (rp_services runtime) ∧ NoDup (rs_candidate_id <$> rp_services runtime).

Definition repository_ok (r : WorkspaceRepositoryRequest) : Prop :=
  trim (wr_label r) ≠ [] ∧ (length (trim (wr_label r)) ≤ MAX_REPOSITORY_LABEL_CHARS)%nat ∧
  has_control_or_path_separator (trim (wr_label r)) = false ∧
  (∀ id, wr_repository_id r = Some id → valid_repository_id id = true) ∧
  valid_base_ref (trim (wr_base_ref r)) = true.

(** ** Canonical forms *)

Definition canonical_intent (intent : WorkspaceIntent) : WorkspaceIntent :=
  match intent with
  | Jira issue_key => Jira (to_ascii_uppercase (trim issue_key))
  | OpenProject work_package_id display_id => OpenProject work_package_id (trim display_id)
  | RepositorySet label => RepositorySet (trim label)
  end.

Definition canonical_service (service : RuntimeServiceSelection) : RuntimeServiceSelection :=
  {| rs_candidate_id := rs_candidate_id service;
     rs_ports := sort_by (cmp_on ps_port_id str_cmp) (rs_ports service) |}.

Definition canonical_runtime (runtime : RuntimePlanSelection) : RuntimePlanSelection :=
  {| rp_analysis_digest := rp_analysis_digest runtime;
     rp_services :=
       sort_by (cmp_on rs_candidate_id str_cmp) (canonical_service <$> rp_services runtime) |}.

Definition canonical_repository (r : WorkspaceRepositoryRequest) : WorkspaceRepositoryRequest :=
  {| wr_repository_id := wr_repository_id r; wr_label := trim (wr_label r);
     wr_base_ref := trim (wr_base_ref r) |}.

(** ** The parts decide acceptance *)

Lemma is_empty_spec (s : str) : is_empty s = true ↔ s = [].
Proof. by destruct s. Qed.

Lemma is_empty_false (s : str) : is_empty s = false ↔ s ≠ [].
Proof. by destruct s. Qed.

Lemma normalize_workspace_title_decides title :
  match normalize_workspace_title title with
  | Ok title' => title_ok title ∧ title' = trim title
  | Err _ => ¬ title_ok title
  end.
Proof.
  unfold normalize_workspace_title, title_ok.
  destruct (is_empty (trim title)) eqn:E1; cbn [guard_err rbind orb]; [apply is_empty_spec in E1; tauto|].
  apply is_empty_false in E1.
  destruct (Nat.ltb_spec MAX_WORKSPACE_TITLE_CHARS (length (trim title))); cbn [guard_err rbind]; [intros (_ & ? & _); lia|].
  by destruct (existsb is_control (trim title)) eqn:E3; cbn [guard_err rbind]; [intros (_ & _ & ?)|].
Qed.

Lemma normalize_intent_decides intent :
  match normalize_intent intent with
  | Ok intent' => intent_ok intent ∧ intent' = canonical_intent intent
  | Err _ => ¬ intent_ok intent
  end.
Proof.
  destruct intent as [key|id display|label]; cbn [normalize_intent intent_ok canonical_intent].
  - by destruct (valid_issue_key _); cbn [guard_err rbind negb].
  - destruct (N.eqb_spec id 0); cbn [guard_err rbind orb]; [tauto|].
    destruct (is_empty (trim display)) eqn:E1; cbn [guard_err rbind orb]; [apply is_empty_spec in E1; tauto|].
    apply is_empty_false in E1.
    destruct (Nat.ltb_spec MAX_OPENPROJECT_DISPLAY_ID_CHARS (length (trim display)));
      cbn [guard_err rbind orb]; [intros (_ & _ & ? & _); lia|].
    by destruct (has_control_or_path_separator _); cbn [guard_err rbind]; [intros (_ & _ & _ & ?)|].
  - destruct (is_empty (trim label)) eqn:E1; cbn [guard_err rbind orb]; [apply is_empty_spec in E1; tauto|].
    apply is_empty_false in E1.
    destruct (Nat.ltb_spec MAX_REPOSITORY_SET_LABEL_CHARS (length (trim label)));
      cbn [guard_err rbind]; [intros (_ & ? & _); lia|].
    by destruct (invalid_repository_set_label _); cbn [guard_err rbind]; [intros (_ & _ & ?)|].
Qed.

Lemma check_ports_decides candidate_id ports :
  match try_fold_i (check_port candidate_id) 0 ∅ ports with
  | Ok _ => Forall port_ok ports ∧ NoDup (ps_port_id <$> ports)
  | Err _ => ¬ (Forall port_ok ports ∧ NoDup (ps_port_id <$> ports))
  end.
Proof.
  set (accept := λ (pre : list RuntimePortSelection) port,
    port_ok port ∧ ∀ x, x ∈ pre → ps_port_id x ≠ ps_port_id port).
  pose proof (try_fold_i_decides (check_port candidate_id)
    (λ pre ids, ∀ id, id ∈ ids ↔ id ∈ ps_port_id <$> pre) accept 0 ∅ [] ports) as Hd.
  assert (all_accepted accept [] ports ↔ Forall port_ok ports ∧ NoDup (ps_port_id <$> ports)) as Ha.
  { rewrite (all_accepted_pairwise port_ok (λ x y, ps_port_id x ≠ ps_port_id y)) by done.
    rewrite pairwise_NoDup. split; [tauto|]. intros [? ?]. split_and!; [done..|].
    by intros x y ?%elem_of_nil. }
  destruct (try_fold_i _ _ _ ports); rewrite <- Ha; apply Hd; clear Hd.
  2, 4: set_solver.
  all: intros i pre ids port Hinv; unfold check_port, accept, port_ok;
    destruct (valid_runtime_identifier _); cbn; [|naive_solver];
    case_bool_decide as Hin; cbn.
  all: rewrite Hinv, list_elem_of_fmap in Hin.
  all: try (intros [_ Hn]; destruct Hin as (x & ? & ?); by apply (Hn x)).
  all: destruct (N.ltb_spec (ps_preferred_port port) 1024); cbn; [intros [[_ ?] _]; lia|].
  all: split; [split; [done|]; intros x Hx Heq; apply Hin; eauto|].
  all: intros id; rewrite elem_of_union, elem_of_singleton, Hinv, fmap_app, elem_of_app; set_solver.
Qed.

Lemma normalize_services_decides services :
  match try_fold_i normalize_service 0 (∅, []) services with
  | Ok state =>
      (Forall service_ok services ∧ NoDup (rs_candidate_id <$> services)) ∧
      state.2 = canonical_service <$> services
  | Err _ => ¬ (Forall service_ok services ∧ NoDup (rs_candidate_id <$> services))
  end.
Proof.
  set (accept := λ (pre : list RuntimeServiceSelection) service,
    service_ok service ∧ ∀ x, x ∈ pre → rs_candidate_id x ≠ rs_candidate_id service).
  set (inv := λ (pre : list RuntimeServiceSelection) (st : gset str * list RuntimeServiceSelection),
    (∀ id, id ∈ st.1 ↔ id ∈ rs_candidate_id <$> pre) ∧ st.2 = canonical_service <$> pre).
  pose proof (try_fold_i_decides normalize_service inv accept 0 (∅, []) [] services) as Hd.
  assert (all_accepted accept [] services ↔
    Forall service_ok services ∧ NoDup (rs_candidate_id <$> services)) as Ha.
  { rewrite (all_accepted_pairwise service_ok (λ x y, rs_candidate_id x ≠ rs_candidate_id y))
      by done.
    rewrite pairwise_NoDup. split; [tauto|]. intros [? ?]. split_and!; [done..|].
    by intros x y ?%elem_of_nil. }
  assert (match try_fold_i normalize_service 0 (∅, []) services with
    | Ok st' => all_accepted accept [] services ∧ inv services st'
    | Err _ => ¬ all_accepted accept [] services end) as H.
  { apply Hd; [|split; [set_solver|done]].
    intros i pre [ids done] service [Hids Hdone]; cbn [fst snd] in *;
      unfold normalize_service, accept, service_ok.
    all: destruct (valid_runtime_identifier _); cbn [guard_err rbind negb]; [|naive_solver].
    all: case_bool_decide as Hin; cbn [guard_err rbind].
    all: rewrite Hids, list_elem_of_fmap in Hin.
    all: try (intros [_ Hn]; destruct Hin as (x & ? & ?); by apply (Hn x)).
    all: destruct (Nat.ltb_spec MAX_RUNTIME_PORTS_PER_SERVICE (length (rs_ports service)));
      cbn [guard_err rbind]; [intros [(_ & ? & _) _]; lia|].
    all: pose proof (check_ports_decides (rs_candidate_id service) (rs_ports service)) as Hp.
    all: destruct (try_fold_i (check_port _) _ _ _); cbn [rbind]; [|naive_solver].
    all: split; [split; [tauto|]; intros x Hx Heq; apply Hin; eauto|].
    all: split; cbn [fst snd]; [|by rewrite fmap_app, Hdone].
    all: intros id; rewrite elem_of_union, elem_of_singleton, Hids, fmap_app, elem_of_app;
      set_solver. }
  destruct (try_fold_i _ _ _ services); rewrite <- Ha; [|done]. by destruct H as [? [_ ?]].
Qed.

Lemma normalize_runtime_decides runtime :
  match normalize_runtime runtime with
  | Ok runtime' => runtime_ok runtime ∧ runtime' = canonical_runtime runtime
  | Err _ => ¬ runtime_ok runtime
  end.
Proof.
  unfold normalize_runtime, runtime_ok.
  destruct (valid_analysis_digest _); cbn [guard_err rbind negb]; [|by intros [? _]].
  case_bool_decide as Hne; cbn [guard_err rbind]; [tauto|].
  destruct (Nat.ltb_spec MAX_RUNTIME_SERVICES (length (rp_services runtime)));
    cbn [guard_err rbind]; [intros (_ & _ & ? & _); lia|].
  pose proof (normalize_services_decides (rp_services runtime)) as Hs.
  destruct (try_fold_i _ _ _ _) as [st|e]; cbn [rbind]; [|tauto].
  destruct Hs as [? Hst]. split; [tauto|]. unfold canonical_runtime. by rewrite Hst.
Qed.

Lemma list_exists_witness {A B} `{EqDecision B} (f : A → B) k (l : list A) :
  ¬ (∀ x, x ∈ l → f x ≠ k) → ∃ x, x ∈ l ∧ f x = k.
Proof.
  intros Hno. destruct (decide (Exists (λ x, f x = k) l)) as [He|He].
  - by apply Exists_exists in He.
  - destruct Hno. intros x Hx Hk. apply He, Exists_exists. eauto.
Qed.

Section normalize_proofs.
Context (to_lowercase : str → str).

Definition pinned (r : WorkspaceRepositoryRequest) : Prop := is_Some (wr_repository_id r).

(** Two requests for different repositories: distinct identities, and the same label (up to
    case) only when both are pinned to an identity. *)
Definition distinct_repositories (r s : WorkspaceRepositoryRequest) : Prop :=
  (∀ id, wr_repository_id r = Some id → wr_repository_id s ≠ Some id) ∧
  (to_lowercase (trim (wr_label r)) = to_lowercase (trim (wr_label s)) → pinned r ∧ pinned s).

Lemma distinct_repositories_sym r s : distinct_repositories r s → distinct_repositories s r.
Proof. unfold distinct_repositories. intros [H1 H2]. split; [naive_solver|]. intros Heq. symmetry in Heq. naive_solver. Qed.

Definition repositories_ok (l : list WorkspaceRepositoryRequest) : Prop :=
  Forall repository_ok l ∧ pairwise distinct_repositories l.

Lemma check_repository_id_decides label id ids :
  match check_repository_id label id ids with
  | Ok ids' => (∀ i, id = Some i → valid_repository_id i = true ∧ i ∉ ids) ∧
      ∀ i, i ∈ ids' ↔ id = Some i ∨ i ∈ ids
  | Err _ => ∃ i, id = Some i ∧ (valid_repository_id i = false ∨ i ∈ ids)
  end.
Proof.
  unfold check_repository_id. destruct id as [i|]; [|naive_solver].
  destruct (valid_repository_id i) eqn:Ev; cbn [guard_err rbind negb]; [|eauto].
  case_bool_decide; cbn [guard_err rbind]; [eauto|]. split; [naive_solver|].
  intros j. rewrite elem_of_union, elem_of_singleton. naive_solver.
Qed.

(** The loop state after a prefix: identities seen, and for each canonical label whether its
    repositories are pinned. *)
Definition loop_inv (pre : list WorkspaceRepositoryRequest) (st : RepositoryLoop) : Prop :=
  (∀ id, id ∈ lp_repository_ids st ↔ ∃ r, r ∈ pre ∧ wr_repository_id r = Some id) ∧
  (∀ k, lp_labels st !! k = None ↔ ∀ r, r ∈ pre → to_lowercase (trim (wr_label r)) ≠ k) ∧
  (∀ k p r, lp_labels st !! k = Some p → r ∈ pre → to_lowercase (trim (wr_label r)) = k →
     p = bool_decide (pinned r)) ∧
  lp_done st = canonical_repository <$> pre.

Definition accept_repository (pre : list WorkspaceRepositoryRequest)
    (r : WorkspaceRepositoryRequest) : Prop :=
  repository_ok r ∧ ∀ x, x ∈ pre → distinct_repositories x r.

Lemma loop_inv_snoc pre st r ids :
  loop_inv pre st →
  (∀ i, i ∈ ids ↔ wr_repository_id r = Some i ∨ i ∈ lp_repository_ids st) →
  (∀ x, x ∈ pre → to_lowercase (trim (wr_label x)) = to_lowercase (trim (wr_label r)) →
     bool_decide (pinned x) = bool_decide (pinned r)) →
  loop_inv (pre ++ [r])
    {| lp_labels := <[to_lowercase (trim (wr_label r)) := bool_decide (pinned r)]> (lp_labels st);
       lp_repository_ids := ids;
       lp_done := lp_done st ++ [canonical_repository r] |}.
Proof.
  intros (Hids & Hnone & Hsome & Hdone) Hids' Hsame. unfold loop_inv; cbn. split_and!.
  - intros id. rewrite Hids', Hids. setoid_rewrite elem_of_app. setoid_rewrite list_elem_of_singleton.
    split; [intros [?|(x & ? & ?)]; eauto|]. intros (x & [?| ->] & ?); eauto.
  - intros k. setoid_rewrite elem_of_app. setoid_rewrite list_elem_of_singleton.
    rewrite lookup_insert_None, Hnone. split; [intros [? ?] x [?| ->]; eauto|]. intros H. split; eauto.
  - intros k p x Hk Hx Hxk. apply elem_of_app in Hx. rewrite list_elem_of_singleton in Hx.
    apply lookup_insert_Some in Hk as [[Hk <-]|[Hk Hp]].
    + destruct Hx as [Hx| ->]; [|done]. symmetry. apply Hsame; congruence.
    + destruct Hx as [Hx| ->]; [by eapply Hsome|congruence].
  - by rewrite fmap_app, Hdone.
Qed.

Lemma normalize_repository_step index pre st r :
  loop_inv pre st →
  match normalize_repository to_lowercase index st r with
  | Ok st' => accept_repository pre r ∧ loop_inv (pre ++ [r]) st'
  | Err _ => ¬ accept_repository pre r
  end.
Proof.
  intros Hinv. pose proof Hinv as (Hids & Hnone & Hsome & _).
  unfold normalize_repository, accept_repository, repository_ok.
  destruct (is_empty (trim (wr_label r))) eqn:E1; cbn [guard_err rbind].
  { apply is_empty_spec in E1. tauto. }
  apply is_empty_false in E1.
  destruct (Nat.ltb_spec MAX_REPOSITORY_LABEL_CHARS (length (trim (wr_label r))));
    cbn [guard_err rbind]; [intros [(_ & ? & _) _]; lia|].
  destruct (has_control_or_path_separator _) eqn:E3; cbn [guard_err rbind];
    [by intros [(_ & _ & ? & _) _]|].
  pose proof (check_repository_id_decides (trim (wr_label r)) (wr_repository_id r)
    (lp_repository_ids st)) as Hid.
  destruct (check_repository_id _ _ _) as [ids|e]; cbn [rbind].
  2: { destruct Hid as (i & Hi & [Hv|Hin]); intros [(_ & _ & _ & Hok & _) Hx].
       - by rewrite (Hok i Hi) in Hv.
       - apply Hids in Hin as (x & Hx' & Hxi). by apply (proj1 (Hx x Hx') i). }
  destruct Hid as [Hid Hids'].
  destruct (valid_base_ref _) eqn:E5; cbn [guard_err rbind negb]; [|by intros [(_ & _ & _ & _ & ?) _]].
  set (k := to_lowercase (trim (wr_label r))) in *.
  assert (∀ x, x ∈ pre → ∀ i, wr_repository_id x = Some i → wr_repository_id r ≠ Some i) as Hfresh.
  { intros x Hx i Hi Hri. destruct (Hid i Hri) as [_ Hn]. apply Hn, Hids. eauto. }
  change (bool_decide (is_Some (wr_repository_id r))) with (bool_decide (pinned r)).
  destruct (lp_labels st !! k) as [p|] eqn:Ek.
  - assert (∃ x, x ∈ pre ∧ to_lowercase (trim (wr_label x)) = k) as (x & Hx & Hxk).
    { apply list_exists_witness. intros Hno. enough (lp_labels st !! k = None) by congruence.
      by apply Hnone. }
    destruct (negb p || negb (bool_decide (pinned r))) eqn:Ep; cbn [guard_err rbind].
    + intros [_ Hall]. destruct (proj2 (Hall x Hx) Hxk) as [Hpx Hpr].
      rewrite (Hsome k p x Ek Hx Hxk), !bool_decide_eq_true_2 in Ep by done. done.
    + bool_split. subst p.
      assert (∀ y, y ∈ pre → to_lowercase (trim (wr_label y)) = k → pinned y) as Hpin.
      { intros y Hy Hyk. apply (bool_decide_eq_true_1 _). by rewrite <- (Hsome k true y Ek Hy Hyk). }
      split.
      * split; [split_and!; try done; by intros id Hi; apply Hid|]. intros y Hy. split; [by apply Hfresh|].
        intros Heq. split; [by apply Hpin|done].
      * apply loop_inv_snoc; [done..|]. intros y Hy Hyk.
        by rewrite !bool_decide_eq_true_2 by eauto.
  - cbn [guard_err rbind]. split.
    + split; [split_and!; try done; by intros id Hi; apply Hid|]. intros y Hy.
      split; [by apply Hfresh|]. intros Heq. by destruct (proj1 (Hnone k) Ek y Hy).
    + apply loop_inv_snoc; [done..|]. intros y Hy Hyk. by destruct (proj1 (Hnone k) Ek y Hy).
Qed.

Lemma normalize_repositories_decides l :
  match try_fold_i (normalize_repository to_lowercase) 0
    {| lp_labels := ∅; lp_repository_ids := ∅; lp_done := [] |} l with
  | Ok st => repositories_ok l ∧ lp_done st = canonical_repository <$> l
  | Err _ => ¬ repositories_ok l
  end.
Proof.
  pose proof (try_fold_i_decides (normalize_repository to_lowercase) loop_inv accept_repository 0
    {| lp_labels := ∅; lp_repository_ids := ∅; lp_done := [] |} [] l) as Hd.
  assert (all_accepted accept_repository [] l ↔ repositories_ok l) as Ha.
  { unfold accept_repository, repositories_ok.
    rewrite (all_accepted_pairwise repository_ok distinct_repositories) by done.
    split; [tauto|]. intros [? ?]. split_and!; [done..|]. by intros x y ?%elem_of_nil. }
  destruct (try_fold_i _ _ _ _) as [st|e]; rewrite <- Ha.
  - destruct Hd as [? (_ & _ & _ & ?)]; [intros; by apply normalize_repository_step| |done].
    split_and!; try done; cbn; set_solver.
  - apply Hd; [intros; by apply normalize_repository_step|]. split_and!; try done; cbn; set_solver.
Qed.
End normalize_proofs.

(** ** Canonical forms are stable *)

Lemma intent_ok_canonical intent : intent_ok intent → intent_ok (canonical_intent intent).
Proof.
  destruct intent; cbn; by rewrite ?trim_upper_trim, ?to_ascii_uppercase_idemp, ?trim_idemp.
Qed.

Lemma canonical_intent_idemp intent :
  canonical_intent (canonical_intent intent) = canonical_intent intent.
Proof.
  destruct intent; cbn; by rewrite ?trim_upper_trim, ?to_ascii_uppercase_idemp, ?trim_idemp.
Qed.

Lemma service_ok_canonical service : service_ok service → service_ok (canonical_service service).
Proof.
  unfold service_ok, canonical_service; cbn. by rewrite sort_by_perm.
Qed.

Lemma canonical_service_idemp service :
  canonical_service (canonical_service service) = canonical_service service.
Proof. unfold canonical_service; cbn. f_equal. apply (sort_by_idemp _). Qed.

Lemma fmap_fixed {A} (f : A → A) (l : list A) : (∀ x, x ∈ l → f x = x) → f <$> l = l.
Proof.
  intros H. rewrite <- (list_fmap_id l) at 2. apply list_fmap_ext. intros i x Hx.
  apply H. by eapply list_elem_of_lookup_2.
Qed.

Lemma candidate_ids_canonical (services : list RuntimeServiceSelection) :
  rs_candidate_id <$> (canonical_service <$> services) = rs_candidate_id <$> services.
Proof. rewrite <- list_fmap_compose. by apply list_fmap_ext. Qed.

Lemma services_canonical_fixed (services : list RuntimeServiceSelection) :
  canonical_service <$>
    sort_by (cmp_on rs_candidate_id str_cmp) (canonical_service <$> services) =
  sort_by (cmp_on rs_candidate_id str_cmp) (canonical_service <$> services).
Proof.
  apply fmap_fixed. intros s Hs. rewrite (elem_of_sort_by (cmp_on rs_candidate_id str_cmp)) in Hs.
  apply list_elem_of_fmap in Hs as (s' & -> & _). apply canonical_service_idemp.
Qed.

Lemma sort_by_length {A} (cmp : A → A → comparison) l : length (sort_by cmp l) = length l.
Proof. by rewrite sort_by_perm. Qed.

Lemma sort_by_nil {A} (cmp : A → A → comparison) l : sort_by cmp l = [] ↔ l = [].
Proof. rewrite <- !length_zero_iff_nil. by rewrite sort_by_length. Qed.

Lemma fmap_nil_iff {A B} (f : A → B) (l : list A) : f <$> l = [] ↔ l = [].
Proof. by destruct l. Qed.

Lemma runtime_ok_canonical runtime : runtime_ok runtime → runtime_ok (canonical_runtime runtime).
Proof.
  unfold runtime_ok, canonical_runtime; cbn. intros (Hd & Hne & Hlen & Hok & Hnd).
  split_and!; [done|..].
  - by rewrite sort_by_nil, fmap_nil_iff.
  - by rewrite sort_by_length, length_fmap.
  - rewrite sort_by_perm. apply Forall_fmap. by eapply Forall_impl; [|apply service_ok_canonical].
  - rewrite sort_by_perm. by rewrite candidate_ids_canonical.
Qed.

Lemma canonical_runtime_idemp runtime :
  canonical_runtime (canonical_runtime runtime) = canonical_runtime runtime.
Proof.
  unfold canonical_runtime; cbn. rewrite services_canonical_fixed. f_equal. apply (sort_by_idemp _).
Qed.

Lemma repository_ok_canonical r : repository_ok r → repository_ok (canonical_repository r).
Proof. unfold repository_ok; cbn. by rewrite !trim_idemp. Qed.

Lemma canonical_repository_idemp r :
  canonical_repository (canonical_repository r) = canonical_repository r.
Proof. unfold canonical_repository; cbn. by rewrite !trim_idemp. Qed.

(** Two services, or two runtime plans, that differ only in the order of their parts. *)
Definition reordered_service (s t : RuntimeServiceSelection) : Prop :=
  rs_candidate_id s = rs_candidate_id t ∧ rs_ports s ≡ₚ rs_ports t.

Definition reordered_runtime (a b : RuntimePlanSelection) : Prop :=
  rp_analysis_digest a = rp_analysis_digest b ∧
  ∃ services, rp_services a ≡ₚ services ∧ Forall2 reordered_service services (rp_services b).


Lemma reordered_service_ok s t : reordered_service s t → service_ok s → service_ok t.
Proof. unfold reordered_service, service_ok. intros [-> Hp]. by rewrite Hp. Qed.

Lemma reordered_service_sym s t : reordered_service s t → reordered_service t s.
Proof. unfold reordered_service. by intros [-> ->]. Qed.

Lemma reordered_service_canonical s t :
  reordered_service s t → service_ok s → canonical_service s = canonical_service t.
Proof.
  unfold reordered_service, service_ok, canonical_service. intros [-> Hp] (_ & _ & _ & Hnd).
  f_equal. by apply (sort_by_key_perm ps_port_id str_cmp).
Qed.

Lemma reordered_services services services' :
  Forall2 reordered_service services services' → Forall service_ok services →
  Forall service_ok services' ∧ canonical_service <$> services = canonical_service <$> services'.
Proof.
  induction 1 as [|s t l k Hst _ IH]; [done|]. intros [Hs Hl]%Forall_cons.
  destruct (IH Hl) as [? Heq]. rewrite !fmap_cons, Heq.
  split; [constructor; [by eapply reordered_service_ok|done]|].
  by rewrite (reordered_service_canonical s t).
Qed.

Lemma reordered_runtime_ok a b :
  reordered_runtime a b → runtime_ok a →
  runtime_ok b ∧ canonical_runtime a = canonical_runtime b.
Proof.
  intros [Hd (services & Hp & Hs)] (Hdig & Hne & Hlen & Hok & Hnd).
  rewrite Hp in Hok, Hnd. destruct (reordered_services _ _ Hs Hok) as [Hok' Heq].
  assert (rs_candidate_id <$> services = rs_candidate_id <$> rp_services b) as Hids.
  { by rewrite <- candidate_ids_canonical, Heq, candidate_ids_canonical. }
  apply Permutation_length in Hp as Hlp. apply Forall2_length in Hs as Hls.
  split; [split_and!|]; [by rewrite <- Hd| | |done|by rewrite <- Hids|].
  - intros Hnil. apply Hne, nil_length_inv. rewrite Hlp, Hls, Hnil. done.
  - by rewrite <- Hls, <- Hlp.
  - unfold canonical_runtime. rewrite Hd, <- Heq. f_equal.
    apply (sort_by_key_perm rs_candidate_id str_cmp); [|by rewrite Hp].
    by rewrite candidate_ids_canonical, Hp.
Qed.

Lemma reordered_runtime_sym a b : reordered_runtime a b → reordered_runtime b a.
Proof.
  intros [Hd (services & Hp & Hs)]. split; [done|].
  symmetry in Hp. destruct (Permutation_Forall2 Hp Hs) as (k & Hk & Hf). exists k.
  split; [done|]. apply Forall2_flip. eapply Forall2_impl; [done|]. apply reordered_service_sym.
Qed.
Section requests.
Context (to_lowercase : str → str).

#[local] Instance repository_cmp_pre : PreCmp (repository_cmp to_lowercase).
Proof.
  change (PreCmp (λ l r, cmp_then (cmp_on (λ x, to_lowercase (wr_label x)) str_cmp l r)
    (cmp_then (cmp_on wr_repository_id (option_cmp str_cmp) l r) (cmp_on wr_base_ref str_cmp l r)))).
  apply _.
Qed.

Definition request_ok (r : CreateWorkspaceRequest) : Prop :=
  title_ok (cr_title r) ∧ intent_ok (cr_intent r) ∧
  (∀ rt, cr_runtime r = Some rt → runtime_ok rt) ∧
  cr_repositories r ≠ [] ∧ (length (cr_repositories r) ≤ MAX_REPOSITORIES_PER_WORKSPACE)%nat ∧
  repositories_ok to_lowercase (cr_repositories r).

Definition canonical_request (r : CreateWorkspaceRequest) : CreateWorkspaceRequest :=
  {| cr_intent := canonical_intent (cr_intent r); cr_title := trim (cr_title r);
     cr_preferred_provider := cr_preferred_provider r;
     cr_repositories := sort_by (repository_cmp to_lowercase)
       (canonical_repository <$> cr_repositories r);
     cr_runtime := canonical_runtime <$> cr_runtime r; cr_planning := cr_planning r |}.

Lemma normalize_runtime_option_decides runtime :
  match transpose_map normalize_runtime runtime with
  | Ok runtime' => (∀ rt, runtime = Some rt → runtime_ok rt) ∧ runtime' = canonical_runtime <$> runtime
  | Err _ => ¬ (∀ rt, runtime = Some rt → runtime_ok rt)
  end.
Proof.
  destruct runtime as [rt|]; cbn; [|done]. pose proof (normalize_runtime_decides rt) as H.
  destruct (normalize_runtime rt) as [rt'|e]; cbn.
  - destruct H as [? ->]. split; [|done]. by intros ? [= <-].
  - intros Hok. apply H. by apply Hok.
Qed.

(** What [normalize] decides and returns. *)
Lemma normalize_spec r :
  match normalize to_lowercase r with
  | Ok r' => request_ok r ∧ r' = canonical_request r
  | Err _ => ¬ request_ok r
  end.
Proof.
  unfold normalize, request_ok, canonical_request.
  pose proof (normalize_workspace_title_decides (cr_title r)) as Ht.
  destruct (normalize_workspace_title _) as [t|e]; cbn [rbind]; [|tauto]. destruct Ht as [? ->].
  pose proof (normalize_intent_decides (cr_intent r)) as Hi.
  destruct (normalize_intent _) as [i|e]; cbn [rbind]; [|tauto]. destruct Hi as [? ->].
  pose proof (normalize_runtime_option_decides (cr_runtime r)) as Hr.
  destruct (transpose_map _ _) as [rt|e]; cbn [rbind]; [|tauto]. destruct Hr as [? ->].
  case_bool_decide; cbn [rbind guard_err]; [tauto|].
  destruct (Nat.ltb_spec MAX_REPOSITORIES_PER_WORKSPACE (length (cr_repositories r)));
    cbn [rbind guard_err]; [intros (_ & _ & _ & _ & ? & _); lia|].
  pose proof (normalize_repositories_decides to_lowercase (cr_repositories r)) as Hl.
  destruct (try_fold_i _ _ _ _) as [st|e]; cbn [rbind]; [|tauto].
  destruct Hl as [? ->]. by split_and!.
Qed.

Lemma normalize_iff r r' :
  normalize to_lowercase r = Ok r' ↔ request_ok r ∧ r' = canonical_request r.
Proof.
  pose proof (normalize_spec r) as H.
  destruct (normalize to_lowercase r) as [r0|e]; [|split; [done|tauto]].
  destruct H as [? ->]. split; [by intros [= <-]|]. by intros [_ ->].
Qed.

Lemma distinct_repositories_canonical r s :
  distinct_repositories to_lowercase (canonical_repository r) (canonical_repository s) ↔
  distinct_repositories to_lowercase r s.
Proof. unfold distinct_repositories, pinned; cbn. by rewrite !trim_idemp. Qed.

Lemma repositories_ok_canonical l :
  repositories_ok to_lowercase l → repositories_ok to_lowercase (canonical_repository <$> l).
Proof.
  intros [Hf Hp]. split.
  - apply Forall_fmap. by eapply Forall_impl; [|apply repository_ok_canonical].
  - apply pairwise_fmap. eapply pairwise_impl; [|done].
    intros x y. by rewrite distinct_repositories_canonical.
Qed.

Lemma repositories_ok_perm l k :
  l ≡ₚ k → repositories_ok to_lowercase l ↔ repositories_ok to_lowercase k.
Proof.
  intros Hp. unfold repositories_ok.
  assert (pairwise (distinct_repositories to_lowercase) l ↔
    pairwise (distinct_repositories to_lowercase) k) as ->.
  { pose proof (distinct_repositories_sym to_lowercase).
    split; by apply pairwise_perm. }
  by rewrite Hp.
Qed.

(** Repositories that are distinct never tie in the canonical order. *)
Lemma repository_cmp_ties l x y :
  pairwise (distinct_repositories to_lowercase) l →
  x ∈ canonical_repository <$> l → y ∈ canonical_repository <$> l →
  repository_cmp to_lowercase x y = Eq → x = y.
Proof.
  intros Hp (r & -> & Hr)%list_elem_of_fmap (s & -> & Hs)%list_elem_of_fmap Hc.
  destruct (pairwise_elem _ _ _ _ (distinct_repositories_sym to_lowercase) Hp Hr Hs)
    as [->|[Hid Hl]]; [done|].
  unfold repository_cmp in Hc. apply cmp_then_Eq in Hc as [Hc1 [Hc2 _]%cmp_then_Eq].
  cbn in Hc1, Hc2. apply (cmp_eq str_cmp) in Hc1. apply (cmp_eq (option_cmp str_cmp)) in Hc2.
  destruct (Hl Hc1) as [[id Hri] _]. destruct (Hid id Hri). congruence.
Qed.

Lemma request_ok_canonical r :
  request_ok r → request_ok (canonical_request r) ∧
  canonical_request (canonical_request r) = canonical_request r.
Proof.
  intros (Ht & Hi & Hr & Hne & Hlen & Hl).
  assert (canonical_repository <$>
    sort_by (repository_cmp to_lowercase) (canonical_repository <$> cr_repositories r) =
    sort_by (repository_cmp to_lowercase) (canonical_repository <$> cr_repositories r)) as Hfix.
  { apply fmap_fixed. intros x Hx. rewrite (elem_of_sort_by (repository_cmp to_lowercase)) in Hx.
    apply list_elem_of_fmap in Hx as (y & -> & _). apply canonical_repository_idemp. }
  split; [split_and!|].
  - unfold title_ok in *; cbn. by rewrite trim_idemp.
  - by apply intent_ok_canonical.
  - cbn. intros rt Hrt. apply fmap_Some in Hrt as (rt0 & Hrt0 & ->).
    by apply runtime_ok_canonical, Hr.
  - cbn. by rewrite sort_by_nil, fmap_nil_iff.
  - cbn. by rewrite sort_by_length, length_fmap.
  - cbn. eapply repositories_ok_perm; [apply sort_by_perm|]. by apply repositories_ok_canonical.
  - unfold canonical_request at 1 2 3; cbn. rewrite canonical_intent_idemp, trim_idemp.
    unfold canonical_request; cbn. f_equal; [|destruct (cr_runtime r); [|done]; cbn; by rewrite canonical_runtime_idemp].
    rewrite Hfix. apply (sort_by_idemp _).
Qed.

(** C3: [normalize] accepts exactly the well-formed requests and returns their canonical
    form: trimmed, upper-cased issue key, runtime plan and repositories sorted. *)
Theorem normalize_decides r :
  match normalize to_lowercase r with
  | Ok r' => request_ok r ∧ r' = canonical_request r
  | Err _ => ¬ request_ok r
  end.
Proof. apply normalize_spec. Qed.

(** Normalizing again changes nothing. *)
Lemma normalize_again r r' :
  normalize to_lowercase r = Ok r' → normalize to_lowercase r' = Ok r'.
Proof.
  rewrite !normalize_iff. intros [Hok ->].
  by destruct (request_ok_canonical r Hok) as [? ->].
Qed.

(** A canonical request is its own canonical form: normalizing twice is normalizing
    once, so a stored request can be validated again. *)
Theorem normalize_idempotent r r' :
  normalize to_lowercase r = Ok r' → normalize to_lowercase r' = Ok r'.
Proof. apply normalize_again. Qed.

(** Two requests that differ only in the order of their parts. *)
Definition reordered_request (a b : CreateWorkspaceRequest) : Prop :=
  cr_intent a = cr_intent b ∧ cr_title a = cr_title b ∧
  cr_preferred_provider a = cr_preferred_provider b ∧
  cr_repositories a ≡ₚ cr_repositories b ∧
  option_Forall2 reordered_runtime (cr_runtime a) (cr_runtime b) ∧
  cr_planning a = cr_planning b.

Lemma reordered_request_sym a b : reordered_request a b → reordered_request b a.
Proof.
  intros (? & ? & ? & ? & Hr & ?). split_and!; try done.
  destruct Hr; constructor. by apply reordered_runtime_sym.
Qed.

Lemma reordered_request_ok a b :
  reordered_request a b → request_ok a → request_ok b ∧ canonical_request a = canonical_request b.
Proof.
  intros (Hi & Ht & Hpr & Hp & Hr & Hpl) (Hto & Hio & Hro & Hne & Hlen & Hok).
  assert ((∀ rt, cr_runtime b = Some rt → runtime_ok rt) ∧
    canonical_runtime <$> cr_runtime a = canonical_runtime <$> cr_runtime b) as [Hrb Heq].
  { destruct Hr as [ra rb Hab|]; [|done].
    destruct (reordered_runtime_ok ra rb Hab) as [? Hc]; [by apply Hro|].
    split; [by intros ? [= <-]|]. cbn. by rewrite Hc. }
  split; [split_and!|].
  - by rewrite <- Ht.
  - by rewrite <- Hi.
  - done.
  - intros Hnil. apply Hne. rewrite Hnil in Hp. by apply Permutation_nil_r in Hp.
  - by rewrite <- Hp.
  - by apply (repositories_ok_perm (cr_repositories a)).
  - unfold canonical_request. rewrite Hi, Ht, Hpr, Heq, Hpl. f_equal.
    apply (sort_by_unique (repository_cmp to_lowercase)); [|by rewrite Hp].
    intros x y Hx Hy. eapply repository_cmp_ties; [apply Hok|done..].
Qed.

(** Repository order, service order and port order are not significant: requests that
    differ only there are both rejected or have the same canonical form, so the same hash. *)
Theorem normalize_order_independent a b r :
  reordered_request a b → normalize to_lowercase a = Ok r ↔ normalize to_lowercase b = Ok r.
Proof.
  intros Hab. apply reordered_request_sym in Hab as Hba. rewrite !normalize_iff.
  split; intros [Hok ->].
  - by destruct (reordered_request_ok a b Hab Hok) as [? ->].
  - by destruct (reordered_request_ok b a Hba Hok) as [? ->].
Qed.
End requests.

(** ** Concrete requests *)

Section witnesses.
Let repository_id (c : char) : str := lit "repo_" ++ replicate 64 c.

Definition sample_repositories : list WorkspaceRepositoryRequest :=
  [{| wr_repository_id := Some (repository_id 98); wr_label := lit " Service ";
      wr_base_ref := lit "origin/main" |};
   {| wr_repository_id := Some (repository_id 97); wr_label := lit "service";
      wr_base_ref := lit "origin/main" |};
   {| wr_repository_id := None; wr_label := lit "Console"; wr_base_ref := lit "main " |}].

Definition sample_runtime : RuntimePlanSelection :=
  {| rp_analysis_digest := lit "sha256:" ++ replicate 64 48;
     rp_services :=
       [{| rs_candidate_id := lit "web";
           rs_ports := [{| ps_port_id := lit "http"; ps_preferred_port := 8080; ps_policy := Fixed |};
                        {| ps_port_id := lit "debug"; ps_preferred_port := 1024; ps_policy := Prefer |}] |};
        {| rs_candidate_id := lit "api"; rs_ports := [] |}] |}.

Definition sample_request : CreateWorkspaceRequest :=
  {| cr_intent := Jira (lit " ab-12 "); cr_title := lit "  Fix login "; cr_preferred_provider := Codex;
     cr_repositories := sample_repositories; cr_runtime := Some sample_runtime; cr_planning := None |}.

Definition reordered_sample : CreateWorkspaceRequest :=
  {| cr_intent := Jira (lit " ab-12 "); cr_title := lit "  Fix login "; cr_preferred_provider := Codex;
     cr_repositories := reverse sample_repositories;
     cr_runtime := Some
       {| rp_analysis_digest := rp_analysis_digest sample_runtime;
          rp_services := reverse (canonical_service <$> rp_services sample_runtime) |};
     cr_planning := None |}.

Example sample_accepted :
  normalize to_ascii_lowercase sample_request = Ok (canonical_request to_ascii_lowercase sample_request).
Proof. vm_compute. reflexivity. Qed.

Lemma normalize_idempotent_witness :
  normalize to_ascii_lowercase (canonical_request to_ascii_lowercase sample_request) =
    Ok (canonical_request to_ascii_lowercase sample_request).
Proof.
  apply (normalize_idempotent to_ascii_lowercase sample_request). vm_compute. reflexivity.
Defined.

Lemma normalize_order_independent_witness :
  normalize to_ascii_lowercase reordered_sample =
    Ok (canonical_request to_ascii_lowercase sample_request).
Proof.
  apply (normalize_order_independent to_ascii_lowercase sample_request reordered_sample).
  - split_and!; try reflexivity; [symmetry; apply reverse_Permutation|]. constructor.
    split; [reflexivity|].
    exists (reverse (rp_services sample_runtime)). split; [symmetry; apply reverse_Permutation|].
    repeat constructor; cbn; rewrite sort_by_perm; reflexivity.
  - vm_compute. reflexivity.
Defined.
End witnesses.
