(* ===== verification/StoreBase.v ===== *)
(** * The workspace store: records and tables ([crates/wts-store/src/sqlite.rs], [model.rs])

    The rows of the SQLite tables, the checks every stored record passes when it is read or
    written, and [load_projection], the read every operation starts with.  SQLite is a record
    of finite maps (tables with a key) and lists (append-only tables); a column keeps the
    storage type it has in the schema, so an enumeration is its text and an INTEGER a [Z].
    Identifiers are 128-bit numbers; a column that holds [Uuid::to_string] is keyed by the
    identifier.  What other crates compute is in the class [Libraries]. *)

From S2P Require Import Prelude Order Text Workspace.

Local Open Scope N_scope.

Definition Uuid : Type := N.
Definition is_nil (id : Uuid) : bool := id =? 0.

(** ** Limits *)

Definition MAX_RECORD_JSON_BYTES : N := 256 * 1024.
Definition MAX_TOMBSTONE_RESULT_JSON_BYTES : N := 64 * 1024.
Definition WORKSPACE_RECORD_SCHEMA_VERSION : N := 1.
Definition WORKSPACE_RECORD_VERSION : N := 1.

(** ** Errors *)

Inductive WorkspaceStoreError :=
| DataDirectoryMustBeAbsolute
| WorkspaceRootMustBeAbsolute
| InvalidWorkspaceRoot
| NonUtf8WorkspaceRoot
| InvalidWorkspaceRootId
| InvalidIdempotencyKey
| IdempotencyConflict (idempotency_key : Uuid)
| TombstoneIdempotencyConflict (idempotency_key : Uuid)
| WorkspaceAlreadyTombstoned (workspace_id : Uuid)
| WorkspaceNotFound (workspace_id : Uuid)
| WorkspaceWorkflowConflict (expected actual : N)
| InvalidWorkspaceBoardPlacement
| InvalidReviewThread
| ReviewCommentTooLarge
| ReviewThreadNotFound (thread_id : Uuid)
| ReviewThreadConflict (expected actual : N)
| InvalidWorkItemLink
| StaleWorkItemLinkPreview
| WorkItemLinkIdempotencyConflict (idempotency_key : Uuid)
| WorkItemLinkAlreadyExists
| PrimaryWorkItemLinkAlreadyExists
| WorkItemLinkNotFound (link_id : Uuid)
| WorkItemLinkConflict (expected actual : N)
| InvalidEffectDigest
| UnsupportedSchemaVersion (found : Z)
| CorruptRecord (message : str)
| UnknownWorkspaceRoot (root : str)
| InvalidSystemClock
| Validation (error : WorkspaceValidationError)
| Io
| DatabaseError
| Serialization.

#[export] Instance store_error_eq_dec : EqDecision WorkspaceStoreError.
Proof. solve_decision. Defined.

(** The [?] of a validation error inside a store function. *)
Definition as_validation {A} (r : result A WorkspaceValidationError) :
    result A WorkspaceStoreError :=
  match r with Ok a => Ok a | Err e => Err (Validation e) end.

(** ** Domain data *)

Inductive WorkspacePhase := Draft.

Record WorkspaceRepositoryPlan := {
  pp_request_id : Uuid;
  pp_repository_id : option str;
  pp_label : str;
  pp_base_ref : str;
  pp_worktree_leaf : str
}.

Record WorkspaceRecord := {
  wk_schema_version : N;
  wk_workspace_id : Uuid;
  wk_record_version : N;
  wk_intent : WorkspaceIntent;
  wk_title : str;
  wk_display_name : option str;
  wk_preferred_provider : WorkspaceProvider;
  wk_phase : WorkspacePhase;
  wk_repositories : list WorkspaceRepositoryPlan;
  wk_runtime : option RuntimePlanSelection;
  wk_planning : option WorkspacePlanningSelection;
  wk_workspace_root_id : str;
  wk_workspace_leaf : str;
  wk_created_at_unix_ms : Z;
  wk_updated_at_unix_ms : Z
}.

Record WorkspaceLifecycleSummary := {
  lf_materialization_state : WorkspaceMaterializationState;
  lf_worktree_count : N;
  lf_observed_at_unix_ms : option Z
}.

Definition unknown : WorkspaceLifecycleSummary :=
  {| lf_materialization_state := Unknown; lf_worktree_count := 0; lf_observed_at_unix_ms := None |}.

Inductive WorkspaceBoardPlacementMode := Automatic | Pinned.

Record WorkspaceBoardPlacementSummary := {
  bp_mode : WorkspaceBoardPlacementMode;
  bp_rank : N
}.

Record WorkspaceWorkflowSummary := {
  wf_state : WorkspaceWorkflowState;
  wf_revision : N;
  wf_updated_at_unix_ms : Z;
  wf_placement : WorkspaceBoardPlacementSummary
}.

#[export] Instance workspace_phase_eq_dec : EqDecision WorkspacePhase.
Proof. solve_decision. Defined.
#[export] Instance repository_plan_eq_dec : EqDecision WorkspaceRepositoryPlan.
Proof. solve_decision. Defined.
#[export] Instance workspace_record_eq_dec : EqDecision WorkspaceRecord.
Proof. solve_decision. Defined.
#[export] Instance lifecycle_summary_eq_dec : EqDecision WorkspaceLifecycleSummary.
Proof. solve_decision. Defined.
#[export] Instance placement_mode_eq_dec : EqDecision WorkspaceBoardPlacementMode.
Proof. solve_decision. Defined.
#[export] Instance placement_summary_eq_dec : EqDecision WorkspaceBoardPlacementSummary.
Proof. solve_decision. Defined.
#[export] Instance workflow_summary_eq_dec : EqDecision WorkspaceWorkflowSummary.
Proof. solve_decision. Defined.

(** Work items. *)

Inductive StoredWorkItemProvider := JiraProvider.
Inductive StoredWorkItemRole := Primary | Related | CreatedFromWorkspace.

Record StoredWorkItemSnapshot := {
  ws_issue_key : str;
  ws_summary : option str;
  ws_status : option str;
  ws_content : str;
  ws_browser_url : option str;
  ws_fetched_at_unix_ms : Z
}.

Record StoredWorkspaceWorkItemLink := {
  wl_link_id : Uuid;
  wl_workspace_id : Uuid;
  wl_provider : StoredWorkItemProvider;
  wl_role : StoredWorkItemRole;
  wl_snapshot : StoredWorkItemSnapshot;
  wl_revision : N;
  wl_created_at_unix_ms : Z;
  wl_updated_at_unix_ms : Z
}.

Record ObservedWorkItem := {
  ow_issue_key : str;
  ow_source_files : list str;
  ow_observed_at_unix_ms : Z
}.

(** Review threads. *)

Inductive StoredReviewAuthor := User | Agent.
Inductive StoredReviewThreadState := Open | Resolved.

Inductive StoredReviewTarget :=
| PlanningDocument (document_id document_sha256 : str) (line : option N)
| VerificationCheck (plan_revision : N) (completed_at_unix_ms : Z) (check_id : str)
| CodeChange (repository_id base_commit_oid head_commit_oid patch_sha256 file_path side : str)
    (line : N).

Record StoredReviewComment := {
  rc_comment_id : Uuid;
  rc_author : StoredReviewAuthor;
  rc_body : str;
  rc_created_at_unix_ms : Z
}.

Record StoredReviewThread := {
  rt_thread_id : Uuid;
  rt_workspace_id : Uuid;
  rt_target : StoredReviewTarget;
  rt_state : StoredReviewThreadState;
  rt_revision : N;
  rt_comments : list StoredReviewComment;
  rt_created_at_unix_ms : Z;
  rt_updated_at_unix_ms : Z;
  rt_resolved_at_unix_ms : option Z
}.

#[export] Instance work_item_provider_eq_dec : EqDecision StoredWorkItemProvider.
Proof. solve_decision. Defined.
#[export] Instance work_item_role_eq_dec : EqDecision StoredWorkItemRole.
Proof. solve_decision. Defined.
#[export] Instance work_item_snapshot_eq_dec : EqDecision StoredWorkItemSnapshot.
Proof. solve_decision. Defined.
#[export] Instance work_item_link_eq_dec : EqDecision StoredWorkspaceWorkItemLink.
Proof. solve_decision. Defined.
#[export] Instance observed_work_item_eq_dec : EqDecision ObservedWorkItem.
Proof. solve_decision. Defined.
#[export] Instance review_author_eq_dec : EqDecision StoredReviewAuthor.
Proof. solve_decision. Defined.
#[export] Instance review_state_eq_dec : EqDecision StoredReviewThreadState.
Proof. solve_decision. Defined.
#[export] Instance review_target_eq_dec : EqDecision StoredReviewTarget.
Proof. solve_decision. Defined.
#[export] Instance review_comment_eq_dec : EqDecision StoredReviewComment.
Proof. solve_decision. Defined.
#[export] Instance review_thread_eq_dec : EqDecision StoredReviewThread.
Proof. solve_decision. Defined.

(** ** Other crates *)

(** [to_lowercase] is the Unicode table of the standard library; [uuid], [serde_json] and
    [sha2]/[hex] are third-party. *)
Class Libraries := {
  to_lowercase : str → str;
  uuid_to_string : Uuid → str;
  uuid_parse_str : str → option Uuid;
  record_to_json : WorkspaceRecord → str;
  record_from_json : str → result WorkspaceRecord str;
  request_to_json : CreateWorkspaceRequest → list N;
  link_to_json : StoredWorkspaceWorkItemLink → str;
  link_from_json : str → result StoredWorkspaceWorkItemLink str;
  json_is_value : str → bool;
  sha256_hex : list N → str
}.

(** What the store relies on: a value that was serialized is read back, and an identifier is
    rendered in the hyphenated lower-case form. *)
Class LibraryLaws `{Libraries} : Prop := {
  record_json_round_trip r : record_from_json (record_to_json r) = Ok r;
  link_json_round_trip l : link_from_json (link_to_json l) = Ok l;
  uuid_to_string_length id : length (uuid_to_string id) = 36%nat;
  uuid_to_string_chars id :
    forallb (λ c, is_lower_hex c || (c =? 45)) (uuid_to_string id) = true;
  uuid_to_string_inj a b :
    a < 2 ^ 128 → b < 2 ^ 128 → uuid_to_string a = uuid_to_string b → a = b;
  sha256_hex_length bytes : length (sha256_hex bytes) = 64%nat;
  sha256_hex_chars bytes : forallb is_lower_hex (sha256_hex bytes) = true
}.

(** ** Tables *)

Record ProjectionRow := {
  pr_record_version : Z;
  pr_record_json : str;
  pr_updated_at_unix_ms : Z
}.

Record LifecycleRow := {
  lr_workspace_record_version : Z;
  lr_materialization_state : str;
  lr_worktree_count : Z;
  lr_observed_at_unix_ms : Z
}.

Record CreatedEventRow := {
  ce_event_id : Uuid;
  ce_workspace_id : Uuid;
  ce_record_version : Z;
  ce_workspace : WorkspaceRecord;
  ce_idempotency_key : Uuid;
  ce_request_digest : str;
  ce_created_at_unix_ms : Z
}.

Record TombstoneRow := {
  te_event_id : Uuid;
  te_workspace_id : Uuid;
  te_idempotency_key : Uuid;
  te_effect_digest : str;
  te_result_json : str;
  te_removed_at_unix_ms : Z
}.

Record WorkflowRow := {
  wr_state : str;
  wr_workflow_revision : Z;
  wr_updated_at_unix_ms : Z
}.

Record PlacementRow := {
  pl_mode : str;
  pl_lane_rank : Z;
  pl_updated_at_unix_ms : Z
}.

(** The JSON column of an event table is the event it serializes: these fields. *)
Record WorkflowEventRow := {
  we_event_id : Uuid;
  we_workspace_id : Uuid;
  we_from_state : WorkspaceWorkflowState;
  we_to_state : WorkspaceWorkflowState;
  we_workflow_revision : Z;
  we_created_at_unix_ms : Z
}.

Record BoardEventRow := {
  be_event_id : Uuid;
  be_workspace_id : Uuid;
  be_event_type : str;
  be_from_state : WorkspaceWorkflowState;
  be_to_state : WorkspaceWorkflowState;
  be_from_mode : WorkspaceBoardPlacementMode;
  be_to_mode : WorkspaceBoardPlacementMode;
  be_from_rank : Z;
  be_to_rank : Z;
  be_workflow_revision : Z;
  be_created_at_unix_ms : Z
}.

Record LinkRow := {
  kr_workspace_id : Uuid;
  kr_provider : str;
  kr_issue_key : str;
  kr_role : str;
  kr_summary : option str;
  kr_status : option str;
  kr_content : str;
  kr_browser_url : option str;
  kr_fetched_at_unix_ms : Z;
  kr_revision : Z;
  kr_created_at_unix_ms : Z;
  kr_updated_at_unix_ms : Z
}.

Record ConfirmationRow := {
  cf_workspace_id : Uuid;
  cf_preview_digest : str;
  cf_result_json : str;
  cf_created_at_unix_ms : Z
}.

Inductive LinkEvent :=
| WorkItemLinked (link : StoredWorkspaceWorkItemLink)
| WorkItemUnlinked (removed_revision : N) (issue_key : str).

Record LinkEventRow := {
  ke_event_id : Uuid;
  ke_workspace_id : Uuid;
  ke_link_id : Uuid;
  ke_event : LinkEvent;
  ke_link_revision : Z;
  ke_created_at_unix_ms : Z
}.

(** A thread row of one of the three review tables: the anchor columns are [A]. *)
Record ThreadRow (A : Type) := {
  tr_workspace_id : Uuid;
  tr_target : A;
  tr_state : str;
  tr_revision : Z;
  tr_created_at_unix_ms : Z;
  tr_updated_at_unix_ms : Z;
  tr_resolved_at_unix_ms : option Z
}.
Arguments tr_workspace_id {A} _.
Arguments tr_target {A} _.
Arguments tr_state {A} _.
Arguments tr_revision {A} _.
Arguments tr_created_at_unix_ms {A} _.
Arguments tr_updated_at_unix_ms {A} _.
Arguments tr_resolved_at_unix_ms {A} _.

Record PlanningAnchor := {
  pa_document_id : str;
  pa_document_sha256 : str;
  pa_line : option Z
}.

Record VerificationAnchor := {
  va_plan_revision : Z;
  va_completed_at_unix_ms : Z;
  va_check_id : str
}.

Record CodeAnchor := {
  ca_repository_id : str;
  ca_base_commit_oid : str;
  ca_head_commit_oid : str;
  ca_patch_sha256 : str;
  ca_file_path : str;
  ca_side : str;
  ca_line : Z
}.

Record CommentRow := {
  cr_comment_id : Uuid;
  cr_thread_id : Uuid;
  cr_author : str;
  cr_body : str;
  cr_created_at_unix_ms : Z
}.

Record BoardTables := {
  bt_workflow_events : list WorkflowEventRow;
  bt_workflow : gmap Uuid WorkflowRow;
  bt_board_events : list BoardEventRow;
  bt_placement : gmap Uuid PlacementRow
}.

Record LinkTables := {
  kt_links : gmap Uuid LinkRow;
  kt_confirmations : gmap Uuid ConfirmationRow;
  kt_events : list LinkEventRow
}.

(** Comment tables are append-only: lists in the order of [sequence]. *)
Record ReviewTables := {
  vt_planning : gmap Uuid (ThreadRow PlanningAnchor);
  vt_planning_comments : list CommentRow;
  vt_verification : gmap Uuid (ThreadRow VerificationAnchor);
  vt_verification_comments : list CommentRow;
  vt_code : gmap Uuid (ThreadRow CodeAnchor);
  vt_code_comments : list CommentRow
}.

Record Database := {
  db_created_events : list CreatedEventRow;
  db_projection : gmap Uuid ProjectionRow;
  db_lifecycle : gmap Uuid LifecycleRow;
  db_tombstones : list TombstoneRow;
  db_board : BoardTables;
  db_links : LinkTables;
  db_observations : gmap (Uuid * str * str) Z;
  db_reviews : ReviewTables
}.

Definition set_board (db : Database) (board : BoardTables) : Database :=
  {| db_created_events := db_created_events db; db_projection := db_projection db;
     db_lifecycle := db_lifecycle db; db_tombstones := db_tombstones db;
     db_board := board; db_links := db_links db; db_observations := db_observations db;
     db_reviews := db_reviews db |}.

Definition set_links (db : Database) (links : LinkTables) : Database :=
  {| db_created_events := db_created_events db; db_projection := db_projection db;
     db_lifecycle := db_lifecycle db; db_tombstones := db_tombstones db;
     db_board := db_board db; db_links := links; db_observations := db_observations db;
     db_reviews := db_reviews db |}.

Definition set_observations (db : Database) (rows : gmap (Uuid * str * str) Z) : Database :=
  {| db_created_events := db_created_events db; db_projection := db_projection db;
     db_lifecycle := db_lifecycle db; db_tombstones := db_tombstones db;
     db_board := db_board db; db_links := db_links db; db_observations := rows;
     db_reviews := db_reviews db |}.

Definition set_reviews (db : Database) (reviews : ReviewTables) : Database :=
  {| db_created_events := db_created_events db; db_projection := db_projection db;
     db_lifecycle := db_lifecycle db; db_tombstones := db_tombstones db;
     db_board := db_board db; db_links := db_links db; db_observations := db_observations db;
     db_reviews := reviews |}.

Definition set_projection (db : Database) (rows : gmap Uuid ProjectionRow) : Database :=
  {| db_created_events := db_created_events db; db_projection := rows;
     db_lifecycle := db_lifecycle db; db_tombstones := db_tombstones db;
     db_board := db_board db; db_links := db_links db; db_observations := db_observations db;
     db_reviews := db_reviews db |}.

Definition set_lifecycle (db : Database) (rows : gmap Uuid LifecycleRow) : Database :=
  {| db_created_events := db_created_events db; db_projection := db_projection db;
     db_lifecycle := rows; db_tombstones := db_tombstones db;
     db_board := db_board db; db_links := db_links db; db_observations := db_observations db;
     db_reviews := db_reviews db |}.

Definition set_tombstones (db : Database) (rows : list TombstoneRow) : Database :=
  {| db_created_events := db_created_events db; db_projection := db_projection db;
     db_lifecycle := db_lifecycle db; db_tombstones := rows;
     db_board := db_board db; db_links := db_links db; db_observations := db_observations db;
     db_reviews := db_reviews db |}.

Definition set_created_events (db : Database) (rows : list CreatedEventRow) : Database :=
  {| db_created_events := rows; db_projection := db_projection db;
     db_lifecycle := db_lifecycle db; db_tombstones := db_tombstones db;
     db_board := db_board db; db_links := db_links db; db_observations := db_observations db;
     db_reviews := db_reviews db |}.

(** ** Transactions *)

(** An operation that runs in one transaction returns the new database with its value; an
    early return drops the transaction and leaves the database as it was. *)
Definition transact {A} (db : Database) (body : result (Database * A) WorkspaceStoreError) :
    Database * result A WorkspaceStoreError :=
  match body with
  | Ok (db', a) => (db', Ok a)
  | Err e => (db, Err e)
  end.

(** [unix_time_ms]: the clock reads [None] before the epoch, else milliseconds since. *)
Definition unix_time_ms (clock : option N) : result Z WorkspaceStoreError :=
  match clock with
  | None => Err InvalidSystemClock
  | Some millis => ok_or (i64_try_from millis) InvalidSystemClock
  end.

(** ** Trusted names *)

Definition slug_char (character : char) : char :=
  if is_ascii_alphanumeric character then to_ascii_lowercase_char character else 45.

Definition slug (value : str) : str :=
  join (lit "-") (filter (λ part, is_empty part = false) (split_char 45 (slug_char <$> value))).

Definition valid_root_id (value : str) : bool :=
  negb (is_empty value) && (byte_len value <=? 64)
  && forallb (λ b, is_ascii_alphanumeric b || (b =? 45) || (b =? 95) || (b =? 46)) (utf8 value).

(** [WorkspaceRoot]; a path is a Unicode string. *)
Record WorkspaceRoot := { root_id : str; root_path : str; root_display_path : str }.

Definition new_workspace_root (id path : str) : result WorkspaceRoot WorkspaceStoreError :=
  ensure guard_err (negb (valid_root_id id)) InvalidWorkspaceRootId in
  ensure guard_err (negb (is_absolute path)) WorkspaceRootMustBeAbsolute in
  ensure guard_err (existsb (λ component, bool_decide (component = ParentDir))
                      (path_components path)) InvalidWorkspaceRoot in
  Ok {| root_id := id; root_path := path; root_display_path := path |}.

Section records.
Context `{Libraries}.

Definition workspace_leaf_from_name (source : str) (workspace_id : Uuid) : str :=
  let slug := slug source in
  let bounded_slug := take (Nat.min (length slug) 200) slug in
  (if is_empty bounded_slug then lit "workspace" else bounded_slug) ++ lit "-" ++
  uuid_to_string workspace_id.

Definition workspace_leaf (intent : WorkspaceIntent) (workspace_id : Uuid) : str :=
  let source :=
    match intent with
    | Jira issue_key => issue_key
    | OpenProject _ display_id => display_id
    | RepositorySet label => label
    end in
  workspace_leaf_from_name source workspace_id.

Definition renamed_workspace_leaf (title : str) (workspace_id : Uuid) :
    result str WorkspaceValidationError :=
  let? request := normalize_rename {| rn_title := title |} in
  Ok (workspace_leaf_from_name (rn_title request) workspace_id).

Definition repository_leaf (label : str) (request_id : Uuid) : str :=
  let slug := slug label in
  (if is_empty slug then lit "repository" else slug) ++ lit "-" ++ uuid_to_string request_id.

(** ** Validation of a record *)

Definition plan_request (plan : WorkspaceRepositoryPlan) : WorkspaceRepositoryRequest :=
  {| wr_repository_id := pp_repository_id plan; wr_label := pp_label plan;
     wr_base_ref := pp_base_ref plan |}.

Definition record_request (record : WorkspaceRecord) : CreateWorkspaceRequest :=
  {| cr_intent := wk_intent record; cr_title := wk_title record;
     cr_preferred_provider := wk_preferred_provider record;
     cr_repositories := plan_request <$> wk_repositories record;
     cr_runtime := wk_runtime record; cr_planning := wk_planning record |}.

Definition validate_plan (_ : ()) (repository : WorkspaceRepositoryPlan) :
    result () WorkspaceStoreError :=
  guard_err (is_nil (pp_request_id repository) ||
             bool_decide (pp_worktree_leaf repository ≠
                          repository_leaf (pp_label repository) (pp_request_id repository)))
    (CorruptRecord (lit "repository plan has an invalid trusted identity")).

Definition validate_display_name (display_name : str) : result () WorkspaceStoreError :=
  match normalize_rename {| rn_title := display_name |} with
  | Err error =>
      Err (CorruptRecord
             (lit "workspace display name failed validation: " ++ validation_error_text error))
  | Ok normalized =>
      guard_err (bool_decide (rn_title normalized ≠ display_name))
        (CorruptRecord (lit "workspace display name is not canonical"))
  end.

Definition expected_workspace_leaf (record : WorkspaceRecord) : str :=
  match wk_display_name record with
  | None => workspace_leaf (wk_intent record) (wk_workspace_id record)
  | Some display_name => workspace_leaf_from_name display_name (wk_workspace_id record)
  end.

(** [zip] of the canonical repositories with the plans they came from. *)
Definition canonical_plans (normalized : CreateWorkspaceRequest) (record : WorkspaceRecord) :
    list WorkspaceRepositoryPlan :=
  zip_with (λ repository plan,
    {| pp_request_id := pp_request_id plan; pp_repository_id := wr_repository_id repository;
       pp_label := wr_label repository; pp_base_ref := wr_base_ref repository;
       pp_worktree_leaf := pp_worktree_leaf plan |})
    (cr_repositories normalized) (wk_repositories record).

Definition validate_record (record : WorkspaceRecord) : result () WorkspaceStoreError :=
  ensure guard_err (negb (wk_schema_version record =? WORKSPACE_RECORD_SCHEMA_VERSION))
           (CorruptRecord (lit "unsupported workspace record schema " ++
                           dec (wk_schema_version record))) in
  ensure guard_err (negb (wk_record_version record =? WORKSPACE_RECORD_VERSION))
           (CorruptRecord (lit "unsupported workspace record version " ++
                           dec (wk_record_version record))) in
  ensure guard_err (is_nil (wk_workspace_id record))
           (CorruptRecord (lit "workspace identifier is nil")) in
  ensure guard_err (negb (valid_root_id (wk_workspace_root_id record)))
           (CorruptRecord (lit "workspace root identifier is invalid")) in
  ensure guard_err (bool_decide (wk_workspace_leaf record ≠ expected_workspace_leaf record))
           (CorruptRecord (lit "workspace leaf does not match its trusted identity")) in
  ensure guard_err ((wk_created_at_unix_ms record <? 0)%Z ||
                    (wk_updated_at_unix_ms record <? wk_created_at_unix_ms record)%Z)
           (CorruptRecord (lit "workspace timestamps are invalid")) in
  ensure guard_err (bool_decide (wk_phase record ≠ Draft))
           (CorruptRecord (lit "workspace phase is unsupported")) in
  ensure match wk_display_name record with
         | Some display_name => validate_display_name display_name
         | None => Ok ()
         end in
  ensure try_fold validate_plan () (wk_repositories record) in
  match normalize to_lowercase (record_request record) with
  | Err error =>
      Err (CorruptRecord
             (lit "workspace domain data failed validation: " ++ validation_error_text error))
  | Ok normalized =>
      guard_err
        (bool_decide (cr_intent normalized ≠ wk_intent record) ||
         bool_decide (cr_title normalized ≠ wk_title record) ||
         bool_decide (cr_preferred_provider normalized ≠ wk_preferred_provider record) ||
         bool_decide (cr_runtime normalized ≠ wk_runtime record) ||
         bool_decide (cr_planning normalized ≠ wk_planning record) ||
         bool_decide (canonical_plans normalized record ≠ wk_repositories record))
        (CorruptRecord (lit "workspace domain data is not canonical"))
  end.

(** ** The lifecycle observation *)

Definition validate_lifecycle_timestamp (record : WorkspaceRecord)
    (lifecycle : WorkspaceLifecycleSummary) : result () WorkspaceStoreError :=
  guard_err
    match lf_observed_at_unix_ms lifecycle with
    | None => true
    | Some observed => (observed <? wk_created_at_unix_ms record)%Z
    end (CorruptRecord (lit "workspace lifecycle observation time is invalid")).

Definition validate_lifecycle (record : WorkspaceRecord)
    (lifecycle : WorkspaceLifecycleSummary) : result () WorkspaceStoreError :=
  match lf_materialization_state lifecycle with
  | Unknown =>
      guard_err (negb (lf_worktree_count lifecycle =? 0) ||
                 bool_decide (is_Some (lf_observed_at_unix_ms lifecycle)))
        (CorruptRecord (lit "unknown workspace lifecycle contains an observation"))
  | Materialized =>
      ensure guard_err (negb (lf_worktree_count lifecycle =?
                              N.of_nat (length (wk_repositories record))))
               (CorruptRecord
                  (lit "materialized workspace lifecycle has the wrong worktree count")) in
      validate_lifecycle_timestamp record lifecycle
  | NotMaterialized | NeedsAttention =>
      ensure guard_err (negb (lf_worktree_count lifecycle =? 0))
               (CorruptRecord (lit "non-materialized workspace lifecycle has worktrees")) in
      validate_lifecycle_timestamp record lifecycle
  end.

Definition lifecycle_state_storage (state : WorkspaceMaterializationState) : str :=
  match state with
  | Unknown => lit "unknown"
  | NotMaterialized => lit "not_materialized"
  | Materialized => lit "materialized"
  | NeedsAttention => lit "needs_attention"
  end.

(** ** Reading a workspace *)

Record RawProjection := {
  rw_workspace_id : Uuid;
  rw_record_version : Z;
  rw_record_json : str;
  rw_updated_at_unix_ms : Z;
  rw_json_bytes : Z;
  rw_lifecycle_record_version : option Z;
  rw_materialization_state : option str;
  rw_worktree_count : option Z;
  rw_observed_at_unix_ms : option Z
}.

Record DecodedProjection := {
  dc_record : WorkspaceRecord;
  dc_lifecycle : WorkspaceLifecycleSummary
}.

Definition materialization_state_from_storage (state : option str) :
    result WorkspaceMaterializationState WorkspaceStoreError :=
  match state with
  | None => Err (CorruptRecord (lit "workspace lifecycle state is invalid"))
  | Some state =>
      if bool_decide (state = lit "not_materialized") then Ok NotMaterialized
      else if bool_decide (state = lit "materialized") then Ok Materialized
      else if bool_decide (state = lit "needs_attention") then Ok NeedsAttention
      else Err (CorruptRecord (lit "workspace lifecycle state is invalid"))
  end.

Definition decode_lifecycle (record : WorkspaceRecord) (raw : RawProjection) :
    result WorkspaceLifecycleSummary WorkspaceStoreError :=
  let fields_present :=
    [bool_decide (is_Some (rw_lifecycle_record_version raw));
     bool_decide (is_Some (rw_materialization_state raw));
     bool_decide (is_Some (rw_worktree_count raw));
     bool_decide (is_Some (rw_observed_at_unix_ms raw))] in
  if forallb negb fields_present then Ok unknown
  else
    ensure guard_err (negb (forallb id fields_present))
             (CorruptRecord (lit "workspace lifecycle projection is incomplete")) in
    ensure guard_err (bool_decide (rw_lifecycle_record_version raw ≠
                                   i64_try_from (wk_record_version record)))
             (CorruptRecord (lit "workspace lifecycle record version is stale")) in
    let? materialization_state :=
      materialization_state_from_storage (rw_materialization_state raw) in
    let? worktree_count :=
      ok_or (u32_try_from (default 0%Z (rw_worktree_count raw)))
        (CorruptRecord (lit "workspace lifecycle worktree count is invalid")) in
    let lifecycle :=
      {| lf_materialization_state := materialization_state;
         lf_worktree_count := worktree_count;
         lf_observed_at_unix_ms := rw_observed_at_unix_ms raw |} in
    ensure validate_lifecycle record lifecycle in
    Ok lifecycle.

Definition decode_projection (raw : RawProjection) :
    result DecodedProjection WorkspaceStoreError :=
  ensure guard_err ((rw_json_bytes raw <? 0)%Z ||
                    (Z.of_N MAX_RECORD_JSON_BYTES <? rw_json_bytes raw)%Z)
           (CorruptRecord (lit "workspace JSON exceeds the store limit")) in
  let? record :=
    match record_from_json (rw_record_json raw) with
    | Ok record => Ok record
    | Err error => Err (CorruptRecord error)
    end in
  ensure guard_err
           (bool_decide (wk_workspace_id record ≠ rw_workspace_id raw) ||
            bool_decide (i64_try_from (wk_record_version record) ≠ Some (rw_record_version raw)) ||
            negb (wk_updated_at_unix_ms record =? rw_updated_at_unix_ms raw)%Z)
           (CorruptRecord (lit "projection metadata does not match its workspace JSON")) in
  ensure validate_record record in
  let? lifecycle := decode_lifecycle record raw in
  Ok {| dc_record := record; dc_lifecycle := lifecycle |}.

(** SQLite's [length] of a text: its characters before the first NUL. *)
Fixpoint sqlite_length (s : str) : Z :=
  match s with
  | [] => 0
  | c :: s' => if c =? 0 then 0 else 1 + sqlite_length s'
  end.

(** One row of the projection joined with its lifecycle row. *)
Definition raw_projection (db : Database) (workspace_id : Uuid) (row : ProjectionRow) :
    RawProjection :=
  let lifecycle := db_lifecycle db !! workspace_id in
  {| rw_workspace_id := workspace_id;
     rw_record_version := pr_record_version row;
     rw_record_json := pr_record_json row;
     rw_updated_at_unix_ms := pr_updated_at_unix_ms row;
     rw_json_bytes := sqlite_length (pr_record_json row);
     rw_lifecycle_record_version := lr_workspace_record_version <$> lifecycle;
     rw_materialization_state := lr_materialization_state <$> lifecycle;
     rw_worktree_count := lr_worktree_count <$> lifecycle;
     rw_observed_at_unix_ms := lr_observed_at_unix_ms <$> lifecycle |}.

Definition is_tombstoned (db : Database) (workspace_id : Uuid) : bool :=
  existsb (λ row, te_workspace_id row =? workspace_id) (db_tombstones db).

Definition load_projection (db : Database) (workspace_id : Uuid) :
    result (option DecodedProjection) WorkspaceStoreError :=
  if is_tombstoned db workspace_id then Ok None
  else transpose_map (λ row, decode_projection (raw_projection db workspace_id row))
         (db_projection db !! workspace_id).

(** [if load_projection(..)?.is_none() { return Err(WorkspaceNotFound) }]. *)
Definition require_workspace (db : Database) (workspace_id : Uuid) :
    result () WorkspaceStoreError :=
  let? decoded := load_projection db workspace_id in
  guard_err (bool_decide (decoded = None)) (WorkspaceNotFound workspace_id).

(** ** Lemmas every component of the store uses *)

Lemma i64_try_from_Some n z : i64_try_from n = Some z → z = Z.of_N n ∧ in_i64 z.
Proof.
  unfold i64_try_from, in_i64, i64_max, i64_min. destruct (Z.leb_spec (Z.of_N n) (2 ^ 63 - 1)); [|done].
  intros [= <-]. split; [done|]. lia.
Qed.

Lemma transact_Ok {A} db (body : result (Database * A) WorkspaceStoreError) db' a :
  transact db body = (db', Ok a) ↔ body = Ok (db', a).
Proof. unfold transact. destruct body as [[db0 a0]|e]; naive_solver. Qed.

Lemma transact_Err {A} db (body : result (Database * A) WorkspaceStoreError) db' e :
  transact db body = (db', Err e) → db' = db ∧ body = Err e.
Proof. unfold transact. destruct body as [[db0 a0]|e0]; naive_solver. Qed.

Lemma require_workspace_Ok db w :
  require_workspace db w = Ok () → is_tombstoned db w = false.
Proof.
  unfold require_workspace, load_projection. by destruct (is_tombstoned db w).
Qed.

Lemma unix_time_ms_nonneg clock t : unix_time_ms clock = Ok t → (0 ≤ t)%Z.
Proof.
  unfold unix_time_ms. destruct clock as [millis|]; [|done].
  destruct (i64_try_from millis) eqn:E; [|done]. intros [= <-].
  apply i64_try_from_Some in E as [-> _]. lia.
Qed.
End records.
