(* ===== verification/StoreNames.v ===== *)
(** * The directory names the store derives ([crates/wts-store/src/sqlite.rs])

    [slug], [workspace_leaf_from_name] and [repository_leaf] turn text chosen by a user into
    one path segment.  The lemmas here say what such a segment can contain, and what joining
    it to a root does. *)

From S2P Require Import Prelude Order Text Workspace StoreBase.

Local Open Scope N_scope.

(** ** Splitting and joining *)

Lemma split_char_app sep a b :
  split_char sep (a ++ sep :: b) = split_char sep a ++ split_char sep b.
Proof.
  induction a as [|c a IH]; cbn [app split_char]; [by rewrite N.eqb_refl|]. rewrite IH.
  destruct (c =? sep); [done|]. destruct (split_char sep a) eqn:E; [|done].
  by destruct a as [|d a]; cbn in E; repeat case_match.
Qed.

Lemma split_char_none sep s : sep ∉ s → split_char sep s = [s].
Proof.
  induction s as [|c s IH]; [done|]. rewrite not_elem_of_cons. intros [Hc Hs].
  cbn [split_char]. rewrite (IH Hs). destruct (N.eqb_spec c sep); [by subst|done].
Qed.

Lemma elem_of_split_char sep s part c : part ∈ split_char sep s → c ∈ part → c ∈ s.
Proof.
  revert part; induction s as [|d s IH]; intros part; cbn [split_char].
  - intros ->%list_elem_of_singleton. done.
  - destruct (d =? sep).
    + intros [->|Hp]%elem_of_cons; [by intros ?%elem_of_nil|]. intros Hc. right. by eapply IH.
    + destruct (split_char sep s) as [|w l] eqn:E.
      * intros ->%list_elem_of_singleton [->|?%elem_of_nil]%elem_of_cons; [left|done].
      * intros [->|Hp]%elem_of_cons.
        -- intros [->|Hc]%elem_of_cons; [left|]. right. by apply (IH w); [left|].
        -- intros Hc. right. apply (IH part); [by right|done].
Qed.

Lemma elem_of_join sep l c : c ∈ join sep l → c ∈ sep ∨ ∃ part, part ∈ l ∧ c ∈ part.
Proof.
  induction l as [|w l IH]; [by intros ?%elem_of_nil|]. destruct l as [|w' l].
  - cbn. intros Hc. right. exists w. split; [left|done].
  - intros Hc. change (c ∈ w ++ sep ++ join sep (w' :: l)) in Hc.
    rewrite !elem_of_app in Hc. destruct Hc as [Hc|[Hc|Hc]].
    + right. exists w. split; [left|done].
    + by left.
    + destruct (IH Hc) as [?|(part & ? & ?)]; [by left|]. right. exists part. split; [by right|done].
Qed.

(** ** What a leaf is made of *)

(** Lower-case ASCII letters, digits and the hyphen. *)
Definition leaf_char (c : char) : bool := is_ascii_lowercase c || is_ascii_digit c || (c =? 45).

Lemma slug_char_leaf c : leaf_char (slug_char c) = true.
Proof.
  unfold slug_char. destruct (is_ascii_alphanumeric c) eqn:E; [|done].
  unfold is_ascii_alphanumeric, is_ascii_alphabetic, to_ascii_lowercase_char, leaf_char in *.
  destruct (is_ascii_uppercase c) eqn:Eu; [|by rewrite orb_false_l in E; rewrite E].
  unfold is_ascii_uppercase, is_ascii_lowercase, in_range in *. bool_split.
  destruct (N.leb_spec 97 (c + 32)), (N.leb_spec (c + 32) 122); first [done|lia].
Qed.

Lemma slug_leaf s : forallb leaf_char (slug s) = true.
Proof.
  apply forallb_spec. intros c Hc. unfold slug in Hc.
  apply elem_of_join in Hc as [->%list_elem_of_singleton|(part & Hp & Hc)]; [done|].
  apply list_elem_of_filter in Hp as [_ Hp]. apply (elem_of_split_char _ _ _ _ Hp) in Hc.
  apply list_elem_of_fmap in Hc as (d & -> & _). apply slug_char_leaf.
Qed.

Section names.
Context `{LibraryLaws}.

Lemma uuid_leaf id : forallb leaf_char (uuid_to_string id) = true.
Proof.
  pose proof (uuid_to_string_chars id) as Hu. rewrite forallb_spec in *. intros c Hc.
  specialize (Hu c Hc). unfold leaf_char, is_lower_hex, is_ascii_lowercase, in_range in *.
  destruct (is_ascii_digit c), (N.eqb_spec c 45); rewrite ?orb_true_r in *; try done.
  rewrite ?orb_false_l, ?orb_false_r in *. bool_split.
  destruct (N.leb_spec 97 c), (N.leb_spec c 122); first [done|lia].
Qed.

(** ** Leaves *)

Lemma leaf_from_name_chars source id :
  forallb leaf_char (workspace_leaf_from_name source id) = true.
Proof.
  unfold workspace_leaf_from_name. rewrite !forallb_app, uuid_leaf, !andb_true_r.
  destruct (is_empty _); [done|]. apply forallb_spec. intros c Hc.
  pose proof (slug_leaf source) as Hs. rewrite forallb_spec in Hs. apply Hs.
  apply elem_of_take in Hc as (i & Hc & _). by eapply list_elem_of_lookup_2.
Qed.

Lemma repository_leaf_chars label id : forallb leaf_char (repository_leaf label id) = true.
Proof.
  unfold repository_leaf. rewrite !forallb_app, uuid_leaf, !andb_true_r.
  destruct (is_empty _); [done|]. apply slug_leaf.
Qed.

(** A leaf ends with its identifier. *)
Lemma leaf_from_name_inj source source' id id' :
  id < 2 ^ 128 → id' < 2 ^ 128 →
  workspace_leaf_from_name source id = workspace_leaf_from_name source' id' → id = id'.
Proof.
  unfold workspace_leaf_from_name. intros Hi Hi' Heq. rewrite !app_assoc in Heq.
  apply app_inj_2 in Heq as [_ Heq]; [|by rewrite !uuid_to_string_length].
  by apply uuid_to_string_inj.
Qed.

Lemma repository_leaf_inj label label' id id' :
  id < 2 ^ 128 → id' < 2 ^ 128 → repository_leaf label id = repository_leaf label' id' → id = id'.
Proof.
  unfold repository_leaf. intros Hi Hi' Heq. rewrite !app_assoc in Heq.
  apply app_inj_2 in Heq as [_ Heq]; [|by rewrite !uuid_to_string_length].
  by apply uuid_to_string_inj.
Qed.

Lemma leaf_from_name_length source id : (37 ≤ length (workspace_leaf_from_name source id) ≤ 237)%nat.
Proof.
  unfold workspace_leaf_from_name. rewrite !length_app, uuid_to_string_length.
  destruct (is_empty _); [cbn; lia|]. rewrite length_take. cbn [length lit]. lia.
Qed.

Lemma repository_leaf_length label id : (37 ≤ length (repository_leaf label id))%nat.
Proof. unfold repository_leaf. rewrite !length_app, uuid_to_string_length. cbn [length lit]. lia. Qed.
End names.

(** ** Joining a leaf to a path *)

Lemma leaf_no_slash s : forallb leaf_char s = true → 47 ∉ s.
Proof. rewrite forallb_spec. intros Hs Hin. by specialize (Hs _ Hin). Qed.

Lemma leaf_component s : forallb leaf_char s = true → s ≠ [] → segment_component s = [NormalDir s].
Proof.
  intros Hs Hne. unfold segment_component. destruct s as [|c s]; [done|]. cbn [is_empty].
  assert (46 ≠ c) as Hdot by (intros <-; cbn in Hs; done).
  rewrite !bool_decide_eq_false_2; [done|by intros [= ->]..].
Qed.

Lemma is_absolute_cons c s : is_absolute (c :: s) = (47 =? c).
Proof.
  unfold is_absolute, starts_with. change (lit "/") with [47]. cbn [strip_prefix].
  by destruct (47 =? c).
Qed.

Lemma leaf_not_absolute s : forallb leaf_char s = true → is_absolute s = false.
Proof.
  destruct s as [|c s]; [done|]. intros Hs. rewrite is_absolute_cons.
  destruct (N.eqb_spec 47 c) as [<-|]; [discriminate Hs|done].
Qed.

(** Joining a leaf to an absolute path adds exactly one normal component. *)
Lemma path_join_leaf base leaf :
  is_absolute base = true → forallb leaf_char leaf = true → leaf ≠ [] →
  path_components (path_join base leaf) = path_components base ++ [NormalDir leaf].
Proof.
  intros Hb Hl Hne. unfold path_join. rewrite leaf_not_absolute by done.
  assert (∀ s, is_absolute (base ++ s) = true) as Habs.
  { intros s. destruct base as [|c base]; [done|]. cbn [app]. by rewrite is_absolute_cons in *. }
  assert (path_components (base ++ lit "/" ++ leaf) = path_components base ++ [NormalDir leaf]) as Hj.
  { unfold path_components. rewrite Habs, Hb. change (lit "/" ++ leaf) with (47 :: leaf).
    rewrite <- app_assoc.
    rewrite split_char_app, bind_app, (split_char_none 47 leaf) by by apply leaf_no_slash.
    cbn. by rewrite leaf_component. }
  assert (is_empty base = false) as -> by by destruct base. cbn [orb].
  destruct (ends_with (lit "/") base) eqn:E; [|done].
  assert (∃ b, base = b ++ [47]) as [b ->].
  { destruct base as [|c b _] using rev_ind; [done|]. exists b. f_equal.
    unfold ends_with in E. rewrite reverse_snoc in E. change (is_absolute (c :: reverse b) = true) in E.
    rewrite is_absolute_cons in E. by apply N.eqb_eq in E as <-. }
  unfold path_components in *. rewrite Habs, Hb. rewrite <- app_assoc. cbn [app].
  rewrite !split_char_app, !bind_app, (split_char_none 47 leaf) by by apply leaf_no_slash.
  cbn. by rewrite leaf_component, <- !app_assoc by done.
Qed.
