(* ===== verification/StoreSample.v ===== *)
(** * A concrete instance of the store's libraries

    The theorems about the store hold for any [Libraries] that obey [LibraryLaws].  This file
    gives one such instance, so that the theorems can be applied to concrete databases: a
    self-delimiting serialization of the stored records, identifiers in hyphenated hexadecimal
    form, and a toy digest. *)

From S2P Require Import Prelude Order Text Workspace StoreBase.

Local Open Scope N_scope.

(** ** Serialization *)

Class Codec (A : Type) := {
  ser : A → list N;
  de : list N → option (A * list N);
  de_ser a r : de (ser a ++ r) = Some (a, r)
}.

#[export] Instance codec_N : Codec N.
Proof.
  refine {| ser n := [n]; de l := match l with n :: r => Some (n, r) | [] => None end |}.
  done.
Defined.

(** A type in correspondence with a part of one that has a codec. *)
Definition codec_via {A B} `{Codec B} (f : A → B) (g : B → A) (Hgf : ∀ a, g (f a) = a) : Codec A.
Proof.
  refine {| ser a := ser (f a);
            de l := match de l with Some (b, r) => Some (g b, r) | None => None end |}.
  intros a r. by rewrite de_ser, Hgf.
Defined.

#[export] Instance codec_prod {A B} `{Codec A, Codec B} : Codec (A * B).
Proof.
  refine {| ser p := ser p.1 ++ ser p.2;
     de l := match de l with
             | Some (a, r) => match de r with Some (b, r') => Some ((a, b), r') | None => None end
             | None => None
             end |}.
  intros [a b] r. cbn. by rewrite <- app_assoc, !de_ser.
Defined.

#[export] Instance codec_sum {A B} `{Codec A, Codec B} : Codec (A + B).
Proof.
  refine {| ser s := match s with inl a => 0 :: ser a | inr b => 1 :: ser b end;
     de l := match l with
             | 0 :: r => match de r with Some (a, r') => Some (inl a, r') | None => None end
             | _ :: r => match de r with Some (b, r') => Some (inr b, r') | None => None end
             | [] => None
             end |}.
  intros s r. destruct s; cbn; by rewrite de_ser.
Defined.

#[export] Instance codec_unit : Codec () := codec_via (λ _, 0) (λ _, tt) (λ u, match u with tt => eq_refl end).

#[export] Instance codec_option {A} `{Codec A} : Codec (option A) :=
  codec_via (λ o, match o with Some a => inl a | None => inr 0 end)
            (λ s : A + N, match s with inl a => Some a | inr _ => None end)
            (λ o, match o with Some _ => eq_refl | None => eq_refl end).

Fixpoint de_list {A} `{Codec A} (n : nat) (l : list N) : option (list A * list N) :=
  match n with
  | O => Some ([], l)
  | S n' =>
      match de l with
      | Some (a, r) => match de_list n' r with Some (k, r') => Some (a :: k, r') | None => None end
      | None => None
      end
  end.

Lemma de_list_ser {A} `{Codec A} (k : list A) r :
  de_list (length k) ((k ≫= ser) ++ r) = Some (k, r).
Proof. induction k as [|a k IH]; cbn; [done|]. by rewrite <- app_assoc, de_ser, IH. Qed.

#[export] Instance codec_list {A} `{Codec A} : Codec (list A).
Proof.
  refine {| ser k := N.of_nat (length k) :: (k ≫= ser);
     de l := match l with n :: r => de_list (N.to_nat n) r | [] => None end |}.
  intros k r. cbn. rewrite Nat2N.id. apply de_list_ser.
Defined.

#[export] Instance codec_Z : Codec Z.
Proof.
  refine (codec_via (λ z, ((if (z <? 0)%Z then 1 else 0), Z.abs_N z))
                    (λ p, if p.1 =? 1 then (- Z.of_N p.2)%Z else Z.of_N p.2) _).
  intros z. cbn. destruct (Z.ltb_spec z 0); cbn; rewrite N2Z.inj_abs_N; lia.
Defined.

(** ** The stored records *)

#[export] Instance codec_intent : Codec WorkspaceIntent.
Proof.
  refine (codec_via
    (λ i, match i with
          | Jira k => inl k
          | OpenProject n d => inr (inl (n, d))
          | RepositorySet l => inr (inr l)
          end)
    (λ s : str + (N * str + str), match s with
          | inl k => Jira k
          | inr (inl (n, d)) => OpenProject n d
          | inr (inr l) => RepositorySet l
          end) _).
  by intros [].
Defined.

#[export] Instance codec_provider : Codec WorkspaceProvider.
Proof.
  refine (codec_via
    (λ p, match p with Codex => 0 | OpenCode => 1 | Hermes => 2 | VsCode => 3 | Copilot => 4 end)
    (λ n, match n with 0 => Codex | 1 => OpenCode | 2 => Hermes | 3 => VsCode | _ => Copilot end)
    _).
  by intros [].
Defined.

#[export] Instance codec_phase : Codec WorkspacePhase :=
  codec_via (λ _, 0) (λ _, Draft) (λ p, match p with Draft => eq_refl end).

#[export] Instance codec_port : Codec RuntimePortSelection.
Proof.
  refine (codec_via
    (λ p, (ps_port_id p, ps_preferred_port p, match ps_policy p with Prefer => 0 | Fixed => 1 end))
    (λ '(i, n, c), {| ps_port_id := i; ps_preferred_port := n;
                      ps_policy := match c with 0 => Prefer | _ => Fixed end |}) _).
  by intros [? ? []].
Defined.

#[export] Instance codec_service : Codec RuntimeServiceSelection.
Proof.
  refine (codec_via (λ s, (rs_candidate_id s, rs_ports s))
    (λ '(i, p), {| rs_candidate_id := i; rs_ports := p |}) _).
  by intros [].
Defined.

#[export] Instance codec_runtime : Codec RuntimePlanSelection.
Proof.
  refine (codec_via (λ r, (rp_analysis_digest r, rp_services r))
    (λ '(d, s), {| rp_analysis_digest := d; rp_services := s |}) _).
  by intros [].
Defined.

#[export] Instance codec_planning : Codec WorkspacePlanningSelection.
Proof.
  refine (codec_via
    (λ p, (match pl_folder p with Plans => 0 | PlansAndKanban => 1 end,
           match pl_format p with Notes => 0 | Kanban => 1 end))
    (λ '(a, b), {| pl_folder := match a with 0 => Plans | _ => PlansAndKanban end;
                   pl_format := match b with 0 => Notes | _ => Kanban end |}) _).
  by intros [[] []].
Defined.

#[export] Instance codec_plan : Codec WorkspaceRepositoryPlan.
Proof.
  refine (codec_via
    (λ p, (pp_request_id p, pp_repository_id p, pp_label p, pp_base_ref p, pp_worktree_leaf p))
    (λ '(a, b, c, d, e), {| pp_request_id := a; pp_repository_id := b; pp_label := c;
                            pp_base_ref := d; pp_worktree_leaf := e |}) _).
  by intros [].
Defined.

#[export] Instance codec_record : Codec WorkspaceRecord.
Proof.
  refine (codec_via
    (λ r, (wk_schema_version r, wk_workspace_id r, wk_record_version r, wk_intent r, wk_title r,
           wk_display_name r, wk_preferred_provider r, wk_phase r, wk_repositories r,
           wk_runtime r, wk_planning r, wk_workspace_root_id r, wk_workspace_leaf r,
           wk_created_at_unix_ms r, wk_updated_at_unix_ms r))
    (λ '(a, b, c, d, e, f, g, h, i, j, k, l, m, n, o),
       {| wk_schema_version := a; wk_workspace_id := b; wk_record_version := c; wk_intent := d;
          wk_title := e; wk_display_name := f; wk_preferred_provider := g; wk_phase := h;
          wk_repositories := i; wk_runtime := j; wk_planning := k; wk_workspace_root_id := l;
          wk_workspace_leaf := m; wk_created_at_unix_ms := n; wk_updated_at_unix_ms := o |}) _).
  by intros [].
Defined.

#[export] Instance codec_snapshot : Codec StoredWorkItemSnapshot.
Proof.
  refine (codec_via
    (λ s, (ws_issue_key s, ws_summary s, ws_status s, ws_content s, ws_browser_url s,
           ws_fetched_at_unix_ms s))
    (λ '(a, b, c, d, e, f), {| ws_issue_key := a; ws_summary := b; ws_status := c;
       ws_content := d; ws_browser_url := e; ws_fetched_at_unix_ms := f |}) _).
  by intros [].
Defined.

#[export] Instance codec_link : Codec StoredWorkspaceWorkItemLink.
Proof.
  refine (codec_via
    (λ l, (wl_link_id l, wl_workspace_id l,
           match wl_role l with Primary => 0 | Related => 1 | CreatedFromWorkspace => 2 end,
           wl_snapshot l, wl_revision l, wl_created_at_unix_ms l, wl_updated_at_unix_ms l))
    (λ '(a, b, c, d, e, f, g),
       {| wl_link_id := a; wl_workspace_id := b; wl_provider := JiraProvider;
          wl_role := match c with 0 => Primary | 1 => Related | _ => CreatedFromWorkspace end;
          wl_snapshot := d; wl_revision := e; wl_created_at_unix_ms := f;
          wl_updated_at_unix_ms := g |}) _).
  by intros [? ? [] []].
Defined.

Definition decode_all {A} `{Codec A} (s : str) : result A str :=
  match de s with Some (a, []) => Ok a | _ => Err (lit "invalid") end.

Lemma decode_all_ser {A} `{Codec A} (a : A) : decode_all (ser a) = Ok a.
Proof. unfold decode_all. by rewrite <- (app_nil_r (ser a)), de_ser. Qed.

(** ** Identifiers *)

Definition hex_digit (n : N) : char := if n <? 10 then 48 + n else 87 + n.

Fixpoint hex_digits (k : nat) (n : N) : str :=
  match k with
  | O => []
  | S k' => hex_digits k' (n / 16) ++ [hex_digit (n mod 16)]
  end.

Definition sample_uuid_to_string (id : Uuid) : str :=
  let h := hex_digits 32 id in
  take 8 h ++ [45] ++ take 4 (drop 8 h) ++ [45] ++ take 4 (drop 12 h) ++ [45] ++
  take 4 (drop 16 h) ++ [45] ++ drop 20 h.

Lemma length_hex_digits k n : length (hex_digits k n) = k.
Proof. revert n; induction k as [|k IH]; intros n; cbn; [done|]. rewrite length_app, IH. cbn. lia. Qed.

Lemma hex_digit_lower n : n < 16 → is_lower_hex (hex_digit n) = true.
Proof. revert n. by apply forallb_below. Qed.

Lemma hex_digits_lower k n : forallb is_lower_hex (hex_digits k n) = true.
Proof.
  revert n; induction k as [|k IH]; intros n; cbn; [done|].
  rewrite forallb_app, IH. cbn. by rewrite hex_digit_lower by (apply N.mod_lt; lia).
Qed.

Lemma forallb_take {A} (f : A → bool) n l : forallb f l = true → forallb f (take n l) = true.
Proof. rewrite !forallb_spec. intros H x Hx. apply H. apply elem_of_take in Hx as (i & ? & _). by eapply list_elem_of_lookup_2. Qed.

Lemma forallb_drop {A} (f : A → bool) n l : forallb f l = true → forallb f (drop n l) = true.
Proof. rewrite !forallb_spec. intros H x Hx. apply H. rewrite <- (take_drop n l). apply elem_of_app. by right. Qed.

Lemma hex_digits_inj k a b : a < 16 ^ N.of_nat k → b < 16 ^ N.of_nat k →
  hex_digits k a = hex_digits k b → a = b.
Proof.
  revert a b; induction k as [|k IH]; intros a b Ha Hb; [cbn in *; lia|].
  cbn [hex_digits]. intros [Hd Hc]%app_inj_tail.
  rewrite Nat2N.inj_succ, N.pow_succ_r' in Ha, Hb.
  apply IH in Hd; [|apply N.Div0.div_lt_upper_bound; lia..].
  rewrite (N.div_mod' a 16), (N.div_mod' b 16), Hd. f_equal.
  pose proof (N.mod_lt a 16). pose proof (N.mod_lt b 16). unfold hex_digit in Hc.
  destruct (N.ltb_spec (a mod 16) 10), (N.ltb_spec (b mod 16) 10); lia.
Qed.

(** The hyphenated form determines the digits. *)
Lemma hyphens_inj (h h' : str) : length h = length h' →
  take 8 h ++ [45] ++ take 4 (drop 8 h) ++ [45] ++ take 4 (drop 12 h) ++ [45] ++
    take 4 (drop 16 h) ++ [45] ++ drop 20 h =
  take 8 h' ++ [45] ++ take 4 (drop 8 h') ++ [45] ++ take 4 (drop 12 h') ++ [45] ++
    take 4 (drop 16 h') ++ [45] ++ drop 20 h' → h = h'.
Proof.
  intros Hlen Heq.
  assert (∀ k : str, k = take 8 k ++ take 4 (drop 8 k) ++ take 4 (drop 12 k) ++
    take 4 (drop 16 k) ++ drop 20 k) as Hform.
  { intros k. change (drop 20 k) with (drop (16 + 4) k). rewrite <- (drop_drop k 4 16), take_drop.
    change (drop 16 k) with (drop (12 + 4) k). rewrite <- (drop_drop k 4 12), take_drop.
    change (drop 12 k) with (drop (8 + 4) k). by rewrite <- (drop_drop k 4 8), !take_drop. }
  assert (∀ n m (x y : str), take m (drop n h) ++ [45] ++ x = take m (drop n h') ++ [45] ++ y →
    take m (drop n h) = take m (drop n h') ∧ x = y) as Hstep.
  { intros n m x y [H1 H2]%app_inj_1; [|by rewrite !length_take, !length_drop, Hlen].
    by injection H2. }
  apply (Hstep 0%nat) in Heq as [H8 Heq]. apply Hstep in Heq as [H12 Heq].
  apply Hstep in Heq as [H16 Heq]. apply Hstep in Heq as [H20 Heq].
  change (take 8 h = take 8 h') in H8. by rewrite (Hform h), (Hform h'), H8, H12, H16, H20, Heq.
Qed.

(** ** The instance *)

Definition sample_parse (s : str) : option Uuid :=
  if is_empty s || negb (forallb is_ascii_digit s) then None else Some (digits_value s).

#[export] Instance sample_libraries : Libraries :=
  {| to_lowercase := to_ascii_lowercase;
     uuid_to_string := sample_uuid_to_string;
     uuid_parse_str := sample_parse;
     record_to_json := ser;
     record_from_json := decode_all;
     request_to_json r := ser (cr_title r) ++ ser (cr_intent r);
     link_to_json := ser;
     link_from_json := decode_all;
     json_is_value := λ s, negb (is_empty s);
     sha256_hex := λ bytes, take 64 (((λ b, 97 + b mod 6) <$> bytes) ++ replicate 64 48) |}.

#[export] Instance sample_library_laws : LibraryLaws.
Proof.
  constructor.
  - intros r. apply decode_all_ser.
  - intros l. apply decode_all_ser.
  - intros id. cbn [uuid_to_string sample_libraries]. unfold sample_uuid_to_string.
    rewrite !length_app, !length_take, !length_drop, length_hex_digits. reflexivity.
  - intros id. cbn [uuid_to_string sample_libraries]. unfold sample_uuid_to_string.
    assert (forallb (λ c, is_lower_hex c || (c =? 45)) (hex_digits 32 id) = true) as Hh.
    { pose proof (hex_digits_lower 32 id) as H. rewrite forallb_spec in *. intros c Hc.
      by rewrite (H c Hc). }
    rewrite !forallb_app, !forallb_take, forallb_drop by (by try apply forallb_drop).
    reflexivity.
  - intros a b Ha Hb Heq. apply (hex_digits_inj 32); [done..|].
    apply hyphens_inj; [by rewrite !length_hex_digits|exact Heq].
  - intros bytes. cbn [sha256_hex sample_libraries].
    rewrite length_take, length_app, length_fmap, length_replicate. lia.
  - intros bytes. cbn [sha256_hex sample_libraries]. apply forallb_take.
    rewrite forallb_app. apply andb_true_intro. split; [|by vm_compute].
    apply forallb_spec. intros c (b & -> & _)%list_elem_of_fmap.
    assert (b mod 6 < 6) as Hlt by by apply N.mod_lt. revert Hlt. generalize (b mod 6).
    by apply forallb_below.
Qed.
