(* ===== verification/StoreBoard.v ===== *)
(** * Workflow lanes and board placement ([crates/wts-store/src/sqlite.rs])

    [transition_workflow], [place_workspace_on_board] and [follow_workspace_agent]: moves of
    a workspace between the four lanes of the board.  The order of a lane is the order of
    [lane_rank], and every change carries the revision it was decided on. *)

From S2P Require Import Prelude Order Text Workspace StoreBase.

Local Open Scope N_scope.

Record TransitionWorkspaceWorkflowRequest := {
  tq_state : WorkspaceWorkflowState;
  tq_expected_revision : N
}.

Record PlaceWorkspaceOnBoardRequest := {
  pq_state : WorkspaceWorkflowState;
  pq_expected_revision : N;
  pq_before_workspace_id : option Uuid;
  pq_after_workspace_id : option Uuid
}.

Record FollowWorkspaceAgentRequest := { fq_expected_revision : N }.

Definition WORKFLOW_EVENT_TYPE : str := lit "workspace.workflow-transitioned.v1".
Definition BOARD_PLACED_EVENT_TYPE : str := lit "workspace.board-placed.v1".
Definition BOARD_FOLLOW_AGENT_EVENT_TYPE : str := lit "workspace.board-follow-agent.v1".
Definition BOARD_AUTO_TRANSITIONED_EVENT_TYPE : str := lit "workspace.board-auto-transitioned.v1".

(** ** Storage of the enumerations *)

Definition board_placement_mode_storage (mode : WorkspaceBoardPlacementMode) : str :=
  match mode with
  | Automatic => lit "automatic"
  | Pinned => lit "pinned"
  end.

Definition board_placement_mode_from_storage (mode : str) :
    result WorkspaceBoardPlacementMode WorkspaceStoreError :=
  if bool_decide (mode = lit "automatic") then Ok Automatic
  else if bool_decide (mode = lit "pinned") then Ok Pinned
  else Err (CorruptRecord (lit "workspace board placement mode is invalid")).

Definition workflow_state_storage (state : WorkspaceWorkflowState) : str :=
  match state with
  | Ready => lit "ready"
  | Active => lit "active"
  | Review => lit "review"
  | Parked => lit "parked"
  end.

Definition workflow_state_from_storage (state : str) :
    result WorkspaceWorkflowState WorkspaceStoreError :=
  if bool_decide (state = lit "ready") then Ok Ready
  else if bool_decide (state = lit "active") then Ok Active
  else if bool_decide (state = lit "review") then Ok Review
  else if bool_decide (state = lit "parked") then Ok Parked
  else Err (CorruptRecord (lit "workspace workflow state is invalid")).

(** ** Reads *)

Definition load_workflow (board : BoardTables) (workspace_id : Uuid) :
    result WorkspaceWorkflowSummary WorkspaceStoreError :=
  let? (workflow, placement) :=
    ok_or
      (match bt_workflow board !! workspace_id, bt_placement board !! workspace_id with
       | Some workflow, Some placement => Some (workflow, placement)
       | _, _ => None
       end) (CorruptRecord (lit "workspace workflow projection is missing")) in
  let? revision :=
    ok_or (u64_try_from (wr_workflow_revision workflow))
      (CorruptRecord (lit "workspace workflow revision is invalid")) in
  let? rank :=
    ok_or (u64_try_from (pl_lane_rank placement))
      (CorruptRecord (lit "workspace board rank is invalid")) in
  ensure guard_err ((revision =? 0) || (wr_updated_at_unix_ms workflow <? 0)%Z)
           (CorruptRecord (lit "workspace workflow projection is invalid")) in
  let? state := workflow_state_from_storage (wr_state workflow) in
  let? mode := board_placement_mode_from_storage (pl_mode placement) in
  Ok {| wf_state := state; wf_revision := revision;
        wf_updated_at_unix_ms := wr_updated_at_unix_ms workflow;
        wf_placement := {| bp_mode := mode; bp_rank := rank |} |}.

(** The rows of [load_lane_workspace_ids] before they are ordered. *)
Definition lane_row (db : Database) (state : WorkspaceWorkflowState)
    (excluded_workspace_id : option Uuid) (row : Uuid * WorkflowRow) : option (Z * Uuid) :=
  let '(workspace_id, workflow) := row in
  if bool_decide (wr_state workflow = workflow_state_storage state)
     && bool_decide (excluded_workspace_id ≠ Some workspace_id)
     && negb (is_tombstoned db workspace_id)
  then (λ placement, (pl_lane_rank placement, workspace_id))
         <$> bt_placement (db_board db) !! workspace_id
  else None.

Definition lane_order : Z * Uuid → Z * Uuid → comparison := pair_cmp Z.compare N.compare.

Definition load_lane_workspace_ids (db : Database) (state : WorkspaceWorkflowState)
    (excluded_workspace_id : option Uuid) : list Uuid :=
  snd <$> sort_by lane_order
    (omap (lane_row db state excluded_workspace_id) (map_to_list (bt_workflow (db_board db)))).

(** ** Writes *)

Definition set_placement (board : BoardTables) (rows : gmap Uuid PlacementRow) : BoardTables :=
  {| bt_workflow_events := bt_workflow_events board; bt_workflow := bt_workflow board;
     bt_board_events := bt_board_events board; bt_placement := rows |}.

(** One turn of the loop of [apply_lane_order]: [UPDATE .. WHERE workspace_id = ?3]. *)
Definition apply_lane_rank (updated_at_unix_ms : Z) (rank : nat) (rows : gmap Uuid PlacementRow)
    (workspace_id : Uuid) : result (gmap Uuid PlacementRow) WorkspaceStoreError :=
  let? rank :=
    ok_or (i64_try_from (N.of_nat rank)) (CorruptRecord (lit "workspace board rank overflowed")) in
  let? row :=
    ok_or (rows !! workspace_id)
      (CorruptRecord (lit "workspace board placement projection is missing")) in
  Ok (<[workspace_id := {| pl_mode := pl_mode row; pl_lane_rank := rank;
                           pl_updated_at_unix_ms := updated_at_unix_ms |}]> rows).

Definition apply_lane_order (board : BoardTables) (workspace_ids : list Uuid)
    (updated_at_unix_ms : Z) : result BoardTables WorkspaceStoreError :=
  let? rows := try_fold_i (apply_lane_rank updated_at_unix_ms) 0 (bt_placement board)
                 workspace_ids in
  Ok (set_placement board rows).

(** [INSERT INTO workspace_workflow_events], with the constraints of the table. *)
Definition insert_workflow_event (db : Database) (row : WorkflowEventRow) :
    result Database WorkspaceStoreError :=
  let board := db_board db in
  ensure guard_err
    (existsb (λ r, (we_event_id r =? we_event_id row) ||
       ((we_workspace_id r =? we_workspace_id row) &&
        (we_workflow_revision r =? we_workflow_revision row)%Z)) (bt_workflow_events board))
    DatabaseError in
  ensure guard_err
    (negb (existsb (λ r, ce_workspace_id r =? we_workspace_id row) (db_created_events db)) ||
     (we_workflow_revision row <=? 1)%Z || (we_created_at_unix_ms row <? 0)%Z) DatabaseError in
  Ok (set_board db
    {| bt_workflow_events := bt_workflow_events board ++ [row];
       bt_workflow := bt_workflow board; bt_board_events := bt_board_events board;
       bt_placement := bt_placement board |}).

(** [INSERT INTO workspace_board_placement_events]. *)
Definition insert_board_event (db : Database) (row : BoardEventRow) :
    result Database WorkspaceStoreError :=
  let board := db_board db in
  ensure guard_err
    (existsb (λ r, (be_event_id r =? be_event_id row) ||
       ((be_workspace_id r =? be_workspace_id row) &&
        (be_workflow_revision r =? be_workflow_revision row)%Z)) (bt_board_events board))
    DatabaseError in
  ensure guard_err
    (negb (existsb (λ r, ce_workspace_id r =? be_workspace_id row) (db_created_events db)) ||
     (be_workflow_revision row <=? 1)%Z || (be_created_at_unix_ms row <? 0)%Z ||
     (be_from_rank row <? 0)%Z || (be_to_rank row <? 0)%Z) DatabaseError in
  Ok (set_board db
    {| bt_workflow_events := bt_workflow_events board; bt_workflow := bt_workflow board;
       bt_board_events := bt_board_events board ++ [row]; bt_placement := bt_placement board |}).

(** [UPDATE workspace_workflow_projection .. AND workflow_revision = ?5]. *)
Definition update_workflow (db : Database) (workspace_id : Uuid) (expected : Z) (row : WorkflowRow) :
    result Database WorkspaceStoreError :=
  let board := db_board db in
  match bt_workflow board !! workspace_id with
  | Some current =>
      if (wr_workflow_revision current =? expected)%Z then
        Ok (set_board db
          {| bt_workflow_events := bt_workflow_events board;
             bt_workflow := <[workspace_id := row]> (bt_workflow board);
             bt_board_events := bt_board_events board; bt_placement := bt_placement board |})
      else Err (CorruptRecord (lit "workspace workflow projection changed during its transaction"))
  | None => Err (CorruptRecord (lit "workspace workflow projection changed during its transaction"))
  end.

(** [UPDATE workspace_board_placement_projection SET mode, lane_rank, updated_at_unix_ms]. *)
Definition update_placement (db : Database) (workspace_id : Uuid) (row : PlacementRow) :
    result Database WorkspaceStoreError :=
  ensure guard_err (bool_decide (bt_placement (db_board db) !! workspace_id = None))
           (CorruptRecord (lit "workspace board placement projection is missing")) in
  Ok (set_board db
        (set_placement (db_board db) (<[workspace_id := row]> (bt_placement (db_board db))))).

(** [workflow_event_id] and [board_event_id] are the identifiers the operation draws. *)
Definition persist_workflow_change (db : Database) (workspace_id : Uuid)
    (current : WorkspaceWorkflowSummary) (target_state : WorkspaceWorkflowState)
    (target_mode : WorkspaceBoardPlacementMode) (target_rank : N) (board_event_type : str)
    (updated_at_unix_ms : Z) (workflow_event_id board_event_id : Uuid) :
    result (Database * WorkspaceWorkflowSummary) WorkspaceStoreError :=
  let? revision :=
    ok_or (checked_add_u64 (wf_revision current) 1)
      (CorruptRecord (lit "workspace workflow revision overflowed")) in
  let? revision_i64 :=
    ok_or (i64_try_from revision)
      (CorruptRecord (lit "workspace workflow revision exceeds SQLite integer range")) in
  let? target_rank_i64 :=
    ok_or (i64_try_from target_rank)
      (CorruptRecord (lit "workspace board rank exceeds SQLite range")) in
  let? db :=
    if bool_decide (wf_state current ≠ target_state) then
      insert_workflow_event db
        {| we_event_id := workflow_event_id; we_workspace_id := workspace_id;
           we_from_state := wf_state current; we_to_state := target_state;
           we_workflow_revision := revision_i64; we_created_at_unix_ms := updated_at_unix_ms |}
    else Ok db in
  let? from_rank :=
    ok_or (i64_try_from (bp_rank (wf_placement current)))
      (CorruptRecord (lit "workspace board rank exceeds SQLite range")) in
  let? db :=
    insert_board_event db
      {| be_event_id := board_event_id; be_workspace_id := workspace_id;
         be_event_type := board_event_type;
         be_from_state := wf_state current; be_to_state := target_state;
         be_from_mode := bp_mode (wf_placement current); be_to_mode := target_mode;
         be_from_rank := from_rank; be_to_rank := target_rank_i64;
         be_workflow_revision := revision_i64; be_created_at_unix_ms := updated_at_unix_ms |} in
  let? expected :=
    ok_or (i64_try_from (wf_revision current))
      (CorruptRecord (lit "workspace workflow revision exceeds SQLite integer range")) in
  let? db :=
    update_workflow db workspace_id expected
      {| wr_state := workflow_state_storage target_state;
         wr_workflow_revision := revision_i64;
         wr_updated_at_unix_ms := updated_at_unix_ms |} in
  let? db :=
    update_placement db workspace_id
      {| pl_mode := board_placement_mode_storage target_mode; pl_lane_rank := target_rank_i64;
         pl_updated_at_unix_ms := updated_at_unix_ms |} in
  Ok (db, {| wf_state := target_state; wf_revision := revision;
             wf_updated_at_unix_ms := updated_at_unix_ms;
             wf_placement := {| bp_mode := target_mode; bp_rank := target_rank |} |}).

Section operations.
Context `{Libraries}.

(** The clock and the identifiers one operation draws. *)
Record BoardInputs := {
  in_clock : option N;
  in_workflow_event_id : Uuid;
  in_board_event_id : Uuid
}.

(** The checks every board operation starts with. *)
Definition load_expected (db : Database) (workspace_id : Uuid) (expected_revision : N) :
    result WorkspaceWorkflowSummary WorkspaceStoreError :=
  ensure require_workspace db workspace_id in
  let? current := load_workflow (db_board db) workspace_id in
  ensure guard_err (negb (expected_revision =? wf_revision current))
           (WorkspaceWorkflowConflict expected_revision (wf_revision current)) in
  Ok current.

(** The source lane closes up when the workspace leaves it. *)
Definition leave_lane (db : Database) (workspace_id : Uuid) (state : WorkspaceWorkflowState)
    (updated_at_unix_ms : Z) : result Database WorkspaceStoreError :=
  let source := load_lane_workspace_ids db state (Some workspace_id) in
  let? board := apply_lane_order (db_board db) source updated_at_unix_ms in
  Ok (set_board db board).

Definition transition_workflow_body (db : Database) (workspace_id : Uuid)
    (request : TransitionWorkspaceWorkflowRequest) (inputs : BoardInputs) :
    result (Database * WorkspaceWorkflowSummary) WorkspaceStoreError :=
  let? current := load_expected db workspace_id (tq_expected_revision request) in
  if bool_decide (bp_mode (wf_placement current) = Pinned)
     || bool_decide (tq_state request = wf_state current)
  then Ok (db, current)
  else
    let? updated_at_unix_ms := unix_time_ms (in_clock inputs) in
    let? db :=
      if bool_decide (wf_state current ≠ tq_state request)
      then leave_lane db workspace_id (wf_state current) updated_at_unix_ms
      else Ok db in
    let target :=
      load_lane_workspace_ids db (tq_state request) (Some workspace_id) ++ [workspace_id] in
    let? board := apply_lane_order (db_board db) target updated_at_unix_ms in
    let target_rank := N.of_nat (length target - 1) in
    persist_workflow_change (set_board db board) workspace_id current (tq_state request)
      Automatic target_rank BOARD_AUTO_TRANSITIONED_EVENT_TYPE updated_at_unix_ms
      (in_workflow_event_id inputs) (in_board_event_id inputs).

Definition transition_workflow (db : Database) (workspace_id : Uuid)
    (request : TransitionWorkspaceWorkflowRequest) (inputs : BoardInputs) :
    Database * result WorkspaceWorkflowSummary WorkspaceStoreError :=
  transact db (transition_workflow_body db workspace_id request inputs).

Definition position (x : Uuid) (l : list Uuid) : option nat :=
  fst <$> list_find (λ y, y = x) l.

Definition placement_anchor (request : PlaceWorkspaceOnBoardRequest) : option Uuid :=
  match pq_before_workspace_id request with
  | Some anchor => Some anchor
  | None => pq_after_workspace_id request
  end.

Definition insertion_index (request : PlaceWorkspaceOnBoardRequest) (target : list Uuid) :
    result nat WorkspaceStoreError :=
  match placement_anchor request with
  | Some anchor =>
      let? index := ok_or (position anchor target) InvalidWorkspaceBoardPlacement in
      Ok (if bool_decide (is_Some (pq_after_workspace_id request)) then S index else index)
  | None => Ok (length target)
  end.

Definition place_workspace_on_board_body (db : Database) (workspace_id : Uuid)
    (request : PlaceWorkspaceOnBoardRequest) (inputs : BoardInputs) :
    result (Database * WorkspaceWorkflowSummary) WorkspaceStoreError :=
  ensure guard_err (bool_decide (is_Some (pq_before_workspace_id request)) &&
                    bool_decide (is_Some (pq_after_workspace_id request)))
           InvalidWorkspaceBoardPlacement in
  ensure guard_err
           (match placement_anchor request with
            | Some anchor => is_nil anchor || (anchor =? workspace_id)
            | None => false
            end) InvalidWorkspaceBoardPlacement in
  let? current := load_expected db workspace_id (pq_expected_revision request) in
  let target := load_lane_workspace_ids db (pq_state request) (Some workspace_id) in
  let? index := insertion_index request target in
  let target := take index target ++ workspace_id :: drop index target in
  let? updated_at_unix_ms := unix_time_ms (in_clock inputs) in
  let? db :=
    if bool_decide (wf_state current ≠ pq_state request)
    then leave_lane db workspace_id (wf_state current) updated_at_unix_ms
    else Ok db in
  let? board := apply_lane_order (db_board db) target updated_at_unix_ms in
  persist_workflow_change (set_board db board) workspace_id current (pq_state request)
    Pinned (N.of_nat index) BOARD_PLACED_EVENT_TYPE updated_at_unix_ms
    (in_workflow_event_id inputs) (in_board_event_id inputs).

Definition place_workspace_on_board (db : Database) (workspace_id : Uuid)
    (request : PlaceWorkspaceOnBoardRequest) (inputs : BoardInputs) :
    Database * result WorkspaceWorkflowSummary WorkspaceStoreError :=
  transact db (place_workspace_on_board_body db workspace_id request inputs).

Definition follow_workspace_agent_body (db : Database) (workspace_id : Uuid)
    (request : FollowWorkspaceAgentRequest) (inputs : BoardInputs) :
    result (Database * WorkspaceWorkflowSummary) WorkspaceStoreError :=
  let? current := load_expected db workspace_id (fq_expected_revision request) in
  if bool_decide (bp_mode (wf_placement current) = Automatic) then Ok (db, current)
  else
    let? updated_at_unix_ms := unix_time_ms (in_clock inputs) in
    persist_workflow_change db workspace_id current (wf_state current) Automatic
      (bp_rank (wf_placement current)) BOARD_FOLLOW_AGENT_EVENT_TYPE updated_at_unix_ms
      (in_workflow_event_id inputs) (in_board_event_id inputs).

Definition follow_workspace_agent (db : Database) (workspace_id : Uuid)
    (request : FollowWorkspaceAgentRequest) (inputs : BoardInputs) :
    Database * result WorkspaceWorkflowSummary WorkspaceStoreError :=
  transact db (follow_workspace_agent_body db workspace_id request inputs).
End operations.

(** ** Storage round trips *)

Lemma workflow_state_round_trip state :
  workflow_state_from_storage (workflow_state_storage state) = Ok state.
Proof. by destruct state. Qed.

Lemma board_mode_round_trip mode :
  board_placement_mode_from_storage (board_placement_mode_storage mode) = Ok mode.
Proof. by destruct mode. Qed.

Lemma workflow_state_from_storage_Ok text state :
  workflow_state_from_storage text = Ok state → text = workflow_state_storage state.
Proof.
  unfold workflow_state_from_storage. intros H.
  repeat (case_bool_decide; [by injection H as <-|]). done.
Qed.

#[export] Instance workflow_state_storage_inj : Inj (=) (=) workflow_state_storage.
Proof.
  intros s t H. assert (Ok s = (Ok t : result _ WorkspaceStoreError)) as Hst; [|by injection Hst].
  by rewrite <- !workflow_state_round_trip, H.
Qed.

(** ** The order of a lane *)

(** A workspace of the lane: its rows, and no tombstone. *)
Definition in_lane (db : Database) (state : WorkspaceWorkflowState) (workspace_id : Uuid) : Prop :=
  (∃ workflow, bt_workflow (db_board db) !! workspace_id = Some workflow ∧
     wr_state workflow = workflow_state_storage state) ∧
  is_Some (bt_placement (db_board db) !! workspace_id) ∧
  is_tombstoned db workspace_id = false.

Definition rank_of (db : Database) (workspace_id : Uuid) : Z :=
  default 0%Z (pl_lane_rank <$> bt_placement (db_board db) !! workspace_id).

(** [load_lane_workspace_ids] puts [x] before [y]. *)
Definition lane_before (db : Database) (x y : Uuid) : Prop :=
  lane_order (rank_of db x, x) (rank_of db y, y) ≠ Gt.

Lemma lane_row_Some db state excluded row entry :
  lane_row db state excluded row = Some entry →
  entry = (rank_of db row.1, row.1).
Proof.
  destruct row as [id workflow]. unfold lane_row, rank_of; cbn [fst]. destruct (_ && _); [|done].
  intros (p & Hp & ->)%fmap_Some. by rewrite Hp.
Qed.

Lemma lane_rows_ids db state excluded (l : list (Uuid * WorkflowRow)) :
  omap (lane_row db state excluded) l =
  (λ id, (rank_of db id, id)) <$> (snd <$> omap (lane_row db state excluded) l).
Proof.
  induction l as [|row l IH]; [done|]. cbn.
  destruct (lane_row db state excluded row) as [entry|] eqn:E; [|exact IH].
  cbn. rewrite <- IH. apply lane_row_Some in E. by subst.
Qed.

Lemma lane_rows_fst db state excluded (l : list (Uuid * WorkflowRow)) :
  sublist (snd <$> omap (lane_row db state excluded) l) (fst <$> l).
Proof.
  induction l as [|row l IH]; [constructor|]. cbn.
  destruct (lane_row db state excluded row) as [entry|] eqn:E; [|by constructor].
  apply lane_row_Some in E as ->. cbn. by constructor.
Qed.

Lemma NoDup_lane_rows db state excluded :
  NoDup (snd <$> omap (lane_row db state excluded) (map_to_list (bt_workflow (db_board db)))).
Proof.
  eapply sublist_NoDup; [|apply lane_rows_fst]. apply NoDup_fst_map_to_list.
Qed.

Lemma elem_of_lane db state excluded id :
  id ∈ load_lane_workspace_ids db state excluded ↔
  in_lane db state id ∧ excluded ≠ Some id.
Proof.
  unfold load_lane_workspace_ids, in_lane.
  rewrite sort_by_perm, list_elem_of_fmap. setoid_rewrite list_elem_of_omap. split.
  - intros (entry & Hid & [id' row] & Hin & Hrow). pose proof (lane_row_Some _ _ _ _ _ Hrow) as He.
    subst entry. cbn in Hid. subst id'. apply elem_of_map_to_list in Hin.
    unfold lane_row in Hrow. destruct (_ && _) eqn:E; [|done]. bool_split.
    apply fmap_Some in Hrow as (p & Hp & _). split_and!; [eauto|by rewrite Hp|done|done].
  - intros (((row & Hrow & Hst) & [p Hp] & Ht) & He).
    exists (pl_lane_rank p, id). split; [done|]. exists (id, row).
    rewrite elem_of_map_to_list. split; [done|]. unfold lane_row.
    rewrite (bool_decide_eq_true_2 _ Hst), (bool_decide_eq_true_2 _ He), Ht, Hp. done.
Qed.

Lemma NoDup_lane db state excluded : NoDup (load_lane_workspace_ids db state excluded).
Proof.
  unfold load_lane_workspace_ids. rewrite sort_by_perm. apply NoDup_lane_rows.
Qed.

#[export] Instance lane_order_total : TotalCmp lane_order.
Proof. unfold lane_order. apply _. Qed.

(** A lane is determined by its members and their ranks. *)
Lemma lane_unique db state excluded l :
  NoDup l →
  (∀ id, id ∈ l ↔ in_lane db state id ∧ excluded ≠ Some id) →
  StronglySorted (lane_before db) l →
  load_lane_workspace_ids db state excluded = l.
Proof.
  intros Hnd Hin Hs. unfold load_lane_workspace_ids. rewrite lane_rows_ids.
  set (ids := snd <$> omap _ _).
  assert (ids ≡ₚ l) as Hp.
  { apply NoDup_Permutation; [apply NoDup_lane_rows|done|]. intros id. rewrite Hin, <- elem_of_lane.
    unfold load_lane_workspace_ids. by rewrite sort_by_perm. }
  rewrite Hp, (sort_by_id lane_order).
  - rewrite <- list_fmap_compose. apply list_fmap_id.
  - clear -Hs. induction Hs as [|x l _ IH Hx]; [constructor|]. cbn. constructor; [done|].
    apply Forall_fmap. eapply Forall_impl; [exact Hx|]. done.
Qed.

Lemma lane_sorted db state excluded :
  StronglySorted (lane_before db) (load_lane_workspace_ids db state excluded).
Proof.
  unfold load_lane_workspace_ids. rewrite lane_rows_ids.
  set (ids := snd <$> omap _ _).
  pose proof (sort_by_sorted lane_order ((λ id, (rank_of db id, id)) <$> ids)) as Hs.
  assert (Forall (λ e, e = (rank_of db e.2, e.2))
    (sort_by lane_order ((λ id, (rank_of db id, id)) <$> ids))) as Hf.
  { rewrite sort_by_perm. apply Forall_fmap. by apply Forall_true. }
  induction Hs as [|x l _ IH Hx]; [constructor|]. apply Forall_cons in Hf as [Hx' Hl].
  cbn. constructor; [by apply IH|]. apply Forall_fmap. rewrite Forall_forall in *.
  intros y Hy. unfold lane_before; cbn. rewrite <- Hx', <- (Hl y Hy). by apply Hx.
Qed.

(** Two databases with the same members and the same order have the same lane. *)
Lemma lane_ext db db' state excluded excluded' :
  (∀ id, in_lane db state id ∧ excluded ≠ Some id ↔ in_lane db' state id ∧ excluded' ≠ Some id) →
  (∀ id, in_lane db state id → excluded ≠ Some id → rank_of db id = rank_of db' id) →
  load_lane_workspace_ids db state excluded = load_lane_workspace_ids db' state excluded'.
Proof.
  intros Hin Hr. symmetry. apply lane_unique; [apply NoDup_lane| |].
  - intros id. by rewrite elem_of_lane, Hin.
  - pose proof (lane_sorted db state excluded) as Hs.
    assert (Forall (λ id, rank_of db id = rank_of db' id)
      (load_lane_workspace_ids db state excluded)) as Hf.
    { apply Forall_forall. intros id [? ?]%elem_of_lane. by apply Hr. }
    induction Hs as [|x l _ IH Hx]; [constructor|]. apply Forall_cons in Hf as [Hx' Hl].
    constructor; [by apply IH|]. rewrite Forall_forall in *. intros y Hy.
    unfold lane_before. rewrite <- Hx', <- (Hl y Hy). by apply Hx.
Qed.

(** ** Writes, on every row *)

Definition ranked (row : PlacementRow) (rank : nat) (t : Z) : PlacementRow :=
  {| pl_mode := pl_mode row; pl_lane_rank := Z.of_nat rank; pl_updated_at_unix_ms := t |}.

Lemma apply_lane_ranks t k rows ids rows' :
  NoDup ids → try_fold_i (apply_lane_rank t) k rows ids = Ok rows' →
  (∀ i id, ids !! i = Some id →
     ∃ row, rows !! id = Some row ∧ rows' !! id = Some (ranked row (k + i) t)) ∧
  (∀ id, id ∉ ids → rows' !! id = rows !! id).
Proof.
  revert k rows; induction ids as [|w ids IH]; intros k rows Hnd H.
  { injection H as <-. split; [by intros i id ?|done]. }
  apply NoDup_cons in Hnd as [Hw Hnd]. cbn in H. apply rbind_Ok in H as (rows1 & H1 & H).
  unfold apply_lane_rank in H1. apply rbind_Ok in H1 as (z & Hz & H1).
  apply rbind_Ok in H1 as (row & Hrow & H1). injection H1 as <-.
  assert (z = Z.of_nat k) as ->.
  { destruct (i64_try_from _) eqn:E; [|done]. injection Hz as ->.
    apply i64_try_from_Some in E as [-> _]. lia. }
  destruct (rows !! w) as [row0|] eqn:Erow; [|done]. injection Hrow as ->.
  destruct (IH _ _ Hnd H) as [Hi Ho]. split.
  - intros [|i] id Hid; cbn in Hid.
    + injection Hid as <-. exists row. split; [done|]. rewrite Ho by done.
      rewrite lookup_insert_eq. unfold ranked. by rewrite Nat.add_0_r.
    + destruct (Hi i id Hid) as (row1 & Hr1 & Hr2). exists row1.
      rewrite lookup_insert_ne in Hr1; [|intros ->; by apply list_elem_of_lookup_2 in Hid].
      by rewrite Nat.add_succ_r.
  - intros id Hid. apply not_elem_of_cons in Hid as [? ?]. rewrite Ho by done.
    by rewrite lookup_insert_ne.
Qed.

(** [apply_lane_order] numbers the given workspaces and leaves every other row alone. *)
Lemma apply_lane_order_spec board ids t board' :
  NoDup ids → apply_lane_order board ids t = Ok board' →
  board' = set_placement board (bt_placement board') ∧
  (∀ i id, ids !! i = Some id →
     ∃ row, bt_placement board !! id = Some row ∧
            bt_placement board' !! id = Some (ranked row i t)) ∧
  (∀ id, id ∉ ids → bt_placement board' !! id = bt_placement board !! id).
Proof.
  intros Hnd H. unfold apply_lane_order in H. apply rbind_Ok in H as (rows & H & [= <-]).
  split; [done|]. by apply (apply_lane_ranks _ 0).
Qed.

Lemma apply_lane_ranks_total t k rows ids :
  (∀ id, id ∈ ids → is_Some (rows !! id)) → (Z.of_nat (k + length ids) ≤ i64_max)%Z →
  ∃ rows', try_fold_i (apply_lane_rank t) k rows ids = Ok rows'.
Proof.
  revert k rows; induction ids as [|w ids IH]; intros k rows Hin Hlen; [by eexists|].
  cbn [try_fold_i]. unfold apply_lane_rank at 1, i64_try_from.
  destruct (Hin w) as [row Hrow]; [left|]. cbn [length] in Hlen.
  destruct (Z.leb_spec (Z.of_N (N.of_nat k)) i64_max); [|lia]. cbn [ok_or rbind].
  rewrite Hrow; cbn [ok_or rbind]. apply IH; [|lia].
  intros id Hid. destruct (decide (id = w)) as [->|Hne]; [by rewrite lookup_insert_eq|].
  rewrite lookup_insert_ne by done. apply Hin. by right.
Qed.

(** The tables other than the board are the same. *)
Definition same_outside_board (db db' : Database) : Prop :=
  db' = set_board db (db_board db').

Lemma same_outside_board_trans db1 db2 db3 :
  same_outside_board db1 db2 → same_outside_board db2 db3 → same_outside_board db1 db3.
Proof. unfold same_outside_board. intros H1 H2. rewrite H2, H1. done. Qed.

(** What [persist_workflow_change] writes. *)
Record persisted (db : Database) (w : Uuid) (current : WorkspaceWorkflowSummary)
    (state : WorkspaceWorkflowState) (mode : WorkspaceBoardPlacementMode) (rank : N) (t : Z)
    (db' : Database) (summary : WorkspaceWorkflowSummary) : Prop := {
  ps_outside : same_outside_board db db';
  ps_summary : summary = {| wf_state := state; wf_revision := wf_revision current + 1;
    wf_updated_at_unix_ms := t; wf_placement := {| bp_mode := mode; bp_rank := rank |} |};
  ps_revision : wf_revision current + 1 ≤ Z.to_N i64_max;
  ps_rank : rank ≤ Z.to_N i64_max;
  ps_workflow : bt_workflow (db_board db') =
    <[w := {| wr_state := workflow_state_storage state;
              wr_workflow_revision := Z.of_N (wf_revision current + 1);
              wr_updated_at_unix_ms := t |}]> (bt_workflow (db_board db));
  ps_placement : bt_placement (db_board db') =
    <[w := {| pl_mode := board_placement_mode_storage mode; pl_lane_rank := Z.of_N rank;
              pl_updated_at_unix_ms := t |}]> (bt_placement (db_board db));
  ps_workflow_events : bt_workflow_events (db_board db) `prefix_of` bt_workflow_events (db_board db');
  ps_board_events : ∃ e, bt_board_events (db_board db') = bt_board_events (db_board db) ++ [e] ∧
    be_workspace_id e = w ∧ be_workflow_revision e = Z.of_N (wf_revision current + 1);
  ps_last_event : ∀ e, last (bt_board_events (db_board db')) = Some e →
    be_from_state e = wf_state current ∧ be_to_state e = state ∧
    be_from_mode e = bp_mode (wf_placement current) ∧ be_to_mode e = mode;
  ps_present : is_Some (bt_workflow (db_board db) !! w) ∧ is_Some (bt_placement (db_board db) !! w)
}.

Lemma persist_workflow_change_spec db w current state mode rank ty t e1 e2 db' summary :
  persist_workflow_change db w current state mode rank ty t e1 e2 = Ok (db', summary) →
  persisted db w current state mode rank t db' summary.
Proof.
  unfold persist_workflow_change. intros H.
  apply rbind_Ok in H as (rev & Hrev & H). apply rbind_Ok in H as (revz & Hrevz & H).
  apply rbind_Ok in H as (rankz & Hrankz & H). apply rbind_Ok in H as (db1 & H1 & H).
  apply rbind_Ok in H as (fromz & _ & H). apply rbind_Ok in H as (db2 & H2 & H).
  apply rbind_Ok in H as (expz & _ & H). apply rbind_Ok in H as (db3 & H3 & H).
  apply rbind_Ok in H as (db4 & H4 & [= <- <-]).
  assert (rev = wf_revision current + 1) as ->.
  { unfold checked_add_u64 in Hrev. destruct (_ <=? _); [|done]. by injection Hrev. }
  destruct (i64_try_from (wf_revision current + 1)) eqn:E1; [|done]. injection Hrevz as ->.
  apply i64_try_from_Some in E1 as [-> Hr1].
  destruct (i64_try_from rank) eqn:E2; [|done]. injection Hrankz as ->.
  apply i64_try_from_Some in E2 as [-> Hr2].
  assert (same_outside_board db db1 ∧ bt_workflow (db_board db1) = bt_workflow (db_board db) ∧
    bt_placement (db_board db1) = bt_placement (db_board db) ∧
    bt_board_events (db_board db1) = bt_board_events (db_board db) ∧
    bt_workflow_events (db_board db) `prefix_of` bt_workflow_events (db_board db1))
    as (Ho & Hw & Hp & Hb & He).
  { destruct (bool_decide _); [|injection H1 as <-; by destruct db].
    unfold insert_workflow_event in H1. inv_result H1. subst db1. cbn.
    split_and!; [by destruct db|done..|by apply prefix_app_r]. }
  unfold insert_board_event in H2. inv_result H2. subst db2.
  unfold update_workflow in H3. cbn in H3.
  destruct (bt_workflow (db_board db1) !! w) as [cur|] eqn:Ecur; [|done].
  destruct (_ =? _)%Z; [|done]. injection H3 as <-.
  unfold update_placement in H4. inv_result H4. bool_split. subst db4. cbn in *.
  unfold in_i64, i64_max, i64_min in *.
  constructor; cbn; rewrite ?Hw, ?Hp, ?Hb in *; try done.
  - unfold same_outside_board in *. rewrite Ho. done.
  - unfold i64_max. lia.
  - unfold i64_max. lia.
  - eexists. by split_and!.
  - intros e. rewrite last_snoc. by intros [= <-].
  - split; [by eexists|]. destruct (bt_placement (db_board db) !! w); [by eexists|done].
Qed.

(** ** Moving one workspace *)

Definition numbered (db : Database) (k : nat) (l : list Uuid) : Prop :=
  ∀ i id, l !! i = Some id → rank_of db id = Z.of_nat (k + i).

Lemma numbered_sorted db k l : numbered db k l → StronglySorted (lane_before db) l.
Proof.
  revert k; induction l as [|x l IH]; intros k Hn; constructor.
  - apply (IH (S k)). intros i id Hi. rewrite (Hn (S i) id Hi). lia.
  - apply Forall_forall. intros y [j Hj]%list_elem_of_lookup_1.
    unfold lane_before, lane_order, pair_cmp; cbn.
    rewrite (Hn 0%nat x), (Hn (S j) y) by done.
    destruct (Z.compare_spec (Z.of_nat (k + 0)) (Z.of_nat (k + S j))); cbn; [lia|done|lia].
Qed.

(** The workspace of a board operation: its rows exist and it is not tombstoned. *)
Definition on_board (db : Database) (w : Uuid) (current : WorkspaceWorkflowSummary) : Prop :=
  load_workflow (db_board db) w = Ok current ∧ is_tombstoned db w = false.

Lemma load_workflow_Ok board w current :
  load_workflow board w = Ok current →
  ∃ workflow placement, bt_workflow board !! w = Some workflow ∧
    bt_placement board !! w = Some placement ∧
    wr_state workflow = workflow_state_storage (wf_state current) ∧
    wr_workflow_revision workflow = Z.of_N (wf_revision current) ∧
    wr_updated_at_unix_ms workflow = wf_updated_at_unix_ms current ∧
    pl_lane_rank placement = Z.of_N (bp_rank (wf_placement current)) ∧
    board_placement_mode_from_storage (pl_mode placement) = Ok (bp_mode (wf_placement current)).
Proof.
  unfold load_workflow. intros H.
  destruct (bt_workflow board !! w) as [wf|] eqn:Ew; [|done].
  destruct (bt_placement board !! w) as [pl|] eqn:Ep; [|done]. cbn [ok_or rbind] in H.
  unfold u64_try_from in H.
  destruct (Z.ltb_spec (wr_workflow_revision wf) 0); [done|]. cbn [ok_or rbind] in H.
  destruct (Z.ltb_spec (pl_lane_rank pl) 0); [done|]. cbn [ok_or rbind] in H.
  destruct (_ || _); [done|]. cbn [guard_err rbind] in H.
  apply rbind_Ok in H as (st & Hst & H). apply rbind_Ok in H as (mode & Hmode & [= <-]).
  apply workflow_state_from_storage_Ok in Hst. exists wf, pl. cbn.
  split_and!; try done; lia.
Qed.

Section moved.
Context (db : Database) (w : Uuid) (current : WorkspaceWorkflowSummary).
Context (Hcur : on_board db w current).

Lemma lane_excludes_self s : w ∉ load_lane_workspace_ids db s (Some w).
Proof. rewrite elem_of_lane. by intros [_ ?]. Qed.

Lemma in_lane_unique s s' id : in_lane db s id → in_lane db s' id → s = s'.
Proof.
  intros [(r & Hr & Hs) _] [(r' & Hr' & Hs') _]. apply (inj workflow_state_storage). congruence.
Qed.

Lemma in_lane_self s : in_lane db s w ↔ s = wf_state current.
Proof.
  destruct Hcur as [Hl Ht]. apply load_workflow_Ok in Hl as (wf & pl & Hw & Hp & Hs & _).
  split.
  - intros [(r & Hr & Hs') _]. apply (inj workflow_state_storage). congruence.
  - intros ->. split_and!; eauto.
Qed.

(** What a move leaves behind: every table but the board is the same, the members of a lane
    are the same except [w], and the two lanes involved are numbered. *)
Record move (st : WorkspaceWorkflowState) (target : list Uuid) (db' : Database) : Prop := {
  mv_outside : same_outside_board db db';
  mv_workflow id : id ≠ w → bt_workflow (db_board db') !! id = bt_workflow (db_board db) !! id;
  mv_self : ∃ r, bt_workflow (db_board db') !! w = Some r ∧ wr_state r = workflow_state_storage st;
  mv_placement id : is_Some (bt_placement (db_board db') !! id) ↔
    is_Some (bt_placement (db_board db) !! id);
  mv_target : numbered db' 0 target;
  mv_source : wf_state current ≠ st →
    numbered db' 0 (load_lane_workspace_ids db (wf_state current) (Some w));
  mv_other id : id ∉ target → id ∉ load_lane_workspace_ids db (wf_state current) (Some w) →
    id ≠ w → rank_of db' id = rank_of db id
}.

Lemma move_in_lane st target db' s id :
  move st target db' →
  in_lane db' s id ↔ (id = w ∧ s = st) ∨ (id ≠ w ∧ in_lane db s id).
Proof.
  intros Hm. destruct Hcur as [Hl Ht].
  apply load_workflow_Ok in Hl as (wf & pl & Hw & Hp & Hs & _).
  assert (is_tombstoned db' id = is_tombstoned db id) as Htomb by (by rewrite (mv_outside _ _ _ Hm)).
  unfold in_lane at 1. rewrite Htomb, (mv_placement _ _ _ Hm).
  destruct (decide (id = w)) as [->|Hne].
  - destruct (mv_self _ _ _ Hm) as (r & Hr & Hst). split.
    + intros ((r' & Hr' & Hst') & _). left. split; [done|].
      apply (inj workflow_state_storage). congruence.
    + intros [[_ ->]|[? _]]; [|done]. rewrite Hp. eauto 10.
  - rewrite (mv_workflow _ _ _ Hm) by done. split; [intros H; right; by split|].
    by intros [[? _]|[_ ?]].
Qed.

(** The lanes after a move: the target lane is [target], the others are as before without
    the workspace. *)
Lemma move_lanes st target db' s :
  move st target db' → NoDup target → w ∈ target →
  (∀ id, id ≠ w → id ∈ target ↔ in_lane db st id) →
  load_lane_workspace_ids db' s None =
  if decide (s = st) then target else load_lane_workspace_ids db s (Some w).
Proof.
  intros Hm Hnd Hw Hin. destruct (decide (s = st)) as [->|Hs].
  - apply lane_unique; [done| |eapply numbered_sorted, Hm].
    intros id. rewrite (move_in_lane _ _ _ st id Hm).
    destruct (decide (id = w)) as [->|Hne]; [naive_solver|]. rewrite Hin by done. naive_solver.
  - destruct (decide (s = wf_state current)) as [->|Hc].
    + apply lane_unique; [apply NoDup_lane| |].
      * intros id. rewrite elem_of_lane, (move_in_lane _ _ _ _ id Hm). naive_solver.
      * eapply numbered_sorted, (mv_source _ _ _ Hm). done.
    + symmetry. apply lane_ext.
      * intros id. rewrite (move_in_lane _ _ _ s id Hm). naive_solver.
      * intros id Hid Hne. symmetry. apply (mv_other _ _ _ Hm); [| |naive_solver].
        -- rewrite Hin by naive_solver. intros Hid'. by apply Hs, (in_lane_unique _ _ id).
        -- rewrite elem_of_lane. intros [Hid' _]. by apply Hc, (in_lane_unique _ _ id).
Qed.

Lemma move_target_lanes st l1 l2 db' s :
  move st (l1 ++ w :: l2) db' → l1 ++ l2 = load_lane_workspace_ids db st (Some w) →
  load_lane_workspace_ids db' s None =
  if decide (s = st) then l1 ++ w :: l2 else load_lane_workspace_ids db s (Some w).
Proof.
  intros Hm Hl. apply (move_lanes st); [done|..].
  - rewrite <- Permutation_middle. constructor; rewrite Hl; [apply lane_excludes_self|apply NoDup_lane].
  - rewrite elem_of_app, elem_of_cons. auto.
  - intros id Hne. rewrite <- Permutation_middle, Hl, elem_of_cons, elem_of_lane. naive_solver.
Qed.

(** Numbering some workspaces of a board. *)
Lemma apply_lane_order_numbered db0 ids t board' :
  NoDup ids → apply_lane_order (db_board db0) ids t = Ok board' →
  let db1 := set_board db0 board' in
  same_outside_board db0 db1 ∧ numbered db1 0 ids ∧
  bt_workflow (db_board db1) = bt_workflow (db_board db0) ∧
  (∀ id, is_Some (bt_placement (db_board db1) !! id) ↔ is_Some (bt_placement (db_board db0) !! id)) ∧
  (∀ id, id ∉ ids → bt_placement (db_board db1) !! id = bt_placement (db_board db0) !! id).
Proof.
  intros Hnd H. apply apply_lane_order_spec in H as (Hb & Hi & Ho); [|done]. cbn.
  split_and!; [done| |by rewrite Hb| |done].
  - intros i id Hid. destruct (Hi i id Hid) as (row & _ & Hr). unfold rank_of. cbn. by rewrite Hr.
  - intros id. destruct (decide (id ∈ ids)) as [[i Hid]%list_elem_of_lookup_1|Hn]; [|by rewrite Ho].
    destruct (Hi i id Hid) as (row & -> & ->). split; eauto.
Qed.

Lemma leave_step st t db1 :
  (if bool_decide (wf_state current ≠ st) then leave_lane db w (wf_state current) t
   else Ok db) = Ok db1 →
  same_outside_board db db1 ∧
  bt_workflow (db_board db1) = bt_workflow (db_board db) ∧
  (∀ id, is_Some (bt_placement (db_board db1) !! id) ↔ is_Some (bt_placement (db_board db) !! id)) ∧
  (wf_state current ≠ st → numbered db1 0 (load_lane_workspace_ids db (wf_state current) (Some w))) ∧
  (∀ id, id ∉ load_lane_workspace_ids db (wf_state current) (Some w) →
     bt_placement (db_board db1) !! id = bt_placement (db_board db) !! id).
Proof.
  case_bool_decide as Hst; [|intros [= <-]; split_and!; try done; by destruct db].
  intros H. apply rbind_Ok in H as (board & H & [= <-]).
  apply apply_lane_order_numbered in H; [|apply NoDup_lane]. naive_solver.
Qed.

(** Numbering the source lane does not change another lane. *)
Lemma leave_step_lane st t db1 :
  (if bool_decide (wf_state current ≠ st) then leave_lane db w (wf_state current) t
   else Ok db) = Ok db1 → wf_state current ≠ st →
  load_lane_workspace_ids db1 st (Some w) = load_lane_workspace_ids db st (Some w).
Proof.
  intros H Hst. apply leave_step in H as (Ho & Hw & Hp & _ & Hr). symmetry.
  assert (∀ id, in_lane db st id ↔ in_lane db1 st id) as Hin.
  { intros id. unfold in_lane. rewrite Hw, Hp. by rewrite Ho. }
  apply lane_ext; [intros id; by rewrite Hin|]. intros id Hid _. unfold rank_of. rewrite Hr; [done|].
  rewrite elem_of_lane. intros [Hid' _]. by apply Hst, (in_lane_unique _ _ id).
Qed.

(** The steps of [transition_workflow] and [place_workspace_on_board] make a move. *)
Lemma move_steps st mode ty t e1 e2 l1 l2 db1 board2 db' summary :
  (if bool_decide (wf_state current ≠ st) then leave_lane db w (wf_state current) t
   else Ok db) = Ok db1 →
  l1 ++ l2 = load_lane_workspace_ids db st (Some w) →
  apply_lane_order (db_board db1) (l1 ++ w :: l2) t = Ok board2 →
  persist_workflow_change (set_board db1 board2) w current st mode (N.of_nat (length l1))
    ty t e1 e2 = Ok (db', summary) →
  persisted (set_board db1 board2) w current st mode (N.of_nat (length l1)) t db' summary ∧
  move st (l1 ++ w :: l2) db'.
Proof.
  intros H1 Hl H2 H3. apply persist_workflow_change_spec in H3. split; [done|].
  assert (NoDup (l1 ++ w :: l2)) as Hnd.
  { rewrite <- Permutation_middle. constructor; rewrite Hl; [apply lane_excludes_self|apply NoDup_lane]. }
  apply apply_lane_order_numbered in H2 as (Ho2 & Hn2 & Hw2 & Hp2 & Hr2); [|done].
  apply leave_step in H1 as (Ho1 & Hw1 & Hp1 & Hn1 & Hr1).
  assert (∀ id, id ≠ w → rank_of db' id = rank_of (set_board db1 board2) id) as Hrank.
  { intros id Hne. unfold rank_of. by rewrite (ps_placement _ _ _ _ _ _ _ _ _ H3), lookup_insert_ne. }
  assert (rank_of db' w = Z.of_nat (length l1)) as Hself.
  { unfold rank_of. rewrite (ps_placement _ _ _ _ _ _ _ _ _ H3), lookup_insert_eq. cbn. lia. }
  constructor.
  - eapply same_outside_board_trans; [done|]. eapply same_outside_board_trans; [done|apply H3].
  - intros id Hne. by rewrite (ps_workflow _ _ _ _ _ _ _ _ _ H3), lookup_insert_ne, Hw2, Hw1.
  - rewrite (ps_workflow _ _ _ _ _ _ _ _ _ H3), lookup_insert_eq. eauto.
  - intros id. rewrite (ps_placement _ _ _ _ _ _ _ _ _ H3), <- Hp1, <- Hp2.
    destruct (decide (id = w)) as [->|Hne]; [|by rewrite lookup_insert_ne].
    rewrite lookup_insert_eq. destruct (ps_present _ _ _ _ _ _ _ _ _ H3) as [_ ?].
    split; [done|]. by eexists.
  - intros i id Hi. destruct (decide (id = w)) as [->|Hne]; [|rewrite Hrank by done; by apply Hn2].
    rewrite Hself. f_equal. symmetry. eapply (NoDup_lookup (l1 ++ w :: l2)); [done..|].
    by apply list_lookup_middle.
  - intros Hst i id Hi. apply list_elem_of_lookup_2 in Hi as Hin.
    rewrite Hrank by (intros ->; by apply lane_excludes_self in Hin). rewrite <- (Hn1 Hst i id Hi).
    unfold rank_of. rewrite Hr2; [done|].
    rewrite <- Permutation_middle, Hl, elem_of_cons, !elem_of_lane in *.
    intros [->|[Hid _]]; [naive_solver|]. apply Hst, (in_lane_unique _ _ id); naive_solver.
  - intros id Hid Hsrc Hne. rewrite Hrank by done. unfold rank_of. by rewrite Hr2, Hr1.
Qed.
End moved.

(** ** The board operations *)

Section board_theorems.
Context `{Libraries}.

(** Reading a workspace depends on its own tables only. *)
Lemma require_workspace_outside db db' w :
  same_outside_board db db' → require_workspace db' w = require_workspace db w.
Proof. unfold same_outside_board. by intros ->. Qed.

Lemma load_expected_Ok db w expected current :
  load_expected db w expected = Ok current →
  on_board db w current ∧ require_workspace db w = Ok () ∧ expected = wf_revision current.
Proof.
  unfold load_expected, on_board. intros Hl. apply rbind_Ok in Hl as ([] & Hr & Hl).
  apply rbind_Ok in Hl as (cur & Hc & Hl).
  destruct (N.eqb_spec expected (wf_revision cur)) as [He|]; [|done]. injection Hl as <-.
  split_and!; try done. by apply require_workspace_Ok.
Qed.

Lemma load_workflow_persisted db w current st mode rank t db' summary :
  persisted db w current st mode rank t db' summary → (0 ≤ t)%Z →
  load_workflow (db_board db') w = Ok summary.
Proof.
  intros [_ -> Hrev Hrank Hwf Hpl _ _ _ _] Ht. unfold load_workflow.
  rewrite Hwf, Hpl, !lookup_insert_eq. cbn [ok_or rbind wr_workflow_revision pl_lane_rank
    wr_updated_at_unix_ms wr_state pl_mode].
  unfold u64_try_from.
  destruct (Z.ltb_spec (Z.of_N (wf_revision current + 1)) 0); [lia|].
  destruct (Z.ltb_spec (Z.of_N rank) 0); [lia|]. cbn [ok_or rbind]. rewrite !N2Z.id.
  destruct (N.eqb_spec (wf_revision current + 1) 0); [lia|].
  destruct (Z.ltb_spec t 0); [lia|]. cbn [orb guard_err rbind].
  by rewrite workflow_state_round_trip, board_mode_round_trip.
Qed.

(** One operation of the board, with the revision its author saw. *)
Inductive BoardOp :=
| TransitionOp (request : TransitionWorkspaceWorkflowRequest)
| PlaceOp (request : PlaceWorkspaceOnBoardRequest)
| FollowOp (request : FollowWorkspaceAgentRequest).

Definition expected_revision (op : BoardOp) : N :=
  match op with
  | TransitionOp request => tq_expected_revision request
  | PlaceOp request => pq_expected_revision request
  | FollowOp request => fq_expected_revision request
  end.

Definition board_body (db : Database) (w : Uuid) (op : BoardOp) (inputs : BoardInputs) :
    result (Database * WorkspaceWorkflowSummary) WorkspaceStoreError :=
  match op with
  | TransitionOp request => transition_workflow_body db w request inputs
  | PlaceOp request => place_workspace_on_board_body db w request inputs
  | FollowOp request => follow_workspace_agent_body db w request inputs
  end.

Definition run_board_op (db : Database) (w : Uuid) (op : BoardOp) (inputs : BoardInputs) :
    Database * result WorkspaceWorkflowSummary WorkspaceStoreError :=
  match op with
  | TransitionOp request => transition_workflow db w request inputs
  | PlaceOp request => place_workspace_on_board db w request inputs
  | FollowOp request => follow_workspace_agent db w request inputs
  end.

Lemma run_board_op_transact db w op inputs :
  run_board_op db w op inputs = transact db (board_body db w op inputs).
Proof. by destruct op. Qed.

(** The event tables are only written by [persist_workflow_change]. *)
Definition same_events (db db' : Database) : Prop :=
  bt_board_events (db_board db') = bt_board_events (db_board db) ∧
  bt_workflow_events (db_board db') = bt_workflow_events (db_board db).

(** Only ranks change: every placement keeps its workspace and its mode. *)
Definition reranked (db db' : Database) : Prop :=
  bt_workflow (db_board db') = bt_workflow (db_board db) ∧
  ∀ id, bt_placement (db_board db') !! id = bt_placement (db_board db) !! id ∨
    ∃ row rank t, bt_placement (db_board db) !! id = Some row ∧
      bt_placement (db_board db') !! id = Some (ranked row rank t).

Lemma reranked_trans db1 db2 db3 : reranked db1 db2 → reranked db2 db3 → reranked db1 db3.
Proof.
  intros [Hw1 H1] [Hw2 H2]. split; [by rewrite Hw2|]. intros id.
  destruct (H1 id) as [E1|(row & rank & t & E1 & E1')], (H2 id) as [E2|(row' & rank' & t' & E2 & E2')].
  - left. by rewrite E2.
  - right. exists row', rank', t'. by rewrite <- E1.
  - right. exists row, rank, t. by rewrite E2.
  - right. exists row, rank', t'. split; [done|]. rewrite E1' in E2. by injection E2 as <-.
Qed.

Lemma apply_lane_order_events db ids t board' :
  NoDup ids → apply_lane_order (db_board db) ids t = Ok board' →
  same_outside_board db (set_board db board') ∧ same_events db (set_board db board') ∧
  reranked db (set_board db board').
Proof.
  intros Hnd Ha. destruct (apply_lane_order_spec _ _ _ _ Hnd Ha) as (Hb & Hin & Hout).
  split; [done|]. rewrite Hb. split; [done|]. split; [done|]. intros id. cbn.
  destruct (decide (id ∈ ids)) as [Hid|Hid]; [right|left; by apply Hout].
  apply list_elem_of_lookup_1 in Hid as [i Hi]. apply Hin in Hi as (row & H1 & H2).
  by exists row, i, t.
Qed.

Lemma leave_step_events db w current st t db1 :
  (if bool_decide (wf_state current ≠ st) then leave_lane db w (wf_state current) t
   else Ok db) = Ok db1 →
  same_outside_board db db1 ∧ same_events db db1 ∧ reranked db db1.
Proof.
  case_bool_decide; [|intros [= <-]; split_and!; try done; [by destruct db|split; [done|by left]]].
  intros Ha. apply rbind_Ok in Ha as (board & Ha & [= <-]).
  eapply apply_lane_order_events; [|exact Ha]. apply NoDup_lane.
Qed.

Lemma NoDup_lane_with db s w l1 l2 :
  load_lane_workspace_ids db s (Some w) = l1 ++ l2 → NoDup (l1 ++ w :: l2).
Proof.
  intros Hl. rewrite <- Permutation_middle, <- Hl. constructor; [|apply NoDup_lane].
  rewrite elem_of_lane. by intros [_ ?].
Qed.

Lemma board_body_persisted db w op inputs db' summary :
  board_body db w op inputs = Ok (db', summary) →
  ∃ current, on_board db w current ∧ require_workspace db w = Ok () ∧
    expected_revision op = wf_revision current ∧
    (db' = db ∧ summary = current ∨
     ∃ db1 st mode rank t, (0 ≤ t)%Z ∧ same_outside_board db db1 ∧ same_events db db1 ∧
       reranked db db1 ∧ persisted db1 w current st mode rank t db' summary).
Proof.
  destruct op as [req|req|req]; cbn [board_body expected_revision]; intros Hb.
  - unfold transition_workflow_body in Hb. apply rbind_Ok in Hb as (cur & Hl & Hb).
    apply load_expected_Ok in Hl as (Hon & Hreq & Hexp). exists cur. split_and!; [done..|].
    destruct (_ || _); [injection Hb as <- <-; by left|]. right.
    apply rbind_Ok in Hb as (t & Ht%unix_time_ms_nonneg & Hb).
    apply rbind_Ok in Hb as (db1 & (Ho1 & He1 & Hw1)%leave_step_events & Hb).
    apply rbind_Ok in Hb as (board2 & (Ho2 & He2 & Hw2)%apply_lane_order_events & Hb);
      [|apply (NoDup_lane_with db1 (tq_state req)); by rewrite app_nil_r].
    apply persist_workflow_change_spec in Hb.
    eexists _, _, _, _, t. split_and!; [done| | | |exact Hb].
    + by eapply same_outside_board_trans.
    + unfold same_events in *. by destruct He1 as [<- <-].
    + by eapply reranked_trans.
  - unfold place_workspace_on_board_body in Hb.
    apply rbind_Ok in Hb as ([] & _ & Hb). apply rbind_Ok in Hb as ([] & _ & Hb).
    apply rbind_Ok in Hb as (cur & Hl & Hb).
    apply load_expected_Ok in Hl as (Hon & Hreq & Hexp). exists cur. split_and!; [done..|]. right.
    apply rbind_Ok in Hb as (index & _ & Hb).
    apply rbind_Ok in Hb as (t & Ht%unix_time_ms_nonneg & Hb).
    apply rbind_Ok in Hb as (db1 & (Ho1 & He1 & Hw1)%leave_step_events & Hb).
    apply rbind_Ok in Hb as (board2 & (Ho2 & He2 & Hw2)%apply_lane_order_events & Hb);
      [|apply (NoDup_lane_with db (pq_state req)); by rewrite take_drop].
    apply persist_workflow_change_spec in Hb.
    eexists _, _, _, _, t. split_and!; [done| | | |exact Hb].
    + by eapply same_outside_board_trans.
    + unfold same_events in *. by destruct He1 as [<- <-].
    + by eapply reranked_trans.
  - unfold follow_workspace_agent_body in Hb. apply rbind_Ok in Hb as (cur & Hl & Hb).
    apply load_expected_Ok in Hl as (Hon & Hreq & Hexp). exists cur. split_and!; [done..|].
    destruct (bool_decide _); [injection Hb as <- <-; by left|]. right.
    apply rbind_Ok in Hb as (t & Ht%unix_time_ms_nonneg & Hb).
    apply persist_workflow_change_spec in Hb.
    eexists _, _, _, _, t. split_and!; [done| | | |exact Hb];
      [by destruct db|done|split; [done|by left]].
Qed.

Lemma board_body_read_back db w op inputs db' summary :
  board_body db w op inputs = Ok (db', summary) →
  ∃ current, load_workflow (db_board db) w = Ok current ∧ require_workspace db w = Ok () ∧
    expected_revision op = wf_revision current ∧ load_workflow (db_board db') w = Ok summary ∧
    (db' = db ∨
     wf_revision summary = wf_revision current + 1 ∧ same_outside_board db db' ∧
     ∃ e, bt_board_events (db_board db') = bt_board_events (db_board db) ++ [e] ∧
       be_workspace_id e = w ∧ be_workflow_revision e = Z.of_N (wf_revision summary)).
Proof.
  intros Hb. apply board_body_persisted in Hb as (cur & [Hl _] & Hreq & Hexp & Hcase).
  exists cur. split_and!; [done..| |].
  - destruct Hcase as [[-> ->]|(db1 & st & mode & rank & t & Ht & _ & _ & _ & Hp)]; [done|].
    by eapply load_workflow_persisted.
  - destruct Hcase as [[-> _]|(db1 & st & mode & rank & t & Ht & Ho & [He _] & _ & Hp)]; [by left|].
    right. rewrite <- He. split_and!.
    + by rewrite (ps_summary _ _ _ _ _ _ _ _ _ Hp).
    + eapply same_outside_board_trans; [done|apply Hp].
    + rewrite (ps_summary _ _ _ _ _ _ _ _ _ Hp). apply (ps_board_events _ _ _ _ _ _ _ _ _ Hp).
Qed.

(** Requests that are answered with the current state: a transition of a pinned workspace or to
    the lane it is in, and following an agent it follows already. *)
Definition changes_nothing (op : BoardOp) (current : WorkspaceWorkflowSummary) : bool :=
  match op with
  | TransitionOp request =>
      bool_decide (bp_mode (wf_placement current) = Pinned)
      || bool_decide (tq_state request = wf_state current)
  | PlaceOp _ => false
  | FollowOp _ => bool_decide (bp_mode (wf_placement current) = Automatic)
  end.

Definition requested_state (op : BoardOp) (current : WorkspaceWorkflowSummary) : WorkspaceWorkflowState :=
  match op with
  | TransitionOp request => tq_state request
  | PlaceOp request => pq_state request
  | FollowOp _ => wf_state current
  end.

Definition requested_mode (op : BoardOp) : WorkspaceBoardPlacementMode :=
  match op with PlaceOp _ => Pinned | _ => Automatic end.

Lemma board_body_moves db w op inputs db' summary current :
  board_body db w op inputs = Ok (db', summary) → load_workflow (db_board db) w = Ok current →
  if changes_nothing op current then db' = db ∧ summary = current
  else wf_revision summary = wf_revision current + 1 ∧ wf_state summary = requested_state op current
       ∧ bp_mode (wf_placement summary) = requested_mode op.
Proof.
  assert (∀ db1 st mode rank ty t e1 e2, persist_workflow_change db1 w current st mode rank ty t e1 e2
    = Ok (db', summary) → wf_revision summary = wf_revision current + 1 ∧ wf_state summary = st
      ∧ bp_mode (wf_placement summary) = mode) as Hpersist.
  { intros * Hp%persist_workflow_change_spec. by rewrite (ps_summary _ _ _ _ _ _ _ _ _ Hp). }
  assert (∀ expected cur, load_expected db w expected = Ok cur →
    load_workflow (db_board db) w = Ok current → cur = current) as Hcur.
  { intros expected cur ([Hl _] & _)%load_expected_Ok Hc. congruence. }
  destruct op as [req|req|req]; cbn [board_body changes_nothing requested_state requested_mode]; intros Hb Hc.
  - unfold transition_workflow_body in Hb. apply rbind_Ok in Hb as (cur & Hl & Hb).
    rewrite (Hcur _ _ Hl Hc) in Hb. destruct (_ || _); [by injection Hb as <- <-|].
    apply rbind_Ok in Hb as (t & _ & Hb). apply rbind_Ok in Hb as (db1 & _ & Hb).
    apply rbind_Ok in Hb as (board & _ & Hb). by eapply Hpersist.
  - unfold place_workspace_on_board_body in Hb.
    apply rbind_Ok in Hb as ([] & _ & Hb). apply rbind_Ok in Hb as ([] & _ & Hb).
    apply rbind_Ok in Hb as (cur & Hl & Hb). rewrite (Hcur _ _ Hl Hc) in Hb.
    apply rbind_Ok in Hb as (index & _ & Hb). apply rbind_Ok in Hb as (t & _ & Hb).
    apply rbind_Ok in Hb as (db1 & _ & Hb). apply rbind_Ok in Hb as (board & _ & Hb).
    by eapply Hpersist.
  - unfold follow_workspace_agent_body in Hb. apply rbind_Ok in Hb as (cur & Hl & Hb).
    rewrite (Hcur _ _ Hl Hc) in Hb. destruct (bool_decide _); [by injection Hb as <- <-|].
    apply rbind_Ok in Hb as (t & _ & Hb). by eapply Hpersist.
Qed.

(** C4: Changes of the board are serialized by the workspace's revision.  A request that succeeds was
    decided on the current revision.  A transition of a pinned workspace or to the lane it is in, and
    following an agent it follows already, answer the current state and change nothing.  Every other
    request that succeeds moves the workspace to the next revision, with the state and mode it asks
    for, which is what is read back, and appends one event with that revision.  A request that fails
    changes nothing. *)
Theorem board_revision_step db w op inputs db' r :
  run_board_op db w op inputs = (db', r) →
  match r with
  | Ok summary =>
      ∃ current, load_workflow (db_board db) w = Ok current ∧
        expected_revision op = wf_revision current ∧
        load_workflow (db_board db') w = Ok summary ∧
        if changes_nothing op current then db' = db ∧ summary = current
        else wf_revision summary = wf_revision current + 1 ∧
          wf_state summary = requested_state op current ∧
          bp_mode (wf_placement summary) = requested_mode op ∧ same_outside_board db db' ∧
          ∃ e, bt_board_events (db_board db') = bt_board_events (db_board db) ++ [e] ∧
            be_workspace_id e = w ∧ be_workflow_revision e = Z.of_N (wf_revision summary)
  | Err _ => db' = db
  end.
Proof.
  rewrite run_board_op_transact. destruct r as [summary|e]; [|by intros [? _]%transact_Err].
  intros Hb%transact_Ok. pose proof (board_body_read_back _ _ _ _ _ _ Hb) as (cur & Hl & _ & Hexp & Hl' & Hcase).
  exists cur. split_and!; [done..|]. pose proof (board_body_moves _ _ _ _ _ _ _ Hb Hl) as Hmove.
  destruct (changes_nothing op cur); [done|]. destruct Hmove as (Hrev & Hst & Hmode).
  split_and!; [done..| |]; destruct Hcase as [->|(_ & Ho & He)]; try done;
    rewrite Hl in Hl'; injection Hl' as <-; lia.
Qed.

(** The anchor of a placement passes the checks made before the database is read. *)
Definition acceptable_anchor (w : Uuid) (op : BoardOp) : Prop :=
  match op with
  | PlaceOp request =>
      (pq_before_workspace_id request = None ∨ pq_after_workspace_id request = None) ∧
      ∀ anchor, placement_anchor request = Some anchor → is_nil anchor = false ∧ anchor ≠ w
  | _ => True
  end.

(** An acceptable request on a stale revision is a conflict. *)
Lemma board_body_stale db w op inputs current :
  require_workspace db w = Ok () → load_workflow (db_board db) w = Ok current →
  expected_revision op ≠ wf_revision current → acceptable_anchor w op →
  board_body db w op inputs =
    Err (WorkspaceWorkflowConflict (expected_revision op) (wf_revision current)).
Proof.
  intros Hreq Hl Hne Hanchor.
  assert (load_expected db w (expected_revision op) =
    Err (WorkspaceWorkflowConflict (expected_revision op) (wf_revision current))) as Hload.
  { unfold load_expected. rewrite Hreq, Hl. cbn [rbind].
    by destruct (N.eqb_spec (expected_revision op) (wf_revision current)). }
  destruct op as [req|req|req]; cbn [board_body expected_revision acceptable_anchor] in *.
  - unfold transition_workflow_body. by rewrite Hload.
  - unfold place_workspace_on_board_body. rewrite Hload. destruct Hanchor as [Hone Ha].
    destruct (placement_anchor req) as [anchor|] eqn:E.
    + destruct (Ha anchor eq_refl) as [-> Hw]. destruct (N.eqb_spec anchor w); [done|].
      by destruct Hone as [->| ->]; [|destruct (pq_before_workspace_id req)].
    + unfold placement_anchor in E. by destruct (pq_before_workspace_id req).
  - unfold follow_workspace_agent_body. by rewrite Hload.
Qed.

(** of two requests decided on the same revision of a workspace, the second is refused
    with the revision that overtook it, if the first changed anything.  No update is lost. *)
Theorem stale_board_request_conflicts db w op1 inputs1 db1 summary1 op2 inputs2 :
  run_board_op db w op1 inputs1 = (db1, Ok summary1) → db1 ≠ db →
  expected_revision op2 = expected_revision op1 → acceptable_anchor w op2 →
  run_board_op db1 w op2 inputs2 =
    (db1, Err (WorkspaceWorkflowConflict (expected_revision op1) (wf_revision summary1))).
Proof.
  rewrite !run_board_op_transact. intros H1%transact_Ok Hne Hexp Hanchor.
  apply board_body_read_back in H1 as (cur & Hcur & Hreq & He1 & Hl1 & [->|(Hrev & Ho & _)]); [done|].
  unfold transact. rewrite (board_body_stale db1 w op2 inputs2 summary1); [by rewrite Hexp|..|done].
  - by rewrite (require_workspace_outside db db1).
  - done.
  - rewrite Hexp. lia.
Qed.

Lemma position_Some x l i : position x l = Some i → l !! i = Some x.
Proof.
  unfold position. intros ([j y] & Hj & ->)%fmap_Some. by apply list_find_Some in Hj as (? & -> & _).
Qed.

(** Where a placement request puts the workspace. *)
Definition placed_at (request : PlaceWorkspaceOnBoardRequest) (l1 l2 : list Uuid) : Prop :=
  match pq_before_workspace_id request, pq_after_workspace_id request with
  | Some anchor, _ => ∃ l, l2 = anchor :: l
  | None, Some anchor => ∃ l, l1 = l ++ [anchor]
  | None, None => l2 = []
  end.

Lemma insertion_index_spec request target index :
  (pq_before_workspace_id request = None ∨ pq_after_workspace_id request = None) →
  insertion_index request target = Ok index →
  (index ≤ length target)%nat ∧ placed_at request (take index target) (drop index target).
Proof.
  unfold insertion_index, placement_anchor, placed_at. intros Hone Hi.
  destruct (pq_before_workspace_id request) as [a|].
  - destruct Hone as [|Hone]; [done|]. rewrite Hone in Hi.
    apply rbind_Ok in Hi as (i & Hpos & [= <-]).
    destruct (position a target) eqn:E; [|done]. injection Hpos as ->. apply position_Some in E.
    pose proof (lookup_lt_Some _ _ _ E). split; [lia|]. eexists. by apply drop_S.
  - destruct (pq_after_workspace_id request) as [a|].
    + apply rbind_Ok in Hi as (i & Hpos & [= <-]).
      destruct (position a target) eqn:E; [|done]. injection Hpos as ->. apply position_Some in E.
      pose proof (lookup_lt_Some _ _ _ E). split; [lia|]. eexists. by apply take_S_r.
    + injection Hi as <-. split; [done|]. by rewrite drop_all.
Qed.

(** [place_workspace_on_board] puts the workspace exactly where it was asked to be:
    directly before or after the anchor, or at the end; the rest of every lane keeps its
    order, and the workspace is pinned at its position. *)
Theorem place_exact db w request inputs db' summary :
  place_workspace_on_board db w request inputs = (db', Ok summary) →
  ∃ l1 l2,
    load_lane_workspace_ids db (pq_state request) (Some w) = l1 ++ l2 ∧
    placed_at request l1 l2 ∧
    (∀ s, load_lane_workspace_ids db' s None =
       if decide (s = pq_state request) then l1 ++ w :: l2
       else load_lane_workspace_ids db s (Some w)) ∧
    wf_state summary = pq_state request ∧
    wf_placement summary = {| bp_mode := Pinned; bp_rank := N.of_nat (length l1) |}.
Proof.
  intros Hb%transact_Ok. unfold place_workspace_on_board_body in Hb.
  apply rbind_Ok in Hb as ([] & Hone & Hb). apply rbind_Ok in Hb as ([] & _ & Hb).
  apply rbind_Ok in Hb as (cur & (Hon & _ & _)%load_expected_Ok & Hb).
  apply rbind_Ok in Hb as (index & Hi & Hb). apply rbind_Ok in Hb as (t & _ & Hb).
  apply rbind_Ok in Hb as (db1 & H1 & Hb). apply rbind_Ok in Hb as (board2 & H2 & Hb).
  apply insertion_index_spec in Hi as [Hle Hat].
  2: { destruct (pq_before_workspace_id request), (pq_after_workspace_id request); auto. done. }
  exists (take index (load_lane_workspace_ids db (pq_state request) (Some w))),
    (drop index (load_lane_workspace_ids db (pq_state request) (Some w))).
  set (target := load_lane_workspace_ids db (pq_state request) (Some w)) in *.
  assert (length (take index target) = index) as Hlen by (rewrite length_take; lia).
  rewrite <- Hlen in Hb at 1.
  apply (move_steps db w cur Hon _ _ _ _ _ _ _ (drop index target) db1 board2) in Hb
    as [Hp Hm]; [|done|by rewrite take_drop|done].
  split_and!; [by rewrite take_drop|done| |by rewrite (ps_summary _ _ _ _ _ _ _ _ _ Hp)..].
  intros s. by apply (move_target_lanes db w cur Hon), take_drop.
Qed.

(** ** The event log *)

(** What the board remembers of a workspace: its lane, its mode and its revision. *)
Definition board_state : Type := WorkspaceWorkflowState * WorkspaceBoardPlacementMode * Z.

(** One event of the log applied to what was remembered: it has to start there. *)
Definition apply_event (s : board_state) (e : BoardEventRow) : option board_state :=
  let '(state, mode, revision) := s in
  if bool_decide (be_from_state e = state) && bool_decide (be_from_mode e = mode)
     && (be_workflow_revision e =? revision + 1)%Z
  then Some (be_to_state e, be_to_mode e, be_workflow_revision e)
  else None.

Definition replay_events (l : list BoardEventRow) (s : board_state) : option board_state :=
  foldl (λ o e, o ≫= λ s, apply_event s e) (Some s) l.

Definition events_of (board : BoardTables) (w : Uuid) : list BoardEventRow :=
  filter (λ e, be_workspace_id e = w) (bt_board_events board).

Definition summary_state (s : WorkspaceWorkflowSummary) : board_state :=
  (wf_state s, bp_mode (wf_placement s), Z.of_N (wf_revision s)).

(** The log of a workspace, from its creation, leads to what the board shows. *)
Definition explained (board : BoardTables) (w : Uuid) : Prop :=
  ∃ s, load_workflow board w = Ok s ∧
    replay_events (events_of board w) (Ready, Automatic, 1%Z) = Some (summary_state s).

Lemma replay_events_snoc l e s s' :
  replay_events l s = Some s' → replay_events (l ++ [e]) s = apply_event s' e.
Proof. unfold replay_events. intros Hl. by rewrite foldl_app, Hl. Qed.

(** Reading the board through a change of ranks. *)
Lemma load_workflow_reranked db db' w s :
  reranked db db' → load_workflow (db_board db) w = Ok s →
  ∃ s', load_workflow (db_board db') w = Ok s' ∧ summary_state s' = summary_state s.
Proof.
  intros [Hw Hp] Hl. destruct (Hp w) as [Heq|(row & rank & t & H1 & H2)].
  - exists s. split; [|done]. unfold load_workflow in *. by rewrite Hw, Heq.
  - unfold load_workflow in *. rewrite H1 in Hl. rewrite Hw, H2.
    destruct (bt_workflow (db_board db) !! w) as [wf|]; [|done]. cbn [ok_or rbind] in *.
    apply rbind_Ok in Hl as (rev & Hrev & Hl). apply rbind_Ok in Hl as (r & _ & Hl).
    apply rbind_Ok in Hl as ([] & Hg & Hl). apply rbind_Ok in Hl as (st & Hst & Hl).
    apply rbind_Ok in Hl as (mode & Hm & [= <-]). cbn [ranked pl_mode pl_lane_rank].
    rewrite Hrev. cbn [rbind]. unfold u64_try_from.
    destruct (Z.ltb_spec (Z.of_nat rank) 0); [lia|]. cbn [ok_or rbind]. rewrite Hg. cbn [rbind].
    rewrite Hst, Hm. by eexists.
Qed.

(** Reading another workspace through a persisted change. *)
Lemma load_workflow_other db w current st mode rank t db' summary w' :
  persisted db w current st mode rank t db' summary → w' ≠ w →
  load_workflow (db_board db') w' = load_workflow (db_board db) w'.
Proof.
  intros Hp Hne. unfold load_workflow.
  rewrite (ps_workflow _ _ _ _ _ _ _ _ _ Hp), (ps_placement _ _ _ _ _ _ _ _ _ Hp).
  by rewrite !lookup_insert_ne.
Qed.

(** A board operation leaves every workspace of the board explained by its log. *)
Lemma board_body_explained db w op inputs db' summary w' :
  board_body db w op inputs = Ok (db', summary) →
  explained (db_board db) w' → explained (db_board db') w'.
Proof.
  intros Hb. apply board_body_persisted in Hb as (cur & [Hl _] & _ & _ & Hcase).
  destruct Hcase as [[-> _]|(db1 & st & mode & rank & t & Ht & _ & [He _] & Hr & Hp)]; [done|].
  intros (s & Hs & Hlog).
  destruct (ps_board_events _ _ _ _ _ _ _ _ _ Hp) as (e & Hev & Hew & Hrev).
  pose proof (ps_last_event _ _ _ _ _ _ _ _ _ Hp e) as Hlast. rewrite Hev, last_snoc in Hlast.
  destruct (Hlast eq_refl) as (Hfs & Hts & Hfm & Htm).
  destruct (decide (w' = w)) as [->|Hne].
  - exists summary. split; [by eapply load_workflow_persisted|].
    unfold events_of in *. rewrite Hev, He, filter_app, filter_cons_True by done. rewrite filter_nil.
    rewrite (replay_events_snoc _ _ _ _ Hlog). rewrite Hl in Hs. injection Hs as <-.
    unfold apply_event, summary_state. rewrite Hfs, Hfm, !bool_decide_eq_true_2 by done.
    rewrite (ps_summary _ _ _ _ _ _ _ _ _ Hp), Hrev, Hts, Htm.
    destruct (Z.eqb_spec (Z.of_N (wf_revision cur + 1)) (Z.of_N (wf_revision cur) + 1)); [done|lia].
  - destruct (load_workflow_reranked _ _ _ _ Hr Hs) as (s' & Hs' & Heq). exists s'.
    rewrite (load_workflow_other _ _ _ _ _ _ _ _ _ _ Hp Hne). split; [done|].
    unfold events_of in *. rewrite Hev, He, filter_app, filter_cons_False by congruence.
    by rewrite filter_nil, app_nil_r, Heq.
Qed.

(** [transition_workflow] never moves a pinned workspace; otherwise it appends the
    workspace to the lane it asks for, and the rest of every lane keeps its order. *)
Theorem transition_appends db w request inputs db' summary :
  transition_workflow db w request inputs = (db', Ok summary) →
  ∃ current, load_workflow (db_board db) w = Ok current ∧
    if decide (bp_mode (wf_placement current) = Pinned ∨ tq_state request = wf_state current)
    then db' = db ∧ summary = current
    else
      (∀ s, load_lane_workspace_ids db' s None =
         if decide (s = tq_state request)
         then load_lane_workspace_ids db s (Some w) ++ [w]
         else load_lane_workspace_ids db s (Some w)) ∧
      wf_state summary = tq_state request ∧
      wf_placement summary =
        {| bp_mode := Automatic;
           bp_rank := N.of_nat (length (load_lane_workspace_ids db (tq_state request) None)) |}.
Proof.
  intros Hb%transact_Ok. unfold transition_workflow_body in Hb.
  apply rbind_Ok in Hb as (cur & (Hon & _ & _)%load_expected_Ok & Hb).
  exists cur. split; [apply Hon|]. rewrite <- bool_decide_or in Hb.
  destruct (decide (bp_mode (wf_placement cur) = Pinned ∨ tq_state request = wf_state cur))
    as [Hd|Hd].
  { rewrite bool_decide_true in Hb by exact Hd. by injection Hb as <- <-. }
  rewrite bool_decide_false in Hb by exact Hd.
  assert (wf_state cur ≠ tq_state request) as Hst by (intros Heq; apply Hd; by right).
  apply rbind_Ok in Hb as (t & _ & Hb).
  apply rbind_Ok in Hb as (db1 & H1 & Hb). apply rbind_Ok in Hb as (board2 & H2 & Hb).
  rewrite (leave_step_lane db w cur Hon (tq_state request) t db1) in H2, Hb by done.
  assert (load_lane_workspace_ids db (tq_state request) None =
    load_lane_workspace_ids db (tq_state request) (Some w)) as Hlane.
  { apply lane_ext; [|done]. intros id. split; [|naive_solver]. intros [Hid _]. split; [done|].
    intros [= <-]. apply (in_lane_self db w cur Hon) in Hid. by apply Hst. }
  rewrite length_app in Hb; cbn [length] in Hb.
  rewrite Nat.add_sub in Hb.
  apply (move_steps db w cur Hon _ _ _ _ _ _ _ [] db1 board2) in Hb
    as [Hp Hm]; [|done|by rewrite app_nil_r|done].
  rewrite Hlane. split_and!; [|by rewrite (ps_summary _ _ _ _ _ _ _ _ _ Hp)..].
  intros s. rewrite (move_target_lanes db w cur Hon _ _ [] db') by (done || by rewrite app_nil_r).
  by destruct (decide (s = tq_state request)) as [->|].
Qed.
End board_theorems.
