(* ===== verification/StoreItems.v ===== *)
(** * Work items of a workspace ([crates/wts-store/src/sqlite.rs])

    Confirmed links between a workspace and Jira issues ([confirm_work_item_link],
    [confirmed_work_item_link_replay], [list_work_item_links], [unlink_work_item_link] and the
    link a Jira workspace is created with), and the issue keys observed in its planning
    documents ([replace_observed_work_items], [load_observed_work_items],
    [repositories_observed_for_issue]). *)

From S2P Require Import Prelude Order Text Workspace StoreBase.

Local Open Scope N_scope.

Definition MAX_WORK_ITEM_ISSUE_KEY_BYTES : N := 64.
Definition MAX_WORK_ITEM_SUMMARY_BYTES : N := 512.
Definition MAX_WORK_ITEM_STATUS_BYTES : N := 128.
Definition MAX_WORK_ITEM_CONTENT_BYTES : N := 64 * 1024.
Definition MAX_WORK_ITEM_BROWSER_URL_BYTES : N := 2 * 1024.

(** ** Validators *)

Definition valid_jira_issue_key (value : str) : bool :=
  match rsplit_once 45 value with
  | None => false
  | Some (project, number) =>
      negb (is_empty project) && (byte_len project <=? 32)
      && negb (is_empty number) && (byte_len number <=? 16)
      && forallb (λ b, is_ascii_uppercase b || is_ascii_digit b || (b =? 95)) (utf8 project)
      && forallb is_ascii_digit (utf8 number)
  end.

Definition valid_bounded_optional_text (value : option str) (max_bytes : N) : bool :=
  match value with
  | None => true
  | Some value =>
      negb (is_empty value) && bool_decide (value = trim value)
      && (byte_len value <=? max_bytes)
      && negb (existsb (λ b, b =? 0) (utf8 value)) && negb (existsb is_control value)
  end.

Definition valid_work_item_browser_url (value : option str) : bool :=
  match value with
  | None => true
  | Some value =>
      match strip_prefix (lit "https://") value with
      | None => false
      | Some authority_and_path =>
          let authority := default [] (head (split_char 47 authority_and_path)) in
          negb (is_empty authority) && existsb (λ c, c =? 46) authority
          && (byte_len value <=? MAX_WORK_ITEM_BROWSER_URL_BYTES)
          && negb (existsb (λ c, is_control c || is_whitespace c) value)
          && negb (existsb (λ c, c =? 64) authority)
          && negb (existsb (λ c, (c =? 63) || (c =? 35)) value)
      end
  end.

Definition validate_sha256_digest (value : str) : result () () :=
  match strip_prefix (lit "sha256:") value with
  | None => Err ()
  | Some hex =>
      guard_err (negb (byte_len hex =? 64) || negb (forallb is_lower_hex (utf8 hex))) ()
  end.

(** [matches!(value, '\n' | '\r' | '\t')]. *)
Definition is_text_control (c : char) : bool := (c =? 10) || (c =? 13) || (c =? 9).

Definition validate_work_item_snapshot (snapshot : StoredWorkItemSnapshot) :
    result () WorkspaceStoreError :=
  guard_err
    (negb (valid_jira_issue_key (ws_issue_key snapshot))
     || (MAX_WORK_ITEM_ISSUE_KEY_BYTES <? byte_len (ws_issue_key snapshot))
     || (ws_fetched_at_unix_ms snapshot <? 0)%Z
     || (MAX_WORK_ITEM_CONTENT_BYTES <? byte_len (ws_content snapshot))
     || existsb (λ b, b =? 0) (utf8 (ws_content snapshot))
     || existsb (λ c, is_control c && negb (is_text_control c)) (ws_content snapshot)
     || negb (valid_bounded_optional_text (ws_summary snapshot) MAX_WORK_ITEM_SUMMARY_BYTES)
     || negb (valid_bounded_optional_text (ws_status snapshot) MAX_WORK_ITEM_STATUS_BYTES)
     || negb (valid_work_item_browser_url (ws_browser_url snapshot)))
    InvalidWorkItemLink.

Definition validate_work_item_link (link : StoredWorkspaceWorkItemLink) :
    result () WorkspaceStoreError :=
  ensure validate_work_item_snapshot (wl_snapshot link) in
  guard_err
    (is_nil (wl_link_id link) || is_nil (wl_workspace_id link) || (wl_revision link =? 0)
     || (wl_created_at_unix_ms link <? 0)%Z
     || (wl_updated_at_unix_ms link <? wl_created_at_unix_ms link)%Z)
    InvalidWorkItemLink.

Definition parse_idempotency_key `{Libraries} (value : str) : result Uuid WorkspaceStoreError :=
  let? id := ok_or (uuid_parse_str (trim value)) InvalidIdempotencyKey in
  ensure guard_err (is_nil id) InvalidIdempotencyKey in
  Ok id.

(** ** Storage of the enumerations *)

Definition work_item_provider_storage (provider : StoredWorkItemProvider) : str :=
  match provider with JiraProvider => lit "jira" end.

Definition work_item_provider_from_storage (provider : str) :
    result StoredWorkItemProvider WorkspaceStoreError :=
  if bool_decide (provider = lit "jira") then Ok JiraProvider
  else Err (CorruptRecord (lit "workspace work-item provider is invalid")).

Definition work_item_role_storage (role : StoredWorkItemRole) : str :=
  match role with
  | Primary => lit "primary"
  | Related => lit "related"
  | CreatedFromWorkspace => lit "created_from_workspace"
  end.

Definition work_item_role_from_storage (role : str) :
    result StoredWorkItemRole WorkspaceStoreError :=
  if bool_decide (role = lit "primary") then Ok Primary
  else if bool_decide (role = lit "related") then Ok Related
  else if bool_decide (role = lit "created_from_workspace") then Ok CreatedFromWorkspace
  else Err (CorruptRecord (lit "workspace work-item role is invalid")).

(** ** Reading links *)

(** [CASE role WHEN 'primary' THEN 0 WHEN 'created_from_workspace' THEN 1 ELSE 2 END]. *)
Definition role_order (role : str) : N :=
  if bool_decide (role = lit "primary") then 0
  else if bool_decide (role = lit "created_from_workspace") then 1
  else 2.

Definition link_row_order (a b : Uuid * LinkRow) : comparison :=
  cmp_then (N.compare (role_order (kr_role a.2)) (role_order (kr_role b.2)))
    (cmp_then (Z.compare (kr_created_at_unix_ms a.2) (kr_created_at_unix_ms b.2))
              (N.compare a.1 b.1)).

Definition decode_link (workspace_id : Uuid) (row : Uuid * LinkRow) :
    result StoredWorkspaceWorkItemLink WorkspaceStoreError :=
  let '(link_id, r) := row in
  let? provider := work_item_provider_from_storage (kr_provider r) in
  let? role := work_item_role_from_storage (kr_role r) in
  let? revision :=
    ok_or (u64_try_from (kr_revision r))
      (CorruptRecord (lit "workspace work-item link revision is invalid")) in
  let link :=
    {| wl_link_id := link_id; wl_workspace_id := workspace_id; wl_provider := provider;
       wl_role := role;
       wl_snapshot :=
         {| ws_issue_key := kr_issue_key r; ws_summary := kr_summary r; ws_status := kr_status r;
            ws_content := kr_content r; ws_browser_url := kr_browser_url r;
            ws_fetched_at_unix_ms := kr_fetched_at_unix_ms r |};
       wl_revision := revision; wl_created_at_unix_ms := kr_created_at_unix_ms r;
       wl_updated_at_unix_ms := kr_updated_at_unix_ms r |} in
  match validate_work_item_link link with
  | Ok _ => Ok link
  | Err _ => Err (CorruptRecord (lit "workspace work-item link projection is invalid"))
  end.

(** [rows.map(f).collect::<Result<Vec<_>, _>>()]. *)
Fixpoint try_map {A B E} (f : A → result B E) (l : list A) : result (list B) E :=
  match l with
  | [] => Ok []
  | a :: l' =>
      let? b := f a in
      let? bs := try_map f l' in
      Ok (b :: bs)
  end.

Definition link_rows (tables : LinkTables) (workspace_id : Uuid) : list (Uuid * LinkRow) :=
  sort_by link_row_order
    (filter (λ row, kr_workspace_id row.2 = workspace_id) (map_to_list (kt_links tables))).

Definition load_work_item_links (tables : LinkTables) (workspace_id : Uuid) :
    result (list StoredWorkspaceWorkItemLink) WorkspaceStoreError :=
  try_map (decode_link workspace_id) (link_rows tables workspace_id).

Definition load_work_item_link (tables : LinkTables) (workspace_id link_id : Uuid) :
    result (option StoredWorkspaceWorkItemLink) WorkspaceStoreError :=
  let? links := load_work_item_links tables workspace_id in
  Ok (snd <$> list_find (λ link, wl_link_id link = link_id) links).

Definition load_work_item_link_by_issue (tables : LinkTables) (workspace_id : Uuid)
    (provider : StoredWorkItemProvider) (issue_key : str) :
    result (option StoredWorkspaceWorkItemLink) WorkspaceStoreError :=
  let? links := load_work_item_links tables workspace_id in
  Ok (snd <$> list_find (λ link, wl_provider link = provider ∧
                                 ws_issue_key (wl_snapshot link) = issue_key) links).

(** ** Writing links *)

(** [INSERT INTO workspace_work_item_links], with the constraints of the table: the primary
    key, one link per issue, one primary link per workspace, an existing workspace. *)
Definition insert_link (db : Database) (link_id : Uuid) (row : LinkRow) :
    result Database WorkspaceStoreError :=
  let tables := db_links db in
  ensure guard_err (bool_decide (is_Some (kt_links tables !! link_id))) DatabaseError in
  ensure guard_err
    (existsb (λ r : Uuid * LinkRow,
       bool_decide (kr_workspace_id r.2 = kr_workspace_id row) &&
       bool_decide (kr_provider r.2 = kr_provider row) &&
       bool_decide (kr_issue_key r.2 = kr_issue_key row)) (map_to_list (kt_links tables)))
    DatabaseError in
  ensure guard_err
    (bool_decide (kr_role row = lit "primary") &&
     existsb (λ r : Uuid * LinkRow,
       bool_decide (kr_workspace_id r.2 = kr_workspace_id row) &&
       bool_decide (kr_role r.2 = lit "primary")) (map_to_list (kt_links tables)))
    DatabaseError in
  ensure guard_err
    (negb (existsb (λ r, ce_workspace_id r =? kr_workspace_id row) (db_created_events db)) ||
     (kr_fetched_at_unix_ms row <? 0)%Z || (kr_revision row <=? 0)%Z ||
     (kr_created_at_unix_ms row <? 0)%Z ||
     (kr_updated_at_unix_ms row <? kr_created_at_unix_ms row)%Z) DatabaseError in
  Ok (set_links db
        {| kt_links := <[link_id := row]> (kt_links tables);
           kt_confirmations := kt_confirmations tables; kt_events := kt_events tables |}).

Definition insert_link_event (db : Database) (row : LinkEventRow) :
    result Database WorkspaceStoreError :=
  let tables := db_links db in
  ensure guard_err (existsb (λ r, ke_event_id r =? ke_event_id row) (kt_events tables))
           DatabaseError in
  ensure guard_err
    (negb (existsb (λ r, ce_workspace_id r =? ke_workspace_id row) (db_created_events db)) ||
     (ke_link_revision row <=? 0)%Z || (ke_created_at_unix_ms row <? 0)%Z) DatabaseError in
  Ok (set_links db
        {| kt_links := kt_links tables; kt_confirmations := kt_confirmations tables;
           kt_events := kt_events tables ++ [row] |}).

Definition insert_confirmation (db : Database) (idempotency_key : Uuid) (row : ConfirmationRow) :
    result Database WorkspaceStoreError :=
  let tables := db_links db in
  ensure guard_err (bool_decide (is_Some (kt_confirmations tables !! idempotency_key)))
           DatabaseError in
  Ok (set_links db
        {| kt_links := kt_links tables;
           kt_confirmations := <[idempotency_key := row]> (kt_confirmations tables);
           kt_events := kt_events tables |}).

Definition link_row (link : StoredWorkspaceWorkItemLink) : LinkRow :=
  {| kr_workspace_id := wl_workspace_id link;
     kr_provider := work_item_provider_storage (wl_provider link);
     kr_issue_key := ws_issue_key (wl_snapshot link);
     kr_role := work_item_role_storage (wl_role link);
     kr_summary := ws_summary (wl_snapshot link);
     kr_status := ws_status (wl_snapshot link);
     kr_content := ws_content (wl_snapshot link);
     kr_browser_url := ws_browser_url (wl_snapshot link);
     kr_fetched_at_unix_ms := ws_fetched_at_unix_ms (wl_snapshot link);
     kr_revision := 1;
     kr_created_at_unix_ms := wl_created_at_unix_ms link;
     kr_updated_at_unix_ms := wl_created_at_unix_ms link |}.

Definition linked_event (event_id : Uuid) (link : StoredWorkspaceWorkItemLink) : LinkEventRow :=
  {| ke_event_id := event_id; ke_workspace_id := wl_workspace_id link;
     ke_link_id := wl_link_id link; ke_event := WorkItemLinked link; ke_link_revision := 1;
     ke_created_at_unix_ms := wl_created_at_unix_ms link |}.

(** The link of a workspace created for a Jira issue. *)
Definition jira_intent_link (record : WorkspaceRecord) (issue_key : str) (link_id : Uuid) :
    StoredWorkspaceWorkItemLink :=
  {| wl_link_id := link_id; wl_workspace_id := wk_workspace_id record;
     wl_provider := JiraProvider; wl_role := Primary;
     wl_snapshot := {| ws_issue_key := issue_key; ws_summary := None; ws_status := None;
                       ws_content := []; ws_browser_url := None; ws_fetched_at_unix_ms := 0 |};
     wl_revision := 1; wl_created_at_unix_ms := wk_created_at_unix_ms record;
     wl_updated_at_unix_ms := wk_created_at_unix_ms record |}.

Definition persist_jira_intent_work_item_link (db : Database) (record : WorkspaceRecord)
    (link_id event_id : Uuid) : result Database WorkspaceStoreError :=
  match wk_intent record with
  | Jira issue_key =>
      let link := jira_intent_link record issue_key link_id in
      ensure validate_work_item_link link in
      let? db := insert_link db link_id (link_row link) in
      insert_link_event db (linked_event event_id link)
  | _ => Ok db
  end.

Section operations.
Context `{Libraries}.

Record ConfirmStoredWorkItemLinkResult := {
  cl_link : StoredWorkspaceWorkItemLink;
  cl_replayed : bool
}.

Record StoredWorkItemUnlinkResult := {
  ul_workspace_id : Uuid;
  ul_link_id : Uuid;
  ul_removed_revision : N
}.

(** The clock and the identifiers an operation on links draws. *)
Record LinkInputs := {
  li_clock : option N;
  li_link_id : Uuid;
  li_event_id : Uuid
}.

(** A confirmation already stored under the key is replayed, or is a conflict. *)
Definition replay_confirmation (workspace_id idempotency_key : Uuid) (preview_digest : str)
    (row : ConfirmationRow) : result ConfirmStoredWorkItemLinkResult WorkspaceStoreError :=
  ensure guard_err (negb (cf_workspace_id row =? workspace_id) ||
                    bool_decide (cf_preview_digest row ≠ preview_digest))
           (WorkItemLinkIdempotencyConflict idempotency_key) in
  let? link :=
    match link_from_json (cf_result_json row) with
    | Ok link => Ok link
    | Err error => Err (CorruptRecord error)
    end in
  ensure validate_work_item_link link in
  Ok {| cl_link := link; cl_replayed := true |}.

Definition confirmed_link (workspace_id : Uuid) (provider : StoredWorkItemProvider)
    (role : StoredWorkItemRole) (snapshot : StoredWorkItemSnapshot) (link_id : Uuid)
    (created_at_unix_ms : Z) : StoredWorkspaceWorkItemLink :=
  {| wl_link_id := link_id; wl_workspace_id := workspace_id; wl_provider := provider;
     wl_role := role; wl_snapshot := snapshot; wl_revision := 1;
     wl_created_at_unix_ms := created_at_unix_ms; wl_updated_at_unix_ms := created_at_unix_ms |}.

Definition has_primary_link (tables : LinkTables) (workspace_id : Uuid) : bool :=
  existsb (λ r : Uuid * LinkRow,
    bool_decide (kr_workspace_id r.2 = workspace_id) && bool_decide (kr_role r.2 = lit "primary"))
    (map_to_list (kt_links tables)).

Definition confirm_work_item_link_body (db : Database) (workspace_id : Uuid)
    (idempotency_key preview_digest : str) (provider : StoredWorkItemProvider)
    (role : StoredWorkItemRole) (snapshot : StoredWorkItemSnapshot) (inputs : LinkInputs) :
    result (Database * ConfirmStoredWorkItemLinkResult) WorkspaceStoreError :=
  let? idempotency_key := parse_idempotency_key idempotency_key in
  ensure guard_err (negb (is_ok (validate_sha256_digest preview_digest)))
           StaleWorkItemLinkPreview in
  ensure validate_work_item_snapshot snapshot in
  ensure require_workspace db workspace_id in
  match kt_confirmations (db_links db) !! idempotency_key with
  | Some row =>
      let? replay := replay_confirmation workspace_id idempotency_key preview_digest row in
      Ok (db, replay)
  | None =>
      let? existing :=
        load_work_item_link_by_issue (db_links db) workspace_id provider
          (ws_issue_key snapshot) in
      ensure guard_err (bool_decide (is_Some existing)) WorkItemLinkAlreadyExists in
      ensure guard_err (bool_decide (role = Primary) &&
                        has_primary_link (db_links db) workspace_id)
               PrimaryWorkItemLinkAlreadyExists in
      let? created_at_unix_ms := unix_time_ms (li_clock inputs) in
      let link := confirmed_link workspace_id provider role snapshot (li_link_id inputs)
                    created_at_unix_ms in
      ensure validate_work_item_link link in
      let? db := insert_link db (wl_link_id link) (link_row link) in
      let? db := insert_link_event db (linked_event (li_event_id inputs) link) in
      let? db :=
        insert_confirmation db idempotency_key
          {| cf_workspace_id := workspace_id; cf_preview_digest := preview_digest;
             cf_result_json := link_to_json link;
             cf_created_at_unix_ms := created_at_unix_ms |} in
      Ok (db, {| cl_link := link; cl_replayed := false |})
  end.

Definition confirm_work_item_link (db : Database) (workspace_id : Uuid)
    (idempotency_key preview_digest : str) (provider : StoredWorkItemProvider)
    (role : StoredWorkItemRole) (snapshot : StoredWorkItemSnapshot) (inputs : LinkInputs) :
    Database * result ConfirmStoredWorkItemLinkResult WorkspaceStoreError :=
  transact db (confirm_work_item_link_body db workspace_id idempotency_key preview_digest
                 provider role snapshot inputs).

Definition confirmed_work_item_link_replay (db : Database) (workspace_id : Uuid)
    (idempotency_key preview_digest : str) :
    result (option ConfirmStoredWorkItemLinkResult) WorkspaceStoreError :=
  let? idempotency_key := parse_idempotency_key idempotency_key in
  ensure guard_err (negb (is_ok (validate_sha256_digest preview_digest)))
           StaleWorkItemLinkPreview in
  transpose_map (replay_confirmation workspace_id idempotency_key preview_digest)
    (kt_confirmations (db_links db) !! idempotency_key).

Definition list_work_item_links (db : Database) (workspace_id : Uuid) :
    result (list StoredWorkspaceWorkItemLink) WorkspaceStoreError :=
  ensure require_workspace db workspace_id in
  load_work_item_links (db_links db) workspace_id.

(** [DELETE .. WHERE workspace_id = ?1 AND link_id = ?2 AND revision = ?3]. *)
Definition delete_link (db : Database) (link : StoredWorkspaceWorkItemLink)
    (workspace_id link_id : Uuid) (revision : Z) (expected_revision : N) :
    result Database WorkspaceStoreError :=
  let tables := db_links db in
  match kt_links tables !! link_id with
  | Some row =>
      if (kr_workspace_id row =? workspace_id) && (kr_revision row =? revision)%Z then
        Ok (set_links db
              {| kt_links := delete link_id (kt_links tables);
                 kt_confirmations := kt_confirmations tables; kt_events := kt_events tables |})
      else Err (WorkItemLinkConflict expected_revision (wl_revision link))
  | None => Err (WorkItemLinkConflict expected_revision (wl_revision link))
  end.

Definition unlink_work_item_link_body (db : Database) (workspace_id link_id : Uuid)
    (expected_revision : N) (inputs : LinkInputs) :
    result (Database * StoredWorkItemUnlinkResult) WorkspaceStoreError :=
  ensure guard_err (expected_revision =? 0) InvalidWorkItemLink in
  ensure require_workspace db workspace_id in
  let? found := load_work_item_link (db_links db) workspace_id link_id in
  let? link := ok_or found (WorkItemLinkNotFound link_id) in
  ensure guard_err (negb (wl_revision link =? expected_revision))
           (WorkItemLinkConflict expected_revision (wl_revision link)) in
  let? revision := ok_or (i64_try_from expected_revision) InvalidWorkItemLink in
  let? db := delete_link db link workspace_id link_id revision expected_revision in
  let? created_at_unix_ms := unix_time_ms (li_clock inputs) in
  let? link_revision := ok_or (i64_try_from (wl_revision link)) InvalidWorkItemLink in
  let? db :=
    insert_link_event db
      {| ke_event_id := li_event_id inputs; ke_workspace_id := workspace_id;
         ke_link_id := link_id;
         ke_event := WorkItemUnlinked (wl_revision link) (ws_issue_key (wl_snapshot link));
         ke_link_revision := link_revision; ke_created_at_unix_ms := created_at_unix_ms |} in
  Ok (db, {| ul_workspace_id := workspace_id; ul_link_id := link_id;
             ul_removed_revision := wl_revision link |}).

Definition unlink_work_item_link (db : Database) (workspace_id link_id : Uuid)
    (expected_revision : N) (inputs : LinkInputs) :
    Database * result StoredWorkItemUnlinkResult WorkspaceStoreError :=
  transact db (unlink_work_item_link_body db workspace_id link_id expected_revision inputs).
End operations.

(** ** Observed work items *)

Definition ALLOWED_FILES : list str :=
  [lit "README.md"; lit "PLAN.md"; lit "FINDINGS.md"; lit "KANBAN.md"; lit "PROGRAM-BACKLOG.md"].

Definition valid_observed_key (issue_key : str) : bool :=
  match split_once 45 issue_key with
  | None => false
  | Some (project, number) =>
      (2 <=? byte_len project) && (byte_len project <=? 16)
      && match utf8 project with b :: _ => is_ascii_uppercase b | [] => false end
      && forallb (λ b, is_ascii_uppercase b || is_ascii_digit b) (utf8 project)
      && (1 <=? byte_len number) && (byte_len number <=? 10)
      && negb (starts_with (lit "0") number)
      && forallb is_ascii_digit (utf8 number)
  end.

Definition validate_observation (_ : ()) (observation : ObservedWorkItem) :
    result () WorkspaceStoreError :=
  guard_err
    (negb (valid_observed_key (ow_issue_key observation))
     || (ow_observed_at_unix_ms observation <? 0)%Z
     || bool_decide (ow_source_files observation = [])
     || (length ALLOWED_FILES <? length (ow_source_files observation))%nat
     || existsb (λ source, bool_decide (source ∉ ALLOWED_FILES)) (ow_source_files observation))
    (CorruptRecord (lit "work-item observation is invalid")).

Definition validate_observed_work_items (observations : list ObservedWorkItem) :
    result () WorkspaceStoreError :=
  ensure guard_err (64 <? length observations)%nat
           (CorruptRecord (lit "work-item observation count exceeds the store limit")) in
  try_fold validate_observation () observations.

(** One [INSERT] of the source-file loop; the row's key is the primary key. *)
Definition insert_observation (workspace_id : Uuid) (issue_key : str) (observed_at_unix_ms : Z)
    (rows : gmap (Uuid * str * str) Z) (source_file : str) :
    result (gmap (Uuid * str * str) Z) WorkspaceStoreError :=
  ensure guard_err (bool_decide (is_Some (rows !! (workspace_id, issue_key, source_file))))
           DatabaseError in
  Ok (<[(workspace_id, issue_key, source_file) := observed_at_unix_ms]> rows).

Definition insert_observations (workspace_id : Uuid) (rows : gmap (Uuid * str * str) Z)
    (observation : ObservedWorkItem) : result (gmap (Uuid * str * str) Z) WorkspaceStoreError :=
  try_fold (insert_observation workspace_id (ow_issue_key observation)
              (ow_observed_at_unix_ms observation)) rows (ow_source_files observation).

(** [CASE source_file WHEN 'README.md' THEN 0 .. END]; another name sorts as NULL, first. *)
Definition file_order (source_file : str) : option N :=
  N.of_nat <$> (fst <$> list_find (λ file, file = source_file) ALLOWED_FILES).

Definition observation_order (a b : str * str * Z) : comparison :=
  cmp_then (str_cmp a.1.1 b.1.1)
    (option_cmp N.compare (file_order a.1.2) (file_order b.1.2)).

Definition observation_rows (rows : gmap (Uuid * str * str) Z) (workspace_id : Uuid) :
    list (str * str * Z) :=
  sort_by observation_order
    (omap (λ '(id, issue_key, source_file, observed_at_unix_ms),
       if decide (id = workspace_id) then Some (issue_key, source_file, observed_at_unix_ms)
       else None) (map_to_list rows)).

(** One turn of the grouping loop: the last observation is extended or a new one starts. *)
Definition group_observation (observations : list ObservedWorkItem) (row : str * str * Z) :
    list ObservedWorkItem :=
  let '(issue_key, source_file, observed_at_unix_ms) := row in
  let fresh :=
    observations ++ [{| ow_issue_key := issue_key; ow_source_files := [source_file];
                        ow_observed_at_unix_ms := observed_at_unix_ms |}] in
  match last observations with
  | Some current =>
      if decide (ow_issue_key current = issue_key) then
        removelast observations ++
        [{| ow_issue_key := ow_issue_key current;
            ow_source_files := ow_source_files current ++ [source_file];
            ow_observed_at_unix_ms :=
              Z.max (ow_observed_at_unix_ms current) observed_at_unix_ms |}]
      else fresh
  | None => fresh
  end.

Definition load_observed_work_items (rows : gmap (Uuid * str * str) Z) (workspace_id : Uuid) :
    list ObservedWorkItem :=
  foldl group_observation [] (observation_rows rows workspace_id).

Definition replace_observed_work_items_body `{Libraries} (db : Database) (workspace_id : Uuid)
    (observations : list ObservedWorkItem) : result (Database * ()) WorkspaceStoreError :=
  ensure validate_observed_work_items observations in
  ensure require_workspace db workspace_id in
  let rows := filter (λ row, row.1.1.1 ≠ workspace_id) (db_observations db) in
  let? rows := try_fold (insert_observations workspace_id) rows observations in
  ensure guard_err (bool_decide (observations ≠ []) &&
                    negb (existsb (λ r, ce_workspace_id r =? workspace_id) (db_created_events db)))
           DatabaseError in
  Ok (set_observations db rows, ()).

(** The result is read back through a second connection, after the commit. *)
Definition replace_observed_work_items `{Libraries} (db : Database) (workspace_id : Uuid)
    (observations : list ObservedWorkItem) :
    Database * result (list ObservedWorkItem) WorkspaceStoreError :=
  let '(db', r) := transact db (replace_observed_work_items_body db workspace_id observations) in
  (db', rmap (λ _, load_observed_work_items (db_observations db') workspace_id) r).

(** ** Lemmas: the validators *)

Lemma ascii_uppercase_bound b : is_ascii_uppercase b = true → b < 128.
Proof. unfold is_ascii_uppercase, in_range. intros ?. bool_split. lia. Qed.

Lemma ascii_digit_bound b : is_ascii_digit b = true → b < 128.
Proof. unfold is_ascii_digit, in_range. intros ?. bool_split. lia. Qed.

Lemma byte_len_app s t : byte_len (s ++ t) = byte_len s + byte_len t.
Proof. induction s as [|c s IH]; cbn; [done|]. rewrite IH. lia. Qed.

Lemma byte_len_cons_pos c s : 1 ≤ byte_len (c :: s).
Proof. cbn. unfold utf8_len. repeat case_match; lia. Qed.

Lemma is_empty_byte_len s : 1 ≤ byte_len s → is_empty s = false.
Proof. destruct s; cbn; [lia|done]. Qed.

Lemma rsplit_once_unique sep s a b :
  s = a ++ sep :: b → sep ∉ b → rsplit_once sep s = Some (a, b).
Proof.
  intros -> Hb. unfold rsplit_once. rewrite reverse_app, reverse_cons, <- app_assoc.
  assert (split_once sep (reverse b ++ [sep] ++ reverse a) = Some (reverse b, reverse a)) as ->.
  { apply split_once_Some. split; [done|]. by rewrite elem_of_reverse. }
  by rewrite !reverse_involutive.
Qed.

(** The stored grammar of issue keys accepts every key a request can carry. *)
Lemma issue_key_stored key :
  valid_issue_key key = true →
  valid_jira_issue_key key = true ∧ byte_len key ≤ MAX_WORK_ITEM_ISSUE_KEY_BYTES.
Proof.
  unfold valid_issue_key, valid_jira_issue_key, MAX_WORK_ITEM_ISSUE_KEY_BYTES.
  destruct (split_once 45 key) as [[p n]|] eqn:Hs; [|done].
  apply split_once_Some in Hs as [-> Hp]. destruct (_ || _) eqn:E; [done|]. intros Hn. bool_split.
  match goal with H : forallb is_ascii_digit _ = true |- _ => rename H into Hdig end.
  match goal with H : forallb _ (utf8 p) = true |- _ => rename H into Hproj end.
  assert (45 ∉ n) as Hsep.
  { rewrite (utf8_ascii _ n ascii_digit_bound), forallb_spec in Hdig. intros Hin.
    by specialize (Hdig _ Hin). }
  rewrite (rsplit_once_unique 45 _ p n eq_refl Hsep), Hdig, byte_len_app.
  rewrite !is_empty_byte_len by lia. cbn [negb andb].
  assert (forallb (λ b, is_ascii_uppercase b || is_ascii_digit b || (b =? 95)) (utf8 p) = true) as ->.
  { rewrite forallb_spec in *. intros b Hb. by rewrite (Hproj b Hb). }
  change (byte_len (45 :: n)) with (1 + byte_len n).
  destruct (N.leb_spec (byte_len p) 32), (N.leb_spec (byte_len n) 16); lia.
Qed.

(** The link a Jira workspace is created with passes the checks of the link store. *)
Lemma jira_intent_link_valid record key link_id :
  valid_issue_key key = true → is_nil (wk_workspace_id record) = false → is_nil link_id = false →
  (0 ≤ wk_created_at_unix_ms record)%Z →
  validate_work_item_link (jira_intent_link record key link_id) = Ok ().
Proof.
  intros (Hk & Hlen)%issue_key_stored Hw Hl Ht.
  unfold validate_work_item_link, validate_work_item_snapshot, jira_intent_link;
    cbn [wl_snapshot ws_issue_key ws_fetched_at_unix_ms ws_content ws_summary ws_status
      ws_browser_url wl_link_id wl_workspace_id wl_revision wl_created_at_unix_ms
      wl_updated_at_unix_ms].
  rewrite Hk, Hw, Hl. destruct (N.ltb_spec MAX_WORK_ITEM_ISSUE_KEY_BYTES (byte_len key)); [lia|].
  cbn. destruct (Z.ltb_spec (wk_created_at_unix_ms record) 0); [lia|].
  by destruct (Z.ltb_spec (wk_created_at_unix_ms record) (wk_created_at_unix_ms record)); [lia|].
Qed.

(** ** Lemmas: reading links *)

Lemma try_map_Ok {A B E} (f : A → result B E) l r :
  try_map f l = Ok r ↔ Forall2 (λ a b, f a = Ok b) l r.
Proof.
  revert r; induction l as [|a l IH]; intros r; cbn.
  - split; [intros [= <-]; constructor|]. by inversion 1.
  - split.
    + intros (b & Hb & (bs & Hbs & [= <-])%rbind_Ok)%rbind_Ok. constructor; [done|by apply IH].
    + inversion 1 as [|? b ? bs Hb Hbs]; subst. apply IH in Hbs. by rewrite Hb; cbn; rewrite Hbs.
Qed.

Lemma Forall2_perm {A B} (R : A → B → Prop) l k r :
  l ≡ₚ k → Forall2 R l r → ∃ r', Forall2 R k r' ∧ r ≡ₚ r'.
Proof.
  intros Hp. revert r; induction Hp as [|x l k _ IH|x y l|l k m _ IH1 _ IH2]; intros r.
  - inversion 1; subst. by exists [].
  - inversion 1 as [|? b ? bs Hb Hbs]; subst. apply IH in Hbs as (r' & ? & ?).
    exists (b :: r'). split; [by constructor|by constructor].
  - inversion 1 as [|? b ? bs Hb Hbs]; subst. inversion Hbs as [|? c ? cs Hc Hcs]; subst.
    exists (c :: b :: cs). split; [by repeat constructor|by constructor].
  - intros (r1 & H1 & P1)%IH1. apply IH2 in H1 as (r2 & ? & P2). exists r2. split; [done|by etrans].
Qed.

Lemma try_map_perm {A B E} (f : A → result B E) l k r :
  l ≡ₚ k → try_map f l = Ok r → ∃ r', try_map f k = Ok r' ∧ r ≡ₚ r'.
Proof.
  intros Hp Hr%try_map_Ok. destruct (Forall2_perm _ _ _ _ Hp Hr) as (r' & Hk & ?).
  exists r'. split; [by apply try_map_Ok|done].
Qed.

#[export] Instance link_row_order_pre : PreCmp link_row_order.
Proof.
  apply (cmp_then_pre (cmp_on (λ r : Uuid * LinkRow, role_order (kr_role r.2)) N.compare)
    (λ a b, cmp_then (cmp_on (λ r : Uuid * LinkRow, kr_created_at_unix_ms r.2) Z.compare a b)
      (cmp_on fst N.compare a b))).
Qed.

Lemma work_item_role_round_trip role :
  work_item_role_from_storage (work_item_role_storage role) = Ok role.
Proof. by destruct role. Qed.

Lemma work_item_provider_round_trip provider :
  work_item_provider_from_storage (work_item_provider_storage provider) = Ok provider.
Proof. by destruct provider. Qed.

(** A stored link is decoded to itself. *)
Lemma decode_link_row w provider role snapshot id t :
  validate_work_item_link (confirmed_link w provider role snapshot id t) = Ok () →
  decode_link w (id, link_row (confirmed_link w provider role snapshot id t)) =
    Ok (confirmed_link w provider role snapshot id t).
Proof.
  intros Hv. unfold decode_link, link_row, confirmed_link in *.
  cbn [kr_provider kr_role kr_revision kr_issue_key kr_summary kr_status kr_content kr_browser_url
    kr_fetched_at_unix_ms kr_created_at_unix_ms kr_updated_at_unix_ms wl_provider wl_role wl_snapshot
    wl_created_at_unix_ms].
  rewrite work_item_provider_round_trip, work_item_role_round_trip. cbn [rbind].
  change (u64_try_from 1) with (Some 1). cbn [ok_or rbind].
  assert ({| ws_issue_key := ws_issue_key snapshot; ws_summary := ws_summary snapshot;
    ws_status := ws_status snapshot; ws_content := ws_content snapshot;
    ws_browser_url := ws_browser_url snapshot;
    ws_fetched_at_unix_ms := ws_fetched_at_unix_ms snapshot |} = snapshot) as -> by by destruct snapshot.
  by rewrite Hv.
Qed.

Lemma decode_link_id w row link : decode_link w row = Ok link →
  wl_link_id link = row.1 ∧ wl_workspace_id link = w ∧
  Z.of_N (wl_revision link) = kr_revision row.2 ∧ validate_work_item_link link = Ok () ∧
  ws_issue_key (wl_snapshot link) = kr_issue_key row.2 ∧
  work_item_role_storage (wl_role link) = kr_role row.2 ∧
  work_item_provider_storage (wl_provider link) = kr_provider row.2.
Proof.
  destruct row as [id r]. unfold decode_link. intros Hd.
  apply rbind_Ok in Hd as (provider & Hp & Hd). apply rbind_Ok in Hd as (role & Hr & Hd).
  apply rbind_Ok in Hd as (revision & Hrev & Hd).
  destruct (validate_work_item_link _) as [[]|] eqn:Hv; [|done]. injection Hd as <-. cbn.
  unfold u64_try_from in Hrev. destruct (Z.ltb_spec (kr_revision r) 0); [done|]. injection Hrev as <-.
  split_and!; try done.
  - lia.
  - unfold work_item_role_from_storage in Hr.
    repeat (case_bool_decide; [by injection Hr as <-|]). done.
  - unfold work_item_provider_from_storage in Hp. case_bool_decide; [by destruct provider|done].
Qed.

Lemma elem_of_link_rows tables w row :
  row ∈ link_rows tables w ↔ kt_links tables !! row.1 = Some row.2 ∧ kr_workspace_id row.2 = w.
Proof.
  unfold link_rows. rewrite (elem_of_sort_by link_row_order), list_elem_of_filter.
  destruct row as [id r]. rewrite elem_of_map_to_list. naive_solver.
Qed.

Lemma link_rows_insert tables id row w :
  kt_links tables !! id = None → kr_workspace_id row = w →
  ∀ confirmations events,
  link_rows {| kt_links := <[id := row]> (kt_links tables); kt_confirmations := confirmations;
               kt_events := events |} w ≡ₚ (id, row) :: link_rows tables w.
Proof.
  intros Hn Hw confirmations events. unfold link_rows; cbn [kt_links].
  rewrite !(sort_by_perm link_row_order). rewrite map_to_list_insert by done.
  by rewrite filter_cons_True.
Qed.

Lemma link_rows_delete tables id row w :
  kt_links tables !! id = Some row → kr_workspace_id row = w →
  ∀ confirmations events,
  link_rows tables w ≡ₚ (id, row) ::
    link_rows {| kt_links := delete id (kt_links tables); kt_confirmations := confirmations;
                 kt_events := events |} w.
Proof.
  intros Hs Hw confirmations events. unfold link_rows; cbn [kt_links].
  rewrite !(sort_by_perm link_row_order). rewrite <- (map_to_list_delete _ id row Hs).
  by rewrite filter_cons_True.
Qed.

(** ** Confirming and removing a link *)

Section link_theorems.
Context `{LibraryLaws}.

Lemma load_projection_links db tables w :
  load_projection (set_links db tables) w = load_projection db w.
Proof. done. Qed.

Lemma require_workspace_links db tables w :
  require_workspace (set_links db tables) w = require_workspace db w.
Proof. done. Qed.

Lemma confirm_fresh db w key digest provider role snapshot inputs db' link :
  confirm_work_item_link_body db w key digest provider role snapshot inputs =
    Ok (db', {| cl_link := link; cl_replayed := false |}) →
  ∃ id t links event, parse_idempotency_key key = Ok id ∧
    is_ok (validate_sha256_digest digest) = true ∧ require_workspace db w = Ok () ∧
    link = confirmed_link w provider role snapshot (li_link_id inputs) t ∧
    validate_work_item_link link = Ok () ∧
    kt_confirmations (db_links db) !! id = None ∧
    kt_links (db_links db) !! wl_link_id link = None ∧
    load_work_item_links (db_links db) w = Ok links ∧
    (role = Primary → has_primary_link (db_links db) w = false) ∧
    (∀ other, other ∈ links → wl_provider other = provider →
      ws_issue_key (wl_snapshot other) ≠ ws_issue_key snapshot) ∧
    db' = set_links db
      {| kt_links := <[wl_link_id link := link_row link]> (kt_links (db_links db));
         kt_confirmations :=
           <[id := {| cf_workspace_id := w; cf_preview_digest := digest;
                      cf_result_json := link_to_json link; cf_created_at_unix_ms := t |}]>
             (kt_confirmations (db_links db));
         kt_events := kt_events (db_links db) ++ [event] |}.
Proof.
  unfold confirm_work_item_link_body. intros Hb. apply rbind_Ok in Hb as (id & Hid & Hb).
  apply rbind_Ok in Hb as ([] & Hd%guard_err_Ok%negb_false_iff & Hb).
  apply rbind_Ok in Hb as ([] & Hsnap & Hb). apply rbind_Ok in Hb as ([] & Hreq & Hb).
  destruct (kt_confirmations (db_links db) !! id) as [row|] eqn:Hconf.
  { apply rbind_Ok in Hb as (replay & Hr & [= <- ->]). unfold replay_confirmation in Hr.
    apply rbind_Ok in Hr as ([] & _ & Hr). apply rbind_Ok in Hr as (l & _ & Hr).
    by apply rbind_Ok in Hr as ([] & _ & Hr). }
  apply rbind_Ok in Hb as (existing & Hex & Hb). apply rbind_Ok in Hb as ([] & Hnone%guard_err_Ok & Hb).
  apply rbind_Ok in Hb as ([] & Hprim%guard_err_Ok & Hb). apply rbind_Ok in Hb as (t & Ht & Hb).
  apply rbind_Ok in Hb as ([] & Hv & Hb). apply rbind_Ok in Hb as (db1 & H1 & Hb).
  apply rbind_Ok in Hb as (db2 & H2 & Hb). apply rbind_Ok in Hb as (db3 & H3 & [= <- <-]).
  unfold insert_link in H1. apply rbind_Ok in H1 as ([] & Hfresh%guard_err_Ok & H1).
  do 3 apply rbind_Ok in H1 as ([] & _ & H1). injection H1 as <-.
  unfold insert_link_event in H2. do 2 apply rbind_Ok in H2 as ([] & _ & H2). injection H2 as <-.
  unfold insert_confirmation in H3. apply rbind_Ok in H3 as ([] & _ & H3). injection H3 as <-.
  unfold load_work_item_link_by_issue in Hex. apply rbind_Ok in Hex as (links & Hlinks & [= <-]).
  eexists id, t, links, _. split_and!; try done.
  - apply bool_decide_eq_false_1 in Hfresh. by apply eq_None_not_Some.
  - intros ->. by destruct (has_primary_link (db_links db) w).
  - intros other Hin Hp Hk. apply bool_decide_eq_false_1 in Hnone. apply Hnone.
    rewrite fmap_is_Some.
    by destruct (list_find_elem_of (λ l, wl_provider l = provider ∧
      ws_issue_key (wl_snapshot l) = ws_issue_key snapshot) links other Hin) as [x ->].
Qed.

(** Confirming a link is idempotent and visible.  The confirmed link is the one listed
    next to the links the workspace had; the same key and preview digest return that link
    whatever snapshot, role or clock comes with them, before or after the preview is
    validated again; the same key with another digest is a conflict. *)
Theorem confirm_link_replays db w key digest provider role snapshot inputs db' link :
  confirm_work_item_link db w key digest provider role snapshot inputs =
    (db', Ok {| cl_link := link; cl_replayed := false |}) →
  (∃ links links', list_work_item_links db w = Ok links ∧
     list_work_item_links db' w = Ok links' ∧ links' ≡ₚ link :: links) ∧
  (∀ provider' role' snapshot' inputs', validate_work_item_snapshot snapshot' = Ok () →
     confirm_work_item_link db' w key digest provider' role' snapshot' inputs' =
       (db', Ok {| cl_link := link; cl_replayed := true |})) ∧
  confirmed_work_item_link_replay db' w key digest =
    Ok (Some {| cl_link := link; cl_replayed := true |}) ∧
  ∀ digest' provider' role' snapshot' inputs', validate_work_item_snapshot snapshot' = Ok () →
    is_ok (validate_sha256_digest digest') = true → digest' ≠ digest →
    ∃ id, confirm_work_item_link db' w key digest' provider' role' snapshot' inputs' =
      (db', Err (WorkItemLinkIdempotencyConflict id)).
Proof.
  unfold confirm_work_item_link.
  destruct (confirm_work_item_link_body _ _ _ _ _ _ _ _) as [[db1 r]|] eqn:Hb; [|done].
  intros [= -> ->]. apply confirm_fresh in Hb as (id & t & links & event & Hid & Hd & Hreq & Hlink & Hv &
    Hconf & Hfresh & Hlinks & Hprim & Huniq & Hdb).
  set (row := {| cf_workspace_id := w; cf_preview_digest := digest;
                 cf_result_json := link_to_json link; cf_created_at_unix_ms := t |}) in *.
  assert (kt_confirmations (db_links db') !! id = Some row) as Hrow.
  { subst db'. cbn. by rewrite lookup_insert_eq. }
  assert (require_workspace db' w = Ok ()) as Hreq' by by subst db'.
  assert (replay_confirmation w id digest row = Ok {| cl_link := link; cl_replayed := true |}) as Hrep.
  { unfold replay_confirmation. cbn. rewrite N.eqb_refl, bool_decide_eq_false_2 by (intros Hx; by apply Hx).
    cbn. by rewrite link_json_round_trip; cbn [rbind]; rewrite Hv. }
  split_and!.
  - exists links. unfold list_work_item_links. rewrite Hreq, Hreq'. cbn [rbind].
    rewrite Hlinks. unfold load_work_item_links in *.
    destruct (try_map_perm (decode_link w) ((wl_link_id link, link_row link) :: link_rows (db_links db) w)
      (link_rows (db_links db') w) (link :: links)) as (links' & Hl' & Hp).
    + subst db'. symmetry. apply link_rows_insert; [done|]. by subst link.
    + cbn [try_map]. subst link. rewrite decode_link_row by done. cbn [rbind]. by rewrite Hlinks.
    + by exists links'.
  - intros provider' role' snapshot' inputs' Hs. unfold confirm_work_item_link_body.
    rewrite Hid, Hd, Hs, Hreq'. cbn [rbind negb guard_err]. by rewrite Hrow, Hrep.
  - unfold confirmed_work_item_link_replay. rewrite Hid, Hd. cbn [rbind negb guard_err].
    rewrite Hrow. cbn [transpose_map]. by rewrite Hrep.
  - intros digest' provider' role' snapshot' inputs' Hs Hd' Hne. exists id.
    unfold confirm_work_item_link_body. rewrite Hid, Hd', Hs, Hreq'. cbn [rbind negb guard_err].
    rewrite Hrow. unfold replay_confirmation. cbn [cf_preview_digest cf_workspace_id row].
    by rewrite bool_decide_eq_true_2, orb_true_r by (intros Hx; by apply Hne).
Qed.

Lemma delete_link_Ok db link w id revision expected db' :
  delete_link db link w id revision expected = Ok db' →
  ∃ row, kt_links (db_links db) !! id = Some row ∧ kr_workspace_id row = w ∧
    kr_revision row = revision ∧
    db' = set_links db
      {| kt_links := delete id (kt_links (db_links db));
         kt_confirmations := kt_confirmations (db_links db); kt_events := kt_events (db_links db) |}.
Proof.
  unfold delete_link. destruct (kt_links (db_links db) !! id) as [row|]; [|done].
  destruct (_ && _) eqn:E; [|done]. bool_split. intros [= <-]. by exists row.
Qed.

Lemma unlink_body_Ok db w id expected inputs db' r :
  unlink_work_item_link_body db w id expected inputs = Ok (db', r) →
  ∃ links link row event, require_workspace db w = Ok () ∧
    load_work_item_links (db_links db) w = Ok links ∧ link ∈ links ∧ wl_link_id link = id ∧
    wl_revision link = expected ∧ kt_links (db_links db) !! id = Some row ∧
    kr_workspace_id row = w ∧
    r = {| ul_workspace_id := w; ul_link_id := id; ul_removed_revision := expected |} ∧
    db' = set_links db
      {| kt_links := delete id (kt_links (db_links db));
         kt_confirmations := kt_confirmations (db_links db);
         kt_events := kt_events (db_links db) ++ [event] |}.
Proof.
  unfold unlink_work_item_link_body. intros Hb. apply rbind_Ok in Hb as ([] & _ & Hb).
  apply rbind_Ok in Hb as ([] & Hreq & Hb). apply rbind_Ok in Hb as (found & Hf & Hb).
  apply rbind_Ok in Hb as (link & Hlink & Hb). apply rbind_Ok in Hb as ([] & Hrev%guard_err_Ok & Hb).
  apply rbind_Ok in Hb as (revision & _ & Hb).
  apply rbind_Ok in Hb as (db1 & (row & Hrow & Hw & _ & ->)%delete_link_Ok & Hb).
  apply rbind_Ok in Hb as (t & _ & Hb). apply rbind_Ok in Hb as (lr & _ & Hb).
  apply rbind_Ok in Hb as (db2 & H2 & [= <- <-]).
  unfold insert_link_event in H2. do 2 apply rbind_Ok in H2 as ([] & _ & H2). injection H2 as <-.
  unfold load_work_item_link in Hf. apply rbind_Ok in Hf as (links & Hlinks & [= <-]).
  destruct (list_find _ links) as [[i l]|] eqn:Hfind; [|done]. injection Hlink as ->.
  apply list_find_Some in Hfind as (Hi & Hid & _). apply list_elem_of_lookup_2 in Hi.
  apply negb_false_iff, N.eqb_eq in Hrev. exists links, link, row. eexists.
  split_and!; try done. by subst expected.
Qed.

Lemma load_link_missing tables w id :
  kt_links tables !! id = None →
  ∀ links, load_work_item_links tables w = Ok links → load_work_item_link tables w id = Ok None.
Proof.
  intros Hn links Hl. unfold load_work_item_link. rewrite Hl. cbn [rbind].
  destruct (list_find _ links) as [[i l]|] eqn:Hf; [|done]. exfalso.
  apply list_find_Some in Hf as (Hi & Hid & _). apply try_map_Ok in Hl.
  destruct (Forall2_lookup_r _ _ _ i l Hl Hi) as (row & Hrow & Hd).
  apply list_elem_of_lookup_2, elem_of_link_rows in Hrow as [Hrow _].
  apply decode_link_id in Hd as (Hlid & _). congruence.
Qed.

(** a link is removed under the revision it was read with, and completely.  The removed
    link was listed with that identifier and revision, the other links of the workspace stay
    as they were, and a second removal finds nothing. *)
Theorem unlink_removes db w id expected inputs db' r :
  unlink_work_item_link db w id expected inputs = (db', Ok r) →
  (∃ link links links', list_work_item_links db w = Ok links ∧
     list_work_item_links db' w = Ok links' ∧ links ≡ₚ link :: links' ∧
     wl_link_id link = id ∧ wl_revision link = expected ∧ ul_removed_revision r = expected) ∧
  ∀ expected' inputs', expected' ≠ 0 →
    unlink_work_item_link db' w id expected' inputs' = (db', Err (WorkItemLinkNotFound id)).
Proof.
  unfold unlink_work_item_link. destruct (unlink_work_item_link_body _ _ _ _ _) as [[db1 r1]|] eqn:Hb; [|done].
  intros [= -> ->]. apply unlink_body_Ok in Hb as (links & link & row & event & Hreq & Hlinks & Hin & Hid &
    Hrev & Hrow & Hw & Hr & Hdb).
  assert (require_workspace db' w = Ok ()) as Hreq' by by subst db'.
  assert (link_rows (db_links db) w ≡ₚ (id, row) :: link_rows (db_links db') w) as Hperm.
  { subst db'. by apply link_rows_delete. }
  pose proof Hlinks as Hlinks'. unfold load_work_item_links in Hlinks'.
  destruct (try_map_perm _ _ _ _ Hperm Hlinks') as (all & Hall & Hp). cbn [try_map] in Hall.
  apply rbind_Ok in Hall as (link' & Hdec & Hall). apply rbind_Ok in Hall as (links' & Hl' & [= <-]).
  split.
  - exists link', links, links'. unfold list_work_item_links. rewrite Hreq, Hreq'. cbn [rbind].
    assert (link = link') as ->.
    { apply try_map_Ok in Hlinks'. apply list_elem_of_lookup_1 in Hin as [i Hi].
      destruct (Forall2_lookup_r _ _ _ i link Hlinks' Hi) as ([j row'] & Hrow' & Hd).
      apply list_elem_of_lookup_2, elem_of_link_rows in Hrow' as [Hrow' _]. cbn in Hrow'.
      pose proof (decode_link_id _ _ _ Hd) as (Hj & _). cbn in Hj. congruence. }
    subst r. by split_and!.
  - intros expected' inputs' Hne. unfold unlink_work_item_link_body.
    destruct (N.eqb_spec expected' 0); [done|]. cbn [guard_err rbind]. rewrite Hreq'. cbn [rbind].
    rewrite (load_link_missing _ w id) with (links := links'); [done| |done].
    subst db'. cbn. by rewrite lookup_delete_eq.
Qed.
End link_theorems.
