(* ===== verification/StoreObserved.v ===== *)
(** * Observed work items: what was stored is read back ([crates/wts-store/src/sqlite.rs])

    [replace_observed_work_items] spreads every observation over one row per source file and
    [load_observed_work_items] groups the rows again.  The theorem here is that the grouping
    undoes the spreading. *)

From S2P Require Import Prelude Order Text Workspace StoreBase StoreItems.

Local Open Scope N_scope.

(** ** The rows of a list of observations *)

Definition flat_observation (o : ObservedWorkItem) : list (str * str * Z) :=
  (λ f, (ow_issue_key o, f, ow_observed_at_unix_ms o)) <$> ow_source_files o.

Definition flat (l : list ObservedWorkItem) : list (str * str * Z) := l ≫= flat_observation.

(** The issue keys and files an observation list names, in order. *)
Definition sightings (l : list ObservedWorkItem) : list (str * str) := fst <$> flat l.

(** The form a read returns: keys in order, each once, each with its files in order. *)
Definition canonical_observations (l : list ObservedWorkItem) : Prop :=
  StronglySorted (λ a b, str_cmp (ow_issue_key a) (ow_issue_key b) = Lt) l ∧
  Forall (λ o, ow_source_files o ≠ [] ∧
    StronglySorted (λ f g, option_cmp N.compare (file_order f) (file_order g) = Lt)
      (ow_source_files o)) l.

#[export] Instance observation_order_pre : PreCmp observation_order.
Proof.
  apply (cmp_then_pre (cmp_on (λ r : str * str * Z, r.1.1) str_cmp)
    (cmp_on (λ r : str * str * Z, file_order r.1.2) (option_cmp N.compare))).
Qed.

(** ** Grouping *)

Lemma group_sightings acc row :
  sightings (group_observation acc row) = sightings acc ++ [row.1].
Proof.
  destruct row as [[k f] t]. unfold group_observation, sightings, flat.
  assert (∀ o, fst <$> ((acc ++ [o]) ≫= flat_observation) =
    (fst <$> (acc ≫= flat_observation)) ++ (fst <$> flat_observation o)) as Hsnoc.
  { intros o. rewrite bind_app, fmap_app. cbn. by rewrite app_nil_r. }
  destruct (last acc) as [cur|] eqn:Hl; [|by rewrite Hsnoc].
  destruct (decide (ow_issue_key cur = k)) as [<-|]; [|by rewrite Hsnoc].
  apply last_Some in Hl as [acc' ->]. rewrite removelast_last, !bind_app, !fmap_app. cbn.
  rewrite !app_nil_r, <- app_assoc. f_equal. unfold flat_observation; cbn.
  by rewrite <- !list_fmap_compose, fmap_app.
Qed.

Lemma fold_sightings rows acc :
  sightings (foldl group_observation acc rows) = sightings acc ++ rows.*1.
Proof.
  revert acc; induction rows as [|row rows IH]; intros acc; cbn [foldl];
    [by rewrite app_nil_r|].
  by rewrite IH, group_sightings, <- app_assoc.
Qed.

Lemma group_extend acc k fs t gs :
  foldl group_observation
    (acc ++ [{| ow_issue_key := k; ow_source_files := fs; ow_observed_at_unix_ms := t |}])
    ((λ f, (k, f, t)) <$> gs) =
  acc ++ [{| ow_issue_key := k; ow_source_files := fs ++ gs; ow_observed_at_unix_ms := t |}].
Proof.
  revert fs; induction gs as [|g gs IH]; intros fs; cbn [fmap list_fmap foldl];
    [by rewrite app_nil_r|].
  unfold group_observation at 2. rewrite last_snoc. cbn [ow_issue_key].
  rewrite decide_True, removelast_last, Z.max_id by done. cbn [ow_source_files].
  by rewrite IH, <- app_assoc.
Qed.

Lemma group_one acc o :
  ow_source_files o ≠ [] → (∀ p, last acc = Some p → ow_issue_key p ≠ ow_issue_key o) →
  foldl group_observation acc (flat_observation o) = acc ++ [o].
Proof.
  destruct o as [k [|f fs] t]; cbn [ow_source_files ow_issue_key]; [done|]. intros _ Hl.
  unfold flat_observation; cbn [ow_source_files ow_issue_key ow_observed_at_unix_ms].
  cbn [fmap list_fmap foldl]. unfold group_observation at 2.
  destruct (last acc) as [p|] eqn:E; [rewrite decide_False by by apply Hl|];
    apply (group_extend acc k [f] t fs).
Qed.

(** Grouping the rows of canonical observations gives the observations. *)
Lemma group_flat l acc :
  canonical_observations l →
  (∀ p o, last acc = Some p → o ∈ l → ow_issue_key p ≠ ow_issue_key o) →
  foldl group_observation acc (flat l) = acc ++ l.
Proof.
  intros [Hs Hf]. revert acc Hf; induction Hs as [|o l Hs IH Ho]; intros acc Hf Hl.
  { cbn. by rewrite app_nil_r. }
  apply Forall_cons in Hf as [[Hne _] Hf]. unfold flat. cbn [mbind list_bind]. rewrite foldl_app.
  rewrite group_one by (done || intros p Hp; apply (Hl p o Hp); left).
  change (l ≫= flat_observation) with (flat l). rewrite IH; [by rewrite <- app_assoc|done|].
  intros p q Hp Hq. rewrite last_snoc in Hp. injection Hp as <-.
  rewrite Forall_forall in Ho. specialize (Ho q Hq). intros Heq. rewrite Heq in Ho.
  by rewrite (cmp_refl str_cmp) in Ho.
Qed.

(** ** Writing the rows *)

Lemma observation_rows_unsorted rows w :
  observation_rows rows w ≡ₚ
    omap (λ '(id, k, f, t), if decide (id = w) then Some (k, f, t) else None) (map_to_list rows).
Proof. apply sort_by_perm. Qed.

Lemma observation_rows_insert rows w k f t :
  rows !! (w, k, f) = None →
  observation_rows (<[(w, k, f) := t]> rows) w ≡ₚ (k, f, t) :: observation_rows rows w.
Proof.
  intros Hn. rewrite !observation_rows_unsorted, map_to_list_insert by done.
  cbn. by rewrite decide_True.
Qed.

(** The rows of another workspace are not touched. *)
Definition same_elsewhere (w : Uuid) (rows rows' : gmap (Uuid * str * str) Z) : Prop :=
  ∀ w' k f, w' ≠ w → rows' !! (w', k, f) = rows !! (w', k, f).

Lemma insert_observation_Ok w k t rows f rows' :
  insert_observation w k t rows f = Ok rows' →
  rows !! (w, k, f) = None ∧ rows' = <[(w, k, f) := t]> rows.
Proof.
  unfold insert_observation. intros ([] & Hg%guard_err_Ok & [= <-])%rbind_Ok.
  apply bool_decide_eq_false_1 in Hg. split; [by apply eq_None_not_Some|done].
Qed.

Lemma insert_files_rows w k t files rows rows' :
  try_fold (insert_observation w k t) rows files = Ok rows' →
  observation_rows rows' w ≡ₚ ((λ f, (k, f, t)) <$> files) ++ observation_rows rows w ∧
  same_elsewhere w rows rows'.
Proof.
  revert rows; induction files as [|f files IH]; intros rows; cbn [try_fold].
  { intros [= <-]. split; [done|]. by intros ???. }
  intros (rows1 & (Hn & ->)%insert_observation_Ok & Hr)%rbind_Ok. apply IH in Hr as [Hp Hs]. split.
  - rewrite Hp, observation_rows_insert by done. cbn. by rewrite Permutation_middle.
  - intros w' k' f' Hne. rewrite Hs by done. by rewrite lookup_insert_ne by congruence.
Qed.

Lemma insert_all_rows w l rows rows' :
  try_fold (insert_observations w) rows l = Ok rows' →
  observation_rows rows' w ≡ₚ flat l ++ observation_rows rows w ∧ same_elsewhere w rows rows'.
Proof.
  revert rows; induction l as [|o l IH]; intros rows; cbn [try_fold].
  { intros [= <-]. split; [done|]. by intros ???. }
  intros (rows1 & H1 & Hr)%rbind_Ok. unfold insert_observations in H1.
  apply insert_files_rows in H1 as [Hp1 Hs1]. apply IH in Hr as [Hp Hs]. split.
  - rewrite Hp, Hp1. unfold flat; cbn [mbind list_bind]. unfold flat_observation at 2.
    rewrite !app_assoc. by rewrite (Permutation_app_comm (l ≫= flat_observation)).
  - intros w' k' f' Hne. by rewrite Hs, Hs1.
Qed.

Lemma observation_rows_cleared (rows : gmap (Uuid * str * str) Z) w :
  observation_rows (filter (λ row, row.1.1.1 ≠ w) rows) w = [].
Proof.
  apply Permutation_nil_r. rewrite observation_rows_unsorted. apply Permutation_nil_r.
  apply elem_of_nil_inv. intros row (x & Hx & Hrow)%list_elem_of_omap.
  destruct x as [[[id k] f] t]. apply elem_of_map_to_list, map_lookup_filter_Some in Hx as [_ Hne].
  cbn in Hne. by rewrite decide_False in Hrow.
Qed.

(** The rows of canonical observations are in order. *)
Lemma flat_sorted l :
  canonical_observations l → StronglySorted (λ a b, observation_order a b = Lt) (flat l).
Proof.
  intros [Hs Hf]. induction Hs as [|o l Hs IH Ho]; [constructor|].
  apply Forall_cons in Hf as [[_ Hfiles] Hf]. apply StronglySorted_app_2; [| |by apply IH].
  - intros x y (f & -> & _)%list_elem_of_fmap (p & Hy & Hp)%list_elem_of_bind.
    apply list_elem_of_fmap in Hy as (g & -> & _). rewrite Forall_forall in Ho.
    unfold observation_order; cbn. by rewrite (Ho p Hp).
  - apply StronglySorted_fmap with (R1 := λ f g, option_cmp N.compare (file_order f) (file_order g) = Lt).
    + intros f g Hfg. unfold observation_order; cbn. by rewrite (cmp_refl str_cmp).
    + exact Hfiles.
Qed.

Lemma observation_rows_flat rows w l :
  canonical_observations l → observation_rows rows w ≡ₚ flat l → observation_rows rows w = flat l.
Proof.
  intros Hl%flat_sorted Hp. apply (StronglySorted_unique_strong (cmp_le observation_order)).
  - intros x y Hx Hy H1 H2. rewrite Hp in Hx.
    assert (observation_order x y = Eq) as Heq by by apply (cmp_Eq_iff observation_order).
    clear -Hl Hx Hy Heq. induction Hl as [|z k Hs IH Hz]; [by apply elem_of_nil in Hx|].
    rewrite Forall_forall in Hz. apply elem_of_cons in Hx as [->|Hx], Hy as [->|Hy]; try done.
    + rewrite (Hz y Hy) in Heq. done.
    + apply (cmp_Eq_sym observation_order) in Heq. rewrite (Hz x Hx) in Heq. done.
    + by apply IH.
  - apply (sort_by_sorted observation_order).
  - clear -Hl. induction Hl as [|z k Hs IH Hz]; constructor; [done|].
    eapply Forall_impl; [exact Hz|]. intros y Hy. unfold cmp_le. by rewrite Hy.
  - done.
Qed.

Section observed.
Context `{Libraries}.

Lemma replace_body_Ok db w l db' u :
  replace_observed_work_items_body db w l = Ok (db', u) →
  db' = set_observations db (db_observations db') ∧
  observation_rows (db_observations db') w ≡ₚ flat l ∧
  same_elsewhere w (db_observations db) (db_observations db').
Proof.
  unfold replace_observed_work_items_body. intros Hb. do 2 apply rbind_Ok in Hb as ([] & _ & Hb).
  apply rbind_Ok in Hb as (rows & Hr & Hb). apply rbind_Ok in Hb as ([] & _ & [= <- _]).
  apply insert_all_rows in Hr as [Hp Hs]. split_and!; [done| |].
  - cbn. by rewrite Hp, observation_rows_cleared, app_nil_r.
  - intros w' k f Hne. cbn. rewrite Hs by done. rewrite map_lookup_filter.
    destruct (db_observations db !! (w', k, f)); [|done]. cbn. by rewrite option_guard_True.
Qed.

(** What [replace_observed_work_items] stored is what is read back: canonical
    observations come back as they were given, any others with the same keys and files, in
    order; the rows of the other workspaces and the other tables stay as they were. *)
Theorem replace_read_back db w l db' r :
  replace_observed_work_items db w l = (db', Ok r) →
  r = load_observed_work_items (db_observations db') w ∧
  (canonical_observations l → r = l) ∧
  (sightings r ≡ₚ sightings l ∧
   StronglySorted (λ a b, cmp_then (str_cmp a.1 b.1)
     (option_cmp N.compare (file_order a.2) (file_order b.2)) ≠ Gt) (sightings r)) ∧
  same_elsewhere w (db_observations db) (db_observations db') ∧
  db' = set_observations db (db_observations db').
Proof.
  unfold replace_observed_work_items.
  destruct (replace_observed_work_items_body db w l) as [[db1 u]|] eqn:Hb; [|done].
  cbn [transact rmap]. intros [= -> <-]. apply replace_body_Ok in Hb as (Hdb & Hp & Hs).
  assert (sightings (load_observed_work_items (db_observations db') w) =
    (observation_rows (db_observations db') w).*1) as Hsight.
  { unfold load_observed_work_items. by rewrite fold_sightings. }
  split_and!; try done.
  - intros Hl. unfold load_observed_work_items. rewrite (observation_rows_flat _ _ l) by done.
    by rewrite group_flat.
  - rewrite Hsight. unfold sightings. by rewrite Hp.
  - rewrite Hsight. eapply StronglySorted_fmap; [|apply (sort_by_sorted observation_order)].
    done.
Qed.
End observed.
