(* ===== verification/StoreReviews.v ===== *)
(** * Review threads ([crates/wts-store/src/sqlite.rs])

    Threads of comments on a planning document, a verification check or a code change.  Each
    kind has its own thread and comment table; a thread is created open with one comment and
    can be resolved once ([create_review_thread], [resolve_review_thread],
    [list_review_threads]). *)

From S2P Require Import Prelude Order Text Workspace StoreBase StoreItems.

Local Open Scope N_scope.

Definition MAX_REVIEW_COMMENT_BYTES : N := 16 * 1024.
Definition MAX_REVIEW_THREADS_PER_WORKSPACE : N := 2000.

(** ** Validation *)

Definition document_ids : list str :=
  [lit "readme"; lit "plan"; lit "findings"; lit "kanban"; lit "programBacklog"].

Definition valid_oid (value : str) : bool :=
  ((byte_len value =? 40) || (byte_len value =? 64)) && forallb is_ascii_hexdigit (utf8 value).

Definition validate_review_target (target : StoredReviewTarget) : result () WorkspaceStoreError :=
  match target with
  | PlanningDocument document_id document_sha256 line =>
      guard_err
        (bool_decide (document_id ∉ document_ids)
         || negb (byte_len document_sha256 =? 71)
         || negb (starts_with (lit "sha256:") document_sha256)
         || negb (forallb is_lower_hex (drop 7 (utf8 document_sha256)))
         || match line with Some value => (value =? 0) || (1000000 <? value) | None => false end)
        InvalidReviewThread
  | VerificationCheck plan_revision completed_at_unix_ms check_id =>
      guard_err
        ((plan_revision =? 0) || (Z.to_N i64_max <? plan_revision)
         || (completed_at_unix_ms <? 0)%Z
         || is_empty check_id || (128 <? byte_len check_id)
         || negb (forallb (λ b, is_ascii_alphanumeric b || (b =? 45) || (b =? 95) || (b =? 46))
                    (utf8 check_id)))
        InvalidReviewThread
  | CodeChange repository_id base_commit_oid head_commit_oid patch_sha256 file_path side line =>
      guard_err
        (is_empty repository_id || bool_decide (trim repository_id ≠ repository_id)
         || (512 <? byte_len repository_id)
         || negb (valid_oid base_commit_oid) || negb (valid_oid head_commit_oid)
         || negb (is_ok (validate_sha256_digest patch_sha256))
         || is_empty file_path || (4096 <? byte_len file_path)
         || existsb (λ b, b =? 0) (utf8 file_path)
         || is_absolute file_path
         || negb (forallb (λ c, match c with NormalDir _ => true | _ => false end)
                    (path_components file_path))
         || bool_decide (side ∉ [lit "additions"; lit "deletions"])
         || (line =? 0) || (1000000 <? line))
        InvalidReviewThread
  end.

Definition normalize_review_body (body : str) : result str WorkspaceStoreError :=
  ensure guard_err (MAX_REVIEW_COMMENT_BYTES <? byte_len body) ReviewCommentTooLarge in
  let body := trim body in
  ensure guard_err
    (is_empty body || existsb (λ b, b =? 0) (utf8 body)
     || existsb (λ c, is_control c && negb (is_text_control c)) body) InvalidReviewThread in
  Ok body.

Definition review_author_storage (author : StoredReviewAuthor) : str :=
  match author with User => lit "user" | Agent => lit "agent" end.

Definition review_author_from_storage (author : str) :
    result StoredReviewAuthor WorkspaceStoreError :=
  if bool_decide (author = lit "user") then Ok User
  else if bool_decide (author = lit "agent") then Ok Agent
  else Err (CorruptRecord (lit "workspace review comment author is invalid")).

(** [validate_review_thread_metadata]; [load_review_thread] makes the same checks inline. *)
Definition validate_review_thread_metadata (state : str) (revision created_at_unix_ms
    updated_at_unix_ms : Z) (resolved_at_unix_ms : option Z) :
    result (StoredReviewThreadState * N) WorkspaceStoreError :=
  let? state :=
    if bool_decide (state = lit "open") then Ok Open
    else if bool_decide (state = lit "resolved") then Ok Resolved
    else Err (CorruptRecord (lit "workspace review thread state is invalid")) in
  let? revision :=
    ok_or (u64_try_from revision)
      (CorruptRecord (lit "workspace review thread revision is invalid")) in
  ensure guard_err
    ((revision =? 0) || (created_at_unix_ms <? 0)%Z
     || (updated_at_unix_ms <? created_at_unix_ms)%Z
     || match resolved_at_unix_ms with
        | Some value => (value <? created_at_unix_ms)%Z
        | None => false
        end
     || (bool_decide (state = Open) && bool_decide (is_Some resolved_at_unix_ms))
     || (bool_decide (state = Resolved) && bool_decide (resolved_at_unix_ms = None)))
    (CorruptRecord (lit "workspace review thread metadata is invalid")) in
  Ok (state, revision).

(** ** Reading threads *)

Inductive ReviewCommentTable := PlanningComments | VerificationComments | CodeComments.

Definition comment_table (tables : ReviewTables) (table : ReviewCommentTable) : list CommentRow :=
  match table with
  | PlanningComments => vt_planning_comments tables
  | VerificationComments => vt_verification_comments tables
  | CodeComments => vt_code_comments tables
  end.

Definition decode_comment (row : CommentRow) : result StoredReviewComment WorkspaceStoreError :=
  let? author := review_author_from_storage (cr_author row) in
  let body_is_canonical :=
    match normalize_review_body (cr_body row) with
    | Ok normalized => bool_decide (normalized = cr_body row)
    | Err _ => false
    end in
  ensure guard_err (negb body_is_canonical || (cr_created_at_unix_ms row <? 0)%Z)
           (CorruptRecord (lit "workspace review comment is invalid")) in
  Ok {| rc_comment_id := cr_comment_id row; rc_author := author; rc_body := cr_body row;
        rc_created_at_unix_ms := cr_created_at_unix_ms row |}.

Definition load_review_comments (tables : ReviewTables) (thread_id : Uuid)
    (table : ReviewCommentTable) : result (list StoredReviewComment) WorkspaceStoreError :=
  try_map decode_comment (filter (λ row, cr_thread_id row = thread_id) (comment_table tables table)).

(** The common tail of the three loaders, after the target was decoded. *)
Definition load_thread_tail {A} (tables : ReviewTables) (thread_id : Uuid) (row : ThreadRow A)
    (target : StoredReviewTarget) (table : ReviewCommentTable)
    (invalid_target no_comments : str) : result StoredReviewThread WorkspaceStoreError :=
  ensure match validate_review_target target with
         | Ok _ => Ok ()
         | Err _ => Err (CorruptRecord invalid_target)
         end in
  let? (state, revision) :=
    validate_review_thread_metadata (tr_state row) (tr_revision row) (tr_created_at_unix_ms row)
      (tr_updated_at_unix_ms row) (tr_resolved_at_unix_ms row) in
  let? comments := load_review_comments tables thread_id table in
  ensure guard_err (bool_decide (comments = [])) (CorruptRecord no_comments) in
  Ok {| rt_thread_id := thread_id; rt_workspace_id := tr_workspace_id row; rt_target := target;
        rt_state := state; rt_revision := revision; rt_comments := comments;
        rt_created_at_unix_ms := tr_created_at_unix_ms row;
        rt_updated_at_unix_ms := tr_updated_at_unix_ms row;
        rt_resolved_at_unix_ms := tr_resolved_at_unix_ms row |}.

(** [WHERE workspace_id = ?1 AND thread_id = ?2]. *)
Definition thread_row {A} (rows : gmap Uuid (ThreadRow A)) (workspace_id thread_id : Uuid) :
    option (ThreadRow A) :=
  row ← rows !! thread_id;
  if decide (tr_workspace_id row = workspace_id) then Some row else None.

Definition planning_target (row : ThreadRow PlanningAnchor) :
    result StoredReviewTarget WorkspaceStoreError :=
  let anchor := tr_target row in
  let? line :=
    transpose_map (λ value, ok_or (u32_try_from value) InvalidReviewThread) (pa_line anchor) in
  Ok (PlanningDocument (pa_document_id anchor) (pa_document_sha256 anchor) line).

Definition load_review_thread (tables : ReviewTables) (workspace_id thread_id : Uuid) :
    result (option StoredReviewThread) WorkspaceStoreError :=
  transpose_map (λ row,
    let? target := planning_target row in
    load_thread_tail tables thread_id row target PlanningComments
      (lit "workspace review target is invalid")
      (lit "workspace review thread has no comments"))
    (thread_row (vt_planning tables) workspace_id thread_id).

Definition verification_target (row : ThreadRow VerificationAnchor) :
    result StoredReviewTarget WorkspaceStoreError :=
  let anchor := tr_target row in
  let? plan_revision :=
    ok_or (u64_try_from (va_plan_revision anchor))
      (CorruptRecord (lit "workspace verification review plan revision is invalid")) in
  Ok (VerificationCheck plan_revision (va_completed_at_unix_ms anchor) (va_check_id anchor)).

Definition load_verification_review_thread (tables : ReviewTables)
    (workspace_id thread_id : Uuid) : result (option StoredReviewThread) WorkspaceStoreError :=
  transpose_map (λ row,
    let? target := verification_target row in
    load_thread_tail tables thread_id row target VerificationComments
      (lit "workspace verification review target is invalid")
      (lit "workspace verification review thread has no comments"))
    (thread_row (vt_verification tables) workspace_id thread_id).

Definition code_target (row : ThreadRow CodeAnchor) :
    result StoredReviewTarget WorkspaceStoreError :=
  let anchor := tr_target row in
  let? line :=
    ok_or (u32_try_from (ca_line anchor))
      (CorruptRecord (lit "workspace code review line is invalid")) in
  Ok (CodeChange (ca_repository_id anchor) (ca_base_commit_oid anchor)
        (ca_head_commit_oid anchor) (ca_patch_sha256 anchor) (ca_file_path anchor)
        (ca_side anchor) line).

Definition load_code_review_thread (tables : ReviewTables) (workspace_id thread_id : Uuid) :
    result (option StoredReviewThread) WorkspaceStoreError :=
  transpose_map (λ row,
    let? target := code_target row in
    load_thread_tail tables thread_id row target CodeComments
      (lit "workspace code review target is invalid")
      (lit "workspace code review thread has no comments"))
    (thread_row (vt_code tables) workspace_id thread_id).

(** [SELECT thread_id .. WHERE workspace_id = ?1 ORDER BY updated_at_unix_ms DESC, thread_id]. *)
Definition thread_ids {A} (rows : gmap Uuid (ThreadRow A)) (workspace_id : Uuid) : list Uuid :=
  fst <$> sort_by (λ a b : Uuid * ThreadRow A,
    cmp_then (Z.compare (tr_updated_at_unix_ms b.2) (tr_updated_at_unix_ms a.2))
             (N.compare a.1 b.1))
    (filter (λ row, tr_workspace_id row.2 = workspace_id) (map_to_list rows)).

(** The three list loaders: every identifier is loaded again by itself. *)
Definition load_threads {A} (rows : gmap Uuid (ThreadRow A)) (workspace_id : Uuid)
    (load : Uuid → result (option StoredReviewThread) WorkspaceStoreError) (disappeared : str) :
    result (list StoredReviewThread) WorkspaceStoreError :=
  try_map (λ thread_id,
    let? thread := load thread_id in
    ok_or thread (CorruptRecord disappeared)) (thread_ids rows workspace_id).

Definition load_review_threads (tables : ReviewTables) (workspace_id : Uuid) :
    result (list StoredReviewThread) WorkspaceStoreError :=
  load_threads (vt_planning tables) workspace_id (load_review_thread tables workspace_id)
    (lit "workspace review thread disappeared during a read").

Definition load_verification_review_threads (tables : ReviewTables) (workspace_id : Uuid) :
    result (list StoredReviewThread) WorkspaceStoreError :=
  load_threads (vt_verification tables) workspace_id
    (load_verification_review_thread tables workspace_id)
    (lit "workspace verification review thread disappeared during a read").

Definition load_code_review_threads (tables : ReviewTables) (workspace_id : Uuid) :
    result (list StoredReviewThread) WorkspaceStoreError :=
  load_threads (vt_code tables) workspace_id (load_code_review_thread tables workspace_id)
    (lit "workspace code review thread disappeared during a read").

Definition thread_order (left right : StoredReviewThread) : comparison :=
  cmp_then (Z.compare (rt_updated_at_unix_ms right) (rt_updated_at_unix_ms left))
           (N.compare (rt_thread_id left) (rt_thread_id right)).

Section operations.
Context `{Libraries}.

Definition list_review_threads (db : Database) (workspace_id : Uuid) :
    result (list StoredReviewThread) WorkspaceStoreError :=
  ensure require_workspace db workspace_id in
  let? planning := load_review_threads (db_reviews db) workspace_id in
  let? verification := load_verification_review_threads (db_reviews db) workspace_id in
  let? code := load_code_review_threads (db_reviews db) workspace_id in
  Ok (sort_by thread_order (planning ++ verification ++ code)).

(** ** Creating a thread *)

Definition new_thread_row {A} (workspace_id : Uuid) (anchor : A) (created_at_unix_ms : Z) :
    ThreadRow A :=
  {| tr_workspace_id := workspace_id; tr_target := anchor; tr_state := lit "open";
     tr_revision := 1; tr_created_at_unix_ms := created_at_unix_ms;
     tr_updated_at_unix_ms := created_at_unix_ms; tr_resolved_at_unix_ms := None |}.

(** [INSERT] of a thread and of its first comment: both keys are unique in their tables.
    [checked] is the CHECK of the table on its anchor columns. *)
Definition insert_thread {A} (db : Database) (rows : gmap Uuid (ThreadRow A))
    (comments : list CommentRow) (checked : bool) (thread_id : Uuid) (row : ThreadRow A)
    (comment : CommentRow) :
    result (gmap Uuid (ThreadRow A) * list CommentRow) WorkspaceStoreError :=
  ensure guard_err (bool_decide (is_Some (rows !! thread_id)) || negb checked ||
                    negb (existsb (λ r, ce_workspace_id r =? tr_workspace_id row)
                            (db_created_events db)))
           DatabaseError in
  ensure guard_err (existsb (λ r, cr_comment_id r =? cr_comment_id comment) comments ||
                    (sqlite_length (cr_body comment) <=? 0)%Z) DatabaseError in
  Ok (<[thread_id := row]> rows, comments ++ [comment]).

(** SQLite's [length] counts characters, the store's own limits count bytes. *)
Definition planning_check (anchor : PlanningAnchor) : bool :=
  bool_decide (pa_document_id anchor ∈ document_ids)
  && (sqlite_length (pa_document_sha256 anchor) =? 71)%Z
  && starts_with (lit "sha256:") (pa_document_sha256 anchor)
  && forallb is_lower_hex (drop 7 (pa_document_sha256 anchor))
  && match pa_line anchor with
     | Some line => (1 <=? line)%Z && (line <=? 1000000)%Z
     | None => true
     end.

Definition verification_check (anchor : VerificationAnchor) : bool :=
  (0 <? va_plan_revision anchor)%Z && (0 <=? va_completed_at_unix_ms anchor)%Z
  && (1 <=? sqlite_length (va_check_id anchor))%Z
  && (sqlite_length (va_check_id anchor) <=? 128)%Z
  && forallb (λ c, is_ascii_alphanumeric c || (c =? 46) || (c =? 95) || (c =? 45))
       (va_check_id anchor).

Definition code_check (anchor : CodeAnchor) : bool :=
  let oid_ok s :=
    ((sqlite_length s =? 40)%Z || (sqlite_length s =? 64)%Z) && forallb is_ascii_hexdigit s in
  (1 <=? sqlite_length (ca_repository_id anchor))%Z
  && (sqlite_length (ca_repository_id anchor) <=? 512)%Z
  && oid_ok (ca_base_commit_oid anchor) && oid_ok (ca_head_commit_oid anchor)
  && (sqlite_length (ca_patch_sha256 anchor) =? 71)%Z
  && starts_with (lit "sha256:") (ca_patch_sha256 anchor)
  && forallb is_lower_hex (drop 7 (ca_patch_sha256 anchor))
  && (1 <=? sqlite_length (ca_file_path anchor))%Z
  && (sqlite_length (ca_file_path anchor) <=? 4096)%Z
  && bool_decide (ca_side anchor ∈ [lit "additions"; lit "deletions"])
  && (1 <=? ca_line anchor)%Z && (ca_line anchor <=? 1000000)%Z.

Definition thread_count (tables : ReviewTables) (workspace_id : Uuid) : N :=
  N.of_nat
    (length (thread_ids (vt_planning tables) workspace_id) +
     length (thread_ids (vt_verification tables) workspace_id) +
     length (thread_ids (vt_code tables) workspace_id)).

(** The clock and the identifiers [create_review_thread] draws. *)
Record ReviewInputs := {
  ri_clock : option N;
  ri_thread_id : Uuid;
  ri_comment_id : Uuid
}.

Definition insert_target (db : Database) (workspace_id : Uuid) (target : StoredReviewTarget)
    (comment : CommentRow) (created_at_unix_ms : Z) : result ReviewTables WorkspaceStoreError :=
  let tables := db_reviews db in
  let thread_id := cr_thread_id comment in
  match target with
  | PlanningDocument document_id document_sha256 line =>
      let anchor := {| pa_document_id := document_id; pa_document_sha256 := document_sha256;
                       pa_line := Z.of_N <$> line |} in
      let? (threads, comments) :=
        insert_thread db (vt_planning tables) (vt_planning_comments tables)
          (planning_check anchor) thread_id (new_thread_row workspace_id anchor created_at_unix_ms)
          comment in
      Ok {| vt_planning := threads; vt_planning_comments := comments;
            vt_verification := vt_verification tables;
            vt_verification_comments := vt_verification_comments tables;
            vt_code := vt_code tables; vt_code_comments := vt_code_comments tables |}
  | VerificationCheck plan_revision completed_at_unix_ms check_id =>
      let? plan_revision := ok_or (i64_try_from plan_revision) InvalidReviewThread in
      let anchor := {| va_plan_revision := plan_revision;
                       va_completed_at_unix_ms := completed_at_unix_ms;
                       va_check_id := check_id |} in
      let? (threads, comments) :=
        insert_thread db (vt_verification tables) (vt_verification_comments tables)
          (verification_check anchor) thread_id
          (new_thread_row workspace_id anchor created_at_unix_ms) comment in
      Ok {| vt_planning := vt_planning tables;
            vt_planning_comments := vt_planning_comments tables;
            vt_verification := threads; vt_verification_comments := comments;
            vt_code := vt_code tables; vt_code_comments := vt_code_comments tables |}
  | CodeChange repository_id base_commit_oid head_commit_oid patch_sha256 file_path side line =>
      let anchor := {| ca_repository_id := repository_id; ca_base_commit_oid := base_commit_oid;
                       ca_head_commit_oid := head_commit_oid; ca_patch_sha256 := patch_sha256;
                       ca_file_path := file_path; ca_side := side; ca_line := Z.of_N line |} in
      let? (threads, comments) :=
        insert_thread db (vt_code tables) (vt_code_comments tables) (code_check anchor)
          thread_id (new_thread_row workspace_id anchor created_at_unix_ms) comment in
      Ok {| vt_planning := vt_planning tables;
            vt_planning_comments := vt_planning_comments tables;
            vt_verification := vt_verification tables;
            vt_verification_comments := vt_verification_comments tables;
            vt_code := threads; vt_code_comments := comments |}
  end.

Definition created_thread (workspace_id : Uuid) (target : StoredReviewTarget)
    (author : StoredReviewAuthor) (body : str) (created_at_unix_ms : Z) (inputs : ReviewInputs) :
    StoredReviewThread :=
  {| rt_thread_id := ri_thread_id inputs; rt_workspace_id := workspace_id; rt_target := target;
     rt_state := Open; rt_revision := 1;
     rt_comments := [{| rc_comment_id := ri_comment_id inputs; rc_author := author;
                        rc_body := body; rc_created_at_unix_ms := created_at_unix_ms |}];
     rt_created_at_unix_ms := created_at_unix_ms; rt_updated_at_unix_ms := created_at_unix_ms;
     rt_resolved_at_unix_ms := None |}.

Definition create_review_thread_body (db : Database) (workspace_id : Uuid)
    (target : StoredReviewTarget) (author : StoredReviewAuthor) (body : str)
    (inputs : ReviewInputs) : result (Database * StoredReviewThread) WorkspaceStoreError :=
  ensure validate_review_target target in
  let? body := normalize_review_body body in
  ensure require_workspace db workspace_id in
  ensure guard_err (MAX_REVIEW_THREADS_PER_WORKSPACE <=? thread_count (db_reviews db) workspace_id)
           InvalidReviewThread in
  let? created_at_unix_ms := unix_time_ms (ri_clock inputs) in
  let comment :=
    {| cr_comment_id := ri_comment_id inputs; cr_thread_id := ri_thread_id inputs;
       cr_author := review_author_storage author; cr_body := body;
       cr_created_at_unix_ms := created_at_unix_ms |} in
  let? tables := insert_target db workspace_id target comment created_at_unix_ms in
  Ok (set_reviews db tables,
      created_thread workspace_id target author body created_at_unix_ms inputs).

Definition create_review_thread (db : Database) (workspace_id : Uuid)
    (target : StoredReviewTarget) (author : StoredReviewAuthor) (body : str)
    (inputs : ReviewInputs) : Database * result StoredReviewThread WorkspaceStoreError :=
  transact db (create_review_thread_body db workspace_id target author body inputs).

(** ** Resolving a thread *)

Definition resolved_row {A} (row : ThreadRow A) (revision updated_at_unix_ms : Z) : ThreadRow A :=
  {| tr_workspace_id := tr_workspace_id row; tr_target := tr_target row;
     tr_state := lit "resolved"; tr_revision := revision;
     tr_created_at_unix_ms := tr_created_at_unix_ms row;
     tr_updated_at_unix_ms := updated_at_unix_ms;
     tr_resolved_at_unix_ms := Some updated_at_unix_ms |}.

(** [UPDATE .. WHERE workspace_id = ?3 AND thread_id = ?4 AND revision = ?5] and the CHECKs on
    the new times; [None] when no row matches. *)
Definition update_thread {A} (rows : gmap Uuid (ThreadRow A)) (workspace_id thread_id : Uuid)
    (expected revision updated_at_unix_ms : Z) :
    result (option (gmap Uuid (ThreadRow A))) WorkspaceStoreError :=
  match thread_row rows workspace_id thread_id with
  | Some row =>
      if (tr_revision row =? expected)%Z then
        ensure guard_err (updated_at_unix_ms <? tr_created_at_unix_ms row)%Z DatabaseError in
        Ok (Some (<[thread_id := resolved_row row revision updated_at_unix_ms]> rows))
      else Ok None
  | None => Ok None
  end.

Definition update_target (tables : ReviewTables) (target : StoredReviewTarget)
    (workspace_id thread_id : Uuid) (expected revision updated_at_unix_ms : Z) :
    result (option ReviewTables) WorkspaceStoreError :=
  match target with
  | PlanningDocument _ _ _ =>
      let? rows := update_thread (vt_planning tables) workspace_id thread_id expected revision
                     updated_at_unix_ms in
      Ok ((λ threads,
        {| vt_planning := threads; vt_planning_comments := vt_planning_comments tables;
           vt_verification := vt_verification tables;
           vt_verification_comments := vt_verification_comments tables;
           vt_code := vt_code tables; vt_code_comments := vt_code_comments tables |}) <$> rows)
  | VerificationCheck _ _ _ =>
      let? rows := update_thread (vt_verification tables) workspace_id thread_id expected
                     revision updated_at_unix_ms in
      Ok ((λ threads,
        {| vt_planning := vt_planning tables; vt_planning_comments := vt_planning_comments tables;
           vt_verification := threads;
           vt_verification_comments := vt_verification_comments tables;
           vt_code := vt_code tables; vt_code_comments := vt_code_comments tables |}) <$> rows)
  | CodeChange _ _ _ _ _ _ _ =>
      let? rows := update_thread (vt_code tables) workspace_id thread_id expected revision
                     updated_at_unix_ms in
      Ok ((λ threads,
        {| vt_planning := vt_planning tables; vt_planning_comments := vt_planning_comments tables;
           vt_verification := vt_verification tables;
           vt_verification_comments := vt_verification_comments tables;
           vt_code := threads; vt_code_comments := vt_code_comments tables |}) <$> rows)
  end.

Definition count_some {A} (o : option A) : nat :=
  match o with Some _ => 1%nat | None => 0%nat end.

Definition resolved_thread (current : StoredReviewThread) (revision : N)
    (updated_at_unix_ms : Z) : StoredReviewThread :=
  {| rt_thread_id := rt_thread_id current; rt_workspace_id := rt_workspace_id current;
     rt_target := rt_target current; rt_state := Resolved; rt_revision := revision;
     rt_comments := rt_comments current; rt_created_at_unix_ms := rt_created_at_unix_ms current;
     rt_updated_at_unix_ms := updated_at_unix_ms;
     rt_resolved_at_unix_ms := Some updated_at_unix_ms |}.

(** The thread under its identifier, in whichever of the three tables it is. *)
Definition find_review_thread (tables : ReviewTables) (workspace_id thread_id : Uuid) :
    result StoredReviewThread WorkspaceStoreError :=
  let? planning := load_review_thread tables workspace_id thread_id in
  let? verification := load_verification_review_thread tables workspace_id thread_id in
  let? code := load_code_review_thread tables workspace_id thread_id in
  ensure guard_err (1 <? count_some planning + count_some verification + count_some code)%nat
           (CorruptRecord (lit "workspace review thread identifier is ambiguous")) in
  ok_or (match planning with
         | Some thread => Some thread
         | None => match verification with Some thread => Some thread | None => code end
         end) (ReviewThreadNotFound thread_id).

Definition resolve_review_thread_body (db : Database) (workspace_id thread_id : Uuid)
    (expected_revision : N) (clock : option N) :
    result (Database * StoredReviewThread) WorkspaceStoreError :=
  ensure guard_err (expected_revision =? 0) InvalidReviewThread in
  ensure require_workspace db workspace_id in
  let? current := find_review_thread (db_reviews db) workspace_id thread_id in
  ensure guard_err (negb (rt_revision current =? expected_revision))
           (ReviewThreadConflict expected_revision (rt_revision current)) in
  if bool_decide (rt_state current = Resolved) then Ok (db, current)
  else
    let? revision := ok_or (checked_add_u64 (rt_revision current) 1) InvalidReviewThread in
    let? updated_at_unix_ms := unix_time_ms clock in
    let? revision_storage := ok_or (i64_try_from revision) InvalidReviewThread in
    let? expected_revision_storage :=
      ok_or (i64_try_from expected_revision) InvalidReviewThread in
    let? changed :=
      update_target (db_reviews db) (rt_target current) workspace_id thread_id
        expected_revision_storage revision_storage updated_at_unix_ms in
    let? tables :=
      ok_or changed (ReviewThreadConflict expected_revision (rt_revision current)) in
    Ok (set_reviews db tables, resolved_thread current revision updated_at_unix_ms).

Definition resolve_review_thread (db : Database) (workspace_id thread_id : Uuid)
    (expected_revision : N) (clock : option N) :
    Database * result StoredReviewThread WorkspaceStoreError :=
  transact db (resolve_review_thread_body db workspace_id thread_id expected_revision clock).
End operations.
