(* ===== verification/StoreThreads.v ===== *)
(** * Review threads: creation and resolution ([crates/wts-store/src/sqlite.rs])

    The three thread tables behave alike: what [create_review_thread] stored is what the
    loaders return, and [resolve_review_thread] moves a thread from open to resolved once. *)

From S2P Require Import Prelude Order Text Workspace StoreBase StoreItems StoreReviews.

Local Open Scope N_scope.

(** ** The three tables as one *)

#[export] Instance comment_table_eq_dec : EqDecision ReviewCommentTable.
Proof. solve_decision. Defined.

Definition kind_of (target : StoredReviewTarget) : ReviewCommentTable :=
  match target with
  | PlanningDocument _ _ _ => PlanningComments
  | VerificationCheck _ _ _ => VerificationComments
  | CodeChange _ _ _ _ _ _ _ => CodeComments
  end.

Definition load_thread (tables : ReviewTables) (kind : ReviewCommentTable) (w id : Uuid) :
    result (option StoredReviewThread) WorkspaceStoreError :=
  match kind with
  | PlanningComments => load_review_thread tables w id
  | VerificationComments => load_verification_review_thread tables w id
  | CodeComments => load_code_review_thread tables w id
  end.

(** No thread and no comment has the identifier. *)
Definition unused_thread_id (tables : ReviewTables) (id : Uuid) : Prop :=
  vt_planning tables !! id = None ∧ vt_verification tables !! id = None ∧
  vt_code tables !! id = None ∧
  ∀ kind row, row ∈ comment_table tables kind → cr_thread_id row ≠ id.

Lemma review_author_round_trip author :
  review_author_from_storage (review_author_storage author) = Ok author.
Proof. by destruct author. Qed.

Lemma normalize_review_body_Ok body b : normalize_review_body body = Ok b → b = trim body.
Proof.
  unfold normalize_review_body. intros Hn. apply rbind_Ok in Hn as ([] & _ & Hn).
  by apply rbind_Ok in Hn as ([] & _ & [= <-]).
Qed.

Lemma byte_len_trim s : byte_len (trim s) ≤ byte_len s.
Proof.
  destruct (trim_end_prefix (trim_start s)) as [k Hk].
  destruct (drop_while_suffix is_whitespace s) as (p & Hp & _).
  change (trim_end (trim_start s)) with (trim s) in Hk.
  change (drop_while is_whitespace s) with (trim_start s) in Hp.
  apply (f_equal byte_len) in Hk, Hp. rewrite byte_len_app in Hk, Hp. lia.
Qed.

(** A normalized comment is canonical: it is read back as it is. *)
Lemma normalize_review_body_idemp body b :
  normalize_review_body body = Ok b → normalize_review_body b = Ok b.
Proof.
  intros Hn. pose proof (normalize_review_body_Ok _ _ Hn) as ->. unfold normalize_review_body in *.
  apply rbind_Ok in Hn as ([] & Hlen%guard_err_Ok & Hn).
  pose proof (byte_len_trim body).
  assert ((MAX_REVIEW_COMMENT_BYTES <? byte_len (trim body)) = false) as ->.
  { apply N.ltb_ge. apply N.ltb_ge in Hlen. lia. }
  cbn [guard_err rbind]. by rewrite trim_idemp.
Qed.

Section threads.
Context `{Libraries}.

Lemma decode_new_comment body b author id thread_id t :
  normalize_review_body body = Ok b → (0 ≤ t)%Z →
  decode_comment {| cr_comment_id := id; cr_thread_id := thread_id;
    cr_author := review_author_storage author; cr_body := b; cr_created_at_unix_ms := t |} =
  Ok {| rc_comment_id := id; rc_author := author; rc_body := b; rc_created_at_unix_ms := t |}.
Proof.
  intros Hn Ht. unfold decode_comment; cbn [cr_author cr_body cr_created_at_unix_ms cr_comment_id].
  rewrite review_author_round_trip. cbn [rbind].
  rewrite (normalize_review_body_idemp body b Hn), bool_decide_eq_true_2 by done.
  by destruct (Z.ltb_spec t 0); [lia|].
Qed.

(** The comments of a new thread, when its identifier was unused. *)
Lemma new_comments (comments : list CommentRow) c id :
  cr_thread_id c = id → (∀ row, row ∈ comments → cr_thread_id row ≠ id) →
  filter (λ row, cr_thread_id row = id) (comments ++ [c]) = [c].
Proof.
  intros Hc Hn. rewrite filter_app, filter_cons_True by done.
  assert (filter (λ row, cr_thread_id row = id) comments = []) as ->; [|done].
  apply elem_of_nil_inv. intros row [Hr Hin]%list_elem_of_filter. by apply (Hn row).
Qed.

Lemma load_new_thread {A} tables id w (anchor : A) target table m1 m2 c c' t :
  validate_review_target target = Ok () → (0 ≤ t)%Z →
  filter (λ row, cr_thread_id row = id) (comment_table tables table) = [c] →
  decode_comment c = Ok c' →
  load_thread_tail tables id (new_thread_row w anchor t) target table m1 m2 =
    Ok {| rt_thread_id := id; rt_workspace_id := w; rt_target := target; rt_state := Open;
          rt_revision := 1; rt_comments := [c']; rt_created_at_unix_ms := t;
          rt_updated_at_unix_ms := t; rt_resolved_at_unix_ms := None |}.
Proof.
  intros Hv Ht Hf Hc. unfold load_thread_tail. rewrite Hv. cbn [rbind].
  unfold validate_review_thread_metadata, new_thread_row; cbn [tr_state tr_revision
    tr_created_at_unix_ms tr_updated_at_unix_ms tr_resolved_at_unix_ms tr_workspace_id].
  rewrite bool_decide_eq_true_2 by done. cbn [rbind].
  change (u64_try_from 1) with (Some 1). cbn [ok_or rbind].
  destruct (Z.ltb_spec t 0); [lia|]. destruct (Z.ltb_spec t t); [lia|]. cbn.
  unfold load_review_comments. rewrite Hf. cbn [try_map]. by rewrite Hc.
Qed.

(** ** Storing a thread *)

Lemma insert_thread_Ok {A} db (rows : gmap Uuid (ThreadRow A)) comments checked id row c rows' comments' :
  insert_thread db rows comments checked id row c = Ok (rows', comments') →
  rows !! id = None ∧ rows' = <[id := row]> rows ∧ comments' = comments ++ [c].
Proof.
  unfold insert_thread. intros Hi. apply rbind_Ok in Hi as ([] & Hg%guard_err_Ok & Hi).
  apply rbind_Ok in Hi as ([] & _ & [= <- <-]). apply orb_false_elim in Hg as [Hg _].
  apply orb_false_elim in Hg as [Hg _]. apply bool_decide_eq_false_1 in Hg.
  split_and!; [by apply eq_None_not_Some|done..].
Qed.

Lemma thread_row_insert {A} (rows : gmap Uuid (ThreadRow A)) id row w :
  tr_workspace_id row = w → thread_row (<[id := row]> rows) w id = Some row.
Proof. intros Hw. unfold thread_row. rewrite lookup_insert_eq. cbn. by rewrite decide_True. Qed.

Lemma thread_row_insert_ne {A} (rows : gmap Uuid (ThreadRow A)) id row w id' :
  id' ≠ id → thread_row (<[id := row]> rows) w id' = thread_row rows w id'.
Proof. intros Hne. unfold thread_row. by rewrite lookup_insert_ne. Qed.

(** No other thread of no other workspace is read differently through a row. *)
Lemma thread_row_insert_other {A} (rows : gmap Uuid (ThreadRow A)) id row w' id' :
  w' ≠ tr_workspace_id row ∨ id' ≠ id →
  (∀ old, rows !! id = Some old → tr_workspace_id old = tr_workspace_id row) →
  thread_row (<[id := row]> rows) w' id' = thread_row rows w' id'.
Proof.
  intros Hne Hold. destruct (decide (id' = id)) as [->|?]; [|by apply thread_row_insert_ne].
  destruct Hne as [Hne|]; [|done]. unfold thread_row. rewrite lookup_insert_eq. cbn.
  rewrite decide_False by done. destruct (rows !! id) as [old|] eqn:E; [|done]. cbn.
  by rewrite decide_False by (rewrite (Hold old); done).
Qed.

(** Loading a thread reads its row and its comments only. *)
Lemma load_thread_tail_comments {A} tables tables' id (row : ThreadRow A) target table m1 m2 :
  filter (λ r, cr_thread_id r = id) (comment_table tables' table) =
    filter (λ r, cr_thread_id r = id) (comment_table tables table) →
  load_thread_tail tables' id row target table m1 m2 = load_thread_tail tables id row target table m1 m2.
Proof. intros Hf. unfold load_thread_tail, load_review_comments. by rewrite Hf. Qed.

Lemma filter_other_comment comments (c : CommentRow) id :
  cr_thread_id c ≠ id →
  filter (λ r, cr_thread_id r = id) (comments ++ [c]) = filter (λ r, cr_thread_id r = id) comments.
Proof. intros Hne. by rewrite filter_app, filter_cons_False, filter_nil, app_nil_r by done. Qed.

(** The anchors of a valid target keep it. *)
Lemma planning_target_new w document_id sha line t :
  validate_review_target (PlanningDocument document_id sha line) = Ok () →
  planning_target (new_thread_row w {| pa_document_id := document_id; pa_document_sha256 := sha;
    pa_line := Z.of_N <$> line |} t) = Ok (PlanningDocument document_id sha line).
Proof.
  intros Hv%guard_err_Ok. unfold planning_target; cbn. apply orb_false_elim in Hv as [_ Hl].
  destruct line as [line|]; [|done]. cbn. unfold u32_try_from.
  apply orb_false_elim in Hl as [_ Hl%N.ltb_ge].
  destruct (Z.ltb_spec (Z.of_N line) 0); [lia|].
  destruct (Z.ltb_spec (Z.of_N u32_max) (Z.of_N line)); [unfold u32_max in *; lia|].
  cbn. by rewrite N2Z.id.
Qed.

Lemma code_target_new w r b h p f s line t :
  validate_review_target (CodeChange r b h p f s line) = Ok () →
  code_target (new_thread_row w {| ca_repository_id := r; ca_base_commit_oid := b;
    ca_head_commit_oid := h; ca_patch_sha256 := p; ca_file_path := f; ca_side := s;
    ca_line := Z.of_N line |} t) = Ok (CodeChange r b h p f s line).
Proof.
  intros Hv%guard_err_Ok. unfold code_target; cbn. apply orb_false_elim in Hv as [_ Hl%N.ltb_ge].
  unfold u32_try_from. destruct (Z.ltb_spec (Z.of_N line) 0); [lia|].
  destruct (Z.ltb_spec (Z.of_N u32_max) (Z.of_N line)); [unfold u32_max in *; lia|].
  cbn. by rewrite N2Z.id.
Qed.

Lemma verification_target_new w revision z completed check t :
  i64_try_from revision = Some z →
  verification_target (new_thread_row w {| va_plan_revision := z;
    va_completed_at_unix_ms := completed; va_check_id := check |} t) =
  Ok (VerificationCheck revision completed check).
Proof.
  intros [-> _]%i64_try_from_Some. unfold verification_target; cbn. unfold u64_try_from.
  destruct (Z.ltb_spec (Z.of_N revision) 0); [lia|]. cbn. by rewrite N2Z.id.
Qed.

(** The new thread of one table, and the threads it leaves alone. *)
#[local] Ltac new_load Hcom :=
  erewrite load_new_thread; [done|done|done| |done]; cbn; by apply new_comments, Hcom.

#[local] Ltac same_loads target Hn Hid :=
  rewrite thread_row_insert_other; [|exact Hid|by rewrite Hn];
  destruct (thread_row _ _ _) as [row|] eqn:Hrow; [|done]; cbn [transpose_map];
  destruct (target row); [|done]; cbn [rbind]; f_equal;
  apply load_thread_tail_comments; cbn [comment_table vt_planning_comments
    vt_verification_comments vt_code_comments]; apply filter_other_comment;
  intros <-; unfold thread_row in Hrow; by rewrite Hn in Hrow.

(** What [insert_target] does to the loaders. *)
Lemma insert_target_loads db w target c c' t tables' id :
  insert_target db w target c t = Ok tables' → cr_thread_id c = id →
  (∀ row, row ∈ comment_table (db_reviews db) (kind_of target) → cr_thread_id row ≠ id) →
  validate_review_target target = Ok () → (0 ≤ t)%Z → decode_comment c = Ok c' →
  load_thread tables' (kind_of target) w id =
    Ok (Some {| rt_thread_id := id; rt_workspace_id := w; rt_target := target; rt_state := Open;
          rt_revision := 1; rt_comments := [c']; rt_created_at_unix_ms := t;
          rt_updated_at_unix_ms := t; rt_resolved_at_unix_ms := None |}) ∧
  ∀ kind w' id', kind ≠ kind_of target ∨ w' ≠ w ∨ id' ≠ id →
    load_thread tables' kind w' id' = load_thread (db_reviews db) kind w' id'.
Proof.
  intros Hi Hc Hcom Hv Ht Hd. subst id. destruct target as [d s l|pr co ch|r b h p f s l];
    cbn [insert_target] in Hi.
  - apply rbind_Ok in Hi as ([rows comments] & (Hn & -> & ->)%insert_thread_Ok & [= <-]). split.
    + cbn. unfold load_review_thread; cbn [vt_planning]. rewrite thread_row_insert by done.
      cbn [transpose_map]. rewrite planning_target_new by done. cbn [rbind]. new_load Hcom.
    + intros [] w' id' [Hk|Hid]; try done. cbn. unfold load_review_thread; cbn [vt_planning].
      same_loads planning_target Hn Hid.
  - apply rbind_Ok in Hi as (z & Hz & Hi).
    apply rbind_Ok in Hi as ([rows comments] & (Hn & -> & ->)%insert_thread_Ok & [= <-]). split.
    + cbn. unfold load_verification_review_thread; cbn [vt_verification].
      rewrite thread_row_insert by done. cbn [transpose_map].
      assert (i64_try_from pr = Some z) as Hz' by by destruct (i64_try_from pr); [injection Hz as ->|].
      rewrite (verification_target_new _ _ _ _ _ _ Hz'). cbn [rbind]. new_load Hcom.
    + intros [] w' id' [Hk|Hid]; try done. cbn.
      unfold load_verification_review_thread; cbn [vt_verification].
      same_loads verification_target Hn Hid.
  - apply rbind_Ok in Hi as ([rows comments] & (Hn & -> & ->)%insert_thread_Ok & [= <-]). split.
    + cbn. unfold load_code_review_thread; cbn [vt_code]. rewrite thread_row_insert by done.
      cbn [transpose_map]. rewrite code_target_new by done. cbn [rbind]. new_load Hcom.
    + intros [] w' id' [Hk|Hid]; try done. cbn. unfold load_code_review_thread; cbn [vt_code].
      same_loads code_target Hn Hid.
Qed.

(** ** Listing *)

Definition load_kind (tables : ReviewTables) (kind : ReviewCommentTable) (w : Uuid) :
    result (list StoredReviewThread) WorkspaceStoreError :=
  match kind with
  | PlanningComments => load_review_threads tables w
  | VerificationComments => load_verification_review_threads tables w
  | CodeComments => load_code_review_threads tables w
  end.

Lemma thread_ids_perm {A} (rows : gmap Uuid (ThreadRow A)) w :
  thread_ids rows w ≡ₚ (filter (λ row : Uuid * ThreadRow A, tr_workspace_id row.2 = w) (map_to_list rows)).*1.
Proof. unfold thread_ids. apply Permutation_map, sort_by_perm. Qed.

Lemma thread_ids_insert {A} (rows : gmap Uuid (ThreadRow A)) id row w :
  rows !! id = None → tr_workspace_id row = w →
  thread_ids (<[id := row]> rows) w ≡ₚ id :: thread_ids rows w.
Proof.
  intros Hn Hw. rewrite !thread_ids_perm, map_to_list_insert by done.
  by rewrite filter_cons_True.
Qed.

Lemma elem_of_thread_ids {A} (rows : gmap Uuid (ThreadRow A)) w id :
  id ∈ thread_ids rows w → is_Some (rows !! id).
Proof.
  rewrite thread_ids_perm. intros ([j row] & -> & Hin)%list_elem_of_fmap.
  apply list_elem_of_filter in Hin as [_ Hin]. apply elem_of_map_to_list in Hin. by exists row.
Qed.

Lemma try_map_ext {A B E} (f g : A → result B E) l :
  (∀ a, a ∈ l → f a = g a) → try_map f l = try_map g l.
Proof.
  induction l as [|a l IH]; intros Hfg; [done|]. cbn. rewrite (Hfg a) by left.
  rewrite IH; [done|]. intros b Hb. apply Hfg. by right.
Qed.

Lemma load_threads_insert {A} (rows : gmap Uuid (ThreadRow A)) id row w load load' msg ts thread :
  rows !! id = None → tr_workspace_id row = w → load_threads rows w load msg = Ok ts →
  load' id = Ok (Some thread) → (∀ id', id' ≠ id → load' id' = load id') →
  ∃ ts', load_threads (<[id := row]> rows) w load' msg = Ok ts' ∧ ts' ≡ₚ thread :: ts.
Proof.
  intros Hn Hw Hts Hid Hother. unfold load_threads in *.
  destruct (try_map_perm (λ i, let? th := load' i in ok_or th (CorruptRecord msg))
    (id :: thread_ids rows w) (thread_ids (<[id := row]> rows) w) (thread :: ts)) as (ts' & Hts' & Hp).
  - symmetry. by apply thread_ids_insert.
  - cbn [try_map]. rewrite Hid. cbn [rbind ok_or].
    rewrite (try_map_ext _ (λ i, let? th := load i in ok_or th (CorruptRecord msg))); [by rewrite Hts|].
    intros i Hi. rewrite Hother; [done|]. intros ->. apply elem_of_thread_ids in Hi as [? ?]. congruence.
  - by exists ts'.
Qed.

(** Storing a thread adds it to the list of its kind and leaves the other kinds. *)
Lemma insert_target_lists db w target c t tables' id thread kind ts :
  insert_target db w target c t = Ok tables' → cr_thread_id c = id →
  load_thread tables' (kind_of target) w id = Ok (Some thread) →
  (∀ kind w' id', kind ≠ kind_of target ∨ w' ≠ w ∨ id' ≠ id →
    load_thread tables' kind w' id' = load_thread (db_reviews db) kind w' id') →
  load_kind (db_reviews db) kind w = Ok ts →
  ∃ ts', load_kind tables' kind w = Ok ts' ∧
    ts' ≡ₚ (if bool_decide (kind = kind_of target) then [thread] else []) ++ ts.
Proof.
  intros Hi <- Hnew Hother Hts.
  assert (∀ k, k ≠ kind_of target → kind = k → load_kind tables' k w = Ok ts) as Hsame.
  { intros k Hk ->. rewrite <- Hts.
    destruct target; cbn [insert_target] in Hi;
      repeat (apply rbind_Ok in Hi as (? & ? & Hi)); repeat case_match; simplify_eq;
      destruct k; try done; cbn; unfold load_threads; apply try_map_ext;
      intros i _; f_equal; apply (Hother _ w i (or_introl Hk)). }
  case_bool_decide as Hk; [|exists ts; split; [by apply Hsame|done]]. subst kind.
  assert (∀ id', id' ≠ cr_thread_id c → load_thread tables' (kind_of target) w id' =
    load_thread (db_reviews db) (kind_of target) w id') as Hids by (intros; apply Hother; by right; right).
  destruct target; cbn [insert_target kind_of load_kind load_thread] in *.
  - apply rbind_Ok in Hi as ([rows comments] & (Hn & -> & ->)%insert_thread_Ok & [= <-]).
    by eapply load_threads_insert.
  - apply rbind_Ok in Hi as (z & _ & Hi).
    apply rbind_Ok in Hi as ([rows comments] & (Hn & -> & ->)%insert_thread_Ok & [= <-]).
    by eapply load_threads_insert.
  - apply rbind_Ok in Hi as ([rows comments] & (Hn & -> & ->)%insert_thread_Ok & [= <-]).
    by eapply load_threads_insert.
Qed.

(** ** Finding a thread *)

Definition find_thread (tables : ReviewTables) (w id : Uuid) : result StoredReviewThread WorkspaceStoreError :=
  let? planning := load_thread tables PlanningComments w id in
  let? verification := load_thread tables VerificationComments w id in
  let? code := load_thread tables CodeComments w id in
  ensure guard_err (1 <? count_some planning + count_some verification + count_some code)%nat
           (CorruptRecord (lit "workspace review thread identifier is ambiguous")) in
  ok_or (match planning with
         | Some thread => Some thread
         | None => match verification with Some thread => Some thread | None => code end
         end) (ReviewThreadNotFound id).

Lemma find_review_thread_any tables w id : find_review_thread tables w id = find_thread tables w id.
Proof. done. Qed.

(** The thread is in one table and in no other. *)
Lemma find_thread_Ok tables w id thread :
  find_thread tables w id = Ok thread ↔
  ∃ kind, load_thread tables kind w id = Ok (Some thread) ∧
    ∀ kind', kind' ≠ kind → load_thread tables kind' w id = Ok None.
Proof.
  unfold find_thread. split.
  - intros Hf. apply rbind_Ok in Hf as (p & Hp & Hf). apply rbind_Ok in Hf as (v & Hv & Hf).
    apply rbind_Ok in Hf as (c & Hc & Hf). apply rbind_Ok in Hf as ([] & Hone%guard_err_Ok & Hf).
    destruct p as [p|], v as [v|], c as [c|]; try done; injection Hf as ->.
    + exists PlanningComments. split; [done|]. by intros [].
    + exists VerificationComments. split; [done|]. by intros [].
    + exists CodeComments. split; [done|]. by intros [].
  - intros (kind & Hk & Hother). destruct kind.
    + by rewrite Hk, (Hother VerificationComments), (Hother CodeComments).
    + by rewrite (Hother PlanningComments), Hk, (Hother CodeComments).
    + by rewrite (Hother PlanningComments), (Hother VerificationComments), Hk.
Qed.

Lemma find_thread_ext tables tables' w id :
  (∀ kind, load_thread tables' kind w id = load_thread tables kind w id) →
  find_thread tables' w id = find_thread tables w id.
Proof. intros Hl. unfold find_thread. by rewrite !Hl. Qed.

Lemma unused_comments tables id kind :
  unused_thread_id tables id → ∀ row, row ∈ comment_table tables kind → cr_thread_id row ≠ id.
Proof. intros (_ & _ & _ & Hc). apply Hc. Qed.

Lemma unused_load tables id kind w :
  unused_thread_id tables id → load_thread tables kind w id = Ok None.
Proof.
  intros (Hp & Hv & Hc & _). destruct kind; cbn;
    unfold load_review_thread, load_verification_review_thread, load_code_review_thread, thread_row.
  - by rewrite Hp.
  - by rewrite Hv.
  - by rewrite Hc.
Qed.

Lemma create_body_Ok db w target author body inputs db' thread :
  create_review_thread_body db w target author body inputs = Ok (db', thread) →
  ∃ b t c, validate_review_target target = Ok () ∧ normalize_review_body body = Ok b ∧
    require_workspace db w = Ok () ∧ (0 ≤ t)%Z ∧ cr_thread_id c = ri_thread_id inputs ∧
    c = {| cr_comment_id := ri_comment_id inputs; cr_thread_id := ri_thread_id inputs;
           cr_author := review_author_storage author; cr_body := b; cr_created_at_unix_ms := t |} ∧
    thread = created_thread w target author b t inputs ∧
    insert_target db w target c t = Ok (db_reviews db') ∧ db' = set_reviews db (db_reviews db').
Proof.
  unfold create_review_thread_body. intros Hb. apply rbind_Ok in Hb as ([] & Hv & Hb).
  apply rbind_Ok in Hb as (b & Hn & Hb). apply rbind_Ok in Hb as ([] & Hr & Hb).
  apply rbind_Ok in Hb as ([] & _ & Hb). apply rbind_Ok in Hb as (t & Ht & Hb).
  apply rbind_Ok in Hb as (tables & Hi & [= <- <-]).
  pose proof (unix_time_ms_nonneg _ _ Ht).
  exists b, t, {| cr_comment_id := ri_comment_id inputs; cr_thread_id := ri_thread_id inputs;
    cr_author := review_author_storage author; cr_body := b; cr_created_at_unix_ms := t |}.
  by split_and!.
Qed.

(** A created thread is the thread that is found and listed: open, at revision 1, with
    its one trimmed comment; every thread that was there is found as before.  The
    identifier drawn for it has to be unused. *)
Theorem create_thread_read_back db w target author body inputs db' thread :
  create_review_thread db w target author body inputs = (db', Ok thread) →
  unused_thread_id (db_reviews db) (ri_thread_id inputs) →
  (rt_state thread = Open ∧ rt_revision thread = 1 ∧ rt_target thread = target ∧
   rc_body <$> rt_comments thread = [trim body]) ∧
  find_review_thread (db_reviews db') w (ri_thread_id inputs) = Ok thread ∧
  (∀ ts, list_review_threads db w = Ok ts →
     ∃ ts', list_review_threads db' w = Ok ts' ∧ ts' ≡ₚ thread :: ts) ∧
  ∀ id', id' ≠ ri_thread_id inputs →
    find_review_thread (db_reviews db') w id' = find_review_thread (db_reviews db) w id'.
Proof.
  intros (b & t & c & Hv & Hn & Hr & Ht & Hcid & Hc & Hthread & Hi & Hdb)%transact_Ok%create_body_Ok Hunused.
  assert (decode_comment c = Ok {| rc_comment_id := ri_comment_id inputs; rc_author := author;
    rc_body := b; rc_created_at_unix_ms := t |}) as Hdec.
  { subst c. by eapply decode_new_comment. }
  destruct (insert_target_loads _ _ _ _ _ _ _ _ Hi Hcid (unused_comments _ _ _ Hunused) Hv Ht Hdec) as [Hnew Hother].
  assert (require_workspace db' w = Ok ()) as Hr' by by rewrite Hdb.
  change (load_thread (db_reviews db') (kind_of target) w (ri_thread_id inputs) =
    Ok (Some (created_thread w target author b t inputs))) in Hnew. rewrite <- Hthread in Hnew.
  split_and!.
  - by subst thread.
  - by subst thread.
  - by subst thread.
  - subst thread. cbn. by rewrite (normalize_review_body_Ok _ _ Hn).
  - rewrite find_review_thread_any, find_thread_Ok. exists (kind_of target). split; [done|].
    intros kind Hk. rewrite (Hother kind w) by by left. by apply unused_load.
  - intros ts Hts. unfold list_review_threads in *. rewrite Hr in Hts. rewrite Hr'. cbn [rbind] in *.
    apply rbind_Ok in Hts as (p & Hp & Hts). apply rbind_Ok in Hts as (v & Hvv & Hts).
    apply rbind_Ok in Hts as (k & Hk & [= <-]).
    destruct (insert_target_lists _ _ _ _ _ _ _ _ PlanningComments _ Hi Hcid Hnew Hother Hp) as (p' & Hp' & Pp).
    destruct (insert_target_lists _ _ _ _ _ _ _ _ VerificationComments _ Hi Hcid Hnew Hother Hvv) as (v' & Hv' & Pv).
    destruct (insert_target_lists _ _ _ _ _ _ _ _ CodeComments _ Hi Hcid Hnew Hother Hk) as (k' & Hk' & Pk).
    cbn [load_kind] in Hp', Hv', Hk'. rewrite Hp'; cbn [rbind]. rewrite Hv'; cbn [rbind].
    rewrite Hk'; cbn [rbind]. eexists. split; [done|]. rewrite !sort_by_perm, Pp, Pv, Pk.
    destruct target; cbn [kind_of];
      repeat case_bool_decide; try done; cbn; by rewrite <- ?Permutation_middle.
  - intros id' Hne. rewrite !find_review_thread_any. apply find_thread_ext. intros kind.
    apply Hother. by right; right.
Qed.

(** ** Resolving a thread *)

Lemma load_thread_tail_Ok {A} tables id (row : ThreadRow A) target table m1 m2 thread :
  load_thread_tail tables id row target table m1 m2 = Ok thread →
  rt_thread_id thread = id ∧ rt_target thread = target ∧ rt_workspace_id thread = tr_workspace_id row ∧
  1 ≤ rt_revision thread ∧ Z.of_N (rt_revision thread) = tr_revision row.
Proof.
  unfold load_thread_tail. intros Hl. apply rbind_Ok in Hl as ([] & _ & Hl).
  apply rbind_Ok in Hl as ([state revision] & Hm & Hl). apply rbind_Ok in Hl as (comments & _ & Hl).
  apply rbind_Ok in Hl as ([] & _ & [= <-]). cbn. unfold validate_review_thread_metadata in Hm.
  apply rbind_Ok in Hm as (st & _ & Hm). apply rbind_Ok in Hm as (rev & Hrev & Hm).
  apply rbind_Ok in Hm as ([] & Hg%guard_err_Ok & [= -> ->]). bool_split.
  unfold u64_try_from in Hrev. destruct (Z.ltb_spec (tr_revision row) 0); [done|]. injection Hrev as Hrev.
  split_and!; try done; lia.
Qed.

(** A resolved row is read as the resolved thread. *)
Lemma load_resolved {A} tables id (row : ThreadRow A) target table m1 m2 current now :
  load_thread_tail tables id row target table m1 m2 = Ok current →
  (tr_created_at_unix_ms row ≤ now)%Z →
  load_thread_tail tables id (resolved_row row (Z.of_N (rt_revision current + 1)) now) target table m1 m2 =
    Ok (resolved_thread current (rt_revision current + 1) now).
Proof.
  unfold load_thread_tail. intros Hl Hnow. apply rbind_Ok in Hl as ([] & Hv & Hl). rewrite Hv. cbn [rbind].
  apply rbind_Ok in Hl as ([state revision] & Hm & Hl). apply rbind_Ok in Hl as (comments & Hc & Hl).
  apply rbind_Ok in Hl as ([] & Hne & [= <-]). cbn [rt_revision].
  unfold validate_review_thread_metadata in *. cbn [resolved_row tr_state tr_revision
    tr_created_at_unix_ms tr_updated_at_unix_ms tr_resolved_at_unix_ms tr_workspace_id].
  apply rbind_Ok in Hm as (st & _ & Hm). apply rbind_Ok in Hm as (rev & _ & Hm).
  apply rbind_Ok in Hm as ([] & Hg%guard_err_Ok & [= -> ->]). bool_split.
  rewrite (bool_decide_eq_false_2 (lit "resolved" = lit "open")) by done.
  rewrite bool_decide_eq_true_2 by done. cbn [rbind].
  unfold u64_try_from. destruct (Z.ltb_spec (Z.of_N (revision + 1)) 0); [lia|]. cbn [ok_or rbind].
  rewrite N2Z.id. destruct (N.eqb_spec (revision + 1) 0); [lia|].
  destruct (Z.ltb_spec (tr_created_at_unix_ms row) 0); [lia|].
  destruct (Z.ltb_spec now (tr_created_at_unix_ms row)); [lia|]. cbn. by rewrite Hc; cbn [rbind]; rewrite Hne.
Qed.

Lemma load_thread_kind tables kind w id thread :
  load_thread tables kind w id = Ok (Some thread) →
  kind_of (rt_target thread) = kind ∧ rt_thread_id thread = id ∧ 1 ≤ rt_revision thread.
Proof.
  destruct kind; cbn;
    unfold load_review_thread, load_verification_review_thread, load_code_review_thread;
    destruct (thread_row _ w id) as [row|]; cbn; try done;
    intros (th & Hl & [= ->])%rmap_Ok; apply rbind_Ok in Hl as (target & Ht & Hl);
    apply load_thread_tail_Ok in Hl as (Hid & <- & _ & Hrev & _); split_and!; try done.
  - by apply rbind_Ok in Ht as (line & _ & [= <-]).
  - by apply rbind_Ok in Ht as (revision & _ & [= <-]).
  - by apply rbind_Ok in Ht as (line & _ & [= <-]).
Qed.

Lemma thread_row_Some {A} (rows : gmap Uuid (ThreadRow A)) w id row :
  thread_row rows w id = Some row → rows !! id = Some row ∧ tr_workspace_id row = w.
Proof.
  unfold thread_row. destruct (rows !! id) as [r|]; [|done]. cbn. by case_decide; [intros [= ->]|].
Qed.

Lemma update_thread_Ok {A} (rows : gmap Uuid (ThreadRow A)) w id expected revision now rows' :
  update_thread rows w id expected revision now = Ok (Some rows') →
  ∃ row, thread_row rows w id = Some row ∧ (tr_created_at_unix_ms row ≤ now)%Z ∧
    tr_revision row = expected ∧ rows' = <[id := resolved_row row revision now]> rows.
Proof.
  unfold update_thread. destruct (thread_row rows w id) as [row|]; [|done].
  destruct (Z.eqb_spec (tr_revision row) expected); [|done].
  intros ([] & Hg%guard_err_Ok%Z.ltb_ge & [= <-])%rbind_Ok. by exists row.
Qed.

#[local] Ltac resolved_load row Hl Hnow :=
  cbn [transpose_map] in Hl |- *; apply rmap_Ok in Hl as (th & Hl & [= ->]);
  apply rbind_Ok in Hl as (target & Ht & Hl); rewrite thread_row_insert by done;
  cbn [transpose_map];
  lazymatch goal with |- context [?f (resolved_row row ?r ?n)] =>
    change (f (resolved_row row r n)) with (f row) end;
  rewrite Ht; cbn [rbind]; erewrite load_resolved; [done|exact Hl|exact Hnow].

#[local] Ltac other_load Hid Hw :=
  rewrite thread_row_insert_other; [done|by cbn; rewrite Hw|by rewrite Hid; intros old [= <-]].

(** What [update_target] does to the loaders. *)
Lemma update_target_loads tables kind w id current expected now tables' :
  load_thread tables kind w id = Ok (Some current) →
  update_target tables (rt_target current) w id expected (Z.of_N (rt_revision current + 1)) now =
    Ok (Some tables') →
  load_thread tables' kind w id = Ok (Some (resolved_thread current (rt_revision current + 1) now)) ∧
  ∀ kind' w' id', kind' ≠ kind ∨ w' ≠ w ∨ id' ≠ id →
    load_thread tables' kind' w' id' = load_thread tables kind' w' id'.
Proof.
  intros Hl Hu. pose proof (load_thread_kind _ _ _ _ _ Hl) as [<- _].
  destruct (rt_target current); cbn [update_target kind_of load_thread] in *;
    apply rbind_Ok in Hu as ([rows|] & Hu & [= <-]);
    apply update_thread_Ok in Hu as (row & Hrow & Hnow & _ & ->);
    pose proof (thread_row_Some _ _ _ _ Hrow) as [Hid Hw]; split.
  - unfold load_review_thread in *; cbn [vt_planning]. rewrite Hrow in Hl. resolved_load row Hl Hnow.
  - intros [] w' id' [Hk|Hne]; try done. cbn. unfold load_review_thread; cbn [vt_planning].
    other_load Hid Hw.
  - unfold load_verification_review_thread in *; cbn [vt_verification]. rewrite Hrow in Hl.
    resolved_load row Hl Hnow.
  - intros [] w' id' [Hk|Hne]; try done. cbn.
    unfold load_verification_review_thread; cbn [vt_verification]. other_load Hid Hw.
  - unfold load_code_review_thread in *; cbn [vt_code]. rewrite Hrow in Hl. resolved_load row Hl Hnow.
  - intros [] w' id' [Hk|Hne]; try done. cbn. unfold load_code_review_thread; cbn [vt_code].
    other_load Hid Hw.
Qed.

Lemma resolve_body_Ok db w id expected clock db' thread :
  resolve_review_thread_body db w id expected clock = Ok (db', thread) →
  ∃ current, find_review_thread (db_reviews db) w id = Ok current ∧
    rt_revision current = expected ∧ require_workspace db w = Ok () ∧ 1 ≤ rt_revision current ∧
    match rt_state current with
    | Resolved => db' = db ∧ thread = current
    | Open => ∃ now tables, unix_time_ms clock = Ok now ∧ db' = set_reviews db tables ∧
        thread = resolved_thread current (rt_revision current + 1) now ∧
        update_target (db_reviews db) (rt_target current) w id (Z.of_N expected)
          (Z.of_N (rt_revision current + 1)) now = Ok (Some tables)
    end.
Proof.
  unfold resolve_review_thread_body. intros Hb. apply rbind_Ok in Hb as ([] & Hpos%guard_err_Ok & Hb).
  apply rbind_Ok in Hb as ([] & Hreq & Hb). apply rbind_Ok in Hb as (current & Hf & Hb).
  apply rbind_Ok in Hb as ([] & Hrev%guard_err_Ok%negb_false_iff%N.eqb_eq & Hb).
  apply N.eqb_neq in Hpos. exists current. split_and!; [done..|lia|].
  destruct (rt_state current); cbn [bool_decide decide] in Hb.
  - rewrite bool_decide_eq_false_2 in Hb by done.
    apply rbind_Ok in Hb as (revision & Hadd & Hb). apply rbind_Ok in Hb as (now & Hnow & Hb).
    apply rbind_Ok in Hb as (rs & Hrs & Hb). apply rbind_Ok in Hb as (es & Hes & Hb).
    apply rbind_Ok in Hb as (changed & Hu & Hb). apply rbind_Ok in Hb as (tables & Ht & [= <- <-]).
    destruct changed as [changed|]; [|done]. injection Ht as ->.
    unfold checked_add_u64 in Hadd. destruct (_ <=? _); [|done]. injection Hadd as <-.
    destruct (i64_try_from (rt_revision current + 1)) as [z|] eqn:Hz; [|done]. injection Hrs as ->.
    destruct (i64_try_from expected) as [z|] eqn:Hz'; [|done]. injection Hes as ->.
    apply i64_try_from_Some in Hz as [-> _], Hz' as [-> _]. by exists now, tables.
  - rewrite bool_decide_eq_true_2 in Hb by done. by injection Hb as <- <-.
Qed.

(** The thread an update resolved is found, and only it changed. *)
Lemma open_resolved db w id current expected now tables :
  find_review_thread (db_reviews db) w id = Ok current → require_workspace db w = Ok () →
  update_target (db_reviews db) (rt_target current) w id expected
    (Z.of_N (rt_revision current + 1)) now = Ok (Some tables) →
  let thread := resolved_thread current (rt_revision current + 1) now in
  rt_state thread = Resolved ∧ find_review_thread tables w id = Ok thread ∧
  require_workspace (set_reviews db tables) w = Ok () ∧ rt_revision thread ≠ 0 ∧
  ∀ id', id' ≠ id → find_review_thread tables w id' = find_review_thread (db_reviews db) w id'.
Proof.
  rewrite find_review_thread_any, find_thread_Ok. intros (kind & Hk & Hnone) Hreq Hu.
  destruct (update_target_loads _ _ _ _ _ _ _ _ Hk Hu) as [Hnew Hother].
  split_and!; [done| |done|cbn; lia|].
  - rewrite find_review_thread_any, find_thread_Ok. exists kind. split; [done|].
    intros kind' Hne. rewrite (Hother kind' w) by by left. by apply Hnone.
  - intros id' Hne. rewrite !find_review_thread_any. apply find_thread_ext. intros kind'.
    apply Hother. by right; right.
Qed.

(** A resolved thread is returned to the caller that read it, and to no other. *)
Lemma resolve_find db w id thread expected clock :
  find_review_thread (db_reviews db) w id = Ok thread → require_workspace db w = Ok () →
  expected ≠ 0 → rt_state thread = Resolved →
  resolve_review_thread db w id expected clock =
    (db, if rt_revision thread =? expected then Ok thread
         else Err (ReviewThreadConflict expected (rt_revision thread))).
Proof.
  intros Hf Hreq Hpos Hst. unfold resolve_review_thread, resolve_review_thread_body.
  apply N.eqb_neq in Hpos. rewrite Hpos, Hreq. cbn [guard_err rbind]. rewrite Hf. cbn [rbind].
  destruct (rt_revision thread =? expected); cbn [negb guard_err rbind]; [|done].
  by rewrite bool_decide_eq_true_2.
Qed.

(** A thread is resolved once and stays so.  [resolve_review_thread] succeeds only on
    the revision the caller read; an open thread becomes resolved at the next revision, a
    resolved one is returned as it is and nothing is written; afterwards the thread is found
    as it was returned, resolving it again with its revision is the identity, any other
    revision is a conflict, and the other threads of the workspace are as before. *)
Theorem resolve_once db w id expected clock db' thread :
  resolve_review_thread db w id expected clock = (db', Ok thread) →
  (∃ current, find_review_thread (db_reviews db) w id = Ok current ∧
     rt_revision current = expected ∧
     match rt_state current with
     | Open => ∃ now, unix_time_ms clock = Ok now ∧
         thread = resolved_thread current (expected + 1) now
     | Resolved => db' = db ∧ thread = current
     end) ∧
  rt_state thread = Resolved ∧
  find_review_thread (db_reviews db') w id = Ok thread ∧
  (∀ clock', resolve_review_thread db' w id (rt_revision thread) clock' = (db', Ok thread)) ∧
  (∀ expected' clock', expected' ≠ 0 → expected' ≠ rt_revision thread →
     resolve_review_thread db' w id expected' clock' =
       (db', Err (ReviewThreadConflict expected' (rt_revision thread)))) ∧
  ∀ id', id' ≠ id →
    find_review_thread (db_reviews db') w id' = find_review_thread (db_reviews db) w id'.
Proof.
  intros Hb%transact_Ok. apply resolve_body_Ok in Hb as (current & Hfind & Hrev & Hreq & Hpos & Hcase).
  assert (rt_state thread = Resolved ∧ find_review_thread (db_reviews db') w id = Ok thread ∧
    require_workspace db' w = Ok () ∧ (rt_revision thread ≠ 0) ∧
    ∀ id', id' ≠ id →
      find_review_thread (db_reviews db') w id' = find_review_thread (db_reviews db) w id') as
    (Hst & Hfind' & Hreq' & Hpos' & Hother).
  { destruct (rt_state current) eqn:Hs.
    - destruct Hcase as (now & tables & _ & -> & -> & Hl). by eapply open_resolved.
    - destruct Hcase as [-> ->]. split_and!; try done. lia. }
  split_and!; try done.
  - exists current. split_and!; try done. destruct (rt_state current); [|done].
    destruct Hcase as (now & tables & Hnow & -> & -> & _). exists now. by rewrite Hrev.
  - intros clock'. rewrite (resolve_find db' w id thread) by done. by rewrite N.eqb_refl.
  - intros expected' clock' H0 Hne. rewrite (resolve_find db' w id thread) by done.
    by destruct (N.eqb_spec (rt_revision thread) expected').
Qed.
End threads.
