(* ===== verification/StoreRecords.v ===== *)
(** * Workspace records ([crates/wts-store/src/sqlite.rs])

    Creation with its idempotency key, the view a host reads, renaming, adding and removing a
    repository, the lifecycle observation and the removal tombstone. *)

From S2P Require Import Prelude Order Text Workspace StoreBase StoreNames StoreBoard StoreItems.

Local Open Scope N_scope.

(** ** Results *)

Record WorkspaceView := {
  vw_schema_version : N;
  vw_workspace_id : Uuid;
  vw_record_version : N;
  vw_intent : WorkspaceIntent;
  vw_title : str;
  vw_display_name : option str;
  vw_preferred_provider : WorkspaceProvider;
  vw_phase : WorkspacePhase;
  vw_repositories : list WorkspaceRepositoryPlan;
  vw_runtime : option RuntimePlanSelection;
  vw_planning : option WorkspacePlanningSelection;
  vw_observed_work_items : list ObservedWorkItem;
  vw_workspace_root_id : str;
  vw_workspace_leaf : str;
  vw_workspace_display_path : str;
  vw_lifecycle : WorkspaceLifecycleSummary;
  vw_workflow : WorkspaceWorkflowSummary;
  vw_created_at_unix_ms : Z;
  vw_updated_at_unix_ms : Z
}.

Record CreateWorkspaceResult := { cw_workspace : WorkspaceView; cw_replayed : bool }.

Record WorkspaceTombstone := {
  tb_workspace_id : Uuid;
  tb_idempotency_key : Uuid;
  tb_effect_digest : str;
  tb_result_json : str;
  tb_removed_at_unix_ms : Z
}.

Record TombstoneWorkspaceResult := { tw_tombstone : WorkspaceTombstone; tw_replayed : bool }.

Record WorkspaceList := {
  ls_workspace_root_id : str;
  ls_workspace_root_display_path : str;
  ls_workspaces : list WorkspaceView
}.

Section records.
Context `{Libraries} (root : WorkspaceRoot).

(** ** Reading *)

Definition view (db : Database) (record : WorkspaceRecord) (lifecycle : WorkspaceLifecycleSummary) :
    result WorkspaceView WorkspaceStoreError :=
  ensure guard_err (bool_decide (wk_workspace_root_id record ≠ root_id root))
           (UnknownWorkspaceRoot (wk_workspace_root_id record)) in
  ensure validate_record record in
  ensure validate_lifecycle record lifecycle in
  let workspace_display_path := path_join (root_path root) (wk_workspace_leaf record) in
  let observed_work_items :=
    load_observed_work_items (db_observations db) (wk_workspace_id record) in
  let? workflow := load_workflow (db_board db) (wk_workspace_id record) in
  Ok {| vw_schema_version := wk_schema_version record;
        vw_workspace_id := wk_workspace_id record;
        vw_record_version := wk_record_version record;
        vw_intent := wk_intent record; vw_title := wk_title record;
        vw_display_name := wk_display_name record;
        vw_preferred_provider := wk_preferred_provider record;
        vw_phase := wk_phase record; vw_repositories := wk_repositories record;
        vw_runtime := wk_runtime record; vw_planning := wk_planning record;
        vw_observed_work_items := observed_work_items;
        vw_workspace_root_id := wk_workspace_root_id record;
        vw_workspace_leaf := wk_workspace_leaf record;
        vw_workspace_display_path := workspace_display_path;
        vw_lifecycle := lifecycle; vw_workflow := workflow;
        vw_created_at_unix_ms := wk_created_at_unix_ms record;
        vw_updated_at_unix_ms := wk_updated_at_unix_ms record |}.

Definition view_decoded (db : Database) (decoded : DecodedProjection) :
    result WorkspaceView WorkspaceStoreError :=
  view db (dc_record decoded) (dc_lifecycle decoded).

Definition get (db : Database) (workspace_id : Uuid) :
    result (option WorkspaceView) WorkspaceStoreError :=
  let? decoded := load_projection db workspace_id in
  transpose_map (view_decoded db) decoded.

(** [ORDER BY updated_at_unix_ms DESC, workspace_id ASC]. *)
Definition projection_order (a b : Uuid * ProjectionRow) : comparison :=
  cmp_then (Z.compare (pr_updated_at_unix_ms b.2) (pr_updated_at_unix_ms a.2))
           (N.compare a.1 b.1).

Definition active_rows (db : Database) : list (Uuid * ProjectionRow) :=
  sort_by projection_order
    (filter (λ row, is_tombstoned db row.1 = false) (map_to_list (db_projection db))).

Definition list_workspaces (db : Database) : result WorkspaceList WorkspaceStoreError :=
  let? workspaces :=
    try_map (λ row : Uuid * ProjectionRow,
      let? decoded := decode_projection (raw_projection db row.1 row.2) in
      view_decoded db decoded) (active_rows db) in
  Ok {| ls_workspace_root_id := root_id root;
        ls_workspace_root_display_path := root_display_path root;
        ls_workspaces := workspaces |}.

(** ** Creating *)

(** What [create] draws: the clock, the identifiers of the workspace, of the repository
    requests in order, of the event, and of the Jira link with its event. *)
Record CreateInputs := {
  ci_clock : option N;
  ci_workspace_id : Uuid;
  ci_request_ids : list Uuid;
  ci_event_id : Uuid;
  ci_link_id : Uuid;
  ci_link_event_id : Uuid
}.

Definition request_digest (request : CreateWorkspaceRequest) : str :=
  sha256_hex (request_to_json request).

(** [SELECT workspace_id, request_digest .. WHERE idempotency_key = ?1]. *)
Definition find_created (db : Database) (idempotency_key : Uuid) : option (Uuid * str) :=
  (λ row, (ce_workspace_id row, ce_request_digest row)) <$>
    (snd <$> list_find (λ row, ce_idempotency_key row = idempotency_key) (db_created_events db)).

(** The stored workspace of an idempotency key, if the request is the one it was used for. *)
Definition load_replay (db : Database) (idempotency_key : Uuid) (digest : str)
    (replay : Uuid * str) : result DecodedProjection WorkspaceStoreError :=
  let '(workspace_id, existing_digest) := replay in
  ensure guard_err (bool_decide (existing_digest ≠ digest)) (IdempotencyConflict idempotency_key) in
  let? decoded := load_projection db workspace_id in
  ok_or decoded (CorruptRecord (lit "idempotency event has no materialized workspace")).

Definition create_replay (db : Database) (idempotency_key : str) (request : CreateWorkspaceRequest) :
    result (option CreateWorkspaceResult) WorkspaceStoreError :=
  let? idempotency_key := parse_idempotency_key idempotency_key in
  let? request := as_validation (normalize to_lowercase request) in
  match find_created db idempotency_key with
  | None => Ok None
  | Some replay =>
      let? decoded := load_replay db idempotency_key (request_digest request) replay in
      let? workspace := view_decoded db decoded in
      Ok (Some {| cw_workspace := workspace; cw_replayed := true |})
  end.

Definition new_plan (repository : WorkspaceRepositoryRequest) (request_id : Uuid) :
    WorkspaceRepositoryPlan :=
  {| pp_request_id := request_id; pp_repository_id := wr_repository_id repository;
     pp_label := wr_label repository; pp_base_ref := wr_base_ref repository;
     pp_worktree_leaf := repository_leaf (wr_label repository) request_id |}.

Definition new_record (request : CreateWorkspaceRequest) (timestamp : Z) (inputs : CreateInputs) :
    WorkspaceRecord :=
  {| wk_schema_version := WORKSPACE_RECORD_SCHEMA_VERSION;
     wk_workspace_id := ci_workspace_id inputs;
     wk_record_version := WORKSPACE_RECORD_VERSION;
     wk_intent := cr_intent request; wk_title := cr_title request; wk_display_name := None;
     wk_preferred_provider := cr_preferred_provider request; wk_phase := Draft;
     wk_repositories := zip_with new_plan (cr_repositories request) (ci_request_ids inputs);
     wk_runtime := cr_runtime request; wk_planning := cr_planning request;
     wk_workspace_root_id := root_id root;
     wk_workspace_leaf := workspace_leaf (cr_intent request) (ci_workspace_id inputs);
     wk_created_at_unix_ms := timestamp; wk_updated_at_unix_ms := timestamp |}.

Definition new_lifecycle (timestamp : Z) : WorkspaceLifecycleSummary :=
  {| lf_materialization_state := NotMaterialized; lf_worktree_count := 0;
     lf_observed_at_unix_ms := Some timestamp |}.

(** The UNIQUE constraints of [workspace_created_events]. *)
Definition insert_created_event (db : Database) (row : CreatedEventRow) :
    result Database WorkspaceStoreError :=
  ensure guard_err
    (existsb (λ r, (ce_event_id r =? ce_event_id row) ||
                   (ce_workspace_id r =? ce_workspace_id row) ||
                   (ce_idempotency_key r =? ce_idempotency_key row)) (db_created_events db))
    DatabaseError in
  ensure guard_err ((ce_record_version row <=? 0)%Z ||
                    negb (sqlite_length (ce_request_digest row) =? 64)%Z ||
                    (ce_created_at_unix_ms row <? 0)%Z) DatabaseError in
  Ok (set_created_events db (db_created_events db ++ [row])).

Definition insert_projection (db : Database) (workspace_id : Uuid) (row : ProjectionRow) :
    result Database WorkspaceStoreError :=
  ensure guard_err (bool_decide (is_Some (db_projection db !! workspace_id))) DatabaseError in
  Ok (set_projection db (<[workspace_id := row]> (db_projection db))).

Definition insert_lifecycle (db : Database) (workspace_id : Uuid) (row : LifecycleRow) :
    result Database WorkspaceStoreError :=
  ensure guard_err (bool_decide (is_Some (db_lifecycle db !! workspace_id))) DatabaseError in
  Ok (set_lifecycle db (<[workspace_id := row]> (db_lifecycle db))).

(** [COALESCE(MAX(placement.lane_rank) + 1, 0)] over the ready workspaces, tombstoned or not. *)
Definition next_ready_rank (board : BoardTables) : Z :=
  foldr Z.max 0%Z
    (omap (λ '(workspace_id, workflow),
       if bool_decide (wr_state workflow = lit "ready")
       then (λ placement, (pl_lane_rank placement + 1)%Z) <$> bt_placement board !! workspace_id
       else None) (map_to_list (bt_workflow board))).

(** The workflow row, then the placement row: the rank does not see the new workspace, which
    has no placement yet. *)
Definition insert_board (db : Database) (workspace_id : Uuid) (timestamp : Z) :
    result Database WorkspaceStoreError :=
  let board := db_board db in
  ensure guard_err (bool_decide (is_Some (bt_workflow board !! workspace_id)) ||
                    bool_decide (is_Some (bt_placement board !! workspace_id))) DatabaseError in
  let workflow :=
    <[workspace_id := {| wr_state := lit "ready"; wr_workflow_revision := 1;
                         wr_updated_at_unix_ms := timestamp |}]> (bt_workflow board) in
  let placement :=
    <[workspace_id := {| pl_mode := lit "automatic"; pl_lane_rank := next_ready_rank board;
                         pl_updated_at_unix_ms := timestamp |}]> (bt_placement board) in
  Ok (set_board db
        {| bt_workflow_events := bt_workflow_events board; bt_workflow := workflow;
           bt_board_events := bt_board_events board; bt_placement := placement |}).

(** The record is checked and serialized within the store limit. *)
Definition serialize_record (record : WorkspaceRecord) : result str WorkspaceStoreError :=
  let record_json := record_to_json record in
  ensure guard_err (MAX_RECORD_JSON_BYTES <? byte_len record_json)
           (CorruptRecord (lit "serialized workspace record exceeds the store limit")) in
  Ok record_json.

Definition insert_workspace (db : Database) (record : WorkspaceRecord) (idempotency_key : Uuid)
    (digest : str) (timestamp : Z) (inputs : CreateInputs) : result Database WorkspaceStoreError :=
  let workspace_id := wk_workspace_id record in
  let? record_json := serialize_record record in
  let? record_version :=
    ok_or (i64_try_from (wk_record_version record))
      (CorruptRecord (lit "record version exceeds SQLite integer range")) in
  let? db :=
    insert_created_event db
      {| ce_event_id := ci_event_id inputs; ce_workspace_id := workspace_id;
         ce_record_version := record_version; ce_workspace := record;
         ce_idempotency_key := idempotency_key; ce_request_digest := digest;
         ce_created_at_unix_ms := timestamp |} in
  let? db :=
    insert_projection db workspace_id
      {| pr_record_version := record_version; pr_record_json := record_json;
         pr_updated_at_unix_ms := timestamp |} in
  let? db :=
    insert_lifecycle db workspace_id
      {| lr_workspace_record_version := record_version;
         lr_materialization_state := lit "not_materialized"; lr_worktree_count := 0;
         lr_observed_at_unix_ms := timestamp |} in
  let? db := insert_board db workspace_id timestamp in
  persist_jira_intent_work_item_link db record (ci_link_id inputs) (ci_link_event_id inputs).

(** The transaction of [create]: the workspace to show and whether it was replayed. *)
Definition create_body (db : Database) (idempotency_key : str) (request : CreateWorkspaceRequest)
    (inputs : CreateInputs) : result (Database * (DecodedProjection * bool)) WorkspaceStoreError :=
  let? idempotency_key := parse_idempotency_key idempotency_key in
  let? request := as_validation (normalize to_lowercase request) in
  let digest := request_digest request in
  match find_created db idempotency_key with
  | Some replay =>
      let? decoded := load_replay db idempotency_key digest replay in
      Ok (db, (decoded, true))
  | None =>
      let? timestamp := unix_time_ms (ci_clock inputs) in
      let record := new_record request timestamp inputs in
      let lifecycle := new_lifecycle timestamp in
      ensure validate_record record in
      ensure validate_lifecycle record lifecycle in
      let? db := insert_workspace db record idempotency_key digest timestamp inputs in
      Ok (db, ({| dc_record := record; dc_lifecycle := lifecycle |}, false))
  end.

(** The view is built after the commit, so its failure does not undo the creation. *)
Definition create (db : Database) (idempotency_key : str) (request : CreateWorkspaceRequest)
    (inputs : CreateInputs) : Database * result CreateWorkspaceResult WorkspaceStoreError :=
  let '(db', committed) := transact db (create_body db idempotency_key request inputs) in
  (db',
   let? (decoded, replayed) := committed in
   let? workspace := view_decoded db' decoded in
   Ok {| cw_workspace := workspace; cw_replayed := replayed |}).

(** ** Changing a record *)

(** [UPDATE workspace_projection SET record_json, updated_at_unix_ms]. *)
Definition update_projection (db : Database) (workspace_id : Uuid) (record_json : str)
    (updated_at_unix_ms : Z) : Database :=
  set_projection db
    (alter (λ row, {| pr_record_version := pr_record_version row; pr_record_json := record_json;
                      pr_updated_at_unix_ms := updated_at_unix_ms |})
       workspace_id (db_projection db)).

(** [UPDATE workspace_lifecycle_projection SET worktree_count, observed_at_unix_ms], only for
    a materialized workspace. *)
Definition update_worktrees (db : Database) (workspace_id : Uuid)
    (lifecycle : WorkspaceLifecycleSummary) : Database :=
  if bool_decide (lf_materialization_state lifecycle = Materialized) then
    set_lifecycle db
      (alter (λ row,
         {| lr_workspace_record_version := lr_workspace_record_version row;
            lr_materialization_state := lr_materialization_state row;
            lr_worktree_count := Z.of_N (lf_worktree_count lifecycle);
            lr_observed_at_unix_ms := default 0%Z (lf_observed_at_unix_ms lifecycle) |})
       workspace_id (db_lifecycle db))
  else db.

Definition load_required (db : Database) (workspace_id : Uuid) :
    result DecodedProjection WorkspaceStoreError :=
  let? decoded := load_projection db workspace_id in
  ok_or decoded (WorkspaceNotFound workspace_id).

Definition renamed_record (record : WorkspaceRecord) (title : str) (updated_at_unix_ms : Z) :
    WorkspaceRecord :=
  {| wk_schema_version := wk_schema_version record; wk_workspace_id := wk_workspace_id record;
     wk_record_version := wk_record_version record; wk_intent := wk_intent record;
     wk_title := wk_title record; wk_display_name := Some title;
     wk_preferred_provider := wk_preferred_provider record; wk_phase := wk_phase record;
     wk_repositories := wk_repositories record; wk_runtime := wk_runtime record;
     wk_planning := wk_planning record; wk_workspace_root_id := wk_workspace_root_id record;
     wk_workspace_leaf := workspace_leaf_from_name title (wk_workspace_id record);
     wk_created_at_unix_ms := wk_created_at_unix_ms record;
     wk_updated_at_unix_ms := updated_at_unix_ms |}.

Definition rename_body (db : Database) (workspace_id : Uuid) (request : RenameWorkspaceRequest)
    (clock : option N) : result (Database * DecodedProjection) WorkspaceStoreError :=
  let? request := as_validation (normalize_rename request) in
  let? decoded := load_required db workspace_id in
  let? updated_at_unix_ms := unix_time_ms clock in
  let record := renamed_record (dc_record decoded) (rn_title request) updated_at_unix_ms in
  ensure validate_record record in
  let? record_json := serialize_record record in
  Ok (update_projection db workspace_id record_json updated_at_unix_ms,
      {| dc_record := record; dc_lifecycle := dc_lifecycle decoded |}).

(** The operation commits, then shows the workspace. *)
Definition commit_and_view (db : Database)
    (body : result (Database * DecodedProjection) WorkspaceStoreError) :
    Database * result WorkspaceView WorkspaceStoreError :=
  let '(db', committed) := transact db body in
  (db', let? decoded := committed in view_decoded db' decoded).

Definition rename (db : Database) (workspace_id : Uuid) (request : RenameWorkspaceRequest)
    (clock : option N) : Database * result WorkspaceView WorkspaceStoreError :=
  commit_and_view db (rename_body db workspace_id request clock).

Definition with_repositories (record : WorkspaceRecord)
    (repositories : list WorkspaceRepositoryPlan) (updated_at_unix_ms : Z) : WorkspaceRecord :=
  {| wk_schema_version := wk_schema_version record; wk_workspace_id := wk_workspace_id record;
     wk_record_version := wk_record_version record; wk_intent := wk_intent record;
     wk_title := wk_title record; wk_display_name := wk_display_name record;
     wk_preferred_provider := wk_preferred_provider record; wk_phase := wk_phase record;
     wk_repositories := repositories; wk_runtime := wk_runtime record;
     wk_planning := wk_planning record; wk_workspace_root_id := wk_workspace_root_id record;
     wk_workspace_leaf := wk_workspace_leaf record;
     wk_created_at_unix_ms := wk_created_at_unix_ms record;
     wk_updated_at_unix_ms := updated_at_unix_ms |}.

(** A materialized workspace has one worktree per repository. *)
Definition recount_worktrees (lifecycle : WorkspaceLifecycleSummary) (record : WorkspaceRecord) :
    result WorkspaceLifecycleSummary WorkspaceStoreError :=
  if bool_decide (lf_materialization_state lifecycle = Materialized) then
    let? worktree_count :=
      ok_or (u32_try_from (Z.of_nat (length (wk_repositories record))))
        (CorruptRecord (lit "workspace repository count exceeds the lifecycle limit")) in
    Ok {| lf_materialization_state := lf_materialization_state lifecycle;
          lf_worktree_count := worktree_count;
          lf_observed_at_unix_ms := Some (wk_updated_at_unix_ms record) |}
  else Ok lifecycle.

Definition plan_cmp (left right : WorkspaceRepositoryPlan) : comparison :=
  cmp_then (str_cmp (to_lowercase (pp_label left)) (to_lowercase (pp_label right)))
    (cmp_then (option_cmp str_cmp (pp_repository_id left) (pp_repository_id right))
              (str_cmp (pp_base_ref left) (pp_base_ref right))).

Definition add_repository_body (db : Database) (workspace_id : Uuid)
    (repository : WorkspaceRepositoryRequest) (request_id : Uuid) (clock : option N) :
    result (Database * DecodedProjection) WorkspaceStoreError :=
  let? decoded := load_required db workspace_id in
  let repositories :=
    sort_by plan_cmp (wk_repositories (dc_record decoded) ++ [new_plan repository request_id]) in
  let? updated_at_unix_ms := unix_time_ms clock in
  let record := with_repositories (dc_record decoded) repositories updated_at_unix_ms in
  let? lifecycle := recount_worktrees (dc_lifecycle decoded) record in
  ensure validate_record record in
  ensure validate_lifecycle record lifecycle in
  let? record_json := serialize_record record in
  let db := update_projection db workspace_id record_json updated_at_unix_ms in
  Ok (update_worktrees db workspace_id lifecycle,
      {| dc_record := record; dc_lifecycle := lifecycle |}).

Definition add_repository (db : Database) (workspace_id : Uuid)
    (repository : WorkspaceRepositoryRequest) (request_id : Uuid) (clock : option N) :
    Database * result WorkspaceView WorkspaceStoreError :=
  commit_and_view db (add_repository_body db workspace_id repository request_id clock).

Definition remove_repository_body (db : Database) (workspace_id : Uuid) (repository_id : str)
    (clock : option N) : result (Database * DecodedProjection) WorkspaceStoreError :=
  let? decoded := load_required db workspace_id in
  let repositories :=
    filter (λ repository, pp_repository_id repository ≠ Some repository_id)
      (wk_repositories (dc_record decoded)) in
  ensure guard_err (length repositories =? length (wk_repositories (dc_record decoded)))%nat
           (WorkspaceNotFound workspace_id) in
  let? updated_at_unix_ms := unix_time_ms clock in
  let record := with_repositories (dc_record decoded) repositories updated_at_unix_ms in
  let? lifecycle := recount_worktrees (dc_lifecycle decoded) record in
  ensure validate_record record in
  ensure validate_lifecycle record lifecycle in
  let db := update_projection db workspace_id (record_to_json record) updated_at_unix_ms in
  Ok (update_worktrees db workspace_id lifecycle,
      {| dc_record := record; dc_lifecycle := lifecycle |}).

Definition remove_repository (db : Database) (workspace_id : Uuid) (repository_id : str)
    (clock : option N) : Database * result WorkspaceView WorkspaceStoreError :=
  commit_and_view db (remove_repository_body db workspace_id repository_id clock).

(** ** Lifecycle observation *)

Definition observe_lifecycle_body (db : Database) (workspace_id : Uuid)
    (materialization_state : WorkspaceMaterializationState) (worktree_count : N)
    (clock : option N) : result (Database * WorkspaceLifecycleSummary) WorkspaceStoreError :=
  ensure guard_err (bool_decide (materialization_state = Unknown))
           (CorruptRecord (lit "an unknown lifecycle observation cannot be persisted")) in
  let? loaded := load_projection db workspace_id in
  let? decoded :=
    ok_or loaded (CorruptRecord (lit "lifecycle observation refers to a missing workspace")) in
  let? observed_at_unix_ms := unix_time_ms clock in
  let lifecycle :=
    {| lf_materialization_state := materialization_state; lf_worktree_count := worktree_count;
       lf_observed_at_unix_ms := Some observed_at_unix_ms |} in
  ensure validate_lifecycle (dc_record decoded) lifecycle in
  let? record_version :=
    ok_or (i64_try_from (wk_record_version (dc_record decoded)))
      (CorruptRecord (lit "record version exceeds SQLite integer range")) in
  Ok (set_lifecycle db
        (<[workspace_id :=
             {| lr_workspace_record_version := record_version;
                lr_materialization_state := lifecycle_state_storage materialization_state;
                lr_worktree_count := Z.of_N worktree_count;
                lr_observed_at_unix_ms := observed_at_unix_ms |}]> (db_lifecycle db)),
      lifecycle).

Definition observe_lifecycle (db : Database) (workspace_id : Uuid)
    (materialization_state : WorkspaceMaterializationState) (worktree_count : N)
    (clock : option N) : Database * result WorkspaceLifecycleSummary WorkspaceStoreError :=
  transact db (observe_lifecycle_body db workspace_id materialization_state worktree_count clock).

(** ** Removal *)

Definition validate_effect_digest (value : str) : result () WorkspaceStoreError :=
  match strip_prefix (lit "sha256:") value with
  | None => Err InvalidEffectDigest
  | Some hex =>
      guard_err (negb (byte_len hex =? 64) || negb (forallb is_ascii_hexdigit (utf8 hex)))
        InvalidEffectDigest
  end.

Definition validate_tombstone_result_json (value : str) : result () WorkspaceStoreError :=
  ensure guard_err (is_empty value || (MAX_TOMBSTONE_RESULT_JSON_BYTES <? byte_len value))
           (CorruptRecord (lit "workspace tombstone result exceeds the store limit")) in
  guard_err (negb (json_is_value value)) Serialization.

Definition decode_tombstone_row (row : TombstoneRow) : WorkspaceTombstone :=
  {| tb_workspace_id := te_workspace_id row; tb_idempotency_key := te_idempotency_key row;
     tb_effect_digest := te_effect_digest row; tb_result_json := te_result_json row;
     tb_removed_at_unix_ms := te_removed_at_unix_ms row |}.

Definition load_tombstone_by_idempotency (db : Database) (idempotency_key : Uuid) :
    option WorkspaceTombstone :=
  decode_tombstone_row <$>
    (snd <$> list_find (λ row, te_idempotency_key row = idempotency_key) (db_tombstones db)).

Definition load_tombstone_by_workspace (db : Database) (workspace_id : Uuid) :
    option WorkspaceTombstone :=
  decode_tombstone_row <$>
    (snd <$> list_find (λ row, te_workspace_id row = workspace_id) (db_tombstones db)).

(** The constraints of [workspace_tombstone_events]. *)
Definition insert_tombstone (db : Database) (row : TombstoneRow) :
    result Database WorkspaceStoreError :=
  ensure guard_err
    (existsb (λ r, (te_event_id r =? te_event_id row) ||
                   (te_workspace_id r =? te_workspace_id row) ||
                   (te_idempotency_key r =? te_idempotency_key row)) (db_tombstones db))
    DatabaseError in
  ensure guard_err
    (negb (existsb (λ r, ce_workspace_id r =? te_workspace_id row) (db_created_events db)) ||
     negb (sqlite_length (te_effect_digest row) =? 71)%Z || (te_removed_at_unix_ms row <? 0)%Z)
    DatabaseError in
  Ok (set_tombstones db (db_tombstones db ++ [row])).

Definition tombstone_body (db : Database) (workspace_id : Uuid)
    (idempotency_key effect_digest result_json : str) (event_id : Uuid) (clock : option N) :
    result (Database * TombstoneWorkspaceResult) WorkspaceStoreError :=
  let? idempotency_key := parse_idempotency_key idempotency_key in
  ensure validate_effect_digest effect_digest in
  ensure validate_tombstone_result_json result_json in
  match load_tombstone_by_idempotency db idempotency_key with
  | Some existing =>
      ensure guard_err (negb (tb_workspace_id existing =? workspace_id) ||
                        bool_decide (tb_effect_digest existing ≠ effect_digest))
               (TombstoneIdempotencyConflict idempotency_key) in
      Ok (db, {| tw_tombstone := existing; tw_replayed := true |})
  | None =>
      ensure guard_err (bool_decide (is_Some (load_tombstone_by_workspace db workspace_id)))
               (WorkspaceAlreadyTombstoned workspace_id) in
      let? decoded := load_projection db workspace_id in
      ensure guard_err (bool_decide (decoded = None))
               (CorruptRecord (lit "workspace tombstone refers to a missing workspace")) in
      let? removed_at_unix_ms := unix_time_ms clock in
      let row :=
        {| te_event_id := event_id; te_workspace_id := workspace_id;
           te_idempotency_key := idempotency_key; te_effect_digest := effect_digest;
           te_result_json := result_json; te_removed_at_unix_ms := removed_at_unix_ms |} in
      let? db := insert_tombstone db row in
      Ok (db, {| tw_tombstone := decode_tombstone_row row; tw_replayed := false |})
  end.

Definition tombstone (db : Database) (workspace_id : Uuid)
    (idempotency_key effect_digest result_json : str) (event_id : Uuid) (clock : option N) :
    Database * result TombstoneWorkspaceResult WorkspaceStoreError :=
  transact db (tombstone_body db workspace_id idempotency_key effect_digest result_json
                 event_id clock).

Definition tombstone_by_idempotency (db : Database) (idempotency_key : str) :
    result (option WorkspaceTombstone) WorkspaceStoreError :=
  let? idempotency_key := parse_idempotency_key idempotency_key in
  Ok (load_tombstone_by_idempotency db idempotency_key).

(** ** Migration *)

Definition STORE_SCHEMA_VERSION : Z := 11.

(** [initialize]: which migrations run on a database of a given [user_version]. *)
Definition pending_migrations (version : Z) : result (list nat) WorkspaceStoreError :=
  ensure guard_err (STORE_SCHEMA_VERSION <? version)%Z (UnsupportedSchemaVersion version) in
  ensure guard_err (version <? 0)%Z
           (CorruptRecord (lit "unsupported historical store schema " ++ zdec version)) in
  Ok (drop (Z.to_nat version) (seq 0 11)).
End records.

(** ** What was written is read back *)

Section round_trips.
Context `{LibraryLaws} (root : WorkspaceRoot).

Lemma sqlite_length_le s : (sqlite_length s ≤ Z.of_nat (length s))%Z.
Proof.
  induction s as [|c s IH]; cbn [sqlite_length length]; [lia|]. destruct (c =? 0); lia.
Qed.

Lemma utf8_len_pos c : 1 ≤ utf8_len c.
Proof. unfold utf8_len. repeat case_match; lia. Qed.

Lemma byte_len_length s : N.of_nat (length s) ≤ byte_len s.
Proof.
  induction s as [|c s IH]; [done|]. unfold byte_len in *. cbn in *. pose proof (utf8_len_pos c). lia.
Qed.

Lemma lifecycle_state_round_trip state :
  state ≠ Unknown →
  materialization_state_from_storage (Some (lifecycle_state_storage state)) = Ok state.
Proof. by destruct state. Qed.

Lemma validate_record_versions record :
  validate_record record = Ok () →
  wk_schema_version record = 1 ∧ wk_record_version record = 1 ∧
  (0 ≤ wk_created_at_unix_ms record ≤ wk_updated_at_unix_ms record)%Z.
Proof.
  unfold validate_record. intros Hv.
  destruct (N.eqb_spec (wk_schema_version record) WORKSPACE_RECORD_SCHEMA_VERSION) as [Hs|]; [|done].
  destruct (N.eqb_spec (wk_record_version record) WORKSPACE_RECORD_VERSION) as [Hr|]; [|done].
  cbn [negb guard_err rbind] in Hv.
  destruct (is_nil _); [done|]. destruct (valid_root_id _); [|done].
  destruct (bool_decide (wk_workspace_leaf _ ≠ _)); [done|]. cbn [negb guard_err rbind] in Hv.
  destruct (Z.ltb_spec (wk_created_at_unix_ms record) 0); [done|].
  destruct (Z.ltb_spec (wk_updated_at_unix_ms record) (wk_created_at_unix_ms record)); [done|].
  split_and!; [done..|lia|lia].
Qed.

(** The lifecycle columns of a row. *)
Definition stored_lifecycle (row : option LifecycleRow) (lifecycle : WorkspaceLifecycleSummary) :
    Prop :=
  match row with
  | None => lifecycle = unknown
  | Some row =>
      lf_materialization_state lifecycle ≠ Unknown ∧ lf_worktree_count lifecycle ≤ u32_max ∧
      row = {| lr_workspace_record_version := 1;
               lr_materialization_state := lifecycle_state_storage (lf_materialization_state lifecycle);
               lr_worktree_count := Z.of_N (lf_worktree_count lifecycle);
               lr_observed_at_unix_ms := default 0%Z (lf_observed_at_unix_ms lifecycle) |} ∧
      is_Some (lf_observed_at_unix_ms lifecycle)
  end.

(** A row that holds a valid record is decoded to it. *)
Lemma load_projection_stored db w record lifecycle :
  is_tombstoned db w = false →
  db_projection db !! w =
    Some {| pr_record_version := 1; pr_record_json := record_to_json record;
            pr_updated_at_unix_ms := wk_updated_at_unix_ms record |} →
  wk_workspace_id record = w →
  validate_record record = Ok () → validate_lifecycle record lifecycle = Ok () →
  (sqlite_length (record_to_json record) ≤ Z.of_N MAX_RECORD_JSON_BYTES)%Z →
  stored_lifecycle (db_lifecycle db !! w) lifecycle →
  load_projection db w = Ok (Some {| dc_record := record; dc_lifecycle := lifecycle |}).
Proof.
  intros Ht Hrow Hw Hv Hl Hlen Hs. pose proof (validate_record_versions record Hv) as (_ & Hrv & _).
  unfold load_projection. rewrite Ht, Hrow. cbn [transpose_map].
  unfold decode_projection, raw_projection; cbn [rw_json_bytes rw_record_json rw_workspace_id
    rw_record_version rw_updated_at_unix_ms pr_record_json pr_record_version pr_updated_at_unix_ms].
  assert (0 ≤ sqlite_length (record_to_json record))%Z as Hpos.
  { clear. induction (record_to_json record) as [|c s IH]; cbn; [done|]. destruct (c =? 0); lia. }
  destruct (Z.ltb_spec (sqlite_length (record_to_json record)) 0); [lia|].
  destruct (Z.ltb_spec (Z.of_N MAX_RECORD_JSON_BYTES) (sqlite_length (record_to_json record))); [lia|].
  cbn [orb guard_err rbind]. rewrite record_json_round_trip; cbn [rbind].
  rewrite Hrv, Z.eqb_refl, (bool_decide_eq_false_2 (wk_workspace_id record ≠ w)) by auto.
  cbn [orb negb guard_err rbind]. change (bool_decide (i64_try_from 1 ≠ Some 1%Z)) with false.
  cbn [orb negb guard_err rbind]. rewrite Hv; cbn [rbind].
  assert (∀ raw, raw = raw_projection db w
     {| pr_record_version := 1; pr_record_json := record_to_json record;
        pr_updated_at_unix_ms := wk_updated_at_unix_ms record |} →
     decode_lifecycle record raw = Ok lifecycle) as Hdec.
  { intros raw ->. unfold decode_lifecycle, raw_projection;
      cbn [rw_lifecycle_record_version rw_materialization_state rw_worktree_count
           rw_observed_at_unix_ms].
    unfold stored_lifecycle in Hs. destruct (db_lifecycle db !! w) as [row|]; [|by subst].
    destruct lifecycle as [state count observed].
    destruct Hs as (Hne & Hcount & -> & [t Ht']). cbn [lf_observed_at_unix_ms lf_worktree_count
      lf_materialization_state] in *. subst observed.
    cbn [fmap option_fmap option_map lr_workspace_record_version lr_materialization_state
         lr_worktree_count lr_observed_at_unix_ms default].
    rewrite Hrv. cbn [forallb negb andb id default].
    change (bool_decide (Some 1%Z ≠ i64_try_from 1)) with false. cbn [guard_err rbind].
    rewrite lifecycle_state_round_trip by done. cbn [rbind].
    unfold u32_try_from, u32_max in *.
    destruct (Z.ltb_spec (Z.of_N count) 0); [lia|].
    destruct (Z.ltb_spec (Z.of_N (2 ^ 32 - 1)) (Z.of_N count)); [lia|].
    cbn [orb ok_or rbind]. rewrite N2Z.id.
    rewrite Hl. done. }
  rewrite Hdec by reflexivity. done.
Qed.

Lemma materialization_state_from_storage_Ok text state :
  materialization_state_from_storage text = Ok state →
  text = Some (lifecycle_state_storage state) ∧ state ≠ Unknown.
Proof.
  destruct text as [text|]; [|done]. cbn. intros Hs.
  repeat (case_bool_decide; [by injection Hs as <-; subst|]). done.
Qed.

Lemma decode_lifecycle_Ok db w record row lifecycle :
  wk_record_version record = 1 →
  decode_lifecycle record (raw_projection db w row) = Ok lifecycle →
  validate_lifecycle record lifecycle = Ok () ∧ stored_lifecycle (db_lifecycle db !! w) lifecycle.
Proof.
  intros Hrv. unfold decode_lifecycle, raw_projection, stored_lifecycle;
    cbn [rw_lifecycle_record_version rw_materialization_state rw_worktree_count rw_observed_at_unix_ms].
  destruct (db_lifecycle db !! w) as [r|]; [|by intros [= <-]].
  cbn [fmap option_fmap option_map forallb negb andb id]. intros Hd.
  apply rbind_Ok in Hd as ([] & _ & Hd). apply rbind_Ok in Hd as ([] & Hver & Hd).
  apply rbind_Ok in Hd as (state & (Ht & Hne)%materialization_state_from_storage_Ok & Hd).
  apply rbind_Ok in Hd as (count & Hcount & Hd). apply rbind_Ok in Hd as ([] & Hl & [= <-]).
  split; [done|]. cbn in *. unfold u32_try_from in Hcount.
  destruct (_ || _) eqn:E in Hcount; [done|]. injection Hcount as <-. bool_split.
  rewrite Hrv in Hver. case_bool_decide as Hv; [done|].
  change (i64_try_from 1) with (Some 1%Z) in Hv.
  split_and!; [done|unfold u32_max in *; lia| |eauto].
  destruct r; cbn in *. injection Hv as ->. injection Ht as ->. f_equal. lia.
Qed.

(** What a successful read says of the rows. *)
Lemma load_projection_inv db w decoded :
  load_projection db w = Ok (Some decoded) →
  is_tombstoned db w = false ∧
  (∃ row, db_projection db !! w = Some row ∧ pr_record_version row = 1%Z) ∧
  wk_workspace_id (dc_record decoded) = w ∧
  validate_record (dc_record decoded) = Ok () ∧
  validate_lifecycle (dc_record decoded) (dc_lifecycle decoded) = Ok () ∧
  stored_lifecycle (db_lifecycle db !! w) (dc_lifecycle decoded).
Proof.
  unfold load_projection. destruct (is_tombstoned db w); [done|].
  destruct (db_projection db !! w) as [row|]; [|done]. cbn [transpose_map]. intros Hd.
  apply rmap_Ok in Hd as (d & Hd & [= ->]). unfold decode_projection in Hd.
  apply rbind_Ok in Hd as ([] & _ & Hd). apply rbind_Ok in Hd as (record & _ & Hd).
  apply rbind_Ok in Hd as ([] & Hmeta & Hd). apply rbind_Ok in Hd as ([] & Hv & Hd).
  apply rbind_Ok in Hd as (lifecycle & Hl & [= <-]). cbn.
  pose proof (validate_record_versions record Hv) as (_ & Hrv & _).
  apply decode_lifecycle_Ok in Hl as [? ?]; [|done].
  cbn [rw_workspace_id rw_record_version raw_projection] in Hmeta. rewrite Hrv in Hmeta.
  change (i64_try_from 1) with (Some 1%Z) in Hmeta.
  destruct (_ || _) eqn:E in Hmeta; [done|]. clear Hmeta.
  apply orb_false_elim in E as [[E1 E2]%orb_false_elim _].
  apply bool_decide_eq_false_1, dec_stable in E1, E2. injection E2 as E2.
  split_and!; try done. by exists row.
Qed.

Lemma load_required_Ok db w decoded :
  load_required db w = Ok decoded → load_projection db w = Ok (Some decoded).
Proof.
  unfold load_required. intros Hl. apply rbind_Ok in Hl as (o & Ho & Hl).
  destruct o; [|done]. by injection Hl as ->.
Qed.

(** ** Changes of a record *)

Inductive RecordOp :=
| RenameOp (request : RenameWorkspaceRequest)
| AddRepositoryOp (repository : WorkspaceRepositoryRequest) (request_id : Uuid)
| RemoveRepositoryOp (repository_id : str).

Definition record_body (db : Database) (w : Uuid) (op : RecordOp) (clock : option N) :
    result (Database * DecodedProjection) WorkspaceStoreError :=
  match op with
  | RenameOp request => rename_body db w request clock
  | AddRepositoryOp repository request_id => add_repository_body db w repository request_id clock
  | RemoveRepositoryOp repository_id => remove_repository_body db w repository_id clock
  end.

Definition run_record_op (db : Database) (w : Uuid) (op : RecordOp) (clock : option N) :
    Database * result WorkspaceView WorkspaceStoreError :=
  match op with
  | RenameOp request => rename root db w request clock
  | AddRepositoryOp repository request_id => add_repository root db w repository request_id clock
  | RemoveRepositoryOp repository_id => remove_repository root db w repository_id clock
  end.

Lemma run_record_op_body db w op clock :
  run_record_op db w op clock = commit_and_view root db (record_body db w op clock).
Proof. by destruct op. Qed.

Lemma serialize_record_Ok record json :
  serialize_record record = Ok json →
  json = record_to_json record ∧
  (sqlite_length (record_to_json record) ≤ Z.of_N MAX_RECORD_JSON_BYTES)%Z.
Proof.
  unfold serialize_record. destruct (N.ltb_spec MAX_RECORD_JSON_BYTES (byte_len (record_to_json record)));
    [done|]. intros [= <-]. split; [done|].
  pose proof (sqlite_length_le (record_to_json record)).
  pose proof (byte_len_length (record_to_json record)). lia.
Qed.

Lemma update_worktrees_frame db w lifecycle :
  db_tombstones (update_worktrees db w lifecycle) = db_tombstones db ∧
  db_projection (update_worktrees db w lifecycle) = db_projection db ∧
  db_board (update_worktrees db w lifecycle) = db_board db ∧
  db_created_events (update_worktrees db w lifecycle) = db_created_events db ∧
  db_links (update_worktrees db w lifecycle) = db_links db ∧
  db_reviews (update_worktrees db w lifecycle) = db_reviews db ∧
  db_observations (update_worktrees db w lifecycle) = db_observations db.
Proof. unfold update_worktrees. by destruct (bool_decide _). Qed.

(** The lifecycle row after [recount_worktrees] and [update_worktrees]. *)
Lemma recount_worktrees_stored db w old record new :
  stored_lifecycle (db_lifecycle db !! w) old → recount_worktrees old record = Ok new →
  stored_lifecycle (db_lifecycle (update_worktrees db w new) !! w) new.
Proof.
  unfold recount_worktrees, update_worktrees. intros Hs Hr.
  destruct (bool_decide (lf_materialization_state old = Materialized)) eqn:E.
  - apply bool_decide_eq_true_1 in E. apply rbind_Ok in Hr as (count & Hc & [= <-]).
    cbn [lf_materialization_state]. rewrite bool_decide_eq_true_2 by done. cbn.
    rewrite lookup_alter_eq. destruct (db_lifecycle db !! w) as [row|]; cbn in *; [|by subst old].
    destruct Hs as (Hne & _ & -> & _). cbn. split_and!; [done| |done|by eexists].
    unfold u32_try_from, u32_max in *. destruct (_ || _) eqn:E2; [done|]. injection Hc as <-.
    bool_split. lia.
  - injection Hr as <-. by rewrite E.
Qed.

Lemma recount_worktrees_other db w w' lifecycle :
  w' ≠ w → db_lifecycle (update_worktrees db w lifecycle) !! w' = db_lifecycle db !! w'.
Proof.
  intros Hne. unfold update_worktrees. destruct (bool_decide _); [|done]. cbn.
  by rewrite lookup_alter_ne.
Qed.

(** The effect of a change of a record on the tables. *)
Record record_changed (db : Database) (w : Uuid) (db' : Database) (decoded : DecodedProjection) :
    Prop := {
  rch_tombstones : db_tombstones db' = db_tombstones db;
  rch_row : db_projection db' !! w =
    Some {| pr_record_version := 1; pr_record_json := record_to_json (dc_record decoded);
            pr_updated_at_unix_ms := wk_updated_at_unix_ms (dc_record decoded) |};
  rch_id : wk_workspace_id (dc_record decoded) = w;
  rch_record : validate_record (dc_record decoded) = Ok ();
  rch_lifecycle : validate_lifecycle (dc_record decoded) (dc_lifecycle decoded) = Ok ();
  rch_stored : stored_lifecycle (db_lifecycle db' !! w) (dc_lifecycle decoded);
  rch_other w' : w' ≠ w → db_projection db' !! w' = db_projection db !! w' ∧
    db_lifecycle db' !! w' = db_lifecycle db !! w';
  rch_live : is_tombstoned db w = false;
  rch_board : db_board db' = db_board db;
  rch_frame : db_created_events db' = db_created_events db ∧ db_links db' = db_links db ∧
    db_reviews db' = db_reviews db ∧ db_observations db' = db_observations db;
  rch_present : is_Some (db_projection db !! w)
}.

Lemma update_projection_row db w record row :
  db_projection db !! w = Some row → pr_record_version row = 1%Z →
  db_projection (update_projection db w (record_to_json record) (wk_updated_at_unix_ms record)) !! w =
    Some {| pr_record_version := 1; pr_record_json := record_to_json record;
            pr_updated_at_unix_ms := wk_updated_at_unix_ms record |}.
Proof. intros Hr Hv. cbn. by rewrite lookup_alter_eq, Hr; cbn; rewrite Hv. Qed.

(** Adding and removing a repository end the same way. *)
Lemma repositories_changed db w old record lifecycle :
  load_projection db w = Ok (Some old) →
  wk_workspace_id record = wk_workspace_id (dc_record old) →
  recount_worktrees (dc_lifecycle old) record = Ok lifecycle →
  validate_record record = Ok () → validate_lifecycle record lifecycle = Ok () →
  record_changed db w
    (update_worktrees (update_projection db w (record_to_json record)
                         (wk_updated_at_unix_ms record)) w lifecycle)
    {| dc_record := record; dc_lifecycle := lifecycle |}.
Proof.
  intros Hl Hid Hr Hv Hvl.
  apply load_projection_inv in Hl as (Ht & (row & Hrow & Hver) & Hw & _ & _ & Hs).
  pose proof (update_worktrees_frame (update_projection db w (record_to_json record)
    (wk_updated_at_unix_ms record)) w lifecycle) as (Hft & Hfp & Hfb & Hframe).
  constructor; cbn [dc_record dc_lifecycle]; try done; try congruence.
  - rewrite Hfp. by eapply update_projection_row.
  - by eapply recount_worktrees_stored.
  - intros w' Hne. rewrite Hfp, recount_worktrees_other by done. cbn. by rewrite lookup_alter_ne.
Qed.

Lemma record_body_changed db w op clock db' decoded :
  record_body db w op clock = Ok (db', decoded) → record_changed db w db' decoded.
Proof.
  destruct op as [req|repo id|rid]; cbn [record_body]; intros Hb.
  - apply rbind_Ok in Hb as (req' & _ & Hb). apply rbind_Ok in Hb as (old & Hl & Hb).
    apply load_required_Ok, load_projection_inv in Hl as (Ht & (row & Hrow & Hver) & Hw & _ & Hvl & Hs).
    apply rbind_Ok in Hb as (t & _ & Hb). apply rbind_Ok in Hb as ([] & Hv & Hb).
    apply rbind_Ok in Hb as (json & [-> _]%serialize_record_Ok & [= <- <-]).
    constructor; cbn [dc_record dc_lifecycle]; try done.
    + by apply (update_projection_row db w (renamed_record _ _ _) row).
    + intros w' Hne. cbn. by rewrite lookup_alter_ne.
  - apply rbind_Ok in Hb as (old & Hl%load_required_Ok & Hb). apply rbind_Ok in Hb as (t & _ & Hb).
    apply rbind_Ok in Hb as (lifecycle & Hr & Hb). apply rbind_Ok in Hb as ([] & Hv & Hb).
    apply rbind_Ok in Hb as ([] & Hvl & Hb).
    apply rbind_Ok in Hb as (json & [-> _]%serialize_record_Ok & [= <- <-]).
    by apply (repositories_changed db w old (with_repositories (dc_record old) _ t)).
  - apply rbind_Ok in Hb as (old & Hl%load_required_Ok & Hb). apply rbind_Ok in Hb as ([] & _ & Hb).
    apply rbind_Ok in Hb as (t & _ & Hb).
    apply rbind_Ok in Hb as (lifecycle & Hr & Hb). apply rbind_Ok in Hb as ([] & Hv & Hb).
    apply rbind_Ok in Hb as ([] & Hvl & [= <- <-]).
    by apply (repositories_changed db w old (with_repositories (dc_record old) _ t)).
Qed.

(** A changed record keeps its root, and is within the size limit unless repositories were
    removed from it. *)
Lemma record_body_origin db w op clock db' decoded :
  record_body db w op clock = Ok (db', decoded) →
  ∃ old, load_projection db w = Ok (Some old) ∧
    wk_workspace_root_id (dc_record decoded) = wk_workspace_root_id (dc_record old) ∧
    ((sqlite_length (record_to_json (dc_record decoded)) ≤ Z.of_N MAX_RECORD_JSON_BYTES)%Z ∨
     ∃ plans t, unix_time_ms clock = Ok t ∧
       dc_record decoded = with_repositories (dc_record old) plans t ∧
       (length plans < length (wk_repositories (dc_record old)))%nat ∧
       plans `sublist_of` wk_repositories (dc_record old)).
Proof.
  destruct op as [req|repo id|rid]; cbn [record_body]; intros Hb.
  - apply rbind_Ok in Hb as (req' & _ & Hb). apply rbind_Ok in Hb as (old & Hl%load_required_Ok & Hb).
    apply rbind_Ok in Hb as (t & _ & Hb). apply rbind_Ok in Hb as ([] & _ & Hb).
    apply rbind_Ok in Hb as (json & [_ Hs]%serialize_record_Ok & [= _ <-]).
    exists old. split_and!; [done|done|by left].
  - apply rbind_Ok in Hb as (old & Hl%load_required_Ok & Hb). apply rbind_Ok in Hb as (t & _ & Hb).
    apply rbind_Ok in Hb as (lifecycle & _ & Hb). do 2 apply rbind_Ok in Hb as ([] & _ & Hb).
    apply rbind_Ok in Hb as (json & [_ Hs]%serialize_record_Ok & [= _ <-]).
    exists old. split_and!; [done|done|by left].
  - apply rbind_Ok in Hb as (old & Hl%load_required_Ok & Hb).
    apply rbind_Ok in Hb as ([] & Hlen%guard_err_Ok & Hb).
    apply rbind_Ok in Hb as (t & Ht & Hb). apply rbind_Ok in Hb as (lifecycle & _ & Hb).
    do 2 apply rbind_Ok in Hb as ([] & _ & Hb). injection Hb as _ <-.
    exists old. split_and!; [done|done|]. right. eexists _, t. split; [done|]. split; [done|].
    apply Nat.eqb_neq in Hlen.
    pose proof (length_filter (λ r, pp_repository_id r ≠ Some rid) (wk_repositories (dc_record old))).
    split; [lia|apply sublist_filter].
Qed.

(** C5: a change of a record is durable and local: what [rename], [add_repository] and
    [remove_repository] committed is what the next read decodes, a materialized workspace
    has one worktree per repository, and no other workspace reads differently.  (Removing a
    repository does not check the size limit again, so the shrunk record must fit it.) *)
Theorem record_change_read_back db w op clock db' decoded :
  record_body db w op clock = Ok (db', decoded) →
  (sqlite_length (record_to_json (dc_record decoded)) ≤ Z.of_N MAX_RECORD_JSON_BYTES)%Z →
  load_projection db' w = Ok (Some decoded) ∧
  (lf_materialization_state (dc_lifecycle decoded) = Materialized →
   lf_worktree_count (dc_lifecycle decoded) = N.of_nat (length (wk_repositories (dc_record decoded)))) ∧
  ∀ w', w' ≠ w → load_projection db' w' = load_projection db w'.
Proof.
  intros Hb Hlen. apply record_body_changed in Hb. split_and!.
  - rewrite (load_projection_stored db' w (dc_record decoded) (dc_lifecycle decoded)); try apply Hb.
    + by destruct decoded.
    + unfold is_tombstoned. rewrite (rch_tombstones _ _ _ _ Hb). apply Hb.
    + done.
  - intros Hm. pose proof (rch_lifecycle _ _ _ _ Hb) as Hl. unfold validate_lifecycle in Hl.
    rewrite Hm in Hl. apply rbind_Ok in Hl as ([] & Hc & _).
    destruct (N.eqb_spec (lf_worktree_count (dc_lifecycle decoded))
      (N.of_nat (length (wk_repositories (dc_record decoded))))); done.
  - intros w' Hne. destruct (rch_other _ _ _ _ Hb w' Hne) as [Hp Hl].
    unfold load_projection, is_tombstoned, raw_projection.
    by rewrite (rch_tombstones _ _ _ _ Hb), Hp, Hl.
Qed.

(** C6: The store reports the failure of a change it has committed: a workspace of another
    root is renamed, and the caller is told that the root is unknown. *)
Theorem foreign_root_change_commits db w op clock db' decoded :
  record_body db w op clock = Ok (db', decoded) →
  wk_workspace_root_id (dc_record decoded) ≠ root_id root →
  run_record_op db w op clock =
    (db', Err (UnknownWorkspaceRoot (wk_workspace_root_id (dc_record decoded)))).
Proof.
  intros Hb Hne. rewrite run_record_op_body. unfold commit_and_view, transact. rewrite Hb.
  cbn [rbind]. unfold view_decoded, view. by rewrite bool_decide_eq_true_2.
Qed.

(** ** Creation *)

Lemma list_find_none_app {A} (P : A → Prop) `{∀ x, Decision (P x)} (l : list A) x :
  list_find P l = None → P x → snd <$> list_find P (l ++ [x]) = Some x.
Proof.
  intros Hn Hx. induction l as [|y l IH]; cbn in *; [by rewrite decide_True|].
  destruct (decide (P y)); [done|]. destruct (list_find P l) as [[j z]|]; [done|].
  specialize (IH eq_refl). destruct (list_find P (l ++ [x])) as [[j z]|]; [|done]. by cbn in *.
Qed.

(** What [insert_workspace] writes, for a workspace without a tombstone. *)
Record workspace_inserted (db : Database) (record : WorkspaceRecord) (key : Uuid) (digest : str)
    (timestamp : Z) (db' : Database) : Prop := {
  wi_tombstones : db_tombstones db' = db_tombstones db;
  wi_created : ∃ row, db_created_events db' = db_created_events db ++ [row] ∧
    ce_workspace_id row = wk_workspace_id record ∧ ce_idempotency_key row = key ∧
    ce_request_digest row = digest;
  wi_projection : db_projection db' =
    <[wk_workspace_id record := {| pr_record_version := 1; pr_record_json := record_to_json record;
        pr_updated_at_unix_ms := timestamp |}]> (db_projection db);
  wi_lifecycle : db_lifecycle db' =
    <[wk_workspace_id record := {| lr_workspace_record_version := 1;
        lr_materialization_state := lit "not_materialized"; lr_worktree_count := 0;
        lr_observed_at_unix_ms := timestamp |}]> (db_lifecycle db);
  wi_size : (sqlite_length (record_to_json record) ≤ Z.of_N MAX_RECORD_JSON_BYTES)%Z;
  wi_board : ∃ db1 db2, db_board db1 = db_board db ∧
    insert_board db1 (wk_workspace_id record) timestamp = Ok db2 ∧ db_board db' = db_board db2;
  wi_observations : db_observations db' = db_observations db;
  wi_reviews : db_reviews db' = db_reviews db;
  wi_fresh : (wk_workspace_id record ∉ ce_workspace_id <$> db_created_events db) ∧
    db_projection db !! wk_workspace_id record = None;
  wi_links : ∃ db1 link event, db_links db1 = db_links db ∧
    persist_jira_intent_work_item_link db1 record link event = Ok db'
}.

Lemma persist_jira_frame db record l e db' :
  persist_jira_intent_work_item_link db record l e = Ok db' →
  db_tombstones db' = db_tombstones db ∧ db_created_events db' = db_created_events db ∧
  db_projection db' = db_projection db ∧ db_lifecycle db' = db_lifecycle db ∧
  db_board db' = db_board db ∧ db_observations db' = db_observations db ∧
  db_reviews db' = db_reviews db.
Proof.
  unfold persist_jira_intent_work_item_link, insert_link, insert_link_event.
  destruct (wk_intent record); [|by intros [= <-]|by intros [= <-]]. intros Hp.
  apply rbind_Ok in Hp as ([] & _ & Hp). apply rbind_Ok in Hp as (db1 & H1 & Hp).
  do 4 apply rbind_Ok in H1 as ([] & _ & H1). injection H1 as <-.
  do 2 apply rbind_Ok in Hp as ([] & _ & Hp). by injection Hp as <-.
Qed.

Lemma insert_workspace_spec db record key digest timestamp inputs db' :
  wk_record_version record = 1 →
  insert_workspace db record key digest timestamp inputs = Ok db' →
  workspace_inserted db record key digest timestamp db'.
Proof.
  intros Hv Hi. unfold insert_workspace in Hi. rewrite Hv in Hi.
  apply rbind_Ok in Hi as (json & [-> Hsize]%serialize_record_Ok & Hi).
  change (i64_try_from 1) with (Some 1%Z) in Hi. cbn [ok_or rbind] in Hi.
  apply rbind_Ok in Hi as (db1 & H1 & Hi). unfold insert_created_event in H1.
  apply rbind_Ok in H1 as ([] & Hnew%guard_err_Ok & H1).
  apply rbind_Ok in H1 as ([] & _ & H1). injection H1 as <-.
  apply rbind_Ok in Hi as (db2 & H2 & Hi). unfold insert_projection in H2.
  apply rbind_Ok in H2 as ([] & Habs%guard_err_Ok & H2). injection H2 as <-.
  apply rbind_Ok in Hi as (db3 & H3 & Hi). unfold insert_lifecycle in H3.
  apply rbind_Ok in H3 as ([] & _ & H3). injection H3 as <-.
  apply rbind_Ok in Hi as (db4 & H4 & Hi). pose proof Hi as Hlink.
  apply persist_jira_frame in Hi as (Ht & Hc & Hp & Hl & Hb & Ho & Hrev).
  pose proof H4 as H4'. unfold insert_board in H4'. apply rbind_Ok in H4' as ([] & _ & [= <-]).
  cbn in *. constructor; try done.
  - rewrite Hc. eexists. by split_and!.
  - eexists _, _. split_and!; [|exact H4|by rewrite Hb]. done.
  - split; [|apply bool_decide_eq_false_1 in Habs; by apply eq_None_not_Some].
    intros (r & Hr & Hin)%list_elem_of_fmap. apply not_true_iff_false in Hnew. apply Hnew, existsb_spec.
    exists r. split; [done|]. cbn. by rewrite Hr, N.eqb_refl, orb_true_r.
  - eexists _, _, _. split; [|exact Hlink]. done.
Qed.

Lemma create_body_fresh db key request inputs db' decoded :
  create_body root db key request inputs = Ok (db', (decoded, false)) →
  ∃ id request' timestamp,
    parse_idempotency_key key = Ok id ∧ normalize to_lowercase request = Ok request' ∧
    find_created db id = None ∧ unix_time_ms (ci_clock inputs) = Ok timestamp ∧
    decoded = {| dc_record := new_record root request' timestamp inputs;
                 dc_lifecycle := new_lifecycle timestamp |} ∧
    validate_record (dc_record decoded) = Ok () ∧
    workspace_inserted db (dc_record decoded) id (request_digest request') timestamp db'.
Proof.
  unfold create_body. intros Hb. apply rbind_Ok in Hb as (id & Hid & Hb).
  apply rbind_Ok in Hb as (request' & Hreq & Hb).
  destruct (normalize to_lowercase request) as [r|] eqn:Hn; [|done]. injection Hreq as ->.
  destruct (find_created db id) as [replay|] eqn:Hf.
  { apply rbind_Ok in Hb as (d & _ & Hb). done. }
  apply rbind_Ok in Hb as (t & Ht & Hb). apply rbind_Ok in Hb as ([] & Hv & Hb).
  apply rbind_Ok in Hb as ([] & Hl & Hb). apply rbind_Ok in Hb as (db1 & Hi & [= <- <-]).
  apply insert_workspace_spec in Hi; [|done]. by exists id, request', t.
Qed.

(** The created workspace is found under its key and is read back. *)
Lemma workspace_inserted_read db record key digest t db' :
  workspace_inserted db record key digest t db' →
  wk_updated_at_unix_ms record = t → wk_created_at_unix_ms record = t →
  validate_record record = Ok () →
  is_tombstoned db (wk_workspace_id record) = false →
  load_projection db' (wk_workspace_id record) =
    Ok (Some {| dc_record := record; dc_lifecycle := new_lifecycle t |}).
Proof.
  intros Hi Hu Hc Hv Ht. subst t. apply load_projection_stored; [| |done|done| | |].
  - unfold is_tombstoned. by rewrite (wi_tombstones _ _ _ _ _ _ Hi).
  - by rewrite (wi_projection _ _ _ _ _ _ Hi), lookup_insert_eq.
  - unfold validate_lifecycle, validate_lifecycle_timestamp; cbn. rewrite Hc.
    by destruct (Z.ltb_spec (wk_updated_at_unix_ms record) (wk_updated_at_unix_ms record)); [lia|].
  - apply Hi.
  - rewrite (wi_lifecycle _ _ _ _ _ _ Hi), lookup_insert_eq. cbn.
    split_and!; [done|unfold u32_max; lia|done|by eexists].
Qed.

Lemma workspace_inserted_found db record key digest t db' :
  workspace_inserted db record key digest t db' → find_created db key = None →
  find_created db' key = Some (wk_workspace_id record, digest).
Proof.
  intros Hi Hn. unfold find_created in *.
  destruct (wi_created _ _ _ _ _ _ Hi) as (row & -> & Hw & Hk & Hd).
  rewrite list_find_none_app; [cbn; by rewrite Hw, Hd| |done].
  by destruct (list_find _ (db_created_events db)).
Qed.

(** C7: creation is idempotent.  After a workspace was created under a key, the same
    request under that key returns the same workspace, marked as replayed, and changes
    nothing, whatever the clock and the identifiers it draws; another request under that key
    is refused. *)
Theorem create_idempotent db key request inputs db' workspace :
  create root db key request inputs =
    (db', Ok {| cw_workspace := workspace; cw_replayed := false |}) →
  is_tombstoned db (ci_workspace_id inputs) = false →
  (∀ inputs', create root db' key request inputs' =
     (db', Ok {| cw_workspace := workspace; cw_replayed := true |})) ∧
  create_replay root db' key request =
    Ok (Some {| cw_workspace := workspace; cw_replayed := true |}) ∧
  ∀ inputs' other r r', normalize to_lowercase request = Ok r →
    normalize to_lowercase other = Ok r' → request_digest r ≠ request_digest r' →
    ∃ id, create root db' key other inputs' = (db', Err (IdempotencyConflict id)).
Proof.
  unfold create. intros Hc Htomb.
  destruct (transact db (create_body root db key request inputs)) as [db1 committed] eqn:Hb.
  injection Hc as -> Hc. apply rbind_Ok in Hc as ([decoded replayed] & -> & Hc).
  apply rbind_Ok in Hc as (v & Hv & [= -> ->]). apply transact_Ok in Hb.
  apply create_body_fresh in Hb as (id & req & t & Hid & Hn & Hf & Ht & Hdec & Hval & Hi).
  assert (load_projection db' (wk_workspace_id (dc_record decoded)) = Ok (Some decoded)) as Hl.
  { erewrite workspace_inserted_read; [|exact Hi|subst decoded; done..]; by subst decoded. }
  pose proof (workspace_inserted_found _ _ _ _ _ _ Hi Hf) as Hfound.
  assert (load_replay db' id (request_digest req)
    (wk_workspace_id (dc_record decoded), request_digest req) = Ok decoded) as Hreplay.
  { unfold load_replay. rewrite bool_decide_eq_false_2 by (intros Hx; by apply Hx). cbn [guard_err rbind].
    by rewrite Hl. }
  split_and!.
  - intros inputs'. unfold create_body. rewrite Hid, Hn. cbn [rbind as_validation].
    rewrite Hfound, Hreplay. cbn [rbind transact]. by rewrite Hv.
  - unfold create_replay. rewrite Hid, Hn. cbn [rbind as_validation].
    by rewrite Hfound, Hreplay; cbn [rbind]; rewrite Hv.
  - intros inputs' other r r' Hr Hr' Hne. exists id. unfold create_body.
    rewrite Hid, Hr'. cbn [rbind as_validation]. rewrite Hfound. unfold load_replay.
    rewrite Hn in Hr. injection Hr as <-. by rewrite bool_decide_eq_true_2.
Qed.
(** ** Where a workspace lives *)

Lemma validate_record_names record :
  validate_record record = Ok () →
  wk_workspace_leaf record = expected_workspace_leaf record ∧
  ∀ plan, plan ∈ wk_repositories record →
    pp_worktree_leaf plan = repository_leaf (pp_label plan) (pp_request_id plan).
Proof.
  unfold validate_record. intros Hv. do 4 apply rbind_Ok in Hv as ([] & _ & Hv).
  apply rbind_Ok in Hv as ([] & Hleaf%guard_err_Ok & Hv).
  do 3 apply rbind_Ok in Hv as ([] & _ & Hv). apply rbind_Ok in Hv as ([] & Hplans & _).
  apply bool_decide_eq_false_1, dec_stable in Hleaf. split; [done|].
  induction (wk_repositories record) as [|p l IH]; [by intros ? ?%elem_of_nil|].
  cbn [try_fold] in Hplans. apply rbind_Ok in Hplans as ([] & Hp%guard_err_Ok & Hplans).
  apply orb_false_elim in Hp as [_ Hp]. apply bool_decide_eq_false_1, dec_stable in Hp.
  intros plan [->|Hin]%elem_of_cons; [done|by apply IH].
Qed.

(** A validated record names one directory under the root: its leaf spells a path segment
    that ends with its identifier. *)
Lemma expected_leaf_shape record :
  ∃ source, expected_workspace_leaf record = workspace_leaf_from_name source (wk_workspace_id record).
Proof.
  unfold expected_workspace_leaf, workspace_leaf. destruct (wk_display_name record); by eexists.
Qed.

Lemma view_Ok db record lifecycle v :
  view root db record lifecycle = Ok v →
  validate_record record = Ok () ∧ wk_workspace_root_id record = root_id root ∧
  vw_workspace_id v = wk_workspace_id record ∧
  vw_workspace_leaf v = wk_workspace_leaf record ∧
  vw_repositories v = wk_repositories record ∧
  vw_workspace_display_path v = path_join (root_path root) (wk_workspace_leaf record).
Proof.
  unfold view. intros Hv. apply rbind_Ok in Hv as ([] & Hr%guard_err_Ok & Hv).
  apply bool_decide_eq_false_1, dec_stable in Hr. apply rbind_Ok in Hv as ([] & Hval & Hv).
  apply rbind_Ok in Hv as ([] & _ & Hv). by apply rbind_Ok in Hv as (wf & _ & [= <-]).
Qed.

Lemma new_workspace_root_Ok id path :
  new_workspace_root id path = Ok root →
  is_absolute (root_path root) = true ∧ ParentDir ∉ path_components (root_path root).
Proof.
  unfold new_workspace_root. intros Hr. apply rbind_Ok in Hr as ([] & _ & Hr).
  apply rbind_Ok in Hr as ([] & Ha%guard_err_Ok & Hr).
  apply rbind_Ok in Hr as ([] & Hp%guard_err_Ok & [= <-]). cbn.
  split; [by apply negb_false_iff in Ha|]. intros Hin.
  apply not_true_iff_false in Hp. apply Hp, existsb_spec. exists ParentDir.
  by rewrite bool_decide_eq_true_2.
Qed.

Lemma view_leaf db record lifecycle v :
  view root db record lifecycle = Ok v →
  ∃ source, vw_workspace_leaf v = workspace_leaf_from_name source (vw_workspace_id v).
Proof.
  intros (Hval & _ & Hid & Hl & _)%view_Ok. apply validate_record_names in Hval as [Hleaf _].
  destruct (expected_leaf_shape record) as [source Hs]. exists source. congruence.
Qed.

(** The directory of a view, as path components. *)
Lemma view_path id path db record lifecycle v :
  new_workspace_root id path = Ok root → view root db record lifecycle = Ok v →
  path_components (vw_workspace_display_path v) =
    path_components (root_path root) ++ [NormalDir (vw_workspace_leaf v)].
Proof.
  intros (Habs & _)%new_workspace_root_Ok Hv. destruct (view_leaf _ _ _ _ Hv) as [source Hs].
  apply view_Ok in Hv as (_ & _ & _ & Hl & _ & Hp). rewrite Hp, <- Hl, Hs.
  apply path_join_leaf; [done|apply leaf_from_name_chars|].
  pose proof (leaf_from_name_length source (vw_workspace_id v)) as Hlen. intros Hnil.
  rewrite Hnil in Hlen. cbn in Hlen. lia.
Qed.

Lemma view_path_absolute id path db record lifecycle v :
  new_workspace_root id path = Ok root → view root db record lifecycle = Ok v →
  is_absolute (vw_workspace_display_path v) = true.
Proof.
  intros (Habs & _)%new_workspace_root_Ok Hv. destruct (view_leaf _ _ _ _ Hv) as [source Hs].
  apply view_Ok in Hv as (_ & _ & _ & Hl & _ & ->). rewrite <- Hl, Hs. unfold path_join.
  rewrite (leaf_not_absolute (workspace_leaf_from_name _ _)) by apply leaf_from_name_chars.
  destruct (root_path root) as [|c p]; [done|]. rewrite is_absolute_cons in Habs.
  cbn [is_empty orb app]. by case_match; rewrite is_absolute_cons.
Qed.

(** Every workspace lives in a directory of its own, one level below the root, and every
    repository one level below that: whatever the user named them, the displayed path and
    the worktree paths add exactly one normal component, never leave the root, and two
    workspaces with different (128-bit) identifiers never share a directory. *)
Theorem view_confined id path db record lifecycle v :
  new_workspace_root id path = Ok root → view root db record lifecycle = Ok v →
  let directory := path_components (vw_workspace_display_path v) in
  directory = path_components (root_path root) ++ [NormalDir (vw_workspace_leaf v)] ∧
  (ParentDir ∉ directory) ∧
  (∀ plan, plan ∈ vw_repositories v →
     path_components (path_join (vw_workspace_display_path v) (pp_worktree_leaf plan)) =
       directory ++ [NormalDir (pp_worktree_leaf plan)]) ∧
  ∀ db' record' lifecycle' v', view root db' record' lifecycle' = Ok v' →
    vw_workspace_id v < 2 ^ 128 → vw_workspace_id v' < 2 ^ 128 →
    vw_workspace_id v ≠ vw_workspace_id v' →
    path_components (vw_workspace_display_path v') ≠ directory.
Proof.
  intros Hroot Hv. pose proof (view_path _ _ _ _ _ _ Hroot Hv) as Hp. cbn zeta. split_and!.
  - done.
  - rewrite Hp, elem_of_app. apply new_workspace_root_Ok in Hroot as [_ Hr].
    intros [?|Hin%list_elem_of_singleton]; done.
  - intros plan Hin. pose proof (view_path_absolute _ _ _ _ _ _ Hroot Hv) as Habs.
    apply view_Ok in Hv as (Hval & _ & _ & _ & Hrep & _). rewrite Hrep in Hin.
    apply validate_record_names in Hval as [_ ->]; [|done].
    apply path_join_leaf; [done|apply repository_leaf_chars|]. intros Hnil.
    pose proof (repository_leaf_length (pp_label plan) (pp_request_id plan)) as Hlen.
    rewrite Hnil in Hlen. cbn in Hlen. lia.
  - intros db' record' lifecycle' v' Hv' Hi Hi' Hne Heq.
    rewrite (view_path _ _ _ _ _ _ Hroot Hv'), Hp in Heq. apply app_inj_tail in Heq as [_ [= Heq]].
    destruct (view_leaf _ _ _ _ Hv) as [s Hs], (view_leaf _ _ _ _ Hv') as [s' Hs'].
    rewrite Hs, Hs' in Heq. by apply leaf_from_name_inj in Heq.
Qed.

(** ** Removal *)

Lemma is_tombstoned_snoc db rows row w :
  db_tombstones db = rows ++ [row] →
  is_tombstoned db w = existsb (λ r, te_workspace_id r =? w) rows || (te_workspace_id row =? w).
Proof. unfold is_tombstoned. intros ->. by rewrite existsb_app; cbn; rewrite orb_false_r. Qed.

Lemma tombstoned_load db w : is_tombstoned db w = true → load_projection db w = Ok None.
Proof. unfold load_projection. by intros ->. Qed.

(** No operation on a tombstoned workspace succeeds. *)
Lemma tombstoned_required db w :
  is_tombstoned db w = true → load_required db w = Err (WorkspaceNotFound w).
Proof. intros Ht. unfold load_required. by rewrite tombstoned_load. Qed.

Lemma tombstoned_require db w :
  is_tombstoned db w = true → require_workspace db w = Err (WorkspaceNotFound w).
Proof.
  intros Ht. unfold require_workspace. by rewrite tombstoned_load.
Qed.

Lemma tombstoned_record_op db w op clock :
  is_tombstoned db w = true → ∃ e, run_record_op db w op clock = (db, Err e).
Proof.
  intros Ht. rewrite run_record_op_body. unfold commit_and_view. destruct op; cbn [record_body].
  - unfold rename_body. destruct (as_validation _); [|by eexists].
    cbn [rbind]. rewrite tombstoned_required by done. by eexists.
  - unfold add_repository_body. rewrite tombstoned_required by done. by eexists.
  - unfold remove_repository_body. rewrite tombstoned_required by done. by eexists.
Qed.

Lemma tombstoned_board_op db w op inputs :
  is_tombstoned db w = true → ∃ e, run_board_op db w op inputs = (db, Err e).
Proof.
  intros Ht. assert (∀ n, load_expected db w n = Err (WorkspaceNotFound w)) as He.
  { intros n. unfold load_expected. by rewrite tombstoned_require. }
  destruct op; cbn.
  - unfold transition_workflow, transition_workflow_body. rewrite He. by eexists.
  - unfold place_workspace_on_board, place_workspace_on_board_body.
    destruct (guard_err _ _); cbn [rbind]; [|by eexists].
    destruct (guard_err _ _); cbn [rbind]; [|by eexists]. rewrite He. by eexists.
  - unfold follow_workspace_agent, follow_workspace_agent_body. rewrite He. by eexists.
Qed.

Lemma tombstoned_lane db w state :
  is_tombstoned db w = true → w ∉ load_lane_workspace_ids db state None.
Proof. intros Ht [Hin _]%elem_of_lane. destruct Hin as (row & Hin). naive_solver congruence. Qed.

Lemma tombstone_body_fresh db w key digest json event clock db' t :
  tombstone_body db w key digest json event clock =
    Ok (db', {| tw_tombstone := t; tw_replayed := false |}) →
  ∃ id row, parse_idempotency_key key = Ok id ∧ validate_effect_digest digest = Ok () ∧
    load_tombstone_by_idempotency db id = None ∧ is_tombstoned db w = false ∧
    db' = set_tombstones db (db_tombstones db ++ [row]) ∧
    te_workspace_id row = w ∧ te_idempotency_key row = id ∧ te_effect_digest row = digest ∧
    t = decode_tombstone_row row.
Proof.
  unfold tombstone_body. intros Hb. apply rbind_Ok in Hb as (id & Hid & Hb).
  apply rbind_Ok in Hb as ([] & Hd & Hb). apply rbind_Ok in Hb as ([] & _ & Hb).
  destruct (load_tombstone_by_idempotency db id) as [old|] eqn:Hk.
  { by apply rbind_Ok in Hb as ([] & _ & Hb). }
  apply rbind_Ok in Hb as ([] & _ & Hb). apply rbind_Ok in Hb as (decoded & Hl & Hb).
  apply rbind_Ok in Hb as ([] & Hsome%guard_err_Ok & Hb). apply bool_decide_eq_false_1 in Hsome.
  apply rbind_Ok in Hb as (time & _ & Hb). apply rbind_Ok in Hb as (db1 & Hi & [= <- <-]).
  unfold insert_tombstone in Hi. do 2 apply rbind_Ok in Hi as ([] & _ & Hi). injection Hi as <-.
  eexists id, _. split_and!; [done|done|done| |reflexivity|done..].
  destruct (is_tombstoned db w) eqn:Ht; [|done]. rewrite tombstoned_load in Hl by done. congruence.
Qed.

(** Every workspace of the list is one that is not removed. *)
Lemma listed_is_active db l v :
  list_workspaces root db = Ok l → v ∈ ls_workspaces l → is_tombstoned db (vw_workspace_id v) = false.
Proof.
  intros (views & Hviews & [= <-])%rbind_Ok Hv. cbn in Hv. apply try_map_Ok in Hviews.
  apply list_elem_of_lookup in Hv as [i Hi].
  destruct (Forall2_lookup_r _ _ _ _ _ Hviews Hi) as (row & Hrow & Hr).
  apply list_elem_of_lookup_2 in Hrow. unfold active_rows in Hrow.
  rewrite sort_by_perm, list_elem_of_filter in Hrow. destruct Hrow as [Hlive _].
  apply rbind_Ok in Hr as (decoded & Hd & Hr).
  assert (vw_workspace_id v = wk_workspace_id (dc_record decoded)) as ->.
  { unfold view_decoded, view in Hr. inv_result Hr. by subst v. }
  apply rbind_Ok in Hd as (_ & _ & Hd). apply rbind_Ok in Hd as (record & _ & Hd).
  apply ensure_Ok in Hd as [Hids Hd]. apply orb_false_iff in Hids as [[Hid _]%orb_false_iff _].
  apply bool_decide_eq_false_1, dec_stable in Hid.
  apply rbind_Ok in Hd as (_ & _ & Hd). apply rbind_Ok in Hd as (lifecycle & _ & [= <-]).
  cbn [dc_record]. by rewrite Hid.
Qed.

(** C8: removal is final and idempotent.  Once a workspace is tombstoned [get] answers nothing, no
    list of workspaces and no lane shows it, every change of its record and every board request
    fails and changes nothing, the same key and effect replay the stored tombstone whatever result
    text comes with them, another key is refused, and every other workspace reads as before.  The
    tables of links, observations and review threads keep their rows. *)
Theorem tombstone_final db w key digest json event clock db' t :
  tombstone db w key digest json event clock =
    (db', Ok {| tw_tombstone := t; tw_replayed := false |}) →
  get root db' w = Ok None ∧
  (∀ l, list_workspaces root db' = Ok l → w ∉ vw_workspace_id <$> ls_workspaces l) ∧
  (∀ state, w ∉ load_lane_workspace_ids db' state None) ∧
  (∀ op clock', ∃ e, run_record_op db' w op clock' = (db', Err e)) ∧
  (∀ op inputs, ∃ e, run_board_op db' w op inputs = (db', Err e)) ∧
  (∀ json' event' clock', validate_tombstone_result_json json' = Ok () →
     tombstone db' w key digest json' event' clock' =
       (db', Ok {| tw_tombstone := t; tw_replayed := true |})) ∧
  (∀ key' id' digest' json' event' clock', parse_idempotency_key key' = Ok id' →
     validate_effect_digest digest' = Ok () → validate_tombstone_result_json json' = Ok () →
     load_tombstone_by_idempotency db' id' = None →
     tombstone db' w key' digest' json' event' clock' =
       (db', Err (WorkspaceAlreadyTombstoned w))) ∧
  ∀ w', w' ≠ w → load_projection db' w' = load_projection db w'.
Proof.
  intros (id & row & Hid & Hd & Hnone & Hlive & Hdb & Hw & Hrid & Hrd & Ht)
    %transact_Ok%tombstone_body_fresh.
  assert (db_tombstones db' = db_tombstones db ++ [row]) as Hrows by by subst db'.
  assert (is_tombstoned db' w = true) as Htomb.
  { by rewrite (is_tombstoned_snoc db' _ row w Hrows), Hw, N.eqb_refl, orb_true_r. }
  split_and!.
  - unfold get. by rewrite tombstoned_load.
  - intros l Hl (v & -> & Hv)%list_elem_of_fmap. by rewrite (listed_is_active _ _ _ Hl Hv) in Htomb.
  - intros state. by apply tombstoned_lane.
  - intros op clock'. by apply tombstoned_record_op.
  - intros op inputs. by apply tombstoned_board_op.
  - intros json' event' clock' Hj. unfold tombstone, tombstone_body. rewrite Hid, Hd, Hj. cbn [rbind].
    unfold load_tombstone_by_idempotency in *. rewrite Hrows, list_find_none_app;
      [|by destruct (list_find _ _)|done].
    cbn [fmap option_fmap option_map].
    change (tb_workspace_id (decode_tombstone_row row)) with (te_workspace_id row).
    rewrite Hw, N.eqb_refl, bool_decide_eq_false_2 by (intros Hx; by apply Hx). by subst t.
  - intros key' id' digest' json' event' clock' Hid' Hd' Hj Hn. unfold tombstone, tombstone_body.
    rewrite Hid', Hd', Hj. cbn [rbind]. rewrite Hn. rewrite bool_decide_eq_true_2; [done|].
    unfold load_tombstone_by_workspace.
    destruct (list_find (λ r, te_workspace_id r = w) (db_tombstones db')) as [[j r]|] eqn:Hf; [by eexists|].
    rewrite list_find_None, Hrows in Hf. by decompose_Forall.
  - intros w' Hne. unfold load_projection. rewrite (is_tombstoned_snoc db' _ row w' Hrows).
    rewrite Hw. destruct (N.eqb_spec w w') as [->|]; [done|]. rewrite orb_false_r. by subst db'.
Qed.

(** ** A valid request creates a workspace *)

Lemma zip_plans (repositories : list WorkspaceRepositoryRequest) request_ids :
  length request_ids = length repositories →
  plan_request <$> zip_with new_plan repositories request_ids = repositories.
Proof.
  revert request_ids; induction repositories as [|r l IH]; intros [|i k]; try done.
  intros [= Hlen]. cbn. rewrite IH by done. by destruct r.
Qed.

Lemma zip_canonical (repositories : list WorkspaceRepositoryRequest) request_ids :
  length request_ids = length repositories →
  zip_with (λ repository plan,
    {| pp_request_id := pp_request_id plan; pp_repository_id := wr_repository_id repository;
       pp_label := wr_label repository; pp_base_ref := wr_base_ref repository;
       pp_worktree_leaf := pp_worktree_leaf plan |})
    repositories (zip_with new_plan repositories request_ids) =
  zip_with new_plan repositories request_ids.
Proof.
  revert request_ids; induction repositories as [|r l IH]; intros [|i k]; try done.
  intros [= Hlen]. cbn. by rewrite IH.
Qed.

Lemma zip_plans_trusted (repositories : list WorkspaceRepositoryRequest) request_ids :
  forallb (λ id, negb (is_nil id)) request_ids = true →
  try_fold validate_plan () (zip_with new_plan repositories request_ids) = Ok ().
Proof.
  revert request_ids; induction repositories as [|r l IH]; intros [|i k]; try done.
  cbn. intros [Hi Hk]%andb_prop. apply negb_true_iff in Hi.
  unfold validate_plan at 1; cbn. rewrite Hi, bool_decide_eq_false_2 by (intros Hx; by apply Hx).
  by apply IH.
Qed.

(** The identifiers drawn for a new workspace. *)
Record good_inputs (request : CreateWorkspaceRequest) (inputs : CreateInputs) : Prop := {
  gi_workspace : is_nil (ci_workspace_id inputs) = false;
  gi_link : is_nil (ci_link_id inputs) = false;
  gi_requests : forallb (λ id, negb (is_nil id)) (ci_request_ids inputs) = true;
  gi_length : length (ci_request_ids inputs) = length (cr_repositories request)
}.

(** The record [create] builds from a normalized request passes the checks of every later
    read. *)
Lemma new_record_valid request request' t inputs :
  normalize to_lowercase request = Ok request' → good_inputs request' inputs →
  valid_root_id (root_id root) = true → (0 ≤ t)%Z →
  validate_record (new_record root request' t inputs) = Ok ().
Proof.
  intros Hn [Hw _ Hids Hlen] Hroot Ht. apply normalize_again in Hn.
  unfold validate_record, new_record;
    cbn [wk_schema_version wk_record_version wk_workspace_id wk_workspace_root_id wk_workspace_leaf
      wk_created_at_unix_ms wk_updated_at_unix_ms wk_phase wk_display_name wk_repositories].
  rewrite !N.eqb_refl, Hw, Hroot. cbn [negb guard_err rbind].
  unfold expected_workspace_leaf; cbn [wk_display_name wk_intent wk_workspace_id].
  rewrite bool_decide_eq_false_2 by (intros Hx; by apply Hx). cbn [guard_err rbind].
  destruct (Z.ltb_spec t 0); [lia|]. destruct (Z.ltb_spec t t); [lia|]. cbn [orb guard_err rbind].
  rewrite bool_decide_eq_false_2 by (intros Hx; by apply Hx). cbn [guard_err rbind].
  rewrite zip_plans_trusted by done. cbn [rbind].
  unfold record_request, canonical_plans; cbn [wk_intent wk_title wk_preferred_provider wk_repositories wk_runtime
    wk_planning]. rewrite zip_plans by done.
  assert ({| cr_intent := cr_intent request'; cr_title := cr_title request';
    cr_preferred_provider := cr_preferred_provider request'; cr_repositories := cr_repositories request';
    cr_runtime := cr_runtime request'; cr_planning := cr_planning request' |} = request') as ->
    by by destruct request'.
  rewrite Hn, zip_canonical by done.
  by rewrite !bool_decide_eq_false_2 by (intros Hx; by apply Hx).
Qed.

(** What a new workspace must not collide with. *)
Record fresh_inputs (db : Database) (key : Uuid) (inputs : CreateInputs) : Prop := {
  fi_created : existsb (λ r, (ce_event_id r =? ci_event_id inputs) ||
    (ce_workspace_id r =? ci_workspace_id inputs) || (ce_idempotency_key r =? key))
    (db_created_events db) = false;
  fi_projection : db_projection db !! ci_workspace_id inputs = None;
  fi_lifecycle : db_lifecycle db !! ci_workspace_id inputs = None;
  fi_workflow : bt_workflow (db_board db) !! ci_workspace_id inputs = None;
  fi_placement : bt_placement (db_board db) !! ci_workspace_id inputs = None;
  fi_link : kt_links (db_links db) !! ci_link_id inputs = None;
  fi_links : ∀ id row, kt_links (db_links db) !! id = Some row →
    kr_workspace_id row ≠ ci_workspace_id inputs;
  fi_link_event : existsb (λ r, ke_event_id r =? ci_link_event_id inputs) (kt_events (db_links db)) = false
}.

Lemma sqlite_length_hex s : forallb is_lower_hex s = true → sqlite_length s = Z.of_nat (length s).
Proof.
  induction s as [|c s IH]; [done|]. cbn [forallb]. intros [Hc Hs]%andb_prop.
  cbn [sqlite_length length]. rewrite IH by done.
  destruct (N.eqb_spec c 0) as [->|]; [done|]. lia.
Qed.

Lemma request_digest_length request : sqlite_length (request_digest request) = 64%Z.
Proof.
  unfold request_digest. rewrite sqlite_length_hex by apply sha256_hex_chars.
  by rewrite sha256_hex_length.
Qed.

Lemma normalized_issue_key request request' key :
  normalize to_lowercase request = Ok request' → cr_intent request' = Jira key →
  valid_issue_key key = true.
Proof.
  rewrite normalize_iff. intros [(_ & Hi & _) ->]. cbn. destruct (cr_intent request); cbn in *; try done.
  by intros [= <-].
Qed.

Lemma existsb_links_false (P : Uuid * LinkRow → bool) db :
  (∀ id row, kt_links (db_links db) !! id = Some row → P (id, row) = false) →
  existsb P (map_to_list (kt_links (db_links db))) = false.
Proof.
  intros HP. apply not_true_iff_false. intros ([id row] & Hin & Ht)%existsb_spec.
  apply elem_of_map_to_list in Hin. rewrite (HP id row Hin) in Ht. done.
Qed.

(** The link of a new Jira workspace is stored. *)
Lemma persist_jira_total db record inputs request request' t row :
  record = new_record root request' t inputs → normalize to_lowercase request = Ok request' →
  good_inputs request' inputs → (0 ≤ t)%Z →
  kt_links (db_links db) !! ci_link_id inputs = None →
  (∀ id row, kt_links (db_links db) !! id = Some row → kr_workspace_id row ≠ ci_workspace_id inputs) →
  existsb (λ r, ke_event_id r =? ci_link_event_id inputs) (kt_events (db_links db)) = false →
  row ∈ db_created_events db → ce_workspace_id row = ci_workspace_id inputs →
  ∃ db', persist_jira_intent_work_item_link db record (ci_link_id inputs) (ci_link_event_id inputs) = Ok db'.
Proof.
  intros -> Hn [Hw Hl _ _] Ht Hlink Hlinks Hevent Hrow Hroww. unfold persist_jira_intent_work_item_link.
  cbn [new_record wk_intent]. destruct (cr_intent request') as [key| |] eqn:Hi; [|by eexists..].
  rewrite jira_intent_link_valid; [cbn [rbind]|by eapply normalized_issue_key|done..].
  unfold insert_link. rewrite Hlink. cbn [is_Some]. rewrite bool_decide_eq_false_2 by by intros [? ?].
  cbn [guard_err rbind].
  assert (existsb (λ r, ce_workspace_id r =? ci_workspace_id inputs) (db_created_events db) = true) as Hfk.
  { apply existsb_spec. exists row. split; [done|by apply N.eqb_eq]. }
  rewrite existsb_links_false.
  2: { intros id r Hr. cbn. by rewrite bool_decide_eq_false_2 by by apply (Hlinks id r Hr). }
  cbn [guard_err rbind].
  rewrite existsb_links_false, andb_false_r.
  2: { intros id r Hr. cbn. by rewrite bool_decide_eq_false_2 by by apply (Hlinks id r Hr). }
  cbn [guard_err rbind link_row jira_intent_link wl_workspace_id kr_workspace_id new_record
    wk_workspace_id kr_fetched_at_unix_ms wl_snapshot ws_fetched_at_unix_ms kr_revision
    kr_created_at_unix_ms kr_updated_at_unix_ms wl_created_at_unix_ms wk_created_at_unix_ms].
  rewrite Hfk. cbn [negb orb Z.ltb Z.leb Z.compare].
  destruct (Z.ltb_spec t 0); [lia|]. destruct (Z.ltb_spec t t); [lia|]. cbn [orb guard_err rbind].
  unfold insert_link_event. cbn [set_links db_links kt_events db_created_events linked_event ke_event_id
    ke_workspace_id ke_link_revision ke_created_at_unix_ms jira_intent_link wl_workspace_id wk_workspace_id
    new_record wl_created_at_unix_ms wk_created_at_unix_ms].
  rewrite Hevent, Hfk. cbn [guard_err rbind negb orb Z.leb Z.compare].
  destruct (Z.ltb_spec t 0); [lia|]. by eexists.
Qed.

Lemma insert_board_total db w t :
  bt_workflow (db_board db) !! w = None → bt_placement (db_board db) !! w = None →
  ∃ db', insert_board db w t = Ok db' ∧ db_links db' = db_links db ∧
    db_created_events db' = db_created_events db.
Proof.
  intros Hw Hp. unfold insert_board. rewrite Hw, Hp. by eexists.
Qed.

Lemma insert_workspace_total db request request' key t inputs :
  let record := new_record root request' t inputs in
  normalize to_lowercase request = Ok request' → good_inputs request' inputs →
  fresh_inputs db key inputs → (0 ≤ t)%Z →
  byte_len (record_to_json record) ≤ MAX_RECORD_JSON_BYTES →
  ∃ db', insert_workspace db record key (request_digest request') t inputs = Ok db'.
Proof.
  intros record Hn Hgood [Hc Hp Hl Hw Hpl Hlink Hlinks Hev] Ht Hsize. unfold insert_workspace, serialize_record.
  destruct (N.ltb_spec MAX_RECORD_JSON_BYTES (byte_len (record_to_json record))); [lia|].
  cbn [guard_err rbind]. change (i64_try_from (wk_record_version record)) with (Some 1%Z).
  cbn [ok_or rbind]. unfold insert_created_event; cbn [ce_event_id ce_workspace_id ce_idempotency_key
    ce_record_version ce_request_digest ce_created_at_unix_ms].
  change (wk_workspace_id record) with (ci_workspace_id inputs). rewrite Hc, request_digest_length.
  cbn [guard_err rbind Z.leb Z.compare negb orb]. rewrite Z.eqb_refl.
  destruct (Z.ltb_spec t 0); [lia|]. cbn [guard_err rbind negb orb].
  unfold insert_projection; cbn [set_created_events db_projection]. rewrite Hp.
  rewrite bool_decide_eq_false_2 by by intros [? ?]. cbn [guard_err rbind].
  unfold insert_lifecycle; cbn [set_projection set_created_events db_lifecycle]. rewrite Hl.
  rewrite bool_decide_eq_false_2 by by intros [? ?]. cbn [guard_err rbind].
  match goal with |- context [insert_board ?d ?w ?t] =>
    destruct (insert_board_total d w t Hw Hpl) as (db4 & -> & Hlinks4 & Hcreated4) end.
  cbn [rbind]. cbn in Hlinks4, Hcreated4.
  eapply persist_jira_total; [done..|by rewrite Hlinks4|by rewrite Hlinks4|by rewrite Hlinks4| |].
  - rewrite Hcreated4. apply elem_of_app. right. by apply list_elem_of_singleton.
  - done.
Qed.

(** A valid request creates a workspace.  Whatever [normalize] accepts is accepted by
    every check between it and the tables (the record checks of the reader, the link checks
    for a Jira issue, the table constraints), so with fresh identifiers, a working clock and
    a record within the size limit, [create] succeeds; the workspace shows the normalized
    request, in the ready lane at revision 1, not yet materialized. *)
Theorem create_succeeds db key id request request' inputs t :
  parse_idempotency_key key = Ok id → normalize to_lowercase request = Ok request' →
  unix_time_ms (ci_clock inputs) = Ok t → valid_root_id (root_id root) = true →
  good_inputs request' inputs → fresh_inputs db id inputs →
  byte_len (record_to_json (new_record root request' t inputs)) ≤ MAX_RECORD_JSON_BYTES →
  ∃ db' workspace,
    create root db key request inputs =
      (db', Ok {| cw_workspace := workspace; cw_replayed := false |}) ∧
    vw_workspace_id workspace = ci_workspace_id inputs ∧
    vw_intent workspace = cr_intent request' ∧ vw_title workspace = cr_title request' ∧
    plan_request <$> vw_repositories workspace = cr_repositories request' ∧
    vw_runtime workspace = cr_runtime request' ∧
    wf_state (vw_workflow workspace) = Ready ∧ wf_revision (vw_workflow workspace) = 1 ∧
    lf_materialization_state (vw_lifecycle workspace) = NotMaterialized.
Proof.
  intros Hkey Hn Hclock Hroot Hgood Hfresh Hsize.
  pose proof (unix_time_ms_nonneg _ _ Hclock) as Ht.
  pose proof (new_record_valid _ _ t _ Hn Hgood Hroot Ht) as Hvalid.
  destruct (insert_workspace_total db _ _ id t _ Hn Hgood Hfresh Ht Hsize) as (db' & Hi).
  assert (validate_lifecycle (new_record root request' t inputs) (new_lifecycle t) = Ok ()) as Hlife.
  { unfold validate_lifecycle, validate_lifecycle_timestamp; cbn.
    by destruct (Z.ltb_spec t t); [lia|]. }
  assert (create_body root db key request inputs =
    Ok (db', ({| dc_record := new_record root request' t inputs; dc_lifecycle := new_lifecycle t |}, false)))
    as Hbody.
  { unfold create_body. rewrite Hkey, Hn. cbn [rbind as_validation]. unfold find_created.
    rewrite (proj2 (list_find_None _ _)).
    - cbn [fmap option_fmap option_map]. rewrite Hclock. cbn [rbind]. rewrite Hvalid, Hlife. cbn [rbind].
      by rewrite Hi.
    - apply Forall_forall. intros r Hr Heq. pose proof (fi_created _ _ _ Hfresh) as Hc.
      apply not_true_iff_false in Hc. apply Hc, existsb_spec. exists r. split; [done|].
      by rewrite Heq, N.eqb_refl, orb_true_r. }
  apply insert_workspace_spec in Hi; [|done].
  destruct (wi_board _ _ _ _ _ _ Hi) as (db1 & db2 & _ & Hins & Hboard).
  assert (∃ s, load_workflow (db_board db') (wk_workspace_id (new_record root request' t inputs)) = Ok s ∧
    wf_state s = Ready ∧ wf_revision s = 1) as (s & Hwf & Hs & Hr).
  { rewrite Hboard. unfold insert_board in Hins. apply rbind_Ok in Hins as ([] & _ & [= <-]).
    unfold load_workflow; cbn. rewrite !lookup_insert_eq. cbn. unfold u64_try_from.
    assert (0 ≤ next_ready_rank (db_board db1))%Z as Hrank.
    { unfold next_ready_rank. induction (omap _ _) as [|x l IH]; cbn; lia. }
    destruct (Z.ltb_spec (next_ready_rank (db_board db1)) 0); [lia|]. cbn.
    destruct (Z.ltb_spec t 0); [lia|]. cbn. by eexists. }
  eassert (view_decoded root db' {| dc_record := new_record root request' t inputs;
    dc_lifecycle := new_lifecycle t |} = Ok _) as Hview.
  { unfold view_decoded, view. rewrite bool_decide_eq_false_2 by (intros Hx; by apply Hx).
    cbn [guard_err rbind dc_record dc_lifecycle]. rewrite Hvalid, Hlife. cbn [rbind].
    rewrite Hwf. reflexivity. }
  eexists db', _. split.
  { unfold create. rewrite Hbody. cbn [transact rbind]. rewrite Hview. reflexivity. }
  cbn. split_and!; try done. apply zip_plans. apply Hgood.
Qed.
End round_trips.
