(* ===== verification/StoreMachine.v ===== *)
(** * The store as a state machine ([crates/wts-store/src/sqlite.rs])

    Every operation of the store is a step from one database to the next; a database is
    reachable when some sequence of operations leads to it from an empty one.  The invariant
    here holds on every reachable database, whatever the callers asked for and whatever
    clocks and identifiers they drew: no read fails, the board is explained by its event
    log, and the tables agree on which workspaces exist. *)

From S2P Require Import Prelude Order Text Workspace StoreBase StoreNames StoreBoard StoreItems.
From S2P Require Import StoreReviews StoreThreads StoreRecords.

Local Open Scope N_scope.

Definition empty_database : Database :=
  {| db_created_events := []; db_projection := ∅; db_lifecycle := ∅; db_tombstones := [];
     db_board := {| bt_workflow_events := []; bt_workflow := ∅; bt_board_events := [];
                    bt_placement := ∅ |};
     db_links := {| kt_links := ∅; kt_confirmations := ∅; kt_events := [] |};
     db_observations := ∅;
     db_reviews := {| vt_planning := ∅; vt_planning_comments := []; vt_verification := ∅;
                      vt_verification_comments := []; vt_code := ∅; vt_code_comments := [] |} |}.

(** ** Operations and reachability *)

Section machine.
Context `{LibraryLaws} (root : WorkspaceRoot).

(** Removing repositories from a record and dating it again never makes its serialization
    longer: [remove_repository] relies on it, the only writer that does not check the size
    limit.  (A plan takes more characters than any timestamp.) *)
Definition fewer_plans_shrink : Prop :=
  ∀ record plans clock t, unix_time_ms clock = Ok t →
    plans `sublist_of` wk_repositories record →
    (length plans < length (wk_repositories record))%nat →
    (sqlite_length (record_to_json (with_repositories record plans t)) ≤
     sqlite_length (record_to_json record))%Z.

Inductive StoreOp :=
| CreateOp (key : str) (request : CreateWorkspaceRequest) (inputs : CreateInputs)
| ChangeOp (w : Uuid) (op : RecordOp) (clock : option N)
| BoardChangeOp (w : Uuid) (op : BoardOp) (inputs : BoardInputs)
| ConfirmLinkOp (w : Uuid) (key digest : str) (provider : StoredWorkItemProvider)
    (role : StoredWorkItemRole) (snapshot : StoredWorkItemSnapshot) (inputs : LinkInputs)
| UnlinkOp (w link : Uuid) (expected : N) (inputs : LinkInputs)
| ObserveItemsOp (w : Uuid) (observations : list ObservedWorkItem)
| CreateThreadOp (w : Uuid) (target : StoredReviewTarget) (author : StoredReviewAuthor)
    (body : str) (inputs : ReviewInputs)
| ResolveThreadOp (w thread : Uuid) (expected : N) (clock : option N)
| ObserveLifecycleOp (w : Uuid) (state : WorkspaceMaterializationState) (worktrees : N)
    (clock : option N)
| TombstoneOp (w : Uuid) (key digest json : str) (event : Uuid) (clock : option N).

Definition step (db : Database) (op : StoreOp) : Database :=
  match op with
  | CreateOp key request inputs => (create root db key request inputs).1
  | ChangeOp w op clock => (run_record_op root db w op clock).1
  | BoardChangeOp w op inputs => (run_board_op db w op inputs).1
  | ConfirmLinkOp w key digest provider role snapshot inputs =>
      (confirm_work_item_link db w key digest provider role snapshot inputs).1
  | UnlinkOp w link expected inputs => (unlink_work_item_link db w link expected inputs).1
  | ObserveItemsOp w observations => (replace_observed_work_items db w observations).1
  | CreateThreadOp w target author body inputs =>
      (create_review_thread db w target author body inputs).1
  | ResolveThreadOp w thread expected clock =>
      (resolve_review_thread db w thread expected clock).1
  | ObserveLifecycleOp w state worktrees clock => (observe_lifecycle db w state worktrees clock).1
  | TombstoneOp w key digest json event clock => (tombstone db w key digest json event clock).1
  end.

(** A worktree count is a [u32]. *)
Definition typed_op (op : StoreOp) : Prop :=
  match op with ObserveLifecycleOp _ _ worktrees _ => worktrees ≤ u32_max | _ => True end.

Inductive reachable : Database → Prop :=
| reachable_empty : reachable empty_database
| reachable_step db op : reachable db → typed_op op → reachable (step db op).

(** ** The invariant, one part per group of tables *)

Definition ids (db : Database) : list Uuid := ce_workspace_id <$> db_created_events db.

(** A row of the projection is the serialization of a valid record of this root, with a
    lifecycle that fits it. *)
Definition row_ok (db : Database) (w : Uuid) (row : ProjectionRow) : Prop :=
  ∃ record lifecycle,
    row = {| pr_record_version := 1; pr_record_json := record_to_json record;
             pr_updated_at_unix_ms := wk_updated_at_unix_ms record |} ∧
    wk_workspace_id record = w ∧ wk_workspace_root_id record = root_id root ∧
    validate_record record = Ok () ∧ validate_lifecycle record lifecycle = Ok () ∧
    (sqlite_length (record_to_json record) ≤ Z.of_N MAX_RECORD_JSON_BYTES)%Z ∧
    stored_lifecycle (db_lifecycle db !! w) lifecycle.

Definition records_ok (db : Database) : Prop :=
  NoDup (ids db) ∧ (∀ w, w ∈ ids db ↔ is_Some (db_projection db !! w)) ∧
  ∀ w row, db_projection db !! w = Some row → row_ok db w row.

Definition board_ok (db : Database) : Prop :=
  (∀ w, w ∈ ids db → explained (db_board db) w) ∧
  ∀ e, e ∈ bt_board_events (db_board db) → be_workspace_id e ∈ ids db.

Definition same_issue (r s : LinkRow) : Prop :=
  kr_workspace_id r = kr_workspace_id s ∧ kr_provider r = kr_provider s ∧
  kr_issue_key r = kr_issue_key s.

Definition both_primary (r s : LinkRow) : Prop :=
  kr_workspace_id r = kr_workspace_id s ∧ kr_role r = lit "primary" ∧ kr_role s = lit "primary".

Definition links_ok (tables : LinkTables) : Prop :=
  (∀ id row, kt_links tables !! id = Some row →
     ∃ link, decode_link (kr_workspace_id row) (id, row) = Ok link) ∧
  ∀ id row id' row', kt_links tables !! id = Some row → kt_links tables !! id' = Some row' →
    same_issue row row' ∨ both_primary row row' → id = id'.

Definition thread_exists (tables : ReviewTables) (kind : ReviewCommentTable) (id : Uuid) : Prop :=
  match kind with
  | PlanningComments => is_Some (vt_planning tables !! id)
  | VerificationComments => is_Some (vt_verification tables !! id)
  | CodeComments => is_Some (vt_code tables !! id)
  end.

Definition reviews_ok (tables : ReviewTables) : Prop :=
  (∀ kind w id, ∃ o, load_thread tables kind w id = Ok o) ∧
  ∀ kind row, row ∈ comment_table tables kind → thread_exists tables kind (cr_thread_id row).

Definition tombstones_ok (db : Database) : Prop :=
  NoDup (te_workspace_id <$> db_tombstones db) ∧
  ∀ row, row ∈ db_tombstones db → te_workspace_id row ∈ ids db.

Record store_ok (db : Database) : Prop := {
  ok_records : records_ok db;
  ok_board : board_ok db;
  ok_links : links_ok (db_links db);
  ok_reviews : reviews_ok (db_reviews db);
  ok_tombstones : tombstones_ok db
}.

Lemma empty_ok : store_ok empty_database.
Proof.
  constructor.
  - split; [constructor|]. split; [|by intros w row ?].
    intros w. split; [by intros ?%elem_of_nil|]. by intros [? ?].
  - split; [by intros w ?%elem_of_nil|by intros e ?%elem_of_nil].
  - split; cbn; [intros id row Hr|intros id row id' row' Hr]; by rewrite lookup_empty in Hr.
  - split; [by intros [] w id; exists None|]. by intros [] row ?%elem_of_nil.
  - split; [constructor|by intros ? ?%elem_of_nil].
Qed.

(** ** Links *)

Lemma insert_link_ok db id row db' :
  insert_link db id row = Ok db' → links_ok (db_links db) →
  (∃ link, decode_link (kr_workspace_id row) (id, row) = Ok link) → links_ok (db_links db').
Proof.
  unfold insert_link. intros Hi [Hdec Huniq] Hrow.
  apply rbind_Ok in Hi as ([] & _ & Hi). apply rbind_Ok in Hi as ([] & Hissue%guard_err_Ok & Hi).
  apply rbind_Ok in Hi as ([] & Hprim%guard_err_Ok & Hi). apply rbind_Ok in Hi as ([] & _ & [= <-]).
  assert (∀ i r, kt_links (db_links db) !! i = Some r → ¬ (same_issue row r ∨ both_primary row r)) as Hnew.
  { intros i r Hr. apply elem_of_map_to_list in Hr. intros [(Hw & Hp & Hk)|(Hw & Hp & Hk)].
    - apply not_true_iff_false in Hissue. apply Hissue, existsb_spec. exists (i, r). split; [done|].
      cbn. by rewrite Hw, Hp, Hk, !bool_decide_eq_true_2.
    - apply not_true_iff_false in Hprim. apply Hprim. rewrite bool_decide_eq_true_2 by done.
      apply existsb_spec. exists (i, r). split; [done|]. cbn. by rewrite !bool_decide_eq_true_2. }
  split; cbn.
  - intros i r [[<- <-]|[_ Hr]]%lookup_insert_Some; [done|by apply Hdec].
  - intros i r i' r' [[<- <-]|[_ Hr]]%lookup_insert_Some [[<- <-]|[_ Hr']]%lookup_insert_Some Hsame.
    + done.
    + by destruct (Hnew _ _ Hr' Hsame).
    + destruct (Hnew _ _ Hr). destruct Hsame as [(Hw & Hp & Hk)|(Hw & Hp & Hk)];
        [left|right]; by split_and!.
    + by eapply Huniq.
Qed.

Lemma delete_link_ok tables id confirmations events :
  links_ok tables →
  links_ok {| kt_links := delete id (kt_links tables); kt_confirmations := confirmations;
              kt_events := events |}.
Proof.
  intros [Hdec Huniq]. split; cbn.
  - intros i r [_ Hr]%lookup_delete_Some. by apply Hdec.
  - intros i r i' r' [_ Hr]%lookup_delete_Some [_ Hr']%lookup_delete_Some. by apply Huniq.
Qed.

(** Links_ok reads the links only. *)
Lemma links_ok_rows tables tables' :
  kt_links tables' = kt_links tables → links_ok tables → links_ok tables'.
Proof. intros Heq [Hdec Huniq]. split; rewrite Heq; assumption. Qed.

Lemma persist_jira_ok db record link event db' :
  persist_jira_intent_work_item_link db record link event = Ok db' →
  links_ok (db_links db) → links_ok (db_links db').
Proof.
  unfold persist_jira_intent_work_item_link. destruct (wk_intent record) as [key| |];
    [|by intros [= <-]|by intros [= <-]]. intros Hp Hok.
  apply rbind_Ok in Hp as ([] & Hv & Hp). apply rbind_Ok in Hp as (db1 & Hi & Hp).
  unfold insert_link_event in Hp. do 2 apply rbind_Ok in Hp as ([] & _ & Hp). injection Hp as <-.
  apply (links_ok_rows (db_links db1)); [done|]. eapply insert_link_ok; [done..|].
  eexists. by apply (decode_link_row (wk_workspace_id record) JiraProvider Primary).
Qed.

Lemma confirm_body_ok db w key digest provider role snapshot inputs db' r :
  confirm_work_item_link_body db w key digest provider role snapshot inputs = Ok (db', r) →
  links_ok (db_links db) → links_ok (db_links db') ∧ db' = set_links db (db_links db').
Proof.
  unfold confirm_work_item_link_body. intros Hb Hok. apply rbind_Ok in Hb as (id & _ & Hb).
  do 3 apply rbind_Ok in Hb as ([] & _ & Hb). destruct (kt_confirmations _ !! id).
  { apply rbind_Ok in Hb as (replay & _ & [= <- _]). split; [done|by destruct db]. }
  apply rbind_Ok in Hb as (ex & _ & Hb). do 2 apply rbind_Ok in Hb as ([] & _ & Hb).
  apply rbind_Ok in Hb as (t & _ & Hb). apply rbind_Ok in Hb as ([] & Hv & Hb).
  apply rbind_Ok in Hb as (db1 & Hi & Hb). apply rbind_Ok in Hb as (db2 & H2 & Hb).
  apply rbind_Ok in Hb as (db3 & H3 & [= <- _]).
  assert (links_ok (db_links db1)) as Hok1.
  { eapply insert_link_ok; [done..|]. eexists. by apply (decode_link_row w provider role). }
  unfold insert_link in Hi. do 4 apply rbind_Ok in Hi as ([] & _ & Hi). injection Hi as <-.
  unfold insert_link_event in H2. do 2 apply rbind_Ok in H2 as ([] & _ & H2). injection H2 as <-.
  unfold insert_confirmation in H3. apply rbind_Ok in H3 as ([] & _ & H3). injection H3 as <-.
  split; [|done]. by eapply links_ok_rows.
Qed.

Lemma unlink_body_ok db w link expected inputs db' r :
  unlink_work_item_link_body db w link expected inputs = Ok (db', r) →
  links_ok (db_links db) → links_ok (db_links db') ∧ db' = set_links db (db_links db').
Proof.
  intros (links & l & row & event & _ & _ & _ & _ & _ & _ & _ & _ & ->)%unlink_body_Ok Hok.
  split; [|done]. by apply delete_link_ok.
Qed.

(** ** Review threads *)

Lemma thread_exists_insert {A} (rows : gmap Uuid A) id id' a :
  is_Some (rows !! id') → is_Some (<[id := a]> rows !! id').
Proof. intros Hs. apply lookup_insert_is_Some'. by right. Qed.

(** Threads and comments are only added, comments to threads that exist. *)
Lemma insert_target_exists db w target c t tables' :
  insert_target db w target c t = Ok tables' →
  (∀ kind id, thread_exists (db_reviews db) kind id → thread_exists tables' kind id) ∧
  (∀ kind row, row ∈ comment_table tables' kind →
     row ∈ comment_table (db_reviews db) kind ∨
     row = c ∧ thread_exists tables' kind (cr_thread_id c)) ∧
  ¬ thread_exists (db_reviews db) (kind_of target) (cr_thread_id c).
Proof.
  assert (∀ rows : list CommentRow, ∀ row, row ∈ rows ++ [c] → row ∈ rows ∨ row = c) as Hsnoc.
  { intros rows row. by rewrite elem_of_app, list_elem_of_singleton. }
  destruct target; cbn [insert_target kind_of thread_exists]; intros Hi;
    [|apply rbind_Ok in Hi as (z & _ & Hi)|];
    apply rbind_Ok in Hi as ([rows comments] & (Hn & -> & ->)%insert_thread_Ok & [= <-]);
    (split_and!; [| |rewrite Hn; by intros [? ?]]).
  1, 3, 5: intros [] id; cbn; try done; apply thread_exists_insert.
  all: intros [] row; cbn; try (by left); intros [? | ->]%Hsnoc; [by left|right];
    (split; [done|]); rewrite lookup_insert_eq; by eexists.
Qed.

Lemma create_thread_ok db w target author body inputs db' thread :
  create_review_thread_body db w target author body inputs = Ok (db', thread) →
  reviews_ok (db_reviews db) → reviews_ok (db_reviews db') ∧ db' = set_reviews db (db_reviews db').
Proof.
  intros (b & t & c & Hv & Hn & _ & Ht & Hcid & Hc & _ & Hi & Hdb)%create_body_Ok [Hload Hcom].
  split; [|done]. destruct (insert_target_exists _ _ _ _ _ _ Hi) as (Hkeep & Hrows & Hnew).
  assert (decode_comment c = Ok {| rc_comment_id := ri_comment_id inputs; rc_author := author;
    rc_body := b; rc_created_at_unix_ms := t |}) as Hdec.
  { subst c. by eapply decode_new_comment. }
  assert (∀ row, row ∈ comment_table (db_reviews db) (kind_of target) →
    cr_thread_id row ≠ cr_thread_id c) as Hunused.
  { intros row Hrow Heq. apply Hnew. rewrite <- Heq. by apply Hcom. }
  destruct (insert_target_loads _ _ _ _ _ _ _ _ Hi eq_refl Hunused Hv Ht Hdec) as [Hload' Hother].
  split.
  - intros kind w' id.
    destruct (decide (kind = kind_of target)) as [->|]; [|rewrite Hother by tauto; apply Hload].
    destruct (decide (w' = w)) as [->|]; [|rewrite Hother by tauto; apply Hload].
    destruct (decide (id = cr_thread_id c)) as [->|]; [by eexists|].
    rewrite Hother by tauto. apply Hload.
  - intros kind row [Hrow|[-> Hex]]%Hrows; [|done]. by apply Hkeep, Hcom.
Qed.

Lemma update_target_exists tables target w id expected revision now tables' :
  update_target tables target w id expected revision now = Ok (Some tables') →
  (∀ kind i, thread_exists tables kind i → thread_exists tables' kind i) ∧
  ∀ kind, comment_table tables' kind = comment_table tables kind.
Proof.
  destruct target; cbn [update_target]; intros Hu;
    apply rbind_Ok in Hu as ([rows|] & Hu & [= <-]);
    apply update_thread_Ok in Hu as (row & _ & _ & _ & ->).
  all: split; [|by intros []].
  all: intros [] i; cbn; try done; apply thread_exists_insert.
Qed.

Lemma resolve_thread_ok db w id expected clock db' thread :
  resolve_review_thread_body db w id expected clock = Ok (db', thread) →
  reviews_ok (db_reviews db) → reviews_ok (db_reviews db') ∧ db' = set_reviews db (db_reviews db').
Proof.
  intros (current & Hf & _ & _ & _ & Hcase)%resolve_body_Ok Hok.
  destruct (rt_state current); [|destruct Hcase as [-> _]; split; [done|by destruct db]].
  destruct Hcase as (now & tables & _ & -> & _ & Hu). split; [|done]. cbn [set_reviews db_reviews].
  destruct Hok as [Hload Hcom]. destruct (update_target_exists _ _ _ _ _ _ _ _ Hu) as [Hkeep Hsame].
  rewrite find_review_thread_any, find_thread_Ok in Hf. destruct Hf as (kind & Hk & _).
  destruct (update_target_loads _ _ _ _ _ _ _ _ Hk Hu) as [Hnew Hother]. split.
  - intros kind' w' id'.
    destruct (decide (kind' = kind)) as [->|]; [|rewrite Hother by tauto; apply Hload].
    destruct (decide (w' = w)) as [->|]; [|rewrite Hother by tauto; apply Hload].
    destruct (decide (id' = id)) as [->|]; [by eexists|]. rewrite Hother by tauto. apply Hload.
  - intros kind' row. rewrite Hsame. intros Hrow. by apply Hkeep, Hcom.
Qed.

(** ** Records *)

Lemma row_ok_load db w row :
  db_projection db !! w = Some row → row_ok db w row → is_tombstoned db w = false →
  ∃ record lifecycle,
    load_projection db w = Ok (Some {| dc_record := record; dc_lifecycle := lifecycle |}) ∧
    row = {| pr_record_version := 1; pr_record_json := record_to_json record;
             pr_updated_at_unix_ms := wk_updated_at_unix_ms record |} ∧
    wk_workspace_id record = w ∧ wk_workspace_root_id record = root_id root ∧
    validate_record record = Ok () ∧ validate_lifecycle record lifecycle = Ok () ∧
    (sqlite_length (record_to_json record) ≤ Z.of_N MAX_RECORD_JSON_BYTES)%Z.
Proof.
  intros Hrow (record & lifecycle & -> & Hw & Hroot & Hv & Hl & Hlen & Hs) Ht.
  exists record, lifecycle. split_and!; try done. by apply load_projection_stored.
Qed.

(** The record an operation loaded is the one of its row. *)
Lemma records_ok_loaded db w d :
  records_ok db → load_projection db w = Ok (Some d) →
  ∃ row, db_projection db !! w = Some row ∧
    row = {| pr_record_version := 1; pr_record_json := record_to_json (dc_record d);
             pr_updated_at_unix_ms := wk_updated_at_unix_ms (dc_record d) |} ∧
    wk_workspace_id (dc_record d) = w ∧ wk_workspace_root_id (dc_record d) = root_id root ∧
    validate_record (dc_record d) = Ok () ∧
    (sqlite_length (record_to_json (dc_record d)) ≤ Z.of_N MAX_RECORD_JSON_BYTES)%Z.
Proof.
  intros (_ & _ & Hrows) Hl. pose proof (load_projection_inv _ _ _ Hl) as (Ht & (row & Hrow & _) & _).
  destruct (row_ok_load _ _ _ Hrow (Hrows _ _ Hrow) Ht) as (record & lifecycle & Hl' & Hr).
  rewrite Hl in Hl'. injection Hl' as ->. exists row. cbn. tauto.
Qed.

(** Parts of the invariant that an operation does not touch. *)
Lemma records_ok_frame db db' :
  db_created_events db' = db_created_events db → db_projection db' = db_projection db →
  db_lifecycle db' = db_lifecycle db → records_ok db → records_ok db'.
Proof.
  unfold records_ok, row_ok, ids. intros -> -> Hl. by setoid_rewrite Hl.
Qed.

Lemma change_body_ok db w op clock db' d :
  fewer_plans_shrink → record_body db w op clock = Ok (db', d) → records_ok db → records_ok db'.
Proof.
  intros Hshrink Hb Hok. pose proof (record_body_changed _ _ _ _ _ _ Hb) as Hch.
  destruct (record_body_origin _ _ _ _ _ _ Hb) as (old & Hl & Hroot & Hsize).
  destruct (records_ok_loaded _ _ _ Hok Hl) as (row0 & _ & _ & _ & Hr0 & _ & Hlen0).
  destruct Hok as (Hnd & Hdom & Hrows). pose proof (rch_frame _ _ _ _ Hch) as (Hcreated & _).
  unfold records_ok, ids. rewrite Hcreated. split_and!; [done| |].
  - intros w'. destruct (decide (w' = w)) as [->|Hne].
    + rewrite (rch_row _ _ _ _ Hch). rewrite (Hdom w). split; [by eexists|].
      intros _. apply Hch.
    + destruct (rch_other _ _ _ _ Hch w' Hne) as [-> _]. apply Hdom.
  - intros w' row Hrow. destruct (decide (w' = w)) as [->|Hne].
    + rewrite (rch_row _ _ _ _ Hch) in Hrow. injection Hrow as <-.
      exists (dc_record d), (dc_lifecycle d). split_and!; try apply Hch; [done|congruence|].
      destruct Hsize as [?|(plans & t & Ht & -> & Hlt & Hsub)]; [done|].
      etrans; [by apply (Hshrink _ _ clock)|done].
    + destruct (rch_other _ _ _ _ Hch w' Hne) as [Hp Hlc]. rewrite Hp in Hrow.
      unfold row_ok. rewrite Hlc. by apply Hrows.
Qed.

Lemma observe_body_ok db w state worktrees clock db' lifecycle :
  observe_lifecycle_body db w state worktrees clock = Ok (db', lifecycle) → worktrees ≤ u32_max →
  records_ok db → records_ok db' ∧ db' = set_lifecycle db (db_lifecycle db').
Proof.
  unfold observe_lifecycle_body. intros Hb Hcount Hok.
  apply rbind_Ok in Hb as ([] & Hst%guard_err_Ok%bool_decide_eq_false_1 & Hb).
  apply rbind_Ok in Hb as (loaded & Hl & Hb). apply rbind_Ok in Hb as (d & Hd & Hb).
  destruct loaded as [d'|]; [|done]. injection Hd as ->.
  apply rbind_Ok in Hb as (t & _ & Hb). apply rbind_Ok in Hb as ([] & Hv & Hb).
  apply rbind_Ok in Hb as (version & Hver & [= <- <-]). split; [|done].
  destruct (records_ok_loaded _ _ _ Hok Hl) as (row0 & Hrow0 & -> & Hw & Hroot & Hval & Hlen).
  destruct (validate_record_versions _ Hval) as (_ & Hrv & _). rewrite Hrv in Hver.
  injection Hver as <-. destruct Hok as (Hnd & Hdom & Hrows). split_and!; [done|done|].
  intros w' row Hrow. destruct (decide (w' = w)) as [->|Hne].
  - cbn in Hrow. rewrite Hrow0 in Hrow. injection Hrow as <-. eexists (dc_record d), _.
    split_and!; [done..|exact Hv|done|]. cbn. rewrite lookup_insert_eq. cbn.
    split_and!; [done|done|done|by eexists].
  - unfold row_ok. cbn. rewrite lookup_insert_ne by done. by apply Hrows.
Qed.

(** ** Creation, the board and removal *)

Lemma required_present db w : require_workspace db w = Ok () → is_Some (db_projection db !! w).
Proof.
  unfold require_workspace, load_projection. destruct (is_tombstoned db w); [done|].
  by destruct (db_projection db !! w).
Qed.

Lemma next_ready_rank_nonneg board : (0 ≤ next_ready_rank board)%Z.
Proof. unfold next_ready_rank. induction (omap _ _) as [|x l IH]; cbn; lia. Qed.

Lemma insert_board_reads db w t db' :
  insert_board db w t = Ok db' → (0 ≤ t)%Z →
  (∃ s, load_workflow (db_board db') w = Ok s ∧ summary_state s = (Ready, Automatic, 1%Z)) ∧
  (∀ w', w' ≠ w → load_workflow (db_board db') w' = load_workflow (db_board db) w') ∧
  bt_board_events (db_board db') = bt_board_events (db_board db).
Proof.
  unfold insert_board. intros Hi Ht. apply rbind_Ok in Hi as ([] & _ & [= <-]). split_and!; [| |done].
  - unfold load_workflow. cbn. rewrite !lookup_insert_eq. cbn. unfold u64_try_from.
    pose proof (next_ready_rank_nonneg (db_board db)).
    destruct (Z.ltb_spec (next_ready_rank (db_board db)) 0); [lia|]. cbn.
    destruct (Z.ltb_spec t 0); [lia|]. cbn. by eexists.
  - intros w' Hne. unfold load_workflow. cbn. by rewrite !lookup_insert_ne.
Qed.

Lemma explained_ext board board' w :
  load_workflow board' w = load_workflow board w →
  bt_board_events board' = bt_board_events board → explained board w → explained board' w.
Proof. unfold explained, events_of. by intros -> ->. Qed.

Lemma create_body_store_ok db key request inputs db' r :
  create_body root db key request inputs = Ok (db', r) → store_ok db → store_ok db'.
Proof.
  destruct r as [d []]; intros Hb Hok.
  { unfold create_body in Hb. apply rbind_Ok in Hb as (id & _ & Hb).
    apply rbind_Ok in Hb as (req & _ & Hb). destruct (find_created db id).
    - by apply rbind_Ok in Hb as (d' & _ & [= <- _]).
    - apply rbind_Ok in Hb as (t & _ & Hb). do 2 apply rbind_Ok in Hb as ([] & _ & Hb).
      by apply rbind_Ok in Hb as (db1 & _ & [= _ _]). }
  apply create_body_fresh in Hb as (id & req & t & _ & _ & _ & Ht%unix_time_ms_nonneg & -> & Hv & Hi).
  cbn [dc_record] in *. set (record := new_record root req t inputs) in *.
  destruct Hi as [Htomb (row & Hcreated & Hroww & _) Hproj Hlife Hsize (db1 & db2 & Hb1 & Hins & Hb2)
    _ Hrev [Hfresh Habsent] (db3 & link & event & Hl3 & Hlink)].
  assert (ids db' = ids db ++ [wk_workspace_id record]) as Hids.
  { unfold ids. by rewrite Hcreated, fmap_app; cbn; rewrite Hroww. }
  destruct (insert_board_reads _ _ _ _ Hins Ht) as ((s & Hs & Hstate) & Hother & Hevents).
  rewrite <- Hb2 in *. rewrite Hb1 in Hother, Hevents.
  destruct Hok as [(Hnd & Hdom & Hrows) [Hexp Hev] Hlinks Hreviews [Htnd Htids]]. constructor.
  - split_and!.
    + rewrite Hids. apply NoDup_app. split_and!; [done| |apply NoDup_singleton].
      by intros x Hx ->%list_elem_of_singleton.
    + intros w. rewrite Hids, elem_of_app, list_elem_of_singleton, Hproj, lookup_insert_is_Some'.
      rewrite Hdom. naive_solver.
    + intros w r Hr. rewrite Hproj in Hr. unfold row_ok. rewrite Hlife.
      apply lookup_insert_Some in Hr as [[<- <-]|[Hne Hr]].
      * rewrite lookup_insert_eq. exists record, (new_lifecycle t). split_and!; try done.
        unfold validate_lifecycle, validate_lifecycle_timestamp; cbn.
        by destruct (Z.ltb_spec t t); [lia|].
      * rewrite lookup_insert_ne by done. by apply Hrows.
  - split.
    + intros w. rewrite Hids, elem_of_app, list_elem_of_singleton. intros [Hw| ->].
      * apply (explained_ext (db_board db)); [|done|by apply Hexp]. apply Hother. by intros ->.
      * exists s. split; [done|]. unfold events_of. rewrite Hevents, Hstate.
        assert (filter (λ e, be_workspace_id e = wk_workspace_id record)
          (bt_board_events (db_board db)) = []) as ->; [|done].
        apply elem_of_nil_inv. intros e [He Hin]%list_elem_of_filter.
        apply Hfresh. rewrite <- He. by apply Hev.
    + intros e. rewrite Hevents, Hids, elem_of_app. intros He. left. by apply Hev.
  - eapply persist_jira_ok; [exact Hlink|]. by rewrite Hl3.
  - by rewrite Hrev.
  - unfold tombstones_ok. rewrite Htomb, Hids. split; [done|]. intros r Hr.
    apply elem_of_app. left. by apply Htids.
Qed.

Lemma board_body_store_ok db w op inputs db' summary :
  board_body db w op inputs = Ok (db', summary) → store_ok db → store_ok db'.
Proof.
  intros Hb Hok. pose proof (board_body_read_back _ _ _ _ _ _ Hb) as (cur & _ & Hreq & _ & _ & Hcase).
  destruct Hcase as [-> |(_ & Hout & e & Hev & Hew & _)]; [done|].
  destruct Hok as [Hrec [Hexp Hids] Hlinks Hreviews Htomb].
  assert (ids db' = ids db) as Heq by (unfold ids; by rewrite Hout).
  constructor; [| |by rewrite Hout..].
  - rewrite Hout. by eapply records_ok_frame.
  - split; rewrite Heq.
    + intros w' Hw'. eapply board_body_explained; [done|by apply Hexp].
    + intros e'. rewrite Hev, elem_of_app, list_elem_of_singleton. intros [?| ->]; [by apply Hids|].
      rewrite Hew. destruct Hrec as (_ & Hdom & _). by apply Hdom, required_present.
Qed.

Lemma tombstone_body_store_ok db w key digest json event clock db' r :
  tombstone_body db w key digest json event clock = Ok (db', r) → store_ok db → store_ok db'.
Proof.
  destruct r as [tb []]; intros Hb Hok.
  { unfold tombstone_body in Hb. apply rbind_Ok in Hb as (id & _ & Hb).
    do 2 apply rbind_Ok in Hb as ([] & _ & Hb). destruct (load_tombstone_by_idempotency db id).
    - by apply rbind_Ok in Hb as ([] & _ & [= <- _]).
    - apply rbind_Ok in Hb as ([] & _ & Hb). apply rbind_Ok in Hb as (d & _ & Hb).
      apply rbind_Ok in Hb as ([] & _ & Hb). apply rbind_Ok in Hb as (t & _ & Hb).
      by apply rbind_Ok in Hb as (db1 & _ & [= _ _]). }
  pose proof Hb as Hbody.
  apply tombstone_body_fresh in Hb as (id & row & _ & _ & _ & Hlive & -> & Hw & _).
  assert (w ∈ ids db) as Hin.
  { unfold tombstone_body in Hbody. apply rbind_Ok in Hbody as (i & _ & Hbody).
    do 2 apply rbind_Ok in Hbody as ([] & _ & Hbody). destruct (load_tombstone_by_idempotency db i).
    { by apply rbind_Ok in Hbody as ([] & _ & Hbody). }
    apply rbind_Ok in Hbody as ([] & _ & Hbody). apply rbind_Ok in Hbody as (d & Hl & Hbody).
    apply rbind_Ok in Hbody as ([] & Hsome%guard_err_Ok%bool_decide_eq_false_1 & _).
    destruct d as [d|]; [|done]. apply load_projection_inv in Hl as (_ & (r & Hr & _) & _).
    destruct Hok as [(_ & Hdom & _)]. apply Hdom. by eexists. }
  destruct Hok as [Hrec Hboard Hlinks Hreviews [Htnd Htids]]. constructor; try done.
  unfold tombstones_ok. cbn. rewrite fmap_app. split.
  - apply NoDup_app. split_and!; [done| |apply NoDup_singleton].
    intros x Hx ->%list_elem_of_singleton. apply not_true_iff_false in Hlive. apply Hlive.
    apply list_elem_of_fmap in Hx as (r & Hr & Hx). apply existsb_spec. exists r. split; [done|].
    apply N.eqb_eq. congruence.
  - intros r [Hr| ->%list_elem_of_singleton]%elem_of_app; [by apply Htids|]. by rewrite Hw.
Qed.

(** ** Every step keeps the invariant *)

Lemma transact_fst {A} (P : Database → Prop) db (body : result (Database * A) WorkspaceStoreError) :
  P db → (∀ db' a, body = Ok (db', a) → P db') → P (transact db body).1.
Proof. destruct body as [[db' a]|e]; cbn; [|done]. intros _ Hb. by apply (Hb db' a). Qed.

Lemma create_fst db key request inputs :
  (create root db key request inputs).1 = (transact db (create_body root db key request inputs)).1.
Proof. unfold create. by destruct (transact _ _) as [db' r]. Qed.

Lemma run_record_op_fst db w op clock :
  (run_record_op root db w op clock).1 = (transact db (record_body db w op clock)).1.
Proof. rewrite run_record_op_body. unfold commit_and_view. by destruct (transact _ _). Qed.

Lemma replace_fst db w l :
  (replace_observed_work_items db w l).1 = (transact db (replace_observed_work_items_body db w l)).1.
Proof. unfold replace_observed_work_items. by destruct (transact _ _). Qed.

Lemma step_ok db op : fewer_plans_shrink → typed_op op → store_ok db → store_ok (step db op).
Proof.
  intros Hshrink Htyped Hok. pose proof Hok as [Hrec Hboard Hlinks Hreviews Htomb].
  destruct op; cbn [step typed_op] in *;
    unfold confirm_work_item_link, unlink_work_item_link, create_review_thread,
      resolve_review_thread, observe_lifecycle, tombstone.
  - rewrite create_fst. apply transact_fst; [done|]. intros db' r Hb. by eapply create_body_store_ok.
  - rewrite run_record_op_fst. apply transact_fst; [done|]. intros db' d Hb.
    pose proof (record_body_changed _ _ _ _ _ _ Hb) as Hch.
    pose proof (rch_frame _ _ _ _ Hch) as (Hc & Hl & Hr & _). constructor.
    + by eapply change_body_ok.
    + unfold board_ok, ids. by rewrite Hc, (rch_board _ _ _ _ Hch).
    + by rewrite Hl.
    + by rewrite Hr.
    + unfold tombstones_ok, ids. by rewrite Hc, (rch_tombstones _ _ _ _ Hch).
  - rewrite run_board_op_transact. apply transact_fst; [done|]. intros db' s Hb.
    by eapply board_body_store_ok.
  - apply transact_fst; [done|]. intros db' r Hb.
    destruct (confirm_body_ok _ _ _ _ _ _ _ _ _ _ Hb Hlinks) as [? Heq].
    constructor; [..|done| |]; by rewrite Heq.
  - apply transact_fst; [done|]. intros db' r Hb.
    destruct (unlink_body_ok _ _ _ _ _ _ _ Hb Hlinks) as [? Heq].
    constructor; [..|done| |]; by rewrite Heq.
  - rewrite replace_fst. apply transact_fst; [done|]. intros db' r Hb.
    unfold replace_observed_work_items_body in Hb. do 2 apply rbind_Ok in Hb as ([] & _ & Hb).
    apply rbind_Ok in Hb as (rows & _ & Hb). apply rbind_Ok in Hb as ([] & _ & [= <- _]). done.
  - apply transact_fst; [done|]. intros db' r Hb.
    destruct (create_thread_ok _ _ _ _ _ _ _ _ Hb Hreviews) as [? Heq].
    constructor; [..|done|]; by rewrite Heq.
  - apply transact_fst; [done|]. intros db' r Hb.
    destruct (resolve_thread_ok _ _ _ _ _ _ _ Hb Hreviews) as [? Heq].
    constructor; [..|done|]; by rewrite Heq.
  - apply transact_fst; [done|]. intros db' l Hb.
    destruct (observe_body_ok _ _ _ _ _ _ _ Hb Htyped Hrec) as [? Heq].
    constructor; [done|..]; by rewrite Heq.
  - apply transact_fst; [done|]. intros db' r Hb. by eapply tombstone_body_store_ok.
Qed.

Lemma reachable_ok db : fewer_plans_shrink → reachable db → store_ok db.
Proof.
  intros Hshrink. induction 1 as [|db op _ IH Ht]; [apply empty_ok|by apply step_ok].
Qed.

(** ** Reads on a reachable database *)

(** The workspaces a host can see. *)
Definition live (db : Database) (w : Uuid) : Prop := w ∈ ids db ∧ is_tombstoned db w = false.

Lemma row_view db w row :
  store_ok db → db_projection db !! w = Some row → is_tombstoned db w = false →
  ∃ d v, decode_projection (raw_projection db w row) = Ok d ∧
    load_projection db w = Ok (Some d) ∧ view_decoded root db d = Ok v ∧ vw_workspace_id v = w.
Proof.
  intros [Hrec [Hexp _] _ _ _] Hrow Ht. destruct Hrec as (_ & Hdom & Hrows).
  destruct (row_ok_load _ _ _ Hrow (Hrows _ _ Hrow) Ht) as
    (record & lifecycle & Hl & _ & Hw & Hroot & Hv & Hvl & _).
  destruct (Hexp w) as (s & Hs & _); [apply Hdom; by eexists|].
  pose proof Hl as Hdec. unfold load_projection in Hdec. rewrite Ht, Hrow in Hdec.
  cbn [transpose_map] in Hdec. apply rmap_Ok in Hdec as (d & Hd & [= Heq]). subst d.
  eexists _, _. split_and!; [exact Hd|exact Hl| |].
  - unfold view_decoded, view; cbn [dc_record dc_lifecycle].
    rewrite bool_decide_eq_false_2 by (intros Hx; by apply Hx). cbn [guard_err rbind].
    rewrite Hv, Hvl. cbn [rbind]. rewrite Hw, Hs. reflexivity.
  - by cbn.
Qed.

Lemma Forall2_fst_eq {A B C} (f : A → C) (g : B → C) (R : A → B → Prop) l k :
  Forall2 R l k → (∀ a b, R a b → g b = f a) → g <$> k = f <$> l.
Proof. induction 1 as [|a b l k Hab _ IH]; intros HR; [done|]. cbn. by rewrite (HR a b Hab), IH. Qed.

Lemma try_map_total {A B E} (f : A → result B E) l :
  (∀ a, a ∈ l → ∃ b, f a = Ok b) → ∃ r, try_map f l = Ok r.
Proof.
  induction l as [|a l IH]; intros Hf; cbn; [by eexists|].
  destruct (Hf a) as [b ->]; [left|]. destruct IH as [r ->]; [intros c Hc; apply Hf; by right|].
  by eexists.
Qed.

Lemma active_rows_elem db w row :
  (w, row) ∈ active_rows db ↔ db_projection db !! w = Some row ∧ is_tombstoned db w = false.
Proof.
  unfold active_rows. rewrite sort_by_perm, list_elem_of_filter, elem_of_map_to_list. cbn. tauto.
Qed.

Lemma list_total db :
  store_ok db → ∃ l, list_workspaces root db = Ok l ∧
    vw_workspace_id <$> ls_workspaces l = (active_rows db).*1.
Proof.
  intros Hok. unfold list_workspaces.
  set (f := λ row : Uuid * ProjectionRow, let? decoded := decode_projection (raw_projection db row.1 row.2) in
      view_decoded root db decoded).
  assert (∀ a, a ∈ active_rows db → ∃ v, f a = Ok v ∧ vw_workspace_id v = a.1) as Hf.
  { intros [w row] [Hrow Ht]%active_rows_elem.
    destruct (row_view _ _ _ Hok Hrow Ht) as (d & v & Hd & _ & Hv & Hw). exists v.
    unfold f. cbn [fst snd]. rewrite Hd. cbn [rbind]. by rewrite Hv. }
  destruct (try_map_total f (active_rows db)) as [views Hviews].
  { intros a Ha. destruct (Hf a Ha) as (v & Hv & _). by exists v. }
  rewrite Hviews. eexists. split; [done|]. cbn. clear -Hf Hviews.
  apply try_map_Ok in Hviews. induction Hviews as [|a v l k Hav _ IH]; [done|]. cbn.
  destruct (Hf a) as (v' & Hv' & Hw); [left|]. rewrite Hav in Hv'. injection Hv' as <-.
  rewrite Hw, IH; [done|]. intros b Hb. apply Hf. by right.
Qed.

Lemma links_total db w :
  links_ok (db_links db) → ∃ l, load_work_item_links (db_links db) w = Ok l.
Proof.
  intros [Hdec _]. apply try_map_total. intros [id row] [Hrow Hw]%elem_of_link_rows. cbn in *.
  subst w. by apply Hdec.
Qed.

Lemma elem_of_thread_row {A} (rows : gmap Uuid (ThreadRow A)) w id :
  id ∈ thread_ids rows w → ∃ row, thread_row rows w id = Some row.
Proof.
  rewrite thread_ids_perm. intros ([j row] & -> & Hin)%list_elem_of_fmap.
  apply list_elem_of_filter in Hin as [Hw Hin]. apply elem_of_map_to_list in Hin. cbn in *.
  exists row. unfold thread_row. rewrite Hin. cbn. by rewrite decide_True.
Qed.

Lemma kind_total tables kind w : reviews_ok tables → ∃ l, load_kind tables kind w = Ok l.
Proof.
  intros [Hload _]. pose proof (λ id, Hload kind w id) as Hk.
  destruct kind; cbn [load_kind load_thread] in *; apply try_map_total; intros id Hid;
    apply elem_of_thread_row in Hid as (row & Hrow); destruct (Hk id) as [o Ho];
    pose proof Ho as Ho'; unfold load_review_thread, load_verification_review_thread,
      load_code_review_thread in Ho'; rewrite Hrow in Ho'; cbn [transpose_map] in Ho';
    apply rmap_Ok in Ho' as (th & _ & <-); exists th; by rewrite Ho.
Qed.

(** The store never reports itself corrupt.  On every database its own operations can
    build, listing succeeds and shows exactly the workspaces that were created and not
    removed, each of them can be read, and so can its links and its review threads. *)
Theorem reads_never_corrupt db :
  fewer_plans_shrink → reachable db →
  (∃ l, list_workspaces root db = Ok l ∧
     NoDup (vw_workspace_id <$> ls_workspaces l) ∧
     ∀ w, w ∈ vw_workspace_id <$> ls_workspaces l ↔ live db w) ∧
  ∀ w, (live db w → (∃ v, get root db w = Ok (Some v) ∧ vw_workspace_id v = w) ∧
          (∃ links, list_work_item_links db w = Ok links) ∧
          ∃ threads, list_review_threads db w = Ok threads) ∧
       (¬ live db w → get root db w = Ok None).
Proof.
  intros Hshrink Hok%reachable_ok; [|done]. pose proof Hok as [(Hnd & Hdom & Hrows) _ Hlinks Hreviews _].
  split.
  - destruct (list_total db Hok) as (l & Hl & Hids). exists l. rewrite Hids. split_and!; [done| |].
    + unfold active_rows. rewrite sort_by_perm. apply NoDup_fmap_fst; [|apply NoDup_filter, NoDup_map_to_list].
      intros w r r' [_ H1]%list_elem_of_filter [_ H2]%list_elem_of_filter.
      apply elem_of_map_to_list in H1, H2. congruence.
    + intros w. unfold live. rewrite (Hdom w). split.
      * intros ([w' row] & -> & [Hr Ht]%active_rows_elem)%list_elem_of_fmap. split; [by eexists|done].
      * intros [[row Hr] Ht]. apply list_elem_of_fmap. exists (w, row). by rewrite active_rows_elem.
  - intros w. split.
    + intros [[row Hrow]%Hdom Ht]. destruct (row_view _ _ _ Hok Hrow Ht) as (d & v & _ & Hl & Hv & Hw).
      assert (require_workspace db w = Ok ()) as Hreq.
      { unfold require_workspace. by rewrite Hl. }
      split_and!.
      * exists v. split; [|done]. unfold get. rewrite Hl. cbn [rbind transpose_map]. by rewrite Hv.
      * unfold list_work_item_links. rewrite Hreq. by apply links_total.
      * unfold list_review_threads. rewrite Hreq. cbn [rbind].
        destruct (kind_total _ PlanningComments w Hreviews) as [p Hp].
        destruct (kind_total _ VerificationComments w Hreviews) as [vf Hvf].
        destruct (kind_total _ CodeComments w Hreviews) as [c Hc]. cbn [load_kind] in *.
        rewrite Hp; cbn [rbind]. rewrite Hvf; cbn [rbind]. rewrite Hc. by eexists.
    + intros Hdead. unfold get, load_projection. destruct (is_tombstoned db w) eqn:Ht; [done|].
      destruct (db_projection db !! w) as [row|] eqn:Hr; [|done]. destruct Hdead. split; [|done].
      apply Hdom. by eexists.
Qed.

(** The board is its event log.  On every reachable database the events of a workspace
    form one unbroken chain from its creation (ready, automatic, revision 1): each starts in
    the lane and mode the previous one ended in and moves the revision by one, and the chain
    ends in exactly the lane, mode and revision the board shows. *)
Theorem board_log_explains db w :
  fewer_plans_shrink → reachable db → w ∈ ids db →
  ∃ s, load_workflow (db_board db) w = Ok s ∧
    replay_events (events_of (db_board db) w) (Ready, Automatic, 1%Z) =
      Some (wf_state s, bp_mode (wf_placement s), Z.of_N (wf_revision s)).
Proof. intros Hshrink Hok%reachable_ok Hw; [|done]. by apply Hok. Qed.

(** A workspace links an issue at most once and has at most one primary link, whatever
    was confirmed, created and removed. *)
Theorem links_stay_unique db w links a b :
  fewer_plans_shrink → reachable db → load_work_item_links (db_links db) w = Ok links →
  a ∈ links → b ∈ links →
  ws_issue_key (wl_snapshot a) = ws_issue_key (wl_snapshot b) ∨
  wl_role a = Primary ∧ wl_role b = Primary →
  a = b.
Proof.
  intros Hshrink Hok%reachable_ok Hl Ha Hb Hsame; [|done]. destruct Hok as [_ _ [_ Huniq] _ _].
  apply try_map_Ok in Hl.
  assert (∀ link, link ∈ links → ∃ id row, kt_links (db_links db) !! id = Some row ∧
    kr_workspace_id row = w ∧ decode_link w (id, row) = Ok link) as Hrow.
  { intros link [i Hi]%list_elem_of_lookup_1. destruct (Forall2_lookup_r _ _ _ _ _ Hl Hi) as ([id row] & Hr & Hd).
    apply list_elem_of_lookup_2, elem_of_link_rows in Hr as [Hr Hw]. by exists id, row. }
  apply Hrow in Ha as (ia & ra & Hra & Hwa & Hda), Hb as (ib & rb & Hrb & Hwb & Hdb).
  pose proof (decode_link_id _ _ _ Hda) as (_ & _ & _ & _ & Hka & Hrola & Hpa).
  pose proof (decode_link_id _ _ _ Hdb) as (_ & _ & _ & _ & Hkb & Hrolb & Hpb). cbn [snd] in *.
  assert (ia = ib) as ->; [|rewrite Hra in Hrb; injection Hrb as <-; congruence].
  eapply Huniq; [done..|]. destruct Hsame as [Hk|[Ra Rb]]; [left|right].
  - split_and!; [congruence| |congruence]. rewrite <- Hpa, <- Hpb.
    by destruct (wl_provider a), (wl_provider b).
  - rewrite Ra in Hrola. rewrite Rb in Hrolb.
    split_and!; [congruence|by rewrite <- Hrola|by rewrite <- Hrolb].
Qed.
End machine.
