(* ===== verification/StoreWitnesses.v ===== *)
(** * Concrete store runs

    A database built by the store's own operations, and the theorems about the store applied
    to runs on it. *)

From S2P Require Import Prelude Order Text Workspace StoreBase StoreSample StoreBoard.
From S2P Require Import StoreItems StoreObserved StoreReviews StoreThreads StoreRecords StoreMachine.

Local Open Scope N_scope.

Definition sample_root : WorkspaceRoot :=
  {| root_id := lit "default"; root_path := lit "/home/dev/WTS";
     root_display_path := lit "/home/dev/WTS" |}.

Definition plain_request (issue_key : string) : CreateWorkspaceRequest :=
  {| cr_intent := Jira (lit issue_key); cr_title := lit "Fix login"; cr_preferred_provider := Codex;
     cr_repositories := [{| wr_repository_id := None; wr_label := lit "console";
                            wr_base_ref := lit "main" |}];
     cr_runtime := None; cr_planning := None |}.

Definition create_inputs (id : Uuid) : CreateInputs :=
  {| ci_clock := Some (1000 * id); ci_workspace_id := id; ci_request_ids := [id + 100];
     ci_event_id := id + 200; ci_link_id := id + 300; ci_link_event_id := id + 400 |}.

Definition create_sample (db : Database) (id : Uuid) (issue_key : string) : Database :=
  (create sample_root db (dec (id + 500)) (plain_request issue_key) (create_inputs id)).1.

(** Three workspaces, 1, 2 and 3, all ready. *)
Definition sample_database : Database :=
  create_sample (create_sample (create_sample empty_database 1 "AB-1") 2 "AB-2") 3 "AB-3".

Example sample_lane : load_lane_workspace_ids sample_database Ready None = [1; 2; 3].
Proof. vm_compute. reflexivity. Qed.

Definition board_inputs (k : N) : BoardInputs :=
  {| in_clock := Some (10000 + k); in_workflow_event_id := 1000 + k; in_board_event_id := 2000 + k |}.

Definition place_before_1 : PlaceWorkspaceOnBoardRequest :=
  {| pq_state := Ready; pq_expected_revision := 1; pq_before_workspace_id := Some 1;
     pq_after_workspace_id := None |}.

Definition to_active : TransitionWorkspaceWorkflowRequest :=
  {| tq_state := Active; tq_expected_revision := 1 |}.

Definition placed : Database * result WorkspaceWorkflowSummary WorkspaceStoreError :=
  place_workspace_on_board sample_database 3 place_before_1 (board_inputs 1).

Definition placed_summary : WorkspaceWorkflowSummary :=
  {| wf_state := Ready; wf_revision := 2; wf_updated_at_unix_ms := 10001;
     wf_placement := {| bp_mode := Pinned; bp_rank := 0 |} |}.

Lemma placed_ok :
  place_workspace_on_board sample_database 3 place_before_1 (board_inputs 1) =
    (placed.1, Ok placed_summary).
Proof. vm_compute. reflexivity. Qed.

Lemma placed_run :
  run_board_op sample_database 3 (PlaceOp place_before_1) (board_inputs 1) =
    (placed.1, Ok placed_summary).
Proof. exact placed_ok. Qed.

Lemma place_exact_witness :
  load_lane_workspace_ids placed.1 Ready None = [3; 1; 2] ∧
  ∃ l1 l2, load_lane_workspace_ids sample_database Ready (Some 3) = l1 ++ l2 ∧
    (∃ l, l2 = 1 :: l) ∧
    load_lane_workspace_ids placed.1 Ready None = l1 ++ 3 :: l2.
Proof.
  split; [vm_compute; reflexivity|].
  destruct (place_exact sample_database 3 place_before_1 (board_inputs 1) placed.1 placed_summary
    placed_ok) as (l1 & l2 & H1 & H2 & H3 & _).
  exists l1, l2. exact (conj H1 (conj H2 (H3 Ready))).
Defined.

Lemma board_revision_step_witness :
  ∃ current, load_workflow (db_board sample_database) 3 = Ok current ∧ wf_revision current = 1 ∧
    load_workflow (db_board placed.1) 3 = Ok placed_summary.
Proof.
  destruct (board_revision_step sample_database 3 (PlaceOp place_before_1) (board_inputs 1)
    placed.1 (Ok placed_summary) placed_run) as (cur & H1 & H2 & H3 & _).
  exists cur. exact (conj H1 (conj (eq_sym H2) H3)).
Defined.

Lemma stale_board_request_conflicts_witness :
  run_board_op placed.1 3 (TransitionOp to_active) (board_inputs 2) =
    (placed.1, Err (WorkspaceWorkflowConflict 1 2)).
Proof.
  apply (stale_board_request_conflicts sample_database 3 (PlaceOp place_before_1) (board_inputs 1)
    placed.1 placed_summary (TransitionOp to_active) (board_inputs 2)).
  - exact placed_run.
  - intros Heq. apply (f_equal (λ db, load_lane_workspace_ids db Ready None)) in Heq.
    vm_compute in Heq. discriminate Heq.
  - reflexivity.
  - exact I.
Defined.

Definition moved : Database * result WorkspaceWorkflowSummary WorkspaceStoreError :=
  transition_workflow sample_database 2 to_active (board_inputs 3).

Definition moved_summary : WorkspaceWorkflowSummary :=
  {| wf_state := Active; wf_revision := 2; wf_updated_at_unix_ms := 10003;
     wf_placement := {| bp_mode := Automatic; bp_rank := 0 |} |}.

Lemma moved_ok :
  transition_workflow sample_database 2 to_active (board_inputs 3) =
    (moved.1, Ok moved_summary).
Proof. vm_compute. reflexivity. Qed.

Lemma transition_appends_witness :
  load_lane_workspace_ids moved.1 Active None = [2] ∧
  ∃ current, load_workflow (db_board sample_database) 2 = Ok current.
Proof.
  split; [vm_compute; reflexivity|].
  destruct (transition_appends sample_database 2 to_active (board_inputs 3) moved.1 moved_summary
    moved_ok) as (cur & H & _).
  exists cur. exact H.
Defined.

(** ** Records *)

Definition rename_sample : RecordOp := RenameOp {| rn_title := lit "  Login outage " |}.

Definition renamed : Database * DecodedProjection :=
  match record_body sample_database 1 rename_sample (Some 20000) with
  | Ok r => r
  | Err _ => (sample_database, {| dc_record := new_record sample_root (plain_request "AB-1") 0
                                    (create_inputs 1);
                                  dc_lifecycle := new_lifecycle 0 |})
  end.

Lemma renamed_ok :
  record_body sample_database 1 rename_sample (Some 20000) = Ok (renamed.1, renamed.2).
Proof. vm_compute. reflexivity. Qed.

Lemma record_change_read_back_witness :
  wk_display_name (dc_record renamed.2) = Some (lit "Login outage") ∧
  load_projection renamed.1 1 = Ok (Some renamed.2).
Proof.
  split; [vm_compute; reflexivity|].
  apply (record_change_read_back sample_database 1 rename_sample (Some 20000) renamed.1 renamed.2
    renamed_ok).
  vm_compute. discriminate.
Defined.

(** The same store opened with another root. *)
Definition other_root : WorkspaceRoot :=
  {| root_id := lit "other"; root_path := lit "/srv/WTS"; root_display_path := lit "/srv/WTS" |}.

Lemma foreign_root_change_commits_witness :
  run_record_op other_root sample_database 1 rename_sample (Some 20000) =
    (renamed.1, Err (UnknownWorkspaceRoot (wk_workspace_root_id (dc_record renamed.2)))).
Proof.
  apply (foreign_root_change_commits other_root sample_database 1 rename_sample (Some 20000)
    renamed.1 renamed.2).
  - exact renamed_ok.
  - vm_compute. discriminate.
Defined.

Definition created : Database * result CreateWorkspaceResult WorkspaceStoreError :=
  create sample_root empty_database (dec 501) (plain_request "AB-1") (create_inputs 1).

Definition created_view : WorkspaceView :=
  match view_decoded sample_root created.1
          {| dc_record := new_record sample_root (plain_request "AB-1") 1000 (create_inputs 1);
             dc_lifecycle := new_lifecycle 1000 |} with
  | Ok v => v
  | Err _ => {| vw_schema_version := 0; vw_workspace_id := 0; vw_record_version := 0;
                vw_intent := Jira []; vw_title := []; vw_display_name := None;
                vw_preferred_provider := Codex; vw_phase := Draft; vw_repositories := [];
                vw_runtime := None; vw_planning := None; vw_observed_work_items := [];
                vw_workspace_root_id := []; vw_workspace_leaf := [];
                vw_workspace_display_path := []; vw_lifecycle := new_lifecycle 0;
                vw_workflow := moved_summary; vw_created_at_unix_ms := 0;
                vw_updated_at_unix_ms := 0 |}
  end.

Lemma created_ok :
  create sample_root empty_database (dec 501) (plain_request "AB-1") (create_inputs 1) =
    (created.1, Ok {| cw_workspace := created_view; cw_replayed := false |}).
Proof. vm_compute. reflexivity. Qed.

Lemma create_idempotent_witness :
  create sample_root created.1 (dec 501) (plain_request "AB-1") (create_inputs 2) =
    (created.1, Ok {| cw_workspace := created_view; cw_replayed := true |}) ∧
  vw_workspace_leaf created_view = lit "ab-1-00000000-0000-0000-0000-000000000001".
Proof.
  split; [|vm_compute; reflexivity].
  apply (create_idempotent sample_root empty_database (dec 501) (plain_request "AB-1")
    (create_inputs 1) created.1 created_view created_ok).
  reflexivity.
Defined.

(** ** Reachable databases *)

Lemma sqlite_length_nul p x y : sqlite_length (p ++ 0 :: x) = sqlite_length (p ++ 0 :: y).
Proof. induction p as [|c p IH]; cbn; [done|]. by rewrite IH. Qed.

Lemma ser_pair {A B} `{Codec A, Codec B} (a : A) (b : B) : ser (a, b) = ser a ++ ser b.
Proof. done. Qed.

Lemma ser_option_nul {A} `{Codec A} (o : option A) : ∃ q x, ser o = q ++ 0 :: x.
Proof. destruct o as [a|]; [by exists [], (ser a)|by exists [1], []]. Qed.

Lemma ser_record (r : WorkspaceRecord) :
  ser r = ser (wk_schema_version r, wk_workspace_id r, wk_record_version r, wk_intent r, wk_title r,
           wk_display_name r, wk_preferred_provider r, wk_phase r, wk_repositories r,
           wk_runtime r, wk_planning r, wk_workspace_root_id r, wk_workspace_leaf r,
           wk_created_at_unix_ms r, wk_updated_at_unix_ms r).
Proof. done. Qed.

(** The sample serialization has a NUL before the repositories, where SQLite stops counting. *)
Lemma sample_json_prefix record : ∃ p, ∀ plans t, ∃ x,
  record_to_json (with_repositories record plans t) = p ++ 0 :: x.
Proof.
  change (@record_to_json sample_libraries) with (@ser WorkspaceRecord _).
  destruct (ser_option_nul (wk_display_name record)) as (q & y & Hq).
  exists (((((ser (wk_schema_version record) ++ ser (wk_workspace_id record)) ++
    ser (wk_record_version record)) ++ ser (wk_intent record)) ++ ser (wk_title record)) ++ q).
  intros plans t. rewrite ser_record, !ser_pair.
  cbn [with_repositories wk_schema_version wk_workspace_id wk_record_version wk_intent wk_title
       wk_display_name wk_preferred_provider wk_phase]. rewrite Hq.
  repeat match goal with |- context [ser ?a] => generalize (ser a); intro end.
  eexists. rewrite (app_assoc _ q (0 :: y)).
  match goal with |- context [(?P ++ q) ++ 0 :: y] => generalize (P ++ q); intro end.
  rewrite <- !app_assoc. reflexivity.
Qed.

Lemma sample_shrink : fewer_plans_shrink.
Proof.
  intros record plans clock t _ _ _. destruct (sample_json_prefix record) as [p Hp].
  destruct (Hp plans t) as [x Hx].
  destruct (Hp (wk_repositories record) (wk_updated_at_unix_ms record)) as [y Hy].
  assert (with_repositories record (wk_repositories record) (wk_updated_at_unix_ms record) = record)
    as Heq by by destruct record. rewrite Heq in Hy. rewrite Hx, Hy.
  by rewrite (sqlite_length_nul p x y).
Qed.

Lemma create_sample_step db id issue_key :
  create_sample db id issue_key =
    step sample_root db (CreateOp (dec (id + 500)) (plain_request issue_key) (create_inputs id)).
Proof. reflexivity. Qed.

Lemma create_sample_reachable db id issue_key :
  reachable sample_root db → reachable sample_root (create_sample db id issue_key).
Proof. intros Hdb. rewrite create_sample_step. by apply reachable_step. Qed.

Lemma sample_reachable : reachable sample_root sample_database.
Proof. do 3 apply create_sample_reachable. apply reachable_empty. Qed.

Lemma reads_never_corrupt_witness :
  ∃ l, list_workspaces sample_root sample_database = Ok l ∧
    (2 ∈ vw_workspace_id <$> ls_workspaces l ↔ live sample_database 2) ∧
    live sample_database 2.
Proof.
  destruct (reads_never_corrupt sample_root sample_database sample_shrink sample_reachable)
    as [(l & Hl & _ & Hlive) _].
  exists l. split; [exact Hl|]. split; [exact (Hlive 2)|].
  split; [apply (bool_decide_unpack (2 ∈ ids sample_database)); vm_compute; exact I|].
  vm_compute. reflexivity.
Defined.

(** Workspace 3 is placed before 1 on the sample database. *)
Definition place_step : StoreOp := BoardChangeOp 3 (PlaceOp place_before_1) (board_inputs 1).

Lemma placed_reachable : reachable sample_root placed.1.
Proof. exact (reachable_step sample_root sample_database place_step sample_reachable I). Qed.

Lemma placed_ids : 3 ∈ ids placed.1.
Proof. apply (bool_decide_unpack (3 ∈ ids placed.1)). vm_compute. exact I. Qed.

Lemma board_log_explains_witness :
  ∃ s, load_workflow (db_board placed.1) 3 = Ok s ∧
    replay_events (events_of (db_board placed.1) 3) (Ready, Automatic, 1%Z) =
      Some (wf_state s, bp_mode (wf_placement s), Z.of_N (wf_revision s)).
Proof.
  exact (board_log_explains sample_root placed.1 3 sample_shrink placed_reachable placed_ids).
Defined.

Definition sample_link : StoredWorkspaceWorkItemLink :=
  confirmed_link 1 JiraProvider Primary
    {| ws_issue_key := lit "AB-1"; ws_summary := None; ws_status := None; ws_content := [];
       ws_browser_url := None; ws_fetched_at_unix_ms := 0 |} 301 1000.

Lemma sample_links :
  load_work_item_links (db_links sample_database) 1 = Ok [sample_link].
Proof. vm_compute. reflexivity. Qed.

Lemma links_stay_unique_witness : sample_link = sample_link ∧ wl_role sample_link = Primary.
Proof.
  split; [|reflexivity].
  apply (links_stay_unique sample_root sample_database 1 [sample_link] sample_link sample_link
    sample_shrink sample_reachable sample_links); [left|left|right; split; reflexivity].
Defined.

(** ** Directories *)

Lemma sample_root_new : new_workspace_root (lit "default") (lit "/home/dev/WTS") = Ok sample_root.
Proof. vm_compute. reflexivity. Qed.

Definition created_record : DecodedProjection :=
  {| dc_record := new_record sample_root (plain_request "AB-1") 1000 (create_inputs 1);
     dc_lifecycle := new_lifecycle 1000 |}.

Lemma created_view_ok :
  view sample_root created.1 (dc_record created_record) (dc_lifecycle created_record) = Ok created_view.
Proof. vm_compute. reflexivity. Qed.

Lemma view_confined_witness :
  path_components (vw_workspace_display_path created_view) =
    [RootDir; NormalDir (lit "home"); NormalDir (lit "dev"); NormalDir (lit "WTS");
     NormalDir (vw_workspace_leaf created_view)].
Proof.
  destruct (view_confined sample_root (lit "default") (lit "/home/dev/WTS") created.1
    (dc_record created_record) (dc_lifecycle created_record) created_view sample_root_new
    created_view_ok) as [H _].
  exact H.
Defined.

(** ** Removal *)

Definition effect_digest : str := lit "sha256:" ++ replicate 64 97.

Definition removed : Database * result TombstoneWorkspaceResult WorkspaceStoreError :=
  tombstone sample_database 2 (lit "900") effect_digest (lit "{}") 901 (Some 30000).

Definition removed_tombstone : WorkspaceTombstone :=
  {| tb_workspace_id := 2; tb_idempotency_key := 900; tb_effect_digest := effect_digest;
     tb_result_json := lit "{}"; tb_removed_at_unix_ms := 30000 |}.

Lemma removed_ok :
  tombstone sample_database 2 (lit "900") effect_digest (lit "{}") 901 (Some 30000) =
    (removed.1, Ok {| tw_tombstone := removed_tombstone; tw_replayed := false |}).
Proof. vm_compute. reflexivity. Qed.

Lemma tombstone_final_witness :
  get sample_root removed.1 2 = Ok None ∧ load_projection removed.1 1 = load_projection sample_database 1.
Proof.
  destruct (tombstone_final sample_root sample_database 2 (lit "900") effect_digest (lit "{}") 901
    (Some 30000) removed.1 removed_tombstone removed_ok) as (H1 & _ & _ & _ & _ & _ & _ & H7).
  split; [exact H1|]. apply H7. discriminate.
Defined.

(** ** Links *)

Definition other_snapshot : StoredWorkItemSnapshot :=
  {| ws_issue_key := lit "CD-7"; ws_summary := Some (lit "Slow login"); ws_status := Some (lit "Open");
     ws_content := lit "steps"; ws_browser_url := Some (lit "https://jira.example.com/browse/CD-7");
     ws_fetched_at_unix_ms := 5 |}.

Definition link_inputs : LinkInputs :=
  {| li_clock := Some 40000; li_link_id := 700; li_event_id := 701 |}.

Definition related_link : StoredWorkspaceWorkItemLink :=
  confirmed_link 1 JiraProvider Related other_snapshot 700 40000.

Definition confirmed : Database * result ConfirmStoredWorkItemLinkResult WorkspaceStoreError :=
  confirm_work_item_link sample_database 1 (lit "800") effect_digest JiraProvider Related
    other_snapshot link_inputs.

Lemma confirmed_ok :
  confirm_work_item_link sample_database 1 (lit "800") effect_digest JiraProvider Related
    other_snapshot link_inputs =
  (confirmed.1, Ok {| cl_link := related_link; cl_replayed := false |}).
Proof. vm_compute. reflexivity. Qed.

Lemma confirm_link_replays_witness :
  list_work_item_links confirmed.1 1 = Ok [sample_link; related_link] ∧
  confirmed_work_item_link_replay confirmed.1 1 (lit "800") effect_digest =
    Ok (Some {| cl_link := related_link; cl_replayed := true |}).
Proof.
  split; [vm_compute; reflexivity|].
  apply (confirm_link_replays sample_database 1 (lit "800") effect_digest JiraProvider Related
    other_snapshot link_inputs confirmed.1 related_link confirmed_ok).
Defined.

Definition unlinked : Database * result StoredWorkItemUnlinkResult WorkspaceStoreError :=
  unlink_work_item_link confirmed.1 1 700 1 {| li_clock := Some 50000; li_link_id := 0; li_event_id := 702 |}.

Lemma unlinked_ok :
  unlink_work_item_link confirmed.1 1 700 1 {| li_clock := Some 50000; li_link_id := 0; li_event_id := 702 |} =
    (unlinked.1, Ok {| ul_workspace_id := 1; ul_link_id := 700; ul_removed_revision := 1 |}).
Proof. vm_compute. reflexivity. Qed.

Lemma unlink_removes_witness :
  list_work_item_links unlinked.1 1 = Ok [sample_link] ∧
  unlink_work_item_link unlinked.1 1 700 1 link_inputs =
    (unlinked.1, Err (WorkItemLinkNotFound 700)).
Proof.
  split; [vm_compute; reflexivity|].
  apply (unlink_removes confirmed.1 1 700 1 {| li_clock := Some 50000; li_link_id := 0; li_event_id := 702 |}
    unlinked.1 {| ul_workspace_id := 1; ul_link_id := 700; ul_removed_revision := 1 |} unlinked_ok).
  discriminate.
Defined.

(** ** Observed items *)

Definition sample_observations : list ObservedWorkItem :=
  [{| ow_issue_key := lit "AB-1"; ow_source_files := [lit "README.md"; lit "PLAN.md"];
      ow_observed_at_unix_ms := 9 |};
   {| ow_issue_key := lit "CD-7"; ow_source_files := [lit "KANBAN.md"];
      ow_observed_at_unix_ms := 9 |}].

Definition observed : Database * result (list ObservedWorkItem) WorkspaceStoreError :=
  replace_observed_work_items sample_database 1 sample_observations.

Definition observed_items : list ObservedWorkItem :=
  load_observed_work_items (db_observations observed.1) 1.

Lemma observed_ok :
  replace_observed_work_items sample_database 1 sample_observations = (observed.1, Ok observed_items).
Proof. vm_compute. reflexivity. Qed.

Lemma sample_canonical : canonical_observations sample_observations.
Proof.
  split; repeat (apply SSorted_cons || apply SSorted_nil || apply Forall_cons || apply Forall_nil
    || split || discriminate || reflexivity).
Qed.

Lemma replace_read_back_witness : observed_items = sample_observations.
Proof.
  destruct (replace_read_back sample_database 1 sample_observations observed.1 observed_items
    observed_ok) as (_ & H & _).
  exact (H sample_canonical).
Defined.

(** ** Review threads *)

Definition review_inputs : ReviewInputs :=
  {| ri_clock := Some 60000; ri_thread_id := 950; ri_comment_id := 951 |}.

Definition review_target : StoredReviewTarget := PlanningDocument (lit "plan") effect_digest (Some 12).

Definition sample_thread : StoredReviewThread :=
  created_thread 1 review_target User (lit "Why?") 60000 review_inputs.

Definition commented : Database * result StoredReviewThread WorkspaceStoreError :=
  create_review_thread sample_database 1 review_target User (lit " Why? ") review_inputs.

Lemma commented_ok :
  create_review_thread sample_database 1 review_target User (lit " Why? ") review_inputs =
    (commented.1, Ok sample_thread).
Proof. vm_compute. reflexivity. Qed.

Lemma sample_unused : unused_thread_id (db_reviews sample_database) 950.
Proof.
  assert (∀ kind, comment_table (db_reviews sample_database) kind = []) as Hempty.
  { intros []; vm_compute; reflexivity. }
  split_and!; [vm_compute; reflexivity..|].
  intros kind row Hrow. rewrite Hempty in Hrow. by apply elem_of_nil in Hrow.
Qed.

Lemma create_thread_read_back_witness :
  find_review_thread (db_reviews commented.1) 1 950 = Ok sample_thread ∧
  rc_body <$> rt_comments sample_thread = [lit "Why?"].
Proof.
  destruct (create_thread_read_back sample_database 1 review_target User (lit " Why? ") review_inputs
    commented.1 sample_thread commented_ok sample_unused) as ((_ & _ & _ & H1) & H2 & _).
  exact (conj H2 H1).
Defined.

Definition resolved : Database * result StoredReviewThread WorkspaceStoreError :=
  resolve_review_thread commented.1 1 950 1 (Some 70000).

Lemma resolved_ok :
  resolve_review_thread commented.1 1 950 1 (Some 70000) =
    (resolved.1, Ok (resolved_thread sample_thread 2 70000)).
Proof. vm_compute. reflexivity. Qed.

Lemma resolve_once_witness :
  resolve_review_thread resolved.1 1 950 2 None = (resolved.1, Ok (resolved_thread sample_thread 2 70000)).
Proof.
  destruct (resolve_once commented.1 1 950 1 (Some 70000) resolved.1
    (resolved_thread sample_thread 2 70000) resolved_ok) as (_ & _ & _ & H & _).
  exact (H None).
Defined.

(** ** A fourth workspace *)

Definition fourth_record : WorkspaceRecord :=
  new_record sample_root (plain_request "AB-4") 4000 (create_inputs 4).

Lemma fourth_good : good_inputs (plain_request "AB-4") (create_inputs 4).
Proof. constructor; reflexivity. Qed.

Lemma sample_link_owners id row :
  kt_links (db_links sample_database) !! id = Some row → kr_workspace_id row ≠ 4.
Proof.
  intros Hrow. apply elem_of_map_to_list in Hrow. intros Heq.
  assert (forallb (λ r : Uuid * LinkRow, negb (kr_workspace_id r.2 =? 4))
    (map_to_list (kt_links (db_links sample_database))) = true) as Hall by (vm_compute; reflexivity).
  rewrite forallb_spec in Hall. specialize (Hall _ Hrow). cbn in Hall. by rewrite Heq in Hall.
Qed.

Lemma fourth_fresh : fresh_inputs sample_database 504 (create_inputs 4).
Proof. constructor; [vm_compute; reflexivity..|exact sample_link_owners|vm_compute; reflexivity]. Qed.

Lemma create_succeeds_witness :
  ∃ db' workspace,
    create sample_root sample_database (lit "504") (plain_request "AB-4") (create_inputs 4) =
      (db', Ok {| cw_workspace := workspace; cw_replayed := false |}) ∧
    vw_workspace_id workspace = 4.
Proof.
  destruct (create_succeeds sample_root sample_database (lit "504") 504 (plain_request "AB-4")
    (plain_request "AB-4") (create_inputs 4) 4000) as (db' & v & H1 & H2 & _).
  - vm_compute. reflexivity.
  - vm_compute. reflexivity.
  - vm_compute. reflexivity.
  - vm_compute. reflexivity.
  - exact fourth_good.
  - exact fourth_fresh.
  - vm_compute. discriminate.
  - exists db', v. exact (conj H1 H2).
Defined.
