(* ===== verification/Sessions.v ===== *)
(** * The agent session ledger ([crates/wts-app/src/agent_sessions.rs])

    One JSON file holds the agent sessions WTS launched.  Every operation reads the whole
    file, changes one session and replaces the file.  The file is the state here; clocks,
    fresh identifiers and the outcome of the file system are inputs of the operations, and the
    JSON codec is a parameter. *)

From S2P Require Import Prelude Order Text StoreBase.

Local Open Scope N_scope.

Definition AGENT_SESSION_SCHEMA_VERSION : N := 1.
Definition MAX_SESSION_FILE_BYTES : N := 4 * 1024 * 1024.
Definition MAX_RETAINED_SESSIONS : nat := Z.to_nat 4096.
Definition STALE_HEARTBEAT_AFTER_MS : Z := 5 * 60 * 1000.
Definition CHANGE_REQUEST_PROPOSAL_PREFIX : str := lit "WTS_CHANGE_REQUEST_PROPOSAL:".
Definition MR_LINK_PROPOSAL_PREFIX : str := lit "WTS_MR_LINK_PROPOSAL:".

(** ** Data *)

Inductive AgentProvider := CodexAgent | OpenCodeAgent | HermesAgent | CopilotAgent.
Inductive TerminalProvider := TerminalApp | Warp.

Inductive AgentSessionCategory :=
| Uncategorized | Ideation | Investigation | Implementation | Verification | ReviewWork | Other.

Inductive AgentSessionStatus :=
| Launching | HandoffAccepted | Running | Stopping | Completed | Failed | Interrupted.

Inductive AgentSessionFailure :=
| LaunchRejected | ProviderFailed | ProcessExited | StaleHeartbeat | LaunchOutcomeUnknown
| UserStopped.

#[export] Instance session_status_eq_dec : EqDecision AgentSessionStatus.
Proof. solve_decision. Defined.
#[export] Instance session_failure_eq_dec : EqDecision AgentSessionFailure.
Proof. solve_decision. Defined.

Inductive AgentNeedsInputKind := Question | Access.

Record AgentNeedsInput := { ni_kind : AgentNeedsInputKind; ni_detail : str }.

Record AgentMrLinkProposal := {
  ml_schema_version : N;
  ml_repository_id : str;
  ml_iid : N
}.

Inductive AgentChangeRequestVerificationStatus := NotReported | Passed | Partial | VerificationFailed.

Record AgentChangeRequestVerification := {
  cv_status : AgentChangeRequestVerificationStatus;
  cv_summary : str
}.

Record AgentChangeRequestProposal := {
  cp_schema_version : N;
  cp_repository_id : str;
  cp_source_head_commit_oid : str;
  cp_title : str;
  cp_body : str;
  cp_issue_keys : list str;
  cp_verification : option AgentChangeRequestVerification
}.

Record AgentSession := {
  as_schema_version : N;
  as_session_id : Uuid;
  as_workspace_id : Uuid;
  as_provider : AgentProvider;
  as_terminal : TerminalProvider;
  as_category : AgentSessionCategory;
  as_status : AgentSessionStatus;
  as_started_at_unix_ms : Z;
  as_last_heartbeat_at_unix_ms : Z;
  as_ended_at_unix_ms : option Z;
  as_failure : option AgentSessionFailure;
  as_needs_input : option AgentNeedsInput;
  as_change_request_proposals : list AgentChangeRequestProposal;
  as_mr_link_proposals : list AgentMrLinkProposal
}.

(** [AgentSessionList]; its [observed_sessions] and [unassigned_work] are cleared by every
    read and never written by the store, so they are not kept here. *)
Record AgentSessionList := {
  al_schema_version : N;
  al_sessions : list AgentSession
}.

Inductive AgentSessionStoreError := Unavailable | Invalid | NotFound | NotRunning.

(** ** Validation *)

Definition needs_input_is_valid (needs_input : AgentNeedsInput) : bool :=
  match ni_kind needs_input with
  | Question => bool_decide (ni_detail needs_input = lit "Agent has a question.")
  | Access => bool_decide (ni_detail needs_input = lit "Agent needs access.")
  end.

Definition valid_mr_link_proposal (proposal : AgentMrLinkProposal) : bool :=
  (ml_schema_version proposal =? 1) && negb (is_empty (ml_repository_id proposal))
  && (byte_len (ml_repository_id proposal) <=? 160)
  && bool_decide (trim (ml_repository_id proposal) = ml_repository_id proposal)
  && (0 <? ml_iid proposal) && (ml_iid proposal <=? 9007199254740991).

Definition valid_proposal_key (key : str) : bool :=
  match split_once 45 key with
  | None => false
  | Some (project, number) =>
      negb (is_empty project) && (byte_len project <=? 32)
      && forallb (λ b, is_ascii_uppercase b || is_ascii_digit b || (b =? 95)) (utf8 project)
      && negb (is_empty number) && (byte_len number <=? 16)
      && forallb is_ascii_digit (utf8 number)
  end.

Definition valid_proposal (proposal : AgentChangeRequestProposal) : bool :=
  (cp_schema_version proposal =? 1) && negb (is_empty (cp_repository_id proposal))
  && (byte_len (cp_repository_id proposal) <=? 160)
  && bool_decide (trim (cp_repository_id proposal) = cp_repository_id proposal)
  && ((byte_len (cp_source_head_commit_oid proposal) =? 40)
      || (byte_len (cp_source_head_commit_oid proposal) =? 64))
  && forallb is_ascii_hexdigit (utf8 (cp_source_head_commit_oid proposal))
  && negb (is_empty (trim (cp_title proposal))) && (N.of_nat (length (cp_title proposal)) <=? 256)
  && negb (is_empty (trim (cp_body proposal))) && (N.of_nat (length (cp_body proposal)) <=? 16000)
  && (length (cp_issue_keys proposal) <=? 16)%nat
  && forallb valid_proposal_key (cp_issue_keys proposal)
  && match cp_verification proposal with
     | None => true
     | Some verification =>
         negb (is_empty (trim (cv_summary verification)))
         && (N.of_nat (length (cv_summary verification)) <=? 1024)
         && forallb (λ c, negb (is_control c) || (c =? 10)) (cv_summary verification)
     end
  && forallb (λ c, negb (is_control c) || (c =? 10) || (c =? 9))
       (cp_title proposal ++ cp_body proposal).

Definition is_none {A} (o : option A) : bool := match o with None => true | _ => false end.

Definition valid_status (session : AgentSession) : bool :=
  match as_status session with
  | Launching | Stopping =>
      is_none (as_ended_at_unix_ms session) && is_none (as_failure session)
      && is_none (as_needs_input session)
  | HandoffAccepted | Completed =>
      negb (is_none (as_ended_at_unix_ms session)) && is_none (as_failure session)
      && is_none (as_needs_input session)
  | Running =>
      is_none (as_ended_at_unix_ms session) && is_none (as_failure session)
      && match as_needs_input session with
         | None => true
         | Some needs_input => needs_input_is_valid needs_input
         end
  | Failed | Interrupted =>
      negb (is_none (as_ended_at_unix_ms session)) && negb (is_none (as_failure session))
      && is_none (as_needs_input session)
  end.

Definition valid_session (session : AgentSession) : bool :=
  (as_schema_version session =? AGENT_SESSION_SCHEMA_VERSION)
  && negb (is_nil (as_session_id session)) && negb (is_nil (as_workspace_id session))
  && (0 <=? as_started_at_unix_ms session)%Z
  && (as_started_at_unix_ms session <=? as_last_heartbeat_at_unix_ms session)%Z
  && valid_status session
  && match as_ended_at_unix_ms session with
     | None => true
     | Some ended => (as_last_heartbeat_at_unix_ms session <=? ended)%Z
     end
  && (length (as_change_request_proposals session) <=? 16)%nat
  && forallb valid_proposal (as_change_request_proposals session)
  && (length (as_mr_link_proposals session) <=? 16)%nat
  && forallb valid_mr_link_proposal (as_mr_link_proposals session).

(** ** Proposals in agent responses *)

(** One line of [str::lines]: the text up to a line feed, without a final carriage return. *)
Definition strip_line_end (line : str) : str :=
  match strip_suffix [13] line with Some line => line | None => line end.

(** [str::lines]: the part after the last line feed is a line only when it is not empty. *)
Definition lines (value : str) : list str :=
  match reverse (split_char 10 value) with
  | [] => []
  | last :: before =>
      (strip_line_end <$> reverse before) ++ (if is_empty last then [] else [last])
  end.

Definition proposal_payload (line prefix : str) : option str :=
  let line := trim line in
  match strip_prefix (lit "<!--") line with
  | Some inner =>
      match strip_suffix (lit "-->") inner with
      | None => None
      | Some inner => trim <$> strip_prefix prefix (trim inner)
      end
  | None => trim <$> strip_prefix prefix line
  end.

Definition is_proposal_line (line : str) : bool :=
  bool_decide (is_Some (proposal_payload line CHANGE_REQUEST_PROPOSAL_PREFIX))
  || bool_decide (is_Some (proposal_payload line MR_LINK_PROPOSAL_PREFIX)).

(** The decoders [serde_json] derives for the two kinds of proposals are arguments. *)
Definition parse_agent_mr_link_proposals (decode : str → option AgentMrLinkProposal)
    (value : str) : list AgentMrLinkProposal :=
  take 16 (filter (λ proposal, valid_mr_link_proposal proposal = true)
    (omap decode
      (filter (λ json, (byte_len json <=? 512) = true)
        (omap (λ line, proposal_payload line MR_LINK_PROPOSAL_PREFIX) (lines value))))).

Definition parse_agent_change_request_proposals
    (decode : str → option AgentChangeRequestProposal) (value : str) :
    list AgentChangeRequestProposal :=
  take 16 (filter (λ proposal, valid_proposal proposal = true)
    (omap decode
      (omap (λ line, proposal_payload line CHANGE_REQUEST_PROPOSAL_PREFIX) (lines value)))).

(** ** Recovery and pruning *)

(** Statuses of a session that may still change. *)
Definition is_live (status : AgentSessionStatus) : bool :=
  match status with Launching | Running | Stopping => true | _ => false end.

(** The assignments to the fields a session changes in its life. *)
Definition with_state (session : AgentSession) (status : AgentSessionStatus) (heartbeat : Z)
    (ended : option Z) (failure : option AgentSessionFailure)
    (needs_input : option AgentNeedsInput) : AgentSession :=
  {| as_schema_version := as_schema_version session; as_session_id := as_session_id session;
     as_workspace_id := as_workspace_id session; as_provider := as_provider session;
     as_terminal := as_terminal session; as_category := as_category session;
     as_status := status; as_started_at_unix_ms := as_started_at_unix_ms session;
     as_last_heartbeat_at_unix_ms := heartbeat; as_ended_at_unix_ms := ended;
     as_failure := failure; as_needs_input := needs_input;
     as_change_request_proposals := as_change_request_proposals session;
     as_mr_link_proposals := as_mr_link_proposals session |}.

Definition with_proposals (session : AgentSession) (heartbeat : Z)
    (change_requests : list AgentChangeRequestProposal) (mr_links : list AgentMrLinkProposal) :
    AgentSession :=
  {| as_schema_version := as_schema_version session; as_session_id := as_session_id session;
     as_workspace_id := as_workspace_id session; as_provider := as_provider session;
     as_terminal := as_terminal session; as_category := as_category session;
     as_status := as_status session; as_started_at_unix_ms := as_started_at_unix_ms session;
     as_last_heartbeat_at_unix_ms := heartbeat;
     as_ended_at_unix_ms := as_ended_at_unix_ms session;
     as_failure := as_failure session; as_needs_input := as_needs_input session;
     as_change_request_proposals := change_requests; as_mr_link_proposals := mr_links |}.

Definition interrupt_session (session : AgentSession) (heartbeat now : Z)
    (failure : AgentSessionFailure) : AgentSession :=
  with_state session Interrupted heartbeat (Some now) (Some failure) None.

Definition is_stale (now : Z) (session : AgentSession) : bool :=
  (STALE_HEARTBEAT_AFTER_MS <? clamp_i64 (now - as_last_heartbeat_at_unix_ms session))%Z.

(** The body of the loop of [recover_stale]; the loop's result tells whether any session
    changed. *)
Definition recover_stale_session (now : Z) (session : AgentSession) : AgentSession :=
  if is_stale now session then
    match as_status session with
    | Launching =>
        interrupt_session session (as_last_heartbeat_at_unix_ms session) now LaunchOutcomeUnknown
    | Running | Stopping =>
        interrupt_session session (as_last_heartbeat_at_unix_ms session) now StaleHeartbeat
    | _ => session
    end
  else session.

Definition recover_stale (sessions : list AgentSession) (now : Z) : list AgentSession * bool :=
  (recover_stale_session now <$> sessions,
   existsb (λ session, is_stale now session && is_live (as_status session)) sessions).

Definition recover_orphaned_session (now : Z) (session : AgentSession) : AgentSession :=
  match as_status session with
  | Launching => interrupt_session session now now LaunchOutcomeUnknown
  | Running | Stopping => interrupt_session session now now ProcessExited
  | _ => session
  end.

Definition recover_orphaned (sessions : list AgentSession) (now : Z) :
    list AgentSession * bool :=
  (recover_orphaned_session now <$> sessions,
   existsb (λ session, is_live (as_status session)) sessions).

(** The key of [min_by_key]. *)
Definition prune_key (session : AgentSession) : Z * N :=
  (as_started_at_unix_ms session, as_session_id session).

(** [iter.enumerate().filter(not live).min_by_key(prune_key)]: the first of the least. *)
Fixpoint oldest_terminal (index : nat) (sessions : list AgentSession) :
    option (nat * AgentSession) :=
  match sessions with
  | [] => None
  | session :: sessions' =>
      let rest := oldest_terminal (S index) sessions' in
      if is_live (as_status session) then rest
      else match rest with
           | None => Some (index, session)
           | Some (i, other) =>
               match pair_cmp Z.compare N.compare (prune_key session) (prune_key other) with
               | Gt => Some (i, other)
               | _ => Some (index, session)
               end
           end
  end.

Definition prune_terminal_sessions (sessions : list AgentSession) : list AgentSession :=
  if (length sessions <? MAX_RETAINED_SESSIONS)%nat then sessions
  else match oldest_terminal 0 sessions with
       | Some (index, _) => delete index sessions
       | None => sessions
       end.

(** ** The file *)

(** What stands at the path of the ledger. *)
Inductive LedgerEntry :=
| Absent
| DanglingLink
| NotARegularFile
| RegularFile (bytes : list N).

(** [serde_json::to_vec_pretty] and [serde_json::from_slice] on the ledger. *)
Class SessionJson := {
  ledger_to_json : AgentSessionList → option (list N);
  ledger_from_json : list N → option AgentSessionList
}.

(** The decoder of a needs-input marker refuses one whose text is not the fixed text of its
    kind. *)
Definition ledger_decodable (list : AgentSessionList) : Prop :=
  Forall (λ session, match as_needs_input session with
                     | None => True
                     | Some needs_input => needs_input_is_valid needs_input = true
                     end) (al_sessions list).

#[export] Instance ledger_decodable_dec list : Decision (ledger_decodable list).
Proof.
  apply Forall_dec. intros session. destruct (as_needs_input session); apply _.
Defined.

Class SessionJsonLaws `{SessionJson} : Prop := {
  ledger_encodes list : is_Some (ledger_to_json list);
  ledger_round_trip list bytes :
    ledger_decodable list → ledger_to_json list = Some bytes →
    ledger_from_json bytes = Some list;
  ledger_refuses list bytes :
    ¬ ledger_decodable list → ledger_to_json list = Some bytes → ledger_from_json bytes = None
}.

(** The environment of one call: whether the directory can be prepared, the file read and the
    file replaced; the time since the epoch in milliseconds ([None] before the epoch); the
    identifier [Uuid::new_v4] returns. *)
Record SessionEnv := {
  en_directory : bool;
  en_readable : bool;
  en_writable : bool;
  en_elapsed : option N;
  en_fresh : Uuid
}.

Definition with_sessions (list : AgentSessionList) (sessions : Datatypes.list AgentSession) :
    AgentSessionList :=
  {| al_schema_version := al_schema_version list; al_sessions := sessions |}.

Definition sessions_now_unix_ms (env : SessionEnv) : result Z AgentSessionStoreError :=
  match en_elapsed env with
  | None => Err Unavailable
  | Some elapsed => ok_or (i64_try_from elapsed) Unavailable
  end.

(** Fields a stored list must have for [read_locked] to return it. *)
Definition valid_list (list : AgentSessionList) : bool :=
  (al_schema_version list =? AGENT_SESSION_SCHEMA_VERSION)
  && (length (al_sessions list) <=? MAX_RETAINED_SESSIONS)%nat
  && forallb valid_session (al_sessions list).

Section ledger.
Context `{SessionJson}.

Definition read_locked (env : SessionEnv) (entry : LedgerEntry) :
    result AgentSessionList AgentSessionStoreError :=
  match entry with
  | Absent => Err Unavailable
  | DanglingLink | NotARegularFile => Err Invalid
  | RegularFile bytes =>
      ensure guard_err (MAX_SESSION_FILE_BYTES <? N.of_nat (length bytes)) Invalid in
      ensure guard_err (negb (en_readable env)) Unavailable in
      let? list := ok_or (ledger_from_json bytes) Invalid in
      ensure guard_err (negb (valid_list list)) Invalid in
      Ok list
  end.

(** The file is replaced by a rename, so a failure leaves it as it was. *)
Definition write_locked (env : SessionEnv) (list : AgentSessionList) (entry : LedgerEntry) :
    result () AgentSessionStoreError * LedgerEntry :=
  match ledger_to_json list with
  | None => (Err Invalid, entry)
  | Some bytes =>
      if MAX_SESSION_FILE_BYTES <? N.of_nat (length bytes) then (Err Invalid, entry)
      else if en_writable env then (Ok (), RegularFile bytes)
      else (Err Unavailable, entry)
  end.

(** [self.write_locked(&list)?; reply]. *)
Definition write_then {A} (env : SessionEnv) (list : AgentSessionList) (entry : LedgerEntry)
    (reply : result A AgentSessionStoreError) : result A AgentSessionStoreError * LedgerEntry :=
  match write_locked env list entry with
  | (Ok _, entry) => (reply, entry)
  | (Err error, entry) => (Err error, entry)
  end.

(** ** One change of one session *)

Definition find_session (id : Uuid) (sessions : list AgentSession) : option AgentSession :=
  head (filter (λ session, as_session_id session = id) sessions).

(** Writing through the reference that [iter_mut().find] returned. *)
Fixpoint replace_session (id : Uuid) (new : AgentSession) (sessions : list AgentSession) :
    list AgentSession :=
  match sessions with
  | [] => []
  | session :: sessions' =>
      if decide (as_session_id session = id) then new :: sessions'
      else session :: replace_session id new sessions'
  end.

(** The part the operations on one session share: find it in the recovered list, refuse it in
    a status the operation does not accept (writing the recovered list first when
    [persist_refusal]), change it and write the list. *)
Definition change_session (env : SessionEnv) (entry : LedgerEntry)
    (recover : list AgentSession → list AgentSession) (id : Uuid)
    (accepts : AgentSessionStatus → bool) (persist_refusal : bool)
    (change : AgentSession → AgentSession) :
    result AgentSession AgentSessionStoreError * LedgerEntry :=
  match read_locked env entry with
  | Err error => (Err error, entry)
  | Ok list =>
      let sessions := recover (al_sessions list) in
      match find_session id sessions with
      | None => (Err NotFound, entry)
      | Some session =>
          if negb (accepts (as_status session)) then
            if persist_refusal
            then write_then env (with_sessions list sessions) entry (Err NotRunning)
            else (Err NotRunning, entry)
          else
            let session' := change session in
            write_then env (with_sessions list (replace_session id session' sessions)) entry
              (Ok session')
      end
  end.

(** ** Operations *)

Definition recovered (now : Z) (sessions : list AgentSession) : list AgentSession :=
  (recover_stale sessions now).1.

Definition new_session (workspace_id : Uuid) (provider : AgentProvider)
    (terminal : TerminalProvider) (category : AgentSessionCategory)
    (status : AgentSessionStatus) (id : Uuid) (now : Z) : AgentSession :=
  {| as_schema_version := AGENT_SESSION_SCHEMA_VERSION; as_session_id := id;
     as_workspace_id := workspace_id; as_provider := provider; as_terminal := terminal;
     as_category := category; as_status := status; as_started_at_unix_ms := now;
     as_last_heartbeat_at_unix_ms := now; as_ended_at_unix_ms := None; as_failure := None;
     as_needs_input := None; as_change_request_proposals := []; as_mr_link_proposals := [] |}.

(** The body [start_at] and [begin_launch] share. *)
Definition add_session (env : SessionEnv) (entry : LedgerEntry) (workspace_id : Uuid)
    (provider : AgentProvider) (terminal : TerminalProvider)
    (category : AgentSessionCategory) (status : AgentSessionStatus) (now : Z) :
    result AgentSession AgentSessionStoreError * LedgerEntry :=
  match read_locked env entry with
  | Err error => (Err error, entry)
  | Ok list =>
      let sessions := prune_terminal_sessions (recovered now (al_sessions list)) in
      let session := new_session workspace_id provider terminal category status
                       (en_fresh env) now in
      write_then env (with_sessions list (sessions ++ [session])) entry (Ok session)
  end.

(** [let now = now_unix_ms()?;] in front of an operation. *)
Definition at_now {A} (env : SessionEnv) (entry : LedgerEntry)
    (k : Z → result A AgentSessionStoreError * LedgerEntry) :
    result A AgentSessionStoreError * LedgerEntry :=
  match sessions_now_unix_ms env with
  | Err error => (Err error, entry)
  | Ok now => k now
  end.

Definition start env entry workspace_id provider terminal category :
    result AgentSession AgentSessionStoreError * LedgerEntry :=
  at_now env entry
    (add_session env entry workspace_id provider terminal category Running).

Definition begin_launch env entry workspace_id provider terminal category :
    result AgentSession AgentSessionStoreError * LedgerEntry :=
  at_now env entry
    (add_session env entry workspace_id provider terminal category Launching).

Definition update_launch_at env entry (session_id : Uuid) (status : AgentSessionStatus)
    (failure : option AgentSessionFailure) (now : Z) :
    result AgentSession AgentSessionStoreError * LedgerEntry :=
  change_session env entry (recovered now) session_id
    (λ current, bool_decide (current = Launching)) true
    (λ session, with_state session status now
       (if bool_decide (status = Running) then None else Some now) failure
       (if bool_decide (status = Running) then as_needs_input session else None)).

Definition accept_handoff env entry (session_id : Uuid) :=
  at_now env entry (update_launch_at env entry session_id HandoffAccepted None).

Definition accept_owned_process env entry (session_id : Uuid) :=
  at_now env entry (update_launch_at env entry session_id Running None).

Definition fail_launch env entry (session_id : Uuid) (failure : AgentSessionFailure) :=
  at_now env entry (update_launch_at env entry session_id Failed (Some failure)).

Definition reject_launch env entry (session_id : Uuid) :=
  at_now env entry (update_launch_at env entry session_id Failed (Some LaunchRejected)).

(** [matches!(status, Running | Stopping)]. *)
Definition running_or_stopping (status : AgentSessionStatus) : bool :=
  match status with Running | Stopping => true | _ => false end.

Definition update_running_at env entry (session_id : Uuid)
    (terminal : option (AgentSessionStatus * option AgentSessionFailure)) (now : Z) :
    result AgentSession AgentSessionStoreError * LedgerEntry :=
  change_session env entry (recovered now) session_id running_or_stopping true
    (λ session,
       match terminal with
       | None => with_state session (as_status session) now (as_ended_at_unix_ms session)
                   (as_failure session) (as_needs_input session)
       | Some (status, failure) =>
           with_state session status now
             (if bool_decide (status = Stopping) then None else Some now) failure None
       end).

Definition heartbeat env entry (session_id : Uuid) :=
  at_now env entry (update_running_at env entry session_id None).

Definition finish env entry (session_id : Uuid) :=
  at_now env entry (update_running_at env entry session_id (Some (Completed, None))).

Definition fail_session env entry (session_id : Uuid) (failure : AgentSessionFailure) :=
  at_now env entry (update_running_at env entry session_id (Some (Failed, Some failure))).

Definition interrupt env entry (session_id : Uuid) (failure : AgentSessionFailure) :=
  at_now env entry (update_running_at env entry session_id (Some (Interrupted, Some failure))).

Definition set_needs_input env entry (session_id : Uuid)
    (needs_input : option AgentNeedsInput) :
    result AgentSession AgentSessionStoreError * LedgerEntry :=
  at_now env entry (λ now,
    change_session env entry (recovered now) session_id
      (λ status, bool_decide (status = Running)) true
      (λ session, with_state session (as_status session) now (as_ended_at_unix_ms session)
                    (as_failure session) needs_input)).

Definition set_change_request_proposals env entry (session_id : Uuid)
    (proposals : list AgentChangeRequestProposal) :
    result AgentSession AgentSessionStoreError * LedgerEntry :=
  if (16 <? length proposals)%nat || existsb (λ proposal, negb (valid_proposal proposal)) proposals
  then (Err Invalid, entry)
  else at_now env entry (λ now,
    change_session env entry (recovered now) session_id running_or_stopping true
      (λ session, with_proposals session now proposals (as_mr_link_proposals session))).

Definition set_mr_link_proposals env entry (session_id : Uuid)
    (proposals : list AgentMrLinkProposal) :
    result AgentSession AgentSessionStoreError * LedgerEntry :=
  if (16 <? length proposals)%nat
     || existsb (λ proposal, negb (valid_mr_link_proposal proposal)) proposals
  then (Err Invalid, entry)
  else
    change_session env entry id session_id running_or_stopping false
      (λ session, with_proposals session (as_last_heartbeat_at_unix_ms session)
                    (as_change_request_proposals session) proposals).

Definition request_stop env entry (session_id : Uuid) :
    result AgentSession AgentSessionStoreError * LedgerEntry :=
  at_now env entry (λ now,
    change_session env entry id session_id
      (λ status, bool_decide (status = Launching ∨ status = Running)) false
      (λ session, with_state session Stopping now (as_ended_at_unix_ms session)
                    (as_failure session) None)).

(** The order of a listing: the latest start first, then by identifier. *)
Definition listing_cmp (left right : AgentSession) : comparison :=
  cmp_then (Z.compare (as_started_at_unix_ms right) (as_started_at_unix_ms left))
           (N.compare (as_session_id left) (as_session_id right)).

Definition list_at env entry (workspace_id : option Uuid) (now : Z) :
    result AgentSessionList AgentSessionStoreError * LedgerEntry :=
  match read_locked env entry with
  | Err error => (Err error, entry)
  | Ok list =>
      let '(sessions, changed) := recover_stale (al_sessions list) now in
      let kept := match workspace_id with
                  | None => sessions
                  | Some workspace_id =>
                      filter (λ session, as_workspace_id session = workspace_id) sessions
                  end in
      let reply := Ok (with_sessions list (sort_by listing_cmp kept)) in
      if changed then write_then env (with_sessions list sessions) entry reply
      else (reply, entry)
  end.

Definition list_sessions env entry (workspace_id : option Uuid) :=
  at_now env entry (list_at env entry workspace_id).

(** [AgentSessionStore::open]; the value it returns holds only the path and a mutex. *)
Definition open_store (data_dir : str) env entry :
    result () AgentSessionStoreError * LedgerEntry :=
  if negb (is_absolute data_dir)
     || existsb (λ component, match component with ParentDir | CurDir => true | _ => false end)
          (path_components data_dir)
  then (Err Invalid, entry)
  else if negb (en_directory env) then (Err Unavailable, entry)
  else
    match entry with
    | Absent | DanglingLink =>
        write_then env
          {| al_schema_version := AGENT_SESSION_SCHEMA_VERSION; al_sessions := [] |} entry (Ok ())
    | _ =>
        match read_locked env entry with
        | Err error => (Err error, entry)
        | Ok list =>
            at_now env entry (λ now,
              let '(sessions, changed) := recover_orphaned (al_sessions list) now in
              if changed then write_then env (with_sessions list sessions) entry (Ok ())
              else (Ok (), entry))
        end
    end.

(** One call of the store, for histories of calls. *)
Inductive SessionCall :=
| OpenStore (data_dir : str)
| Start (workspace_id : Uuid) (provider : AgentProvider) (terminal : TerminalProvider)
    (category : AgentSessionCategory)
| BeginLaunch (workspace_id : Uuid) (provider : AgentProvider) (terminal : TerminalProvider)
    (category : AgentSessionCategory)
| AcceptHandoff (session_id : Uuid)
| AcceptOwnedProcess (session_id : Uuid)
| FailLaunch (session_id : Uuid) (failure : AgentSessionFailure)
| RejectLaunch (session_id : Uuid)
| Heartbeat (session_id : Uuid)
| SetNeedsInput (session_id : Uuid) (needs_input : option AgentNeedsInput)
| SetChangeRequestProposals (session_id : Uuid) (proposals : list AgentChangeRequestProposal)
| SetMrLinkProposals (session_id : Uuid) (proposals : list AgentMrLinkProposal)
| Finish (session_id : Uuid)
| FailSession (session_id : Uuid) (failure : AgentSessionFailure)
| RequestStop (session_id : Uuid)
| Interrupt (session_id : Uuid) (failure : AgentSessionFailure)
| ListSessions (workspace_id : option Uuid).

Inductive SessionReply :=
| Opened
| OneSession (session : AgentSession)
| ManySessions (list : AgentSessionList).

Definition replying {A} (f : A → SessionReply)
    (outcome : result A AgentSessionStoreError * LedgerEntry) :
    result SessionReply AgentSessionStoreError * LedgerEntry :=
  (rmap f outcome.1, outcome.2).

Definition run_call (env : SessionEnv) (call : SessionCall) (entry : LedgerEntry) :
    result SessionReply AgentSessionStoreError * LedgerEntry :=
  match call with
  | OpenStore data_dir => replying (λ _, Opened) (open_store data_dir env entry)
  | Start w p t c => replying OneSession (start env entry w p t c)
  | BeginLaunch w p t c => replying OneSession (begin_launch env entry w p t c)
  | AcceptHandoff id => replying OneSession (accept_handoff env entry id)
  | AcceptOwnedProcess id => replying OneSession (accept_owned_process env entry id)
  | FailLaunch id failure => replying OneSession (fail_launch env entry id failure)
  | RejectLaunch id => replying OneSession (reject_launch env entry id)
  | Heartbeat id => replying OneSession (heartbeat env entry id)
  | SetNeedsInput id needs_input => replying OneSession (set_needs_input env entry id needs_input)
  | SetChangeRequestProposals id l =>
      replying OneSession (set_change_request_proposals env entry id l)
  | SetMrLinkProposals id l => replying OneSession (set_mr_link_proposals env entry id l)
  | Finish id => replying OneSession (finish env entry id)
  | FailSession id failure => replying OneSession (fail_session env entry id failure)
  | RequestStop id => replying OneSession (request_stop env entry id)
  | Interrupt id failure => replying OneSession (interrupt env entry id failure)
  | ListSessions w => replying ManySessions (list_sessions env entry w)
  end.
End ledger.
