(* ===== verification/SessionRules.v ===== *)
(** * What the calls of the session ledger do to one session

    The rules of a session's life as a step relation, and the proof that every call of the
    store moves each stored session along these rules, prunes at most one finished session and
    adds at most one. *)

From S2P Require Import Prelude Order Text StoreBase Sessions.

Local Open Scope N_scope.

(** ** The rules *)

Section rules.
Variable env : SessionEnv.

Inductive session_rule : SessionCall → AgentSession → AgentSession → Prop :=
| rule_stale call now s :
    sessions_now_unix_ms env = Ok now → is_stale now s = true → is_live (as_status s) = true →
    session_rule call s
      (interrupt_session s (as_last_heartbeat_at_unix_ms s) now
         (if bool_decide (as_status s = Launching) then LaunchOutcomeUnknown else StaleHeartbeat))
| rule_orphaned data_dir now s :
    sessions_now_unix_ms env = Ok now → is_live (as_status s) = true →
    session_rule (OpenStore data_dir) s
      (interrupt_session s now now
         (if bool_decide (as_status s = Launching) then LaunchOutcomeUnknown else ProcessExited))
| rule_handoff now s :
    sessions_now_unix_ms env = Ok now → as_status s = Launching →
    session_rule (AcceptHandoff (as_session_id s)) s
      (with_state s HandoffAccepted now (Some now) None None)
| rule_owned now s :
    sessions_now_unix_ms env = Ok now → as_status s = Launching →
    session_rule (AcceptOwnedProcess (as_session_id s)) s
      (with_state s Running now None None (as_needs_input s))
| rule_fail_launch now s failure :
    sessions_now_unix_ms env = Ok now → as_status s = Launching →
    session_rule (FailLaunch (as_session_id s) failure) s
      (with_state s Failed now (Some now) (Some failure) None)
| rule_reject now s :
    sessions_now_unix_ms env = Ok now → as_status s = Launching →
    session_rule (RejectLaunch (as_session_id s)) s
      (with_state s Failed now (Some now) (Some LaunchRejected) None)
| rule_heartbeat now s :
    sessions_now_unix_ms env = Ok now → running_or_stopping (as_status s) = true →
    session_rule (Heartbeat (as_session_id s)) s
      (with_state s (as_status s) now (as_ended_at_unix_ms s) (as_failure s) (as_needs_input s))
| rule_needs_input now s needs_input :
    sessions_now_unix_ms env = Ok now → as_status s = Running →
    session_rule (SetNeedsInput (as_session_id s) needs_input) s
      (with_state s (as_status s) now (as_ended_at_unix_ms s) (as_failure s) needs_input)
| rule_change_requests now s proposals :
    sessions_now_unix_ms env = Ok now → running_or_stopping (as_status s) = true →
    (length proposals ≤ 16)%nat → Forall (λ p, valid_proposal p = true) proposals →
    session_rule (SetChangeRequestProposals (as_session_id s) proposals) s
      (with_proposals s now proposals (as_mr_link_proposals s))
| rule_mr_links s proposals :
    running_or_stopping (as_status s) = true →
    (length proposals ≤ 16)%nat → Forall (λ p, valid_mr_link_proposal p = true) proposals →
    session_rule (SetMrLinkProposals (as_session_id s) proposals) s
      (with_proposals s (as_last_heartbeat_at_unix_ms s) (as_change_request_proposals s) proposals)
| rule_finish now s :
    sessions_now_unix_ms env = Ok now → running_or_stopping (as_status s) = true →
    session_rule (Finish (as_session_id s)) s (with_state s Completed now (Some now) None None)
| rule_fail now s failure :
    sessions_now_unix_ms env = Ok now → running_or_stopping (as_status s) = true →
    session_rule (FailSession (as_session_id s) failure) s
      (with_state s Failed now (Some now) (Some failure) None)
| rule_interrupt now s failure :
    sessions_now_unix_ms env = Ok now → running_or_stopping (as_status s) = true →
    session_rule (Interrupt (as_session_id s) failure) s
      (with_state s Interrupted now (Some now) (Some failure) None)
| rule_stop now s :
    sessions_now_unix_ms env = Ok now → as_status s = Launching ∨ as_status s = Running →
    session_rule (RequestStop (as_session_id s)) s
      (with_state s Stopping now (as_ended_at_unix_ms s) (as_failure s) None).

(** The session a call adds. *)
Inductive session_launch : SessionCall → AgentSession → Prop :=
| launch_start now w p t c :
    sessions_now_unix_ms env = Ok now →
    session_launch (Start w p t c) (new_session w p t c Running (en_fresh env) now)
| launch_begin now w p t c :
    sessions_now_unix_ms env = Ok now →
    session_launch (BeginLaunch w p t c) (new_session w p t c Launching (en_fresh env) now).

(** What a call makes of the stored sessions. *)
Definition sessions_after (call : SessionCall) (before after : list AgentSession) : Prop :=
  ∃ moved, Forall2 (rtc (session_rule call)) before moved ∧
    (after = moved ∨
     ∃ new, session_launch call new ∧ after = prune_terminal_sessions moved ++ [new]).
End rules.

Create HintDb sessions discriminated.
#[export] Hint Constructors session_rule session_launch : sessions.
#[export] Hint Resolve rtc_refl rtc_once : sessions.

(** The file after a write of [list]. *)
Definition written `{SessionJson} (list : AgentSessionList) (entry : LedgerEntry) : Prop :=
  ∃ bytes, ledger_to_json list = Some bytes ∧ N.of_nat (length bytes) <= MAX_SESSION_FILE_BYTES ∧
    entry = RegularFile bytes.

Lemma replace_session_Forall2 (R : AgentSession → AgentSession → Prop) `{HR : !Reflexive R} id l s new :
  find_session id l = Some s → R s new → Forall2 R l (replace_session id new l).
Proof.
  unfold find_session. induction l as [|x l IH]; [done|]. rewrite filter_cons; cbn.
  destruct (decide (as_session_id x = id)); cbn.
  - intros [= ->] H. constructor; [done|]. clear -HR; induction l; constructor; auto.
  - intros Hs H. constructor; [done|auto].
Qed.

Lemma find_session_id id l s : find_session id l = Some s → as_session_id s = id ∧ s ∈ l.
Proof.
  intros H. apply head_Some_elem_of, list_elem_of_filter in H. tauto.
Qed.

Lemma replace_session_elem id l s new : find_session id l = Some s → new ∈ replace_session id new l.
Proof.
  unfold find_session. induction l as [|x l IH]; [done|]. rewrite filter_cons; cbn.
  case_decide; cbn; [intros _; left|intros Hs; right; auto].
Qed.

Lemma recover_stale_rule env call now s :
  sessions_now_unix_ms env = Ok now → rtc (session_rule env call) s (recover_stale_session now s).
Proof.
  intros Hnow. unfold recover_stale_session. destruct (is_stale now s) eqn:Hs; [|done].
  destruct (as_status s) eqn:Hst; try done; apply rtc_once.
  all: pose proof (rule_stale env call now s Hnow Hs) as H; rewrite Hst in H; by apply H.
Qed.

Lemma recover_orphaned_rule env data_dir now s :
  sessions_now_unix_ms env = Ok now →
  rtc (session_rule env (OpenStore data_dir)) s (recover_orphaned_session now s).
Proof.
  intros Hnow. unfold recover_orphaned_session. destruct (as_status s) eqn:Hst; try done; apply rtc_once.
  all: pose proof (rule_orphaned env data_dir now s Hnow) as H; rewrite Hst in H; by apply H.
Qed.

Lemma Forall2_fmap_self {A} (R : A → A → Prop) (f : A → A) l :
  (∀ x, R x (f x)) → Forall2 R l (f <$> l).
Proof. intros H. induction l; constructor; auto. Qed.

Lemma Forall2_trans {A} (R : A → A → Prop) `{!Transitive R} l k m :
  Forall2 R l k → Forall2 R k m → Forall2 R l m.
Proof.
  intros H. revert m; induction H; intros m Hm; inversion Hm; subst; constructor; eauto.
Qed.

(** ** Every call follows the rules *)

Section refinement.
Context `{SessionJson}.

Definition empty_list : AgentSessionList :=
  {| al_schema_version := AGENT_SESSION_SCHEMA_VERSION; al_sessions := [] |}.

(** What a call may do to the file and what it may answer. *)
Inductive call_effect (env : SessionEnv) (call : SessionCall) (entry : LedgerEntry) :
    result SessionReply AgentSessionStoreError → LedgerEntry → Prop :=
| effect_none reply :
    (∀ s, reply ≠ Ok (OneSession s)) → call_effect env call entry reply entry
| effect_created data_dir entry' :
    call = OpenStore data_dir → entry = Absent ∨ entry = DanglingLink →
    written empty_list entry' → call_effect env call entry (Ok Opened) entry'
| effect_changed list after reply entry' :
    read_locked env entry = Ok list →
    sessions_after env call (al_sessions list) after →
    written (with_sessions list after) entry' →
    (∀ s, reply = Ok (OneSession s) → s ∈ after) →
    call_effect env call entry reply entry'.

Lemma write_then_cases {A} env list entry (reply : result A AgentSessionStoreError) :
  (∃ error, write_then env list entry reply = (Err error, entry)) ∨
  (∃ entry', write_then env list entry reply = (reply, entry') ∧ written list entry').
Proof.
  unfold write_then, write_locked. destruct (ledger_to_json list) as [bytes|] eqn:Hj; [|by eauto].
  destruct (N.ltb_spec MAX_SESSION_FILE_BYTES (N.of_nat (length bytes))); [by eauto|].
  destruct (en_writable env); [|by eauto]. right. eexists; split; [done|]. by exists bytes.
Qed.

(** A write of what the rules allow. *)
Lemma write_then_effect {A} env call list after entry (reply : result A AgentSessionStoreError) f :
  read_locked env entry = Ok list →
  sessions_after env call (al_sessions list) after →
  (∀ s, rmap f reply = Ok (OneSession s) → s ∈ after) →
  call_effect env call entry
    (rmap f (write_then env (with_sessions list after) entry reply).1)
    (write_then env (with_sessions list after) entry reply).2.
Proof.
  intros Hr Ha Hs.
  destruct (write_then_cases env (with_sessions list after) entry reply)
    as [[e ->] | (entry' & -> & Hw)]; cbn.
  - by apply effect_none.
  - by eapply effect_changed.
Qed.

Lemma recovered_after env call now l :
  sessions_now_unix_ms env = Ok now → Forall2 (rtc (session_rule env call)) l (recovered now l).
Proof. intros Hnow. apply Forall2_fmap_self. intros x. by apply recover_stale_rule. Qed.

Lemma change_session_effect env call entry recover id accepts persist change :
  (∀ l, Forall2 (rtc (session_rule env call)) l (recover l)) →
  (∀ s, as_session_id s = id → accepts (as_status s) = true →
     session_rule env call s (change s)) →
  call_effect env call entry
    (rmap OneSession (change_session env entry recover id accepts persist change).1)
    (change_session env entry recover id accepts persist change).2.
Proof.
  intros Hrec Hrule. unfold change_session.
  destruct (read_locked env entry) as [list|e] eqn:Hr; [|by apply effect_none].
  destruct (find_session id _) as [s|] eqn:Hf; [|by apply effect_none]. cbn zeta.
  destruct (accepts (as_status s)) eqn:Hacc; cbn [negb].
  - apply write_then_effect; [done| |].
    + exists (replace_session id (change s) (recover (al_sessions list))). split; [|by left].
      apply (Forall2_trans _ _ _ _ (Hrec _)). apply (replace_session_Forall2 _ _ _ s); [done|].
      apply find_session_id in Hf as [Hid _]. apply rtc_once; auto.
    + intros ? [= <-]. by eapply replace_session_elem.
  - destruct persist; [|by apply effect_none].
    apply write_then_effect; [done| |done]. eexists; split; [apply Hrec|by left].
Qed.

Lemma at_now_effect {A} env call entry k (f : A → SessionReply) :
  (∀ now, sessions_now_unix_ms env = Ok now →
     call_effect env call entry (rmap f (k now).1) (k now).2) →
  call_effect env call entry (rmap f (at_now env entry k).1) (at_now env entry k).2.
Proof.
  intros Hk. unfold at_now. destruct (sessions_now_unix_ms env) eqn:Hn; [auto|by apply effect_none].
Qed.

Lemma add_session_effect env call entry w p t c st now :
  sessions_now_unix_ms env = Ok now →
  session_launch env call (new_session w p t c st (en_fresh env) now) →
  call_effect env call entry (rmap OneSession (add_session env entry w p t c st now).1)
    (add_session env entry w p t c st now).2.
Proof.
  intros Hn Hl. unfold add_session.
  destruct (read_locked env entry) as [list|e] eqn:Hr; [|by apply effect_none].
  apply write_then_effect; [done| |].
  - eexists. split; [by apply recovered_after|]. right. by eexists.
  - intros ? [= <-]. apply elem_of_app. right. by apply list_elem_of_singleton.
Qed.

Lemma update_launch_effect env call entry id status failure now :
  sessions_now_unix_ms env = Ok now →
  (∀ s, as_session_id s = id → as_status s = Launching →
     session_rule env call s (with_state s status now
       (if bool_decide (status = Running) then None else Some now) failure
       (if bool_decide (status = Running) then as_needs_input s else None))) →
  call_effect env call entry
    (rmap OneSession (update_launch_at env entry id status failure now).1)
    (update_launch_at env entry id status failure now).2.
Proof.
  intros Hn Hrule. apply change_session_effect; [by intros; apply recovered_after|].
  intros s Hid Hst. apply bool_decide_eq_true in Hst. auto.
Qed.

Lemma update_running_effect env call entry id terminal now :
  sessions_now_unix_ms env = Ok now →
  (∀ s, as_session_id s = id → running_or_stopping (as_status s) = true →
     session_rule env call s
       match terminal with
       | None => with_state s (as_status s) now (as_ended_at_unix_ms s) (as_failure s)
                   (as_needs_input s)
       | Some (status, failure) =>
           with_state s status now
             (if bool_decide (status = Stopping) then None else Some now) failure None
       end) →
  call_effect env call entry
    (rmap OneSession (update_running_at env entry id terminal now).1)
    (update_running_at env entry id terminal now).2.
Proof. intros Hn Hrule. by apply change_session_effect; [intros; apply recovered_after|]. Qed.

Lemma proposals_guard {A} (valid : A → bool) proposals :
  (16 <? length proposals)%nat || existsb (λ p, negb (valid p)) proposals = false →
  (length proposals ≤ 16)%nat ∧ Forall (λ p, valid p = true) proposals.
Proof.
  intros [Hl He]%orb_false_elim. apply Nat.ltb_ge in Hl. split; [done|].
  apply Forall_forall. intros p Hp. destruct (valid p) eqn:Hv; [done|].
  assert (existsb (λ p, negb (valid p)) proposals = true) as Ht; [|congruence].
  apply existsb_spec. exists p. by rewrite Hv.
Qed.

Lemma proposals_effect env entry id proposals :
  call_effect env (SetChangeRequestProposals id proposals) entry
    (rmap OneSession (set_change_request_proposals env entry id proposals).1)
    (set_change_request_proposals env entry id proposals).2.
Proof.
  unfold set_change_request_proposals. destruct (_ || _) eqn:Hg; [by apply effect_none|].
  apply proposals_guard in Hg as [??]. apply at_now_effect. intros now Hn.
  apply change_session_effect; [by intros; apply recovered_after|].
  intros s <- Hs. by apply rule_change_requests.
Qed.

Lemma mr_links_effect env entry id proposals :
  call_effect env (SetMrLinkProposals id proposals) entry
    (rmap OneSession (set_mr_link_proposals env entry id proposals).1)
    (set_mr_link_proposals env entry id proposals).2.
Proof.
  unfold set_mr_link_proposals. destruct (_ || _) eqn:Hg; [by apply effect_none|].
  apply proposals_guard in Hg as [??]. apply change_session_effect.
  - intros l. induction l; constructor; [done|auto].
  - intros s <- Hs. by apply rule_mr_links.
Qed.

Lemma list_effect env entry workspace_id :
  call_effect env (ListSessions workspace_id) entry
    (rmap ManySessions (list_sessions env entry workspace_id).1)
    (list_sessions env entry workspace_id).2.
Proof.
  apply at_now_effect. intros now Hn. unfold list_at.
  destruct (read_locked env entry) as [list|e] eqn:Hr; [|by apply effect_none].
  cbn [recover_stale]. destruct (existsb _ _); [|by apply effect_none].
  apply write_then_effect; [done| |by intros].
  eexists. split; [by apply recovered_after|by left].
Qed.

Lemma open_effect env entry data_dir :
  call_effect env (OpenStore data_dir) entry
    (rmap (λ _, Opened) (open_store data_dir env entry).1)
    (open_store data_dir env entry).2.
Proof.
  unfold open_store. destruct (negb (is_absolute data_dir) || _); [by apply effect_none|].
  destruct (negb (en_directory env)); [by apply effect_none|].
  assert (entry = Absent ∨ entry = DanglingLink →
    call_effect env (OpenStore data_dir) entry
      (rmap (λ _, Opened) (write_then env empty_list entry (Ok ())).1)
      (write_then env empty_list entry (Ok ())).2) as Hcreate.
  { intros He. destruct (write_then_cases env empty_list entry (Ok ()))
      as [[e ->] | (entry' & -> & Hw)]; [by apply effect_none|by eapply effect_created]. }
  destruct entry as [| | |bytes]; [by apply Hcreate; left|by apply Hcreate; right|by apply effect_none|].
  destruct (read_locked env (RegularFile bytes)) as [list|e] eqn:Hr; [|by apply effect_none].
  apply at_now_effect. intros now Hn. cbn [recover_orphaned].
  destruct (existsb _ _); [|by apply effect_none].
  apply write_then_effect; [done| |by intros]. eexists. split; [|by left].
  apply Forall2_fmap_self. intros s. by apply recover_orphaned_rule.
Qed.

(** Every call of the store follows the rules. *)
Lemma run_call_effect env call entry :
  call_effect env call entry (run_call env call entry).1 (run_call env call entry).2.
Proof.
  destruct call; cbn [run_call replying fst snd];
    first [apply open_effect | apply proposals_effect | apply mr_links_effect | apply list_effect
          | apply at_now_effect; intros now Hn].
  - apply add_session_effect; [done|by apply launch_start].
  - apply add_session_effect; [done|by apply launch_begin].
  - apply update_launch_effect; [done|]. intros s <- Hs. by apply rule_handoff.
  - apply update_launch_effect; [done|]. intros s <- Hs. by apply rule_owned.
  - apply update_launch_effect; [done|]. intros s <- Hs. by apply rule_fail_launch.
  - apply update_launch_effect; [done|]. intros s <- Hs. by apply rule_reject.
  - apply update_running_effect; [done|]. intros s <- Hs. by apply rule_heartbeat.
  - apply change_session_effect; [by intros; apply recovered_after|].
    intros s <- Hs%bool_decide_eq_true. by apply rule_needs_input.
  - apply update_running_effect; [done|]. intros s <- Hs. by apply rule_finish.
  - apply update_running_effect; [done|]. intros s <- Hs. by apply rule_fail.
  - apply change_session_effect; [intros l; induction l; constructor; [done|auto]|].
    intros s <- Hs%bool_decide_eq_true. by apply rule_stop.
  - apply update_running_effect; [done|]. intros s <- Hs. by apply rule_interrupt.
Qed.
End refinement.
