(* ===== verification/SessionProofs.v ===== *)
(** * Properties of the agent session ledger

    Histories of calls: the file stays readable while the clock does not step back and there is
    room, a finished session is frozen, the file refines a map from identifiers to statuses,
    and two ways in which a successful call leaves a file that no later call accepts. *)

From S2P Require Import Prelude Order Text StoreBase Sessions SessionRules.

Local Open Scope N_scope.

(** ** Sessions that are valid at a time *)

Definition timely (now : Z) (s : AgentSession) : Prop :=
  valid_session s = true ∧ (as_last_heartbeat_at_unix_ms s ≤ now)%Z ∧
  match as_ended_at_unix_ms s with None => True | Some ended => (ended ≤ now)%Z end.

(** The arguments the service passes: workspace identifiers are not nil, and a needs-input
    marker is one of [AgentNeedsInput::question()] and [AgentNeedsInput::access()]. *)
Definition call_ok (call : SessionCall) : Prop :=
  match call with
  | Start w _ _ _ | BeginLaunch w _ _ _ => is_nil w = false
  | SetNeedsInput _ (Some needs_input) => needs_input_is_valid needs_input = true
  | _ => True
  end.

(** The latest time seen after a call. *)
Definition latest (last : Z) (env : SessionEnv) : Z :=
  match sessions_now_unix_ms env with Ok now => now | Err _ => last end.

Lemma sessions_now_nonneg env now : sessions_now_unix_ms env = Ok now → (0 ≤ now)%Z.
Proof.
  unfold sessions_now_unix_ms. destruct (en_elapsed env) as [n|]; [|done].
  unfold i64_try_from. destruct (_ <=? _)%Z; cbn; [|done]. intros [= <-]. lia.
Qed.

Lemma valid_session_parts s :
  valid_session s = true ↔
  (as_schema_version s = AGENT_SESSION_SCHEMA_VERSION ∧ is_nil (as_session_id s) = false ∧
   is_nil (as_workspace_id s) = false) ∧
  (0 ≤ as_started_at_unix_ms s ≤ as_last_heartbeat_at_unix_ms s)%Z ∧
  valid_status s = true ∧
  match as_ended_at_unix_ms s with
  | None => True
  | Some ended => (as_last_heartbeat_at_unix_ms s ≤ ended)%Z
  end ∧
  ((length (as_change_request_proposals s) ≤ 16)%nat ∧
   Forall (λ p, valid_proposal p = true) (as_change_request_proposals s)) ∧
  ((length (as_mr_link_proposals s) ≤ 16)%nat ∧
   Forall (λ p, valid_mr_link_proposal p = true) (as_mr_link_proposals s)).
Proof.
  unfold valid_session. rewrite !andb_true_iff, !forallb_spec, !Forall_forall.
  rewrite !N.eqb_eq, !negb_true_iff, !Z.leb_le, !Nat.leb_le.
  destruct (as_ended_at_unix_ms s); rewrite ?Z.leb_le; naive_solver lia.
Qed.

Lemma valid_status_live s :
  valid_status s = true → is_live (as_status s) = true →
  as_ended_at_unix_ms s = None ∧ as_failure s = None ∧
  (as_status s ≠ Running → as_needs_input s = None).
Proof.
  unfold valid_status. destruct (as_status s); try done;
    destruct (as_ended_at_unix_ms s), (as_failure s), (as_needs_input s); naive_solver.
Qed.

Lemma running_or_stopping_live st : running_or_stopping st = true → is_live st = true.
Proof. by destruct st. Qed.

Lemma rule_timely env call last s s' :
  call_ok call → session_rule env call s s' →
  timely (latest last env) s → timely (latest last env) s'.
Proof.
  unfold timely, latest. intros Hok Hrule (Hv & Hhb & He).
  rewrite valid_session_parts in *. destruct Hv as (Hids & Ht & Hst & Hend & Hcr & Hmr).
  assert (is_live (as_status s) = true) as Hlive.
  { inversion Hrule; subst; try done; try by apply running_or_stopping_live.
    all: repeat match goal with H : as_status _ = _ |- _ => by rewrite H
         | H : _ ∨ _ |- _ => destruct H end. }
  destruct (valid_status_live s Hst Hlive) as (Hended & Hfail & Hni).
  inversion Hrule; subst; repeat match goal with H : sessions_now_unix_ms env = Ok _ |- _ =>
    rewrite H in * end.
  all: cbn; rewrite ?Hended in *; split_and!; try tauto; try lia; try done.
  all: try (unfold valid_status; cbn; rewrite ?Hended, ?Hfail, ?Hni by congruence; done).
  - unfold valid_status in *. cbn. by rewrite Hended in Hst.
  - unfold valid_status. cbn. rewrite Hfail. by destruct (as_status s), needs_input.
Qed.

Lemma rules_timely env call last s s' :
  call_ok call → rtc (session_rule env call) s s' →
  timely (latest last env) s → timely (latest last env) s'.
Proof. intros Hok. induction 1; [done|]. intros Hs. by eapply IHrtc, rule_timely. Qed.

Lemma timely_mono t t' s : (t ≤ t')%Z → timely t s → timely t' s.
Proof.
  intros Ht (Hv & Hh & He). split_and!; [done|lia|].
  destruct (as_ended_at_unix_ms s); [lia|done].
Qed.

Lemma launch_timely env call last s :
  call_ok call → is_nil (en_fresh env) = false → session_launch env call s →
  timely (latest last env) s.
Proof.
  intros Hok Hf. inversion 1 as [now w p t c Hn|now w p t c Hn]; subst; unfold timely, latest; rewrite Hn.
  all: apply sessions_now_nonneg in Hn as Hp; split_and!; cbn; [|lia|done].
  all: apply valid_session_parts; cbn in *; split_and!; try done; cbn; try lia.
Qed.

(** ** Pruning *)

Lemma oldest_terminal_Some l i j s :
  oldest_terminal i l = Some (j, s) →
  (i ≤ j)%nat ∧ l !! (j - i)%nat = Some s ∧ is_live (as_status s) = false.
Proof.
  revert i; induction l as [|x l IH]; intros i; cbn; [done|].
  assert (oldest_terminal (S i) l = Some (j, s) →
    (i ≤ j)%nat ∧ (x :: l) !! (j - i)%nat = Some s ∧ is_live (as_status s) = false) as Hrest.
  { intros (Hij & Hl & Hs)%IH. split_and!; [lia| |done].
    replace (j - i)%nat with (S (j - S i)) by lia. done. }
  destruct (is_live (as_status x)) eqn:Hx; [done|].
  assert (Some (i, x) = Some (j, s) →
    (i ≤ j)%nat ∧ (x :: l) !! (j - i)%nat = Some s ∧ is_live (as_status s) = false) as Hhere.
  { intros [= <- <-]. rewrite Nat.sub_diag. done. }
  destruct (oldest_terminal (S i) l) as [[k o]|]; [|done].
  by destruct (pair_cmp _ _ _ _).
Qed.

Lemma oldest_terminal_None l i :
  oldest_terminal i l = None → Forall (λ s, is_live (as_status s) = true) l.
Proof.
  revert i; induction l as [|x l IH]; intros i; cbn; [done|].
  destruct (is_live (as_status x)) eqn:Hx; [eauto|].
  destruct (oldest_terminal (S i) l) as [[k o]|]; [|done].
  by destruct (pair_cmp _ _ _ _).
Qed.

(** Pruning removes at most one session, a finished one, and only from a full list. *)
Lemma prune_cases l :
  (prune_terminal_sessions l = l ∧
   ((length l < MAX_RETAINED_SESSIONS)%nat ∨ Forall (λ s, is_live (as_status s) = true) l)) ∨
  (∃ l1 s l2, l = l1 ++ s :: l2 ∧ is_live (as_status s) = false ∧
   (MAX_RETAINED_SESSIONS ≤ length l)%nat ∧ prune_terminal_sessions l = l1 ++ l2).
Proof.
  unfold prune_terminal_sessions.
  destruct (Nat.ltb_spec (length l) MAX_RETAINED_SESSIONS) as [Hlt|Hge]; [by eauto|].
  destruct (oldest_terminal 0 l) as [[j s]|] eqn:Ho.
  - apply oldest_terminal_Some in Ho as (_ & Hl & Hs). rewrite Nat.sub_0_r in Hl. right.
    exists (take j l), s, (drop (S j) l). split_and!; [|done|done|by apply delete_take_drop].
    symmetry. by apply take_drop_middle.
  - left. split; [done|]. right. by eapply oldest_terminal_None.
Qed.

Lemma prune_subset l s : s ∈ prune_terminal_sessions l → s ∈ l.
Proof.
  destruct (prune_cases l) as [[-> _] | (l1 & v & l2 & -> & _ & _ & ->)]; [done|].
  rewrite !elem_of_app, elem_of_cons. tauto.
Qed.

Lemma prune_length l :
  (length l ≤ MAX_RETAINED_SESSIONS)%nat →
  (length l < MAX_RETAINED_SESSIONS)%nat ∨ Exists (λ s, is_live (as_status s) = false) l →
  (length (prune_terminal_sessions l) < MAX_RETAINED_SESSIONS)%nat.
Proof.
  intros Hle Hroom.
  destruct (prune_cases l) as [[-> [H|H]] | (l1 & v & l2 & -> & _ & _ & ->)]; [done| |].
  - destruct Hroom as [|Hex]; [done|]. exfalso. rewrite Forall_forall in H.
    apply Exists_exists in Hex as (s & Hs & Hd). rewrite (H s Hs) in Hd. done.
  - rewrite length_app in *. cbn in Hle. lia.
Qed.

(** ** Reading what was written *)

Section histories.
Context `{SessionJsonLaws}.

Lemma valid_session_decodable l :
  Forall (λ s, valid_session s = true) (al_sessions l) → ledger_decodable l.
Proof.
  intros Hall. eapply Forall_impl; [exact Hall|]. intros s Hv. apply valid_session_parts in Hv as (_ & _ & Hst & _).
  unfold valid_status in Hst. destruct (as_needs_input s) as [n|]; [|done].
  destruct (as_status s), (as_ended_at_unix_ms s), (as_failure s); cbn in Hst; try done.
Qed.

Lemma valid_list_spec l :
  valid_list l = true ↔ al_schema_version l = AGENT_SESSION_SCHEMA_VERSION ∧
    (length (al_sessions l) ≤ MAX_RETAINED_SESSIONS)%nat ∧
    Forall (λ s, valid_session s = true) (al_sessions l).
Proof.
  unfold valid_list. rewrite !andb_true_iff, N.eqb_eq, Nat.leb_le, forallb_spec, Forall_forall. tauto.
Qed.

Lemma read_locked_Ok env entry l :
  read_locked env entry = Ok l →
  valid_list l = true ∧ ∃ bytes, entry = RegularFile bytes ∧ ledger_from_json bytes = Some l.
Proof.
  destruct entry as [| | |bytes]; cbn; try done.
  intros (? & _ & Hr)%rbind_Ok. apply rbind_Ok in Hr as (? & _ & Hr).
  apply rbind_Ok in Hr as (l' & Hj & Hr). apply rbind_Ok in Hr as (? & Hg & [= <-]).
  apply guard_err_Ok, negb_false_iff in Hg. split; [done|]. exists bytes. split; [done|].
  destruct (ledger_from_json bytes); cbn in Hj; congruence.
Qed.

(** A written list that is valid can be read back, and nothing else can be read. *)
Lemma written_read l entry env :
  written l entry → valid_list l = true → en_readable env = true → read_locked env entry = Ok l.
Proof.
  intros (bytes & Hj & Hsz & ->) Hv Hr. cbn.
  apply N.ltb_ge in Hsz as ->. rewrite Hr. cbn.
  rewrite (ledger_round_trip l bytes); cbn; [by rewrite Hv| |done].
  by apply valid_session_decodable, valid_list_spec.
Qed.

Lemma written_read_inv l entry env l' :
  written l entry → read_locked env entry = Ok l' → l' = l.
Proof.
  intros (bytes & Hj & Hsz & ->) (Hv & b & [= <-] & Hb)%read_locked_Ok.
  destruct (decide (ledger_decodable l)) as [Hd|Hd].
  - rewrite (ledger_round_trip l bytes Hd Hj) in Hb. by injection Hb.
  - by rewrite (ledger_refuses l bytes Hd Hj) in Hb.
Qed.

Lemma written_invalid l entry env :
  written l entry → valid_list l = false →
  ∃ error, read_locked env entry = Err error.
Proof.
  intros Hw Hv. destruct (read_locked env entry) as [l'|e] eqn:Hr; [|by eauto]. exfalso.
  pose proof (written_read_inv _ _ _ _ Hw Hr) as ->.
  apply read_locked_Ok in Hr as [Hv' _]. congruence.
Qed.

(** ** The file stays readable *)

(** The list has room for a session, or a finished session that pruning can drop. *)
Definition room (env : SessionEnv) (call : SessionCall) (entry : LedgerEntry) : Prop :=
  ∀ new list now, session_launch env call new → sessions_now_unix_ms env = Ok now →
    read_locked env entry = Ok list →
    (length (al_sessions list) < MAX_RETAINED_SESSIONS)%nat ∨
    Exists (λ s, is_live (as_status s) = false) (al_sessions list).

(** Histories of calls in which the clock does not step back: the file and the latest time. *)
Inductive history : LedgerEntry → Z → Prop :=
| history_new : history Absent 0
| history_call entry last env call :
    history entry last → (last ≤ latest last env)%Z → call_ok call →
    is_nil (en_fresh env) = false → room env call entry →
    history (run_call env call entry).2 (latest last env).

Definition timely_entry (now : Z) (entry : LedgerEntry) : Prop :=
  entry = Absent ∨
  ∃ list, written list entry ∧ al_schema_version list = AGENT_SESSION_SCHEMA_VERSION ∧
    (length (al_sessions list) ≤ MAX_RETAINED_SESSIONS)%nat ∧
    Forall (timely now) (al_sessions list).

Lemma timely_valid_list now list :
  al_schema_version list = AGENT_SESSION_SCHEMA_VERSION →
  (length (al_sessions list) ≤ MAX_RETAINED_SESSIONS)%nat →
  Forall (timely now) (al_sessions list) → valid_list list = true.
Proof.
  intros Hv Hl Hf. apply valid_list_spec. split_and!; [done..|].
  eapply Forall_impl; [done|]. by intros s [? _].
Qed.

Lemma rule_keeps_dead env call s s' :
  is_live (as_status s) = false → rtc (session_rule env call) s s' → s' = s.
Proof.
  intros Hd Hr. inversion Hr as [|? y ? Hrule]; subst; [done|]. exfalso.
  assert (is_live (as_status s) = true); [|congruence].
  inversion Hrule; subst; try done; try by apply running_or_stopping_live.
  all: repeat match goal with H : as_status _ = _ |- _ => by rewrite H
       | H : _ ∨ _ |- _ => destruct H end.
Qed.

Lemma sessions_after_timely env call last before after :
  call_ok call → is_nil (en_fresh env) = false →
  (length before ≤ MAX_RETAINED_SESSIONS)%nat →
  (∀ new, session_launch env call new →
    (length before < MAX_RETAINED_SESSIONS)%nat ∨
    Exists (λ s, is_live (as_status s) = false) before) →
  Forall (timely (latest last env)) before →
  sessions_after env call before after →
  (length after ≤ MAX_RETAINED_SESSIONS)%nat ∧ Forall (timely (latest last env)) after.
Proof.
  intros Hok Hfresh Hlen Hroom Ht (moved & Hm & Hafter).
  assert (length moved = length before) as Hlm by (symmetry; by eapply Forall2_length).
  assert (Forall (timely (latest last env)) moved) as Htm.
  { clear -Hm Ht Hok. induction Hm; [done|]. apply Forall_cons in Ht as [??].
    constructor; [by eapply rules_timely|auto]. }
  destruct Hafter as [-> | (new & Hl & ->)]; [by rewrite Hlm|].
  rewrite length_app, Forall_app, Forall_singleton. cbn. split_and!.
  - assert (length (prune_terminal_sessions moved) < MAX_RETAINED_SESSIONS)%nat; [|lia].
    apply prune_length; [by rewrite Hlm|]. rewrite Hlm.
    destruct (Hroom new Hl) as [|Hex]; [by left|]. right.
    clear -Hex Hm. induction Hm as [|x y l k Hxy _ IH]; [by inversion Hex|].
    apply Exists_cons in Hex as [Hx|Hex]; [|right; auto]. left.
    by rewrite (rule_keeps_dead _ _ _ _ Hx Hxy).
  - rewrite Forall_forall in Htm |- *. intros s Hs%prune_subset. auto.
  - by apply (launch_timely env call).
Qed.

Lemma history_timely entry last : history entry last → timely_entry last entry.
Proof.
  induction 1 as [|entry last env call _ IH Hlast Hok Hfresh Hroom]; [by left|].
  assert (timely_entry (latest last env) entry) as Hmono.
  { destruct IH as [->|(list & ? & ? & ? & Hf)]; [by left|]. right. exists list.
    split_and!; [done..|]. eapply Forall_impl; [done|]. intros s. by apply timely_mono. }
  destruct (run_call_effect env call entry)
    as [reply _|d entry' -> _ Hw|list after reply entry' Hr Ha Hw _]; [done| |].
  - right. exists empty_list. split_and!; [done|done|cbn; lia|by apply Forall_nil].
  - right. destruct Hmono as [->|(list' & Hw' & Hv & Hl & Hf)]; [done|].
    pose proof (written_read_inv _ _ _ _ Hw' Hr) as ->.
    destruct (sessions_after_timely env call last (al_sessions list') after) as [Hl' Hf'];
      [done..| | |done|].
    + intros new Hn. assert (∃ now, sessions_now_unix_ms env = Ok now) as [now Hnow]
        by (inversion Hn; eauto). by apply (Hroom new list' now).
    + done.
    + exists (with_sessions list' after). by split_and!.
Qed.

(** C9: After any history in which the clock never steps back and a launch finds room, the ledger
    can be read. *)
Theorem ledger_stays_readable entry last env :
  history entry last → entry ≠ Absent → en_readable env = true →
  ∃ list, read_locked env entry = Ok list ∧
    (length (al_sessions list) ≤ MAX_RETAINED_SESSIONS)%nat ∧
    ∀ s, s ∈ al_sessions list →
      valid_session s = true ∧ (as_last_heartbeat_at_unix_ms s ≤ last)%Z.
Proof.
  intros [->|(list & Hw & Hv & Hl & Hf)]%history_timely Hne Hr; [done|].
  exists list. split_and!; [|done|].
  - apply written_read; [done| |done]. by eapply timely_valid_list.
  - intros s Hs. rewrite Forall_forall in Hf. by destruct (Hf s Hs) as (? & ? & _).
Qed.

(** ** Histories without conditions on the clock *)

Fixpoint run_calls (calls : list (SessionEnv * SessionCall)) (entry : LedgerEntry) :
    list (result SessionReply AgentSessionStoreError) * LedgerEntry :=
  match calls with
  | [] => ([], entry)
  | (env, call) :: calls' =>
      let '(reply, entry) := run_call env call entry in
      let '(replies, entry) := run_calls calls' entry in
      (reply :: replies, entry)
  end.

(** Every stored session with the identifier of [s] is [s]. *)
Definition only_as (s : AgentSession) (l : list AgentSession) : Prop :=
  ∀ s', s' ∈ l → as_session_id s' = as_session_id s → s' = s.

Lemma rules_identity env call s s' :
  rtc (session_rule env call) s s' → as_session_id s' = as_session_id s.
Proof.
  induction 1 as [|x y z Hr _ IH]; [done|]. rewrite IH. by inversion Hr; subst.
Qed.

Lemma sessions_after_only env call s before after :
  is_live (as_status s) = false → en_fresh env ≠ as_session_id s →
  only_as s before → sessions_after env call before after → only_as s after.
Proof.
  intros Hd Hfresh Honly (moved & Hm & Hafter).
  assert (only_as s moved) as Hmoved.
  { intros s' (i & Hi)%list_elem_of_lookup Hid.
    destruct (Forall2_lookup_r _ _ _ _ _ Hm Hi) as (s0 & Hi0 & Hr).
    apply list_elem_of_lookup_2 in Hi0. pose proof (rules_identity _ _ _ _ Hr).
    assert (s0 = s) as -> by (apply Honly; [done|congruence]).
    by apply (rule_keeps_dead _ _ _ _ Hd Hr). }
  destruct Hafter as [-> | (new & Hl & ->)]; [done|].
  intros s' [Hs'%prune_subset | ->%list_elem_of_singleton]%elem_of_app Hid; [by apply Hmoved|].
  exfalso. apply Hfresh. rewrite <- Hid. by inversion Hl.
Qed.

Lemma run_call_only env call entry s :
  is_live (as_status s) = false → en_fresh env ≠ as_session_id s →
  (∀ env l, read_locked env entry = Ok l → only_as s (al_sessions l)) →
  ∀ env' l, read_locked env' (run_call env call entry).2 = Ok l → only_as s (al_sessions l).
Proof.
  intros Hd Hfresh Hentry env' l.
  destruct (run_call_effect env call entry)
    as [reply _|d entry' _ _ Hw|list after reply entry' Hr Ha Hw _]; [apply Hentry| |].
  - intros Hr'. pose proof (written_read_inv _ _ _ _ Hw Hr') as ->.
    by intros s' ?%elem_of_nil.
  - intros Hr'. pose proof (written_read_inv _ _ _ _ Hw Hr') as ->.
    eapply sessions_after_only; [done..| |done]. by eapply Hentry.
Qed.

(** A session that has ended is never changed again: whatever calls follow, the ledger holds
    it as it was or no longer holds it. *)
Theorem finished_session_is_frozen calls entry env list s env' list' :
  read_locked env entry = Ok list →
  s ∈ al_sessions list → is_live (as_status s) = false →
  NoDup (as_session_id <$> al_sessions list) →
  Forall (λ c, en_fresh c.1 ≠ as_session_id s) calls →
  read_locked env' (run_calls calls entry).2 = Ok list' →
  ∀ s', s' ∈ al_sessions list' → as_session_id s' = as_session_id s → s' = s.
Proof.
  intros Hr Hs Hd Hnd Hfresh.
  assert (∀ env l, read_locked env entry = Ok l → only_as s (al_sessions l)) as Hstart.
  { intros env0 l Hl. apply read_locked_Ok in Hr as (_ & b & -> & Hb).
    apply read_locked_Ok in Hl as (_ & ? & [= <-] & Hb'). rewrite Hb in Hb'.
    injection Hb' as <-. intros s' Hs' Hid. by eapply NoDup_key_inj. }
  clear Hr Hs Hnd. revert entry Hstart Hfresh.
  induction calls as [|[e c] calls IH]; intros entry Hstart Hfresh; cbn; [by apply Hstart|].
  apply Forall_cons in Hfresh as [Hf Hfresh]. cbn in Hf.
  pose proof (run_call_only e c entry s Hd Hf Hstart) as Hnext.
  destruct (run_call e c entry) as [reply entry']. cbn in Hnext.
  specialize (IH entry' Hnext Hfresh). by destruct (run_calls calls entry').
Qed.

(** ** A file no call accepts *)

Definition refused (entry : LedgerEntry) : Prop :=
  ∃ bytes, entry = RegularFile bytes ∧
    ∀ env, ∃ error, read_locked env entry = Err error.

Lemma refused_change env entry recover id accepts persist change :
  refused entry →
  ∃ error, change_session env entry recover id accepts persist change = (Err error, entry).
Proof. intros (b & _ & Hr). destruct (Hr env) as [e He]. exists e. unfold change_session. by rewrite He. Qed.

Lemma refused_at_now {A} env entry (k : Z → result A AgentSessionStoreError * LedgerEntry) :
  (∀ now, ∃ error, k now = (Err error, entry)) → ∃ error, at_now env entry k = (Err error, entry).
Proof. intros Hk. unfold at_now. destruct (sessions_now_unix_ms env); [auto|by eauto]. Qed.

Lemma refused_call env call entry :
  refused entry → ∃ error, run_call env call entry = (Err error, entry).
Proof.
  intros Href.
  assert (∀ A (f : A → SessionReply) (outcome : result A AgentSessionStoreError * LedgerEntry),
    (∃ error, outcome = (Err error, entry)) →
    ∃ error, replying f outcome = (Err error, entry)) as Hreply.
  { intros A f ? [e ->]. by exists e. }
  destruct Href as (b & -> & Hr); pose proof (Hr env) as [e He].
  destruct call; cbn [run_call]; apply Hreply;
    unfold open_store, set_change_request_proposals, set_mr_link_proposals, list_sessions;
    try apply refused_at_now; intros; unfold add_session, list_at.
  all: repeat case_match; subst; try (by eauto); try congruence.
  all: try apply refused_at_now; intros; apply refused_change; by exists b.
Qed.

Lemma refused_calls calls entry :
  refused entry →
  (run_calls calls entry).2 = entry ∧
  Forall (λ reply, is_ok reply = false) (run_calls calls entry).1.
Proof.
  intros Href. induction calls as [|[env call] calls IH]; [by split|]. cbn.
  destruct (refused_call env call entry Href) as [e ->].
  destruct (run_calls calls entry). cbn in *. destruct IH as [-> IH]. split; [done|]. by constructor.
Qed.

Lemma write_then_Ok {A} env list entry (reply : result A AgentSessionStoreError) a entry' :
  write_then env list entry reply = (Ok a, entry') → reply = Ok a ∧ written list entry'.
Proof.
  intros Hw. destruct (write_then_cases env list entry reply) as [[e He]|(e' & He & Hwr)];
    rewrite Hw in He; naive_solver.
Qed.

Lemma change_session_Ok env entry recover id accepts persist change s' entry' :
  change_session env entry recover id accepts persist change = (Ok s', entry') →
  ∃ list s, read_locked env entry = Ok list ∧ find_session id (recover (al_sessions list)) = Some s ∧
    accepts (as_status s) = true ∧ s' = change s ∧
    written (with_sessions list (replace_session id s' (recover (al_sessions list)))) entry'.
Proof.
  unfold change_session. destruct (read_locked env entry) as [list|e]; [|done].
  destruct (find_session id _) as [s|] eqn:Hf; [|done]. cbn zeta.
  destruct (accepts (as_status s)) eqn:Ha; cbn [negb].
  - intros [[= <-] Hw]%write_then_Ok. by exists list, s.
  - destruct persist; [|done]. by intros [[=] _]%write_then_Ok.
Qed.

Lemma invalid_session_refused list entry s :
  written list entry → s ∈ al_sessions list → valid_session s = false → refused entry.
Proof.
  intros Hw Hs Hv. assert (valid_list list = false) as Hl.
  { apply not_true_is_false. intros (_ & _ & Hf)%valid_list_spec.
    rewrite Forall_forall in Hf. by rewrite (Hf s Hs) in Hv. }
  destruct Hw as (b & ? & ? & ->). exists b. split; [done|]. intros env.
  eapply written_invalid; [|done]. by exists b.
Qed.

(** C11: A heartbeat at a time before the session's start answers [Ok], and after it every call
    fails and the file never changes again. *)
Theorem clock_step_back_is_fatal env id entry s entry' now calls :
  run_call env (Heartbeat id) entry = (Ok (OneSession s), entry') →
  sessions_now_unix_ms env = Ok now → (now < as_started_at_unix_ms s)%Z →
  (run_calls calls entry').2 = entry' ∧
  Forall (λ reply, is_ok reply = false) (run_calls calls entry').1.
Proof.
  intros Hrun Hn Hlt. apply refused_calls. revert Hrun. cbn. unfold heartbeat, at_now. rewrite Hn.
  unfold replying. destruct (update_running_at _ _ _ _ _) as [[s0|e] entry0] eqn:Hu; [|done].
  cbn. intros [= -> ->].
  apply change_session_Ok in Hu as (list & s0 & Hr & Hf & Hacc & -> & Hw).
  eapply invalid_session_refused; [done|by eapply replace_session_elem|].
  apply not_true_is_false. intros (_ & Ht & _)%valid_session_parts. cbn in *. lia.
Qed.

(** C12: With 4096 live sessions in the list a launch answers [Ok] and stores a list of 4097, which
    no later call accepts. *)
Theorem launch_over_full_ledger_is_fatal env w p t c entry list now s entry' calls :
  read_locked env entry = Ok list → sessions_now_unix_ms env = Ok now →
  length (al_sessions list) = MAX_RETAINED_SESSIONS →
  Forall (λ s, is_live (as_status s) = true ∧ is_stale now s = false) (al_sessions list) →
  run_call env (BeginLaunch w p t c) entry = (Ok (OneSession s), entry') →
  (run_calls calls entry').2 = entry' ∧
  Forall (λ reply, is_ok reply = false) (run_calls calls entry').1.
Proof.
  intros Hr Hn Hlen Hlive Hrun. apply refused_calls. revert Hrun.
  cbn [run_call]. unfold begin_launch, at_now. rewrite Hn. unfold add_session. rewrite Hr.
  assert (recovered now (al_sessions list) = al_sessions list) as ->.
  { unfold recovered; cbn. clear -Hlive. induction Hlive as [|x l [_ Hx] _ IH]; [done|]. cbn.
    unfold recover_stale_session at 1. by rewrite Hx, IH. }
  destruct (prune_cases (al_sessions list)) as [[-> _]|(l1 & v & l2 & Heq & Hv & _)].
  - unfold replying. destruct (write_then _ _ _ _) as [[s0|e] entry0] eqn:Hw; [|done].
    cbn. intros [= _ ->]. apply write_then_Ok in Hw as [_ Hw].
    assert (valid_list (with_sessions list (al_sessions list ++
      [new_session w p t c Launching (en_fresh env) now])) = false) as Hl.
    { apply not_true_is_false. intros (_ & Hlt & _)%valid_list_spec.
      cbn [al_sessions with_sessions] in Hlt. rewrite length_app, Hlen in Hlt. cbn [length] in Hlt. lia. }
    destruct Hw as (b & Hj & Hsz & ->). exists b. split; [done|]. intros env'.
    eapply written_invalid; [|exact Hl]. by exists b.
  - exfalso. rewrite Heq, Forall_app, Forall_cons in Hlive. destruct Hlive as (_ & [Hlv _] & _). congruence.
Qed.
End histories.
