(* ===== verification/SessionLifecycle.v ===== *)
(** * The ledger as a map from identifiers to statuses

    The abstract machine of a session's life, and the proof that each call of the store is a
    sequence of its steps. *)

From S2P Require Import Prelude Order Text StoreBase Sessions SessionRules SessionProofs.

Local Open Scope N_scope.

(** ** The abstract machine *)

Inductive status_edge : AgentSessionStatus → AgentSessionStatus → Prop :=
| launch_handed_off : status_edge Launching HandoffAccepted
| launch_owned : status_edge Launching Running
| launch_failed : status_edge Launching Failed
| launch_stopped : status_edge Launching Stopping
| launch_interrupted : status_edge Launching Interrupted
| run_stopped : status_edge Running Stopping
| run_completed : status_edge Running Completed
| run_failed : status_edge Running Failed
| run_interrupted : status_edge Running Interrupted
| stop_completed : status_edge Stopping Completed
| stop_failed : status_edge Stopping Failed
| stop_interrupted : status_edge Stopping Interrupted.

Abbreviation Lifecycle := (gmap N AgentSessionStatus).

Inductive lifecycle_step : Lifecycle → Lifecycle → Prop :=
| step_move (m : Lifecycle) id a b :
    m !! id = Some a → status_edge a b → lifecycle_step m (<[id := b]> m)
| step_forget (m : Lifecycle) id a :
    m !! id = Some a → is_live a = false → lifecycle_step m (delete id m)
| step_launch (m : Lifecycle) id a :
    m !! id = None → a = Launching ∨ a = Running → lifecycle_step m (<[id := a]> m).

(** The abstraction of a stored list. *)
Definition statuses (l : list AgentSession) : Lifecycle :=
  list_to_map ((λ s, (as_session_id s, as_status s)) <$> l).

#[export] Hint Constructors status_edge lifecycle_step : sessions.

(** ** The abstraction of lists with distinct identifiers *)

Lemma statuses_app l k : statuses (l ++ k) = statuses l ∪ statuses k.
Proof. unfold statuses. by rewrite fmap_app, list_to_map_app. Qed.

Lemma statuses_cons s l : statuses (s :: l) = <[as_session_id s := as_status s]> (statuses l).
Proof. done. Qed.

Lemma statuses_None l id : statuses l !! id = None ↔ id ∉ as_session_id <$> l.
Proof. unfold statuses. rewrite <- not_elem_of_list_to_map, <- list_fmap_compose. done. Qed.

Lemma statuses_lookup l s :
  NoDup (as_session_id <$> l) → s ∈ l → statuses l !! as_session_id s = Some (as_status s).
Proof.
  intros Hnd Hs. unfold statuses. apply elem_of_list_to_map_1.
  - by rewrite <- list_fmap_compose.
  - apply list_elem_of_fmap. eauto.
Qed.

Lemma statuses_replace l1 s s' l2 :
  as_session_id s' = as_session_id s → (as_session_id s ∉ as_session_id <$> l1) →
  statuses (l1 ++ s' :: l2) = <[as_session_id s := as_status s']> (statuses (l1 ++ s :: l2)).
Proof.
  intros Hid Hn. apply statuses_None in Hn. rewrite !statuses_app, !statuses_cons, Hid.
  rewrite <- !insert_union_r by done. by rewrite insert_insert_eq.
Qed.

Lemma statuses_remove l1 s l2 :
  (as_session_id s ∉ as_session_id <$> (l1 ++ l2)) →
  statuses (l1 ++ l2) = delete (as_session_id s) (statuses (l1 ++ s :: l2)).
Proof.
  rewrite fmap_app, not_elem_of_app. intros [H1 H2]. apply statuses_None in H1, H2.
  rewrite !statuses_app, statuses_cons, <- insert_union_r by done.
  rewrite delete_insert_id; [done|]. by apply lookup_union_None.
Qed.

(** ** One session *)

Lemma rule_edge env call s s' :
  session_rule env call s s' → as_status s' = as_status s ∨ status_edge (as_status s) (as_status s').
Proof.
  inversion 1; subst; cbn; auto;
    repeat match goal with
    | H : as_status s = _ |- _ => rewrite H
    | H : _ ∨ _ |- _ => destruct H as [H|H]
    | H : running_or_stopping _ = true |- _ => destruct (as_status s); try discriminate H; clear H
    | H : is_live _ = true |- _ => destruct (as_status s); try discriminate H; clear H
    end; auto with sessions.
Qed.

Lemma rule_refines env call l1 s s' l2 :
  session_rule env call s s' → NoDup (as_session_id <$> (l1 ++ s :: l2)) →
  rtc lifecycle_step (statuses (l1 ++ s :: l2)) (statuses (l1 ++ s' :: l2)).
Proof.
  intros Hr Hnd. assert (as_session_id s' = as_session_id s) as Hid by (by inversion Hr).
  assert (statuses (l1 ++ s :: l2) !! as_session_id s = Some (as_status s)) as Hl.
  { apply statuses_lookup; [done|]. apply elem_of_app. right. by left. }
  rewrite (statuses_replace l1 s s' l2 Hid).
  - destruct (rule_edge _ _ _ _ Hr) as [-> | He]; [by rewrite insert_id|].
    apply rtc_once. by eapply step_move.
  - rewrite fmap_app in Hnd. apply NoDup_app in Hnd as (_ & Hn & _). intros Hin.
    apply (Hn _ Hin). cbn. by left.
Qed.

Lemma rules_refine env call l1 s s' l2 :
  rtc (session_rule env call) s s' → NoDup (as_session_id <$> (l1 ++ s :: l2)) →
  rtc lifecycle_step (statuses (l1 ++ s :: l2)) (statuses (l1 ++ s' :: l2)).
Proof.
  induction 1 as [|x y z Hr _ IH]; intros Hnd; [done|].
  etrans; [by eapply rule_refines|]. apply IH.
  assert (as_session_id y = as_session_id x) as Hid by (by inversion Hr).
  revert Hnd. rewrite !fmap_app, !fmap_cons. by rewrite Hid.
Qed.

(** ** One call *)

Lemma same_ids env call before moved :
  Forall2 (rtc (session_rule env call)) before moved →
  as_session_id <$> moved = as_session_id <$> before.
Proof.
  induction 1 as [|x y l k Hxy _ IH]; [done|]. cbn. rewrite IH.
  by rewrite (rules_identity _ _ _ _ Hxy).
Qed.

Lemma moved_refines env call l1 before moved :
  Forall2 (rtc (session_rule env call)) before moved →
  NoDup (as_session_id <$> (l1 ++ before)) →
  rtc lifecycle_step (statuses (l1 ++ before)) (statuses (l1 ++ moved)).
Proof.
  intros Hm. revert l1; induction Hm as [|x y l k Hxy Hlk IH]; intros l1 Hnd; [done|].
  etrans; [by eapply rules_refine|].
  pose proof (IH (l1 ++ [y])) as Hrest. rewrite <- !app_assoc in Hrest. apply Hrest.
  revert Hnd. rewrite !fmap_app, !fmap_cons. cbn. by rewrite (rules_identity _ _ _ _ Hxy).
Qed.

Lemma prune_refines l :
  NoDup (as_session_id <$> l) →
  NoDup (as_session_id <$> prune_terminal_sessions l) ∧
  rtc lifecycle_step (statuses l) (statuses (prune_terminal_sessions l)).
Proof.
  intros Hnd. destruct (prune_cases l) as [[-> _]|(l1 & v & l2 & -> & Hv & _ & ->)]; [done|].
  assert (NoDup (as_session_id <$> v :: l1 ++ l2)) as Hnd'.
  { by rewrite Permutation_middle. }
  rewrite fmap_cons, NoDup_cons in Hnd'. destruct Hnd' as [Hn Hnd']. split; [done|].
  rewrite (statuses_remove l1 v l2 Hn). apply rtc_once. eapply step_forget; [|done].
  apply statuses_lookup; [done|]. apply elem_of_app. right. by left.
Qed.

Lemma sessions_after_refines env call before after :
  NoDup (as_session_id <$> before) → (en_fresh env ∉ as_session_id <$> before) →
  sessions_after env call before after →
  NoDup (as_session_id <$> after) ∧ rtc lifecycle_step (statuses before) (statuses after).
Proof.
  intros Hnd Hfresh (moved & Hm & Hafter).
  pose proof (same_ids _ _ _ _ Hm) as Hids.
  assert (rtc lifecycle_step (statuses before) (statuses moved)) as Hmoved
    by exact (moved_refines env call [] before moved Hm Hnd).
  destruct Hafter as [-> | (new & Hl & ->)]; [by rewrite Hids|].
  assert (NoDup (as_session_id <$> moved)) as Hndm by (by rewrite Hids).
  apply prune_refines in Hndm as [Hndp Hprune].
  assert (as_session_id new ∉ as_session_id <$> prune_terminal_sessions moved) as Hn.
  { intros (s & Hs & Hin%prune_subset)%list_elem_of_fmap. apply Hfresh. rewrite <- Hids.
    apply list_elem_of_fmap. exists s. split; [|done]. rewrite <- Hs. by inversion Hl. }
  split.
  - rewrite fmap_app, NoDup_app. split_and!; [done| |apply NoDup_singleton].
    intros x Hx ->%list_elem_of_singleton. done.
  - etrans; [done|]. etrans; [exact Hprune|]. apply rtc_once.
    rewrite statuses_app, statuses_cons. apply statuses_None in Hn.
    rewrite <- insert_union_r by done. change (statuses []) with (∅ : Lifecycle).
    rewrite map_union_empty.
    apply step_launch; [done|]. inversion Hl; cbn; auto.
Qed.

Section refinement.
Context `{SessionJsonLaws}.

(** C10: Each call takes the map from identifiers to statuses through steps of the machine: a
    session moves along its lifecycle, only a finished one is dropped, only a new identifier is
    added. *)
Theorem ledger_refines_lifecycle env call entry list env' list' :
  read_locked env entry = Ok list →
  NoDup (as_session_id <$> al_sessions list) →
  (en_fresh env ∉ as_session_id <$> al_sessions list) →
  read_locked env' (run_call env call entry).2 = Ok list' →
  NoDup (as_session_id <$> al_sessions list') ∧
  rtc lifecycle_step (statuses (al_sessions list)) (statuses (al_sessions list')).
Proof.
  intros Hr Hnd Hfresh.
  destruct (run_call_effect env call entry)
    as [reply _|d entry' _ He Hw|list0 after reply entry' Hr0 Ha Hw _].
  - intros Hr'. apply read_locked_Ok in Hr as (_ & b & -> & Hb).
    apply read_locked_Ok in Hr' as (_ & ? & [= <-] & Hb'). rewrite Hb in Hb'.
    by injection Hb' as <-.
  - exfalso. destruct He; subst; done.
  - intros Hr'. pose proof (written_read_inv _ _ _ _ Hw Hr') as ->.
    rewrite Hr in Hr0. injection Hr0 as <-. by eapply sessions_after_refines.
Qed.
End refinement.
