(* ===== verification/SessionWitnesses.v ===== *)
(** * Concrete histories of the agent session ledger

    An instance of the JSON codec that obeys its laws, and the theorems about the ledger
    applied to concrete calls. *)

From S2P Require Import Prelude Order Text StoreBase StoreSample.
From S2P Require Import Sessions SessionRules SessionProofs SessionLifecycle.

Local Open Scope N_scope.

(** ** A codec *)

#[export] Instance codec_needs_input : Codec AgentNeedsInput.
Proof.
  refine (codec_via (λ n, (match ni_kind n with Question => 0 | Access => 1 end, ni_detail n))
    (λ '(k, d), {| ni_kind := match k with 0 => Question | _ => Access end; ni_detail := d |}) _).
  by intros [[] ?].
Defined.

#[export] Instance codec_mr_link : Codec AgentMrLinkProposal.
Proof.
  refine (codec_via (λ p, (ml_schema_version p, ml_repository_id p, ml_iid p))
    (λ '(a, b, c), {| ml_schema_version := a; ml_repository_id := b; ml_iid := c |}) _).
  by intros [].
Defined.

#[export] Instance codec_cr_verification : Codec AgentChangeRequestVerification.
Proof.
  refine (codec_via
    (λ v, (match cv_status v with NotReported => 0 | Passed => 1 | Partial => 2
           | VerificationFailed => 3 end, cv_summary v))
    (λ '(k, d), {| cv_status := match k with 0 => NotReported | 1 => Passed | 2 => Partial
                                | _ => VerificationFailed end; cv_summary := d |}) _).
  by intros [[] ?].
Defined.

#[export] Instance codec_cr_proposal : Codec AgentChangeRequestProposal.
Proof.
  refine (codec_via
    (λ p, (cp_schema_version p, cp_repository_id p, cp_source_head_commit_oid p, cp_title p,
           cp_body p, cp_issue_keys p, cp_verification p))
    (λ '(a, b, c, d, e, f, g), {| cp_schema_version := a; cp_repository_id := b;
       cp_source_head_commit_oid := c; cp_title := d; cp_body := e; cp_issue_keys := f;
       cp_verification := g |}) _).
  by intros [].
Defined.

#[export] Instance codec_session : Codec AgentSession.
Proof.
  refine (codec_via
    (λ s, (as_schema_version s, as_session_id s, as_workspace_id s,
           match as_provider s with CodexAgent => 0 | OpenCodeAgent => 1 | HermesAgent => 2
           | CopilotAgent => 3 end,
           match as_terminal s with TerminalApp => 0 | Warp => 1 end,
           match as_category s with Uncategorized => 0 | Ideation => 1 | Investigation => 2
           | Implementation => 3 | Verification => 4 | ReviewWork => 5 | Other => 6 end,
           match as_status s with Launching => 0 | HandoffAccepted => 1 | Running => 2
           | Stopping => 3 | Completed => 4 | Failed => 5 | Interrupted => 6 end,
           as_started_at_unix_ms s, as_last_heartbeat_at_unix_ms s, as_ended_at_unix_ms s,
           match as_failure s with None => 0 | Some LaunchRejected => 1 | Some ProviderFailed => 2
           | Some ProcessExited => 3 | Some StaleHeartbeat => 4 | Some LaunchOutcomeUnknown => 5
           | Some UserStopped => 6 end,
           as_needs_input s, as_change_request_proposals s, as_mr_link_proposals s))
    (λ '(a, b, c, p, t, k, st, d, e, f, x, g, h, i),
       {| as_schema_version := a; as_session_id := b; as_workspace_id := c;
          as_provider := match p with 0 => CodexAgent | 1 => OpenCodeAgent | 2 => HermesAgent
            | _ => CopilotAgent end;
          as_terminal := match t with 0 => TerminalApp | _ => Warp end;
          as_category := match k with 0 => Uncategorized | 1 => Ideation | 2 => Investigation
            | 3 => Implementation | 4 => Verification | 5 => ReviewWork | _ => Other end;
          as_status := match st with 0 => Launching | 1 => HandoffAccepted | 2 => Running
            | 3 => Stopping | 4 => Completed | 5 => Failed | _ => Interrupted end;
          as_started_at_unix_ms := d; as_last_heartbeat_at_unix_ms := e;
          as_ended_at_unix_ms := f;
          as_failure := match x with 0 => None | 1 => Some LaunchRejected
            | 2 => Some ProviderFailed | 3 => Some ProcessExited | 4 => Some StaleHeartbeat
            | 5 => Some LaunchOutcomeUnknown | _ => Some UserStopped end;
          as_needs_input := g; as_change_request_proposals := h; as_mr_link_proposals := i |}) _).
  by intros [? ? ? [] [] [] [] ? ? ? [[]|] ? ? ?].
Defined.

#[export] Instance codec_ledger : Codec AgentSessionList.
Proof.
  refine (codec_via (λ l, (al_schema_version l, al_sessions l))
    (λ '(a, b), {| al_schema_version := a; al_sessions := b |}) _).
  by intros [].
Defined.

Definition decode_ledger (bytes : list N) : option AgentSessionList :=
  match de bytes with
  | Some (list, _) => if decide (ledger_decodable list) then Some list else None
  | None => None
  end.

Lemma decode_ledger_ser list :
  decode_ledger (ser list) = if decide (ledger_decodable list) then Some list else None.
Proof.
  unfold decode_ledger. pose proof (de_ser list []) as Hd. rewrite app_nil_r in Hd. by rewrite Hd.
Qed.

#[export] Instance sample_session_json : SessionJson := {|
  ledger_to_json list := Some (ser list);
  ledger_from_json := decode_ledger
|}.

#[export] Instance sample_session_json_laws : SessionJsonLaws.
Proof.
  split; [by eauto| |]; intros list bytes Hd Hb;
    assert (bytes = ser list) as -> by (by apply (inj Some));
    change (ledger_from_json (ser list)) with (decode_ledger (ser list));
    rewrite decode_ledger_ser; by case_decide.
Qed.

(** ** Concrete calls *)

Definition sample_env (now : N) (fresh : Uuid) : SessionEnv :=
  {| en_directory := true; en_readable := true; en_writable := true; en_elapsed := Some now;
     en_fresh := fresh |}.

Definition sample_open : SessionCall := OpenStore (lit "/data").
Definition sample_start : SessionCall := Start 5 CodexAgent TerminalApp Implementation.

(** The ledger after its creation at 1000 and the start of session 7 at 2000. *)
Definition started_ledger : LedgerEntry :=
  (run_call (sample_env 2000 7) sample_start (run_call (sample_env 1000 1) sample_open Absent).2).2.

Definition running_session : AgentSession :=
  new_session 5 CodexAgent TerminalApp Implementation Running 7 2000.

Definition one_session (s : AgentSession) : AgentSessionList :=
  {| al_schema_version := 1; al_sessions := [s] |}.

Lemma started_ledger_read :
  read_locked (sample_env 3000 9) started_ledger = Ok (one_session running_session).
Proof. vm_compute. reflexivity. Qed.

Lemma started_history : history started_ledger 2000.
Proof.
  change 2000%Z with (latest (latest 0 (sample_env 1000 1)) (sample_env 2000 7)).
  unfold started_ledger. apply history_call; [|by vm_compute|done|done|].
  - apply history_call; [constructor|by vm_compute|done|done|]. intros new l now H. inversion H.
  - intros new l now _ _ Hr. left.
    assert (l = {| al_schema_version := 1; al_sessions := [] |}) as ->; [|vm_compute; lia].
    vm_compute in Hr. by injection Hr as <-.
Qed.

Lemma ledger_stays_readable_witness :
  ∃ list, read_locked (sample_env 3000 9) started_ledger = Ok list ∧
    (length (al_sessions list) ≤ MAX_RETAINED_SESSIONS)%nat ∧
    ∀ s, s ∈ al_sessions list →
      valid_session s = true ∧ (as_last_heartbeat_at_unix_ms s ≤ 2000)%Z.
Proof.
  apply (ledger_stays_readable started_ledger 2000 (sample_env 3000 9)).
  - apply started_history.
  - discriminate.
  - reflexivity.
Defined.

(** The session completed at 3000. *)
Definition completed_session : AgentSession :=
  with_state running_session Completed 3000 (Some 3000%Z) None None.
Definition completed_ledger : LedgerEntry :=
  (run_call (sample_env 3000 9) (Finish 7) started_ledger).2.

Lemma completed_ledger_read now fresh :
  read_locked (sample_env now fresh) completed_ledger = Ok (one_session completed_session).
Proof. vm_compute. reflexivity. Qed.

(** Another session is started and the finished one receives a heartbeat, which is refused. *)
Definition later_calls : list (SessionEnv * SessionCall) :=
  [(sample_env 4000 8, sample_start); (sample_env 900000 10, Heartbeat 7)].

Definition interrupted_session : AgentSession :=
  with_state (new_session 5 CodexAgent TerminalApp Implementation Running 8 4000)
    Interrupted 4000 (Some 900000%Z) (Some StaleHeartbeat) None.

Lemma later_calls_read :
  read_locked (sample_env 900000 11) (run_calls later_calls completed_ledger).2
  = Ok {| al_schema_version := 1; al_sessions := [completed_session; interrupted_session] |}.
Proof. vm_compute. reflexivity. Qed.

Lemma finished_session_is_frozen_witness :
  Forall (λ s', as_session_id s' = as_session_id completed_session → s' = completed_session)
    [completed_session; interrupted_session].
Proof.
  apply Forall_forall.
  refine (finished_session_is_frozen later_calls completed_ledger (sample_env 0 0) _
    completed_session (sample_env 900000 11) _ (completed_ledger_read 0 0) _ _ _ _
    later_calls_read).
  - left.
  - reflexivity.
  - apply NoDup_singleton.
  - apply Forall_cons; split; [discriminate|]. apply Forall_cons; split; [discriminate|].
    apply Forall_nil; exact I.
Defined.

Lemma ledger_refines_lifecycle_witness :
  rtc lifecycle_step (statuses [running_session]) (statuses [completed_session]).
Proof.
  refine (proj2 (ledger_refines_lifecycle (sample_env 3000 9) (Finish 7) started_ledger _
    (sample_env 0 0) _ started_ledger_read _ _ (completed_ledger_read 0 0))).
  - apply NoDup_singleton.
  - intros Hin. apply list_elem_of_singleton in Hin. discriminate Hin.
Defined.

(** A heartbeat at 1500, before the start at 2000. *)
Definition broken_session : AgentSession :=
  with_state running_session Running 1500 None None None.
Definition broken_ledger : LedgerEntry :=
  (run_call (sample_env 1500 9) (Heartbeat 7) started_ledger).2.

Lemma heartbeat_accepted :
  run_call (sample_env 1500 9) (Heartbeat 7) started_ledger
  = (Ok (OneSession broken_session), broken_ledger).
Proof. vm_compute. reflexivity. Qed.

Lemma clock_step_back_is_fatal_witness :
  (run_calls later_calls broken_ledger).2 = broken_ledger ∧
  Forall (λ reply, is_ok reply = false) (run_calls later_calls broken_ledger).1.
Proof.
  apply (clock_step_back_is_fatal (sample_env 1500 9) 7 started_ledger broken_session
    broken_ledger 1500).
  - apply heartbeat_accepted.
  - reflexivity.
  - reflexivity.
Defined.

(** 4096 running sessions. *)
Definition full_list : AgentSessionList :=
  {| al_schema_version := 1;
     al_sessions := (λ i, new_session 5 CodexAgent TerminalApp Implementation Running
                            (N.of_nat (S i)) 2000) <$> seq 0 4096 |}.
Definition full_ledger : LedgerEntry := RegularFile (ser full_list).
Definition launch_into_full :
    result SessionReply AgentSessionStoreError * LedgerEntry :=
  run_call (sample_env 3000 9999) (BeginLaunch 5 CodexAgent TerminalApp Implementation) full_ledger.

Lemma full_ledger_read : read_locked (sample_env 3000 9999) full_ledger = Ok full_list.
Proof. vm_compute. reflexivity. Qed.

Lemma full_list_live :
  Forall (λ s, is_live (as_status s) = true ∧ is_stale 3000 s = false) (al_sessions full_list).
Proof. apply Forall_fmap, Forall_forall. intros i _. by split. Qed.

Lemma launch_accepted :
  launch_into_full.1
  = Ok (OneSession (new_session 5 CodexAgent TerminalApp Implementation Launching 9999 3000)).
Proof. vm_compute. reflexivity. Qed.

Lemma launch_over_full_ledger_is_fatal_witness :
  (run_calls later_calls launch_into_full.2).2 = launch_into_full.2 ∧
  Forall (λ reply, is_ok reply = false) (run_calls later_calls launch_into_full.2).1.
Proof.
  apply (launch_over_full_ledger_is_fatal (sample_env 3000 9999) 5 CodexAgent TerminalApp
    Implementation full_ledger full_list 3000
    (new_session 5 CodexAgent TerminalApp Implementation Launching 9999 3000)).
  - apply full_ledger_read.
  - reflexivity.
  - unfold full_list, al_sessions. rewrite length_fmap, length_seq. reflexivity.
  - apply full_list_live.
  - change (launch_into_full = (Ok (OneSession (new_session 5 CodexAgent TerminalApp
      Implementation Launching 9999 3000)), launch_into_full.2)).
    rewrite <- launch_accepted. apply surjective_pairing.
Defined.
