(* ===== verification/TimeReview.v ===== *)
(** * Time reviews ([crates/wts-app/src/time_review.rs])

    [build_time_review_draft] turns attention intervals into groups of disjoint segments by a
    sweep over their end points; [time_review_schedule_state] decides whether a daily review is
    due.  The sweep is proved equal to the decision at every single instant, and its sums to be
    the number of milliseconds with attention. *)

From stdpp Require Import sorting.
From S2P Require Import Prelude Order Text StoreBase.

Local Open Scope Z_scope.

Definition SANITIZED_ATTENTION_SCHEMA_VERSION : N := 1.
Definition TIME_REVIEW_SCHEMA_VERSION : N := 1.
Definition MAX_SANITIZED_ATTENTION_INTERVALS : nat := Z.to_nat 4096.
Definition MILLIS_PER_MINUTE : Z := 60000.
Definition MILLIS_PER_DAY : Z := 24 * 60 * MILLIS_PER_MINUTE.
Definition MAX_UTC_OFFSET_MINUTES : Z := 14 * 60.
Definition MAX_PROJECT_KEY_BYTES : N := 32.
Definition MAX_ISSUE_NUMBER_BYTES : N := 18.
Definition MAX_PROPOSAL_SUMMARY_CHARS : nat := 240.

(** ** Data *)

Inductive TimeAttribution :=
| ExistingJira (issue_key : str)
| CreateTicketProposal (project_key : option str) (summary : str)
| Unassigned.

#[export] Instance attribution_eq_dec : EqDecision TimeAttribution.
Proof. solve_decision. Defined.

Record SanitizedAttentionInterval := {
  ai_schema_version : N;
  ai_started_at_unix_ms : Z;
  ai_ended_at_unix_ms : Z;
  ai_workspace_id : option Uuid;
  ai_attribution : TimeAttribution
}.

Record TimeReviewSegment := {
  ts_started_at_unix_ms : Z;
  ts_ended_at_unix_ms : Z
}.

Record TimeReviewGroup := {
  tg_workspace_id : option Uuid;
  tg_attribution : TimeAttribution;
  tg_attention_ms : Z;
  tg_segments : list TimeReviewSegment
}.

Record TimeReviewDraft := {
  td_schema_version : N;
  td_total_attention_ms : Z;
  td_unassigned_attention_ms : Z;
  td_groups : list TimeReviewGroup
}.

Inductive TimeReviewError :=
| TooManyIntervals | InvalidInterval | InvalidAttribution | InvalidSchedule.

Record GroupKey := {
  gk_workspace_id : option Uuid;
  gk_attribution : TimeAttribution
}.

#[export] Instance group_key_eq_dec : EqDecision GroupKey.
Proof. solve_decision. Defined.

(** The derived [Ord]: variants in their order, then their fields. *)
Definition attribution_fields (attribution : TimeAttribution) : N * (option str * str) :=
  match attribution with
  | ExistingJira issue_key => (0%N, (Some issue_key, []))
  | CreateTicketProposal project_key summary => (1%N, (project_key, summary))
  | Unassigned => (2%N, (None, []))
  end.

Definition attribution_cmp : TimeAttribution → TimeAttribution → comparison :=
  cmp_on attribution_fields (pair_cmp N.compare (pair_cmp (option_cmp str_cmp) str_cmp)).

Definition group_key_cmp : GroupKey → GroupKey → comparison :=
  cmp_on (λ k, (gk_workspace_id k, gk_attribution k))
    (pair_cmp (option_cmp N.compare) attribution_cmp).

(** ** Validation *)

Definition valid_project_key (project_key : str) : bool :=
  ((2 <=? byte_len project_key) && (byte_len project_key <=? MAX_PROJECT_KEY_BYTES))%N
  && match utf8 project_key with
     | [] => false
     | first :: rest =>
         is_ascii_uppercase first
         && forallb (λ b, is_ascii_uppercase b || is_ascii_digit b || (b =? 95)%N) rest
     end.

Definition valid_attribution (attribution : TimeAttribution) : bool :=
  match attribution with
  | ExistingJira issue_key =>
      match split_once 45%N issue_key with
      | None => false
      | Some (project_key, issue_number) =>
          valid_project_key project_key && negb (is_empty issue_number)
          && (byte_len issue_number <=? MAX_ISSUE_NUMBER_BYTES)%N
          && negb (starts_with (lit "0") issue_number)
          && forallb is_ascii_digit (utf8 issue_number)
      end
  | CreateTicketProposal project_key summary =>
      match project_key with None => true | Some key => valid_project_key key end
      && negb (is_empty summary) && bool_decide (trim summary = summary)
      && (length summary <=? MAX_PROPOSAL_SUMMARY_CHARS)%nat
      && negb (existsb is_control summary)
  | Unassigned => true
  end.

Definition invalid_interval (interval : SanitizedAttentionInterval) : bool :=
  negb (ai_schema_version interval =? SANITIZED_ATTENTION_SCHEMA_VERSION)%N
  || (ai_started_at_unix_ms interval <? 0)
  || (ai_ended_at_unix_ms interval <=? ai_started_at_unix_ms interval).

(** ** The sweep *)

(** [flat_map(..).collect::<BTreeSet<_>>().into_iter().collect()]. *)
Definition boundaries (intervals : list SanitizedAttentionInterval) : list Z :=
  dedup (sort_by Z.compare
    (intervals ≫= λ i, [ai_started_at_unix_ms i; ai_ended_at_unix_ms i])).

(** [v.windows(2)]. *)
Fixpoint windows2 {A} (l : list A) : list (A * A) :=
  match l with
  | x :: ((y :: _) as l') => (x, y) :: windows2 l'
  | _ => []
  end.

(** The intervals active between two neighbouring boundaries. *)
Definition active_between (intervals : list SanitizedAttentionInterval) (from to : Z) :
    list SanitizedAttentionInterval :=
  filter (λ i, ai_started_at_unix_ms i < to ∧ from < ai_ended_at_unix_ms i) intervals.

(** The group of a set of active intervals; [None] when it is empty. *)
Definition group_key (active : list SanitizedAttentionInterval) : option GroupKey :=
  match active with
  | [] => None
  | first :: _ =>
      let same_workspace := forallb (λ i,
        bool_decide (ai_workspace_id i = ai_workspace_id first)) active in
      let same_group := forallb (λ i,
        bool_decide (ai_workspace_id i = ai_workspace_id first)
        && bool_decide (ai_attribution i = ai_attribution first)) active in
      Some (if same_group
            then {| gk_workspace_id := ai_workspace_id first;
                    gk_attribution := ai_attribution first |}
            else {| gk_workspace_id := if same_workspace then ai_workspace_id first else None;
                    gk_attribution := Unassigned |})
  end.

Definition segment (from to : Z) : TimeReviewSegment :=
  {| ts_started_at_unix_ms := from; ts_ended_at_unix_ms := to |}.

(** One turn of the loop; [normalized] is kept with its last element first. *)
Definition sweep_pair (intervals : list SanitizedAttentionInterval)
    (normalized : list (GroupKey * TimeReviewSegment)) (pair : Z * Z) :
    list (GroupKey * TimeReviewSegment) :=
  match group_key (active_between intervals pair.1 pair.2) with
  | None => normalized
  | Some key =>
      match normalized with
      | (previous_key, previous) :: before =>
          if bool_decide (previous_key = key) && (ts_ended_at_unix_ms previous =? pair.1)
          then (previous_key, segment (ts_started_at_unix_ms previous) pair.2) :: before
          else (key, segment pair.1 pair.2) :: normalized
      | [] => [(key, segment pair.1 pair.2)]
      end
  end.

Definition normalized_segments (intervals : list SanitizedAttentionInterval) :
    list (GroupKey * TimeReviewSegment) :=
  reverse (foldl (sweep_pair intervals) [] (windows2 (boundaries intervals))).

(** [map.entry(key).or_default().push(value)] on a [BTreeMap] kept in key order. *)
Fixpoint entry_push {K V} (cmp : K → K → comparison) (key : K) (value : V)
    (m : list (K * list V)) : list (K * list V) :=
  match m with
  | [] => [(key, [value])]
  | (other, values) :: m' =>
      match cmp key other with
      | Lt => (key, [value]) :: m
      | Eq => (other, values ++ [value]) :: m'
      | Gt => (other, values) :: entry_push cmp key value m'
      end
  end.

Definition group_segments (normalized : list (GroupKey * TimeReviewSegment)) :
    list (GroupKey * list TimeReviewSegment) :=
  foldl (λ m entry, entry_push group_key_cmp entry.1 entry.2 m) [] normalized.

Definition segment_ms (s : TimeReviewSegment) : Z :=
  ts_ended_at_unix_ms s - ts_started_at_unix_ms s.

(** [iter.sum()]; that no sum leaves the range of [i64] is a theorem. *)
Definition sum_ms (l : list Z) : Z := foldr Z.add 0 l.

Definition review_group (entry : GroupKey * list TimeReviewSegment) : TimeReviewGroup :=
  {| tg_workspace_id := gk_workspace_id entry.1; tg_attribution := gk_attribution entry.1;
     tg_attention_ms := sum_ms (segment_ms <$> entry.2); tg_segments := entry.2 |}.

Definition build_time_review_draft (intervals : list SanitizedAttentionInterval) :
    result TimeReviewDraft TimeReviewError :=
  ensure guard_err (MAX_SANITIZED_ATTENTION_INTERVALS <? length intervals)%nat
           TooManyIntervals in
  ensure guard_err (existsb invalid_interval intervals) InvalidInterval in
  ensure guard_err (existsb (λ i, negb (valid_attribution (ai_attribution i))) intervals)
           InvalidAttribution in
  let groups := review_group <$> group_segments (normalized_segments intervals) in
  Ok {| td_schema_version := TIME_REVIEW_SCHEMA_VERSION;
        td_total_attention_ms := sum_ms (tg_attention_ms <$> groups);
        td_unassigned_attention_ms :=
          sum_ms (tg_attention_ms <$> filter (λ g, tg_attribution g = Unassigned) groups);
        td_groups := groups |}.

(** ** The decision at one instant *)

Definition active_at (intervals : list SanitizedAttentionInterval) (t : Z) :
    list SanitizedAttentionInterval :=
  filter (λ i, ai_started_at_unix_ms i ≤ t ∧ t < ai_ended_at_unix_ms i) intervals.

(** The group of an instant: that of the intervals that contain it. *)
Definition group_at (intervals : list SanitizedAttentionInterval) (t : Z) : option GroupKey :=
  group_key (active_at intervals t).

Definition in_segment (t : Z) (s : TimeReviewSegment) : Prop :=
  ts_started_at_unix_ms s ≤ t < ts_ended_at_unix_ms s.

#[export] Instance in_segment_dec t s : Decision (in_segment t s).
Proof. unfold in_segment. apply _. Defined.

(** ** Boundaries *)

Lemma filter_ext_on {A} (P Q : A → Prop) `{∀ x, Decision (P x), ∀ x, Decision (Q x)}
    (l : list A) :
  (∀ x, x ∈ l → P x ↔ Q x) → filter P l = filter Q l.
Proof.
  induction l as [|a l IH]; intros H1; [done|]. rewrite !filter_cons, IH.
  - destruct (H1 a); [left|]. by repeat case_decide; try tauto.
  - intros x Hx. apply H1. by right.
Qed.

Lemma boundaries_sorted intervals : StronglySorted Z.lt (boundaries intervals).
Proof.
  eapply StronglySorted_impl; [|apply (dedup_sort_sorted Z.compare)].
  intros x y. apply Z.compare_lt_iff.
Qed.

Lemma boundaries_elem intervals i :
  i ∈ intervals → ai_started_at_unix_ms i ∈ boundaries intervals ∧
                  ai_ended_at_unix_ms i ∈ boundaries intervals.
Proof.
  intros Hi. unfold boundaries. rewrite !elem_of_dedup, !(elem_of_sort_by Z.compare), !list_elem_of_bind.
  split; exists i; (split; [in_list|done]).
Qed.

Lemma elem_of_boundaries intervals b :
  b ∈ boundaries intervals → ∃ i, i ∈ intervals ∧
    (b = ai_started_at_unix_ms i ∨ b = ai_ended_at_unix_ms i).
Proof.
  unfold boundaries. rewrite elem_of_dedup, (elem_of_sort_by Z.compare), list_elem_of_bind.
  intros (i & Hb & Hi). exists i. split; [done|]. revert Hb. rewrite !elem_of_cons, elem_of_nil. tauto.
Qed.

(** Between two neighbouring boundaries the active intervals do not change. *)
Lemma active_between_at intervals pre a b rest t :
  boundaries intervals = pre ++ a :: b :: rest → a ≤ t < b →
  active_between intervals a b = active_at intervals t.
Proof.
  intros Hb Ht. pose proof (boundaries_sorted intervals) as Hs. rewrite Hb in Hs.
  assert (∀ c, c ∈ boundaries intervals → c ≤ a ∨ b ≤ c) as Hgap.
  { intros c. rewrite Hb, elem_of_app, !elem_of_cons. apply StronglySorted_app in Hs as (Hx & _ & Hs).
    apply StronglySorted_inv in Hs as [Hs _]. apply StronglySorted_inv in Hs as [_ Hrest].
    rewrite Forall_forall in Hrest.
    intros [Hc|[->|[->|Hc]]]; [|lia|lia|specialize (Hrest c Hc); lia].
    specialize (Hx c a Hc ltac:(by left)). lia. }
  apply filter_ext_on. intros i [Hi1 Hi2]%boundaries_elem.
  apply Hgap in Hi1. apply Hgap in Hi2. lia.
Qed.

(** ** The sweep *)

Definition covered (normalized : list (GroupKey * TimeReviewSegment)) (k : GroupKey) (t : Z) :
    Prop :=
  ∃ s, (k, s) ∈ normalized ∧ in_segment t s.

Definition before_segment (older newer : TimeReviewSegment) : Prop :=
  ts_ended_at_unix_ms older ≤ ts_started_at_unix_ms newer.

(** What holds once the boundaries up to [p] have been processed. *)
Record swept (intervals : list SanitizedAttentionInterval) (low p : Z)
    (normalized : list (GroupKey * TimeReviewSegment)) : Prop := {
  swept_order : StronglySorted (flip before_segment) (snd <$> normalized);
  swept_range : Forall (λ e, low ≤ ts_started_at_unix_ms e.2 < ts_ended_at_unix_ms e.2 ∧
                             ts_ended_at_unix_ms e.2 ≤ p) normalized;
  swept_cover t k : t < p → covered normalized k t ↔ group_at intervals t = Some k
}.

Lemma covered_cons k s normalized k' t :
  covered ((k, s) :: normalized) k' t ↔ (k' = k ∧ in_segment t s) ∨ covered normalized k' t.
Proof. unfold covered. setoid_rewrite elem_of_cons. naive_solver. Qed.

Lemma swept_not_covered intervals low p normalized k t :
  swept intervals low p normalized → p ≤ t → ¬ covered normalized k t.
Proof.
  intros [_ Hr _] Ht (s & Hs & Hin). rewrite Forall_forall in Hr.
  apply Hr in Hs as (_ & He). cbn in He. unfold in_segment in Hin. lia.
Qed.

Lemma swept_skip intervals low p b normalized :
  swept intervals low p normalized → p ≤ b →
  (∀ t, p ≤ t < b → group_at intervals t = None) → swept intervals low b normalized.
Proof.
  intros Hs Hpb Hgap. split; [apply Hs| |].
  - eapply Forall_impl; [apply Hs|]. cbn. lia.
  - intros t k Ht. destruct (decide (t < p)); [by apply Hs|].
    rewrite Hgap by lia. split; [|done].
    intros Hc. exfalso. eapply swept_not_covered; [exact Hs| |exact Hc]. lia.
Qed.

Lemma swept_push intervals low p b normalized key :
  swept intervals low p normalized → low ≤ p < b →
  (∀ t, p ≤ t < b → group_at intervals t = Some key) →
  swept intervals low b ((key, segment p b) :: normalized).
Proof.
  intros Hs Hpb Hgap. split.
  - cbn. constructor; [apply Hs|]. rewrite Forall_fmap.
    eapply Forall_impl; [apply Hs|]. intros e He. cbn in *. unfold before_segment; cbn. lia.
  - constructor; [cbn; lia|]. eapply Forall_impl; [apply Hs|]. cbn. lia.
  - intros t k Ht. rewrite covered_cons. unfold in_segment; cbn. destruct (decide (t < p)).
    + rewrite <- (swept_cover _ _ _ _ Hs) by done. intuition lia.
    + rewrite Hgap by lia. split.
      * intros [[-> _]|Hc]; [done|]. exfalso. eapply swept_not_covered; [exact Hs| |exact Hc]. lia.
      * intros [= ->]. left. split; [done|lia].
Qed.

Lemma swept_extend intervals low p b normalized key s :
  swept intervals low p ((key, s) :: normalized) → p < b → ts_ended_at_unix_ms s = p →
  (∀ t, p ≤ t < b → group_at intervals t = Some key) →
  swept intervals low b ((key, segment (ts_started_at_unix_ms s) b) :: normalized).
Proof.
  intros Hs Hpb He Hgap. pose proof (swept_order _ _ _ _ Hs) as Ho.
  pose proof (swept_range _ _ _ _ Hs) as Hr. cbn in Ho.
  apply StronglySorted_inv in Ho as [Ho1 Ho2]. apply Forall_cons in Hr as [Hr1 Hr2]. cbn in Hr1.
  split.
  - cbn. constructor; [done|]. eapply Forall_impl; [exact Ho2|]. by intros x.
  - constructor; [cbn; lia|]. eapply Forall_impl; [exact Hr2|]. cbn. lia.
  - intros t k Ht. rewrite covered_cons. unfold in_segment; cbn. destruct (decide (t < p)).
    + rewrite <- (swept_cover _ _ _ _ Hs) by done. rewrite covered_cons.
      unfold in_segment. rewrite He. intuition lia.
    + rewrite Hgap by lia. split.
      * intros [[-> _]|Hc]; [done|]. exfalso.
        apply (swept_not_covered _ _ _ _ k t Hs); [lia|]. apply covered_cons. by right.
      * intros [= ->]. left. split; [done|lia].
Qed.

Lemma swept_pair intervals low pre p b rest normalized :
  boundaries intervals = pre ++ p :: b :: rest → low ≤ p →
  swept intervals low p normalized →
  swept intervals low b (sweep_pair intervals normalized (p, b)).
Proof.
  intros Hb Hlow Hs.
  assert (p < b) as Hpb.
  { pose proof (boundaries_sorted intervals) as Hso. rewrite Hb in Hso.
    apply StronglySorted_app in Hso as (_ & _ & Hso). apply StronglySorted_inv in Hso as [_ Hf].
    by apply Forall_cons in Hf as [? _]. }
  assert (∀ t, p ≤ t < b → group_at intervals t = group_key (active_between intervals p b)) as Hgap.
  { intros t Ht. unfold group_at. by rewrite (active_between_at _ _ _ _ _ _ Hb Ht). }
  unfold sweep_pair. cbn [fst snd].
  destruct (group_key (active_between intervals p b)) as [key|]; [|by apply (swept_skip _ _ p); [|lia|]].
  destruct normalized as [|[k s] normalized]; [by apply swept_push|].
  destruct (bool_decide (k = key) && (ts_ended_at_unix_ms s =? p)) eqn:Hm; [|by apply swept_push].
  bool_split. subst. by eapply swept_extend.
Qed.

Lemma last_cons_default {A} (x : A) l d e : List.last (x :: l) d = List.last (x :: l) e.
Proof. revert x; induction l as [|y l IH]; intros x; [done|]. exact (IH y). Qed.

Lemma last_elem {A} (x : A) l : List.last (x :: l) x ∈ x :: l.
Proof.
  revert x; induction l as [|y l IH]; intros x; [left|]. right.
  change (List.last (x :: y :: l) x) with (List.last (y :: l) x).
  rewrite (last_cons_default y l x y). apply IH.
Qed.

Lemma last_greatest p rest x :
  StronglySorted Z.lt (p :: rest) → x ∈ p :: rest → x ≤ List.last (p :: rest) p.
Proof.
  revert p x; induction rest as [|y l IH]; intros p x Hs Hx.
  - apply list_elem_of_singleton in Hx as ->. done.
  - apply StronglySorted_inv in Hs as [Hs Hp]. apply Forall_cons in Hp as [Hpy _].
    change (List.last (p :: y :: l) p) with (List.last (y :: l) p).
    rewrite (last_cons_default y l p y).
    apply elem_of_cons in Hx as [->|Hx]; [|by apply IH].
    transitivity y; [lia|]. apply IH; [done|by left].
Qed.

Lemma swept_pairs intervals low pre p rest normalized :
  boundaries intervals = pre ++ p :: rest → low ≤ p →
  swept intervals low p normalized →
  swept intervals low (List.last (p :: rest) p)
    (foldl (sweep_pair intervals) normalized (windows2 (p :: rest))).
Proof.
  revert pre p normalized; induction rest as [|b rest IH]; intros pre p normalized Hb Hlow Hs; [done|].
  assert (low ≤ b) as Hlb.
  { pose proof (boundaries_sorted intervals) as Hso. rewrite Hb in Hso.
    apply StronglySorted_app in Hso as (_ & _ & Hso). apply StronglySorted_inv in Hso as [_ Hf].
    apply Forall_cons in Hf as [? _]. lia. }
  change (foldl (sweep_pair intervals) normalized (windows2 (p :: b :: rest)))
    with (foldl (sweep_pair intervals) (sweep_pair intervals normalized (p, b))
            (windows2 (b :: rest))).
  replace (List.last (p :: b :: rest) p) with (List.last (b :: rest) b)
    by (symmetry; apply (last_cons_default b rest p b)).
  apply (IH (pre ++ [p])); [by rewrite <- app_assoc|done|]. by eapply swept_pair.
Qed.

Lemma group_at_None intervals t :
  (∀ i, i ∈ intervals → ai_started_at_unix_ms i ≤ t → ai_ended_at_unix_ms i ≤ t) →
  group_at intervals t = None.
Proof.
  intros H. unfold group_at. assert (active_at intervals t = []) as ->; [|done].
  unfold active_at. induction intervals as [|i l IH]; [done|]. rewrite filter_cons.
  rewrite decide_False; [apply IH; intros j Hj; apply H; by right|].
  intros [H1 H2]. specialize (H i ltac:(by left) H1). lia.
Qed.

Lemma group_at_is_Some intervals t :
  is_Some (group_at intervals t) ↔ ∃ i, i ∈ intervals ∧
    ai_started_at_unix_ms i ≤ t < ai_ended_at_unix_ms i.
Proof.
  unfold group_at, active_at. split.
  - intros Hs. destruct (filter _ intervals) as [|i l] eqn:Hf; [by destruct Hs|].
    exists i. assert (i ∈ filter (λ i, ai_started_at_unix_ms i ≤ t ∧ t < ai_ended_at_unix_ms i)
      intervals) as Hi by (rewrite Hf; left).
    apply list_elem_of_filter in Hi. tauto.
  - intros (i & Hi & Ht). assert (i ∈ filter (λ i, ai_started_at_unix_ms i ≤ t ∧
      t < ai_ended_at_unix_ms i) intervals) as Hin by (apply list_elem_of_filter; tauto).
    destruct (filter _ intervals); [by apply elem_of_nil in Hin|]. by eexists.
Qed.

(** The result of the sweep: ordered, disjoint segments that cover each instant with its
    group, and no instant outside the intervals. *)
Lemma normalized_segments_spec intervals low :
  (∀ i, i ∈ intervals → low ≤ ai_started_at_unix_ms i < ai_ended_at_unix_ms i) →
  let l := normalized_segments intervals in
  StronglySorted before_segment (snd <$> l) ∧
  Forall (λ e, low ≤ ts_started_at_unix_ms e.2 < ts_ended_at_unix_ms e.2 ∧
    ∃ i, i ∈ intervals ∧ ts_ended_at_unix_ms e.2 ≤ ai_ended_at_unix_ms i) l ∧
  ∀ t k, covered l k t ↔ group_at intervals t = Some k.
Proof.
  intros Hvalid l. subst l. unfold normalized_segments.
  destruct (boundaries intervals) as [|p rest] eqn:Hb.
  { destruct intervals as [|i intervals].
    - cbn. split_and!; [constructor..|]. intros t k. split; [|done]. intros (s & Hs & _).
      by apply elem_of_nil in Hs.
    - exfalso. destruct (boundaries_elem (i :: intervals) i) as [H _]; [left|].
      rewrite Hb in H. by apply elem_of_nil in H. }
  pose proof (boundaries_sorted intervals) as Hso. rewrite Hb in Hso.
  assert (low ≤ p) as Hlow.
  { destruct (elem_of_boundaries intervals p) as (i & Hi & Hp); [rewrite Hb; left|].
    specialize (Hvalid i Hi). lia. }
  assert (swept intervals low p []) as H0.
  { split; [constructor..|]. intros t k Ht. split; [intros (s & Hs & _); by apply elem_of_nil in Hs|].
    rewrite group_at_None; [done|]. intros i Hi Hs. exfalso.
    destruct (boundaries_elem intervals i Hi) as [H _]. rewrite Hb in H.
    apply elem_of_cons in H as [H|H]; [lia|]. apply StronglySorted_inv in Hso as [_ Hf].
    rewrite Forall_forall in Hf. specialize (Hf _ H). lia. }
  pose proof (swept_pairs intervals low [] p rest [] Hb Hlow H0) as Hs.
  set (acc := foldl _ _ _) in *. split_and!.
  - rewrite fmap_reverse. apply (StronglySorted_reverse (flip before_segment)). apply Hs.
  - apply Forall_forall. intros e He. rewrite elem_of_reverse in He.
    pose proof (swept_range _ _ _ _ Hs) as Hr. rewrite Forall_forall in Hr.
    destruct (Hr e He) as [H1 H2]. split; [done|].
    destruct (elem_of_boundaries intervals (List.last (p :: rest) p)) as (i & Hi & Hl).
    + rewrite Hb. apply last_elem.
    + exists i. split; [done|]. specialize (Hvalid i Hi). lia.
  - intros t k. transitivity (covered acc k t).
    { unfold covered. by setoid_rewrite elem_of_reverse. }
    destruct (decide (t < List.last (p :: rest) p)) as [Ht|Ht]; [by apply Hs|].
    split; [intros Hc; exfalso; eapply swept_not_covered; [exact Hs| |exact Hc]; lia|].
    rewrite group_at_None; [done|]. intros i Hi _.
    destruct (boundaries_elem intervals i Hi) as [_ He]. rewrite Hb in He.
    pose proof (last_greatest _ _ _ Hso He). lia.
Qed.

(** ** Counting instants *)

(** The number of milliseconds in [[low, high)] that satisfy [P]. *)
Definition count_ms (P : Z → Prop) `{∀ t, Decision (P t)} (low high : Z) : Z :=
  Z.of_nat (length (filter P (seqZ low (high - low)))).

Lemma count_ms_split (P : Z → Prop) `{∀ t, Decision (P t)} a b c :
  a ≤ b ≤ c → count_ms P a c = count_ms P a b + count_ms P b c.
Proof.
  intros Habc. unfold count_ms. replace (c - a) with ((b - a) + (c - b)) by lia.
  rewrite seqZ_app by lia. rewrite filter_app, length_app.
  replace (a + (b - a)) with b by lia. lia.
Qed.

Lemma count_ms_ext (P Q : Z → Prop) `{∀ t, Decision (P t), ∀ t, Decision (Q t)} a b :
  (∀ t, a ≤ t < b → P t ↔ Q t) → count_ms P a b = count_ms Q a b.
Proof.
  intros HPQ. unfold count_ms. rewrite (filter_ext_on P Q); [done|].
  intros t Ht%elem_of_seqZ. apply HPQ. lia.
Qed.

Lemma count_ms_none (P : Z → Prop) `{∀ t, Decision (P t)} a b :
  (∀ t, a ≤ t < b → ¬ P t) → count_ms P a b = 0.
Proof.
  intros Hn. rewrite (count_ms_ext P (λ _, False)) by (intros t Ht; split; [by apply Hn|done]).
  unfold count_ms. induction (seqZ _ _); [done|]. by rewrite filter_cons, decide_False by auto.
Qed.

Lemma count_ms_all (P : Z → Prop) `{∀ t, Decision (P t)} a b :
  a ≤ b → (∀ t, a ≤ t < b → P t) → count_ms P a b = b - a.
Proof.
  intros Hab Ha. rewrite (count_ms_ext P (λ _, True)) by (intros t Ht; split; [done|by auto]).
  unfold count_ms. assert (∀ l : list Z, filter (λ _, True) l = l) as ->.
  { induction l as [|x l IH]; [done|]. by rewrite filter_cons, decide_True, IH by done. }
  rewrite length_seqZ. lia.
Qed.

(** The lengths of ordered segments sum to the number of instants in them. *)
Lemma sum_segments l low high :
  low ≤ high → StronglySorted before_segment l →
  Forall (λ s, low ≤ ts_started_at_unix_ms s < ts_ended_at_unix_ms s ∧
               ts_ended_at_unix_ms s ≤ high) l →
  sum_ms (segment_ms <$> l) = count_ms (λ t, Exists (in_segment t) l) low high.
Proof.
  intros Hlh Hs. revert low Hlh; induction Hs as [|s l Hl IH Hsl]; intros low Hlh Hr.
  { cbn. symmetry. apply count_ms_none. by intros t _ ?%Exists_nil. }
  apply Forall_cons in Hr as [Hrs Hr]. rewrite Forall_forall in Hsl, Hr.
  assert (∀ t, t < ts_ended_at_unix_ms s → ¬ Exists (in_segment t) l) as Hlate.
  { intros t Ht (s' & Hs' & Hin)%Exists_exists. specialize (Hsl s' Hs'). unfold before_segment in Hsl.
    unfold in_segment in Hin. lia. }
  rewrite (count_ms_split _ low (ts_ended_at_unix_ms s) high) by lia.
  rewrite (count_ms_split _ low (ts_started_at_unix_ms s) (ts_ended_at_unix_ms s)) by lia.
  rewrite (count_ms_none _ low), (count_ms_all _ (ts_started_at_unix_ms s));
    [|lia|intros t Ht; apply Exists_cons; by left|].
  - rewrite (count_ms_ext _ (λ t, Exists (in_segment t) l) (ts_ended_at_unix_ms s)).
    + rewrite <- (IH (ts_ended_at_unix_ms s)); [|lia|].
      { change (sum_ms (segment_ms <$> s :: l)) with (segment_ms s + sum_ms (segment_ms <$> l)).
        unfold segment_ms at 1. lia. }
      apply Forall_forall. intros s' Hs'. specialize (Hsl s' Hs'). specialize (Hr s' Hs').
      unfold before_segment in Hsl. cbn in Hr. lia.
    + intros t Ht. rewrite Exists_cons. unfold in_segment at 1. split; [intros [?|?]; [lia|done]|by right].
  - intros t Ht [Hc|Hc]%Exists_cons; [unfold in_segment in Hc; lia|]. apply (Hlate t); [lia|done].
Qed.

(** ** Grouping *)

#[export] Instance attribution_cmp_total : TotalCmp attribution_cmp.
Proof.
  split; [apply cmp_on_pre; apply _|]. intros x y H.
  apply (cmp_eq (pair_cmp N.compare (pair_cmp (option_cmp str_cmp) str_cmp))) in H.
  destruct x, y; cbn in H; naive_solver.
Qed.

#[export] Instance group_key_cmp_total : TotalCmp group_key_cmp.
Proof.
  split; [apply cmp_on_pre; apply _|]. intros x y H.
  apply (cmp_eq (pair_cmp (option_cmp N.compare) attribution_cmp)) in H.
  destruct x, y; cbn in H; naive_solver.
Qed.

Section entries.
Context {K V : Type} `{EqDecision K} (cmp : K → K → comparison) `{!TotalCmp cmp}.

Definition keys_sorted (m : list (K * list V)) : Prop :=
  StronglySorted (λ x y, cmp x y = Lt) (fst <$> m).

(** The values of a key in the order in which they were pushed. *)
Definition values_of (k : K) (l : list (K * V)) : list V := snd <$> filter (λ e, e.1 = k) l.

Definition groups_of (m : list (K * list V)) (l : list (K * V)) : Prop :=
  keys_sorted m ∧ (∀ k vs, (k, vs) ∈ m ↔ vs = values_of k l ∧ k ∈ fst <$> l).

Lemma cmp_Lt_neq k k' : cmp k k' = Lt → k ≠ k'.
Proof. intros H ->. by rewrite (cmp_refl cmp) in H. Qed.

Lemma cmp_Gt_Lt k k' : cmp k k' = Gt → cmp k' k = Lt.
Proof. intros H. by rewrite (cmp_antisym cmp), H. Qed.

Lemma cmp_Lt_trans x y z : cmp x y = Lt → cmp y z = Lt → cmp x z = Lt.
Proof.
  intros H1 H2. destruct (cmp x z) eqn:H; [|done|].
  - apply (cmp_eq cmp) in H as ->. by rewrite (cmp_antisym cmp), H1 in H2.
  - exfalso. revert H. apply (cmp_le_trans cmp x y z); by rewrite ?H1, ?H2.
Qed.

Lemma elem_of_entry_push k v m k' vs :
  keys_sorted m →
  (k', vs) ∈ entry_push cmp k v m ↔
  (k' ≠ k ∧ (k', vs) ∈ m) ∨
  (k' = k ∧ ((∃ old, (k, old) ∈ m ∧ vs = old ++ [v]) ∨ (k ∉ fst <$> m) ∧ vs = [v])).
Proof.
  unfold keys_sorted. induction m as [|[o ws] m IH]; cbn; intros Hs.
  { rewrite list_elem_of_singleton. set_solver. }
  apply StronglySorted_inv in Hs as [Hs Ho]. rewrite Forall_forall in Ho.
  assert (∀ x xs, (x, xs) ∈ m → cmp o x = Lt) as Hom.
  { intros x xs Hx. apply Ho, list_elem_of_fmap. by exists (x, xs). }
  destruct (cmp k o) eqn:Hko.
  - apply (cmp_eq cmp) in Hko as ->. setoid_rewrite elem_of_cons. split.
    + intros [[= -> ->]|Hin]; [right; split; [done|left; exists ws; split; [by left|done]]|].
      left. split; [|by right]. intros ->. by apply (cmp_Lt_neq o o (Hom _ _ Hin)).
    + intros [[Hne [Heq|Hin]] | (-> & [(old & [Heq|Hin] & ->) | [Hn _]])].
      * exfalso. congruence.
      * by right.
      * left. congruence.
      * exfalso. by apply (cmp_Lt_neq o o (Hom _ _ Hin)).
      * exfalso. apply Hn. by left.
  - rewrite elem_of_cons. assert (k ∉ o :: (fst <$> m)) as Hk.
    { intros [->|([x xs] & Heq & Hx)%list_elem_of_fmap]%elem_of_cons.
      - by apply (cmp_Lt_neq o o Hko).
      - cbn in Heq. subst x. apply (cmp_Lt_neq k k); [|done]. eapply cmp_Lt_trans; [exact Hko|eauto]. }
    assert (∀ old, (k, old) ∉ (o, ws) :: m) as Hkm.
    { intros old Hin. apply Hk. apply (list_elem_of_fmap_2 fst) in Hin. done. }
    split.
    + intros [[= -> ->]|Hin]; [right; auto|]. left. split; [|done]. intros ->. by eapply Hkm.
    + intros [[_ Hin] | (-> & [(old & Hin & _) | [_ ->]])]; [by right| |by left].
      by apply Hkm in Hin.
  - apply cmp_Gt_Lt in Hko. rewrite elem_of_cons, IH by done. setoid_rewrite elem_of_cons.
    pose proof (cmp_Lt_neq _ _ Hko). naive_solver.
Qed.

Lemma entry_push_keys k (v : V) m x :
  x ∈ fst <$> entry_push cmp k v m → x = k ∨ x ∈ fst <$> m.
Proof.
  induction m as [|[o ws] m IH]; cbn; [rewrite elem_of_cons; tauto|].
  destruct (cmp k o); cbn; rewrite !elem_of_cons; naive_solver.
Qed.

Lemma entry_push_sorted k (v : V) m : keys_sorted m → keys_sorted (entry_push cmp k v m).
Proof.
  unfold keys_sorted. induction m as [|[o ws] m IH]; cbn; intros Hs; [repeat constructor|].
  apply StronglySorted_inv in Hs as [Hs Ho]. destruct (cmp k o) eqn:Hko; cbn; [by constructor| |].
  - constructor; [by constructor|]. constructor; [done|]. eapply Forall_impl; [exact Ho|].
    intros x. by apply cmp_Lt_trans.
  - constructor; [auto|]. apply Forall_forall. intros x [->|Hx]%entry_push_keys.
    + by apply cmp_Gt_Lt.
    + rewrite Forall_forall in Ho. auto.
Qed.

Lemma values_of_snoc k l e :
  values_of k (l ++ [e]) = values_of k l ++ (if decide (e.1 = k) then [e.2] else []).
Proof.
  unfold values_of. rewrite filter_app, fmap_app. f_equal. cbn. by case_decide.
Qed.

Lemma values_of_nil k (l : list (K * V)) : (k ∉ fst <$> l) → values_of k l = [].
Proof.
  unfold values_of. induction l as [|[x v] l IH]; [done|].
  rewrite fmap_cons. intros [Hx Hl]%not_elem_of_cons. rewrite filter_cons, decide_False; [auto|].
  intros Heq. by apply Hx.
Qed.

Lemma groups_of_push m l e :
  groups_of m l → groups_of (entry_push cmp e.1 e.2 m) (l ++ [e]).
Proof.
  intros [Hs Hm]. split; [by apply entry_push_sorted|]. intros k vs.
  rewrite (elem_of_entry_push _ _ _ _ _ Hs), values_of_snoc, fmap_app, elem_of_app. cbn.
  rewrite list_elem_of_singleton. setoid_rewrite Hm.
  assert (∀ x, x ∈ fst <$> m ↔ x ∈ fst <$> l) as Hkeys.
  { intros x. rewrite list_elem_of_fmap. split.
    - intros ([y ys] & -> & [_ Hy]%Hm). done.
    - intros Hx. exists (x, values_of x l). split; [done|]. by apply Hm. }
  rewrite Hkeys. destruct (decide (e.1 = k)) as [<-|Hne].
  - split.
    + intros [[? _] | (_ & [(old & [-> Hin] & ->) | [Hn ->]])]; [done| |]; (split; [|by right]).
      * done.
      * by rewrite values_of_nil.
    + intros [-> _]. right. split; [done|]. destruct (decide (e.1 ∈ fst <$> l)); [by eauto|].
      right. split; [done|]. by rewrite values_of_nil.
  - rewrite app_nil_r. naive_solver.
Qed.

Lemma groups_of_fold l :
  groups_of (foldl (λ m e, entry_push cmp e.1 e.2 m) [] l) l.
Proof.
  induction l as [|e l IH] using rev_ind.
  - split; [constructor|]. cbn. intros k vs. rewrite !elem_of_nil. tauto.
  - rewrite foldl_snoc. by apply groups_of_push.
Qed.
End entries.

(** ** Sums over groups *)

#[local] Arguments sum_ms : simpl never.

Lemma sum_ms_cons x l : sum_ms (x :: l) = x + sum_ms l.
Proof. done. Qed.

Lemma sum_ms_nil : sum_ms [] = 0.
Proof. done. Qed.

Lemma sum_ms_app l k : sum_ms (l ++ k) = sum_ms l + sum_ms k.
Proof. induction l as [|x l IH]; [done|]. cbn [app]. rewrite !sum_ms_cons. lia. Qed.

(** The sum over the groups whose key satisfies [q]. *)
Definition group_sum (q : GroupKey → bool) (m : list (GroupKey * list TimeReviewSegment)) : Z :=
  sum_ms ((λ e, if q e.1 then sum_ms (segment_ms <$> e.2) else 0) <$> m).

Lemma group_sum_cons q e m :
  group_sum q (e :: m) = (if q e.1 then sum_ms (segment_ms <$> e.2) else 0) + group_sum q m.
Proof. done. Qed.

Lemma sum_ms_one s : sum_ms (segment_ms <$> [s]) = segment_ms s.
Proof. unfold sum_ms. cbn. lia. Qed.

Lemma group_sum_push q k s m :
  group_sum q (entry_push group_key_cmp k s m)
  = group_sum q m + (if q k then segment_ms s else 0).
Proof.
  induction m as [|[o ws] m IH]; cbn [entry_push].
  - rewrite group_sum_cons. cbn [fst snd]. rewrite sum_ms_one. destruct (q k); unfold group_sum, sum_ms; cbn; lia.
  - destruct (group_key_cmp k o) eqn:Hko; rewrite !group_sum_cons; cbn [fst snd].
    + apply (cmp_eq group_key_cmp) in Hko as ->. rewrite fmap_app, sum_ms_app, sum_ms_one.
      destruct (q o); lia.
    + rewrite sum_ms_one. destruct (q k); lia.
    + rewrite IH. lia.
Qed.

Lemma group_sum_normalized q l :
  group_sum q (group_segments l)
  = sum_ms (segment_ms <$> (snd <$> filter (λ e, q e.1 = true) l)).
Proof.
  unfold group_segments. induction l as [|e l IH] using rev_ind; [done|].
  rewrite foldl_snoc, group_sum_push, IH, filter_app, !fmap_app, sum_ms_app. f_equal.
  rewrite filter_cons, filter_nil. destruct (q e.1); [|done].
  by rewrite decide_True, <- (sum_ms_one e.2).
Qed.

Lemma StronglySorted_fmap_filter {A B} (R : B → B → Prop) (f : A → B) (P : A → Prop)
    `{∀ x, Decision (P x)} (l : list A) :
  StronglySorted R (f <$> l) → StronglySorted R (f <$> filter P l).
Proof.
  induction l as [|x l IH]; [done|]. rewrite fmap_cons, filter_cons.
  intros [Hs Hx]%StronglySorted_inv. case_decide; [|auto]. rewrite fmap_cons.
  constructor; [auto|]. rewrite Forall_fmap in *. rewrite Forall_forall in *.
  intros y [_ Hy]%list_elem_of_filter. auto.
Qed.

(** An instant whose group satisfies [q]. *)
Definition instant_in (intervals : list SanitizedAttentionInterval) (q : GroupKey → bool) (t : Z) :
    bool :=
  match group_at intervals t with Some k => q k | None => false end.

(** The segments whose key satisfies [q] last as long as the instants whose group does. *)
Lemma filtered_count intervals q high :
  0 ≤ high →
  (∀ i, i ∈ intervals → 0 ≤ ai_started_at_unix_ms i < ai_ended_at_unix_ms i ∧
     ai_ended_at_unix_ms i ≤ high) →
  sum_ms (segment_ms <$> (snd <$> filter (λ e, q e.1 = true) (normalized_segments intervals)))
  = count_ms (λ t, instant_in intervals q t = true) 0 high.
Proof.
  intros Hh Hv. destruct (normalized_segments_spec intervals 0) as (Hs & Hr & Hc).
  { intros i Hi. by destruct (Hv i Hi). }
  set (l := normalized_segments intervals) in *.
  rewrite (sum_segments _ 0 high Hh).
  - apply count_ms_ext. intros t _. rewrite Exists_exists. unfold instant_in. split.
    + intros (s & ([k s'] & -> & [Hq Hin]%list_elem_of_filter)%list_elem_of_fmap & Ht). cbn in *.
      assert (group_at intervals t = Some k) as -> by (apply Hc; by exists s'). done.
    + destruct (group_at intervals t) as [k|] eqn:Hk; [|done]. intros Hq.
      apply Hc in Hk as (s & Hin & Ht). exists s. split; [|done].
      apply list_elem_of_fmap. exists (k, s). split; [done|]. by apply list_elem_of_filter.
  - by apply StronglySorted_fmap_filter.
  - rewrite Forall_fmap, Forall_forall. intros [k s] [_ Hin]%list_elem_of_filter.
    rewrite Forall_forall in Hr. destruct (Hr _ Hin) as [Hb (i & Hi & He)]. cbn in *.
    destruct (Hv i Hi). lia.
Qed.

(** What [build_time_review_draft] has checked when it answers [Ok]. *)
Lemma build_Ok intervals draft :
  build_time_review_draft intervals = Ok draft →
  (∀ i, i ∈ intervals → 0 ≤ ai_started_at_unix_ms i < ai_ended_at_unix_ms i) ∧
  td_groups draft = review_group <$> group_segments (normalized_segments intervals) ∧
  td_total_attention_ms draft = sum_ms (tg_attention_ms <$> td_groups draft) ∧
  td_unassigned_attention_ms draft
  = sum_ms (tg_attention_ms <$> filter (λ g, tg_attribution g = Unassigned) (td_groups draft)).
Proof.
  intros (? & _ & Hb)%rbind_Ok. apply rbind_Ok in Hb as (? & Hi & Hb).
  apply rbind_Ok in Hb as (? & _ & [= <-]). split; [|done].
  intros i Hin. apply guard_err_Ok in Hi. destruct (invalid_interval i) eqn:Hinv.
  - assert (existsb invalid_interval intervals = true) as Ht; [|congruence].
    apply existsb_spec. eauto.
  - unfold invalid_interval in Hinv. bool_split. lia.
Qed.

Definition group_key_of (g : TimeReviewGroup) : GroupKey :=
  {| gk_workspace_id := tg_workspace_id g; gk_attribution := tg_attribution g |}.

Lemma group_key_of_review e : group_key_of (review_group e) = e.1.
Proof. by destruct e as [[] ?]. Qed.

(** C13: The sweep agrees with the decision at each instant: an instant lies in a segment of a group
    exactly when the intervals that contain it decide that group. Groups have distinct keys. *)
Theorem review_agrees_with_instants intervals draft :
  build_time_review_draft intervals = Ok draft →
  NoDup (group_key_of <$> td_groups draft) ∧
  ∀ t k, (∃ g, g ∈ td_groups draft ∧ group_key_of g = k ∧ Exists (in_segment t) (tg_segments g))
         ↔ group_at intervals t = Some k.
Proof.
  intros (Hv & Hg & _)%build_Ok. rewrite Hg.
  destruct (normalized_segments_spec intervals 0 Hv) as (_ & _ & Hc).
  destruct (groups_of_fold group_key_cmp (normalized_segments intervals)) as [Hs Hm].
  fold (group_segments (normalized_segments intervals)) in *. split.
  - rewrite <- list_fmap_compose, (list_fmap_ext _ fst) by (intros; apply group_key_of_review).
    by apply (StronglySorted_Lt_NoDup group_key_cmp).
  - intros t k. rewrite <- Hc. split.
    + intros (g & (e & -> & He)%list_elem_of_fmap & Hk & (s & Hs' & Ht)%Exists_exists).
      rewrite group_key_of_review in Hk. destruct e as [k' vs]. cbn in *. subst k'.
      apply Hm in He as [-> _]. apply list_elem_of_fmap in Hs' as ([k' s'] & -> & Hin).
      apply list_elem_of_filter in Hin as [Hk Hin]. cbn in *. subst k'. by exists s'.
    + intros (s & Hin & Ht).
      exists (review_group (k, values_of k (normalized_segments intervals))). split_and!.
      * apply list_elem_of_fmap. eexists; split; [done|]. apply Hm. split; [done|].
        apply list_elem_of_fmap. by exists (k, s).
      * apply group_key_of_review.
      * apply Exists_exists. exists s. split; [|done]. cbn. apply list_elem_of_fmap.
        exists (k, s). split; [done|]. by apply list_elem_of_filter.
Qed.

Lemma count_ms_bounds (P : Z → Prop) `{∀ t, Decision (P t)} a b :
  a ≤ b → 0 ≤ count_ms P a b ≤ b - a.
Proof.
  intros Hab. unfold count_ms. split; [lia|].
  assert (length (filter P (seqZ a (b - a))) ≤ length (seqZ a (b - a)))%nat as Hl.
  { apply length_filter. }
  rewrite length_seqZ in Hl. lia.
Qed.

Lemma count_ms_mono (P Q : Z → Prop) `{∀ t, Decision (P t), ∀ t, Decision (Q t)} a b :
  (∀ t, P t → Q t) → count_ms P a b ≤ count_ms Q a b.
Proof.
  intros HPQ. unfold count_ms. apply inj_le. induction (seqZ _ _) as [|x l IH]; [done|].
  rewrite !filter_cons. repeat case_decide; cbn; try lia. exfalso; auto.
Qed.

Lemma attention_sum q m :
  sum_ms (tg_attention_ms <$> filter (λ g, q (group_key_of g) = true) (review_group <$> m))
  = group_sum q m.
Proof.
  induction m as [|e m IH]; [done|].
  rewrite fmap_cons, filter_cons, group_key_of_review, group_sum_cons, <- IH.
  destruct (q e.1); [by rewrite decide_True|by rewrite decide_False].
Qed.

Lemma group_attention intervals high g :
  0 ≤ high →
  (∀ i, i ∈ intervals → 0 ≤ ai_started_at_unix_ms i < ai_ended_at_unix_ms i ∧
     ai_ended_at_unix_ms i ≤ high) →
  g ∈ review_group <$> group_segments (normalized_segments intervals) →
  tg_attention_ms g = count_ms (λ t, group_at intervals t = Some (group_key_of g)) 0 high.
Proof.
  intros Hh Hv ([k vs] & -> & He)%list_elem_of_fmap. rewrite group_key_of_review. cbn [fst].
  destruct (groups_of_fold group_key_cmp (normalized_segments intervals)) as [_ Hm].
  apply Hm in He as [-> _]. cbn [review_group tg_attention_ms snd]. unfold values_of.
  etrans; [|etrans; [apply (filtered_count intervals (λ k', bool_decide (k' = k)) high Hh Hv)|]].
  { do 3 f_equal. apply filter_ext_on. intros e _. by rewrite bool_decide_eq_true. }
  apply count_ms_ext. intros t _. unfold instant_in. destruct (group_at intervals t); [|done].
  rewrite bool_decide_eq_true. naive_solver.
Qed.

(** Every instant is counted once: a group's attention is the number of milliseconds that are
    decided to be its, the total is the number of milliseconds in the union of the intervals,
    and no sum exceeds the largest end, so none leaves the range of [i64]. *)
Theorem review_counts_each_instant_once intervals draft high :
  build_time_review_draft intervals = Ok draft →
  0 ≤ high ≤ i64_max → (∀ i, i ∈ intervals → ai_ended_at_unix_ms i ≤ high) →
  (∀ g, g ∈ td_groups draft →
     tg_attention_ms g = count_ms (λ t, group_at intervals t = Some (group_key_of g)) 0 high) ∧
  td_total_attention_ms draft
  = count_ms (λ t, Exists (λ i, ai_started_at_unix_ms i ≤ t < ai_ended_at_unix_ms i) intervals)
      0 high ∧
  0 ≤ td_unassigned_attention_ms draft ≤ td_total_attention_ms draft ∧
  td_total_attention_ms draft ≤ high.
Proof.
  intros (Hv & Hg & Ht & Hu)%build_Ok Hh Hend. rewrite Ht, Hu, Hg.
  assert (∀ i, i ∈ intervals → 0 ≤ ai_started_at_unix_ms i < ai_ended_at_unix_ms i ∧
    ai_ended_at_unix_ms i ≤ high) as Hv' by auto.
  assert (∀ q, sum_ms (tg_attention_ms <$> filter (λ g, q (group_key_of g) = true)
      (review_group <$> group_segments (normalized_segments intervals)))
    = count_ms (λ t, instant_in intervals q t = true) 0 high) as Hsum.
  { intros q. rewrite attention_sum, group_sum_normalized. apply filtered_count; [lia|done]. }
  pose proof (Hsum (λ _, true)) as Hall.
  pose proof (Hsum (λ k, bool_decide (gk_attribution k = Unassigned))) as Hun.
  rewrite (filter_ext_on _ (λ g, tg_attribution g = Unassigned)) in Hun
    by (intros; by rewrite bool_decide_eq_true).
  assert (∀ l : list TimeReviewGroup, filter (λ g, true = true) l = l) as Hid.
  { induction l as [|g l IH]; [done|]. by rewrite filter_cons, IH. }
  rewrite Hid in Hall. rewrite Hun, Hall. split_and!.
  - intros g Hgin. apply group_attention; [lia|done|done].
  - apply count_ms_ext. intros t _. unfold instant_in.
    pose proof (group_at_is_Some intervals t) as Hs. rewrite <- Exists_exists in Hs.
    rewrite <- Hs. destruct (group_at intervals t); naive_solver.
  - apply count_ms_bounds. lia.
  - apply count_ms_mono. intros t. unfold instant_in. by destruct (group_at intervals t).
  - pose proof (count_ms_bounds (λ t, instant_in intervals (λ _, true) t = true) 0 high). lia.
Qed.

(** ** The daily schedule *)

Record TimeReviewSchedule := {
  sc_minute_of_local_day : Z;
  sc_utc_offset_minutes : Z
}.

Inductive TimeReviewScheduleState :=
| NotDue (next_due_at_unix_ms : Z)
| Due (local_day due_at_unix_ms : Z)
| CatchUp (oldest_unreviewed_local_day latest_due_local_day : Z) (due_days : N).

(** [i64] and [i16] arithmetic of a release build wraps around; [i16::MIN.abs()] is [i16::MIN]. *)
Definition wrapping_i64 (z : Z) : Z := (z - i64_min) mod 2 ^ 64 + i64_min.
Definition wrapping_abs_i16 (z : Z) : Z := if z =? -32768 then z else Z.abs z.

(** [latest_due_local_day * MILLIS_PER_DAY + scheduled_minute * MILLIS_PER_MINUTE - offset_ms]. *)
Definition due_instant (schedule : TimeReviewSchedule) (local_day : Z) : Z :=
  wrapping_i64 (wrapping_i64 (wrapping_i64 (local_day * MILLIS_PER_DAY)
                 + sc_minute_of_local_day schedule * MILLIS_PER_MINUTE)
                - sc_utc_offset_minutes schedule * MILLIS_PER_MINUTE).

Definition time_review_schedule_state (schedule : TimeReviewSchedule) (now_unix_ms : Z)
    (last_completed_local_day : option Z) : result TimeReviewScheduleState TimeReviewError :=
  ensure guard_err ((24 * 60 <=? sc_minute_of_local_day schedule)
                    || (MAX_UTC_OFFSET_MINUTES <? wrapping_abs_i16 (sc_utc_offset_minutes schedule))
                    || (now_unix_ms <? 0)) InvalidSchedule in
  let offset_ms := sc_utc_offset_minutes schedule * MILLIS_PER_MINUTE in
  let local_now_ms := wrapping_i64 (now_unix_ms + offset_ms) in
  let current_local_day := local_now_ms / MILLIS_PER_DAY in
  let current_local_minute := local_now_ms mod MILLIS_PER_DAY / MILLIS_PER_MINUTE in
  let scheduled_minute := sc_minute_of_local_day schedule in
  let latest_due_local_day :=
    if scheduled_minute <=? current_local_minute then current_local_day
    else current_local_day - 1 in
  let due_at_unix_ms := due_instant schedule latest_due_local_day in
  let due := Ok (Due latest_due_local_day due_at_unix_ms) in
  match last_completed_local_day with
  | Some completed =>
      if latest_due_local_day <=? completed then
        let next_local_day :=
          if current_local_minute <? scheduled_minute then current_local_day
          else current_local_day + 1 in
        Ok (NotDue (due_instant schedule next_local_day))
      else if 1 <? clamp_i64 (latest_due_local_day - completed) then
        let days := clamp_i64 (latest_due_local_day - completed) in
        Ok (CatchUp (completed + 1) latest_due_local_day
              (match u32_try_from days with Some days => days | None => u32_max end))
      else due
  | None => due
  end.

Lemma wrapping_i64_small z : in_i64 z → wrapping_i64 z = z.
Proof.
  unfold in_i64, wrapping_i64, i64_min, i64_max. intros Hz. rewrite Z.mod_small by lia. lia.
Qed.

(** The instant at which the review of a local day falls due. *)
Definition due_at (schedule : TimeReviewSchedule) (local_day : Z) : Z :=
  local_day * MILLIS_PER_DAY + sc_minute_of_local_day schedule * MILLIS_PER_MINUTE
  - sc_utc_offset_minutes schedule * MILLIS_PER_MINUTE.

(** Schedules and times for which no computation leaves the range of [i64]. *)
Definition schedule_in_range (schedule : TimeReviewSchedule) (now : Z) : Prop :=
  0 ≤ sc_minute_of_local_day schedule < 24 * 60 ∧
  Z.abs (sc_utc_offset_minutes schedule) ≤ MAX_UTC_OFFSET_MINUTES ∧
  0 ≤ now ≤ i64_max - 4 * MILLIS_PER_DAY.

Lemma due_instant_exact schedule now local_day :
  schedule_in_range schedule now →
  -4 * MILLIS_PER_DAY ≤ local_day * MILLIS_PER_DAY ≤ now + 2 * MILLIS_PER_DAY →
  due_instant schedule local_day = due_at schedule local_day.
Proof.
  unfold schedule_in_range, due_instant, due_at, MAX_UTC_OFFSET_MINUTES, MILLIS_PER_DAY,
    MILLIS_PER_MINUTE, i64_max. intros (Hm & Ho & Hn) Hd.
  rewrite (wrapping_i64_small (local_day * _)) by (unfold in_i64, i64_min, i64_max; lia).
  rewrite (wrapping_i64_small (_ + _)) by (unfold in_i64, i64_min, i64_max; lia).
  apply wrapping_i64_small. unfold in_i64, i64_min, i64_max. lia.
Qed.

Lemma minute_reached r m :
  (m <=? r / MILLIS_PER_MINUTE) = (m * MILLIS_PER_MINUTE <=? r).
Proof.
  unfold MILLIS_PER_MINUTE. pose proof (Z.div_mod r 60000). pose proof (Z.mod_pos_bound r 60000).
  apply eq_true_iff_eq. rewrite !Z.leb_le. lia.
Qed.

(** The state is decided by the latest local day whose review is due: a completed day at or
    after it leaves nothing due until the next, one or more completed days missing are reported
    with their number, otherwise that day is due. *)
Theorem schedule_state_spec schedule now completed :
  schedule_in_range schedule now →
  match completed with Some c => in_i64 c | None => True end →
  ∃ latest, due_at schedule latest ≤ now < due_at schedule (latest + 1) ∧
    time_review_schedule_state schedule now completed
    = Ok match completed with
         | Some c =>
             if decide (latest ≤ c) then NotDue (due_at schedule (latest + 1))
             else if decide (c = latest - 1) then Due latest (due_at schedule latest)
             else CatchUp (c + 1) latest (N.min u32_max (Z.to_N (latest - c)))
         | None => Due latest (due_at schedule latest)
         end.
Proof.
  intros Hr Hc. unfold time_review_schedule_state.
  assert ((24 * 60 <=? sc_minute_of_local_day schedule)
    || (MAX_UTC_OFFSET_MINUTES <? wrapping_abs_i16 (sc_utc_offset_minutes schedule))
    || (now <? 0) = false) as ->.
  { unfold schedule_in_range, wrapping_abs_i16, MAX_UTC_OFFSET_MINUTES in *.
    destruct (Z.eqb_spec (sc_utc_offset_minutes schedule) (-32768)); lia. }
  cbn [guard_err rbind]. cbv zeta.
  assert (in_i64 (now + sc_utc_offset_minutes schedule * MILLIS_PER_MINUTE)) as Hin.
  { unfold schedule_in_range, MAX_UTC_OFFSET_MINUTES, MILLIS_PER_DAY, MILLIS_PER_MINUTE, in_i64,
      i64_min, i64_max in *. lia. }
  rewrite (wrapping_i64_small _ Hin), minute_reached.
  set (local := now + _) in *. rewrite (Z.ltb_antisym _ (local mod MILLIS_PER_DAY / _)), minute_reached.
  set (m := sc_minute_of_local_day schedule * MILLIS_PER_MINUTE).
  pose proof (Z.div_mod local MILLIS_PER_DAY ltac:(done)) as Hdiv.
  pose proof (Z.mod_pos_bound local MILLIS_PER_DAY ltac:(done)) as Hmod.
  assert (local = now + sc_utc_offset_minutes schedule * MILLIS_PER_MINUTE) as Hlocal by done.
  clearbody local. generalize dependent (local mod MILLIS_PER_DAY).
  generalize (local / MILLIS_PER_DAY). intros day rest Hdiv Hrest.
  set (latest := if m <=? rest then day else day - 1).
  set (next := if negb (m <=? rest) then day else day + 1).
  assert (next = latest + 1) as Hnext by (subst next latest; destruct (m <=? rest); cbn; lia).
  assert (due_at schedule latest ≤ now < due_at schedule (latest + 1)) as Hdue.
  { subst latest m. unfold due_at, schedule_in_range, MILLIS_PER_DAY, MILLIS_PER_MINUTE in *.
    destruct (Z.leb_spec (sc_minute_of_local_day schedule * 60000) rest); lia. }
  rewrite Hnext. clearbody latest. exists latest. split; [done|].
  assert (due_instant schedule latest = due_at schedule latest ∧
          due_instant schedule (latest + 1) = due_at schedule (latest + 1) ∧
          -2 * MILLIS_PER_DAY ≤ latest * MILLIS_PER_DAY) as (-> & -> & Hlow).
  { unfold due_at in Hdue. split_and!; [apply (due_instant_exact _ now); try done..|];
      unfold schedule_in_range, MAX_UTC_OFFSET_MINUTES, MILLIS_PER_DAY, MILLIS_PER_MINUTE in *; lia. }
  destruct completed as [c|]; [|done].
  destruct (Z.leb_spec latest c); [by rewrite decide_True|]. rewrite decide_False by lia.
  unfold due_at, schedule_in_range, MILLIS_PER_DAY, MILLIS_PER_MINUTE, MAX_UTC_OFFSET_MINUTES in Hdue, Hr, Hlow.
  destruct (Z.ltb_spec 1 (clamp_i64 (latest - c))) as [Hlt|Hlt];
    unfold clamp_i64, i64_min, i64_max, in_i64 in Hlt, Hc, Hr.
  - rewrite decide_False by lia. do 2 f_equal. unfold u32_try_from, clamp_i64, u32_max, i64_min, i64_max.
    assert (Z.max (- 2 ^ 63) (Z.min (2 ^ 63 - 1) (latest - c)) = Z.min (2 ^ 63 - 1) (latest - c))
      as -> by lia.
    destruct (Z.ltb_spec (Z.min (2 ^ 63 - 1) (latest - c)) 0); [lia|]. cbn [orb].
    destruct (Z.ltb_spec (Z.of_N (2 ^ 32 - 1)) (Z.min (2 ^ 63 - 1) (latest - c))); lia.
  - by rewrite decide_True by lia.
Qed.

(** ** A concrete review *)

Definition sample_interval (from to : Z) (key : str) : SanitizedAttentionInterval :=
  {| ai_schema_version := 1; ai_started_at_unix_ms := from; ai_ended_at_unix_ms := to;
     ai_workspace_id := Some 5%N; ai_attribution := ExistingJira key |}.

(** Work on two issues that overlaps between 50 and 100, and a later return to the first. *)
Definition sample_intervals : list SanitizedAttentionInterval :=
  [sample_interval 0 100 (lit "WTS-1"); sample_interval 50 150 (lit "WTS-2");
   sample_interval 200 300 (lit "WTS-1")].

Definition sample_group (attribution : TimeAttribution) (l : list (Z * Z)) : TimeReviewGroup :=
  review_group ({| gk_workspace_id := Some 5%N; gk_attribution := attribution |},
                (λ p, segment p.1 p.2) <$> l).

Definition sample_review : TimeReviewDraft :=
  {| td_schema_version := 1; td_total_attention_ms := 250; td_unassigned_attention_ms := 50;
     td_groups := [sample_group (ExistingJira (lit "WTS-1")) [(0, 50); (200, 300)];
                   sample_group (ExistingJira (lit "WTS-2")) [(100, 150)];
                   sample_group Unassigned [(50, 100)]] |}.

Lemma sample_review_built : build_time_review_draft sample_intervals = Ok sample_review.
Proof. vm_compute. reflexivity. Qed.

Lemma review_agrees_with_instants_witness :
  NoDup (group_key_of <$> td_groups sample_review) ∧
  ∀ t k, (∃ g, g ∈ td_groups sample_review ∧ group_key_of g = k ∧
               Exists (in_segment t) (tg_segments g))
         ↔ group_at sample_intervals t = Some k.
Proof. exact (review_agrees_with_instants sample_intervals sample_review sample_review_built). Defined.

Lemma review_counts_each_instant_once_witness :
  250 = count_ms (λ t, Exists (λ i, ai_started_at_unix_ms i ≤ t < ai_ended_at_unix_ms i)
                         sample_intervals) 0 300 ∧
  250 ≤ 300.
Proof.
  destruct (review_counts_each_instant_once sample_intervals sample_review 300
    sample_review_built) as (_ & Htotal & _ & Hle).
  - by split.
  - intros i Hi. unfold sample_intervals in Hi. rewrite !elem_of_cons, elem_of_nil in Hi.
    destruct Hi as [->|[->|[->|[]]]]; by vm_compute.
  - by split.
Defined.

(** A review at 18:00 local time, two hours east of UTC, on the third local day; the first was
    completed. *)
Lemma schedule_state_spec_witness :
  ∃ latest,
    due_at {| sc_minute_of_local_day := 1080; sc_utc_offset_minutes := 120 |} latest ≤ 259000000
    < due_at {| sc_minute_of_local_day := 1080; sc_utc_offset_minutes := 120 |} (latest + 1) ∧
    time_review_schedule_state {| sc_minute_of_local_day := 1080; sc_utc_offset_minutes := 120 |}
      259000000 (Some 0)
    = Ok (if decide (latest ≤ 0) then
            NotDue (due_at {| sc_minute_of_local_day := 1080; sc_utc_offset_minutes := 120 |}
                      (latest + 1))
          else if decide (0 = latest - 1) then
            Due latest (due_at {| sc_minute_of_local_day := 1080; sc_utc_offset_minutes := 120 |}
                          latest)
          else CatchUp (0 + 1) latest (N.min u32_max (Z.to_N (latest - 0)))).
Proof.
  apply (schedule_state_spec {| sc_minute_of_local_day := 1080; sc_utc_offset_minutes := 120 |}
    259000000 (Some 0)).
  - unfold schedule_in_range; cbn. unfold MAX_UTC_OFFSET_MINUTES. vm_compute. intuition discriminate.
  - vm_compute. split; discriminate.
Defined.

(** The least [i16] passes the check of the offset in a release build. *)
Lemma least_offset_accepted :
  is_ok (time_review_schedule_state
    {| sc_minute_of_local_day := 0; sc_utc_offset_minutes := -32768 |} 0 None) = true.
Proof. reflexivity. Qed.
