(* ===== verification/Runtime.v ===== *)
(** * The runtime supervisor: requests and their preparation ([crates/wts-app/src/runtime.rs])

    Limits, the validation of a stack request, the order in which its services start, the
    environment of a child process and the reservation of ports.  What the operating system
    answers (directories, ports, sizes) is an input. *)

From S2P Require Import Prelude Order Text Digest StoreBase.

Local Open Scope N_scope.

Definition LOOPBACK_HOST : str := lit "127.0.0.1".
Definition MAX_STACK_ID_BYTES : N := 96.
Definition MAX_SERVICE_ID_BYTES : N := 96.
Definition MAX_EXECUTABLE_BYTES : N := 4 * 1024.
Definition MAX_ARGUMENTS : nat := 128.
Definition MAX_ARGUMENT_BYTES : N := 16 * 1024.
Definition MAX_ENVIRONMENT_ENTRIES : nat := 64.
Definition MAX_ENVIRONMENT_VALUE_BYTES : N := 16 * 1024.

(** [Duration]s are numbers of nanoseconds. *)
Definition from_millis (ms : N) : N := ms * 1000000.
Definition from_secs (s : N) : N := s * 1000000000.
Definition duration_max : N := (2 ^ 64 - 1) * 1000000000 + 999999999.

(** ** Limits *)

Record RuntimeLimits := {
  max_stacks : nat;
  max_services_per_stack : nat;
  max_services_total : nat;
  max_startup_timeout : N;
  health_poll_interval : N;
  max_workspace_disk_bytes : N
}.

Inductive RuntimeProfile := Eco | Balanced | Full.

Definition for_profile (profile : RuntimeProfile) : RuntimeLimits :=
  match profile with
  | Eco =>
      {| max_stacks := 2; max_services_per_stack := 8; max_services_total := 8;
         max_startup_timeout := from_secs 45; health_poll_interval := from_secs 2;
         max_workspace_disk_bytes := 128 * 1024 * 1024 |}
  | Balanced =>
      {| max_stacks := 8; max_services_per_stack := 12; max_services_total := 32;
         max_startup_timeout := from_secs 60; health_poll_interval := from_millis 500;
         max_workspace_disk_bytes := 512 * 1024 * 1024 |}
  | Full =>
      {| max_stacks := 30; max_services_per_stack := 16; max_services_total := 96;
         max_startup_timeout := from_secs 60; health_poll_interval := from_millis 250;
         max_workspace_disk_bytes := 512 * 1024 * 1024 |}
  end.

Definition default_limits : RuntimeLimits :=
  {| max_stacks := 30; max_services_per_stack := 16; max_services_total := 96;
     max_startup_timeout := from_secs 60; health_poll_interval := from_millis 250;
     max_workspace_disk_bytes := 2 * 1024 * 1024 * 1024 |}.

(** ** Requests *)

Inductive RuntimeHealthCheck := ProcessCheck | TcpCheck.

#[export] Instance health_check_eq_dec : EqDecision RuntimeHealthCheck.
Proof. solve_decision. Defined.

Record RuntimeServiceRequest := {
  rs_id : str;
  rs_working_directory : str;
  rs_executable : str;
  rs_args : list str;
  rs_environment : gmap str str;
  rs_preferred_port : N;
  rs_depends_on : list str;
  rs_health_check : RuntimeHealthCheck;
  rs_startup_timeout : N
}.

Record RuntimeStackRequest := {
  rq_workspace_id : Uuid;
  rq_stack_id : str;
  rq_workspace_root : str;
  rq_services : list RuntimeServiceRequest
}.

Record RuntimeStackKey := {
  rk_workspace_id : Uuid;
  rk_stack_id : str
}.

Record RuntimeEndpoint := {
  ep_host : str;
  ep_port : N
}.

Inductive RuntimeError :=
| InvalidLimits
| InvalidStackId
| EmptyStack
| CapacityExceeded
| WorkspaceDiskBudgetExceeded
| InvalidServiceId (service : str)
| DuplicateService (service : str)
| AmbiguousServiceEnvironment
| UnknownDependency (service dependency : str)
| DependencyCycle
| InvalidWorkspaceRoot
| WorkingDirectoryOutsideWorkspace (service : str)
| InvalidExecutable (service : str)
| InvalidArguments (service : str)
| InvalidEnvironment (service : str)
| InvalidPreferredPort (service : str)
| InvalidStartupTimeout (service : str)
| PortUnavailable (service : str)
| AlreadyRunning
| StackNotFound
| ProcessStartFailed (message : str)
| StartupExited (service : str)
| StartupTimedOut (service : str)
| ProcessObservationFailed (service : str)
| CleanupFailed
| Cancelled
| StateUnavailable.

Record PreparedStack := {
  pp_key : RuntimeStackKey;
  pp_workspace_root : str;
  pp_services : list RuntimeServiceRequest
}.

(** ** Identifiers and environment names *)

Definition valid_identifier (value : str) (max_bytes : N) : bool :=
  negb (is_empty value) && (byte_len value <=? max_bytes)
  && forallb (λ b, is_ascii_alphanumeric b || (b =? 45) || (b =? 95) || (b =? 46)) (utf8 value).

Definition environment_token (service_id : str) : str :=
  (λ b, if is_ascii_alphanumeric b then to_ascii_uppercase_char b else 95) <$> utf8 service_id.

Definition valid_environment_name (name : str) : bool :=
  match utf8 name with
  | [] => false
  | first :: rest =>
      (is_ascii_alphabetic first || (first =? 95))
      && forallb (λ b, is_ascii_alphanumeric b || (b =? 95)) rest
  end.

Definition RESERVED_NAMES : list str :=
  lit <$> ["PORT"; "HOST"; "WTS_PORT"; "WTS_HOST"; "WTS_WORKSPACE_ID"; "WTS_STACK_ID";
           "WTS_SERVICE_ID"]%string.

Definition reserved_environment_name (name : str) : bool :=
  bool_decide (name ∈ RESERVED_NAMES) || starts_with (lit "WTS_SERVICE_") name.

Definition has_nul (s : str) : bool := existsb (λ c, c =? 0) s.

Definition validate_command (service : RuntimeServiceRequest) : result () RuntimeError :=
  ensure guard_err
    (is_empty (rs_executable service)
     || negb (bool_decide (trim (rs_executable service) = rs_executable service))
     || (MAX_EXECUTABLE_BYTES <? byte_len (rs_executable service))
     || has_nul (rs_executable service)) (InvalidExecutable (rs_id service)) in
  ensure guard_err
    ((MAX_ARGUMENTS <? length (rs_args service))%nat
     || existsb (λ argument, (MAX_ARGUMENT_BYTES <? byte_len argument) || has_nul argument)
          (rs_args service)) (InvalidArguments (rs_id service)) in
  guard_err
    ((MAX_ENVIRONMENT_ENTRIES <? size (rs_environment service))%nat
     || existsb (λ '(name, value),
          negb (valid_environment_name name) || reserved_environment_name name
          || (MAX_ENVIRONMENT_VALUE_BYTES <? byte_len value) || has_nul value)
          (bt_iter (rs_environment service))) (InvalidEnvironment (rs_id service)).

(** ** The start order *)

(** [set.pop_first()] of a [BTreeSet]: the least element. *)
Definition pop_first (ready : gset str) : option (str * gset str) :=
  match sort_by str_cmp (elements ready) with
  | [] => None
  | first :: _ => Some (first, ready ∖ {[first]})
  end.

Definition initial_incoming (services : gmap str RuntimeServiceRequest) : gmap str nat :=
  (λ service, length (rs_depends_on service)) <$> services.

(** [outgoing.entry(dependency).or_default().push(id)]. *)
Definition push_dependant (outgoing : gmap str (list str)) (dependency id : str) :
    gmap str (list str) :=
  <[dependency := default [] (outgoing !! dependency) ++ [id]]> outgoing.

Definition outgoing_edges (services : gmap str RuntimeServiceRequest) : gmap str (list str) :=
  foldl (λ outgoing entry,
           foldl (λ outgoing dependency, push_dependant outgoing dependency (rs_id entry.2))
             outgoing (rs_depends_on entry.2))
    ∅ (bt_iter services).

Definition initial_ready (incoming : gmap str nat) : gset str :=
  dom (filter (λ entry, entry.2 = 0%nat) incoming).

(** The inner loop over the dependants of a started service; [None] is a panic: a missing
    counter, or a counter that would drop below zero. *)
Fixpoint release (dependants : list str) (incoming : gmap str nat) (ready : gset str) :
    option (gmap str nat * gset str) :=
  match dependants with
  | [] => Some (incoming, ready)
  | dependant :: dependants' =>
      match incoming !! dependant with
      | Some (S count) =>
          release dependants' (<[dependant := count]> incoming)
            (if decide (count = 0%nat) then {[dependant]} ∪ ready else ready)
      | _ => None
      end
  end.

(** The [while] loop; [None] is a panic or the lack of fuel. *)
Fixpoint order_loop (fuel : nat) (outgoing : gmap str (list str)) (incoming : gmap str nat)
    (ready : gset str) (order : list str) : option (list str) :=
  match pop_first ready with
  | None => Some order
  | Some (id, ready) =>
      match fuel with
      | O => None
      | S fuel =>
          match release (default [] (outgoing !! id)) incoming ready with
          | None => None
          | Some (incoming, ready) => order_loop fuel outgoing incoming ready (order ++ [id])
          end
      end
  end.

(** Each service is started once, so the number of services is enough fuel. *)
Definition dependency_order (services : gmap str RuntimeServiceRequest) :
    option (result (list str) RuntimeError) :=
  let incoming := initial_incoming services in
  match order_loop (size services) (outgoing_edges services) incoming (initial_ready incoming) [] with
  | None => None
  | Some order =>
      Some (if decide (length order = size services) then Ok order else Err DependencyCycle)
  end.

(** ** Preparation *)

(** What the file system answers: whether a path names a directory that is not a symbolic
    link, its canonical form, and what it holds. *)
Record FileSystem := {
  fs_plain_directory : str → bool;
  fs_canonicalize : str → option str
}.

(** Equality and prefixes of [Path]s compare components. *)
Definition path_eqb (a b : str) : bool := bool_decide (path_components a = path_components b).

Fixpoint components_prefix (p s : list component) : bool :=
  match p, s with
  | [], _ => true
  | a :: p', b :: s' => bool_decide (a = b) && components_prefix p' s'
  | _ :: _, [] => false
  end.

Definition path_starts_with (path base : str) : bool :=
  components_prefix (path_components base) (path_components path).

Section prepare.
Variable fs : FileSystem.

Definition canonical_directory (path : str) : option str :=
  if negb (is_absolute path) || negb (fs_plain_directory fs path) then None
  else fs_canonicalize fs path.

(** A service as it is stored: trimmed, in its canonical directory, with its dependencies
    sorted and without repetitions. *)
Definition prepared_service (service : RuntimeServiceRequest) (working_directory : str) :
    RuntimeServiceRequest :=
  {| rs_id := trim (rs_id service); rs_working_directory := working_directory;
     rs_executable := rs_executable service; rs_args := rs_args service;
     rs_environment := rs_environment service; rs_preferred_port := rs_preferred_port service;
     rs_depends_on := dedup (sort_by str_cmp (rs_depends_on service));
     rs_health_check := rs_health_check service;
     rs_startup_timeout := rs_startup_timeout service |}.

Definition prepare_service (workspace_root : str)
    (state : gmap str RuntimeServiceRequest * gset str) (service : RuntimeServiceRequest) :
    result (gmap str RuntimeServiceRequest * gset str) RuntimeError :=
  let '(services, environment_tokens) := state in
  let id := trim (rs_id service) in
  ensure guard_err (negb (valid_identifier id MAX_SERVICE_ID_BYTES)) (InvalidServiceId id) in
  ensure guard_err (bool_decide (is_Some (services !! id))) (DuplicateService id) in
  ensure guard_err (bool_decide (environment_token id ∈ environment_tokens))
           AmbiguousServiceEnvironment in
  let? working_directory := ok_or (canonical_directory (rs_working_directory service))
                              (WorkingDirectoryOutsideWorkspace id) in
  ensure guard_err (negb (path_eqb working_directory (rs_working_directory service))
                    || negb (path_starts_with working_directory workspace_root))
           (WorkingDirectoryOutsideWorkspace id) in
  let prepared := prepared_service service working_directory in
  ensure validate_command prepared in
  ensure guard_err (rs_preferred_port service =? 0) (InvalidPreferredPort id) in
  ensure guard_err (rs_startup_timeout service =? 0) (InvalidStartupTimeout id) in
  Ok (<[id := prepared]> services, {[environment_token id]} ∪ environment_tokens).

(** The first unknown dependency in the order of service identifiers. *)
Definition check_dependencies (services : gmap str RuntimeServiceRequest) :
    result () RuntimeError :=
  try_fold (λ _ entry,
    try_fold (λ _ dependency,
      guard_err (bool_decide (services !! dependency = None))
        (UnknownDependency (rs_id entry.2) dependency))
      tt (rs_depends_on entry.2))
    tt (bt_iter services).

(** [ordered_ids.into_iter().filter_map(|id| services.remove(&id))]. *)
Fixpoint take_services (ids : list str) (services : gmap str RuntimeServiceRequest) :
    list RuntimeServiceRequest :=
  match ids with
  | [] => []
  | id :: ids' =>
      match services !! id with
      | Some service => service :: take_services ids' (delete id services)
      | None => take_services ids' services
      end
  end.

(** [None] is a panic of the start order, which [prepare_stack_total] excludes. *)
Definition prepare_stack (request : RuntimeStackRequest) (limits : RuntimeLimits) :
    option (result PreparedStack RuntimeError) :=
  if negb (valid_identifier (rq_stack_id request) MAX_STACK_ID_BYTES)
  then Some (Err InvalidStackId)
  else if bool_decide (rq_services request = []) then Some (Err EmptyStack)
  else if (max_services_per_stack limits <? length (rq_services request))%nat
          || (max_services_total limits <? length (rq_services request))%nat
  then Some (Err CapacityExceeded)
  else
    match canonical_directory (rq_workspace_root request) with
    | None => Some (Err InvalidWorkspaceRoot)
    | Some workspace_root =>
        if negb (path_eqb workspace_root (rq_workspace_root request))
        then Some (Err InvalidWorkspaceRoot)
        else
          match try_fold (prepare_service workspace_root) (∅, ∅) (rq_services request) with
          | Err error => Some (Err error)
          | Ok (services, _) =>
              match check_dependencies services with
              | Err error => Some (Err error)
              | Ok _ =>
                  match dependency_order services with
                  | None => None
                  | Some (Err error) => Some (Err error)
                  | Some (Ok ordered_ids) =>
                      Some (Ok {| pp_key := {| rk_workspace_id := rq_workspace_id request;
                                               rk_stack_id := rq_stack_id request |};
                                  pp_workspace_root := workspace_root;
                                  pp_services := take_services ordered_ids services |})
                  end
              end
          end
    end.
End prepare.

(** ** Ports and environments *)

Record ReservedService := {
  rv_request : RuntimeServiceRequest;
  rv_endpoint : RuntimeEndpoint
}.

(** The ports of [preferred..=u16::MAX] in order. *)
Definition ports_from (preferred : N) : list N :=
  (λ n, preferred + N.of_nat n) <$> seq 0 (N.to_nat (65536 - preferred)).

(** [can_bind port] is the outcome of [TcpListener::bind] on the loopback address. *)
Definition reserve_port (can_bind : N → bool) (preferred : N) (claimed_ports : gset N) : option N :=
  head (filter (λ port, (port ∉ claimed_ports) ∧ can_bind port = true) (ports_from preferred)).

Fixpoint reserve_services (can_bind : N → bool) (services : list RuntimeServiceRequest)
    (claimed_ports : gset N) : result (list ReservedService) RuntimeError :=
  match services with
  | [] => Ok []
  | request :: services' =>
      let? port := ok_or (reserve_port can_bind (rs_preferred_port request) claimed_ports)
                     (PortUnavailable (rs_id request)) in
      let? reserved := reserve_services can_bind services' ({[port]} ∪ claimed_ports) in
      Ok ({| rv_request := request;
             rv_endpoint := {| ep_host := LOOPBACK_HOST; ep_port := port |} |} :: reserved)
  end.

Definition host_name (service_id : str) : str :=
  lit "WTS_SERVICE_" ++ environment_token service_id ++ lit "_HOST".
Definition port_name (service_id : str) : str :=
  lit "WTS_SERVICE_" ++ environment_token service_id ++ lit "_PORT".

Definition endpoint_environment (services : list ReservedService) : gmap str str :=
  foldl (λ environment service,
           <[port_name (rs_id (rv_request service)) := dec (ep_port (rv_endpoint service))]>
             (<[host_name (rs_id (rv_request service)) := LOOPBACK_HOST]> environment))
    ∅ services.

Definition INHERITED_NAMES : list str :=
  lit <$> ["PATH"; "HOME"; "TMPDIR"; "TEMP"; "TMP"; "CARGO_HOME"; "RUSTUP_HOME"; "USERPROFILE";
           "SystemRoot"; "PATHEXT"]%string.

(** [Command::env] and [Command::envs] on a cleared environment: a later value replaces an
    earlier one. *)
Definition set_env (environment : gmap str str) (values : list (str * str)) : gmap str str :=
  foldl (λ environment '(name, value), <[name := value]> environment) environment values.

(** The environment of the child in [service_command]; [parent] is the supervisor's own. *)
Definition child_environment (uuid_to_string : Uuid → str) (parent : gmap str str)
    (key : RuntimeStackKey) (request : RuntimeServiceRequest) (endpoint : RuntimeEndpoint)
    (endpoints : gmap str str) : gmap str str :=
  let inherited := omap (λ name, (λ value, (name, value)) <$> parent !! name) INHERITED_NAMES in
  set_env
    (set_env (set_env (set_env ∅ inherited) (bt_iter (rs_environment request)))
       (bt_iter endpoints))
    [(lit "WTS_WORKSPACE_ID", uuid_to_string (rk_workspace_id key));
     (lit "WTS_STACK_ID", rk_stack_id key);
     (lit "WTS_SERVICE_ID", rs_id request);
     (lit "WTS_HOST", LOOPBACK_HOST);
     (lit "WTS_PORT", dec (ep_port endpoint));
     (lit "HOST", LOOPBACK_HOST);
     (lit "PORT", dec (ep_port endpoint))].

(** ** The disk budget *)

(** A directory entry as [read_dir] and [symlink_metadata] show it. *)
Inductive DiskEntry :=
| DiskFile (bytes : N)
| DiskLink
| DiskUnknown
| DiskDirectory (entries : list DiskEntry)
| DiskUnreadable.

(** [visit]: the total so far, and whether the limit was kept. *)
Fixpoint visit (limit : N) (entry : DiskEntry) (total : N) : N * bool :=
  match entry with
  | DiskFile bytes =>
      let total := clamp_u64 (total + bytes) in (total, negb (limit <? total))
  | DiskLink | DiskUnknown | DiskUnreadable => (total, true)
  | DiskDirectory entries =>
      (fix visit_all (entries : list DiskEntry) (total : N) : N * bool :=
         match entries with
         | [] => (total, true)
         | entry :: entries' =>
             let '(total, complete) := visit limit entry total in
             if complete then visit_all entries' total else (total, false)
         end) entries total
  end.

Definition workspace_disk_bytes (root : DiskEntry) (limit : N) : N :=
  let '(total, complete) := visit limit root 0 in
  if complete then total else clamp_u64 (limit + 1).
