(* ===== verification/RuntimeOrder.v ===== *)
(** * The start order of a stack

    [dependency_order] ends without a panic on every map the preparation can build, returns an
    order in which dependencies come first when there is one, and reports a cycle only when
    there is none. *)

From S2P Require Import Prelude Order Text Digest StoreBase Runtime.

Local Open Scope N_scope.

(** What the preparation guarantees of its map: keys are the identifiers, dependencies are
    distinct and known. *)
Definition services_ok (services : gmap str RuntimeServiceRequest) : Prop :=
  ∀ id s, services !! id = Some s →
    rs_id s = id ∧ NoDup (rs_depends_on s) ∧
    ∀ d, d ∈ rs_depends_on s → is_Some (services !! d).

Definition depends (services : gmap str RuntimeServiceRequest) (id d : str) : Prop :=
  ∃ s, services !! id = Some s ∧ d ∈ rs_depends_on s.

(** An order of all services in which each comes after its dependencies. *)
Definition topological (services : gmap str RuntimeServiceRequest) (order : list str) : Prop :=
  NoDup order ∧ (∀ id, id ∈ order ↔ is_Some (services !! id)) ∧
  ∀ before id after, order = before ++ id :: after →
    ∀ d, depends services id d → d ∈ before.

(** ** The least element of a set *)

Lemma pop_first_Some ready id rest :
  pop_first ready = Some (id, rest) → id ∈ ready ∧ rest = ready ∖ {[id]}.
Proof.
  unfold pop_first. destruct (sort_by str_cmp (elements ready)) as [|x l] eqn:Hs; [done|].
  intros [= <- <-]. split; [|done]. apply elem_of_elements, (elem_of_sort_by str_cmp).
  rewrite Hs. left.
Qed.

Lemma pop_first_None ready : pop_first ready = None → ready = ∅.
Proof.
  unfold pop_first. destruct (sort_by str_cmp (elements ready)) as [|x l] eqn:Hs; [|done].
  intros _. apply set_eq. intros x. rewrite <- elem_of_elements, <- (elem_of_sort_by str_cmp), Hs.
  set_solver.
Qed.

(** ** The edges *)

Lemma push_dependant_lookup outgoing d id x :
  default [] (push_dependant outgoing d id !! x)
  = default [] (outgoing !! x) ++ (if decide (x = d) then [id] else []).
Proof.
  unfold push_dependant. destruct (decide (x = d)) as [->|Hne].
  - by rewrite lookup_insert_eq.
  - by rewrite lookup_insert_ne, app_nil_r by done.
Qed.

Lemma push_dependencies_lookup outgoing deps id x :
  NoDup deps →
  default [] (foldl (λ outgoing dependency, push_dependant outgoing dependency id) outgoing deps !! x)
  = default [] (outgoing !! x) ++ (if decide (x ∈ deps) then [id] else []).
Proof.
  intros Hnd. revert outgoing; induction Hnd as [|d deps Hd _ IH]; intros outgoing; cbn.
  - rewrite decide_False, app_nil_r; [done|]. by intros ?%elem_of_nil.
  - rewrite IH, push_dependant_lookup, <- app_assoc. f_equal.
    destruct (decide (x = d)) as [->|Hne].
    + rewrite decide_False by done. rewrite decide_True by left. done.
    + cbn. apply decide_ext. rewrite elem_of_cons. tauto.
Qed.

Lemma outgoing_spec services d :
  services_ok services →
  NoDup (default [] (outgoing_edges services !! d)) ∧
  ∀ id, id ∈ default [] (outgoing_edges services !! d) ↔ depends services id d.
Proof.
  intros Hok. unfold outgoing_edges.
  assert (∀ l outgoing,
    (∀ id s, (id, s) ∈ l → rs_id s = id ∧ NoDup (rs_depends_on s)) →
    default [] (foldl (λ outgoing entry,
      foldl (λ outgoing dependency, push_dependant outgoing dependency (rs_id entry.2))
        outgoing (rs_depends_on entry.2)) outgoing l !! d)
    = default [] (outgoing !! d) ++ (fst <$> filter (λ e, d ∈ rs_depends_on e.2) l)) as Hfold.
  { induction l as [|[id s] l IH]; intros outgoing Hl; [by rewrite app_nil_r|]. cbn [foldl].
    destruct (Hl id s) as [Hid Hnd]; [left|]. rewrite IH by (intros; apply Hl; by right).
    cbn [snd]. rewrite push_dependencies_lookup, <- app_assoc by done. f_equal.
    rewrite filter_cons. cbn [snd]. case_decide; [|done]. by rewrite Hid. }
  rewrite Hfold, lookup_empty; cbn [default].
  - split.
    + apply NoDup_fmap_filter. rewrite bt_iter_perm. apply NoDup_fst_map_to_list.
    + intros id. cbn. rewrite list_elem_of_fmap. unfold depends. split.
      * intros ([id' s] & -> & [Hd Hin]%list_elem_of_filter). apply elem_of_bt_iter in Hin. eauto.
      * intros (s & Hs & Hd). exists (id, s). split; [done|]. apply list_elem_of_filter.
        by rewrite elem_of_bt_iter.
  - intros id s Hin. apply elem_of_bt_iter, Hok in Hin. tauto.
Qed.

(** ** The inner loop *)

Lemma release_spec l incoming ready :
  NoDup l → (∀ x, x ∈ l → ∃ c, incoming !! x = Some (S c)) →
  ∃ incoming' ready', release l incoming ready = Some (incoming', ready') ∧
    (∀ x, incoming' !! x = if decide (x ∈ l) then pred <$> incoming !! x else incoming !! x) ∧
    (∀ x, x ∈ ready' ↔ x ∈ ready ∨ (x ∈ l ∧ incoming !! x = Some 1%nat)).
Proof.
  intros Hnd. revert incoming ready; induction Hnd as [|y l Hy _ IH]; intros incoming ready Hl.
  - exists incoming, ready. split_and!; [done| |].
    + intros x. rewrite decide_False; [done|]. by intros ?%elem_of_nil.
    + intros x. split; [by left|]. intros [?|[[]%elem_of_nil _]]; done.
  - destruct (Hl y) as [c Hc]; [left|]. cbn. rewrite Hc.
    destruct (IH (<[y := c]> incoming) (if decide (c = 0%nat) then {[y]} ∪ ready else ready))
      as (incoming' & ready' & Hrel & Hin & Hready).
    { intros x Hx. destruct (Hl x) as [c' Hc']; [by right|]. exists c'.
      rewrite lookup_insert_ne; [done|]. congruence. }
    exists incoming', ready'. split_and!; [done| |].
    + intros x. rewrite Hin. destruct (decide (x = y)) as [->|Hne].
      * rewrite decide_False by done. rewrite decide_True by left. by rewrite lookup_insert_eq, Hc.
      * rewrite lookup_insert_ne by done. apply decide_ext. rewrite elem_of_cons. tauto.
    + intros x. rewrite Hready, elem_of_cons. destruct (decide (x = y)) as [->|Hne].
      * rewrite Hc. case_decide; subst; set_solver.
      * rewrite lookup_insert_ne by done. case_decide; set_solver.
Qed.

(** ** The outer loop *)

Section loop.
Variable services : gmap str RuntimeServiceRequest.
Hypothesis Hok : services_ok services.

(** The dependencies of a service that have not been started. *)
Definition waiting (done : list str) (s : RuntimeServiceRequest) : nat :=
  length (filter (λ d, d ∉ done) (rs_depends_on s)).

Record order_inv (incoming : gmap str nat) (ready : gset str) (done : list str) : Prop := {
  inv_nodup : NoDup done;
  inv_known id : id ∈ done → is_Some (services !! id);
  inv_incoming id : incoming !! id = waiting done <$> services !! id;
  inv_ready id : id ∈ ready ↔ (id ∉ done) ∧ ∃ s, services !! id = Some s ∧ waiting done s = 0%nat;
  inv_before before id after : done = before ++ id :: after →
    ∀ d, depends services id d → d ∈ before
}.

Lemma waiting_zero done s : waiting done s = 0%nat ↔ ∀ d, d ∈ rs_depends_on s → d ∈ done.
Proof.
  unfold waiting. rewrite length_zero_iff_nil. split.
  - intros Hf d Hd. destruct (decide (d ∈ done)) as [|Hn]; [done|]. exfalso.
    assert (d ∈ filter (λ d, d ∉ done) (rs_depends_on s)) as Hin by by apply list_elem_of_filter.
    rewrite Hf in Hin. by apply elem_of_nil in Hin.
  - intros Hall. destruct (filter _ _) as [|d l] eqn:Hf; [done|]. exfalso.
    assert (d ∈ filter (λ d, d ∉ done) (rs_depends_on s)) as Hin by (rewrite Hf; left).
    apply list_elem_of_filter in Hin as [Hn Hd]. by apply Hn, Hall.
Qed.

(** Starting a service lowers the count of exactly its dependants, by one. *)
Lemma waiting_snoc done id s :
  NoDup (rs_depends_on s) → id ∉ done →
  waiting (done ++ [id]) s
  = if decide (id ∈ rs_depends_on s) then pred (waiting done s) else waiting done s.
Proof.
  unfold waiting. intros Hnd Hid. induction Hnd as [|d deps Hd _ IH].
  - rewrite decide_False; [done|]. by intros ?%elem_of_nil.
  - rewrite !filter_cons. destruct (decide (d = id)) as [->|Hne].
    + rewrite (decide_True (P := id ∈ id :: deps)) by left.
      rewrite (decide_True (P := id ∉ done)) by done. rewrite decide_False; [|set_solver]. cbn.
      rewrite decide_False in IH by done. done.
    + assert (id ∈ d :: deps ↔ id ∈ deps) as Hin by (rewrite elem_of_cons; naive_solver).
      rewrite (decide_ext (id ∈ d :: deps) (id ∈ deps)) by done.
      assert (d ∉ done ++ [id] ↔ d ∉ done) as Hnd by set_solver.
      rewrite (decide_ext (d ∉ done ++ [id]) (d ∉ done)) by done.
      destruct (decide (d ∉ done)); cbn; [|done]. rewrite IH.
      destruct (decide (id ∈ deps)) as [Hi|]; [|done].
      assert (id ∈ filter (λ d, d ∉ done) deps) as Hf by by apply list_elem_of_filter.
      destruct (filter (λ d, d ∉ done) deps); [by apply elem_of_nil in Hf|done].
Qed.

Lemma order_inv_initial :
  order_inv (initial_incoming services) (initial_ready (initial_incoming services)) [].
Proof.
  assert (∀ s, waiting [] s = length (rs_depends_on s)) as Hw.
  { intros s. unfold waiting. f_equal. induction (rs_depends_on s) as [|d l IH]; [done|].
    rewrite filter_cons, decide_True, IH; [done|]. apply not_elem_of_nil. }
  split.
  - constructor.
  - by intros id ?%elem_of_nil.
  - intros id. unfold initial_incoming. rewrite lookup_fmap.
    destruct (services !! id); [|done]. cbn. by rewrite Hw.
  - intros id. unfold initial_ready, initial_incoming. rewrite elem_of_dom. split.
    + intros [c Hc]. apply map_lookup_filter_Some in Hc as [Hc Hz]. cbn in Hz. subst c.
      split; [apply not_elem_of_nil|]. rewrite lookup_fmap_Some in Hc.
      destruct Hc as (s & Hs & Hl). exists s. by rewrite Hw.
    + intros [_ (s & Hs & Hz)]. exists 0%nat. apply map_lookup_filter_Some. split; [|done].
      rewrite lookup_fmap, Hs. cbn. by rewrite <- Hw, Hz.
  - intros before id after Heq. by destruct before.
Qed.

Lemma order_inv_step incoming ready done id rest :
  order_inv incoming ready done → pop_first ready = Some (id, rest) →
  ∃ incoming' ready',
    release (default [] (outgoing_edges services !! id)) incoming rest = Some (incoming', ready') ∧
    order_inv incoming' ready' (done ++ [id]).
Proof.
  intros Hinv (Hid & ->)%pop_first_Some.
  pose proof (proj1 (inv_ready _ _ _ Hinv id) Hid) as (Hnd & s & Hs & Hz).
  destruct (outgoing_spec services id Hok) as [Hout Hdep].
  assert (∀ x, depends services x id → (x ∉ done) ∧ ∃ sx c, services !! x = Some sx ∧
    waiting done sx = S c) as Hdependant.
  { intros x (sx & Hsx & Hin). split.
    - intros Hx. apply list_elem_of_split in Hx as (b & a & Heq).
      apply Hnd. rewrite Heq. apply elem_of_app. left.
      apply (inv_before _ _ _ Hinv b x a Heq). by exists sx.
    - exists sx. destruct (waiting done sx) as [|c] eqn:Hw; [|by eauto]. exfalso.
      apply Hnd. by apply (proj1 (waiting_zero done sx) Hw). }
  destruct (release_spec (default [] (outgoing_edges services !! id)) incoming (ready ∖ {[id]}))
    as (incoming' & ready' & Hrel & Hin & Hready); [done| |].
  { intros x (Hx & sx & c & Hsx & Hw)%Hdep%Hdependant. exists c.
    by rewrite (inv_incoming _ _ _ Hinv), Hsx; cbn; rewrite Hw. }
  exists incoming', ready'. split; [done|].
  assert (∀ x sx, services !! x = Some sx →
    waiting (done ++ [id]) sx = if decide (id ∈ rs_depends_on sx) then pred (waiting done sx)
                                else waiting done sx) as Hsnoc.
  { intros x sx Hsx. destruct (Hok _ _ Hsx) as (_ & Hndx & _). by apply waiting_snoc. }
  split.
  - apply NoDup_app. split_and!; [apply Hinv| |apply NoDup_singleton].
    intros x Hx ->%list_elem_of_singleton. done.
  - intros x [Hx | ->%list_elem_of_singleton]%elem_of_app; [by apply Hinv|by eauto].
  - intros x. rewrite Hin, (inv_incoming _ _ _ Hinv).
    destruct (services !! x) as [sx|] eqn:Hsx; cbn; [|by case_decide].
    rewrite (Hsnoc x sx Hsx). destruct (decide (id ∈ rs_depends_on sx)) as [Hi|Hi].
    + rewrite decide_True; [done|]. apply Hdep. by exists sx.
    + rewrite decide_False; [done|]. intros (sx' & Hsx' & Hi')%Hdep. congruence.
  - intros x. rewrite Hready, elem_of_difference, not_elem_of_singleton, not_elem_of_app,
      list_elem_of_singleton, Hdep, (inv_incoming _ _ _ Hinv), (inv_ready _ _ _ Hinv). split.
    + intros [[(Hx & sx & Hsx & Hw) Hne] | [Hd Hc]].
      * split; [done|]. exists sx. split; [done|]. rewrite (Hsnoc x sx Hsx), Hw. by case_decide.
      * destruct (Hdependant x Hd) as (Hx & sx & c & Hsx & Hw). rewrite Hsx in Hc. cbn in Hc.
        split; [split; [done|intros ->; congruence]|]. exists sx. split; [done|].
        rewrite (Hsnoc x sx Hsx), decide_True; [by injection Hc as ->|].
        destruct Hd as (sx' & Hsx' & Hi). congruence.
    + intros ([Hx Hne] & sx & Hsx & Hw). rewrite (Hsnoc x sx Hsx) in Hw.
      destruct (decide (id ∈ rs_depends_on sx)) as [Hi|Hi]; [|by eauto 10].
      right. assert (depends services x id) as Hd by by exists sx. split; [done|].
      destruct (Hdependant x Hd) as (_ & sx' & c & Hsx' & Hwx). rewrite Hsx. cbn.
      assert (sx' = sx) as -> by congruence. rewrite Hwx in *. cbn in Hw. by subst c.
  - intros before x after Heq d Hd. destruct after as [|y after _] using rev_ind.
    + apply app_inj_tail in Heq as [<- <-]. destruct Hd as (s' & Hs' & Hd).
      assert (s' = s) as -> by congruence. by apply (proj1 (waiting_zero done s)).
    + rewrite app_comm_cons, app_assoc in Heq. apply app_inj_tail in Heq as [Heq _].
      by eapply (inv_before _ _ _ Hinv).
Qed.

Lemma order_inv_bound incoming ready done :
  order_inv incoming ready done → (length done ≤ size services)%nat.
Proof.
  intros Hinv. rewrite <- (size_dom services).
  rewrite <- (size_list_to_set (C := gset str) done) by apply Hinv.
  apply subseteq_size. intros x Hx%elem_of_list_to_set. apply elem_of_dom. by apply Hinv.
Qed.

(** The loop ends, and when it does nothing is ready. *)
Lemma order_loop_spec fuel incoming ready done :
  order_inv incoming ready done → (size services - length done ≤ fuel)%nat →
  ∃ order incoming', order_loop fuel (outgoing_edges services) incoming ready done = Some order ∧
    order_inv incoming' ∅ order.
Proof.
  revert incoming ready done; induction fuel as [|fuel IH]; intros incoming ready done Hinv Hfuel; cbn.
  - destruct (pop_first ready) as [[id rest]|] eqn:Hp.
    + exfalso. destruct (order_inv_step _ _ _ _ _ Hinv Hp) as (i' & r' & _ & Hinv').
      apply order_inv_bound in Hinv'. rewrite length_app in Hinv'. cbn in Hinv'. lia.
    + apply pop_first_None in Hp as ->. eauto.
  - destruct (pop_first ready) as [[id rest]|] eqn:Hp.
    + destruct (order_inv_step _ _ _ _ _ Hinv Hp) as (i' & r' & -> & Hinv').
      apply (IH _ _ _ Hinv'). rewrite length_app. cbn. lia.
    + apply pop_first_None in Hp as ->. eauto.
Qed.

(** A complete order is topological; an incomplete one leaves services that wait for each
    other, so that no order exists. *)
Lemma dependency_order_spec :
  ∃ outcome, dependency_order services = Some outcome ∧
    match outcome with
    | Ok order => topological services order
    | Err error => error = DependencyCycle ∧ ∀ order, ¬ topological services order
    end.
Proof.
  destruct (order_loop_spec (size services) _ _ _ order_inv_initial) as (order & inc & Hloop & Hinv);
    [cbn; lia|].
  unfold dependency_order. rewrite Hloop. eexists. split; [done|].
  assert (∀ id, id ∈ order → is_Some (services !! id)) as Hknown by apply Hinv.
  destruct (decide (length order = size services)) as [Hlen|Hlen].
  - split_and!; [apply Hinv| |apply Hinv]. intros id. split; [auto|]. intros Hid.
    rewrite <- (elem_of_list_to_set (C := gset str)).
    assert (list_to_set order = dom services) as ->; [|by apply elem_of_dom].
    apply set_subseteq_size_eq.
    + intros x Hx%elem_of_list_to_set. apply elem_of_dom. auto.
    + rewrite size_dom, size_list_to_set by apply Hinv. lia.
  - split; [done|]. intros l (Hnd & Hall & Hbefore).
    assert (∀ before after, l = before ++ after → ∀ x, x ∈ before → x ∈ order) as Hin.
    { induction before as [|y before IH] using rev_ind; intros after Heq x; [by intros ?%elem_of_nil|].
      rewrite <- app_assoc in Heq. intros [Hx | ->%list_elem_of_singleton]%elem_of_app; [by eapply IH|].
      destruct (decide (y ∈ order)) as [|Hn]; [done|]. exfalso.
      assert (is_Some (services !! y)) as [s Hs] by (apply Hall; rewrite Heq; set_solver).
      assert (y ∈ (∅ : gset str)) as []%elem_of_empty.
      apply (inv_ready _ _ _ Hinv). split; [done|]. exists s. split; [done|].
      apply waiting_zero. intros d Hd. eapply (IH ([y] ++ after)); [done|].
      eapply (Hbefore before y after); [done|]. by exists s. }
    apply Hlen. apply (Nat.le_antisymm); [by eapply order_inv_bound|].
    rewrite <- size_dom, <- (size_list_to_set (C := gset str) order) by apply Hinv.
    apply subseteq_size. intros x Hx%elem_of_dom%Hall. apply elem_of_list_to_set.
    apply (Hin l []); [by rewrite app_nil_r|done].
Qed.
End loop.

(** ** Preparation *)

(** The properties of a stored service, [request] being the one it was made from. *)
Definition prepared_from (fs : FileSystem) (root : str) (request s : RuntimeServiceRequest) : Prop :=
  ∃ directory,
    s = prepared_service request directory ∧
    canonical_directory fs (rs_working_directory request) = Some directory ∧
    path_starts_with directory root = true ∧
    valid_identifier (rs_id s) MAX_SERVICE_ID_BYTES = true ∧
    validate_command s = Ok () ∧ rs_preferred_port s ≠ 0 ∧ rs_startup_timeout s ≠ 0.

Record prepare_inv (fs : FileSystem) (root : str) (requests : list RuntimeServiceRequest)
    (state : gmap str RuntimeServiceRequest * gset str) : Prop := {
  pi_service id s : state.1 !! id = Some s →
    rs_id s = id ∧ ∃ request, request ∈ requests ∧ prepared_from fs root request s;
  pi_tokens id s : state.1 !! id = Some s → environment_token id ∈ state.2;
  pi_distinct id id' s s' : state.1 !! id = Some s → state.1 !! id' = Some s' →
    environment_token id = environment_token id' → id = id';
  pi_size : size state.1 = length requests
}.

Lemma prepare_service_Ok fs root state request state' :
  prepare_service fs root state request = Ok state' →
  ∃ s, prepared_from fs root request s ∧
    state.1 !! rs_id s = None ∧ (environment_token (rs_id s) ∉ state.2) ∧
    state' = (<[rs_id s := s]> state.1, {[environment_token (rs_id s)]} ∪ state.2).
Proof.
  unfold prepare_service. destruct state as [services tokens].
  intros (? & Hid & H)%rbind_Ok. apply rbind_Ok in H as (? & Hnew & H).
  apply rbind_Ok in H as (? & Htok & H). apply rbind_Ok in H as (directory & Hdir & H).
  apply rbind_Ok in H as (? & Hpath & H). apply rbind_Ok in H as ([] & Hcmd & H).
  apply rbind_Ok in H as (? & Hport & H). apply rbind_Ok in H as (? & Htime & [= <-]).
  rewrite guard_err_Ok in Hid, Hnew, Htok, Hpath, Hport, Htime. bool_split.
  exists (prepared_service request directory). cbn [fst snd]. split_and!; try done.
  - exists directory. split_and!; try done.
    destruct (canonical_directory _ _); cbn in Hdir; congruence.
  - by apply eq_None_not_Some.
Qed.

Lemma prepare_inv_step fs root requests state request state' :
  prepare_inv fs root requests state → prepare_service fs root state request = Ok state' →
  prepare_inv fs root (requests ++ [request]) state'.
Proof.
  intros Hinv (s & Hs & Hnew & Htok & ->)%prepare_service_Ok. split; cbn [fst snd].
  - intros id x [[<- <-]|[Hne Hx]]%lookup_insert_Some.
    + split; [done|]. exists request. split; [set_solver|done].
    + apply (pi_service _ _ _ _ Hinv) in Hx as (Hid & r & Hr & Hp). split; [done|].
      exists r. split; [set_solver|done].
  - intros id x [[<- <-]|[Hne Hx]]%lookup_insert_Some; [set_solver|].
    apply (pi_tokens _ _ _ _ Hinv) in Hx. set_solver.
  - intros id id' x x' [[<- <-]|[Hne Hx]]%lookup_insert_Some
      [[<- <-]|[Hne' Hx']]%lookup_insert_Some Heq; [done| | |by eapply (pi_distinct _ _ _ _ Hinv)].
    + exfalso. apply Htok. rewrite Heq. by eapply (pi_tokens _ _ _ _ Hinv).
    + exfalso. apply Htok. rewrite <- Heq. by eapply (pi_tokens _ _ _ _ Hinv).
  - rewrite map_size_insert_None by done. rewrite length_app, (pi_size _ _ _ _ Hinv). cbn. lia.
Qed.

Lemma prepare_services_inv fs root requests state :
  try_fold (prepare_service fs root) (∅, ∅) requests = Ok state →
  prepare_inv fs root requests state.
Proof.
  intros Hrun. apply (try_fold_ind _ (prepare_inv fs root) _ _ _ Hrun).
  - split; cbn; first [done | intros; set_solver].
  - intros before r after s s' _ Hs Hr. by eapply prepare_inv_step.
Qed.

Lemma check_dependencies_Ok services :
  check_dependencies services = Ok () →
  ∀ id s d, services !! id = Some s → d ∈ rs_depends_on s → is_Some (services !! d).
Proof.
  unfold check_dependencies. intros Hrun id s d Hs%elem_of_bt_iter Hd.
  pose proof (try_fold_ind _ (λ l _, ∀ e, e ∈ l → ∀ d, d ∈ rs_depends_on e.2 →
    is_Some (services !! d)) _ _ _ Hrun) as Hall. cbn beta in Hall.
  eapply (Hall _ _ (id, s) Hs d Hd). Unshelve.
  - by intros e ?%elem_of_nil.
  - intros before e after [] [] _ Hbefore Hstep e' [He' | ->%list_elem_of_singleton]%elem_of_app d' Hd';
      [by eapply Hbefore|].
    pose proof (try_fold_ind _ (λ l _, ∀ d, d ∈ l → is_Some (services !! d)) _ _ _ Hstep) as Hdeps.
    cbn beta in Hdeps. eapply (Hdeps _ _ d' Hd'). Unshelve.
    + by intros x ?%elem_of_nil.
    + intros b x a [] [] _ Hb Hg x' [Hx' | ->%list_elem_of_singleton]%elem_of_app; [by apply Hb|].
      apply guard_err_Ok in Hg. bool_split. by apply not_eq_None_Some.
Qed.

Lemma prepared_services_ok fs root requests state :
  prepare_inv fs root requests state → check_dependencies state.1 = Ok () →
  services_ok state.1.
Proof.
  intros Hinv Hdeps id s Hs. destruct (pi_service _ _ _ _ Hinv id s Hs) as (Hid & r & _ & Hp).
  split_and!; [done| |].
  - destruct Hp as (directory & -> & _). cbn.
    apply (StronglySorted_Lt_NoDup str_cmp), (dedup_sort_sorted str_cmp).
  - intros d Hd. by eapply check_dependencies_Ok.
Qed.

Lemma take_services_spec services ids :
  NoDup ids → (∀ id, id ∈ ids → ∃ s, services !! id = Some s ∧ rs_id s = id) →
  rs_id <$> take_services ids services = ids ∧
  ∀ s, s ∈ take_services ids services → services !! rs_id s = Some s.
Proof.
  intros Hnd. revert services; induction Hnd as [|id ids Hid _ IH]; intros services Hall.
  - split; [done|]. by intros s ?%elem_of_nil.
  - destruct (Hall id) as (s & Hs & Hsid); [left|]. cbn. rewrite Hs.
    destruct (IH (delete id services)) as [Hids Hin].
    { intros x Hx. destruct (Hall x) as (sx & Hsx & Hxid); [by right|]. exists sx.
      rewrite lookup_delete_ne; [done|]. congruence. }
    rewrite fmap_cons, Hids, Hsid. split; [done|].
    intros x [->|Hx]%elem_of_cons; [by rewrite Hsid|].
    apply Hin in Hx. by apply lookup_delete_Some in Hx as [_ ?].
Qed.

(** The services of a prepared stack in their start order. *)
Definition start_order (services : list RuntimeServiceRequest) : Prop :=
  ∀ before s after, services = before ++ s :: after →
    ∀ d, d ∈ rs_depends_on s → ∃ s', s' ∈ before ∧ rs_id s' = d.

(** What a prepared stack promises to the code that starts it. *)
Record stack_prepared (fs : FileSystem) (limits : RuntimeLimits) (request : RuntimeStackRequest)
    (prepared : PreparedStack) : Prop := {
  sp_key : pp_key prepared = {| rk_workspace_id := rq_workspace_id request;
                                rk_stack_id := rq_stack_id request |};
  sp_length : length (pp_services prepared) = length (rq_services request);
  sp_bounds : (0 < length (pp_services prepared) ≤ max_services_per_stack limits)%nat;
  sp_service s : s ∈ pp_services prepared →
    ∃ r, r ∈ rq_services request ∧ prepared_from fs (pp_workspace_root prepared) r s;
  sp_ids : NoDup (rs_id <$> pp_services prepared);
  sp_tokens : NoDup (environment_token ∘ rs_id <$> pp_services prepared);
  sp_order : start_order (pp_services prepared)
}.

(** No arrangement of the prepared services puts dependencies first. *)
Definition no_start_order (services : gmap str RuntimeServiceRequest) : Prop :=
  ∀ order, order ≡ₚ (map_to_list services).*2 → ¬ start_order order.

Lemma topological_take services order :
  services_ok services → topological services order →
  rs_id <$> take_services order services = order ∧
  (∀ s, s ∈ take_services order services → services !! rs_id s = Some s) ∧
  start_order (take_services order services).
Proof.
  intros Hok (Hnd & Hall & Hbefore).
  destruct (take_services_spec services order Hnd) as [Hids Hin].
  { intros id [s Hs]%Hall. exists s. split; [done|]. by apply Hok in Hs as [? _]. }
  split_and!; [done|done|]. intros before s after Heq d Hd.
  assert (s ∈ take_services order services) as Hs by (rewrite Heq; set_solver).
  rewrite Heq, fmap_app, fmap_cons in Hids.
  assert (d ∈ rs_id <$> before) as (s' & -> & Hs')%list_elem_of_fmap; [|by eauto].
  apply (Hbefore _ _ _ (eq_sym Hids)). exists s. split; [by apply Hin|done].
Qed.

(** A start order of the services of a map gives a topological order of its keys. *)
Lemma start_order_topological services order :
  services_ok services → order ≡ₚ (map_to_list services).*2 → start_order order →
  topological services (rs_id <$> order).
Proof.
  intros Hok Hp Hs.
  assert (rs_id <$> (map_to_list services).*2 = (map_to_list services).*1) as Hids.
  { rewrite <- list_fmap_compose. apply list_fmap_ext. intros i [id s] Hi%list_elem_of_lookup_2.
    apply elem_of_map_to_list, Hok in Hi as [? _]. done. }
  assert (∀ s, s ∈ order → services !! rs_id s = Some s) as Hin.
  { intros s. rewrite Hp. intros ([id s'] & -> & Hi)%list_elem_of_fmap.
    apply elem_of_map_to_list in Hi. cbn. by destruct (Hok _ _ Hi) as [-> _]. }
  split_and!.
  - rewrite Hp, Hids. apply NoDup_fst_map_to_list.
  - intros id. rewrite Hp, Hids, list_elem_of_fmap. split.
    + intros ([id' s] & -> & Hi%elem_of_map_to_list). by eexists.
    + intros [s Hs']. exists (id, s). split; [done|]. by apply elem_of_map_to_list.
  - intros before id after Heq d (s & Hsome & Hd).
    apply fmap_app_inv in Heq as (b & a & -> & Heq & ->).
    symmetry in Heq. apply fmap_cons_inv in Heq as (s' & a' & -> & -> & ->).
    assert (services !! rs_id s' = Some s') as Hs' by (apply Hin; set_solver).
    assert (s' = s) as -> by congruence.
    destruct (Hs b s a' eq_refl d Hd) as (s'' & Hs'' & <-).
    apply list_elem_of_fmap. by exists s''.
Qed.

Lemma prepare_service_no_cycle fs root state request :
  prepare_service fs root state request ≠ Err DependencyCycle.
Proof.
  unfold prepare_service, validate_command. destruct state as [services tokens].
  repeat case_match; intros He; repeat (apply rbind_Err in He as [He|(? & _ & He)]); try done;
    repeat match goal with
    | H : guard_err _ _ = Err _ |- _ => apply guard_err_Err in H as [_ H]; done
    | H : ok_or ?o _ = Err _ |- _ => destruct o; done
    end.
Qed.

Lemma check_dependencies_no_cycle services : check_dependencies services ≠ Err DependencyCycle.
Proof.
  intros (? & ? & ? & He)%try_fold_Err. apply try_fold_Err in He as (? & ? & ? & He).
  by apply guard_err_Err in He as [_ ?].
Qed.

Lemma prepare_stack_spec fs request limits :
  ∃ outcome, prepare_stack fs request limits = Some outcome ∧
    match outcome with
    | Ok prepared => stack_prepared fs limits request prepared
    | Err DependencyCycle => ∃ root state,
        try_fold (prepare_service fs root) (∅, ∅) (rq_services request) = Ok state ∧
        no_start_order state.1
    | Err _ => True
    end.
Proof.
  unfold prepare_stack.
  destruct (negb (valid_identifier _ _)); [by eexists|].
  destruct (bool_decide (rq_services request = [])) eqn:Hne; [by eexists|].
  destruct (_ || _) eqn:Hcap; [by eexists|].
  destruct (canonical_directory fs _) as [root|]; [|by eexists].
  destruct (negb (path_eqb _ _)); [by eexists|].
  destruct (try_fold (prepare_service fs root) _ _) as [[services tokens]|e] eqn:Hrun.
  2: { exists (Err e). split; [done|]. apply try_fold_Err in Hrun as (? & ? & ? & He).
       destruct e; try done. by apply prepare_service_no_cycle in He. }
  destruct (check_dependencies services) as [[]|e] eqn:Hdeps.
  2: { exists (Err e). split; [done|]. destruct e; try done. by apply check_dependencies_no_cycle in Hdeps. }
  pose proof (prepare_services_inv _ _ _ _ Hrun) as Hinv.
  pose proof (prepared_services_ok _ _ _ _ Hinv Hdeps) as Hok. cbn [fst] in Hok.
  destruct (dependency_order_spec services Hok) as (outcome & -> & Hout).
  destruct outcome as [order|e]; (eexists; split; [done|]).
  - destruct (topological_take services order Hok Hout) as (Hids & Hin & Hstart).
    destruct Hout as (Hnd & Hall & _).
    assert (length order = length (rq_services request)) as Hlen.
    { rewrite <- (pi_size _ _ _ _ Hinv). cbn [fst]. rewrite <- size_dom.
      rewrite <- (size_list_to_set (C := gset str) order) by done. f_equal. apply set_eq. intros x.
      by rewrite elem_of_list_to_set, elem_of_dom, Hall. }
    assert (length (take_services order services) = length (rq_services request)) as Hlen'.
    { rewrite <- Hlen. transitivity (length (rs_id <$> take_services order services));
        [by rewrite length_fmap|by rewrite Hids]. }
    bool_split. split; cbn [pp_services pp_key pp_workspace_root]; try done.
    + rewrite Hlen'. split; [|lia]. destruct (rq_services request); [done|cbn; lia].
    + intros s Hs%Hin. apply (pi_service _ _ _ _ Hinv) in Hs as [_ Hs]. done.
    + by rewrite Hids.
    + rewrite list_fmap_compose, Hids. apply NoDup_fmap_2_strong; [|done].
      intros x y [sx Hx]%Hall [sy Hy]%Hall Hxy. by eapply (pi_distinct _ _ _ _ Hinv).
  - destruct Hout as [-> Hno]. exists root, (services, tokens). split; [done|].
    intros order Hp Hs. apply (Hno (rs_id <$> order)). by apply start_order_topological.
Qed.

(** C14: Preparation always ends without a panic. An accepted stack holds the requested services,
    each valid and inside the workspace, with distinct identifiers and environment tokens, in
    an order that starts dependencies first; a cycle is reported only when there is no such
    order. *)
Theorem prepare_stack_decides fs request limits :
  ∃ outcome, prepare_stack fs request limits = Some outcome ∧
    match outcome with
    | Ok prepared => stack_prepared fs limits request prepared
    | Err DependencyCycle => ∃ root state,
        try_fold (prepare_service fs root) (∅, ∅) (rq_services request) = Ok state ∧
        no_start_order state.1
    | Err _ => True
    end.
Proof. apply prepare_stack_spec. Qed.
