(* ===== verification/RuntimeEndpoints.v ===== *)
(** * Ports and environments of the services of a stack

    Reserved ports are free, distinct and not below the preferred one; the variables that the
    supervisor owns cannot be overridden by a request and name the right service. *)

From S2P Require Import Prelude Order Text Digest StoreBase Runtime RuntimeOrder.

Local Open Scope N_scope.

(** ** Ports *)

Lemma elem_of_ports_from preferred port :
  port ∈ ports_from preferred ↔ preferred ≤ port ≤ u16_max.
Proof.
  unfold ports_from, u16_max. rewrite list_elem_of_fmap. setoid_rewrite elem_of_seq. split.
  - intros (n & -> & Hn). lia.
  - intros Hp. exists (N.to_nat (port - preferred)). lia.
Qed.

Lemma reserve_port_Some can_bind preferred claimed port :
  reserve_port can_bind preferred claimed = Some port →
  preferred ≤ port ≤ u16_max ∧ (port ∉ claimed) ∧ can_bind port = true.
Proof.
  unfold reserve_port. intros [[Hn Hb] Hp]%head_Some_elem_of%list_elem_of_filter.
  by apply elem_of_ports_from in Hp.
Qed.

(** A port is refused only when every port from the preferred one on is taken. *)
Lemma reserve_port_None can_bind preferred claimed :
  reserve_port can_bind preferred claimed = None →
  ∀ port, preferred ≤ port ≤ u16_max → port ∈ claimed ∨ can_bind port = false.
Proof.
  unfold reserve_port. intros Hh port Hp%elem_of_ports_from.
  destruct (filter _ _) as [|x l] eqn:Hf; [|done].
  destruct (decide (port ∈ claimed)) as [|Hn]; [by left|]. right.
  destruct (can_bind port) eqn:Hb; [|done]. exfalso.
  assert (port ∈ filter (λ port, (port ∉ claimed) ∧ can_bind port = true) (ports_from preferred))
    as Hin by by apply list_elem_of_filter.
  rewrite Hf in Hin. by apply elem_of_nil in Hin.
Qed.

(** The port of a reserved service. *)
Definition port_of (r : ReservedService) : N := ep_port (rv_endpoint r).

Lemma reserve_services_Ok can_bind services claimed reserved :
  reserve_services can_bind services claimed = Ok reserved →
  rv_request <$> reserved = services ∧
  NoDup (port_of <$> reserved) ∧
  (∀ r, r ∈ reserved → (port_of r ∉ claimed) ∧ can_bind (port_of r) = true ∧
     rs_preferred_port (rv_request r) ≤ port_of r ≤ u16_max ∧
     ep_host (rv_endpoint r) = LOOPBACK_HOST).
Proof.
  revert claimed reserved; induction services as [|s services IH]; intros claimed reserved; cbn.
  - intros [= <-]. split_and!; [done|constructor|]. by intros r ?%elem_of_nil.
  - intros (port & Hp & H)%rbind_Ok. apply rbind_Ok in H as (rest & Hrest & [= <-]).
    destruct (reserve_port _ _ _) as [p|] eqn:Hres; [|done]. cbn in Hp. injection Hp as ->.
    apply reserve_port_Some in Hres as (Hrange & Hn & Hb).
    destruct (IH _ _ Hrest) as (Hreq & Hnd & Hall). cbn. rewrite Hreq. split_and!; [done| |].
    + constructor; [|done]. intros (r & Heq & Hr)%list_elem_of_fmap.
      destruct (Hall r Hr) as [Hclaim _]. apply Hclaim. rewrite <- Heq. set_solver.
    + intros r [->|Hr]%elem_of_cons; [done|].
      destruct (Hall r Hr) as (Hclaim & Hrest'). split; [set_solver|done].
Qed.

(** ** Environments *)

Lemma set_env_miss (m : gmap str str) l k : (k ∉ l.*1) → set_env m l !! k = m !! k.
Proof.
  intros Hk. unfold set_env. rewrite foldl_insert_list_to_map.
  rewrite lookup_union_r; [done|]. apply not_elem_of_list_to_map_1.
  by rewrite fmap_reverse, elem_of_reverse.
Qed.

Lemma set_env_hit (m : gmap str str) l k v :
  (k, v) ∈ l → (∀ w, (k, w) ∈ l → w = v) → set_env m l !! k = Some v.
Proof.
  intros Hin Huniq. unfold set_env. rewrite foldl_insert_list_to_map. apply lookup_union_Some_l.
  apply elem_of_list_to_map_1'; [|by rewrite elem_of_reverse].
  intros w Hw. rewrite elem_of_reverse in Hw. symmetry. auto.
Qed.

Lemma set_env_map (m n : gmap str str) k :
  set_env m (bt_iter n) !! k = match n !! k with Some v => Some v | None => m !! k end.
Proof.
  destruct (n !! k) as [v|] eqn:Hn.
  - apply set_env_hit; [by apply elem_of_bt_iter|]. intros w Hw%elem_of_bt_iter. congruence.
  - apply set_env_miss. intros ([k' v] & -> & Hin%elem_of_bt_iter)%list_elem_of_fmap.
    cbn in Hn. congruence.
Qed.

Lemma starts_with_app p s : starts_with p (p ++ s) = true.
Proof.
  unfold starts_with. assert (strip_prefix p (p ++ s) = Some s) as ->; [|done].
  induction p as [|c p IH]; [done|]. cbn. by rewrite N.eqb_refl.
Qed.

Lemma host_port_neq a b : host_name a ≠ port_name b.
Proof.
  intros Heq%(f_equal reverse). unfold host_name, port_name in Heq.
  rewrite !app_assoc, !reverse_app in Heq. by vm_compute in Heq.
Qed.

Lemma host_name_inj a b : host_name a = host_name b → environment_token a = environment_token b.
Proof. unfold host_name. by intros Heq%app_inv_head%app_inv_tail. Qed.

Lemma port_name_inj a b : port_name a = port_name b → environment_token a = environment_token b.
Proof. unfold port_name. by intros Heq%app_inv_head%app_inv_tail. Qed.

Definition service_token (r : ReservedService) : str := environment_token (rs_id (rv_request r)).

(** The last write of each variable of [endpoint_environment]. *)
Lemma endpoint_environment_spec services :
  NoDup (service_token <$> services) →
  (∀ r, r ∈ services →
     endpoint_environment services !! host_name (rs_id (rv_request r)) = Some LOOPBACK_HOST ∧
     endpoint_environment services !! port_name (rs_id (rv_request r)) = Some (dec (port_of r))) ∧
  ∀ name value, endpoint_environment services !! name = Some value →
    ∃ r, r ∈ services ∧
      (name = host_name (rs_id (rv_request r)) ∨ name = port_name (rs_id (rv_request r))).
Proof.
  unfold endpoint_environment. induction services as [|r services IH] using rev_ind.
  - intros _. split; [by intros r ?%elem_of_nil|]. intros name value [=].
  - rewrite fmap_app, NoDup_app. intros (Hnd & Hr & _). specialize (IH Hnd) as [IH1 IH2].
    rewrite foldl_snoc. split.
    + intros x [Hx | ->%list_elem_of_singleton]%elem_of_app.
      * assert (service_token r ≠ service_token x) as Hne.
        { intros Heq. apply (Hr (service_token x)); [by apply list_elem_of_fmap_2|].
          rewrite <- Heq. left. }
        destruct (IH1 x Hx) as [Hh Hp]. split.
        -- rewrite lookup_insert_ne by (intros H; by apply (host_port_neq (rs_id (rv_request x))
             (rs_id (rv_request r)))). rewrite lookup_insert_ne; [done|].
           intros H%host_name_inj. by apply Hne.
        -- rewrite lookup_insert_ne by (intros H%port_name_inj; by apply Hne).
           rewrite lookup_insert_ne; [done|]. apply host_port_neq.
      * split; [|by rewrite lookup_insert_eq].
        rewrite lookup_insert_ne; [by rewrite lookup_insert_eq|].
        intros H. by apply (host_port_neq (rs_id (rv_request r)) (rs_id (rv_request r))).
    + intros name value [[<- _]|[_ [[<- _]|[_ Hn]]%lookup_insert_Some]]%lookup_insert_Some.
      * exists r. split; [set_solver|by right].
      * exists r. split; [set_solver|by left].
      * destruct (IH2 _ _ Hn) as (x & Hx & Hname). exists x. split; [set_solver|done].
Qed.

(** ** The environment of a child *)

Lemma validated_environment s name value :
  validate_command s = Ok () → rs_environment s !! name = Some value →
  reserved_environment_name name = false.
Proof.
  unfold validate_command. intros (? & _ & H)%rbind_Ok Hn. apply rbind_Ok in H as (? & _ & H).
  apply guard_err_Ok, orb_false_elim in H as [_ He].
  destruct (reserved_environment_name name) eqn:Hr; [|done].
  exfalso. apply not_true_iff_false in He. apply He, existsb_spec. exists (name, value).
  split; [by apply elem_of_bt_iter|]. rewrite Hr. by destruct (negb _).
Qed.

Lemma reserved_prefix name : reserved_environment_name name = false →
  starts_with (lit "WTS_SERVICE_") name = false ∧ (name ∉ RESERVED_NAMES).
Proof. unfold reserved_environment_name. intros [H1 H2]%orb_false_elim. bool_split. done. Qed.

Lemma host_name_service a : starts_with (lit "WTS_SERVICE_") (host_name a) = true.
Proof. apply starts_with_app. Qed.

Lemma port_name_service a : starts_with (lit "WTS_SERVICE_") (port_name a) = true.
Proof. apply starts_with_app. Qed.

(** The seven variables set last. *)
Definition own_variables (uuid_to_string : Uuid → str) (key : RuntimeStackKey)
    (request : RuntimeServiceRequest) (endpoint : RuntimeEndpoint) : list (str * str) :=
  [(lit "WTS_WORKSPACE_ID", uuid_to_string (rk_workspace_id key));
   (lit "WTS_STACK_ID", rk_stack_id key);
   (lit "WTS_SERVICE_ID", rs_id request);
   (lit "WTS_HOST", LOOPBACK_HOST);
   (lit "WTS_PORT", dec (ep_port endpoint));
   (lit "HOST", LOOPBACK_HOST);
   (lit "PORT", dec (ep_port endpoint))].

Lemma own_variables_keys uts key request endpoint :
  NoDup (own_variables uts key request endpoint).*1 ∧
  (∀ name, name ∈ (own_variables uts key request endpoint).*1 → name ∈ RESERVED_NAMES).
Proof.
  split.
  - apply (bool_decide_unpack _). by vm_compute.
  - intros name Hn. cbn in Hn. unfold RESERVED_NAMES. cbn. set_solver.
Qed.

(** The variables of services are longer than the seven. *)
Lemma own_variables_short uts key request endpoint name :
  name ∈ (own_variables uts key request endpoint).*1 → (length name ≤ 16)%nat.
Proof.
  cbn. rewrite !elem_of_cons, elem_of_nil.
  intros [->|[->|[->|[->|[->|[->|[->|[]]]]]]]]; vm_compute; lia.
Qed.

Lemma service_name_long a name :
  name = host_name a ∨ name = port_name a → (17 ≤ length name)%nat.
Proof.
  intros [-> | ->]; unfold host_name, port_name; rewrite !length_app;
    change (length (lit "WTS_SERVICE_")) with 12%nat;
    [change (length (lit "_HOST")) with 5%nat|change (length (lit "_PORT")) with 5%nat]; lia.
Qed.

Lemma child_environment_eq uts parent key request endpoint endpoints :
  child_environment uts parent key request endpoint endpoints
  = set_env (set_env (set_env (set_env ∅
      (omap (λ name, (λ value, (name, value)) <$> parent !! name) INHERITED_NAMES))
      (bt_iter (rs_environment request))) (bt_iter endpoints))
      (own_variables uts key request endpoint).
Proof. done. Qed.

(** In the environment of each child of a prepared stack the variables of the supervisor have
    the supervisor's values, whatever the request sets: its own port and identity, and the
    address of every service of the stack; every variable of the request is passed on. *)
Theorem child_environment_authority uts parent fs limits request prepared can_bind claimed
    reserved r :
  prepare_stack fs request limits = Some (Ok prepared) →
  reserve_services can_bind (pp_services prepared) claimed = Ok reserved →
  r ∈ reserved →
  let environment := child_environment uts parent (pp_key prepared) (rv_request r)
                       (rv_endpoint r) (endpoint_environment reserved) in
  (∀ name value,
     (name, value) ∈ own_variables uts (pp_key prepared) (rv_request r) (rv_endpoint r) →
     environment !! name = Some value) ∧
  (∀ peer, peer ∈ reserved →
     environment !! host_name (rs_id (rv_request peer)) = Some LOOPBACK_HOST ∧
     environment !! port_name (rs_id (rv_request peer)) = Some (dec (port_of peer))) ∧
  (∀ name value, rs_environment (rv_request r) !! name = Some value →
     environment !! name = Some value).
Proof.
  intros Hprep Hres Hr environment. subst environment. rewrite child_environment_eq.
  destruct (prepare_stack_spec fs request limits) as (outcome & Hout & Hspec).
  rewrite Hprep in Hout. injection Hout as <-.
  destruct (reserve_services_Ok _ _ _ _ Hres) as (Hreq & _ & _).
  pose proof (sp_tokens _ _ _ _ Hspec) as Htok. rewrite <- Hreq, <- list_fmap_compose in Htok.
  destruct (endpoint_environment_spec reserved Htok) as [Hpeer Honly].
  set (own := own_variables _ _ _ _).
  destruct (own_variables_keys uts (pp_key prepared) (rv_request r) (rv_endpoint r)) as [Hnd Hown].
  split_and!.
  - intros name value Hin. apply set_env_hit; [done|]. intros w Hw.
    assert ((name, w) = (name, value)) as [= ->]; [|done].
    by apply (NoDup_key_inj fst own).
  - intros peer Hp. destruct (Hpeer peer Hp) as [Hh Hpo].
    assert (∀ name, name = host_name (rs_id (rv_request peer)) ∨
      name = port_name (rs_id (rv_request peer)) → name ∉ own.*1) as Hmiss.
    { intros name Hlong%service_name_long Hin%own_variables_short. lia. }
    rewrite (set_env_miss _ own (host_name _)), (set_env_miss _ own (port_name _)) by auto.
    by rewrite !set_env_map, Hh, Hpo.
  - intros name value Hn.
    assert (reserved_environment_name name = false) as [Hpre Hnot]%reserved_prefix.
    { assert (rv_request r ∈ pp_services prepared) as Hin
        by (rewrite <- Hreq; by apply list_elem_of_fmap_2).
      apply (sp_service _ _ _ _ Hspec) in Hin as (q & _ & d & _ & _ & _ & _ & Hcmd & _).
      by eapply validated_environment. }
    rewrite set_env_miss by (intros Hin; by apply Hnot, Hown). rewrite set_env_map.
    destruct (endpoint_environment reserved !! name) as [v|] eqn:He; [|by rewrite set_env_map, Hn].
    exfalso. apply Honly in He as (x & _ & [-> | ->]);
      [by rewrite host_name_service in Hpre|by rewrite port_name_service in Hpre].
Qed.
