(* ===== verification/RuntimeSupervisor.v ===== *)
(** * The runtime supervisor: stacks and their processes ([crates/wts-app/src/runtime.rs])

    The state of a supervisor is its map of managed stacks, together with the set of child
    processes it has spawned that are still alive.  What the operating system and the caller's
    cancellation flag show to each call is an input. *)

From S2P Require Import Prelude Order Text Digest StoreBase Runtime.

Local Open Scope N_scope.

(** ** Managed services *)

Inductive RuntimeServiceState := SvcStarting | SvcRunning | SvcHealthy | SvcUnhealthy | SvcExited | SvcStopped.
Inductive RuntimeStackState := StackStarting | StackHealthy | StackDegraded | StackStopped.

#[export] Instance service_state_eq_dec : EqDecision RuntimeServiceState.
Proof. solve_decision. Defined.

Record ManagedService := {
  ms_id : str;
  ms_endpoint : RuntimeEndpoint;
  ms_child : N;
  ms_state : RuntimeServiceState;
  ms_exit_code : option Z;
  ms_started_at_unix_ms : N;
  ms_observed_at_unix_ms : N;
  ms_reaped : bool;
  ms_health_check : RuntimeHealthCheck
}.

Record ManagedStack := {
  mk_key : RuntimeStackKey;
  mk_workspace_root : str;
  mk_services : list ManagedService;
  mk_started_at_unix_ms : N
}.

Record RuntimeServiceSnapshot := {
  sn_id : str;
  sn_endpoint : RuntimeEndpoint;
  sn_process_id : N;
  sn_state : RuntimeServiceState;
  sn_exit_code : option Z;
  sn_started_at_unix_ms : N;
  sn_observed_at_unix_ms : N
}.

Record RuntimeStackSnapshot := {
  st_key : RuntimeStackKey;
  st_workspace_root_display_path : str;
  st_state : RuntimeStackState;
  st_services : list RuntimeServiceSnapshot;
  st_started_at_unix_ms : N;
  st_observed_at_unix_ms : N
}.

Inductive RuntimePressure := PressureNormal | PressureElevated | PressureCritical.
Inductive RuntimePressureAction := StopIndexing | PauseHealthPolling | OfferParkLeastRecentlyUsed.

Record RuntimePressurePolicy := {
  po_stop_indexing : bool;
  po_pause_health_polling : bool;
  po_offer_park_least_recently_used : bool
}.

Record RuntimeResourceSnapshot := {
  rr_stack_count : nat;
  rr_service_count : nat;
  rr_process_count : nat;
  rr_aggregate_rss_kib : option N;
  rr_pressure : RuntimePressure
}.

Definition actions (pressure : RuntimePressure) (policy : RuntimePressurePolicy) :
    list RuntimePressureAction :=
  match pressure with
  | PressureNormal => []
  | _ =>
      (if po_stop_indexing policy then [StopIndexing] else [])
      ++ (if po_pause_health_polling policy then [PauseHealthPolling] else [])
      ++ (match pressure with
          | PressureCritical =>
              if po_offer_park_least_recently_used policy then [OfferParkLeastRecentlyUsed] else []
          | _ => []
          end)
  end.

Definition stack_state (services : list ManagedService) : RuntimeStackState :=
  if forallb (λ s, bool_decide (ms_state s = SvcStopped)) services then StackStopped
  else if forallb (λ s, bool_decide (ms_state s = SvcHealthy) || bool_decide (ms_state s = SvcRunning))
            services then StackHealthy
  else if existsb (λ s, bool_decide (ms_state s = SvcStarting)) services then StackStarting
  else StackDegraded.

Definition service_snapshot (s : ManagedService) : RuntimeServiceSnapshot :=
  {| sn_id := ms_id s; sn_endpoint := ms_endpoint s; sn_process_id := ms_child s;
     sn_state := ms_state s; sn_exit_code := ms_exit_code s;
     sn_started_at_unix_ms := ms_started_at_unix_ms s;
     sn_observed_at_unix_ms := ms_observed_at_unix_ms s |}.

Definition stack_snapshot (stack : ManagedStack) : RuntimeStackSnapshot :=
  {| st_key := mk_key stack; st_workspace_root_display_path := mk_workspace_root stack;
     st_state := stack_state (mk_services stack);
     st_services := service_snapshot <$> mk_services stack;
     st_started_at_unix_ms := mk_started_at_unix_ms stack;
     st_observed_at_unix_ms :=
       match ms_observed_at_unix_ms <$> mk_services stack with
       | [] => mk_started_at_unix_ms stack
       | first :: rest => foldl N.max first rest
       end |}.

(** The fields that observation changes. *)
Definition observed (s : ManagedService) (state : RuntimeServiceState) (exit_code : option Z)
    (at_unix_ms : N) (reaped : bool) : ManagedService :=
  {| ms_id := ms_id s; ms_endpoint := ms_endpoint s; ms_child := ms_child s; ms_state := state;
     ms_exit_code := exit_code; ms_started_at_unix_ms := ms_started_at_unix_ms s;
     ms_observed_at_unix_ms := at_unix_ms; ms_reaped := reaped;
     ms_health_check := ms_health_check s |}.

(** ** Waiting for a service *)

(** [child.try_wait()]. *)
Inductive WaitOutcome :=
| StillRunning
| HasExited (code : option Z)
| WaitFailed.

(** What one turn of the polling loop sees; [elapsed] is the time since its start. *)
Record Poll := {
  pl_cancelled : bool;
  pl_now : N;
  pl_wait : WaitOutcome;
  pl_elapsed : N;
  pl_accepts : bool
}.

Definition adaptive_poll_interval (base elapsed : N) : N :=
  let steps := N.min (elapsed / 1000000 / 500) 4 in
  N.min (N.min (base * 2 ^ steps) duration_max) (from_secs 2).

(** [None]: the polls given are used up and the loop is still waiting. *)
Fixpoint wait_until_ready (service : ManagedService) (timeout : N) (polls : list Poll) :
    option (result () RuntimeError * ManagedService) :=
  match polls with
  | [] => None
  | poll :: polls' =>
      if pl_cancelled poll then Some (Err Cancelled, service)
      else
        let service := observed service (ms_state service) (ms_exit_code service) (pl_now poll)
                         (ms_reaped service) in
        match pl_wait poll with
        | HasExited code =>
            Some (Err (StartupExited (ms_id service)),
                  observed service SvcExited code (pl_now poll) true)
        | WaitFailed => Some (Err (ProcessObservationFailed (ms_id service)), service)
        | StillRunning =>
            if decide (ms_health_check service = ProcessCheck) then
              Some (Ok (), observed service SvcRunning (ms_exit_code service) (pl_now poll)
                             (ms_reaped service))
            else if timeout <=? pl_elapsed poll then
              Some (Err (StartupTimedOut (ms_id service)),
                    observed service SvcUnhealthy (ms_exit_code service) (pl_now poll)
                      (ms_reaped service))
            else if pl_accepts poll then
              Some (Ok (), observed service SvcHealthy (ms_exit_code service) (pl_now poll)
                             (ms_reaped service))
            else wait_until_ready service timeout polls'
        end
  end.

(** ** Stopping *)

(** What the operating system shows while services are stopped: whether the process group of a
    child could be terminated and waited for, and the time. *)
Record StopEnv := {
  se_terminates : N → bool;
  se_now : N
}.

Definition stop_service (env : StopEnv) (s : ManagedService) : ManagedService :=
  if se_terminates env (ms_child s)
  then observed s SvcStopped (ms_exit_code s) (se_now env) true
  else observed s SvcUnhealthy (ms_exit_code s) (se_now env) (ms_reaped s).

(** The stopped services, whether all were, and the processes that are left. *)
Definition stop_services (env : StopEnv) (services : list ManagedService) (live : gset N) :
    list ManagedService * bool * gset N :=
  (stop_service env <$> services,
   forallb (λ s, se_terminates env (ms_child s)) services,
   live ∖ list_to_set (ms_child <$> filter (λ s, se_terminates env (ms_child s) = true) services)).

(** ** The state *)

#[export] Instance stack_key_eq_dec : EqDecision RuntimeStackKey.
Proof. solve_decision. Defined.
#[export] Instance stack_key_countable : Countable RuntimeStackKey.
Proof.
  refine (inj_countable' (λ k, (rk_workspace_id k, rk_stack_id k))
    (λ '(w, s), {| rk_workspace_id := w; rk_stack_id := s |}) _).
  by intros [].
Defined.

Definition stack_key_cmp : RuntimeStackKey → RuntimeStackKey → comparison :=
  cmp_on (λ k, (rk_workspace_id k, rk_stack_id k)) (pair_cmp N.compare str_cmp).

(** Iteration over the [BTreeMap] of stacks. *)
Definition stacks_iter (stacks : gmap RuntimeStackKey ManagedStack) :
    list (RuntimeStackKey * ManagedStack) :=
  sort_by (cmp_on fst stack_key_cmp) (map_to_list stacks).

Record Supervisor := {
  su_stacks : gmap RuntimeStackKey ManagedStack;
  su_live : gset N
}.

Definition supervisor_new (limits : RuntimeLimits) : result Supervisor RuntimeError :=
  if (max_stacks limits =? 0)%nat || (max_services_per_stack limits =? 0)%nat
     || (max_services_total limits =? 0)%nat || (max_startup_timeout limits =? 0)
     || (health_poll_interval limits =? 0) || (max_workspace_disk_bytes limits =? 0)
  then Err InvalidLimits
  else Ok {| su_stacks := ∅; su_live := ∅ |}.

(** All managed services, stack by stack. *)
Definition all_services (stacks : gmap RuntimeStackKey ManagedStack) : list ManagedService :=
  stacks_iter stacks ≫= λ entry, mk_services entry.2.

(** ** Starting *)

(** What the start of one service sees: the cancellation flag before it, the log directory
    ([Err] carries the message), the spawned child, the time, the polls. *)
Record ServiceStart := {
  ss_cancelled : bool;
  ss_log_directory : result () str;
  ss_spawn : option N;
  ss_now : N;
  ss_polls : list Poll
}.

Definition starting_service (reserved : ReservedService) (child now : N) : ManagedService :=
  {| ms_id := rs_id (rv_request reserved); ms_endpoint := rv_endpoint reserved; ms_child := child;
     ms_state := SvcStarting; ms_exit_code := None; ms_started_at_unix_ms := now;
     ms_observed_at_unix_ms := now; ms_reaped := false;
     ms_health_check := rs_health_check (rv_request reserved) |}.

(** [stop_services(&mut services)] and the choice of the error. *)
Definition roll_back (env : StopEnv) (services : list ManagedService) (live : gset N)
    (error : RuntimeError) : result (list ManagedService) RuntimeError * gset N :=
  let '(_, complete, live) := stop_services env services live in
  (Err (if complete then error else CleanupFailed), live).

(** The loop of [start_stack_cancellable]; [None] when a start never ends or no input is left
    for it.  The early returns for the cancellation flag and for the log directory leave
    without stopping the services started before. *)
Fixpoint start_services (limits : RuntimeLimits) (env : StopEnv)
    (reserved : list ReservedService) (starts : list ServiceStart)
    (services : list ManagedService) (live : gset N) :
    option (result (list ManagedService) RuntimeError * gset N) :=
  match reserved with
  | [] => Some (Ok services, live)
  | service :: reserved' =>
      match starts with
      | [] => None
      | start :: starts' =>
          if ss_cancelled start then Some (Err Cancelled, live)
          else
            match ss_log_directory start, ss_spawn start with
            | Err message, _ => Some (Err (ProcessStartFailed message), live)
            | Ok _, None =>
                Some (roll_back env services live (ProcessStartFailed (rs_id (rv_request service))))
            | Ok _, Some child =>
                let live := {[child]} ∪ live in
                let timeout := N.min (rs_startup_timeout (rv_request service))
                                 (max_startup_timeout limits) in
                match wait_until_ready (starting_service service child (ss_now start)) timeout
                        (ss_polls start) with
                | None => None
                | Some (outcome, managed) =>
                    let live := if ms_reaped managed then live ∖ {[child]} else live in
                    match outcome with
                    | Err error => Some (roll_back env (services ++ [managed]) live error)
                    | Ok _ =>
                        start_services limits env reserved' starts' (services ++ [managed]) live
                    end
                end
            end
      end
  end.

(** The environment of a whole start. *)
Record StartEnv := {
  sv_file_system : FileSystem;
  sv_disk : str → DiskEntry;
  sv_rss_kib : N → option N;
  sv_can_bind : N → bool;
  sv_now : N;
  sv_starts : list ServiceStart;
  sv_stop : StopEnv
}.

(** [iter.map(process_rss_kib).collect::<Option<Vec<_>>>().map(sum)]. *)
Definition aggregate_rss (rss : N → option N) (children : list N) : option N :=
  foldr N.add 0 <$> mapM rss children.

Section supervisor.
Variable limits : RuntimeLimits.

(** The checks of a start that read the state. *)
Definition admit_stack (env : StartEnv) (world : Supervisor) (prepared : PreparedStack) :
    result (list ReservedService) RuntimeError :=
  ensure guard_err (max_workspace_disk_bytes limits <?
                    workspace_disk_bytes (sv_disk env (pp_workspace_root prepared))
                      (max_workspace_disk_bytes limits)) WorkspaceDiskBudgetExceeded in
  ensure guard_err (bool_decide (is_Some (su_stacks world !! pp_key prepared))) AlreadyRunning in
  let services := all_services (su_stacks world) in
  ensure guard_err (match aggregate_rss (sv_rss_kib env) (ms_child <$> services) with
                    | Some rss => 512 * 1024 <=? rss
                    | None => false
                    end) CapacityExceeded in
  ensure guard_err ((max_stacks limits <=? size (su_stacks world))%nat
                    || (max_services_total limits <? length services + length (pp_services prepared))%nat)
           CapacityExceeded in
  reserve_services (sv_can_bind env) (pp_services prepared)
    (list_to_set ((λ s, ep_port (ms_endpoint s)) <$> services)).

Definition start_stack_cancellable (env : StartEnv) (request : RuntimeStackRequest)
    (world : Supervisor) : option (result RuntimeStackSnapshot RuntimeError * Supervisor) :=
  match prepare_stack (sv_file_system env) request limits with
  | None => None
  | Some (Err error) => Some (Err error, world)
  | Some (Ok prepared) =>
      match admit_stack env world prepared with
      | Err error => Some (Err error, world)
      | Ok reserved =>
          match start_services limits (sv_stop env) reserved (sv_starts env) [] (su_live world) with
          | None => None
          | Some (Err error, live) =>
              Some (Err error, {| su_stacks := su_stacks world; su_live := live |})
          | Some (Ok services, live) =>
              let stack := {| mk_key := pp_key prepared; mk_workspace_root := pp_workspace_root prepared;
                              mk_services := services; mk_started_at_unix_ms := sv_now env |} in
              Some (Ok (stack_snapshot stack),
                    {| su_stacks := <[pp_key prepared := stack]> (su_stacks world);
                       su_live := live |})
          end
      end
  end.
End supervisor.

(** ** The other operations *)

Definition list_stacks (world : Supervisor) : list RuntimeStackSnapshot :=
  (λ entry, stack_snapshot entry.2) <$> stacks_iter (su_stacks world).

Definition resource_snapshot (rss : N → option N) (world : Supervisor) : RuntimeResourceSnapshot :=
  let process_ids := ms_child <$> all_services (su_stacks world) in
  let aggregate_rss_kib := aggregate_rss rss process_ids in
  {| rr_stack_count := size (su_stacks world); rr_service_count := length process_ids;
     rr_process_count := length process_ids; rr_aggregate_rss_kib := aggregate_rss_kib;
     rr_pressure :=
       match aggregate_rss_kib with
       | Some rss =>
           if 512 * 1024 <=? rss then PressureCritical
           else if 256 * 1024 <=? rss then PressureElevated
           else PressureNormal
       | None => PressureNormal
       end |}.

(** What an observation of a child shows. *)
Record Observation := {
  ob_now : N;
  ob_wait : WaitOutcome;
  ob_accepts : bool
}.

Definition observe_service (service : ManagedService) (seen : Observation) :
    result () RuntimeError * ManagedService :=
  match ob_wait seen with
  | HasExited code => (Ok (), observed service SvcExited code (ob_now seen) true)
  | StillRunning =>
      (Ok (), observed service
                match ms_health_check service with
                | ProcessCheck => SvcRunning
                | TcpCheck => if ob_accepts seen then SvcHealthy else SvcUnhealthy
                end (ms_exit_code service) (ob_now seen) (ms_reaped service))
  | WaitFailed =>
      (Err (ProcessObservationFailed (ms_id service)),
       observed service (ms_state service) (ms_exit_code service) (ob_now seen)
         (ms_reaped service))
  end.

(** [for service in &mut services { observe_service(service)?; }]: a failure keeps what was
    observed before it. *)
Fixpoint observe_services (seen : N → Observation) (services : list ManagedService) :
    result () RuntimeError * list ManagedService :=
  match services with
  | [] => (Ok (), [])
  | service :: services' =>
      match observe_service service (seen (ms_child service)) with
      | (Err error, service) => (Err error, service :: services')
      | (Ok _, service) =>
          let '(outcome, services') := observe_services seen services' in
          (outcome, service :: services')
      end
  end.

Definition with_services (stack : ManagedStack) (services : list ManagedService) : ManagedStack :=
  {| mk_key := mk_key stack; mk_workspace_root := mk_workspace_root stack;
     mk_services := services; mk_started_at_unix_ms := mk_started_at_unix_ms stack |}.

(** Children whose exit has been collected. *)
Definition reaped_children (services : list ManagedService) : gset N :=
  list_to_set (ms_child <$> filter (λ s, ms_reaped s = true) services).

Definition inspect_stack (seen : N → Observation) (key : RuntimeStackKey) (world : Supervisor) :
    result RuntimeStackSnapshot RuntimeError * Supervisor :=
  match su_stacks world !! key with
  | None => (Err StackNotFound, world)
  | Some stack =>
      let '(outcome, services) := observe_services seen (mk_services stack) in
      let stack := with_services stack services in
      let world := {| su_stacks := <[key := stack]> (su_stacks world);
                      su_live := su_live world ∖ reaped_children services |} in
      (rmap (λ _, stack_snapshot stack) outcome, world)
  end.

Definition stop_stack (env : StopEnv) (key : RuntimeStackKey) (world : Supervisor) :
    result RuntimeStackSnapshot RuntimeError * Supervisor :=
  match su_stacks world !! key with
  | None => (Err StackNotFound, world)
  | Some stack =>
      let '(services, cleanup_complete, live) :=
        stop_services env (mk_services stack) (su_live world) in
      let stack := with_services stack services in
      let stacks := delete key (su_stacks world) in
      if cleanup_complete
      then (Ok (stack_snapshot stack), {| su_stacks := stacks; su_live := live |})
      else (Err CleanupFailed, {| su_stacks := <[key := stack]> stacks; su_live := live |})
  end.

(** One turn of the loop of [stop_all]: the snapshots, whether the cleanup is complete, the
    stacks that are kept and the processes that are left. *)
Definition stop_next (env : StopEnv)
    (state : list RuntimeStackSnapshot * bool * gmap RuntimeStackKey ManagedStack * gset N)
    (entry : RuntimeStackKey * ManagedStack) :
    list RuntimeStackSnapshot * bool * gmap RuntimeStackKey ManagedStack * gset N :=
  let '(snapshots, cleanup_complete, stacks, live) := state in
  let '(key, stack) := entry in
  let '(services, stack_cleanup_complete, live) := stop_services env (mk_services stack) live in
  let stack := with_services stack services in
  (snapshots ++ [stack_snapshot stack], cleanup_complete && stack_cleanup_complete,
   (if stack_cleanup_complete then stacks else <[key := stack]> stacks), live).

Definition stop_all (env : StopEnv) (world : Supervisor) :
    result (list RuntimeStackSnapshot) RuntimeError * Supervisor :=
  let '(snapshots, cleanup_complete, stacks, live) :=
    foldl (stop_next env) ([], true, ∅, su_live world) (stacks_iter (su_stacks world)) in
  (if cleanup_complete then Ok snapshots else Err CleanupFailed,
   {| su_stacks := stacks; su_live := live |}).

(** Dropping the last clone. *)
Definition drop_supervisor (env : StopEnv) (world : Supervisor) : Supervisor :=
  {| su_stacks := ∅;
     su_live := foldl (λ live entry, (stop_services env (mk_services entry.2) live).2)
                  (su_live world) (stacks_iter (su_stacks world)) |}.
