(* ===== verification/RuntimeProofs.v ===== *)
(** * Properties of the runtime supervisor

    The limits and the distinctness of ports hold in every reachable state.  A failed start is
    rolled back if the operating system terminates what it is asked to, except when the
    cancellation flag is seen, or the log directory cannot be made, between two services. *)

From S2P Require Import Prelude Order Text Digest StoreBase Runtime RuntimeOrder.
From S2P Require Import RuntimeEndpoints RuntimeSupervisor.

Local Open Scope N_scope.

(** ** What observation keeps *)

(** The identity of a managed service. *)
Definition identity (s : ManagedService) : str * RuntimeEndpoint * N :=
  (ms_id s, ms_endpoint s, ms_child s).

Definition managed_port (s : ManagedService) : N := ep_port (ms_endpoint s).

Lemma wait_until_ready_identity service timeout polls outcome managed :
  wait_until_ready service timeout polls = Some (outcome, managed) →
  identity managed = identity service.
Proof.
  revert service; induction polls as [|poll polls IH]; intros service; cbn; [done|].
  destruct (pl_cancelled poll); [by intros [= <- <-]|].
  destruct (pl_wait poll); try by intros [= <- <-].
  case_decide; [by intros [= <- <-]|].
  destruct (timeout <=? pl_elapsed poll); [by intros [= <- <-]|].
  destruct (pl_accepts poll); [by intros [= <- <-]|]. by intros ->%IH.
Qed.

(** The wait ends: any polls of which one is at or past the timeout decide it. *)
Lemma wait_until_ready_ends service timeout polls :
  Exists (λ poll, timeout ≤ pl_elapsed poll) polls →
  is_Some (wait_until_ready service timeout polls).
Proof.
  intros Hex. revert service; induction Hex as [poll polls Ht|poll polls _ IH]; intros service; cbn.
  all: destruct (pl_cancelled poll); [by eexists|].
  all: destruct (pl_wait poll); try by eexists.
  all: case_decide; [by eexists|].
  - apply N.leb_le in Ht as ->. by eexists.
  - destruct (timeout <=? pl_elapsed poll); [by eexists|].
    destruct (pl_accepts poll); [by eexists|]. apply IH.
Qed.

Lemma adaptive_poll_interval_bounds base elapsed :
  N.min base (from_secs 2) ≤ adaptive_poll_interval base elapsed ≤ from_secs 2.
Proof.
  unfold adaptive_poll_interval. split; [|lia].
  assert (base ≤ base * 2 ^ N.min (elapsed / 1000000 / 500) 4) as Hb.
  { assert (1 ≤ 2 ^ N.min (elapsed / 1000000 / 500) 4) as H1; [|nia].
    assert (2 ^ N.min (elapsed / 1000000 / 500) 4 ≠ 0); [by apply N.pow_nonzero|lia]. }
  assert (from_secs 2 ≤ duration_max) by by vm_compute. lia.
Qed.

Lemma stop_services_identity env services live :
  identity <$> (stop_services env services live).1.1 = identity <$> services.
Proof.
  cbn. rewrite <- list_fmap_compose. apply list_fmap_ext. intros i s _. cbn. unfold stop_service.
  by destruct (se_terminates env (ms_child s)).
Qed.

Lemma observe_services_identity seen services :
  identity <$> (observe_services seen services).2 = identity <$> services.
Proof.
  induction services as [|s services IH]; [done|]. cbn.
  assert (∀ o, identity (observe_service s o).2 = identity s) as Hid.
  { intros o. unfold observe_service. by destruct (ob_wait o). }
  specialize (Hid (seen (ms_child s))).
  destruct (observe_service s (seen (ms_child s))) as [[[]|e] s'] eqn:Ho; cbn in *.
  - destruct (observe_services seen services) as [o rest]. cbn in *. by rewrite Hid, IH.
  - by rewrite Hid.
Qed.

Lemma identity_ports (services services' : list ManagedService) :
  identity <$> services = identity <$> services' → managed_port <$> services = managed_port <$> services'.
Proof.
  intros H.
  assert (∀ l : list ManagedService,
    managed_port <$> l = (λ i : str * RuntimeEndpoint * N, ep_port i.1.2) <$> (identity <$> l))
    as Hp by (intros l; by rewrite <- list_fmap_compose).
  by rewrite !Hp, H.
Qed.

(** ** The services of a map of stacks *)

Lemma all_services_perm stacks :
  all_services stacks ≡ₚ map_to_list stacks ≫= λ entry, mk_services entry.2.
Proof. unfold all_services, stacks_iter. by rewrite sort_by_perm. Qed.

Lemma all_services_insert stacks key stack :
  stacks !! key = None →
  all_services (<[key := stack]> stacks) ≡ₚ mk_services stack ++ all_services stacks.
Proof. intros Hn. by rewrite !all_services_perm, map_to_list_insert. Qed.

Lemma all_services_delete stacks key stack :
  stacks !! key = Some stack →
  all_services stacks ≡ₚ mk_services stack ++ all_services (delete key stacks).
Proof.
  intros Hs. rewrite <- all_services_insert by apply lookup_delete_eq.
  by rewrite insert_delete_id.
Qed.

(** ** The invariant *)

Record supervisor_ok (limits : RuntimeLimits) (stacks : gmap RuntimeStackKey ManagedStack) :
    Prop := {
  so_stacks : (size stacks ≤ max_stacks limits)%nat;
  so_total : (length (all_services stacks) ≤ max_services_total limits)%nat;
  so_stack key stack : stacks !! key = Some stack →
    mk_key stack = key ∧ (0 < length (mk_services stack) ≤ max_services_per_stack limits)%nat;
  so_ports : NoDup (managed_port <$> all_services stacks);
  so_port port : port ∈ managed_port <$> all_services stacks → 0 < port ∧ in_u16 port
}.

(** The same stack with its services observed again. *)
Definition stack_like (stack stack' : ManagedStack) : Prop :=
  mk_key stack' = mk_key stack ∧ identity <$> mk_services stack' = identity <$> mk_services stack.

(** Some of the stacks of [stacks], observed again. *)
Definition contracted (stacks' stacks : gmap RuntimeStackKey ManagedStack) : Prop :=
  ∀ key stack', stacks' !! key = Some stack' →
    ∃ stack, stacks !! key = Some stack ∧ stack_like stack stack'.

Lemma contracted_usage stacks' stacks :
  contracted stacks' stacks →
  (size stacks' ≤ size stacks)%nat ∧
  managed_port <$> all_services stacks' ⊆+ managed_port <$> all_services stacks.
Proof.
  revert stacks; induction stacks' as [|key stack' stacks' Hn IH] using map_ind; intros stacks Hc.
  - split; [rewrite map_size_empty; lia|]. rewrite (all_services_perm ∅), map_to_list_empty. cbn.
    apply submseteq_nil_l.
  - destruct (Hc key stack') as (stack & Hs & Hl); [by rewrite lookup_insert_eq|].
    destruct (IH (delete key stacks)) as [Hsize Hports].
    { intros k s Hk. assert (k ≠ key) by congruence.
      destruct (Hc k s) as (s0 & Hs0 & Hl0); [by rewrite lookup_insert_ne|].
      exists s0. by rewrite lookup_delete_ne. }
    split.
    + rewrite map_size_insert_None by done. rewrite map_size_delete_Some in Hsize by eauto.
      assert (size stacks ≠ 0%nat); [|lia]. intros Hz%map_size_empty_iff. by subst.
    + rewrite all_services_insert by done. rewrite (all_services_delete stacks key stack Hs).
      rewrite !fmap_app. destruct Hl as [_ Hl]. rewrite (identity_ports _ _ Hl).
      by apply submseteq_app.
Qed.

Lemma contracted_ok limits stacks' stacks :
  contracted stacks' stacks → supervisor_ok limits stacks → supervisor_ok limits stacks'.
Proof.
  intros Hc Hok. destruct (contracted_usage _ _ Hc) as [Hsize Hports].
  apply submseteq_Permutation in Hports as Hperm. destruct Hperm as [rest Hperm].
  pose proof (submseteq_length _ _ Hports) as Hlen. rewrite !length_fmap in Hlen.
  pose proof (so_stacks _ _ Hok). pose proof (so_total _ _ Hok). split; [lia|lia| | |].
  - intros key stack' Hs'. destruct (Hc key stack' Hs') as (stack & Hs & Hk & Hl).
    destruct (so_stack _ _ Hok key stack Hs) as [Hkey Hb]. split; [congruence|].
    apply (f_equal length) in Hl. rewrite !length_fmap in Hl. lia.
  - pose proof (so_ports _ _ Hok) as Hnd. rewrite Hperm, NoDup_app in Hnd. tauto.
  - intros port Hp. apply (so_port _ _ Hok). rewrite Hperm. apply elem_of_app. by left.
Qed.

Lemma stack_like_with_services stack services :
  identity <$> services = identity <$> mk_services stack →
  stack_like stack (with_services stack services).
Proof. by split. Qed.

Lemma contracted_update stacks key stack services :
  stacks !! key = Some stack → identity <$> services = identity <$> mk_services stack →
  contracted (<[key := with_services stack services]> stacks) stacks.
Proof.
  intros Hs Hid k st [[<- <-]|[Hne Hk]]%lookup_insert_Some.
  - exists stack. split; [done|]. by apply stack_like_with_services.
  - by exists st.
Qed.

(** ** The operations *)

Lemma inspect_contracted seen key world :
  contracted (su_stacks (inspect_stack seen key world).2) (su_stacks world).
Proof.
  unfold inspect_stack. destruct (su_stacks world !! key) as [stack|] eqn:Hs; [|by intros k st; exists st].
  pose proof (observe_services_identity seen (mk_services stack)) as Hid.
  destruct (observe_services seen (mk_services stack)) as [outcome services]. cbn in *.
  by apply contracted_update.
Qed.

Lemma stop_contracted env key world :
  contracted (su_stacks (stop_stack env key world).2) (su_stacks world).
Proof.
  unfold stop_stack. destruct (su_stacks world !! key) as [stack|] eqn:Hs; [|by intros k st; exists st].
  pose proof (stop_services_identity env (mk_services stack) (su_live world)) as Hid.
  destruct (stop_services env (mk_services stack) (su_live world)) as [[services complete] live].
  cbn [fst] in Hid. destruct complete; cbn.
  - intros k st [_ Hk]%lookup_delete_Some. by exists st.
  - rewrite insert_delete_eq. by apply contracted_update.
Qed.

Lemma stop_next_stacks env l state key stack' :
  (foldl (stop_next env) state l).1.2 !! key = Some stack' →
  state.1.2 !! key = Some stack' ∨
  ∃ stack, (key, stack) ∈ l ∧ stack_like stack stack'.
Proof.
  revert state; induction l as [|[k stack] l IH]; intros state; cbn [foldl]; [by left|].
  intros [Hs|(st & Hin & Hl)]%IH; [|right; exists st; split; [by right|done]].
  destruct state as [[[snapshots complete] stacks] live]. cbn in Hs |- *.
  destruct (forallb _ _); [by left|].
  apply lookup_insert_Some in Hs as [[-> <-]|[_ Hs]]; [|by left].
  right. exists stack. split; [left|]. apply stack_like_with_services.
  by apply (stop_services_identity env _ live).
Qed.

Lemma elem_of_stacks_iter stacks key stack :
  (key, stack) ∈ stacks_iter stacks ↔ stacks !! key = Some stack.
Proof. unfold stacks_iter. by rewrite sort_by_perm, elem_of_map_to_list. Qed.

Lemma stop_all_contracted env world :
  contracted (su_stacks (stop_all env world).2) (su_stacks world).
Proof.
  intros key stack' Hs. unfold stop_all in Hs.
  pose proof (stop_next_stacks env (stacks_iter (su_stacks world)) ([], true, ∅, su_live world)
    key stack') as Hfold.
  destruct (foldl _ _ _) as [[[snapshots complete] stacks] live]. cbn in *.
  destruct (Hfold Hs) as [He|(stack & Hin & Hl)]; [by rewrite lookup_empty in He|].
  apply elem_of_stacks_iter in Hin. eauto.
Qed.

(** The services of a completed start are those reserved, in order. *)
Lemma start_services_Ok limits env reserved starts services live managed live' :
  start_services limits env reserved starts services live = Some (Ok managed, live') →
  ∃ added, managed = services ++ added ∧ ms_endpoint <$> added = rv_endpoint <$> reserved.
Proof.
  revert starts services live; induction reserved as [|r reserved IH];
    intros starts services live; cbn.
  - intros [= <- <-]. exists []. by rewrite app_nil_r.
  - destruct starts as [|start starts]; [done|]. destruct (ss_cancelled start); [done|].
    destruct (ss_log_directory start); [|done].
    destruct (ss_spawn start) as [child|]; [|by unfold roll_back; cbn; intros [=]].
    destruct (wait_until_ready _ _ _) as [[[[]|error] m]|] eqn:Hw; [|by unfold roll_back|done].
    intros (added & -> & Hadded)%IH. exists (m :: added). rewrite <- app_assoc. split; [done|].
    rewrite !fmap_cons, Hadded. f_equal.
    by apply wait_until_ready_identity in Hw as [= _ -> _].
Qed.

Lemma admit_stack_Ok limits env world prepared reserved :
  admit_stack limits env world prepared = Ok reserved →
  su_stacks world !! pp_key prepared = None ∧
  (size (su_stacks world) < max_stacks limits)%nat ∧
  (length (all_services (su_stacks world)) + length (pp_services prepared)
   ≤ max_services_total limits)%nat ∧
  reserve_services (sv_can_bind env) (pp_services prepared)
    (list_to_set (managed_port <$> all_services (su_stacks world))) = Ok reserved.
Proof.
  unfold admit_stack. intros (? & _ & H)%rbind_Ok. apply rbind_Ok in H as (? & Hnew & H).
  apply rbind_Ok in H as (? & _ & H). apply rbind_Ok in H as (? & Hcap & H).
  rewrite guard_err_Ok in Hnew, Hcap. bool_split. split_and!; [by apply eq_None_not_Some|done|done|done].
Qed.

Lemma start_ok limits env request world outcome world' :
  supervisor_ok limits (su_stacks world) →
  start_stack_cancellable limits env request world = Some (outcome, world') →
  supervisor_ok limits (su_stacks world').
Proof.
  intros Hok. unfold start_stack_cancellable.
  destruct (prepare_stack_spec (sv_file_system env) request limits) as (prep & -> & Hprep).
  destruct prep as [prepared|e]; [|by intros [= _ <-]].
  destruct (admit_stack limits env world prepared) as [reserved|e] eqn:Hadmit; [|by intros [= _ <-]].
  destruct (start_services _ _ _ _ _ _) as [[[services|e] live]|] eqn:Hstart;
    [|by intros [= _ <-]|done].
  intros [= _ <-]. cbn [su_stacks].
  apply start_services_Ok in Hstart as (added & Heq & Hends). cbn in Heq. subst added.
  apply admit_stack_Ok in Hadmit as (Hnew & Hsize & Htotal & Hres).
  destruct (reserve_services_Ok _ _ _ _ Hres) as (Hreq & Hnd & Hports).
  assert (managed_port <$> services = port_of <$> reserved) as Hmp.
  { transitivity (ep_port <$> (ms_endpoint <$> services)); [by rewrite <- list_fmap_compose|].
    rewrite Hends, <- list_fmap_compose. done. }
  assert (length services = length (pp_services prepared)) as Hlen.
  { rewrite <- Hreq, length_fmap. apply (f_equal length) in Hends. by rewrite !length_fmap in Hends. }
  split.
  - rewrite map_size_insert_None by done. lia.
  - rewrite all_services_insert by done. rewrite length_app. cbn [mk_services]. lia.
  - intros key stack [[<- <-]|[_ Hs]]%lookup_insert_Some; [|by eapply so_stack].
    split; [done|]. cbn [mk_services]. rewrite Hlen. apply Hprep.
  - rewrite all_services_insert by done. cbn [mk_services]. rewrite fmap_app, Hmp.
    apply NoDup_app. split_and!; [done| |by eapply so_ports].
    intros port (r & -> & Hr)%list_elem_of_fmap Hin. destruct (Hports r Hr) as [Hclaim _].
    apply Hclaim. by apply elem_of_list_to_set.
  - intros port. rewrite all_services_insert by done. cbn [mk_services].
    rewrite fmap_app, Hmp, elem_of_app. intros [Hp|Hp]; [|by eapply so_port].
    apply list_elem_of_fmap in Hp as (r & -> & Hr). destruct (Hports r Hr) as (_ & _ & Hrange & _).
    assert (rv_request r ∈ pp_services prepared) as Hin by (rewrite <- Hreq; by apply list_elem_of_fmap_2).
    apply (sp_service _ _ _ _ Hprep) in Hin as (q & _ & d & _ & _ & _ & _ & _ & Hpref & _).
    unfold in_u16. lia.
Qed.

(** One call of the supervisor. *)
Inductive supervisor_step (limits : RuntimeLimits) : Supervisor → Supervisor → Prop :=
| step_start env request world outcome world' :
    start_stack_cancellable limits env request world = Some (outcome, world') →
    supervisor_step limits world world'
| step_inspect seen key world : supervisor_step limits world (inspect_stack seen key world).2
| step_stop env key world : supervisor_step limits world (stop_stack env key world).2
| step_stop_all env world : supervisor_step limits world (stop_all env world).2.

Lemma supervisor_step_ok limits world world' :
  supervisor_step limits world world' → supervisor_ok limits (su_stacks world) →
  supervisor_ok limits (su_stacks world').
Proof.
  intros [env request w outcome w' Hs|seen key w|env key w|env w] Hok.
  - by eapply start_ok.
  - eapply contracted_ok; [apply inspect_contracted|done].
  - eapply contracted_ok; [apply stop_contracted|done].
  - eapply contracted_ok; [apply stop_all_contracted|done].
Qed.

Lemma supervisor_new_ok limits world :
  supervisor_new limits = Ok world → supervisor_ok limits (su_stacks world).
Proof.
  unfold supervisor_new. case_match; [done|]. intros [= <-]. cbn [su_stacks].
  assert (all_services ∅ = []) as Hnil.
  { apply Permutation_nil_r. by rewrite all_services_perm, map_to_list_empty. }
  split; rewrite ?Hnil, ?map_size_empty; cbn; try lia.
  - by intros key stack ?%lookup_empty_Some.
  - constructor.
  - by intros port ?%elem_of_nil.
Qed.

(** C15: However calls start, fail, inspect and stop stacks: the numbers of stacks, of services per
    stack and of services in total stay within the limits, and no two managed services, of the
    same stack or of different ones, have the same port. *)
Theorem runtime_limits_hold limits world world' :
  supervisor_new limits = Ok world → rtc (supervisor_step limits) world world' →
  (size (su_stacks world') ≤ max_stacks limits)%nat ∧
  (length (all_services (su_stacks world')) ≤ max_services_total limits)%nat ∧
  (∀ key stack, su_stacks world' !! key = Some stack →
     mk_key stack = key ∧ (0 < length (mk_services stack) ≤ max_services_per_stack limits)%nat) ∧
  NoDup (managed_port <$> all_services (su_stacks world')) ∧
  (∀ port, port ∈ managed_port <$> all_services (su_stacks world') → 0 < port ∧ in_u16 port).
Proof.
  intros Hnew%supervisor_new_ok Hsteps.
  assert (supervisor_ok limits (su_stacks world')) as [? ? ? ? ?]; [|done].
  induction Hsteps as [|x y z Hstep _ IH]; [done|]. by eapply IH, supervisor_step_ok.
Qed.

(** ** Failed starts *)

Lemma roll_back_live env services live error :
  (∀ child, se_terminates env child = true) →
  (roll_back env services live error).2 = live ∖ list_to_set (ms_child <$> services).
Proof.
  intros Hall. cbn. do 3 f_equal. induction services as [|s services IH]; [done|].
  by rewrite filter_cons, decide_True, IH.
Qed.

Lemma difference_back (live live0 : gset N) (l : list N) :
  live0 ⊆ live → live ⊆ live0 ∪ list_to_set l → (∀ c, c ∈ l → c ∉ live0) →
  live ∖ list_to_set l = live0.
Proof.
  intros H1 H2 H3. apply set_eq. intros x. rewrite elem_of_difference, elem_of_list_to_set.
  specialize (H3 x). set_solver.
Qed.

#[local] Arguments roll_back : simpl never.

Lemma roll_back_restores env services live live0 error outcome live' :
  (∀ child, se_terminates env child = true) →
  (∀ c, c ∈ ms_child <$> services → c ∉ live0) →
  live0 ⊆ live → live ⊆ live0 ∪ list_to_set (ms_child <$> services) →
  roll_back env services live error = (outcome, live') → live' = live0.
Proof.
  intros Hterm Hfresh Hlow Hhigh Hrb. pose proof (roll_back_live env services live error Hterm) as Hl.
  rewrite Hrb in Hl. cbn [snd] in Hl. rewrite Hl. by apply difference_back.
Qed.

(** A service that became ready has not been reaped. *)
Lemma wait_until_ready_unreaped service timeout polls managed :
  wait_until_ready service timeout polls = Some (Ok (), managed) →
  ms_reaped managed = ms_reaped service.
Proof.
  revert service; induction polls as [|poll polls IH]; intros service; cbn; [done|].
  destruct (pl_cancelled poll), (pl_wait poll); try done.
  case_decide; [by intros [= <-]|].
  destruct (timeout <=? pl_elapsed poll); [done|].
  destruct (pl_accepts poll); [by intros [= <-]|]. by intros ->%IH.
Qed.

(** The two early returns of the loop, which stop nothing: the cancellation flag before a
    service, and a log directory that cannot be made. *)
Definition early_exit (start : ServiceStart) : option RuntimeError :=
  if ss_cancelled start then Some Cancelled
  else match ss_log_directory start with
       | Err message => Some (ProcessStartFailed message)
       | Ok _ => None
       end.

(** A start that does not return early and whose child is spawned. *)
Definition starts_child (start : ServiceStart) : Prop :=
  early_exit start = None ∧ is_Some (ss_spawn start).

(** The loop went through [pre] and returned early at the start after them, with the children
    of [pre] left behind. *)
Definition abandoned (starts : list ServiceStart) (live live' : gset N) (error : RuntimeError) : Prop :=
  ∃ pre start post, starts = pre ++ start :: post ∧ Forall starts_child pre ∧
    early_exit start = Some error ∧ live' = live ∪ list_to_set (omap ss_spawn pre).

Lemma abandoned_cons start starts live live' error child :
  early_exit start = None → ss_spawn start = Some child →
  abandoned starts (live ∪ {[child]}) live' error → abandoned (start :: starts) live live' error.
Proof.
  intros He Hs (pre & at_ & post & -> & Hpre & Hexit & ->).
  exists (start :: pre), at_, post. split_and!; [done| |done|].
  - constructor; [|done]. split; [done|by rewrite Hs].
  - cbn. rewrite Hs. cbn. by rewrite (assoc_L _).
Qed.

Lemma start_services_Err limits env reserved starts services live0 error live' :
  (∀ child, se_terminates env child = true) →
  Forall (λ s, ∀ child, ss_spawn s = Some child → child ∉ live0) starts →
  (∀ c, c ∈ ms_child <$> services → c ∉ live0) →
  start_services limits env reserved starts services (live0 ∪ list_to_set (ms_child <$> services))
    = Some (Err error, live') →
  live' = live0 ∨ abandoned starts (live0 ∪ list_to_set (ms_child <$> services)) live' error.
Proof.
  intros Hterm. revert starts services; induction reserved as [|r reserved IH];
    intros starts services Hstarts Hfresh; cbn; [done|].
  destruct starts as [|start starts]; [done|].
  apply Forall_cons in Hstarts as [Hspawn Hstarts].
  destruct (early_exit start) as [e|] eqn:Hexit.
  { intros Hrun. assert (e = error ∧ live0 ∪ list_to_set (ms_child <$> services) = live') as [-> <-].
    { unfold early_exit in Hexit. destruct (ss_cancelled start); [by simplify_eq|].
      destruct (ss_log_directory start); by simplify_eq. }
    right. exists [], start, starts. split_and!; [done..|]. cbn. by rewrite (right_id_L ∅ _). }
  pose proof Hexit as Hexit'. unfold early_exit in Hexit'.
  destruct (ss_cancelled start); [done|]. destruct (ss_log_directory start); [|done].
  destruct (ss_spawn start) as [child|] eqn:Hchild.
  2: { intros Hrb%(inj Some). left. eapply roll_back_restores; [done|exact Hfresh| |done|exact Hrb].
       set_solver. }
  destruct (wait_until_ready _ _ _) as [[outcome m]|] eqn:Hw; [|done].
  pose proof (f_equal snd (wait_until_ready_identity _ _ _ _ _ Hw)) as Hm. cbn in Hm.
  assert (ms_child <$> services ++ [m] = (ms_child <$> services) ++ [child]) as Hmap
    by (rewrite fmap_app; cbn; by rewrite Hm).
  assert (∀ c, c ∈ ms_child <$> services ++ [m] → c ∉ live0) as Hfresh1.
  { intros c. rewrite Hmap. intros [Hin | ->%list_elem_of_singleton]%elem_of_app; auto. }
  assert ({[child]} ∪ (live0 ∪ list_to_set (ms_child <$> services))
          = live0 ∪ list_to_set (ms_child <$> services ++ [m])) as Hlive
    by (rewrite Hmap, list_to_set_app_L, list_to_set_singleton_L; set_solver).
  destruct outcome as [[]|e].
  - apply wait_until_ready_unreaped in Hw. cbn in Hw. rewrite Hw, Hlive.
    intros [->|Hab]%IH; [by left| |done|done]. right.
    apply abandoned_cons with child; [done|done|].
    by rewrite (comm_L _ _ {[child]}), Hlive.
  - intros Hrb%(inj Some). left.
    rewrite Hlive in Hrb. eapply roll_back_restores; [done|exact Hfresh1| | |exact Hrb].
    + destruct (ms_reaped m); [|set_solver]. intros x Hx. specialize (Hspawn child eq_refl).
      assert (x ≠ child) by congruence. set_solver.
    + destruct (ms_reaped m); set_solver.
Qed.

(** C16: A start that fails leaves the stacks as they were.  If the operating system terminates what
    it is asked to and the processes of the start are new, either no process is left either, or
    the loop returned early at some service, because the cancellation flag was set before it
    ([Cancelled]) or its log directory cannot be made ([ProcessStartFailed]): then exactly the
    processes of the services before it are left, which all had been started. *)
Theorem failed_start_rolls_back limits env request world error world' :
  start_stack_cancellable limits env request world = Some (Err error, world') →
  Forall (λ s, ∀ child, ss_spawn s = Some child → child ∉ su_live world) (sv_starts env) →
  (∀ child, se_terminates (sv_stop env) child = true) →
  su_stacks world' = su_stacks world ∧
  (su_live world' = su_live world ∨
   abandoned (sv_starts env) (su_live world) (su_live world') error).
Proof.
  unfold start_stack_cancellable. intros Hrun Hstarts Hterm.
  destruct (prepare_stack _ _ _) as [[prepared|e]|]; [|injection Hrun as <- <-; auto|done].
  destruct (admit_stack _ _ _ _) as [reserved|e]; [|injection Hrun as <- <-; auto].
  destruct (start_services _ _ _ _ _ _) as [[[services|e] live]|] eqn:Hs; [done| |done].
  injection Hrun as <- <-. cbn [su_stacks su_live]. split; [done|].
  pose proof (start_services_Err limits (sv_stop env) reserved (sv_starts env) [] (su_live world) e live
    Hterm Hstarts) as Hex.
  cbn [fmap list_fmap list_to_set] in Hex. rewrite (right_id_L ∅ _) in Hex.
  apply Hex; [by intros c ?%elem_of_nil|done].
Qed.

Lemma start_ready service timeout poll polls :
  pl_cancelled poll = false → pl_wait poll = StillRunning → pl_accepts poll = true →
  pl_elapsed poll < timeout → ms_reaped service = false →
  ∃ managed, wait_until_ready service timeout (poll :: polls) = Some (Ok (), managed) ∧
    ms_reaped managed = false ∧ ms_child managed = ms_child service.
Proof.
  intros Hc Hw Ha He Hr. cbn. rewrite Hc, Hw.
  case_decide; [by eexists|]. apply N.leb_gt in He as ->. rewrite Ha. by eexists.
Qed.

Lemma drop_live env (entries : list (RuntimeStackKey * ManagedStack)) live child :
  (∀ entry, entry ∈ entries → child ∉ ms_child <$> mk_services entry.2) → child ∈ live →
  child ∈ foldl (λ live entry, (stop_services env (mk_services entry.2) live).2) live entries.
Proof.
  revert live; induction entries as [|e entries IH]; intros live Hall Hin; [done|]. cbn [foldl].
  apply IH; [intros; apply Hall; by right|]. cbn. apply elem_of_difference. split; [done|].
  rewrite elem_of_list_to_set. intros (s & -> & Hs)%list_elem_of_fmap.
  apply list_elem_of_filter in Hs as [_ Hs]. apply (Hall e); [left|]. by apply list_elem_of_fmap_2.
Qed.

(** C17: When the cancellation flag is seen before the second service, the start answers
    [Cancelled], but the process of the first stays alive: it belongs to no stack, and not even
    dropping the supervisor ends it. *)
Theorem cancelled_start_leaks limits env request world prepared reserved first second rest child
    poll polls stop :
  max_startup_timeout limits ≠ 0 →
  prepare_stack (sv_file_system env) request limits = Some (Ok prepared) →
  (2 ≤ length (pp_services prepared))%nat →
  admit_stack limits env world prepared = Ok reserved →
  sv_starts env = first :: second :: rest →
  ss_cancelled first = false → ss_log_directory first = Ok () → ss_spawn first = Some child →
  ss_polls first = poll :: polls → pl_cancelled poll = false → pl_wait poll = StillRunning →
  pl_accepts poll = true → pl_elapsed poll = 0 →
  ss_cancelled second = true →
  (child ∉ ms_child <$> all_services (su_stacks world)) →
  ∃ world', start_stack_cancellable limits env request world = Some (Err Cancelled, world') ∧
    su_stacks world' = su_stacks world ∧ child ∈ su_live world' ∧
    child ∈ su_live (drop_supervisor stop world').
Proof.
  intros Hmax Hprep Hlen Hadmit Hstarts Hc1 Hlog Hspawn Hpolls Hpc Hpw Hpa Hpe Hc2 Hfresh.
  destruct (prepare_stack_spec (sv_file_system env) request limits) as (o & Ho & Hspec).
  rewrite Hprep in Ho. injection Ho as <-.
  destruct (admit_stack_Ok _ _ _ _ _ Hadmit) as (_ & _ & _ & Hres).
  destruct (reserve_services_Ok _ _ _ _ Hres) as (Hreq & _).
  rewrite <- Hreq, length_fmap in Hlen. destruct reserved as [|r1 [|r2 reserved]]; cbn in Hlen; [lia|lia|].
  assert (rs_startup_timeout (rv_request r1) ≠ 0) as Htime.
  { destruct (sp_service _ _ _ _ Hspec (rv_request r1)) as (q & _ & d & _ & _ & _ & _ & _ & _ & Ht);
      [rewrite <- Hreq; left|done]. }
  destruct (start_ready (starting_service r1 child (ss_now first))
    (N.min (rs_startup_timeout (rv_request r1)) (max_startup_timeout limits)) poll polls)
    as (managed & Hwait & Hreaped & Hchild); [done|done|done|rewrite Hpe; lia|done|].
  exists {| su_stacks := su_stacks world; su_live := {[child]} ∪ su_live world |}.
  unfold start_stack_cancellable. rewrite Hprep, Hadmit, Hstarts. cbn [start_services].
  rewrite Hc1, Hlog, Hspawn, Hpolls, Hwait, Hreaped, Hc2. split_and!; [done|done|cbn; set_solver|].
  unfold drop_supervisor. cbn [su_live su_stacks]. apply drop_live; [|set_solver].
  intros [key stack] Hin Hs. apply Hfresh. unfold all_services.
  apply list_elem_of_fmap in Hs as (s & -> & Hs). apply list_elem_of_fmap_2.
  apply list_elem_of_bind. by exists (key, stack).
Qed.

(** ** The disk budget *)

Fixpoint entry_bytes (entry : DiskEntry) : N :=
  match entry with
  | DiskFile bytes => bytes
  | DiskDirectory entries => foldr N.add 0 (entry_bytes <$> entries)
  | _ => 0
  end.

(** The visit adds up the sizes while the limit is kept and stops when it is not. *)
Lemma visit_spec limit entry total :
  limit < u64_max → total ≤ limit →
  (visit limit entry total).2 = (total + entry_bytes entry <=? limit) ∧
  (total + entry_bytes entry ≤ limit → (visit limit entry total).1 = total + entry_bytes entry).
Proof.
  intros Hlimit. revert entry total. fix IH 1. intros entry total Ht.
  destruct entry as [bytes| | |entries|]; cbn [visit entry_bytes fst snd].
  - unfold clamp_u64. split; [|intros; lia]. rewrite <- N.leb_antisym.
    apply eq_true_iff_eq. rewrite !N.leb_le. lia.
  - rewrite N.add_0_r. split; [|done]. symmetry. by apply N.leb_le.
  - rewrite N.add_0_r. split; [|done]. symmetry. by apply N.leb_le.
  - revert total Ht. induction entries as [|e entries IHl]; intros total Ht.
    + cbn. rewrite N.add_0_r. split; [|done]. symmetry. by apply N.leb_le.
    + destruct (IH e total Ht) as [H1 H2]. cbn [fmap list_fmap foldr].
      destruct (visit limit e total) as [t complete]. cbn [fst snd] in *. subst complete.
      destruct (N.leb_spec (total + entry_bytes e) limit) as [Hle|Hgt].
      * rewrite (H2 Hle). destruct (IHl (total + entry_bytes e) Hle) as [H3 H4].
        rewrite N.add_assoc. by split.
      * cbn. split; [|lia]. symmetry. apply N.leb_gt. lia.
  - rewrite N.add_0_r. split; [|done]. symmetry. by apply N.leb_le.
Qed.

(** The budget is exceeded exactly when the files hold more than the limit. *)
Lemma workspace_disk_bytes_spec root limit :
  limit < u64_max →
  (limit <? workspace_disk_bytes root limit) = (limit <? entry_bytes root).
Proof.
  intros Hl. unfold workspace_disk_bytes.
  destruct (visit_spec limit root 0 Hl) as [H1 H2]; [lia|]. rewrite N.add_0_l in *.
  destruct (visit limit root 0) as [t complete]. cbn [fst snd] in *. subst complete.
  destruct (N.leb_spec (entry_bytes root) limit) as [Hle|Hgt]; [by rewrite H2|].
  unfold clamp_u64. apply eq_true_iff_eq. rewrite !N.ltb_lt. lia.
Qed.

(** ** A concrete stack

    Two services, one depending on the other, and the theorems about the runtime supervisor
    applied to it. *)

Definition sample_file_system : FileSystem :=
  {| fs_plain_directory := λ _, true; fs_canonicalize := Some |}.

Definition sample_service (id : str) (depends_on : list str) : RuntimeServiceRequest :=
  {| rs_id := id; rs_working_directory := lit "/w/app"; rs_executable := lit "node";
     rs_args := [lit "server.js"]; rs_environment := {[lit "MODE" := lit "test"]};
     rs_preferred_port := 65530; rs_depends_on := depends_on; rs_health_check := TcpCheck;
     rs_startup_timeout := from_secs 30 |}.

Definition stack_of (services : list RuntimeServiceRequest) : RuntimeStackRequest :=
  {| rq_workspace_id := 5; rq_stack_id := lit "dev"; rq_workspace_root := lit "/w";
     rq_services := services |}.

(** [api] depends on [db] and is listed first. *)
Definition sample_stack : RuntimeStackRequest :=
  stack_of [sample_service (lit "api") [lit "db"]; sample_service (lit "db") []].

Definition prepared_sample : PreparedStack :=
  match prepare_stack sample_file_system sample_stack default_limits with
  | Some (Ok prepared) => prepared
  | _ => {| pp_key := {| rk_workspace_id := 0; rk_stack_id := [] |}; pp_workspace_root := [];
            pp_services := [] |}
  end.

Lemma sample_prepared :
  prepare_stack sample_file_system sample_stack default_limits = Some (Ok prepared_sample).
Proof. vm_compute. reflexivity. Qed.

Example sample_order : rs_id <$> pp_services prepared_sample = [lit "db"; lit "api"].
Proof. vm_compute. reflexivity. Qed.

(** Each service depends on the other. *)
Example sample_cycle :
  prepare_stack sample_file_system
    (stack_of [sample_service (lit "api") [lit "db"]; sample_service (lit "db") [lit "api"]])
    default_limits = Some (Err DependencyCycle).
Proof. vm_compute. reflexivity. Qed.

Definition reserved_sample : list ReservedService :=
  match reserve_services (λ _, true) (pp_services prepared_sample) ∅ with
  | Ok reserved => reserved
  | Err _ => []
  end.

Lemma sample_reserved :
  reserve_services (λ _, true) (pp_services prepared_sample) ∅ = Ok reserved_sample.
Proof. vm_compute. reflexivity. Qed.

(** The second service gets the next port. *)
Example sample_ports : port_of <$> reserved_sample = [65530; 65531].
Proof. vm_compute. reflexivity. Qed.

Definition first_reserved : ReservedService :=
  default {| rv_request := sample_service [] []; rv_endpoint := {| ep_host := []; ep_port := 0 |} |}
    (head reserved_sample).

Lemma first_reserved_in : first_reserved ∈ reserved_sample.
Proof. apply head_Some_elem_of. vm_compute. reflexivity. Qed.

Lemma child_environment_authority_witness :
  child_environment dec ∅ (pp_key prepared_sample) (rv_request first_reserved)
    (rv_endpoint first_reserved) (endpoint_environment reserved_sample) !! lit "MODE"
  = Some (lit "test").
Proof.
  apply (child_environment_authority dec ∅ sample_file_system default_limits sample_stack
    prepared_sample (λ _, true) ∅ reserved_sample first_reserved
    sample_prepared sample_reserved first_reserved_in).
  vm_compute. reflexivity.
Defined.

(** ** Starts *)

Definition accepting_poll : Poll :=
  {| pl_cancelled := false; pl_now := 20; pl_wait := StillRunning; pl_elapsed := 0;
     pl_accepts := true |}.

(** The child has exited by the first poll. *)
Definition exited_poll : Poll :=
  {| pl_cancelled := false; pl_now := 20; pl_wait := HasExited (Some 1%Z); pl_elapsed := 0;
     pl_accepts := false |}.

Definition sample_start (cancelled : bool) (child : N) (poll : Poll) : ServiceStart :=
  {| ss_cancelled := cancelled; ss_log_directory := Ok (); ss_spawn := Some child; ss_now := 10;
     ss_polls := [poll] |}.

Definition all_terminate : StopEnv := {| se_terminates := λ _, true; se_now := 90 |}.

Definition sample_env (starts : list ServiceStart) : StartEnv :=
  {| sv_file_system := sample_file_system; sv_disk := λ _, DiskDirectory [DiskFile 100];
     sv_rss_kib := λ _, Some 0; sv_can_bind := λ _, true; sv_now := 7; sv_starts := starts;
     sv_stop := all_terminate |}.

Definition empty_world : Supervisor := {| su_stacks := ∅; su_live := ∅ |}.

Lemma new_world : supervisor_new default_limits = Ok empty_world.
Proof. vm_compute. reflexivity. Qed.

(** The outcome of a start in the empty world. *)
Definition started (starts : list ServiceStart) :
    option (result RuntimeStackSnapshot RuntimeError * Supervisor) :=
  start_stack_cancellable default_limits (sample_env starts) sample_stack empty_world.

Definition world_after (starts : list ServiceStart) : Supervisor :=
  match started starts with
  | Some (_, world) => world
  | None => empty_world
  end.

Definition good_starts : list ServiceStart :=
  [sample_start false 100 accepting_poll; sample_start false 101 accepting_poll].

Example good_start_live : elements (su_live (world_after good_starts)) ≡ₚ [100; 101].
Proof. vm_compute. reflexivity. Qed.

Lemma started_step starts : is_Some (started starts) →
  supervisor_step default_limits empty_world (world_after starts).
Proof.
  intros [[outcome world] Hs]. unfold world_after. rewrite Hs. by eapply step_start.
Qed.

(** Two running services, after a start. *)
Lemma runtime_limits_hold_witness :
  size (su_stacks (world_after good_starts)) = 1%nat ∧
  (size (su_stacks (world_after good_starts)) ≤ 30)%nat.
Proof.
  split; [vm_compute; reflexivity|].
  refine (proj1 (runtime_limits_hold default_limits empty_world (world_after good_starts)
    new_world _)).
  apply rtc_once, started_step. vm_compute. by eexists.
Defined.

(** The second child exits at once: the first is stopped again. *)
Definition failing_starts : list ServiceStart :=
  [sample_start false 100 accepting_poll; sample_start false 101 exited_poll].

Example failing_start_stops_the_first :
  started failing_starts = Some (Err (StartupExited (lit "api")), empty_world).
Proof. vm_compute. reflexivity. Qed.

(** The log directory cannot be made for the second service: the first keeps running. *)
Definition unlogged_starts : list ServiceStart :=
  [sample_start false 100 accepting_poll;
   {| ss_cancelled := false; ss_log_directory := Err (lit "read-only"); ss_spawn := Some 101;
      ss_now := 10; ss_polls := [accepting_poll] |}].

Lemma failed_start_rolls_back_witness :
  elements (su_live (world_after unlogged_starts)) = [100] ∧
  abandoned unlogged_starts ∅ (su_live (world_after unlogged_starts))
    (ProcessStartFailed (lit "read-only")).
Proof.
  assert (elements (su_live (world_after unlogged_starts)) = [100]) as Hlive
    by (vm_compute; reflexivity).
  split; [exact Hlive|].
  destruct (failed_start_rolls_back default_limits (sample_env unlogged_starts) sample_stack
    empty_world (ProcessStartFailed (lit "read-only")) (world_after unlogged_starts))
    as [_ [Hsame|Hleft]].
  - vm_compute. reflexivity.
  - repeat constructor; try done; by intros child _ ?%elem_of_empty.
  - done.
  - rewrite Hsame in Hlive. discriminate Hlive.
  - exact Hleft.
Defined.

(** The flag is set between the two services. *)
Definition cancelled_starts : list ServiceStart :=
  [sample_start false 100 accepting_poll; sample_start true 101 accepting_poll].

Lemma sample_admitted :
  admit_stack default_limits (sample_env cancelled_starts) empty_world prepared_sample
  = Ok reserved_sample.
Proof. vm_compute. reflexivity. Qed.

Lemma cancelled_start_leaks_witness :
  ∃ world, started cancelled_starts = Some (Err Cancelled, world) ∧
    su_stacks world = ∅ ∧ 100 ∈ su_live world ∧
    100 ∈ su_live (drop_supervisor all_terminate world).
Proof.
  apply (cancelled_start_leaks default_limits (sample_env cancelled_starts) sample_stack
    empty_world prepared_sample reserved_sample
    (sample_start false 100 accepting_poll) (sample_start true 101 accepting_poll) [] 100
    accepting_poll [] all_terminate);
    [done|exact sample_prepared| |exact sample_admitted|reflexivity..| ].
  - vm_compute. lia.
  - vm_compute. by intros ?%elem_of_nil.
Defined.
