(* ===== verification/Conversations.v ===== *)
(** * Agent conversations: records and checks ([crates/wts-app/src/agent_conversations.rs])

    A conversation is one JSON file: what the user selected, the messages exchanged with an
    agent, and the receipts of the edits of queued messages.  This file holds the records, the
    checks on requests and the pure functions on conversations; the store and its queue are in
    ConversationStore. *)

From S2P Require Import Prelude Order Text StoreBase Sessions.

Local Open Scope N_scope.

Definition MAX_CONVERSATIONS : nat := Z.to_nat 4096.
Definition MAX_CONVERSATION_BYTES : N := 16 * 1024 * 1024.
Definition MAX_QUEUED_PER_WORKSPACE : nat := 64.
Definition MAX_MUTATION_RECEIPTS : nat := Z.to_nat 1024.
Definition MAX_CAPTURE_BYTES : N := 2 * 1024 * 1024.
Definition MAX_PRIOR_FEEDBACK_TURNS : nat := 32.
Definition MAX_PRIOR_FEEDBACK_BYTES : N := 1024 * 1024.

(** ** Data *)

Record AgentConversationCapture := {
  ac_mime_type : str;
  ac_data_url : str;
  ac_width : N;
  ac_height : N
}.

Record GitlabReviewDiscussionPosition := {
  gp_base_commit_oid : str;
  gp_start_commit_oid : str;
  gp_head_commit_oid : str
}.

Record GitlabReviewDiscussionComment := {
  gc_id : N;
  gc_body : str;
  gc_author_login : str;
  gc_created_at : str
}.

Record DiscussionSource := {
  gd_workspace_id : Uuid;
  gd_repository_id : str;
  gd_provider_repository_id : option str;
  gd_iid : N;
  gd_discussion_id : str;
  gd_scope_id : option str;
  gd_title : option str;
  gd_source_branch : option str;
  gd_target_branch : option str;
  gd_file_path : option str;
  gd_side : option str;
  gd_line : option N;
  gd_position : option GitlabReviewDiscussionPosition;
  gd_comments : list GitlabReviewDiscussionComment
}.

Inductive AgentConversationSource :=
| WorkItem (work_set_id task_id : Uuid) (label : str)
    (origin_conversation_id origin_request_id : Uuid)
| Ui (route callout_id label : str) (selected_text context : option str)
    (capture : option AgentConversationCapture)
| GitlabDiscussion (discussion : DiscussionSource).

Inductive AgentConversationMessageRole := RoleUser | RoleAssistant | RoleSystem.

Inductive AgentConversationMessageStatus :=
| MQueued | MCancelled | MPending | MRunning | MCompleted | MFailed | MInterrupted.

#[export] Instance message_role_eq_dec : EqDecision AgentConversationMessageRole.
Proof. solve_decision. Defined.
#[export] Instance message_status_eq_dec : EqDecision AgentConversationMessageStatus.
Proof. solve_decision. Defined.
#[export] Instance agent_provider_eq_dec : EqDecision AgentProvider.
Proof. solve_decision. Defined.
#[export] Instance conversation_capture_eq_dec : EqDecision AgentConversationCapture.
Proof. solve_decision. Defined.
#[export] Instance discussion_position_eq_dec : EqDecision GitlabReviewDiscussionPosition.
Proof. solve_decision. Defined.
#[export] Instance discussion_comment_eq_dec : EqDecision GitlabReviewDiscussionComment.
Proof. solve_decision. Defined.
#[export] Instance discussion_source_eq_dec : EqDecision DiscussionSource.
Proof. solve_decision. Defined.
#[export] Instance conversation_source_eq_dec : EqDecision AgentConversationSource.
Proof. solve_decision. Defined.

Record ConversationMutationReceipt := {
  mr_request_id : Uuid;
  mr_message_id : Uuid;
  mr_digest : str
}.

Record AgentConversationMessage := {
  am_message_id : Uuid;
  am_request_id : option Uuid;
  am_submitted_body : option str;
  am_queue_sequence : option N;
  am_queue_position : option N;
  am_last_mutation_request_id : option Uuid;
  am_role : AgentConversationMessageRole;
  am_body : str;
  am_status : AgentConversationMessageStatus;
  am_created_at_unix_ms : Z;
  am_session_id : option Uuid;
  am_error : option str;
  am_progress : option str;
  am_diagnostic : option str
}.

Record AgentConversationPreview := {
  ap_url : str;
  ap_repository_id : str
}.

Record AgentConversation := {
  cv_queue_mutations : list ConversationMutationReceipt;
  cv_schema_version : N;
  cv_conversation_id : Uuid;
  cv_workspace_id : Uuid;
  cv_workspace_display_path : str;
  cv_repository_id : str;
  cv_provider : AgentProvider;
  cv_source : AgentConversationSource;
  cv_revision : N;
  cv_created_at_unix_ms : Z;
  cv_updated_at_unix_ms : Z;
  cv_messages : list AgentConversationMessage;
  cv_active_session_id : option Uuid;
  cv_preview : option AgentConversationPreview
}.

Record CreateAgentConversationRequest := {
  cr_request_id : Uuid;
  cr_provider : AgentProvider;
  cr_source : AgentConversationSource
}.

Record SendAgentConversationMessageRequest := {
  sm_request_id : Uuid;
  sm_body : str
}.

(** The errors of [LocalWtsError] that these operations return; those of other components
    (worktrees, providers) keep their text. *)
Inductive LocalWtsError :=
| InvalidAgentConversation
| AgentConversationNotFound
| AgentConversationConflict
| AgentConversationBusy
| AgentConversationQueueFull
| AgentConversationUnavailable
| AgentConversationStorageFull
| AgentConversationLimit
| VerificationCheckUnavailable
| EvidenceUnavailable
| AgentSessionError (error : AgentSessionStoreError)
| OtherLocalError (message : str).

#[export] Instance session_store_error_eq_dec : EqDecision AgentSessionStoreError.
Proof. solve_decision. Defined.
#[export] Instance local_error_eq_dec : EqDecision LocalWtsError.
Proof. solve_decision. Defined.

(** ** Changed copies *)

Definition with_messages (c : AgentConversation) (messages : list AgentConversationMessage) :
    AgentConversation :=
  {| cv_queue_mutations := cv_queue_mutations c; cv_schema_version := cv_schema_version c;
     cv_conversation_id := cv_conversation_id c; cv_workspace_id := cv_workspace_id c;
     cv_workspace_display_path := cv_workspace_display_path c;
     cv_repository_id := cv_repository_id c; cv_provider := cv_provider c;
     cv_source := cv_source c; cv_revision := cv_revision c;
     cv_created_at_unix_ms := cv_created_at_unix_ms c;
     cv_updated_at_unix_ms := cv_updated_at_unix_ms c; cv_messages := messages;
     cv_active_session_id := cv_active_session_id c; cv_preview := cv_preview c |}.

Definition with_active (c : AgentConversation) (session : option Uuid) : AgentConversation :=
  {| cv_queue_mutations := cv_queue_mutations c; cv_schema_version := cv_schema_version c;
     cv_conversation_id := cv_conversation_id c; cv_workspace_id := cv_workspace_id c;
     cv_workspace_display_path := cv_workspace_display_path c;
     cv_repository_id := cv_repository_id c; cv_provider := cv_provider c;
     cv_source := cv_source c; cv_revision := cv_revision c;
     cv_created_at_unix_ms := cv_created_at_unix_ms c;
     cv_updated_at_unix_ms := cv_updated_at_unix_ms c; cv_messages := cv_messages c;
     cv_active_session_id := session; cv_preview := cv_preview c |}.

Definition with_mutations (c : AgentConversation) (mutations : list ConversationMutationReceipt) :
    AgentConversation :=
  {| cv_queue_mutations := mutations; cv_schema_version := cv_schema_version c;
     cv_conversation_id := cv_conversation_id c; cv_workspace_id := cv_workspace_id c;
     cv_workspace_display_path := cv_workspace_display_path c;
     cv_repository_id := cv_repository_id c; cv_provider := cv_provider c;
     cv_source := cv_source c; cv_revision := cv_revision c;
     cv_created_at_unix_ms := cv_created_at_unix_ms c;
     cv_updated_at_unix_ms := cv_updated_at_unix_ms c; cv_messages := cv_messages c;
     cv_active_session_id := cv_active_session_id c; cv_preview := cv_preview c |}.

(** The stamp of [write]: the next revision ([saturating_add]) and the time. *)
Definition stamped (c : AgentConversation) (now : Z) : AgentConversation :=
  {| cv_queue_mutations := cv_queue_mutations c; cv_schema_version := cv_schema_version c;
     cv_conversation_id := cv_conversation_id c; cv_workspace_id := cv_workspace_id c;
     cv_workspace_display_path := cv_workspace_display_path c;
     cv_repository_id := cv_repository_id c; cv_provider := cv_provider c;
     cv_source := cv_source c; cv_revision := clamp_u64 (cv_revision c + 1);
     cv_created_at_unix_ms := cv_created_at_unix_ms c;
     cv_updated_at_unix_ms := now; cv_messages := cv_messages c;
     cv_active_session_id := cv_active_session_id c; cv_preview := cv_preview c |}.

(** A message with a new status, session, error and text of the agent. *)
Definition with_status (m : AgentConversationMessage) (status : AgentConversationMessageStatus)
    (session : option Uuid) (error : option str) : AgentConversationMessage :=
  {| am_message_id := am_message_id m; am_request_id := am_request_id m;
     am_submitted_body := am_submitted_body m; am_queue_sequence := am_queue_sequence m;
     am_queue_position := am_queue_position m;
     am_last_mutation_request_id := am_last_mutation_request_id m; am_role := am_role m;
     am_body := am_body m; am_status := status;
     am_created_at_unix_ms := am_created_at_unix_ms m; am_session_id := session;
     am_error := error; am_progress := am_progress m; am_diagnostic := am_diagnostic m |}.

Definition with_output (m : AgentConversationMessage) (body : str)
    (progress diagnostic : option str) : AgentConversationMessage :=
  {| am_message_id := am_message_id m; am_request_id := am_request_id m;
     am_submitted_body := am_submitted_body m; am_queue_sequence := am_queue_sequence m;
     am_queue_position := am_queue_position m;
     am_last_mutation_request_id := am_last_mutation_request_id m; am_role := am_role m;
     am_body := body; am_status := am_status m;
     am_created_at_unix_ms := am_created_at_unix_ms m; am_session_id := am_session_id m;
     am_error := am_error m; am_progress := progress; am_diagnostic := diagnostic |}.

Definition with_position (m : AgentConversationMessage) (position : option N) :
    AgentConversationMessage :=
  {| am_message_id := am_message_id m; am_request_id := am_request_id m;
     am_submitted_body := am_submitted_body m; am_queue_sequence := am_queue_sequence m;
     am_queue_position := position;
     am_last_mutation_request_id := am_last_mutation_request_id m; am_role := am_role m;
     am_body := am_body m; am_status := am_status m;
     am_created_at_unix_ms := am_created_at_unix_ms m; am_session_id := am_session_id m;
     am_error := am_error m; am_progress := am_progress m; am_diagnostic := am_diagnostic m |}.

(** A queued message after an edit ([Some body]) or a cancellation. *)
Definition mutated (m : AgentConversationMessage) (body : option str) (request_id : Uuid) :
    AgentConversationMessage :=
  {| am_message_id := am_message_id m; am_request_id := am_request_id m;
     am_submitted_body := am_submitted_body m; am_queue_sequence := am_queue_sequence m;
     am_queue_position := None; am_last_mutation_request_id := Some request_id;
     am_role := am_role m; am_body := default (am_body m) body;
     am_status := match body with Some _ => am_status m | None => MCancelled end;
     am_created_at_unix_ms := am_created_at_unix_ms m; am_session_id := am_session_id m;
     am_error := am_error m; am_progress := am_progress m; am_diagnostic := am_diagnostic m |}.

(** Writing through the reference that [iter_mut().find] returned: the first message that
    satisfies the test. *)
Fixpoint change_first (p : AgentConversationMessage → bool)
    (f : AgentConversationMessage → AgentConversationMessage)
    (messages : list AgentConversationMessage) : list AgentConversationMessage :=
  match messages with
  | [] => []
  | m :: messages' => if p m then f m :: messages' else m :: change_first p f messages'
  end.

Definition find_message (p : AgentConversationMessage → bool)
    (messages : list AgentConversationMessage) : option AgentConversationMessage :=
  head (filter (λ m, p m = true) messages).

Definition has_id (id : Uuid) (m : AgentConversationMessage) : bool :=
  bool_decide (am_message_id m = id).

Definition is_queued (m : AgentConversationMessage) : bool := bool_decide (am_status m = MQueued).
Definition is_user (m : AgentConversationMessage) : bool := bool_decide (am_role m = RoleUser).

Definition queued_count (messages : list AgentConversationMessage) : nat :=
  length (filter (λ m, is_queued m = true) messages).

(** ** Checks *)

Definition char_count (s : str) : N := N.of_nat (length s).

Definition validate_message_body (request_id : Uuid) (body : str) : result () LocalWtsError :=
  guard_err (is_nil request_id || is_empty (trim body) || (16384 <? char_count body)
             || existsb (λ c, c =? 0) body) InvalidAgentConversation.

Definition valid_text (value : str) (maximum : N) : bool :=
  negb (is_empty (trim value)) && (char_count value <=? maximum)
  && negb (existsb (λ c, c =? 0) value).

Definition valid_commit_oid (value : str) : bool :=
  ((byte_len value =? 40) || (byte_len value =? 64)) && forallb is_ascii_hexdigit (utf8 value).

(** [o.is_some_and(p)]. *)
Definition some_and {A} (o : option A) (p : A → bool) : bool :=
  match o with Some x => p x | None => false end.

(** The decoders of the crates [base64] and [png], and the length of a source in JSON. *)
Class CaptureLibraries := {
  base64_decode : str → option (list N);
  (** Width, height and buffer size of the first frame, and whether it decodes. *)
  png_read_info : list N → option (N * N * N);
  png_next_frame : list N → bool;
  source_json_length : AgentConversationSource → N
}.

Section checks.
Context `{CaptureLibraries}.

Definition validate_capture (capture : AgentConversationCapture) :
    result (list N) LocalWtsError :=
  ensure guard_err (negb (bool_decide (ac_mime_type capture = lit "image/png"))
                    || (ac_width capture =? 0) || (ac_height capture =? 0)
                    || (4096 <? ac_width capture) || (4096 <? ac_height capture)
                    || (8388608 <? ac_width capture * ac_height capture)
                    || (MAX_CAPTURE_BYTES * 4 / 3 + 64 <? byte_len (ac_data_url capture)))
           InvalidAgentConversation in
  let? encoded := ok_or (strip_prefix (lit "data:image/png;base64,") (ac_data_url capture))
                    InvalidAgentConversation in
  let? bytes := ok_or (base64_decode encoded) InvalidAgentConversation in
  ensure guard_err (MAX_CAPTURE_BYTES <? N.of_nat (length bytes)) InvalidAgentConversation in
  let? info := ok_or (png_read_info bytes) InvalidAgentConversation in
  let '(width, height, buffer_size) := info in
  ensure guard_err (negb (width =? ac_width capture) || negb (height =? ac_height capture)
                    || (64 * 1024 * 1024 <? buffer_size)) InvalidAgentConversation in
  ensure guard_err (negb (png_next_frame bytes)) InvalidAgentConversation in
  Ok bytes.

Definition valid_discussion (d : DiscussionSource) : bool :=
  negb (is_nil (gd_workspace_id d)
        || negb (valid_text (gd_repository_id d) 160)
        || (gd_iid d =? 0) || (2 ^ 63 - 1 <? gd_iid d)
        || is_empty (gd_discussion_id d) || (128 <? byte_len (gd_discussion_id d))
        || negb (forallb (λ b, is_ascii_alphanumeric b || (b =? 45) || (b =? 95))
                   (utf8 (gd_discussion_id d)))
        || bool_decide (gd_comments d = []) || (200 <? length (gd_comments d))%nat
        || existsb (λ c, (gc_id c =? 0) || negb (valid_text (gc_body c) 16384)
                         || negb (valid_text (gc_author_login c) 256)
                         || negb (valid_text (gc_created_at c) 512)) (gd_comments d)
        || some_and (gd_file_path d)
             (λ path, (4096 <? byte_len path) || existsb (λ c, c =? 0) path)
        || some_and (gd_side d)
             (λ side, negb (bool_decide (side = lit "additions"))
                      && negb (bool_decide (side = lit "deletions")))
        || some_and (gd_line d) (λ line, line =? 0)
        || some_and (gd_position d)
             (λ p, negb (valid_commit_oid (gp_base_commit_oid p))
                   || negb (valid_commit_oid (gp_start_commit_oid p))
                   || negb (valid_commit_oid (gp_head_commit_oid p)))).

(** The bytes of the capture, when the source has one. *)
Definition validate_source (source : AgentConversationSource) :
    result (option (list N)) LocalWtsError :=
  match source with
  | WorkItem _ _ _ _ _ => Err InvalidAgentConversation
  | Ui route callout_id label selected_text context capture =>
      ensure guard_err (negb (valid_text route 2048) || negb (valid_text callout_id 256)
                        || negb (valid_text label 512)
                        || some_and selected_text (λ text, negb (valid_text text 16384))
                        || some_and context (λ text, negb (valid_text text 16384)))
               InvalidAgentConversation in
      match capture with
      | Some capture => rmap Some (validate_capture capture)
      | None => Ok None
      end
  | GitlabDiscussion d =>
      ensure guard_err (negb (valid_discussion d)) InvalidAgentConversation in
      ensure guard_err (512 * 1024 <? source_json_length source) InvalidAgentConversation in
      Ok None
  end.
End checks.

(** ** Pure functions on conversations *)

Definition conversation_has_work (c : AgentConversation) : bool :=
  bool_decide (is_Some (cv_active_session_id c)) || existsb is_queued (cv_messages c).

Definition HOST_STOPPED : str :=
  lit "The host stopped before this turn finished. Review the files before you send a new message.".

Definition interrupted_message (m : AgentConversationMessage) : AgentConversationMessage :=
  match am_status m with
  | MPending | MRunning => with_status m MInterrupted (am_session_id m) (Some HOST_STOPPED)
  | _ => m
  end.

(** What recovery makes of a conversation whose turn is not owned by a live host. *)
Definition recovered_conversation (c : AgentConversation) : AgentConversation :=
  with_messages (with_active c None) (interrupted_message <$> cv_messages c).

(** [queue_sequence.unwrap_or(u64::MAX)]. *)
Definition sequence_or_max (m : AgentConversationMessage) : N :=
  default u64_max (am_queue_sequence m).

Definition queued_messages (c : AgentConversation) : list AgentConversationMessage :=
  filter (λ m, is_queued m = true) (cv_messages c).

Definition queue_entry_cmp : N * Uuid → N * Uuid → comparison := pair_cmp N.compare N.compare.

(** [queues.entry(workspace).or_default().push((sequence, id))] for every queued message. *)
Definition push_queue (queues : gmap Uuid (list (N * Uuid))) (c : AgentConversation) :
    gmap Uuid (list (N * Uuid)) :=
  foldl (λ queues m,
           <[cv_workspace_id c :=
               default [] (queues !! cv_workspace_id c) ++ [(sequence_or_max m, am_message_id m)]]>
             queues) queues (queued_messages c).

Definition workspace_queues (conversations : list AgentConversation) :
    gmap Uuid (list (N * Uuid)) :=
  foldl push_queue ∅ conversations.

(** Positions count from 1 in the sorted queue. *)
Definition number_queue (positions : gmap Uuid N) (queue : list (N * Uuid)) : gmap Uuid N :=
  foldl (λ positions entry, <[entry.2.2 := N.of_nat entry.1 + 1]> positions) positions
    (imap pair (sort_by queue_entry_cmp queue)).

Definition queue_positions (conversations : list AgentConversation) : gmap Uuid N :=
  foldl number_queue ∅
    (snd <$> sort_by (cmp_on fst N.compare) (map_to_list (workspace_queues conversations))).

Definition set_queue_positions (conversations : list AgentConversation) :
    list AgentConversation :=
  let positions := queue_positions conversations in
  (λ c, with_messages c
          ((λ m, with_position m (positions !! am_message_id m)) <$> cv_messages c)) <$> conversations.

(** ** What an agent is shown of the history *)

Definition feedback_reply_matches (message user : AgentConversationMessage) : bool :=
  negb (bool_decide (am_role message = RoleUser))
  && (bool_decide (is_Some (am_request_id message))
      && bool_decide (am_request_id message = am_request_id user)
      || bool_decide (am_request_id message = None)
         && bool_decide (is_Some (am_session_id message))
         && bool_decide (am_session_id message = am_session_id user)).

Definition is_terminal (status : AgentConversationMessageStatus) : bool :=
  match status with MCompleted | MFailed | MInterrupted => true | _ => false end.

Definition feedback_turn_is_terminal (c : AgentConversation) (user : AgentConversationMessage) :
    bool :=
  if negb (is_user user) || negb (is_terminal (am_status user))
     || (bool_decide (is_Some (am_session_id user))
         && bool_decide (am_session_id user = cv_active_session_id c))
  then false
  else
    let replies := filter (λ m, feedback_reply_matches m user = true) (cv_messages c) in
    (negb (bool_decide (replies = [])) || bool_decide (is_Some (am_error user)))
    && forallb (λ m, is_terminal (am_status m)) replies.

(** The fields an agent is not shown. *)
Definition private_cleared (m : AgentConversationMessage) : AgentConversationMessage :=
  {| am_message_id := am_message_id m; am_request_id := am_request_id m;
     am_submitted_body := None; am_queue_sequence := am_queue_sequence m;
     am_queue_position := None; am_last_mutation_request_id := None;
     am_role := am_role m; am_body := am_body m; am_status := am_status m;
     am_created_at_unix_ms := am_created_at_unix_ms m; am_session_id := am_session_id m;
     am_error := am_error m; am_progress := am_progress m; am_diagnostic := am_diagnostic m |}.

(** The messages of a user's turn in a snapshot: the request and, unless it is the current
    one, its replies. *)
Definition snapshot_turn (c : AgentConversation) (message_id : Uuid) (sequence : N)
    (user : AgentConversationMessage) : list AgentConversationMessage :=
  if bool_decide (am_status user = MCancelled)
     || some_and (am_queue_sequence user) (λ value, sequence <? value)
  then []
  else user :: (if bool_decide (am_message_id user = message_id) then []
                else filter (λ m, feedback_reply_matches m user = true) (cv_messages c)).

Definition turn_conversation_snapshot (c : AgentConversation) (message_id : Uuid) :
    result AgentConversation LocalWtsError :=
  let? current := ok_or (find_message (has_id message_id) (cv_messages c))
                    AgentConversationUnavailable in
  let? sequence := ok_or (am_queue_sequence current) AgentConversationUnavailable in
  Ok (with_mutations
        (with_messages c
           (private_cleared <$>
              (filter (λ m, is_user m = true) (cv_messages c)
               ≫= snapshot_turn c message_id sequence))) []).

(** The identity of a turn while the history is scanned. *)
Definition TurnKey : Type := option N * Z * Uuid * Uuid.

Definition turn_key_cmp : TurnKey → TurnKey → comparison :=
  pair_cmp (pair_cmp (pair_cmp (option_cmp N.compare) Z.compare) N.compare) N.compare.

(** [BTreeSet::insert] and [pop_first] on an ordered list without repetitions. *)
Definition set_insert (key : TurnKey) (recent : list TurnKey) : list TurnKey :=
  dedup (sort_by turn_key_cmp (key :: recent)).

Definition is_earlier (user latest : AgentConversationMessage) : bool :=
  match am_queue_sequence user, am_queue_sequence latest with
  | Some sequence, Some current => sequence <? current
  | None, _ => (am_created_at_unix_ms user <? am_created_at_unix_ms latest)%Z
  | Some _, None => false
  end.

(** The turns of [other] that count as earlier feedback for [latest]. *)
Definition eligible_turns (current_requests : gset Uuid) (latest : AgentConversationMessage)
    (other : AgentConversation) : list TurnKey :=
  (λ user, (am_queue_sequence user, am_created_at_unix_ms user, cv_conversation_id other,
            am_message_id user)) <$>
  filter (λ user, is_earlier user latest
                  && negb (some_and (am_request_id user)
                             (λ id, bool_decide (id ∈ current_requests)))
                  && feedback_turn_is_terminal other user = true) (cv_messages other).

(** One turn of the scan: how many were eligible, and the latest of them. *)
Definition note_turn (state : nat * list TurnKey) (key : TurnKey) : nat * list TurnKey :=
  let recent := set_insert key state.2 in
  (S state.1, if (MAX_PRIOR_FEEDBACK_TURNS <? length recent)%nat then tail recent else recent).

Definition feedback_scope (current other : AgentConversation) : bool :=
  negb (bool_decide (cv_conversation_id other = cv_conversation_id current))
  && bool_decide (cv_workspace_id other = cv_workspace_id current)
  && bool_decide (cv_repository_id other = cv_repository_id current)
  && bool_decide (cv_provider other = cv_provider current).

(** The scan of [prior_feedback] over the other conversations. *)
Definition scan_feedback (current : AgentConversation) (latest : AgentConversationMessage)
    (others : list AgentConversation) : nat * list TurnKey :=
  let current_requests := list_to_set (omap am_request_id (cv_messages current)) in
  foldl note_turn (0%nat, [])
    (filter (λ other, feedback_scope current other = true) others
     ≫= eligible_turns current_requests latest).

(** The second half of [prior_feedback]: from the latest turn back, each is kept when its bytes
    still fit. [size] is the number of bytes of a turn in JSON. *)
Definition keep_turn {A} (size : A → N) (state : list A * N * nat) (turn : A) :
    list A * N * nat :=
  let '(turns, bytes, omitted) := state in
  let separator := if bool_decide (length turns = 0%nat) then 0 else 1 in
  if bytes + separator + size turn <=? MAX_PRIOR_FEEDBACK_BYTES
  then (turns ++ [turn], bytes + separator + size turn, pred omitted)
  else state.

Definition select_feedback {A} (size : A → N) (base : N) (eligible : nat) (recent : list A) :
    list A * nat :=
  let '(turns, _, omitted) := foldl (keep_turn size) ([], base, eligible) (reverse recent) in
  (reverse turns, omitted).
