(* ===== verification/ConversationStore.v ===== *)
(** * Agent conversations: the store and its queue ([crates/wts-app/src/agent_conversations.rs])

    The state is the directory of conversation files with the counter of queue numbers, the
    ledger of agent sessions, the caches of the hosts that share the directory and the turns
    whose worker is alive and holds its lease.  Each operation holds the lock of the directory
    from its first read to its last write, so it is one step; what it sees of the outside
    (clocks, fresh identifiers, outcomes of the file system, leases other operations hold) is
    its environment. *)

From S2P Require Import Prelude Order Text StoreBase Sessions Conversations.

Local Open Scope N_scope.

(** ** State *)

Record ConversationFile := {
  cf_bytes : list N;
  cf_modified : Z
}.

(** A worker that runs a turn; it holds the lease of its workspace and repository. *)
Record Turn := {
  tn_conversation : Uuid;
  tn_assistant : Uuid;
  tn_session : Uuid;
  tn_lease : str
}.

(** Modification time, length and whether there was work. *)
Abbreviation WorkCache := (gmap Uuid (Z * N * bool)).

Record ConversationStore := {
  cs_files : gmap Uuid ConversationFile;
  cs_counter : option str;
  cs_ledger : LedgerEntry;
  cs_caches : gmap N WorkCache;
  cs_turns : list Turn
}.

Definition with_files (s : ConversationStore) (files : gmap Uuid ConversationFile) :
    ConversationStore :=
  {| cs_files := files; cs_counter := cs_counter s; cs_ledger := cs_ledger s;
     cs_caches := cs_caches s; cs_turns := cs_turns s |}.
Definition with_counter (s : ConversationStore) (counter : option str) : ConversationStore :=
  {| cs_files := cs_files s; cs_counter := counter; cs_ledger := cs_ledger s;
     cs_caches := cs_caches s; cs_turns := cs_turns s |}.
Definition with_ledger (s : ConversationStore) (ledger : LedgerEntry) : ConversationStore :=
  {| cs_files := cs_files s; cs_counter := cs_counter s; cs_ledger := ledger;
     cs_caches := cs_caches s; cs_turns := cs_turns s |}.
Definition with_cache (s : ConversationStore) (host : N) (cache : WorkCache) : ConversationStore :=
  {| cs_files := cs_files s; cs_counter := cs_counter s; cs_ledger := cs_ledger s;
     cs_caches := <[host := cache]> (cs_caches s); cs_turns := cs_turns s |}.
Definition with_turns (s : ConversationStore) (turns : list Turn) : ConversationStore :=
  {| cs_files := cs_files s; cs_counter := cs_counter s; cs_ledger := cs_ledger s;
     cs_caches := cs_caches s; cs_turns := turns |}.

(** ** What an operation sees of the outside *)

(** What one attempt to start a queued message meets. *)
Record ClaimEnv := {
  cl_restore_recovered : bool;
  cl_integration_recovered : bool;
  cl_operation_lease : result () LocalWtsError;
  cl_session : SessionEnv;
  cl_assistant : Uuid;
  cl_registry : bool;
  cl_spawned : bool;
  cl_failure_session : SessionEnv
}.

(** A task of a work set, as far as a message to its conversation depends on it. *)
Record WorkTask := {
  wt_task_id : Uuid;
  wt_conversation_id : Uuid;
  wt_workspace_id : option Uuid;
  wt_repository_id : option str;
  wt_request_id : Uuid;
  wt_prompt : str;
  wt_terminal : bool
}.

Record ConversationEnv := {
  ce_host : N;
  ce_now : Z;
  ce_locks : bool;
  ce_listing : gset Uuid → list Uuid;
  ce_readable : Uuid → bool;
  ce_writable : Uuid → N → bool;
  ce_modified : Uuid → N → Z;
  ce_lease : str → result () LocalWtsError;
  ce_fresh : Uuid;
  ce_counter_readable : bool;
  ce_counter_writable : bool;
  ce_work_set : Uuid → result (list WorkTask) LocalWtsError;
  ce_claim : Uuid → ClaimEnv
}.

(** The codec of a conversation file ([serde_json], the receipts under their private key), the
    length of the public part, the digest of an edit and the names of leases. *)
Class ConversationLibraries := {
  conversation_to_json : AgentConversation → option (list N);
  conversation_from_json : list N → option AgentConversation;
  conversation_json_length : AgentConversation → option N;
  mutation_digest : Uuid → str → option str → option str;
  lease_key : Uuid → str → str;
  conversation_error_text : LocalWtsError → str
}.

(** What the store relies on: a conversation is written whole and read back as it was. *)
Class ConversationLaws `{ConversationLibraries} : Prop := {
  conversation_round_trip c bytes :
    conversation_to_json c = Some bytes → conversation_from_json bytes = Some c
}.

(** ** Operations as state transformers *)

Definition Op (A : Type) : Type := ConversationStore → result A LocalWtsError * ConversationStore.

Definition op_ret {A} (x : A) : Op A := λ s, (Ok x, s).
Definition op_err {A} (e : LocalWtsError) : Op A := λ s, (Err e, s).
Definition op_lift {A} (r : result A LocalWtsError) : Op A := λ s, (r, s).
Definition op_bind {A B} (m : Op A) (k : A → Op B) : Op B := λ s,
  match m s with
  | (Ok x, s) => k x s
  | (Err e, s) => (Err e, s)
  end.

Notation "'let!' x ':=' m 'in' k" := (op_bind m (λ x, k))
  (at level 10, x name, m at level 100, k at level 200,
   format "'[v' 'let!'  x  ':='  m  'in'  '/' k ']'") : wts_scope.
Notation "'require!' r 'in' k" := (op_bind (op_lift r) (λ _, k))
  (at level 10, r at level 100, k at level 200,
   format "'[v' 'require!'  r  'in'  '/' k ']'") : wts_scope.

(** [for x in l { f(x)?; }]: the results, and the state at the first failure. *)
Fixpoint op_map {A B} (f : A → Op B) (l : list A) : Op (list B) :=
  match l with
  | [] => op_ret []
  | x :: l' => let! y := f x in let! ys := op_map f l' in op_ret (y :: ys)
  end.

(** [s.parse::<u64>()]. *)
Definition parse_u64 (s : str) : option N :=
  let digits := match s with 43 :: digits => digits | _ => s end in
  if is_empty digits || negb (forallb is_ascii_digit digits) then None
  else if digits_value digits <=? u64_max then Some (digits_value digits) else None.

Definition MAX_QUEUE_SEQUENCE : N := 9007199254740991.

Section store.
Context `{SessionJson} `{ConversationLibraries}.

(** ** Files *)

Definition locked (env : ConversationEnv) : result () LocalWtsError :=
  guard_err (negb (ce_locks env)) AgentConversationUnavailable.

(** The identifiers in the order in which the directory lists them. *)
Definition ids (env : ConversationEnv) : Op (list Uuid) := λ s,
  let listed := ce_listing env (dom (cs_files s)) in
  (if (MAX_CONVERSATIONS <? length listed)%nat then Err AgentConversationUnavailable
   else Ok listed, s).

Definition read_file (env : ConversationEnv) (files : gmap Uuid ConversationFile) (id : Uuid) :
    result AgentConversation LocalWtsError :=
  let? file := ok_or (files !! id) AgentConversationNotFound in
  ensure guard_err (MAX_CONVERSATION_BYTES <? N.of_nat (length (cf_bytes file)))
           AgentConversationUnavailable in
  ensure guard_err (negb (ce_readable env id)) AgentConversationUnavailable in
  let? c := ok_or (conversation_from_json (cf_bytes file)) AgentConversationUnavailable in
  ensure guard_err (negb (cv_schema_version c =? 1)
                    || negb (cv_conversation_id c =? id)
                    || (256 <? length (cv_messages c))%nat
                    || (MAX_MUTATION_RECEIPTS <? length (cv_queue_mutations c))%nat)
           AgentConversationUnavailable in
  Ok c.

Definition read (env : ConversationEnv) (id : Uuid) : Op AgentConversation := λ s,
  (read_file env (cs_files s) id, s).

(** The stamped conversation replaces the file; a failure leaves the file as it was. *)
Definition write (env : ConversationEnv) (c : AgentConversation) : Op AgentConversation := λ s,
  let c := stamped c (ce_now env) in
  match conversation_to_json c with
  | None => (Err AgentConversationUnavailable, s)
  | Some bytes =>
      if MAX_CONVERSATION_BYTES <? N.of_nat (length bytes)
      then (Err AgentConversationUnavailable, s)
      else if ce_writable env (cv_conversation_id c) (cv_revision c)
      then (Ok c, with_files s
              (<[cv_conversation_id c :=
                   {| cf_bytes := bytes;
                      cf_modified := ce_modified env (cv_conversation_id c) (cv_revision c) |}]>
                 (cs_files s)))
      else (Err AgentConversationUnavailable, s)
  end.

(** ** Conversations with work *)

(** The loop of [work_conversations]: a file that the cache knows without work and that has
    not changed since is skipped. *)
Fixpoint scan_work (env : ConversationEnv) (files : gmap Uuid ConversationFile)
    (listed : list Uuid) (cache : WorkCache) (pending : list AgentConversation) :
    result (list AgentConversation) LocalWtsError * WorkCache :=
  match listed with
  | [] => (Ok pending, cache)
  | id :: listed' =>
      match files !! id with
      | None => (Err AgentConversationUnavailable, cache)
      | Some file =>
          let len := N.of_nat (length (cf_bytes file)) in
          if match cache !! id with
             | Some (last, size, work) => (last =? cf_modified file)%Z && (size =? len) && negb work
             | None => false
             end
          then scan_work env files listed' cache pending
          else
            match read_file env files id with
            | Err error => (Err error, cache)
            | Ok c =>
                let work := conversation_has_work c in
                scan_work env files listed' (<[id := (cf_modified file, len, work)]> cache)
                  (if work then pending ++ [c] else pending)
            end
      end
  end.

Definition work_conversations (env : ConversationEnv) : Op (list AgentConversation) :=
  let! listed := ids env in
  λ s,
    let cache := default ∅ (cs_caches s !! ce_host env) in
    let present := filter (λ entry, entry.1 ∈ listed) cache in
    let '(outcome, cache) := scan_work env (cs_files s) listed present [] in
    (outcome, with_cache s (ce_host env) cache).

(** ** Leases and recovery *)

Definition lease_of (c : AgentConversation) : str :=
  lease_key (cv_workspace_id c) (cv_repository_id c).

(** A lease is taken when no running turn and no other operation holds it. *)
Definition turn_lease (env : ConversationEnv) (c : AgentConversation) :
    ConversationStore → result () LocalWtsError := λ s,
  if existsb (λ turn, bool_decide (tn_lease turn = lease_of c)) (cs_turns s)
  then Err AgentConversationBusy
  else ce_lease env (lease_of c).

(** A turn whose lease is free has lost its host: its messages are marked interrupted. *)
Definition recover_if_unowned (env : ConversationEnv) (c : AgentConversation) :
    Op AgentConversation := λ s,
  match cv_active_session_id c, turn_lease env c s with
  | Some _, Ok _ => write env (recovered_conversation c) s
  | _, _ => (Ok c, s)
  end.

Definition set_conversation_queue_positions (env : ConversationEnv) (c : AgentConversation) :
    Op AgentConversation :=
  let! all := work_conversations env in
  let c := with_messages c ((λ m, with_position m None) <$> cv_messages c) in
  let same := λ value, bool_decide (cv_conversation_id value = cv_conversation_id c) in
  let all := (fix replace (all : list AgentConversation) :=
                match all with
                | [] => []
                | value :: all' => if same value then c :: all' else value :: replace all'
                end) all in
  op_ret (default c (head (filter (λ value, same value = true) (set_queue_positions all)))).

(** ** Reading *)

Definition get_agent_conversation (env : ConversationEnv) (id : Uuid) : Op AgentConversation :=
  require! locked env in
  let! c := read env id in
  let! c := recover_if_unowned env c in
  set_conversation_queue_positions env c.

(** ** Sending *)

Definition ensure_turn_capacity (c : AgentConversation) : result () LocalWtsError :=
  match conversation_json_length c with
  | None => Err AgentConversationUnavailable
  | Some len =>
      guard_err (MAX_CONVERSATION_BYTES - 13 * 1024 * 1024 <? len) AgentConversationLimit
  end.

(** A message to the conversation of a task must be the one the task prepared. *)
Definition validate_child_send (env : ConversationEnv) (c : AgentConversation)
    (request : SendAgentConversationMessageRequest) : result () LocalWtsError :=
  match cv_source c with
  | WorkItem work_set_id task_id _ _ _ =>
      let? tasks := ce_work_set env work_set_id in
      let? task := ok_or (head (filter (λ task, wt_task_id task = task_id) tasks))
                     AgentConversationConflict in
      guard_err (negb (bool_decide (wt_conversation_id task = cv_conversation_id c))
                 || negb (bool_decide (wt_workspace_id task = Some (cv_workspace_id c)))
                 || negb (bool_decide (wt_repository_id task = Some (cv_repository_id c)))
                 || negb (bool_decide (sm_request_id request = wt_request_id task))
                 || negb (bool_decide (sm_body request = wt_prompt task))
                 || wt_terminal task) AgentConversationConflict
  | _ => Ok ()
  end.

Definition queued_in_workspace (workspace_id : Uuid) (all : list AgentConversation) : nat :=
  length (filter (λ m, is_queued m = true)
            (filter (λ c, cv_workspace_id c = workspace_id) all ≫= cv_messages)).

(** The number of the last queued message; a missing file stands for 0. *)
Definition read_counter (env : ConversationEnv) (s : ConversationStore) :
    result N LocalWtsError :=
  match cs_counter s with
  | None => Ok 0
  | Some text =>
      if ce_counter_readable env && (byte_len text <=? 32)
      then ok_or (parse_u64 text) AgentConversationUnavailable
      else Err AgentConversationUnavailable
  end.

Definition next_sequence (previous : N) : result N LocalWtsError :=
  match checked_add_u64 previous 1 with
  | Some sequence =>
      if sequence <=? MAX_QUEUE_SEQUENCE then Ok sequence else Err AgentConversationStorageFull
  | None => Err AgentConversationStorageFull
  end.

Definition write_counter (env : ConversationEnv) (sequence : N) : Op () := λ s,
  if ce_counter_writable env then (Ok (), with_counter s (Some (dec sequence)))
  else (Err AgentConversationUnavailable, s).

Definition queued_message (id sequence : N) (request : SendAgentConversationMessageRequest)
    (now : Z) : AgentConversationMessage :=
  {| am_message_id := id; am_request_id := Some (sm_request_id request);
     am_submitted_body := Some (sm_body request); am_queue_sequence := Some sequence;
     am_queue_position := None; am_last_mutation_request_id := None; am_role := RoleUser;
     am_body := sm_body request; am_status := MQueued; am_created_at_unix_ms := now;
     am_session_id := None; am_error := None; am_progress := None; am_diagnostic := None |}.

(** The request a user message answers, for the replay of a request. *)
Definition sent_as (request_id : Uuid) (m : AgentConversationMessage) : bool :=
  is_user m && bool_decide (am_request_id m = Some request_id).

(** The part of [send_agent_conversation_message] under the lock: [Some] is the reply to a
    request that was already sent, [None] that the message is queued. *)
Definition send_locked (env : ConversationEnv) (id : Uuid)
    (request : SendAgentConversationMessageRequest) : Op (option AgentConversation) :=
  require! validate_message_body (sm_request_id request) (sm_body request) in
  require! locked env in
  let! c := read env id in
  let! c := recover_if_unowned env c in
  match find_message (sent_as (sm_request_id request)) (cv_messages c) with
  | Some m =>
      if bool_decide (default (am_body m) (am_submitted_body m) = sm_body request)
      then let! c := set_conversation_queue_positions env c in op_ret (Some c)
      else op_err AgentConversationConflict
  | None =>
      require! validate_child_send env c request in
      require! guard_err (254 <=? length (cv_messages c) + queued_count (cv_messages c))%nat
                 AgentConversationLimit in
      let! all := work_conversations env in
      require! guard_err (MAX_QUEUED_PER_WORKSPACE <=?
                          queued_in_workspace (cv_workspace_id c) all)%nat
                 AgentConversationQueueFull in
      let! previous := (λ s, (read_counter env s, s)) in
      let! sequence := op_lift (next_sequence previous) in
      let c := with_messages c
                 (cv_messages c ++ [queued_message (ce_fresh env) sequence request (ce_now env)]) in
      require! ensure_turn_capacity c in
      let! _ := write_counter env sequence in
      let! _ := write env c in
      op_ret None
  end.

(** ** Editing and cancelling *)

Definition mutate_queued_message (env : ConversationEnv) (id message_id request_id : Uuid)
    (expected_body : str) (body : option str) : Op AgentConversation :=
  require! validate_message_body request_id expected_body in
  require! guard_err (is_nil message_id) InvalidAgentConversation in
  let! digest := op_lift (ok_or (mutation_digest message_id expected_body body)
                            InvalidAgentConversation) in
  require! locked env in
  let! c := read env id in
  require! guard_err (match body, cv_source c with
                      | Some _, WorkItem _ _ _ _ _ => true
                      | _, _ => false
                      end) AgentConversationConflict in
  let p := λ m, has_id message_id m && is_user m in
  let! m := op_lift (ok_or (find_message p (cv_messages c)) AgentConversationConflict) in
  match head (filter (λ receipt, mr_request_id receipt = request_id) (cv_queue_mutations c)) with
  | Some receipt =>
      if negb (bool_decide (mr_message_id receipt = message_id))
         || negb (bool_decide (mr_digest receipt = digest))
         || negb (bool_decide (am_last_mutation_request_id m = Some request_id))
      then op_err AgentConversationConflict
      else set_conversation_queue_positions env c
  | None =>
      require! guard_err (negb (is_queued m) || negb (bool_decide (am_body m = expected_body)))
                 AgentConversationConflict in
      require! guard_err (MAX_MUTATION_RECEIPTS <=? length (cv_queue_mutations c))%nat
                 AgentConversationLimit in
      let receipt := {| mr_request_id := request_id; mr_message_id := message_id;
                        mr_digest := digest |} in
      let c := with_mutations
                 (with_messages c (change_first p (λ m, mutated m body request_id) (cv_messages c)))
                 (cv_queue_mutations c ++ [receipt]) in
      require! (match body with Some _ => ensure_turn_capacity c | None => Ok () end) in
      let! c := write env c in
      set_conversation_queue_positions env c
  end.

Definition update_agent_conversation_message (env : ConversationEnv)
    (id message_id request_id : Uuid) (expected_body body : str) : Op AgentConversation :=
  require! validate_message_body request_id body in
  mutate_queued_message env id message_id request_id expected_body (Some body).

Definition cancel_agent_conversation_message (env : ConversationEnv)
    (id message_id request_id : Uuid) (expected_body : str) : Op AgentConversation :=
  mutate_queued_message env id message_id request_id expected_body None.
End store.
