(* ===== verification/ConversationQueue.v ===== *)
(** * Agent conversations: turns ([crates/wts-app/src/agent_conversations.rs])

    Starting queued messages, the life of a turn, creating and listing conversations, opening
    the store, and the steps by which hosts that share the directory change it. *)

From S2P Require Import Prelude Order Text StoreBase Sessions Conversations ConversationStore.

Local Open Scope N_scope.

(** What the preparation of a new conversation outside this store yields: the workspace and
    repository of the source, its binding and display path, or the error of the first check
    that fails. *)
Record ConversationTarget := {
  ct_workspace_id : Uuid;
  ct_repository_id : str;
  ct_display_path : str;
  ct_preview : option AgentConversationPreview
}.

Section queue.
Context `{SessionJson} `{ConversationLibraries} `{CaptureLibraries}.

(** ** Starting queued messages *)

Definition COULD_NOT_START : str := lit "The queued request could not start: ".

Definition refused (error : LocalWtsError) (m : AgentConversationMessage) : AgentConversationMessage :=
  with_status m MFailed (am_session_id m) (Some (COULD_NOT_START ++ conversation_error_text error)).

Definition refused_conversation (c : AgentConversation) (id : Uuid) (error : LocalWtsError) :
    AgentConversation :=
  with_messages c (change_first (has_id id) (refused error) (cv_messages c)).

Definition fail_queued_message (env : ConversationEnv) (c : AgentConversation) (id : Uuid)
    (error : LocalWtsError) : Op () :=
  let! _ := write env (refused_conversation c id error) in
  op_ret tt.

(** [begin_launch] on the session ledger. *)
Definition launch (claim : ClaimEnv) (c : AgentConversation) : Op AgentSession := λ s,
  let '(outcome, ledger) :=
    begin_launch (cl_session claim) (cs_ledger s) (cv_workspace_id c) (cv_provider c) TerminalApp
      Implementation in
  (match outcome with Ok session => Ok session | Err e => Err (AgentSessionError e) end,
   with_ledger s ledger).

(** The claim: the user's message runs, and an empty reply of the agent is appended. *)
Definition reply_message (id : Uuid) (request_id : option Uuid) (session_id : Uuid) (now : Z) :
    AgentConversationMessage :=
  {| am_message_id := id; am_request_id := request_id; am_submitted_body := None;
     am_queue_sequence := None; am_queue_position := None; am_last_mutation_request_id := None;
     am_role := RoleAssistant; am_body := []; am_status := MPending;
     am_created_at_unix_ms := now; am_session_id := Some session_id; am_error := None;
     am_progress := None; am_diagnostic := None |}.

Definition started (session_id : Uuid) (m : AgentConversationMessage) : AgentConversationMessage :=
  with_position (with_status m MRunning (Some session_id) (am_error m)) None.

Definition claimed_conversation (c : AgentConversation) (message_id assistant_id session_id : Uuid)
    (request_id : option Uuid) (now : Z) : AgentConversation :=
  with_active
    (with_messages c
       (change_first (has_id message_id) (started session_id) (cv_messages c)
        ++ [reply_message assistant_id request_id session_id now])) (Some session_id).

(** The worker takes over the lease; when it cannot be spawned the launch is marked failed. *)
Definition hand_over (claim : ClaimEnv) (turn : Turn) : Op () := λ s,
  if cl_spawned claim then (Ok (), with_turns s (turn :: cs_turns s))
  else (Ok (), with_ledger s
                 (fail_launch (cl_failure_session claim) (cs_ledger s) (tn_session turn)
                    ProviderFailed).2).

(** The durable claim of [message_id] for the launched session, and the start of its worker. *)
Definition claim_message (env : ConversationEnv) (c : AgentConversation) (message_id : Uuid)
    (session : AgentSession) : Op () :=
  let claim := ce_claim env message_id in
  let! user := op_lift (ok_or (find_message (has_id message_id) (cv_messages c))
                          AgentConversationUnavailable) in
  let! c := write env (claimed_conversation c message_id (cl_assistant claim)
              (as_session_id session) (am_request_id user) (ce_now env)) in
  require! guard_err (negb (cl_registry claim)) AgentConversationUnavailable in
  require! turn_conversation_snapshot c message_id in
  hand_over claim {| tn_conversation := cv_conversation_id c; tn_assistant := cl_assistant claim;
                     tn_session := as_session_id session; tn_lease := lease_of c |}.

(** One attempt to start the queued message [message_id] of [c]. *)
Definition attempt (env : ConversationEnv) (c : AgentConversation) (message_id : Uuid) : Op () :=
  let claim := ce_claim env message_id in
  if negb (cl_restore_recovered claim) || negb (cl_integration_recovered claim) then op_ret tt
  else
    match cl_operation_lease claim with
    | Err AgentConversationBusy => op_ret tt
    | Err error => fail_queued_message env c message_id error
    | Ok _ =>
        match ensure_turn_capacity c with
        | Err error => fail_queued_message env c message_id error
        | Ok _ =>
            λ s,
            match turn_lease env c s with
            | Err AgentConversationBusy => (Ok (), s)
            | Err error => fail_queued_message env c message_id error s
            | Ok _ =>
                match launch claim c s with
                | (Err error, s) => fail_queued_message env c message_id error s
                | (Ok session, s) => claim_message env c message_id session s
                end
            end
        end
    end.

(** A queued message with the place of its conversation in the scan. *)
Definition Candidate : Type := N * nat * Uuid.

Definition candidate_cmp : Candidate → Candidate → comparison :=
  pair_cmp (pair_cmp N.compare Nat.compare) N.compare.

Definition candidates (all : list AgentConversation) : list Candidate :=
  sort_by candidate_cmp
    (concat (imap (λ index c,
       (λ m, (sequence_or_max m, index, am_message_id m)) <$> queued_messages c) all)).

(** The loop over the candidates; a workspace is attempted once. *)
Fixpoint start_candidates (env : ConversationEnv) (all : list AgentConversation)
    (busy : gset Uuid) (l : list Candidate) : Op () :=
  match l with
  | [] => op_ret tt
  | (_, index, message_id) :: l' =>
      match all !! index with
      | None => op_err AgentConversationUnavailable
      | Some c =>
          if decide (cv_workspace_id c ∈ busy) then start_candidates env all busy l'
          else
            let! _ := attempt env c message_id in
            start_candidates env all ({[cv_workspace_id c]} ∪ busy) l'
      end
  end.

Definition busy_workspaces (all : list AgentConversation) : gset Uuid :=
  list_to_set (cv_workspace_id <$>
    filter (λ c, is_Some (cv_active_session_id c)) all).

Definition pump_agent_conversation_queue (env : ConversationEnv) : Op () :=
  require! locked env in
  let! all := work_conversations env in
  let! all := op_map (recover_if_unowned env) all in
  start_candidates env all (busy_workspaces all) (candidates all).

(** The whole call: an acknowledgement is sent even if the pump fails, and a failure to read
    the result is not reported as a rejection. *)
Definition send_agent_conversation_message (env_send env_pump env_get : ConversationEnv) (id : Uuid)
    (request : SendAgentConversationMessageRequest) : Op AgentConversation :=
  let! reply := send_locked env_send id request in
  match reply with
  | Some c => op_ret c
  | None => λ s,
      let s := (pump_agent_conversation_queue env_pump s).2 in
      match get_agent_conversation env_get id s with
      | (Ok c, s) => (Ok c, s)
      | (Err _, s) => (Err AgentConversationUnavailable, s)
      end
  end.

(** ** The life of a turn *)

(** [update]: read, edit and write under the lock. *)
Definition update (env : ConversationEnv) (id : Uuid)
    (edit : AgentConversation → AgentConversation) : Op () :=
  require! locked env in
  let! c := read env id in
  let! _ := write env (edit c) in
  op_ret tt.

(** A report of the agent; [Some] text is an update of its progress. *)
Definition reported (summary : option str) (m : AgentConversationMessage) : AgentConversationMessage :=
  let m := with_status m MRunning (am_session_id m) (am_error m) in
  match summary with
  | Some summary => with_output m (am_body m) (Some summary) (am_diagnostic m)
  | None => m
  end.

Definition report_edit (turn : Turn) (summary : option str) (c : AgentConversation) :
    AgentConversation :=
  if bool_decide (cv_active_session_id c = Some (tn_session turn)) then
    with_messages c (change_first (has_id (tn_assistant turn)) (reported summary) (cv_messages c))
  else c.

(** The failure of the update is dropped. *)
Definition report_progress (env : ConversationEnv) (turn : Turn) (summary : option str) : Op () :=
  λ s, (Ok (), (update env (tn_conversation turn) (report_edit turn summary) s).2).

Record ConversationOutput := {
  co_body : str;
  co_progress : str;
  co_diagnostic : str
}.

Definition nonblank (s : str) : option str := if is_empty (trim s) then None else Some s.

Definition final_status (error : option str) (interrupted : bool) :
    AgentConversationMessageStatus :=
  if interrupted then MInterrupted
  else match error with Some _ => MFailed | None => MCompleted end.

(** The reply at the end of the turn, and the user's messages of the turn. *)
Definition answered (output : option ConversationOutput) (error : option str)
    (status : AgentConversationMessageStatus) (m : AgentConversationMessage) :
    AgentConversationMessage :=
  let m := match output with
           | Some output => with_output m (co_body output) (nonblank (co_progress output))
                              (nonblank (co_diagnostic output))
           | None => m
           end in
  with_status m status (am_session_id m) error.

Definition closed (turn : Turn) (status : AgentConversationMessageStatus)
    (m : AgentConversationMessage) : AgentConversationMessage :=
  if is_user m && bool_decide (am_session_id m = Some (tn_session turn))
  then with_status m status (am_session_id m) (am_error m) else m.

Definition finish_edit (turn : Turn) (output : option ConversationOutput) (error : option str)
    (status : AgentConversationMessageStatus) (c : AgentConversation) : AgentConversation :=
  if bool_decide (cv_active_session_id c = Some (tn_session turn)) then
    with_active
      (with_messages c
         (closed turn status <$>
            change_first (has_id (tn_assistant turn)) (answered output error status)
              (cv_messages c))) None
  else c.

(** The end of the session of a turn in the ledger. *)
Definition end_session (session retry : SessionEnv) (id : Uuid)
    (status : AgentConversationMessageStatus) (ledger : LedgerEntry) : LedgerEntry :=
  match status with
  | MCompleted => (finish session ledger id).2
  | MInterrupted => (interrupt session ledger id UserStopped).2
  | _ =>
      match fail_launch session ledger id ProviderFailed with
      | (Ok _, ledger) => ledger
      | (Err _, ledger) => (fail_session retry ledger id ProviderFailed).2
      end
  end.

(** The lease is released whether or not the conversation could be updated. *)
Definition finish_conversation_turn (env : ConversationEnv) (session retry : SessionEnv)
    (turn : Turn) (output : option ConversationOutput) (error : option str) (interrupted : bool) :
    Op () := λ s,
  let status := final_status error interrupted in
  let s := (update env (tn_conversation turn) (finish_edit turn output error status) s).2 in
  let s := with_turns s (filter (λ t, tn_session t ≠ tn_session turn) (cs_turns s)) in
  (Ok (), with_ledger s (end_session session retry (tn_session turn) status (cs_ledger s))).

(** ** Creating, listing and opening *)

Definition new_conversation (request : CreateAgentConversationRequest)
    (target : ConversationTarget) (now : Z) : AgentConversation :=
  {| cv_queue_mutations := []; cv_schema_version := 1;
     cv_conversation_id := cr_request_id request; cv_workspace_id := ct_workspace_id target;
     cv_workspace_display_path := ct_display_path target;
     cv_repository_id := ct_repository_id target; cv_provider := cr_provider request;
     cv_source := cr_source request; cv_revision := 0; cv_created_at_unix_ms := now;
     cv_updated_at_unix_ms := now; cv_messages := []; cv_active_session_id := None;
     cv_preview := ct_preview target |}.

(** [target] is what the worktrees and the provider answer for the source, the binding of a
    discussion included; [artifacts] whether the capture and the binding could be written. *)
Definition create_agent_conversation (env : ConversationEnv)
    (target : result ConversationTarget LocalWtsError) (artifacts : result () LocalWtsError)
    (request : CreateAgentConversationRequest) : Op AgentConversation :=
  require! validate_source (cr_source request) in
  require! guard_err (is_nil (cr_request_id request)) InvalidAgentConversation in
  require! locked env in
  λ s,
  match read_file env (cs_files s) (cr_request_id request) with
  | Ok existing =>
      if bool_decide (cv_source existing = cr_source request)
         && bool_decide (cv_provider existing = cr_provider request)
      then (Ok existing, s)
      else (Err AgentConversationConflict, s)
  | Err AgentConversationNotFound =>
      (let! listed := ids env in
       require! guard_err (MAX_CONVERSATIONS <=? length listed)%nat AgentConversationStorageFull in
       let! target := op_lift target in
       require! artifacts in
       write env (new_conversation request target (ce_now env))) s
  | Err error => (Err error, s)
  end.

Definition is_work_item (c : AgentConversation) : bool :=
  match cv_source c with WorkItem _ _ _ _ _ => true | _ => false end.

(** The latest conversations without work, at most 50. *)
Fixpoint load_history (env : ConversationEnv) (files : gmap Uuid ConversationFile)
    (wanted : nat) (l : list Uuid) : result (list AgentConversation) LocalWtsError :=
  match l with
  | [] => Ok []
  | id :: l' =>
      let? c := read_file env files id in
      if is_work_item c then load_history env files wanted l'
      else
        match wanted with
        | O | S O => Ok [c]
        | S wanted =>
            let? rest := load_history env files wanted l' in
            Ok (c :: rest)
        end
  end.

(** The order of [history]: the last modified first, then by identifier. *)
Definition history_cmp (files : gmap Uuid ConversationFile) : Uuid → Uuid → comparison :=
  cmp_on (λ id, (match files !! id with Some file => cf_modified file | None => 0%Z end, id))
    (pair_cmp (rev_cmp Z.compare) N.compare).

Definition bool_cmp (a b : bool) : comparison :=
  match a, b with
  | false, true => Lt
  | true, false => Gt
  | _, _ => Eq
  end.

(** Conversations with work first, then the last changed. *)
Definition listing_order : AgentConversation → AgentConversation → comparison :=
  cmp_on (λ c, (negb (conversation_has_work c), cv_updated_at_unix_ms c))
    (pair_cmp bool_cmp (rev_cmp Z.compare)).

(** [retain]: at most 50 conversations without work. *)
Fixpoint retain_history (history : nat) (l : list AgentConversation) : list AgentConversation :=
  match l with
  | [] => []
  | c :: l' =>
      if is_work_item c then retain_history history l'
      else if conversation_has_work c then c :: retain_history history l'
      else if (S history <=? 50)%nat then c :: retain_history (S history) l'
      else retain_history (S history) l'
  end.

Definition list_agent_conversations (env : ConversationEnv) : Op (list AgentConversation) :=
  require! locked env in
  let! pending := work_conversations env in
  let! pending := op_map (recover_if_unowned env) pending in
  let! listed := ids env in
  λ s,
  let included := cv_conversation_id <$> pending in
  let history := sort_by (history_cmp (cs_files s)) (filter (λ id, id ∉ included) listed) in
  match load_history env (cs_files s) 50 history with
  | Err error => (Err error, s)
  | Ok history =>
      (Ok (set_queue_positions
             (retain_history 0 (sort_by listing_order (pending ++ history)))), s)
  end.

(** The host starts with an empty cache. *)
Definition open_conversations (env : ConversationEnv) : Op () := λ s,
  (require! locked env in
   let! listed := ids env in
   let! _ := op_map (λ id, let! c := read env id in recover_if_unowned env c) listed in
   op_ret tt) (with_cache s (ce_host env) ∅).

(** ** The history an agent is shown *)

(** The messages of the turn a key stands for; [context] reads the capture or the binding of
    the source of a conversation. *)
Definition feedback_turn (context : AgentConversation → result () LocalWtsError)
    (others : list AgentConversation) (key : TurnKey) :
    result (AgentConversation * list AgentConversationMessage) LocalWtsError :=
  let '(_, _, id, message_id) := key in
  let? c := ok_or (head (filter (λ c, cv_conversation_id c = id) others))
              AgentConversationNotFound in
  let? user := ok_or (find_message (has_id message_id) (cv_messages c))
                 AgentConversationUnavailable in
  ensure context c in
  Ok (c, private_cleared <$>
           user :: filter (λ m, feedback_reply_matches m user = true) (cv_messages c)).

Fixpoint collect {A B E} (f : A → result B E) (l : list A) : result (list B) E :=
  match l with
  | [] => Ok []
  | x :: l' => let? y := f x in let? ys := collect f l' in Ok (y :: ys)
  end.

(** [size] is the length of a turn in JSON, [base] that of the empty history. *)
Definition prior_feedback (env : ConversationEnv)
    (context : AgentConversation → result () LocalWtsError)
    (size : AgentConversation * list AgentConversationMessage → N) (base : N)
    (current : AgentConversation) (latest : AgentConversationMessage) :
    Op (list (AgentConversation * list AgentConversationMessage) * nat) :=
  let! listed := ids env in
  let! others := op_map (read env) (filter (λ id, id ≠ cv_conversation_id current) listed) in
  let '(eligible, recent) := scan_feedback current latest others in
  let! turns := op_lift (collect (feedback_turn context others) (reverse recent)) in
  op_ret (select_feedback size base eligible (reverse turns)).

(** ** Histories *)

(** One step of the hosts that share the directory: an operation, or the death of a host with
    the turns it runs, or a call of the session ledger by another component. *)
Inductive ConversationStep :=
| StepOpen (env : ConversationEnv)
| StepCreate (env : ConversationEnv) (target : result ConversationTarget LocalWtsError)
    (artifacts : result () LocalWtsError) (request : CreateAgentConversationRequest)
| StepSend (env : ConversationEnv) (id : Uuid) (request : SendAgentConversationMessageRequest)
| StepUpdate (env : ConversationEnv) (id message_id request_id : Uuid) (expected_body body : str)
| StepCancel (env : ConversationEnv) (id message_id request_id : Uuid) (expected_body : str)
| StepGet (env : ConversationEnv) (id : Uuid)
| StepList (env : ConversationEnv)
| StepPump (env : ConversationEnv)
| StepReport (env : ConversationEnv) (turn : Turn) (summary : option str)
| StepFinish (env : ConversationEnv) (session retry : SessionEnv) (turn : Turn)
    (output : option ConversationOutput) (error : option str) (interrupted : bool)
| StepHostStops (lost : Turn → bool)
| StepSession (env : SessionEnv) (call : SessionCall).

Definition run_step (step : ConversationStep) (s : ConversationStore) : ConversationStore :=
  match step with
  | StepOpen env => (open_conversations env s).2
  | StepCreate env target artifacts request =>
      (create_agent_conversation env target artifacts request s).2
  | StepSend env id request => (send_locked env id request s).2
  | StepUpdate env id message_id request_id expected_body body =>
      (update_agent_conversation_message env id message_id request_id expected_body body s).2
  | StepCancel env id message_id request_id expected_body =>
      (cancel_agent_conversation_message env id message_id request_id expected_body s).2
  | StepGet env id => (get_agent_conversation env id s).2
  | StepList env => (list_agent_conversations env s).2
  | StepPump env => (pump_agent_conversation_queue env s).2
  | StepReport env turn summary => (report_progress env turn summary s).2
  | StepFinish env session retry turn output error interrupted =>
      (finish_conversation_turn env session retry turn output error interrupted s).2
  | StepHostStops lost => with_turns s (filter (λ t, lost t = false) (cs_turns s))
  | StepSession env call => with_ledger s (run_call env call (cs_ledger s)).2
  end.
End queue.
