(* ===== verification/ConversationRules.v ===== *)
(** * Agent conversations: the life of a message and the invariant of the store

    [message_step] is the lifecycle every message follows, [evolves] what may happen to a
    conversation, [queue_ok] the invariant of the directory.  [write_change] is the one lemma
    by which every operation keeps the invariant. *)

From S2P Require Import Prelude Order Text StoreBase Sessions.
From S2P Require Import Conversations ConversationStore ConversationQueue.

Local Open Scope N_scope.

(** ** The life of a message *)

Definition settled (status : AgentConversationMessageStatus) : bool :=
  match status with MCancelled | MCompleted | MFailed | MInterrupted => true | _ => false end.

Definition in_progress (status : AgentConversationMessageStatus) : bool :=
  match status with MPending | MRunning => true | _ => false end.

Inductive message_edge :
  AgentConversationMessageStatus → AgentConversationMessageStatus → Prop :=
| edge_start : message_edge MQueued MRunning
| edge_cancel : message_edge MQueued MCancelled
| edge_refuse : message_edge MQueued MFailed
| edge_report : message_edge MPending MRunning
| edge_end status status' :
    in_progress status = true → is_terminal status' = true → message_edge status status'.

(** What never changes of a message. *)
Definition identity_of (m : AgentConversationMessage) :
    Uuid * option Uuid * option str * option N * AgentConversationMessageRole * Z :=
  (am_message_id m, am_request_id m, am_submitted_body m, am_queue_sequence m, am_role m,
   am_created_at_unix_ms m).

Record message_step (m m' : AgentConversationMessage) : Prop := {
  me_identity : identity_of m' = identity_of m;
  me_status : rtc message_edge (am_status m) (am_status m');
  me_settled : settled (am_status m) = true → m' = m
}.

#[export] Instance message_step_preorder : PreOrder message_step.
Proof.
  split.
  - intros m. by split.
  - intros m1 m2 m3 [Hi1 Hs1 Hm1] [Hi2 Hs2 Hm2]. split.
    + congruence.
    + by trans (am_status m2).
    + intros Hs. specialize (Hm1 Hs) as ->. auto.
Qed.

Lemma message_step_id m m' : message_step m m' → am_message_id m' = am_message_id m.
Proof. by intros [[= -> _ _ _ _ _] _ _]. Qed.
Lemma message_step_request m m' : message_step m m' → am_request_id m' = am_request_id m.
Proof. by intros [[= _ -> _ _ _ _] _ _]. Qed.
Lemma message_step_sequence m m' : message_step m m' → am_queue_sequence m' = am_queue_sequence m.
Proof. by intros [[= _ _ _ -> _ _] _ _]. Qed.
Lemma message_step_role m m' : message_step m m' → am_role m' = am_role m.
Proof. by intros [[= _ _ _ _ -> _] _ _]. Qed.

(** ** What may happen to a conversation *)

Definition header_of (c : AgentConversation) :
    N * Uuid * Uuid * str * str * AgentProvider * AgentConversationSource * Z :=
  (cv_schema_version c, cv_conversation_id c, cv_workspace_id c, cv_workspace_display_path c,
   cv_repository_id c, cv_provider c, cv_source c, cv_created_at_unix_ms c).

Record evolves_with (c c' : AgentConversation) (added : list AgentConversationMessage) : Prop := {
  ev_header : header_of c' = header_of c;
  ev_messages : ∃ kept, cv_messages c' = kept ++ added ∧
                        Forall2 message_step (cv_messages c) kept;
  ev_receipts : cv_queue_mutations c `prefix_of` cv_queue_mutations c'
}.

Definition evolves (c c' : AgentConversation) : Prop := ∃ added, evolves_with c c' added.

Lemma evolves_with_trans c1 c2 c3 a1 a2 :
  evolves_with c1 c2 a1 → evolves_with c2 c3 a2 → evolves c1 c3.
Proof.
  intros [Hh1 (k1 & Hm1 & Hk1) Hr1] [Hh2 (k2 & Hm2 & Hk2) Hr2].
  rewrite Hm1 in Hk2. apply Forall2_app_inv_l in Hk2 as (l1 & l2 & Hl1 & Hl2 & ->).
  exists (l2 ++ a2). split.
  - congruence.
  - exists l1. rewrite Hm2, app_assoc. split; [done|].
    clear -Hk1 Hl1. revert l1 Hl1. induction Hk1; intros l1 Hl1; inversion Hl1; subst; constructor.
    + by etrans.
    + by apply IHHk1.
  - by etrans.
Qed.

#[export] Instance evolves_preorder : PreOrder evolves.
Proof.
  split.
  - intros c. exists []. split; [done| |done]. exists (cv_messages c).
    rewrite app_nil_r. split; [done|]. reflexivity.
  - intros c1 c2 c3 [a1 H1] [a2 H2]. by eapply evolves_with_trans.
Qed.

Lemma evolves_with_stamped c c' added now :
  evolves_with c c' added → evolves_with c (stamped c' now) added.
Proof. intros [Hh Hm Hr]. by split. Qed.

(** ** The invariant *)

Section rules.
Context `{SessionJson} `{ConversationLibraries} `{!ConversationLaws}.

(** The conversation a file holds. *)
Definition stored (s : ConversationStore) (id : Uuid) : option AgentConversation :=
  cs_files s !! id ≫= λ file, conversation_from_json (cf_bytes file).

Definition messages_of (s : ConversationStore) (id : Uuid) (m : AgentConversationMessage) : Prop :=
  ∃ c, stored s id = Some c ∧ m ∈ cv_messages c.

Record conversation_ok (c : AgentConversation) : Prop := {
  ck_schema : cv_schema_version c = 1;
  ck_ids : NoDup (am_message_id <$> cv_messages c);
  ck_requests : NoDup (omap am_request_id (filter (λ m, is_user m = true) (cv_messages c)));
  ck_queued m : m ∈ cv_messages c → am_status m = MQueued →
    am_role m = RoleUser ∧ is_Some (am_queue_sequence m);
  ck_progress m : m ∈ cv_messages c →
    (in_progress (am_status m) = true ↔
     ∃ session, cv_active_session_id c = Some session ∧ am_session_id m = Some session);
  ck_count : (length (cv_messages c) + queued_count (cv_messages c) ≤ 255)%nat;
  ck_receipts : (length (cv_queue_mutations c) ≤ MAX_MUTATION_RECEIPTS)%nat
}.

(** The counter is absent or holds the number of the last queued message. *)
Definition counter_is (s : ConversationStore) (n : N) : Prop :=
  n ≤ MAX_QUEUE_SEQUENCE ∧ (cs_counter s = None ∧ n = 0 ∨ cs_counter s = Some (dec n)).

(** A cache may be wrong about a file only if the file has changed since. *)
Definition cache_sound (s : ConversationStore) (cache : WorkCache) : Prop :=
  ∀ id modified len work file c,
    cache !! id = Some (modified, len, work) → cs_files s !! id = Some file →
    conversation_from_json (cf_bytes file) = Some c →
    cf_modified file = modified → N.of_nat (length (cf_bytes file)) = len →
    conversation_has_work c = work.

Definition file_ok (id : Uuid) (file : ConversationFile) : Prop :=
  ∃ c, conversation_from_json (cf_bytes file) = Some c ∧ cv_conversation_id c = id ∧
       conversation_ok c ∧ N.of_nat (length (cf_bytes file)) ≤ MAX_CONVERSATION_BYTES.

(** The reply a turn works on, and whose messages carry its session. *)
Definition turn_in (t : Turn) (c : AgentConversation) : Prop :=
  (∃ m, m ∈ cv_messages c ∧ am_message_id m = tn_assistant t ∧
        am_session_id m = Some (tn_session t) ∧ am_role m ≠ RoleUser) ∧
  ∀ m, m ∈ cv_messages c → am_session_id m = Some (tn_session t) →
    am_role m = RoleUser ∨ am_message_id m = tn_assistant t.

Record queue_ok (s : ConversationStore) : Prop := {
  qo_file id file : cs_files s !! id = Some file → file_ok id file;
  qo_ids id1 m1 id2 m2 : messages_of s id1 m1 → messages_of s id2 m2 →
    am_message_id m1 = am_message_id m2 → id1 = id2;
  qo_sequences id1 m1 id2 m2 q : messages_of s id1 m1 → messages_of s id2 m2 →
    am_queue_sequence m1 = Some q → am_queue_sequence m2 = Some q →
    am_message_id m1 = am_message_id m2;
  qo_counter : ∃ n, counter_is s n ∧
    ∀ id m q, messages_of s id m → am_queue_sequence m = Some q → q ≤ n;
  qo_workspace id1 c1 id2 c2 : stored s id1 = Some c1 → stored s id2 = Some c2 →
    is_Some (cv_active_session_id c1) → is_Some (cv_active_session_id c2) →
    cv_workspace_id c1 = cv_workspace_id c2 → id1 = id2;
  qo_cache host cache : cs_caches s !! host = Some cache → cache_sound s cache;
  qo_turn t c : t ∈ cs_turns s → stored s (tn_conversation t) = Some c →
    cv_active_session_id c = Some (tn_session t) → turn_in t c
}.

Lemma stored_file s id c :
  queue_ok s → stored s id = Some c →
  ∃ file, cs_files s !! id = Some file ∧ conversation_from_json (cf_bytes file) = Some c ∧
    cv_conversation_id c = id ∧ conversation_ok c ∧
    N.of_nat (length (cf_bytes file)) ≤ MAX_CONVERSATION_BYTES.
Proof.
  intros Hok Hs. unfold stored in Hs. apply bind_Some in Hs as (file & Hf & Hj).
  destruct (qo_file s Hok id file Hf) as (c' & Hc & Hrest). exists file. by simplify_eq.
Qed.

Lemma stored_ok s id c : queue_ok s → stored s id = Some c → conversation_ok c.
Proof. intros Hok (f & _ & _ & _ & ? & _)%stored_file; done. Qed.

Lemma stored_id s id c : queue_ok s → stored s id = Some c → cv_conversation_id c = id.
Proof. intros Hok (f & _ & _ & ? & _)%stored_file; done. Qed.

(** A message is found by its identifier. *)
Lemma same_message s id1 m1 id2 m2 :
  queue_ok s → messages_of s id1 m1 → messages_of s id2 m2 →
  am_message_id m1 = am_message_id m2 → id1 = id2 ∧ m1 = m2.
Proof.
  intros Hok Hm1 Hm2 Heq. assert (id1 = id2) as <- by by eapply qo_ids. split; [done|].
  destruct Hm1 as (c & Hs & Hin1), Hm2 as (c' & Hs' & Hin2). simplify_eq.
  apply (NoDup_key_inj am_message_id (cv_messages c)); [|done..].
  by eapply ck_ids, stored_ok.
Qed.

(** Modification times of later writes differ from those that are known. *)
Definition times_fresh (env : ConversationEnv) (s : ConversationStore) : Prop :=
  ∀ id revision, (∀ c, stored s id = Some c → cv_revision c < revision) →
    (∀ file, cs_files s !! id = Some file → cf_modified file ≠ ce_modified env id revision) ∧
    (∀ host cache entry, cs_caches s !! host = Some cache → cache !! id = Some entry →
       entry.1.1 ≠ ce_modified env id revision).

Definition times_distinct (env : ConversationEnv) : Prop :=
  (∀ id r r', ce_modified env id r = ce_modified env id r' → r = r') ∧
  (∀ id r, ce_writable env id r = true → r < u64_max).

Lemma write_Ok env c s c' s' :
  times_distinct env → write env c s = (Ok c', s') →
  c' = stamped c (ce_now env) ∧ cv_revision c' = cv_revision c + 1 ∧
  ∃ bytes, conversation_to_json c' = Some bytes ∧
    N.of_nat (length bytes) ≤ MAX_CONVERSATION_BYTES ∧
    s' = with_files s
           (<[cv_conversation_id c := {| cf_bytes := bytes;
               cf_modified := ce_modified env (cv_conversation_id c) (cv_revision c') |}]>
              (cs_files s)).
Proof.
  intros [_ Hroom]. unfold write.
  destruct (conversation_to_json _) as [bytes|] eqn:Hj; [|done].
  destruct (_ <? _) eqn:Hlen; [done|]. destruct (ce_writable _ _ _) eqn:Hw; [|done].
  intros [= <- <-]. split; [done|]. split.
  - apply Hroom in Hw. cbn in *. unfold clamp_u64 in *. lia.
  - exists bytes. apply N.ltb_ge in Hlen. by split_and!.
Qed.

Lemma write_Err env c s e s' : write env c s = (Err e, s') → s' = s ∧ e = AgentConversationUnavailable.
Proof. unfold write. repeat case_match; by intros [= <- <-]. Qed.

Lemma stored_write env c s c' s' id :
  times_distinct env → write env c s = (Ok c', s') →
  stored s' id = if decide (id = cv_conversation_id c) then Some c' else stored s id.
Proof.
  intros Htd Hw. destruct (write_Ok _ _ _ _ _ Htd Hw) as (_ & _ & bytes & Hj & _ & ->).
  unfold stored. cbn. case_decide as Hid.
  - subst. rewrite lookup_insert_eq. cbn. by apply conversation_round_trip.
  - by rewrite lookup_insert_ne.
Qed.

Lemma elem_of_evolved c c' added m' :
  evolves_with c c' added → m' ∈ cv_messages c' →
  (∃ m, m ∈ cv_messages c ∧ message_step m m') ∨ m' ∈ added.
Proof.
  intros [_ (kept & -> & Hk) _] [Hin|Hin]%elem_of_app; [left|by right].
  apply list_elem_of_lookup in Hin as [i Hi].
  destruct (Forall2_lookup_r _ _ _ _ _ Hk Hi) as (m & Hm & Hstep).
  exists m. split; [by eapply list_elem_of_lookup_2|done].
Qed.

Definition used (s : ConversationStore) (message_id : Uuid) : Prop :=
  ∃ id m, messages_of s id m ∧ am_message_id m = message_id.

(** No turn runs in the workspace. *)
Definition idle (s : ConversationStore) (workspace_id : Uuid) : Prop :=
  ∀ id c, stored s id = Some c → cv_workspace_id c = workspace_id →
    cv_active_session_id c = None.

(** What an operation has to show of the conversation [c'] it writes in place of [c]. *)
Record good_change (s : ConversationStore) (id : Uuid) (c c' : AgentConversation)
    (added : list AgentConversationMessage) : Prop := {
  gc_stored : stored s id = Some c;
  gc_evolves : evolves_with c c' added;
  gc_revision : cv_revision c' = cv_revision c;
  gc_ok : conversation_ok c';
  gc_added : (length added ≤ 1)%nat;
  gc_fresh m : m ∈ added → ¬ used s (am_message_id m);
  gc_sequence m q : m ∈ added → am_queue_sequence m = Some q →
    (∀ n, counter_is s n → q ≤ n) ∧ ∀ id' m', messages_of s id' m' → am_queue_sequence m' ≠ Some q;
  gc_active : cv_active_session_id c' = None ∨ cv_active_session_id c' = cv_active_session_id c ∨
    idle s (cv_workspace_id c);
  gc_turn t : t ∈ cs_turns s → tn_conversation t = id →
    cv_active_session_id c' = Some (tn_session t) → turn_in t c'
}.

(** After a good change only the one conversation differs, and it holds what was written. *)
Record changed (s s' : ConversationStore) (id : Uuid) (w : AgentConversation) : Prop := {
  ch_stored : stored s' id = Some w;
  ch_others id' : id' ≠ id → stored s' id' = stored s id';
  ch_counter : cs_counter s' = cs_counter s;
  ch_turns : cs_turns s' = cs_turns s;
  ch_caches : cs_caches s' = cs_caches s;
  ch_ledger : cs_ledger s' = cs_ledger s;
  ch_files id' : id' ≠ id → cs_files s' !! id' = cs_files s !! id';
  ch_dom : dom (cs_files s') = dom (cs_files s)
}.

Lemma good_change_id s id c c' added :
  queue_ok s → good_change s id c c' added → cv_conversation_id c' = id.
Proof.
  intros Hok Hg. pose proof (ev_header _ _ _ (gc_evolves _ _ _ _ _ Hg)) as [= _ -> _ _ _ _ _ _].
  by eapply stored_id, gc_stored.
Qed.

Lemma good_change_changed env s id c c' added w s' :
  queue_ok s → times_distinct env → good_change s id c c' added →
  write env c' s = (Ok w, s') →
  changed s s' id w ∧ w = stamped c' (ce_now env) ∧ cv_revision w = cv_revision c + 1.
Proof.
  intros Hok Htd Hg Hw. pose proof (good_change_id _ _ _ _ _ Hok Hg) as Hid.
  pose proof (write_Ok _ _ _ _ _ Htd Hw) as (Hstamp & Hrev & bytes & Hj & Hlen & Heq).
  rewrite (gc_revision _ _ _ _ _ Hg) in Hrev. split; [|done].
  pose proof (stored_write _ _ _ _ _ id Htd Hw) as Hst. rewrite Hid, decide_True in Hst by done.
  rewrite Hid in Heq. subst s'. split; cbn; try done.
  - intros id' Hne. rewrite (stored_write _ _ _ _ _ id' Htd Hw), Hid. by rewrite decide_False.
  - intros id' Hne. by rewrite lookup_insert_ne.
  - apply gc_stored in Hg. unfold stored in Hg. apply bind_Some in Hg as (f & Hf & _).
    apply dom_insert_lookup_L. by eexists.
Qed.

(** The messages after a good change. *)
Lemma messages_of_changed s s' id c c' added w id' m' :
  good_change s id c c' added → changed s s' id w → cv_messages w = cv_messages c' →
  messages_of s' id' m' →
  (∃ m, messages_of s id' m ∧ message_step m m') ∨ (id' = id ∧ m' ∈ added).
Proof.
  intros Hg Hch Hmsg (x & Hx & Hin). destruct (decide (id' = id)) as [->|Hne].
  - rewrite (ch_stored _ _ _ _ Hch) in Hx. injection Hx as <-. rewrite Hmsg in Hin.
    destruct (elem_of_evolved _ _ _ _ (gc_evolves _ _ _ _ _ Hg) Hin) as [(m & Hm & Hstep)|Hadd].
    + left. exists m. split; [|done]. exists c. split; [by eapply gc_stored|done].
    + by right.
  - left. rewrite (ch_others _ _ _ _ Hch id' Hne) in Hx. exists m'. split; [|done]. by exists x.
Qed.

(** ** A good change keeps the invariant *)

Section change.
Variables (env : ConversationEnv) (s s' : ConversationStore) (id : Uuid)
  (c c' w : AgentConversation) (added : list AgentConversationMessage).
Hypothesis Hok : queue_ok s.
Hypothesis Htd : times_distinct env.
Hypothesis Hfresh : times_fresh env s.
Hypothesis Hg : good_change s id c c' added.
Hypothesis Hw : write env c' s = (Ok w, s').

Lemma change_effect : changed s s' id w ∧ w = stamped c' (ce_now env) ∧ cv_revision w = cv_revision c + 1.
Proof. by eapply good_change_changed. Qed.

Lemma change_messages : cv_messages w = cv_messages c'.
Proof. destruct change_effect as (_ & -> & _). done. Qed.

Lemma change_from id' m' :
  messages_of s' id' m' →
  (∃ m, messages_of s id' m ∧ message_step m m') ∨ (id' = id ∧ m' ∈ added).
Proof. eapply messages_of_changed; [done|apply change_effect|apply change_messages]. Qed.

Lemma added_unique m m' : m ∈ added → m' ∈ added → m = m'.
Proof.
  pose proof (gc_added _ _ _ _ _ Hg) as Hlen. destruct added as [|x [|y l]]; cbn in Hlen; [|..|lia].
  - by intros ?%elem_of_nil.
  - by intros ->%list_elem_of_singleton ->%list_elem_of_singleton.
Qed.

Lemma change_ids id1 m1 id2 m2 :
  messages_of s' id1 m1 → messages_of s' id2 m2 → am_message_id m1 = am_message_id m2 → id1 = id2.
Proof.
  intros [(x1 & Hx1 & Hs1)|[-> Ha1]]%change_from [(x2 & Hx2 & Hs2)|[-> Ha2]]%change_from Heq.
  - rewrite (message_step_id _ _ Hs1), (message_step_id _ _ Hs2) in Heq. by eapply qo_ids.
  - exfalso. apply (gc_fresh _ _ _ _ _ Hg m2 Ha2). exists id1, x1.
    by rewrite <- Heq, (message_step_id _ _ Hs1).
  - exfalso. apply (gc_fresh _ _ _ _ _ Hg m1 Ha1). exists id2, x2.
    by rewrite Heq, (message_step_id _ _ Hs2).
  - done.
Qed.

Lemma change_sequences id1 m1 id2 m2 q :
  messages_of s' id1 m1 → messages_of s' id2 m2 →
  am_queue_sequence m1 = Some q → am_queue_sequence m2 = Some q →
  am_message_id m1 = am_message_id m2.
Proof.
  intros [(x1 & Hx1 & Hs1)|[-> Ha1]]%change_from [(x2 & Hx2 & Hs2)|[-> Ha2]]%change_from Hq1 Hq2.
  - rewrite (message_step_id _ _ Hs1), (message_step_id _ _ Hs2).
    rewrite (message_step_sequence _ _ Hs1) in Hq1. rewrite (message_step_sequence _ _ Hs2) in Hq2.
    by eapply qo_sequences.
  - exfalso. rewrite (message_step_sequence _ _ Hs1) in Hq1.
    by eapply (gc_sequence _ _ _ _ _ Hg m2 q Ha2 Hq2).
  - exfalso. rewrite (message_step_sequence _ _ Hs2) in Hq2.
    by eapply (gc_sequence _ _ _ _ _ Hg m1 q Ha1 Hq1).
  - by rewrite (added_unique m1 m2).
Qed.

Lemma change_counter : ∃ n, counter_is s' n ∧
  ∀ id' m q, messages_of s' id' m → am_queue_sequence m = Some q → q ≤ n.
Proof.
  destruct change_effect as (Hch & _ & _). destruct (qo_counter s Hok) as (n & Hn & Hall).
  exists n. unfold counter_is. rewrite (ch_counter _ _ _ _ Hch). split; [done|].
  intros id' m q [(x & Hx & Hs)|[-> Ha]]%change_from Hq.
  - rewrite (message_step_sequence _ _ Hs) in Hq. by eapply Hall.
  - by eapply (gc_sequence _ _ _ _ _ Hg m q Ha Hq).
Qed.

Lemma change_workspace_id : cv_workspace_id w = cv_workspace_id c.
Proof.
  destruct change_effect as (_ & -> & _). cbn.
  by pose proof (ev_header _ _ _ (gc_evolves _ _ _ _ _ Hg)) as [= _ _ -> _ _ _ _ _].
Qed.

Lemma change_active_other id2 c2 :
  stored s id2 = Some c2 → id2 ≠ id → is_Some (cv_active_session_id w) →
  is_Some (cv_active_session_id c2) → cv_workspace_id c2 ≠ cv_workspace_id w.
Proof.
  intros Hs2 Hne Hact1 Hact2 Heq. rewrite change_workspace_id in Heq. apply Hne.
  destruct change_effect as (_ & Hstamp & _).
  assert (cv_active_session_id w = cv_active_session_id c') as Ha by by rewrite Hstamp.
  rewrite Ha in Hact1. destruct (gc_active _ _ _ _ _ Hg) as [Hn|[Hsame|Hidle]].
  - rewrite Hn in Hact1. by destruct Hact1.
  - rewrite Hsame in Hact1. by eapply (qo_workspace s Hok id2 c2 id c); [|eapply gc_stored|..].
  - rewrite (Hidle id2 c2 Hs2 Heq) in Hact2. by destruct Hact2.
Qed.

Lemma change_workspace id1 c1 id2 c2 :
  stored s' id1 = Some c1 → stored s' id2 = Some c2 →
  is_Some (cv_active_session_id c1) → is_Some (cv_active_session_id c2) →
  cv_workspace_id c1 = cv_workspace_id c2 → id1 = id2.
Proof.
  destruct change_effect as (Hch & _ & _). intros Hs1 Hs2 Ha1 Ha2 Heq.
  destruct (decide (id1 = id)) as [->|Hne1], (decide (id2 = id)) as [->|Hne2]; [done|..].
  - rewrite (ch_stored _ _ _ _ Hch) in Hs1. rewrite (ch_others _ _ _ _ Hch id2 Hne2) in Hs2.
    injection Hs1 as <-. by destruct (change_active_other id2 c2).
  - rewrite (ch_stored _ _ _ _ Hch) in Hs2. rewrite (ch_others _ _ _ _ Hch id1 Hne1) in Hs1.
    injection Hs2 as <-. by destruct (change_active_other id1 c1).
  - rewrite (ch_others _ _ _ _ Hch _ Hne1) in Hs1. rewrite (ch_others _ _ _ _ Hch _ Hne2) in Hs2.
    by eapply qo_workspace.
Qed.

Lemma change_file id' file : cs_files s' !! id' = Some file → file_ok id' file.
Proof.
  destruct change_effect as (Hch & Hstamp & _). intros Hf.
  destruct (decide (id' = id)) as [->|Hne].
  - destruct (write_Ok _ _ _ _ _ Htd Hw) as (_ & _ & bytes & Hj & Hlen & ->).
    cbn in Hf. rewrite (good_change_id _ _ _ _ _ Hok Hg), lookup_insert_eq in Hf.
    injection Hf as <-. exists w. split_and!; [by apply conversation_round_trip| | |done].
    + rewrite Hstamp. by apply (good_change_id s id c c' added).
    + rewrite Hstamp. by destruct (gc_ok _ _ _ _ _ Hg); split.
  - rewrite (ch_files _ _ _ _ Hch id' Hne) in Hf. by eapply qo_file.
Qed.

Lemma change_modified file :
  cs_files s' !! id = Some file → cf_modified file = ce_modified env id (cv_revision w).
Proof.
  destruct (write_Ok _ _ _ _ _ Htd Hw) as (_ & _ & bytes & _ & _ & ->).
  cbn. rewrite (good_change_id _ _ _ _ _ Hok Hg), lookup_insert_eq. by intros [= <-].
Qed.

Lemma change_times : times_fresh env s'.
Proof.
  destruct change_effect as (Hch & _ & Hrev). intros id' r Hr.
  rewrite (ch_caches _ _ _ _ Hch). destruct (decide (id' = id)) as [->|Hne].
  - specialize (Hr w (ch_stored _ _ _ _ Hch)). split.
    + intros file ->%change_modified Heq. apply Htd in Heq. lia.
    + apply Hfresh. intros x Hx. rewrite (gc_stored _ _ _ _ _ Hg) in Hx. injection Hx as <-. lia.
  - rewrite (ch_files _ _ _ _ Hch id' Hne). apply Hfresh.
    intros x Hx. apply Hr. by rewrite (ch_others _ _ _ _ Hch id' Hne).
Qed.

Lemma change_cache host cache : cs_caches s' !! host = Some cache → cache_sound s' cache.
Proof.
  destruct change_effect as (Hch & _ & Hrev). rewrite (ch_caches _ _ _ _ Hch). intros Hc.
  intros id' modified len work file x Hx Hf Hj Hm Hl.
  destruct (decide (id' = id)) as [->|Hne].
  - exfalso. rewrite (change_modified file Hf) in Hm.
    eapply (proj2 (Hfresh id (cv_revision w) _)); [done|done|done]. Unshelve.
    intros y Hy. rewrite (gc_stored _ _ _ _ _ Hg) in Hy. injection Hy as <-. lia.
  - rewrite (ch_files _ _ _ _ Hch id' Hne) in Hf. by eapply (qo_cache s Hok host cache).
Qed.

Lemma change_turn t x :
  t ∈ cs_turns s' → stored s' (tn_conversation t) = Some x →
  cv_active_session_id x = Some (tn_session t) → turn_in t x.
Proof.
  destruct change_effect as (Hch & Hstamp & _). rewrite (ch_turns _ _ _ _ Hch). intros Ht Hs Ha.
  destruct (decide (tn_conversation t = id)) as [Heq|Hne].
  - rewrite Heq, (ch_stored _ _ _ _ Hch) in Hs. injection Hs as <-.
    unfold turn_in. rewrite change_messages. apply (gc_turn _ _ _ _ _ Hg t Ht Heq).
    by rewrite Hstamp in Ha.
  - rewrite (ch_others _ _ _ _ Hch _ Hne) in Hs. by eapply qo_turn.
Qed.

Lemma write_change : queue_ok s' ∧ times_fresh env s'.
Proof.
  split; [|apply change_times]. split.
  - apply change_file.
  - apply change_ids.
  - apply change_sequences.
  - apply change_counter.
  - apply change_workspace.
  - apply change_cache.
  - apply change_turn.
Qed.
End change.
End rules.
