(* ===== verification/ConversationProofs.v ===== *)
(** * Agent conversations: the operations keep the invariant

    Every operation, on every branch, leaves the directory in a state that satisfies the
    invariant and lets every conversation evolve by the lifecycle of messages. *)

From S2P Require Import Prelude Order Text StoreBase Sessions.
From S2P Require Import Conversations ConversationStore ConversationQueue ConversationRules.

Local Open Scope N_scope.

(** ** Lists of messages *)

Lemma message_step_queued m m' :
  message_step m m' → am_status m' = MQueued → am_status m = MQueued.
Proof.
  intros [_ Hs _] Heq. rewrite Heq in Hs.
  apply rtc_inv_r in Hs as [Hs|(status & _ & He)]; [done|]. inversion He as [| | | |? ? _ Ht]; by subst.
Qed.

Lemma kept_ids l k :
  Forall2 message_step l k → am_message_id <$> k = am_message_id <$> l.
Proof. induction 1 as [|m m' l k Hm _ IH]; [done|]. cbn. by rewrite (message_step_id _ _ Hm), IH. Qed.

Lemma kept_requests l k :
  Forall2 message_step l k →
  omap am_request_id (filter (λ m, is_user m = true) k)
  = omap am_request_id (filter (λ m, is_user m = true) l).
Proof.
  induction 1 as [|m m' l k Hm _ IH]; [done|]. rewrite !filter_cons. unfold is_user in *.
  rewrite (message_step_role _ _ Hm). case_decide; [|done]. cbn.
  by rewrite (message_step_request _ _ Hm), IH.
Qed.

Lemma kept_queued l k :
  Forall2 message_step l k → (queued_count k ≤ queued_count l)%nat.
Proof.
  unfold queued_count. induction 1 as [|m m' l k Hm _ IH]; [done|]. rewrite !filter_cons.
  case_decide as Hm'.
  - apply bool_decide_eq_true, (message_step_queued _ _ Hm) in Hm'.
    rewrite decide_True by by apply bool_decide_eq_true. cbn. lia.
  - case_decide; cbn; lia.
Qed.

Lemma Forall2_change_first p f l :
  (∀ m, m ∈ l → p m = true → message_step m (f m)) →
  Forall2 message_step l (change_first p f l).
Proof.
  induction l as [|m l IH]; intros Hall; cbn; [done|].
  destruct (p m) eqn:Hp.
  - constructor; [apply Hall; [left|done]|]. reflexivity.
  - constructor; [reflexivity|]. apply IH. intros; apply Hall; [by right|done].
Qed.

Lemma Forall2_fmap_step f (l : list AgentConversationMessage) :
  (∀ m, m ∈ l → message_step m (f m)) → Forall2 message_step l (f <$> l).
Proof. intros Hall. apply Forall2_fmap_r, Forall_Forall2_diag, Forall_forall, Hall. Qed.

Lemma elem_of_change_first p f l m' :
  m' ∈ change_first p f l → m' ∈ l ∨ ∃ m, m ∈ l ∧ p m = true ∧ m' = f m.
Proof.
  induction l as [|m l IH]; cbn; [by intros ?%elem_of_nil|].
  destruct (p m) eqn:Hp; intros [->|Hin]%elem_of_cons.
  - right. exists m. split; [left|done].
  - left. by right.
  - left. by left.
  - destruct (IH Hin) as [H|(x & Hx & ? & ?)]; [left; by right|right]. exists x. split; [by right|done].
Qed.

(** With distinct identifiers, changing the message [id] changes exactly that one. *)
Lemma elem_of_change_id id f l m' :
  NoDup (am_message_id <$> l) → (∀ m, am_message_id (f m) = am_message_id m) →
  m' ∈ change_first (has_id id) f l ↔
  (m' ∈ l ∧ am_message_id m' ≠ id) ∨ ∃ m, m ∈ l ∧ am_message_id m = id ∧ m' = f m.
Proof.
  intros Hnd Hf. unfold has_id. induction l as [|m l IH]; cbn.
  { split; [by intros ?%elem_of_nil|]. intros [[?%elem_of_nil _]|(? & ?%elem_of_nil & _)]; done. }
  cbn in Hnd. apply NoDup_cons in Hnd as [Hn Hnd]. case_bool_decide as Hid.
  - assert (∀ x, x ∈ l → am_message_id x ≠ id) as Hne.
    { intros x Hx <-. apply Hn. rewrite Hid. by apply list_elem_of_fmap_2. }
    rewrite elem_of_cons. split.
    + intros [->|Hin]; [right; exists m; split; [left|done]|left]. split; [by right|auto].
    + intros [[[->|Hin]%elem_of_cons Hx]|(x & [->|Hin]%elem_of_cons & Hx & ->)]; [done|by right|by left|].
      by destruct (Hne x).
  - rewrite elem_of_cons, (IH Hnd). split.
    + intros [->|[[Hin Hx]|(x & Hin & Hx & ->)]]; [left; split; [left|done]|left; split; [by right|done]|].
      right. exists x. split; [by right|done].
    + intros [[[->|Hin]%elem_of_cons Hx]|(x & [->|Hin]%elem_of_cons & Hx & ->)];
        [by left|right; by left|done|right; right; by exists x].
Qed.

Lemma find_message_Some p l m :
  find_message p l = Some m → m ∈ l ∧ p m = true.
Proof. unfold find_message. intros H%head_Some_elem_of%list_elem_of_filter. tauto. Qed.

Lemma find_message_None p l m : find_message p l = None → m ∈ l → p m = false.
Proof.
  unfold find_message. intros Hh Hin. destruct (p m) eqn:Hp; [|done].
  assert (m ∈ filter (λ m, p m = true) l) as Hf by by apply list_elem_of_filter.
  destruct (filter _ l); [by apply elem_of_nil in Hf|done].
Qed.

(** ** Conversations *)

Definition progress_ok (c : AgentConversation) : Prop :=
  ∀ m, m ∈ cv_messages c →
    (in_progress (am_status m) = true ↔
     ∃ session, cv_active_session_id c = Some session ∧ am_session_id m = Some session).

(** What a message has to satisfy to be appended to a conversation. *)
Record may_append (c : AgentConversation) (a : AgentConversationMessage) : Prop := {
  ma_id m : m ∈ cv_messages c → am_message_id m ≠ am_message_id a;
  ma_request m r : m ∈ cv_messages c → is_user m = true → is_user a = true →
    am_request_id m = Some r → am_request_id a ≠ Some r;
  ma_queued : am_status a = MQueued → am_role a = RoleUser ∧ is_Some (am_queue_sequence a)
}.

Lemma conversation_ok_evolves c c' added :
  conversation_ok c → evolves_with c c' added → (length added ≤ 1)%nat →
  Forall (may_append c) added → progress_ok c' →
  (length (cv_messages c') + queued_count (cv_messages c') ≤ 255)%nat →
  (length (cv_queue_mutations c') ≤ MAX_MUTATION_RECEIPTS)%nat →
  conversation_ok c'.
Proof.
  intros Hok Hev Hlen Hadd Hprog Hcount Hrec. rewrite Forall_forall in Hadd.
  pose proof (ev_messages _ _ _ Hev) as (kept & Hm & Hk). split; try done.
  - pose proof (ev_header _ _ _ Hev) as [= -> _ _ _ _ _ _ _]. by apply ck_schema.
  - rewrite Hm, fmap_app, (kept_ids _ _ Hk). apply NoDup_app. split_and!.
    + by apply ck_ids.
    + intros x (m & -> & Hx)%list_elem_of_fmap (a & Ha & Hin)%list_elem_of_fmap.
      by apply (ma_id _ _ (Hadd a Hin) m).
    + apply NoDup_short. by rewrite length_fmap.
  - rewrite Hm, filter_app, omap_app, (kept_requests _ _ Hk). apply NoDup_app. split_and!.
    + by apply ck_requests.
    + intros r (m & [Hu Hx]%list_elem_of_filter & Hr)%list_elem_of_omap
        (a & [Hua Ha]%list_elem_of_filter & Hra)%list_elem_of_omap.
      by apply (ma_request _ _ (Hadd a Ha) m r).
    + apply NoDup_short. etrans; [apply length_omap_le|]. etrans; [apply length_filter|done].
  - rewrite Hm. intros m [Hin|Hin]%elem_of_app Hq; [|by apply Hadd].
    apply list_elem_of_lookup in Hin as [i Hi].
    destruct (Forall2_lookup_r _ _ _ _ _ Hk Hi) as (x & Hx & Hstep).
    rewrite (message_step_role _ _ Hstep), (message_step_sequence _ _ Hstep).
    eapply ck_queued; [done|by eapply list_elem_of_lookup_2|]. by eapply message_step_queued.
Qed.

Lemma queued_count_app l k : queued_count (l ++ k) = (queued_count l + queued_count k)%nat.
Proof. unfold queued_count. by rewrite filter_app, length_app. Qed.

(** A change that appends no message. *)
Lemma conversation_ok_kept c c' :
  conversation_ok c → evolves_with c c' [] → progress_ok c' →
  (length (cv_queue_mutations c') ≤ MAX_MUTATION_RECEIPTS)%nat → conversation_ok c'.
Proof.
  intros Hok Hev Hprog Hrec. eapply conversation_ok_evolves; try done; [cbn; lia|].
  pose proof (ev_messages _ _ _ Hev) as (kept & -> & Hk). rewrite app_nil_r.
  pose proof (ck_count _ Hok). pose proof (kept_queued _ _ Hk).
  apply Forall2_length in Hk. lia.
Qed.

(** ** Recovery *)

Lemma interrupted_message_step m : message_step m (interrupted_message m).
Proof.
  unfold interrupted_message. destruct (am_status m) eqn:Hs; try done; split; cbn; rewrite ?Hs; try done;
    by apply rtc_once, edge_end.
Qed.

Lemma recovered_evolves c : evolves_with c (recovered_conversation c) [].
Proof.
  split; [done| |done]. exists (interrupted_message <$> cv_messages c).
  rewrite app_nil_r. split; [done|]. apply Forall2_fmap_step. intros; apply interrupted_message_step.
Qed.

Lemma recovered_ok c : conversation_ok c → conversation_ok (recovered_conversation c).
Proof.
  intros Hok. eapply conversation_ok_kept; [done|apply recovered_evolves| |exact (ck_receipts _ Hok)].
  intros m' (m & -> & Hin)%list_elem_of_fmap. cbn. split; [|by intros (? & ? & _)].
  unfold interrupted_message. by destruct (am_status m) eqn:Hs; cbn; rewrite ?Hs.
Qed.

Section operations.
Context `{SessionJson} `{ConversationLibraries} `{!ConversationLaws}.

(** ** Reading *)

Lemma read_file_Ok env s id c : read_file env (cs_files s) id = Ok c → stored s id = Some c.
Proof.
  unfold read_file, stored. intros (file & Hf & Hr)%rbind_Ok. apply rbind_Ok in Hr as (? & _ & Hr).
  apply rbind_Ok in Hr as (? & _ & Hr). apply rbind_Ok in Hr as (c' & Hj & Hr).
  apply rbind_Ok in Hr as (? & _ & [= <-]). apply ok_or_Ok in Hf, Hj. by rewrite Hf.
Qed.

(** A stored conversation is refused only when the file cannot be read. *)
Lemma read_file_stored env s id c :
  queue_ok s → stored s id = Some c → ce_readable env id = true →
  read_file env (cs_files s) id = Ok c.
Proof.
  intros Hok Hs Hr. destruct (stored_file s id c Hok Hs) as (file & Hf & Hj & Hid & Hc & Hlen).
  assert (negb (cv_schema_version c =? 1) || negb (cv_conversation_id c =? id)
    || (256 <? length (cv_messages c))%nat
    || (MAX_MUTATION_RECEIPTS <? length (cv_queue_mutations c))%nat = false) as Hcheck.
  { pose proof (ck_count _ Hc). pose proof (ck_receipts _ Hc). rewrite (ck_schema _ Hc), Hid.
    rewrite !orb_false_iff, !N.eqb_refl, !Nat.ltb_ge. split_and!; [done|done|lia|lia]. }
  unfold read_file. rewrite Hf. cbn [ok_or rbind]. apply N.ltb_ge in Hlen as ->.
  cbn [guard_err rbind]. rewrite Hr. cbn [guard_err negb rbind]. rewrite Hj. cbn [ok_or rbind].
  by rewrite Hcheck.
Qed.

(** ** Conversations with work *)

(** Entries of a cache are no later than the files. *)
Definition cache_known (env : ConversationEnv) (s : ConversationStore) (cache : WorkCache) : Prop :=
  ∀ id entry revision, cache !! id = Some entry →
    (∀ c, stored s id = Some c → cv_revision c < revision) →
    entry.1.1 ≠ ce_modified env id revision.

Definition has_stored_work (s : ConversationStore) (id : Uuid) (c : AgentConversation) : Prop :=
  stored s id = Some c ∧ conversation_has_work c = true.

Lemma scan_work_spec env s listed cache pending outcome cache' :
  queue_ok s → times_fresh env s → cache_sound s cache → cache_known env s cache →
  scan_work env (cs_files s) listed cache pending = (outcome, cache') →
  cache_sound s cache' ∧ cache_known env s cache' ∧
  ∀ all, outcome = Ok all →
    ∃ found, all = pending ++ found ∧
      (∀ c, c ∈ found ↔ ∃ id, id ∈ listed ∧ has_stored_work s id c) ∧
      sublist (cv_conversation_id <$> found) listed.
Proof.
  intros Hok Hfresh. revert cache pending.
  induction listed as [|id listed IH]; intros cache pending Hsound Hknown; cbn [scan_work].
  { intros [= <- <-]. split_and!; [done..|]. intros all [= <-]. exists []. rewrite app_nil_r.
    split_and!; [done| |constructor]. intros c. split; [by intros ?%elem_of_nil|].
    by intros (? & ?%elem_of_nil & _). }
  destruct (cs_files s !! id) as [file|] eqn:Hf; [|by intros [= <- <-]].
  destruct (qo_file s Hok id file Hf) as (c & Hj & Hid & Hc & Hlen).
  assert (stored s id = Some c) as Hst by (unfold stored; by rewrite Hf).
  destruct (match cache !! id with Some _ => _ | None => false end) eqn:Hskip.
  - intros Hrun. destruct (IH _ _ Hsound Hknown Hrun) as (Hs' & Hk' & Hall'). split_and!; [done..|].
    intros all Hall. destruct (Hall' all Hall) as (found & -> & Hin & Hsub). exists found.
    split_and!; [done| |by constructor].
    intros x. rewrite Hin. split; intros (y & Hy & Hw).
    + exists y. split; [by right|done].
    + apply elem_of_cons in Hy as [->|Hy]; [|by exists y]. exfalso.
      destruct Hw as [Hx Hw]. rewrite Hst in Hx. injection Hx as <-.
      destruct (cache !! id) as [[[last size] work]|] eqn:Hcache; [|done]. bool_split.
      rewrite (Hsound id _ _ _ file c Hcache Hf Hj) in Hw; [congruence|congruence|lia].
  - destruct (read_file env (cs_files s) id) as [c'|e] eqn:Hread; [|by intros [= <- <-]].
    apply read_file_Ok in Hread. rewrite Hst in Hread. injection Hread as <-.
    intros Hrun. apply IH in Hrun as (Hs' & Hk' & Hall').
    + split_and!; [done..|]. intros all Hall. destruct (Hall' all Hall) as (found & -> & Hin & Hsub).
      exists (if conversation_has_work c then c :: found else found).
      destruct (conversation_has_work c) eqn:Hwork.
      * split_and!; [by rewrite <- app_assoc| |cbn; rewrite Hid; by constructor].
        intros x. rewrite elem_of_cons, Hin. split.
        -- intros [->|(y & Hy & Hw)]; [exists id; split; [left|done]|exists y; split; [by right|done]].
        -- intros (y & [->|Hy]%elem_of_cons & Hw); [left|right; by exists y].
           destruct Hw as [Hx _]. congruence.
      * split_and!; [done| |by constructor]. intros x. rewrite Hin. split; intros (y & Hy & Hw).
        -- exists y. split; [by right|done].
        -- apply elem_of_cons in Hy as [->|Hy]; [|by exists y]. destruct Hw as [Hx Hw]. congruence.
    + intros i m l w f x [[<- [= <- <- <-]]|[Hne Hx]]%lookup_insert_Some Hfx Hjx Hm Hl.
      * by simplify_eq.
      * by eapply Hsound.
    + intros i entry r [[<- <-]|[Hne Hx]]%lookup_insert_Some Hr; [|by eapply Hknown].
      cbn. by apply (Hfresh id r Hr).
Qed.

(** ** Progress within one operation *)

(** The state moves on: the invariant is kept, no conversation is lost, each one evolves, and
    the identifiers of new messages are among [new]. *)
Record advance (env : ConversationEnv) (new : Uuid → Prop) (s s' : ConversationStore) : Prop := {
  av_ok : queue_ok s';
  av_times : times_fresh env s';
  av_evolves id c : stored s id = Some c → ∃ c', stored s' id = Some c' ∧ evolves c c';
  av_used x : used s' x → used s x ∨ new x
}.

Definition nothing : Uuid → Prop := λ _, False.

Lemma advance_refl env new s : queue_ok s → times_fresh env s → advance env new s s.
Proof. intros Hok Hf. split; try done; eauto. intros id c Hs. by exists c. Qed.

Lemma advance_trans env new s1 s2 s3 :
  advance env new s1 s2 → advance env new s2 s3 → advance env new s1 s3.
Proof.
  intros Ha Hb. split; try by apply Hb.
  - intros id c (c' & Hs & Hev)%(av_evolves _ _ _ _ Ha).
    destruct (av_evolves _ _ _ _ Hb id c' Hs) as (c'' & Hs' & Hev'). exists c''.
    split; [done|]. by etrans.
  - intros x [Hx|Hx]%(av_used _ _ _ _ Hb); [|by right]. by apply (av_used _ _ _ _ Ha).
Qed.

Lemma advance_weaken env (new new' : Uuid → Prop) s s' :
  (∀ x, new x → new' x) → advance env new s s' → advance env new' s s'.
Proof. intros Hn []. split; try done. intros x [?|?]%av_used0; auto. Qed.

Lemma advance_change env s id c c' added w s' :
  queue_ok s → times_distinct env → times_fresh env s → good_change s id c c' added →
  write env c' s = (Ok w, s') →
  advance env (λ x, x ∈ am_message_id <$> added) s s'.
Proof.
  intros Hok Htd Hfresh Hg Hw.
  destruct (write_change env s s' id c c' w added Hok Htd Hfresh Hg Hw) as [Hok' Hfresh'].
  destruct (good_change_changed env s id c c' added w s' Hok Htd Hg Hw) as (Hch & Hstamp & _).
  split; try done.
  - intros id' x Hx. destruct (decide (id' = id)) as [->|Hne].
    + exists w. split; [by apply (ch_stored _ _ _ _ Hch)|]. rewrite (gc_stored _ _ _ _ _ Hg) in Hx.
      injection Hx as <-. exists added. rewrite Hstamp.
      exact (evolves_with_stamped _ _ _ _ (gc_evolves _ _ _ _ _ Hg)).
    + exists x. split; [by rewrite (ch_others _ _ _ _ Hch)|done].
  - intros x (id' & m' & Hm & <-).
    eapply messages_of_changed in Hm as [(m & Hm & Hstep)|[-> Hin]];
      [|right; by apply list_elem_of_fmap_2|done|done|by rewrite Hstamp].
    left. exists id', m. split; [done|]. by rewrite (message_step_id _ _ Hstep).
Qed.

(** Only caches, leases or the ledger differ. *)
Definition same_disk (s s' : ConversationStore) : Prop :=
  cs_files s' = cs_files s ∧ cs_counter s' = cs_counter s.

Lemma same_disk_stored s s' id : same_disk s s' → stored s' id = stored s id.
Proof. intros [Hf _]. unfold stored. by rewrite Hf. Qed.

Lemma same_disk_messages s s' id m : same_disk s s' → messages_of s' id m ↔ messages_of s id m.
Proof. intros Hd. unfold messages_of. by rewrite (same_disk_stored s s' id Hd). Qed.

Lemma queue_ok_same_disk s s' :
  queue_ok s → same_disk s s' →
  (∀ host cache, cs_caches s' !! host = Some cache → cache_sound s cache) →
  (∀ t c, t ∈ cs_turns s' → stored s (tn_conversation t) = Some c →
    cv_active_session_id c = Some (tn_session t) → turn_in t c) → queue_ok s'.
Proof.
  intros Hok Hd Hc Ht. pose proof Hd as [Hf Hn].
  assert (∀ id, stored s' id = stored s id) as Hst by (intros; by apply same_disk_stored).
  assert (∀ id m, messages_of s' id m ↔ messages_of s id m) as Hm
    by (intros; by apply same_disk_messages).
  split.
  - rewrite Hf. apply Hok.
  - intros id1 m1 id2 m2. rewrite !Hm. apply Hok.
  - intros id1 m1 id2 m2 q. rewrite !Hm. apply Hok.
  - unfold counter_is. rewrite Hn. destruct (qo_counter s Hok) as (n & ? & Hall). exists n.
    split; [done|]. intros id m q. rewrite Hm. apply Hall.
  - intros id1 c1 id2 c2. rewrite !Hst. apply Hok.
  - intros host cache Hcache. unfold cache_sound. rewrite Hf. by eapply Hc.
  - intros t c. rewrite Hst. apply Ht.
Qed.

Lemma advance_same_disk env new s s' :
  queue_ok s' → times_fresh env s' → same_disk s s' → advance env new s s'.
Proof.
  intros Hok Hf Hd. pose proof Hd as [Hfiles Hcount]. split; try done.
  - intros id c. rewrite <- (same_disk_stored _ _ id Hd). intros Hs. by exists c.
  - intros x (id & m & Hm & <-). left. exists id, m. by rewrite <- (same_disk_messages _ _ _ _ Hd).
Qed.

Definition listing_ok (env : ConversationEnv) : Prop :=
  ∀ X, ce_listing env X ≡ₚ elements X.

Lemma ids_Ok env s l : listing_ok env → ids env s = (Ok l, s) → l ≡ₚ elements (dom (cs_files s)).
Proof. unfold ids. intros Hl. case_match; [done|]. intros [= <-]. apply Hl. Qed.

Lemma work_conversations_spec env s outcome s' :
  queue_ok s → times_fresh env s → listing_ok env → work_conversations env s = (outcome, s') →
  advance env nothing s s' ∧ same_disk s s' ∧ cs_turns s' = cs_turns s ∧
  cs_ledger s' = cs_ledger s ∧
  ∀ all, outcome = Ok all →
    NoDup (cv_conversation_id <$> all) ∧
    ∀ c, c ∈ all ↔ has_stored_work s (cv_conversation_id c) c.
Proof.
  intros Hok Hfresh Hlist. unfold work_conversations, op_bind.
  destruct (ids env s) as [[listed|e] s1] eqn:Hids.
  2: { unfold ids in Hids. case_match; [|done]. injection Hids as <- <-. intros [= <- <-].
       split_and!; try done. by apply advance_refl. }
  assert (s1 = s) as -> by (unfold ids in Hids; by case_match; injection Hids as _ <-).
  apply ids_Ok in Hids as Hperm; [|done].
  set (cache := filter _ _). destruct (scan_work _ _ _ _ _) as [out cache'] eqn:Hscan.
  intros [= <- <-].
  assert (cache_sound s cache ∧ cache_known env s cache) as [Hcs Hck].
  { unfold cache. destruct (cs_caches s !! ce_host env) as [old|] eqn:Hold; cbn; split.
    - intros id m l w f c [Hc _]%map_lookup_filter_Some. by eapply qo_cache.
    - intros id entry r [Hc _]%map_lookup_filter_Some Hr. by eapply (proj2 (Hfresh id r Hr)).
    - intros id m l w f c [Hc _]%map_lookup_filter_Some. by rewrite lookup_empty in Hc.
    - intros id entry r [Hc _]%map_lookup_filter_Some. by rewrite lookup_empty in Hc. }
  destruct (scan_work_spec _ _ _ _ _ _ _ Hok Hfresh Hcs Hck Hscan) as (Hs' & Hk' & Hall).
  assert (same_disk s (with_cache s (ce_host env) cache')) as Hd by done.
  split_and!; [|done|done|done|].
  - apply advance_same_disk; [| |done].
    + eapply queue_ok_same_disk; [done|done| |by apply Hok].
      intros host x. cbn.
      intros [[_ <-]|[_ Hx]]%lookup_insert_Some; [done|]. by eapply qo_cache.
    + intros id r Hr. setoid_rewrite (same_disk_stored _ _ _ Hd) in Hr. split; [by apply Hfresh|].
      intros host x entry. cbn.
      intros [[_ <-]|[_ Hx]]%lookup_insert_Some He; [by eapply Hk'|].
      by eapply (proj2 (Hfresh id r Hr)).
  - intros all ->. destruct (Hall all eq_refl) as (found & -> & Hin & Hsub). cbn. split.
    + eapply sublist_NoDup; [|done]. rewrite Hperm. apply NoDup_elements.
    + intros c. rewrite Hin. split.
      * intros (id & Hid & Hw). assert (cv_conversation_id c = id) as -> by by eapply stored_id, Hw. done.
      * intros Hw. exists (cv_conversation_id c). split; [|done].
        rewrite Hperm, elem_of_elements, elem_of_dom. destruct Hw as [Hw _].
        unfold stored in Hw. apply bind_Some in Hw as (f & Hf & _). by eexists.
Qed.

(** ** Triples

    [moves env new s m Q]: from [s], however [m] ends, the state has only moved on; when it
    answers [Ok x] the answer and the state satisfy [Q]. *)

Definition moves {A} (env : ConversationEnv) (new : Uuid → Prop) (s : ConversationStore)
    (m : Op A) (Q : A → ConversationStore → Prop) : Prop :=
  ∀ r s', m s = (r, s') → advance env new s s' ∧ ∀ x, r = Ok x → Q x s'.

Lemma moves_bind {A B} env new s (m : Op A) (k : A → Op B) Q R :
  moves env new s m Q →
  (∀ x s', advance env new s s' → Q x s' → moves env new s' (k x) R) →
  moves env new s (op_bind m k) R.
Proof.
  intros Hm Hk r s'. unfold op_bind. destruct (m s) as [[x|e] s1] eqn:Hrun.
  - destruct (Hm _ _ Hrun) as [Ha Hq]. intros Hrun'.
    destruct (Hk x s1 Ha (Hq x eq_refl) _ _ Hrun') as [Hb Hr]. split; [|done]. by eapply advance_trans.
  - intros [= <- <-]. by destruct (Hm _ _ Hrun).
Qed.

(** The same when the first part appends no message. *)
Lemma moves_bind_quiet {A B} env new s (m : Op A) (k : A → Op B) Q R :
  moves env nothing s m Q →
  (∀ x s', advance env nothing s s' → Q x s' → moves env new s' (k x) R) →
  moves env new s (op_bind m k) R.
Proof.
  intros Hm Hk r s' Hrun. unfold op_bind in Hrun. destruct (m s) as [o s1] eqn:Hms.
  destruct (Hm o s1 Hms) as [Ha Hq].
  assert (advance env new s s1) as Ha' by (eapply advance_weaken; [|done]; done).
  destruct o as [x|e]; [|by injection Hrun as <- <-].
  destruct (Hk x s1 Ha (Hq x eq_refl) r s' Hrun) as [Hb Hr]. split; [|done]. by eapply advance_trans.
Qed.

Lemma moves_conseq {A} env new s (m : Op A) (Q R : A → ConversationStore → Prop) :
  moves env new s m Q → (∀ x s', advance env new s s' → Q x s' → R x s') → moves env new s m R.
Proof. intros Hm Hqr r s' Hrun. destruct (Hm r s' Hrun) as [Ha Hq]. split; [done|eauto]. Qed.

Lemma moves_weaken {A} env (new new' : Uuid → Prop) s (m : Op A) Q :
  (∀ x, new x → new' x) → moves env new s m Q → moves env new' s m Q.
Proof. intros Hn Hm r s' Hrun. destruct (Hm r s' Hrun). split; [by eapply advance_weaken|done]. Qed.

Lemma moves_lift {A} env new s (r : result A LocalWtsError) :
  queue_ok s → times_fresh env s → moves env new s (op_lift r) (λ x s', r = Ok x ∧ s' = s).
Proof. intros Hok Hf r' s' [= <- <-]. split; [by apply advance_refl|by intros x ->]. Qed.

Lemma moves_ret {A} env new s (x : A) :
  queue_ok s → times_fresh env s → moves env new s (op_ret x) (λ y s', y = x ∧ s' = s).
Proof. intros Hok Hf r' s' [= <- <-]. split; [by apply advance_refl|by intros y [= <-]]. Qed.

Lemma moves_require {A} env new s (r : result () LocalWtsError) (m : Op A) Q :
  queue_ok s → times_fresh env s → (r = Ok () → moves env new s m Q) →
  moves env new s (op_bind (op_lift r) (λ _, m)) Q.
Proof.
  intros Hok Hf Hm. eapply moves_bind; [by apply moves_lift|].
  intros [] s' _ [Hr ->]. by apply Hm.
Qed.

Lemma moves_err {A} env new s e Q :
  queue_ok s → times_fresh env s → moves env new s (op_err e : Op A) Q.
Proof. intros Hok Hf r' s' [= <- <-]. by split; [apply advance_refl|]. Qed.

Lemma moves_read env new s id :
  queue_ok s → times_fresh env s →
  moves env new s (read env id) (λ c s', s' = s ∧ stored s id = Some c).
Proof.
  intros Hok Hf r s' [= <- <-]. split; [by apply advance_refl|].
  intros c Hc. split; [done|by eapply read_file_Ok].
Qed.

Lemma moves_ids env new s :
  queue_ok s → times_fresh env s → listing_ok env →
  moves env new s (ids env) (λ l s', s' = s ∧ l ≡ₚ elements (dom (cs_files s))).
Proof.
  intros Hok Hf Hl r s' Hrun. assert (s' = s) as -> by (unfold ids in Hrun; by case_match; injection Hrun).
  split; [by apply advance_refl|]. intros l ->. split; [done|by eapply ids_Ok].
Qed.

Lemma moves_write env s id c c' added :
  queue_ok s → times_distinct env → times_fresh env s → good_change s id c c' added →
  moves env (λ x, x ∈ am_message_id <$> added) s (write env c')
    (λ w s', changed s s' id w ∧ w = stamped c' (ce_now env)).
Proof.
  intros Hok Htd Hf Hg r s' Hrun. destruct r as [w|e].
  - split; [by eapply advance_change|]. intros x [= <-].
    destruct (good_change_changed env s id c c' added w s' Hok Htd Hg Hrun) as (? & ? & _). done.
  - apply write_Err in Hrun as [-> _]. split; [by apply advance_refl|done].
Qed.

Definition env_ok (env : ConversationEnv) : Prop := listing_ok env ∧ times_distinct env.

Lemma moves_work env new s :
  queue_ok s → times_fresh env s → env_ok env →
  moves env new s (work_conversations env)
    (λ all s', same_disk s s' ∧ cs_turns s' = cs_turns s ∧ cs_ledger s' = cs_ledger s ∧
       NoDup (cv_conversation_id <$> all) ∧
       ∀ c, c ∈ all ↔ has_stored_work s (cv_conversation_id c) c).
Proof.
  intros Hok Hf [Hl _] r s' Hrun.
  destruct (work_conversations_spec _ _ _ _ Hok Hf Hl Hrun) as (Ha & Hd & Ht & Hg & Hall).
  split; [eapply advance_weaken; [|done]; done|]. intros all Hr.
  destruct (Hall all Hr). by split_and!.
Qed.

Lemma moves_positions env new s c :
  queue_ok s → times_fresh env s → env_ok env →
  moves env new s (set_conversation_queue_positions env c) (λ _ s', same_disk s s').
Proof.
  intros Hok Hf Henv. eapply moves_bind; [by apply moves_work|].
  intros all s' Ha (Hd & _). eapply moves_conseq; [apply moves_ret; apply Ha|].
  by intros x s2 _ [_ ->].
Qed.

(** ** Recovery *)

Lemma recovered_good s id c :
  queue_ok s → stored s id = Some c → good_change s id c (recovered_conversation c) [].
Proof.
  intros Hok Hs. split; try done.
  - apply recovered_evolves.
  - by eapply recovered_ok, stored_ok.
  - cbn. lia.
  - by intros m ?%elem_of_nil.
  - by intros m q ?%elem_of_nil.
  - by left.
Qed.

(** A conversation is left as it is, or its turn is marked interrupted. *)
Definition recovers (env : ConversationEnv) (c c' : AgentConversation) : Prop :=
  c' = c ∨ c' = stamped (recovered_conversation c) (ce_now env) ∧ is_Some (cv_active_session_id c).

Lemma moves_recover env new s id c :
  queue_ok s → times_fresh env s → env_ok env → stored s id = Some c →
  moves env new s (recover_if_unowned env c)
    (λ c' s', stored s' id = Some c' ∧ recovers env c c' ∧ (s' = s ∨ changed s s' id c')).
Proof.
  intros Hok Hf [_ Htd] Hs r s' Hrun. unfold recover_if_unowned in Hrun.
  assert (∀ (r : result AgentConversation LocalWtsError) s', (Ok c, s) = (r, s') → advance env new s s' ∧ ∀ x, r = Ok x →
    stored s' id = Some x ∧ recovers env c x ∧ (s' = s ∨ changed s s' id x)) as Hsame.
  { intros r0 s0 [= <- <-]. split; [by apply advance_refl|]. intros x [= <-]. split_and!; [done|by left|by left]. }
  destruct (cv_active_session_id c) as [session|] eqn:Hact; [|by apply Hsame].
  destruct (turn_lease env c s); [|by apply Hsame].
  pose proof (recovered_good s id c Hok Hs) as Hg.
  destruct (moves_write env s id c _ [] Hok Htd Hf Hg r s' Hrun) as [Ha Hq].
  split; [eapply advance_weaken; [|done]; by intros x ?%elem_of_nil|].
  intros x Hx. destruct (Hq x Hx) as [Hch Hst]. split_and!; [by apply (ch_stored _ _ _ _ Hch)| |by right].
  right. rewrite Hact. split; [done|by eexists].
Qed.

Lemma moves_get env new s id :
  queue_ok s → times_fresh env s → env_ok env →
  moves env new s (get_agent_conversation env id) (λ _ _, True).
Proof.
  intros Hok Hf Henv. apply moves_require; [done..|]. intros _.
  eapply moves_bind; [by apply moves_read|]. intros c s1 _ [-> Hc].
  eapply moves_bind; [by eapply moves_recover|]. intros c' s2 Ha _.
  eapply moves_conseq; [apply moves_positions; [apply Ha..|done]|done].
Qed.
End operations.
