(* ===== verification/ConversationSteps.v ===== *)
(** * Agent conversations: every operation is a good step

    Sending, editing, cancelling, reporting, finishing, creating, listing and opening, each
    shown to keep the invariant by the triples of ConversationProofs. *)

From S2P Require Import Prelude Order Text StoreBase Sessions.
From S2P Require Import Conversations ConversationStore ConversationQueue ConversationRules.
From S2P Require Import ConversationProofs.

Local Open Scope N_scope.

Section steps.
Context `{SessionJson} `{ConversationLibraries} `{CaptureLibraries} `{!ConversationLaws}.

(** ** Recovering many conversations *)

Lemma moves_map {A B} env new s (f : A → Op B) l :
  queue_ok s → times_fresh env s →
  (∀ x s, queue_ok s → times_fresh env s → moves env new s (f x) (λ _ _, True)) →
  moves env new s (op_map f l) (λ _ _, True).
Proof.
  intros Hok Hf Hall. revert s Hok Hf. induction l as [|x l IH]; intros s Hok Hf; cbn.
  - eapply moves_conseq; [by apply moves_ret|done].
  - eapply moves_bind; [by apply Hall|]. intros y s1 Ha _.
    eapply moves_bind; [apply IH; apply Ha|]. intros ys s2 Hb _.
    eapply moves_conseq; [apply moves_ret; apply Hb|done].
Qed.

Lemma recovers_id env c c' : recovers env c c' → cv_conversation_id c' = cv_conversation_id c.
Proof. by intros [->|[-> _]]. Qed.

Lemma moves_recover_all env new s all :
  queue_ok s → times_fresh env s → env_ok env →
  NoDup (cv_conversation_id <$> all) →
  Forall (λ c, stored s (cv_conversation_id c) = Some c) all →
  moves env new s (op_map (recover_if_unowned env) all)
    (λ all' s', Forall2 (λ c c', recovers env c c' ∧ stored s' (cv_conversation_id c) = Some c')
                  all all' ∧
       (∀ id, id ∉ cv_conversation_id <$> all → stored s' id = stored s id) ∧
       cs_turns s' = cs_turns s).
Proof.
  intros Hok Hf Henv. revert s Hok Hf. induction all as [|c all IH]; intros s Hok Hf Hnd Hall; cbn.
  - eapply moves_conseq; [by apply moves_ret|]. intros x s' _ [-> ->]. by split_and!.
  - cbn in Hnd. apply NoDup_cons in Hnd as [Hn Hnd]. apply Forall_cons in Hall as [Hc Hall].
    eapply moves_bind; [by eapply moves_recover|]. intros c' s1 Ha (Hc' & Hrec & Hch).
    assert (∀ id, id ≠ cv_conversation_id c → stored s1 id = stored s id) as Hframe.
    { intros id Hne. destruct Hch as [->|Hch]; [done|]. by apply (ch_others _ _ _ _ Hch). }
    assert (cs_turns s1 = cs_turns s) as Ht1.
    { destruct Hch as [->|Hch]; [done|]. by apply (ch_turns _ _ _ _ Hch). }
    eapply moves_bind; [apply IH; [apply Ha..|done|]|].
    { apply Forall_forall. intros x Hx. rewrite Hframe; [by eapply Forall_forall in Hall|].
      intros Heq. apply Hn. rewrite <- Heq. by apply list_elem_of_fmap_2. }
    intros all' s2 Hb (Hall' & Hrest & Ht2). eapply moves_conseq; [apply moves_ret; apply Hb|].
    intros x s3 _ [-> ->]. split_and!.
    + constructor; [|done]. split; [done|]. by rewrite Hrest.
    + intros id [Hne Hid]%not_elem_of_cons. rewrite Hrest by done. by apply Hframe.
    + by rewrite Ht2.
Qed.

(** ** The counter *)

Lemma parse_u64_dec n : n ≤ u64_max → parse_u64 (dec n) = Some n.
Proof.
  intros Hn. unfold parse_u64.
  assert (match dec n with 43 :: digits => digits | _ => dec n end = dec n) as ->.
  { pose proof (dec_digits n) as Hd. destruct (dec n) as [|c l] eqn:He; [done|].
    destruct (decide (c = 43)) as [->|Hne]; [done|]. by repeat case_match. }
  rewrite dec_digits, dec_value. apply N.leb_le in Hn as ->.
  destruct (dec n) eqn:He; [|done]. pose proof (dec_value n) as Hv. rewrite He in Hv.
  cbv in Hv. by subst n.
Qed.

Lemma read_counter_Ok env s n m : counter_is s n → read_counter env s = Ok m → m = n.
Proof.
  unfold read_counter. intros [Hmax [[-> ->]| ->]]; [by intros [= <-]|].
  case_match; [|done]. rewrite parse_u64_dec by (unfold MAX_QUEUE_SEQUENCE, u64_max in *; lia).
  by intros [= <-].
Qed.

Lemma next_sequence_Ok n q : next_sequence n = Ok q → q = n + 1 ∧ q ≤ MAX_QUEUE_SEQUENCE.
Proof.
  unfold next_sequence, checked_add_u64. repeat case_match; try done. intros [= <-].
  split; [congruence|]. by apply N.leb_le.
Qed.

(** Messages are numbered below the counter. *)
Definition below (s : ConversationStore) (n : N) : Prop :=
  ∀ id m q, messages_of s id m → am_queue_sequence m = Some q → q < n.

Lemma moves_write_counter env new s n :
  queue_ok s → times_fresh env s → counter_is s n → n + 1 ≤ MAX_QUEUE_SEQUENCE →
  moves env new s (write_counter env (n + 1))
    (λ _ s', (∀ id, stored s' id = stored s id) ∧ counter_is s' (n + 1) ∧ below s' (n + 1) ∧
       cs_turns s' = cs_turns s).
Proof.
  intros Hok Hf Hn Hmax r s' Hrun. unfold write_counter in Hrun.
  destruct (ce_counter_writable env); injection Hrun as <- <-; [|by split; [apply advance_refl|]].
  set (s' := with_counter s (Some (dec (n + 1)))).
  assert (∀ id m, messages_of s' id m ↔ messages_of s id m) as Hm by done.
  assert (below s' (n + 1)) as Hbelow.
  { intros id m q Hx Hq. destruct (qo_counter s Hok) as (n' & Hn' & Hall).
    assert (n' = n) as ->; [|specialize (Hall id m q Hx Hq); lia].
    destruct Hn as [? [[Hc ->]|Hc]], Hn' as [? [[Hc' ->]|Hc']]; congruence || (rewrite Hc in Hc'; by simplify_eq). }
  assert (counter_is s' (n + 1)) as Hcount by (split; [done|by right]).
  assert (queue_ok s') as Hok'.
  { destruct Hok. split; try done. exists (n + 1). split; [done|].
    intros id m q Hx Hq. specialize (Hbelow id m q Hx Hq). lia. }
  split; [|by intros [] _].
  split; [done|exact Hf| |]; [intros id c Hc; by exists c|by left].
Qed.

(** ** Sending *)

Lemma appended_evolves c a : evolves_with c (with_messages c (cv_messages c ++ [a])) [a].
Proof. split; [done| |done]. exists (cv_messages c). split; [done|reflexivity]. Qed.

Lemma sent_ok c id sequence request now :
  conversation_ok c →
  find_message (sent_as (sm_request_id request)) (cv_messages c) = None →
  (length (cv_messages c) + queued_count (cv_messages c) < 254)%nat →
  (∀ m, m ∈ cv_messages c → am_message_id m ≠ id) →
  conversation_ok (with_messages c (cv_messages c ++ [queued_message id sequence request now])).
Proof.
  intros Hok Hnew Hcount Hid. eapply conversation_ok_evolves; [done|apply appended_evolves|done|..].
  - apply Forall_singleton. split.
    + exact Hid.
    + intros m r Hin Hu _ Hr [= <-]. pose proof (find_message_None _ _ _ Hnew Hin) as Hf.
      unfold sent_as in Hf. rewrite Hu in Hf. by apply bool_decide_eq_false in Hf.
    + intros _. split; [done|by eexists].
  - intros m [Hin | ->%list_elem_of_singleton]%elem_of_app.
    + exact (ck_progress c Hok m Hin).
    + split; [done|]. by intros (session & _ & [=]).
  - cbn [cv_messages with_messages]. rewrite length_app, queued_count_app.
    change (queued_count [_]) with 1%nat. cbn [length]. lia.
  - exact (ck_receipts _ Hok).
Qed.

Lemma sent_good s id c mid n request now :
  queue_ok s → stored s id = Some c → counter_is s n → below s n →
  find_message (sent_as (sm_request_id request)) (cv_messages c) = None →
  (length (cv_messages c) + queued_count (cv_messages c) < 254)%nat → ¬ used s mid →
  good_change s id c (with_messages c (cv_messages c ++ [queued_message mid n request now]))
    [queued_message mid n request now].
Proof.
  intros Hok Hs Hn Hbelow Hnew Hcount Hfresh. split; try done.
  - apply appended_evolves.
  - apply sent_ok; [by eapply stored_ok|done|done|]. intros m Hm Heq. apply Hfresh.
    exists id, m. split; [|done]. by exists c.
  - by intros m ->%list_elem_of_singleton.
  - intros m q ->%list_elem_of_singleton [= <-]. split.
    + intros n' Hn'. destruct Hn as [? [[Hc ->]|Hc]], Hn' as [? [[Hc' ->]|Hc']];
        congruence || (rewrite Hc in Hc'; by simplify_eq).
    + intros id' m' Hm' Hq'. specialize (Hbelow id' m' n Hm' Hq'). lia.
  - by right; left.
  - intros t Ht Htc Ha. destruct (qo_turn s Hok t c) as [(m & Hm & ? & ? & ?) Hall];
      [done|by rewrite Htc|done|]. split.
    + exists m. split; [|done]. apply elem_of_app. by left.
    + by intros x [Hx | ->%list_elem_of_singleton]%elem_of_app Hses; [apply Hall|].
Qed.

(** The outcome of a send: a reply, or the message as the last of its conversation. *)
Definition message_sent (env : ConversationEnv) (id : Uuid)
    (request : SendAgentConversationMessageRequest) (reply : option AgentConversation)
    (s' : ConversationStore) : Prop :=
  match reply with
  | Some _ => True
  | None => ∃ c w sequence, stored s' id = Some w ∧
      cv_messages w = cv_messages c ++ [queued_message (ce_fresh env) sequence request (ce_now env)] ∧
      find_message (sent_as (sm_request_id request)) (cv_messages c) = None
  end.

Lemma moves_send env s id request :
  queue_ok s → times_fresh env s → env_ok env → ¬ used s (ce_fresh env) →
  moves env (λ x, x = ce_fresh env) s (send_locked env id request) (message_sent env id request).
Proof.
  intros Hok Hf Henv Hfresh. unfold send_locked.
  apply moves_require; [done..|]. intros _. apply moves_require; [done..|]. intros _.
  eapply moves_bind_quiet; [by apply moves_read|]. intros c0 s0 _ [-> Hc0].
  eapply moves_bind_quiet; [by eapply moves_recover|]. intros c s1 Ha1 (Hc & _ & _).
  assert (¬ used s1 (ce_fresh env)) as Hfresh1 by by intros [?|[]]%(av_used _ _ _ _ Ha1).
  destruct Ha1 as [Hok1 Hf1 _ _]. destruct (find_message _ _) as [m|] eqn:Hfind.
  { destruct (bool_decide _); [|by apply moves_err].
    eapply moves_bind; [by apply moves_positions|]. intros c' s2 Ha _.
    eapply moves_conseq; [apply moves_ret; apply Ha|]. by intros x s3 _ [-> _]. }
  apply moves_require; [done..|]. intros _. apply moves_require; [done..|].
  intros Hcount%guard_err_Ok. apply Nat.leb_gt in Hcount.
  eapply moves_bind_quiet; [by apply moves_work|]. intros all s2 Ha2 (Hd & _).
  assert (¬ used s2 (ce_fresh env)) as Hfresh2 by by intros [?|[]]%(av_used _ _ _ _ Ha2).
  rewrite <- (same_disk_stored _ _ id Hd) in Hc. destruct Ha2 as [Hok2 Hf2 _ _].
  apply moves_require; [done..|]. intros _.
  change (λ s, (read_counter env s, s)) with (λ s, op_lift (read_counter env s) s).
  eapply (moves_bind_quiet _ _ _ _ _ (λ n s', read_counter env s2 = Ok n ∧ s' = s2)).
  { exact (moves_lift env nothing s2 (read_counter env s2) Hok2 Hf2). }
  intros previous s3 _ [Hread ->]. destruct (qo_counter s2 Hok2) as (n & Hn & _).
  apply (read_counter_Ok _ _ _ _ Hn) in Hread as ->.
  eapply moves_bind_quiet; [by apply moves_lift|]. intros sequence s3 _ [Hseq ->].
  apply next_sequence_Ok in Hseq as [-> Hmax]. apply moves_require; [done..|]. intros _.
  eapply moves_bind_quiet; [by apply moves_write_counter|].
  intros [] s3 Ha3 (Hst & Hcount3 & Hbelow & _). rewrite <- Hst in Hc.
  assert (¬ used s3 (ce_fresh env)) as Hfresh3 by by intros [?|[]]%(av_used _ _ _ _ Ha3).
  destruct Ha3 as [Hok3 Hf3 _ _].
  pose proof (sent_good s3 id c (ce_fresh env) (n + 1) request (ce_now env)
    Hok3 Hc Hcount3 Hbelow Hfind Hcount Hfresh3) as Hg.
  eapply moves_bind.
  { eapply moves_weaken; [|eapply moves_write; [done|apply Henv|done|exact Hg]].
    by intros x ->%list_elem_of_singleton. }
  intros w s4 Ha4 [Hch ->]. eapply moves_conseq; [apply moves_ret; apply Ha4|].
  intros x s5 _ [-> ->]. eexists c, _, (n + 1).
  split_and!; [apply (ch_stored _ _ _ _ Hch)|done|done].
Qed.

(** ** Changes of the messages of one conversation *)

(** Identifier, role and session of the messages. *)
Definition sessions_of (c : AgentConversation) :
    list (Uuid * AgentConversationMessageRole * option Uuid) :=
  (λ m, (am_message_id m, am_role m, am_session_id m)) <$> cv_messages c.

Lemma turn_in_sessions t c c' : sessions_of c' = sessions_of c → turn_in t c → turn_in t c'.
Proof.
  intros Heq [(m & Hm & Hid & Hses & Hrole) Hall].
  assert (∀ x, x ∈ sessions_of c' ↔ x ∈ sessions_of c) as Hiff by by rewrite Heq.
  unfold sessions_of in Hiff. setoid_rewrite list_elem_of_fmap in Hiff. split.
  - destruct (proj2 (Hiff (am_message_id m, am_role m, am_session_id m))) as (x & [= Hx1 Hx2 Hx3] & Hx);
      [by exists m|]. exists x. split_and!; [done|congruence..].
  - intros x Hx Hsx. destruct (proj1 (Hiff (am_message_id x, am_role x, am_session_id x)))
      as (y & [= -> -> Hy] & Hin); [by exists x|]. apply Hall; [done|congruence].
Qed.

(** The conditions on a change that appends no message and ends or keeps the turn. *)
Lemma kept_good s id c c' :
  queue_ok s → stored s id = Some c → evolves_with c c' [] → cv_revision c' = cv_revision c →
  progress_ok c' → (length (cv_queue_mutations c') ≤ MAX_MUTATION_RECEIPTS)%nat →
  (cv_active_session_id c' = None ∨
   cv_active_session_id c' = cv_active_session_id c ∧ sessions_of c' = sessions_of c) →
  good_change s id c c' [].
Proof.
  intros Hok Hs Hev Hrev Hprog Hrec Hact. split; try done.
  - by eapply conversation_ok_kept; [eapply stored_ok|..].
  - cbn. lia.
  - by intros m ?%elem_of_nil.
  - by intros m q ?%elem_of_nil.
  - destruct Hact as [Hn|[Hn _]]; [by left|by right; left].
  - intros t Ht Htc Ha. destruct Hact as [Hn|[Hn Hm]]; [congruence|].
    apply (turn_in_sessions t c c' Hm). apply (qo_turn s Hok); [done|by rewrite Htc|congruence].
Qed.

Lemma touched_good s id c : queue_ok s → stored s id = Some c → good_change s id c c [].
Proof.
  intros Hok Hs. pose proof (stored_ok _ _ _ Hok Hs) as Hc. apply kept_good; try done.
  - split; [done| |done]. exists (cv_messages c). rewrite app_nil_r. split; [done|reflexivity].
  - intros m. by apply ck_progress.
  - by apply ck_receipts.
  - by right.
Qed.

(** Changing the message [id] by [f], which keeps identity, role and session. *)
Lemma change_first_kept p f c :
  (∀ m, am_message_id (f m) = am_message_id m ∧ am_session_id (f m) = am_session_id m ∧
        am_role (f m) = am_role m) →
  sessions_of (with_messages c (change_first p f (cv_messages c))) = sessions_of c.
Proof.
  intros Hf. unfold sessions_of. cbn [cv_messages with_messages].
  induction (cv_messages c) as [|m l IH]; [done|]. cbn. destruct (p m); cbn; [|by rewrite IH].
  by destruct (Hf m) as (-> & -> & ->).
Qed.

(** A single change by identifier, as a whole. *)
Lemma change_first_evolves id f c mutations :
  conversation_ok c → cv_queue_mutations c `prefix_of` mutations →
  (∀ m, m ∈ cv_messages c → am_message_id m = id → message_step m (f m)) →
  evolves_with c
    (with_mutations (with_messages c (change_first (has_id id) f (cv_messages c))) mutations) [].
Proof.
  intros Hok Hpre Hstep. split; [done| |done]. eexists. rewrite app_nil_r. split; [done|].
  apply Forall2_change_first. intros m Hm Hid. apply Hstep; [done|]. by apply bool_decide_eq_true in Hid.
Qed.

Lemma session_in_progress c m :
  conversation_ok c → m ∈ cv_messages c →
  is_Some (am_session_id m) → am_session_id m = cv_active_session_id c →
  in_progress (am_status m) = true.
Proof.
  intros Hok Hm [x Hx] Heq. apply (ck_progress c Hok m Hm). exists x. by rewrite <- Heq, Hx.
Qed.

Lemma not_in_progress c m session :
  conversation_ok c → m ∈ cv_messages c → in_progress (am_status m) = false →
  ¬ (∃ x, cv_active_session_id c = Some x ∧ am_session_id m = Some x) ∧
  (cv_active_session_id c = Some session → am_session_id m ≠ Some session).
Proof.
  intros Hok Hm Hp. assert (¬ (∃ x, cv_active_session_id c = Some x ∧ am_session_id m = Some x)) as Hn.
  { intros Hx%(ck_progress c Hok m Hm). congruence. }
  split; [done|]. intros Ha Hses. apply Hn. by exists session.
Qed.

Lemma change_first_ext p q f l :
  (∀ m, m ∈ l → p m = q m) → change_first p f l = change_first q f l.
Proof.
  induction l as [|m l IH]; intros Hpq; [done|]. cbn. rewrite (Hpq m) by left.
  destruct (q m); [done|]. f_equal. apply IH. intros; apply Hpq. by right.
Qed.

(** ** Editing and cancelling *)

Lemma mutated_step m body request_id : am_status m = MQueued → message_step m (mutated m body request_id).
Proof.
  intros Hs. split; [done| |by rewrite Hs]. cbn. rewrite Hs.
  destruct body; [done|apply rtc_once, edge_cancel].
Qed.

(** What an accepted edit writes. *)
Definition mutated_conversation (c : AgentConversation) (message_id request_id : Uuid)
    (body : option str) (digest : str) : AgentConversation :=
  with_mutations
    (with_messages c (change_first (has_id message_id) (λ m, mutated m body request_id) (cv_messages c)))
    (cv_queue_mutations c ++
     [{| mr_request_id := request_id; mr_message_id := message_id; mr_digest := digest |}]).

Lemma mutated_good s id c m message_id request_id body digest :
  queue_ok s → stored s id = Some c → m ∈ cv_messages c → am_message_id m = message_id →
  am_status m = MQueued → (length (cv_queue_mutations c) < MAX_MUTATION_RECEIPTS)%nat →
  good_change s id c (mutated_conversation c message_id request_id body digest) [].
Proof.
  intros Hok Hs Hm Hid Hq Hrec. pose proof (stored_ok _ _ _ Hok Hs) as Hc.
  assert (∀ x, x ∈ cv_messages c → am_message_id x = message_id → x = m) as Huniq.
  { intros x Hx Heq. apply (NoDup_key_inj am_message_id (cv_messages c)); [by apply ck_ids|done|done|congruence]. }
  apply kept_good; try done.
  - apply change_first_evolves; [done|by apply prefix_app_r|]. intros x Hx Heq.
    rewrite (Huniq x Hx Heq). by apply mutated_step.
  - intros x Hx.
    apply (proj1 (elem_of_change_id message_id (λ m, mutated m body request_id) _ x
      (ck_ids _ Hc) (λ _, eq_refl))) in Hx
      as [[Hx _]|(y & Hy & Heq & ->)]; [by apply (ck_progress c Hc)|].
    rewrite (Huniq y Hy Heq). cbn [in_progress am_status mutated am_session_id]. rewrite Hq.
    split; [by destruct body|]. intros Hx. exfalso.
    by apply (proj1 (not_in_progress c m 0 Hc Hm ltac:(by rewrite Hq))).
  - cbn [cv_queue_mutations mutated_conversation with_mutations]. rewrite length_app. cbn [length]. lia.
  - right. split; [done|]. by apply (change_first_kept _ (λ m, mutated m body request_id)).
Qed.

(** What an accepted edit leaves behind; a replay changes nothing but recovery marks. *)
Definition edit_effect (s : ConversationStore) (env : ConversationEnv) (id message_id request_id : Uuid)
    (expected_body : str) (body : option str) (s' : ConversationStore) : Prop :=
  ∃ c digest, mutation_digest message_id expected_body body = Some digest ∧
    stored s id = Some c ∧
    ((∃ receipt, receipt ∈ cv_queue_mutations c ∧ mr_request_id receipt = request_id ∧
        mr_message_id receipt = message_id ∧ mr_digest receipt = digest ∧ same_disk s s') ∨
     (∃ m, m ∈ cv_messages c ∧ am_message_id m = message_id ∧ am_role m = RoleUser ∧
        am_status m = MQueued ∧ am_body m = expected_body ∧
        stored s' id = Some (stamped (mutated_conversation c message_id request_id body digest)
                               (ce_now env)) ∧
        ∀ id', id' ≠ id → stored s' id' = stored s id')).

Lemma moves_mutate env s id message_id request_id expected_body body :
  queue_ok s → times_fresh env s → env_ok env →
  moves env nothing s (mutate_queued_message env id message_id request_id expected_body body)
    (λ _ s', edit_effect s env id message_id request_id expected_body body s').
Proof.
  intros Hok Hf Henv. unfold mutate_queued_message.
  do 2 (apply moves_require; [done..|]; intros _).
  eapply moves_bind; [by apply moves_lift|]. intros digest s0 _ [Hdig%ok_or_Ok ->].
  apply moves_require; [done..|]; intros _.
  eapply moves_bind; [by apply moves_read|]. intros c s1 _ [-> Hc].
  apply moves_require; [done..|]; intros _.
  eapply moves_bind; [by apply moves_lift|]. intros m s1 _ [Hm%ok_or_Ok ->].
  apply find_message_Some in Hm as [Hm Hp]. apply andb_true_iff in Hp as [Hid Huser].
  apply bool_decide_eq_true in Hid, Huser. pose proof (stored_ok _ _ _ Hok Hc) as Hcok.
  destruct (head _) as [receipt|] eqn:Hrec.
  - apply head_Some_elem_of, list_elem_of_filter in Hrec as [Hrid Hrin].
    destruct (_ || _) eqn:Hbad; [by apply moves_err|]. bool_split.
    eapply moves_conseq; [by apply moves_positions|]. intros x s2 _ Hd.
    exists c, digest. split_and!; [done..|]. left. exists receipt. by split_and!.
  - apply moves_require; [done..|]; intros Hq%guard_err_Ok.
    apply orb_false_iff in Hq as [Hst%negb_false_iff%bool_decide_eq_true
      Hb%negb_false_iff%bool_decide_eq_true].
    apply moves_require; [done..|]; intros Hroom%guard_err_Ok. apply Nat.leb_gt in Hroom.
    apply moves_require; [done..|]; intros _.
    assert (change_first (λ m, has_id message_id m && is_user m)
              (λ m, mutated m body request_id) (cv_messages c)
            = change_first (has_id message_id) (λ m, mutated m body request_id) (cv_messages c)) as ->.
    { apply change_first_ext. intros x Hx. destruct (has_id message_id x) eqn:Hxid; [|done].
      apply bool_decide_eq_true in Hxid. assert (x = m) as ->; [|by apply bool_decide_eq_true].
      apply (NoDup_key_inj am_message_id (cv_messages c)); [by apply ck_ids|done|done|congruence]. }
    pose proof (mutated_good s id c m message_id request_id body digest Hok Hc Hm Hid Hst Hroom) as Hg.
    eapply moves_bind.
    { eapply moves_weaken; [|eapply moves_write; [done|apply Henv|done|exact Hg]].
      by intros x ?%elem_of_nil. }
    intros w s2 Ha [Hch ->]. eapply moves_conseq; [apply moves_positions; [apply Ha..|done]|].
    intros x s3 _ Hd. exists c, digest. split_and!; [done..|]. right. exists m.
    rewrite (same_disk_stored _ _ id Hd). split_and!; try done.
    + by apply (ch_stored _ _ _ _ Hch).
    + intros id' Hne. rewrite (same_disk_stored _ _ id' Hd). by apply (ch_others _ _ _ _ Hch).
Qed.

(** ** The life of a turn *)

Lemma moves_update env s id edit :
  queue_ok s → times_fresh env s → env_ok env →
  (∀ c, stored s id = Some c → good_change s id c (edit c) []) →
  moves env nothing s (update env id edit) (λ _ _, True).
Proof.
  intros Hok Hf Henv Hedit. unfold update. apply moves_require; [done..|]; intros _.
  eapply moves_bind; [by apply moves_read|]. intros c s1 _ [-> Hc].
  eapply moves_bind.
  { eapply moves_weaken; [|eapply moves_write; [done|apply Henv|done|by apply Hedit]].
    by intros x ?%elem_of_nil. }
  intros w s2 Ha _. eapply moves_conseq; [apply moves_ret; apply Ha|done].
Qed.

(** The reply of a running turn is in progress, and found by its identifier. *)
Lemma turn_reply s t c m :
  queue_ok s → t ∈ cs_turns s → stored s (tn_conversation t) = Some c →
  cv_active_session_id c = Some (tn_session t) →
  m ∈ cv_messages c → am_message_id m = tn_assistant t →
  in_progress (am_status m) = true ∧ am_session_id m = Some (tn_session t) ∧ am_role m ≠ RoleUser.
Proof.
  intros Hok Ht Hc Ha Hm Hid. pose proof (stored_ok _ _ _ Hok Hc) as Hcok.
  destruct (qo_turn s Hok t c Ht Hc Ha) as [(x & Hx & Hxid & Hxs & Hxr) _].
  assert (x = m) as ->.
  { apply (NoDup_key_inj am_message_id (cv_messages c)); [by apply ck_ids|done|done|congruence]. }
  split_and!; [|done|done]. eapply session_in_progress; [done..|by eexists|congruence].
Qed.

Lemma reported_step summary m :
  in_progress (am_status m) = true → message_step m (reported summary m).
Proof.
  intros Hp. destruct summary; (split; [done| |by destruct (am_status m)]); cbn;
    (destruct (am_status m); try done; apply rtc_once, edge_report).
Qed.

Lemma report_good s t summary c :
  queue_ok s → t ∈ cs_turns s → stored s (tn_conversation t) = Some c →
  good_change s (tn_conversation t) c (report_edit t summary c) [].
Proof.
  intros Hok Ht Hc. unfold report_edit. case_bool_decide as Ha; [|by apply touched_good].
  pose proof (stored_ok _ _ _ Hok Hc) as Hcok.
  assert (∀ m, am_message_id (reported summary m) = am_message_id m ∧
    am_session_id (reported summary m) = am_session_id m ∧
    am_role (reported summary m) = am_role m) as Hsame by by destruct summary.
  apply kept_good; try done.
  - apply (change_first_evolves _ _ c (cv_queue_mutations c)); [done..|].
    intros m Hm Hid. apply reported_step. by eapply turn_reply.
  - intros m Hm. apply (proj1 (elem_of_change_id (tn_assistant t) (reported summary) _ m
      (ck_ids _ Hcok) (λ m, proj1 (Hsame m)))) in Hm as [[Hm _]|(y & Hy & Hid & ->)];
      [by apply (ck_progress c Hcok)|].
    destruct (turn_reply s t c y Hok Ht Hc Ha Hy Hid) as (_ & Hses & _).
    destruct (Hsame y) as (_ & -> & _). split; [|by destruct summary].
    intros _. by exists (tn_session t).
  - exact (ck_receipts _ Hcok).
  - right. split; [done|]. by apply change_first_kept.
Qed.

Lemma end_step m m' :
  identity_of m' = identity_of m → in_progress (am_status m) = true →
  is_terminal (am_status m') = true → message_step m m'.
Proof.
  intros Hid Hp Hs. split; [done|by apply rtc_once, edge_end|by destruct (am_status m)].
Qed.

Lemma elem_of_answered s t c output error status m :
  queue_ok s → t ∈ cs_turns s → stored s (tn_conversation t) = Some c →
  cv_active_session_id c = Some (tn_session t) → is_terminal status = true →
  m ∈ change_first (has_id (tn_assistant t)) (answered output error status) (cv_messages c) →
  am_role m ≠ RoleUser ∧ is_terminal (am_status m) = true ∨
  m ∈ cv_messages c ∧ am_message_id m ≠ tn_assistant t.
Proof.
  intros Hok Ht Hc Ha Hst. pose proof (stored_ok _ _ _ Hok Hc) as Hcok.
  intros [[Hm Hne]|(y & Hy & Hid & ->)]%(elem_of_change_id _ _ _ _ (ck_ids _ Hcok));
    [by right|left|by destruct output].
  destruct (turn_reply s t c y Hok Ht Hc Ha Hy Hid) as (_ & _ & Hrole). by destruct output.
Qed.

Lemma finish_good s t output error status c :
  queue_ok s → t ∈ cs_turns s → stored s (tn_conversation t) = Some c → is_terminal status = true →
  good_change s (tn_conversation t) c (finish_edit t output error status c) [].
Proof.
  intros Hok Ht Hc Hst. unfold finish_edit. case_bool_decide as Ha; [|by apply touched_good].
  pose proof (stored_ok _ _ _ Hok Hc) as Hcok.
  pose proof (λ m, elem_of_answered s t c output error status m Hok Ht Hc Ha Hst) as Hans.
  destruct (qo_turn s Hok t c Ht Hc Ha) as [_ Honly].
  assert (∀ m, m ∈ cv_messages c → is_user m && bool_decide (am_session_id m = Some (tn_session t)) = true →
    in_progress (am_status m) = true) as Huser.
  { intros m Hm Hu. bool_split. eapply session_in_progress; [done..|by eexists|congruence]. }
  apply kept_good; try done.
  - split; [done| |done]. eexists. rewrite app_nil_r. split; [done|].
    trans (change_first (has_id (tn_assistant t)) (answered output error status) (cv_messages c)).
    + apply Forall2_change_first. intros m Hm Hid. apply bool_decide_eq_true in Hid.
      destruct (turn_reply s t c m Hok Ht Hc Ha Hm Hid) as (Hp & _ & _).
      apply end_step; [by destruct output|done|by destruct output].
    + apply Forall2_fmap_step. intros m Hm. unfold closed.
      destruct (is_user m && _) eqn:Hu; [|done].
      destruct (Hans m Hm) as [[Hrole _]|[Hin _]].
      * by apply andb_true_iff in Hu as [Hr%bool_decide_eq_true _].
      * apply end_step; [done|by apply Huser|done].
  - intros m' (m & -> & Hm)%list_elem_of_fmap. split; [|by intros (? & ? & _)].
    intros Hp. exfalso. unfold closed in Hp. destruct (is_user m && _) eqn:Hu; [by destruct status|].
    destruct (Hans m Hm) as [[_ Hterm]|[Hin Hne]]; [by destruct (am_status m)|].
    apply (ck_progress c Hcok m Hin) in Hp as (session & Hses & Hms).
    destruct (Honly m Hin) as [Hr|Hr]; [congruence| |done].
    assert (is_user m = true) as Hisu by by apply bool_decide_eq_true.
    rewrite Hisu in Hu. apply bool_decide_eq_false in Hu. congruence.
  - exact (ck_receipts _ Hcok).
  - by left.
Qed.

(** ** New conversations *)

Definition is_new (c : AgentConversation) : Prop :=
  cv_schema_version c = 1 ∧ cv_messages c = [] ∧ cv_queue_mutations c = [] ∧
  cv_active_session_id c = None.

Lemma is_new_ok c : is_new c → conversation_ok c.
Proof.
  intros (Hs & Hm & Hr & Ha). split; rewrite ?Hm, ?Hr; try done.
  - constructor.
  - constructor.
  - by intros m ?%elem_of_nil.
  - by intros m ?%elem_of_nil.
  - cbn. lia.
  - cbn. lia.
Qed.

Lemma moves_new env s id c :
  queue_ok s → times_fresh env s → env_ok env → is_new c →
  cv_conversation_id c = id → cs_files s !! id = None →
  moves env nothing s (write env c) (λ w s', w = stamped c (ce_now env)).
Proof.
  intros Hok Hf [_ Htd] Hnew Hid Hnone r s' Hrun. destruct r as [w|e].
  2: { apply write_Err in Hrun as [-> _]. split; [by apply advance_refl|done]. }
  destruct (write_Ok _ _ _ _ _ Htd Hrun) as (Hw & Hrev & bytes & Hj & Hlen & Hs').
  pose proof (λ i, stored_write _ _ _ _ _ i Htd Hrun) as Hst. rewrite Hid in Hs', Hst.
  assert (stored s id = None) as Hnone' by (unfold stored; by rewrite Hnone).
  assert (cv_messages w = [] ∧ cv_active_session_id w = None) as [Hwm Hwa].
  { rewrite Hw. destruct Hnew as (_ & ? & _ & ?). by split. }
  assert (∀ i m, messages_of s' i m ↔ messages_of s i m) as Hmsg.
  { intros i m. unfold messages_of. rewrite Hst. case_decide as Hi; [|done].
    rewrite Hi, Hnone'. split; intros (x & [= <-] & Hin). rewrite Hwm in Hin. by apply elem_of_nil in Hin. }
  assert (∀ i x, stored s' i = Some x → is_Some (cv_active_session_id x) → stored s i = Some x) as Hact.
  { intros i x. rewrite Hst. case_decide; [|done]. intros [= <-] [? Hx]. congruence. }
  assert (∀ i file, cs_files s' !! i = Some file → i = id ∧ cf_bytes file = bytes ∧
    cf_modified file = ce_modified env id (cv_revision w) ∨ i ≠ id ∧ cs_files s !! i = Some file) as Hfile.
  { intros i file. subst s'. cbn. intros [[<- <-]|[Hne Hi]]%lookup_insert_Some; [by left|right; by split]. }
  assert (queue_ok s') as Hok'.
  { assert (cs_caches s' = cs_caches s ∧ cs_counter s' = cs_counter s ∧ cs_turns s' = cs_turns s)
      as (Hcache & Hcount & Hturns) by by subst s'.
    split.
    - intros i file [(-> & Hb & _)|[_ Hi]]%Hfile; [|by apply Hok]. exists w. rewrite Hb.
      split_and!; [by apply conversation_round_trip|by rewrite Hw| |done]. apply is_new_ok.
      by rewrite Hw.
    - intros i1 m1 i2 m2. rewrite !Hmsg. apply Hok.
    - intros i1 m1 i2 m2 q. rewrite !Hmsg. apply Hok.
    - destruct (qo_counter s Hok) as (n & Hn & Hall). exists n. unfold counter_is. rewrite Hcount.
      split; [done|]. intros i m q. rewrite Hmsg. apply Hall.
    - intros i1 c1 i2 c2 H1' H2' Ha1 Ha2. apply (qo_workspace s Hok i1 c1 i2 c2); auto.
    - rewrite Hcache. intros host cache Hc i md l wk file x Hx [(-> & _ & Hm)|[_ Hi]]%Hfile Hjx Hmx Hl.
      + exfalso. rewrite Hm in Hmx. eapply (proj2 (Hf id (cv_revision w) _)); [done|done|done]. Unshelve.
        intros y Hy. congruence.
      + by eapply (qo_cache s Hok host cache).
    - rewrite Hturns. intros t x Ht Hx Ha. apply (qo_turn s Hok t x Ht); [|done]. eapply Hact; [done|by eexists]. }
  split; [|by intros x [= <-]]. split; [done| | |].
  - intros i r Hr. assert (cs_caches s' = cs_caches s) as -> by by subst s'.
    assert (∀ x, stored s i = Some x → cv_revision x < r) as Hr'.
    { intros x Hx. apply Hr. rewrite Hst. case_decide; [congruence|done]. }
    split; [|by apply Hf]. intros file [(-> & _ & ->)|[_ Hi]]%Hfile Heq; [|by eapply (proj1 (Hf i r Hr'))].
    apply Htd in Heq. specialize (Hr w). rewrite Hst, decide_True in Hr by done. specialize (Hr eq_refl). lia.
  - intros i x Hx. exists x. rewrite Hst. case_decide; [congruence|]. by split.
  - intros x (i & m & Hm & <-). left. exists i, m. by rewrite <- Hmsg.
Qed.

Lemma moves_create env s target artifacts request :
  queue_ok s → times_fresh env s → env_ok env →
  moves env nothing s (create_agent_conversation env target artifacts request) (λ _ _, True).
Proof.
  intros Hok Hf Henv. unfold create_agent_conversation. eapply moves_bind; [by apply moves_lift|].
  intros _ s1 _ [_ ->]. do 2 (apply moves_require; [done..|]; intros _).
  intros r s' Hrun.
  destruct (read_file _ _ _) as [existing|e] eqn:Hread.
  { destruct (_ && _); injection Hrun as <- <-; by split; [apply advance_refl|]. }
  assert (e = AgentConversationNotFound ∨ (r, s') = (Err e, s)) as [->|Hsame].
  { destruct e; try (right; congruence). by left. }
  2: { injection Hsame as -> ->. by split; [apply advance_refl|]. }
  revert r s' Hrun. change (moves env nothing s
    (let! listed := ids env in
     require! guard_err (MAX_CONVERSATIONS <=? length listed)%nat AgentConversationStorageFull in
     let! target := op_lift target in
     require! artifacts in
     write env (new_conversation request target (ce_now env))) (λ _ _, True)).
  eapply moves_bind; [apply moves_ids; [done..|apply Henv]|]. intros l s1 _ [-> _].
  apply moves_require; [done..|]; intros _.
  eapply moves_bind; [by apply moves_lift|]. intros tg s1 _ [_ ->].
  apply moves_require; [done..|]; intros _.
  eapply moves_conseq; [eapply moves_new; try done|done].
  unfold read_file in Hread. destruct (cs_files s !! cr_request_id request) as [f|] eqn:Hfile; [|done].
  cbn in Hread. repeat (first [destruct (_ <? _) in Hread|destruct (negb _) in Hread|
    destruct (conversation_from_json _) in Hread|destruct (_ || _) in Hread]; cbn in Hread; try done).
Qed.

(** ** Listing and opening *)

Lemma stored_work s c : has_stored_work s (cv_conversation_id c) c → stored s (cv_conversation_id c) = Some c.
Proof. by intros [? _]. Qed.

Lemma moves_list env s :
  queue_ok s → times_fresh env s → env_ok env →
  moves env nothing s (list_agent_conversations env) (λ _ _, True).
Proof.
  intros Hok Hf Henv. unfold list_agent_conversations. apply moves_require; [done..|]; intros _.
  eapply moves_bind; [by apply moves_work|]. intros all s1 [Hok1 Hf1 _ _] (Hd & _ & _ & Hnd & Hall).
  eapply moves_bind; [apply moves_recover_all; try done|].
  { apply Forall_forall. intros c Hc. rewrite (same_disk_stored _ _ _ Hd). by apply stored_work, Hall. }
  intros all' s2 [Hok2 Hf2 _ _] _.
  eapply moves_bind; [apply moves_ids; [done..|apply Henv]|]. intros l s3 _ [-> _].
  intros r s' Hrun. destruct (load_history _ _ _ _); injection Hrun as <- <-; by split; [apply advance_refl|].
Qed.

Lemma moves_open env s :
  queue_ok s → times_fresh env s → env_ok env →
  moves env nothing s (open_conversations env) (λ _ _, True).
Proof.
  intros Hok Hf Henv. set (s0 := with_cache s (ce_host env) ∅).
  assert (same_disk s s0) as Hd by done.
  assert (queue_ok s0) as Hok0.
  { eapply queue_ok_same_disk; [done|done| |by apply Hok]. intros host cache. cbn.
    intros [[_ <-]|[_ Hx]]%lookup_insert_Some; [|by eapply qo_cache]. intros i ? ? ? ? ? Hx. by rewrite lookup_empty in Hx. }
  assert (times_fresh env s0) as Hf0.
  { intros i r Hr. destruct (Hf i r Hr) as [Hfile Hcache]. split; [done|]. intros host cache entry. cbn.
    intros [[_ <-]|[_ Hx]]%lookup_insert_Some He; [by rewrite lookup_empty in He|by eapply Hcache]. }
  assert (moves env nothing s0
    (require! locked env in
     let! listed := ids env in
     let! _ := op_map (λ id, let! c := read env id in recover_if_unowned env c) listed in
     op_ret tt) (λ _ _, True)) as Hm.
  { apply moves_require; [done..|]; intros _.
    eapply moves_bind; [apply moves_ids; [done..|apply Henv]|]. intros l s1 _ [-> _].
    eapply moves_bind; [apply moves_map; [done..|]|].
    - intros id s2 Hok2 Hf2. eapply moves_bind; [by apply moves_read|]. intros c s3 _ [-> Hc].
      eapply moves_conseq; [by eapply moves_recover|done].
    - intros _ s2 Ha _. eapply moves_conseq; [apply moves_ret; apply Ha|done]. }
  intros r s' Hrun. destruct (Hm r s' Hrun) as [Ha Hq]. split; [|done].
  eapply advance_trans; [|done]. by apply advance_same_disk.
Qed.
End steps.
