(* ===== verification/ConversationPump.v ===== *)
(** * Agent conversations: starting queued messages

    A pump of the queue keeps the invariant, starts at most the head of each workspace's queue,
    and starts it whenever nothing outside stands in the way. *)

From S2P Require Import Prelude Order Text StoreBase Sessions.
From S2P Require Import Conversations ConversationStore ConversationQueue ConversationRules.
From S2P Require Import ConversationProofs ConversationSteps.

Local Open Scope N_scope.

#[export] Instance nat_total_cmp : TotalCmp Nat.compare.
Proof.
  split; [split|].
  - intros x y. apply Nat.compare_antisym.
  - intros x y z. rewrite !Nat.compare_le_iff. lia.
  - intros x y. apply Nat.compare_eq.
Qed.

Section pump.
Context `{SessionJson} `{ConversationLibraries} `{CaptureLibraries} `{!ConversationLaws}.

(** ** The claim of a message *)

Lemma start_message_step session_id m : am_status m = MQueued → message_step m (started session_id m).
Proof.
  intros Hs. split; [done| |by rewrite Hs]. cbn. rewrite Hs. apply rtc_once, edge_start.
Qed.

Lemma refused_step m error : am_status m = MQueued → message_step m (refused error m).
Proof. intros Hs. split; [done| |by rewrite Hs]. cbn. rewrite Hs. apply rtc_once, edge_refuse. Qed.

(** Starting the message [id] takes it off the queue. *)
Lemma queued_count_change id f l m :
  NoDup (am_message_id <$> l) → m ∈ l → am_message_id m = id → is_queued m = true →
  is_queued (f m) = false →
  S (queued_count (change_first (has_id id) f l)) = queued_count l.
Proof.
  intros Hnd Hm Hid Hq Hf. induction l as [|x l IH]; [by apply elem_of_nil in Hm|].
  cbn in Hnd. apply NoDup_cons in Hnd as [Hn Hnd]. cbn [change_first]. unfold has_id at 1.
  case_bool_decide as Hx.
  - assert (x = m) as ->.
    { apply elem_of_cons in Hm as [->|Hm]; [done|]. exfalso. apply Hn. rewrite Hx, <- Hid.
      by apply list_elem_of_fmap_2. }
    unfold queued_count. rewrite !filter_cons, Hq, Hf. rewrite decide_False, decide_True by done. done.
  - apply elem_of_cons in Hm as [->|Hm]; [done|]. specialize (IH Hnd Hm). unfold queued_count in *.
    rewrite !filter_cons. case_decide; cbn [length]; lia.
Qed.

(** What the claim of a message rests on. *)
Record claimable (s : ConversationStore) (id : Uuid) (c : AgentConversation)
    (m : AgentConversationMessage) (assistant_id session_id : Uuid) : Prop := {
  cb_stored : stored s id = Some c;
  cb_message : m ∈ cv_messages c;
  cb_queued : am_status m = MQueued;
  cb_idle : idle s (cv_workspace_id c);
  cb_assistant : ¬ used s assistant_id;
  cb_session x : x ∈ cv_messages c → am_session_id x ≠ Some session_id;
  cb_turn t : t ∈ cs_turns s → tn_session t ≠ session_id
}.

Lemma claimed_evolves c m assistant_id session_id now :
  conversation_ok c → m ∈ cv_messages c → am_status m = MQueued →
  evolves_with c
    (claimed_conversation c (am_message_id m) assistant_id session_id (am_request_id m) now)
    [reply_message assistant_id (am_request_id m) session_id now].
Proof.
  intros Hok Hm Hq. split; [done| |done]. eexists. split; [done|].
  apply Forall2_change_first. intros x Hx Hid. apply bool_decide_eq_true in Hid.
  assert (x = m) as ->.
  { apply (NoDup_key_inj am_message_id (cv_messages c)); [by apply ck_ids|done..]. }
  by apply start_message_step.
Qed.

Lemma elem_of_claimed c m assistant_id session_id now x :
  conversation_ok c → m ∈ cv_messages c →
  x ∈ cv_messages (claimed_conversation c (am_message_id m) assistant_id session_id (am_request_id m) now) ↔
  (x ∈ cv_messages c ∧ am_message_id x ≠ am_message_id m) ∨ x = started session_id m ∨
  x = reply_message assistant_id (am_request_id m) session_id now.
Proof.
  intros Hok Hm. cbn [cv_messages claimed_conversation with_active with_messages].
  rewrite elem_of_app, list_elem_of_singleton.
  rewrite (elem_of_change_id _ _ _ _ (ck_ids _ Hok)) by done.
  assert ((∃ y, y ∈ cv_messages c ∧ am_message_id y = am_message_id m ∧ x = started session_id y)
          ↔ x = started session_id m) as ->; [|tauto]. split.
  - intros (y & Hy & Hid & ->). f_equal.
    by apply (NoDup_key_inj am_message_id (cv_messages c)); [apply ck_ids|..].
  - intros ->. by exists m.
Qed.

Lemma idle_active s id c : stored s id = Some c → idle s (cv_workspace_id c) → cv_active_session_id c = None.
Proof. intros Hs Hi. by eapply Hi. Qed.

Lemma claimed_ok s id c m assistant_id session_id now :
  queue_ok s → claimable s id c m assistant_id session_id →
  conversation_ok
    (claimed_conversation c (am_message_id m) assistant_id session_id (am_request_id m) now).
Proof.
  intros Hok [Hs Hm Hq Hidle Hfresh Hses _]. pose proof (stored_ok _ _ _ Hok Hs) as Hc.
  eapply conversation_ok_evolves; [done|by apply claimed_evolves|done|..].
  - apply Forall_singleton. split; [|done..]. intros x Hx Heq. apply Hfresh.
    exists id, x. split; [|done]. by exists c.
  - intros x Hx. apply elem_of_claimed in Hx as [[Hx _]|[->| ->]]; [|..|done|done].
    + split.
      * intros (y & Hy & _)%(ck_progress c Hc x Hx). by rewrite (idle_active _ _ _ Hs Hidle) in Hy.
      * intros (y & [= <-] & Hy). by apply Hses in Hy.
    + split; [|done]. intros _. by exists session_id.
    + split; [|done]. intros _. by exists session_id.
  - assert (is_queued m = true) as Hqm by by apply bool_decide_eq_true.
    pose proof (queued_count_change (am_message_id m) (started session_id) (cv_messages c) m
      (ck_ids _ Hc) Hm eq_refl Hqm eq_refl) as Hcount.
    cbn [cv_messages claimed_conversation with_active with_messages].
    pose proof (ck_count _ Hc). rewrite length_app, queued_count_app.
    change (queued_count [_]) with 0%nat. cbn [length].
    assert (length (change_first (has_id (am_message_id m)) (started session_id) (cv_messages c))
            = length (cv_messages c)) as Hlen.
    { symmetry. eapply Forall2_length, (Forall2_change_first _ (started session_id)).
      intros x Hx Hid. apply bool_decide_eq_true in Hid.
      assert (x = m) as ->; [|by apply start_message_step].
      apply (NoDup_key_inj am_message_id (cv_messages c)); [by apply ck_ids|done..]. }
    lia.
  - exact (ck_receipts _ Hc).
Qed.

Lemma claimed_good s id c m assistant_id session_id now :
  queue_ok s → claimable s id c m assistant_id session_id →
  good_change s id c
    (claimed_conversation c (am_message_id m) assistant_id session_id (am_request_id m) now)
    [reply_message assistant_id (am_request_id m) session_id now].
Proof.
  intros Hok Hcl. pose proof (claimed_ok s id c m assistant_id session_id now Hok Hcl) as Hnew.
  destruct Hcl as [Hs Hm Hq Hidle Hfresh Hses Hturn]. split; try done.
  - by apply claimed_evolves; [eapply stored_ok|..].
  - by intros x ->%list_elem_of_singleton.
  - by intros x q ->%list_elem_of_singleton.
  - by right; right.
  - intros t Ht _ [= Heq]. by destruct (Hturn t Ht).
Qed.

(** The turn of a claim is the one its conversation runs. *)
Lemma claimed_turn c m assistant_id session_id now lease conversation :
  conversation_ok c → m ∈ cv_messages c → am_role m = RoleUser →
  (∀ x, x ∈ cv_messages c → am_session_id x ≠ Some session_id) →
  turn_in {| tn_conversation := conversation; tn_assistant := assistant_id;
             tn_session := session_id; tn_lease := lease |}
    (claimed_conversation c (am_message_id m) assistant_id session_id (am_request_id m) now).
Proof.
  intros Hok Hm Hrole Hses. split.
  - exists (reply_message assistant_id (am_request_id m) session_id now).
    split_and!; [|done..]. apply elem_of_claimed; [done..|]. by right; right.
  - intros x Hx Hxs. apply elem_of_claimed in Hx as [[Hx _]|[->| ->]]; [|by left|by right|done..].
    by apply Hses in Hx.
Qed.

Lemma refused_good s id c m error :
  queue_ok s → stored s id = Some c → m ∈ cv_messages c → am_status m = MQueued →
  good_change s id c (refused_conversation c (am_message_id m) error) [].
Proof.
  intros Hok Hs Hm Hq. pose proof (stored_ok _ _ _ Hok Hs) as Hc.
  assert (∀ x, x ∈ cv_messages c → am_message_id x = am_message_id m → x = m) as Huniq.
  { intros x Hx Heq. by apply (NoDup_key_inj am_message_id (cv_messages c)); [apply ck_ids|..]. }
  apply kept_good; try done.
  - apply (change_first_evolves _ _ c (cv_queue_mutations c)); [done..|]. intros x Hx Heq.
    rewrite (Huniq x Hx Heq). by apply refused_step.
  - intros x Hx. apply (proj1 (elem_of_change_id (am_message_id m) (refused error) _ x
      (ck_ids _ Hc) (λ _, eq_refl))) in Hx as [[Hx _]|(y & Hy & Heq & ->)]; [by apply (ck_progress c Hc)|].
    rewrite (Huniq y Hy Heq). split; [done|]. intros Hp. exfalso.
    by apply (proj1 (not_in_progress c m 0 Hc Hm ltac:(by rewrite Hq))).
  - exact (ck_receipts _ Hc).
  - right. split; [done|]. by apply change_first_kept.
Qed.

(** ** One attempt *)

(** What an attempt on the message [message_id] of [c] leaves: only its conversation may
    change, and of its messages only that one. *)
Record attempted (env : ConversationEnv) (s s' : ConversationStore) (id : Uuid)
    (c : AgentConversation) (message_id : Uuid) : Prop := {
  at_others id' : id' ≠ id → stored s' id' = stored s id';
  at_stored : ∃ c', stored s' id = Some c' ∧ cv_workspace_id c' = cv_workspace_id c ∧
    ∀ m, m ∈ cv_messages c → am_message_id m ≠ message_id → m ∈ cv_messages c';
  at_turns t : t ∈ cs_turns s' → t ∈ cs_turns s ∨
    tn_session t = en_fresh (cl_session (ce_claim env message_id)) ∧ tn_lease t = lease_of c;
  at_kept t : t ∈ cs_turns s → t ∈ cs_turns s'
}.

Lemma attempted_same env s s' id c message_id :
  stored s id = Some c → same_disk s s' → cs_turns s' = cs_turns s →
  attempted env s s' id c message_id.
Proof.
  intros Hs Hd Ht. split; rewrite ?Ht; auto.
  - intros id' _. by apply same_disk_stored.
  - exists c. by rewrite (same_disk_stored _ _ id Hd).
Qed.

Lemma queue_ok_ledger s ledger : queue_ok s → queue_ok (with_ledger s ledger).
Proof. by intros []; split. Qed.

Lemma times_fresh_ledger env s ledger : times_fresh env s → times_fresh env (with_ledger s ledger).
Proof. done. Qed.

Lemma advance_ledger env new s ledger :
  queue_ok s → times_fresh env s → advance env new s (with_ledger s ledger).
Proof. intros Hok Hf. apply advance_same_disk; [by apply queue_ok_ledger|done|done]. Qed.

Lemma elem_of_changed_kept f c m message_id :
  m ∈ cv_messages c → am_message_id m ≠ message_id →
  m ∈ change_first (has_id message_id) f (cv_messages c).
Proof.
  intros Hm Hne. induction (cv_messages c) as [|x l IH]; [by apply elem_of_nil in Hm|]. cbn.
  unfold has_id at 1. case_bool_decide as Hx.
  - apply elem_of_cons in Hm as [->|Hm]; [done|by right].
  - apply elem_of_cons in Hm as [->|Hm]; [by left|right; auto].
Qed.

Lemma fail_queued_spec env new s id c m error r s' :
  queue_ok s → times_fresh env s → env_ok env → stored s id = Some c → m ∈ cv_messages c →
  am_status m = MQueued → fail_queued_message env c (am_message_id m) error s = (r, s') →
  advance env new s s' ∧ attempted env s s' id c (am_message_id m).
Proof.
  intros Hok Hf [_ Htd] Hs Hm Hq Hrun. unfold fail_queued_message, op_bind in Hrun.
  pose proof (refused_good s id c m error Hok Hs Hm Hq) as Hg.
  destruct (write env _ s) as [[w|e] s1] eqn:Hw.
  - injection Hrun as <- <-. split.
    + eapply advance_weaken; [|by eapply advance_change]. by intros x ?%elem_of_nil.
    + destruct (good_change_changed env s id c _ [] w s1 Hok Htd Hg Hw) as (Hch & Hst & _).
      split; rewrite ?(ch_turns _ _ _ _ Hch); auto.
      * by apply (ch_others _ _ _ _ Hch).
      * exists w. split_and!; [by apply (ch_stored _ _ _ _ Hch)|by rewrite Hst|].
        rewrite Hst. intros x Hx Hne. by apply elem_of_changed_kept.
  - injection Hrun as <- <-. apply write_Err in Hw as [-> _].
    split; [by apply advance_refl|by apply attempted_same].
Qed.

Lemma launch_session claim c s session s' :
  launch claim c s = (Ok session, s') →
  as_session_id session = en_fresh (cl_session claim) ∧ ∃ ledger, s' = with_ledger s ledger.
Proof.
  unfold launch, begin_launch, at_now, add_session, write_then.
  destruct (sessions_now_unix_ms _); [|by intros [=]].
  destruct (read_locked _ _); [|by intros [=]].
  destruct (write_locked _ _ _) as [[]]; [|by intros [=]]. intros [= <- <-]. split; [done|by eexists].
Qed.

Lemma launch_ledger claim c s r s' : launch claim c s = (r, s') → ∃ ledger, s' = with_ledger s ledger.
Proof.
  unfold launch. destruct (begin_launch _ _ _ _ _ _) as [o ledger]. intros [= _ <-]. by eexists.
Qed.

Lemma find_message_id c m :
  conversation_ok c → m ∈ cv_messages c →
  find_message (has_id (am_message_id m)) (cv_messages c) = Some m.
Proof.
  intros Hok Hm. destruct (find_message _ _) as [x|] eqn:Hf.
  - apply find_message_Some in Hf as [Hx Hid]. apply bool_decide_eq_true in Hid. f_equal.
    by apply (NoDup_key_inj am_message_id (cv_messages c)); [apply ck_ids|..].
  - pose proof (find_message_None _ _ _ Hf Hm) as Hn. unfold has_id in Hn.
    by apply bool_decide_eq_false in Hn.
Qed.

(** The claim of [m] as it is written. *)
Definition claim_of (env : ConversationEnv) (c : AgentConversation)
    (m : AgentConversationMessage) : AgentConversation :=
  let claim := ce_claim env (am_message_id m) in
  claimed_conversation c (am_message_id m) (cl_assistant claim) (en_fresh (cl_session claim))
    (am_request_id m) (ce_now env).

Definition claimable_by (env : ConversationEnv) (s : ConversationStore) (id : Uuid)
    (c : AgentConversation) (m : AgentConversationMessage) : Prop :=
  let claim := ce_claim env (am_message_id m) in
  claimable s id c m (cl_assistant claim) (en_fresh (cl_session claim)).

Definition assistant_of (env : ConversationEnv) (message_id : Uuid) : Uuid → Prop :=
  λ x, x = cl_assistant (ce_claim env message_id).

Lemma claim_spec env s id c m session r s' :
  queue_ok s → times_fresh env s → env_ok env → claimable_by env s id c m →
  as_session_id session = en_fresh (cl_session (ce_claim env (am_message_id m))) →
  claim_message env c (am_message_id m) session s = (r, s') →
  advance env (assistant_of env (am_message_id m)) s s' ∧
  attempted env s s' id c (am_message_id m) ∧
  (r = Ok () → stored s' id = Some (stamped (claim_of env c m) (ce_now env))).
Proof.
  intros Hok Hf [Hlist Htd] Hcl Hses. unfold claim_message, op_bind, op_lift.
  set (claim := ce_claim env (am_message_id m)) in *.
  pose proof (stored_ok _ _ _ Hok (cb_stored _ _ _ _ _ _ Hcl)) as Hc.
  rewrite (find_message_id c m Hc (cb_message _ _ _ _ _ _ Hcl)). cbn [ok_or]. rewrite Hses.
  change (claimed_conversation c (am_message_id m) (cl_assistant claim)
    (en_fresh (cl_session claim)) (am_request_id m) (ce_now env)) with (claim_of env c m).
  pose proof (claimed_good s id c m (cl_assistant claim)
    (en_fresh (cl_session claim)) (ce_now env) Hok Hcl) as Hg.
  change (good_change s id c (claim_of env c m)
    [reply_message (cl_assistant claim) (am_request_id m) (en_fresh (cl_session claim)) (ce_now env)]) in Hg.
  destruct (write env (claim_of env c m) s) as [[w|e] s1] eqn:Hw.
  2: { intros [= <- <-]. apply write_Err in Hw as [-> _]. split_and!; [by apply advance_refl| |done].
       by apply attempted_same; [apply Hcl|..]. }
  destruct (good_change_changed env s id c _ _ w s1 Hok Htd Hg Hw) as (Hch & Hst & _).
  assert (advance env (assistant_of env (am_message_id m)) s s1) as Ha.
  { eapply advance_weaken; [|by eapply advance_change]. by intros x ->%list_elem_of_singleton. }
  assert (attempted env s s1 id c (am_message_id m)) as Hat.
  { split; rewrite ?(ch_turns _ _ _ _ Hch); auto; [by apply (ch_others _ _ _ _ Hch)|].
    exists w. split_and!; [by apply (ch_stored _ _ _ _ Hch)|by rewrite Hst|].
    rewrite Hst. intros x Hx Hne. apply elem_of_claimed; [done|by apply Hcl|by left]. }
  assert (stored s1 id = Some (stamped (claim_of env c m) (ce_now env))) as Hs1.
  { rewrite <- Hst. by apply (ch_stored _ _ _ _ Hch). }
  destruct (guard_err _ _); [|by intros [= <- <-]].
  destruct (turn_conversation_snapshot _ _); [|by intros [= <- <-]].
  unfold hand_over. destruct (cl_spawned claim); intros [= <- <-].
  - set (t := {| tn_conversation := _ |}). split_and!; [|split|done].
    + eapply advance_trans; [done|]. apply advance_same_disk; [|apply Ha|done].
      eapply queue_ok_same_disk; [apply Ha|done|intros; by eapply qo_cache; [apply Ha|]|].
      cbn [cs_turns with_turns]. intros t' x [->|Ht']%elem_of_cons Hx Hact.
      * assert (x = w) as ->.
        { cbn [tn_conversation t] in Hx. rewrite Hst in Hx.
          change (cv_conversation_id (stamped (claim_of env c m) (ce_now env)))
            with (cv_conversation_id c) in Hx.
          rewrite (stored_id _ _ _ Hok (cb_stored _ _ _ _ _ _ Hcl)) in Hx. congruence. }
        pose proof (claimed_turn c m (cl_assistant claim) (en_fresh (cl_session claim)) (ce_now env)
          (lease_of w) (cv_conversation_id w) Hc (cb_message _ _ _ _ _ _ Hcl)) as Hturn.
        rewrite Hst at 1. apply Hturn; [|by apply Hcl].
        by eapply ck_queued; [|apply Hcl|apply Hcl].
      * by eapply qo_turn; [apply Ha|..].
    + apply Hat.
    + apply Hat.
    + intros t' [->|Ht']%elem_of_cons; [right|by apply Hat]. split; [done|].
      change (lease_of w = lease_of c). by rewrite Hst.
    + intros t' Ht'. apply elem_of_cons. right. by apply Hat.
  - split_and!; [|split|done]; try apply Hat.
    eapply advance_trans; [done|]. apply advance_ledger; apply Ha.
Qed.

(** Nothing outside keeps the message from leaving the queue. *)
Definition unhindered (env : ConversationEnv) (message_id : Uuid) : Prop :=
  let claim := ce_claim env message_id in
  cl_restore_recovered claim = true ∧ cl_integration_recovered claim = true ∧
  cl_operation_lease claim ≠ Err AgentConversationBusy.

(** The message was started, or refused with an error. *)
Definition left_queue (s : ConversationStore) (id message_id : Uuid) : Prop :=
  ∃ c m, stored s id = Some c ∧ m ∈ cv_messages c ∧ am_message_id m = message_id ∧
    (am_status m = MRunning ∨ am_status m = MFailed).

Lemma fail_queued_left env s id c m error s' :
  queue_ok s → env_ok env → stored s id = Some c → m ∈ cv_messages c → am_status m = MQueued →
  fail_queued_message env c (am_message_id m) error s = (Ok (), s') →
  left_queue s' id (am_message_id m).
Proof.
  intros Hok [_ Htd] Hs Hm Hq Hrun. unfold fail_queued_message, op_bind in Hrun.
  pose proof (refused_good s id c m error Hok Hs Hm Hq) as Hg.
  destruct (write env _ s) as [[w|e] s1] eqn:Hw; [|done]. injection Hrun as <-.
  destruct (good_change_changed env s id c _ [] w s1 Hok Htd Hg Hw) as (Hch & -> & _).
  eexists _, (refused error m). split_and!; [apply (ch_stored _ _ _ _ Hch)| |done|by right].
  cbn [cv_messages stamped refused_conversation with_messages].
  apply (elem_of_change_id (am_message_id m) (refused error)); [by eapply ck_ids, stored_ok|done|].
  right. by exists m.
Qed.

Lemma claimed_left env s s' id c m :
  queue_ok s → claimable_by env s id c m →
  stored s' id = Some (stamped (claim_of env c m) (ce_now env)) → left_queue s' id (am_message_id m).
Proof.
  intros Hok Hcl Hs'. exists (stamped (claim_of env c m) (ce_now env)).
  exists (started (en_fresh (cl_session (ce_claim env (am_message_id m)))) m).
  split_and!; [done| |done|by left]. change (cv_messages (stamped _ _)) with (cv_messages (claim_of env c m)).
  apply elem_of_claimed; [by eapply stored_ok, Hcl|apply Hcl|by right; left].
Qed.

Lemma attempt_spec env s id c m r s' :
  queue_ok s → times_fresh env s → env_ok env → claimable_by env s id c m →
  attempt env c (am_message_id m) s = (r, s') →
  advance env (assistant_of env (am_message_id m)) s s' ∧
  attempted env s s' id c (am_message_id m) ∧
  (r = Ok () → unhindered env (am_message_id m) → turn_lease env c s ≠ Err AgentConversationBusy →
   left_queue s' id (am_message_id m)).
Proof.
  intros Hok Hf Henv Hcl Hrun. pose proof Hcl as [Hs Hm Hq _ _ _ _].
  set (goal := λ (r : result () LocalWtsError) s', advance env (assistant_of env (am_message_id m)) s s' ∧
    attempted env s s' id c (am_message_id m) ∧
    (r = Ok () → unhindered env (am_message_id m) → turn_lease env c s ≠ Err AgentConversationBusy →
     left_queue s' id (am_message_id m))). change (goal r s').
  assert (∀ r, ¬ (r = Ok () ∧ unhindered env (am_message_id m) ∧
    turn_lease env c s ≠ Err AgentConversationBusy) → goal r s) as Hstay.
  { intros r0 Hn. split_and!; [by apply advance_refl|by apply attempted_same|]. intros; exfalso; auto. }
  assert (∀ ledger error r s', fail_queued_message env c (am_message_id m) error
    (with_ledger s ledger) = (r, s') → goal r s') as Hfail.
  { intros ledger error r0 s0 Hrun0. pose proof (queue_ok_ledger s ledger Hok) as Hok'.
    destruct (fail_queued_spec env (assistant_of env (am_message_id m)) (with_ledger s ledger) id c m
      error r0 s0 Hok' Hf Henv Hs Hm Hq Hrun0) as [Ha Hat]. split_and!.
    - eapply advance_trans; [|done]. by apply advance_ledger.
    - destruct Hat. by split.
    - intros -> _ _. by eapply (fail_queued_left _ (with_ledger s ledger)). }
  assert (∀ error, fail_queued_message env c (am_message_id m) error s = (r, s') → goal r s') as Hfail'.
  { intros error. specialize (Hfail (cs_ledger s) error r s'). by destruct s. }
  unfold attempt in Hrun.
  destruct (negb _ || negb _) eqn:Hrec.
  { injection Hrun as <- <-. apply Hstay. intros (_ & (Hr & Hi & _) & _). by rewrite Hr, Hi in Hrec. }
  destruct (cl_operation_lease _) as [|error] eqn:Hop.
  2: { destruct (decide (error = AgentConversationBusy)) as [->|Hne]; [|destruct error; (done || by apply Hfail' in Hrun)].
       injection Hrun as <- <-. apply Hstay. by intros (_ & (_ & _ & Hn) & _). }
  destruct (ensure_turn_capacity c) as [|error]; [|by eapply Hfail'].
  destruct (turn_lease env c s) as [|error] eqn:Hlease.
  2: { destruct (decide (error = AgentConversationBusy)) as [->|Hne]; [|destruct error; (done || by apply Hfail' in Hrun)].
       injection Hrun as <- <-. apply Hstay. by intros (_ & _ & Hn). }
  destruct (launch _ c s) as [[session|error] s1] eqn:Hlaunch.
  2: { destruct (launch_ledger _ _ _ _ _ Hlaunch) as [ledger ->]. by eapply Hfail. }
  destruct (launch_session _ _ _ _ _ Hlaunch) as [Hses [ledger ->]].
  assert (claimable_by env (with_ledger s ledger) id c m) as Hcl' by by destruct Hcl; split.
  destruct (claim_spec env (with_ledger s ledger) id c m session r s' (queue_ok_ledger _ _ Hok) Hf Henv Hcl' Hses Hrun)
    as (Ha & Hat & Hdone). split_and!.
  - eapply advance_trans; [|done]. by apply advance_ledger.
  - destruct Hat. by split.
  - intros Hr _ _. eapply claimed_left; [exact Hok|exact Hcl|by apply Hdone].
Qed.

(** ** The loop over the candidates *)

(** Fresh identifiers are fresh and differ from each other. *)
Definition names_distinct (env : ConversationEnv) : Prop :=
  (∀ x y, cl_assistant (ce_claim env x) = cl_assistant (ce_claim env y) → x = y) ∧
  (∀ x y, en_fresh (cl_session (ce_claim env x)) = en_fresh (cl_session (ce_claim env y)) → x = y).

Definition candidate_id (candidate : Candidate) : Uuid := candidate.2.

(** The conversation of a candidate. *)
Definition conversation_of (all : list AgentConversation) (candidate : Candidate) :
    option AgentConversation := all !! candidate.1.2.

(** [candidate] is the first of its workspace in [l]. *)
Definition first_of (all : list AgentConversation) (l : list Candidate) (candidate : Candidate)
    (c : AgentConversation) : Prop :=
  conversation_of all candidate = Some c ∧
  ∃ pre post, l = pre ++ candidate :: post ∧
    ∀ x d, x ∈ pre → conversation_of all x = Some d → cv_workspace_id d ≠ cv_workspace_id c.

Record loop_ready (env : ConversationEnv) (all : list AgentConversation) (busy : gset Uuid)
    (l : list Candidate) (s : ConversationStore) : Prop := {
  lr_ok : queue_ok s;
  lr_times : times_fresh env s;
  lr_distinct : NoDup (cv_conversation_id <$> all);
  lr_ids : NoDup (candidate_id <$> l);
  lr_candidate x : x ∈ l → ∃ c m, conversation_of all x = Some c ∧ m ∈ cv_messages c ∧
    am_message_id m = candidate_id x ∧ am_status m = MQueued;
  lr_stored x c : x ∈ l → conversation_of all x = Some c → cv_workspace_id c ∉ busy →
    stored s (cv_conversation_id c) = Some c ∧ idle s (cv_workspace_id c);
  lr_assistant x : x ∈ l → ¬ used s (cl_assistant (ce_claim env (candidate_id x)));
  lr_session x c m : x ∈ l → c ∈ all → m ∈ cv_messages c →
    am_session_id m ≠ Some (en_fresh (cl_session (ce_claim env (candidate_id x))));
  lr_turn x t : x ∈ l → t ∈ cs_turns s →
    tn_session t ≠ en_fresh (cl_session (ce_claim env (candidate_id x)))
}.

Lemma conversation_of_all all x c : conversation_of all x = Some c → c ∈ all.
Proof. apply list_elem_of_lookup_2. Qed.

Lemma same_conversation all x y c d :
  NoDup (cv_conversation_id <$> all) → conversation_of all x = Some c → conversation_of all y = Some d →
  cv_conversation_id c = cv_conversation_id d → c = d.
Proof.
  intros Hnd Hc%conversation_of_all Hd%conversation_of_all.
  by apply (NoDup_key_inj cv_conversation_id all).
Qed.

Lemma loop_skip env all busy x l s :
  loop_ready env all busy (x :: l) s → loop_ready env all busy l s.
Proof.
  intros []. split; try done.
  - cbn in lr_ids0. by apply NoDup_cons in lr_ids0 as [_ ?].
  - intros y Hy. apply lr_candidate0. by right.
  - intros y c Hy. apply lr_stored0. by right.
  - intros y Hy. apply lr_assistant0. by right.
  - intros y c m Hy. apply lr_session0. by right.
  - intros y t Hy. apply lr_turn0. by right.
Qed.

Lemma loop_claimable env all busy x l s c :
  loop_ready env all busy (x :: l) s → conversation_of all x = Some c → cv_workspace_id c ∉ busy →
  ∃ m, am_message_id m = candidate_id x ∧ claimable_by env s (cv_conversation_id c) c m.
Proof.
  intros Hl Hc Hbusy. destruct (lr_candidate _ _ _ _ _ Hl x) as (c' & m & Hc' & Hm & Hid & Hq); [left|].
  assert (c' = c) as -> by congruence. exists m. split; [done|].
  destruct (lr_stored _ _ _ _ _ Hl x c) as [Hs Hidle]; [left|done..|].
  unfold claimable_by. rewrite Hid. split; try done.
  - apply (lr_assistant _ _ _ _ _ Hl). left.
  - intros y Hy. eapply (lr_session _ _ _ _ _ Hl); [left|by eapply conversation_of_all|done].
  - intros t Ht. apply (lr_turn _ _ _ _ _ Hl); [left|done].
Qed.

Lemma loop_step env all busy x l s s' c :
  names_distinct env → loop_ready env all busy (x :: l) s → conversation_of all x = Some c →
  cv_workspace_id c ∉ busy →
  advance env (assistant_of env (candidate_id x)) s s' →
  attempted env s s' (cv_conversation_id c) c (candidate_id x) →
  loop_ready env all ({[cv_workspace_id c]} ∪ busy) l s'.
Proof.
  intros [Hna Hns] Hl Hc Hbusy Ha Hat. pose proof (loop_skip _ _ _ _ _ _ Hl) as Hl'.
  assert (∀ y, y ∈ l → candidate_id x ≠ candidate_id y) as Hne.
  { pose proof (lr_ids _ _ _ _ _ Hl) as Hnd. cbn in Hnd. apply NoDup_cons in Hnd as [Hn _].
    intros y Hy Heq. apply Hn. rewrite Heq. by apply list_elem_of_fmap_2. }
  split; try (by apply Hl' || apply Ha).
  - intros y d Hy Hd [Hw Hb]%not_elem_of_union. rewrite elem_of_singleton in Hw.
    destruct (lr_stored _ _ _ _ _ Hl' y d Hy Hd Hb) as [Hs Hidle].
    assert (cv_conversation_id d ≠ cv_conversation_id c) as Hid.
    { intros Heq. apply Hw. f_equal. by eapply (same_conversation all y x); [apply Hl|..]. }
    split; [by rewrite (at_others _ _ _ _ _ _ Hat)|].
    intros id e He Hew. destruct (decide (id = cv_conversation_id c)) as [->|Hn].
    + destruct (at_stored _ _ _ _ _ _ Hat) as (c' & Hc' & Hcw & _). congruence.
    + rewrite (at_others _ _ _ _ _ _ Hat _ Hn) in He. by eapply Hidle.
  - intros y Hy [Hu|Hu]%(av_used _ _ _ _ Ha); [by apply (lr_assistant _ _ _ _ _ Hl' y Hy)|].
    apply Hna in Hu. by eapply Hne.
  - intros y t Hy [Ht|[Ht _]]%(at_turns _ _ _ _ _ _ Hat); [by apply (lr_turn _ _ _ _ _ Hl' y)|].
    rewrite Ht. intros Heq%Hns. by eapply Hne.
Qed.

(** Leases of different workspaces have different names. *)
Definition leases_distinct : Prop :=
  ∀ w r w' r', lease_key w r = lease_key w' r' → w = w'.

(** No turn and no other operation holds the lease of the conversation. *)
Definition lease_free (env : ConversationEnv) (s : ConversationStore) (c : AgentConversation) : Prop :=
  ce_lease env (lease_of c) ≠ Err AgentConversationBusy ∧
  ∀ t, t ∈ cs_turns s → tn_lease t ≠ lease_of c.

Lemma lease_free_turn env s c : lease_free env s c → turn_lease env c s ≠ Err AgentConversationBusy.
Proof.
  intros [He Ht]. unfold turn_lease. destruct (existsb _ _) eqn:Hex; [|done].
  apply existsb_spec in Hex as (t & Hin & Heq). apply bool_decide_eq_true in Heq. by destruct (Ht t Hin).
Qed.

Record loop_done (env : ConversationEnv) (all : list AgentConversation) (busy : gset Uuid)
    (l : list Candidate) (s : ConversationStore) (r : result () LocalWtsError)
    (s' : ConversationStore) : Prop := {
  ld_advance : advance env (λ x, ∃ y, y ∈ l ∧ assistant_of env (candidate_id y) x) s s';
  ld_changed id : stored s' id = stored s id ∨
    ∃ x c c', first_of all l x c ∧ (cv_workspace_id c ∉ busy) ∧ cv_conversation_id c = id ∧
      stored s' id = Some c' ∧
      ∀ m, m ∈ cv_messages c → am_message_id m ≠ candidate_id x → m ∈ cv_messages c';
  ld_started x c : r = Ok () → leases_distinct → first_of all l x c → cv_workspace_id c ∉ busy →
    unhindered env (candidate_id x) → lease_free env s c →
    left_queue s' (cv_conversation_id c) (candidate_id x)
}.

Lemma first_of_cons all x l y d :
  first_of all l y d →
  (∀ c, conversation_of all x = Some c → cv_workspace_id c ≠ cv_workspace_id d) →
  first_of all (x :: l) y d.
Proof.
  intros (Hd & pre & post & -> & Hpre) Hx. split; [done|]. exists (x :: pre), post.
  split; [done|]. intros z e [->|Hz]%elem_of_cons He; [by apply Hx|by eapply Hpre].
Qed.

Lemma first_of_cons_inv all x l y d :
  first_of all (x :: l) y d →
  y = x ∨ first_of all l y d ∧
          ∀ c, conversation_of all x = Some c → cv_workspace_id c ≠ cv_workspace_id d.
Proof.
  intros (Hd & [|z pre] & post & Heq & Hpre); injection Heq as -> ->; [by left|right].
  split.
  - split; [done|]. exists pre, post. split; [done|]. intros u e Hu. apply Hpre. by right.
  - intros c. apply Hpre. left.
Qed.

Lemma first_of_head all x l c : conversation_of all x = Some c → first_of all (x :: l) x c.
Proof. intros Hc. split; [done|]. exists [], l. split; [done|]. by intros ? ? ?%elem_of_nil. Qed.

Lemma loop_done_skip env all busy x l s r s' c :
  conversation_of all x = Some c → cv_workspace_id c ∈ busy →
  loop_done env all busy l s r s' → loop_done env all busy (x :: l) s r s'.
Proof.
  intros Hc Hbusy [Ha Hch Hst]. split.
  - eapply advance_weaken; [|done]. intros y (z & Hz & Hy). exists z. split; [by right|done].
  - intros id. destruct (Hch id) as [Hs|(y & d & d' & Hy & Hd & Hrest)]; [by left|right].
    exists y, d, d'. split_and!; [|done|apply Hrest..]. apply first_of_cons; [done|].
    intros e He. assert (e = c) as -> by congruence. by intros Heq; rewrite Heq in Hbusy.
  - intros y d Hr Hl Hfirst Hd.
    destruct (first_of_cons_inv _ _ _ _ _ Hfirst) as [->|[Hfirst' _]].
    + assert (d = c) as -> by (destruct Hfirst; congruence). done.
    + by apply Hst.
Qed.

Lemma loop_done_failed env all busy x l s e s1 c :
  conversation_of all x = Some c → cv_workspace_id c ∉ busy →
  advance env (assistant_of env (candidate_id x)) s s1 →
  attempted env s s1 (cv_conversation_id c) c (candidate_id x) →
  loop_done env all busy (x :: l) s (Err e) s1.
Proof.
  intros Hc Hbusy Ha Hat. split; [| |done].
  - eapply advance_weaken; [|done]. intros y Hy. exists x. split; [left|done].
  - intros id. destruct (decide (id = cv_conversation_id c)) as [->|Hne].
    + right. destruct (at_stored _ _ _ _ _ _ Hat) as (c' & Hc' & _ & Hm). exists x, c, c'.
      split_and!; [by apply first_of_head|done..].
    + left. by apply (at_others _ _ _ _ _ _ Hat).
Qed.

Lemma loop_done_cons env all busy x l s s1 r s' c :
  NoDup (cv_conversation_id <$> all) →
  conversation_of all x = Some c → cv_workspace_id c ∉ busy →
  advance env (assistant_of env (candidate_id x)) s s1 →
  attempted env s s1 (cv_conversation_id c) c (candidate_id x) →
  (unhindered env (candidate_id x) → turn_lease env c s ≠ Err AgentConversationBusy →
   left_queue s1 (cv_conversation_id c) (candidate_id x)) →
  loop_done env all ({[cv_workspace_id c]} ∪ busy) l s1 r s' →
  loop_done env all busy (x :: l) s r s'.
Proof.
  intros Hnd Hc Hbusy Ha Hat Hleft [Hb Hch Hst].
  assert (stored s' (cv_conversation_id c) = stored s1 (cv_conversation_id c)) as Hkeep.
  { destruct (Hch (cv_conversation_id c)) as [?|(y & d & d' & [Hd _] & Hw & Hid & _)]; [done|].
    exfalso. apply Hw. assert (d = c) as -> by by eapply (same_conversation all y x). set_solver. }
  split.
  - eapply advance_trans.
    + eapply advance_weaken; [|exact Ha]. intros y Hy. exists x. split; [left|done].
    + eapply advance_weaken; [|exact Hb]. intros y (z & Hz & Hy). exists z. split; [by right|done].
  - intros id. destruct (Hch id) as [Hs|(y & d & d' & Hy & Hw & Hrest)].
    + destruct (loop_done_failed env all busy x l s AgentConversationBusy s1 c Hc Hbusy Ha Hat)
        as [_ Hone _].
      destruct (Hone id) as [Hs1|(y & d & d' & ? & ? & ? & Hd' & ?)]; [left; congruence|right].
      exists y, d, d'. split_and!; [done..|congruence|done].
    + right. exists y, d, d'. split_and!; [|set_solver|apply Hrest..].
      apply first_of_cons; [done|]. intros e He. assert (e = c) as -> by congruence. set_solver.
  - intros y d Hr Hl Hfirst Hw Hun Hfree. pose proof (first_of_cons_inv _ _ _ _ _ Hfirst) as Hcase.
    destruct Hcase as [->|[Hfirst' Hne]].
    + assert (d = c) as -> by (destruct Hfirst; congruence).
      destruct (Hleft Hun (lease_free_turn _ _ _ Hfree)) as (w & m & Hw' & Hm).
      exists w, m. rewrite Hkeep. by split.
    + specialize (Hne c Hc). apply Hst; try done; [set_solver|]. destruct Hfree as [He Ht].
      split; [done|]. intros t [Ht'|[_ Hlease]]%(at_turns _ _ _ _ _ _ Hat); [by apply Ht|].
      rewrite Hlease. unfold lease_of. by intros ?%Hl.
Qed.

Lemma start_candidates_spec env all busy l s r s' :
  env_ok env → names_distinct env → loop_ready env all busy l s →
  start_candidates env all busy l s = (r, s') → loop_done env all busy l s r s'.
Proof.
  intros Henv Hnames. revert busy s. induction l as [|x l IH]; intros busy s Hl.
  { intros [= <- <-]. split; [apply advance_refl; apply Hl|by left|].
    intros x c _ _ (_ & [|] & ? & ? & _); done. }
  destruct (lr_candidate _ _ _ _ _ Hl x) as (c & m & Hc & _); [left|].
  destruct x as [[q i] mid]. cbn [start_candidates]. unfold conversation_of in Hc. cbn in Hc. rewrite Hc.
  set (x := (q, i, mid)) in *. case_decide as Hbusy.
  { intros Hrun. eapply loop_done_skip; [done..|]. apply IH; [by eapply loop_skip|done]. }
  destruct (loop_claimable env all busy x l s c Hl Hc Hbusy) as (m' & Hmid & Hcl).
  unfold op_bind. destruct (attempt env c mid s) as [[[]|e] s1] eqn:Hat; intros Hrun.
  all: change mid with (candidate_id x) in Hat; rewrite <- Hmid in Hat.
  all: destruct (attempt_spec env s _ c m' _ s1 (lr_ok _ _ _ _ _ Hl) (lr_times _ _ _ _ _ Hl)
         Henv Hcl Hat) as (Ha & Hatt & Hleft); rewrite Hmid in *.
  - eapply loop_done_cons; [apply Hl|exact Hc|done|done|done|by apply Hleft|].
    apply IH; [|done]. by eapply loop_step.
  - injection Hrun as <- <-. by eapply loop_done_failed.
Qed.

(** ** The candidates *)

Definition candidates_from (offset : nat) (all : list AgentConversation) : list Candidate :=
  concat (imap (λ index c,
    (λ m, (sequence_or_max m, (offset + index)%nat, am_message_id m)) <$> queued_messages c) all).

Lemma candidates_from_cons offset c all :
  candidates_from offset (c :: all) =
  ((λ m, (sequence_or_max m, offset, am_message_id m)) <$> queued_messages c)
  ++ candidates_from (S offset) all.
Proof.
  unfold candidates_from. rewrite imap_cons. cbn [concat]. f_equal.
  - apply list_fmap_ext. intros _ m _. by rewrite Nat.add_0_r.
  - f_equal. apply imap_ext. intros i d _. cbn. apply list_fmap_ext. intros _ m _.
    do 2 f_equal. lia.
Qed.

Lemma elem_of_candidates_from offset all x :
  x ∈ candidates_from offset all ↔
  ∃ i c m, all !! i = Some c ∧ m ∈ cv_messages c ∧ am_status m = MQueued ∧
    x = (sequence_or_max m, (offset + i)%nat, am_message_id m).
Proof.
  revert offset; induction all as [|c all IH]; intros offset.
  { split; [by intros ?%elem_of_nil|]. by intros (i & c & m & Hi & _). }
  rewrite candidates_from_cons, elem_of_app, IH, list_elem_of_fmap. unfold queued_messages, is_queued.
  setoid_rewrite list_elem_of_filter. split.
  - intros [(m & -> & Hq%bool_decide_eq_true & Hm)|(i & d & m & Hi & Hm & Hq & ->)].
    + exists 0%nat, c, m. by rewrite Nat.add_0_r.
    + exists (S i), d, m. split_and!; try done. do 2 f_equal. lia.
  - intros ([|i] & d & m & Hi & Hm & Hq & ->).
    + left. injection Hi as ->. exists m. rewrite Nat.add_0_r. split_and!; [done| |done].
      by apply bool_decide_eq_true.
    + right. exists i, d, m. split_and!; try done. do 2 f_equal. lia.
Qed.

Lemma candidates_perm all : candidates all ≡ₚ candidates_from 0 all.
Proof. unfold candidates. by rewrite sort_by_perm. Qed.

Lemma elem_of_candidates all x :
  x ∈ candidates all ↔
  ∃ i c m, all !! i = Some c ∧ m ∈ cv_messages c ∧ am_status m = MQueued ∧
    x = (sequence_or_max m, i, am_message_id m).
Proof. by rewrite candidates_perm, elem_of_candidates_from. Qed.

Lemma candidates_ids s all :
  queue_ok s → NoDup (cv_conversation_id <$> all) →
  Forall (λ c, stored s (cv_conversation_id c) = Some c) all → NoDup (candidate_id <$> candidates all).
Proof.
  intros Hok Hnd Hall. rewrite candidates_perm. generalize 0%nat as offset.
  induction all as [|c all IH]; intros offset; [constructor|].
  cbn in Hnd. apply NoDup_cons in Hnd as [Hn Hnd]. apply Forall_cons in Hall as [Hc Hall].
  rewrite candidates_from_cons, fmap_app. apply NoDup_app. split_and!; [| |by apply IH].
  - rewrite <- list_fmap_compose. unfold queued_messages.
    apply (NoDup_fmap_filter am_message_id). by eapply ck_ids, stored_ok.
  - intros mid (x & -> & (m & -> & [_ Hm]%list_elem_of_filter)%list_elem_of_fmap)%list_elem_of_fmap
      (y & Hid & (i & d & m' & Hi & Hm' & _ & ->)%elem_of_candidates_from)%list_elem_of_fmap.
    cbn in Hid. apply Hn. assert (d ∈ all) as Hd by by eapply list_elem_of_lookup_2.
    pose proof (proj1 (Forall_forall _ _) Hall d Hd) as Hsd. cbn in Hsd.
    assert (cv_conversation_id c = cv_conversation_id d) as ->; [|by apply list_elem_of_fmap_2].
    by eapply (qo_ids s Hok _ m _ m'); [exists c|exists d|].
Qed.

Lemma candidates_sorted all : StronglySorted (cmp_le candidate_cmp) (candidates all).
Proof. apply sort_by_sorted. unfold candidate_cmp. apply _. Qed.

Lemma candidate_cmp_sequence (x y : Candidate) :
  cmp_le candidate_cmp x y → x.1.1 ≤ y.1.1.
Proof.
  destruct x as [[q i] a], y as [[q' j] b]. unfold cmp_le, candidate_cmp, pair_cmp, cmp_then. cbn.
  destruct (N.compare_spec q q'); cbn; [lia|lia|by intros []].
Qed.

(** ** A pump *)

(** The identifiers a pump draws are new to the store. *)
Record names_fresh (env : ConversationEnv) (s : ConversationStore) : Prop := {
  nf_distinct : names_distinct env;
  nf_assistant id : ¬ used s (cl_assistant (ce_claim env id));
  nf_session id id' m : messages_of s id' m →
    am_session_id m ≠ Some (en_fresh (cl_session (ce_claim env id)));
  nf_turn id t : t ∈ cs_turns s → tn_session t ≠ en_fresh (cl_session (ce_claim env id))
}.

Lemma recovers_message env c c' m' :
  recovers env c c' → m' ∈ cv_messages c' →
  ∃ m, m ∈ cv_messages c ∧ am_session_id m' = am_session_id m ∧
    (am_status m' = MQueued → m' = m).
Proof.
  intros [->|[-> _]]; [intros Hm; by exists m'|].
  intros (m & -> & Hm)%list_elem_of_fmap. exists m. unfold interrupted_message.
  split_and!; [done|by destruct (am_status m)|by destruct (am_status m)].
Qed.

Lemma recovers_queued env c c' m :
  recovers env c c' → m ∈ cv_messages c → am_status m = MQueued → m ∈ cv_messages c'.
Proof.
  intros [->|[-> _]]; [done|]. intros Hm Hq. apply list_elem_of_fmap. exists m. split; [|done].
  unfold interrupted_message. by rewrite Hq.
Qed.

Lemma recovers_workspace env c c' : recovers env c c' → cv_workspace_id c' = cv_workspace_id c.
Proof. by intros [->|[-> _]]. Qed.

(** The state in which a pump enters its loop. *)
Record pump_state (env : ConversationEnv) (s : ConversationStore) (all : list AgentConversation)
    (s' : ConversationStore) : Prop := {
  ps_advance : advance env nothing s s';
  ps_ready : loop_ready env all (busy_workspaces all) (candidates all) s';
  ps_turns : cs_turns s' = cs_turns s;
  ps_queued id c m : stored s id = Some c → m ∈ cv_messages c → am_status m = MQueued →
    ∃ i c', all !! i = Some c' ∧ m ∈ cv_messages c' ∧ cv_conversation_id c' = id ∧
      cv_workspace_id c' = cv_workspace_id c ∧ cv_repository_id c' = cv_repository_id c ∧
      stored s' id = Some c';
  ps_source c' m : c' ∈ all → m ∈ cv_messages c' → am_status m = MQueued →
    ∃ c, stored s (cv_conversation_id c') = Some c ∧ m ∈ cv_messages c ∧
      cv_workspace_id c = cv_workspace_id c';
  ps_busy w : w ∈ busy_workspaces all → ¬ idle s w
}.

Lemma elem_of_busy all w :
  w ∈ busy_workspaces all ↔
  ∃ c, c ∈ all ∧ is_Some (cv_active_session_id c) ∧ cv_workspace_id c = w.
Proof.
  unfold busy_workspaces. rewrite elem_of_list_to_set, list_elem_of_fmap.
  setoid_rewrite list_elem_of_filter. naive_solver.
Qed.

Section enter.
Variables (env : ConversationEnv) (s s1 s2 : ConversationStore) (all0 all : list AgentConversation).
Hypothesis Hd : same_disk s s1.
Hypothesis Hok1 : queue_ok s1.
Hypothesis Hwork : ∀ c, c ∈ all0 ↔ has_stored_work s (cv_conversation_id c) c.
Hypothesis Hnd0 : NoDup (cv_conversation_id <$> all0).
Hypothesis Hall : Forall2 (λ c c', recovers env c c' ∧ stored s2 (cv_conversation_id c) = Some c') all0 all.
Hypothesis Hrest : ∀ id, id ∉ cv_conversation_id <$> all0 → stored s2 id = stored s1 id.

Lemma enter_ids : cv_conversation_id <$> all = cv_conversation_id <$> all0.
Proof.
  revert Hall. generalize all0, all. induction 1 as [|c c' l k [Hr _] _ IH]; [done|].
  by rewrite !fmap_cons, (recovers_id _ _ _ Hr), IH.
Qed.

Lemma enter_stored c' : c' ∈ all → stored s2 (cv_conversation_id c') = Some c' ∧
  ∃ c, c ∈ all0 ∧ recovers env c c' ∧ stored s (cv_conversation_id c') = Some c.
Proof.
  intros [i Hi]%list_elem_of_lookup. destruct (Forall2_lookup_r _ _ _ _ _ Hall Hi) as (c & Hc & Hr & Hs).
  rewrite (recovers_id _ _ _ Hr). split; [done|]. apply list_elem_of_lookup_2 in Hc. exists c.
  split_and!; [done..|]. by apply Hwork.
Qed.

Lemma enter_work id c : stored s id = Some c → queue_ok s → conversation_has_work c = true →
  ∃ i c', all !! i = Some c' ∧ recovers env c c' ∧ cv_conversation_id c' = id ∧ stored s2 id = Some c'.
Proof.
  intros Hs Hok Hw. pose proof (stored_id _ _ _ Hok Hs) as Hid.
  assert (c ∈ all0) as [i Hi]%list_elem_of_lookup by (apply Hwork; by rewrite Hid).
  destruct (Forall2_lookup_l _ _ _ _ _ Hall Hi) as (c' & Hc' & Hr & Hs').
  exists i, c'. rewrite (recovers_id _ _ _ Hr). rewrite Hid in Hs' |- *. by split_and!.
Qed.

Lemma enter_idle w : queue_ok s → w ∉ busy_workspaces all → idle s2 w.
Proof.
  intros Hok Hw id c Hs Hcw. destruct (cv_active_session_id c) as [session|] eqn:Ha; [exfalso|done].
  destruct (decide (id ∈ cv_conversation_id <$> all0)) as [Hin|Hin].
  - apply list_elem_of_fmap in Hin as (c0 & -> & [i Hi]%list_elem_of_lookup).
    destruct (Forall2_lookup_l _ _ _ _ _ Hall Hi) as (c' & Hc' & Hr & Hs').
    apply Hw, elem_of_busy. exists c. split_and!; [|by eexists|done].
    assert (c' = c) as <- by congruence. by eapply list_elem_of_lookup_2.
  - rewrite Hrest, (same_disk_stored _ _ _ Hd) in Hs by done. apply Hin.
    apply list_elem_of_fmap. exists c. pose proof (stored_id _ _ _ Hok Hs) as Hid. split; [done|].
    apply Hwork. rewrite Hid. split; [done|]. unfold conversation_has_work. by rewrite Ha.
Qed.
End enter.

(** Queued messages stay as they are. *)
Definition keeps_queued (s s' : ConversationStore) : Prop :=
  ∀ id c m, stored s id = Some c → m ∈ cv_messages c → am_status m = MQueued →
    ∃ c', stored s' id = Some c' ∧ m ∈ cv_messages c'.

Lemma keeps_queued_refl s s' : same_disk s s' → keeps_queued s s'.
Proof. intros Hd id c m Hs Hm _. exists c. by rewrite (same_disk_stored _ _ _ Hd). Qed.

Lemma keeps_queued_trans s1 s2 s3 : keeps_queued s1 s2 → keeps_queued s2 s3 → keeps_queued s1 s3.
Proof. intros Ha Hb id c m Hs Hm Hq. destruct (Ha id c m Hs Hm Hq) as (c' & Hs' & Hm'). by apply (Hb id c' m). Qed.

Lemma recover_keeps env s id c r s' :
  queue_ok s → times_fresh env s → env_ok env → stored s id = Some c →
  recover_if_unowned env c s = (r, s') →
  keeps_queued s s' ∧ queue_ok s' ∧ times_fresh env s' ∧
  ∀ id', id' ≠ id → stored s' id' = stored s id'.
Proof.
  intros Hok Hf Henv Hs Hrun.
  destruct (moves_recover env nothing s id c Hok Hf Henv Hs r s' Hrun) as [[Hok' Hf' _ _] Hq].
  destruct r as [c'|e].
  - destruct (Hq c' eq_refl) as (Hs' & Hrec & Hch). split_and!; [|done|done|].
    + intros i d m Hd Hm Hqm. destruct (decide (i = id)) as [->|Hne].
      * exists c'. split; [done|]. assert (d = c) as -> by congruence. by eapply recovers_queued.
      * exists d. split; [|done]. destruct Hch as [->|Hch]; [done|]. by rewrite (ch_others _ _ _ _ Hch).
    + intros i Hne. destruct Hch as [->|Hch]; [done|]. by apply (ch_others _ _ _ _ Hch).
  - assert (s' = s) as ->; [|by split_and!; [apply keeps_queued_refl|..]].
    unfold recover_if_unowned in Hrun. repeat case_match; try done. by apply write_Err in Hrun as [-> _].
Qed.

Lemma recover_all_keeps env s all r s' :
  queue_ok s → times_fresh env s → env_ok env → NoDup (cv_conversation_id <$> all) →
  Forall (λ c, stored s (cv_conversation_id c) = Some c) all →
  op_map (recover_if_unowned env) all s = (r, s') → keeps_queued s s'.
Proof.
  intros Hok Hf Henv. revert s r s' Hok Hf. induction all as [|c all IH]; intros s r s' Hok Hf Hnd Hall; cbn.
  { intros [= <- <-]. by apply keeps_queued_refl. }
  cbn in Hnd. apply NoDup_cons in Hnd as [Hn Hnd]. apply Forall_cons in Hall as [Hc Hall].
  unfold op_bind. destruct (recover_if_unowned env c s) as [o s1] eqn:Hrec.
  destruct (recover_keeps _ _ _ _ _ _ Hok Hf Henv Hc Hrec) as (Hk & Hok1 & Hf1 & Hsame).
  destruct o as [c'|e]; [|by intros [= <- <-]].
  destruct (op_map _ all s1) as [o2 s2] eqn:Hmap.
  assert (keeps_queued s1 s2) as Hk2.
  { eapply IH; [..|exact Hmap]; try done. apply Forall_forall. intros d Hd.
    rewrite Hsame; [by eapply Forall_forall in Hall|]. intros Heq. apply Hn. rewrite <- Heq.
    by apply list_elem_of_fmap_2. }
  destruct o2 as [ys|e]; intros [= _ <-]; by eapply keeps_queued_trans.
Qed.

Lemma pump_enters env s r s' :
  queue_ok s → times_fresh env s → env_ok env → names_fresh env s →
  pump_agent_conversation_queue env s = (r, s') →
  (∃ all s2, pump_state env s all s2 ∧
     loop_done env all (busy_workspaces all) (candidates all) s2 r s') ∨
  (advance env nothing s s' ∧ keeps_queued s s' ∧ r ≠ Ok ()).
Proof.
  intros Hok Hf Henv Hnames. unfold pump_agent_conversation_queue, op_bind, op_lift.
  destruct (locked env); [|intros [= <- <-]; right; split_and!; [by apply advance_refl|by apply keeps_queued_refl|done]].
  destruct (work_conversations env s) as [o s1] eqn:Hw.
  destruct (moves_work env nothing s Hok Hf Henv _ _ Hw) as [Ha1 Hq1].
  destruct o as [all0|e].
  2: { intros [= <- <-]. right. split_and!; [done| |done]. apply keeps_queued_refl.
       destruct (work_conversations_spec _ _ _ _ Hok Hf (proj1 Henv) Hw) as (_ & Hd & _). done. }
  destruct (Hq1 all0 eq_refl) as (Hd & Ht1 & _ & Hnd & Hwork).
  pose proof (av_ok _ _ _ _ Ha1) as Hok1. pose proof (av_times _ _ _ _ Ha1) as Hf1.
  assert (Forall (λ c, stored s1 (cv_conversation_id c) = Some c) all0) as Hst0.
  { apply Forall_forall. intros c Hc%Hwork. rewrite (same_disk_stored _ _ _ Hd). by apply stored_work. }
  destruct (op_map _ all0 s1) as [o s2] eqn:Hmap.
  destruct (moves_recover_all env nothing s1 all0 Hok1 Hf1 Henv Hnd Hst0 _ _ Hmap) as [Ha2 Hq2].
  assert (advance env nothing s s2) as Ha by by eapply advance_trans.
  destruct o as [all|e].
  2: { intros [= <- <-]. right. split_and!; [done| |done].
       eapply keeps_queued_trans; [by apply keeps_queued_refl|by eapply recover_all_keeps]. }
  destruct (Hq2 all eq_refl) as (Hall & Hrest & Ht2).
  intros Hrun. left. exists all, s2.
  assert (NoDup (cv_conversation_id <$> all)) as Hnd' by by rewrite (enter_ids env s2 all0 all Hall).
  pose proof (λ c, enter_stored env s s2 all0 all Hwork Hall c) as Hst.
  assert (loop_ready env all (busy_workspaces all) (candidates all) s2) as Hready.
  { split; [apply Ha|apply Ha|done| | | | | |].
    - eapply candidates_ids; [apply Ha|done|]. apply Forall_forall. intros c Hc. by apply Hst.
    - intros x (i & c & m & Hi & Hm & Hq & ->)%elem_of_candidates. by exists c, m.
    - intros x c _ Hc%conversation_of_all Hb. split; [by apply Hst|]. by eapply enter_idle.
    - intros x _ [Hu|[]]%(av_used _ _ _ _ Ha). by eapply nf_assistant.
    - intros x c m _ Hc Hm. destruct (Hst c Hc) as (_ & c0 & _ & Hr & Hs0).
      destruct (recovers_message _ _ _ _ Hr Hm) as (m0 & Hm0 & -> & _). eapply nf_session; [done|]. by exists c0.
    - intros x t _. rewrite Ht2, Ht1. by eapply nf_turn. }
  split; [|by apply start_candidates_spec; [done|apply Hnames|..]].
  split; [done|done|congruence| | |].
  - intros id c m Hs Hm Hq.
    destruct (enter_work env s s2 all0 all Hwork Hall id c Hs Hok) as (i & c' & Hi & Hr & Hid & Hs').
    { unfold conversation_has_work. apply orb_true_iff. right. apply existsb_spec. exists m.
      split; [done|by apply bool_decide_eq_true]. }
    exists i, c'. split_and!; try done.
    + by eapply recovers_queued.
    + by eapply recovers_workspace.
    + by destruct Hr as [->|[-> _]].
  - intros c' m Hc' Hm Hq. destruct (Hst c' Hc') as (_ & c & _ & Hr & Hs).
    destruct (recovers_message _ _ _ _ Hr Hm) as (m0 & Hm0 & _ & Heq). rewrite (Heq Hq).
    exists c. split_and!; [done|done|]. by rewrite (recovers_workspace _ _ _ Hr).
  - intros w (c & Hc & Ha' & Hcw)%elem_of_busy Hidle. destruct (Hst c Hc) as (_ & c0 & _ & Hr & Hs0).
    rewrite (recovers_workspace _ _ _ Hr) in Hcw. pose proof (Hidle _ _ Hs0 Hcw) as Hnone.
    destruct Hr as [->|[-> _]]; [rewrite Hnone in Ha'|]; by destruct Ha'.
Qed.
End pump.
