(* ===== verification/ConversationHistory.v ===== *)
(** * Agent conversations: the order of the queue and histories

    A pump takes messages off the queue of a workspace in the order of their numbers, and takes
    the first one whenever nothing outside stands in the way.  Over any history of steps of the
    hosts the records stay readable, at most one turn runs in a workspace, and every message
    follows its lifecycle. *)

From S2P Require Import Prelude Order Text StoreBase Sessions.
From S2P Require Import Conversations ConversationStore ConversationQueue ConversationRules.
From S2P Require Import ConversationProofs ConversationSteps ConversationPump.

Local Open Scope N_scope.

Section history.
Context `{SessionJson} `{ConversationLibraries} `{CaptureLibraries} `{!ConversationLaws}.

(** ** The order of the queue *)

(** A message of the queue of a workspace. *)
Definition waits (s : ConversationStore) (workspace_id id : Uuid) (c : AgentConversation)
    (m : AgentConversationMessage) : Prop :=
  stored s id = Some c ∧ cv_workspace_id c = workspace_id ∧ m ∈ cv_messages c ∧
  am_status m = MQueued.

(** The message is no longer what it was in the queue. *)
Definition taken (s' : ConversationStore) (id : Uuid) (m : AgentConversationMessage) : Prop :=
  ∃ c', stored s' id = Some c' ∧ m ∉ cv_messages c'.

(** The candidate of a queued message. *)
Lemma waits_candidate env s all s' w id c m :
  pump_state env s all s' → waits s w id c m →
  ∃ x c', x ∈ candidates all ∧ conversation_of all x = Some c' ∧ candidate_id x = am_message_id m ∧
    x.1.1 = sequence_or_max m ∧ m ∈ cv_messages c' ∧ cv_conversation_id c' = id ∧
    cv_workspace_id c' = w ∧ cv_repository_id c' = cv_repository_id c ∧ stored s' id = Some c'.
Proof.
  intros Hps (Hs & Hw & Hm & Hq).
  destruct (ps_queued _ _ _ _ Hps id c m Hs Hm Hq) as (i & c' & Hi & Hm' & Hid & Hcw & Hcr & Hs').
  exists (sequence_or_max m, i, am_message_id m), c'. split_and!; try done; [|congruence].
  apply elem_of_candidates. by exists i, c', m.
Qed.

(** The queued message of a candidate. *)
Lemma candidate_waits env s all s' x c :
  pump_state env s all s' → x ∈ candidates all → conversation_of all x = Some c →
  ∃ c0 m, waits s (cv_workspace_id c) (cv_conversation_id c) c0 m ∧ m ∈ cv_messages c ∧
    am_message_id m = candidate_id x ∧ sequence_or_max m = x.1.1.
Proof.
  intros Hps (i & c' & m & Hi & Hm & Hq & ->)%elem_of_candidates Hc.
  unfold conversation_of in Hc. cbn in Hc. assert (c' = c) as -> by congruence.
  destruct (ps_source _ _ _ _ Hps c m) as (c0 & Hs & Hm0 & Hw);
    [by eapply list_elem_of_lookup_2|done..|].
  exists c0, m. by split_and!.
Qed.

(** Of two candidates of a workspace the first one in the list has the smaller number. *)
Lemma first_of_least all x c y d :
  first_of all (candidates all) x c → y ∈ candidates all → conversation_of all y = Some d →
  cv_workspace_id d = cv_workspace_id c → x.1.1 ≤ y.1.1.
Proof.
  intros (_ & pre & post & Heq & Hpre) Hy Hd Hw. pose proof (candidates_sorted all) as Hsort.
  rewrite Heq in Hy, Hsort. apply elem_of_app in Hy as [Hy|Hy]; [by destruct (Hpre y d Hy Hd)|].
  apply elem_of_cons in Hy as [->|Hy]; [done|]. apply StronglySorted_app in Hsort as (_ & _ & Hsort).
  apply StronglySorted_inv in Hsort as [_ Hall]. apply candidate_cmp_sequence.
  by apply (proj1 (Forall_forall _ _) Hall).
Qed.

(** The only message of its conversation a pump takes is the one it attempts. *)
Lemma taken_first env s all s2 r s' w id c m :
  pump_state env s all s2 → loop_done env all (busy_workspaces all) (candidates all) s2 r s' →
  waits s w id c m → taken s' id m →
  ∃ x d, first_of all (candidates all) x d ∧ (w ∉ busy_workspaces all) ∧
    cv_workspace_id d = w ∧ cv_conversation_id d = id ∧ x.1.1 = sequence_or_max m.
Proof.
  intros Hps Hld Hm (c' & Hs' & Hn).
  destruct (waits_candidate _ _ _ _ _ _ _ _ Hps Hm) as (z & e & _ & He & Hzid & Hzq & Hme & Hid & Hew & _ & Hs2).
  destruct (ld_changed _ _ _ _ _ _ _ Hld id) as [Hsame|(x & d & d' & Hx & Hb & Hdid & Hd' & Hkeep)].
  { rewrite Hsame, Hs2 in Hs'. injection Hs' as <-. done. }
  assert (d = e) as -> by (eapply (same_conversation all x z); [apply Hps|apply Hx|done|congruence]).
  assert (am_message_id m = candidate_id x) as Hmx.
  { destruct (decide (am_message_id m = candidate_id x)) as [|Hne]; [done|]. exfalso. apply Hn.
    assert (c' = d') as -> by congruence. by apply Hkeep. }
  exists x, e. split_and!; [done|congruence|done..|].
  assert (x ∈ candidates all) as Hin.
  { destruct Hx as (_ & pre & post & -> & _). apply elem_of_app. right. left. }
  destruct (candidate_waits _ _ _ _ _ _ Hps Hin (proj1 Hx)) as (c0 & m0 & _ & Hm0 & Hid0 & <-).
  f_equal. apply (NoDup_key_inj am_message_id (cv_messages e)); [|done..|congruence].
  eapply ck_ids, stored_ok; [apply Hps|exact Hs2].
Qed.

Lemma pump_fifo env s r s' w id c m id' c' m' :
  queue_ok s → times_fresh env s → env_ok env → names_fresh env s →
  pump_agent_conversation_queue env s = (r, s') →
  waits s w id c m → taken s' id m → waits s w id' c' m' →
  sequence_or_max m ≤ sequence_or_max m'.
Proof.
  intros Hok Hf Henv Hn Hrun Hm Ht Hm'.
  destruct (pump_enters env s r s' Hok Hf Henv Hn Hrun) as [(all & s2 & Hps & Hld)|(_ & Hk & _)].
  - destruct (taken_first _ _ _ _ _ _ _ _ _ _ Hps Hld Hm Ht) as (x & d & Hx & _ & Hw & _ & <-).
    destruct (waits_candidate _ _ _ _ _ _ _ _ Hps Hm') as (y & e & Hy & He & _ & <- & _ & _ & Hew & _).
    eapply first_of_least; [done..|congruence].
  - exfalso. destruct Hm as (Hs & _ & Hin & Hq), Ht as (c1 & Hs1 & Hnin).
    destruct (Hk id c m Hs Hin Hq) as (c2 & Hs2 & Hin2). congruence.
Qed.

(** A message waits with a number of its own. *)
Lemma waits_unique s w id c m w' id' c' m' :
  queue_ok s → waits s w id c m → waits s w' id' c' m' →
  sequence_or_max m = sequence_or_max m' → am_message_id m = am_message_id m'.
Proof.
  intros Hok (Hs & _ & Hm & Hq) (Hs' & _ & Hm' & Hq') Heq.
  destruct (ck_queued c (stored_ok _ _ _ Hok Hs) m Hm Hq) as [_ [q Hsq]].
  destruct (ck_queued c' (stored_ok _ _ _ Hok Hs') m' Hm' Hq') as [_ [q' Hsq']].
  unfold sequence_or_max in Heq. rewrite Hsq, Hsq' in Heq. cbn in Heq. subst q'.
  eapply (qo_sequences s Hok id m id' m' q); [by exists c|by exists c'|done..].
Qed.

(** The head of the queue of a workspace is the first candidate of it. *)
Lemma head_first env s all s2 w id c m :
  queue_ok s → pump_state env s all s2 → waits s w id c m →
  (∀ id' c' m', waits s w id' c' m' → sequence_or_max m ≤ sequence_or_max m') →
  ∃ x d, first_of all (candidates all) x d ∧ candidate_id x = am_message_id m ∧
    cv_conversation_id d = id ∧ cv_workspace_id d = w ∧ cv_repository_id d = cv_repository_id c.
Proof.
  intros Hok Hps Hm Hhead.
  destruct (waits_candidate _ _ _ _ _ _ _ _ Hps Hm)
    as (x & d & Hx & Hd & Hxid & Hxq & _ & Hid & Hw & Hr & _).
  exists x, d. split_and!; try done. apply list_elem_of_split in Hx as (pre & post & Heq).
  split; [done|]. exists pre, post. split; [done|]. intros y e Hy He Hew.
  assert (y ∈ candidates all) as Hyin by (rewrite Heq; apply elem_of_app; by left).
  destruct (candidate_waits _ _ _ _ _ _ Hps Hyin He) as (c0 & m0 & Hm0 & _ & Hid0 & Hq0).
  rewrite Hew, Hw in Hm0. pose proof (Hhead _ _ _ Hm0) as Hle.
  pose proof (candidates_sorted all) as Hsort. rewrite Heq in Hsort.
  assert (y.1.1 ≤ x.1.1) as Hle'.
  { apply candidate_cmp_sequence. eapply StronglySorted_app_1_elem_of; [exact Hsort|done|left]. }
  assert (candidate_id y = candidate_id x) as Hsame.
  { rewrite <- Hid0, Hxid. eapply waits_unique; [done..|lia]. }
  pose proof (lr_ids _ _ _ _ _ (ps_ready _ _ _ _ Hps)) as Hnd. rewrite Heq, fmap_app in Hnd.
  apply NoDup_app in Hnd as (_ & Hdisj & _). apply (Hdisj (candidate_id y)).
  - by apply list_elem_of_fmap_2.
  - rewrite Hsame. left.
Qed.

Lemma pump_progress env s s' w id c m :
  queue_ok s → times_fresh env s → env_ok env → names_fresh env s → leases_distinct →
  pump_agent_conversation_queue env s = (Ok (), s') →
  waits s w id c m → (∀ id' c' m', waits s w id' c' m' → sequence_or_max m ≤ sequence_or_max m') →
  idle s w → unhindered env (am_message_id m) → lease_free env s c →
  left_queue s' id (am_message_id m).
Proof.
  intros Hok Hf Henv Hn Hleases Hrun Hm Hhead Hidle Hun Hfree.
  destruct (pump_enters env s _ s' Hok Hf Henv Hn Hrun) as [(all & s2 & Hps & Hld)|(_ & _ & Hr)]; [|done].
  destruct (head_first _ _ _ _ _ _ _ _ Hok Hps Hm Hhead) as (x & d & Hx & Hxid & <- & Hw & Hr).
  rewrite <- Hxid. eapply ld_started; try done.
  - rewrite Hw. intros Hb%(ps_busy _ _ _ _ Hps). by apply Hb.
  - by rewrite Hxid.
  - unfold lease_free, lease_of. destruct Hm as (_ & Hcw & _).
    rewrite (ps_turns _ _ _ _ Hps), Hw, Hr, <- Hcw. exact Hfree.
Qed.

Lemma pump_advance env s r s' :
  queue_ok s → times_fresh env s → env_ok env → names_fresh env s →
  pump_agent_conversation_queue env s = (r, s') →
  advance env (λ x, ∃ id, assistant_of env id x) s s'.
Proof.
  intros Hok Hf Henv Hn Hrun.
  destruct (pump_enters env s r s' Hok Hf Henv Hn Hrun) as [(all & s2 & Hps & Hld)|(Ha & _)].
  - eapply advance_trans.
    + eapply advance_weaken; [|apply Hps]. by intros x [].
    + eapply advance_weaken; [|apply Hld]. intros x (y & _ & Hy). by eexists.
  - eapply advance_weaken; [|exact Ha]. by intros x [].
Qed.

(** ** Histories *)

(** What a step relies on: the listing of the directory is complete, a write changes the
    modification time, fresh identifiers are fresh, and only live turns report. *)
Definition env_fits (s : ConversationStore) (env : ConversationEnv) : Prop :=
  env_ok env ∧ times_fresh env s.

Definition step_allowed (s : ConversationStore) (step : ConversationStep) : Prop :=
  match step with
  | StepOpen env | StepCreate env _ _ _ | StepUpdate env _ _ _ _ _ | StepCancel env _ _ _ _
  | StepGet env _ | StepList env => env_fits s env
  | StepSend env _ _ => env_fits s env ∧ ¬ used s (ce_fresh env)
  | StepPump env => env_fits s env ∧ names_fresh env s
  | StepReport env turn _ | StepFinish env _ _ turn _ _ _ =>
      env_fits s env ∧ turn ∈ cs_turns s
  | StepHostStops _ | StepSession _ _ => True
  end.

Inductive conversation_step : ConversationStore → ConversationStore → Prop :=
| conversation_step_intro s step :
    step_allowed s step → conversation_step s (run_step step s).

Definition empty_directory : ConversationStore :=
  {| cs_files := ∅; cs_counter := None; cs_ledger := Absent; cs_caches := ∅; cs_turns := [] |}.

Definition reachable (s : ConversationStore) : Prop := rtc conversation_step empty_directory s.

(** What a step promises. *)
Definition moves_on (s s' : ConversationStore) : Prop :=
  queue_ok s' ∧ ∀ id c, stored s id = Some c → ∃ c', stored s' id = Some c' ∧ evolves c c'.

Lemma advance_moves_on env new s s' : advance env new s s' → moves_on s s'.
Proof. intros []. by split. Qed.

Lemma moves_moves_on {A} env new s (m : Op A) Q : moves env new s m Q → moves_on s (m s).2.
Proof.
  intros Hm. destruct (m s) as [r s'] eqn:Hrun. eapply advance_moves_on. by apply (Hm r s').
Qed.

Lemma same_disk_moves_on s s' :
  queue_ok s → same_disk s s' → cs_caches s' = cs_caches s →
  (∀ t, t ∈ cs_turns s' → t ∈ cs_turns s) → moves_on s s'.
Proof.
  intros Hok Hd Hc Ht. split.
  - eapply queue_ok_same_disk; [done|done|rewrite Hc; apply Hok|].
    intros t c Hin. apply Hok. by apply Ht.
  - intros id c. rewrite <- (same_disk_stored _ _ id Hd). intros Hs. by exists c.
Qed.

Lemma moves_on_trans s1 s2 s3 : moves_on s1 s2 → moves_on s2 s3 → moves_on s1 s3.
Proof.
  intros [_ Ha] [Hok Hb]. split; [done|]. intros id c Hs. destruct (Ha id c Hs) as (c' & Hs' & He).
  destruct (Hb id c' Hs') as (c'' & Hs'' & He'). exists c''. split; [done|]. by etrans.
Qed.

Lemma update_moves_on env s id edit :
  queue_ok s → env_fits s env → (∀ c, stored s id = Some c → good_change s id c (edit c) []) →
  moves_on s (update env id edit s).2.
Proof. intros Hok [Henv Hf] Hg. eapply moves_moves_on. by apply moves_update. Qed.

Lemma final_terminal error interrupted : is_terminal (final_status error interrupted) = true.
Proof. by destruct interrupted, error. Qed.

Lemma finish_moves_on env session retry s turn output error interrupted :
  queue_ok s → env_fits s env → turn ∈ cs_turns s →
  moves_on s (finish_conversation_turn env session retry turn output error interrupted s).2.
Proof.
  intros Hok Henv Ht. unfold finish_conversation_turn.
  set (s1 := (update _ _ _ s).2).
  assert (moves_on s s1) as Hm.
  { apply update_moves_on; [done..|]. intros c Hc. apply finish_good; [done..|apply final_terminal]. }
  eapply moves_on_trans; [exact Hm|]. apply same_disk_moves_on; [apply Hm|done|done|].
  cbn. by intros t [_ ?]%list_elem_of_filter.
Qed.

Lemma step_moves_on s step : queue_ok s → step_allowed s step → moves_on s (run_step step s).
Proof.
  intros Hok Hstep. destruct step as [env|env target artifacts request|env id request|
    env id mid rid old new|env id mid rid old|env id|env|env|env turn summary|
    env session retry turn output error interrupted|lost|env call]; cbn [run_step].
  - destruct Hstep. eapply moves_moves_on. by apply moves_open.
  - destruct Hstep. eapply moves_moves_on. by apply moves_create.
  - destruct Hstep as [[] ?]. eapply moves_moves_on. by apply moves_send.
  - destruct Hstep as [Henv Hf]. eapply moves_moves_on. unfold update_agent_conversation_message.
    apply moves_require; [done..|]. intros _. by apply (moves_mutate env).
  - destruct Hstep. eapply moves_moves_on. by apply (moves_mutate env).
  - destruct Hstep. eapply moves_moves_on. by apply (moves_get env nothing).
  - destruct Hstep. eapply moves_moves_on. by apply moves_list.
  - destruct Hstep as [[] ?]. destruct (pump_agent_conversation_queue env s) as [r s'] eqn:Hrun.
    eapply advance_moves_on. by eapply pump_advance.
  - destruct Hstep. apply update_moves_on; [done..|]. intros c Hc. by apply report_good.
  - destruct Hstep. by apply finish_moves_on.
  - apply same_disk_moves_on; [done..|]. cbn. by intros t [_ ?]%list_elem_of_filter.
  - by apply same_disk_moves_on.
Qed.

Lemma history_moves_on s s' : queue_ok s → rtc conversation_step s s' → moves_on s s'.
Proof.
  intros Hok. induction 1 as [s|s s1 s' Hst _ IH].
  { split; [done|]. intros id c Hs. by exists c. }
  destruct Hst as [s step Hstep]. pose proof (step_moves_on s step Hok Hstep) as Hm. eapply moves_on_trans; [exact Hm|].
  apply IH, Hm.
Qed.

Lemma empty_stored id : stored empty_directory id = None.
Proof. unfold stored. cbn. by rewrite lookup_empty. Qed.

Lemma empty_directory_ok : queue_ok empty_directory.
Proof.
  assert (∀ id m, ¬ messages_of empty_directory id m) as Hn
    by (intros id m (c & Hs & _); by rewrite empty_stored in Hs).
  split.
  - intros id file. cbn. by rewrite lookup_empty.
  - intros id1 m1 id2 m2 Hm. by apply Hn in Hm.
  - intros id1 m1 id2 m2 q Hm. by apply Hn in Hm.
  - exists 0. split; [split; [done|by left]|]. intros id m q Hm. by apply Hn in Hm.
  - intros id1 c1 id2 c2 Hs. by rewrite empty_stored in Hs.
  - intros host cache. cbn. by rewrite lookup_empty.
  - intros t c Ht. by apply elem_of_nil in Ht.
Qed.

Lemma reachable_queue_ok s : reachable s → queue_ok s.
Proof. intros Hr. by apply (history_moves_on empty_directory s empty_directory_ok Hr). Qed.
End history.
