(* ===== verification/ConversationPositions.v ===== *)
(** * Agent conversations: the positions of queued messages

    The positions the store shows are the ranks of the messages in the queue of their
    workspace: one more than the number of messages queued there before. *)

From S2P Require Import Prelude Order Text StoreBase Sessions.
From S2P Require Import Conversations ConversationStore ConversationQueue ConversationRules.
From S2P Require Import ConversationProofs ConversationSteps ConversationPump ConversationHistory.

Local Open Scope N_scope.

#[export] Instance queue_entry_total : TotalCmp queue_entry_cmp.
Proof. unfold queue_entry_cmp. apply _. Qed.

(** ** Ranks in a sorted list *)

Section rank.
Context {A : Type} (cmp : A → A → comparison) `{!TotalCmp cmp}.

(** How many elements come before [x]. *)
Definition before_count (x : A) (l : list A) : nat := length (filter (λ y, cmp y x = Lt) l).

Lemma before_count_perm x l k : l ≡ₚ k → before_count x l = before_count x k.
Proof. unfold before_count. by intros ->. Qed.

Lemma before_count_none x l : Forall (cmp_le cmp x) l → before_count x l = 0%nat.
Proof.
  intros Hall. unfold before_count. induction Hall as [|y l Hy _ IH]; [done|].
  rewrite filter_cons, decide_False; [done|]. intros Hlt. apply Hy.
  by rewrite (cmp_antisym cmp), Hlt.
Qed.

Lemma sorted_rank l i x :
  StronglySorted (cmp_le cmp) l → NoDup l → l !! i = Some x → before_count x l = i.
Proof.
  intros Hs Hnd. revert i. induction Hs as [|y l Hs IH Hy]; intros i Hi; [done|].
  apply NoDup_cons in Hnd as [Hn Hnd]. destruct i as [|i]; cbn in Hi.
  - injection Hi as ->. apply before_count_none. by constructor.
  - specialize (IH Hnd i Hi). apply list_elem_of_lookup_2 in Hi. unfold before_count in *.
    rewrite filter_cons, decide_True; [cbn; congruence|].
    pose proof (proj1 (Forall_forall _ _) Hy x Hi) as Hle. unfold cmp_le in Hle.
    destruct (cmp y x) eqn:Hc; [|done|done]. apply (cmp_eq cmp) in Hc. by subst.
Qed.

Lemma sort_by_rank l i x :
  NoDup l → sort_by cmp l !! i = Some x → before_count x l = i.
Proof.
  intros Hnd Hi. rewrite <- (before_count_perm x _ _ (sort_by_perm cmp l)).
  apply sorted_rank; [apply (sort_by_sorted cmp)| |done]. by rewrite (sort_by_perm cmp).
Qed.
End rank.

(** ** The numbering of one queue *)

Lemma number_from_other (entries : list (N * Uuid)) (n : nat) (positions : gmap Uuid N) id :
  id ∉ entries.*2 →
  foldl (λ positions entry, <[entry.2.2 := N.of_nat entry.1 + 1]> positions) positions
    (imap (λ i x, ((n + i)%nat, x)) entries) !! id = positions !! id.
Proof.
  revert n positions. induction entries as [|e l IH]; intros n positions Hid; [done|].
  rewrite fmap_cons, not_elem_of_cons in Hid. destruct Hid as [Hne Hid].
  rewrite imap_cons. cbn [foldl].
  rewrite (imap_ext _ (λ i x, ((S n + i)%nat, x))) by (intros; cbn; f_equal; lia).
  rewrite IH by done. by rewrite lookup_insert_ne.
Qed.

Lemma number_from_lookup (entries : list (N * Uuid)) (n : nat) (positions : gmap Uuid N) i e :
  NoDup entries.*2 → entries !! i = Some e →
  foldl (λ positions entry, <[entry.2.2 := N.of_nat entry.1 + 1]> positions) positions
    (imap (λ i x, ((n + i)%nat, x)) entries) !! e.2 = Some (N.of_nat (n + i) + 1).
Proof.
  revert n positions i. induction entries as [|d l IH]; intros n positions i Hnd Hi; [done|].
  rewrite fmap_cons, NoDup_cons in Hnd. destruct Hnd as [Hn Hnd].
  rewrite imap_cons. cbn [foldl].
  rewrite (imap_ext _ (λ i x, ((S n + i)%nat, x))) by (intros; cbn; f_equal; lia).
  destruct i as [|i]; cbn in Hi.
  - injection Hi as ->. rewrite number_from_other by done. cbn.
    rewrite lookup_insert_eq. by rewrite Nat.add_0_r.
  - rewrite (IH (S n) _ i) by done. f_equal. lia.
Qed.

Lemma imap_pair_from {A} (l : list A) : imap pair l = imap (λ i x, ((0 + i)%nat, x)) l.
Proof. by apply imap_ext. Qed.

Lemma number_queue_other positions queue id :
  id ∉ queue.*2 → number_queue positions queue !! id = positions !! id.
Proof.
  intros Hid. unfold number_queue. rewrite imap_pair_from. apply number_from_other.
  by rewrite (sort_by_perm queue_entry_cmp).
Qed.

Lemma NoDup_of_snd (l : list (N * Uuid)) : NoDup l.*2 → NoDup l.
Proof. apply NoDup_fmap_1. Qed.

Lemma number_queue_lookup positions queue e :
  NoDup queue.*2 → e ∈ queue →
  number_queue positions queue !! e.2 = Some (N.of_nat (before_count queue_entry_cmp e queue) + 1).
Proof.
  intros Hnd He. unfold number_queue. rewrite imap_pair_from.
  assert (e ∈ sort_by queue_entry_cmp queue) as [i Hi]%list_elem_of_lookup
    by by rewrite (sort_by_perm queue_entry_cmp).
  rewrite (sort_by_rank queue_entry_cmp queue i e) by (done || by apply NoDup_of_snd).
  apply (number_from_lookup _ 0); [|done]. by rewrite (sort_by_perm queue_entry_cmp).
Qed.

(** ** The queues of the workspaces *)

Definition queue_entries (c : AgentConversation) : list (N * Uuid) :=
  (λ m, (sequence_or_max m, am_message_id m)) <$> queued_messages c.

(** What is queued in a workspace. *)
Definition workspace_entries (workspace_id : Uuid) (all : list AgentConversation) :
    list (N * Uuid) :=
  filter (λ c, cv_workspace_id c = workspace_id) all ≫= queue_entries.

Lemma push_queue_lookup queues c w :
  default [] (push_queue queues c !! w) =
  default [] (queues !! w) ++ (if decide (cv_workspace_id c = w) then queue_entries c else []).
Proof.
  unfold push_queue, queue_entries. revert queues.
  induction (queued_messages c) as [|m l IH]; intros queues; cbn [foldl fmap list_fmap].
  - case_decide; by rewrite app_nil_r.
  - rewrite IH. case_decide as Hw.
    + subst w. rewrite lookup_insert_eq. cbn. by rewrite <- app_assoc.
    + by rewrite lookup_insert_ne.
Qed.

Lemma workspace_queues_from queues all w :
  default [] (foldl push_queue queues all !! w) =
  default [] (queues !! w) ++ workspace_entries w all.
Proof.
  revert queues. induction all as [|c all IH]; intros queues; cbn [foldl].
  - unfold workspace_entries. cbn. by rewrite app_nil_r.
  - rewrite IH, push_queue_lookup, <- app_assoc. f_equal. unfold workspace_entries.
    rewrite filter_cons. by case_decide.
Qed.

Lemma workspace_queues_lookup all w queue :
  workspace_queues all !! w = Some queue → queue = workspace_entries w all.
Proof.
  intros Hq. pose proof (workspace_queues_from ∅ all w) as Heq.
  fold (workspace_queues all) in Heq. rewrite Hq, lookup_empty in Heq. done.
Qed.

Lemma workspace_queues_some all w e :
  e ∈ workspace_entries w all → workspace_queues all !! w = Some (workspace_entries w all).
Proof.
  intros He. pose proof (workspace_queues_from ∅ all w) as Heq.
  fold (workspace_queues all) in Heq. rewrite lookup_empty in Heq. cbn in Heq.
  destruct (workspace_queues all !! w) as [q|]; cbn in Heq; [by subst|].
  rewrite <- Heq in He. by apply elem_of_nil in He.
Qed.

Lemma elem_of_workspace_entries w all e :
  e ∈ workspace_entries w all ↔
  ∃ c m, c ∈ all ∧ cv_workspace_id c = w ∧ m ∈ cv_messages c ∧ am_status m = MQueued ∧
    e = (sequence_or_max m, am_message_id m).
Proof.
  unfold workspace_entries, queue_entries, queued_messages, is_queued. rewrite list_elem_of_bind.
  setoid_rewrite list_elem_of_fmap. setoid_rewrite list_elem_of_filter.
  setoid_rewrite bool_decide_eq_true. naive_solver.
Qed.

(** ** All positions *)

Definition queued_ids (all : list AgentConversation) : list Uuid :=
  all ≫= λ c, am_message_id <$> queued_messages c.

Lemma queue_entries_ids c : (queue_entries c).*2 = am_message_id <$> queued_messages c.
Proof. unfold queue_entries. by rewrite <- list_fmap_compose. Qed.

Lemma elem_of_queued_ids all id :
  id ∈ queued_ids all ↔ ∃ c m, c ∈ all ∧ m ∈ cv_messages c ∧ am_status m = MQueued ∧ am_message_id m = id.
Proof.
  unfold queued_ids, queued_messages, is_queued. rewrite list_elem_of_bind.
  setoid_rewrite list_elem_of_fmap. setoid_rewrite list_elem_of_filter.
  setoid_rewrite bool_decide_eq_true. naive_solver.
Qed.

Lemma workspace_entries_NoDup w all : NoDup (queued_ids all) → NoDup (workspace_entries w all).*2.
Proof.
  induction all as [|c all IH]; [by constructor|]. unfold queued_ids. cbn [mbind list_bind].
  rewrite NoDup_app. intros (Hc & Hdisj & Hall). unfold workspace_entries. rewrite filter_cons.
  case_decide; [|by apply IH]. cbn [mbind list_bind]. rewrite fmap_app, queue_entries_ids.
  apply NoDup_app. split_and!; [done| |by apply IH]. intros id Hid Hin. apply (Hdisj id Hid).
  apply list_elem_of_fmap in Hin as (e & -> & He). apply elem_of_queued_ids.
  apply elem_of_workspace_entries in He as (d & m & Hd & _ & Hm & Hq & ->). by exists d, m.
Qed.

(** An identifier is queued in one workspace only. *)
Lemma queued_once all c m d m' :
  NoDup (queued_ids all) → c ∈ all → d ∈ all → m ∈ cv_messages c → m' ∈ cv_messages d →
  am_status m = MQueued → am_status m' = MQueued → am_message_id m = am_message_id m' → c = d.
Proof.
  induction all as [|x all IH]; intros Hnd Hc Hd Hm Hm' Hq Hq' Heq; [by apply elem_of_nil in Hc|].
  unfold queued_ids in Hnd. cbn [mbind list_bind] in Hnd. apply NoDup_app in Hnd as (_ & Hdisj & Hnd).
  assert (∀ y n, n ∈ cv_messages y → am_status n = MQueued → am_message_id n ∈ am_message_id <$> queued_messages y) as Hin.
  { intros y n Hn Hnq. apply list_elem_of_fmap_2, list_elem_of_filter. split; [by apply bool_decide_eq_true|done]. }
  apply elem_of_cons in Hc as [->|Hc], Hd as [->|Hd]; [done|..|by apply IH].
  - exfalso. apply (Hdisj (am_message_id m)); [by apply Hin|]. apply elem_of_queued_ids.
    exists d, m'. by split_and!.
  - exfalso. apply (Hdisj (am_message_id m')); [by apply Hin|]. apply elem_of_queued_ids.
    exists c, m. by split_and!.
Qed.

Lemma number_queues_other positions queues id :
  Forall (λ queue : list (N * Uuid), id ∉ queue.*2) queues →
  foldl number_queue positions queues !! id = positions !! id.
Proof.
  intros Hall. revert positions. induction Hall as [|q l Hq _ IH]; intros positions; [done|].
  cbn [foldl]. rewrite IH. by apply number_queue_other.
Qed.

Lemma number_queues_lookup queues queue e :
  queue ∈ queues → NoDup queue.*2 → e ∈ queue →
  (∀ q, q ∈ queues → e.2 ∈ q.*2 → q = queue) →
  foldl number_queue ∅ queues !! e.2 =
  Some (N.of_nat (before_count queue_entry_cmp e queue) + 1).
Proof.
  intros Hin Hnd He Hone. induction queues as [|q l IH] using rev_ind; [by apply elem_of_nil in Hin|].
  rewrite foldl_app. cbn [foldl]. destruct (decide (e.2 ∈ q.*2)) as [Hq|Hq].
  - rewrite (Hone q) by (done || apply elem_of_app; right; left). by apply number_queue_lookup.
  - rewrite number_queue_other by done. apply IH.
    + apply elem_of_app in Hin as [Hin|Hin]; [done|]. apply list_elem_of_singleton in Hin as ->.
      exfalso. apply Hq. by apply list_elem_of_fmap_2.
    + intros q' Hq'. apply Hone. apply elem_of_app. by left.
Qed.

Lemma elem_of_queues all queue :
  queue ∈ (snd <$> sort_by (cmp_on fst N.compare) (map_to_list (workspace_queues all))) →
  ∃ w, queue = workspace_entries w all.
Proof.
  intros ([w q] & -> & Hw)%list_elem_of_fmap. rewrite (elem_of_sort_by (cmp_on fst N.compare)) in Hw.
  apply elem_of_map_to_list in Hw. exists w. by apply workspace_queues_lookup.
Qed.

Lemma queue_positions_queued all c m :
  NoDup (queued_ids all) → c ∈ all → m ∈ cv_messages c → am_status m = MQueued →
  queue_positions all !! am_message_id m =
  Some (N.of_nat (before_count queue_entry_cmp (sequence_or_max m, am_message_id m)
                    (workspace_entries (cv_workspace_id c) all)) + 1).
Proof.
  intros Hnd Hc Hm Hq. set (w := cv_workspace_id c). set (e := (sequence_or_max m, am_message_id m)).
  assert (e ∈ workspace_entries w all) as He by (apply elem_of_workspace_entries; by exists c, m).
  unfold queue_positions. change (am_message_id m) with e.2.
  apply number_queues_lookup; [|by apply workspace_entries_NoDup|done|].
  - apply list_elem_of_fmap. exists (w, workspace_entries w all). split; [done|].
    rewrite (elem_of_sort_by (cmp_on fst N.compare)). apply elem_of_map_to_list. by eapply workspace_queues_some.
  - intros q (w' & ->)%elem_of_queues Hin. apply list_elem_of_fmap in Hin as (e' & Heq & He').
    apply elem_of_workspace_entries in He' as (d & m' & Hd & Hdw & Hm' & Hq' & ->).
    assert (c = d) as <- by by eapply (queued_once all c m d m').
    by rewrite <- Hdw.
Qed.

Lemma queue_positions_other all id : id ∉ queued_ids all → queue_positions all !! id = None.
Proof.
  intros Hid. unfold queue_positions. rewrite number_queues_other; [by rewrite lookup_empty|].
  apply Forall_forall. intros q (w & ->)%elem_of_queues Hin. apply Hid.
  apply list_elem_of_fmap in Hin as (e & -> & He).
  apply elem_of_workspace_entries in He as (d & m & Hd & _ & Hm & Hq & ->).
  apply elem_of_queued_ids. by exists d, m.
Qed.

(** ** The positions the store shows *)

Section shown.
Context `{SessionJson} `{ConversationLibraries} `{CaptureLibraries} `{!ConversationLaws}.

Lemma queued_ids_candidates offset all :
  queued_ids all = candidate_id <$> candidates_from offset all.
Proof.
  revert offset. induction all as [|c all IH]; intros offset; [done|].
  rewrite candidates_from_cons, fmap_app, <- (IH (S offset)), <- list_fmap_compose. done.
Qed.

(** The queue of the workspace of [c], and [c] with the position of each queued message. *)
Definition with_ranks (queue : list (N * Uuid)) (c : AgentConversation) : AgentConversation :=
  with_messages c
    ((λ m, with_position m
             (if is_queued m
              then Some (N.of_nat (before_count queue_entry_cmp
                                     (sequence_or_max m, am_message_id m) queue) + 1)
              else None)) <$> cv_messages c).

Definition queue_of (s : ConversationStore) (workspace_id : Uuid) (queue : list (N * Uuid)) : Prop :=
  NoDup queue ∧
  ∀ e, e ∈ queue ↔ ∃ id c m, waits s workspace_id id c m ∧ e = (sequence_or_max m, am_message_id m).

(** The conversations with work hold the queue of every workspace. *)
Lemma work_queue s all w :
  queue_ok s → NoDup (cv_conversation_id <$> all) →
  (∀ c, c ∈ all ↔ has_stored_work s (cv_conversation_id c) c) →
  NoDup (queued_ids all) ∧ queue_of s w (workspace_entries w all).
Proof.
  intros Hok Hnd Hall.
  assert (NoDup (queued_ids all)) as Hids.
  { rewrite (queued_ids_candidates 0), <- candidates_perm. eapply candidates_ids; [done..|].
    apply Forall_forall. intros c Hc. by apply Hall. }
  split; [done|]. split; [by apply NoDup_of_snd, workspace_entries_NoDup|].
  intros e. rewrite elem_of_workspace_entries. split.
  - intros (c & m & Hc & Hw & Hm & Hq & ->). exists (cv_conversation_id c), c, m.
    split; [|done]. apply Hall in Hc as [Hs _]. by split_and!.
  - intros (id & c & m & (Hs & Hw & Hm & Hq) & ->). exists c, m. split_and!; try done.
    apply Hall. pose proof (stored_id _ _ _ Hok Hs) as Hid. rewrite Hid. split; [done|].
    unfold conversation_has_work. apply orb_true_iff. right. apply existsb_spec. exists m.
    split; [done|by apply bool_decide_eq_true].
Qed.

Definition replaced (c d : AgentConversation) : AgentConversation :=
  if bool_decide (cv_conversation_id d = cv_conversation_id c) then c else d.

Lemma replace_first c all :
  NoDup (cv_conversation_id <$> all) →
  (fix replace (all : list AgentConversation) :=
     match all with
     | [] => []
     | value :: all' =>
         if bool_decide (cv_conversation_id value = cv_conversation_id c) then c :: all'
         else value :: replace all'
     end) all = replaced c <$> all.
Proof.
  induction all as [|d all IH]; intros Hnd; [done|].
  rewrite fmap_cons, NoDup_cons in Hnd. destruct Hnd as [Hn Hnd]. cbn. unfold replaced at 1.
  case_bool_decide as Hd; [|f_equal; by apply IH]. f_equal. symmetry.
  rewrite <- (list_fmap_id all) at 2. apply list_fmap_ext. intros i e He. unfold replaced.
  rewrite bool_decide_false; [done|]. intros Heq. apply Hn. rewrite Hd, <- Heq.
  apply list_elem_of_fmap_2. by eapply list_elem_of_lookup_2.
Qed.

Lemma fmap_queue_entries f all :
  (∀ c, queue_entries (f c) = queue_entries c) → (∀ c, cv_workspace_id (f c) = cv_workspace_id c) →
  (∀ w, workspace_entries w (f <$> all) = workspace_entries w all) ∧
  queued_ids (f <$> all) = queued_ids all.
Proof.
  intros He Hw. unfold queued_ids. split.
  - intros w. unfold workspace_entries. induction all as [|c all IH]; [done|].
    rewrite fmap_cons, !filter_cons, Hw. case_decide; [|done]. cbn [mbind list_bind]. by rewrite IH, He.
  - induction all as [|c all IH]; [done|]. cbn [fmap list_fmap mbind list_bind].
    rewrite <- !queue_entries_ids, He. by f_equal.
Qed.

(** A conversation whose positions are cleared. *)
Definition unplaced (c : AgentConversation) : AgentConversation :=
  with_messages c ((λ m, with_position m None) <$> cv_messages c).

Lemma queued_messages_unplaced c :
  queued_messages (unplaced c) = (λ m, with_position m None) <$> queued_messages c.
Proof.
  unfold queued_messages, unplaced. cbn [cv_messages with_messages].
  induction (cv_messages c) as [|m l IH]; [done|]. rewrite fmap_cons, !filter_cons.
  change (is_queued (with_position m None)) with (is_queued m). case_decide; cbn; congruence.
Qed.

Lemma queue_entries_unplaced c : queue_entries (unplaced c) = queue_entries c.
Proof. unfold queue_entries. by rewrite queued_messages_unplaced, <- list_fmap_compose. Qed.

Lemma filter_absent all id :
  id ∉ cv_conversation_id <$> all →
  filter (λ d, bool_decide (cv_conversation_id d = id) = true) all = [].
Proof.
  induction all as [|e all IH]; intros Hn; [done|].
  rewrite fmap_cons, not_elem_of_cons in Hn. destruct Hn as [Hne Hn].
  rewrite filter_cons, decide_False; [by apply IH|]. intros Heq%bool_decide_eq_true. by apply Hne.
Qed.

(** The list of conversations without repetitions holds [c] at one place. *)
Lemma filter_conversation all c :
  NoDup (cv_conversation_id <$> all) → c ∈ all →
  filter (λ d, bool_decide (cv_conversation_id d = cv_conversation_id c) = true) all = [c].
Proof.
  induction all as [|d all IH]; intros Hnd Hc; [by apply elem_of_nil in Hc|].
  rewrite fmap_cons, NoDup_cons in Hnd. destruct Hnd as [Hn Hnd]. rewrite filter_cons.
  apply elem_of_cons in Hc as [->|Hc].
  - rewrite decide_True by by apply bool_decide_eq_true. f_equal. by apply filter_absent.
  - rewrite decide_False; [by apply IH|]. intros Heq%bool_decide_eq_true. apply Hn. rewrite Heq.
    by apply list_elem_of_fmap_2.
Qed.

Lemma replaced_unplaced c all :
  NoDup (cv_conversation_id <$> all) → (∀ d, d ∈ all → cv_conversation_id d = cv_conversation_id c → d = c) →
  (∀ w, workspace_entries w (replaced (unplaced c) <$> all) = workspace_entries w all) ∧
  queued_ids (replaced (unplaced c) <$> all) = queued_ids all.
Proof.
  intros Hnd Hc.
  assert (replaced (unplaced c) <$> all =
    (λ d, if bool_decide (cv_conversation_id d = cv_conversation_id c) then unplaced d else d) <$> all) as ->.
  { apply list_fmap_ext. intros i d Hi. unfold replaced. cbn [cv_conversation_id unplaced with_messages].
    case_bool_decide as Hid; [|done]. by rewrite (Hc d (list_elem_of_lookup_2 _ _ _ Hi) Hid). }
  apply fmap_queue_entries; intros d; case_bool_decide; (done || apply queue_entries_unplaced).
Qed.

Lemma set_positions_conversation all c0 :
  NoDup (cv_conversation_id <$> all) → c0 ∈ all →
  filter (λ d, bool_decide (cv_conversation_id d = cv_conversation_id c0) = true) (set_queue_positions all)
  = [with_messages c0 ((λ m, with_position m (queue_positions all !! am_message_id m)) <$> cv_messages c0)].
Proof.
  intros Hnd Hc. unfold set_queue_positions. 
  set (f := λ c : AgentConversation, with_messages c
    ((λ m, with_position m (queue_positions all !! am_message_id m)) <$> cv_messages c)).
  change (cv_conversation_id c0) with (cv_conversation_id (f c0)).
  apply (filter_conversation (f <$> all) (f c0)).
  - by rewrite <- list_fmap_compose.
  - by apply list_elem_of_fmap_2.
Qed.

(** The positions of a conversation with work. *)
Lemma positions_ranks all c :
  NoDup (queued_ids all) → c ∈ all →
  (∀ d m m', d ∈ all → m ∈ cv_messages c → m' ∈ cv_messages d →
     am_message_id m = am_message_id m' → is_queued m = is_queued m') →
  with_messages c ((λ m, with_position m (queue_positions all !! am_message_id m)) <$> cv_messages c)
  = with_ranks (workspace_entries (cv_workspace_id c) all) c.
Proof.
  intros Hnd Hc Hsame. unfold with_ranks. f_equal. apply list_fmap_ext. intros i m Hi.
  apply list_elem_of_lookup_2 in Hi. destruct (is_queued m) eqn:Hq.
  - apply bool_decide_eq_true in Hq. by rewrite (queue_positions_queued all c m).
  - rewrite queue_positions_other; [done|].
    intros (d & m' & Hd & Hm' & Hq' & Hid)%elem_of_queued_ids.
    assert (is_queued m' = true) as Hq2 by by apply bool_decide_eq_true.
    rewrite <- (Hsame d m m' Hd Hi Hm' (eq_sym Hid)) in Hq2. congruence.
Qed.

Lemma with_ranks_idle queue c :
  conversation_has_work c = false → with_ranks queue c = unplaced c.
Proof.
  intros Hw. unfold conversation_has_work in Hw. apply orb_false_iff in Hw as [_ Hw].
  unfold with_ranks, unplaced. f_equal. apply list_fmap_ext. intros i m Hi.
  destruct (is_queued m) eqn:Hq; [|done]. exfalso.
  assert (existsb is_queued (cv_messages c) = true) as Hx; [|congruence].
  apply existsb_spec. exists m. split; [by eapply list_elem_of_lookup_2|done].
Qed.

Lemma with_ranks_unplaced queue c : with_ranks queue (unplaced c) = with_ranks queue c.
Proof.
  unfold with_ranks, unplaced. cbn [cv_messages with_messages].
  by rewrite <- list_fmap_compose.
Qed.

Lemma positions_spec env s id c c' s' :
  queue_ok s → times_fresh env s → env_ok env → stored s id = Some c →
  set_conversation_queue_positions env c s = (Ok c', s') →
  same_disk s s' ∧ ∃ queue, queue_of s (cv_workspace_id c) queue ∧ c' = with_ranks queue c.
Proof.
  intros Hok Hf Henv Hs Hrun. pose proof (stored_id _ _ _ Hok Hs) as Hid.
  unfold set_conversation_queue_positions, op_bind in Hrun.
  destruct (work_conversations env s) as [[all|e] s1] eqn:Hw; [|done].
  destruct (moves_work env nothing s Hok Hf Henv _ _ Hw) as [_ Hq].
  destruct (Hq all eq_refl) as (Hd & _ & _ & Hnd & Hall).
  change (with_messages c ((λ m, with_position m None) <$> cv_messages c)) with (unplaced c) in Hrun.
  rewrite replace_first in Hrun by done. injection Hrun as <- <-. split; [done|].
  destruct (work_queue s all (cv_workspace_id c) Hok Hnd Hall) as [Hids Hqueue].
  exists (workspace_entries (cv_workspace_id c) all). split; [done|].
  assert (∀ d, d ∈ all → cv_conversation_id d = cv_conversation_id c → d = c) as Honly.
  { intros d [Hsd _]%Hall Heq. congruence. }
  destruct (replaced_unplaced c all Hnd Honly) as [He Hi].
  cbn [cv_conversation_id unplaced with_messages]. destruct (conversation_has_work c) eqn:Hwork.
  - assert (c ∈ all) as Hc by (apply Hall; by rewrite Hid).
    set (all' := replaced (unplaced c) <$> all).
    assert (cv_conversation_id <$> all' = cv_conversation_id <$> all) as Hconv.
    { unfold all'. rewrite <- list_fmap_compose. apply list_fmap_ext. intros i d _.
      unfold replaced; cbn. by case_bool_decide. }
    assert (unplaced c ∈ all') as Hc'.
    { apply list_elem_of_fmap. exists c. split; [|done]. unfold replaced. by rewrite bool_decide_true. }
    pose proof (set_positions_conversation all' (unplaced c) ltac:(by rewrite Hconv) Hc') as Hset.
    change (cv_conversation_id (unplaced c)) with (cv_conversation_id c) in Hset. rewrite Hset.
    cbn [head default]. rewrite positions_ranks; [|by unfold all'; rewrite Hi|done|].
    + cbn [cv_workspace_id unplaced with_messages]. unfold all'. rewrite He. apply with_ranks_unplaced.
    + intros d m m' (d0 & -> & Hd0)%list_elem_of_fmap Hm Hm' Heq.
      assert (∀ x y, x ∈ cv_messages (unplaced y) → ∃ x0, x0 ∈ cv_messages y ∧
        am_message_id x = am_message_id x0 ∧ is_queued x = is_queued x0) as Hun
        by (intros x y (x0 & -> & ?)%list_elem_of_fmap; by exists x0).
      destruct (Hun _ _ Hm) as (m0 & Hm0 & Hid0 & ->).
      assert (∃ m1, m1 ∈ cv_messages d0 ∧ am_message_id m' = am_message_id m1 ∧ is_queued m' = is_queued m1)
        as (m1 & Hm1 & Hid1 & ->).
      { unfold replaced in Hm'. case_bool_decide as Hdc; [|by exists m'].
        rewrite (Honly d0) by done. by apply Hun. }
      f_equal. apply Hall in Hd0 as [Hsd _].
      eapply (same_message s id m0 (cv_conversation_id d0) m1); [done|by exists c|by exists d0|congruence].
  - rewrite with_ranks_idle by done.
    assert (cv_conversation_id c ∉ cv_conversation_id <$> all) as Hn.
    { intros (d & Heq & Hd0)%list_elem_of_fmap. rewrite (Honly d Hd0 (eq_sym Heq)) in Hd0.
      apply Hall in Hd0 as [_ Hx]. congruence. }
    rewrite filter_absent; [done|]. intros (d & Heq & Hd0)%list_elem_of_fmap. apply Hn.
    unfold set_queue_positions in Hd0. apply list_elem_of_fmap in Hd0 as (d1 & -> & Hd1).
    apply list_elem_of_fmap in Hd1 as (d2 & -> & Hd2). rewrite Heq. cbn [cv_conversation_id with_messages].
    unfold replaced. cbn [cv_conversation_id unplaced with_messages].
    case_bool_decide as Hx; cbn; [rewrite <- Hx|]; by apply list_elem_of_fmap_2.
Qed.

(** What [get] answers: the stored conversation with the ranks of its queued messages. *)
Lemma get_positions env s id c' s' :
  queue_ok s → env_fits s env → get_agent_conversation env id s = (Ok c', s') →
  ∃ c queue, stored s' id = Some c ∧ queue_of s' (cv_workspace_id c) queue ∧ c' = with_ranks queue c.
Proof.
  intros Hok [Henv Hf]. unfold get_agent_conversation.
  unfold op_bind at 1, op_lift. destruct (locked env) as [[]|]; [|done].
  unfold op_bind at 1. destruct (read env id s) as [o s1] eqn:Hread.
  destruct (moves_read env nothing s id Hok Hf _ _ Hread) as [_ Hq]. destruct o as [c0|]; [|done].
  destruct (Hq c0 eq_refl) as [-> Hc0].
  unfold op_bind. destruct (recover_if_unowned env c0 s) as [o s2] eqn:Hrec.
  destruct (moves_recover env nothing s id c0 Hok Hf Henv Hc0 _ _ Hrec) as [[Hok2 Hf2 _ _] Hq2].
  destruct o as [c|]; [|done]. destruct (Hq2 c eq_refl) as (Hc & _ & _). intros Hrun.
  destruct (positions_spec env s2 id c c' s' Hok2 Hf2 Henv Hc Hrun) as (Hd & queue & [Hnd Hin] & ->).
  exists c, queue. rewrite (same_disk_stored _ _ _ Hd). split_and!; [done| |done]. split; [done|].
  intros e. rewrite Hin. unfold waits. by setoid_rewrite (same_disk_stored _ _ _ Hd).
Qed.
End shown.
