(* ===== verification/ConversationFeedback.v ===== *)
(** * Agent conversations: the earlier turns an agent is shown

    [prior_feedback] keeps the latest eligible turns with a bounded set while it scans the
    other conversations: the result is the end of the sorted list of all of them.  Of these the
    latest that fit into a megabyte are shown, and the rest is counted. *)

From S2P Require Import Prelude Order Text StoreBase Sessions.
From S2P Require Import Conversations ConversationStore ConversationQueue ConversationRules.
From S2P Require Import ConversationProofs ConversationSteps ConversationPump ConversationHistory.

Local Open Scope N_scope.

(** ** A bounded set of the greatest elements *)

(** The last [n] elements. *)
Definition last_n {A} (n : nat) (l : list A) : list A := drop (length l - n) l.

(** Drop the first element of a list that has grown past [n]. *)
Definition trim_to {A} (n : nat) (l : list A) : list A := if (n <? length l)%nat then tail l else l.

Lemma last_n_app {A} n (l k : list A) : length k = n → last_n n (l ++ k) = k.
Proof. intros <-. unfold last_n. rewrite length_app, Nat.add_sub. apply drop_app_length. Qed.

Lemma last_n_short {A} n (l : list A) : (length l ≤ n)%nat → last_n n l = l.
Proof. intros Hl. unfold last_n. replace (length l - n)%nat with 0%nat by lia. done. Qed.

Lemma trim_last {A} n (l : list A) : length l = S n → trim_to n l = last_n n l.
Proof.
  intros Hl. unfold trim_to, last_n. rewrite Hl, (proj2 (Nat.ltb_lt _ _)) by lia.
  replace (S n - n)%nat with 1%nat by lia. by destruct l.
Qed.

Lemma last_n_tail {A} n (l k : list A) : length k = S n → last_n n (l ++ k) = last_n n k.
Proof.
  intros Hk. destruct k as [|x k]; [done|]. injection Hk as Hk.
  change (l ++ x :: k) with (l ++ ([x] ++ k)). rewrite app_assoc.
  rewrite last_n_app by done. change (x :: k) with ([x] ++ k). by rewrite last_n_app.
Qed.

Section bounded.
Context {A : Type} (cmp : A → A → comparison) `{!TotalCmp cmp}.

Lemma length_insert_by x l : length (insert_by cmp x l) = S (length l).
Proof. by rewrite (insert_by_perm cmp). Qed.

(** Insertion goes into the second part when all of the first is smaller. *)
Lemma insert_by_app x l k :
  (Forall (λ y, cmp x y = Gt) l → insert_by cmp x (l ++ k) = l ++ insert_by cmp x k) ∧
  (¬ Forall (λ y, cmp x y = Gt) l → insert_by cmp x (l ++ k) = insert_by cmp x l ++ k).
Proof.
  induction l as [|y l [IHl IHr]]; [split; [done|]; intros []; by constructor|]. cbn [insert_by app].
  destruct (cmp x y) eqn:Hc; split; intros Hf; try done;
    try (apply Forall_cons in Hf as [Hf _]; congruence).
  - apply Forall_cons in Hf as [_ Hf]. by rewrite IHl.
  - rewrite IHr; [done|]. intros Hl. apply Hf. by constructor.
Qed.

Lemma insert_by_least x l : Forall (cmp_le cmp x) l → insert_by cmp x l = x :: l.
Proof.
  destruct l as [|y l]; [done|]. intros [Hy _]%Forall_cons. cbn. unfold cmp_le in Hy.
  by destruct (cmp x y).
Qed.

(** Trimming after each insertion keeps the end of the whole sorted list. *)
Lemma insert_trim n x l :
  StronglySorted (cmp_le cmp) l →
  trim_to n (insert_by cmp x (last_n n l)) = last_n n (insert_by cmp x l).
Proof.
  intros Hs. destruct (decide (length l ≤ n)%nat) as [Hle|Hgt].
  - rewrite (last_n_short n l) by done. destruct (decide (length l = n)) as [Heq|Hne].
    + apply trim_last. rewrite length_insert_by. by f_equal.
    + unfold trim_to. rewrite length_insert_by, (proj2 (Nat.ltb_ge _ _)) by lia.
      symmetry. apply last_n_short. rewrite length_insert_by. lia.
  - pose (a := take (length l - n) l). pose (b := last_n n l).
    assert (l = a ++ b) as Hl by (symmetry; apply take_drop).
    assert (length b = n) as Hb by (unfold b, last_n; rewrite length_drop; lia).
    fold b. clearbody a b. subst l. destruct (insert_by_app x a b) as [Hin Hout].
    destruct (decide (Forall (λ y, cmp x y = Gt) a)) as [Ha|Ha].
    + rewrite Hin by done. rewrite last_n_tail by (rewrite length_insert_by; by f_equal).
      apply trim_last. rewrite length_insert_by. by f_equal.
    + rewrite Hout by done. rewrite last_n_app by done.
      rewrite insert_by_least; [unfold trim_to; cbn [length]; rewrite (proj2 (Nat.ltb_lt _ _)) by lia; done|].
      apply not_Forall_Exists in Ha; [|intros; apply _]. apply Exists_exists in Ha as (y & Hy & Hc).
      apply Forall_forall. intros z Hz. trans y; [done|].
      eapply StronglySorted_app_1_elem_of; [exact Hs|done|done].
Qed.
End bounded.

(** ** The scan *)

#[export] Instance turn_key_total : TotalCmp turn_key_cmp.
Proof. unfold turn_key_cmp. apply _. Qed.

Lemma dedup_NoDup {A} `{EqDecision A} (l : list A) : NoDup l → dedup l = l.
Proof.
  destruct l as [|x l]; [done|]. intros Hnd. unfold dedup, dedup_by. f_equal. revert x Hnd.
  induction l as [|y l IH]; intros x Hnd; [done|]. cbn.
  apply NoDup_cons in Hnd as [Hx Hnd]. rewrite bool_decide_false; [f_equal; by apply IH|].
  intros ->. apply Hx. left.
Qed.

Lemma last_n_sublist {A} n (l : list A) : sublist (last_n n l) l.
Proof. apply sublist_drop. Qed.

Lemma set_insert_sorted key recent :
  NoDup (key :: recent) → StronglySorted (cmp_le turn_key_cmp) recent →
  set_insert key recent = insert_by turn_key_cmp key recent.
Proof.
  intros Hnd Hs. unfold set_insert. rewrite dedup_NoDup; [|by rewrite (sort_by_perm turn_key_cmp)].
  cbn [sort_by]. by rewrite (sort_by_id turn_key_cmp).
Qed.

Lemma StronglySorted_last_n {A} (R : relation A) n l : StronglySorted R l → StronglySorted R (last_n n l).
Proof.
  intros Hs. unfold last_n. rewrite <- (take_drop (length l - n) l) in Hs at 1.
  by apply StronglySorted_app_1_r in Hs.
Qed.

Lemma note_turn_last keys key :
  NoDup (keys ++ [key]) →
  note_turn (length keys, last_n MAX_PRIOR_FEEDBACK_TURNS (sort_by turn_key_cmp keys)) key =
  (length (keys ++ [key]), last_n MAX_PRIOR_FEEDBACK_TURNS (sort_by turn_key_cmp (keys ++ [key]))).
Proof.
  intros Hnd. unfold note_turn. cbn [fst snd].
  pose proof (sort_by_sorted turn_key_cmp keys) as Hs.
  rewrite set_insert_sorted; [| |by apply StronglySorted_last_n].
  - f_equal; [rewrite length_app; cbn; lia|].
    etrans; [apply (insert_trim turn_key_cmp MAX_PRIOR_FEEDBACK_TURNS key _ Hs)|]. f_equal.
    change (insert_by turn_key_cmp key (sort_by turn_key_cmp keys)) with (sort_by turn_key_cmp (key :: keys)).
    apply (sort_by_perm_total turn_key_cmp). by rewrite Permutation_app_comm.
  - rewrite Permutation_app_comm in Hnd. cbn in Hnd. apply NoDup_cons in Hnd as [Hn Hnd].
    assert (sublist (last_n MAX_PRIOR_FEEDBACK_TURNS (sort_by turn_key_cmp keys)) (sort_by turn_key_cmp keys))
      as Hsub by apply last_n_sublist.
    apply NoDup_cons. split.
    + intros Hin. apply Hn. rewrite <- (sort_by_perm turn_key_cmp). by eapply elem_of_sublist.
    + eapply sublist_NoDup; [|exact Hsub]. by rewrite (sort_by_perm turn_key_cmp).
Qed.

Lemma fold_note_turn keys :
  NoDup keys →
  foldl note_turn (0%nat, []) keys =
  (length keys, last_n MAX_PRIOR_FEEDBACK_TURNS (sort_by turn_key_cmp keys)).
Proof.
  induction keys as [|key keys IH] using rev_ind; intros Hnd; [done|].
  rewrite foldl_app, IH; [by apply note_turn_last|]. by apply NoDup_app in Hnd as [? _].
Qed.

(** All the turns that count as earlier feedback. *)
Definition all_eligible (current : AgentConversation) (latest : AgentConversationMessage)
    (others : list AgentConversation) : list TurnKey :=
  filter (λ other, feedback_scope current other = true) others
    ≫= eligible_turns (list_to_set (omap am_request_id (cv_messages current))) latest.

Lemma scan_feedback_last current latest others :
  NoDup (all_eligible current latest others) →
  scan_feedback current latest others =
  (length (all_eligible current latest others),
   last_n MAX_PRIOR_FEEDBACK_TURNS (sort_by turn_key_cmp (all_eligible current latest others))).
Proof. apply fold_note_turn. Qed.

(** ** The selection *)

Lemma sublist_reversed {A} (l k : list A) : sublist l k → sublist (reverse l) (reverse k).
Proof.
  induction 1 as [|x l k _ IH|x l k _ IH]; [done|..]; rewrite ?reverse_cons.
  - by apply sublist_app.
  - by apply sublist_inserts_r.
Qed.

Section select.
Context {A : Type} (size : A → N) (base : N).

(** The bytes of a list of turns, with a separator between two of them. *)
Definition listed_bytes (l : list A) : N :=
  base + N.of_nat (pred (length l)) + foldr (λ x n, size x + n) 0 l.

Lemma sizes_snoc l x : foldr (λ x n, size x + n) 0 (l ++ [x]) = foldr (λ x n, size x + n) 0 l + size x.
Proof. induction l as [|y l IH]; cbn; [lia|]. rewrite IH. lia. Qed.

Lemma sizes_perm l k : l ≡ₚ k → foldr (λ x n, size x + n) 0 l = foldr (λ x n, size x + n) 0 k.
Proof. induction 1; cbn; lia. Qed.

Lemma listed_bytes_snoc l x :
  listed_bytes (l ++ [x]) = listed_bytes l + (if bool_decide (length l = 0%nat) then 0 else 1) + size x.
Proof.
  unfold listed_bytes. rewrite sizes_snoc, length_app. cbn [length].
  case_bool_decide; lia.
Qed.

(** The state of the loop after the turns [seen]. *)
Record selected (eligible : nat) (seen : list A) (state : list A * N * nat) : Prop := {
  sel_sublist : sublist state.1.1 seen;
  sel_bytes : state.1.2 = listed_bytes state.1.1;
  sel_bound : base ≤ MAX_PRIOR_FEEDBACK_BYTES → state.1.2 ≤ MAX_PRIOR_FEEDBACK_BYTES;
  sel_count : (length seen ≤ eligible)%nat → (state.2 + length state.1.1 = eligible)%nat;
  sel_all : listed_bytes seen ≤ MAX_PRIOR_FEEDBACK_BYTES → state.1.1 = seen
}.

Lemma listed_bytes_mono l x : listed_bytes l ≤ listed_bytes (l ++ [x]).
Proof. rewrite listed_bytes_snoc. lia. Qed.

Lemma keep_turn_selected eligible seen state x :
  selected eligible seen state → selected eligible (seen ++ [x]) (keep_turn size state x).
Proof.
  destruct state as [[turns bytes] omitted]. intros [Hsub Hbytes Hbound Hcount Hall]. cbn in *.
  unfold keep_turn. subst bytes. rewrite <- listed_bytes_snoc. destruct (N.leb_spec (listed_bytes (turns ++ [x])) MAX_PRIOR_FEEDBACK_BYTES) as [Hle|Hgt].
  - split; cbn [fst snd].
    + by apply sublist_app.
    + done.
    + done.
    + rewrite !length_app. cbn [length]. intros Hlen. specialize (Hcount ltac:(lia)).
      pose proof (sublist_length _ _ Hsub). lia.
    + intros Hfit. rewrite Hall; [done|]. pose proof (listed_bytes_mono seen x). lia.
  - split; cbn [fst snd].
    + by apply sublist_inserts_r.
    + done.
    + done.
    + rewrite length_app. cbn [length]. intros Hlen. apply Hcount. lia.
    + intros Hfit. pose proof (listed_bytes_mono seen x). rewrite Hall in Hgt by lia. lia.
Qed.

Lemma select_feedback_spec eligible recent turns omitted :
  (length recent ≤ eligible)%nat → select_feedback size base eligible recent = (turns, omitted) →
  sublist turns recent ∧ (omitted + length turns = eligible)%nat ∧
  (base ≤ MAX_PRIOR_FEEDBACK_BYTES → listed_bytes turns ≤ MAX_PRIOR_FEEDBACK_BYTES) ∧
  (listed_bytes recent ≤ MAX_PRIOR_FEEDBACK_BYTES → turns = recent).
Proof.
  intros Hlen. unfold select_feedback. destruct (foldl _ _ _) as [[kept bytes] left] eqn:Hfold.
  assert (selected eligible (reverse recent) (kept, bytes, left)) as [Hsub Hbytes Hbound Hcount Hall].
  { rewrite <- Hfold. clear. generalize (reverse recent) as l. intros l.
    induction l as [|x l IH] using rev_ind; [|rewrite foldl_app; by apply keep_turn_selected].
    split; cbn; [done|unfold listed_bytes; cbn; lia|done|lia|done]. }
  cbn in *. subst bytes. intros [= <- <-].
  assert (∀ l, listed_bytes (reverse l) = listed_bytes l) as Hrev.
  { intros l. unfold listed_bytes. rewrite length_reverse. by rewrite (sizes_perm (reverse l) l) by apply reverse_Permutation. }
  rewrite length_reverse in *. rewrite Hrev in *. split_and!.
  - apply sublist_reversed in Hsub. by rewrite reverse_involutive in Hsub.
  - by apply Hcount.
  - done.
  - intros Hfit. rewrite (Hall Hfit). apply reverse_involutive.
Qed.
End select.

(** ** The whole of [prior_feedback] *)

Section feedback.
Context `{SessionJson} `{ConversationLibraries} `{CaptureLibraries} `{!ConversationLaws}.

Lemma moves_read_all env s l r s' :
  queue_ok s → times_fresh env s → op_map (read env) l s = (r, s') →
  s' = s ∧ ∀ all, r = Ok all → Forall2 (λ id c, stored s id = Some c) l all.
Proof.
  intros Hok Hf. revert r s'. induction l as [|id l IH]; intros r s'; cbn [op_map].
  { intros [= <- <-]. split; [done|]. intros all [= <-]. constructor. }
  unfold op_bind. destruct (read env id s) as [o s1] eqn:Hread.
  destruct (moves_read env nothing s id Hok Hf _ _ Hread) as [_ Hq].
  assert (s1 = s) as -> by by injection Hread.
  destruct o as [c|e]; [|by intros [= <- <-]]. destruct (Hq c eq_refl) as [_ Hc].
  destruct (op_map (read env) l s) as [o s2] eqn:Hmap. destruct (IH _ _ eq_refl) as [-> Hall].
  destruct o as [cs|e]; intros [= <- <-]; split; try done. intros all [= <-]. constructor; [done|by apply Hall].
Qed.

Lemma collect_Ok {A B E} (f : A → result B E) l k :
  collect f l = Ok k → Forall2 (λ x y, f x = Ok y) l k.
Proof.
  revert k. induction l as [|x l IH]; intros k; cbn; [by intros [= <-]|].
  intros (y & Hy & (ys & Hys & [= <-])%rbind_Ok)%rbind_Ok. constructor; auto.
Qed.

Lemma eligible_id requests latest c key :
  key ∈ eligible_turns requests latest c →
  ∃ m, m ∈ cv_messages c ∧ key.1.2 = cv_conversation_id c ∧ key.2 = am_message_id m ∧
    is_earlier m latest = true ∧ feedback_turn_is_terminal c m = true ∧ is_user m = true.
Proof.
  intros (m & -> & [Hm Hin]%list_elem_of_filter)%list_elem_of_fmap. exists m.
  apply andb_true_iff in Hm as [[He _]%andb_true_iff Ht]. split_and!; try done.
  unfold feedback_turn_is_terminal in Ht. by destruct (is_user m).
Qed.

(** The keys of turns of stored conversations differ. *)
Lemma all_eligible_NoDup s l others current latest :
  queue_ok s → NoDup l → Forall2 (λ id c, stored s id = Some c) l others →
  NoDup (all_eligible current latest others).
Proof.
  intros Hok Hnd Hall. unfold all_eligible.
  set (requests := list_to_set (omap am_request_id (cv_messages current))). clearbody requests.
  revert Hnd. induction Hall as [|id c l others Hc Hall IH]; intros Hnd; [constructor|].
  apply NoDup_cons in Hnd as [Hn Hnd]. specialize (IH Hnd). rewrite filter_cons.
  case_decide; [|done]. cbn [mbind list_bind]. apply NoDup_app. split_and!; [| |done].
  - apply (NoDup_fmap_1 (λ key : TurnKey, key.2)). unfold eligible_turns. rewrite <- list_fmap_compose.
    apply (NoDup_fmap_filter am_message_id). by eapply ck_ids, stored_ok.
  - intros key (m & _ & Hid & _)%eligible_id (d & Hkey & Hd)%list_elem_of_bind.
    apply list_elem_of_filter in Hd as [_ Hd]. apply eligible_id in Hkey as (m' & _ & Hid' & _).
    apply Hn. apply list_elem_of_lookup in Hd as [i Hi].
    destruct (Forall2_lookup_r _ _ _ _ _ Hall Hi) as (id2 & Hi2 & Hs2).
    rewrite (stored_id _ _ _ Hok Hc) in Hid. rewrite (stored_id _ _ _ Hok Hs2) in Hid'.
    rewrite <- Hid, Hid'. by eapply list_elem_of_lookup_2.
Qed.

(** What an agent is shown: of the latest 32 eligible turns, oldest first, those that fit. *)
Lemma prior_feedback_spec env context size base current latest s turns omitted s' :
  queue_ok s → times_fresh env s → env_ok env →
  prior_feedback env context size base current latest s = (Ok (turns, omitted), s') →
  s' = s ∧ ∃ others recent,
    (∀ c, c ∈ others ↔ stored s (cv_conversation_id c) = Some c ∧
       cv_conversation_id c ≠ cv_conversation_id current) ∧
    Forall2 (λ key turn, feedback_turn context others key = Ok turn)
      (last_n MAX_PRIOR_FEEDBACK_TURNS (sort_by turn_key_cmp (all_eligible current latest others)))
      recent ∧
    sublist turns recent ∧
    (omitted + length turns = length (all_eligible current latest others))%nat ∧
    (base ≤ MAX_PRIOR_FEEDBACK_BYTES → listed_bytes size base turns ≤ MAX_PRIOR_FEEDBACK_BYTES) ∧
    (listed_bytes size base recent ≤ MAX_PRIOR_FEEDBACK_BYTES → turns = recent).
Proof.
  intros Hok Hf Henv. unfold prior_feedback. unfold op_bind at 1.
  destruct (ids env s) as [o s1] eqn:Hids.
  destruct (moves_ids env nothing s Hok Hf (proj1 Henv) _ _ Hids) as [_ Hq].
  destruct o as [listed|]; [|done]. destruct (Hq listed eq_refl) as [-> Hperm].
  unfold op_bind at 1. destruct (op_map (read env) _ s) as [o s2] eqn:Hmap.
  destruct (moves_read_all _ _ _ _ _ Hok Hf Hmap) as [-> Hall].
  destruct o as [others|]; [|done]. specialize (Hall others eq_refl).
  assert (NoDup listed) as Hnd by (rewrite Hperm; apply NoDup_elements).
  assert (NoDup (filter (λ id, id ≠ cv_conversation_id current) listed)) as Hnd' by by apply NoDup_filter.
  rewrite scan_feedback_last by by eapply all_eligible_NoDup.
  unfold op_bind, op_lift. destruct (collect _ _) as [latest_first|] eqn:Hcol; [|done].
  apply collect_Ok in Hcol. apply Forall2_reverse in Hcol. rewrite reverse_involutive in Hcol.
  set (recent := reverse latest_first) in *. clearbody recent. intros [= Hsel <-]. split; [done|]. exists others, recent.
  apply select_feedback_spec in Hsel as (Hsub & Hcount & Hbound & Hfit).
  - split_and!; try done. intros c. split.
    + intros [i Hi]%list_elem_of_lookup. destruct (Forall2_lookup_r _ _ _ _ _ Hall Hi) as (id & Hid & Hs).
      apply list_elem_of_lookup_2, list_elem_of_filter in Hid as [Hne _].
      pose proof (stored_id _ _ _ Hok Hs) as ->. done.
    + intros [Hs Hne].
      assert (cv_conversation_id c ∈ filter (λ id, id ≠ cv_conversation_id current) listed) as Hin.
      { apply list_elem_of_filter. split; [done|]. rewrite Hperm, elem_of_elements, elem_of_dom.
        unfold stored in Hs. apply bind_Some in Hs as (f & Hfile & _). by eexists. }
      apply list_elem_of_lookup in Hin as [i Hi].
      destruct (Forall2_lookup_l _ _ _ _ _ Hall Hi) as (c' & Hc' & Hs').
      assert (c' = c) as <- by congruence. by eapply list_elem_of_lookup_2.
  - rewrite <- (Forall2_length _ _ _ Hcol). pose proof (sublist_length _ _ (last_n_sublist MAX_PRIOR_FEEDBACK_TURNS
      (sort_by turn_key_cmp (all_eligible current latest others)))) as Hlen.
    by rewrite (length_sort_by turn_key_cmp) in Hlen.
Qed.
End feedback.
