(* ===== verification/ConversationGuarantees.v ===== *)
(** * Agent conversations: what the store guarantees

    The theorems about the hosts that share a directory of conversations, for every history of
    their steps. *)

From S2P Require Import Prelude Order Text StoreBase Sessions.
From S2P Require Import Conversations ConversationStore ConversationQueue ConversationRules.
From S2P Require Import ConversationProofs ConversationSteps ConversationPump ConversationHistory.
From S2P Require Import ConversationPositions ConversationFeedback.

Local Open Scope N_scope.

Section guarantees.
Context `{SessionJson} `{ConversationLibraries} `{CaptureLibraries} `{!ConversationLaws}.

(** ** Sending a request again *)

Lemma message_step_submitted m m' :
  message_step m m' → am_submitted_body m' = am_submitted_body m.
Proof. by intros [[= _ _ -> _ _ _] _ _]. Qed.

Lemma sent_as_step rid m m' : message_step m m' → sent_as rid m' = sent_as rid m.
Proof.
  intros Hm. unfold sent_as, is_user. by rewrite (message_step_role _ _ Hm), (message_step_request _ _ Hm).
Qed.

Lemma recovers_evolves env c c' : recovers env c c' → evolves c c'.
Proof.
  intros [->|[-> _]]; [done|]. exists []. apply evolves_with_stamped, recovered_evolves.
Qed.

(** A message keeps its place while its conversation evolves. *)
Lemma evolves_lookup c c' i m :
  evolves c c' → cv_messages c !! i = Some m →
  ∃ m', cv_messages c' !! i = Some m' ∧ message_step m m'.
Proof.
  intros (added & [_ (kept & Heq & Hk) _]) Hi.
  destruct (Forall2_lookup_l _ _ _ _ _ Hk Hi) as (m' & Hm' & Hstep). exists m'. split; [|done].
  rewrite Heq. by apply lookup_app_l_Some.
Qed.

Lemma evolves_elem c c' m :
  evolves c c' → m ∈ cv_messages c → ∃ m', m' ∈ cv_messages c' ∧ message_step m m'.
Proof.
  intros Hev [i Hi]%list_elem_of_lookup. destruct (evolves_lookup _ _ _ _ Hev Hi) as (m' & Hm' & Hstep).
  exists m'. split; [by eapply list_elem_of_lookup_2|done].
Qed.

(** The message of a request is found by the request. *)
Lemma find_sent c rid m :
  conversation_ok c → m ∈ cv_messages c → sent_as rid m = true →
  find_message (sent_as rid) (cv_messages c) = Some m.
Proof.
  intros Hok Hm Hs. destruct (find_message _ _) as [x|] eqn:Hf.
  - apply find_message_Some in Hf as [Hx Hxs]. f_equal. unfold sent_as in Hs, Hxs.
    apply andb_true_iff in Hs as [Hmu Hmr%bool_decide_eq_true], Hxs as [Hxu Hxr%bool_decide_eq_true].
    assert (NoDup (omap am_request_id (filter (λ m, is_user m = true) (cv_messages c)))) as Hnd
      by by apply ck_requests.
    assert (x ∈ filter (λ m, is_user m = true) (cv_messages c)) as Hx' by by apply list_elem_of_filter.
    assert (m ∈ filter (λ m, is_user m = true) (cv_messages c)) as Hm' by by apply list_elem_of_filter.
    clear -Hnd Hx' Hm' Hmr Hxr. induction (filter _ _) as [|y l IH]; [by apply elem_of_nil in Hx'|].
    cbn in Hnd. destruct (am_request_id y) as [q|] eqn:Hy.
    + apply NoDup_cons in Hnd as [Hn Hnd]. apply elem_of_cons in Hx' as [->|Hx'], Hm' as [->|Hm'].
      * done.
      * exfalso. apply Hn. apply list_elem_of_omap. exists m. split; [done|congruence].
      * exfalso. apply Hn. apply list_elem_of_omap. exists x. split; [done|congruence].
      * by apply IH.
    + apply elem_of_cons in Hx' as [->|Hx'], Hm' as [->|Hm']; [done|congruence|congruence|by apply IH].
  - pose proof (find_message_None _ _ _ Hf Hm). congruence.
Qed.

Lemma moves_resend env s id request c m :
  queue_ok s → times_fresh env s → env_ok env → stored s id = Some c → m ∈ cv_messages c →
  sent_as (sm_request_id request) m = true → am_submitted_body m ≠ None →
  moves env nothing s (send_locked env id request)
    (λ reply _, is_Some reply ∧ am_submitted_body m = Some (sm_body request)).
Proof.
  intros Hok Hf Henv Hc Hm Hsent Hbody. unfold send_locked.
  do 2 (apply moves_require; [done..|]; intros _).
  eapply moves_bind; [by apply moves_read|]. intros c0 s0 _ [-> Hc0].
  assert (c0 = c) as -> by congruence.
  eapply moves_bind; [by eapply moves_recover|]. intros c' s1 [Hok1 Hf1 _ _] (Hc' & Hrec & _).
  destruct (evolves_elem _ _ m (recovers_evolves _ _ _ Hrec) Hm) as (m' & Hm' & Hstep).
  rewrite (find_sent c' (sm_request_id request) m') by
    (first [by eapply stored_ok|done|by rewrite (sent_as_step _ _ _ Hstep)]).
  case_bool_decide as Hb; [|by apply moves_err].
  rewrite (message_step_submitted _ _ Hstep) in Hb.
  eapply moves_bind; [by apply moves_positions|]. intros c2 s2 [Hok2 Hf2 _ _] _.
  eapply moves_conseq; [by apply moves_ret|]. intros x s3 _ [-> _]. split; [by eexists|].
  destruct (am_submitted_body m) as [b|]; [|done]. cbn in Hb. by subst.
Qed.

(** A step that appends nothing leaves the list of messages as it is. *)
Lemma advance_same_ids env s s' id c :
  queue_ok s → advance env nothing s s' → stored s id = Some c →
  ∃ c', stored s' id = Some c' ∧ am_message_id <$> cv_messages c' = am_message_id <$> cv_messages c.
Proof.
  intros Hok Ha Hs. destruct (av_evolves _ _ _ _ Ha id c Hs) as (c' & Hs' & (added & [Hh (kept & Heq & Hk) Hr])).
  exists c'. split; [done|].
  assert (am_message_id <$> kept = am_message_id <$> cv_messages c) as Hids.
  { clear -Hk. induction Hk as [|m m' l l' Hm _ IH]; [done|].
    by rewrite !fmap_cons, (message_step_id _ _ Hm), IH. }
  destruct added as [|a added]; [by rewrite Heq, app_nil_r|]. exfalso.
  assert (messages_of s' id a) as Hmsg.
  { exists c'. split; [done|]. rewrite Heq. apply elem_of_app. right. left. }
  destruct (av_used _ _ _ _ Ha (am_message_id a)) as [(id0 & m0 & (c0 & Hs0 & Hm0) & Hid0)|[]];
    [by exists id, a|].
  destruct (av_evolves _ _ _ _ Ha id0 c0 Hs0) as (c1 & Hs1 & Hev1).
  destruct (evolves_elem _ _ m0 Hev1 Hm0) as (m1 & Hm1 & Hstep1).
  assert (id0 = id) as ->.
  { eapply (qo_ids s' (av_ok _ _ _ _ Ha) id0 m1 id a); [by exists c1|done|].
    by rewrite (message_step_id _ _ Hstep1). }
  assert (c0 = c) as -> by congruence.
  pose proof (ck_ids _ (stored_ok _ _ _ (av_ok _ _ _ _ Ha) Hs')) as Hnd.
  rewrite Heq, fmap_app in Hnd. apply NoDup_app in Hnd as (_ & Hdisj & _).
  apply (Hdisj (am_message_id a)); [|left]. rewrite Hids, <- Hid0. by apply list_elem_of_fmap_2.
Qed.

(** ** The life of a request *)

Lemma moves_on_lookup s s' id c i m :
  moves_on s s' → stored s id = Some c → cv_messages c !! i = Some m →
  ∃ c' m', stored s' id = Some c' ∧ header_of c' = header_of c ∧ cv_messages c' !! i = Some m' ∧
    message_step m m'.
Proof.
  intros [_ Hm] Hs Hi. destruct (Hm id c Hs) as (c' & Hs' & Hev).
  destruct (evolves_lookup _ _ _ _ Hev Hi) as (m' & Hi' & Hstep). exists c', m'.
  destruct Hev as (added & [Hh _ _]). by split_and!.
Qed.

Lemma accepted_send env s id request s' :
  queue_ok s → step_allowed s (StepSend env id request) →
  send_locked env id request s = (Ok None, s') →
  queue_ok s' ∧ ∃ c m, stored s' id = Some c ∧ m ∈ cv_messages c ∧
    sent_as (sm_request_id request) m = true ∧ am_submitted_body m = Some (sm_body request) ∧
    am_status m = MQueued ∧ am_message_id m = ce_fresh env.
Proof.
  intros Hok [[Henv Hf] Hfresh] Hrun.
  destruct (moves_send env s id request Hok Hf Henv Hfresh _ _ Hrun) as [Ha Hq].
  split; [apply Ha|]. destruct (Hq None eq_refl) as (c & w & sequence & Hw & Hmsg & _).
  eexists w, (queued_message (ce_fresh env) sequence request (ce_now env)). split_and!; try done.
  - rewrite Hmsg. apply elem_of_app. right. by apply list_elem_of_singleton.
  - unfold sent_as. cbn. by rewrite bool_decide_true.
Qed.

Lemma resend_after env s id request s1 s2 env2 request2 r s3 :
  queue_ok s → step_allowed s (StepSend env id request) →
  send_locked env id request s = (Ok None, s1) → rtc conversation_step s1 s2 →
  step_allowed s2 (StepSend env2 id request2) → sm_request_id request2 = sm_request_id request →
  send_locked env2 id request2 s2 = (r, s3) →
  advance env2 nothing s2 s3 ∧
  ∀ reply, r = Ok reply → is_Some reply ∧ sm_body request2 = sm_body request.
Proof.
  intros Hok Hstep Hsend Hhist [[Henv2 Hf2] _] Hrid Hrun.
  destruct (accepted_send _ _ _ _ _ Hok Hstep Hsend) as (Hok1 & c & m & Hc & Hm & Hsent & Hbody & _).
  destruct (history_moves_on s1 s2 Hok1 Hhist) as [Hok2 Hev].
  destruct (Hev id c Hc) as (c2 & Hc2 & Hev2).
  destruct (evolves_elem _ _ m Hev2 Hm) as (m2 & Hm2 & Hstep2).
  destruct (moves_resend env2 s2 id request2 c2 m2 Hok2 Hf2 Henv2 Hc2 Hm2) with (r := r) (s' := s3)
    as [Ha Hq].
  - by rewrite (sent_as_step _ _ _ Hstep2), Hrid.
  - by rewrite (message_step_submitted _ _ Hstep2), Hbody.
  - done.
  - split; [done|]. intros reply Hr. destruct (Hq reply Hr) as [Hsome Hb]. split; [done|].
    rewrite (message_step_submitted _ _ Hstep2), Hbody in Hb. by injection Hb.
Qed.

Lemma edit_accepted env s id message_id request_id expected_body body c' s' :
  queue_ok s → env_fits s env →
  mutate_queued_message env id message_id request_id expected_body body s = (Ok c', s') →
  edit_effect s env id message_id request_id expected_body body s'.
Proof.
  intros Hok [Henv Hf] Hrun.
  destruct (moves_mutate env s id message_id request_id expected_body body Hok Hf Henv _ _ Hrun) as [_ Hq].
  by apply (Hq c').
Qed.

(** ** The guarantees *)

(** C19: in every state the hosts can reach, at most one conversation of a workspace runs a turn,
    and a message is in progress exactly when it belongs to the turn its conversation runs. *)
Theorem one_turn_per_workspace s :
  reachable s →
  (∀ id1 c1 id2 c2, stored s id1 = Some c1 → stored s id2 = Some c2 →
     is_Some (cv_active_session_id c1) → is_Some (cv_active_session_id c2) →
     cv_workspace_id c1 = cv_workspace_id c2 → id1 = id2) ∧
  (∀ id c m, stored s id = Some c → m ∈ cv_messages c →
     in_progress (am_status m) = true ↔
     ∃ session, cv_active_session_id c = Some session ∧ am_session_id m = Some session).
Proof.
  intros Hok%reachable_queue_ok. split; [apply Hok|]. intros id c m Hs Hm.
  apply ck_progress; [by eapply stored_ok|done].
Qed.

(** C22: whatever the hosts have done, every file of the directory can be read back: it passes all
    checks of [read], holds at most 255 messages and queued messages together, at most 1,024
    receipts, and each request of a user once. *)
Theorem records_stay_readable s env id :
  reachable s → id ∈ dom (cs_files s) → ce_readable env id = true →
  ∃ c, read_file env (cs_files s) id = Ok c ∧
    (length (cv_messages c) + queued_count (cv_messages c) ≤ 255)%nat ∧
    (length (cv_queue_mutations c) ≤ MAX_MUTATION_RECEIPTS)%nat ∧
    NoDup (omap am_request_id (filter (λ m, is_user m = true) (cv_messages c))).
Proof.
  intros Hok%reachable_queue_ok [file Hfile]%elem_of_dom Hr.
  destruct (qo_file s Hok id file Hfile) as (c & Hj & _ & Hc & _). exists c. split.
  - apply read_file_stored; [done| |done]. unfold stored. by rewrite Hfile.
  - destruct Hc. by split_and!.
Qed.

(** C18: over any history a conversation is never lost, its identity never changes, and the
    message at a place stays there: its identity, request, text as submitted, number and role are
    kept, its status follows the lifecycle, and a settled message never changes at all. *)
Theorem messages_follow_lifecycle s s' id c i m :
  reachable s → rtc conversation_step s s' → stored s id = Some c → cv_messages c !! i = Some m →
  ∃ c' m', stored s' id = Some c' ∧ header_of c' = header_of c ∧ cv_messages c' !! i = Some m' ∧
    identity_of m' = identity_of m ∧ rtc message_edge (am_status m) (am_status m') ∧
    (settled (am_status m) = true → m' = m).
Proof.
  intros Hok%reachable_queue_ok Hhist Hs Hi.
  destruct (moves_on_lookup s s' id c i m (history_moves_on _ _ Hok Hhist) Hs Hi)
    as (c' & m' & Hs' & Hh & Hi' & [Hid Hst Hset]). exists c', m'. by split_and!.
Qed.

(** C20: a pump takes queued messages of a workspace in the order of their numbers: a message that
    leaves the queue had the smallest number of all messages that waited in its workspace. *)
Theorem pump_takes_in_order env s r s' w id c m id' c' m' :
  reachable s → step_allowed s (StepPump env) → pump_agent_conversation_queue env s = (r, s') →
  waits s w id c m → taken s' id m → waits s w id' c' m' →
  sequence_or_max m ≤ sequence_or_max m'.
Proof. intros Hok%reachable_queue_ok [[Henv Hf] Hn]. by apply pump_fifo. Qed.

(** A pump that succeeds takes the head of the queue of every workspace in which no turn runs
    and nothing outside stands in the way: the message runs, or it failed with a reason. *)
Theorem pump_takes_the_head env s s' w id c m :
  reachable s → step_allowed s (StepPump env) → leases_distinct →
  pump_agent_conversation_queue env s = (Ok (), s') →
  waits s w id c m → (∀ id' c' m', waits s w id' c' m' → sequence_or_max m ≤ sequence_or_max m') →
  idle s w → unhindered env (am_message_id m) → lease_free env s c →
  left_queue s' id (am_message_id m).
Proof. intros Hok%reachable_queue_ok [[Henv Hf] Hn]. by apply pump_progress. Qed.

(** C21: a request is queued once: after it was accepted, and whatever the hosts did since, sending
    it again appends no message to any conversation; it is answered as a replay only when its text
    is the one that was accepted, and refused otherwise. *)
Theorem a_request_is_sent_once s env id request s1 s2 env2 request2 r s3 id' c :
  reachable s → step_allowed s (StepSend env id request) →
  send_locked env id request s = (Ok None, s1) → rtc conversation_step s1 s2 →
  step_allowed s2 (StepSend env2 id request2) → sm_request_id request2 = sm_request_id request →
  send_locked env2 id request2 s2 = (r, s3) → stored s2 id' = Some c →
  (∃ c', stored s3 id' = Some c' ∧ am_message_id <$> cv_messages c' = am_message_id <$> cv_messages c) ∧
  ∀ reply, r = Ok reply → is_Some reply ∧ sm_body request2 = sm_body request.
Proof.
  intros Hok%reachable_queue_ok Hstep Hsend Hhist Hstep2 Hrid Hrun Hc.
  destruct (accepted_send _ _ _ _ _ Hok Hstep Hsend) as (Hok1 & _).
  destruct (resend_after env s id request s1 s2 env2 request2 r s3 Hok Hstep Hsend Hhist Hstep2 Hrid Hrun)
    as [Ha Hr]. split; [|done].
  apply (advance_same_ids env2 s2); [by apply (history_moves_on s1 s2 Hok1 Hhist)|done|done].
Qed.

(** An accepted edit or cancellation changes exactly one message, which was queued with the
    expected text, and records a receipt; or it repeats an edit with the same receipt and leaves
    the directory as it is. *)
Theorem edits_touch_one_queued_message env s id message_id request_id expected_body body c' s' :
  reachable s → env_fits s env →
  mutate_queued_message env id message_id request_id expected_body body s = (Ok c', s') →
  edit_effect s env id message_id request_id expected_body body s'.
Proof. intros Hok%reachable_queue_ok. by apply edit_accepted. Qed.

(** What [get] answers is the stored conversation in which each queued message, and no other,
    carries its position: one more than the number of messages of the same workspace, in any
    conversation, that are queued before it. *)
Theorem get_shows_queue_positions env s id c' s' :
  reachable s → env_fits s env → get_agent_conversation env id s = (Ok c', s') →
  ∃ c queue, stored s' id = Some c ∧ queue_of s' (cv_workspace_id c) queue ∧ c' = with_ranks queue c.
Proof. intros Hok%reachable_queue_ok. by apply get_positions. Qed.

(** The bounded scan for earlier feedback equals the specification: of all eligible turns of
    the other conversations, sorted, the last 32 are considered; those shown are some of them in
    order and at most a megabyte, all of them when they fit, and the others are counted. *)
Theorem prior_feedback_is_latest env context size base current latest s turns omitted s' :
  reachable s → env_fits s env →
  prior_feedback env context size base current latest s = (Ok (turns, omitted), s') →
  s' = s ∧ ∃ others recent,
    (∀ c, c ∈ others ↔ stored s (cv_conversation_id c) = Some c ∧
       cv_conversation_id c ≠ cv_conversation_id current) ∧
    Forall2 (λ key turn, feedback_turn context others key = Ok turn)
      (last_n MAX_PRIOR_FEEDBACK_TURNS (sort_by turn_key_cmp (all_eligible current latest others)))
      recent ∧
    sublist turns recent ∧
    (omitted + length turns = length (all_eligible current latest others))%nat ∧
    (base ≤ MAX_PRIOR_FEEDBACK_BYTES → listed_bytes size base turns ≤ MAX_PRIOR_FEEDBACK_BYTES) ∧
    (listed_bytes size base recent ≤ MAX_PRIOR_FEEDBACK_BYTES → turns = recent).
Proof. intros Hok%reachable_queue_ok [Henv Hf]. by apply prior_feedback_spec. Qed.
End guarantees.
