(* ===== verification/ConversationWitnesses.v ===== *)
(** * Concrete histories of agent conversations

    An instance of the codec that obeys its law, and the guarantees applied to a directory in
    which two conversations of a workspace queue messages. *)

From S2P Require Import Prelude Order Text StoreBase StoreSample Sessions SessionWitnesses.
From S2P Require Import Conversations ConversationStore ConversationQueue ConversationRules.
From S2P Require Import ConversationProofs ConversationSteps ConversationPump ConversationHistory.
From S2P Require Import ConversationPositions ConversationFeedback ConversationGuarantees.

Local Open Scope N_scope.

(** ** A codec *)

#[export] Instance codec_capture : Codec AgentConversationCapture.
Proof.
  refine (codec_via (λ c, (ac_mime_type c, ac_data_url c, ac_width c, ac_height c))
    (λ '(a, b, c, d), {| ac_mime_type := a; ac_data_url := b; ac_width := c; ac_height := d |}) _).
  by intros [].
Defined.

#[export] Instance codec_discussion_position : Codec GitlabReviewDiscussionPosition.
Proof.
  refine (codec_via (λ p, (gp_base_commit_oid p, gp_start_commit_oid p, gp_head_commit_oid p))
    (λ '(a, b, c), {| gp_base_commit_oid := a; gp_start_commit_oid := b; gp_head_commit_oid := c |}) _).
  by intros [].
Defined.

#[export] Instance codec_discussion_comment : Codec GitlabReviewDiscussionComment.
Proof.
  refine (codec_via (λ c, (gc_id c, gc_body c, gc_author_login c, gc_created_at c))
    (λ '(a, b, c, d), {| gc_id := a; gc_body := b; gc_author_login := c; gc_created_at := d |}) _).
  by intros [].
Defined.

#[export] Instance codec_discussion : Codec DiscussionSource.
Proof.
  refine (codec_via
    (λ d, (gd_workspace_id d, gd_repository_id d, gd_provider_repository_id d, gd_iid d,
           gd_discussion_id d, gd_scope_id d, gd_title d, gd_source_branch d, gd_target_branch d,
           gd_file_path d, gd_side d, gd_line d, gd_position d, gd_comments d))
    (λ '(a, b, c, d, e, f, g, h, i, j, k, l, m, n),
       {| gd_workspace_id := a; gd_repository_id := b; gd_provider_repository_id := c; gd_iid := d;
          gd_discussion_id := e; gd_scope_id := f; gd_title := g; gd_source_branch := h;
          gd_target_branch := i; gd_file_path := j; gd_side := k; gd_line := l; gd_position := m;
          gd_comments := n |}) _).
  by intros [].
Defined.

#[export] Instance codec_source : Codec AgentConversationSource.
Proof.
  refine (codec_via
    (λ s, match s with
          | WorkItem a b c d e => inl (a, b, c, d, e)
          | Ui a b c d e f => inr (inl (a, b, c, d, e, f))
          | GitlabDiscussion d => inr (inr d)
          end)
    (λ s : (Uuid * Uuid * str * Uuid * Uuid)
           + (str * str * str * option str * option str * option AgentConversationCapture
              + DiscussionSource),
       match s with
       | inl (a, b, c, d, e) => WorkItem a b c d e
       | inr (inl (a, b, c, d, e, f)) => Ui a b c d e f
       | inr (inr d) => GitlabDiscussion d
       end) _).
  by intros [].
Defined.

#[export] Instance codec_receipt : Codec ConversationMutationReceipt.
Proof.
  refine (codec_via (λ r, (mr_request_id r, mr_message_id r, mr_digest r))
    (λ '(a, b, c), {| mr_request_id := a; mr_message_id := b; mr_digest := c |}) _).
  by intros [].
Defined.

#[export] Instance codec_message : Codec AgentConversationMessage.
Proof.
  refine (codec_via
    (λ m, (am_message_id m, am_request_id m, am_submitted_body m, am_queue_sequence m,
           am_queue_position m, am_last_mutation_request_id m,
           match am_role m with RoleUser => 0 | RoleAssistant => 1 | RoleSystem => 2 end, am_body m,
           match am_status m with MQueued => 0 | MCancelled => 1 | MPending => 2 | MRunning => 3
           | MCompleted => 4 | MFailed => 5 | MInterrupted => 6 end,
           am_created_at_unix_ms m, am_session_id m, am_error m, am_progress m, am_diagnostic m))
    (λ '(a, b, c, d, e, f, r, g, st, h, i, j, k, l),
       {| am_message_id := a; am_request_id := b; am_submitted_body := c; am_queue_sequence := d;
          am_queue_position := e; am_last_mutation_request_id := f;
          am_role := match r with 0 => RoleUser | 1 => RoleAssistant | _ => RoleSystem end;
          am_body := g;
          am_status := match st with 0 => MQueued | 1 => MCancelled | 2 => MPending
            | 3 => MRunning | 4 => MCompleted | 5 => MFailed | _ => MInterrupted end;
          am_created_at_unix_ms := h; am_session_id := i; am_error := j; am_progress := k;
          am_diagnostic := l |}) _).
  by intros [? ? ? ? ? ? [] ? [] ? ? ? ? ?].
Defined.

#[export] Instance codec_preview : Codec AgentConversationPreview.
Proof.
  refine (codec_via (λ p, (ap_url p, ap_repository_id p))
    (λ '(a, b), {| ap_url := a; ap_repository_id := b |}) _).
  by intros [].
Defined.

#[export] Instance codec_conversation : Codec AgentConversation.
Proof.
  refine (codec_via
    (λ c, (cv_queue_mutations c, cv_schema_version c, cv_conversation_id c, cv_workspace_id c,
           cv_workspace_display_path c, cv_repository_id c,
           match cv_provider c with CodexAgent => 0 | OpenCodeAgent => 1 | HermesAgent => 2
           | CopilotAgent => 3 end,
           cv_source c, cv_revision c, cv_created_at_unix_ms c, cv_updated_at_unix_ms c,
           cv_messages c, cv_active_session_id c, cv_preview c))
    (λ '(a, b, c, d, e, f, p, g, h, i, j, k, l, m),
       {| cv_queue_mutations := a; cv_schema_version := b; cv_conversation_id := c;
          cv_workspace_id := d; cv_workspace_display_path := e; cv_repository_id := f;
          cv_provider := match p with 0 => CodexAgent | 1 => OpenCodeAgent | 2 => HermesAgent
            | _ => CopilotAgent end;
          cv_source := g; cv_revision := h; cv_created_at_unix_ms := i;
          cv_updated_at_unix_ms := j; cv_messages := k; cv_active_session_id := l;
          cv_preview := m |}) _).
  by intros [? ? ? ? ? ? [] ? ? ? ? ? ? ?].
Defined.

Definition decode_conversation (bytes : list N) : option AgentConversation := fst <$> de bytes.

#[export] Instance sample_conversation_libraries : ConversationLibraries := {|
  conversation_to_json c := Some (ser c);
  conversation_from_json := decode_conversation;
  conversation_json_length c := Some (N.of_nat (length (ser c)));
  mutation_digest id expected body :=
    Some (dec id ++ [0] ++ expected ++ [0] ++ default [0] body);
  lease_key workspace_id repository_id := dec workspace_id ++ [47] ++ repository_id;
  conversation_error_text _ := lit "error"
|}.

#[export] Instance sample_conversation_laws : ConversationLaws.
Proof.
  split. intros c bytes Hb. assert (bytes = ser c) as -> by (by apply (inj Some)).
  change (decode_conversation (ser c) = Some c). unfold decode_conversation.
  pose proof (de_ser c []) as Hd. rewrite app_nil_r in Hd. by rewrite Hd.
Qed.

#[export] Instance sample_capture_libraries : CaptureLibraries := {|
  base64_decode _ := None; png_read_info _ := None; png_next_frame _ := false;
  source_json_length _ := 0
|}.

Lemma digits_before_slash (a b : str) r r' :
  forallb is_ascii_digit a = true → forallb is_ascii_digit b = true →
  a ++ 47 :: r = b ++ 47 :: r' → a = b.
Proof.
  revert b. induction a as [|x a IH]; intros [|y b] Ha Hb; cbn in *; try done.
  - intros [= <- _]. done.
  - intros [= -> _]. done.
  - apply andb_true_iff in Ha as [_ Ha], Hb as [_ Hb]. intros [= -> Heq]. f_equal. by apply IH.
Qed.

Lemma sample_leases_distinct : leases_distinct.
Proof.
  intros w r w' r' Heq. apply dec_inj.
  eapply digits_before_slash; [apply dec_digits|apply dec_digits|exact Heq].
Qed.

(** ** Checks on a concrete directory *)

(** A host: a fresh identifier for the next message, and for the claims of a pump. *)
Definition sample_conversation_env (now : Z) (fresh : Uuid) : ConversationEnv := {|
  ce_host := 1; ce_now := now; ce_locks := true; ce_listing X := elements X;
  ce_readable _ := true; ce_writable _ revision := revision <? 1000;
  ce_modified _ revision := Z.of_N revision; ce_lease _ := Ok ();
  ce_fresh := fresh; ce_counter_readable := true; ce_counter_writable := true;
  ce_work_set _ := Err AgentConversationNotFound;
  ce_claim id := {|
    cl_restore_recovered := true; cl_integration_recovered := true; cl_operation_lease := Ok ();
    cl_session := sample_env 1800000000000 (2000 + id); cl_assistant := 1000 + id;
    cl_registry := true; cl_spawned := true;
    cl_failure_session := sample_env 1800000000001 0 |}
|}.

Lemma sample_conversation_env_ok now fresh : env_ok (sample_conversation_env now fresh).
Proof.
  split; [intros X; reflexivity|]. split.
  - intros id r r' Heq. apply N2Z.inj. exact Heq.
  - intros id r Hr. cbn in Hr. apply N.ltb_lt in Hr. unfold u64_max. lia.
Qed.

(** Modification times are revisions, in the files and in the caches. *)
Definition tidy (s : ConversationStore) : bool :=
  bool_decide (map_Forall (λ id file,
    (cf_modified file =? match stored s id with Some c => Z.of_N (cv_revision c) | None => -1 end)%Z
      = true) (cs_files s))
  && bool_decide (map_Forall (λ host cache, map_Forall (λ id (entry : Z * N * bool),
       (entry.1.1 <=? match stored s id with Some c => Z.of_N (cv_revision c) | None => -1 end)%Z
         = true) cache) (cs_caches s)).

Lemma tidy_fits s now fresh : tidy s = true → env_fits s (sample_conversation_env now fresh).
Proof.
  unfold tidy. intros [Hfiles%bool_decide_eq_true Hcaches%bool_decide_eq_true]%andb_true_iff.
  split; [apply sample_conversation_env_ok|]. intros id r Hr. split.
  - intros file Hfile. apply Hfiles in Hfile. apply Z.eqb_eq in Hfile. rewrite Hfile. cbn.
    destruct (stored s id) as [c|]; [|lia]. specialize (Hr c eq_refl). lia.
  - intros host cache entry Hc He. apply Hcaches in Hc. apply Hc in He. apply Z.leb_le in He. cbn.
    destruct (stored s id) as [c|]; [|lia]. specialize (Hr c eq_refl). lia.
Qed.

(** Messages and sessions have identifiers below a bound. *)
Definition all_messages (s : ConversationStore) : list AgentConversationMessage :=
  map_to_list (cs_files s) ≫= λ entry,
    default [] (cv_messages <$> conversation_from_json (cf_bytes entry.2)).

Definition unused (s : ConversationStore) (id : Uuid) : bool :=
  forallb (λ m, am_message_id m <? id) (all_messages s).

Definition no_sessions (s : ConversationStore) : bool :=
  forallb (λ m, match am_session_id m with Some _ => false | None => true end) (all_messages s)
  && bool_decide (cs_turns s = []).

Lemma elem_of_all_messages s id m : messages_of s id m → m ∈ all_messages s.
Proof.
  intros (c & Hs & Hm). unfold stored in Hs. apply bind_Some in Hs as (file & Hf & Hj).
  apply list_elem_of_bind. exists (id, file). split; [|by apply elem_of_map_to_list].
  cbn in *. by rewrite Hj.
Qed.

Lemma unused_spec s id : unused s id = true → ∀ id', id ≤ id' → ¬ used s id'.
Proof.
  intros Hu id' Hle (i & m & Hm%elem_of_all_messages & Hid).
  pose proof (proj1 (forallb_spec _ _) Hu m Hm) as Hlt. cbn in Hlt. apply N.ltb_lt in Hlt. lia.
Qed.

Lemma sample_names_fresh s now fresh :
  unused s 1000 = true → no_sessions s = true →
  names_fresh (sample_conversation_env now fresh) s.
Proof.
  unfold no_sessions. intros Hu [Hn Ht%bool_decide_eq_true]%andb_true_iff. split.
  - split; intros x y; cbn; lia.
  - intros id. apply (unused_spec s 1000 Hu). cbn. lia.
  - intros id id' m Hm%elem_of_all_messages. pose proof (proj1 (forallb_spec _ _) Hn m Hm) as Hx.
    cbn in Hx. by destruct (am_session_id m).
  - intros id t. rewrite Ht. by intros ?%elem_of_nil.
Qed.

(** ** A directory *)

Definition sample_target (repository : str) : result ConversationTarget LocalWtsError :=
  Ok {| ct_workspace_id := 5; ct_repository_id := repository; ct_display_path := lit "/w";
        ct_preview := None |}.

Definition sample_create (id : Uuid) (repository : str) : ConversationStep :=
  StepCreate (sample_conversation_env 10 0) (sample_target repository) (Ok ())
    {| cr_request_id := id; cr_provider := CodexAgent;
       cr_source := Ui (lit "/route") (lit "callout") (lit "Label") None None None |}.

Definition sample_request (id : Uuid) (body : str) : SendAgentConversationMessageRequest :=
  {| sm_request_id := id; sm_body := body |}.

Definition sample_send (id message_id request_id : Uuid) (body : str) : ConversationStep :=
  StepSend (sample_conversation_env 20 message_id) id (sample_request request_id body).

Definition dir0 := run_step (StepSession (sample_env 1 0) sample_open) empty_directory.
Definition dir1 := run_step (sample_create 11 (lit "app")) dir0.
Definition dir2 := run_step (sample_create 12 (lit "app")) dir1.
Definition dir3 := run_step (sample_send 12 101 201 (lit "first")) dir2.
Definition dir4 := run_step (sample_send 11 102 202 (lit "second")) dir3.
Definition dir5 := run_step (sample_send 12 103 203 (lit "third")) dir4.
Definition dir6 := run_step (StepPump (sample_conversation_env 30 0)) dir5.


Definition sample_turn : Turn :=
  {| tn_conversation := 12; tn_assistant := 1101; tn_session := 2101; tn_lease := lit "5/app" |}.

Definition sample_output : ConversationOutput :=
  {| co_body := lit "Done."; co_progress := lit "Looked."; co_diagnostic := [] |}.

Definition dir7 := run_step
  (StepFinish (sample_conversation_env 40 0) (sample_env 1800000000002 0) (sample_env 1800000000003 0)
     sample_turn (Some sample_output) None false) dir6.

Definition dirs : list ConversationStore :=
  [empty_directory; dir0; dir1; dir2; dir3; dir4; dir5; dir6; dir7].

Lemma dirs_tidy : Forall (λ s, tidy s = true) dirs.
Proof. repeat constructor; vm_compute; reflexivity. Qed.

Lemma dir_fits i s now fresh :
  dirs !! i = Some s → env_fits s (sample_conversation_env now fresh).
Proof.
  intros Hs. apply tidy_fits.
  exact (proj1 (Forall_forall _ _) dirs_tidy s (list_elem_of_lookup_2 _ _ _ Hs)).
Qed.

Lemma send_allowed i s id message_id request_id body :
  dirs !! i = Some s → unused s message_id = true →
  step_allowed s (sample_send id message_id request_id body).
Proof.
  intros Hs Hu. split; [by apply (dir_fits i)|]. apply (unused_spec s message_id Hu). reflexivity.
Qed.

Lemma pump_allowed : step_allowed dir5 (StepPump (sample_conversation_env 30 0)).
Proof. split; [apply (dir_fits 6); reflexivity|]. apply sample_names_fresh; vm_compute; reflexivity. Qed.

Lemma next_reachable s step : reachable s → step_allowed s step → reachable (run_step step s).
Proof. intros Hr Hs. eapply rtc_r; [exact Hr|]. by constructor. Qed.

Lemma dir2_reachable : reachable dir2.
Proof.
  apply next_reachable; [|apply (dir_fits 2); reflexivity].
  apply next_reachable; [|apply (dir_fits 1); reflexivity].
  apply next_reachable; [apply rtc_refl|done].
Qed.

Lemma dir3_reachable : reachable dir3.
Proof. apply next_reachable; [apply dir2_reachable|].
  apply (send_allowed 3); [reflexivity|vm_compute; reflexivity]. Qed.

Lemma dir4_reachable : reachable dir4.
Proof. apply next_reachable; [apply dir3_reachable|].
  apply (send_allowed 4); [reflexivity|vm_compute; reflexivity]. Qed.

Lemma dir5_reachable : reachable dir5.
Proof. apply next_reachable; [apply dir4_reachable|].
  apply (send_allowed 5); [reflexivity|vm_compute; reflexivity]. Qed.

Lemma dir6_reachable : reachable dir6.
Proof. apply next_reachable; [apply dir5_reachable|apply pump_allowed]. Qed.

Lemma dir6_turn : cs_turns dir6 = [sample_turn].
Proof. vm_compute. reflexivity. Qed.

Lemma dir7_reachable : reachable dir7.
Proof.
  apply next_reachable; [apply dir6_reachable|]. split; [apply (dir_fits 7); reflexivity|].
  rewrite dir6_turn. left.
Qed.

(** ** The guarantees on this directory *)

Definition no_message : AgentConversationMessage := queued_message 0 0 (sample_request 0 []) 0.

Definition conv (s : ConversationStore) (id : Uuid) : AgentConversation :=
  default (new_conversation {| cr_request_id := 0; cr_provider := CodexAgent;
             cr_source := WorkItem 0 0 [] 0 0 |}
             {| ct_workspace_id := 0; ct_repository_id := []; ct_display_path := [];
                ct_preview := None |} 0) (stored s id).

Definition msg (s : ConversationStore) (id : Uuid) (i : nat) : AgentConversationMessage :=
  default no_message (cv_messages (conv s id) !! i).

Lemma msg_elem s id i : is_Some (cv_messages (conv s id) !! i) → msg s id i ∈ cv_messages (conv s id).
Proof. unfold msg. intros [m Hm]. rewrite Hm. by eapply list_elem_of_lookup_2. Qed.

Lemma dir5_waits id i :
  bool_decide ((id, i) ∈ [(12, 0%nat); (11, 0%nat); (12, 1%nat)]) = true →
  waits dir5 5 id (conv dir5 id) (msg dir5 id i).
Proof.
  intros Hin%bool_decide_eq_true. rewrite !elem_of_cons, elem_of_nil in Hin.
  destruct Hin as [[= -> ->]|[[= -> ->]|[[= -> ->]|[]]]]; (split_and!;
    [vm_compute; reflexivity|vm_compute; reflexivity|apply msg_elem; by vm_compute; eexists
    |vm_compute; reflexivity]).
Qed.

Definition no_turns (s : ConversationStore) : bool :=
  bool_decide (map_Forall (λ id (_ : ConversationFile),
    negb (some_and (stored s id) (λ c, bool_decide (is_Some (cv_active_session_id c)))) = true)
    (cs_files s)).

Lemma no_turns_idle s w : no_turns s = true → idle s w.
Proof.
  unfold no_turns. intros Hall%bool_decide_eq_true id c Hs _.
  assert (is_Some (cs_files s !! id)) as [file Hf].
  { unfold stored in Hs. apply bind_Some in Hs as (f & Hf & _). by eexists. }
  apply Hall in Hf. rewrite Hs in Hf. cbn in Hf.
  apply negb_true_iff, bool_decide_eq_false, eq_None_not_Some in Hf. done.
Qed.

Lemma dir5_idle : idle dir5 5.
Proof. apply no_turns_idle. vm_compute. reflexivity. Qed.

Lemma dir6_taken : taken dir6 12 (msg dir5 12 0).
Proof.
  exists (conv dir6 12). split; [vm_compute; reflexivity|]. intros Hin.
  assert (forallb (λ x, negb (has_id 101 x && is_queued x)) (cv_messages (conv dir6 12)) = true) as Hall
    by (vm_compute; reflexivity).
  pose proof (proj1 (forallb_spec _ _) Hall _ Hin) as Hx. vm_compute in Hx. discriminate.
Qed.

Lemma one_turn_per_workspace_witness :
  in_progress (am_status (msg dir6 12 0)) = true ∧
  ∃ session, cv_active_session_id (conv dir6 12) = Some session ∧
             am_session_id (msg dir6 12 0) = Some session.
Proof.
  split; [vm_compute; reflexivity|].
  apply (proj2 (one_turn_per_workspace dir6 dir6_reachable) 12);
    [vm_compute; reflexivity|apply msg_elem; by vm_compute; eexists|vm_compute; reflexivity].
Defined.

Lemma records_stay_readable_witness :
  ∃ c, read_file (sample_conversation_env 50 0) (cs_files dir7) 12 = Ok c ∧
    (length (cv_messages c) + queued_count (cv_messages c) ≤ 255)%nat ∧
    (length (cv_queue_mutations c) ≤ MAX_MUTATION_RECEIPTS)%nat ∧
    NoDup (omap am_request_id (filter (λ m, is_user m = true) (cv_messages c))).
Proof.
  apply (records_stay_readable dir7); [apply dir7_reachable| |done].
  apply elem_of_dom. vm_compute. by eexists.
Defined.

Lemma messages_follow_lifecycle_witness :
  ∃ c' m', stored dir7 12 = Some c' ∧ header_of c' = header_of (conv dir5 12) ∧
    cv_messages c' !! 0%nat = Some m' ∧
    identity_of m' = identity_of (msg dir5 12 0) ∧
    rtc message_edge (am_status (msg dir5 12 0)) (am_status m') ∧
    (settled (am_status (msg dir5 12 0)) = true → m' = msg dir5 12 0).
Proof.
  apply (messages_follow_lifecycle dir5 dir7); [apply dir5_reachable| |vm_compute; reflexivity..].
  eapply rtc_l; [apply (conversation_step_intro dir5 _ pump_allowed)|].
  eapply rtc_l; [|apply rtc_refl].
  apply (conversation_step_intro dir6 (StepFinish (sample_conversation_env 40 0)
    (sample_env 1800000000002 0) (sample_env 1800000000003 0) sample_turn (Some sample_output) None false)).
  split; [apply (dir_fits 7); reflexivity|]. rewrite dir6_turn. left.
Defined.

Lemma pump_takes_in_order_witness :
  sequence_or_max (msg dir5 12 0) ≤ sequence_or_max (msg dir5 11 0).
Proof.
  eapply (pump_takes_in_order (sample_conversation_env 30 0) dir5 _ dir6 5 12);
    [apply dir5_reachable|apply pump_allowed|apply surjective_pairing
    |apply dir5_waits; reflexivity|apply dir6_taken|apply dir5_waits; reflexivity].
Defined.

(** A list of what waits in the directory. *)
Lemma dir5_head id' c' m' : waits dir5 5 id' c' m' → 1 ≤ sequence_or_max m'.
Proof.
  intros (Hs & _ & Hm & _).
  assert (forallb (λ m, 1 <=? sequence_or_max m) (all_messages dir5) = true) as Hall
    by (vm_compute; reflexivity).
  assert (messages_of dir5 id' m') as Hmsg by (exists c'; split; assumption).
  apply elem_of_all_messages in Hmsg.
  pose proof (proj1 (forallb_spec _ _) Hall m' Hmsg) as Hx. apply N.leb_le. exact Hx.
Qed.

Lemma dir5_pump : pump_agent_conversation_queue (sample_conversation_env 30 0) dir5 = (Ok (), dir6).
Proof.
  change dir6 with (pump_agent_conversation_queue (sample_conversation_env 30 0) dir5).2.
  assert ((pump_agent_conversation_queue (sample_conversation_env 30 0) dir5).1 = Ok ()) as <-
    by (vm_compute; reflexivity).
  apply surjective_pairing.
Qed.

Lemma dir5_lease_free : lease_free (sample_conversation_env 30 0) dir5 (conv dir5 12).
Proof.
  split; [discriminate|]. assert (cs_turns dir5 = []) as -> by (vm_compute; reflexivity).
  intros t []%elem_of_nil.
Qed.

Lemma pump_takes_the_head_witness : left_queue dir6 12 101.
Proof.
  apply (pump_takes_the_head (sample_conversation_env 30 0) dir5 dir6 5 12 (conv dir5 12) (msg dir5 12 0)).
  - apply dir5_reachable.
  - apply pump_allowed.
  - apply sample_leases_distinct.
  - apply dir5_pump.
  - apply dir5_waits. reflexivity.
  - intros id' c' m' Hw. apply dir5_head in Hw. exact Hw.
  - apply dir5_idle.
  - split_and!; [reflexivity|reflexivity|discriminate].
  - apply dir5_lease_free.
Defined.

(** The first request again, after the pump, with the same text. *)
Definition sample_resend :=
  send_locked (sample_conversation_env 50 5000) 12 (sample_request 201 (lit "first")) dir6.

Lemma first_send_accepted :
  send_locked (sample_conversation_env 20 101) 12 (sample_request 201 (lit "first")) dir2 = (Ok None, dir3).
Proof.
  change dir3 with
    (send_locked (sample_conversation_env 20 101) 12 (sample_request 201 (lit "first")) dir2).2.
  assert ((send_locked (sample_conversation_env 20 101) 12 (sample_request 201 (lit "first")) dir2).1
          = Ok None) as <- by (vm_compute; reflexivity).
  apply surjective_pairing.
Qed.

Lemma dir3_to_dir6 : rtc conversation_step dir3 dir6.
Proof.
  eapply rtc_l; [apply (conversation_step_intro dir3 (sample_send 11 102 202 (lit "second")))|].
  { apply (send_allowed 4); [reflexivity|vm_compute; reflexivity]. }
  eapply rtc_l; [apply (conversation_step_intro dir4 (sample_send 12 103 203 (lit "third")))|].
  { apply (send_allowed 5); [reflexivity|vm_compute; reflexivity]. }
  eapply rtc_l; [apply (conversation_step_intro dir5 _ pump_allowed)|apply rtc_refl].
Qed.

Lemma a_request_is_sent_once_witness :
  is_ok sample_resend.1 = true ∧
  ∃ c', stored sample_resend.2 12 = Some c' ∧
    am_message_id <$> cv_messages c' = am_message_id <$> cv_messages (conv dir6 12).
Proof.
  split; [vm_compute; reflexivity|].
  eapply (a_request_is_sent_once dir2 (sample_conversation_env 20 101) 12 (sample_request 201 (lit "first"))
    dir3 dir6 (sample_conversation_env 50 5000) (sample_request 201 (lit "first"))).
  - apply dir2_reachable.
  - apply (send_allowed 3 dir2 12 101 201 (lit "first")); [reflexivity|vm_compute; reflexivity].
  - apply first_send_accepted.
  - apply dir3_to_dir6.
  - split; [apply (dir_fits 7); reflexivity|]. apply (unused_spec dir6 5000); [vm_compute; reflexivity|reflexivity].
  - reflexivity.
  - apply surjective_pairing.
  - vm_compute. reflexivity.
Defined.

(** An edit of the third message while it waits. *)
Definition sample_edit :=
  mutate_queued_message (sample_conversation_env 50 0) 12 103 301 (lit "third") (Some (lit "changed")) dir5.

Lemma edits_touch_one_queued_message_witness :
  ∃ c' s', sample_edit = (Ok c', s') ∧
    edit_effect dir5 (sample_conversation_env 50 0) 12 103 301 (lit "third") (Some (lit "changed")) s'.
Proof.
  assert (is_ok sample_edit.1 = true) as Hok by (vm_compute; reflexivity).
  destruct sample_edit as [[c'|e] s'] eqn:Hrun; [|done]. exists c', s'. split; [done|].
  eapply (edits_touch_one_queued_message (sample_conversation_env 50 0) dir5 12 103 301);
    [apply dir5_reachable|apply (dir_fits 6); reflexivity|exact Hrun].
Defined.

Definition sample_get := get_agent_conversation (sample_conversation_env 50 0) 12 dir5.

Lemma get_shows_queue_positions_witness :
  ∃ c' s', sample_get = (Ok c', s') ∧
    ∃ c queue, stored s' 12 = Some c ∧ queue_of s' (cv_workspace_id c) queue ∧ c' = with_ranks queue c.
Proof.
  assert (is_ok sample_get.1 = true) as Hok by (vm_compute; reflexivity).
  destruct sample_get as [[c'|e] s'] eqn:Hrun; [|done]. exists c', s'. split; [done|].
  eapply (get_shows_queue_positions (sample_conversation_env 50 0) dir5 12);
    [apply dir5_reachable|apply (dir_fits 6); reflexivity|exact Hrun].
Defined.

(** What the second conversation is shown of the first turn of the other one. *)
Definition sample_feedback :=
  prior_feedback (sample_conversation_env 50 0) (λ _, Ok ()) (λ _, 100) 40 (conv dir7 11) (msg dir7 11 0) dir7.

Lemma prior_feedback_is_latest_witness :
  ∃ turns omitted, sample_feedback = (Ok (turns, omitted), dir7) ∧ length turns = 1%nat ∧
    (40 ≤ MAX_PRIOR_FEEDBACK_BYTES → listed_bytes (λ _, 100) 40 turns ≤ MAX_PRIOR_FEEDBACK_BYTES).
Proof.
  assert (match sample_feedback.1 with Ok (turns, _) => length turns | Err _ => 0%nat end = 1%nat) as Hlen
    by (vm_compute; reflexivity).
  destruct sample_feedback as [[[turns omitted]|e] s'] eqn:Hrun; [|done].
  destruct (prior_feedback_is_latest (sample_conversation_env 50 0) (λ _, Ok ()) (λ _, 100) 40
    (conv dir7 11) (msg dir7 11 0) dir7 turns omitted s') as (-> & _ & _ & _ & _ & _ & _ & Hbound & _);
    [apply dir7_reachable|apply (dir_fits 8); reflexivity|exact Hrun|].
  exists turns, omitted. by split_and!.
Defined.
