(* ===== verification/Captures.v ===== *)
(** * Captures of worktrees and records of turns ([wts-git/src/checkpoint.rs],
    [wts-app/src/agent_turn_changes.rs])

    What Git saw of a worktree at one moment, the record a turn leaves of the worktree before
    and after it, and the digest that stands for a capture.  Two versions of a file are the same
    when content and mode are; whether a difference existed before, and the content the capture
    carries along, do not count. *)

From S2P Require Import Prelude Order Text StoreBase Conversations.

Local Open Scope N_scope.

(** ** Captures *)

Record CapturedWorktreeFile := {
  cw_file_path : str;
  cw_content : option str;
  cw_raw_content : option (list N);
  cw_is_binary : bool;
  cw_sha256 : option str;
  cw_mode : option N;
  cw_unsupported : bool;
  cw_pre_existing_change : bool
}.

Abbreviation CapturedFiles := (gmap str CapturedWorktreeFile).

Record WorktreeCheckpointCapture := {
  wt_head_commit_oid : str;
  wt_branch_name : str;
  wt_index_sha256 : str;
  wt_files : CapturedFiles;
  wt_omitted_file_count : N;
  wt_stable : bool
}.

(** What [same_file] compares: content and mode, or that there is no such file. *)
Definition file_key (file : option CapturedWorktreeFile) : option (str * option N) :=
  match file with
  | Some f => match cw_sha256 f with Some hash => Some (hash, cw_mode f) | None => None end
  | None => None
  end.

Definition same_file (left right : option CapturedWorktreeFile) : bool :=
  bool_decide (file_key left = file_key right).

(** ** Records of turns *)

Inductive AgentTurnChangesState :=
| TurnCapturing | TurnReady | TurnIncomplete | TurnUnavailable.
Inductive AgentTurnChangesObservation := ObservedNormal | ObservedRecovered.
Inductive AgentTurnFileStatus := FileAdded | FileModified | FileDeleted | FileTypeChanged.

#[export] Instance turn_changes_state_eq_dec : EqDecision AgentTurnChangesState.
Proof. solve_decision. Defined.
#[export] Instance turn_changes_observation_eq_dec : EqDecision AgentTurnChangesObservation.
Proof. solve_decision. Defined.

Record AgentTurnCheckpoint := {
  tp_checkpoint_id : Uuid;
  tp_head_commit_oid : str;
  tp_branch_name : str;
  tp_captured_at_unix_ms : Z;
  tp_tree_sha256 : str;
  tp_index_sha256 : str
}.

Record AgentTurnChangedFile := {
  tf_file_path : str;
  tf_status : AgentTurnFileStatus;
  tf_before_sha256 : option str;
  tf_after_sha256 : option str;
  tf_pre_existing_change : bool;
  tf_undo_supported : bool;
  tf_detail : option str
}.

Record AgentTurnChanges := {
  tc_schema_version : N;
  tc_conversation_id : Uuid;
  tc_request_id : Uuid;
  tc_session_id : Uuid;
  tc_workspace_id : Uuid;
  tc_repository_id : str;
  tc_source_context_sha256 : str;
  tc_state : AgentTurnChangesState;
  tc_observation : AgentTurnChangesObservation;
  tc_started_at_unix_ms : Z;
  tc_completed_at_unix_ms : option Z;
  tc_before : option AgentTurnCheckpoint;
  tc_after : option AgentTurnCheckpoint;
  tc_files : list AgentTurnChangedFile;
  tc_omitted_file_count : N;
  tc_patch : str;
  tc_patch_truncated : bool;
  tc_detail : str
}.

Record StoredTurn := {
  st_receipt : AgentTurnChanges;
  st_target : str;
  st_target_identity : str;
  st_before : option WorktreeCheckpointCapture;
  st_after : option WorktreeCheckpointCapture
}.

Definition with_receipt_state (receipt : AgentTurnChanges) (state : AgentTurnChangesState)
    (detail : str) : AgentTurnChanges :=
  {| tc_schema_version := tc_schema_version receipt;
     tc_conversation_id := tc_conversation_id receipt; tc_request_id := tc_request_id receipt;
     tc_session_id := tc_session_id receipt; tc_workspace_id := tc_workspace_id receipt;
     tc_repository_id := tc_repository_id receipt;
     tc_source_context_sha256 := tc_source_context_sha256 receipt;
     tc_state := state; tc_observation := tc_observation receipt;
     tc_started_at_unix_ms := tc_started_at_unix_ms receipt;
     tc_completed_at_unix_ms := tc_completed_at_unix_ms receipt;
     tc_before := tc_before receipt; tc_after := tc_after receipt; tc_files := tc_files receipt;
     tc_omitted_file_count := tc_omitted_file_count receipt; tc_patch := tc_patch receipt;
     tc_patch_truncated := tc_patch_truncated receipt; tc_detail := detail |}.

Definition checkpoint_id (receipt : AgentTurnChanges) : option Uuid :=
  tp_checkpoint_id <$> tc_after receipt.

(** ** Digests *)

(** SHA-256 of a JSON text: of a source, and of files with head, branch and index. *)
Class CaptureDigests := {
  source_digest : AgentConversationSource → option str;
  capture_digest : list (str * str * option N) → str → str → str → option str
}.

Section digests.
Context `{CaptureDigests}.

(** The files with content, in the order of their paths. *)
Definition digest_files (files : CapturedFiles) : list (str * str * option N) :=
  omap (λ path, match file_key (files !! path) with
                | Some (hash, mode) => Some (path, hash, mode)
                | None => None
                end) (sort_by str_cmp (elements (dom files))).

Definition canonical_capture_digest (capture : WorktreeCheckpointCapture) :
    result str LocalWtsError :=
  ensure guard_err (negb (wt_stable capture) || negb (wt_omitted_file_count capture =? 0)
                    || existsb (λ entry, cw_unsupported entry.2) (map_to_list (wt_files capture)))
           AgentConversationConflict in
  ok_or (capture_digest (digest_files (wt_files capture)) (wt_head_commit_oid capture)
           (wt_branch_name capture) (wt_index_sha256 capture)) AgentConversationUnavailable.

(** ** What a conversation says about a turn *)

Definition UNSAVED : str :=
  lit "This task has no saved change capture. Review the current files. A new task will capture its own before and after state.".

Definition ENDED_UNSAVED : str :=
  lit "The task ended, but its after state could not be saved. Review the current files. An exact change result is not available for this task.".

Definition unavailable (c : AgentConversation) (m : AgentConversationMessage) :
    result AgentTurnChanges LocalWtsError :=
  let? request_id := ok_or (am_request_id m) AgentConversationNotFound in
  let? session_id := ok_or (am_session_id m) AgentConversationNotFound in
  let? digest := ok_or (source_digest (cv_source c)) AgentConversationUnavailable in
  Ok {| tc_schema_version := 1; tc_conversation_id := cv_conversation_id c;
        tc_request_id := request_id; tc_session_id := session_id;
        tc_workspace_id := cv_workspace_id c; tc_repository_id := cv_repository_id c;
        tc_source_context_sha256 := digest; tc_state := TurnUnavailable;
        tc_observation := ObservedNormal; tc_started_at_unix_ms := am_created_at_unix_ms m;
        tc_completed_at_unix_ms := None; tc_before := None; tc_after := None; tc_files := [];
        tc_omitted_file_count := 0; tc_patch := []; tc_patch_truncated := false;
        tc_detail := UNSAVED |}.

(** The agent's message of a turn, when a message of the user belongs to it. *)
Definition turn_message (c : AgentConversation) (request_id : Uuid) :
    result AgentConversationMessage LocalWtsError :=
  let? m := ok_or (find_message (λ m, bool_decide (am_role m = RoleAssistant)
                                      && bool_decide (am_request_id m = Some request_id))
                     (cv_messages c)) AgentConversationNotFound in
  ensure guard_err (negb (existsb (λ user, is_user user
                                   && bool_decide (am_request_id user = Some request_id)
                                   && bool_decide (am_session_id user = am_session_id m))
                            (cv_messages c))) AgentConversationNotFound in
  Ok m.

(** A stored receipt must be the one the conversation expects; one still capturing after its
    turn has ended is unavailable. *)
Definition receipt_view (expected : AgentTurnChanges) (m : AgentConversationMessage)
    (conversation_id request_id : Uuid) (stored : StoredTurn) :
    result AgentTurnChanges LocalWtsError :=
  let receipt := st_receipt stored in
  ensure guard_err (negb (tc_conversation_id receipt =? conversation_id)
                    || negb (tc_request_id receipt =? request_id)
                    || negb (tc_session_id receipt =? tc_session_id expected)
                    || negb (tc_workspace_id receipt =? tc_workspace_id expected)
                    || negb (bool_decide (tc_repository_id receipt = tc_repository_id expected))
                    || negb (bool_decide (tc_source_context_sha256 receipt
                                          = tc_source_context_sha256 expected)))
           AgentConversationUnavailable in
  Ok (if bool_decide (tc_state receipt = TurnCapturing)
         && negb (match am_status m with MPending | MRunning => true | _ => false end)
      then with_receipt_state receipt TurnUnavailable ENDED_UNSAVED else receipt).
End digests.
