(* ===== verification/WorkServices.v ===== *)
(** * What the scheduler of work sets asks of the rest of the service

    The scheduler runs while other calls go on: between two of its requests a conversation may
    move, a file may change, a lease may be taken.  So the services around it are operations on
    an outside state of any type, each of which may move it and may fail.  Here are the effects,
    the interface, and the calls of [agent_turn_changes.rs] that are composed of them. *)

From S2P Require Import Prelude Text StoreBase Conversations Captures.

Local Open Scope N_scope.

(** ** State with errors *)

Definition Act (S A : Type) : Type := S → result A LocalWtsError * S.

Definition act_ret {S A} (x : A) : Act S A := λ s, (Ok x, s).
Definition act_err {S A} (e : LocalWtsError) : Act S A := λ s, (Err e, s).
Definition act_lift {S A} (r : result A LocalWtsError) : Act S A := λ s, (r, s).
Definition act_bind {S A B} (m : Act S A) (k : A → Act S B) : Act S B := λ s,
  match m s with
  | (Ok x, s) => k x s
  | (Err e, s) => (Err e, s)
  end.

(** The outcome as a value: [match f() { Ok(..) => .., Err(..) => .. }]. *)
Definition act_try {S A} (m : Act S A) : Act S (result A LocalWtsError) := λ s,
  let '(r, s) := m s in (Ok r, s).

(** [map_err(|_| e)]. *)
Definition act_or {S A} (m : Act S A) (e : LocalWtsError) : Act S A := λ s,
  match m s with
  | (Ok x, s) => (Ok x, s)
  | (Err _, s) => (Err e, s)
  end.

Notation "'do!' x ':=' m 'in' k" := (act_bind m (λ x, k))
  (at level 10, x pattern, m at level 100, k at level 200,
   format "'[v' 'do!'  x  ':='  m  'in'  '/' k ']'") : wts_scope.
Notation "'check!' r 'in' k" := (act_bind (act_lift r) (λ _, k))
  (at level 10, r at level 100, k at level 200,
   format "'[v' 'check!'  r  'in'  '/' k ']'") : wts_scope.

(** [for x in l { f(x)?; }] with a value that is carried along. *)
Fixpoint act_fold {S A B} (f : B → A → Act S B) (b : B) (l : list A) : Act S B :=
  match l with
  | [] => act_ret b
  | x :: l' => do! b' := f b x in act_fold f b' l'
  end.

Fixpoint act_map {S A B} (f : A → Act S B) (l : list A) : Act S (list B) :=
  match l with
  | [] => act_ret []
  | x :: l' => do! y := f x in do! ys := act_map f l' in act_ret (y :: ys)
  end.

(** ** The interface *)

(** A file is replaced by renaming a new one over it; a failure after that is reported, but the
    file is there. *)
Inductive WriteOutcome :=
| Written (modified : Z)
| WrittenUnsynced (modified : Z)
| NotWritten.

Record CreateWork := {
  cw_key : Uuid;
  cw_title : str;
  cw_repository : str;
  cw_label : str;
  cw_base_ref : str
}.

Class WorkServices (W : Type) := {
  (* the host: clock, identifiers, the directory of work sets *)
  sv_now : W → Z * W;
  sv_fresh : W → Uuid * W;
  sv_lock : bool → Act W ();
  sv_listing : Act W ();
  sv_readable : W → bool * W;
  sv_directory : Act W ();
  sv_write : W → WriteOutcome * W;
  (* conversations *)
  sv_conversation_count : Act W nat;
  sv_get : Uuid → Act W AgentConversation;
  sv_read_conversation : Uuid → Act W AgentConversation;
  sv_work_conversations : Act W (list AgentConversation);
  sv_stop_session : Uuid → Act W ();
  sv_cancel_message : Uuid → Uuid → Uuid → str → Act W ();
  sv_store_locks : Act W ();
  sv_write_conversation : AgentConversation → Act W ();
  sv_send : Uuid → SendAgentConversationMessageRequest → Act W ();
  sv_verify_discussion : AgentConversation → Act W ();
  (* turns *)
  sv_turn_dir : Uuid → str;
  sv_record_exists : Uuid → Act W bool;
  sv_record : Uuid → Act W StoredTurn;
  sv_read_blob : str → str → Act W (list N);
  (* workspaces and worktrees *)
  sv_lease_workspace : Uuid → Act W ();
  sv_repository : str → Act W str;
  sv_create_workspace : CreateWork → Act W Uuid;
  sv_source_worktree : Uuid → str → Act W str;
  sv_preflight : Uuid → Act W (list str * str);
  sv_materialize : Uuid → str → Act W ();
  sv_workspace_root : Uuid → Act W str;
  sv_identity : str → Act W str;
  sv_capture : str → Act W WorktreeCheckpointCapture;
  sv_prepare_parent : str → str → str → Act W ();
  sv_restore : str → str → option (list N) → option N → option str → option N → str → Act W ()
}.

(** ** Changes of a turn *)

Record TrustedTurnCheckTarget := {
  tt_target : str;
  tt_receipt : AgentTurnChanges;
  tt_expected_digest : str;
  tt_expected_target_identity : str;
  tt_conversation : AgentConversation
}.

Section turns.
Context {W : Type} `{WorkServices W} `{CaptureDigests}.

Definition get_agent_turn_changes (conversation_id request_id : Uuid) : Act W AgentTurnChanges :=
  do! c := sv_get conversation_id in
  do! m := act_lift (turn_message c request_id) in
  do! expected := act_lift (unavailable c m) in
  do! exists_ := sv_record_exists (tc_session_id expected) in
  if exists_ then
    do! stored := sv_record (tc_session_id expected) in
    act_lift (receipt_view expected m conversation_id request_id stored)
  else act_ret expected.

Definition load_check_target (conversation_id request_id : Uuid) : Act W TrustedTurnCheckTarget :=
  do! receipt := get_agent_turn_changes conversation_id request_id in
  check! guard_err (negb (bool_decide (tc_state receipt = TurnReady))
                    || negb (bool_decide (tc_observation receipt = ObservedNormal))
                    || bool_decide (tc_after receipt = None)) AgentConversationConflict in
  do! c := sv_get conversation_id in
  do! target := sv_source_worktree (tc_workspace_id receipt) (tc_repository_id receipt) in
  do! stored := sv_record (tc_session_id receipt) in
  check! guard_err (negb (bool_decide (st_target stored = target))) AgentConversationConflict in
  do! identity := sv_identity target in
  check! guard_err (negb (bool_decide (identity = st_target_identity stored)))
           AgentConversationConflict in
  do! after := act_lift (ok_or (st_after stored) AgentConversationConflict) in
  do! digest := act_lift (canonical_capture_digest after) in
  act_ret {| tt_target := target; tt_receipt := receipt; tt_expected_digest := digest;
             tt_expected_target_identity := st_target_identity stored; tt_conversation := c |}.

Definition matches_check_target (target : TrustedTurnCheckTarget) : Act W bool :=
  do! identity := sv_identity (tt_target target) in
  if negb (bool_decide (identity = tt_expected_target_identity target)) then act_ret false
  else
    do! capture := act_or (sv_capture (tt_target target)) AgentConversationUnavailable in
    act_ret (match canonical_capture_digest capture with
             | Ok digest => bool_decide (digest = tt_expected_digest target)
             | Err _ => false
             end).
End turns.
