(* ===== verification/WorkSets.v ===== *)
(** * Agent work sets: requests, tasks and inputs ([crates/wts-app/src/agent_work_sets.rs])

    A work set runs up to eight tasks in workspaces of their own, each after its prerequisites.
    Here are the records, the check of a request, the check of a stored set, the refresh and the
    cancellation of a task, and the files a task starts from: the source of the set merged with
    the results of its direct prerequisites. *)

From S2P Require Import Prelude Order Text StoreBase Conversations Captures.

Local Open Scope N_scope.

(** ** Data *)

Inductive AgentWorkSetKind := Tasks | Alternatives.

Inductive AgentWorkItemState :=
| ItemPending | ItemPreparing | ItemQueued | ItemRunning | ItemCompleted | ItemFailed
| ItemBlocked | ItemCancelled.

Record AgentWorkItemRequest := {
  wr_task_id : Uuid;
  wr_title : str;
  wr_prompt : str;
  wr_depends_on : list Uuid
}.

Record CreateAgentWorkSetRequest := {
  wc_request_id : Uuid;
  wc_expected_after_checkpoint_id : Uuid;
  wc_kind : AgentWorkSetKind;
  wc_tasks : list AgentWorkItemRequest
}.

Record AgentWorkItemCancelRequest := {
  wx_request_id : Uuid;
  wx_expected_revision : N
}.

Record AgentWorkItem := {
  wi_task_id : Uuid;
  wi_title : str;
  wi_prompt : str;
  wi_depends_on : list Uuid;
  wi_state : AgentWorkItemState;
  wi_conversation_id : Uuid;
  wi_request_id : Uuid;
  wi_workspace_id : option Uuid;
  wi_repository_id : option str;
  wi_workspace_display_path : option str;
  wi_after_checkpoint_id : option Uuid;
  wi_detail : str
}.

Record AgentWorkSet := {
  aw_schema_version : N;
  aw_work_set_id : Uuid;
  aw_conversation_id : Uuid;
  aw_request_id : Uuid;
  aw_workspace_id : Uuid;
  aw_repository_id : str;
  aw_source_checkpoint_id : Uuid;
  aw_source_context_sha256 : str;
  aw_kind : AgentWorkSetKind;
  aw_revision : N;
  aw_created_at_unix_ms : Z;
  aw_updated_at_unix_ms : Z;
  aw_last_mutation_request_id : option Uuid;
  aw_tasks : list AgentWorkItem;
  aw_detail : str
}.

Record CancelReceipt := {
  xr_request : AgentWorkItemCancelRequest;
  xr_task_id : Uuid;
  xr_result : AgentWorkSet
}.

Record StoredWorkSet := {
  sw_request : CreateAgentWorkSetRequest;
  sw_view : AgentWorkSet;
  sw_source_session_id : Uuid;
  sw_source_target_identity : str;
  sw_cancellations : list CancelReceipt
}.

#[export] Instance work_set_kind_eq_dec : EqDecision AgentWorkSetKind.
Proof. solve_decision. Defined.
#[export] Instance work_item_state_eq_dec : EqDecision AgentWorkItemState.
Proof. solve_decision. Defined.
#[export] Instance work_item_request_eq_dec : EqDecision AgentWorkItemRequest.
Proof. solve_decision. Defined.
#[export] Instance create_work_set_request_eq_dec : EqDecision CreateAgentWorkSetRequest.
Proof. solve_decision. Defined.
#[export] Instance cancel_request_eq_dec : EqDecision AgentWorkItemCancelRequest.
Proof. solve_decision. Defined.
#[export] Instance work_item_eq_dec : EqDecision AgentWorkItem.
Proof. solve_decision. Defined.

Definition MAX_WORK_SETS : nat := Z.to_nat 4096.
Definition MAX_SET_BYTES : N := 2 * 1024 * 1024.
Definition MAX_ACTIVE_ITEMS : nat := 3.

(** ** The check of a request *)

Definition prompt_control (c : char) : bool :=
  is_control c && negb ((c =? 10) || (c =? 13) || (c =? 9)).

(** One round of the first loop; the state holds the identifiers seen. *)
Definition check_task (kind : AgentWorkSetKind) (ids : gset Uuid) (task : AgentWorkItemRequest) :
    result (gset Uuid) LocalWtsError :=
  ensure guard_err (is_nil (wr_task_id task)
                    || bool_decide (wr_task_id task ∈ ids)
                    || is_empty (trim (wr_title task)) || (160 <? byte_len (wr_title task))
                    || existsb is_control (wr_title task)
                    || is_empty (trim (wr_prompt task)) || (16384 <? byte_len (wr_prompt task))
                    || existsb prompt_control (wr_prompt task)
                    || (7 <? length (wr_depends_on task))%nat
                    || negb (bool_decide (size (list_to_set (wr_depends_on task) : gset Uuid)
                                          = length (wr_depends_on task)))
                    || (bool_decide (kind = Alternatives)
                        && negb (bool_decide (wr_depends_on task = []))))
           InvalidAgentConversation in
  Ok ({[wr_task_id task]} ∪ ids).

(** [for task in &request.tasks]: a task is done when all its prerequisites are. *)
Definition complete_ready (tasks : list AgentWorkItemRequest) (done : gset Uuid) : gset Uuid :=
  foldl (λ done task,
           if forallb (λ id, bool_decide (id ∈ done)) (wr_depends_on task)
           then {[wr_task_id task]} ∪ done else done) done tasks.

(** The second loop. *)
Fixpoint resolve_tasks (fuel : nat) (tasks : list AgentWorkItemRequest) (done : gset Uuid) :
    result () LocalWtsError :=
  match fuel with
  | O => Err InvalidAgentConversation
  | S fuel' =>
      let done' := complete_ready tasks done in
      if (size done' =? length tasks)%nat then Ok ()
      else if (size done =? size done')%nat then Err InvalidAgentConversation
      else resolve_tasks fuel' tasks done'
  end.

Definition validate_request (request : CreateAgentWorkSetRequest) : result () LocalWtsError :=
  ensure guard_err (is_nil (wc_request_id request)
                    || is_nil (wc_expected_after_checkpoint_id request)
                    || bool_decide (wc_tasks request = []) || (8 <? length (wc_tasks request))%nat)
           InvalidAgentConversation in
  let? _ := try_fold (check_task (wc_kind request)) ∅ (wc_tasks request) in
  resolve_tasks (S (length (wc_tasks request))) (wc_tasks request) ∅.

(** ** States of tasks *)

Definition terminal (state : AgentWorkItemState) : bool :=
  match state with
  | ItemCompleted | ItemFailed | ItemBlocked | ItemCancelled => true
  | _ => false
  end.

(** The text without NUL, cut before the character that exceeds 2,048 bytes. *)
Fixpoint bounded_chars (used : N) (value : str) : str :=
  match value with
  | [] => []
  | c :: value' =>
      if c =? 0 then bounded_chars used value'
      else if 2048 <? used + utf8_len c then []
      else c :: bounded_chars (used + utf8_len c) value'
  end.

Definition bounded_detail (value : str) : str := bounded_chars 0 value.

Definition with_item (task : AgentWorkItem) (state : AgentWorkItemState) (detail : str) :
    AgentWorkItem :=
  {| wi_task_id := wi_task_id task; wi_title := wi_title task; wi_prompt := wi_prompt task;
     wi_depends_on := wi_depends_on task; wi_state := state;
     wi_conversation_id := wi_conversation_id task; wi_request_id := wi_request_id task;
     wi_workspace_id := wi_workspace_id task; wi_repository_id := wi_repository_id task;
     wi_workspace_display_path := wi_workspace_display_path task;
     wi_after_checkpoint_id := wi_after_checkpoint_id task; wi_detail := detail |}.

Definition with_place (task : AgentWorkItem) (workspace_id : Uuid) (repository_id : str) :
    AgentWorkItem :=
  {| wi_task_id := wi_task_id task; wi_title := wi_title task; wi_prompt := wi_prompt task;
     wi_depends_on := wi_depends_on task; wi_state := wi_state task;
     wi_conversation_id := wi_conversation_id task; wi_request_id := wi_request_id task;
     wi_workspace_id := Some workspace_id; wi_repository_id := Some repository_id;
     wi_workspace_display_path := wi_workspace_display_path task;
     wi_after_checkpoint_id := wi_after_checkpoint_id task; wi_detail := wi_detail task |}.

Definition with_path (task : AgentWorkItem) (path : str) : AgentWorkItem :=
  {| wi_task_id := wi_task_id task; wi_title := wi_title task; wi_prompt := wi_prompt task;
     wi_depends_on := wi_depends_on task; wi_state := wi_state task;
     wi_conversation_id := wi_conversation_id task; wi_request_id := wi_request_id task;
     wi_workspace_id := wi_workspace_id task; wi_repository_id := wi_repository_id task;
     wi_workspace_display_path := Some path;
     wi_after_checkpoint_id := wi_after_checkpoint_id task; wi_detail := wi_detail task |}.

Definition with_checkpoint (task : AgentWorkItem) (checkpoint : option Uuid) : AgentWorkItem :=
  {| wi_task_id := wi_task_id task; wi_title := wi_title task; wi_prompt := wi_prompt task;
     wi_depends_on := wi_depends_on task; wi_state := wi_state task;
     wi_conversation_id := wi_conversation_id task; wi_request_id := wi_request_id task;
     wi_workspace_id := wi_workspace_id task; wi_repository_id := wi_repository_id task;
     wi_workspace_display_path := wi_workspace_display_path task;
     wi_after_checkpoint_id := checkpoint; wi_detail := wi_detail task |}.

(** A view with other tasks and detail, at a revision and time. *)
Definition revised (view : AgentWorkSet) (tasks : list AgentWorkItem) (detail : str)
    (mutation : option Uuid) (now : Z) : AgentWorkSet :=
  {| aw_schema_version := aw_schema_version view; aw_work_set_id := aw_work_set_id view;
     aw_conversation_id := aw_conversation_id view; aw_request_id := aw_request_id view;
     aw_workspace_id := aw_workspace_id view; aw_repository_id := aw_repository_id view;
     aw_source_checkpoint_id := aw_source_checkpoint_id view;
     aw_source_context_sha256 := aw_source_context_sha256 view; aw_kind := aw_kind view;
     aw_revision := aw_revision view + 1; aw_created_at_unix_ms := aw_created_at_unix_ms view;
     aw_updated_at_unix_ms := now; aw_last_mutation_request_id := mutation;
     aw_tasks := tasks; aw_detail := detail |}.

Definition with_tasks (view : AgentWorkSet) (tasks : list AgentWorkItem) : AgentWorkSet :=
  {| aw_schema_version := aw_schema_version view; aw_work_set_id := aw_work_set_id view;
     aw_conversation_id := aw_conversation_id view; aw_request_id := aw_request_id view;
     aw_workspace_id := aw_workspace_id view; aw_repository_id := aw_repository_id view;
     aw_source_checkpoint_id := aw_source_checkpoint_id view;
     aw_source_context_sha256 := aw_source_context_sha256 view; aw_kind := aw_kind view;
     aw_revision := aw_revision view; aw_created_at_unix_ms := aw_created_at_unix_ms view;
     aw_updated_at_unix_ms := aw_updated_at_unix_ms view;
     aw_last_mutation_request_id := aw_last_mutation_request_id view;
     aw_tasks := tasks; aw_detail := aw_detail view |}.

Definition with_view (set : StoredWorkSet) (view : AgentWorkSet) : StoredWorkSet :=
  {| sw_request := sw_request set; sw_view := view;
     sw_source_session_id := sw_source_session_id set;
     sw_source_target_identity := sw_source_target_identity set;
     sw_cancellations := sw_cancellations set |}.

(** ** The check of a stored set *)

Definition task_matches (task : AgentWorkItem) (request : AgentWorkItemRequest) : bool :=
  bool_decide (wi_task_id task = wr_task_id request)
  && bool_decide (wi_title task = wr_title request)
  && bool_decide (wi_prompt task = wr_prompt request)
  && bool_decide (wi_depends_on task = wr_depends_on request)
  && negb (is_nil (wi_conversation_id task)) && negb (is_nil (wi_request_id task)).

Definition cancelled_in (view : AgentWorkSet) (task_id : Uuid) : bool :=
  existsb (λ task, bool_decide (wi_task_id task = task_id)
                   && bool_decide (wi_state task = ItemCancelled)) (aw_tasks view).

Definition check_receipt (id : Uuid) (view : AgentWorkSet) (mutations : gset Uuid)
    (receipt : CancelReceipt) : result (gset Uuid) LocalWtsError :=
  let request_id := wx_request_id (xr_request receipt) in
  let result := xr_result receipt in
  ensure guard_err (is_nil request_id || bool_decide (request_id ∈ mutations)
                    || negb (aw_work_set_id result =? id)
                    || negb (aw_conversation_id result =? aw_conversation_id view)
                    || negb (aw_request_id result =? aw_request_id view)
                    || negb (bool_decide (aw_last_mutation_request_id result = Some request_id))
                    || (aw_revision view <? aw_revision result)
                    || negb (cancelled_in result (xr_task_id receipt))
                    || negb (cancelled_in view (xr_task_id receipt)))
           AgentConversationUnavailable in
  Ok ({[request_id]} ∪ mutations).

(** The checks of [read_set] on what it has decoded. *)
Definition check_set (id : Uuid) (set : StoredWorkSet) : result () LocalWtsError :=
  let view := sw_view set in
  let request := sw_request set in
  ensure guard_err (negb (is_ok (validate_request request))) AgentConversationUnavailable in
  ensure guard_err (negb (aw_schema_version view =? 1) || negb (aw_work_set_id view =? id)
                    || negb (wc_request_id request =? id)
                    || negb (length (aw_tasks view) =? length (wc_tasks request))%nat
                    || (aw_revision view =? 0)
                    || negb (aw_source_checkpoint_id view =? wc_expected_after_checkpoint_id request)
                    || (8 <? length (sw_cancellations set))%nat
                    || negb (bool_decide (aw_kind view = wc_kind request))
                    || is_nil (aw_conversation_id view) || is_nil (aw_request_id view)
                    || existsb (λ pair, negb (task_matches pair.1 pair.2))
                         (zip (aw_tasks view) (wc_tasks request)))
           AgentConversationUnavailable in
  let? _ := try_fold (check_receipt id view) ∅ (sw_cancellations set) in
  Ok ().

(** ** The files a task starts from *)

(** [ancestor] recurses along the prerequisites; they are acyclic, so the number of tasks is
    enough fuel. *)
Fixpoint ancestor (fuel : nat) (tasks : list AgentWorkItem) (above id : Uuid) : bool :=
  match fuel with
  | O => false
  | S fuel' =>
      match head (filter (λ task, wi_task_id task = id) tasks) with
      | Some task =>
          bool_decide (above ∈ wi_depends_on task)
          || existsb (λ parent, ancestor fuel' tasks above parent) (wi_depends_on task)
      | None => false
      end
  end.

(** The prerequisites that no other prerequisite already includes. *)
Definition direct_prerequisites (tasks : list AgentWorkItem) (dependencies : list Uuid) : list Uuid :=
  filter (λ id, negb (existsb (λ other, negb (bool_decide (other = id))
                                        && ancestor (length tasks) tasks id other) dependencies)
                = true) dependencies.

(** The files so far, and the directory that holds the bytes of each hash. *)
Definition Merge : Type := CapturedFiles * gmap str str.

(** One path of the result of a prerequisite. *)
Definition merge_path (original incoming : CapturedFiles) (dir : str) (merge : Merge) (path : str) :
    result Merge LocalWtsError :=
  let '(desired, blobs) := merge in
  if same_file (original !! path) (incoming !! path) then Ok merge
  else if negb (same_file (desired !! path) (original !! path))
          && negb (same_file (desired !! path) (incoming !! path))
  then Err AgentConversationConflict
  else
    match incoming !! path with
    | Some file =>
        Ok (<[path := file]> desired,
            match cw_sha256 file with Some hash => <[hash := dir]> blobs | None => blobs end)
    | None => Ok (delete path desired, blobs)
    end.

Definition merge_paths (original incoming : CapturedFiles) : list str :=
  sort_by str_cmp (elements (dom original ∪ dom incoming)).

Definition merge_result (original : CapturedFiles) (merge : Merge) (incoming : CapturedFiles * str) :
    result Merge LocalWtsError :=
  try_fold (merge_path original incoming.1 incoming.2) merge (merge_paths original incoming.1).

Definition source_blobs (original : CapturedFiles) (dir : str) : gmap str str :=
  foldl (λ blobs entry, match cw_sha256 entry.2 with
                        | Some hash => <[hash := dir]> blobs
                        | None => blobs
                        end) ∅ (map_to_list original).

(** Whether a worktree may be brought from [current] to [desired]: no file that is neither as it
    was at first nor as it should be. *)
Definition worktree_conflict (current initial desired : CapturedFiles) (complete : bool) : bool :=
  existsb (λ path, negb (same_file (current !! path) (desired !! path))
                   && (complete || negb (same_file (current !! path) (initial !! path))))
    (elements (dom current ∪ dom initial ∪ dom desired)).
