(* ===== verification/WorkSetRequests.v ===== *)
(** * Agent work sets: which requests are accepted

    The loops of [validate_request] accept a request exactly when its tasks are well formed and
    can be ordered so that each comes after its prerequisites. *)

From S2P Require Import Prelude Order Text StoreBase Conversations Captures WorkSets.

Local Open Scope N_scope.

(** ** Specification *)

Record task_ok (kind : AgentWorkSetKind) (task : AgentWorkItemRequest) : Prop := {
  tk_id : wr_task_id task ≠ 0;
  tk_title : trim (wr_title task) ≠ [] ∧ byte_len (wr_title task) ≤ 160 ∧
    ∀ c, c ∈ wr_title task → is_control c = false;
  tk_prompt : trim (wr_prompt task) ≠ [] ∧ byte_len (wr_prompt task) ≤ 16384 ∧
    ∀ c, c ∈ wr_prompt task → is_control c = true → c = 10 ∨ c = 13 ∨ c = 9;
  tk_depends : (length (wr_depends_on task) ≤ 7)%nat ∧ NoDup (wr_depends_on task);
  tk_alternative : kind = Alternatives → wr_depends_on task = []
}.

(** Every task of the list comes after its prerequisites. *)
Definition ordered (order : list AgentWorkItemRequest) : Prop :=
  ∀ before task after, order = before ++ task :: after →
    ∀ id, id ∈ wr_depends_on task → id ∈ wr_task_id <$> before.

Record request_ok (request : CreateAgentWorkSetRequest) : Prop := {
  rk_request : wc_request_id request ≠ 0;
  rk_checkpoint : wc_expected_after_checkpoint_id request ≠ 0;
  rk_count : (1 ≤ length (wc_tasks request) ≤ 8)%nat;
  rk_tasks : Forall (task_ok (wc_kind request)) (wc_tasks request);
  rk_distinct : NoDup (wr_task_id <$> wc_tasks request);
  rk_ordered : ∃ order, order ≡ₚ wc_tasks request ∧ ordered order
}.

(** ** One task *)

Lemma prompt_control_false c :
  prompt_control c = false ↔ (is_control c = true → c = 10 ∨ c = 13 ∨ c = 9).
Proof.
  unfold prompt_control. destruct (is_control c); cbn; [|by split].
  rewrite negb_false_iff, !orb_true_iff, !N.eqb_eq. split; [intros H _|intros H]; tauto.
Qed.

Lemma check_task_spec kind ids task ids' :
  check_task kind ids task = Ok ids' ↔
  task_ok kind task ∧ (wr_task_id task ∉ ids) ∧ ids' = {[wr_task_id task]} ∪ ids.
Proof.
  unfold check_task, is_nil. rewrite ensure_Ok.
  rewrite !orb_false_iff, !andb_false_iff, !negb_false_iff.
  rewrite !bool_decide_eq_false, !bool_decide_eq_true, N.eqb_neq, !N.ltb_ge, Nat.ltb_ge.
  rewrite !is_empty_nil, !existsb_false, size_list_to_set_iff.
  setoid_rewrite prompt_control_false. split.
  - intros (Hall & [= <-]). split; [|tauto]. destruct Hall as [[[[[[[[[[]]]]]]]]]].
    split; try done. naive_solver.
  - intros ([H1 H2 H3 H4 H5] & Hn & ->). split; [|done].
    destruct (decide (kind = Alternatives)); naive_solver.
Qed.

Lemma check_tasks_spec kind tasks ids ids' :
  try_fold (check_task kind) ids tasks = Ok ids' ↔
  Forall (task_ok kind) tasks ∧ NoDup (wr_task_id <$> tasks) ∧
  (∀ id, id ∈ wr_task_id <$> tasks → id ∉ ids) ∧
  ids' = list_to_set (wr_task_id <$> tasks) ∪ ids.
Proof.
  revert ids. induction tasks as [|task tasks IH]; intros ids; cbn.
  - split; [intros [= <-]; split_and!; [constructor..|set_solver|set_solver]|].
    intros (_ & _ & _ & ->). f_equal. set_solver.
  - rewrite rbind_Ok, Forall_cons, NoDup_cons. setoid_rewrite check_task_spec.
    setoid_rewrite IH. setoid_rewrite elem_of_cons. split.
    + intros (t & (Hok & Hn & ->) & Hall & Hnd & Hd & ->). split_and!; try done.
      * intros Hin. by apply (Hd _ Hin), elem_of_union; left; apply elem_of_singleton.
      * intros id [->|Hin]; [done|]. specialize (Hd _ Hin). set_solver.
      * set_solver.
    + intros ([Hok Hall] & [Hn Hnd] & Hd & ->). eexists. split_and!; [done|auto|done|done|done|..].
      * intros id Hin. rewrite not_elem_of_union, not_elem_of_singleton. split; [|auto].
        by intros ->.
      * set_solver.
Qed.

(** ** The order of the tasks *)

Section order.
Context (tasks : list AgentWorkItemRequest).
Hypothesis distinct : NoDup (wr_task_id <$> tasks).

(** A set of finished tasks that can be reached: they have an order. *)
Definition finished (fin : gset Uuid) : Prop :=
  ∃ order, ordered order ∧ NoDup (wr_task_id <$> order) ∧ order ⊆ tasks ∧
    fin = list_to_set (wr_task_id <$> order).

Lemma ordered_snoc order task :
  ordered order → wr_depends_on task ⊆ (wr_task_id <$> order) → ordered (order ++ [task]).
Proof.
  intros Ho Hd before t after Heq id Hid.
  destruct (decide (after = [])) as [->|Hne].
  - apply app_inj_2 in Heq as [<- [= <-]]; [by apply Hd|done].
  - destruct (exists_last Hne) as (after' & x & ->).
    rewrite app_comm_cons, app_assoc in Heq. apply app_inj_2 in Heq as [-> _]; [|done].
    by eapply Ho.
Qed.

Lemma ordered_prefix order rest : ordered (order ++ rest) → ordered order.
Proof.
  intros Ho before task after -> id Hid. eapply Ho; [|done]. by rewrite <- app_assoc.
Qed.

Lemma finished_size fin : finished fin → (size fin ≤ length tasks)%nat.
Proof.
  intros (order & _ & Hnd & Hsub & ->). rewrite size_list_to_set by done. rewrite length_fmap.
  apply submseteq_length, NoDup_submseteq; [by eapply NoDup_fmap_1|done].
Qed.

(** One turn of the loop over the tasks. *)
Local Abbreviation step fin task :=
  (if forallb (λ id, bool_decide (id ∈ fin)) (wr_depends_on task)
   then {[wr_task_id task]} ∪ fin else fin).

Lemma finished_step fin task : finished fin → task ∈ tasks → finished (step fin task).
Proof.
  intros Hf Ht. destruct (forallb _ _) eqn:Hall; [|done].
  destruct (decide (wr_task_id task ∈ fin)) as [Hin|Hn].
  { by rewrite subseteq_union_1_L by set_solver. }
  destruct Hf as (order & Ho & Hnd & Hsub & ->). exists (order ++ [task]).
  assert (wr_task_id task ∉ wr_task_id <$> order) as Hn' by by rewrite elem_of_list_to_set in Hn.
  split_and!.
  - apply ordered_snoc; [done|]. intros id Hid. rewrite forallb_spec in Hall.
    specialize (Hall id Hid). apply bool_decide_eq_true in Hall.
    by apply elem_of_list_to_set in Hall.
  - rewrite fmap_app. apply NoDup_app. split_and!; [done| |apply NoDup_singleton].
    intros x Hx ->%list_elem_of_singleton. done.
  - intros x [Hx| ->%list_elem_of_singleton]%elem_of_app; auto.
  - rewrite fmap_app, list_to_set_app_L. cbn. set_solver.
Qed.

Lemma step_mono (fin : gset Uuid) task : fin ⊆ step fin task.
Proof. destruct (forallb _ _); set_solver. Qed.

Lemma complete_mono l fin : fin ⊆ complete_ready l fin.
Proof.
  unfold complete_ready. revert fin. induction l as [|task l IH]; intros fin; cbn; [done|].
  etrans; [apply (step_mono fin task)|apply IH].
Qed.

Lemma complete_finished l fin : l ⊆ tasks → finished fin → finished (complete_ready l fin).
Proof.
  unfold complete_ready. revert fin. induction l as [|task l IH]; intros fin Hl Hf; cbn; [done|].
  apply IH; [set_solver|]. apply finished_step; [done|set_solver].
Qed.

(** A task whose prerequisites are done when the loop starts is done when it ends. *)
Lemma complete_takes l fin task :
  task ∈ l → (∀ id, id ∈ wr_depends_on task → id ∈ fin) →
  wr_task_id task ∈ complete_ready l fin.
Proof.
  unfold complete_ready. revert fin. induction l as [|t l IH]; intros fin Hin Hd; cbn.
  { by apply elem_of_nil in Hin. }
  apply elem_of_cons in Hin as [->|Hin].
  - apply (complete_mono l). destruct (forallb _ _) eqn:Hall; [set_solver|].
    apply not_true_iff_false in Hall. destruct Hall. apply forallb_spec. intros id Hid.
    by apply bool_decide_eq_true, Hd.
  - apply IH; [done|]. intros id Hid. by apply step_mono, Hd.
Qed.

(** When a round adds nothing, every task of an order is done. *)
Lemma stuck_complete fin order :
  complete_ready tasks fin = fin → ordered order → order ⊆ tasks →
  wr_task_id <$> order ⊆ elements fin.
Proof.
  intros Heq. induction order as [|task order IH] using rev_ind; intros Ho Hsub; [set_solver|].
  specialize (IH (ordered_prefix _ _ Ho) ltac:(set_solver)).
  intros id. rewrite fmap_app, elem_of_app. intros [Hin|Hin%list_elem_of_singleton]; [by apply IH|].
  subst id. apply elem_of_elements. rewrite <- Heq. apply complete_takes; [set_solver|].
  intros id Hid. specialize (Ho order task [] eq_refl id Hid).
  by apply elem_of_elements, IH.
Qed.

Definition orderable : Prop := ∃ order, order ≡ₚ tasks ∧ ordered order.

Lemma all_finished fin : finished fin → size fin = length tasks → orderable.
Proof.
  intros (order & Ho & Hnd & Hsub & ->). rewrite size_list_to_set, length_fmap by done.
  intros Hlen. exists order. split; [|done]. apply submseteq_length_Permutation; [|lia].
  apply NoDup_submseteq; [by eapply NoDup_fmap_1|done].
Qed.

Lemma stuck_unorderable fin :
  finished fin → complete_ready tasks fin = fin → size fin ≠ length tasks → ¬ orderable.
Proof.
  intros Hf Heq Hne (order & Hp & Ho). pose proof (finished_size _ Hf). apply Hne.
  enough (length tasks ≤ size fin)%nat by lia.
  rewrite <- (Permutation_length Hp), <- (length_fmap wr_task_id order).
  apply submseteq_length, NoDup_submseteq; [by rewrite Hp|].
  apply stuck_complete; [done..|]. intros x. by rewrite Hp.
Qed.

(** The fuel left and the tasks fin exceed the number of tasks, so the loop ends with an
    answer: each round that does not end it finishes a task. *)
Lemma resolve_spec fuel fin :
  finished fin → (length tasks < fuel + size fin)%nat →
  resolve_tasks fuel tasks fin = Ok () ∧ orderable ∨
  resolve_tasks fuel tasks fin = Err InvalidAgentConversation ∧ ¬ orderable.
Proof.
  revert fin. induction fuel as [|fuel IH]; intros fin Hf Hfuel; cbn.
  { pose proof (finished_size _ Hf). lia. }
  pose proof (complete_finished tasks fin ltac:(done) Hf) as Hf'.
  pose proof (complete_mono tasks fin) as Hmono.
  destruct (Nat.eqb_spec (size (complete_ready tasks fin)) (length tasks)) as [Heq|Hne].
  { left. split; [done|by eapply all_finished]. }
  destruct (Nat.eqb_spec (size fin) (size (complete_ready tasks fin))) as [Heq|Hne'].
  - right. split; [done|]. assert (complete_ready tasks fin = fin) as Hstuck.
    { symmetry. apply leibniz_equiv, set_subseteq_size_equiv; [done|lia]. }
    rewrite Hstuck in Hne. by apply (stuck_unorderable fin).

  - apply IH; [done|]. pose proof (subseteq_size _ _ Hmono). lia.
Qed.

Lemma nothing_finished : finished ∅.
Proof.
  exists []. split_and!; [|apply NoDup_nil_2|apply list_subseteq_nil|done].
  intros before task after Heq. by destruct before.
Qed.

Lemma resolve_tasks_spec :
  resolve_tasks (S (length tasks)) tasks ∅ = Ok () ∧ orderable ∨
  resolve_tasks (S (length tasks)) tasks ∅ = Err InvalidAgentConversation ∧ ¬ orderable.
Proof. apply resolve_spec; [apply nothing_finished|]. rewrite size_empty. lia. Qed.
End order.

(** ** The whole check *)

Lemma validate_request_Ok request : validate_request request = Ok () ↔ request_ok request.
Proof.
  unfold validate_request, is_nil.
  rewrite ensure_Ok, rbind_Ok, !orb_false_iff, !N.eqb_neq, bool_decide_eq_false, Nat.ltb_ge.
  setoid_rewrite check_tasks_spec. split.
  - intros ([[[H1 H2] H3] H4] & ids & (Hall & Hnd & _ & _) & Hres).
    split; try done; [destruct (wc_tasks request); cbn in *; [done|lia]|].
    by destruct (resolve_tasks_spec _ Hnd) as [[_ ?]|[He _]]; [|congruence].
  - intros [H1 H2 [H3 H4] Hall Hnd Hord]. split_and!; try done.
    + intros Heq. rewrite Heq in H3. cbn in H3. lia.
    + eexists. split; [split_and!; [done..|set_solver|done]|].
      by destruct (resolve_tasks_spec _ Hnd) as [[? _]|[_ Hn]]; [|destruct Hn].
Qed.

Lemma validate_request_Err request e :
  validate_request request = Err e → e = InvalidAgentConversation.
Proof.
  unfold validate_request. rewrite rbind_Err.
  intros [[_ ->]%guard_err_Err|(_ & _ & He)]; [done|].
  apply rbind_Err in He as [He|(ids & Hids & He)].
  - apply try_fold_Err in He as (t & task & _ & He). unfold check_task in He.
    apply rbind_Err in He as [[_ ->]%guard_err_Err|(_ & _ & ?)]; done.
  - apply check_tasks_spec in Hids as (_ & Hnd & _).
    destruct (resolve_tasks_spec _ Hnd) as [[? _]|[? _]]; congruence.
Qed.

(** C23: A request for a work set is accepted exactly when it names itself and the checkpoint it
    starts from, has one to eight well-formed tasks with distinct identifiers, and its tasks can
    be put in an order in which each follows its prerequisites; any other request is refused,
    and the loops always end with one of the two answers. *)
Theorem work_request_decides request :
  (validate_request request = Ok () ↔ request_ok request) ∧
  (validate_request request = Err InvalidAgentConversation ↔ ¬ request_ok request).
Proof.
  split; [apply validate_request_Ok|]. rewrite <- validate_request_Ok.
  destruct (validate_request request) as [[]|e] eqn:He; [by split; [|intros []]|].
  apply validate_request_Err in He as ->. by split.
Qed.
