(* ===== verification/WorkSetMerge.v ===== *)
(** * Agent work sets: the files a task starts from

    The results of the prerequisites of a task are merged over the files of the source: a
    three-way merge by whole files, with the source as the base.  [ancestor] decides the
    transitive closure of the prerequisites, so that only the last results are merged. *)

From S2P Require Import Prelude Order Text StoreBase Conversations Captures WorkSets WorkSetRequests.

Local Open Scope N_scope.

(** ** One result *)

(** A result changes a path when it has another version of it than the source. *)
Definition changes (original incoming : CapturedFiles) (path : str) : Prop :=
  file_key (original !! path) ≠ file_key (incoming !! path).

#[export] Instance changes_dec original incoming path : Decision (changes original incoming path).
Proof. unfold changes. apply _. Defined.

Lemma same_file_true a b : same_file a b = true ↔ file_key a = file_key b.
Proof. apply bool_decide_eq_true. Qed.
Lemma same_file_false a b : same_file a b = false ↔ file_key a ≠ file_key b.
Proof. apply bool_decide_eq_false. Qed.

(** The files already merged hold another version than both. *)
Definition conflicts (original incoming desired : CapturedFiles) (path : str) : Prop :=
  changes original incoming path ∧ file_key (desired !! path) ≠ file_key (original !! path) ∧
  file_key (desired !! path) ≠ file_key (incoming !! path).

#[export] Instance conflicts_dec original incoming desired path :
  Decision (conflicts original incoming desired path).
Proof. unfold conflicts. apply _. Defined.

(** The content of every file of [files] is to be found. *)
Definition has_hash (files : CapturedFiles) (hash : str) : Prop :=
  ∃ path file, files !! path = Some file ∧ cw_sha256 file = Some hash.

Definition covered (known : str → str → Prop) (files : CapturedFiles) (blobs : gmap str str) : Prop :=
  (∀ hash, has_hash files hash → is_Some (blobs !! hash)) ∧
  (∀ hash dir, blobs !! hash = Some dir → known hash dir).

Section merge.
Context (original : CapturedFiles).

Lemma merge_path_Ok incoming dir desired blobs path merge :
  merge_path original incoming dir (desired, blobs) path = Ok merge →
  ¬ conflicts original incoming desired path ∧
  merge.1 !! path = (if decide (changes original incoming path)
                     then incoming !! path else desired !! path) ∧
  ∀ other, other ≠ path → merge.1 !! other = desired !! other.
Proof.
  unfold merge_path, conflicts. destruct (same_file (original !! path) _) eqn:Hs.
  - intros [= <-]. apply same_file_true in Hs. rewrite decide_False by by intros ?.
    split_and!; [by intros [? _]|done|done].
  - apply same_file_false in Hs. rewrite decide_True by done.
    destruct (negb _ && negb _) eqn:Hc; [done|]. intros Hm. split.
    + intros (_ & H1 & H2). apply same_file_false in H1, H2. by rewrite H1, H2 in Hc.
    + destruct (incoming !! path) as [file|]; injection Hm as <-; cbn.
      * split; [apply lookup_insert_eq|]. intros other Hne. by apply lookup_insert_ne.
      * split; [apply lookup_delete_eq|]. intros other Hne. by apply lookup_delete_ne.
Qed.

Lemma merge_path_Err incoming dir desired blobs path e :
  merge_path original incoming dir (desired, blobs) path = Err e ↔
  e = AgentConversationConflict ∧ conflicts original incoming desired path.
Proof.
  unfold merge_path, conflicts. destruct (same_file (original !! path) _) eqn:Hs.
  - apply same_file_true in Hs. split; [done|]. by intros (_ & ? & _).
  - apply same_file_false in Hs. destruct (negb _ && negb _) eqn:Hc.
    + apply andb_true_iff in Hc as [?%negb_true_iff ?%negb_true_iff].
      rewrite <- !same_file_false. split; [by intros [= <-]|by intros [-> _]].
    + split; [by destruct (incoming !! path)|]. rewrite <- !same_file_false.
      intros (_ & _ & H1 & H2). by rewrite H1, H2 in Hc.
Qed.

(** The loop over distinct paths treats each by itself. *)
Lemma merge_paths_Ok incoming dir l desired blobs merge :
  NoDup l → try_fold (merge_path original incoming dir) (desired, blobs) l = Ok merge →
  ∀ path, (path ∈ l → ¬ conflicts original incoming desired path) ∧
    merge.1 !! path = (if decide (path ∈ l ∧ changes original incoming path)
                       then incoming !! path else desired !! path).
Proof.
  revert desired blobs. induction l as [|x l IH]; intros desired blobs Hnd; cbn [try_fold].
  - intros [= <-] path. rewrite decide_False by by intros [?%elem_of_nil _].
    split; [by intros ?%elem_of_nil|done].
  - apply NoDup_cons in Hnd as [Hx Hnd]. intros ([d b] & Hm & Hl)%rbind_Ok path.
    apply merge_path_Ok in Hm as (Hc & Hhere & Hother). cbn in Hhere, Hother.
    destruct (IH _ _ Hnd Hl path) as [Hno ->]. destruct (decide (path = x)) as [->|Hne].
    + split; [done|]. rewrite decide_False by naive_solver. rewrite Hhere.
      repeat case_decide; set_solver.
    + rewrite Hother by done. split.
      * intros [?|Hin]%elem_of_cons; [done|]. specialize (Hno Hin).
        unfold conflicts in *. by rewrite Hother in Hno.
      * repeat case_decide; set_solver.
Qed.

Lemma merge_paths_Err incoming dir l desired blobs e :
  NoDup l →
  try_fold (merge_path original incoming dir) (desired, blobs) l = Err e ↔
  e = AgentConversationConflict ∧ ∃ path, path ∈ l ∧ conflicts original incoming desired path.
Proof.
  revert desired blobs. induction l as [|x l IH]; intros desired blobs Hnd; cbn [try_fold].
  - split; [done|]. by intros (_ & ? & ?%elem_of_nil & _).
  - apply NoDup_cons in Hnd as [Hx Hnd]. setoid_rewrite elem_of_cons.
    destruct (merge_path original incoming dir (desired, blobs) x) as [[d b]|e'] eqn:Hm; cbn [rbind].
    + apply merge_path_Ok in Hm as (Hc & _ & Hother). cbn in Hother. rewrite IH by done.
      split; intros [-> (path & Hin & Hp)]; (split; [done|]); exists path.
      * split; [by right|]. unfold conflicts in *. by rewrite Hother in Hp by by intros ->.
      * destruct Hin as [->|Hin]; [done|]. split; [done|]. unfold conflicts in *.
        by rewrite Hother by by intros ->.
    + apply merge_path_Err in Hm as [-> Hc].
      split; [intros [= <-]; split; [done|]; eauto|by intros [-> _]].
Qed.

Lemma merge_paths_NoDup incoming : NoDup (merge_paths original incoming).
Proof.
  unfold merge_paths. rewrite (sort_by_perm str_cmp). apply NoDup_elements.
Qed.

Lemma changes_in_paths incoming path :
  changes original incoming path → path ∈ merge_paths original incoming.
Proof.
  intros Hc. unfold merge_paths. rewrite (elem_of_sort_by str_cmp), elem_of_elements, elem_of_union.
  rewrite !elem_of_dom. unfold changes in Hc.
  destruct (original !! path); [left; by eexists|]. destruct (incoming !! path); [|done].
  right; by eexists.
Qed.

Lemma merge_result_Ok incoming dir desired blobs merge path :
  merge_result original (desired, blobs) (incoming, dir) = Ok merge →
  ¬ conflicts original incoming desired path ∧
  merge.1 !! path = (if decide (changes original incoming path)
                     then incoming !! path else desired !! path).
Proof.
  intros Hm. destruct (merge_paths_Ok _ _ _ _ _ _ (merge_paths_NoDup incoming) Hm path) as [Hno ->].
  split.
  - intros Hc. by apply Hno; [apply changes_in_paths, Hc|].
  - pose proof (changes_in_paths incoming path). repeat case_decide; naive_solver.
Qed.

Lemma merge_result_Err incoming dir desired blobs e :
  merge_result original (desired, blobs) (incoming, dir) = Err e ↔
  e = AgentConversationConflict ∧ ∃ path, conflicts original incoming desired path.
Proof.
  unfold merge_result. cbn. rewrite merge_paths_Err by apply merge_paths_NoDup.
  split; intros [-> (path & Hp)]; (split; [done|]); exists path; [apply Hp|].
  split; [|done]. by apply changes_in_paths, Hp.
Qed.

(** ** All results *)

Local Abbreviation merge_all := (try_fold (merge_result original)).

(** What the files merged so far stand for. *)
Definition merged (results : list (CapturedFiles * str)) (desired : CapturedFiles) : Prop :=
  ∀ path,
    (∀ r, r ∈ results → changes original r.1 path →
       file_key (desired !! path) = file_key (r.1 !! path)) ∧
    ((∀ r, r ∈ results → ¬ changes original r.1 path) → desired !! path = original !! path).

(** Two results that change a path into different versions. *)
Definition collide (results : list (CapturedFiles * str)) : Prop :=
  ∃ r1 r2 path, r1 ∈ results ∧ r2 ∈ results ∧
    changes original r1.1 path ∧ changes original r2.1 path ∧
    file_key (r1.1 !! path) ≠ file_key (r2.1 !! path).

Lemma merged_changed results desired path :
  merged results desired → file_key (desired !! path) ≠ file_key (original !! path) →
  ∃ r, r ∈ results ∧ changes original r.1 path ∧ file_key (desired !! path) = file_key (r.1 !! path).
Proof.
  intros Hm Hne. destruct (Hm path) as [Hch Hno].
  destruct (decide (Exists (λ r, changes original r.1 path) results)) as [Hex|Hex].
  - apply Exists_exists in Hex as (r & Hr & Hc). exists r. auto.
  - rewrite <- Forall_Exists_neg, Forall_forall in Hex. by rewrite Hno in Hne.
Qed.

Lemma conflict_collides results desired incoming dir path :
  merged results desired → conflicts original incoming desired path →
  collide (results ++ [(incoming, dir)]).
Proof.
  intros Hm (Hc & H1 & H2). destruct (merged_changed _ _ _ Hm H1) as (r & Hr & Hcr & Heq).
  exists r, (incoming, dir), path. rewrite !elem_of_app.
  split_and!; [by left|right; by left|done|exact Hc|]. cbn [fst]. by rewrite <- Heq.
Qed.

Lemma merged_snoc results desired incoming dir desired' :
  merged results desired →
  (∀ path, ¬ conflicts original incoming desired path ∧
     desired' !! path = if decide (changes original incoming path)
                        then incoming !! path else desired !! path) →
  merged (results ++ [(incoming, dir)]) desired'.
Proof.
  intros Hm Hstep path. destruct (Hm path) as [Hch Hno], (Hstep path) as [Hc ->]. split.
  - intros r [Hr| ->%list_elem_of_singleton]%elem_of_app Hcr; cbn in *; case_decide as Hci; auto; [|done].
    specialize (Hch r Hr Hcr). unfold conflicts, changes in *. apply dec_stable. intros Hne.
    apply Hc. split_and!; congruence.
  - intros Hall. rewrite decide_False by (apply (Hall (incoming, dir)), elem_of_app; right; by left).
    apply Hno. intros r Hr. apply Hall, elem_of_app. by left.
Qed.

Lemma merge_all_Ok before results desired blobs merge :
  merged before desired → merge_all (desired, blobs) results = Ok merge →
  merged (before ++ results) merge.1.
Proof.
  revert before desired blobs. induction results as [|[incoming dir] results IH]; cbn [try_fold];
    intros before desired blobs Hm.
  - intros [= <-]. by rewrite app_nil_r.
  - intros ([d b] & Hr & Hl)%rbind_Ok. rewrite cons_middle, app_assoc.
    eapply IH; [|done]. eapply merged_snoc; [done|]. intros path.
    exact (merge_result_Ok _ _ _ _ _ path Hr).
Qed.

Lemma collide_app l k : collide l → collide (l ++ k).
Proof.
  intros (r1 & r2 & path & H1 & H2 & H3). exists r1, r2, path. rewrite !elem_of_app. auto.
Qed.

Lemma merged_not_collide results desired : merged results desired → ¬ collide results.
Proof.
  intros Hm (r1 & r2 & path & H1 & H2 & Hc1 & Hc2 & Hne). destruct (Hm path) as [Hch _].
  apply Hne. by rewrite <- (Hch r1), <- (Hch r2).
Qed.

Lemma merge_all_Err before results desired blobs e :
  merged before desired →
  merge_all (desired, blobs) results = Err e ↔
  e = AgentConversationConflict ∧ collide (before ++ results).
Proof.
  revert before desired blobs. induction results as [|[incoming dir] results IH]; cbn [try_fold];
    intros before desired blobs Hm.
  - rewrite app_nil_r. split; [done|]. intros [_ Hc]. by apply merged_not_collide in Hm.
  - rewrite cons_middle, app_assoc.
    destruct (merge_result original (desired, blobs) (incoming, dir)) as [[d b]|e'] eqn:Hr; cbn.
    + apply IH. eapply merged_snoc; [done|]. intros path.
      exact (merge_result_Ok _ _ _ _ _ path Hr).
    + apply merge_result_Err in Hr as [-> (path & Hp)]. split; [|by intros [-> _]].
      intros [= <-]. split; [done|]. apply collide_app. by eapply conflict_collides.
Qed.

Lemma merged_original : merged [] original.
Proof. intros path. split; [by intros r ?%elem_of_nil|done]. Qed.

(** ** Where the contents are *)

(** The directory holds the content of the hash: that of the source, or of a result. *)
Definition holds (source : str) (results : list (CapturedFiles * str)) (hash dir : str) : Prop :=
  dir = source ∧ has_hash original hash ∨
  ∃ r, r ∈ results ∧ dir = r.2 ∧ has_hash r.1 hash.

Lemma merge_path_covered known incoming dir merge merge' path :
  covered known merge.1 merge.2 → (∀ hash, has_hash incoming hash → known hash dir) →
  merge_path original incoming dir merge path = Ok merge' → covered known merge'.1 merge'.2.
Proof.
  destruct merge as [desired blobs]. cbn. intros [Hfull Hdirs] Hknown. unfold merge_path.
  destruct (same_file _ _); [by intros [= <-]|]. destruct (_ && _); [done|].
  destruct (incoming !! path) as [file|] eqn:Hf; intros [= <-]; cbn.
  - split.
    + intros hash (p & f & Hp & Hh). apply lookup_insert_Some in Hp as [[<- <-]|[Hne Hp]].
      * rewrite Hh, lookup_insert_eq. by eexists.
      * destruct (cw_sha256 file) as [other|]; [|by apply Hfull; eexists _, _].
        destruct (decide (other = hash)) as [->|Hne']; [rewrite lookup_insert_eq; by eexists|].
        rewrite lookup_insert_ne by done. apply Hfull. by eexists _, _.
    + intros hash d Hd. destruct (cw_sha256 file) as [other|] eqn:Ho; [|by apply Hdirs].
      apply lookup_insert_Some in Hd as [[<- <-]|[_ Hd]]; [|by apply Hdirs].
      apply Hknown. by eexists _, _.
  - split; [|done]. intros hash (p & f & Hp & Hh). apply Hfull.
    apply lookup_delete_Some in Hp as [_ Hp]. by eexists _, _.
Qed.

Lemma merge_all_covered known merge results merge' :
  covered known merge.1 merge.2 →
  (∀ r hash, r ∈ results → has_hash r.1 hash → known hash r.2) →
  merge_all merge results = Ok merge' → covered known merge'.1 merge'.2.
Proof.
  revert merge. induction results as [|[incoming dir] results IH]; cbn; intros merge Hc Hk.
  - by intros [= <-].
  - intros (m & Hr & Hl)%rbind_Ok. eapply (IH m); [|intros r hash Hin; apply Hk; by right|done].
    eapply (try_fold_ind _ (λ _ t, covered known t.1 t.2)); [exact Hr|done|].
    intros l1 a l2 t t' _ Ht Hstep. eapply merge_path_covered; [done| |done].
    intros hash Hh. apply (Hk (incoming, dir)); [by left|done].
Qed.

Lemma source_blobs_lookup dir hash d :
  source_blobs original dir !! hash = Some d → d = dir ∧ has_hash original hash.
Proof.
  unfold source_blobs.
  assert (∀ l (acc : gmap str str), (∀ entry, entry ∈ l → original !! entry.1 = Some entry.2) →
    (∀ d, acc !! hash = Some d → d = dir ∧ has_hash original hash) →
    foldl (λ blobs entry, match cw_sha256 entry.2 with
                          | Some hash => <[hash := dir]> blobs
                          | None => blobs
                          end) acc l !! hash = Some d → d = dir ∧ has_hash original hash) as Hgen.
  { induction l as [|[path file] l IH]; intros acc Hl Hacc; cbn; [by apply Hacc|].
    apply IH; [intros entry Hin; apply Hl; by right|]. intros d'.
    destruct (cw_sha256 file) as [h|] eqn:Hh; [|apply Hacc].
    intros [[<- <-]|[_ Hd]]%lookup_insert_Some; [|by apply Hacc]. split; [done|].
    exists path, file. split; [|done]. exact (Hl (path, file) ltac:(left)). }
  apply Hgen; [|done]. intros [path file] Hin. by apply elem_of_map_to_list in Hin.
Qed.

Lemma source_blobs_full dir hash : has_hash original hash → is_Some (source_blobs original dir !! hash).
Proof.
  intros (path & file & Hp & Hh). apply elem_of_map_to_list in Hp. unfold source_blobs.
  assert (∀ l (acc : gmap str str), (path, file) ∈ l ∨ is_Some (acc !! hash) →
    is_Some (foldl (λ blobs entry, match cw_sha256 entry.2 with
                          | Some hash => <[hash := dir]> blobs
                          | None => blobs
                          end) acc l !! hash)) as Hgen; [|by apply Hgen; left].
  induction l as [|[p f] l IH]; intros acc Hacc; cbn.
  - destruct Hacc as [?%elem_of_nil|?]; done.
  - apply IH. destruct Hacc as [[[= <- <-]|Hin]%elem_of_cons|[d Hd]].
    + right. rewrite Hh, lookup_insert_eq. by eexists.
    + by left.
    + right. destruct (cw_sha256 f) as [h|]; [|by eexists].
      destruct (decide (h = hash)) as [->|Hne]; [rewrite lookup_insert_eq|
        rewrite lookup_insert_ne by done]; by eexists.
Qed.
End merge.

(** C24: The files a task starts from are the three-way merge of the results of its prerequisites
    over the source: a path that no result changes stays as it is, a path that results change
    has the version they agree on, and the merge is refused exactly when two of them disagree.
    The bytes of every file are in a directory that has them. *)
Theorem merge_is_three_way original source results :
  (∀ desired blobs,
     try_fold (merge_result original) (original, source_blobs original source) results
       = Ok (desired, blobs) →
     merged original results desired ∧ covered (holds original source results) desired blobs) ∧
  (∀ e,
     try_fold (merge_result original) (original, source_blobs original source) results = Err e ↔
     e = AgentConversationConflict ∧ collide original results).
Proof.
  split; [intros desired blobs Hm; split|intros e].
  - exact (merge_all_Ok original [] _ _ _ _ (merged_original original) Hm).
  - eapply (merge_all_covered original _ (original, _) results (desired, blobs)); [|..|exact Hm].
    + split; [intros hash; apply source_blobs_full|]. intros hash dir Hd. left.
      by apply source_blobs_lookup in Hd.
    + intros r hash Hr Hh. right. eauto.
  - exact (merge_all_Err original [] _ _ _ e (merged_original original)).
Qed.

(** ** Which results are merged *)

Definition as_request (task : AgentWorkItem) : AgentWorkItemRequest :=
  {| wr_task_id := wi_task_id task; wr_title := wi_title task; wr_prompt := wi_prompt task;
     wr_depends_on := wi_depends_on task |}.

Section prerequisites.
Context (tasks : list AgentWorkItem).
Hypothesis distinct : NoDup (wi_task_id <$> tasks).

(** [above] is a prerequisite of [id]. *)
Definition needs (id above : Uuid) : Prop :=
  ∃ task, task ∈ tasks ∧ wi_task_id task = id ∧ above ∈ wi_depends_on task.

Lemma find_item task :
  task ∈ tasks → head (filter (λ t, wi_task_id t = wi_task_id task) tasks) = Some task.
Proof.
  intros Hin. destruct (head _) as [found|] eqn:Hh.
  - apply head_Some_elem_of, list_elem_of_filter in Hh as [Heq Hf]. f_equal.
    by eapply NoDup_fmap_inj_on.
  - destruct (filter _ tasks) eqn:Hf; [|done]. apply (filter_nil_not_elem_of _ _ task) in Hf; [|done].
    by destruct Hf.
Qed.

Lemma find_item_Some id task :
  head (filter (λ t, wi_task_id t = id) tasks) = Some task → task ∈ tasks ∧ wi_task_id task = id.
Proof. intros Hh. apply head_Some_elem_of, list_elem_of_filter in Hh. tauto. Qed.

Lemma ancestor_needs fuel above id : ancestor fuel tasks above id = true → tc needs id above.
Proof.
  revert id. induction fuel as [|fuel IH]; cbn; intros id; [done|].
  destruct (head _) as [task|] eqn:Hh; [|done]. apply find_item_Some in Hh as [Hin Hid].
  rewrite orb_true_iff, bool_decide_eq_true, existsb_spec. intros [Ha|(parent & Hp & Ha)].
  - apply tc_once. by exists task.
  - eapply tc_l; [|by apply IH]. by exists task.
Qed.

(** Each prerequisite has a smaller rank, the place of the task in an order. *)
Lemma needs_ancestor (rank : Uuid → nat) fuel above id :
  (∀ i a, needs i a → (rank a < rank i)%nat) →
  tc needs id above → (rank id < fuel)%nat → ancestor fuel tasks above id = true.
Proof.
  intros Hrank. revert id. induction fuel as [|fuel IH]; intros id Htc Hr; [lia|]. cbn.
  assert (∃ parent, needs id parent ∧ (parent = above ∨ tc needs parent above))
    as (parent & (task & Hin & Hid & Hp) & Hrest).
  { inversion Htc as [x y Hn|x y z Hn Hr']; subst; eauto. }
  rewrite <- Hid, find_item by done. apply orb_true_iff. destruct Hrest as [->|Hrest].
  - left. by apply bool_decide_eq_true.
  - right. apply existsb_spec. exists parent. split; [done|]. apply IH; [done|].
    assert (rank parent < rank id)%nat; [|lia]. apply Hrank. by exists task.
Qed.

Definition place (order : list AgentWorkItemRequest) (id : Uuid) : nat :=
  default 0%nat (fst <$> list_find (λ t, wr_task_id t = id) order).

Lemma place_lookup order i task :
  NoDup (wr_task_id <$> order) → order !! i = Some task → place order (wr_task_id task) = i.
Proof.
  intros Hnd Hi. unfold place.
  assert (list_find (λ t, wr_task_id t = wr_task_id task) order = Some (i, task)) as ->; [|done].
  apply list_find_Some. split_and!; [done..|]. intros j t Hj Hlt Heq.
  enough (j = i) by lia. apply (NoDup_lookup (wr_task_id <$> order) j i (wr_task_id task)); [done|..].
  - by rewrite list_lookup_fmap, Hj, <- Heq.
  - by rewrite list_lookup_fmap, Hi.
Qed.

Lemma order_rank order :
  order ≡ₚ as_request <$> tasks → ordered order →
  (∀ i a, needs i a → (place order a < place order i)%nat) ∧
  ∀ id a, needs id a → (place order id < length tasks)%nat.
Proof.
  intros Hp Ho. assert (NoDup (wr_task_id <$> order)) as Hnd.
  { rewrite Hp, <- list_fmap_compose. exact distinct. }
  assert (∀ id a, needs id a → ∃ i task, order !! i = Some task ∧ wr_task_id task = id ∧
            a ∈ wr_depends_on task) as Hneeds.
  { intros id a (task & Hin & <- & Ha).
    destruct (list_elem_of_lookup_1 order (as_request task)) as (i & Hi).
    - rewrite Hp. by apply list_elem_of_fmap_2.
    - by exists i, (as_request task). }
  split; intros id a (i & task & Hi & <- & Ha)%Hneeds; rewrite (place_lookup order i task Hnd Hi).
  - rewrite <- (take_drop_middle order i task Hi) in Ho.
    specialize (Ho _ _ _ eq_refl a Ha). apply list_elem_of_fmap in Ho as (t & -> & Ht).
    apply list_elem_of_lookup_1 in Ht as (j & Hj). apply lookup_take_Some in Hj as [Hj Hlt].
    by rewrite (place_lookup order j t Hnd Hj).
  - apply lookup_lt_Some in Hi. by rewrite Hp, length_fmap in Hi.
Qed.

(** The fuel of [ancestor] is enough: it decides whether a task needs another, directly or
    through others, in every request that is accepted. *)
Lemma ancestor_spec above id :
  orderable (as_request <$> tasks) →
  ancestor (length tasks) tasks above id = true ↔ tc needs id above.
Proof.
  intros (order & Hp & Ho). split; [apply ancestor_needs|]. intros Htc.
  destruct (order_rank _ Hp Ho) as [Hrank Hlt]. apply (needs_ancestor (place order)); [done..|].
  inversion Htc; subst; eauto.
Qed.

Lemma direct_prerequisites_spec dependencies id :
  orderable (as_request <$> tasks) →
  id ∈ direct_prerequisites tasks dependencies ↔
  id ∈ dependencies ∧ ∀ other, other ∈ dependencies → other ≠ id → ¬ tc needs other id.
Proof.
  intros Ho. unfold direct_prerequisites.
  rewrite list_elem_of_filter, negb_true_iff, existsb_false.
  setoid_rewrite andb_false_iff. setoid_rewrite negb_false_iff. setoid_rewrite bool_decide_eq_true.
  setoid_rewrite <- (ancestor_spec _ _ Ho). setoid_rewrite not_true_iff_false.
  split.
  - intros [Hall Hid]. split; [done|]. intros other Hin Hne. by destruct (Hall other Hin).
  - intros [Hid Hall]. split; [|done]. intros other Hin.
    destruct (decide (other = id)); [by left|right; auto].
Qed.
End prerequisites.
