(* ===== verification/WorkSetStore.v ===== *)
(** * Agent work sets: the store and its scheduler ([crates/wts-app/src/agent_work_sets.rs])

    The state is the directory of work sets, what each process remembers of it, and the outside
    of WorkServices.  The calls hold the lock of the directory from the first read to the last
    write, so nothing else changes a set meanwhile; the outside may move at every request.  The
    list of tasks handed to the queue is not kept by the code; it is what the theorems are
    about. *)

From S2P Require Import Prelude Order Text StoreBase Conversations Captures WorkServices WorkSets.

Local Open Scope N_scope.

(** ** State *)

Record PreparedInput := {
  pi_target_identity : str;
  pi_initial : WorktreeCheckpointCapture;
  pi_desired : WorktreeCheckpointCapture;
  pi_blobs : gmap str str;
  pi_complete : bool
}.

(** Modification time, length and whether work was pending. *)
Abbreviation WorkSetCache := (gmap Uuid (Z * N * bool)).

Record WorkWorld {W : Type} := {
  wd_root : bool;
  wd_dirs : gset Uuid;
  wd_sets : gmap Uuid (list N * Z);
  wd_inputs : gmap (Uuid * Uuid) (list N);
  wd_caches : gmap N WorkSetCache;
  wd_sent : list (StoredWorkSet * nat);
  wd_outside : W
}.
Arguments WorkWorld : clear implicits.

(** The codecs of the files, and how an error reads. *)
Class WorkSetLibraries := {
  set_to_json : StoredWorkSet → option (list N);
  set_from_json : list N → option StoredWorkSet;
  input_to_json : PreparedInput → option (list N);
  input_from_json : list N → option PreparedInput;
  work_error_text : LocalWtsError → str
}.

Class WorkSetLaws `{WorkSetLibraries} : Prop := {
  set_round_trip set bytes : set_to_json set = Some bytes → set_from_json bytes = Some set;
  input_round_trip input bytes :
    input_to_json input = Some bytes → input_from_json bytes = Some input
}.

Section store.
Context {W : Type} `{WorkServices W} `{CaptureDigests} `{WorkSetLibraries}.

Local Abbreviation World := (WorkWorld W).

Definition moved (w : World) (out : W) : World :=
  {| wd_root := wd_root w; wd_dirs := wd_dirs w; wd_sets := wd_sets w;
     wd_inputs := wd_inputs w; wd_caches := wd_caches w; wd_sent := wd_sent w;
     wd_outside := out |}.
Definition with_root (w : World) : World :=
  {| wd_root := true; wd_dirs := wd_dirs w; wd_sets := wd_sets w;
     wd_inputs := wd_inputs w; wd_caches := wd_caches w; wd_sent := wd_sent w;
     wd_outside := wd_outside w |}.
Definition with_dir (w : World) (id : Uuid) : World :=
  {| wd_root := wd_root w; wd_dirs := {[id]} ∪ wd_dirs w; wd_sets := wd_sets w;
     wd_inputs := wd_inputs w; wd_caches := wd_caches w; wd_sent := wd_sent w;
     wd_outside := wd_outside w |}.
Definition with_set_file (w : World) (id : Uuid) (file : list N * Z) : World :=
  {| wd_root := wd_root w; wd_dirs := wd_dirs w; wd_sets := <[id := file]> (wd_sets w);
     wd_inputs := wd_inputs w; wd_caches := wd_caches w; wd_sent := wd_sent w;
     wd_outside := wd_outside w |}.
Definition with_input_file (w : World) (key : Uuid * Uuid) (bytes : list N) : World :=
  {| wd_root := wd_root w; wd_dirs := wd_dirs w; wd_sets := wd_sets w;
     wd_inputs := <[key := bytes]> (wd_inputs w); wd_caches := wd_caches w;
     wd_sent := wd_sent w; wd_outside := wd_outside w |}.
Definition with_work_cache (w : World) (host : N) (cache : WorkSetCache) : World :=
  {| wd_root := wd_root w; wd_dirs := wd_dirs w; wd_sets := wd_sets w;
     wd_inputs := wd_inputs w; wd_caches := <[host := cache]> (wd_caches w);
     wd_sent := wd_sent w; wd_outside := wd_outside w |}.
Definition with_sent (w : World) (set : StoredWorkSet) (index : nat) : World :=
  {| wd_root := wd_root w; wd_dirs := wd_dirs w; wd_sets := wd_sets w;
     wd_inputs := wd_inputs w; wd_caches := wd_caches w;
     wd_sent := wd_sent w ++ [(set, index)]; wd_outside := wd_outside w |}.

(** A request to the outside. *)
Definition outside {A} (m : Act W A) : Act World A := λ w,
  let '(r, out) := m (wd_outside w) in (r, moved w out).
Definition ask {A} (m : W → A * W) : Act World A := λ w,
  let '(x, out) := m (wd_outside w) in (Ok x, moved w out).

(** ** Files *)

Definition set_lock (nonblocking : bool) : Act World () :=
  do! _ := outside sv_directory in
  do! _ := (λ w, (Ok (), with_root w)) in
  outside (sv_lock nonblocking).

Definition work_set_ids : Act World (list Uuid) := λ w,
  if wd_root w then
    (do! _ := outside sv_listing in
     check! guard_err (MAX_WORK_SETS <? size (wd_dirs w))%nat AgentConversationStorageFull in
     act_ret (sort_by N.compare (elements (wd_dirs w)))) w
  else (Ok [], w).

Definition decode_set (id : Uuid) (bytes : list N) : result StoredWorkSet LocalWtsError :=
  ensure guard_err (MAX_SET_BYTES <? N.of_nat (length bytes)) AgentConversationUnavailable in
  let? set := ok_or (set_from_json bytes) AgentConversationUnavailable in
  ensure check_set id set in
  Ok set.

Definition read_set (id : Uuid) : Act World StoredWorkSet :=
  do! readable := ask sv_readable in
  check! guard_err (negb readable) AgentConversationUnavailable in
  λ w,
    (let? file := ok_or (wd_sets w !! id) AgentConversationNotFound in
     decode_set id file.1, w).

(** [write_json] of a set. *)
Definition write_set (set : StoredWorkSet) : Act World () :=
  let id := aw_work_set_id (sw_view set) in
  do! bytes := act_lift (ok_or (set_to_json set) AgentConversationUnavailable) in
  check! guard_err (MAX_SET_BYTES <? N.of_nat (length bytes)) AgentConversationStorageFull in
  do! outcome := ask sv_write in
  λ w,
    match outcome with
    | Written modified => (Ok (), with_set_file w id (bytes, modified))
    | WrittenUnsynced modified =>
        (Err AgentConversationUnavailable, with_set_file w id (bytes, modified))
    | NotWritten => (Err AgentConversationUnavailable, w)
    end.

Definition MAX_INPUT_BYTES : N := 64 * 1024 * 1024.

Definition read_input (key : Uuid * Uuid) : Act World PreparedInput :=
  do! readable := ask sv_readable in
  check! guard_err (negb readable) AgentConversationUnavailable in
  λ w,
    (let? bytes := ok_or (wd_inputs w !! key) AgentConversationNotFound in
     ensure guard_err (MAX_INPUT_BYTES <? N.of_nat (length bytes)) AgentConversationUnavailable in
     ok_or (input_from_json bytes) AgentConversationUnavailable, w).

Definition write_input (key : Uuid * Uuid) (input : PreparedInput) : Act World () :=
  do! bytes := act_lift (ok_or (input_to_json input) AgentConversationUnavailable) in
  check! guard_err (MAX_INPUT_BYTES <? N.of_nat (length bytes)) AgentConversationStorageFull in
  do! outcome := ask sv_write in
  λ w,
    match outcome with
    | Written _ => (Ok (), with_input_file w key bytes)
    | WrittenUnsynced _ => (Err AgentConversationUnavailable, with_input_file w key bytes)
    | NotWritten => (Err AgentConversationUnavailable, w)
    end.

(** ** A set in memory *)

(** The calls that change a set carry it next to the world; when they fail the set keeps what
    they have done to it. *)
Local Abbreviation Job := (StoredWorkSet * World)%type.

Definition on_world {A} (m : Act World A) : Act Job A := λ j,
  let '(r, w) := m j.2 in (r, (j.1, w)).
Definition on_out {A} (m : Act W A) : Act Job A := on_world (outside m).
Definition the_set : Act Job StoredWorkSet := λ j, (Ok j.1, j).
Definition put_view (view : AgentWorkSet) : Act Job () := λ j, (Ok (), (with_view j.1 view, j.2)).

(** [set.view.tasks[index] = f(task)]. *)
Definition change_task (index : nat) (f : AgentWorkItem → AgentWorkItem) : Act Job () := λ j,
  (Ok (), (with_view j.1 (with_tasks (sw_view j.1) (alter f index (aw_tasks (sw_view j.1)))), j.2)).

Definition the_task (index : nat) : Act Job AgentWorkItem := λ j,
  (ok_or (aw_tasks (sw_view j.1) !! index) AgentConversationUnavailable, j).

Definition bounded_task (task : AgentWorkItem) : AgentWorkItem :=
  with_item task (wi_state task) (bounded_detail (wi_detail task)).

Definition saved_view (view : AgentWorkSet) (now : Z) : AgentWorkSet :=
  revised view (bounded_task <$> aw_tasks view) (bounded_detail (aw_detail view))
    (aw_last_mutation_request_id view) now.

Definition save_set : Act Job () :=
  do! now := on_world (ask sv_now) in
  do! set := the_set in
  do! _ := put_view (saved_view (sw_view set) now) in
  do! set := the_set in
  on_world (write_set set).

(** Runs a job on a set; a failure is the failure of the call. *)
Definition run_job (m : Act Job ()) (set : StoredWorkSet) : Act World StoredWorkSet := λ w,
  match m (set, w) with
  | (Ok _, (set, w)) => (Ok set, w)
  | (Err e, (_, w)) => (Err e, w)
  end.
End store.
