(* ===== verification/WorkSetCalls.v ===== *)
(** * Agent work sets: creation, refresh and cancellation
    ([crates/wts-app/src/agent_work_sets.rs]) *)

From S2P Require Import Prelude Order Text StoreBase Conversations Captures WorkServices WorkSets.
From S2P Require Import WorkSetStore.

Local Open Scope N_scope.

Section calls.
Context {W : Type} `{WorkServices W} `{CaptureDigests} `{WorkSetLibraries}.

Local Abbreviation World := (WorkWorld W).
Local Abbreviation Job := (StoredWorkSet * WorkWorld W)%type.

(** ** Trust in the source of a set *)

Definition receipt_matches (set : StoredWorkSet) (receipt : AgentTurnChanges) : bool :=
  let view := sw_view set in
  (tc_session_id receipt =? sw_source_session_id set)
  && bool_decide (checkpoint_id receipt = Some (aw_source_checkpoint_id view))
  && bool_decide (tc_source_context_sha256 receipt = aw_source_context_sha256 view)
  && (tc_workspace_id receipt =? aw_workspace_id view)
  && bool_decide (tc_repository_id receipt = aw_repository_id view)
  && bool_decide (tc_state receipt = TurnReady)
  && bool_decide (tc_observation receipt = ObservedNormal).

Definition source_record (set : StoredWorkSet) : Act World StoredTurn :=
  let view := sw_view set in
  do! receipt := outside (get_agent_turn_changes (aw_conversation_id view) (aw_request_id view)) in
  check! guard_err (negb (receipt_matches set receipt)) AgentConversationConflict in
  do! stored := outside (sv_record (sw_source_session_id set)) in
  check! guard_err (negb (bool_decide (st_target_identity stored = sw_source_target_identity set)))
           AgentConversationConflict in
  do! after := act_lift (ok_or (st_after stored) AgentConversationConflict) in
  check! canonical_capture_digest after in
  act_ret stored.

(** ** Creating *)

Definition WAITS : str :=
  lit "This task waits for an isolated workspace and its prerequisites.".
Definition ISOLATED : str :=
  lit "Tasks use isolated workspaces. The source workspace stays unchanged. Review each result before integration.".

Definition new_item (task : AgentWorkItemRequest) (conversation_id request_id : Uuid) :
    AgentWorkItem :=
  {| wi_task_id := wr_task_id task; wi_title := wr_title task; wi_prompt := wr_prompt task;
     wi_depends_on := wr_depends_on task; wi_state := ItemPending;
     wi_conversation_id := conversation_id; wi_request_id := request_id;
     wi_workspace_id := None; wi_repository_id := None; wi_workspace_display_path := None;
     wi_after_checkpoint_id := None; wi_detail := WAITS |}.

(** Each task gets a conversation and a request of its own. *)
Definition new_items (tasks : list AgentWorkItemRequest) : Act World (list AgentWorkItem) :=
  act_map (λ task, do! conversation_id := ask sv_fresh in
                   do! request_id := ask sv_fresh in
                   act_ret (new_item task conversation_id request_id)) tasks.

Definition new_view (conversation_id request_id : Uuid) (request : CreateAgentWorkSetRequest)
    (receipt : AgentTurnChanges) (now : Z) (tasks : list AgentWorkItem) : AgentWorkSet :=
  {| aw_schema_version := 1; aw_work_set_id := wc_request_id request;
     aw_conversation_id := conversation_id; aw_request_id := request_id;
     aw_workspace_id := tc_workspace_id receipt; aw_repository_id := tc_repository_id receipt;
     aw_source_checkpoint_id := wc_expected_after_checkpoint_id request;
     aw_source_context_sha256 := tc_source_context_sha256 receipt; aw_kind := wc_kind request;
     aw_revision := 1; aw_created_at_unix_ms := now; aw_updated_at_unix_ms := now;
     aw_last_mutation_request_id := None; aw_tasks := tasks; aw_detail := ISOLATED |}.

Definition work_item_source (c : AgentConversation) : bool :=
  match cv_source c with WorkItem _ _ _ _ _ => true | _ => false end.

Definition of_turn (conversation_id request_id : Uuid) (view : AgentWorkSet) : bool :=
  (aw_conversation_id view =? conversation_id) && (aw_request_id view =? request_id).

(** [private_dir] of a set. *)
Definition make_set_dir (id : Uuid) : Act World () :=
  do! _ := outside sv_directory in
  λ w, (Ok (), with_dir w id).

(** The checks of a new request, and the set it asks for. *)
Definition propose_set (conversation_id request_id : Uuid) (request : CreateAgentWorkSetRequest) :
    Act World StoredWorkSet :=
  do! all := work_set_ids in
  do! full := (if (MAX_WORK_SETS <=? length all)%nat then act_ret true
               else do! count := outside sv_conversation_count in
                    act_ret (MAX_CONVERSATIONS <? count + length (wc_tasks request))%nat) in
  check! guard_err full AgentConversationStorageFull in
  do! sets := act_map read_set all in
  check! guard_err (64 <=? length (filter (λ set, of_turn conversation_id request_id
                                                    (sw_view set) = true) sets))%nat
           AgentConversationLimit in
  do! source := outside (load_check_target conversation_id request_id) in
  let receipt := tt_receipt source in
  check! guard_err (work_item_source (tt_conversation source)) InvalidAgentConversation in
  check! guard_err (negb (bool_decide (checkpoint_id receipt
                                       = Some (wc_expected_after_checkpoint_id request))))
           AgentConversationConflict in
  do! _ := outside (sv_lease_workspace (tc_workspace_id receipt)) in
  do! same := outside (matches_check_target source) in
  check! guard_err (negb same) AgentConversationConflict in
  do! _ := outside (sv_verify_discussion (tt_conversation source)) in
  do! now := ask sv_now in
  do! tasks := new_items (wc_tasks request) in
  let view := new_view conversation_id request_id request receipt now tasks in
  do! identity := outside (sv_identity (tt_target source)) in
  act_ret {| sw_request := request; sw_view := view;
             sw_source_session_id := tc_session_id receipt;
             sw_source_target_identity := identity; sw_cancellations := [] |}.

Definition create_new (conversation_id request_id : Uuid) (request : CreateAgentWorkSetRequest) :
    Act World AgentWorkSet :=
  do! set := propose_set conversation_id request_id request in
  do! _ := make_set_dir (aw_work_set_id (sw_view set)) in
  do! _ := write_set set in
  act_ret (sw_view set).

Definition create_agent_work_set (conversation_id request_id : Uuid)
    (request : CreateAgentWorkSetRequest) : Act World AgentWorkSet :=
  check! validate_request request in
  do! _ := set_lock false in
  do! existing := act_try (read_set (wc_request_id request)) in
  match existing with
  | Ok existing =>
      if bool_decide (sw_request existing = request)
         && of_turn conversation_id request_id (sw_view existing)
      then act_ret (sw_view existing) else act_err AgentConversationConflict
  | Err AgentConversationNotFound => create_new conversation_id request_id request
  | Err error => act_err error
  end.

(** ** Reading *)

Definition get_agent_work_set (id : Uuid) : Act World AgentWorkSet :=
  do! _ := set_lock false in
  do! set := read_set id in
  act_ret (sw_view set).

Definition creation_order : AgentWorkSet → AgentWorkSet → comparison :=
  cmp_on (λ view, (aw_created_at_unix_ms view, aw_work_set_id view))
    (pair_cmp Z.compare N.compare).

Definition list_agent_work_sets (conversation_id request_id : Uuid) :
    Act World (list AgentWorkSet) :=
  do! _ := outside (get_agent_turn_changes conversation_id request_id) in
  do! _ := set_lock false in
  do! all := work_set_ids in
  do! sets := act_map read_set all in
  act_ret (sort_by creation_order
             (filter (λ view, of_turn conversation_id request_id view = true) (sw_view <$> sets))).

(** ** Cancelled tasks *)

(** Stops the agent of a cancelled task and takes back its queued messages; failures are
    ignored, the next refresh tries again. *)
Definition stop_cancelled_child (task : AgentWorkItem) : Act World () :=
  do! found := act_try (outside (sv_get (wi_conversation_id task))) in
  match found with
  | Err _ => act_ret tt
  | Ok c =>
      do! _ := match cv_active_session_id c with
               | Some session => do! _ := act_try (outside (sv_stop_session session)) in act_ret tt
               | None => act_ret tt
               end in
      act_fold (λ _ m,
        do! _ := act_try (outside (sv_cancel_message (wi_conversation_id task) (am_message_id m)
                                     (wi_task_id task) (am_body m))) in
        act_ret tt) tt (filter (λ m, is_queued m = true) (cv_messages c))
  end.

(** ** Refresh *)

Definition task_message (task : AgentWorkItem) (c : AgentConversation) :
    option AgentConversationMessage :=
  find_message (λ m, is_user m && bool_decide (am_request_id m = Some (wi_request_id task)))
    (cv_messages c).

Definition state_of_message (status : AgentConversationMessageStatus) : AgentWorkItemState :=
  match status with
  | MQueued => ItemQueued
  | MPending | MRunning => ItemRunning
  | MCompleted => ItemCompleted
  | MCancelled => ItemCancelled
  | _ => ItemFailed
  end.

Definition IN_QUEUE : str := lit "This task is in the agent queue.".

Definition detail_of_state (state : AgentWorkItemState) : str :=
  match state with
  | ItemQueued => IN_QUEUE
  | ItemRunning => lit "The agent is active in this isolated workspace."
  | ItemCompleted =>
      lit "The agent finished. Review the observed changes and run checks before integration."
  | _ =>
      lit "This task did not complete. Review its output and saved files before a new attempt."
  end.

(** One round of the loop of [refresh_tasks]. *)
Definition refresh_task (task : AgentWorkItem) : Act World AgentWorkItem :=
  if bool_decide (wi_state task = ItemCancelled)
  then do! _ := stop_cancelled_child task in act_ret task
  else if terminal (wi_state task) then act_ret task
  else
    do! found := act_try (outside (sv_get (wi_conversation_id task))) in
    match found with
    | Err _ => act_ret task
    | Ok c =>
        match task_message task c with
        | None => act_ret task
        | Some user =>
            let state := state_of_message (am_status user) in
            let task := with_item task state (detail_of_state state) in
            if terminal state then
              do! changes := act_try (outside (get_agent_turn_changes (wi_conversation_id task)
                                                 (wi_request_id task))) in
              act_ret (match changes with
                       | Ok changes => with_checkpoint task (checkpoint_id changes)
                       | Err _ => task
                       end)
            else act_ret task
        end
    end.

Definition refresh_tasks : Act Job () :=
  do! before := the_set in
  do! tasks := on_world (act_map refresh_task (aw_tasks (sw_view before))) in
  do! _ := put_view (with_tasks (sw_view before) tasks) in
  if bool_decide (aw_tasks (sw_view before) = tasks) then act_ret tt else save_set.

(** ** Cancelling *)

Definition TASK_CANCELLED : str :=
  lit "This task was cancelled. Any files already changed stay in its isolated workspace.".

(** [position]: the first task with the identifier. *)
Definition task_index (task_id : Uuid) (tasks : list AgentWorkItem) : option nat :=
  fst <$> list_find (λ task, wi_task_id task = task_id) tasks.

Definition add_receipt (set : StoredWorkSet) (receipt : CancelReceipt) : StoredWorkSet :=
  {| sw_request := sw_request set; sw_view := sw_view set;
     sw_source_session_id := sw_source_session_id set;
     sw_source_target_identity := sw_source_target_identity set;
     sw_cancellations := sw_cancellations set ++ [receipt] |}.

Definition cancelled_view (view : AgentWorkSet) (index : nat) (request_id : Uuid) (now : Z) :
    AgentWorkSet :=
  revised view (alter (λ task, with_item task ItemCancelled TASK_CANCELLED) index (aw_tasks view))
    (aw_detail view) (Some request_id) now.

Definition cancel_task (task_id : Uuid) (request : AgentWorkItemCancelRequest) : Act Job () :=
  do! _ := refresh_tasks in
  do! set := the_set in
  let view := sw_view set in
  do! index := act_lift (ok_or (task_index task_id (aw_tasks view)) AgentConversationNotFound) in
  do! task := the_task index in
  check! guard_err (negb (aw_revision view =? wx_expected_revision request)
                    || terminal (wi_state task)) AgentConversationConflict in
  do! now := on_world (ask sv_now) in
  let view := cancelled_view view index (wx_request_id request) now in
  let receipt := {| xr_request := request; xr_task_id := task_id; xr_result := view |} in
  do! _ := (λ j, (Ok (), (add_receipt (with_view j.1 view) receipt, j.2))) in
  do! set := the_set in
  do! _ := on_world (write_set set) in
  do! task := the_task index in
  on_world (stop_cancelled_child task).

(** The receipt of an earlier cancellation with the same request. *)
Definition find_receipt (request_id : Uuid) (set : StoredWorkSet) : option CancelReceipt :=
  head (filter (λ receipt, wx_request_id (xr_request receipt) = request_id)
          (sw_cancellations set)).

Definition cancel_agent_work_item (id task_id : Uuid) (request : AgentWorkItemCancelRequest) :
    Act World AgentWorkSet :=
  check! guard_err (is_nil (wx_request_id request) || (wx_expected_revision request =? 0))
           InvalidAgentConversation in
  do! _ := set_lock false in
  do! set := read_set id in
  match find_receipt (wx_request_id request) set with
  | Some receipt =>
      if bool_decide (xr_request receipt = request) && (xr_task_id receipt =? task_id)
      then act_ret (xr_result receipt) else act_err AgentConversationConflict
  | None => do! set := run_job (cancel_task task_id request) set in act_ret (sw_view set)
  end.
End calls.
