(* ===== verification/WorkSetScheduler.v ===== *)
(** * Agent work sets: preparing and dispatching tasks
    ([crates/wts-app/src/agent_work_sets.rs])

    One pass of the scheduler takes the pending sets, refreshes their tasks, and for each task
    that waits either blocks it, leaves it or prepares its workspace and hands it to the queue. *)

From S2P Require Import Prelude Order Text StoreBase Sessions Conversations Captures WorkServices WorkSets.
From S2P Require Import WorkSetStore WorkSetCalls.

Local Open Scope N_scope.

Section scheduler.
Context {W : Type} `{WorkServices W} `{CaptureDigests} `{WorkSetLibraries}.

Local Abbreviation World := (WorkWorld W).
Local Abbreviation Job := (StoredWorkSet * WorkWorld W)%type.

(** ** The result of a task as an input of others *)

Record TrustedAgentWorkItem := {
  ti_work_set_id : Uuid;
  ti_task_id : Uuid;
  ti_origin_conversation_id : Uuid;
  ti_origin_request_id : Uuid;
  ti_child_conversation_id : Uuid;
  ti_child_request_id : Uuid;
  ti_source : TrustedTurnCheckTarget;
  ti_candidate : TrustedTurnCheckTarget;
  ti_baseline : WorktreeCheckpointCapture;
  ti_result : WorktreeCheckpointCapture;
  ti_baseline_blob_dir : str;
  ti_result_blob_dir : str
}.

Definition find_task (task_id : Uuid) (tasks : list AgentWorkItem) : option AgentWorkItem :=
  head (filter (λ task, wi_task_id task = task_id) tasks).

(** The conversation belongs to the task of the set. *)
Definition child_of (set : StoredWorkSet) (task_id : Uuid) (c : AgentConversation) : bool :=
  match cv_source c with
  | WorkItem work_set_id tid _ conversation_id request_id =>
      (work_set_id =? aw_work_set_id (sw_view set)) && (tid =? task_id)
      && (conversation_id =? aw_conversation_id (sw_view set))
      && (request_id =? aw_request_id (sw_view set))
  | _ => false
  end.

Definition load_integration_candidate (work_set_id task_id : Uuid) :
    Act World TrustedAgentWorkItem :=
  do! set := read_set work_set_id in
  let view := sw_view set in
  do! task := act_lift (ok_or (find_task task_id (aw_tasks view)) AgentConversationNotFound) in
  check! guard_err (negb (bool_decide (wi_state task = ItemCompleted))) AgentConversationConflict in
  do! source_turn := source_record set in
  do! source := outside (load_check_target (aw_conversation_id view) (aw_request_id view)) in
  do! candidate := outside (load_check_target (wi_conversation_id task) (wi_request_id task)) in
  let receipt := tt_receipt candidate in
  do! workspace_id := act_lift (ok_or (wi_workspace_id task) AgentConversationConflict) in
  check! guard_err (negb (tc_workspace_id receipt =? workspace_id)
                    || negb (bool_decide (Some (tc_repository_id receipt) = wi_repository_id task))
                    || negb (bool_decide (checkpoint_id receipt = wi_after_checkpoint_id task))
                    || negb (child_of set task_id (tt_conversation candidate)))
           AgentConversationConflict in
  do! record := outside (sv_record (tc_session_id receipt)) in
  do! baseline := act_lift (ok_or (st_after source_turn) AgentConversationConflict) in
  do! result := act_lift (ok_or (st_after record) AgentConversationConflict) in
  check! canonical_capture_digest result in
  act_ret {| ti_work_set_id := work_set_id; ti_task_id := task_id;
             ti_origin_conversation_id := aw_conversation_id view;
             ti_origin_request_id := aw_request_id view;
             ti_child_conversation_id := wi_conversation_id task;
             ti_child_request_id := wi_request_id task;
             ti_source := source; ti_candidate := candidate;
             ti_baseline := baseline; ti_result := result;
             ti_baseline_blob_dir := sv_turn_dir (sw_source_session_id set);
             ti_result_blob_dir := sv_turn_dir (tc_session_id receipt) |}.

(** ** The files a task starts from *)

Definition with_capture_files (capture : WorktreeCheckpointCapture) (files : CapturedFiles) :
    WorktreeCheckpointCapture :=
  {| wt_head_commit_oid := wt_head_commit_oid capture; wt_branch_name := wt_branch_name capture;
     wt_index_sha256 := wt_index_sha256 capture; wt_files := files;
     wt_omitted_file_count := wt_omitted_file_count capture; wt_stable := wt_stable capture |}.

Definition desired_input (set : StoredWorkSet) (index : nat) :
    Act World (WorktreeCheckpointCapture * gmap str str) :=
  let view := sw_view set in
  do! record := source_record set in
  do! original := act_lift (ok_or (st_after record) AgentConversationConflict) in
  do! task := act_lift (ok_or (aw_tasks view !! index) AgentConversationUnavailable) in
  do! merge := act_fold (λ merge id,
      do! task := act_lift (ok_or (find_task id (aw_tasks view)) AgentConversationConflict) in
      do! candidate := load_integration_candidate (aw_work_set_id view) (wi_task_id task) in
      do! same := outside (matches_check_target (ti_candidate candidate)) in
      check! guard_err (negb same) AgentConversationConflict in
      act_lift (merge_result (wt_files original) merge
                  (wt_files (ti_result candidate), ti_result_blob_dir candidate)))
    (wt_files original, source_blobs (wt_files original) (sv_turn_dir (sw_source_session_id set)))
    (direct_prerequisites (aw_tasks view) (wi_depends_on task)) in
  act_ret (with_capture_files original merge.1, merge.2).

(** ** Preparing a task *)

Definition ISOLATED_TITLE : str := lit "Isolated: ".

Definition work_space_request (task : AgentWorkItem) (repository_id label base_ref : str) :
    CreateWork :=
  {| cw_key := wi_conversation_id task; cw_title := ISOLATED_TITLE ++ wi_title task;
     cw_repository := repository_id; cw_label := label; cw_base_ref := base_ref |}.

Definition not_created (messages : list str) : str :=
  lit "The isolated workspace could not be created. " ++ join (lit " ") messages
  ++ lit " Review the workspace setup before a new attempt.".

(** The workspace of the task, created or found again under the key of the task. *)
Definition prepare_workspace (index : nat) : Act Job (AgentConversation * Uuid) :=
  do! set := the_set in
  let view := sw_view set in
  do! source := on_world (source_record set) in
  do! task := the_task index in
  do! origin := on_out (sv_get (aw_conversation_id view)) in
  do! _ := on_out (sv_verify_discussion origin) in
  do! label := on_out (sv_repository (aw_repository_id view)) in
  do! after := act_lift (ok_or (st_after source) AgentConversationConflict) in
  do! workspace_id := on_out (sv_create_workspace
                                (work_space_request task (aw_repository_id view) label
                                   (wt_head_commit_oid after))) in
  do! _ := change_task index (λ task, with_place task workspace_id (aw_repository_id view)) in
  do! _ := save_set in
  do! worktree := act_try (on_out (sv_source_worktree workspace_id (aw_repository_id view))) in
  if is_ok worktree then act_ret (origin, workspace_id)
  else
    do! preflight := on_out (sv_preflight workspace_id) in
    let '(blockers, digest) := preflight in
    if bool_decide (blockers = []) then
      do! _ := on_out (sv_materialize workspace_id digest) in
      act_ret (origin, workspace_id)
    else
      do! _ := change_task index (λ task, with_item task ItemBlocked (not_created blockers)) in
      act_err AgentConversationConflict.

Definition without_contents (capture : WorktreeCheckpointCapture) : WorktreeCheckpointCapture :=
  with_capture_files capture
    ((λ file, {| cw_file_path := cw_file_path file; cw_content := None; cw_raw_content := None;
                 cw_is_binary := cw_is_binary file; cw_sha256 := cw_sha256 file;
                 cw_mode := cw_mode file; cw_unsupported := cw_unsupported file;
                 cw_pre_existing_change := cw_pre_existing_change file |})
       <$> wt_files capture).

Definition at_head_of (initial desired : WorktreeCheckpointCapture) : WorktreeCheckpointCapture :=
  {| wt_head_commit_oid := wt_head_commit_oid initial; wt_branch_name := wt_branch_name initial;
     wt_index_sha256 := wt_index_sha256 initial; wt_files := wt_files desired;
     wt_omitted_file_count := wt_omitted_file_count desired; wt_stable := wt_stable desired |}.

(** The input prepared earlier, or a new one from the worktree as it is. *)
Definition load_input (set : StoredWorkSet) (index : nat) (key : Uuid * Uuid) (target : str) :
    Act World PreparedInput :=
  do! stored := act_try (read_input key) in
  match stored with
  | Ok input => act_ret input
  | Err AgentConversationNotFound =>
      do! initial := outside (act_or (sv_capture target) AgentConversationUnavailable) in
      check! canonical_capture_digest initial in
      let initial := without_contents initial in
      do! desired := desired_input set index in
      do! identity := outside (sv_identity target) in
      let input := {| pi_target_identity := identity; pi_initial := initial;
                      pi_desired := at_head_of initial desired.1; pi_blobs := desired.2;
                      pi_complete := false |} in
      do! _ := write_input key input in
      act_ret input
  | Err error => act_err error
  end.

(** Brings one file of the worktree to its desired content. *)
Definition restore_path (target : str) (input : PreparedInput) (current : CapturedFiles)
    (path : str) : Act World () :=
  let before := current !! path in
  let after := wt_files (pi_desired input) !! path in
  if same_file before after then act_ret tt
  else
    do! content := match after ≫= cw_sha256 with
                   | Some hash =>
                       do! dir := act_lift (ok_or (pi_blobs input !! hash)
                                              AgentConversationUnavailable) in
                       do! bytes := outside (sv_read_blob dir hash) in
                       act_ret (Some bytes)
                   | None => act_ret None
                   end in
    do! _ := match content with
             | Some _ => outside (act_or (sv_prepare_parent target path (pi_target_identity input))
                                    AgentConversationConflict)
             | None => act_ret tt
             end in
    outside (act_or (sv_restore target path content (after ≫= cw_mode) (before ≫= cw_sha256)
                       (before ≫= cw_mode) (pi_target_identity input))
               AgentConversationConflict).

Definition input_paths (current : CapturedFiles) (input : PreparedInput) : list str :=
  sort_by str_cmp (elements (dom current ∪ dom (wt_files (pi_initial input))
                             ∪ dom (wt_files (pi_desired input)))).

Definition completed_input (input : PreparedInput) : PreparedInput :=
  {| pi_target_identity := pi_target_identity input; pi_initial := pi_initial input;
     pi_desired := pi_desired input; pi_blobs := pi_blobs input; pi_complete := true |}.

Definition same_place (current initial : WorktreeCheckpointCapture) : bool :=
  bool_decide (wt_head_commit_oid current = wt_head_commit_oid initial)
  && bool_decide (wt_branch_name current = wt_branch_name initial)
  && bool_decide (wt_index_sha256 current = wt_index_sha256 initial).

(** The worktree gets the desired files, unless it holds anything that is neither as it was nor
    as it should be; the result is compared as a whole. *)
Definition apply_input (key : Uuid * Uuid) (target : str) (input : PreparedInput) :
    Act World () :=
  do! identity := outside (sv_identity target) in
  check! guard_err (negb (bool_decide (pi_target_identity input = identity)))
           AgentConversationConflict in
  do! current := outside (act_or (sv_capture target) AgentConversationUnavailable) in
  check! guard_err (negb (same_place current (pi_initial input))) AgentConversationConflict in
  check! canonical_capture_digest current in
  check! guard_err (worktree_conflict (wt_files current) (wt_files (pi_initial input))
                      (wt_files (pi_desired input)) (pi_complete input))
           AgentConversationConflict in
  do! _ := act_map (restore_path target input (wt_files current))
             (input_paths (wt_files current) input) in
  do! after := outside (act_or (sv_capture target) AgentConversationUnavailable) in
  do! found := act_lift (canonical_capture_digest after) in
  do! wanted := act_lift (canonical_capture_digest (pi_desired input)) in
  check! guard_err (negb (bool_decide (found = wanted))) AgentConversationConflict in
  write_input key (completed_input input).

(** The conversation of the task, created or found again. *)
Definition child_source (set : StoredWorkSet) (task : AgentWorkItem) : AgentConversationSource :=
  WorkItem (aw_work_set_id (sw_view set)) (wi_task_id task) (wi_title task)
    (aw_conversation_id (sw_view set)) (aw_request_id (sw_view set)).

Definition child_conversation (set : StoredWorkSet) (task : AgentWorkItem) (workspace_id : Uuid)
    (workspace_root : str) (provider : AgentProvider) (now : Z) : AgentConversation :=
  {| cv_queue_mutations := []; cv_schema_version := 1;
     cv_conversation_id := wi_conversation_id task; cv_workspace_id := workspace_id;
     cv_workspace_display_path := workspace_root;
     cv_repository_id := aw_repository_id (sw_view set); cv_provider := provider;
     cv_source := child_source set task; cv_revision := 0; cv_created_at_unix_ms := now;
     cv_updated_at_unix_ms := now; cv_messages := []; cv_active_session_id := None;
     cv_preview := None |}.

Definition prepare_child (set : StoredWorkSet) (task : AgentWorkItem) (workspace_id : Uuid)
    (workspace_root : str) (provider : AgentProvider) : Act World () :=
  do! _ := outside sv_store_locks in
  do! existing := act_try (outside (sv_read_conversation (wi_conversation_id task))) in
  match existing with
  | Ok c =>
      act_lift (guard_err (negb (cv_workspace_id c =? workspace_id)
                           || negb (bool_decide (cv_repository_id c
                                                 = aw_repository_id (sw_view set)))
                           || negb (bool_decide (cv_source c = child_source set task)))
                  AgentConversationConflict)
  | Err AgentConversationNotFound =>
      do! now := ask sv_now in
      outside (sv_write_conversation
                 (child_conversation set task workspace_id workspace_root provider now))
  | Err error => act_err error
  end.

(** The task is handed to the queue of its conversation. *)
Definition dispatch (index : nat) (task : AgentWorkItem) : Act Job () :=
  do! set := the_set in
  do! _ := (λ j, (Ok (), (j.1, with_sent j.2 set index))) in
  on_out (sv_send (wi_conversation_id task)
            {| sm_request_id := wi_request_id task; sm_body := wi_prompt task |}).

Definition prepare_item (index : nat) : Act Job () :=
  do! before := the_set in
  do! task := the_task index in
  do! (origin, workspace_id) := prepare_workspace index in
  do! target := on_out (sv_source_worktree workspace_id (aw_repository_id (sw_view before))) in
  do! _ := on_out (sv_lease_workspace workspace_id) in
  let key := (aw_work_set_id (sw_view before), wi_task_id task) in
  do! set := the_set in
  do! input := on_world (load_input set index key target) in
  do! _ := on_world (apply_input key target input) in
  do! workspace_root := on_out (sv_workspace_root workspace_id) in
  do! _ := change_task index (λ task, with_path task workspace_root) in
  do! _ := save_set in
  do! set := the_set in
  do! _ := on_world (prepare_child set task workspace_id workspace_root
                       (cv_provider origin)) in
  do! _ := dispatch index task in
  do! _ := change_task index (λ task, with_item task ItemQueued IN_QUEUE) in
  save_set.

(** ** One pass *)

(** Whether a set has work: a task that is not done, or a cancelled one whose agent is. *)
Fixpoint set_pending (tasks : list AgentWorkItem) : Act World bool :=
  match tasks with
  | [] => act_ret false
  | task :: tasks' =>
      if negb (terminal (wi_state task)) then act_ret true
      else if bool_decide (wi_state task = ItemCancelled) then
        do! found := act_try (outside (sv_read_conversation (wi_conversation_id task))) in
        match found with
        | Ok c => if conversation_has_work c then act_ret true else set_pending tasks'
        | Err _ => set_pending tasks'
        end
      else set_pending tasks'
  end.

(** A set that was not pending when it was last read and has not changed since is skipped. *)
Definition pending_set (host : N) (sets : list StoredWorkSet) (id : Uuid) :
    Act World (list StoredWorkSet) :=
  do! readable := ask sv_readable in
  check! guard_err (negb readable) AgentConversationUnavailable in
  do! file := (λ w, (ok_or (wd_sets w !! id) AgentConversationUnavailable, w)) in
  let len := N.of_nat (length file.1) in
  do! cache := (λ w, (Ok (default ∅ (wd_caches w !! host)), w)) in
  if match cache !! id with
     | Some (previous, size, pending) => (previous =? file.2)%Z && (size =? len) && negb pending
     | None => false
     end
  then act_ret sets
  else
    do! set := read_set id in
    do! pending := set_pending (aw_tasks (sw_view set)) in
    do! _ := (λ w, (Ok (), with_work_cache w host
                             (<[id := (file.2, len, pending)]>
                                (default ∅ (wd_caches w !! host))))) in
    act_ret (if pending then sets ++ [set] else sets).

Definition pending_sets (host : N) : Act World (list StoredWorkSet) :=
  do! all := work_set_ids in
  act_fold (pending_set host) [] all.

(** A prerequisite has ended without success; a prerequisite is done. *)
Definition prerequisite_lost (tasks : list AgentWorkItem) (id : Uuid) : bool :=
  existsb (λ item, (wi_task_id item =? id)
                   && match wi_state item with
                      | ItemFailed | ItemBlocked | ItemCancelled => true
                      | _ => false
                      end) tasks.
Definition prerequisite_done (tasks : list AgentWorkItem) (id : Uuid) : bool :=
  existsb (λ item, (wi_task_id item =? id) && bool_decide (wi_state item = ItemCompleted)) tasks.

Definition waiting (state : AgentWorkItemState) : bool :=
  match state with ItemPending | ItemPreparing => true | _ => false end.

Definition PREREQUISITE : str :=
  lit "A prerequisite did not complete. Review it, then create a new work set to retry.".

Definition could_not_start (error : LocalWtsError) : str :=
  lit "The isolated task could not start: " ++ work_error_text error
  ++ lit ". Review the source and prerequisite files, then create a new work set to retry.".

(** The task at [index]; the result is the number of free places after it. *)
Definition schedule_task (slots : nat) (index : nat) : Act Job nat :=
  do! set := the_set in
  do! task := the_task index in
  let tasks := aw_tasks (sw_view set) in
  if negb (waiting (wi_state task)) then act_ret slots
  else if existsb (prerequisite_lost tasks) (wi_depends_on task) then
    do! _ := change_task index (λ task, with_item task ItemBlocked PREREQUISITE) in
    do! _ := save_set in
    act_ret slots
  else if (slots =? 0)%nat || negb (forallb (prerequisite_done tasks) (wi_depends_on task))
  then act_ret slots
  else
    do! _ := change_task index (λ task, with_item task ItemPreparing (wi_detail task)) in
    do! _ := save_set in
    do! outcome := act_try (prepare_item index) in
    match outcome with
    | Ok _ => act_ret (slots - 1)%nat
    | Err error =>
        do! task := the_task index in
        do! _ := (if bool_decide (wi_state task = ItemBlocked) then act_ret tt
                  else change_task index (λ task, with_item task ItemBlocked
                                                    (could_not_start error))) in
        do! _ := save_set in
        act_ret slots
    end.

Definition schedule_set (slots : nat) (set : StoredWorkSet) : Act World nat := λ w,
  let '(r, (_, w)) :=
    act_fold schedule_task slots (seq 0 (length (aw_tasks (sw_view set)))) (set, w) in
  (r, w).

Definition pump_agent_work_sets (host : N) : Act World () := λ w,
  if wd_root w then
    (do! _ := set_lock true in
     do! sets := pending_sets host in
     if bool_decide (length sets = 0%nat) then act_ret tt
     else
       do! sets := act_map (run_job refresh_tasks) sets in
       do! active := outside sv_work_conversations in
       let slots := (MAX_ACTIVE_ITEMS
                     - length (filter (λ c, work_item_source c = true) active))%nat in
       do! _ := act_fold schedule_set slots sets in
       act_ret tt) w
  else (Ok (), w).

(** ** Trust in the workspace of a task *)

(** The conversation of a task may run only while its task stands and its worktree is as it was
    prepared; the result is the capture its agent is shown. *)
Definition verify_child (c : AgentConversation) : Act World (option Uuid) :=
  match cv_source c with
  | WorkItem work_set_id task_id _ origin_conversation_id origin_request_id =>
      do! set := read_set work_set_id in
      let view := sw_view set in
      do! task := act_lift (ok_or (find_task task_id (aw_tasks view))
                              AgentConversationConflict) in
      check! guard_err (negb (aw_conversation_id view =? origin_conversation_id)
                        || negb (aw_request_id view =? origin_request_id)
                        || negb (wi_conversation_id task =? cv_conversation_id c)
                        || negb (bool_decide (wi_workspace_id task = Some (cv_workspace_id c)))
                        || negb (bool_decide (wi_repository_id task = Some (cv_repository_id c)))
                        || bool_decide (wi_state task = ItemCancelled))
               AgentConversationConflict in
      do! input := read_input (work_set_id, task_id) in
      do! target := outside (sv_source_worktree (cv_workspace_id c) (cv_repository_id c)) in
      check! guard_err (negb (pi_complete input)) AgentConversationConflict in
      do! identity := outside (sv_identity target) in
      check! guard_err (negb (bool_decide (pi_target_identity input = identity)))
               AgentConversationConflict in
      do! current := outside (act_or (sv_capture target) AgentConversationUnavailable) in
      do! found := act_lift (canonical_capture_digest current) in
      do! wanted := act_lift (canonical_capture_digest (pi_desired input)) in
      check! guard_err (negb (bool_decide (found = wanted))) AgentConversationConflict in
      do! origin := outside (sv_get origin_conversation_id) in
      do! _ := outside (sv_verify_discussion origin) in
      do! _ := source_record set in
      act_ret (match cv_source origin with
               | Ui _ _ _ _ _ (Some _) => Some (cv_conversation_id origin)
               | _ => None
               end)
  | _ => act_ret None
  end.
End scheduler.
