(* ===== verification/WorkSetRules.v ===== *)
(** * Agent work sets: how a stored set may change

    What the check of a stored set means, and the changes a set goes through: what it was
    created with stays, its tasks keep their identity, a task that is done stays as it is, the
    revision grows and receipts of cancellations are only added. *)

From S2P Require Import Prelude Order Text StoreBase Conversations Captures WorkServices WorkSets.
From S2P Require Import WorkSetRequests WorkSetMerge WorkSetStore WorkSetCalls.

Local Open Scope N_scope.

(** ** A set that can be read *)

Record receipt_ok (id : Uuid) (view : AgentWorkSet) (receipt : CancelReceipt) : Prop := {
  ro_request : wx_request_id (xr_request receipt) ≠ 0;
  ro_set : aw_work_set_id (xr_result receipt) = id;
  ro_conversation : aw_conversation_id (xr_result receipt) = aw_conversation_id view;
  ro_turn : aw_request_id (xr_result receipt) = aw_request_id view;
  ro_mutation :
    aw_last_mutation_request_id (xr_result receipt) = Some (wx_request_id (xr_request receipt));
  ro_revision : aw_revision (xr_result receipt) ≤ aw_revision view;
  ro_then : cancelled_in (xr_result receipt) (xr_task_id receipt) = true;
  ro_now : cancelled_in view (xr_task_id receipt) = true
}.

Definition item_ok (task : AgentWorkItem) (request : AgentWorkItemRequest) : Prop :=
  as_request task = request ∧ wi_conversation_id task ≠ 0 ∧ wi_request_id task ≠ 0.

Definition mutation_of (receipt : CancelReceipt) : Uuid := wx_request_id (xr_request receipt).

Record set_wf (id : Uuid) (set : StoredWorkSet) : Prop := {
  wf_request : request_ok (sw_request set);
  wf_schema : aw_schema_version (sw_view set) = 1;
  wf_id : aw_work_set_id (sw_view set) = id;
  wf_request_id : wc_request_id (sw_request set) = id;
  wf_revision : aw_revision (sw_view set) ≠ 0;
  wf_checkpoint :
    aw_source_checkpoint_id (sw_view set) = wc_expected_after_checkpoint_id (sw_request set);
  wf_kind : aw_kind (sw_view set) = wc_kind (sw_request set);
  wf_origin : aw_conversation_id (sw_view set) ≠ 0 ∧ aw_request_id (sw_view set) ≠ 0;
  wf_tasks : Forall2 item_ok (aw_tasks (sw_view set)) (wc_tasks (sw_request set));
  wf_receipts : Forall (receipt_ok id (sw_view set)) (sw_cancellations set);
  wf_mutations : NoDup (mutation_of <$> sw_cancellations set);
  wf_count : (length (sw_cancellations set) ≤ 8)%nat
}.

Lemma check_receipt_spec id view mutations receipt mutations' :
  check_receipt id view mutations receipt = Ok mutations' ↔
  receipt_ok id view receipt ∧ (mutation_of receipt ∉ mutations) ∧
  mutations' = {[mutation_of receipt]} ∪ mutations.
Proof.
  unfold check_receipt, is_nil, mutation_of. rewrite ensure_Ok.
  rewrite !orb_false_iff, !negb_false_iff, bool_decide_eq_false, bool_decide_eq_true.
  rewrite N.eqb_neq, !N.eqb_eq, N.ltb_ge. split.
  - intros (Hall & [= <-]). destruct Hall as [[[[[[[[]]]]]]]]. by split_and!.
  - intros ([] & Hn & ->). split; [|done]. by split_and!.
Qed.

Lemma check_receipts_spec id view receipts mutations mutations' :
  try_fold (check_receipt id view) mutations receipts = Ok mutations' ↔
  Forall (receipt_ok id view) receipts ∧ NoDup (mutation_of <$> receipts) ∧
  (∀ x, x ∈ mutation_of <$> receipts → x ∉ mutations) ∧
  mutations' = list_to_set (mutation_of <$> receipts) ∪ mutations.
Proof.
  revert mutations. induction receipts as [|r receipts IH]; intros mutations; cbn [try_fold fmap list_fmap].
  - split; [intros [= <-]; split_and!; [constructor..|set_solver|set_solver]|].
    intros (_ & _ & _ & ->). f_equal. set_solver.
  - rewrite rbind_Ok, Forall_cons, NoDup_cons. setoid_rewrite check_receipt_spec.
    setoid_rewrite IH. setoid_rewrite elem_of_cons. split.
    + intros (t & (Hok & Hn & ->) & Hall & Hnd & Hd & ->). split_and!; try done.
      * intros Hin. by apply (Hd _ Hin), elem_of_union; left; apply elem_of_singleton.
      * intros x [->|Hin]; [done|]. specialize (Hd _ Hin). set_solver.
      * cbn. set_solver.
    + intros ([Hok Hall] & [Hn Hnd] & Hd & ->). eexists. split_and!; [done|auto|done|done|done|..].
      * intros x Hin. rewrite not_elem_of_union, not_elem_of_singleton. split; [|auto].
        by intros ->.
      * cbn. set_solver.
Qed.

Lemma task_matches_spec task request :
  task_matches task request = true ↔ item_ok task request.
Proof.
  unfold task_matches, item_ok, as_request, is_nil.
  rewrite !andb_true_iff, !bool_decide_eq_true, !negb_true_iff, !N.eqb_neq. split.
  - intros [[[[[]]]]]. destruct request; cbn in *. subst. by split_and!.
  - intros (<- & ? & ?). by split_and!.
Qed.

Lemma tasks_match tasks requests :
  length tasks = length requests ∧
    existsb (λ pair, negb (task_matches pair.1 pair.2)) (zip tasks requests) = false ↔
  Forall2 item_ok tasks requests.
Proof.
  revert requests. induction tasks as [|t tasks IH]; intros [|r requests]; cbn.
  - by split.
  - split; [by intros [? _]|by intros ?%Forall2_nil_cons_inv].
  - split; [by intros [? _]|by intros ?%Forall2_cons_nil_inv].
  - rewrite orb_false_iff, negb_false_iff, task_matches_spec, Forall2_cons, <- IH. naive_solver.
Qed.

Lemma check_set_spec id set : check_set id set = Ok () ↔ set_wf id set.
Proof.
  unfold check_set, is_nil. rewrite !ensure_Ok, !orb_false_iff, !negb_false_iff.
  rewrite !N.eqb_eq, !N.eqb_neq, Nat.eqb_eq, Nat.ltb_ge, bool_decide_eq_true, rbind_Ok.
  setoid_rewrite check_receipts_spec.
  assert (is_ok (validate_request (sw_request set)) = true ↔ request_ok (sw_request set)) as ->.
  { rewrite <- validate_request_Ok. by destruct (validate_request _) as [[]|]. }
  split.
  - intros (Hreq & [[[[[[[[[[H1 H2] H3] H4] H5] H6] H7] H8] H9] H10] H11] & ids & (H12 & H13 & _) & _).
    split; try done. by apply tasks_match.
  - intros [Hreq H1 H2 H3 H4 H5 H6 [H7 H8] Ht H9 H10 H11]. apply tasks_match in Ht as [Ht Ht'].
    split_and!; try done. eexists. split; [split_and!; [done..|set_solver|done]|done].
Qed.

(** ** Changes of a task *)

Record task_step (t t' : AgentWorkItem) : Prop := {
  ts_request : as_request t' = as_request t;
  ts_conversation : wi_conversation_id t' = wi_conversation_id t;
  ts_turn : wi_request_id t' = wi_request_id t;
  ts_done : terminal (wi_state t) = true →
    wi_state t' = wi_state t ∧ wi_after_checkpoint_id t' = wi_after_checkpoint_id t
}.

#[export] Instance task_step_preorder : PreOrder task_step.
Proof.
  split; [by split|]. intros a b c [H1 H2 H3 H4] [G1 G2 G3 G4]. split; try congruence.
  intros Ht. destruct (H4 Ht) as [Hs Hc]. destruct G4 as [Hs' Hc']; [by rewrite Hs|].
  split; congruence.
Qed.

(** What a set keeps for life. *)
Definition frame (set : StoredWorkSet) :=
  let view := sw_view set in
  (sw_request set, sw_source_session_id set, sw_source_target_identity set,
   (aw_schema_version view, aw_work_set_id view, aw_conversation_id view, aw_request_id view),
   (aw_workspace_id view, aw_repository_id view, aw_source_checkpoint_id view,
    aw_source_context_sha256 view, aw_kind view, aw_created_at_unix_ms view)).

Record progress (s s' : StoredWorkSet) : Prop := {
  pg_frame : frame s' = frame s;
  pg_revision : aw_revision (sw_view s) ≤ aw_revision (sw_view s');
  pg_tasks : Forall2 task_step (aw_tasks (sw_view s)) (aw_tasks (sw_view s'));
  pg_receipts : sw_cancellations s `prefix_of` sw_cancellations s'
}.

#[export] Instance progress_preorder : PreOrder progress.
Proof.
  split.
  - intros s. by split.
  - intros a b c [H1 H2 H3 H4] [G1 G2 G3 G4]. split; [congruence|lia| |by etrans].
    by etrans.
Qed.

Lemma cancelled_in_spec view id :
  cancelled_in view id = true ↔
  ∃ task, task ∈ aw_tasks view ∧ wi_task_id task = id ∧ wi_state task = ItemCancelled.
Proof.
  unfold cancelled_in. rewrite existsb_spec. setoid_rewrite andb_true_iff.
  by setoid_rewrite bool_decide_eq_true.
Qed.

Lemma cancelled_stays view view' id :
  Forall2 task_step (aw_tasks view) (aw_tasks view') →
  cancelled_in view id = true → cancelled_in view' id = true.
Proof.
  intros Hall. rewrite !cancelled_in_spec. intros (task & Hin & Hid & Hst).
  apply list_elem_of_lookup_1 in Hin as (i & Hi).
  destruct (Forall2_lookup_l _ _ _ _ _ Hall Hi) as (task' & Hi' & [Hr _ _ Hd]).
  exists task'. split; [by eapply list_elem_of_lookup_2|]. split.
  - rewrite <- Hid. by apply (f_equal wr_task_id) in Hr.
  - destruct Hd as [-> _]; [by rewrite Hst|done].
Qed.

(** ** Good sets stay good *)

(** A set that can be read, each cancelled task with one receipt. *)
Record good_set (id : Uuid) (s : StoredWorkSet) : Prop := {
  gs_wf : set_wf id s;
  gs_receipts : NoDup (xr_task_id <$> sw_cancellations s)
}.

Lemma progress_item_ok s s' requests :
  Forall2 task_step s s' → Forall2 item_ok s requests → Forall2 item_ok s' requests.
Proof.
  intros Hall. revert requests. induction Hall as [|t t' l l' [H1 H2 H3 _] _ IH]; intros requests.
  { done. }
  destruct requests as [|r requests]; [by intros ?%Forall2_cons_nil_inv|].
  rewrite !Forall2_cons. intros [(Ha & Hb & Hc) Hl]. split; [|auto]. split_and!; congruence.
Qed.

Lemma progress_wf id s s' :
  progress s s' → sw_cancellations s' = sw_cancellations s → set_wf id s → set_wf id s'.
Proof.
  intros [Hf Hr Ht _] Hc []. unfold frame in Hf. injection Hf as ?????????????.
  assert (sw_request s' = sw_request s) as Hq by congruence.
  split; try congruence.
  - lia.
  - rewrite Hq. by eapply progress_item_ok.
  - rewrite Hc. eapply Forall_impl; [exact wf_receipts0|]. intros r []. split; try congruence.
    + lia.
    + by eapply cancelled_stays.
Qed.

Lemma progress_good id s s' :
  progress s s' → sw_cancellations s' = sw_cancellations s → good_set id s → good_set id s'.
Proof. intros Hp Hc [Hw Hr]. split; [by eapply progress_wf|by rewrite Hc]. Qed.

Lemma good_distinct id s : good_set id s → NoDup (wi_task_id <$> aw_tasks (sw_view s)).
Proof.
  intros [[] _]. destruct wf_request0.
  assert (wr_task_id <$> (as_request <$> aw_tasks (sw_view s)) = wr_task_id <$> wc_tasks (sw_request s))
    as Heq; [|by rewrite <- Heq, <- list_fmap_compose in rk_distinct].
  clear -wf_tasks0. induction wf_tasks0 as [|t r l k [<- _] _ IH]; cbn; [done|]. by rewrite IH.
Qed.

(** The cancelled tasks bound the receipts, so there is always room for one more. *)
Lemma receipts_bound id s :
  good_set id s →
  (length (sw_cancellations s)
   ≤ length (filter (λ t, wi_state t = ItemCancelled) (aw_tasks (sw_view s))))%nat.
Proof.
  intros [Hw Hnd]. rewrite <- (length_fmap xr_task_id), <- (length_fmap wi_task_id).
  apply submseteq_length, NoDup_submseteq; [done|].
  intros x (r & -> & Hr)%list_elem_of_fmap.
  pose proof (wf_receipts _ _ Hw) as Hall. rewrite Forall_forall in Hall.
  pose proof (ro_now _ _ _ (Hall r Hr)) as Hn. apply cancelled_in_spec in Hn as (t & Ht & <- & Hs).
  apply list_elem_of_fmap_2, list_elem_of_filter. by split.
Qed.

(** ** Steps of a task *)

Lemma step_state t state detail :
  terminal (wi_state t) = false → task_step t (with_item t state detail).
Proof. intros Ht. split; try done. by rewrite Ht. Qed.
Lemma step_detail t detail : task_step t (with_item t (wi_state t) detail).
Proof. by split. Qed.
Lemma step_place t workspace_id repository_id : task_step t (with_place t workspace_id repository_id).
Proof. by split. Qed.
Lemma step_path t path : task_step t (with_path t path).
Proof. by split. Qed.
Lemma step_checkpoint t checkpoint :
  terminal (wi_state t) = false → task_step t (with_checkpoint t checkpoint).
Proof. intros Ht. split; try done. by rewrite Ht. Qed.

Lemma alter_step (f : AgentWorkItem → AgentWorkItem) i l :
  (∀ t, l !! i = Some t → task_step t (f t)) → Forall2 task_step l (alter f i l).
Proof.
  revert i. induction l as [|t l IH]; intros i Hf; [by constructor|].
  destruct i as [|i]; cbn.
  - constructor; [by apply Hf|done].
  - constructor; [done|]. apply IH. intros t' Ht'. by apply Hf.
Qed.

Lemma bounded_steps l : Forall2 task_step l (bounded_task <$> l).
Proof. induction l as [|t l IH]; constructor; [apply step_detail|done]. Qed.

(** Other tasks in a set, and the set as it is saved. *)
Lemma progress_tasks s tasks :
  Forall2 task_step (aw_tasks (sw_view s)) tasks →
  progress s (with_view s (with_tasks (sw_view s) tasks)).
Proof. intros Hall. by split. Qed.

Lemma progress_saved s now : progress s (with_view s (saved_view (sw_view s) now)).
Proof. split; [done|cbn; lia|apply bounded_steps|done]. Qed.

(** ** A cancellation *)

Definition cancelled_set (s : StoredWorkSet) (index : nat) (task_id : Uuid)
    (request : AgentWorkItemCancelRequest) (now : Z) : StoredWorkSet :=
  let view := cancelled_view (sw_view s) index (wx_request_id request) now in
  add_receipt (with_view s view)
    {| xr_request := request; xr_task_id := task_id; xr_result := view |}.

Lemma task_index_spec task_id tasks index :
  task_index task_id tasks = Some index →
  ∃ task, tasks !! index = Some task ∧ wi_task_id task = task_id.
Proof.
  unfold task_index. destruct (list_find _ _) as [[i t]|] eqn:Hf; [|done]. intros [= <-].
  apply list_find_Some in Hf as (Hi & Hid & _). eauto.
Qed.

Lemma find_receipt_None request_id s :
  find_receipt request_id s = None → request_id ∉ mutation_of <$> sw_cancellations s.
Proof.
  unfold find_receipt. destruct (filter _ _) as [|r l] eqn:Hf; [|done]. intros _.
  intros (r & -> & Hr)%list_elem_of_fmap.
  by apply (filter_nil_not_elem_of _ _ r Hf).
Qed.

Lemma find_receipt_Some request_id s r :
  find_receipt request_id s = Some r → r ∈ sw_cancellations s ∧ mutation_of r = request_id.
Proof.
  intros Hf. apply head_Some_elem_of, list_elem_of_filter in Hf. tauto.
Qed.

Lemma find_receipt_unique s r request_id :
  NoDup (mutation_of <$> sw_cancellations s) → r ∈ sw_cancellations s →
  mutation_of r = request_id → find_receipt request_id s = Some r.
Proof.
  intros Hnd Hin Hid. destruct (find_receipt request_id s) as [r'|] eqn:Hf.
  - apply find_receipt_Some in Hf as [Hin' Hid']. f_equal.
    eapply (NoDup_fmap_inj_on mutation_of); [done..|congruence].
  - apply find_receipt_None in Hf. destruct Hf. rewrite <- Hid. by apply list_elem_of_fmap_2.
Qed.

Section cancelling.
Context (id : Uuid) (s : StoredWorkSet) (index : nat) (task : AgentWorkItem).
Context (request : AgentWorkItemCancelRequest) (now : Z).
Hypothesis good : good_set id s.
Hypothesis at_index : aw_tasks (sw_view s) !! index = Some task.
Hypothesis not_done : terminal (wi_state task) = false.
Hypothesis named : wx_request_id request ≠ 0.
Hypothesis first : find_receipt (wx_request_id request) s = None.

Local Abbreviation task_id := (wi_task_id task).
Local Abbreviation s' := (cancelled_set s index task_id request now).

Lemma cancel_progress : progress s s'.
Proof.
  split; [done|cbn; lia| |by eexists]. cbn. apply alter_step.
  intros t Ht. apply step_state. congruence.
Qed.

Lemma cancelled_now : cancelled_in (sw_view s') task_id = true.
Proof.
  apply cancelled_in_spec. eexists. split.
  - eapply (list_elem_of_lookup_2 _ index). cbn. by rewrite list_lookup_alter_eq, at_index.
  - done.
Qed.

Lemma cancel_unmarked : task_id ∉ xr_task_id <$> sw_cancellations s.
Proof.
  intros (r & Heq & Hr)%list_elem_of_fmap. pose proof good as [[] _].
  rewrite Forall_forall in wf_receipts0. pose proof (ro_now _ _ _ (wf_receipts0 r Hr)) as Hn.
  apply cancelled_in_spec in Hn as (t & Ht & Hid & Hst).
  assert (t = task) as ->; [|by rewrite Hst in not_done].
  eapply NoDup_fmap_inj_on; [by eapply good_distinct|done|by eapply list_elem_of_lookup_2|congruence].
Qed.

Lemma cancel_room : (length (sw_cancellations s) < 8)%nat.
Proof.
  pose proof (receipts_bound _ _ good) as Hb. pose proof good as [[] _].
  pose proof (Forall2_length _ _ _ wf_tasks0) as Hlen. destruct (rk_count _ wf_request0) as [_ Hmax].
  enough (length (filter (λ t, wi_state t = ItemCancelled) (aw_tasks (sw_view s)))
          < length (aw_tasks (sw_view s)))%nat by lia.
  apply length_filter_lt with task; [by eapply list_elem_of_lookup_2|].
  intros Hst. by rewrite Hst in not_done.
Qed.

Lemma cancel_good : good_set id s'.
Proof.
  pose proof good as [Hw Hnd]. pose proof cancel_progress as Hp.
  assert (set_wf id (with_view s (cancelled_view (sw_view s) index (wx_request_id request) now)))
    as Hw'.
  { apply (progress_wf id s); [|done|exact Hw]. destruct Hp. by split. }
  destruct Hw'. split; [split; try done|].
  - apply Forall_app. split; [done|]. apply Forall_singleton. split; try done.
    + exact cancelled_now.
    + exact cancelled_now.
  - cbn. rewrite fmap_app. apply NoDup_app. split_and!; [done| |apply NoDup_singleton].
    intros x Hx ->%list_elem_of_singleton. by eapply find_receipt_None.
  - cbn. rewrite length_app. pose proof cancel_room. cbn. lia.
  - cbn. rewrite fmap_app. apply NoDup_app. split_and!; [done| |apply NoDup_singleton].
    intros x Hx ->%list_elem_of_singleton. by apply cancel_unmarked.
Qed.
End cancelling.
