(* ===== verification/WorkSetTriples.v ===== *)
(** * Agent work sets: rules for the effects of the scheduler

    [runs I s m Q]: from [s], the call keeps [I] whatever its outcome, and when it succeeds its
    result satisfies [Q].  A call is [quiet] when it leaves the sets, their directories and the
    record of dispatched tasks as they are; all that reads, asks the outside or writes inputs
    is. *)

From S2P Require Import Prelude Order Text StoreBase Conversations Captures WorkServices WorkSets.
From S2P Require Import WorkSetRequests WorkSetMerge WorkSetStore WorkSetCalls WorkSetScheduler.
From S2P Require Import WorkSetRules.

Local Open Scope N_scope.

(** ** Rules *)

Definition runs {S A} (I : S → Prop) (s : S) (m : Act S A) (Q : A → S → Prop) : Prop :=
  ∀ r s', m s = (r, s') → I s' ∧ ∀ x, r = Ok x → Q x s'.

Section rules.
Context {S : Type} (I : S → Prop).

Lemma runs_ret {A} s (x : A) (Q : A → S → Prop) : I s → Q x s → runs I s (act_ret x) Q.
Proof. intros Hi Hq r s' [= <- <-]. split; [done|]. by intros y [= <-]. Qed.

Lemma runs_err {A} s e (Q : A → S → Prop) : I s → runs I s (act_err e) Q.
Proof. intros Hi r s' [= <- <-]. by split. Qed.

Lemma runs_lift {A} s (o : result A LocalWtsError) (Q : A → S → Prop) :
  I s → (∀ x, o = Ok x → Q x s) → runs I s (act_lift o) Q.
Proof. intros Hi Hq r s' [= <- <-]. by split. Qed.

Lemma runs_bind {A B} s (m : Act S A) (k : A → Act S B) (R : A → S → Prop) (Q : B → S → Prop) :
  runs I s m R → (∀ x s', I s' → R x s' → runs I s' (k x) Q) → runs I s (act_bind m k) Q.
Proof.
  intros Hm Hk r s' Hrun. unfold act_bind in Hrun. destruct (m s) as [[x|e] s1] eqn:Hms.
  - destruct (Hm _ _ Hms) as [Hi Hr]. eapply Hk; [done|by apply Hr|done].
  - injection Hrun as <- <-. destruct (Hm _ _ Hms) as [Hi _]. by split.
Qed.

Lemma runs_check {A} s (o : result () LocalWtsError) (k : Act S A) (Q : A → S → Prop) :
  I s → (o = Ok () → runs I s k Q) → runs I s (act_bind (act_lift o) (λ _, k)) Q.
Proof.
  intros Hi Hk. apply (runs_bind _ _ _ (λ _ s', o = Ok () ∧ s' = s)).
  - intros r s' [= <- <-]. split; [done|]. by intros [] ->.
  - intros _ s' _ [Ho ->]. by apply Hk.
Qed.

Lemma runs_try {A} s (m : Act S A) (R : A → S → Prop) :
  runs I s m R → runs I s (act_try m) (λ o s', ∀ x, o = Ok x → R x s').
Proof.
  intros Hm r s' Hrun. unfold act_try in Hrun. destruct (m s) as [o s1] eqn:Hms.
  injection Hrun as <- <-. destruct (Hm _ _ Hms) as [Hi Hr]. split; [done|].
  intros y [= <-]. exact Hr.
Qed.

Lemma runs_weaken {A} s (m : Act S A) (R Q : A → S → Prop) :
  runs I s m R → (∀ x s', I s' → R x s' → Q x s') → runs I s m Q.
Proof. intros Hm Hq r s' Hrun. destruct (Hm _ _ Hrun) as [Hi Hr]. split; auto. Qed.

Lemma runs_fold {A B} (J : B → S → Prop) (f : B → A → Act S B) l b s :
  I s → J b s → (∀ b x s, x ∈ l → I s → J b s → runs I s (f b x) J) →
  runs I s (act_fold f b l) J.
Proof.
  revert b s. induction l as [|x l IH]; intros b s Hi Hj Hf; cbn.
  - by apply runs_ret.
  - eapply runs_bind; [apply Hf; [left|done..]|]. intros b' s' Hi' Hj'.
    apply IH; [done..|]. intros c y t Hy. apply Hf. by right.
Qed.

Lemma runs_map {A B} (R : A → B → Prop) (f : A → Act S B) l s :
  I s → (∀ x s, x ∈ l → I s → runs I s (f x) (λ y _, R x y)) →
  runs I s (act_map f l) (λ ys _, Forall2 R l ys).
Proof.
  revert s. induction l as [|x l IH]; intros s Hi Hf; cbn.
  - by apply runs_ret.
  - eapply runs_bind; [apply Hf; [left|done]|]. intros y s1 Hi1 Hr.
    eapply runs_bind; [apply IH; [done|]; intros; apply Hf; [by right|done]|].
    intros ys s2 Hi2 Hrs. apply runs_ret; [done|by constructor].
Qed.

End rules.

(** A call in two parts succeeds when both do. *)
Lemma act_bind_Ok {S A B} (m : Act S A) (k : A → Act S B) s y s' :
  act_bind m k s = (Ok y, s') → ∃ x s1, m s = (Ok x, s1) ∧ k x s1 = (Ok y, s').
Proof. unfold act_bind. destruct (m s) as [[x|e] s1]; [|done]. eauto. Qed.

(** What a call returns, whatever it meets. *)
Definition yields {S A} (m : Act S A) (Q : A → Prop) : Prop :=
  ∀ s x s', m s = (Ok x, s') → Q x.

Section yields.
Context {S : Type}.

Lemma yields_any {A} (m : Act S A) : yields m (λ _, True).
Proof. done. Qed.
Lemma yields_ret {A} (x : A) (Q : A → Prop) : Q x → yields (S:=S) (act_ret x) Q.
Proof. by intros Hq s y s' [= <- <-]. Qed.
Lemma yields_lift {A} (o : result A LocalWtsError) (Q : A → Prop) :
  (∀ x, o = Ok x → Q x) → yields (S:=S) (act_lift o) Q.
Proof. intros Hq s x s' [= Ho <-]. auto. Qed.
Lemma yields_bind {A B} (m : Act S A) (k : A → Act S B) (R : A → Prop) (Q : B → Prop) :
  yields m R → (∀ x, R x → yields (k x) Q) → yields (act_bind m k) Q.
Proof.
  intros Hm Hk s y s' Hrun. unfold act_bind in Hrun. destruct (m s) as [[x|e] s1] eqn:Hms; [|done].
  eapply Hk; [|done]. by eapply Hm.
Qed.
Lemma yields_map {A B} (R : A → B → Prop) (f : A → Act S B) l :
  (∀ x, x ∈ l → yields (f x) (R x)) → yields (act_map f l) (Forall2 R l).
Proof.
  induction l as [|x l IH]; intros Hf; cbn; [by apply yields_ret|].
  eapply yields_bind; [apply Hf; left|]. intros y Hy.
  eapply yields_bind; [apply IH; intros z Hz; apply Hf; by right|]. intros ys Hys.
  apply yields_ret. by constructor.
Qed.
End yields.

(** ** Quiet calls *)

Section quiet.
Context {W : Type} `{WorkServices W} `{CaptureDigests} `{WorkSetLibraries}.

Local Abbreviation World := (WorkWorld W).

Record same_sets (w w' : World) : Prop := {
  ss_root : wd_root w' = wd_root w;
  ss_dirs : wd_dirs w' = wd_dirs w;
  ss_sets : wd_sets w' = wd_sets w;
  ss_sent : wd_sent w' = wd_sent w
}.

#[export] Instance same_sets_preorder : PreOrder same_sets.
Proof. split; [by split|]. intros a b c [] []. split; congruence. Qed.

Definition quiet {A} (m : Act World A) : Prop := ∀ w r w', m w = (r, w') → same_sets w w'.

Lemma quiet_ret {A} (x : A) : quiet (act_ret x).
Proof. by intros w r w' [= <- <-]. Qed.
Lemma quiet_err {A} e : quiet (act_err (A:=A) e).
Proof. by intros w r w' [= <- <-]. Qed.
Lemma quiet_lift {A} (o : result A LocalWtsError) : quiet (act_lift o).
Proof. by intros w r w' [= <- <-]. Qed.
Lemma quiet_bind {A B} (m : Act World A) (k : A → Act World B) :
  quiet m → (∀ x, quiet (k x)) → quiet (act_bind m k).
Proof.
  intros Hm Hk w r w' Hrun. unfold act_bind in Hrun. destruct (m w) as [[x|e] w1] eqn:Hmw.
  - etrans; [by eapply Hm|by eapply Hk].
  - injection Hrun as <- <-. by eapply Hm.
Qed.
Lemma quiet_try {A} (m : Act World A) : quiet m → quiet (act_try m).
Proof.
  intros Hm w r w' Hrun. unfold act_try in Hrun. destruct (m w) as [o w1] eqn:Hmw.
  injection Hrun as <- <-. by eapply Hm.
Qed.
Lemma quiet_outside {A} (m : Act W A) : quiet (outside m).
Proof.
  intros w r w' Hrun. unfold outside in Hrun. destruct (m _). by injection Hrun as <- <-.
Qed.
Lemma quiet_ask {A} (m : W → A * W) : quiet (ask m).
Proof. intros w r w' Hrun. unfold ask in Hrun. destruct (m _). by injection Hrun as <- <-. Qed.
Lemma quiet_read {A} (f : World → result A LocalWtsError) : quiet (λ w, (f w, w)).
Proof. by intros w r w' [= <- <-]. Qed.
Lemma quiet_fold {A B} (f : B → A → Act World B) b l :
  (∀ b x, quiet (f b x)) → quiet (act_fold f b l).
Proof.
  intros Hf. revert b. induction l as [|x l IH]; intros b; cbn; [apply quiet_ret|].
  apply quiet_bind; auto.
Qed.
Lemma quiet_map {A B} (f : A → Act World B) l : (∀ x, quiet (f x)) → quiet (act_map f l).
Proof.
  intros Hf. induction l as [|x l IH]; cbn; [apply quiet_ret|].
  apply quiet_bind; [done|]. intros y. apply quiet_bind; [done|]. intros ys. apply quiet_ret.
Qed.
Lemma quiet_if {A} (b : bool) (m k : Act World A) :
  quiet m → quiet k → quiet (if b then m else k).
Proof. by destruct b. Qed.
End quiet.

Create HintDb quiet discriminated.
#[export] Hint Resolve quiet_ret quiet_err quiet_lift quiet_try quiet_outside quiet_ask quiet_read
  quiet_if : quiet.

(** Takes a call apart into calls known to be quiet. *)
Ltac quiet_step :=
  match goal with
  | |- quiet (act_bind _ _) => apply quiet_bind; [|intros ?]
  | |- quiet (act_fold _ _ _) => apply quiet_fold; intros ? ?
  | |- quiet (act_map _ _) => apply quiet_map; intros ?
  | |- quiet (act_try _) => apply quiet_try
  | |- quiet (if _ then _ else _) => apply quiet_if
  | |- quiet (match ?x with _ => _ end) => destruct x
  | |- quiet _ => solve [eauto with quiet]
  end.
Ltac quiet_solve := repeat quiet_step.

Section calls.
Context {W : Type} `{WorkServices W} `{CaptureDigests} `{WorkSetLibraries}.

Lemma quiet_read_set id : quiet (read_set id).
Proof. unfold read_set. quiet_solve. Qed.
Hint Resolve quiet_read_set : quiet.

Lemma quiet_work_set_ids : quiet work_set_ids.
Proof.
  intros w r w' Hrun. unfold work_set_ids in Hrun. destruct (wd_root w); [|by injection Hrun as <- <-].
  eapply (quiet_bind _ _ (quiet_outside _)); [|exact Hrun]. intros []. quiet_solve.
Qed.

Lemma quiet_read_input key : quiet (read_input key).
Proof. unfold read_input. quiet_solve. Qed.
Hint Resolve quiet_read_input : quiet.

Lemma quiet_write_input key input : quiet (write_input key input).
Proof.
  unfold write_input. do 3 (apply quiet_bind; [quiet_solve|intros ?]).
  intros w r w' Hrun. by repeat case_match; injection Hrun as <- <-.
Qed.
Hint Resolve quiet_write_input : quiet.

Lemma quiet_source_record set : quiet (source_record set).
Proof. unfold source_record. quiet_solve. Qed.
Hint Resolve quiet_source_record : quiet.

Lemma quiet_candidate id task_id : quiet (load_integration_candidate id task_id).
Proof. unfold load_integration_candidate. quiet_solve. Qed.
Hint Resolve quiet_candidate : quiet.

Lemma quiet_desired_input set index : quiet (desired_input set index).
Proof. unfold desired_input. quiet_solve. Qed.
Hint Resolve quiet_desired_input : quiet.

Lemma quiet_load_input set index key target : quiet (load_input set index key target).
Proof. unfold load_input. quiet_solve. Qed.

Lemma quiet_restore_path target input current path : quiet (restore_path target input current path).
Proof. unfold restore_path. quiet_solve. Qed.
Hint Resolve quiet_restore_path : quiet.

Lemma quiet_apply_input key target input : quiet (apply_input key target input).
Proof. unfold apply_input. quiet_solve. Qed.

Lemma quiet_prepare_child set task workspace_id workspace_root provider :
  quiet (prepare_child set task workspace_id workspace_root provider).
Proof. unfold prepare_child. quiet_solve. Qed.

Lemma quiet_stop task : quiet (stop_cancelled_child task).
Proof. unfold stop_cancelled_child. quiet_solve. Qed.
Hint Resolve quiet_stop : quiet.

Lemma quiet_new_items tasks : quiet (new_items tasks).
Proof. unfold new_items. quiet_solve. Qed.

Lemma quiet_propose_set conversation_id request_id request :
  quiet (propose_set conversation_id request_id request).
Proof.
  unfold propose_set. apply quiet_bind; [apply quiet_work_set_ids|intros all].
  do 11 (apply quiet_bind; [quiet_solve|intros ?]).
  apply quiet_bind; [quiet_solve|intros now].
  apply quiet_bind; [apply quiet_new_items|intros tasks]. quiet_solve.
Qed.

Lemma quiet_refresh_task task : quiet (refresh_task task).
Proof. unfold refresh_task. quiet_solve. Qed.

Lemma quiet_set_pending tasks : quiet (set_pending tasks).
Proof. induction tasks as [|task tasks IH]; cbn; quiet_solve. Qed.
Hint Resolve quiet_set_pending : quiet.

Lemma quiet_pending_set host sets id : quiet (pending_set host sets id).
Proof.
  unfold pending_set. repeat quiet_step.
  intros w r w' Hrun. by injection Hrun as <- <-.
Qed.
Hint Resolve quiet_pending_set : quiet.

Lemma quiet_pending_sets host : quiet (pending_sets host).
Proof. unfold pending_sets. apply quiet_bind; [apply quiet_work_set_ids|intros ?]. quiet_solve. Qed.

Lemma quiet_verify_child c : quiet (verify_child c).
Proof. unfold verify_child. quiet_solve. Qed.
End calls.

#[export] Hint Resolve quiet_read_set quiet_work_set_ids quiet_read_input quiet_source_record
  quiet_load_input quiet_apply_input quiet_prepare_child quiet_stop quiet_new_items
  quiet_propose_set quiet_refresh_task quiet_pending_sets quiet_verify_child : quiet.
