(* ===== verification/WorkSetInvariant.v ===== *)
(** * Agent work sets: the invariant of the store and of a job

    Every set in the directory can be read; what a call changes is progress of the sets; and a
    task is handed to the queue only when it is ready.  A job keeps the set in memory ahead of
    the stored one, and leaves all other sets alone. *)

From S2P Require Import Prelude Order Text StoreBase Sessions Conversations Captures.
From S2P Require Import WorkServices WorkSets WorkSetRequests WorkSetMerge WorkSetStore.
From S2P Require Import WorkSetCalls WorkSetScheduler WorkSetRules WorkSetTriples.

Local Open Scope N_scope.

(** A task that is being prepared and whose prerequisites are all done. *)
Definition ready_at (index : nat) (set : StoredWorkSet) : Prop :=
  ∃ task, aw_tasks (sw_view set) !! index = Some task ∧ wi_state task = ItemPreparing ∧
    ∀ id, id ∈ wi_depends_on task → prerequisite_done (aw_tasks (sw_view set)) id = true.

Definition sent_ok (entry : StoredWorkSet * nat) : Prop :=
  good_set (aw_work_set_id (sw_view entry.1)) entry.1 ∧ ready_at entry.2 entry.1.

Section invariant.
Context {W : Type} `{WorkServices W} `{CaptureDigests} `{WorkSetLibraries} `{!WorkSetLaws}.

Local Abbreviation World := (WorkWorld W).
Local Abbreviation Job := (StoredWorkSet * WorkWorld W)%type.

Definition stored (w : World) (id : Uuid) : option StoredWorkSet :=
  match wd_sets w !! id with
  | Some file => match decode_set id file.1 with Ok set => Some set | Err _ => None end
  | None => None
  end.

Record world_ok (w : World) : Prop := {
  wo_sets id file : wd_sets w !! id = Some file →
    ∃ set, decode_set id file.1 = Ok set ∧ good_set id set;
  wo_dirs : dom (wd_sets w) ⊆ wd_dirs w
}.

Record advance (w w' : World) : Prop := {
  ad_dirs : wd_dirs w ⊆ wd_dirs w';
  ad_sets id s : stored w id = Some s → ∃ s', stored w' id = Some s' ∧ progress s s';
  ad_sent : ∃ added, wd_sent w' = wd_sent w ++ added ∧ Forall sent_ok added
}.

#[export] Instance advance_preorder : PreOrder advance.
Proof.
  split.
  - intros w. split; [done|by intros id s; exists s|]. exists []. by rewrite app_nil_r.
  - intros a b c [D1 S1 (l & T1 & F1)] [D2 S2 (k & T2 & F2)]. split; [set_solver|..].
    + intros id s Hs. destruct (S1 id s Hs) as (s1 & Hs1 & Hp1).
      destruct (S2 id s1 Hs1) as (s2 & Hs2 & Hp2). exists s2. split; [done|by etrans].
    + exists (l ++ k). rewrite T2, T1, app_assoc. split; [done|by apply Forall_app].
Qed.

Lemma stored_good w id s : world_ok w → stored w id = Some s → good_set id s.
Proof.
  intros [Hw _]. unfold stored. destruct (wd_sets w !! id) as [file|] eqn:Hf; [|done].
  destruct (Hw _ _ Hf) as (set & -> & Hg). by intros [= <-].
Qed.

Lemma same_stored w w' id : wd_sets w' !! id = wd_sets w !! id → stored w' id = stored w id.
Proof. unfold stored. by intros ->. Qed.

Lemma same_sets_ok w w' : same_sets w w' → world_ok w → world_ok w'.
Proof. intros [Hr Hd Hs _] [Hw Hdom]. split; rewrite Hs; [done|by rewrite Hd]. Qed.

Lemma same_sets_advance w w' : same_sets w w' → advance w w'.
Proof.
  intros [_ Hd Hs Hn]. split; [by rewrite Hd| |exists []; by rewrite app_nil_r].
  intros id s Hst. exists s. split; [|done]. rewrite <- Hst. apply same_stored. by rewrite Hs.
Qed.

(** ** Reading and writing a set *)

Lemma decode_good id bytes s : decode_set id bytes = Ok s → set_wf id s.
Proof.
  unfold decode_set. rewrite ensure_Ok, rbind_Ok. intros (_ & set & _ & Hc).
  apply rbind_Ok in Hc as ([] & Hc & [= <-]). by apply check_set_spec.
Qed.

Lemma decode_written id s bytes :
  set_wf id s → set_to_json s = Some bytes → N.of_nat (length bytes) ≤ MAX_SET_BYTES →
  decode_set id bytes = Ok s.
Proof.
  intros Hw Hj Hl. unfold decode_set. rewrite ensure_Ok. split; [by apply N.ltb_ge|].
  rewrite (set_round_trip _ _ Hj). cbn. apply check_set_spec in Hw. by rewrite Hw.
Qed.

Lemma read_set_Ok w id s w' :
  read_set id w = (Ok s, w') → stored w id = Some s ∧ same_sets w w'.
Proof.
  intros Hrun. assert (same_sets w w') as Hs by by eapply quiet_read_set. split; [|done].
  unfold read_set, act_bind, ask, act_lift in Hrun. destruct (sv_readable (wd_outside w)) as [b out].
  destruct b; cbn in Hrun; [|done]. injection Hrun as Hrun <-. unfold stored.
  apply rbind_Ok in Hrun as (file & Hf%ok_or_Ok & Hd). by rewrite Hf, Hd.
Qed.

(** A write leaves everything as it was, or puts the set under its identifier. *)
Lemma write_set_cases w s r w' :
  write_set s w = (r, w') → set_wf (aw_work_set_id (sw_view s)) s →
  (same_sets w w' ∧ r ≠ Ok ()) ∨
  (wd_root w' = wd_root w ∧ wd_dirs w' = wd_dirs w ∧ wd_sent w' = wd_sent w ∧
   (∃ file, wd_sets w' = <[aw_work_set_id (sw_view s) := file]> (wd_sets w) ∧
      decode_set (aw_work_set_id (sw_view s)) file.1 = Ok s)).
Proof.
  intros Hrun Hwf. unfold write_set, act_bind, act_lift, ask in Hrun.
  destruct (set_to_json s) as [bytes|] eqn:Hj; cbn in Hrun; [|injection Hrun as <- <-; by left].
  destruct (MAX_SET_BYTES <? N.of_nat (length bytes)) eqn:Hl; cbn in Hrun;
    [injection Hrun as <- <-; by left|]. apply N.ltb_ge in Hl.
  destruct (sv_write (wd_outside w)) as [outcome out].
  pose proof (decode_written _ _ _ Hwf Hj Hl) as Hd.
  destruct outcome as [modified|modified|]; injection Hrun as <- <-; [right|right|by left];
    (split_and!; [done..|]); by exists (bytes, modified).
Qed.

Lemma written_stored w w' id s file :
  wd_sets w' = <[id := file]> (wd_sets w) → decode_set id file.1 = Ok s →
  stored w' id = Some s ∧ ∀ other, other ≠ id → stored w' other = stored w other.
Proof.
  intros Hs Hd. split.
  - unfold stored. by rewrite Hs, lookup_insert_eq, Hd.
  - intros other Hne. apply same_stored. by rewrite Hs, lookup_insert_ne.
Qed.

(** ** Jobs *)

Record job_ok (w0 : World) (id : Uuid) (j : Job) : Prop := {
  jo_good : good_set id j.1;
  jo_stored : ∃ s, stored j.2 id = Some s ∧ progress s j.1;
  jo_world : world_ok j.2;
  jo_advance : advance w0 j.2;
  jo_others other : other ≠ id → wd_sets j.2 !! other = wd_sets w0 !! other;
  jo_dirs : wd_dirs j.2 = wd_dirs w0;
  jo_root : wd_root j.2 = wd_root w0
}.

Lemma job_quiet w0 id s w w' : same_sets w w' → job_ok w0 id (s, w) → job_ok w0 id (s, w').
Proof.
  intros Hs [Hg (s0 & Hst & Hp) Hw Ha Ho Hd Hr]. cbn in *. destruct (Hs) as [Er Ed Es En].
  split; cbn; [done|..|congruence|congruence].
  - exists s0. split; [|done]. rewrite <- Hst. apply same_stored. by rewrite Es.
  - by eapply same_sets_ok.
  - etrans; [exact Ha|by apply same_sets_advance].
  - intros other Hne. rewrite Es. by apply Ho.
Qed.

(** The set in memory moves on. *)
Lemma job_moves w0 id s s' w :
  progress s s' → sw_cancellations s' = sw_cancellations s →
  job_ok w0 id (s, w) → job_ok w0 id (s', w).
Proof.
  intros Hp Hc [Hg (s0 & Hst & Hp0) Hw Ha Ho Hd Hr]. cbn in *. split; cbn; try done.
  - by eapply progress_good.
  - exists s0. split; [done|by etrans].
Qed.

Lemma job_write w0 id s w r w' :
  job_ok w0 id (s, w) → write_set s w = (r, w') →
  job_ok w0 id (s, w') ∧ (r = Ok () → stored w' id = Some s).
Proof.
  intros Hj Hrun. pose proof Hj as [Hg (s0 & Hst & Hp) Hw Ha Ho Hd Hr]. cbn in *.
  pose proof (wf_id _ _ (gs_wf _ _ Hg)) as Hid.
  destruct (write_set_cases _ _ _ _ Hrun) as [[Hs Hne]|(Er & Ed & En & file & Hf & Hdec)];
    [rewrite Hid; apply Hg|split; [by eapply job_quiet|done]|].
  rewrite Hid in Hf, Hdec. destruct (written_stored _ _ _ _ _ Hf Hdec) as [Hnow Hsame].
  split; [|done]. split; cbn; [done|by exists s|..|congruence|congruence].
  - split.
    + intros i f Hi. rewrite Hf in Hi. apply lookup_insert_Some in Hi as [[<- <-]|[_ Hi]];
        [by exists s|by apply Hw].
    + rewrite Hf, dom_insert, Ed. pose proof (wo_dirs _ Hw) as Hdom.
      assert (id ∈ dom (wd_sets w)); [|set_solver]. apply elem_of_dom.
      unfold stored in Hst. destruct (wd_sets w !! id); [by eexists|done].
  - etrans; [exact Ha|]. split; [by rewrite Ed| |exists []; by rewrite app_nil_r].
    intros i x Hx. destruct (decide (i = id)) as [->|Hne].
    + exists s. split; [done|]. congruence.
    + exists x. by rewrite Hsame.
  - intros other Hne. rewrite Hf, lookup_insert_ne by done. by apply Ho.
Qed.
End invariant.

(** ** Refresh, cancellation, preparation and dispatch are good jobs *)

(** ** Tasks that look the same to the scheduler *)

Definition looks_like (t t' : AgentWorkItem) : Prop :=
  wi_task_id t' = wi_task_id t ∧ wi_state t' = wi_state t ∧ wi_depends_on t' = wi_depends_on t.

#[export] Instance looks_like_preorder : PreOrder looks_like.
Proof. split; [by split|]. intros a b c (?&?&?) (?&?&?). split_and!; congruence. Qed.

Lemma bounded_looks_like l : Forall2 looks_like l (bounded_task <$> l).
Proof. induction l as [|t l IH]; constructor; [by split|done]. Qed.

Lemma alter_looks_like (f : AgentWorkItem → AgentWorkItem) i l :
  (∀ t, looks_like t (f t)) → Forall2 looks_like l (alter f i l).
Proof.
  intros Hf. revert i. induction l as [|t l IH]; intros [|i]; cbn; constructor; try done; apply IH.
Qed.

Lemma prerequisite_done_spec tasks id :
  prerequisite_done tasks id = true ↔
  ∃ t, t ∈ tasks ∧ wi_task_id t = id ∧ wi_state t = ItemCompleted.
Proof.
  unfold prerequisite_done. rewrite existsb_spec. setoid_rewrite andb_true_iff.
  setoid_rewrite bool_decide_eq_true. by setoid_rewrite N.eqb_eq.
Qed.

Lemma prerequisite_done_like tasks tasks' id :
  Forall2 looks_like tasks tasks' → prerequisite_done tasks id = true →
  prerequisite_done tasks' id = true.
Proof.
  intros Hall. rewrite !prerequisite_done_spec. intros (t & Ht & <- & Hs).
  apply list_elem_of_lookup_1 in Ht as (i & Hi).
  destruct (Forall2_lookup_l _ _ _ _ _ Hall Hi) as (t' & Hi' & Hid & Hst & _).
  exists t'. split; [by eapply list_elem_of_lookup_2|]. split; congruence.
Qed.

Lemma ready_like index s s' :
  Forall2 looks_like (aw_tasks (sw_view s)) (aw_tasks (sw_view s')) →
  ready_at index s → ready_at index s'.
Proof.
  intros Hall (t & Ht & Hs & Hd). destruct (Forall2_lookup_l _ _ _ _ _ Hall Ht) as (t' & Ht' & Hid & Hst & Hdep).
  exists t'. split_and!; [done|congruence|]. intros id Hin.
  eapply prerequisite_done_like; [done|]. apply Hd. by rewrite <- Hdep.
Qed.

Section jobs.
Context {W : Type} `{WorkServices W} `{CaptureDigests} `{WorkSetLibraries} `{!WorkSetLaws}.

Local Abbreviation World := (WorkWorld W).
Local Abbreviation Job := (StoredWorkSet * WorkWorld W)%type.

Section one_job.
Context (w0 : World) (id : Uuid).

Local Abbreviation I := (job_ok w0 id).

(** ** The pieces of a job *)

Lemma runs_quiet {A} j (m : Act World A) :
  I j → quiet m → runs I j (on_world m) (λ _ j', j'.1 = j.1 ∧ same_sets j.2 j'.2).
Proof.
  intros Hj Hq r j' Hrun. unfold on_world in Hrun. destruct (m j.2) as [o w] eqn:Hm.
  injection Hrun as <- <-. apply Hq in Hm. destruct j as [s w1]. split; [by eapply job_quiet|done].
Qed.

Lemma runs_the_set j : I j → runs I j the_set (λ s j', s = j.1 ∧ j' = j).
Proof. intros Hj r j' [= <- <-]. split; [done|]. by intros s [= <-]. Qed.

Lemma runs_the_task j index :
  I j → runs I j (the_task index) (λ t j', aw_tasks (sw_view j.1) !! index = Some t ∧ j' = j).
Proof. intros Hj r j' [= <- <-]. split; [done|]. by intros t Ht%ok_or_Ok. Qed.

Lemma runs_put_tasks j tasks :
  I j → Forall2 task_step (aw_tasks (sw_view j.1)) tasks →
  runs I j (put_view (with_tasks (sw_view j.1) tasks))
    (λ _ j', j' = (with_view j.1 (with_tasks (sw_view j.1) tasks), j.2)).
Proof.
  intros Hj Hall r j' [= <- <-]. split; [|done]. destruct j as [s w].
  eapply job_moves; [by apply progress_tasks|done|done].
Qed.

Lemma runs_change j index f :
  I j → (∀ t, aw_tasks (sw_view j.1) !! index = Some t → task_step t (f t)) →
  runs I j (change_task index f)
    (λ _ j', j' = (with_view j.1 (with_tasks (sw_view j.1)
                                    (alter f index (aw_tasks (sw_view j.1)))), j.2)).
Proof. intros Hj Hf. by apply runs_put_tasks, alter_step. Qed.

Lemma runs_write j s :
  I (s, j.2) → I j → j.1 = s →
  runs I j (on_world (write_set s)) (λ _ j', j'.1 = j.1 ∧ stored j'.2 id = Some s).
Proof.
  intros Hs Hj Heq r j' Hrun. unfold on_world in Hrun. destruct (write_set s j.2) as [o w] eqn:Hm.
  injection Hrun as <- <-. destruct (job_write _ _ _ _ _ _ Hs Hm) as [Hj' Hst].
  rewrite Heq. split; [done|]. intros [] ->. by split; [|apply Hst].
Qed.

(** A saved set is the stored one. *)
Definition is_saved (s : StoredWorkSet) (j : Job) : Prop :=
  stored j.2 id = Some j.1 ∧ ∃ now, j.1 = with_view s (saved_view (sw_view s) now).

Lemma runs_save j : I j → runs I j save_set (λ _ j', is_saved j.1 j').
Proof.
  intros Hj. unfold save_set.
  eapply runs_bind; [apply runs_quiet; [done|apply quiet_ask]|].
  intros now j1 Hj1 [Heq1 _]. cbn in Heq1.
  eapply runs_bind; [by apply runs_the_set|]. intros s j2 _ [-> ->]. rewrite Heq1.
  eapply (runs_bind _ _ _ _ (λ _ j2, j2 = (with_view j1.1 (saved_view (sw_view j1.1) now), j1.2))).
  { intros r j' [= <- <-]. rewrite Heq1. split; [|done]. destruct j1 as [s1 w1]. cbn in *. subst s1.
    by eapply job_moves; [apply progress_saved|..]. }
  intros _ j2 Hj2 ->. eapply runs_bind; [by apply runs_the_set|]. intros s j3 _ [-> ->].
  eapply runs_weaken; [by apply runs_write|]. intros _ j3 Hj3 [Hs Hst]. cbn in Hs.
  rewrite Heq1 in Hs, Hst. split; [by rewrite Hs|by exists now].
Qed.

Lemma saved_looks_like s j :
  is_saved s j → Forall2 looks_like (aw_tasks (sw_view s)) (aw_tasks (sw_view j.1)).
Proof. intros [_ (now & ->)]. apply bounded_looks_like. Qed.

(** ** Refresh *)

Lemma refresh_task_step task : yields (refresh_task task) (task_step task).
Proof.
  unfold refresh_task. destruct (bool_decide (wi_state task = ItemCancelled)).
  { eapply yields_bind; [apply yields_any|]. intros _ _. by apply yields_ret. }
  destruct (terminal (wi_state task)) eqn:Ht; [by apply yields_ret|].
  eapply yields_bind; [apply yields_any|]. intros [c|e] _; [|by apply yields_ret].
  destruct (task_message task c) as [user|]; [|by apply yields_ret].
  destruct (terminal (state_of_message (am_status user))); [|by apply yields_ret, step_state].
  eapply yields_bind; [apply yields_any|]. intros [changes|e] _; apply yields_ret.
  - split; try done. by rewrite Ht.
  - by apply step_state.
Qed.

Lemma runs_refresh j : I j → runs I j refresh_tasks
  (λ _ j', Forall2 task_step (aw_tasks (sw_view j.1)) (aw_tasks (sw_view j'.1)) ∧
           sw_cancellations j'.1 = sw_cancellations j.1).
Proof.
  intros Hj. unfold refresh_tasks.
  eapply runs_bind; [by apply runs_the_set|]. intros s j1 _ [-> ->].
  eapply (runs_bind _ _ _ _ (λ tasks j1, j1.1 = j.1 ∧ Forall2 task_step (aw_tasks (sw_view j.1)) tasks)).
  { intros r j1 Hrun.
    destruct (runs_quiet j _ Hj (quiet_map _ _ quiet_refresh_task) _ _ Hrun) as [Hj1 Hq].
    split; [done|]. intros tasks ->. destruct (Hq _ eq_refl) as [Heq _]. split; [done|].
    unfold on_world in Hrun. destruct (act_map _ _ j.2) as [o w] eqn:Hm. injection Hrun as -> <-.
    eapply (yields_map task_step); [|exact Hm]. intros t _. apply refresh_task_step. }
  intros tasks j1 Hj1 [Heq Hall]. rewrite <- Heq in Hall |- *.
  eapply runs_bind; [by apply runs_put_tasks|]. intros _ j2 Hj2 ->.
  destruct (bool_decide _).
  - apply runs_ret; [done|]. by split.
  - eapply runs_weaken; [by apply runs_save|]. intros _ j3 Hj3 [_ (now & ->)]. cbn. split; [|done].
    etrans; [exact Hall|apply bounded_steps].
Qed.

(** ** Cancellation *)

Lemma runs_cancel j task_id request :
  I j → wx_request_id request ≠ 0 → find_receipt (wx_request_id request) j.1 = None →
  runs I j (cancel_task task_id request)
    (λ _ j', stored j'.2 id = Some j'.1 ∧
       ∃ s index now, sw_cancellations s = sw_cancellations j.1 ∧
         j'.1 = cancelled_set s index task_id request now ∧
         aw_revision (sw_view s) = wx_expected_revision request).
Proof.
  intros Hj Hn Hf. unfold cancel_task.
  eapply runs_bind; [by apply runs_refresh|]. intros _ j1 Hj1 [_ Hc1].
  eapply runs_bind; [by apply runs_the_set|]. intros s j2 _ [-> ->].
  eapply (runs_bind _ _ _ _ (λ i j2, task_index task_id (aw_tasks (sw_view j1.1)) = Some i ∧ j2 = j1)).
  { intros r j2 [= <- <-]. split; [done|]. by intros i Hi%ok_or_Ok. }
  intros index j2 _ [Hi ->]. eapply runs_bind; [by apply runs_the_task|].
  intros task j2 _ [Ht ->]. apply runs_check; [done|].
  intros [Hrev Hterm]%guard_err_Ok%orb_false_iff. apply negb_false_iff, N.eqb_eq in Hrev.
  destruct (task_index_spec _ _ _ Hi) as (task' & Ht' & <-).
  assert (task' = task) as -> by congruence.
  eapply runs_bind; [apply runs_quiet; [done|apply quiet_ask]|]. intros now j2 Hj2 [Heq _].
  rewrite <- Heq in Ht, Hi, Hrev, Hc1 |- *. clear Heq Hj1 Ht' j1.
  assert (find_receipt (wx_request_id request) j2.1 = None) as Hf2.
  { unfold find_receipt in *. by rewrite Hc1. }
  pose proof (cancel_good id _ _ _ _ now (jo_good _ _ _ Hj2) Ht Hterm Hn Hf2) as Hgood.
  pose proof (cancel_progress _ _ _ request now Ht Hterm Hn) as Hprog.
  set (s' := cancelled_set j2.1 index (wi_task_id task) request now) in *.
  eapply (runs_bind _ _ _ _ (λ _ j3, j3 = (s', j2.2))).
  { intros r j3 [= <- <-]. split; [|done]. change (I (s', j2.2)).
    destruct Hj2 as [_ (s0 & Hs0 & Hp0) Hw Ha Ho Hd Hr]. split; [exact Hgood| |done..].
    exists s0. split; [done|]. etrans; [exact Hp0|exact Hprog]. }
  intros _ j3 Hj3 ->. eapply runs_bind; [by apply runs_the_set|]. intros s j3 _ [-> ->].
  eapply runs_bind; [by apply runs_write|]. intros _ j3 Hj3' [Heq Hst]. cbn in Heq, Hst.
  eapply runs_bind; [by apply runs_the_task|]. intros task' j4 _ [_ ->].
  eapply runs_weaken; [apply runs_quiet; [done|apply quiet_stop]|].
  intros _ j4 _ [Heq4 Hss]. rewrite Heq4, Heq. split.
  - etrans; [|exact Hst]. apply same_stored. by destruct Hss as [_ _ -> _].
  - exists j2.1, index, now. by split_and!.
Qed.
End one_job.
End jobs.
