(* ===== verification/WorkSetDispatch.v ===== *)
(** * Agent work sets: preparing and dispatching are good jobs

    A task is dispatched only after it was saved as being prepared, with its prerequisites done;
    whatever fails on the way leaves it in a state from which it is blocked. *)

From S2P Require Import Prelude Order Text StoreBase Sessions Conversations Captures WorkServices WorkSets.
From S2P Require Import WorkSetRequests WorkSetMerge WorkSetStore WorkSetCalls WorkSetScheduler.
From S2P Require Import WorkSetRules WorkSetTriples WorkSetInvariant.

Local Open Scope N_scope.

(** ** What holds of the set in memory whatever the outcome *)

Section keeps.
Context {W : Type} `{WorkServices W} `{CaptureDigests} `{WorkSetLibraries}.

Local Abbreviation World := (WorkWorld W).
Local Abbreviation Job := (StoredWorkSet * WorkWorld W)%type.

Definition keeps {A} (P : StoredWorkSet → Prop) (m : Act Job A) : Prop :=
  ∀ j r j', P j.1 → m j = (r, j') → P j'.1.

Lemma keeps_bind {A B} P (m : Act Job A) (k : A → Act Job B) :
  keeps P m → (∀ x, keeps P (k x)) → keeps P (act_bind m k).
Proof.
  intros Hm Hk j r j' Hp Hrun. unfold act_bind in Hrun. destruct (m j) as [[x|e] j1] eqn:Hmj.
  - eapply Hk; [|exact Hrun]. by eapply Hm.
  - injection Hrun as <- <-. by eapply Hm.
Qed.
Lemma keeps_world {A} P (m : Act World A) : keeps P (on_world m).
Proof.
  intros j r j' Hp Hrun. unfold on_world in Hrun. destruct (m j.2). by injection Hrun as <- <-.
Qed.
Lemma keeps_try {A} P (m : Act Job A) : keeps P m → keeps P (act_try m).
Proof.
  intros Hm j r j' Hp Hrun. unfold act_try in Hrun. destruct (m j) as [o j1] eqn:Hmj.
  injection Hrun as <- <-. by eapply Hm.
Qed.
Lemma keeps_lift {A} P (o : result A LocalWtsError) : keeps P (act_lift o).
Proof. by intros j r j' Hp [= <- <-]. Qed.
Lemma keeps_ret {A} P (x : A) : keeps P (act_ret x).
Proof. by intros j r j' Hp [= <- <-]. Qed.
Lemma keeps_err {A} P e : keeps P (act_err (A:=A) e).
Proof. by intros j r j' Hp [= <- <-]. Qed.
Lemma keeps_the_set P : keeps P the_set.
Proof. by intros j r j' Hp [= <- <-]. Qed.
Lemma keeps_the_task P index : keeps P (the_task index).
Proof. by intros j r j' Hp [= <- <-]. Qed.

(** The task at [index] is on its way, or blocked. *)
Definition opened (index : nat) (s : StoredWorkSet) : Prop :=
  ∃ t, aw_tasks (sw_view s) !! index = Some t ∧
    (wi_state t = ItemPreparing ∨ wi_state t = ItemQueued ∨ wi_state t = ItemBlocked).

Lemma keeps_change index f :
  (∀ t, wi_state (f t) = wi_state t ∨ wi_state (f t) = ItemQueued ∨ wi_state (f t) = ItemBlocked) →
  keeps (opened index) (change_task index f).
Proof.
  intros Hf j r j' (t & Ht & Hs) [= <- <-]. exists (f t). cbn.
  rewrite list_lookup_alter_eq, Ht. split; [done|]. specialize (Hf t). intuition congruence.
Qed.

Lemma keeps_save index : keeps (opened index) save_set.
Proof.
  intros [s w] r j' (t & Ht & Hs) Hrun.
  unfold save_set, act_bind, on_world, ask, the_set, put_view in Hrun. cbn -[write_set] in Hrun.
  destruct (sv_now (wd_outside w)) as [now out]. cbn -[write_set] in Hrun.
  destruct (write_set _ _) as [o w']. injection Hrun as <- <-.
  exists (bounded_task t). cbn. cbn in Ht. by rewrite list_lookup_fmap, Ht.
Qed.

Lemma keeps_prepare_workspace index : keeps (opened index) (prepare_workspace index).
Proof.
  unfold prepare_workspace. apply keeps_bind; [apply keeps_the_set|intros set].
  apply keeps_bind; [apply keeps_world|intros source].
  apply keeps_bind; [apply keeps_the_task|intros task].
  do 3 (apply keeps_bind; [apply keeps_world|intros ?]).
  apply keeps_bind; [apply keeps_lift|intros after].
  apply keeps_bind; [apply keeps_world|intros workspace_id].
  apply keeps_bind; [apply keeps_change; by left|intros _].
  apply keeps_bind; [apply keeps_save|intros _].
  apply keeps_bind; [apply keeps_try, keeps_world|intros worktree].
  destruct (is_ok worktree); [apply keeps_ret|].
  apply keeps_bind; [apply keeps_world|intros [blockers digest]].
  destruct (bool_decide _).
  - apply keeps_bind; [apply keeps_world|intros _]. apply keeps_ret.
  - apply keeps_bind; [apply keeps_change; by right; right|intros _]. apply keeps_err.
Qed.

Lemma keeps_dispatch index task P : keeps P (dispatch index task).
Proof.
  unfold dispatch. apply keeps_bind; [apply keeps_the_set|intros set].
  apply keeps_bind; [by intros j r j' Hp [= <- <-]|intros _]. apply keeps_world.
Qed.

Lemma keeps_prepare_item index : keeps (opened index) (prepare_item index).
Proof.
  unfold prepare_item. apply keeps_bind; [apply keeps_the_set|intros before].
  apply keeps_bind; [apply keeps_the_task|intros task].
  apply keeps_bind; [apply keeps_prepare_workspace|intros [origin workspace_id]].
  do 2 (apply keeps_bind; [apply keeps_world|intros ?]).
  apply keeps_bind; [apply keeps_the_set|intros set].
  do 3 (apply keeps_bind; [apply keeps_world|intros ?]).
  apply keeps_bind; [apply keeps_change; by left|intros _].
  apply keeps_bind; [apply keeps_save|intros _].
  apply keeps_bind; [apply keeps_the_set|intros ?].
  apply keeps_bind; [apply keeps_world|intros _].
  apply keeps_bind; [apply keeps_dispatch|intros _].
  apply keeps_bind; [apply keeps_change; by right; left|intros _]. apply keeps_save.
Qed.
End keeps.

(** ** The invariant of the job *)

Lemma done_alter (f : AgentWorkItem → AgentWorkItem) tasks index t id :
  tasks !! index = Some t → wi_state t ≠ ItemCompleted →
  prerequisite_done tasks id = true → prerequisite_done (alter f index tasks) id = true.
Proof.
  intros Ht Hs. rewrite !prerequisite_done_spec. intros (t' & Hin & Hid & Hc).
  apply list_elem_of_lookup_1 in Hin as (i & Hi). exists t'. split; [|done].
  apply (list_elem_of_lookup_2 _ i). rewrite list_lookup_alter_ne; [done|]. intros ->. congruence.
Qed.

Section jobs.
Context {W : Type} `{WorkServices W} `{CaptureDigests} `{WorkSetLibraries} `{!WorkSetLaws}.

Local Abbreviation World := (WorkWorld W).
Local Abbreviation Job := (StoredWorkSet * WorkWorld W)%type.

Section one_job.
Context (w0 : World) (id : Uuid).

Local Abbreviation I := (job_ok w0 id).

(** A request whose answer does not matter to the set. *)
Lemma runs_ready_world {A} index j (m : Act World A) :
  I j → ready_at index j.1 → quiet m → runs I j (on_world m) (λ _ j', ready_at index j'.1).
Proof.
  intros Hj Hr Hq. eapply runs_weaken; [by apply runs_quiet|]. intros x j' _ [-> _]. exact Hr.
Qed.

Lemma runs_ready_lift {A} index j (o : result A LocalWtsError) :
  I j → ready_at index j.1 → runs I j (act_lift o) (λ _ j', ready_at index j'.1).
Proof. intros Hj Hr. by apply runs_lift. Qed.

Lemma runs_ready_change index j f :
  I j → ready_at index j.1 → (∀ t, looks_like t (f t)) →
  (∀ t, task_step t (f t)) →
  runs I j (change_task index f) (λ _ j', ready_at index j'.1).
Proof.
  intros Hj Hr Hl Hs. eapply runs_weaken; [by apply runs_change|]. intros _ j' _ ->.
  eapply ready_like; [|exact Hr]. by apply alter_looks_like.
Qed.

Lemma runs_ready_save index j :
  I j → ready_at index j.1 → runs I j save_set (λ _ j', ready_at index j'.1).
Proof.
  intros Hj Hr. eapply runs_weaken; [by apply runs_save|]. intros _ j' _ Hs%saved_looks_like.
  by eapply ready_like.
Qed.

Lemma runs_prepare_workspace index j :
  I j → ready_at index j.1 → runs I j (prepare_workspace index) (λ _ j', ready_at index j'.1).
Proof.
  intros Hj Hr. unfold prepare_workspace.
  eapply runs_bind; [by apply runs_the_set|]. intros set j1 Hj1 [-> ->].
  eapply runs_bind; [apply (runs_ready_world index); [eassumption..|apply quiet_source_record]|].
  intros source j1 Hj1' Hr1. eapply runs_bind; [by apply runs_the_task|]. intros task j2 _ [_ ->].
  do 3 (eapply runs_bind; [apply (runs_ready_world index); [eassumption..|apply quiet_outside]|]; intros ????).
  eapply runs_bind; [apply (runs_ready_lift index); eassumption|]. intros after ???.
  eapply runs_bind; [apply (runs_ready_world index); [eassumption..|apply quiet_outside]|]. intros workspace_id ???.
  eapply runs_bind; [apply (runs_ready_change index); [eassumption..|by intros t; split|by intros t; split]|]. intros ????.
  eapply runs_bind; [apply (runs_ready_save index); eassumption|]. intros ????.
  eapply (runs_bind _ _ _ _ (λ _ s, ready_at index s.1)).
  { intros r s Hrun. unfold act_try in Hrun. destruct (on_out _ _) as [o s1] eqn:Hm.
    injection Hrun as <- <-.
    destruct (runs_quiet w0 id _ _ ltac:(eassumption) (quiet_outside _) _ _ Hm) as [Hi _].
    split; [done|]. intros _ _. unfold on_out, on_world in Hm. destruct (outside _ _).
    by injection Hm as _ <-. }
  intros worktree j3 Hj3 Hr3. destruct (is_ok worktree); [by apply runs_ret|].
  eapply runs_bind; [apply (runs_ready_world index); [eassumption..|apply quiet_outside]|].
  intros [blockers digest] j4 Hj4 Hr4. destruct (bool_decide _).
  - eapply runs_bind; [apply (runs_ready_world index); [eassumption..|apply quiet_outside]|]. intros ????.
    by apply runs_ret.
  - destruct Hr4 as (t & Ht & Hs & _).
    eapply runs_bind; [apply runs_change; [done|]|intros ????; by apply runs_err].
    intros t' Ht'. apply step_state. assert (t' = t) as -> by congruence. by rewrite Hs.
Qed.

Lemma runs_dispatch index task j :
  I j → ready_at index j.1 → runs I j (dispatch index task) (λ _ j', ready_at index j'.1).
Proof.
  intros Hj Hr. unfold dispatch.
  eapply runs_bind; [by apply runs_the_set|]. intros set j1 _ [-> ->].
  eapply (runs_bind _ _ _ _ (λ _ j1, ready_at index j1.1)).
  { intros r j1 [= <- <-]. split; [|done]. destruct Hj as [Hg Hs [Hw Hw'] [Ad As (added & En & Hall)] Ho Hd Hroot].
    split; try done. split; [done..|].
    exists (added ++ [(j.1, index)]). cbn. rewrite En, app_assoc. split; [done|].
    apply Forall_app. split; [done|]. apply Forall_singleton. split; [|done]. cbn.
    by rewrite (wf_id _ _ (gs_wf _ _ Hg)). }
  intros _ j1 Hj1 Hr1. apply (runs_ready_world index); [eassumption..|apply quiet_outside].
Qed.

(** The task is stored with a state. *)
Definition settled (index : nat) (state : AgentWorkItemState) (j : Job) : Prop :=
  stored j.2 id = Some j.1 ∧
  ∃ task, aw_tasks (sw_view j.1) !! index = Some task ∧ wi_state task = state.

Lemma runs_settle index state j :
  I j → (∃ task, aw_tasks (sw_view j.1) !! index = Some task ∧ wi_state task = state) →
  runs I j save_set (λ _ j', settled index state j').
Proof.
  intros Hj (t & Ht & Hs). eapply runs_weaken; [by apply runs_save|].
  intros x j' _ Hsaved. cbv beta in Hsaved. clear x. pose proof (saved_looks_like _ _ _ Hsaved) as Hl. split; [apply Hsaved|].
  destruct (Forall2_lookup_l _ _ _ _ _ Hl Ht) as (t' & Ht' & _ & Hst & _).
  exists t'. split; [done|congruence].
Qed.

Lemma runs_prepare_item index j :
  I j → ready_at index j.1 →
  runs I j (prepare_item index) (λ _ j', settled index ItemQueued j').
Proof.
  intros Hj Hr. unfold prepare_item.
  eapply runs_bind; [by apply runs_the_set|]. intros before j1 _ [-> ->].
  eapply runs_bind; [by apply runs_the_task|]. intros task j2 _ [_ ->].
  eapply runs_bind; [by apply runs_prepare_workspace|]. intros [origin workspace_id] j3 Hj3 Hr3.
  do 2 (eapply runs_bind; [apply (runs_ready_world index); [eassumption..|apply quiet_outside]|]; intros ????).
  eapply runs_bind; [by apply runs_the_set|]. intros set j4 _ [-> ->].
  eapply runs_bind; [apply (runs_ready_world index); [eassumption..|apply quiet_load_input]|]. intros input ???.
  eapply runs_bind; [apply (runs_ready_world index); [eassumption..|apply quiet_apply_input]|]. intros ????.
  eapply runs_bind; [apply (runs_ready_world index); [eassumption..|apply quiet_outside]|]. intros root ???.
  eapply runs_bind; [apply (runs_ready_change index); [eassumption..|by intros t; split|by intros t; split]|]. intros ????.
  eapply runs_bind; [apply (runs_ready_save index); eassumption|]. intros ????.
  eapply runs_bind; [by apply runs_the_set|]. intros set j5 _ [-> ->].
  eapply runs_bind; [apply (runs_ready_world index); [eassumption..|apply quiet_prepare_child]|]. intros ????.
  eapply runs_bind; [apply runs_dispatch; eassumption|]. intros _ j6 Hj6 (t & Ht & Hs & _).
  eapply runs_bind; [apply runs_change; [done|]|].
  { intros t' Ht'. apply step_state. assert (t' = t) as -> by congruence. by rewrite Hs. }
  intros _ j7 Hj7 ->. apply runs_settle; [done|]. cbn.
  exists (with_item t ItemQueued IN_QUEUE). by rewrite list_lookup_alter_eq, Ht.
Qed.

(** ** One task *)

Lemma waiting_open state : waiting state = true → terminal state = false ∧ state ≠ ItemCompleted.
Proof. by destruct state. Qed.

(** The task is saved as being prepared; what it waited for is still done. *)
Lemma runs_mark index j task :
  I j → aw_tasks (sw_view j.1) !! index = Some task → waiting (wi_state task) = true →
  forallb (prerequisite_done (aw_tasks (sw_view j.1))) (wi_depends_on task) = true →
  runs I j (do! _ := change_task index (λ task, with_item task ItemPreparing (wi_detail task)) in
            save_set) (λ _ j', ready_at index j'.1).
Proof.
  intros Hj Ht [Hopen Hc]%waiting_open Hall. eapply runs_bind.
  { apply runs_change; [done|]. intros t Ht'. apply step_state. congruence. }
  intros _ j1 Hj1 ->. apply runs_ready_save; [done|].
  exists (with_item task ItemPreparing (wi_detail task)). cbn.
  rewrite list_lookup_alter_eq, Ht. split_and!; [done..|]. intros d Hd.
  eapply done_alter; [done..|]. rewrite forallb_spec in Hall. by apply Hall.
Qed.

Lemma act_bind_assoc {S A B C} (m : Act S A) (k : A → Act S B) (l : B → Act S C) s :
  act_bind (act_bind m k) l s = act_bind m (λ x, act_bind (k x) l) s.
Proof. unfold act_bind. by destruct (m s) as [[]]. Qed.

(** A failed preparation: the task is blocked unless it already is. *)
Lemma runs_block index j error (slots : nat) :
  I j → opened index j.1 →
  runs I j (do! task := the_task index in
            do! _ := (if bool_decide (wi_state task = ItemBlocked) then act_ret tt
                      else change_task index (λ task, with_item task ItemBlocked
                                                        (could_not_start error))) in
            do! _ := save_set in
            act_ret slots) (λ slots' j', slots' = slots ∧ settled index ItemBlocked j').
Proof.
  intros Hj (t & Ht & Hs). eapply runs_bind; [by apply runs_the_task|]. intros task j1 _ [Ht1 ->].
  assert (task = t) as -> by congruence.
  eapply (runs_bind _ _ _ _ (λ _ j', ∃ task, aw_tasks (sw_view j'.1) !! index = Some task ∧
                                    wi_state task = ItemBlocked)).
  { destruct (bool_decide (wi_state t = ItemBlocked)) eqn:Hb.
    { apply bool_decide_eq_true in Hb. apply runs_ret; eauto. }
    apply bool_decide_eq_false in Hb. eapply runs_weaken; [apply runs_change; [done|]|].
    - intros t' Ht'. apply step_state. assert (t' = t) as -> by congruence.
      by destruct Hs as [->|[->|]].
    - intros _ j' _ ->. exists (with_item t ItemBlocked (could_not_start error)). cbn.
      by rewrite list_lookup_alter_eq, Ht. }
  intros ? j1 Hj1 Hb. eapply runs_bind; [by apply runs_settle|]. intros ? j2 Hj2 Hset.
  by apply runs_ret.
Qed.

Lemma runs_schedule_task slots index j :
  I j → runs I j (schedule_task slots index)
    (λ slots' j', wd_sent j'.2 ≠ wd_sent j.2 →
       slots' = (slots - 1)%nat ∧ settled index ItemQueued j' ∨
       slots' = slots ∧ settled index ItemBlocked j').
Proof.
  intros Hj. unfold schedule_task.
  eapply runs_bind; [by apply runs_the_set|]. intros set j1 _ [-> ->].
  eapply runs_bind; [by apply runs_the_task|]. intros task j1 _ [Ht ->].
  destruct (waiting (wi_state task)) eqn:Hw; cbn [negb]; [|by apply runs_ret].
  destruct (existsb _ _).
  { eapply runs_bind; [apply runs_change; [done|]|].
    { intros t Ht'. apply step_state. apply waiting_open in Hw as [Ho _]. congruence. }
    intros _ j1 Hj1 ->. eapply runs_bind; [apply (runs_settle index ItemBlocked); [done|]|].
    { exists (with_item task ItemBlocked PREREQUISITE). cbn. by rewrite list_lookup_alter_eq, Ht. }
    intros ? j2 Hj2 Hset. apply runs_ret; [done|]. by right. }
  destruct ((slots =? 0)%nat || _) eqn:Hs; [by apply runs_ret|].
  apply orb_false_iff in Hs as [_ Hall%negb_false_iff].
  intros r j' Hrun. rewrite <- act_bind_assoc in Hrun. revert r j' Hrun.
  eapply runs_bind; [by eapply runs_mark|]. intros x j1 Hj1 Hr. cbn in Hr. clear x.
  eapply (runs_bind _ _ _ _ (λ o j2, opened index j2.1 ∧ (o = Ok () → settled index ItemQueued j2))).
  { intros r j2 Hrun. unfold act_try in Hrun. destruct (prepare_item index j1) as [o j3] eqn:Hp.
    injection Hrun as <- <-. destruct (runs_prepare_item _ _ Hj1 Hr _ _ Hp) as [Hj3 Hset].
    split; [done|]. intros x [= <-]. split; [|by apply Hset]. eapply keeps_prepare_item; [|exact Hp].
    destruct Hr as (t & Ht1 & Hs1 & _). exists t. auto. }
  intros [[]|error] j2 Hj2 [Ho Hset].
  - apply runs_ret; [done|]. left. auto.
  - eapply runs_weaken; [by apply runs_block|]. intros slots' j3 _ Hb _. by right.
Qed.
End one_job.
End jobs.
