(* ===== verification/WorkSetMachine.v ===== *)
(** * Agent work sets: histories of calls

    Calls follow each other, each under the lock of the directory, while the outside moves as
    it likes before, during and after them. *)

From S2P Require Import Prelude Order Text StoreBase Sessions Conversations Captures WorkServices WorkSets.
From S2P Require Import WorkSetRequests WorkSetMerge WorkSetStore WorkSetCalls WorkSetScheduler.
From S2P Require Import WorkSetRules WorkSetTriples WorkSetInvariant WorkSetDispatch.

Local Open Scope N_scope.

(** Fresh identifiers are not nil. *)
Class WorkServiceLaws (W : Type) `{WorkServices W} : Prop := {
  fresh_not_nil (out : W) : (sv_fresh out).1 ≠ 0
}.

Section machine.
Context {W : Type} `{WorkServices W} `{CaptureDigests} `{WorkSetLibraries}.

Local Abbreviation World := (WorkWorld W).
Local Abbreviation Job := (StoredWorkSet * WorkWorld W)%type.

(** ** Calls *)

Inductive WorkCall :=
| CallCreate (conversation_id request_id : Uuid) (request : CreateAgentWorkSetRequest)
| CallGet (id : Uuid)
| CallList (conversation_id request_id : Uuid)
| CallCancel (id task_id : Uuid) (request : AgentWorkItemCancelRequest)
| CallPump (host : N)
| CallVerify (c : AgentConversation)
| CallOutside (out : W).

Definition run_work (call : WorkCall) (w : World) : World :=
  match call with
  | CallCreate conversation_id request_id request =>
      (create_agent_work_set conversation_id request_id request w).2
  | CallGet id => (get_agent_work_set id w).2
  | CallList conversation_id request_id => (list_agent_work_sets conversation_id request_id w).2
  | CallCancel id task_id request => (cancel_agent_work_item id task_id request w).2
  | CallPump host => (pump_agent_work_sets host w).2
  | CallVerify c => (verify_child c w).2
  | CallOutside out => moved w out
  end.

(** A set belongs to a turn that exists, so its identifiers are not nil. *)
Definition call_allowed (call : WorkCall) : Prop :=
  match call with
  | CallCreate conversation_id request_id _ => conversation_id ≠ 0 ∧ request_id ≠ 0
  | _ => True
  end.

Inductive work_history (w : World) : World → Prop :=
| history_start : work_history w w
| history_call w' call : work_history w w' → call_allowed call → work_history w (run_work call w').

Definition no_sets (out : W) : World :=
  {| wd_root := false; wd_dirs := ∅; wd_sets := ∅; wd_inputs := ∅; wd_caches := ∅;
     wd_sent := []; wd_outside := out |}.

Lemma history_trans w w1 w2 : work_history w w1 → work_history w1 w2 → work_history w w2.
Proof. intros Ha Hb. induction Hb; [done|by constructor]. Qed.

(** ** The invariant of the machine *)

Context `{!WorkSetLaws} `{!WorkServiceLaws W}.

(** What every call does to a good world. *)
Definition good_move (w w' : World) : Prop := world_ok w' ∧ advance w w'.

Lemma good_move_trans a b c : good_move a b → (world_ok b → good_move b c) → good_move a c.
Proof. intros [Hb Hab] Hbc. destruct (Hbc Hb) as [Hc Hac]. split; [done|by etrans]. Qed.

Lemma same_good w w' : same_sets w w' → world_ok w → good_move w w'.
Proof. intros Hs Hw. split; [by eapply same_sets_ok|by apply same_sets_advance]. Qed.

Lemma quiet_good {A} (m : Act World A) w r w' :
  quiet m → world_ok w → m w = (r, w') → good_move w w'.
Proof. intros Hq Hw Hrun. apply same_good; [by eapply Hq|done]. Qed.

(** Locking may create the directory of the sets. *)
Lemma set_lock_sets nonblocking w r w' :
  set_lock nonblocking w = (r, w') →
  wd_dirs w' = wd_dirs w ∧ wd_sets w' = wd_sets w ∧ wd_sent w' = wd_sent w ∧
  (r = Ok () → wd_root w' = true).
Proof.
  unfold set_lock, act_bind, outside. destruct (sv_directory (wd_outside w)) as [[[]|e] out].
  - cbn. destruct (sv_lock nonblocking out) as [o out']. intros [= <- <-]. by split_and!.
  - cbn. intros [= <- <-]. by split_and!.
Qed.

Lemma set_lock_root nonblocking w r w' :
  set_lock nonblocking w = (r, w') → wd_root w = true → wd_root w' = true.
Proof.
  unfold set_lock, act_bind, outside. destruct (sv_directory (wd_outside w)) as [[[]|e] out].
  - cbn. destruct (sv_lock nonblocking out) as [o out']. by intros [= <- <-].
  - cbn. by intros [= <- <-].
Qed.

Lemma set_lock_good nonblocking w r w' :
  world_ok w → set_lock nonblocking w = (r, w') → good_move w w'.
Proof.
  intros [Hw Hd] (Ed & Es & En & _)%set_lock_sets. split; split.
  - intros id file. rewrite Es. apply Hw.
  - by rewrite Es, Ed.
  - by rewrite Ed.
  - intros id s Hs. exists s. split; [|done]. rewrite <- Hs. apply same_stored. by rewrite Es.
  - exists []. by rewrite app_nil_r.
Qed.

(** ** Sets in memory *)

Local Abbreviation set_id s := (aw_work_set_id (sw_view s)).

Record linked (w : World) (s : StoredWorkSet) : Prop := {
  lk_good : good_set (set_id s) s;
  lk_stored : ∃ s0, stored w (set_id s) = Some s0 ∧ progress s0 s
}.

Lemma linked_stored w id s : world_ok w → stored w id = Some s → set_id s = id ∧ linked w s.
Proof.
  intros Hw Hs. pose proof (stored_good _ _ _ Hw Hs) as Hg.
  pose proof (wf_id _ _ (gs_wf _ _ Hg)) as Hid. split; [done|]. split; rewrite Hid; [done|].
  by exists s.
Qed.

Lemma linked_job w s : world_ok w → linked w s → job_ok w (set_id s) (s, w).
Proof. by intros Hw [Hg Hs]. Qed.

Lemma job_linked w0 id j : job_ok w0 id j → linked j.2 j.1 ∧ set_id j.1 = id.
Proof.
  intros [Hg Hs _ _ _ _ _]. pose proof (wf_id _ _ (gs_wf _ _ Hg)) as Hid.
  split; [|done]. by split; rewrite Hid.
Qed.

Lemma linked_others w0 id j s :
  job_ok w0 id j → set_id s ≠ id → linked w0 s → linked j.2 s.
Proof.
  intros Hj Hne [Hg (s0 & Hs & Hp)]. split; [done|]. exists s0. split; [|done].
  rewrite <- Hs. apply same_stored. by apply (jo_others _ _ _ Hj).
Qed.

Lemma linked_same w w' s : wd_sets w' = wd_sets w → linked w s → linked w' s.
Proof.
  intros He [Hg (s0 & Hs & Hp)]. split; [done|]. exists s0. split; [|done].
  rewrite <- Hs. apply same_stored. by rewrite He.
Qed.

Lemma job_good_move w0 id j : job_ok w0 id j → good_move w0 j.2.
Proof. by intros [_ _ ? ? _ _ _]. Qed.

(** ** The passes over the sets *)

(** Others than the sets of a pass stay linked. *)
Definition leaves_others (ids : list Uuid) (w w' : World) : Prop :=
  ∀ x, set_id x ∉ ids → linked w x → linked w' x.

Lemma refresh_all_good l w r w' :
  world_ok w → NoDup ((λ s, set_id s) <$> l) → Forall (linked w) l →
  act_map (run_job refresh_tasks) l w = (r, w') →
  good_move w w' ∧ leaves_others ((λ s, set_id s) <$> l) w w' ∧
  ∀ l', r = Ok l' → (λ s, set_id s) <$> l' = (λ s, set_id s) <$> l ∧ Forall (linked w') l'.
Proof.
  revert w r w'. induction l as [|s l IH]; intros w r w' Hw; cbn [act_map fmap list_fmap].
  - intros _ _ [= <- <-]. split_and!; [by apply same_good|by intros x _|].
    intros l' [= <-]. by split.
  - intros [Hid Hnd]%NoDup_cons [Hs Hl]%Forall_cons Hrun. unfold act_bind, run_job in Hrun.
    destruct (refresh_tasks (s, w)) as [o [s1 w1]] eqn:Hj.
    destruct (runs_refresh w (set_id s) (s, w) (linked_job _ _ Hw Hs) _ _ Hj) as [Hj1 _].
    pose proof (job_good_move _ _ _ Hj1) as Hg1. destruct (Hg1) as [Hw1 Ha1]. cbn in Hw1, Ha1.
    assert (leaves_others [set_id s] w w1) as Hfr1.
    { intros x Hx. apply (linked_others _ _ _ _ Hj1). intros Heq. apply Hx. rewrite Heq. left. }
    assert (Forall (linked w1) l) as Hl1.
    { rewrite Forall_forall in Hl |- *. intros x Hx. apply Hfr1; [|by apply Hl].
      intros Heq%list_elem_of_singleton. apply Hid. rewrite <- Heq.
      by apply (list_elem_of_fmap_2 (λ s, set_id s)). }
    destruct o as [[]|e].
    2: { injection Hrun as <- <-. split_and!; [done| |done]. intros x Hx. apply Hfr1. set_solver. }
    destruct (act_map _ l w1) as [o w2] eqn:Hm.
    destruct (IH _ _ _ Hw1 Hnd Hl1 Hm) as (Hg2 & Hfr2 & Hres).
    assert (leaves_others (set_id s :: ((λ s, set_id s) <$> l)) w w2) as Hfr.
    { intros x Hx Hlx. apply Hfr2; [set_solver|]. apply Hfr1; [set_solver|done]. }
    assert (w' = w2) as -> by (destruct o; by injection Hrun as <- <-).
    split_and!; [by eapply good_move_trans|done|]. intros l'' ->.
    destruct o as [l'|e]; [|done]. injection Hrun as <-.
    destruct (Hres _ eq_refl) as [Hids Hall]. apply job_linked in Hj1 as [Hs1 Hid1].
    cbn in Hs1, Hid1. cbn. rewrite Hids, Hid1. split; [done|]. constructor; [|done].
    apply Hfr2; [|done]. by rewrite Hid1.
Qed.

Lemma schedule_set_good slots s w r w' :
  world_ok w → linked w s → schedule_set slots s w = (r, w') →
  good_move w w' ∧ leaves_others [set_id s] w w'.
Proof.
  intros Hw Hs Hrun. unfold schedule_set in Hrun.
  destruct (act_fold _ _ _ _) as [o [s1 w1]] eqn:Hf. injection Hrun as <- <-.
  assert (job_ok w (set_id s) (s1, w1)) as Hj.
  { assert (runs (job_ok w (set_id s)) (s, w)
              (act_fold schedule_task slots (seq 0 (length (aw_tasks (sw_view s))))) (λ _ _, True))
      as Hr; [|by destruct (Hr _ _ Hf)].
    apply runs_fold; [by apply linked_job|done|]. intros b i j _ Hj _. eapply runs_weaken; [by apply runs_schedule_task|done]. }
  split; [by apply job_good_move in Hj|]. intros x Hx. apply (linked_others _ _ _ _ Hj).
  intros Heq. apply Hx. rewrite Heq. left.
Qed.

Lemma schedule_all_good l slots w r w' :
  world_ok w → NoDup ((λ s, set_id s) <$> l) → Forall (linked w) l →
  act_fold schedule_set slots l w = (r, w') → good_move w w'.
Proof.
  revert slots w r w'. induction l as [|s l IH]; intros slots w r w' Hw; cbn [act_fold fmap list_fmap].
  - intros _ _ [= <- <-]. by apply same_good.
  - intros [Hid Hnd]%NoDup_cons [Hs Hl]%Forall_cons Hrun. unfold act_bind in Hrun.
    destruct (schedule_set slots s w) as [o w1] eqn:Hs1.
    destruct (schedule_set_good _ _ _ _ _ Hw Hs Hs1) as [Hg Hfr].
    destruct o as [slots'|e]; [|by injection Hrun as <- <-].
    eapply good_move_trans; [done|]. intros Hw1. eapply IH; [done..| |exact Hrun].
    rewrite Forall_forall in Hl |- *. intros x Hx. apply Hfr; [|by apply Hl].
    intros Heq%list_elem_of_singleton. apply Hid. rewrite <- Heq.
    by apply (list_elem_of_fmap_2 (λ s, set_id s)).
Qed.

(** The pending sets are stored ones, each once. *)
Lemma pending_set_spec host sets id w sets' w' :
  world_ok w → pending_set host sets id w = (Ok sets', w') →
  sets' = sets ∨ ∃ s, sets' = sets ++ [s] ∧ stored w id = Some s.
Proof.
  intros Hw Hrun. unfold pending_set, act_bind at 1 in Hrun.
  destruct (ask sv_readable w) as [[b|e] w1] eqn:Hr; [|done].
  apply quiet_ask in Hr as [_ _ Es1 _]. destruct b; [|done]. cbn [guard_err negb] in Hrun.
  unfold act_bind in Hrun at 1. cbn [act_lift] in Hrun. unfold act_bind in Hrun at 1.
  destruct (wd_sets w1 !! id) as [file|]; [|done]. cbn [ok_or] in Hrun.
  unfold act_bind in Hrun at 1. destruct (match _ !! id with Some _ => _ | None => _ end).
  { injection Hrun as <- <-. by left. }
  unfold act_bind in Hrun at 1. destruct (read_set id w1) as [[s|e] w2] eqn:Hrd; [|done].
  apply read_set_Ok in Hrd as [Hs _]. unfold act_bind in Hrun at 1.
  destruct (set_pending _ w2) as [[pending|e] w3]; [|done].
  unfold act_bind in Hrun. injection Hrun as <- <-. destruct pending; [right|by left].
  exists s. split; [done|]. rewrite <- Hs. symmetry. apply same_stored. by rewrite Es1.
Qed.

Lemma pending_fold_spec host all sets w sets' w' :
  world_ok w → act_fold (pending_set host) sets all w = (Ok sets', w') →
  ∃ added, sets' = sets ++ added ∧ ((λ s, set_id s) <$> added) `sublist_of` all ∧
    Forall (linked w) added.
Proof.
  revert sets w. induction all as [|id all IH]; intros sets w Hw Hrun; cbn [act_fold] in Hrun.
  - injection Hrun as <- <-. exists []. rewrite app_nil_r. by split_and!.
  - unfold act_bind in Hrun. destruct (pending_set host sets id w) as [[sets1|e] w1] eqn:Hp; [|done].
    pose proof (quiet_pending_set _ _ _ _ _ _ Hp) as Hs1.
    destruct (IH _ _ (same_sets_ok _ _ Hs1 Hw) Hrun) as (added & -> & Hsub & Hall).
    assert (Forall (linked w) added) as Hall'.
    { eapply Forall_impl; [exact Hall|]. intros x. apply linked_same. by destruct Hs1. }
    destruct (pending_set_spec _ _ _ _ _ _ Hw Hp) as [->|(s & -> & Hst)].
    + exists added. split_and!; [done|by apply sublist_cons|done].
    + destruct (linked_stored _ _ _ Hw Hst) as [Hid Hlk]. exists (s :: added).
      rewrite <- app_assoc. split_and!; [done| |by constructor].
      cbn. rewrite Hid. by apply sublist_skip.
Qed.

(** ** Every call *)

(** A call in two parts, each good. *)
Lemma bind_good {A B} (m : Act World A) (k : A → Act World B) w r w' :
  act_bind m k w = (r, w') →
  (∀ o w1, m w = (o, w1) → good_move w w1) →
  (∀ x w1, m w = (Ok x, w1) → world_ok w1 → k x w1 = (r, w') → good_move w1 w') →
  good_move w w'.
Proof.
  intros Hrun Hm Hk. unfold act_bind in Hrun. destruct (m w) as [[x|e] w1] eqn:Hmw.
  - eapply good_move_trans; [by apply (Hm _ _ eq_refl)|]. intros Hw1. by eapply Hk.
  - injection Hrun as <- <-. by apply (Hm _ _ eq_refl).
Qed.

Lemma bind_quiet_good {A B} (m : Act World A) (k : A → Act World B) w r w' :
  world_ok w → quiet m → act_bind m k w = (r, w') →
  (∀ x w1, m w = (Ok x, w1) → world_ok w1 → k x w1 = (r, w') → good_move w1 w') →
  good_move w w'.
Proof.
  intros Hw Hq Hrun Hk. eapply bind_good; [done| |done]. intros o w1 Hm. by eapply quiet_good.
Qed.

Lemma pending_sets_spec host w sets w' :
  world_ok w → pending_sets host w = (Ok sets, w') →
  same_sets w w' ∧ NoDup ((λ s, set_id s) <$> sets) ∧ Forall (linked w') sets.
Proof.
  intros Hw Hrun. assert (same_sets w w') as Hs by by eapply quiet_pending_sets. split; [done|].
  unfold pending_sets, act_bind in Hrun.
  destruct (work_set_ids w) as [[all|e] w1] eqn:Hids; [|done].
  pose proof (quiet_work_set_ids _ _ _ Hids) as Hs1.
  destruct (pending_fold_spec _ _ _ _ _ _ (same_sets_ok _ _ Hs1 Hw) Hrun)
    as (added & -> & Hsub & Hall). cbn. split.
  - eapply sublist_NoDup; [|exact Hsub]. unfold work_set_ids in Hids.
    destruct (wd_root w); [|injection Hids as <- <-; constructor].
    unfold act_bind in Hids. destruct (outside sv_listing w) as [[[]|e] w2]; [|done].
    cbn in Hids. destruct (guard_err _ _) as [[]|e]; [|done]. injection Hids as <- <-.
    rewrite (sort_by_perm N.compare). apply NoDup_elements.
  - eapply Forall_impl; [exact Hall|]. intros x. apply linked_same.
    destruct Hs as [_ _ -> _], Hs1 as [_ _ -> _]. done.
Qed.

Lemma pump_good host w r w' :
  world_ok w → pump_agent_work_sets host w = (r, w') → good_move w w'.
Proof.
  intros Hw Hrun. unfold pump_agent_work_sets in Hrun.
  destruct (wd_root w); [|injection Hrun as <- <-; by apply same_good].
  eapply bind_good; [exact Hrun|intros o w1 Hl; by eapply set_lock_good|].
  intros [] w1 _ Hw1 Hrun1. eapply bind_quiet_good; [done|apply quiet_pending_sets|exact Hrun1|].
  intros sets w2 Hp Hw2 Hrun2. destruct (pending_sets_spec _ _ _ _ Hw1 Hp) as (_ & Hnd & Hall).
  cbv beta in Hrun2. destruct (bool_decide _); [injection Hrun2 as <- <-; by apply same_good|].
  eapply bind_good; [exact Hrun2|intros o w3 Hm; by eapply refresh_all_good|].
  intros sets' w3 Hm Hw3 Hrun3.
  destruct (refresh_all_good _ _ _ _ Hw2 Hnd Hall Hm) as (_ & _ & Hres).
  destruct (Hres _ eq_refl) as [Hids Hall3].
  eapply bind_quiet_good; [done|apply quiet_outside|exact Hrun3|].
  intros active w4 Ha Hw4 Hrun4. apply quiet_outside in Ha as [_ _ Es _].
  assert (Forall (linked w4) sets') as Hall4.
  { eapply Forall_impl; [exact Hall3|]. intros x. by apply linked_same. }
  rewrite <- Hids in Hnd.
  eapply bind_good; [exact Hrun4|intros o w5 Hf; by eapply schedule_all_good|].
  intros slots w5 _ Hw5 [= <- <-]. by apply same_good.
Qed.

Lemma cancel_call_good id task_id request w r w' :
  world_ok w → cancel_agent_work_item id task_id request w = (r, w') → good_move w w'.
Proof.
  intros Hw Hrun. unfold cancel_agent_work_item in Hrun.
  eapply bind_quiet_good; [done|apply quiet_lift|exact Hrun|].
  intros [] w1 [= Hg <-] _ Hrun1. apply guard_err_Ok, orb_false_iff in Hg as [Hn%N.eqb_neq _].
  eapply bind_good; [exact Hrun1|intros o w1 Hl; by eapply set_lock_good|].
  intros [] w1 _ Hw1 Hrun2. eapply bind_quiet_good; [done|apply quiet_read_set|exact Hrun2|].
  intros set w2 Hr Hw2 Hrun3. apply read_set_Ok in Hr as [Hst Hs].
  cbv beta in Hrun3. destruct (find_receipt _ set) as [receipt|] eqn:Hf.
  { destruct (_ && _); injection Hrun3 as <- <-; by apply same_good. }
  rewrite <- (same_stored w1 w2) in Hst by by destruct Hs as [_ _ -> _].
  destruct (linked_stored _ _ _ Hw2 Hst) as [Hid Hlk].
  unfold act_bind, run_job in Hrun3. destruct (cancel_task _ _ _) as [o [s1 w3]] eqn:Hc.
  destruct (runs_cancel w2 (set_id set) (set, w2) task_id request (linked_job _ _ Hw2 Hlk) Hn Hf _ _ Hc)
    as [Hj _].
  apply job_good_move in Hj. by destruct o; injection Hrun3 as <- <-.
Qed.

(** A new set in a directory where there was none. *)
Lemma new_set_good w s r w' :
  world_ok w → set_wf (set_id s) s → sw_cancellations s = [] → wd_sets w !! set_id s = None →
  set_id s ∈ wd_dirs w → write_set s w = (r, w') → good_move w w'.
Proof.
  intros Hw Hwf Hc Hnone Hdir Hrun.
  destruct (write_set_cases _ _ _ _ Hrun Hwf) as [[Hs _]|(_ & Ed & En & file & Hf & Hdec)];
    [by apply same_good|].
  destruct (written_stored _ _ _ _ _ Hf Hdec) as [Hnow Hsame]. split; split.
  - intros i f Hi. rewrite Hf in Hi. apply lookup_insert_Some in Hi as [[<- <-]|[_ Hi]];
      [|by apply Hw]. exists s. split; [done|]. split; [done|]. rewrite Hc. constructor.
  - rewrite Hf, dom_insert, Ed. pose proof (wo_dirs _ Hw). set_solver.
  - by rewrite Ed.
  - intros i x Hx. exists x. split; [|done]. rewrite Hsame; [done|]. intros ->.
    unfold stored in Hx. by rewrite Hnone in Hx.
  - exists []. by rewrite app_nil_r.
Qed.

Lemma new_items_ok tasks : yields (new_items tasks) (λ items, Forall2 item_ok items tasks).
Proof.
  intros w items w' Hrun. apply Forall2_flip.
  eapply (yields_map (flip item_ok)); [|exact Hrun]. intros task _ w1 item w2 Hi.
  unfold act_bind, ask in Hi.
  pose proof (fresh_not_nil (wd_outside w1)) as Hc. destruct (sv_fresh (wd_outside w1)) as [c out1].
  cbn in Hi. pose proof (fresh_not_nil out1) as Hr. destruct (sv_fresh out1) as [q out2].
  injection Hi as <- <-. cbn in Hc, Hr. split_and!; try done. by destruct task.
Qed.

Lemma make_set_dir_cases id w r w' :
  make_set_dir id w = (r, w') → same_sets w w' ∧ r ≠ Ok () ∨
  wd_root w' = wd_root w ∧ wd_sets w' = wd_sets w ∧ wd_sent w' = wd_sent w ∧
  wd_dirs w' = {[id]} ∪ wd_dirs w ∧ r = Ok ().
Proof.
  unfold make_set_dir, act_bind, outside. destruct (sv_directory _) as [[[]|e] out];
    intros [= <- <-]; [by right|by left].
Qed.

Lemma make_dir_good id w r w' : world_ok w → make_set_dir id w = (r, w') → good_move w w'.
Proof.
  intros Hw Hm. destruct (make_set_dir_cases _ _ _ _ Hm) as [[Hs _]|(_ & Es & En & Ed & _)];
    [by apply same_good|]. destruct Hw as [Hw Hd]. split; split.
  - intros i file. rewrite Es. apply Hw.
  - rewrite Es, Ed. set_solver.
  - rewrite Ed. set_solver.
  - intros i x Hx. exists x. split; [|done]. rewrite <- Hx. apply same_stored. by rewrite Es.
  - exists []. by rewrite app_nil_r.
Qed.

(** A set is missing only when it has no file. *)
Lemma read_set_missing id w w' :
  act_try (read_set id) w = (Ok (Err AgentConversationNotFound), w') → wd_sets w' !! id = None.
Proof.
  intros Hrun. pose proof (quiet_try _ (quiet_read_set id) _ _ _ Hrun) as [_ _ Es _].
  rewrite Es. unfold act_try, read_set, act_bind, ask, act_lift in Hrun.
  destruct (sv_readable (wd_outside w)) as [[] out]; cbn in Hrun; [|done].
  injection Hrun as Hrun _. destruct (wd_sets w !! id) as [file|]; [|done]. cbn in Hrun.
  unfold decode_set in Hrun. apply rbind_Err in Hrun as [[_ ?]%guard_err_Err|(_ & _ & Hrun)]; [done|].
  apply rbind_Err in Hrun as [[_ ?]%ok_or_Err|(s & _ & Hrun)]; [done|].
  apply rbind_Err in Hrun as [Hrun|(_ & _ & ?)]; [|done]. exfalso. unfold check_set in Hrun.
  apply rbind_Err in Hrun as [[_ ?]%guard_err_Err|(_ & _ & Hrun)]; [done|].
  apply rbind_Err in Hrun as [[_ ?]%guard_err_Err|(_ & _ & Hrun)]; [done|].
  apply rbind_Err in Hrun as [Hrun|(_ & _ & ?)]; [|done].
  apply try_fold_Err in Hrun as (t & receipt & _ & Hrun). unfold check_receipt in Hrun.
  by apply rbind_Err in Hrun as [[_ ?]%guard_err_Err|(_ & _ & ?)].
Qed.

(** A proposed set is as it must be stored. *)
Lemma propose_set_ok conversation_id request_id request :
  conversation_id ≠ 0 → request_id ≠ 0 → request_ok request →
  yields (propose_set conversation_id request_id request)
    (λ s, set_wf (wc_request_id request) s ∧ sw_cancellations s = []).
Proof.
  intros Hc Hr Hreq. unfold propose_set.
  do 12 (eapply yields_bind; [apply yields_any|intros ? _]).
  eapply yields_bind; [apply yields_any|intros now _].
  eapply yields_bind; [apply new_items_ok|intros items Hitems].
  eapply yields_bind; [apply yields_any|intros identity _]. apply yields_ret.
  split; [|done]. split; cbn; try done; [constructor|lia].
Qed.

Lemma create_good conversation_id request_id request w r w' :
  world_ok w → conversation_id ≠ 0 → request_id ≠ 0 →
  create_agent_work_set conversation_id request_id request w = (r, w') → good_move w w'.
Proof.
  intros Hw Hc Hr Hrun. unfold create_agent_work_set in Hrun.
  eapply bind_quiet_good; [done|apply quiet_lift|exact Hrun|].
  intros [] w1 [= Hv <-] _ Hrun1. apply validate_request_Ok in Hv.
  eapply bind_good; [exact Hrun1|intros o w1 Hl; by eapply set_lock_good|].
  intros [] w1 _ Hw1 Hrun2.
  eapply bind_quiet_good; [done|eapply quiet_try, quiet_read_set|exact Hrun2|].
  intros found w2 Hf Hw2 Hrun3.
  destruct found as [existing|e].
  { cbv beta in Hrun3. destruct (_ && _); injection Hrun3 as <- <-; by apply same_good. }
  destruct e; try (injection Hrun3 as <- <-; by apply same_good).
  assert (wd_sets w2 !! wc_request_id request = None) as Hnone by by eapply read_set_missing.
  unfold create_new in Hrun3.
  eapply bind_quiet_good; [done|apply quiet_propose_set|exact Hrun3|].
  intros s w3 Hp Hw3 Hrun4. pose proof (quiet_propose_set _ _ _ _ _ _ Hp) as [_ _ Es3 _].
  destruct (propose_set_ok _ _ _ Hc Hr Hv _ _ _ Hp) as [Hwf Hcan].
  pose proof (wf_id _ _ Hwf) as Hid. rewrite <- Hid in Hwf, Hnone.
  eapply bind_good; [exact Hrun4|intros o w4 Hm; by eapply make_dir_good|].
  intros [] w4 Hm Hw4 Hrun5.
  destruct (make_set_dir_cases _ _ _ _ Hm) as [[_ ?]|(_ & Es4 & _ & Ed4 & _)]; [done|].
  eapply bind_good; [exact Hrun5| |intros [] w5 _ Hw5 [= <- <-]; by apply same_good].
  intros o w5 Hwr. eapply new_set_good; [done..| | |exact Hwr].
  - by rewrite Es4, Es3.
  - rewrite Ed4. set_solver.
Qed.

(** ** Histories *)

Lemma run_work_good call w : world_ok w → call_allowed call → good_move w (run_work call w).
Proof.
  intros Hw Hc. destruct call; cbn [run_work].
  - destruct Hc as [Hc Hr].
    destruct (create_agent_work_set conversation_id request_id request w) as [r w'] eqn:Hrun.
    exact (create_good _ _ _ _ _ _ Hw Hc Hr Hrun).
  - destruct (get_agent_work_set id w) as [r w'] eqn:Hrun.
    eapply bind_good; [exact Hrun|intros o w1 Hl; by eapply set_lock_good|].
    intros [] w1 _ Hw1 Hrun1. eapply quiet_good; [|done|exact Hrun1]. quiet_solve.
  - destruct (list_agent_work_sets conversation_id request_id w) as [r w'] eqn:Hrun.
    eapply bind_quiet_good; [done|apply quiet_outside|exact Hrun|].
    intros x w1 _ Hw1 Hrun1. eapply bind_good; [exact Hrun1|intros o w2 Hl; by eapply set_lock_good|].
    intros [] w2 _ Hw2 Hrun2. eapply quiet_good; [|done|exact Hrun2]. quiet_solve.
  - destruct (cancel_agent_work_item id task_id request w) as [r w'] eqn:Hrun.
    by eapply cancel_call_good.
  - destruct (pump_agent_work_sets host w) as [r w'] eqn:Hrun. by eapply pump_good.
  - destruct (verify_child c w) as [r w'] eqn:Hrun. eapply quiet_good; [apply quiet_verify_child|done|done].
  - by apply same_good.
Qed.

Lemma history_good w w' : world_ok w → work_history w w' → good_move w w'.
Proof.
  intros Hw. induction 1 as [|w' call _ IH Hc]; [by apply same_good|].
  eapply good_move_trans; [exact IH|]. intros Hw'. by apply run_work_good.
Qed.

Lemma no_sets_ok out : world_ok (no_sets out).
Proof. split; [by intros id file|]. cbn. by rewrite dom_empty. Qed.
End machine.
