(* ===== verification/WorkSetSent.v ===== *)
(** * Agent work sets: how many tasks a pass hands to the queue

    Every dispatch is recorded; here is which jobs record none, and how the places of a pass
    bound their number. *)

From S2P Require Import Prelude Order Text StoreBase Sessions Conversations Captures WorkServices WorkSets.
From S2P Require Import WorkSetRequests WorkSetMerge WorkSetStore WorkSetCalls WorkSetScheduler.
From S2P Require Import WorkSetRules WorkSetTriples WorkSetInvariant WorkSetDispatch.
From S2P Require Import WorkSetMachine.

Local Open Scope N_scope.

(** ** Dispatches are counted *)

Section sent.
Context {W : Type} `{WorkServices W} `{CaptureDigests} `{WorkSetLibraries}.

Local Abbreviation World := (WorkWorld W).
Local Abbreviation Job := (StoredWorkSet * WorkWorld W)%type.
Local Abbreviation set_id s := (aw_work_set_id (sw_view s)).

(** A job that hands nothing to the queue. *)
Definition unsent {A} (m : Act Job A) : Prop :=
  ∀ j r j', m j = (r, j') → wd_sent j'.2 = wd_sent j.2 ∧ set_id j'.1 = set_id j.1.

Lemma unsent_bind {A B} (m : Act Job A) (k : A → Act Job B) :
  unsent m → (∀ x, unsent (k x)) → unsent (act_bind m k).
Proof.
  intros Hm Hk j r j' Hrun. unfold act_bind in Hrun. destruct (m j) as [[x|e] j1] eqn:Hmj.
  - destruct (Hk _ _ _ _ Hrun), (Hm _ _ _ Hmj). split; congruence.
  - injection Hrun as <- <-. by eapply Hm.
Qed.
Lemma unsent_ret {A} (x : A) : unsent (act_ret x).
Proof. by intros j r j' [= <- <-]. Qed.
Lemma unsent_err {A} e : unsent (act_err (A:=A) e).
Proof. by intros j r j' [= <- <-]. Qed.
Lemma unsent_lift {A} (o : result A LocalWtsError) : unsent (act_lift o).
Proof. by intros j r j' [= <- <-]. Qed.
Lemma unsent_try {A} (m : Act Job A) : unsent m → unsent (act_try m).
Proof.
  intros Hm j r j' Hrun. unfold act_try in Hrun. destruct (m j) as [o j1] eqn:Hmj.
  injection Hrun as <- <-. by eapply Hm.
Qed.
Lemma unsent_world {A} (m : Act World A) : quiet m → unsent (on_world m).
Proof.
  intros Hq j r j' Hrun. unfold on_world in Hrun. destruct (m j.2) as [o w] eqn:Hm.
  injection Hrun as <- <-. apply Hq in Hm as []. by split.
Qed.
Lemma write_set_sent s w r w' : write_set s w = (r, w') → wd_sent w' = wd_sent w.
Proof.
  unfold write_set, act_bind, act_lift, ask.
  destruct (ok_or _ _) as [bytes|e]; [|by intros [= <- <-]].
  destruct (guard_err _ _) as [[]|e]; [|by intros [= <- <-]].
  destruct (sv_write _) as [[] out]; by intros [= <- <-].
Qed.

Lemma unsent_write s : unsent (on_world (write_set s)).
Proof.
  intros j r j' Hrun. unfold on_world in Hrun. destruct (write_set s j.2) as [o w] eqn:Hm.
  injection Hrun as <- <-. apply write_set_sent in Hm. by split.
Qed.

Lemma unsent_the_set : unsent the_set.
Proof. by intros j r j' [= <- <-]. Qed.
Lemma unsent_the_task index : unsent (the_task index).
Proof. by intros j r j' [= <- <-]. Qed.
Lemma unsent_change index f : unsent (change_task index f).
Proof. by intros j r j' [= <- <-]. Qed.

Lemma unsent_save : unsent save_set.
Proof.
  unfold save_set. apply unsent_bind; [apply unsent_world, quiet_ask|intros now].
  intros j r j' Hrun. unfold act_bind at 1 in Hrun. cbn [the_set] in Hrun.
  unfold act_bind at 1 in Hrun. cbn [put_view] in Hrun. unfold act_bind at 1 in Hrun.
  cbn [the_set] in Hrun. exact (unsent_write _ _ _ _ Hrun).
Qed.

Lemma unsent_refresh : unsent refresh_tasks.
Proof.
  intros j r j' Hrun. unfold refresh_tasks, act_bind at 1 in Hrun. cbn [the_set] in Hrun.
  unfold act_bind at 1 in Hrun. destruct (on_world _ j) as [o j1] eqn:Hm.
  apply unsent_world in Hm as [Hs1 Hid1]; [|apply quiet_map; intros t; apply quiet_refresh_task].
  destruct o as [tasks|e]; [|by injection Hrun as <- <-].
  unfold act_bind at 1 in Hrun. cbn [put_view] in Hrun. rewrite <- Hs1.
  destruct (bool_decide _); [by injection Hrun as <- <-|].
  destruct (unsent_save _ _ _ Hrun) as [Hs Hid]. by split; [rewrite Hs|rewrite Hid].
Qed.

Lemma refresh_all_sent l w r w' :
  act_map (run_job refresh_tasks) l w = (r, w') → wd_sent w' = wd_sent w.
Proof.
  revert w r w'. induction l as [|s l IH]; intros w r w'; cbn [act_map]; [by intros [= <- <-]|].
  unfold act_bind. unfold run_job at 1. destruct (refresh_tasks (s, w)) as [o [s1 w1]] eqn:Hj.
  pose proof (unsent_refresh _ _ _ Hj) as [Hs _]. cbn in Hs.
  destruct o as [[]|e]; [|by intros [= <- <-]].
  destruct (act_map _ l w1) as [o w2] eqn:Hm. apply IH in Hm.
  destruct o; intros [= <- <-]; congruence.
Qed.

(** As [unsent], of a job that puts another set in its place. *)
Definition silent {A} (m : Act Job A) : Prop :=
  ∀ j r j', m j = (r, j') → wd_sent j'.2 = wd_sent j.2.

Lemma silent_unsent {A} (m : Act Job A) : unsent m → silent m.
Proof. intros Hm j r j' Hrun. by eapply Hm. Qed.
Lemma silent_bind {A B} (m : Act Job A) (k : A → Act Job B) :
  silent m → (∀ x, silent (k x)) → silent (act_bind m k).
Proof.
  intros Hm Hk j r j' Hrun. unfold act_bind in Hrun. destruct (m j) as [[x|e] j1] eqn:Hmj.
  - by rewrite (Hk _ _ _ _ Hrun), (Hm _ _ _ Hmj).
  - injection Hrun as <- <-. by eapply Hm.
Qed.

Lemma silent_cancel task_id request : silent (cancel_task task_id request).
Proof.
  unfold cancel_task. apply silent_bind; [apply silent_unsent, unsent_refresh|intros _].
  apply silent_bind; [apply silent_unsent, unsent_the_set|intros s].
  apply silent_bind; [apply silent_unsent, unsent_lift|intros i].
  apply silent_bind; [apply silent_unsent, unsent_the_task|intros t].
  apply silent_bind; [apply silent_unsent, unsent_lift|intros _].
  apply silent_bind; [apply silent_unsent, unsent_world, quiet_ask|intros now].
  apply silent_bind; [by intros j r j' [= <- <-]|intros _].
  apply silent_bind; [apply silent_unsent, unsent_the_set|intros s'].
  apply silent_bind; [apply silent_unsent, unsent_write|intros _].
  apply silent_bind; [apply silent_unsent, unsent_the_task|intros t'].
  apply silent_unsent, unsent_world, quiet_stop.
Qed.

Lemma unsent_prepare_workspace index : unsent (prepare_workspace index).
Proof.
  unfold prepare_workspace. apply unsent_bind; [apply unsent_the_set|intros set].
  apply unsent_bind; [apply unsent_world, quiet_source_record|intros source].
  apply unsent_bind; [apply unsent_the_task|intros task].
  do 3 (apply unsent_bind; [apply unsent_world, quiet_outside|intros ?]).
  apply unsent_bind; [apply unsent_lift|intros after].
  apply unsent_bind; [apply unsent_world, quiet_outside|intros workspace_id].
  apply unsent_bind; [apply unsent_change|intros _]. apply unsent_bind; [apply unsent_save|intros _].
  apply unsent_bind; [apply unsent_try, unsent_world, quiet_outside|intros worktree].
  destruct (is_ok worktree); [apply unsent_ret|].
  apply unsent_bind; [apply unsent_world, quiet_outside|intros [blockers digest]].
  destruct (bool_decide _).
  - apply unsent_bind; [apply unsent_world, quiet_outside|intros _]. apply unsent_ret.
  - apply unsent_bind; [apply unsent_change|intros _]. apply unsent_err.
Qed.

(** ** Dispatches of one task *)

(** At most one dispatch, of the task at [index] of the set. *)
Definition sends (index : nat) {A} (m : Act Job A) : Prop :=
  ∀ j r j', m j = (r, j') →
    wd_sent j'.2 = wd_sent j.2 ∨
    ∃ s, set_id s = set_id j.1 ∧ wd_sent j'.2 = wd_sent j.2 ++ [(s, index)].

Lemma sends_unsent {A} index (m : Act Job A) : unsent m → sends index m.
Proof. intros Hm j r j' Hrun. left. by eapply Hm. Qed.

Lemma sends_bind {A B} index (m : Act Job A) (k : A → Act Job B) :
  unsent m → (∀ x, sends index (k x)) → sends index (act_bind m k).
Proof.
  intros Hm Hk j r j' Hrun. unfold act_bind in Hrun. destruct (m j) as [[x|e] j1] eqn:Hmj.
  - destruct (Hm _ _ _ Hmj) as [Hs Hid]. destruct (Hk _ _ _ _ Hrun) as [He|(s & Hs' & He)].
    + left. congruence.
    + right. exists s. split; congruence.
  - injection Hrun as <- <-. left. by eapply Hm.
Qed.

Lemma sends_then {A B} index (m : Act Job A) (k : A → Act Job B) :
  sends index m → (∀ x, unsent (k x)) → sends index (act_bind m k).
Proof.
  intros Hm Hk j r j' Hrun. unfold act_bind in Hrun. destruct (m j) as [[x|e] j1] eqn:Hmj.
  - destruct (Hk _ _ _ _ Hrun) as [-> _]. by eapply Hm.
  - injection Hrun as <- <-. by eapply Hm.
Qed.

Lemma sends_dispatch index task : sends index (dispatch index task).
Proof.
  intros j r j' Hrun. unfold dispatch, act_bind, the_set, on_out, on_world, outside in Hrun.
  cbn in Hrun. destruct (sv_send _ _ _) as [o out]. injection Hrun as <- <-. right. by exists j.1.
Qed.

Lemma sends_prepare_item index : sends index (prepare_item index).
Proof.
  unfold prepare_item. apply sends_bind; [apply unsent_the_set|intros before].
  apply sends_bind; [apply unsent_the_task|intros task].
  apply sends_bind; [apply unsent_prepare_workspace|intros [origin workspace_id]].
  do 2 (apply sends_bind; [apply unsent_world, quiet_outside|intros ?]).
  apply sends_bind; [apply unsent_the_set|intros set].
  apply sends_bind; [apply unsent_world, quiet_load_input|intros input].
  apply sends_bind; [apply unsent_world, quiet_apply_input|intros _].
  apply sends_bind; [apply unsent_world, quiet_outside|intros root].
  apply sends_bind; [apply unsent_change|intros _]. apply sends_bind; [apply unsent_save|intros _].
  apply sends_bind; [apply unsent_the_set|intros ?].
  apply sends_bind; [apply unsent_world, quiet_prepare_child|intros _].
  apply sends_then; [apply sends_dispatch|intros _].
  apply unsent_bind; [apply unsent_change|intros _; apply unsent_save].
Qed.

Lemma sends_schedule_task slots index : sends index (schedule_task slots index).
Proof.
  unfold schedule_task. apply sends_bind; [apply unsent_the_set|intros set].
  apply sends_bind; [apply unsent_the_task|intros task].
  destruct (negb _); [apply sends_unsent, unsent_ret|]. destruct (existsb _ _).
  { apply sends_unsent, unsent_bind; [apply unsent_change|intros _].
    apply unsent_bind; [apply unsent_save|intros _; apply unsent_ret]. }
  destruct ((slots =? 0)%nat || _); [apply sends_unsent, unsent_ret|].
  apply sends_bind; [apply unsent_change|intros _]. apply sends_bind; [apply unsent_save|intros _].
  apply sends_then.
  - intros j r j' Hrun. unfold act_try in Hrun. destruct (prepare_item index j) as [o j1] eqn:Hp.
    injection Hrun as <- <-. by eapply sends_prepare_item.
  - intros [[]|error]; [apply unsent_ret|]. apply unsent_bind; [apply unsent_the_task|intros t].
    apply unsent_bind; [destruct (bool_decide _); [apply unsent_ret|apply unsent_change]|intros _].
    apply unsent_bind; [apply unsent_save|intros _; apply unsent_ret].
Qed.

(** ** The places of a pass *)

Context `{!WorkSetLaws} `{!WorkServiceLaws W}.

(** The task of a dispatch is stored as blocked. *)
Definition blocked_entry (w : World) (entry : StoredWorkSet * nat) : bool :=
  match stored w (set_id entry.1) with
  | Some s => match aw_tasks (sw_view s) !! entry.2 with
              | Some task => bool_decide (wi_state task = ItemBlocked)
              | None => false
              end
  | None => false
  end.

(** The dispatches whose task is not blocked afterwards. *)
Definition standing (w : World) (l : list (StoredWorkSet * nat)) : list (StoredWorkSet * nat) :=
  filter (λ entry, blocked_entry w entry = false) l.

Lemma blocked_stays w w' entry :
  advance w w' → blocked_entry w entry = true → blocked_entry w' entry = true.
Proof.
  intros [_ Hs _]. unfold blocked_entry. destruct (stored w _) as [s|] eqn:Hst; [|done].
  destruct (Hs _ _ Hst) as (s' & -> & [_ _ Ht _]).
  destruct (aw_tasks (sw_view s) !! entry.2) as [t|] eqn:Hi; [|done].
  destruct (Forall2_lookup_l _ _ _ _ _ Ht Hi) as (t' & -> & [_ _ _ Hd]).
  rewrite !bool_decide_eq_true. intros Hb. destruct Hd as [-> _]; [by rewrite Hb|done].
Qed.

Lemma standing_advance w w' l : advance w w' → (length (standing w' l) ≤ length (standing w l))%nat.
Proof.
  intros Ha. induction l as [|e l IH]; [done|]. unfold standing in *. rewrite !filter_cons.
  destruct (decide (blocked_entry w e = false)) as [Hb|Hb].
  - case_decide; cbn; lia.
  - rewrite decide_False; [done|]. apply not_false_iff_true in Hb.
    apply not_false_iff_true. by eapply blocked_stays.
Qed.

Lemma standing_app w l k : standing w (l ++ k) = standing w l ++ standing w k.
Proof. apply filter_app. Qed.

(** The places left and the standing dispatches are at most the places there were. *)
Definition takes (w w' : World) (slots slots' : nat) : Prop :=
  ∃ added, wd_sent w' = wd_sent w ++ added ∧ (length (standing w' added) + slots' ≤ slots)%nat.

Lemma takes_trans a b c x y z :
  advance b c → takes a b x y → takes b c y z → takes a c x z.
Proof.
  intros Ha (l & Hl & H1') (k & Hk & H2'). exists (l ++ k).
  rewrite Hk, Hl, app_assoc. split; [done|]. rewrite standing_app, length_app.
  pose proof (standing_advance _ _ l Ha). lia.
Qed.

Lemma schedule_full index : unsent (schedule_task 0 index).
Proof.
  unfold schedule_task. apply unsent_bind; [apply unsent_the_set|intros set].
  apply unsent_bind; [apply unsent_the_task|intros task].
  destruct (negb _); [apply unsent_ret|]. destruct (existsb _ _); [|apply unsent_ret].
  apply unsent_bind; [apply unsent_change|intros _].
  apply unsent_bind; [apply unsent_save|intros _; apply unsent_ret].
Qed.

(** A pass over a task never has more places afterwards. *)
Lemma schedule_task_slots slots index :
  yields (schedule_task slots index) (λ slots', (slots' ≤ slots)%nat).
Proof.
  unfold schedule_task. do 2 (eapply yields_bind; [apply yields_any|intros ? _]).
  destruct (negb _); [by apply yields_ret|]. destruct (existsb _ _).
  { do 2 (eapply yields_bind; [apply yields_any|intros ? _]). by apply yields_ret. }
  destruct ((slots =? 0)%nat || _); [by apply yields_ret|].
  do 3 (eapply yields_bind; [apply yields_any|intros ? _]).
  destruct x3 as [[]|error]; [apply yields_ret; lia|].
  do 3 (eapply yields_bind; [apply yields_any|intros ? _]). by apply yields_ret.
Qed.

Lemma schedule_task_takes w0 id j slots index slots' j' :
  job_ok w0 id j → schedule_task slots index j = (Ok slots', j') → takes j.2 j'.2 slots slots'.
Proof.
  intros Hj Hrun. destruct (runs_schedule_task w0 id slots index _ Hj _ _ Hrun) as [Hj' Hq].
  specialize (Hq _ eq_refl). pose proof (schedule_task_slots _ _ _ _ _ Hrun) as Hle. cbn in Hle.
  destruct (sends_schedule_task _ _ _ _ _ Hrun) as [He|(x & Hid & He)].
  { exists []. by rewrite app_nil_r. }
  exists [(x, index)]. split; [done|].
  destruct slots as [|slots].
  { destruct (schedule_full _ _ _ _ Hrun) as [Hs _]. rewrite He in Hs.
    apply (f_equal length) in Hs. rewrite length_app in Hs. cbn in Hs. lia. }
  destruct Hq as [(-> & _)|(-> & Hst & t & Ht & Hb)].
  - rewrite He. intros Heq. apply (f_equal length) in Heq. rewrite length_app in Heq. cbn in Heq. lia.
  - pose proof (length_filter (λ entry, blocked_entry j'.2 entry = false) [(x, index)]).
    unfold standing. cbn in *. lia.
  - unfold standing. rewrite filter_cons, decide_False; [done|].
    apply job_linked in Hj as [_ Hid0]. unfold blocked_entry. cbn [fst snd].
    rewrite Hid, Hid0, Hst, Ht, Hb. by rewrite bool_decide_true.
Qed.

Lemma schedule_tasks_takes w0 id l slots j slots' j' :
  job_ok w0 id j → act_fold schedule_task slots l j = (Ok slots', j') →
  takes j.2 j'.2 slots slots'.
Proof.
  revert slots j. induction l as [|i l IH]; intros slots j Hj; cbn [act_fold].
  - intros [= <- <-]. exists []. by rewrite app_nil_r.
  - intros (slots1 & j1 & Hs & Hrun)%act_bind_Ok.
    destruct (runs_schedule_task w0 id slots i _ Hj _ _ Hs) as [Hj1 _].
    apply (takes_trans _ j1.2 _ _ slots1 _).
    + assert (runs (job_ok j1.2 id) j1 (act_fold schedule_task slots1 l) (λ _ _, True)) as Hr.
      { apply runs_fold; [|done|]. 
        - destruct j1 as [s1 w1]. pose proof (job_linked _ _ _ Hj1) as [Hlk Hid]. cbn in *.
          rewrite <- Hid. apply linked_job; [apply Hj1|done].
        - intros b x y _ Hy _. eapply runs_weaken; [by apply runs_schedule_task|done]. }
      destruct (Hr _ _ Hrun) as [Hok _]. apply Hok.
    + by eapply schedule_task_takes.
    + by eapply IH.
Qed.

Lemma schedule_sets_takes l slots w slots' w' :
  world_ok w → NoDup ((λ s, set_id s) <$> l) → Forall (linked w) l →
  act_fold schedule_set slots l w = (Ok slots', w') → takes w w' slots slots'.
Proof.
  revert slots w. induction l as [|s l IH]; intros slots w Hw; cbn [act_fold fmap list_fmap].
  - intros _ _ [= <- <-]. exists []. by rewrite app_nil_r.
  - intros [Hn Hnd]%NoDup_cons [Hs Hl]%Forall_cons (slots1 & w1 & Hs1 & Hrun)%act_bind_Ok.
    destruct (schedule_set_good _ _ _ _ _ Hw Hs Hs1) as [[Hw1 Ha] Hfr].
    assert (Forall (linked w1) l) as Hl1.
    { rewrite Forall_forall in Hl |- *. intros x Hx. apply Hfr; [|by apply Hl].
      intros Heq%list_elem_of_singleton. apply Hn. rewrite <- Heq.
      by apply (list_elem_of_fmap_2 (λ s, set_id s)). }
    apply (takes_trans _ w1 _ _ slots1 _).
    + by destruct (schedule_all_good _ _ _ _ _ Hw1 Hnd Hl1 Hrun).
    + unfold schedule_set in Hs1. destruct (act_fold _ _ _ (s, w)) as [o [s1 w2]] eqn:Hf.
      injection Hs1 as -> ->. exact (schedule_tasks_takes _ _ _ _ _ _ _ (linked_job _ _ Hw Hs) Hf).
    + by eapply IH.
Qed.
End sent.
