(* ===== verification/WorkSetGuarantees.v ===== *)
(** * Agent work sets: what holds in every history

    The theorems are about all histories of calls, for any behaviour of the services around the
    scheduler that keeps fresh identifiers non-nil. *)

From S2P Require Import Prelude Order Text StoreBase Sessions Conversations Captures WorkServices WorkSets.
From S2P Require Import WorkSetRequests WorkSetMerge WorkSetStore WorkSetCalls WorkSetScheduler.
From S2P Require Import WorkSetRules WorkSetTriples WorkSetInvariant WorkSetDispatch.
From S2P Require Import WorkSetMachine WorkSetSent.

Local Open Scope N_scope.

Section guarantees.
Context {W : Type} `{WorkServices W} `{CaptureDigests} `{WorkSetLibraries}.
Context `{!WorkSetLaws} `{!WorkServiceLaws W}.

Local Abbreviation World := (WorkWorld W).
Local Abbreviation Job := (StoredWorkSet * WorkWorld W)%type.

Lemma work_history_ok out w : work_history (no_sets out) w → world_ok w.
Proof. intros Hh. by destruct (history_good _ _ (no_sets_ok out) Hh). Qed.

(** C25: Whatever calls are made and however they fail, every file of a work set can be read and
    passes its check, with a receipt for each of at most eight cancelled tasks; and from one
    moment to any later one no set is lost: what it was created with stays, its tasks keep
    their identity and, once done, their state and checkpoint, its revision does not decrease
    and its receipts are only added to. *)
Theorem work_sets_follow_lifecycle out w w' :
  work_history (no_sets out) w → work_history w w' →
  (∀ id file, wd_sets w' !! id = Some file →
     ∃ s, decode_set id file.1 = Ok s ∧ stored w' id = Some s ∧
       NoDup (xr_task_id <$> sw_cancellations s) ∧ (length (sw_cancellations s) ≤ 8)%nat) ∧
  ∀ id s, stored w id = Some s → ∃ s', stored w' id = Some s' ∧ progress s s'.
Proof.
  intros Hw Hw'. pose proof (work_history_ok _ _ (history_trans _ _ _ Hw Hw')) as Hok. split.
  - intros id file Hf. destruct (wo_sets _ Hok _ _ Hf) as (s & Hd & [Hwf Hnd]).
    exists s. split_and!; [done|unfold stored; by rewrite Hf, Hd|done|apply Hwf].
  - destruct (history_good _ _ (work_history_ok _ _ Hw) Hw') as [_ Ha]. apply Ha.
Qed.

(** C26: A task is handed to the queue only while its set stands, it is marked as being prepared and
    every one of its prerequisites is a completed task of the set. *)
Theorem dispatch_waits_for_prerequisites out w s index :
  work_history (no_sets out) w → (s, index) ∈ wd_sent w →
  ∃ task, aw_tasks (sw_view s) !! index = Some task ∧ wi_state task = ItemPreparing ∧
    ∀ id, id ∈ wi_depends_on task →
      ∃ other, other ∈ aw_tasks (sw_view s) ∧ wi_task_id other = id ∧ wi_state other = ItemCompleted.
Proof.
  intros Hw Hin. destruct (history_good _ _ (no_sets_ok out) Hw) as [_ [_ _ (added & Heq & Hall)]].
  cbn in Heq. subst added. rewrite Forall_forall in Hall.
  destruct (Hall _ Hin) as [_ (task & Ht & Hs & Hd)]. exists task. split_and!; [done..|].
  intros id Hid. by apply prerequisite_done_spec, Hd.
Qed.

(** A pass of the scheduler that succeeds hands at most three tasks to the queue, not counting
    those that it leaves blocked. *)
Theorem pass_dispatches_at_most_three out host w w' :
  work_history (no_sets out) w → pump_agent_work_sets host w = (Ok (), w') →
  ∃ added, wd_sent w' = wd_sent w ++ added ∧
    (length (standing w' added) ≤ MAX_ACTIVE_ITEMS)%nat.
Proof.
  intros Hh Hrun. pose proof (work_history_ok _ _ Hh) as Hw. unfold pump_agent_work_sets in Hrun.
  destruct (wd_root w); [|injection Hrun as <-; exists []; rewrite app_nil_r; split; [done|cbn; lia]].
  apply act_bind_Ok in Hrun as ([] & w1 & Hl & Hrun).
  destruct (set_lock_good _ _ _ _ Hw Hl) as [Hw1 _]. apply set_lock_sets in Hl as (_ & _ & <- & _).
  apply act_bind_Ok in Hrun as (sets & w2 & Hp & Hrun).
  destruct (pending_sets_spec _ _ _ _ Hw1 Hp) as (Hs2 & Hnd & Hall).
  pose proof (same_sets_ok _ _ Hs2 Hw1) as Hw2. destruct Hs2 as [_ _ _ <-].
  destruct (bool_decide _).
  { injection Hrun as <-. exists []. rewrite app_nil_r. split; [done|cbn; lia]. }
  apply act_bind_Ok in Hrun as (sets' & w3 & Hm & Hrun).
  destruct (refresh_all_good _ _ _ _ Hw2 Hnd Hall Hm) as ([Hw3 _] & _ & Hres).
  destruct (Hres _ eq_refl) as [Hids Hall3]. apply refresh_all_sent in Hm as <-.
  apply act_bind_Ok in Hrun as (active & w4 & Ha & Hrun). apply quiet_outside in Ha as Hs4.
  pose proof (same_sets_ok _ _ Hs4 Hw3) as Hw4.
  assert (Forall (linked w4) sets') as Hall4.
  { eapply Forall_impl; [exact Hall3|]. intros x. apply linked_same. by destruct Hs4. }
  destruct Hs4 as [_ _ _ <-]. apply act_bind_Ok in Hrun as (slots & w5 & Hf & [= <-]).
  rewrite <- Hids in Hnd. destruct (schedule_sets_takes _ _ _ _ _ Hw4 Hnd Hall4 Hf) as (added & He & Hle).
  exists added. split; [done|lia].
Qed.


(** ** Cancellations *)

(** A successful cancellation is in the receipts of the set. *)
Lemma cancel_has_receipt id task_id request w view w' :
  world_ok w → cancel_agent_work_item id task_id request w = (Ok view, w') →
  ∃ s, stored w' id = Some s ∧
    {| xr_request := request; xr_task_id := task_id; xr_result := view |} ∈ sw_cancellations s.
Proof.
  intros Hw Hrun. unfold cancel_agent_work_item in Hrun.
  unfold act_bind at 1, act_lift in Hrun. destruct (guard_err _ _) as [[]|e] eqn:Hg; [|done].
  apply guard_err_Ok, orb_false_iff in Hg as [Hn%N.eqb_neq _].
  unfold act_bind at 1 in Hrun. destruct (set_lock false w) as [[[]|e] w1] eqn:Hl; [|done].
  destruct (set_lock_good _ _ _ _ Hw Hl) as [Hw1 _]. unfold act_bind at 1 in Hrun.
  destruct (read_set id w1) as [[s|e] w2] eqn:Hr; [|done].
  apply read_set_Ok in Hr as [Hst Hss]. pose proof (same_sets_ok _ _ Hss Hw1) as Hw2.
  rewrite <- (same_stored w1 w2) in Hst by by destruct Hss as [_ _ -> _].
  destruct (find_receipt _ s) as [receipt|] eqn:Hf.
  - destruct (_ && _) eqn:Hsame; [|done]. injection Hrun as <- <-.
    apply andb_true_iff in Hsame as [Hreq%bool_decide_eq_true Ht%N.eqb_eq].
    exists s. split; [done|]. apply find_receipt_Some in Hf as [Hin _].
    by destruct receipt; cbn in *; subst.
  - destruct (linked_stored _ _ _ Hw2 Hst) as [Hid Hlk].
    unfold act_bind, run_job in Hrun. destruct (cancel_task _ _ _) as [o [s1 w3]] eqn:Hc.
    destruct (runs_cancel w2 _ (s, w2) task_id request (linked_job _ _ Hw2 Hlk) Hn Hf _ _ Hc)
      as [_ Hq].
    destruct o as [[]|e]; [|done]. injection Hrun as <- <-.
    destruct (Hq _ eq_refl) as (Hst3 & s0 & index & now & _ & Heq & _).
    cbn in Hst3, Heq. subst s1. rewrite Hid in Hst3.
    eexists. split; [exact Hst3|]. cbn. apply elem_of_app. right. left.
Qed.

(** A cancellation is recorded once and for all: when it has succeeded, the task is cancelled in
    every later state of the set, the same call changes no set and can only return the same
    result, and no call with its request identifier for another task or revision succeeds. *)
Theorem cancel_is_recorded_once out w id task_id request view w1 w2 :
  work_history (no_sets out) w → cancel_agent_work_item id task_id request w = (Ok view, w1) →
  work_history w1 w2 →
  (∃ s, stored w2 id = Some s ∧ cancelled_in (sw_view s) task_id = true) ∧
  ∀ task_id' request' r w3,
    wx_request_id request' = wx_request_id request →
    cancel_agent_work_item id task_id' request' w2 = (r, w3) →
    wd_sets w3 = wd_sets w2 ∧
    ∀ view', r = Ok view' → view' = view ∧ task_id' = task_id ∧ request' = request.
Proof.
  intros Hh Hrun Hh2. pose proof (work_history_ok _ _ Hh) as Hw.
  destruct (cancel_call_good _ _ _ _ _ _ Hw Hrun) as [Hw1 _].
  destruct (cancel_has_receipt _ _ _ _ _ _ Hw Hrun) as (s1 & Hs1 & Hin1).
  destruct (history_good _ _ Hw1 Hh2) as [Hw2 [_ Ha _]]. destruct (Ha _ _ Hs1) as (s2 & Hs2 & Hp).
  pose proof (stored_good _ _ _ Hw2 Hs2) as [Hwf _].
  assert (∃ l, sw_cancellations s2 = sw_cancellations s1 ++ l) as (l & Hl) by apply Hp.
  assert ({| xr_request := request; xr_task_id := task_id; xr_result := view |}
          ∈ sw_cancellations s2) as Hin2 by (rewrite Hl; apply elem_of_app; by left).
  split.
  { exists s2. split; [done|]. pose proof (wf_receipts _ _ Hwf) as Hall.
    rewrite Forall_forall in Hall. exact (ro_now _ _ _ (Hall _ Hin2)). }
  intros task_id' request' r w3 Hid Hrun3. unfold cancel_agent_work_item in Hrun3.
  unfold act_bind at 1, act_lift in Hrun3. destruct (guard_err _ _) as [[]|e];
    [|injection Hrun3 as <- <-; by split].
  unfold act_bind at 1 in Hrun3. destruct (set_lock false w2) as [o w4] eqn:Hlk.
  apply set_lock_sets in Hlk as (_ & Es4 & _ & _).
  destruct o as [[]|e]; [|injection Hrun3 as <- <-; by split].
  unfold act_bind at 1 in Hrun3. destruct (read_set id w4) as [o w5] eqn:Hr.
  pose proof (quiet_read_set _ _ _ _ Hr) as [_ _ Es5 _].
  destruct o as [s|e]; [|injection Hrun3 as <- <-; split; [congruence|done]].
  apply read_set_Ok in Hr as [Hst _].
  rewrite (same_stored w2 w4) in Hst by by rewrite Es4. assert (s = s2) as -> by congruence.
  assert (find_receipt (wx_request_id request') s2
          = Some {| xr_request := request; xr_task_id := task_id; xr_result := view |}) as Hf.
  { apply find_receipt_unique; [apply Hwf|done|by rewrite Hid]. }
  rewrite Hf in Hrun3. cbn in Hrun3. destruct (_ && _) eqn:Hsame; injection Hrun3 as <- <-.
  - apply andb_true_iff in Hsame as [<-%bool_decide_eq_true <-%N.eqb_eq].
    split; [congruence|]. by intros view' [= <-].
  - split; [congruence|done].
Qed.

(** ** A directory without a set *)

(** What a creation leaves behind whose file could not be written. *)
Record orphan (w : World) (id : Uuid) : Prop := {
  or_root : wd_root w = true;
  or_dir : id ∈ wd_dirs w;
  or_missing : wd_sets w !! id = None
}.

Lemma orphan_same w w' id : same_sets w w' → orphan w id → orphan w' id.
Proof. intros [Er Ed Es _] []. split; congruence. Qed.

(** Nothing is created or dispatched. *)
Record idle (w w' : World) : Prop := {
  id_dirs : wd_dirs w' = wd_dirs w;
  id_sets : dom (wd_sets w') = dom (wd_sets w);
  id_sent : wd_sent w' = wd_sent w;
  id_root : wd_root w = true → wd_root w' = true
}.

Lemma same_idle w w' : same_sets w w' → idle w w'.
Proof. intros []. split; congruence. Qed.
Lemma idle_trans a b c : idle a b → idle b c → idle a c.
Proof. intros [] []. split; try congruence. auto. Qed.
Lemma lock_idle nonblocking w r w' : set_lock nonblocking w = (r, w') → idle w w'.
Proof.
  intros Hl. pose proof (set_lock_root _ _ _ _ Hl). apply set_lock_sets in Hl as (Ed & Es & En & _).
  split; congruence || auto.
Qed.
Lemma orphan_idle w w' id : idle w w' → orphan w id → orphan w' id.
Proof.
  intros [Ed Es _ Hr] [H1' H2' H3']. split; [auto|by rewrite Ed|].
  apply not_elem_of_dom. rewrite Es. by apply not_elem_of_dom.
Qed.

(** No reading of all sets succeeds, nor does a look for pending ones. *)
Lemma orphan_listed w id all w' : orphan w id → work_set_ids w = (Ok all, w') → id ∈ all.
Proof.
  intros [Hr Hd _]. unfold work_set_ids. rewrite Hr. unfold act_bind.
  destruct (outside _ w) as [[[]|e] w1]; [|done]. unfold act_lift.
  destruct (guard_err _ _) as [[]|e]; [|done]. intros [= <- <-].
  by rewrite (elem_of_sort_by N.compare), elem_of_elements.
Qed.

Lemma orphan_reads w id all sets w' :
  wd_sets w !! id = None → id ∈ all → act_map read_set all w ≠ (Ok sets, w').
Proof.
  intros Hn Hin. revert w sets w' Hn. induction all as [|x all IH]; intros w sets w' Hn.
  { by apply elem_of_nil in Hin. }
  cbn [act_map]. unfold act_bind at 1. destruct (read_set x w) as [[s|e] w1] eqn:Hr; [|done].
  apply read_set_Ok in Hr as [Hs [_ _ Es _]]. apply elem_of_cons in Hin as [->|Hin].
  { unfold stored in Hs. by rewrite Hn in Hs. }
  unfold act_bind at 1. destruct (act_map read_set all w1) as [[l|e] w2] eqn:Hm; [|done].
  by apply IH in Hm; [|done|by rewrite Es].
Qed.

Lemma orphan_pending w id host all sets acc w' :
  wd_sets w !! id = None → id ∈ all → act_fold (pending_set host) acc all w ≠ (Ok sets, w').
Proof.
  intros Hn Hin. revert w acc sets w' Hn. induction all as [|x all IH]; intros w acc sets w' Hn.
  { by apply elem_of_nil in Hin. }
  cbn [act_fold]. unfold act_bind at 1.
  destruct (pending_set host acc x w) as [[acc'|e] w1] eqn:Hr; [|done].
  pose proof (quiet_pending_set _ _ _ _ _ _ Hr) as [_ _ Es _].
  apply elem_of_cons in Hin as [->|Hin]; [|by apply IH; [|rewrite Es]].
  unfold pending_set, act_bind at 1 in Hr. destruct (ask _ w) as [[b|e] w2] eqn:Ha; [|done].
  apply quiet_ask in Ha as [_ _ Es2 _]. unfold act_bind at 1, act_lift in Hr.
  destruct (guard_err _ _) as [[]|e]; [|done]. unfold act_bind at 1 in Hr. by rewrite Es2, Hn in Hr.
Qed.

Lemma orphan_proposes w id conversation_id request_id request s w' :
  orphan w id → propose_set conversation_id request_id request w ≠ (Ok s, w').
Proof.
  intros Ho Hrun. unfold propose_set in Hrun.
  apply act_bind_Ok in Hrun as (all & w1 & Hids & Hrun).
  pose proof (orphan_listed _ _ _ _ Ho Hids) as Hin.
  apply quiet_work_set_ids in Hids as Hs1. pose proof (orphan_same _ _ _ Hs1 Ho) as Ho1.
  apply act_bind_Ok in Hrun as (full & w2 & Hf & Hrun).
  assert (same_sets w1 w2) as Hs2.
  { revert Hf. destruct (_ <=? _)%nat; [by intros [= <- <-]|].
    eapply (quiet_bind _ _ (quiet_outside _)). intros n. apply quiet_ret. }
  apply act_bind_Ok in Hrun as ([] & w3 & [= _ <-] & Hrun).
  apply act_bind_Ok in Hrun as (sets & w3 & Hm & _).
  by apply (orphan_reads _ id) in Hm; [|apply (orphan_same _ _ _ Hs2 Ho1)|].
Qed.

Lemma orphan_create w id conversation_id request_id request r w' :
  world_ok w → orphan w id →
  create_agent_work_set conversation_id request_id request w = (r, w') → idle w w'.
Proof.
  intros Hw Ho Hrun. unfold create_agent_work_set in Hrun.
  unfold act_bind at 1, act_lift in Hrun. destruct (validate_request request) as [[]|e];
    [|injection Hrun as <- <-; by apply same_idle].
  unfold act_bind at 1 in Hrun. destruct (set_lock false w) as [o w1] eqn:Hl. apply lock_idle in Hl.
  destruct o as [[]|e]; [|by injection Hrun as <- <-]. eapply idle_trans; [exact Hl|].
  pose proof (orphan_idle _ _ _ Hl Ho) as Ho1. unfold act_bind at 1 in Hrun.
  destruct (act_try _ w1) as [o w2] eqn:Hr.
  pose proof (quiet_try _ (quiet_read_set _) _ _ _ Hr) as Hs2.
  pose proof (orphan_same _ _ _ Hs2 Ho1) as Ho2. eapply idle_trans; [by apply same_idle|].
  destruct o as [[existing|e]|e]; [| |injection Hrun as <- <-; by apply same_idle].
  { destruct (_ && _); injection Hrun as <- <-; by apply same_idle. }
  destruct e; try (injection Hrun as <- <-; by apply same_idle).
  unfold create_new, act_bind at 1 in Hrun. destruct (propose_set _ _ _ w2) as [o w3] eqn:Hp.
  destruct o as [s|e]; [by apply orphan_proposes with (id := id) in Hp|].
  apply quiet_propose_set in Hp. injection Hrun as <- <-. by apply same_idle.
Qed.

Lemma orphan_pump w id host r w' :
  orphan w id → pump_agent_work_sets host w = (r, w') → idle w w' ∧ r ≠ Ok ().
Proof.
  intros Ho Hrun. unfold pump_agent_work_sets in Hrun. rewrite (or_root _ _ Ho) in Hrun.
  unfold act_bind at 1 in Hrun. destruct (set_lock true w) as [o w1] eqn:Hl. apply lock_idle in Hl.
  destruct o as [[]|e]; [|by injection Hrun as <- <-].
  pose proof (orphan_idle _ _ _ Hl Ho) as Ho1.
  unfold act_bind at 1 in Hrun. destruct (pending_sets host w1) as [o w2] eqn:Hp.
  pose proof (quiet_pending_sets _ _ _ _ Hp) as Hs2.
  assert (idle w w2) by (eapply idle_trans; [done|by apply same_idle]).
  destruct o as [sets|e]; [|by injection Hrun as <- <-]. exfalso.
  unfold pending_sets, act_bind at 1 in Hp. destruct (work_set_ids w1) as [[all|e] w3] eqn:Hids; [|done].
  pose proof (orphan_listed _ _ _ _ Ho1 Hids) as Hin. apply quiet_work_set_ids in Hids.
  by apply (orphan_pending _ id) in Hp; [|apply (orphan_same _ _ _ Hids Ho1)|].
Qed.

Lemma orphan_cancel w id task_id request r w' :
  world_ok w → cancel_agent_work_item id task_id request w = (r, w') → idle w w'.
Proof.
  intros Hw Hrun. unfold cancel_agent_work_item in Hrun.
  unfold act_bind at 1, act_lift in Hrun. destruct (guard_err _ _) as [[]|e] eqn:Hg;
    [|injection Hrun as <- <-; by apply same_idle].
  apply guard_err_Ok, orb_false_iff in Hg as [Hn%N.eqb_neq _].
  unfold act_bind at 1 in Hrun. destruct (set_lock false w) as [o w1] eqn:Hl.
  pose proof (set_lock_good _ _ _ _ Hw Hl) as [Hw1 _]. apply lock_idle in Hl.
  destruct o as [[]|e]; [|by injection Hrun as <- <-]. eapply idle_trans; [exact Hl|].
  unfold act_bind at 1 in Hrun. destruct (read_set id w1) as [o w2] eqn:Hr.
  pose proof (quiet_read_set _ _ _ _ Hr) as Hs2.
  destruct o as [s|e]; [|injection Hrun as <- <-; by apply same_idle].
  apply read_set_Ok in Hr as [Hst _]. eapply idle_trans; [by apply same_idle|].
  destruct (find_receipt _ s) as [receipt|] eqn:Hf.
  { destruct (_ && _); injection Hrun as <- <-; by apply same_idle. }
  rewrite <- (same_stored w1 w2) in Hst by by destruct Hs2 as [_ _ -> _].
  pose proof (same_sets_ok _ _ Hs2 Hw1) as Hw2.
  destruct (linked_stored _ _ _ Hw2 Hst) as [Hid Hlk].
  unfold act_bind, run_job in Hrun. destruct (cancel_task _ _ _) as [o [s1 w3]] eqn:Hc.
  destruct (runs_cancel w2 _ (s, w2) task_id request (linked_job _ _ Hw2 Hlk) Hn Hf _ _ Hc)
    as [[_ (s0 & Hs0 & _) _ _ Hoth Hd Hroot] _].
  apply silent_cancel in Hc. cbn in *. assert (w' = w3) as -> by (destruct o; by injection Hrun).
  split; [done| |done|congruence]. apply set_eq. intros x. rewrite !elem_of_dom.
  destruct (decide (x = aw_work_set_id (sw_view s))) as [->|Hne]; [|by rewrite Hoth].
  unfold stored in Hs0, Hst. rewrite Hid in Hs0 |- *.
  destruct (wd_sets w3 !! id), (wd_sets w2 !! id); done.
Qed.

Lemma orphan_call w id call : world_ok w → orphan w id → idle w (run_work call w).
Proof.
  intros Hw Ho. destruct call; cbn [run_work].
  - destruct (create_agent_work_set conversation_id request_id request w) as [r w'] eqn:Hrun.
    by eapply orphan_create.
  - destruct (get_agent_work_set id0 w) as [r w'] eqn:Hrun. unfold get_agent_work_set in Hrun.
    unfold act_bind at 1 in Hrun. destruct (set_lock false w) as [o w1] eqn:Hl. apply lock_idle in Hl.
    destruct o as [[]|e]; [|by injection Hrun as <- <-]. eapply idle_trans; [exact Hl|].
    apply same_idle. revert Hrun. apply (quiet_bind _ _ (quiet_read_set _)). intros s. apply quiet_ret.
  - destruct (list_agent_work_sets conversation_id request_id w) as [r w'] eqn:Hrun.
    unfold list_agent_work_sets in Hrun. unfold act_bind at 1 in Hrun.
    destruct (outside _ w) as [o w1] eqn:Ha. apply quiet_outside in Ha.
    eapply idle_trans; [by apply same_idle|]. destruct o as [x|e];
      [|injection Hrun as <- <-; by apply same_idle].
    unfold act_bind at 1 in Hrun. destruct (set_lock false w1) as [o w2] eqn:Hl. apply lock_idle in Hl.
    destruct o as [[]|e]; [|by injection Hrun as <- <-]. eapply idle_trans; [exact Hl|].
    apply same_idle. revert Hrun. apply (quiet_bind _ _ quiet_work_set_ids). intros all.
    apply quiet_bind; [apply quiet_map, quiet_read_set|]. intros sets. apply quiet_ret.
  - destruct (cancel_agent_work_item id0 task_id request w) as [r w'] eqn:Hrun. by eapply orphan_cancel.
  - destruct (pump_agent_work_sets host w) as [r w'] eqn:Hrun. by eapply orphan_pump in Hrun as [? _].
  - destruct (verify_child c w) as [r w'] eqn:Hrun. by eapply same_idle, quiet_verify_child.
  - by apply same_idle.
Qed.

(** C28: The directory of a set is made before its file, and is not removed when the file cannot be
    written.  From then on no call repairs it: in every later state each pass of the scheduler
    fails, no task of any set is dispatched, no set is listed and none is created. *)
Theorem failed_write_blocks_work_sets out w id w' :
  work_history (no_sets out) w → orphan w id → work_history w w' →
  orphan w' id ∧ wd_sent w' = wd_sent w ∧ dom (wd_sets w') = dom (wd_sets w) ∧
  (∀ host, (pump_agent_work_sets host w').1 ≠ Ok ()) ∧
  ∀ conversation_id request_id sets,
    (list_agent_work_sets conversation_id request_id w').1 ≠ Ok sets.
Proof.
  intros Hh Ho Hh'. pose proof (work_history_ok _ _ Hh) as Hw.
  assert (idle w w') as Hi.
  { clear Hh. induction Hh' as [|w' call Hh IH Hc]; [by apply same_idle|].
    eapply idle_trans; [exact IH|]. eapply orphan_call; [|by eapply orphan_idle].
    by destruct (history_good _ _ Hw Hh). }
  pose proof (orphan_idle _ _ _ Hi Ho) as Ho'. split_and!; [done|apply Hi..| |].
  - intros host. destruct (pump_agent_work_sets host w') as [r w2] eqn:Hrun.
    by apply (orphan_pump _ _ _ _ _ Ho') in Hrun as [_ ?].
  - intros conversation_id request_id sets.
    destruct (list_agent_work_sets _ _ w') as [r w2] eqn:Hrun. cbn. intros ->.
    unfold list_agent_work_sets, act_bind at 1 in Hrun.
    destruct (outside _ w') as [[x|e] w3] eqn:Ha; [|done]. apply quiet_outside in Ha.
    unfold act_bind at 1 in Hrun. destruct (set_lock false w3) as [[[]|e] w4] eqn:Hl; [|done].
    apply lock_idle in Hl. pose proof (orphan_idle _ _ _ Hl (orphan_same _ _ _ Ha Ho')) as Ho4.
    unfold act_bind at 1 in Hrun. destruct (work_set_ids w4) as [[all|e] w5] eqn:Hids; [|done].
    pose proof (orphan_listed _ _ _ _ Ho4 Hids) as Hin. apply quiet_work_set_ids in Hids.
    unfold act_bind at 1 in Hrun. destruct (act_map read_set all w5) as [[l|e] w6] eqn:Hm; [|done].
    by apply (orphan_reads _ id) in Hm; [|apply (orphan_same _ _ _ Hids Ho4)|].
Qed.
End guarantees.
