(* ===== verification/WorkSetSample.v ===== *)
(** * A concrete host for work sets

    Codecs of the stored files, and services that keep conversations, records of turns and
    worktrees in finite maps; writes and messages can be made to fail. *)

From S2P Require Import Prelude Order Text StoreBase StoreSample Sessions SessionWitnesses.
From S2P Require Import Conversations ConversationWitnesses Captures WorkServices WorkSets.
From S2P Require Import WorkSetRequests WorkSetMerge WorkSetStore WorkSetCalls WorkSetScheduler.
From S2P Require Import WorkSetRules WorkSetTriples WorkSetInvariant WorkSetDispatch.
From S2P Require Import WorkSetMachine WorkSetSent WorkSetGuarantees.

Local Open Scope N_scope.

(** ** Codecs *)

Definition kind_code (k : AgentWorkSetKind) : N := match k with Tasks => 0 | Alternatives => 1 end.
Definition kind_of (n : N) : AgentWorkSetKind := match n with 0 => Tasks | _ => Alternatives end.

Definition item_code (s : AgentWorkItemState) : N :=
  match s with ItemPending => 0 | ItemPreparing => 1 | ItemQueued => 2 | ItemRunning => 3
  | ItemCompleted => 4 | ItemFailed => 5 | ItemBlocked => 6 | ItemCancelled => 7 end.
Definition item_of (n : N) : AgentWorkItemState :=
  match n with 0 => ItemPending | 1 => ItemPreparing | 2 => ItemQueued | 3 => ItemRunning
  | 4 => ItemCompleted | 5 => ItemFailed | 6 => ItemBlocked | _ => ItemCancelled end.

#[export] Instance codec_item_request : Codec AgentWorkItemRequest.
Proof.
  refine (codec_via (λ r, (wr_task_id r, wr_title r, wr_prompt r, wr_depends_on r))
    (λ '(a, b, c, d), {| wr_task_id := a; wr_title := b; wr_prompt := c; wr_depends_on := d |}) _).
  by intros [].
Defined.

#[export] Instance codec_set_request : Codec CreateAgentWorkSetRequest.
Proof.
  refine (codec_via (λ r, (wc_request_id r, wc_expected_after_checkpoint_id r,
                           kind_code (wc_kind r), wc_tasks r))
    (λ '(a, b, c, d), {| wc_request_id := a; wc_expected_after_checkpoint_id := b;
                         wc_kind := kind_of c; wc_tasks := d |}) _).
  by intros [? ? [] ?].
Defined.

#[export] Instance codec_item : Codec AgentWorkItem.
Proof.
  refine (codec_via
    (λ t, (wi_task_id t, wi_title t, wi_prompt t, wi_depends_on t, item_code (wi_state t),
           wi_conversation_id t, wi_request_id t, wi_workspace_id t, wi_repository_id t,
           wi_workspace_display_path t, wi_after_checkpoint_id t, wi_detail t))
    (λ '(a, b, c, d, e, f, g, h, i, j, k, l),
       {| wi_task_id := a; wi_title := b; wi_prompt := c; wi_depends_on := d;
          wi_state := item_of e; wi_conversation_id := f; wi_request_id := g;
          wi_workspace_id := h; wi_repository_id := i; wi_workspace_display_path := j;
          wi_after_checkpoint_id := k; wi_detail := l |}) _).
  by intros [? ? ? ? [] ? ? ? ? ? ? ?].
Defined.

#[export] Instance codec_set : Codec AgentWorkSet.
Proof.
  refine (codec_via
    (λ v, (aw_schema_version v, aw_work_set_id v, aw_conversation_id v, aw_request_id v,
           aw_workspace_id v, aw_repository_id v, aw_source_checkpoint_id v,
           aw_source_context_sha256 v, kind_code (aw_kind v), aw_revision v,
           aw_created_at_unix_ms v, aw_updated_at_unix_ms v, aw_last_mutation_request_id v,
           aw_tasks v, aw_detail v))
    (λ '(a, b, c, d, e, f, g, h, i, j, k, l, m, n, o),
       {| aw_schema_version := a; aw_work_set_id := b; aw_conversation_id := c;
          aw_request_id := d; aw_workspace_id := e; aw_repository_id := f;
          aw_source_checkpoint_id := g; aw_source_context_sha256 := h; aw_kind := kind_of i;
          aw_revision := j; aw_created_at_unix_ms := k; aw_updated_at_unix_ms := l;
          aw_last_mutation_request_id := m; aw_tasks := n; aw_detail := o |}) _).
  by intros [? ? ? ? ? ? ? ? [] ? ? ? ? ? ?].
Defined.

#[export] Instance codec_cancel_receipt : Codec CancelReceipt.
Proof.
  refine (codec_via
    (λ r, (wx_request_id (xr_request r), wx_expected_revision (xr_request r), xr_task_id r, xr_result r))
    (λ '(a, b, c, d), {| xr_request := {| wx_request_id := a; wx_expected_revision := b |};
                         xr_task_id := c; xr_result := d |}) _).
  by intros [[] ? ?].
Defined.

#[export] Instance codec_stored_set : Codec StoredWorkSet.
Proof.
  refine (codec_via
    (λ s, (sw_request s, sw_view s, sw_source_session_id s, sw_source_target_identity s,
           sw_cancellations s))
    (λ '(a, b, c, d, e), {| sw_request := a; sw_view := b; sw_source_session_id := c;
                            sw_source_target_identity := d; sw_cancellations := e |}) _).
  by intros [].
Defined.

#[export] Instance codec_bool : Codec bool.
Proof.
  refine (codec_via (λ b : bool, if b then 1 else 0) (λ n, match n with 0 => false | _ => true end) _).
  by intros [].
Defined.

#[export] Instance codec_map {A} `{Codec A} : Codec (gmap str A).
Proof.
  refine (codec_via (B:=list (str * A)) map_to_list list_to_map _). apply list_to_map_to_list.
Defined.

#[export] Instance codec_captured_file : Codec CapturedWorktreeFile.
Proof.
  refine (codec_via
    (λ f, (cw_file_path f, cw_content f, cw_raw_content f, cw_is_binary f, cw_sha256 f, cw_mode f,
           cw_unsupported f, cw_pre_existing_change f))
    (λ '(a, b, c, d, e, f, g, h),
       {| cw_file_path := a; cw_content := b; cw_raw_content := c; cw_is_binary := d;
          cw_sha256 := e; cw_mode := f; cw_unsupported := g; cw_pre_existing_change := h |}) _).
  by intros [].
Defined.

#[export] Instance codec_worktree : Codec WorktreeCheckpointCapture.
Proof.
  refine (codec_via
    (λ c, (wt_head_commit_oid c, wt_branch_name c, wt_index_sha256 c, wt_files c,
           wt_omitted_file_count c, wt_stable c))
    (λ '(a, b, c, d, e, f),
       {| wt_head_commit_oid := a; wt_branch_name := b; wt_index_sha256 := c; wt_files := d;
          wt_omitted_file_count := e; wt_stable := f |}) _).
  by intros [].
Defined.

#[export] Instance codec_input : Codec PreparedInput.
Proof.
  refine (codec_via
    (λ i, (pi_target_identity i, pi_initial i, pi_desired i, pi_blobs i, pi_complete i))
    (λ '(a, b, c, d, e),
       {| pi_target_identity := a; pi_initial := b; pi_desired := c; pi_blobs := d;
          pi_complete := e |}) _).
  by intros [].
Defined.

Definition decode_as {A} `{Codec A} (bytes : list N) : option A := fst <$> de bytes.

Lemma decode_as_ser {A} `{Codec A} (x : A) : decode_as (ser x) = Some x.
Proof. unfold decode_as. rewrite <- (app_nil_r (ser x)), de_ser. done. Qed.

#[export] Instance sample_work_set_libraries : WorkSetLibraries := {|
  set_to_json s := Some (ser s);
  set_from_json := decode_as;
  input_to_json i := Some (ser i);
  input_from_json := decode_as;
  work_error_text _ := lit "error"
|}.

#[export] Instance sample_work_set_laws : WorkSetLaws.
Proof.
  split; intros x bytes Hb; assert (bytes = ser x) as -> by (by apply (inj Some)).
  - exact (decode_as_ser (A:=StoredWorkSet) x).
  - exact (decode_as_ser (A:=PreparedInput) x).
Qed.

#[export] Instance sample_capture_digests : CaptureDigests := {|
  source_digest s := Some (ser s);
  capture_digest files head branch index := Some (ser (files, head, branch, index))
|}.

(** ** Services *)

Record SampleHost := {
  sh_next : N;
  sh_conversations : gmap Uuid AgentConversation;
  sh_records : gmap Uuid StoredTurn;
  sh_trees : gmap str WorktreeCheckpointCapture;
  sh_base : WorktreeCheckpointCapture;
  sh_writes : list WriteOutcome;
  sh_send_fails : bool
}.

Definition with_next (h : SampleHost) (next : N) : SampleHost :=
  {| sh_next := next; sh_conversations := sh_conversations h; sh_records := sh_records h;
     sh_trees := sh_trees h; sh_base := sh_base h; sh_writes := sh_writes h;
     sh_send_fails := sh_send_fails h |}.
Definition with_conversations (h : SampleHost) (cs : gmap Uuid AgentConversation) : SampleHost :=
  {| sh_next := sh_next h; sh_conversations := cs; sh_records := sh_records h;
     sh_trees := sh_trees h; sh_base := sh_base h; sh_writes := sh_writes h;
     sh_send_fails := sh_send_fails h |}.
Definition with_records (h : SampleHost) (records : gmap Uuid StoredTurn) : SampleHost :=
  {| sh_next := sh_next h; sh_conversations := sh_conversations h; sh_records := records;
     sh_trees := sh_trees h; sh_base := sh_base h; sh_writes := sh_writes h;
     sh_send_fails := sh_send_fails h |}.
Definition with_trees (h : SampleHost) (trees : gmap str WorktreeCheckpointCapture) : SampleHost :=
  {| sh_next := sh_next h; sh_conversations := sh_conversations h; sh_records := sh_records h;
     sh_trees := trees; sh_base := sh_base h; sh_writes := sh_writes h;
     sh_send_fails := sh_send_fails h |}.
Definition with_writes (h : SampleHost) (writes : list WriteOutcome) : SampleHost :=
  {| sh_next := sh_next h; sh_conversations := sh_conversations h; sh_records := sh_records h;
     sh_trees := sh_trees h; sh_base := sh_base h; sh_writes := writes;
     sh_send_fails := sh_send_fails h |}.

Definition or_missing {A} (o : option A) : Act SampleHost A :=
  act_lift (ok_or o AgentConversationNotFound).

Definition present {A} (o : option A) : bool := match o with Some _ => true | None => false end.

(** The worktree of a workspace; its content stands for its hash. *)
Definition tree_path (workspace_id : Uuid) : str := dec workspace_id.

Definition restored (path : str) (content : option (list N)) (mode : option N)
    (tree : WorktreeCheckpointCapture) : WorktreeCheckpointCapture :=
  {| wt_head_commit_oid := wt_head_commit_oid tree; wt_branch_name := wt_branch_name tree;
     wt_index_sha256 := wt_index_sha256 tree;
     wt_files := match content with
                 | Some bytes => <[path := {| cw_file_path := path; cw_content := None;
                     cw_raw_content := None; cw_is_binary := false; cw_sha256 := Some bytes;
                     cw_mode := mode; cw_unsupported := false; cw_pre_existing_change := false |}]>
                     (wt_files tree)
                 | None => delete path (wt_files tree)
                 end;
     wt_omitted_file_count := wt_omitted_file_count tree; wt_stable := wt_stable tree |}.

Definition queued_by (request : SendAgentConversationMessageRequest) : AgentConversationMessage :=
  {| am_message_id := 900; am_request_id := Some (sm_request_id request);
     am_submitted_body := Some (sm_body request); am_queue_sequence := Some 1;
     am_queue_position := None; am_last_mutation_request_id := None; am_role := RoleUser;
     am_body := sm_body request; am_status := MQueued; am_created_at_unix_ms := 20;
     am_session_id := None; am_error := None; am_progress := None; am_diagnostic := None |}.

#[export] Instance sample_work_services : WorkServices SampleHost := {|
  sv_now h := (1800000000000%Z, h);
  sv_fresh h := (N.succ (sh_next h), with_next h (N.succ (sh_next h)));
  sv_lock _ := act_ret tt; sv_listing := act_ret tt;
  sv_readable h := (true, h); sv_directory := act_ret tt;
  sv_write h := match sh_writes h with
                | [] => (Written (Z.of_N (sh_next h)), with_next h (N.succ (sh_next h)))
                | outcome :: writes => (outcome, with_writes h writes)
                end;
  sv_conversation_count := λ h, (Ok (size (sh_conversations h)), h);
  sv_get id := λ h, or_missing (sh_conversations h !! id) h;
  sv_read_conversation id := λ h, or_missing (sh_conversations h !! id) h;
  sv_work_conversations := λ h,
    (Ok (filter (λ c, conversation_has_work c = true) (map_to_list (sh_conversations h)).*2), h);
  sv_stop_session _ := act_ret tt;
  sv_cancel_message _ _ _ _ := act_ret tt;
  sv_store_locks := act_ret tt;
  sv_write_conversation c := λ h,
    (Ok (), with_conversations h (<[cv_conversation_id c := c]> (sh_conversations h)));
  sv_send id request := λ h,
    (if sh_send_fails h then Err AgentConversationUnavailable else Ok (),
     with_conversations h
       (alter (λ c, with_messages c (cv_messages c ++ [queued_by request])) id
          (sh_conversations h)));
  sv_verify_discussion _ := act_ret tt;
  sv_turn_dir session := lit "/turns/" ++ dec session;
  sv_record_exists session := λ h, (Ok (present (sh_records h !! session)), h);
  sv_record session := λ h, or_missing (sh_records h !! session) h;
  sv_read_blob _ hash := act_ret hash;
  sv_lease_workspace _ := act_ret tt;
  sv_repository id := act_ret id;
  sv_create_workspace work := act_ret (5000 + cw_key work);
  sv_source_worktree workspace_id _ := λ h,
    if present (sh_trees h !! tree_path workspace_id) then (Ok (tree_path workspace_id), h)
    else (Err AgentConversationNotFound, h);
  sv_preflight _ := act_ret ([], lit "digest");
  sv_materialize workspace_id _ := λ h,
    (Ok (), with_trees h (<[tree_path workspace_id := sh_base h]> (sh_trees h)));
  sv_workspace_root workspace_id := act_ret (tree_path workspace_id);
  sv_identity path := act_ret path;
  sv_capture path := λ h, or_missing (sh_trees h !! path) h;
  sv_prepare_parent _ _ _ := act_ret tt;
  sv_restore target path content mode _ _ _ := λ h,
    (Ok (), with_trees h (alter (restored path content mode) target (sh_trees h)))
|}.

#[export] Instance sample_work_laws : WorkServiceLaws SampleHost.
Proof. split. intros h. cbn. lia. Qed.

(** ** Concrete histories of work sets

    A set of two tasks, the second after the first, is created and run to the dispatch of both;
    others fail to be written or are not acknowledged.  The guarantees are applied to them. *)

(** ** A host *)

Definition text_file (path content : str) : CapturedWorktreeFile :=
  {| cw_file_path := path; cw_content := None; cw_raw_content := None; cw_is_binary := false;
     cw_sha256 := Some content; cw_mode := Some 420; cw_unsupported := false;
     cw_pre_existing_change := false |}.

Definition tree_with (content : str) : WorktreeCheckpointCapture :=
  {| wt_head_commit_oid := lit "head"; wt_branch_name := lit "main"; wt_index_sha256 := lit "index";
     wt_files := {[lit "a" := text_file (lit "a") content]}; wt_omitted_file_count := 0;
     wt_stable := true |}.

Definition turn_of (id : Uuid) (request_id session : Uuid) (role : AgentConversationMessageRole) :
    AgentConversationMessage :=
  {| am_message_id := id; am_request_id := Some request_id; am_submitted_body := None;
     am_queue_sequence := None; am_queue_position := None; am_last_mutation_request_id := None;
     am_role := role; am_body := lit "text"; am_status := MCompleted; am_created_at_unix_ms := 20;
     am_session_id := Some session; am_error := None; am_progress := None; am_diagnostic := None |}.

Definition finished_conversation (c : AgentConversation) (request_id session : Uuid) :
    AgentConversation :=
  with_messages c [turn_of 801 request_id session RoleUser; turn_of 802 request_id session RoleAssistant].

Definition origin : AgentConversation :=
  {| cv_queue_mutations := []; cv_schema_version := 1; cv_conversation_id := 11;
     cv_workspace_id := 5; cv_workspace_display_path := lit "/w"; cv_repository_id := lit "app";
     cv_provider := CodexAgent;
     cv_source := Ui (lit "/route") (lit "callout") (lit "Label") None None None;
     cv_revision := 1; cv_created_at_unix_ms := 10; cv_updated_at_unix_ms := 10;
     cv_messages := []; cv_active_session_id := None; cv_preview := None |}.

Definition record_of (c : AgentConversation) (request_id session checkpoint : Uuid)
    (after : WorktreeCheckpointCapture) : StoredTurn :=
  {| st_receipt :=
       {| tc_schema_version := 1; tc_conversation_id := cv_conversation_id c;
          tc_request_id := request_id; tc_session_id := session;
          tc_workspace_id := cv_workspace_id c; tc_repository_id := cv_repository_id c;
          tc_source_context_sha256 := ser (cv_source c); tc_state := TurnReady;
          tc_observation := ObservedNormal; tc_started_at_unix_ms := 20;
          tc_completed_at_unix_ms := Some 30%Z; tc_before := None;
          tc_after := Some {| tp_checkpoint_id := checkpoint; tp_head_commit_oid := lit "head";
                              tp_branch_name := lit "main"; tp_captured_at_unix_ms := 30;
                              tp_tree_sha256 := []; tp_index_sha256 := lit "index" |};
          tc_files := []; tc_omitted_file_count := 0; tc_patch := [];
          tc_patch_truncated := false; tc_detail := [] |};
     st_target := tree_path (cv_workspace_id c); st_target_identity := tree_path (cv_workspace_id c);
     st_before := None; st_after := Some after |}.

Definition host_with (writes : list WriteOutcome) (send_fails : bool) : SampleHost :=
  {| sh_next := 100;
     sh_conversations := {[11 := finished_conversation origin 201 50]};
     sh_records := {[50 := record_of origin 201 50 70 (tree_with (lit "one"))]};
     sh_trees := {[tree_path 5 := tree_with (lit "one")]};
     sh_base := tree_with (lit "one"); sh_writes := writes; sh_send_fails := send_fails |}.

Definition task_request (id : Uuid) (depends_on : list Uuid) : AgentWorkItemRequest :=
  {| wr_task_id := id; wr_title := lit "Title"; wr_prompt := lit "Prompt";
     wr_depends_on := depends_on |}.

Definition set_request (id : Uuid) : CreateAgentWorkSetRequest :=
  {| wc_request_id := id; wc_expected_after_checkpoint_id := 70; wc_kind := Tasks;
     wc_tasks := [task_request 1 []; task_request 2 [1]] |}.

(** ** A history *)

Local Abbreviation World := (WorkWorld SampleHost).

Definition creation : WorkCall (W := SampleHost) := CallCreate 11 201 (set_request 300).

Definition w0 : World := no_sets (host_with [] false).
Definition w1 : World := run_work creation w0.
Definition w2 : World := run_work (CallPump 1) w1.
Definition child_a (w : World) : AgentConversation :=
  default origin (sh_conversations (wd_outside w) !! 101).
(** The agent has finished the first task: it changed the file. *)
Definition agent_done (w : World) : SampleHost :=
  let h := wd_outside w in
  let c := finished_conversation (child_a w) 102 60 in
  with_trees
    (with_records (with_conversations h (<[101 := c]> (sh_conversations h)))
       (<[60 := record_of c 102 60 71 (tree_with (lit "two"))]> (sh_records h)))
    (<[tree_path 5101 := tree_with (lit "two")]> (sh_trees h)).
Definition w3 : World := run_work (CallOutside (agent_done w2)) w2.
Definition w4 : World := run_work (CallPump 1) w3.


Lemma reach (w w' w'' : World) (call : WorkCall) :
  run_work call w' = w'' → work_history w w' → call_allowed call → work_history w w''.
Proof. intros <-. apply history_call. Qed.

Lemma w1_reached : work_history w0 w1.
Proof. apply (reach w0 w0 w1 creation eq_refl); [constructor|split; discriminate]. Qed.
Lemma w2_reached : work_history w0 w2.
Proof. apply (reach w0 w1 w2 (CallPump 1) eq_refl); [exact w1_reached|exact I]. Qed.
Lemma w2_to_w3 : work_history w2 w3.
Proof. apply (reach w2 w2 w3 (CallOutside (agent_done w2)) eq_refl); [constructor|exact I]. Qed.
Lemma w2_to_w4 : work_history w2 w4.
Proof. apply (reach w2 w3 w4 (CallPump 1) eq_refl); [exact w2_to_w3|exact I]. Qed.
Lemma w3_reached : work_history w0 w3.
Proof. exact (history_trans _ _ _ w2_reached w2_to_w3). Qed.
Lemma w4_reached : work_history w0 w4.
Proof. exact (history_trans _ _ _ w2_reached w2_to_w4). Qed.

(** The states of the tasks of the stored set. *)
Definition states (w : World) (id : Uuid) : list AgentWorkItemState :=
  match stored w id with Some s => wi_state <$> aw_tasks (sw_view s) | None => [] end.

(** Both tasks run in turn; between the passes the set progresses. *)
Lemma work_sets_follow_lifecycle_witness :
  states w2 300 = [ItemQueued; ItemPending] ∧ states w4 300 = [ItemCompleted; ItemQueued] ∧
  (∀ id file, wd_sets w4 !! id = Some file →
     ∃ s, decode_set id file.1 = Ok s ∧ stored w4 id = Some s ∧
       NoDup (xr_task_id <$> sw_cancellations s) ∧ (length (sw_cancellations s) ≤ 8)%nat) ∧
  ∀ id s, stored w2 id = Some s → ∃ s', stored w4 id = Some s' ∧ progress s s'.
Proof.
  split; [vm_compute; reflexivity|]. split; [vm_compute; reflexivity|].
  exact (work_sets_follow_lifecycle _ w2 w4 w2_reached w2_to_w4).
Defined.

(** The second task was dispatched when the first was completed. *)
Lemma dispatch_waits_for_prerequisites_witness :
  ∃ s, wd_sent w4 !! 1%nat = Some (s, 1%nat) ∧
  ∃ task, aw_tasks (sw_view s) !! 1%nat = Some task ∧ wi_state task = ItemPreparing ∧
    ∀ id, id ∈ wi_depends_on task →
      ∃ other, other ∈ aw_tasks (sw_view s) ∧ wi_task_id other = id ∧ wi_state other = ItemCompleted.
Proof.
  assert (snd <$> wd_sent w4 !! 1%nat = Some 1%nat) as Hi by (vm_compute; reflexivity).
  destruct (wd_sent w4 !! 1%nat) as [[s i]|] eqn:Hs; [|discriminate].
  assert (i = 1%nat) as -> by (injection Hi as Hi; exact Hi).
  exists s. split; [reflexivity|].
  apply (dispatch_waits_for_prerequisites _ w4 s 1%nat w4_reached).
  exact (list_elem_of_lookup_2 _ _ _ Hs).
Defined.

Lemma pass_dispatches_at_most_three_witness :
  ∃ added, wd_sent w4 = wd_sent w3 ++ added ∧
    (length (standing w4 added) ≤ MAX_ACTIVE_ITEMS)%nat.
Proof.
  apply (pass_dispatches_at_most_three _ 1 w3 w4 w3_reached).
  assert ((pump_agent_work_sets 1 w3).1 = Ok ()) as Hr by (vm_compute; reflexivity).
  rewrite (surjective_pairing (pump_agent_work_sets 1 w3)), Hr. reflexivity.
Defined.

(** ** A host that does not acknowledge messages *)






(** ** A cancellation *)

Definition cancel_request : AgentWorkItemCancelRequest :=
  {| wx_request_id := 400; wx_expected_revision := 5 |}.
Definition c_run := cancel_agent_work_item 300 2 cancel_request w2.

Lemma run_Ok {S A} (p : result A LocalWtsError * S) :
  is_ok p.1 = true → ∃ x, p = (Ok x, p.2).
Proof. destruct p as [[x|e] s]; [by exists x|done]. Qed.

Lemma c_Ok : ∃ view, c_run = (Ok view, c_run.2).
Proof. apply run_Ok. vm_compute. reflexivity. Qed.

Lemma cancel_is_recorded_once_witness :
  ∃ view, c_run = (Ok view, c_run.2) ∧
  (∃ s, stored c_run.2 300 = Some s ∧ cancelled_in (sw_view s) 2 = true) ∧
  ∀ task_id' request' r w,
    wx_request_id request' = 400 →
    cancel_agent_work_item 300 task_id' request' c_run.2 = (r, w) →
    wd_sets w = wd_sets c_run.2 ∧
    ∀ view', r = Ok view' → view' = view ∧ task_id' = 2 ∧ request' = cancel_request.
Proof.
  destruct c_Ok as [view Hv]. exists view. split; [exact Hv|].
  exact (cancel_is_recorded_once _ w2 300 2 cancel_request view c_run.2 c_run.2 w2_reached Hv
           (history_start _)).
Defined.

(** ** A file that cannot be written *)

Definition o0 : World := no_sets (host_with [NotWritten] false).
Definition o1 : World := run_work creation o0.
Definition o2 : World := run_work (CallCreate 11 201 (set_request 301)) o1.
Definition o3 : World := run_work (CallPump 1) o2.

Lemma o1_reached : work_history o0 o1.
Proof. apply (reach o0 o0 o1 creation eq_refl); [constructor|split; discriminate]. Qed.
Lemma o1_to_o2 : work_history o1 o2.
Proof.
  apply (reach o1 o1 o2 (CallCreate 11 201 (set_request 301)) eq_refl);
    [constructor|split; discriminate].
Qed.
Lemma o1_to_o3 : work_history o1 o3.
Proof. apply (reach o1 o2 o3 (CallPump 1) eq_refl); [exact o1_to_o2|exact I]. Qed.

Lemma in_dirs (w : World) id : existsb (N.eqb id) (elements (wd_dirs w)) = true → id ∈ wd_dirs w.
Proof. intros (x & Hx & ->%N.eqb_eq)%existsb_spec. by apply elem_of_elements. Qed.

(** The second creation would succeed on its own; now nothing is created or dispatched. *)
Lemma failed_write_blocks_work_sets_witness :
  orphan o1 300 ∧
  orphan o3 300 ∧ wd_sent o3 = wd_sent o1 ∧ dom (wd_sets o3) = dom (wd_sets o1) ∧
  (∀ host, (pump_agent_work_sets host o3).1 ≠ Ok ()) ∧
  ∀ conversation_id request_id sets,
    (list_agent_work_sets conversation_id request_id o3).1 ≠ Ok sets.
Proof.
  assert (orphan o1 300) as Ho.
  { split; [vm_compute; reflexivity| |vm_compute; reflexivity].
    apply in_dirs. vm_compute. reflexivity. }
  split; [exact Ho|].
  apply (failed_write_blocks_work_sets (host_with [NotWritten] false) o1 300 o3); [|exact Ho|].
  - exact o1_reached.
  - exact o1_to_o3.
Defined.

(** ** A merge *)

(** Two results change different files: the merge has both changes. *)
Definition merge_base : CapturedFiles :=
  {[lit "a" := text_file (lit "a") (lit "1"); lit "b" := text_file (lit "b") (lit "1")]}.
Definition merge_left : CapturedFiles :=
  {[lit "a" := text_file (lit "a") (lit "2"); lit "b" := text_file (lit "b") (lit "1")]}.
Definition merge_right : CapturedFiles := {[lit "a" := text_file (lit "a") (lit "1")]}.

Definition merge_run : result Merge LocalWtsError :=
  try_fold (merge_result merge_base) (merge_base, source_blobs merge_base (lit "/s"))
    [(merge_left, lit "/l"); (merge_right, lit "/r")].

Lemma merge_is_three_way_witness :
  ∃ desired blobs, merge_run = Ok (desired, blobs) ∧
    desired = {[lit "a" := text_file (lit "a") (lit "2")]} ∧
    merged merge_base [(merge_left, lit "/l"); (merge_right, lit "/r")] desired ∧
    covered (holds merge_base (lit "/s") [(merge_left, lit "/l"); (merge_right, lit "/r")])
      desired blobs.
Proof.
  assert (is_ok merge_run = true ∧ fst <$> (match merge_run with Ok m => Some m | Err _ => None end)
          = Some {[lit "a" := text_file (lit "a") (lit "2")]}) as [Hok Hd]
    by (split; vm_compute; reflexivity).
  destruct merge_run as [[desired blobs]|e] eqn:Hm; [|discriminate].
  exists desired, blobs. split; [reflexivity|]. split; [injection Hd as Hd; exact Hd|].
  exact (proj1 (merge_is_three_way merge_base (lit "/s") _) desired blobs Hm).
Defined.
