(* ===== verification/Collaboration.v ===== *)
(** * Collaborations: plans, results and evidence ([crates/wts-app/src/collaboration.rs])

    A plan gives tasks of several workspaces to agents.  Here are its data, the preparation that
    accepts or rejects it, the validation of dependencies, the selection of a wave, the results of
    tasks and the evidence that is kept of them.  CollaborationRun has the threads.

    Canonical paths are lists of components; what the file system answers while the [i]-th task
    is checked is an input. *)

From S2P Require Import Prelude Order Text StoreBase Sessions.

Local Open Scope N_scope.

(** ** Tasks and plans *)

Definition MAX_TASK_ID_BYTES : N := 128.

(** [CollaborationTaskId::parse]; identifiers are texts that it has accepted. *)
Definition parse_task_id (value : str) : option str :=
  if is_empty value || (MAX_TASK_ID_BYTES <? byte_len value) then None
  else if forallb (λ c, is_ascii_alphanumeric c || (c =? 45) || (c =? 95) || (c =? 46) || (c =? 58))
            value
  then Some value else None.

Record CollaborationTask := {
  ct_task_id : str;
  ct_workspace_id : Uuid;
  ct_workspace_root : str;
  ct_scope_root : str;
  ct_provider : AgentProvider;
  ct_prompt : str;
  ct_phase : N;
  ct_timeout : N
}.

Record CollaborationPlan := {
  cp_collaboration_id : Uuid;
  cp_tasks : list CollaborationTask
}.

(** The timeout is in nanoseconds. *)
Record CollaborationLimits := {
  maximum_parallel_agents : nat;
  maximum_tasks_per_run : nat;
  maximum_task_timeout : N;
  maximum_prompt_bytes : N;
  maximum_output_bytes : N;
  maximum_retained_evidence : nat;
  maximum_retained_evidence_bytes : N
}.

Definition default_collaboration_limits : CollaborationLimits :=
  {| maximum_parallel_agents := 4; maximum_tasks_per_run := 32;
     maximum_task_timeout := 15 * 60 * 1000000000; maximum_prompt_bytes := 16 * 1024;
     maximum_output_bytes := 1024 * 1024; maximum_retained_evidence := 256;
     maximum_retained_evidence_bytes := 4 * 1024 * 1024 |}.

(** [CollaborationCoordinator::new] refuses a limit of zero. *)
Definition limits_positive (limits : CollaborationLimits) : bool :=
  negb ((maximum_parallel_agents limits =? 0)%nat || (maximum_tasks_per_run limits =? 0)%nat
        || (maximum_task_timeout limits =? 0) || (maximum_prompt_bytes limits =? 0)
        || (maximum_output_bytes limits =? 0) || (maximum_retained_evidence limits =? 0)%nat
        || (maximum_retained_evidence_bytes limits =? 0)).

Inductive CollaborationPlanError :=
| EmptyPlan
| TooManyTasks
| DuplicateTaskId (task_id : str)
| InvalidPrompt (task_id : str)
| InvalidTimeout (task_id : str)
| InvalidWorkspaceRoot (task_id : str)
| WorkspaceIdentityMismatch (workspace_id : Uuid)
| WorkspaceRootAlias (first_workspace_id second_workspace_id : Uuid)
| OverlappingWorkspaceRoots
| ScopeOutsideWorkspace (task_id : str)
| OverlappingTaskScopes
| ProviderConfinementUnavailable (task_id : str)
| UnknownDependency
| DuplicateDependency
| DependencyPhaseConflict
| DependencyCycle.

Inductive CollaborationConfinement := WorkspaceWriteIsolated | Unverified.

#[export] Instance confinement_eq_dec : EqDecision CollaborationConfinement.
Proof. solve_decision. Defined.

Inductive CollaborationStopReason := StopCancelled | StopTimedOut.
Inductive CollaborationAdapterFailure := AdapterUnavailable | SpawnFailed | AgentFailed.
Inductive CollaborationAdapterOutcome :=
| AdapterSucceeded (output : str)
| AdapterFailure (failure : CollaborationAdapterFailure) (output : str)
| AdapterStopped (reason : CollaborationStopReason).

Inductive CollaborationTaskState :=
| TaskSucceeded | TaskProviderFailed | TaskAdapterFailed | TaskAdapterPanicked | TaskCancelled
| TaskTimedOut | TaskOutputTooLarge | TaskDependencyBlocked.

#[export] Instance adapter_failure_eq_dec : EqDecision CollaborationAdapterFailure.
Proof. solve_decision. Defined.
#[export] Instance collaboration_state_eq_dec : EqDecision CollaborationTaskState.
Proof. solve_decision. Defined.

(** ** Paths *)

Abbreviation CanonicalPath := (list str).

(** [Path::starts_with] compares components. *)
Fixpoint path_below (base path : CanonicalPath) : bool :=
  match base, path with
  | [], _ => true
  | _, [] => false
  | a :: base', b :: path' => bool_decide (a = b) && path_below base' path'
  end.

Definition paths_overlap (left right : CanonicalPath) : bool :=
  path_below right left || path_below left right.

(** [fs::canonicalize], and whether the metadata of a canonical path is that of a directory. *)
Record FileAnswers := {
  fa_canonicalize : str → option CanonicalPath;
  fa_directory : CanonicalPath → bool
}.

(** ** Preparation of a plan *)

Record PreparedTask := {
  pt_task_id : str;
  pt_workspace_id : Uuid;
  pt_workspace_root : CanonicalPath;
  pt_scope_root : CanonicalPath;
  pt_provider : AgentProvider;
  pt_prompt : str;
  pt_phase : N;
  pt_timeout : N
}.

(** What the loop of [prepare] carries. *)
Record Preparation := {
  pr_task_ids : gset str;
  pr_roots_by_workspace : gmap Uuid CanonicalPath;
  pr_owners_by_root : gmap CanonicalPath Uuid;
  pr_scopes_by_phase : gmap N (list CanonicalPath);
  pr_prepared : list PreparedTask
}.

Definition no_preparation : Preparation :=
  {| pr_task_ids := ∅; pr_roots_by_workspace := ∅; pr_owners_by_root := ∅;
     pr_scopes_by_phase := ∅; pr_prepared := [] |}.

Definition canonical_directory (answers : FileAnswers) (path : str) : option CanonicalPath :=
  if is_absolute path then
    match fa_canonicalize answers path with
    | Some canonical => if fa_directory answers canonical then Some canonical else None
    | None => None
    end
  else None.

Definition prompt_valid (limits : CollaborationLimits) (prompt : str) : bool :=
  negb (is_empty prompt || (maximum_prompt_bytes limits <? byte_len prompt)
        || existsb (λ c, c =? 0) prompt).

Section prepare.
Context (limits : CollaborationLimits) (confinement : AgentProvider → CollaborationConfinement).
Context (files : nat → FileAnswers).

(** One round of the loop. *)
Definition prepare_task (index : nat) (state : Preparation) (task : CollaborationTask) :
    result Preparation CollaborationPlanError :=
  let task_id := ct_task_id task in
  let workspace_id := ct_workspace_id task in
  ensure guard_err (bool_decide (task_id ∈ pr_task_ids state)) (DuplicateTaskId task_id) in
  let prompt := trim (ct_prompt task) in
  ensure guard_err (negb (prompt_valid limits prompt)) (InvalidPrompt task_id) in
  ensure guard_err ((ct_timeout task =? 0) || (maximum_task_timeout limits <? ct_timeout task))
           (InvalidTimeout task_id) in
  ensure guard_err (negb (bool_decide (confinement (ct_provider task) = WorkspaceWriteIsolated)))
           (ProviderConfinementUnavailable task_id) in
  let? root := ok_or (canonical_directory (files index) (ct_workspace_root task))
                 (InvalidWorkspaceRoot task_id) in
  let? roots := match pr_roots_by_workspace state !! workspace_id with
                | Some existing =>
                    if bool_decide (existing = root) then Ok (pr_roots_by_workspace state)
                    else Err (WorkspaceIdentityMismatch workspace_id)
                | None => Ok (<[workspace_id := root]> (pr_roots_by_workspace state))
                end in
  let? owners := match pr_owners_by_root state !! root with
                 | Some existing =>
                     if existing =? workspace_id then Ok (pr_owners_by_root state)
                     else Err (WorkspaceRootAlias existing workspace_id)
                 | None => Ok (<[root := workspace_id]> (pr_owners_by_root state))
                 end in
  let? scope := ok_or (canonical_directory (files index) (ct_scope_root task))
                  (ScopeOutsideWorkspace task_id) in
  ensure guard_err (negb (path_below root scope)) (ScopeOutsideWorkspace task_id) in
  Ok {| pr_task_ids := {[task_id]} ∪ pr_task_ids state;
        pr_roots_by_workspace := roots; pr_owners_by_root := owners;
        pr_scopes_by_phase :=
          <[ct_phase task := default [] (pr_scopes_by_phase state !! ct_phase task) ++ [scope]]>
            (pr_scopes_by_phase state);
        pr_prepared := pr_prepared state ++
          [{| pt_task_id := task_id; pt_workspace_id := workspace_id; pt_workspace_root := root;
              pt_scope_root := scope; pt_provider := ct_provider task; pt_prompt := prompt;
              pt_phase := ct_phase task; pt_timeout := ct_timeout task |}] |}.

(** Whether two paths of a list, at different positions, overlap. *)
Fixpoint some_overlap (paths : list CanonicalPath) : bool :=
  match paths with
  | [] => false
  | path :: paths' => existsb (paths_overlap path) paths' || some_overlap paths'
  end.

Definition prepare (tasks : list CollaborationTask) :
    result (list PreparedTask) CollaborationPlanError :=
  ensure guard_err (bool_decide (length tasks = 0%nat)) EmptyPlan in
  ensure guard_err (maximum_tasks_per_run limits <? length tasks)%nat TooManyTasks in
  let? state := try_fold_i prepare_task 0 no_preparation tasks in
  ensure guard_err (some_overlap (map_to_list (pr_owners_by_root state)).*1)
           OverlappingWorkspaceRoots in
  ensure guard_err (existsb (λ entry, some_overlap entry.2)
                      (map_to_list (pr_scopes_by_phase state))) OverlappingTaskScopes in
  Ok (pr_prepared state).
End prepare.

(** ** Dependencies *)

Abbreviation Dependencies := (gmap str (list str)).

(** [dependencies.get(&task).into_iter().flatten()]. *)
Definition parents_of (dependencies : Dependencies) (task_id : str) : list str :=
  default [] (dependencies !! task_id).

Definition task_phases (tasks : list PreparedTask) : gmap str N :=
  list_to_map ((λ task, (pt_task_id task, pt_phase task)) <$> tasks).

Definition check_parent (phases : gmap str N) (phase : N) (seen : gset str) (parent : str) :
    result (gset str) CollaborationPlanError :=
  let? parent_phase := ok_or (phases !! parent) UnknownDependency in
  ensure guard_err (bool_decide (parent ∈ seen)) DuplicateDependency in
  ensure guard_err (phase <? parent_phase) DependencyPhaseConflict in
  Ok ({[parent]} ∪ seen).

Definition check_parents (phases : gmap str N) (_ : ()) (entry : str * list str) :
    result () CollaborationPlanError :=
  let? phase := ok_or (phases !! entry.1) UnknownDependency in
  let? _ := try_fold (check_parent phases phase) ∅ entry.2 in
  Ok ().

(** The loop over the tasks that remain; each round takes those without a remaining parent. *)
Fixpoint resolve_remaining (fuel : nat) (dependencies : Dependencies) (remaining : gset str) :
    result () CollaborationPlanError :=
  match fuel with
  | O => Err DependencyCycle
  | S fuel' =>
      if bool_decide (remaining = ∅) then Ok ()
      else
        let ready := filter (λ task, forallb (λ parent, negb (bool_decide (parent ∈ remaining)))
                                       (parents_of dependencies task) = true) remaining in
        if bool_decide (ready = ∅) then Err DependencyCycle
        else resolve_remaining fuel' dependencies (remaining ∖ ready)
  end.

Definition validate_dependencies (tasks : list PreparedTask) (dependencies : Dependencies) :
    result () CollaborationPlanError :=
  let phases := task_phases tasks in
  let? _ := try_fold (check_parents phases) ()
              (sort_by (cmp_on fst str_cmp) (map_to_list dependencies)) in
  resolve_remaining (S (size (dom phases))) dependencies (dom phases).

(** ** Results *)

Record CollaborationTaskResult := {
  cr_task_id : str;
  cr_workspace_id : Uuid;
  cr_provider : AgentProvider;
  cr_phase : N;
  cr_state : CollaborationTaskState;
  cr_output : str;
  cr_failure : option CollaborationAdapterFailure;
  cr_started_at_unix_ms : option Z;
  cr_completed_at_unix_ms : Z;
  cr_duration_ms : N
}.

Definition task_result (task : PreparedTask) (state : CollaborationTaskState) (output : str)
    (failure : option CollaborationAdapterFailure) (started_at completed_at : Z)
    (duration_ms : N) : CollaborationTaskResult :=
  {| cr_task_id := pt_task_id task; cr_workspace_id := pt_workspace_id task;
     cr_provider := pt_provider task; cr_phase := pt_phase task; cr_state := state;
     cr_output := output; cr_failure := failure; cr_started_at_unix_ms := Some started_at;
     cr_completed_at_unix_ms := completed_at; cr_duration_ms := duration_ms |}.

(** A result of a task whose adapter was not called. *)
Definition unstarted_result (task : PreparedTask) (state : CollaborationTaskState) (output : str)
    (started_at : option Z) (completed_at : Z) (duration_ms : N) : CollaborationTaskResult :=
  {| cr_task_id := pt_task_id task; cr_workspace_id := pt_workspace_id task;
     cr_provider := pt_provider task; cr_phase := pt_phase task; cr_state := state;
     cr_output := output; cr_failure := None; cr_started_at_unix_ms := started_at;
     cr_completed_at_unix_ms := completed_at; cr_duration_ms := duration_ms |}.

Definition state_of_stop (reason : CollaborationStopReason) : CollaborationTaskState :=
  match reason with StopCancelled => TaskCancelled | StopTimedOut => TaskTimedOut end.

(** [elapsed_ms]: nanoseconds since an instant. *)
Definition elapsed_ms (started now : N) : N := clamp_u64 ((now - started) / 1000000).

Definition stopped_result (task : PreparedTask) (reason : CollaborationStopReason)
    (started_at : option Z) (started now : N) (now_ms : Z) : CollaborationTaskResult :=
  unstarted_result task (state_of_stop reason) [] started_at now_ms (elapsed_ms started now).

(** The result of a task whose adapter has returned, [None] when it panicked. *)
Definition outcome_result (limits : CollaborationLimits) (task : PreparedTask) (cancelled late : bool)
    (outcome : option CollaborationAdapterOutcome) (started_at completed_at : Z)
    (started duration_ms : N) (now : N) (now_ms : Z) : CollaborationTaskResult :=
  let too_large output := maximum_output_bytes limits <? byte_len output in
  let make state output failure :=
    task_result task state output failure started_at completed_at duration_ms in
  if cancelled then make TaskCancelled [] None
  else if late then make TaskTimedOut [] None
  else
    match outcome with
    | None => make TaskAdapterPanicked [] None
    | Some (AdapterStopped reason) =>
        stopped_result task reason (Some started_at) started now now_ms
    | Some (AdapterSucceeded output) =>
        if too_large output then make TaskOutputTooLarge [] None
        else make TaskSucceeded output None
    | Some (AdapterFailure failure output) =>
        if too_large output then make TaskOutputTooLarge [] (Some failure)
        else make (if bool_decide (failure = AgentFailed) then TaskProviderFailed
                   else TaskAdapterFailed) output (Some failure)
    end.

(** ** Waves *)

(** The tasks of each phase, in the order of their identifiers. *)
Definition phase_tasks (prepared : list PreparedTask) (phase : N) : list PreparedTask :=
  sort_by (cmp_on pt_task_id str_cmp) (filter (λ task, pt_phase task = phase) prepared).

Definition plan_phases (prepared : list PreparedTask) : list (list PreparedTask) :=
  phase_tasks prepared <$>
    sort_by N.compare (elements (list_to_set (pt_phase <$> prepared) : gset N)).

Definition completed_states (results : list CollaborationTaskResult) :
    gmap str CollaborationTaskState :=
  foldl (λ states r, <[cr_task_id r := cr_state r]> states) ∅ results.

(** Every parent has a result. *)
Definition wave_ready (dependencies : Dependencies) (completed : gmap str CollaborationTaskState)
    (task : PreparedTask) : bool :=
  forallb (λ parent, bool_decide (is_Some (completed !! parent)))
    (parents_of dependencies (pt_task_id task)).

Definition failed_parents (dependencies : Dependencies) (completed : gmap str CollaborationTaskState)
    (task : PreparedTask) : list str :=
  filter (λ parent, completed !! parent ≠ Some TaskSucceeded)
    (parents_of dependencies (pt_task_id task)).

Definition blocked_output (limits : CollaborationLimits) (failed : list str) : str :=
  let output := lit "This task did not start. These prerequisites did not succeed: "
                ++ join (lit ", ") failed ++ lit "." in
  if maximum_output_bytes limits <? byte_len output then [] else output.

Definition blocked_result (limits : CollaborationLimits) (task : PreparedTask) (failed : list str)
    (now_ms : Z) : CollaborationTaskResult :=
  unstarted_result task TaskDependencyBlocked (blocked_output limits failed) None now_ms 0.

(** ** Reports *)

Record CollaborationReport := {
  rp_collaboration_id : Uuid;
  rp_started_at_unix_ms : Z;
  rp_completed_at_unix_ms : Z;
  rp_duration_ms : N;
  rp_tasks : list CollaborationTaskResult
}.

(** By phase, then by identifier. *)
Definition report_order : CollaborationTaskResult → CollaborationTaskResult → comparison :=
  cmp_on (λ r, (cr_phase r, cr_task_id r)) (pair_cmp N.compare str_cmp).

(** ** Evidence *)

Record CollaborationTaskEvidence := {
  ce_collaboration_id : Uuid;
  ce_task_id : str;
  ce_workspace_id : Uuid;
  ce_workspace_root : CanonicalPath;
  ce_scope_root : CanonicalPath;
  ce_provider : AgentProvider;
  ce_phase : N;
  ce_state : CollaborationTaskState;
  ce_prompt_sha256 : str;
  ce_output_sha256 : option str;
  ce_failure : option CollaborationAdapterFailure;
  ce_started_at_unix_ms : option Z;
  ce_completed_at_unix_ms : Z;
  ce_duration_ms : N
}.

(** SHA-256 of a text, the length of evidence in JSON, and the last instant of the clock. *)
Class CollaborationLibraries := {
  text_sha256 : str → str;
  evidence_bytes : CollaborationTaskEvidence → option N;
  last_instant : N
}.

Record EvidenceRetention := {
  er_entries : list (N * CollaborationTaskEvidence);
  er_total_bytes : N
}.

Definition no_evidence : EvidenceRetention := {| er_entries := []; er_total_bytes := 0 |}.

Section evidence.
Context `{CollaborationLibraries}.

Definition task_evidence (collaboration_id : Uuid) (task : PreparedTask)
    (r : CollaborationTaskResult) : CollaborationTaskEvidence :=
  {| ce_collaboration_id := collaboration_id; ce_task_id := cr_task_id r;
     ce_workspace_id := cr_workspace_id r; ce_workspace_root := pt_workspace_root task;
     ce_scope_root := pt_scope_root task; ce_provider := cr_provider r; ce_phase := cr_phase r;
     ce_state := cr_state r; ce_prompt_sha256 := text_sha256 (pt_prompt task);
     ce_output_sha256 := if is_empty (cr_output r) then None
                         else Some (text_sha256 (cr_output r));
     ce_failure := cr_failure r; ce_started_at_unix_ms := cr_started_at_unix_ms r;
     ce_completed_at_unix_ms := cr_completed_at_unix_ms r; ce_duration_ms := cr_duration_ms r |}.

(** The oldest entries leave until the rest is within the limits. *)
Fixpoint shed (maximum_count : nat) (maximum_bytes : N)
    (entries : list (N * CollaborationTaskEvidence)) (total : N) : EvidenceRetention :=
  match entries with
  | [] => {| er_entries := []; er_total_bytes := total |}
  | entry :: entries' =>
      if (maximum_count <? length entries)%nat || (maximum_bytes <? total)
      then shed maximum_count maximum_bytes entries' (total - entry.1)
      else {| er_entries := entries; er_total_bytes := total |}
  end.

Definition retain (maximum_count : nat) (maximum_bytes : N) (retention : EvidenceRetention)
    (evidence : CollaborationTaskEvidence) : EvidenceRetention :=
  match evidence_bytes evidence with
  | None => retention
  | Some bytes =>
      if maximum_bytes <? bytes then retention
      else shed maximum_count maximum_bytes (er_entries retention ++ [(bytes, evidence)])
             (clamp_u64 (er_total_bytes retention + bytes))
  end.

(** The prepared task of a result; every result has one. *)
Definition prepared_of (prepared : list PreparedTask) (r : CollaborationTaskResult) :
    option PreparedTask :=
  head (filter (λ task, pt_task_id task = cr_task_id r) prepared).

Definition retain_report_evidence (limits : CollaborationLimits) (prepared : list PreparedTask)
    (report : CollaborationReport) (retention : EvidenceRetention) : EvidenceRetention :=
  foldl (λ retention r,
           match prepared_of prepared r with
           | Some task =>
               retain (maximum_retained_evidence limits) (maximum_retained_evidence_bytes limits)
                 retention (task_evidence (rp_collaboration_id report) task r)
           | None => retention
           end) retention (rp_tasks report).
End evidence.
