(* ===== verification/CollaborationRun.v ===== *)
(** * Collaborations: the coordinator and its threads ([crates/wts-app/src/collaboration.rs])

    A coordinator runs any number of collaborations at once; each has a thread that plans waves
    and, during a wave, worker threads that take tasks, pass the gate the runs share and call the
    adapter.  An event is one step of one thread: what happens between two uses of shared data
    (the gate, the tokens of cancellation, the results of the run, the evidence).  A history is
    any sequence of events; what the clocks, the file system and the adapter answer is in them. *)

From S2P Require Import Prelude Order Text StoreBase Sessions Collaboration.

Local Open Scope N_scope.

(** ** State *)

(** [CollaborationControl]: cancelled as a whole, and the token of each task. *)
Record Control := {
  cc_all : bool;
  cc_tasks : gmap str bool
}.

Definition no_control : Control := {| cc_all := false; cc_tasks := ∅ |}.

Definition cancel_all (control : Control) : Control :=
  {| cc_all := true; cc_tasks := cc_tasks control |}.

(** True only for the first request for the task. *)
Definition cancel_task (control : Control) (task_id : str) : bool * Control :=
  (negb (default false (cc_tasks control !! task_id)),
   {| cc_all := cc_all control; cc_tasks := <[task_id := true]> (cc_tasks control) |}).

(** [cancellation_for] makes the token of the task. *)
Definition with_token (control : Control) (task_id : str) : Control :=
  {| cc_all := cc_all control;
     cc_tasks := <[task_id := default false (cc_tasks control !! task_id)]> (cc_tasks control) |}.

Definition task_cancelled (control : Control) (task_id : str) : bool :=
  cc_all control || default false (cc_tasks control !! task_id).

(** [TaskCancellation::checkpoint] at an instant. *)
Definition checkpoint (control : Control) (task_id : str) (deadline now : N) :
    result () CollaborationStopReason :=
  if task_cancelled control task_id then Err StopCancelled
  else if deadline <=? now then Err StopTimedOut
  else Ok ().

(** [ExecutionGate]: permits out and the scopes they are for. *)
Record ExecutionGate := {
  eg_active : nat;
  eg_roots : gset CanonicalPath
}.

(** One round of the loop of [acquire], when neither stopped nor timed out. *)
Definition gate_open (maximum : nat) (gate : ExecutionGate) (root : CanonicalPath) : bool :=
  (eg_active gate <? maximum)%nat
  && negb (existsb (λ active, paths_overlap active root) (elements (eg_roots gate))).

Definition take_permit (gate : ExecutionGate) (root : CanonicalPath) : ExecutionGate :=
  {| eg_active := S (eg_active gate); eg_roots := {[root]} ∪ eg_roots gate |}.

(** Dropping a permit. *)
Definition drop_permit (gate : ExecutionGate) (root : CanonicalPath) : ExecutionGate :=
  {| eg_active := eg_active gate - 1; eg_roots := eg_roots gate ∖ {[root]} |}.

(** Where a worker thread is in [execute_task]; [started] and [deadline] are instants. *)
Inductive Worker :=
| Fetching
| Waiting (task : PreparedTask) (queued deadline : N)
| Permitted (task : PreparedTask) (deadline : N)
| Refused (task : PreparedTask) (reason : CollaborationStopReason) (started_at : Z) (started : N)
| Working (task : PreparedTask) (started_at : Z) (started deadline : N)
| Returned (task : PreparedTask) (outcome : option CollaborationAdapterOutcome) (started_at : Z)
    (started deadline : N)
| Judging (task : PreparedTask) (outcome : option CollaborationAdapterOutcome) (started_at : Z)
    (started deadline : N)
| Reporting (task : PreparedTask) (r : CollaborationTaskResult)
| Exited.

(** One call of [execute_with_dependencies]. *)
Record Run := {
  ru_collaboration_id : Uuid;
  ru_control : N;
  ru_dependencies : Dependencies;
  ru_prepared : list PreparedTask;
  ru_started_at : Z;
  ru_started : N;
  ru_phases : list (list PreparedTask);
  ru_pending : list PreparedTask;
  ru_runnable : list PreparedTask;
  ru_next_task : nat;
  ru_workers : list Worker;
  ru_results : list CollaborationTaskResult
}.

(** A call is under way, was rejected, or has returned a report. *)
Inductive Call :=
| Active (run : Run)
| Rejected (error : CollaborationPlanError)
| Finished (run : Run) (report : CollaborationReport).

Record Coordinator := {
  co_clock : N;
  co_gate : ExecutionGate;
  co_evidence : EvidenceRetention;
  co_controls : gmap N Control;
  co_calls : gmap N Call
}.

Definition new_coordinator (clock : N) : Coordinator :=
  {| co_clock := clock; co_gate := {| eg_active := 0; eg_roots := ∅ |};
     co_evidence := no_evidence; co_controls := ∅; co_calls := ∅ |}.

Definition control_of (co : Coordinator) (id : N) : Control := default no_control (co_controls co !! id).

Definition with_clock (co : Coordinator) (clock : N) : Coordinator :=
  {| co_clock := clock; co_gate := co_gate co; co_evidence := co_evidence co;
     co_controls := co_controls co; co_calls := co_calls co |}.
Definition with_gate (co : Coordinator) (gate : ExecutionGate) : Coordinator :=
  {| co_clock := co_clock co; co_gate := gate; co_evidence := co_evidence co;
     co_controls := co_controls co; co_calls := co_calls co |}.
Definition with_evidence (co : Coordinator) (evidence : EvidenceRetention) : Coordinator :=
  {| co_clock := co_clock co; co_gate := co_gate co; co_evidence := evidence;
     co_controls := co_controls co; co_calls := co_calls co |}.
Definition with_control (co : Coordinator) (id : N) (control : Control) : Coordinator :=
  {| co_clock := co_clock co; co_gate := co_gate co; co_evidence := co_evidence co;
     co_controls := <[id := control]> (co_controls co); co_calls := co_calls co |}.
Definition with_call (co : Coordinator) (id : N) (call : Call) : Coordinator :=
  {| co_clock := co_clock co; co_gate := co_gate co; co_evidence := co_evidence co;
     co_controls := co_controls co; co_calls := <[id := call]> (co_calls co) |}.

(** ** The thread of a run *)

Definition new_run (plan : CollaborationPlan) (control : N) (dependencies : Dependencies)
    (prepared : list PreparedTask) (started_at : Z) (started : N) : Run :=
  {| ru_collaboration_id := cp_collaboration_id plan; ru_control := control;
     ru_dependencies := dependencies; ru_prepared := prepared; ru_started_at := started_at;
     ru_started := started; ru_phases := plan_phases prepared; ru_pending := [];
     ru_runnable := []; ru_next_task := 0; ru_workers := []; ru_results := [] |}.

Definition joined (run : Run) : bool :=
  forallb (λ worker, match worker with Exited => true | _ => false end) (ru_workers run).

(** The next phase begins when nothing of the last one is pending. *)
Definition next_phase (run : Run) : option Run :=
  match ru_phases run with
  | phase :: phases =>
      if joined run && bool_decide (length (ru_pending run) = 0%nat) then
        Some {| ru_collaboration_id := ru_collaboration_id run; ru_control := ru_control run;
                ru_dependencies := ru_dependencies run; ru_prepared := ru_prepared run;
                ru_started_at := ru_started_at run; ru_started := ru_started run;
                ru_phases := phases; ru_pending := phase; ru_runnable := []; ru_next_task := 0;
                ru_workers := []; ru_results := ru_results run |}
      else None
  | [] => None
  end.

(** The tasks of the wave that have lost a parent get their results, each at the time the clock
    shows then; the others go to workers. *)
Definition next_wave (limits : CollaborationLimits) (now_ms : str → Z) (run : Run) :
    option Run :=
  if joined run && negb (bool_decide (length (ru_pending run) = 0%nat)) then
    let completed := completed_states (ru_results run) in
    let ready task := wave_ready (ru_dependencies run) completed task in
    let wave := filter (λ task, ready task = true) (ru_pending run) in
    let failed task := failed_parents (ru_dependencies run) completed task in
    let runnable := filter (λ task, length (failed task) = 0%nat) wave in
    let lost := filter (λ task, length (failed task) ≠ 0%nat) wave in
    Some {| ru_collaboration_id := ru_collaboration_id run; ru_control := ru_control run;
            ru_dependencies := ru_dependencies run; ru_prepared := ru_prepared run;
            ru_started_at := ru_started_at run; ru_started := ru_started run;
            ru_phases := ru_phases run;
            ru_pending := filter (λ task, ready task = false) (ru_pending run);
            ru_runnable := runnable; ru_next_task := 0;
            ru_workers := replicate (length runnable `min` maximum_parallel_agents limits) Fetching;
            ru_results := ru_results run
              ++ ((λ task, blocked_result limits task (failed task)
                               (now_ms (pt_task_id task))) <$> lost) |}
  else None.

Definition report_of (run : Run) (now : N) (now_ms : Z) : CollaborationReport :=
  {| rp_collaboration_id := ru_collaboration_id run; rp_started_at_unix_ms := ru_started_at run;
     rp_completed_at_unix_ms := now_ms; rp_duration_ms := elapsed_ms (ru_started run) now;
     rp_tasks := sort_by report_order (ru_results run) |}.

Definition run_over (run : Run) : bool :=
  joined run && bool_decide (length (ru_pending run) = 0%nat)
  && bool_decide (length (ru_phases run) = 0%nat).

(** ** A worker thread *)

Definition with_workers (run : Run) (next_task : nat) (workers : list Worker)
    (results : list CollaborationTaskResult) : Run :=
  {| ru_collaboration_id := ru_collaboration_id run; ru_control := ru_control run;
     ru_dependencies := ru_dependencies run; ru_prepared := ru_prepared run;
     ru_started_at := ru_started_at run; ru_started := ru_started run;
     ru_phases := ru_phases run; ru_pending := ru_pending run; ru_runnable := ru_runnable run;
     ru_next_task := next_task; ru_workers := workers; ru_results := results |}.

(** What a step of a worker learns from outside: the wall clock, time that passes within the
    step, and what the adapter returned. *)
Record StepInput := {
  si_now_ms : Z;
  si_elapsed : N;
  si_outcome : option CollaborationAdapterOutcome
}.

(** Events of a coordinator. *)
Inductive Event :=
| Tick (elapsed : N)
| CancelAll (control : N)
| CancelTask (control : N) (task_id : str)
| Execute (call control : N) (plan : CollaborationPlan) (dependencies : Dependencies)
    (files : nat → FileAnswers) (now_ms : Z)
| NextPhase (call : N)
| NextWave (call : N) (now_ms : str → Z)
| WorkerStep (call : N) (index : nat) (input : StepInput)
| Finish (call : N) (now_ms : Z).

Section steps.
Context `{CollaborationLibraries}.
Context (limits : CollaborationLimits) (confinement : AgentProvider → CollaborationConfinement).

(** [execute_with_dependencies] until its first phase. *)
Definition execute (co : Coordinator) (control : N) (plan : CollaborationPlan)
    (dependencies : Dependencies) (files : nat → FileAnswers) (now_ms : Z) : Call :=
  match (let? prepared := prepare limits confinement files (cp_tasks plan) in
         let? _ := validate_dependencies prepared dependencies in
         Ok prepared) with
  | Ok prepared => Active (new_run plan control dependencies prepared now_ms (co_clock co))
  | Err error => Rejected error
  end.

(** [queued.checked_add(timeout)], or the instant itself. *)
Definition deadline_of (queued timeout : N) : N :=
  if queued + timeout <=? last_instant then queued + timeout else queued.

(** A round of [acquire]: the worker leaves with a result, is admitted, or waits. *)
Definition acquire (co : Coordinator) (control : Control) (task : PreparedTask)
    (queued deadline : N) (input : StepInput) : Coordinator * Worker :=
  let stop reason now :=
    Reporting task (stopped_result task reason None queued now (si_now_ms input)) in
  match checkpoint control (pt_task_id task) deadline (co_clock co) with
  | Err reason => (co, stop reason (co_clock co))
  | Ok _ =>
      if gate_open (maximum_parallel_agents limits) (co_gate co) (pt_scope_root task)
      then (with_gate co (take_permit (co_gate co) (pt_scope_root task)), Permitted task deadline)
      else
        let later := co_clock co + si_elapsed input in
        (with_clock co later,
         if deadline <=? later then stop StopTimedOut later else Waiting task queued deadline)
  end.

(** A step of a worker with a task. *)
Definition task_step (co : Coordinator) (control : Control) (input : StepInput) (worker : Worker) :
    option (Coordinator * Worker) :=
  let now := co_clock co in
  match worker with
  | Waiting task queued deadline => Some (acquire co control task queued deadline input)
  | Permitted task deadline =>
      Some (co, match checkpoint control (pt_task_id task) deadline now with
                | Err reason => Refused task reason (si_now_ms input) now
                | Ok _ => Working task (si_now_ms input) now deadline
                end)
  | Refused task reason started_at started =>
      Some (with_gate co (drop_permit (co_gate co) (pt_scope_root task)),
            Reporting task (stopped_result task reason (Some started_at) started now
                              (si_now_ms input)))
  | Working task started_at started deadline =>
      Some (co, Returned task (si_outcome input) started_at started deadline)
  | Returned task outcome started_at started deadline =>
      Some (with_gate co (drop_permit (co_gate co) (pt_scope_root task)),
            Judging task outcome started_at started deadline)
  | Judging task outcome started_at started deadline =>
      let later := now + si_elapsed input in
      Some (with_clock co later,
            Reporting task
              (outcome_result limits task (task_cancelled control (pt_task_id task))
                 (deadline <=? later) outcome started_at (si_now_ms input) started
                 (elapsed_ms started now) later (si_now_ms input)))
  | Fetching | Reporting _ _ | Exited => None
  end.

Definition worker_step (co : Coordinator) (call : N) (run : Run) (index : nat) (input : StepInput) :
    option Coordinator :=
  let set_worker co next worker results :=
    with_call co call (Active (with_workers run next (<[index := worker]> (ru_workers run)) results)) in
  match ru_workers run !! index with
  | None | Some Exited => None
  | Some Fetching =>
      match ru_runnable run !! ru_next_task run with
      | None => Some (set_worker co (S (ru_next_task run)) Exited (ru_results run))
      | Some task =>
          let queued := co_clock co in
          let control := with_token (control_of co (ru_control run)) (pt_task_id task) in
          Some (set_worker (with_control co (ru_control run) control) (S (ru_next_task run))
                  (Waiting task queued (deadline_of queued (pt_timeout task))) (ru_results run))
      end
  | Some (Reporting _ r) =>
      Some (set_worker co (ru_next_task run) Fetching (ru_results run ++ [r]))
  | Some worker =>
      match task_step co (control_of co (ru_control run)) input worker with
      | Some (co', worker') => Some (set_worker co' (ru_next_task run) worker' (ru_results run))
      | None => None
      end
  end.

(** ** One event *)

Definition active_run (co : Coordinator) (call : N) : option Run :=
  match co_calls co !! call with Some (Active run) => Some run | _ => None end.

Definition step (co : Coordinator) (event : Event) : option Coordinator :=
  match event with
  | Tick elapsed => Some (with_clock co (co_clock co + elapsed))
  | CancelAll control => Some (with_control co control (cancel_all (control_of co control)))
  | CancelTask control task_id =>
      Some (with_control co control (cancel_task (control_of co control) task_id).2)
  | Execute call control plan dependencies files now_ms =>
      match co_calls co !! call with
      | Some _ => None
      | None => Some (with_call co call (execute co control plan dependencies files now_ms))
      end
  | NextPhase call =>
      match active_run co call with
      | Some run => (λ run', with_call co call (Active run')) <$> next_phase run
      | None => None
      end
  | NextWave call now_ms =>
      match active_run co call with
      | Some run => (λ run', with_call co call (Active run')) <$> next_wave limits now_ms run
      | None => None
      end
  | WorkerStep call index input =>
      match active_run co call with
      | Some run => worker_step co call run index input
      | None => None
      end
  | Finish call now_ms =>
      match active_run co call with
      | Some run =>
          if run_over run then
            let report := report_of run (co_clock co) now_ms in
            Some (with_evidence
                    (with_call co call (Finished run report))
                    (retain_report_evidence limits (ru_prepared run) report (co_evidence co)))
          else None
      | None => None
      end
  end.

(** A history of events; none of them is impossible. *)
Fixpoint steps (co : Coordinator) (events : list Event) : option Coordinator :=
  match events with
  | [] => Some co
  | event :: events' => match step co event with Some co' => steps co' events' | None => None end
  end.

Definition coordinated (clock : N) (co : Coordinator) : Prop :=
  ∃ events, steps (new_coordinator clock) events = Some co.
End steps.
