(* ===== verification/CollaborationPlans.v ===== *)
(** * Collaborations: which plans are accepted

    [prepare] accepts exactly the plans whose tasks are valid one by one and compatible two by
    two, and [validate_dependencies] exactly the dependencies that are known, not repeated, not
    against the phases and without a cycle; its loop always ends. *)

From S2P Require Import Prelude Order Text StoreBase Sessions Collaboration.

Local Open Scope N_scope.

(** ** Overlaps *)

Definition disjoint_paths (left right : CanonicalPath) : Prop := paths_overlap left right = false.

Lemma disjoint_paths_sym left right : disjoint_paths left right → disjoint_paths right left.
Proof. unfold disjoint_paths, paths_overlap. by rewrite orb_comm. Qed.

Lemma path_below_refl path : path_below path path = true.
Proof. induction path as [|a path IH]; cbn; [done|]. by rewrite bool_decide_true, IH. Qed.

Lemma disjoint_paths_ne left right : disjoint_paths left right → left ≠ right.
Proof. unfold disjoint_paths, paths_overlap. intros H ->. by rewrite path_below_refl in H. Qed.

Lemma some_overlap_spec paths : some_overlap paths = false ↔ pairwise disjoint_paths paths.
Proof.
  induction paths as [|path paths IH]; cbn; [done|].
  rewrite orb_false_iff, IH, Forall_iff_forall. apply and_iff_compat_r.
  rewrite <- not_true_iff_false, existsb_spec. unfold disjoint_paths.
  split; [intros H x Hx; apply not_true_iff_false; eauto|].
  intros H (x & Hx & Ho). by rewrite H in Ho.
Qed.

(** ** Preparation *)

Section prepare.
Context (limits : CollaborationLimits) (confinement : AgentProvider → CollaborationConfinement).
Context (files : nat → FileAnswers).

(** What a valid task becomes, by itself. *)
Definition lone_task (index : nat) (task : CollaborationTask) : option PreparedTask :=
  match canonical_directory (files index) (ct_workspace_root task),
        canonical_directory (files index) (ct_scope_root task) with
  | Some root, Some scope =>
      if prompt_valid limits (trim (ct_prompt task)) && negb (ct_timeout task =? 0)
         && (ct_timeout task <=? maximum_task_timeout limits)
         && bool_decide (confinement (ct_provider task) = WorkspaceWriteIsolated)
         && path_below root scope
      then Some {| pt_task_id := ct_task_id task; pt_workspace_id := ct_workspace_id task;
                   pt_workspace_root := root; pt_scope_root := scope;
                   pt_provider := ct_provider task; pt_prompt := trim (ct_prompt task);
                   pt_phase := ct_phase task; pt_timeout := ct_timeout task |}
      else None
  | _, _ => None
  end.

Fixpoint lone_tasks (index : nat) (tasks : list CollaborationTask) : option (list PreparedTask) :=
  match tasks with
  | [] => Some []
  | task :: tasks' =>
      match lone_task index task, lone_tasks (S index) tasks' with
      | Some t, Some ts => Some (t :: ts)
      | _, _ => None
      end
  end.

(** Two tasks have different identifiers, and the same workspace when they have the same root. *)
Definition distinct_tasks (a b : PreparedTask) : Prop :=
  pt_task_id a ≠ pt_task_id b ∧
  (pt_workspace_id a = pt_workspace_id b ↔ pt_workspace_root a = pt_workspace_root b).

(** Workspaces do not overlap, nor do the scopes of one phase. *)
Definition compatible_tasks (a b : PreparedTask) : Prop :=
  distinct_tasks a b ∧
  (pt_workspace_root a ≠ pt_workspace_root b →
     disjoint_paths (pt_workspace_root a) (pt_workspace_root b)) ∧
  (pt_phase a = pt_phase b → disjoint_paths (pt_scope_root a) (pt_scope_root b)).

Definition extended (state : Preparation) (t : PreparedTask) : Preparation :=
  {| pr_task_ids := {[pt_task_id t]} ∪ pr_task_ids state;
     pr_roots_by_workspace := <[pt_workspace_id t := pt_workspace_root t]>
                                (pr_roots_by_workspace state);
     pr_owners_by_root := <[pt_workspace_root t := pt_workspace_id t]> (pr_owners_by_root state);
     pr_scopes_by_phase :=
       <[pt_phase t := default [] (pr_scopes_by_phase state !! pt_phase t) ++ [pt_scope_root t]]>
         (pr_scopes_by_phase state);
     pr_prepared := pr_prepared state ++ [t] |}.

(** What the maps of the loop say about the tasks so far. *)
Record preparation_ok (state : Preparation) : Prop := {
  po_ids task_id : task_id ∈ pr_task_ids state ↔ task_id ∈ pt_task_id <$> pr_prepared state;
  po_roots workspace_id root :
    pr_roots_by_workspace state !! workspace_id = Some root ↔
    ∃ t, t ∈ pr_prepared state ∧ pt_workspace_id t = workspace_id ∧ pt_workspace_root t = root;
  po_owners root workspace_id :
    pr_owners_by_root state !! root = Some workspace_id ↔
    ∃ t, t ∈ pr_prepared state ∧ pt_workspace_root t = root ∧ pt_workspace_id t = workspace_id;
  po_scopes phase :
    default [] (pr_scopes_by_phase state !! phase)
    = pt_scope_root <$> filter (λ t, pt_phase t = phase) (pr_prepared state)
}.

Lemma no_preparation_ok : preparation_ok no_preparation.
Proof.
  split; cbn.
  - intros task_id. by rewrite elem_of_empty, elem_of_nil.
  - intros w r. rewrite lookup_empty. split; [done|]. by intros (t & ?%elem_of_nil & _).
  - intros w r. rewrite lookup_empty. split; [done|]. by intros (t & ?%elem_of_nil & _).
  - intros p. by rewrite lookup_empty.
Qed.

Lemma extended_ok state t :
  preparation_ok state → (∀ x, x ∈ pr_prepared state → distinct_tasks x t) →
  preparation_ok (extended state t).
Proof.
  intros [Hids Hroots Howners Hscopes] Hd. split; cbn.
  - intros task_id. rewrite fmap_app, elem_of_union, elem_of_singleton, elem_of_app, Hids. cbn.
    rewrite list_elem_of_singleton. tauto.
  - intros w r. setoid_rewrite elem_of_app. setoid_rewrite list_elem_of_singleton.
    destruct (decide (w = pt_workspace_id t)) as [->|Hne].
    + rewrite lookup_insert_eq. split; [intros [= <-]; exists t; auto|].
      intros (x & [Hx| ->] & Hw & Hr); [|by f_equal].
      f_equal. rewrite <- Hr. symmetry. by apply (Hd _ Hx).
    + rewrite lookup_insert_ne, Hroots by done. split; [naive_solver|].
      intros (x & [Hx| ->] & Hw & Hr); naive_solver.
  - intros r w. setoid_rewrite elem_of_app. setoid_rewrite list_elem_of_singleton.
    destruct (decide (r = pt_workspace_root t)) as [->|Hne].
    + rewrite lookup_insert_eq. split; [intros [= <-]; exists t; auto|].
      intros (x & [Hx| ->] & Hr & Hw); [|by f_equal].
      f_equal. rewrite <- Hw. symmetry. by apply (Hd _ Hx).
    + rewrite lookup_insert_ne, Howners by done. split; [naive_solver|].
      intros (x & [Hx| ->] & Hr & Hw); naive_solver.
  - intros p. rewrite filter_app, fmap_app. destruct (decide (p = pt_phase t)) as [->|Hne].
    + rewrite lookup_insert_eq, Hscopes. cbn [default]. by rewrite filter_cons_True.
    + rewrite lookup_insert_ne, Hscopes, filter_cons_False by done. cbn. by rewrite app_nil_r.
Qed.

Lemma known_root state workspace_id root roots :
  preparation_ok state →
  match pr_roots_by_workspace state !! workspace_id with
  | Some existing => if bool_decide (existing = root) then Ok (pr_roots_by_workspace state)
                     else Err (WorkspaceIdentityMismatch workspace_id)
  | None => Ok (<[workspace_id := root]> (pr_roots_by_workspace state))
  end = Ok roots ↔
  (∀ x, x ∈ pr_prepared state → pt_workspace_id x = workspace_id → pt_workspace_root x = root) ∧
  roots = <[workspace_id := root]> (pr_roots_by_workspace state).
Proof.
  intros [_ Hroots _ _]. destruct (pr_roots_by_workspace state !! workspace_id) as [existing|] eqn:E.
  - case_bool_decide as Hb; [subst existing|].
    + rewrite insert_id by done. split; [|naive_solver]. intros [= <-]. split; [|done].
      intros x Hx Hw. enough (Some (pt_workspace_root x) = Some root) by congruence.
      rewrite <- E. symmetry. apply Hroots. eauto.
    + split; [done|]. intros [Hall _]. apply Hroots in E as (t & Ht & Hw & Hr).
      by rewrite (Hall t Ht Hw) in Hr.
  - split; [|naive_solver]. intros [= <-]. split; [|done]. intros x Hx Hw.
    assert (pr_roots_by_workspace state !! workspace_id = Some (pt_workspace_root x)) as E'
      by (apply Hroots; eauto).
    congruence.
Qed.

Lemma known_owner state workspace_id root owners :
  preparation_ok state →
  match pr_owners_by_root state !! root with
  | Some existing => if existing =? workspace_id then Ok (pr_owners_by_root state)
                     else Err (WorkspaceRootAlias existing workspace_id)
  | None => Ok (<[root := workspace_id]> (pr_owners_by_root state))
  end = Ok owners ↔
  (∀ x, x ∈ pr_prepared state → pt_workspace_root x = root → pt_workspace_id x = workspace_id) ∧
  owners = <[root := workspace_id]> (pr_owners_by_root state).
Proof.
  intros [_ _ Howners _]. destruct (pr_owners_by_root state !! root) as [existing|] eqn:E.
  - destruct (N.eqb_spec existing workspace_id) as [->|Hb].
    + rewrite insert_id by done. split; [|naive_solver]. intros [= <-]. split; [|done].
      intros x Hx Hr. enough (Some (pt_workspace_id x) = Some workspace_id) by congruence.
      rewrite <- E. symmetry. apply Howners. eauto.
    + split; [done|]. intros [Hall _]. apply Howners in E as (t & Ht & Hr & Hw).
      by rewrite (Hall t Ht Hr) in Hw.
  - split; [|naive_solver]. intros [= <-]. split; [|done]. intros x Hx Hr.
    assert (pr_owners_by_root state !! root = Some (pt_workspace_id x)) as E'
      by (apply Howners; eauto).
    by pose proof (eq_trans (eq_sym E) E').
Qed.

(** A round succeeds exactly when the task is valid and distinct from the earlier ones. *)
Lemma prepare_task_Ok index state task state' :
  preparation_ok state →
  prepare_task limits confinement files index state task = Ok state' ↔
  ∃ t, lone_task index task = Some t ∧ (∀ x, x ∈ pr_prepared state → distinct_tasks x t) ∧
    state' = extended state t.
Proof.
  intros Hok. pose proof (po_ids _ Hok) as Hids. unfold prepare_task, lone_task.
  rewrite ensure_Ok, bool_decide_eq_false, Hids. cbn zeta.
  rewrite ensure_Ok, negb_false_iff. rewrite ensure_Ok, orb_false_iff.
  rewrite ensure_Ok, negb_false_iff. rewrite rbind_Ok. setoid_rewrite ok_or_Ok.
  destruct (canonical_directory _ (ct_workspace_root task)) as [root|]; [|naive_solver].
  destruct (canonical_directory _ (ct_scope_root task)) as [scope|].
  2: { split; [|naive_solver]. intros (_ & _ & _ & _ & r & _ & H). by inv_result H. }
  split.
  - intros (Hnew & Hp & [Ht1 Ht2] & Hc & r & [= <-] & H).
    apply rbind_Ok in H as (roots & Hroots & H). apply known_root in Hroots as [Hr ->]; [|done].
    apply rbind_Ok in H as (owners & Howners & H). apply known_owner in Howners as [Ho ->]; [|done].
    apply rbind_Ok in H as (s & [= <-] & H). apply ensure_Ok in H as [Hb [= <-]].
    rewrite Hp, Ht1, Hc. apply N.ltb_ge, N.leb_le in Ht2. apply negb_false_iff in Hb.
    rewrite Ht2, Hb. cbn. eexists. split_and!; [done| |done].
    intros x Hx. split; cbn; [|split; auto].
    intros He. apply Hnew. rewrite <- He. by apply list_elem_of_fmap_2.
  - intros (t & Ht & Hd & ->). destruct (_ && _) eqn:Hb in Ht; [|done]. injection Ht as <-.
    apply andb_prop in Hb as [Hb Hbelow]. apply andb_prop in Hb as [Hb Hc].
    apply andb_prop in Hb as [Hb Ht2]. apply andb_prop in Hb as [Hp Ht1].
    split_and!; [|done|by apply negb_true_iff|by apply N.ltb_ge, N.leb_le|done|].
    { intros (x & He & Hx)%list_elem_of_fmap. by destruct (Hd x Hx) as [Hne _]. }
    exists root. split; [done|]. eapply rbind_Ok. eexists. split.
    { apply known_root; [done|]. split; [|reflexivity]. intros x Hx. apply (Hd x Hx). }
    eapply rbind_Ok. eexists. split.
    { apply known_owner; [done|]. split; [|reflexivity]. intros x Hx. apply (Hd x Hx). }
    cbn [ok_or rbind]. by rewrite Hbelow.
Qed.

(** The loop from any state. *)
Lemma prepare_loop tasks : ∀ index state state',
  preparation_ok state →
  try_fold_i (prepare_task limits confinement files) index state tasks = Ok state' ↔
  ∃ ts, lone_tasks index tasks = Some ts ∧ pairwise distinct_tasks ts ∧
    (∀ x y, x ∈ pr_prepared state → y ∈ ts → distinct_tasks x y) ∧
    state' = foldl extended state ts.
Proof.
  induction tasks as [|task tasks IH]; intros index state state' Hok; cbn.
  - split; [intros [= <-]; exists []|by intros (ts & [= <-] & _ & _ & ->)].
    split_and!; [done..| |done]. by intros x y _ ?%elem_of_nil.
  - rewrite rbind_Ok. setoid_rewrite prepare_task_Ok; [|done]. split.
    + intros (s1 & (t & Ht & Hd & ->) & Hl).
      apply IH in Hl as (ts & Hts & Hp & Hc & ->); [|by apply extended_ok].
      cbn in Hc. setoid_rewrite elem_of_app in Hc. setoid_rewrite list_elem_of_singleton in Hc.
      exists (t :: ts). rewrite Ht, Hts. split; [done|]. split; [|split; [|done]].
      * split; [apply Forall_forall; auto|done].
      * intros x y Hx [->|Hy]%elem_of_cons; auto.
    + intros (ts' & Hts & Hp & Hc & ->). destruct (lone_task index task) as [t|]; [|done].
      destruct (lone_tasks (S index) tasks) as [ts|] eqn:Hl; [|done]. injection Hts as <-.
      destruct Hp as [Hp1 Hp2]. rewrite Forall_forall in Hp1.
      setoid_rewrite elem_of_cons in Hc.
      assert (∀ x, x ∈ pr_prepared state → distinct_tasks x t) as Hd by auto.
      exists (extended state t). split; [eauto|]. apply IH; [by apply extended_ok|].
      exists ts. split_and!; [done..| |done]. cbn. intros x y [Hx| ->%list_elem_of_singleton]%elem_of_app; auto.
Qed.

Lemma extended_all_ok ts : ∀ state,
  preparation_ok state → pairwise distinct_tasks ts →
  (∀ x y, x ∈ pr_prepared state → y ∈ ts → distinct_tasks x y) →
  preparation_ok (foldl extended state ts) ∧
  pr_prepared (foldl extended state ts) = pr_prepared state ++ ts.
Proof.
  induction ts as [|t ts IH]; intros state Hok Hp Hc; cbn; [by rewrite app_nil_r|].
  destruct Hp as [Hp1 Hp2]. rewrite Forall_forall in Hp1. setoid_rewrite elem_of_cons in Hc.
  destruct (IH (extended state t)) as [Hok' Heq]; [|done| |].
  - apply extended_ok; auto.
  - cbn. intros x y [Hx| ->%list_elem_of_singleton]%elem_of_app; auto.
  - split; [done|]. rewrite Heq. cbn. by rewrite <- app_assoc.
Qed.

(** ** The two checks after the loop *)

Lemma roots_disjoint state :
  preparation_ok state →
  some_overlap (map_to_list (pr_owners_by_root state)).*1 = false ↔
  pairwise (λ a b, pt_workspace_root a ≠ pt_workspace_root b →
                   disjoint_paths (pt_workspace_root a) (pt_workspace_root b)) (pr_prepared state).
Proof.
  intros [_ _ Howners _]. rewrite some_overlap_spec.
  assert (∀ root, root ∈ (map_to_list (pr_owners_by_root state)).*1 ↔
                  ∃ t, t ∈ pr_prepared state ∧ pt_workspace_root t = root) as Hin.
  { intros root. rewrite list_elem_of_fmap. split.
    - intros ([r w] & -> & Hl%elem_of_map_to_list). apply Howners in Hl. naive_solver.
    - intros (t & Ht & Hr). exists (root, pt_workspace_id t). split; [done|].
      apply elem_of_map_to_list, Howners. eauto. }
  pose proof (NoDup_fst_map_to_list (pr_owners_by_root state)) as Hnd.
  revert Hin Hnd. generalize (map_to_list (pr_owners_by_root state)).*1 as roots. intros roots Hin Hnd.
  rewrite <- (pairwise_fmap pt_workspace_root (λ a b, a ≠ b → disjoint_paths a b)).
  assert (∀ l : list CanonicalPath, pairwise (λ a b, a ≠ b → disjoint_paths a b) l ↔
            ∀ a b, a ∈ l → b ∈ l → a ≠ b → disjoint_paths a b) as Hall.
  { intros l. split.
    - intros Hp a b Ha Hb Hne.
      destruct (pairwise_elem (λ a b, a ≠ b → disjoint_paths a b) l a b) as [?|?]; auto; [|done].
      intros x y Hxy Hn. apply disjoint_paths_sym. auto.
    - induction l as [|a l IH]; cbn; [done|]. intros H. setoid_rewrite elem_of_cons in H.
      split; [|apply IH; auto]. apply Forall_forall. auto. }
  assert (pairwise disjoint_paths roots ↔ pairwise (λ a b, a ≠ b → disjoint_paths a b) roots) as ->.
  { split; [apply pairwise_impl; auto|]. rewrite <- (list_fmap_id roots) in Hnd.
    apply pairwise_NoDup in Hnd. clear Hin. induction roots as [|a roots IH]; cbn in *; [done|].
    destruct Hnd as [Hn Hnd]. intros [H1 H2]. split; [|auto]. rewrite Forall_forall in *. auto. }
  rewrite !Hall. setoid_rewrite list_elem_of_fmap. setoid_rewrite Hin. naive_solver.
Qed.

Lemma pairwise_filter_key {A B} `{EqDecision B} (key : A → B) (R : A → A → Prop) l :
  (∀ b, pairwise R (filter (λ x, key x = b) l)) ↔ pairwise (λ x y, key x = key y → R x y) l.
Proof.
  induction l as [|a l IH]; cbn -[filter]; [done|]. rewrite <- IH, Forall_forall. split.
  - intros H. split.
    + intros x Hx Hk. specialize (H (key a)). rewrite filter_cons_True in H by done.
      destruct H as [H _]. rewrite Forall_forall in H. apply H, list_elem_of_filter. auto.
    + intros b. specialize (H b). rewrite filter_cons in H. by case_decide; [destruct H|].
  - intros [Ha H] b. rewrite filter_cons. case_decide as Hb; [|done]. split; [|done].
    apply Forall_forall. intros x [Hk Hx]%list_elem_of_filter. apply Ha; congruence.
Qed.

Lemma scopes_disjoint state :
  preparation_ok state →
  existsb (λ entry, some_overlap entry.2) (map_to_list (pr_scopes_by_phase state)) = false ↔
  pairwise (λ a b, pt_phase a = pt_phase b →
                   disjoint_paths (pt_scope_root a) (pt_scope_root b)) (pr_prepared state).
Proof.
  intros [_ _ _ Hscopes]. rewrite <- pairwise_filter_key.
  setoid_rewrite <- (pairwise_fmap pt_scope_root disjoint_paths). setoid_rewrite <- Hscopes.
  setoid_rewrite <- some_overlap_spec. rewrite <- not_true_iff_false, existsb_spec. split.
  - intros H phase. destruct (_ !! phase) as [scopes|] eqn:E; [|done]. apply not_true_iff_false.
    intros Ho. apply H. exists (phase, scopes). split; [by apply elem_of_map_to_list|done].
  - intros H ([phase scopes] & Hin%elem_of_map_to_list & Ho). specialize (H phase).
    rewrite Hin in H. cbn in *. congruence.
Qed.

(** The tasks of an accepted plan have different identifiers. *)
Lemma prepare_NoDup tasks prepared :
  prepare limits confinement files tasks = Ok prepared → NoDup (pt_task_id <$> prepared).
Proof.
  unfold prepare. rewrite ensure_Ok, ensure_Ok, rbind_Ok.
  intros (_ & _ & state & Hl & H). apply prepare_loop in Hl as (ts & _ & Hp & _ & ->);
    [|apply no_preparation_ok].
  apply ensure_Ok in H as [_ H]. apply ensure_Ok in H as [_ [= <-]].
  destruct (extended_all_ok ts no_preparation no_preparation_ok Hp) as [_ ->];
    [by intros x y ?%elem_of_nil|].
  apply pairwise_NoDup. eapply pairwise_impl; [|exact Hp]. intros x y Hxy. apply Hxy.
Qed.

(** An accepted task is for an agent that keeps to its scope, inside its workspace. *)
Definition confined (t : PreparedTask) : Prop :=
  confinement (pt_provider t) = WorkspaceWriteIsolated ∧
  path_below (pt_workspace_root t) (pt_scope_root t) = true.

Lemma lone_tasks_confined tasks : ∀ index ts,
  lone_tasks index tasks = Some ts → ∀ t, t ∈ ts → confined t.
Proof.
  induction tasks as [|task tasks IH]; intros index ts; cbn.
  { intros [= <-] t ?%elem_of_nil. done. }
  destruct (lone_task index task) as [t|] eqn:Ht; [|done].
  destruct (lone_tasks (S index) tasks) as [ts'|] eqn:Hl; [|done]. intros [= <-] u.
  intros [->|Hu]%elem_of_cons; [|by eapply IH]. unfold lone_task in Ht.
  destruct (canonical_directory _ _); [|done]. destruct (canonical_directory _ _); [|done].
  destruct (_ && _) eqn:Hb; [|done]. injection Ht as <-.
  apply andb_prop in Hb as [[_ Hc]%andb_prop Hbelow]. apply bool_decide_eq_true_1 in Hc. done.
Qed.

Lemma prepare_confined tasks prepared :
  prepare limits confinement files tasks = Ok prepared → ∀ t, t ∈ prepared → confined t.
Proof.
  unfold prepare. rewrite ensure_Ok, ensure_Ok, rbind_Ok.
  intros (_ & _ & state & Hl & H). apply prepare_loop in Hl as (ts & Hts & Hp & _ & ->);
    [|apply no_preparation_ok].
  apply ensure_Ok in H as [_ H]. apply ensure_Ok in H as [_ [= <-]].
  destruct (extended_all_ok ts no_preparation no_preparation_ok Hp) as [_ ->];
    [by intros x y ?%elem_of_nil|]. by eapply lone_tasks_confined.
Qed.

(** A plan is accepted exactly when it has between one task and the limit, every task is valid by
    itself (its text, timeout, provider and directories), and every two are compatible: different
    identifiers, one root for each workspace and one workspace for each root, no workspace inside
    another, and no scope of a phase inside another of the same phase.  The accepted tasks are
    then the plan's, in its order. *)
Theorem prepare_decides tasks prepared :
  prepare limits confinement files tasks = Ok prepared ↔
  (1 ≤ length tasks ≤ maximum_tasks_per_run limits)%nat ∧
  lone_tasks 0 tasks = Some prepared ∧ pairwise compatible_tasks prepared.
Proof.
  unfold prepare. rewrite ensure_Ok, bool_decide_eq_false, ensure_Ok, Nat.ltb_ge, rbind_Ok.
  setoid_rewrite prepare_loop; [|apply no_preparation_ok]. split.
  - intros (Hne & Hmax & state & (ts & Hts & Hp & _ & ->) & H).
    apply ensure_Ok in H as [Hroots H]. apply ensure_Ok in H as [Hscopes [= <-]].
    destruct (extended_all_ok ts no_preparation no_preparation_ok Hp) as [Hok Heq];
      [by intros x y ?%elem_of_nil|]. cbn in Heq.
    apply roots_disjoint in Hroots; [|done]. apply scopes_disjoint in Hscopes; [|done].
    rewrite Heq in *. split_and!; [lia|lia|done|]. clear - Hp Hroots Hscopes.
    induction ts as [|t ts IH]; [done|].
    destruct Hp as [Hp1 Hp], Hroots as [Hr1 Hroots], Hscopes as [Hs1 Hscopes]. split; [|auto].
    rewrite Forall_forall in Hp1, Hr1, Hs1. apply Forall_forall. intros x Hx.
    split; [by apply Hp1|]. split; [by apply Hr1|by apply Hs1].
  - intros ([Hmin Hmax] & Hts & Hc). split; [lia|]. split; [done|].
    assert (pairwise distinct_tasks prepared) as Hp
      by (eapply pairwise_impl; [|exact Hc]; intros x y H; apply H).
    exists (foldl extended no_preparation prepared). split.
    { exists prepared. split_and!; [done..| |done]. by intros x y ?%elem_of_nil. }
    destruct (extended_all_ok prepared no_preparation no_preparation_ok Hp) as [Hok Heq];
      [by intros x y ?%elem_of_nil|]. cbn in Heq.
    apply ensure_Ok. split.
    { apply roots_disjoint; [done|]. rewrite Heq. eapply pairwise_impl; [|exact Hc].
      intros x y H; apply H. }
    apply ensure_Ok. split; [|by rewrite Heq].
    apply scopes_disjoint; [done|]. rewrite Heq. eapply pairwise_impl; [|exact Hc].
    intros x y H; apply H.
Qed.
End prepare.

(** ** Dependencies *)

(** The tasks of a set can be ranked so that parents in the set come first. *)
Definition acyclic (dependencies : Dependencies) (tasks : gset str) : Prop :=
  ∃ rank : str → nat, ∀ task parent,
    task ∈ tasks → parent ∈ parents_of dependencies task → parent ∈ tasks →
    (rank parent < rank task)%nat.

Definition dependency_ok (phases : gmap str N) (task : str) (parents : list str) : Prop :=
  ∃ phase, phases !! task = Some phase ∧ NoDup parents ∧
    ∀ parent, parent ∈ parents → ∃ q, phases !! parent = Some q ∧ q ≤ phase.

Lemma check_parent_spec phases phase seen parents :
  match try_fold (check_parent phases phase) seen parents with
  | Ok _ => NoDup parents ∧
      (∀ parent, parent ∈ parents → (parent ∉ seen) ∧ ∃ q, phases !! parent = Some q ∧ q ≤ phase)
  | Err UnknownDependency => ∃ parent, parent ∈ parents ∧ phases !! parent = None
  | Err DuplicateDependency =>
      ¬ NoDup parents ∨ (∃ parent, parent ∈ parents ∧ parent ∈ seen)
  | Err DependencyPhaseConflict =>
      ∃ parent q, parent ∈ parents ∧ phases !! parent = Some q ∧ phase < q
  | Err _ => False
  end.
Proof.
  revert seen. induction parents as [|p parents IH]; intros seen; cbn.
  { split; [constructor|]. by intros parent ?%elem_of_nil. }
  unfold check_parent at 1.
  destruct (phases !! p) as [q|] eqn:Hq; cbn; [|exists p; split; [left|done]].
  case_bool_decide as Hs; cbn; [right; exists p; split; [left|done]|].
  destruct (N.ltb_spec phase q) as [Hlt|Hle]; cbn; [exists p, q; split; [left|done]|].
  specialize (IH ({[p]} ∪ seen)). destruct (try_fold _ _ parents) as [s'|e].
  - destruct IH as [Hnd Hall]. rewrite NoDup_cons. split; [split; [|done]|].
    + intros Hin. destruct (Hall _ Hin) as [Hn _]. set_solver.
    + intros parent [->|Hin]%elem_of_cons; [by eauto|]. destruct (Hall _ Hin) as [Hn Hp]. set_solver.
  - destruct e; try done; setoid_rewrite elem_of_cons.
    + naive_solver.
    + destruct IH as [Hn|(parent & Hin & Hs')].
      * left. rewrite NoDup_cons. naive_solver.
      * apply elem_of_union in Hs' as [->%elem_of_singleton|Hs']; [|right; eauto].
        left. rewrite NoDup_cons. naive_solver.
    + naive_solver.
Qed.

Lemma check_all_spec phases entries :
  match try_fold (check_parents phases) () entries with
  | Ok _ => ∀ task parents, (task, parents) ∈ entries → dependency_ok phases task parents
  | Err UnknownDependency => ∃ task parents, (task, parents) ∈ entries ∧
      (phases !! task = None ∨ (∃ parent, parent ∈ parents ∧ phases !! parent = None))
  | Err DuplicateDependency => ∃ task parents, (task, parents) ∈ entries ∧ ¬ NoDup parents
  | Err DependencyPhaseConflict =>
      ∃ task parents parent p q, (task, parents) ∈ entries ∧ parent ∈ parents ∧
        phases !! task = Some p ∧ phases !! parent = Some q ∧ p < q
  | Err _ => False
  end.
Proof.
  induction entries as [|[task parents] entries IH]; cbn [try_fold].
  { by intros task parents ?%elem_of_nil. }
  unfold check_parents at 1. cbn [fst snd].
  destruct (phases !! task) as [phase|] eqn:Hphase; cbn; [|by exists task, parents; split; [left|left]].
  pose proof (check_parent_spec phases phase ∅ parents) as Hp.
  destruct (try_fold (check_parent phases phase) ∅ parents) as [s|e]; cbn.
  - destruct Hp as [Hnd Hp]. destruct (try_fold _ _ entries) as [[]|[]]; try done.
    all: try (setoid_rewrite elem_of_cons; naive_solver).
    intros t ps [[= -> ->]|Hin]%elem_of_cons; [|auto]. exists phase. split_and!; [done..|].
    intros parent Hin. by destruct (Hp _ Hin) as [_ ?].
  - destruct e; try done; setoid_rewrite elem_of_cons; [naive_solver| |naive_solver].
    destruct Hp as [Hn|(parent & _ & []%not_elem_of_empty)]. eauto.
Qed.

Lemma acyclic_mono (dependencies : Dependencies) (X Y : gset str) : Y ⊆ X → acyclic dependencies X → acyclic dependencies Y.
Proof. intros HXY (rank & Hr). exists rank. set_solver. Qed.

(** A finite set that is not empty has an element of least rank. *)
Lemma least_rank (rank : str → nat) (X : gset str) :
  X ≠ ∅ → ∃ x, x ∈ X ∧ ∀ y, y ∈ X → (rank x ≤ rank y)%nat.
Proof.
  induction X as [|x X Hx IH] using set_ind_L; [done|]. intros _.
  destruct (decide (X = ∅)) as [->|Hne].
  - exists x. split; [set_solver|]. intros y Hy. assert (y = x) as -> by set_solver. lia.
  - destruct (IH Hne) as (z & Hz & Hleast).
    destruct (decide (rank x ≤ rank z)%nat) as [Hle|Hgt].
    + exists x. split; [set_solver|]. intros y [->%elem_of_singleton|Hy]%elem_of_union; [lia|].
      specialize (Hleast _ Hy). lia.
    + exists z. split; [set_solver|]. intros y [->%elem_of_singleton|Hy]%elem_of_union; [lia|auto].
Qed.

(** In an acyclic set some task has no parent in the set. *)
Lemma acyclic_ready (dependencies : Dependencies) (X : gset str) :
  acyclic dependencies X → X ≠ ∅ →
  ∃ task, task ∈ X ∧ ∀ parent, parent ∈ parents_of dependencies task → parent ∉ X.
Proof.
  intros (rank & Hr) Hne. destruct (least_rank rank X Hne) as (task & Ht & Hleast).
  exists task. split; [done|]. intros parent Hp Hin.
  specialize (Hr _ _ Ht Hp Hin). specialize (Hleast _ Hin). lia.
Qed.

Lemma resolve_remaining_spec (dependencies : Dependencies) fuel : ∀ remaining : gset str,
  (size remaining < fuel)%nat →
  match resolve_remaining fuel dependencies remaining with
  | Ok _ => acyclic dependencies remaining
  | Err e => e = DependencyCycle ∧ ¬ acyclic dependencies remaining
  end.
Proof.
  induction fuel as [|fuel IH]; intros remaining Hsize; [lia|]. cbn.
  case_bool_decide as Hempty; [subst; exists (λ _, 0%nat); set_solver|].
  match goal with |- context [filter ?P remaining] => set (ready := filter P remaining) end.
  assert (∀ task, task ∈ ready ↔ task ∈ remaining ∧
            ∀ parent, parent ∈ parents_of dependencies task → parent ∉ remaining) as Hready.
  { intros task. unfold ready. rewrite elem_of_filter, forallb_spec.
    setoid_rewrite negb_true_iff. setoid_rewrite bool_decide_eq_false. tauto. }
  case_bool_decide as Hr.
  { split; [done|]. intros Ha. destruct (acyclic_ready _ _ Ha Hempty) as (task & Ht & Hp).
    assert (task ∈ ready) as Hin by (apply Hready; auto). set_solver. }
  assert (remaining ∖ ready ⊂ remaining) as Hsub.
  { apply set_choose_L in Hr as (task & Ht). apply Hready in Ht as Ht'. set_solver. }
  specialize (IH (remaining ∖ ready)). apply subset_size in Hsub as Hlt.
  destruct (resolve_remaining fuel dependencies (remaining ∖ ready)) as [[]|e].
  - destruct IH as (rank & Hrank); [lia|].
    exists (λ task, if bool_decide (task ∈ ready) then 0%nat else S (rank task)).
    intros task parent Ht Hp Hin. destruct (decide (task ∈ ready)) as [Htr|Htr].
    { apply Hready in Htr as [_ Hno]. by destruct (Hno _ Hp). }
    rewrite (bool_decide_false _ Htr). case_bool_decide as Hpr; [lia|].
    enough (rank parent < rank task)%nat by lia. apply Hrank; set_solver.
  - destruct IH as [-> Hno]; [lia|]. split; [done|]. intros Ha. apply Hno.
    eapply acyclic_mono; [|exact Ha]. set_solver.
Qed.

Lemma check_all_dependencies (phases : gmap str N) (dependencies : Dependencies) r :
  try_fold (check_parents phases) () (sort_by (cmp_on fst str_cmp) (map_to_list dependencies)) = Ok r →
  ∀ task parents, dependencies !! task = Some parents → dependency_ok phases task parents.
Proof.
  intros Hr task parents Hd. pose proof (check_all_spec phases
    (sort_by (cmp_on fst str_cmp) (map_to_list dependencies))) as Hall. rewrite Hr in Hall.
  apply Hall. by rewrite elem_of_sort_by, elem_of_map_to_list.
Qed.

Lemma validated (tasks : list PreparedTask) (dependencies : Dependencies) r :
  validate_dependencies tasks dependencies = Ok r →
  (∀ task parents, dependencies !! task = Some parents →
     dependency_ok (task_phases tasks) task parents) ∧
  acyclic dependencies (dom (task_phases tasks)).
Proof.
  unfold validate_dependencies. rewrite rbind_Ok. intros (u & Hc & Hr). split.
  - by eapply check_all_dependencies.
  - pose proof (resolve_remaining_spec dependencies (S (size (dom (task_phases tasks))))
                  (dom (task_phases tasks)) (Nat.lt_succ_diag_r _)) as Hs. by rewrite Hr in Hs.
Qed.

(** Dependencies are accepted exactly when every task named is in the plan, no task names a parent
    twice or of a later phase, and there is no cycle; each error is reported only when it is
    there, a cycle only when nothing else is wrong, and the loop that looks for it always ends. *)
Theorem dependencies_decide tasks dependencies :
  let phases := task_phases tasks in
  match validate_dependencies tasks dependencies with
  | Ok _ =>
      (∀ task parents, dependencies !! task = Some parents → dependency_ok phases task parents) ∧
      acyclic dependencies (dom phases)
  | Err UnknownDependency => ∃ task parents, dependencies !! task = Some parents ∧
      (phases !! task = None ∨ (∃ parent, parent ∈ parents ∧ phases !! parent = None))
  | Err DuplicateDependency => ∃ task parents, dependencies !! task = Some parents ∧ ¬ NoDup parents
  | Err DependencyPhaseConflict =>
      ∃ task parents parent p q, dependencies !! task = Some parents ∧ parent ∈ parents ∧
        phases !! task = Some p ∧ phases !! parent = Some q ∧ p < q
  | Err DependencyCycle =>
      (∀ task parents, dependencies !! task = Some parents → dependency_ok phases task parents) ∧
      ¬ acyclic dependencies (dom phases)
  | Err _ => False
  end.
Proof.
  cbn zeta. unfold validate_dependencies.
  pose proof (check_all_spec (task_phases tasks)
                (sort_by (cmp_on fst str_cmp) (map_to_list dependencies))) as Hall.
  assert (∀ task parents,
    (task, parents) ∈ sort_by (cmp_on fst str_cmp) (map_to_list dependencies) ↔
    dependencies !! task = Some parents) as Hin.
  { intros task parents. by rewrite elem_of_sort_by, elem_of_map_to_list. }
  destruct (try_fold _ _ _) as [[]|e]; cbn [rbind]; [|by destruct e; try done; setoid_rewrite Hin in Hall].
  setoid_rewrite Hin in Hall.
  pose proof (resolve_remaining_spec dependencies (S (size (dom (task_phases tasks))))
                (dom (task_phases tasks)) (Nat.lt_succ_diag_r _)) as Hr.
  destruct (resolve_remaining _ _ _) as [r|e]; [done|].
  by destruct Hr as [-> Hno].
Qed.
