(* ===== verification/CollaborationGate.v ===== *)
(** * Collaborations: the gate

    What a step of a worker can do, and the invariant of the gate the runs share: its counter is
    the number of permits that workers of all runs hold, its set their scopes, and no two of
    these overlap. *)

From S2P Require Import Prelude Order Text StoreBase Sessions Collaboration CollaborationRun.
From S2P Require Import CollaborationPlans.

Local Open Scope N_scope.

(** ** Replacing an element of a list or a map *)

Lemma insert_swap {A} (l : list A) i x :
  l !! i = Some x → ∃ rest, l ≡ₚ x :: rest ∧ ∀ y, <[i:=y]> l ≡ₚ y :: rest.
Proof.
  intros Hi. exists (take i l ++ drop (S i) l). split.
  - rewrite <- (take_drop_middle l i x Hi) at 1. by rewrite <- Permutation_middle.
  - intros y. apply lookup_lt_Some in Hi as Hlt. rewrite insert_take_drop by done.
    by rewrite <- Permutation_middle.
Qed.

Lemma map_bind_insert {A B} (f : A → list B) (m : gmap N A) c x :
  m !! c = Some x →
  ∃ rest, (map_to_list m ≫= λ e, f e.2) ≡ₚ f x ++ rest ∧
    ∀ y, (map_to_list (<[c:=y]> m) ≫= λ e, f e.2) ≡ₚ f y ++ rest.
Proof.
  intros Hc. exists (map_to_list (delete c m) ≫= λ e, f e.2).
  assert (∀ y, (map_to_list (<[c:=y]> (delete c m)) ≫= λ e, f e.2)
            ≡ₚ f y ++ (map_to_list (delete c m) ≫= λ e, f e.2)) as H.
  { intros y. rewrite map_to_list_insert by apply lookup_delete_eq. done. }
  split.
  - rewrite <- H. by rewrite insert_delete_id.
  - intros y. rewrite <- H. by rewrite insert_delete_eq.
Qed.

Lemma map_bind_fresh {A B} (f : A → list B) (m : gmap N A) c y :
  m !! c = None →
  (map_to_list (<[c:=y]> m) ≫= λ e, f e.2) ≡ₚ f y ++ (map_to_list m ≫= λ e, f e.2).
Proof. intros Hc. by rewrite map_to_list_insert. Qed.

(** ** What workers hold *)

Definition worker_task (worker : Worker) : option PreparedTask :=
  match worker with
  | Fetching | Exited => None
  | Waiting task _ _ | Permitted task _ | Refused task _ _ _ | Working task _ _ _
  | Returned task _ _ _ _ | Judging task _ _ _ _ | Reporting task _ => Some task
  end.

Definition permit (worker : Worker) : option CanonicalPath :=
  match worker with
  | Permitted task _ | Refused task _ _ _ | Working task _ _ _ | Returned task _ _ _ _ =>
      Some (pt_scope_root task)
  | _ => None
  end.

Definition permits (call : Call) : list CanonicalPath :=
  match call with Active run => omap permit (ru_workers run) | _ => [] end.

(** The scopes of all permits that are out. *)
Definition holders (calls : gmap N Call) : list CanonicalPath :=
  map_to_list calls ≫= λ entry, permits entry.2.

Lemma omap_app_cons {A B} (f : A → option B) x l :
  omap f (x :: l) = option_list (f x) ++ omap f l.
Proof. cbn. by destruct (f x). Qed.

Lemma worker_holders calls c run i worker :
  calls !! c = Some (Active run) → ru_workers run !! i = Some worker →
  ∃ rest, holders calls ≡ₚ option_list (permit worker) ++ rest ∧
    ∀ worker' next results,
      holders (<[c := Active (with_workers run next (<[i:=worker']> (ru_workers run)) results)]> calls)
      ≡ₚ option_list (permit worker') ++ rest.
Proof.
  intros Hc Hi. destruct (map_bind_insert permits calls c _ Hc) as (rest & Hh & Hins).
  destruct (insert_swap _ _ _ Hi) as (others & Hw & Hw').
  exists (omap permit others ++ rest). split.
  - unfold holders. rewrite Hh. cbn. rewrite Hw, omap_app_cons. by rewrite app_assoc.
  - intros worker' next results. unfold holders. rewrite Hins. cbn.
    rewrite (Hw' worker'), omap_app_cons. by rewrite app_assoc.
Qed.

(** ** The gate *)

Record gate_holds (maximum : nat) (gate : ExecutionGate) (scopes : list CanonicalPath) : Prop := {
  gh_active : eg_active gate = length scopes;
  gh_roots : eg_roots gate = list_to_set scopes;
  gh_disjoint : pairwise disjoint_paths scopes;
  gh_bound : (length scopes ≤ maximum)%nat
}.

Lemma gate_holds_perm maximum gate l k :
  l ≡ₚ k → gate_holds maximum gate l → gate_holds maximum gate k.
Proof.
  intros Hp [Ha Hr Hd Hb]. split.
  - by rewrite <- Hp.
  - rewrite Hr. apply leibniz_equiv. by rewrite Hp.
  - eapply pairwise_perm; [exact disjoint_paths_sym|exact Hp|done].
  - by rewrite <- Hp.
Qed.

Lemma take_permit_holds maximum gate root scopes :
  gate_holds maximum gate scopes → gate_open maximum gate root = true →
  gate_holds maximum (take_permit gate root) (root :: scopes).
Proof.
  intros [Ha Hr Hd Hb] [Hlt Hno]%andb_prop. apply Nat.ltb_lt in Hlt. split; cbn.
  - by rewrite Ha.
  - by rewrite Hr.
  - split; [|done]. apply Forall_forall. intros path Hin.
    apply disjoint_paths_sym. unfold disjoint_paths. apply not_true_iff_false. intros Ho.
    apply negb_true_iff, not_true_iff_false in Hno. apply Hno, existsb_spec. exists path.
    split; [|done]. apply elem_of_elements. rewrite Hr. by apply elem_of_list_to_set.
  - lia.
Qed.

Lemma drop_permit_holds maximum gate root scopes :
  gate_holds maximum gate (root :: scopes) → gate_holds maximum (drop_permit gate root) scopes.
Proof.
  intros [Ha Hr [Hd1 Hd] Hb]. cbn in *. split; cbn; [lia| |done|lia].
  rewrite Hr. assert (root ∉ scopes) as Hn.
  { intros Hin. rewrite Forall_forall in Hd1. by apply (disjoint_paths_ne _ _ (Hd1 _ Hin)). }
  apply leibniz_equiv. intros path.
  rewrite elem_of_difference, elem_of_union, elem_of_singleton, elem_of_list_to_set.
  naive_solver.
Qed.

(** ** The moves of a worker *)

(** The result is about the task. *)
Record result_of (task : PreparedTask) (r : CollaborationTaskResult) : Prop := {
  rf_id : cr_task_id r = pt_task_id task;
  rf_workspace : cr_workspace_id r = pt_workspace_id task;
  rf_provider : cr_provider r = pt_provider task;
  rf_phase : cr_phase r = pt_phase task
}.

Definition own_result (task : PreparedTask) (r : CollaborationTaskResult) : Prop :=
  result_of task r ∧ cr_state r ≠ TaskDependencyBlocked.

Section moves.
Context `{CollaborationLibraries}.
Context (limits : CollaborationLimits) (confinement : AgentProvider → CollaborationConfinement).

(** From a worker to a worker, with the next index, the results and the gate after the move. *)
Inductive worker_moves (co : Coordinator) (run : Run) :
    Worker → Worker → nat → list CollaborationTaskResult → ExecutionGate → Prop :=
| move_exit :
    ru_runnable run !! ru_next_task run = None →
    worker_moves co run Fetching Exited (S (ru_next_task run)) (ru_results run) (co_gate co)
| move_fetch task queued deadline :
    ru_runnable run !! ru_next_task run = Some task →
    worker_moves co run Fetching (Waiting task queued deadline) (S (ru_next_task run))
      (ru_results run) (co_gate co)
| move_wait task queued deadline :
    worker_moves co run (Waiting task queued deadline) (Waiting task queued deadline)
      (ru_next_task run) (ru_results run) (co_gate co)
| move_stop task queued deadline r :
    own_result task r →
    worker_moves co run (Waiting task queued deadline) (Reporting task r)
      (ru_next_task run) (ru_results run) (co_gate co)
| move_admit task queued deadline :
    gate_open (maximum_parallel_agents limits) (co_gate co) (pt_scope_root task) = true →
    worker_moves co run (Waiting task queued deadline) (Permitted task deadline)
      (ru_next_task run) (ru_results run) (take_permit (co_gate co) (pt_scope_root task))
| move_refuse task deadline reason started_at started :
    worker_moves co run (Permitted task deadline) (Refused task reason started_at started)
      (ru_next_task run) (ru_results run) (co_gate co)
| move_start task deadline started_at :
    task_cancelled (control_of co (ru_control run)) (pt_task_id task) = false →
    co_clock co < deadline →
    worker_moves co run (Permitted task deadline)
      (Working task started_at (co_clock co) deadline)
      (ru_next_task run) (ru_results run) (co_gate co)
| move_leave task reason started_at started r :
    own_result task r →
    worker_moves co run (Refused task reason started_at started) (Reporting task r)
      (ru_next_task run) (ru_results run) (drop_permit (co_gate co) (pt_scope_root task))
| move_return task outcome started_at started deadline :
    worker_moves co run (Working task started_at started deadline)
      (Returned task outcome started_at started deadline)
      (ru_next_task run) (ru_results run) (co_gate co)
| move_release task outcome started_at started deadline :
    worker_moves co run (Returned task outcome started_at started deadline)
      (Judging task outcome started_at started deadline)
      (ru_next_task run) (ru_results run) (drop_permit (co_gate co) (pt_scope_root task))
| move_judge task outcome started_at started deadline r :
    own_result task r →
    (task_cancelled (control_of co (ru_control run)) (pt_task_id task) = true →
     cr_state r = TaskCancelled) →
    worker_moves co run (Judging task outcome started_at started deadline) (Reporting task r)
      (ru_next_task run) (ru_results run) (co_gate co)
| move_report task r :
    worker_moves co run (Reporting task r) Fetching
      (ru_next_task run) (ru_results run ++ [r]) (co_gate co).

Lemma stopped_result_own task reason started_at started now now_ms :
  own_result task (stopped_result task reason started_at started now now_ms).
Proof. split; [done|]. by destruct reason. Qed.

Lemma outcome_result_own task cancelled late outcome started_at completed_at started duration now now_ms :
  own_result task (outcome_result limits task cancelled late outcome started_at completed_at
                     started duration now now_ms).
Proof.
  unfold outcome_result. destruct cancelled; [done|]. destruct late; [done|].
  destruct outcome as [[output|failure output|reason]|]; [| |apply stopped_result_own|done].
  - by destruct (_ <? _).
  - destruct (_ <? _); [done|]. split; [done|]. cbn. by case_bool_decide.
Qed.

(** Whether tasks are cancelled does not change when a token is made. *)
Lemma with_token_cancelled control task_id other :
  task_cancelled (with_token control task_id) other = task_cancelled control other.
Proof.
  unfold task_cancelled, with_token. cbn. f_equal.
  destruct (decide (task_id = other)) as [->|Hne]; [by rewrite lookup_insert_eq|].
  by rewrite lookup_insert_ne.
Qed.

Lemma control_of_insert co id control other :
  control_of (with_control co id control) other = if bool_decide (other = id) then control
                                                   else control_of co other.
Proof.
  unfold control_of. cbn. case_bool_decide as Hb; [subst; by rewrite lookup_insert_eq|].
  by rewrite lookup_insert_ne.
Qed.

Lemma worker_step_moves co call run i input co' :
  worker_step limits co call run i input = Some co' →
  ∃ worker worker' next results,
    ru_workers run !! i = Some worker ∧
    worker_moves co run worker worker' next results (co_gate co') ∧
    co_calls co' = <[call := Active (with_workers run next (<[i:=worker']> (ru_workers run)) results)]>
                     (co_calls co) ∧
    co_evidence co' = co_evidence co ∧ co_clock co ≤ co_clock co' ∧
    ∀ id task_id, task_cancelled (control_of co' id) task_id = task_cancelled (control_of co id) task_id.
Proof.
  unfold worker_step. destruct (ru_workers run !! i) as [worker|] eqn:Hi; [|done].
  assert (∀ (co'' : Coordinator) worker' next results,
    Some (with_call co'' call
            (Active (with_workers run next (<[i:=worker']> (ru_workers run)) results))) = Some co' →
    worker_moves co run worker worker' next results (co_gate co'') →
    co_calls co'' = co_calls co → co_evidence co'' = co_evidence co → co_clock co ≤ co_clock co'' →
    (∀ id task_id, task_cancelled (control_of co'' id) task_id
                   = task_cancelled (control_of co id) task_id) →
    ∃ worker0 worker' next results,
      Some worker = Some worker0 ∧
      worker_moves co run worker0 worker' next results (co_gate co') ∧
      co_calls co' = <[call := Active (with_workers run next (<[i:=worker']> (ru_workers run)) results)]>
                       (co_calls co) ∧
      co_evidence co' = co_evidence co ∧ co_clock co ≤ co_clock co' ∧
      ∀ id task_id, task_cancelled (control_of co' id) task_id
                    = task_cancelled (control_of co id) task_id) as Hset.
  { intros co'' worker' next results [= <-] Hm Hc He Ht Hcan. exists worker, worker', next, results.
    cbn. rewrite Hc. split_and!; done. }
  destruct worker as [|task queued deadline|task deadline|task reason started_at started
    |task started_at started deadline|task outcome started_at started deadline
    |task outcome started_at started deadline|task r|]; cbn [task_step].
  - destruct (ru_runnable run !! ru_next_task run) as [task|] eqn:Hn; intros Hs.
    + eapply Hset; [exact Hs|cbn; by constructor|done|done|cbn; lia|].
      intros id task_id. rewrite control_of_insert. case_bool_decide as Hb; [|done]. subst id.
      apply with_token_cancelled.
    + eapply Hset; [exact Hs|by constructor|done..].
  - unfold acquire, checkpoint. intros Hs. destruct (task_cancelled _ _).
    { eapply Hset; [exact Hs| |done..]. cbn. constructor. apply stopped_result_own. }
    destruct (_ <=? _).
    { eapply Hset; [exact Hs| |done..]. cbn. constructor. apply stopped_result_own. }
    destruct (gate_open _ _ _) eqn:Hg.
    { eapply Hset; [exact Hs| |done..]. cbn. by constructor. }
    destruct (_ <=? _); (eapply Hset; [exact Hs| |done|done|cbn; lia|done]);
      cbn; constructor; apply stopped_result_own.
  - unfold checkpoint. intros Hs. destruct (task_cancelled _ _) eqn:Hc.
    { eapply Hset; [exact Hs| |done..]. cbn. constructor. }
    destruct (N.leb_spec deadline (co_clock co)) as [Hle|Hlt].
    { eapply Hset; [exact Hs| |done..]. cbn. constructor. }
    eapply Hset; [exact Hs| |done..]. cbn. by constructor.
  - intros Hs. eapply Hset; [exact Hs| |done..]. cbn. constructor. apply stopped_result_own.
  - intros Hs. eapply Hset; [exact Hs| |done..]. cbn. constructor.
  - intros Hs. eapply Hset; [exact Hs| |done..]. cbn. constructor.
  - intros Hs. eapply Hset; [exact Hs| |done|done|cbn; lia|done]. cbn. constructor.
    + apply outcome_result_own.
    + intros ->. done.
  - intros Hs. eapply Hset; [exact Hs| |done..]. cbn. constructor.
  - done.
Qed.

(** ** The invariant of the gate *)

Definition gate_ok (co : Coordinator) : Prop :=
  gate_holds (maximum_parallel_agents limits) (co_gate co) (holders (co_calls co)).

Lemma joined_permits run : joined run = true → omap permit (ru_workers run) = [].
Proof.
  unfold joined. rewrite forallb_spec. induction (ru_workers run) as [|w ws IH]; [done|].
  intros Hall. rewrite omap_app_cons, IH; [|intros w' ?; apply Hall; by right].
  specialize (Hall w (list_elem_of_here _ _)). by destruct w.
Qed.

Lemma holders_same calls c run call :
  calls !! c = Some (Active run) → joined run = true → permits call = [] →
  holders (<[c := call]> calls) ≡ₚ holders calls.
Proof.
  intros Hc Hj Hp. destruct (map_bind_insert permits calls c _ Hc) as (rest & Hh & Hins).
  unfold holders. rewrite Hh, Hins, Hp. cbn. by rewrite (joined_permits _ Hj).
Qed.

Lemma replicate_permits n : omap permit (replicate n Fetching) = [].
Proof. by induction n. Qed.

Lemma worker_moves_holds co run worker worker' next results gate rest :
  worker_moves co run worker worker' next results gate →
  gate_holds (maximum_parallel_agents limits) (co_gate co) (option_list (permit worker) ++ rest) →
  gate_holds (maximum_parallel_agents limits) gate (option_list (permit worker') ++ rest).
Proof.
  intros Hm Hg. destruct Hm; cbn in *; try exact Hg.
  - by apply take_permit_holds.
  - by apply drop_permit_holds.
  - by apply drop_permit_holds.
Qed.

Lemma gate_step co event co' :
  gate_ok co → step limits confinement co event = Some co' → gate_ok co'.
Proof.
  unfold gate_ok. intros Hg. destruct event; cbn; intros Hs.
  - by injection Hs as <-.
  - by injection Hs as <-.
  - by injection Hs as <-.
  - destruct (co_calls co !! call) eqn:Hc; [done|]. injection Hs as <-. cbn.
    eapply gate_holds_perm; [|exact Hg]. unfold holders. rewrite map_bind_fresh by done.
    unfold execute. by destruct (rbind _ _).
  - unfold active_run in Hs. destruct (co_calls co !! call) as [[run| |]|] eqn:Hc; try done.
    destruct (next_phase run) as [run'|] eqn:Hn; [|done]. injection Hs as <-. cbn.
    unfold next_phase in Hn. destruct (ru_phases run); [done|].
    destruct (joined run && _) eqn:Hb; [|done]. injection Hn as <-. apply andb_prop in Hb as [Hj _].
    eapply gate_holds_perm; [|exact Hg]. symmetry. by apply (holders_same _ _ run).
  - unfold active_run in Hs. destruct (co_calls co !! call) as [[run| |]|] eqn:Hc; try done.
    destruct (next_wave limits now_ms run) as [run'|] eqn:Hn; [|done]. injection Hs as <-. cbn.
    unfold next_wave in Hn. destruct (joined run && _) eqn:Hb; [|done]. injection Hn as <-.
    apply andb_prop in Hb as [Hj _]. eapply gate_holds_perm; [|exact Hg]. symmetry.
    apply (holders_same _ _ run); [done..|]. apply replicate_permits.
  - unfold active_run in Hs. destruct (co_calls co !! call) as [[run| |]|] eqn:Hc; try done.
    apply worker_step_moves in Hs as (worker & worker' & next & results & Hi & Hm & -> & _).
    destruct (worker_holders _ _ _ _ _ Hc Hi) as (rest & Hh & Hins).
    eapply gate_holds_perm; [symmetry; apply Hins|]. eapply worker_moves_holds; [exact Hm|].
    by eapply gate_holds_perm.
  - unfold active_run in Hs. destruct (co_calls co !! call) as [[run| |]|] eqn:Hc; try done.
    destruct (run_over run) eqn:Ho; [|done]. injection Hs as <-. cbn.
    unfold run_over in Ho. apply andb_prop in Ho as [[Hj _]%andb_prop _].
    eapply gate_holds_perm; [|exact Hg]. symmetry. by apply (holders_same _ _ run).
Qed.
End moves.
