(* ===== verification/CollaborationRules.v ===== *)
(** * Collaborations: the invariant of a run

    Every task of a plan is in exactly one place (it has a result, is in the hands of a worker, is
    about to be taken, is pending or belongs to a later phase); a task that workers may take has
    parents that all succeeded; a result says that a task was blocked exactly when a parent did
    not succeed. *)

From S2P Require Import Prelude Order Text StoreBase Sessions Collaboration CollaborationRun.
From S2P Require Import CollaborationPlans CollaborationGate.

Local Open Scope N_scope.

(** ** Completed tasks *)

Lemma completed_snoc results r :
  completed_states (results ++ [r]) = <[cr_task_id r := cr_state r]> (completed_states results).
Proof. unfold completed_states. by rewrite foldl_app. Qed.

Lemma completed_dom results task_id :
  is_Some (completed_states results !! task_id) ↔ task_id ∈ cr_task_id <$> results.
Proof.
  induction results as [|r results IH] using rev_ind.
  { unfold completed_states. cbn. rewrite lookup_empty, elem_of_nil. by split; [intros []|]. }
  rewrite completed_snoc, fmap_app, elem_of_app. cbn. rewrite list_elem_of_singleton, <- IH.
  destruct (decide (cr_task_id r = task_id)) as [->|Hne].
  - rewrite lookup_insert_eq. split; [by right|eauto].
  - rewrite lookup_insert_ne by done. split; [by left|]. intros [?|?]; [done|congruence].
Qed.

Lemma completed_lookup results task_id state :
  NoDup (cr_task_id <$> results) →
  completed_states results !! task_id = Some state ↔
  ∃ r, r ∈ results ∧ cr_task_id r = task_id ∧ cr_state r = state.
Proof.
  induction results as [|r results IH] using rev_ind; intros Hnd.
  { unfold completed_states. cbn. rewrite lookup_empty. split; [done|].
    by intros (r & ?%elem_of_nil & _). }
  rewrite fmap_app in Hnd. apply NoDup_app in Hnd as (Hnd & Hfresh & _).
  rewrite completed_snoc. setoid_rewrite elem_of_app. setoid_rewrite list_elem_of_singleton.
  destruct (decide (cr_task_id r = task_id)) as [<-|Hne].
  - rewrite lookup_insert_eq. split; [intros [= <-]; eauto|].
    intros (r' & [Hin| ->] & Hid & Hs); [|by rewrite Hs].
    exfalso. apply (Hfresh (cr_task_id r)); [|by left]. rewrite <- Hid. by apply list_elem_of_fmap_2.
  - rewrite lookup_insert_ne, IH by done. naive_solver.
Qed.

(** A result with a new identifier only adds to what is completed. *)
Lemma completed_mono results r task_id state :
  cr_task_id r ∉ cr_task_id <$> results →
  completed_states results !! task_id = Some state →
  completed_states (results ++ [r]) !! task_id = Some state.
Proof.
  intros Hn Hc. rewrite completed_snoc, lookup_insert_ne; [done|].
  intros He. apply Hn. rewrite He. apply completed_dom. eauto.
Qed.

(** ** Phases *)

Definition uniform (tasks : list PreparedTask) : Prop :=
  ∀ t u, t ∈ tasks → u ∈ tasks → pt_phase t = pt_phase u.
Definition earlier (a b : list PreparedTask) : Prop :=
  ∀ t u, t ∈ a → u ∈ b → pt_phase t < pt_phase u.

Definition phases_ok (phases : list (list PreparedTask)) : Prop :=
  StronglySorted earlier phases ∧ Forall uniform phases.

Lemma phases_ok_sub current current' phases :
  (∀ t, t ∈ current' → t ∈ current) → phases_ok (current :: phases) → phases_ok (current' :: phases).
Proof.
  intros Hsub [Hs Hu]. apply StronglySorted_inv in Hs as [Hs He].
  apply Forall_cons in Hu as [Hc Hu]. split.
  - constructor; [done|]. eapply Forall_impl; [exact He|]. intros phase H t u Ht Hu'. auto.
  - constructor; [|done]. intros t u Ht Hu'. auto.
Qed.

Lemma phases_ok_tail current phases : phases_ok (current :: phases) → phases_ok phases.
Proof.
  intros [Hs Hu]. apply StronglySorted_inv in Hs as [Hs _]. by apply Forall_cons in Hu as [_ Hu].
Qed.

Lemma phases_ok_cons_nil phases : phases_ok phases → phases_ok ([] :: phases).
Proof.
  intros [Hs Hu]. split; constructor; try done.
  - apply Forall_forall. intros phase _ t u ?%elem_of_nil. done.
  - by intros t u ?%elem_of_nil.
Qed.

Lemma concat_keys {A} (key : A → N) (l : list A) ps :
  NoDup ps → (∀ x, x ∈ l → key x ∈ ps) → concat ((λ p, filter (λ x, key x = p) l) <$> ps) ≡ₚ l.
Proof.
  intros Hnd. induction l as [|a l IH]; intros Hall.
  { clear. induction ps as [|p ps IH]; [done|]. cbn. by rewrite IH. }
  assert (key a ∈ ps) as Ha by (apply Hall; left).
  transitivity (a :: concat ((λ p, filter (λ x, key x = p) l) <$> ps)).
  2: { rewrite IH; [done|]. intros x Hx. apply Hall. by right. }
  clear IH Hall. induction ps as [|p ps IHps]; [by apply elem_of_nil in Ha|].
  apply NoDup_cons in Hnd as [Hp Hnd]. cbn [fmap list_fmap concat].
  apply elem_of_cons in Ha as [Heq|Ha].
  - rewrite filter_cons_True by done. cbn [app]. constructor. apply Permutation_app_head.
    clear IHps Hnd. induction ps as [|q ps IHps]; [done|]. cbn [fmap list_fmap concat].
    apply not_elem_of_cons in Hp as [Hq Hp]. rewrite filter_cons_False by congruence.
    by rewrite IHps.
  - rewrite filter_cons_False by congruence. rewrite IHps by done.
    by rewrite Permutation_middle.
Qed.

Lemma elem_of_concat {A} (x : A) ls : x ∈ concat ls ↔ ∃ l, x ∈ l ∧ l ∈ ls.
Proof.
  induction ls as [|l ls IH]; cbn.
  - split; [by intros ?%elem_of_nil|]. by intros (l & _ & ?%elem_of_nil).
  - rewrite elem_of_app, IH. setoid_rewrite elem_of_cons. naive_solver.
Qed.

Lemma concat_perm {A} (f g : N → list A) ps :
  (∀ p, f p ≡ₚ g p) → concat (f <$> ps) ≡ₚ concat (g <$> ps).
Proof. intros H. induction ps as [|p ps IH]; [done|]. cbn. by rewrite H, IH. Qed.

Lemma plan_phases_spec prepared :
  concat (plan_phases prepared) ≡ₚ prepared ∧ phases_ok (plan_phases prepared).
Proof.
  unfold plan_phases. set (ps := sort_by N.compare _).
  assert (∀ p, p ∈ ps ↔ p ∈ pt_phase <$> prepared) as Hps.
  { intros p. unfold ps. by rewrite elem_of_sort_by, elem_of_elements, elem_of_list_to_set. }
  assert (NoDup ps) as Hnd by (unfold ps; rewrite sort_by_perm; apply NoDup_elements).
  pose proof (sort_by_sorted N.compare
                (elements (list_to_set (pt_phase <$> prepared) : gset N))) as Hs.
  fold ps in Hs. split; [|split].
  - etransitivity; [apply concat_perm; intros p; apply sort_by_perm|].
    apply concat_keys; [done|]. intros t Ht. apply Hps. by apply list_elem_of_fmap_2.
  - clear Hps. revert Hnd Hs. generalize ps as l. clear ps. intros l. induction l as [|p l IH]; [constructor|].
    intros [Hp Hnd]%NoDup_cons [Hs Hle]%StronglySorted_inv. cbn. constructor; [auto|].
    apply Forall_fmap, Forall_forall. intros q Hq t u Ht Hu.
    unfold phase_tasks in Ht, Hu. rewrite elem_of_sort_by in Ht, Hu.
    apply list_elem_of_filter in Ht as [-> _], Hu as [-> _].
    rewrite Forall_forall in Hle. specialize (Hle _ Hq). unfold cmp_le in Hle.
    assert (p ≠ q) by congruence. destruct (N.compare_spec p q); done.
  - apply Forall_fmap, Forall_forall. intros p _ t u Ht Hu.
    unfold phase_tasks in Ht, Hu. rewrite elem_of_sort_by in Ht, Hu.
    apply list_elem_of_filter in Ht as [-> _], Hu as [-> _]. done.
Qed.

(** ** The invariant *)

(** What the validation of the plan has established. *)
Record plan_valid (confinement : AgentProvider → CollaborationConfinement)
    (prepared : list PreparedTask) (dependencies : Dependencies) : Prop := {
  pv_ids : NoDup (pt_task_id <$> prepared);
  pv_dependencies task parents :
    dependencies !! task = Some parents → dependency_ok (task_phases prepared) task parents;
  pv_acyclic : acyclic dependencies (dom (task_phases prepared));
  pv_confined t : t ∈ prepared → confined confinement t
}.

(** [active] are the tasks that workers have or may take. *)
Record run_inv (prepared : list PreparedTask) (dependencies : Dependencies)
    (results : list CollaborationTaskResult) (active pending : list PreparedTask)
    (phases : list (list PreparedTask)) : Prop := {
  ri_tasks : ∃ ended, Forall2 result_of ended results ∧
    ended ++ active ++ pending ++ concat phases ≡ₚ prepared;
  ri_ready t parent : t ∈ active → parent ∈ parents_of dependencies (pt_task_id t) →
    completed_states results !! parent = Some TaskSucceeded;
  ri_settled r parent : r ∈ results → parent ∈ parents_of dependencies (cr_task_id r) →
    is_Some (completed_states results !! parent);
  ri_blocked r : r ∈ results →
    cr_state r = TaskDependencyBlocked ↔
    ∃ parent, parent ∈ parents_of dependencies (cr_task_id r) ∧
      completed_states results !! parent ≠ Some TaskSucceeded;
  ri_phases : phases_ok ((active ++ pending) :: phases)
}.

Section invariant.
Context (prepared : list PreparedTask) (dependencies : Dependencies).
Context (confinement : AgentProvider → CollaborationConfinement).
Context (Hplan : plan_valid confinement prepared dependencies).

Lemma run_inv_perm results active active' pending pending' phases :
  active ≡ₚ active' → pending ≡ₚ pending' →
  run_inv prepared dependencies results active pending phases →
  run_inv prepared dependencies results active' pending' phases.
Proof.
  intros Ha Hp [(ended & He & Ht) Hr Hs Hb Hph]. split; [|by setoid_rewrite <- Ha|done|done|].
  - exists ended. split; [done|]. by rewrite <- Ha, <- Hp.
  - eapply phases_ok_sub; [|exact Hph]. intros t. by rewrite <- Ha, <- Hp.
Qed.

Lemma result_ids ended results :
  Forall2 result_of ended results → cr_task_id <$> results = pt_task_id <$> ended.
Proof. induction 1 as [|t r ended results Hr _ IH]; [done|]. cbn. by rewrite IH, (rf_id _ _ Hr). Qed.

Lemma run_inv_ids results active pending phases :
  run_inv prepared dependencies results active pending phases →
  (cr_task_id <$> results) ++ (pt_task_id <$> active) ++ (pt_task_id <$> pending)
    ++ (pt_task_id <$> concat phases) ≡ₚ pt_task_id <$> prepared.
Proof.
  intros [(ended & He & Ht) _ _ _ _]. rewrite (result_ids _ _ He), <- !fmap_app.
  by rewrite Ht.
Qed.

Lemma run_inv_NoDup results active pending phases :
  run_inv prepared dependencies results active pending phases →
  NoDup ((cr_task_id <$> results) ++ (pt_task_id <$> active) ++ (pt_task_id <$> pending)
    ++ (pt_task_id <$> concat phases)).
Proof. intros Hi. rewrite (run_inv_ids _ _ _ _ Hi). apply Hplan. Qed.

Lemma results_NoDup results active pending phases :
  run_inv prepared dependencies results active pending phases → NoDup (cr_task_id <$> results).
Proof. intros Hi. apply run_inv_NoDup in Hi. by apply NoDup_app in Hi as [? _]. Qed.

(** A task that is not done yet has no result. *)
Lemma fresh_result results active pending phases t :
  run_inv prepared dependencies results active pending phases → t ∈ active ++ pending →
  pt_task_id t ∉ cr_task_id <$> results.
Proof.
  intros Hi Ht Hin. apply run_inv_NoDup in Hi as (_ & Hd & _)%NoDup_app. apply (Hd _ Hin).
  apply elem_of_app in Ht as [Ht|Ht]; rewrite !elem_of_app; [left|right; left];
    by apply list_elem_of_fmap_2.
Qed.

(** Results stay justified when a result of a new task arrives. *)
Lemma settled_snoc results r :
  cr_task_id r ∉ cr_task_id <$> results →
  (∀ r' parent, r' ∈ results → parent ∈ parents_of dependencies (cr_task_id r') →
     is_Some (completed_states results !! parent)) →
  (∀ parent, parent ∈ parents_of dependencies (cr_task_id r) →
     is_Some (completed_states results !! parent)) →
  ∀ r' parent, r' ∈ results ++ [r] → parent ∈ parents_of dependencies (cr_task_id r') →
    completed_states (results ++ [r]) !! parent = completed_states results !! parent ∧
    is_Some (completed_states (results ++ [r]) !! parent).
Proof.
  intros Hn Hold Hnew r' parent Hr Hp.
  assert (is_Some (completed_states results !! parent)) as [state Hs].
  { apply elem_of_app in Hr as [Hr| ->%list_elem_of_singleton]; eauto. }
  rewrite (completed_mono _ _ _ _ Hn Hs), Hs. eauto.
Qed.

(** The result of a task arrives. *)
Lemma run_inv_result results active pending phases t r :
  run_inv prepared dependencies results (t :: active) pending phases → own_result t r →
  run_inv prepared dependencies (results ++ [r]) active pending phases.
Proof.
  intros Hi [Hr Hns].
  pose proof (fresh_result _ _ _ _ t Hi ltac:(by left)) as Hn. rewrite <- (rf_id _ _ Hr) in Hn.
  destruct Hi as [(ended & He & Ht) Hready Hs Hb Hph].
  assert (∀ parent, parent ∈ parents_of dependencies (cr_task_id r) →
            completed_states results !! parent = Some TaskSucceeded) as Hown.
  { intros parent Hp. apply (Hready t); [by left|]. by rewrite <- (rf_id _ _ Hr). }
  pose proof (settled_snoc results r Hn Hs (λ p Hp, mk_is_Some _ _ (Hown p Hp))) as Hsn. split.
  - exists (ended ++ [t]). split; [by apply Forall2_app; [|constructor]|].
    rewrite <- Ht, <- app_assoc. done.
  - intros t' parent Ht' Hp. apply completed_mono; [done|]. apply (Hready t'); [by right|done].
  - intros r' parent Hr' Hp. by apply (Hsn r' parent).
  - intros r' Hr'. apply elem_of_app in Hr' as Hcase. destruct Hcase as [Hold| ->%list_elem_of_singleton].
    + rewrite (Hb _ Hold). split; intros (parent & Hp & Hne); exists parent;
        (split; [done|]); by destruct (Hsn r' parent Hr' Hp) as [<- _] || destruct (Hsn r' parent Hr' Hp) as [-> _].
    + split; [done|]. intros (parent & Hp & Hne). exfalso. apply Hne.
      apply completed_mono; [done|]. by apply Hown.
  - eapply phases_ok_sub; [|exact Hph]. intros u Hu. by right.
Qed.

(** A pending task is given up because a parent has failed. *)
Lemma run_inv_blocked results active pending phases t r :
  run_inv prepared dependencies results active (t :: pending) phases →
  result_of t r → cr_state r = TaskDependencyBlocked →
  (∀ parent, parent ∈ parents_of dependencies (pt_task_id t) →
     is_Some (completed_states results !! parent)) →
  (∃ parent, parent ∈ parents_of dependencies (pt_task_id t) ∧
     completed_states results !! parent ≠ Some TaskSucceeded) →
  run_inv prepared dependencies (results ++ [r]) active pending phases.
Proof.
  intros Hi Hr Hstate Hall Hfail.
  pose proof (fresh_result _ _ _ _ t Hi) as Hn. rewrite elem_of_app in Hn.
  specialize (Hn (or_intror (list_elem_of_here _ _))). rewrite <- (rf_id _ _ Hr) in *.
  destruct Hi as [(ended & He & Ht) Hready Hs Hb Hph].
  pose proof (settled_snoc results r Hn Hs Hall) as Hsn. split.
  - exists (ended ++ [t]). split; [by apply Forall2_app; [|constructor]|].
    rewrite <- Ht, <- app_assoc. f_equiv. cbn. by rewrite Permutation_middle.
  - intros t' parent Ht' Hp. apply completed_mono; [done|]. by apply (Hready t').
  - intros r' parent Hr' Hp. by apply (Hsn r' parent).
  - intros r' Hr'. apply elem_of_app in Hr' as Hcase. destruct Hcase as [Hold| ->%list_elem_of_singleton].
    + rewrite (Hb _ Hold). split; intros (parent & Hp & Hne); exists parent;
        (split; [done|]); by destruct (Hsn r' parent Hr' Hp) as [<- _] || destruct (Hsn r' parent Hr' Hp) as [-> _].
    + split; [intros _|done]. destruct Hfail as (parent & Hp & Hne). exists parent. split; [done|].
      by destruct (Hsn r parent Hr' Hp) as [-> _].
  - eapply phases_ok_sub; [|exact Hph]. intros u. rewrite !elem_of_app, elem_of_cons. tauto.
Qed.
End invariant.
