(* ===== verification/CollaborationProofs.v ===== *)
(** * Collaborations: the invariant holds in every history *)

From S2P Require Import Prelude Order Text StoreBase Sessions Collaboration CollaborationRun.
From S2P Require Import CollaborationPlans CollaborationGate CollaborationRules.

Local Open Scope N_scope.

Section runs.
Context (confinement : AgentProvider → CollaborationConfinement).

(** ** Runs *)

Definition in_flight (run : Run) : list PreparedTask := omap worker_task (ru_workers run).
Definition untaken (run : Run) : list PreparedTask := drop (ru_next_task run) (ru_runnable run).

Record workers_ok (run : Run) : Prop := {
  wo_exited : Exited ∈ ru_workers run → untaken run = [];
  wo_none : ru_workers run = [] → untaken run = [];
  wo_reporting task r : Reporting task r ∈ ru_workers run → own_result task r
}.

Record run_ok (run : Run) : Prop := {
  ro_plan : plan_valid confinement (ru_prepared run) (ru_dependencies run);
  ro_inv : run_inv (ru_prepared run) (ru_dependencies run) (ru_results run)
             (in_flight run ++ untaken run) (ru_pending run) (ru_phases run);
  ro_workers : workers_ok run
}.

Definition call_ok (call : Call) : Prop :=
  match call with
  | Active run => run_ok run
  | Rejected _ => True
  | Finished run report => run_ok run ∧ run_over run = true ∧
      rp_tasks report = sort_by report_order (ru_results run)
  end.

(** When the workers have been joined, no task is left with them. *)
Lemma joined_empty run :
  run_ok run → joined run = true → in_flight run = [] ∧ untaken run = [].
Proof.
  intros [_ _ [Hex Hno Hrep]] Hj. clear Hrep. unfold joined in Hj. rewrite forallb_spec in Hj. split.
  - clear Hex Hno. unfold in_flight. induction (ru_workers run) as [|w ws IH]; [done|].
    rewrite omap_app_cons, IH; [|intros w' ?; apply Hj; by right].
    specialize (Hj w (list_elem_of_here _ _)). by destruct w.
  - destruct (ru_workers run) as [|w ws] eqn:Hw; [by apply Hno|]. apply Hex.
    specialize (Hj w (list_elem_of_here _ _)). destruct w; try done. by left.
Qed.

Lemma run_over_done run :
  run_ok run → run_over run = true →
  ∃ ended, Forall2 result_of ended (ru_results run) ∧ ended ≡ₚ ru_prepared run.
Proof.
  intros Hok Ho. unfold run_over in Ho. apply andb_prop in Ho as [[Hj Hp]%andb_prop Hph].
  destruct (joined_empty _ Hok Hj) as [Hf Hu].
  apply bool_decide_eq_true_1, length_zero_iff_nil in Hp.
  apply bool_decide_eq_true_1, length_zero_iff_nil in Hph.
  destruct (ri_tasks _ _ _ _ _ _ (ro_inv _ Hok)) as (ended & He & Ht).
  rewrite Hf, Hu, Hp, Hph, app_nil_r in Ht. eauto.
Qed.

End runs.

(** ** Preservation *)

Section preservation.
Context `{CollaborationLibraries}.
Context (limits : CollaborationLimits) (confinement : AgentProvider → CollaborationConfinement).
Context (Hlimits : limits_positive limits = true).

Lemma parallel_positive : (0 < maximum_parallel_agents limits)%nat.
Proof.
  pose proof Hlimits as Hl. unfold limits_positive in Hl. rewrite !negb_orb in Hl.
  repeat (apply andb_prop in Hl as [Hl _]). apply negb_true_iff, Nat.eqb_neq in Hl. lia.
Qed.

Lemma new_run_ok plan control dependencies prepared started_at started :
  plan_valid confinement prepared dependencies →
  run_ok confinement (new_run plan control dependencies prepared started_at started).
Proof.
  intros Hp. destruct (plan_phases_spec prepared) as [Hperm Hph]. split; [done| |].
  - split; cbn.
    + exists []. split; [constructor|]. done.
    + by intros t parent ?%elem_of_nil.
    + by intros r parent ?%elem_of_nil.
    + by intros r ?%elem_of_nil.
    + by apply phases_ok_cons_nil.
  - split; cbn; [done|done|]. by intros task r ?%elem_of_nil.
Qed.

Lemma execute_ok co control plan dependencies files now_ms :
  call_ok confinement (execute limits confinement co control plan dependencies files now_ms).
Proof.
  unfold execute. destruct (rbind _ _) as [prepared|e] eqn:Hr; [|done].
  apply rbind_Ok in Hr as (p & Hp & Hr). apply rbind_Ok in Hr as (u & Hv & [= <-]).
  apply new_run_ok. destruct (validated _ _ _ Hv) as [Hd Ha].
  split; [by eapply prepare_NoDup|done|done|by eapply prepare_confined].
Qed.

Lemma next_phase_ok run run' : run_ok confinement run → next_phase run = Some run' → run_ok confinement run'.
Proof.
  intros Hok. unfold next_phase. destruct (ru_phases run) as [|phase phases] eqn:Hphases; [done|].
  destruct (joined run && _) eqn:Hb; [|done]. intros [= <-].
  apply andb_prop in Hb as [Hj Hp]. apply bool_decide_eq_true_1, length_zero_iff_nil in Hp.
  destruct (joined_empty _ _ Hok Hj) as [Hf Hu]. destruct Hok as [Hplan Hinv _].
  rewrite Hf, Hu, Hp, Hphases in Hinv. split; [done| |].
  - cbn. destruct Hinv as [(ended & He & Ht) Hr Hs Hbl Hph]. split; [|done..|].
    + by exists ended.
    + by apply phases_ok_tail in Hph.
  - split; cbn; [done|done|]. by intros task r ?%elem_of_nil.
Qed.

Lemma worker_in_flight run i worker :
  ru_workers run !! i = Some worker →
  ∃ rest, in_flight run ≡ₚ option_list (worker_task worker) ++ rest ∧
    ∀ worker' next results,
      in_flight (with_workers run next (<[i:=worker']> (ru_workers run)) results)
      ≡ₚ option_list (worker_task worker') ++ rest.
Proof.
  intros Hi. destruct (insert_swap _ _ _ Hi) as (others & Hw & Hw').
  exists (omap worker_task others). split.
  - unfold in_flight. by rewrite Hw, omap_app_cons.
  - intros worker' next results. unfold in_flight. cbn. by rewrite (Hw' worker'), omap_app_cons.
Qed.

Lemma drop_lookup {A} (l : list A) n :
  drop n l = match l !! n with Some x => x :: drop (S n) l | None => [] end.
Proof.
  revert n. induction l as [|a l IH]; intros [|n]; try done. cbn. apply IH.
Qed.

(** What a move does to the tasks and results of a run. *)
Lemma worker_moves_inv co run i worker worker' next results gate :
  run_ok confinement run → ru_workers run !! i = Some worker →
  worker_moves limits co run worker worker' next results gate →
  run_ok confinement (with_workers run next (<[i:=worker']> (ru_workers run)) results).
Proof.
  intros [Hplan Hinv Hwo] Hi Hm. destruct (worker_in_flight _ _ _ Hi) as (rest & Hf & Hf').
  set (run' := with_workers run next (<[i:=worker']> (ru_workers run)) results).
  assert (∀ w, w ∈ ru_workers run' → w = worker' ∨ w ∈ ru_workers run) as Hin.
  { intros w Hw. apply list_elem_of_lookup in Hw as [k Hk]. cbn in Hk.
    apply list_lookup_insert_Some in Hk as [(-> & -> & _)|[_ Hk]]; [by left|right].
    by apply list_elem_of_lookup_2 in Hk. }
  assert (ru_workers run' ≠ []) as Hne.
  { cbn. intros Hnil. apply (f_equal length) in Hnil. rewrite length_insert in Hnil.
    apply lookup_lt_Some in Hi. cbn in Hnil. lia. }
  assert (untaken run' = untaken run ∨
          untaken run' = drop (S (ru_next_task run)) (ru_runnable run)) as Hunt
    by (destruct Hm; auto).
  assert (workers_ok run') as Hwo'.
  { destruct Hwo as [Hex Hno Hrep]. split.
    - intros [Hw|Hw]%Hin.
      + assert (ru_runnable run !! ru_next_task run = None) as Hn by (by destruct Hm).
        apply lookup_ge_None in Hn. destruct Hunt as [-> | ->]; unfold untaken; apply drop_ge; lia.
      + specialize (Hex Hw). destruct Hunt as [-> | ->]; [done|].
        unfold untaken in Hex. rewrite drop_lookup in Hex.
        destruct (ru_runnable run !! ru_next_task run) eqn:Hn; [done|].
        apply lookup_ge_None in Hn. apply drop_ge. lia.
    - done.
    - intros task r [Hw|Hw]%Hin; [|by apply Hrep].
      destruct Hm; try done; by injection Hw as <- <-. }
  split; [exact Hplan| |exact Hwo'].
  specialize (Hf' worker' next results). fold run' in Hf'.
  assert (run_inv (ru_prepared run) (ru_dependencies run) (ru_results run)
            (option_list (worker_task worker) ++ rest ++ untaken run) (ru_pending run)
            (ru_phases run)) as Hold.
  { eapply run_inv_perm; [| |exact Hinv]; [|done]. by rewrite Hf, app_assoc. }
  assert (run_inv (ru_prepared run) (ru_dependencies run) results
            (option_list (worker_task worker') ++ rest ++ untaken run') (ru_pending run)
            (ru_phases run)) as Hnew.
  { clear - Hplan Hwo Hi Hm Hold. unfold untaken in *.
    destruct Hm as [Hn|task queued deadline Hn| | | | | | | | | |]; cbn in *; try exact Hold.
    - rewrite drop_lookup, Hn in Hold. apply lookup_ge_None in Hn. by rewrite drop_ge by lia.
    - rewrite drop_lookup, Hn in Hold. eapply run_inv_perm; [| |exact Hold]; [|done].
      by rewrite <- Permutation_middle.
    - eapply run_inv_result; [done|exact Hold|]. eapply Hwo, list_elem_of_lookup_2, Hi. }
  eapply run_inv_perm; [| |exact Hnew]; [|done]. by rewrite Hf', app_assoc.
Qed.
(** The tasks of a wave that have lost a parent leave it with their results. *)
Lemma wave_blocked prepared dependencies phases now_ms pending failed : ∀ lost results,
  plan_valid confinement prepared dependencies →
  run_inv prepared dependencies results [] (lost ++ pending) phases →
  (∀ t, t ∈ lost →
     (∀ parent, parent ∈ parents_of dependencies (pt_task_id t) →
        is_Some (completed_states results !! parent)) ∧
     ∃ parent, parent ∈ parents_of dependencies (pt_task_id t) ∧
       completed_states results !! parent ≠ Some TaskSucceeded) →
  let results' := results
    ++ ((λ task, blocked_result limits task (failed task) (now_ms (pt_task_id task))) <$> lost) in
  run_inv prepared dependencies results' [] pending phases ∧
  ∀ task_id state, completed_states results !! task_id = Some state →
    completed_states results' !! task_id = Some state.
Proof.
  induction lost as [|t lost IH]; intros results Hplan Hinv Hlost; cbn zeta.
  { cbn. by rewrite app_nil_r. }
  set (r := blocked_result limits t (failed t) (now_ms (pt_task_id t))).
  assert (cr_task_id r ∉ cr_task_id <$> results) as Hn
    by (apply (fresh_result _ _ _ Hplan _ _ _ _ t Hinv); cbn; by left).
  destruct (Hlost t ltac:(by left)) as [Hall Hsome].
  assert (run_inv prepared dependencies (results ++ [r]) [] (lost ++ pending) phases) as Hinv'
    by (by eapply run_inv_blocked).
  destruct (IH (results ++ [r]) Hplan Hinv') as [Hi Hm].
  - intros u Hu. destruct (Hlost u ltac:(by right)) as [Hallu (parent & Hp & Hne)]. split.
    + intros q Hq. destruct (Hallu q Hq) as [state Hs]. exists state. by apply completed_mono.
    + exists parent. split; [done|]. destruct (Hallu parent Hp) as [state Hs].
      rewrite (completed_mono _ _ _ _ Hn Hs). by rewrite <- Hs.
  - cbn [fmap list_fmap]. fold r. rewrite <- app_assoc in Hi, Hm. split; [done|].
    intros task_id state Hs. apply Hm. by apply completed_mono.
Qed.

Lemma filter_split {A} (f : A → bool) l :
  l ≡ₚ filter (λ x, f x = true) l ++ filter (λ x, f x = false) l.
Proof.
  induction l as [|x l IH]; [done|]. destruct (f x) eqn:Hf.
  - rewrite filter_cons_True, filter_cons_False by congruence. by constructor.
  - rewrite filter_cons_False, filter_cons_True by congruence.
    rewrite <- Permutation_middle. by constructor.
Qed.

Lemma filter_split_ne {A} (f : A → list str) l :
  l ≡ₚ filter (λ x, length (f x) ≠ 0%nat) l ++ filter (λ x, length (f x) = 0%nat) l.
Proof.
  induction l as [|x l IH]; [done|]. destruct (decide (length (f x) = 0%nat)) as [He|He].
  - rewrite filter_cons_False, filter_cons_True by auto.
    rewrite <- Permutation_middle. by constructor.
  - rewrite filter_cons_True, filter_cons_False by auto. by constructor.
Qed.

Lemma next_wave_ok now_ms run run' :
  run_ok confinement run → next_wave limits now_ms run = Some run' → run_ok confinement run'.
Proof.
  intros Hok. unfold next_wave. destruct (joined run && _) eqn:Hb; [|done]. intros [= <-].
  apply andb_prop in Hb as [Hj _]. destruct (joined_empty _ _ Hok Hj) as [Hf Hu].
  destruct Hok as [Hplan Hinv _]. rewrite Hf, Hu in Hinv. cbn [app] in Hinv.
  set (completed := completed_states (ru_results run)) in *.
  set (ready := λ task, wave_ready (ru_dependencies run) completed task).
  set (wave := filter (λ task, ready task = true) (ru_pending run)).
  set (failed := λ task, failed_parents (ru_dependencies run) completed task).
  set (pending' := filter (λ task, ready task = false) (ru_pending run)).
  assert (∀ t, t ∈ wave → ∀ parent, parent ∈ parents_of (ru_dependencies run) (pt_task_id t) →
            is_Some (completed !! parent)) as Hwave.
  { intros t Ht. unfold wave in Ht. apply list_elem_of_filter in Ht as [Hr _]. unfold ready, wave_ready in Hr.
    rewrite forallb_spec in Hr. intros parent Hp.
    specialize (Hr _ Hp). by apply bool_decide_eq_true_1 in Hr. }
  destruct (wave_blocked (ru_prepared run) (ru_dependencies run) (ru_phases run) now_ms
    (filter (λ t, length (failed t) = 0%nat) wave ++ pending') failed
    (filter (λ t, length (failed t) ≠ 0%nat) wave) (ru_results run) Hplan) as [Hi Hm].
  { eapply run_inv_perm; [reflexivity| |exact Hinv]. rewrite app_assoc.
    rewrite <- (filter_split_ne failed wave). apply (filter_split ready). }
  { intros t [Hne Ht]%list_elem_of_filter. split; [by apply Hwave|].
    destruct (failed t) as [|parent l] eqn:Hfail; [done|].
    assert (parent ∈ failed t) as Hin by (rewrite Hfail; left). unfold failed, failed_parents in Hin.
    apply list_elem_of_filter in Hin as [? ?]. eauto. }
  cbn zeta in Hi, Hm. split; [exact Hplan| |].
  - unfold in_flight, untaken. cbn -[filter]. rewrite drop_0.
    assert (∀ n, omap worker_task (replicate n Fetching) = []) as -> by (by induction n).
    destruct Hi as [Htasks Hr Hs Hbl Hph]. split.
    + destruct Htasks as (ended & He & Ht). exists ended. split; [done|].
      cbn [app] in *. by rewrite <- app_assoc in Ht.
    + intros t parent [He Ht]%list_elem_of_filter Hp. apply Hm.
      destruct (Hwave t Ht parent Hp) as [state Hst]. fold completed. rewrite Hst.
      destruct (decide (state = TaskSucceeded)) as [->|Hne]; [done|]. exfalso.
      assert (parent ∈ failed t) as Hin.
      { apply list_elem_of_filter. split; [|done]. rewrite Hst. congruence. }
      apply length_zero_iff_nil in He. rewrite He in Hin. by apply elem_of_nil in Hin.
    + exact Hs.
    + exact Hbl.
    + exact Hph.
  - split; cbn -[filter].
    + intros Hin. apply elem_of_replicate in Hin as [? _]. done.
    + intros Hnil. apply (f_equal length) in Hnil. rewrite length_replicate in Hnil. cbn in Hnil.
      pose proof parallel_positive. unfold untaken. cbn -[filter]. rewrite drop_0.
      apply length_zero_iff_nil. fold completed ready wave. unfold failed in *. lia.
    + intros task r Hin. by apply elem_of_replicate in Hin as [? _].
Qed.

(** ** Histories *)

Definition calls_ok (co : Coordinator) : Prop :=
  ∀ call c, co_calls co !! call = Some c → call_ok confinement c.

(** How a run that is under way moves. *)
Inductive run_moves (co : Coordinator) (run : Run) : Run → Prop :=
| moves_phase run' : next_phase run = Some run' → run_moves co run run'
| moves_wave now_ms run' : next_wave limits now_ms run = Some run' → run_moves co run run'
| moves_worker i worker worker' next results gate :
    ru_workers run !! i = Some worker →
    worker_moves limits co run worker worker' next results gate →
    run_moves co run (with_workers run next (<[i:=worker']> (ru_workers run)) results).

(** What an event does to a call: nothing, or it starts the call, moves its run or ends it. *)
Lemma call_step co event co' call c' :
  step limits confinement co event = Some co' → co_calls co' !! call = Some c' →
  co_calls co !! call = Some c' ∨
  (co_calls co !! call = None ∧
   ∃ control plan dependencies files now_ms,
     c' = execute limits confinement co control plan dependencies files now_ms) ∨
  ∃ run, co_calls co !! call = Some (Active run) ∧
    ((∃ run', c' = Active run' ∧ run_moves co run run') ∨
     (run_over run = true ∧ ∃ now_ms, c' = Finished run (report_of run (co_clock co) now_ms))).
Proof.
  intros Hs Hc'. destruct event as [elapsed|control|control task_id
    |c control plan dependencies files now_ms|c|c now_ms|c i input|c now_ms]; cbn in Hs.
  1-3: left; by injection Hs as <-.
  - destruct (co_calls co !! c) eqn:Hc; [done|]. injection Hs as <-. cbn in Hc'.
    apply lookup_insert_Some in Hc' as [(<- & <-)|[_ Hl]]; [right; left|by left].
    split; [done|]. by eexists _, _, _, _, _.
  - unfold active_run in Hs. destruct (co_calls co !! c) as [[run| |]|] eqn:Hc; try done.
    destruct (next_phase run) as [run'|] eqn:Hn; [|done]. injection Hs as <-. cbn in Hc'.
    apply lookup_insert_Some in Hc' as [(<- & <-)|[_ Hl]]; [right; right|by left].
    exists run. split; [done|]. left. exists run'. split; [done|]. by constructor.
  - unfold active_run in Hs. destruct (co_calls co !! c) as [[run| |]|] eqn:Hc; try done.
    destruct (next_wave limits now_ms run) as [run'|] eqn:Hn; [|done]. injection Hs as <-.
    cbn in Hc'. apply lookup_insert_Some in Hc' as [(<- & <-)|[_ Hl]]; [right; right|by left].
    exists run. split; [done|]. left. exists run'. split; [done|]. by econstructor.
  - unfold active_run in Hs. destruct (co_calls co !! c) as [[run| |]|] eqn:Hc; try done.
    apply worker_step_moves in Hs as (w & w' & next & results & Hi & Hm & Heq & _).
    rewrite Heq in Hc'. apply lookup_insert_Some in Hc' as [(<- & <-)|[_ Hl]];
      [right; right|by left].
    exists run. split; [done|]. left. eexists. split; [done|]. by econstructor.
  - unfold active_run in Hs. destruct (co_calls co !! c) as [[run| |]|] eqn:Hc; try done.
    destruct (run_over run) eqn:Ho; [|done]. injection Hs as <-. cbn -[report_of] in Hc'.
    apply lookup_insert_Some in Hc' as [(<- & <-)|[_ Hl]]; [right; right|by left].
    exists run. split; [done|]. right. split; [done|]. by eexists.
Qed.

Lemma run_moves_ok co run run' :
  run_ok confinement run → run_moves co run run' → run_ok confinement run'.
Proof.
  intros Hok [? Hn|? ? Hn|]; [by eapply next_phase_ok|by eapply next_wave_ok|].
  by eapply worker_moves_inv.
Qed.

(** What a run was called with stays. *)
Lemma run_moves_frame co run run' :
  run_moves co run run' →
  ru_prepared run' = ru_prepared run ∧ ru_dependencies run' = ru_dependencies run ∧
  ru_control run' = ru_control run.
Proof.
  intros [? Hn|? ? Hn|]; [| |done].
  - unfold next_phase in Hn. destruct (ru_phases run); [done|]. destruct (_ && _); [|done].
    by injection Hn as <-.
  - unfold next_wave in Hn. destruct (_ && _); [|done]. by injection Hn as <-.
Qed.

Lemma calls_step co event co' :
  calls_ok co → step limits confinement co event = Some co' → calls_ok co'.
Proof.
  intros Hok Hs call c' Hc'.
  destruct (call_step _ _ _ _ _ Hs Hc') as [Hc|[(_ & control & plan & deps & files & now & ->)|
    (run & Hc & [(run' & -> & Hm)|(Ho & now & ->)])]].
  - by eapply Hok.
  - apply execute_ok.
  - eapply run_moves_ok; [exact (Hok _ _ Hc)|done].
  - split; [exact (Hok _ _ Hc)|done].
Qed.

(** An invariant of single steps holds after any number of them. *)
Lemma steps_ind (P : Coordinator → Prop) :
  (∀ co event co', P co → step limits confinement co event = Some co' → P co') →
  ∀ events co co', P co → steps limits confinement co events = Some co' → P co'.
Proof.
  intros Hstep. induction events as [|event events IH]; cbn; intros co co' Hp Hs.
  - by injection Hs as <-.
  - destruct (step _ _ co event) as [co1|] eqn:He; [|done]. eauto.
Qed.

Lemma new_coordinator_gate clock : gate_ok limits (new_coordinator clock).
Proof. split; cbn; [done|done|done|apply Nat.le_0_l]. Qed.

Lemma coordinated_gate clock co : coordinated limits confinement clock co → gate_ok limits co.
Proof.
  intros (events & Hs). revert Hs. apply steps_ind; [|apply new_coordinator_gate].
  intros co1 event co2. apply gate_step.
Qed.

Lemma coordinated_calls clock co : coordinated limits confinement clock co → calls_ok co.
Proof.
  intros (events & Hs). revert Hs. apply steps_ind; [apply calls_step|].
  intros call c. cbn. by rewrite lookup_empty.
Qed.
End preservation.
