(* ===== verification/CollaborationProgress.v ===== *)
(** * Collaborations: every run comes to its end

    A measure of the work a run has left, which each of its steps lowers unless a worker waits at
    the gate, and a way to the end from every state that needs no other run to move. *)

From S2P Require Import Prelude Order Text StoreBase Sessions Collaboration CollaborationRun.
From S2P Require Import CollaborationPlans CollaborationGate CollaborationRules CollaborationProofs.

Local Open Scope N_scope.

(** ** The measure *)

Definition worker_weight (worker : Worker) : nat :=
  match worker with
  | Exited => 0 | Fetching => 1 | Reporting _ _ => 2 | Judging _ _ _ _ _ => 3
  | Refused _ _ _ _ => 3 | Returned _ _ _ _ _ => 4 | Working _ _ _ _ => 5 | Permitted _ _ => 6
  | Waiting _ _ _ => 7
  end.

Definition phase_weight (phase : list PreparedTask) : nat := S (9 * length phase).

Definition work_left (run : Run) : nat :=
  sum_list_with worker_weight (ru_workers run) + 7 * length (untaken run)
  + 9 * length (ru_pending run) + sum_list_with phase_weight (ru_phases run).

Section progress.
Context `{CollaborationLibraries}.
Context (limits : CollaborationLimits) (confinement : AgentProvider → CollaborationConfinement).
Context (Hlimits : limits_positive limits = true).

Lemma moves_lighter co run i worker worker' next results gate :
  ru_workers run !! i = Some worker →
  worker_moves limits co run worker worker' next results gate →
  (worker' = worker ∧ next = ru_next_task run ∧ results = ru_results run) ∨
  (work_left (with_workers run next (<[i:=worker']> (ru_workers run)) results) < work_left run)%nat.
Proof.
  intros Hi Hm. destruct (insert_swap _ _ _ Hi) as (rest & Hw & Hw').
  assert (sum_list_with worker_weight (<[i:=worker']> (ru_workers run))
          = worker_weight worker' + sum_list_with worker_weight rest)%nat as Hsum'
    by (by rewrite (Hw' worker')).
  assert (sum_list_with worker_weight (ru_workers run)
          = worker_weight worker + sum_list_with worker_weight rest)%nat as Hsum by (by rewrite Hw).
  unfold work_left, untaken. cbn [ru_workers ru_runnable ru_next_task ru_pending ru_phases with_workers].
  rewrite Hsum, Hsum'.
  destruct Hm as [Hn|task queued deadline Hn| | | | | | | | | |];
    try (right; cbn [worker_weight]; lia).
  - right. rewrite (drop_lookup _ (ru_next_task run)), Hn. apply lookup_ge_None in Hn.
    rewrite drop_ge by lia. cbn. lia.
  - right. rewrite (drop_lookup _ (ru_next_task run)), Hn. cbn. lia.
  - by left.
Qed.

Lemma replicate_weight n : sum_list_with worker_weight (replicate n Fetching) = n.
Proof. induction n as [|n IH]; cbn; [done|]. by rewrite IH. Qed.

Lemma task_phase_in prepared parent q :
  task_phases prepared !! parent = Some q →
  ∃ t, t ∈ prepared ∧ pt_task_id t = parent ∧ pt_phase t = q.
Proof.
  intros Hl. apply elem_of_list_to_map_2, list_elem_of_fmap in Hl as (t & [= -> ->] & Ht). eauto.
Qed.

Lemma task_phase_of prepared t :
  NoDup (pt_task_id <$> prepared) → t ∈ prepared →
  task_phases prepared !! pt_task_id t = Some (pt_phase t).
Proof.
  intros Hnd Ht. apply elem_of_list_to_map_1; [|apply list_elem_of_fmap; eauto].
  by rewrite <- list_fmap_compose.
Qed.

(** While tasks are pending and none is active, one of them has all its parents completed. *)
Lemma wave_inhabited prepared dependencies results pending phases :
  plan_valid confinement prepared dependencies →
  run_inv prepared dependencies results [] pending phases → pending ≠ [] →
  ∃ t, t ∈ pending ∧ wave_ready dependencies (completed_states results) t = true.
Proof.
  intros [Hnd Hdeps Hacy _] Hinv Hne. pose proof (run_inv_ids _ _ _ _ _ _ Hinv) as Hids.
  destruct Hinv as [(ended & He & Ht) _ _ _ Hph]. cbn [app] in *.
  set (names := list_to_set (pt_task_id <$> pending) : gset str).
  assert (∀ t, t ∈ pending → t ∈ prepared) as Hsub.
  { intros t Hin. rewrite <- Ht, !elem_of_app. auto. }
  assert (names ⊆ dom (task_phases prepared)) as Hnames.
  { intros name Hn. apply elem_of_list_to_set, list_elem_of_fmap in Hn as (t & -> & Hin).
    apply elem_of_dom. rewrite (task_phase_of _ _ Hnd (Hsub _ Hin)). eauto. }
  destruct (acyclic_ready dependencies names) as (name & Hn & Hno).
  { by eapply acyclic_mono. }
  { destruct pending as [|t pending']; [done|]. unfold names. set_solver. }
  apply elem_of_list_to_set, list_elem_of_fmap in Hn as (t & -> & Hin). exists t. split; [done|].
  unfold wave_ready. apply forallb_spec. intros parent Hp. apply bool_decide_eq_true_2, completed_dom.
  specialize (Hno _ Hp). unfold names in Hno. rewrite elem_of_list_to_set in Hno.
  unfold parents_of in Hp. destruct (dependencies !! pt_task_id t) as [parents|] eqn:Hd;
    [|by apply elem_of_nil in Hp].
  destruct (Hdeps _ _ Hd) as (phase & Hphase & _ & Hparents).
  destruct (Hparents _ Hp) as (q & Hq & Hle). destruct (task_phase_in _ _ _ Hq) as (u & Hu & <- & <-).
  rewrite (task_phase_of _ _ Hnd (Hsub _ Hin)) in Hphase. injection Hphase as <-.
  rewrite <- Ht, !elem_of_app in Hu. rewrite (result_ids _ _ He).
  destruct Hu as [Hu|[Hu|Hu]]; [by apply list_elem_of_fmap_2|by destruct Hno; apply list_elem_of_fmap_2|].
  apply elem_of_concat in Hu as (later & Hul & Hlater). exfalso.
  destruct Hph as [[_ Hearly]%StronglySorted_inv _]. rewrite Forall_forall in Hearly.
  specialize (Hearly _ Hlater t u Hin Hul). lia.
Qed.

Lemma next_wave_lighter now_ms run run' :
  run_ok confinement run → next_wave limits now_ms run = Some run' →
  (work_left run' < work_left run)%nat.
Proof.
  intros Hok. unfold next_wave. destruct (joined run && _) eqn:Hb; [|done]. intros [= <-].
  apply andb_prop in Hb as [Hj Hp]. destruct (joined_empty _ _ Hok Hj) as [Hf Hu].
  destruct Hok as [Hplan Hinv _]. rewrite Hf, Hu in Hinv.
  apply negb_true_iff, bool_decide_eq_false_1 in Hp.
  destruct (wave_inhabited _ _ _ _ _ Hplan Hinv) as (t & Ht & Hready).
  { intros Hnil. by rewrite Hnil in Hp. }
  unfold work_left, untaken. cbn -[filter sum_list_with Nat.mul].
  rewrite drop_0, replicate_weight. set (completed := completed_states (ru_results run)) in *.
  set (ready := λ task, wave_ready (ru_dependencies run) completed task).
  pose proof (filter_split ready (ru_pending run)) as Hsplit.
  apply Permutation_length in Hsplit. rewrite length_app in Hsplit.
  assert (length (filter (λ task, ready task = true) (ru_pending run)) ≠ 0%nat) as Hwave.
  { intros Hnil%length_zero_iff_nil.
    assert (t ∈ filter (λ task, ready task = true) (ru_pending run)) as Hin
      by (apply list_elem_of_filter; done).
    rewrite Hnil in Hin. by apply elem_of_nil in Hin. }
  pose proof (length_filter (λ task, length (failed_parents (ru_dependencies run) completed task) = 0%nat)
                (filter (λ task, ready task = true) (ru_pending run))) as Hrun.
  unfold ready in *. lia.
Qed.

Lemma next_phase_lighter run run' :
  next_phase run = Some run' → (work_left run' < work_left run)%nat.
Proof.
  unfold next_phase. destruct (ru_phases run) as [|phase phases] eqn:Hph; [done|].
  destruct (joined run && _) eqn:Hb; [|done]. intros [= <-].
  unfold work_left, untaken. rewrite Hph. cbn -[Nat.mul]. unfold phase_weight. lia.
Qed.

(** Each move of a run lowers what is left, unless it changes nothing. *)
Lemma run_moves_lighter co run run' :
  run_ok confinement run → run_moves limits co run run' →
  run' = run ∨ (work_left run' < work_left run)%nat.
Proof.
  intros Hok [? Hn|? ? Hn|i w w' next results gate Hi Hm].
  - right. by apply next_phase_lighter.
  - right. by eapply next_wave_lighter.
  - destruct (moves_lighter _ _ _ _ _ _ _ _ Hi Hm) as [(-> & -> & ->)|?]; [left|by right].
    rewrite list_insert_id by done. by destruct run.
Qed.

Lemma run_step_lighter co event co' call run run' :
  calls_ok confinement co → co_calls co !! call = Some (Active run) →
  step limits confinement co event = Some co' → co_calls co' !! call = Some (Active run') →
  run' = run ∨ (work_left run' < work_left run)%nat.
Proof.
  intros Hok Hc Hs Hc'. pose proof (Hok _ _ Hc) as Hrun.
  destruct (call_step _ _ _ _ _ _ _ Hs Hc') as [Hc2|[(Hn & _)|
    (run0 & Hc2 & [(run1 & [= <-] & Hm)|(_ & now & ?)])]]; [| |idtac|done].
  - left. congruence.
  - congruence.
  - rewrite Hc in Hc2. injection Hc2 as <-. by eapply run_moves_lighter.
Qed.

(** At the start a run has at most ten moves for each task. *)
Lemma phases_weight phases :
  Forall (λ phase, phase ≠ []) phases →
  (sum_list_with phase_weight phases ≤ 10 * length (concat phases))%nat.
Proof.
  induction 1 as [|phase phases Hne _ IH]; [cbn; lia|].
  cbn [sum_list_with concat]. rewrite length_app. unfold phase_weight at 1.
  destruct phase; [done|]. cbn [length]. lia.
Qed.

Lemma plan_phases_inhabited prepared : Forall (λ phase, phase ≠ []) (plan_phases prepared).
Proof.
  unfold plan_phases. apply Forall_fmap, Forall_forall. intros p Hp.
  rewrite elem_of_sort_by, elem_of_elements, elem_of_list_to_set in Hp.
  apply list_elem_of_fmap in Hp as (t & -> & Ht). cbn. intros Hnil.
  assert (t ∈ phase_tasks prepared (pt_phase t)) as Hin.
  { unfold phase_tasks. by rewrite elem_of_sort_by, list_elem_of_filter. }
  rewrite Hnil in Hin. by apply elem_of_nil in Hin.
Qed.

Definition bounded (co : Coordinator) : Prop :=
  ∀ call run, co_calls co !! call = Some (Active run) →
    (work_left run ≤ 10 * length (ru_prepared run))%nat.

Lemma bounded_step co event co' :
  calls_ok confinement co → bounded co → step limits confinement co event = Some co' → bounded co'.
Proof.
  intros Hok Hb Hs call run' Hc'.
  destruct (call_step _ _ _ _ _ _ _ Hs Hc') as [Hc|[(Hn & control & plan & deps & files & now & He)|
    (run & Hc & [(run1 & [= <-] & Hm)|(_ & now & ?)])]]; [by eapply Hb| | |done].
  - unfold execute in He. destruct (rbind _ _) as [prepared|]; [|done]. injection He as ->.
    unfold work_left, untaken. cbn -[sum_list_with Nat.mul].
    pose proof (phases_weight _ (plan_phases_inhabited prepared)) as Hw.
    destruct (plan_phases_spec prepared) as [Hp _]. rewrite Hp in Hw. cbn [sum_list_with]. lia.
  - destruct (run_moves_frame _ _ _ _ Hm) as [-> _]. specialize (Hb _ _ Hc).
    destruct (run_moves_lighter _ _ _ (Hok _ _ Hc) Hm) as [->|]; [done|lia].
Qed.

Lemma coordinated_bounded clock co : coordinated limits confinement clock co → bounded co.
Proof.
  intros (events & Hs). revert Hs.
  assert (∀ events co co', calls_ok confinement co ∧ bounded co →
            steps limits confinement co events = Some co' →
            calls_ok confinement co' ∧ bounded co') as Hind.
  { apply (steps_ind limits confinement (λ co, calls_ok confinement co ∧ bounded co)).
    intros co1 event co2 [Hok Hb] He. split; [by eapply calls_step|by eapply bounded_step]. }
  intros Hs. eapply Hind; [|exact Hs]. split.
  - intros call c. cbn. by rewrite lookup_empty.
  - intros call run. cbn. by rewrite lookup_empty.
Qed.

(** ** A way to the end *)

(** An event of a call: a step of one of its threads, or time passing. *)
Definition own_event (call : N) (event : Event) : Prop :=
  match event with
  | Tick _ => True
  | NextPhase c | NextWave c _ | WorkerStep c _ _ | Finish c _ => c = call
  | _ => False
  end.

Definition some_input : StepInput := {| si_now_ms := 0; si_elapsed := 0; si_outcome := None |}.

Lemma steps_app events events' : ∀ co,
  steps limits confinement co (events ++ events')
  = match steps limits confinement co events with
    | Some co' => steps limits confinement co' events'
    | None => None
    end.
Proof.
  induction events as [|event events IH]; intros co; cbn; [done|].
  destruct (step _ _ co event); [apply IH|done].
Qed.

(** What a call does leaves the other calls alone. *)
Definition others_same (call : N) (co co' : Coordinator) : Prop :=
  ∀ other, other ≠ call → co_calls co' !! other = co_calls co !! other.

Lemma own_step_others call event co co' :
  own_event call event → step limits confinement co event = Some co' → others_same call co co'.
Proof.
  intros Ho Hs other Hne. destruct event; cbn in Ho, Hs; try done; try subst call0.
  - by injection Hs as <-.
  - destruct (active_run co call) as [run|]; [|done]. destruct (next_phase run); [|done].
    injection Hs as <-. cbn. by rewrite lookup_insert_ne.
  - destruct (active_run co call) as [run|]; [|done]. destruct (next_wave limits now_ms run); [|done].
    injection Hs as <-. cbn. by rewrite lookup_insert_ne.
  - destruct (active_run co call) as [run|]; [|done].
    apply worker_step_moves in Hs as (w & w' & next & results & _ & _ & -> & _).
    by rewrite lookup_insert_ne.
  - destruct (active_run co call) as [run|]; [|done]. destruct (run_over run); [|done].
    injection Hs as <-. cbn. by rewrite lookup_insert_ne.
Qed.

Lemma own_steps_others call events : ∀ co co',
  Forall (own_event call) events → steps limits confinement co events = Some co' →
  others_same call co co'.
Proof.
  induction events as [|event events IH]; cbn; intros co co' Ho Hs.
  - by injection Hs as <-.
  - apply Forall_cons in Ho as [He Ho]. destruct (step _ _ co event) as [co1|] eqn:H1; [|done].
    intros other Hne. rewrite (IH _ _ Ho Hs other Hne). by eapply own_step_others.
Qed.

(** A waiting worker whose time is up leaves with a result. *)
Lemma late_worker_leaves co call run i input co' task queued deadline :
  ru_workers run !! i = Some (Waiting task queued deadline) → deadline <= co_clock co →
  worker_step limits co call run i input = Some co' →
  ∃ r, co_calls co' = <[call := Active (with_workers run (ru_next_task run)
                          (<[i:=Reporting task r]> (ru_workers run)) (ru_results run))]>
                        (co_calls co).
Proof.
  intros Hi Hlate. unfold worker_step. rewrite Hi. cbn [task_step]. unfold acquire, checkpoint.
  apply N.leb_le in Hlate. rewrite Hlate.
  destruct (task_cancelled _ _); intros [= <-]; eexists; reflexivity.
Qed.

Lemma worker_enabled co call run i input worker :
  ru_workers run !! i = Some worker → worker ≠ Exited →
  is_Some (worker_step limits co call run i input).
Proof.
  intros Hi Hne. unfold worker_step. rewrite Hi. destruct worker; cbn [task_step]; try done.
  - destruct (ru_runnable run !! ru_next_task run); by eexists.
  - destruct (acquire _ _ _ _ _ _ _) as [co' w']. by eexists.
Qed.

(** A worker that has not exited can move; at the gate, when its time is up. *)
Lemma worker_can_move co call run i worker :
  ru_workers run !! i = Some worker → worker ≠ Exited →
  (∀ task queued deadline, worker = Waiting task queued deadline → deadline <= co_clock co) →
  ∃ co' run', worker_step limits co call run i some_input = Some co' ∧
    co_calls co' !! call = Some (Active run') ∧ (work_left run' < work_left run)%nat.
Proof.
  intros Hi Hne Hlate. destruct (worker_enabled co call run i some_input worker Hi Hne) as [co' Hs].
  pose proof Hs as Hs'. apply worker_step_moves in Hs as (w & w' & next & results & Hi' & Hm & Heq & _).
  rewrite Hi in Hi'. injection Hi' as <-.
  exists co', (with_workers run next (<[i:=w']> (ru_workers run)) results).
  split_and!; [done|by rewrite Heq, lookup_insert_eq|].
  destruct (moves_lighter _ _ _ _ _ _ _ _ Hi Hm) as [(-> & _)|Hlt]; [|done].
  destruct worker as [|task queued deadline| | | | | | |]; try by inversion Hm.
  destruct (late_worker_leaves _ _ _ _ _ _ _ _ _ Hi (Hlate _ _ _ eq_refl) Hs') as (r & Heq').
  rewrite Heq' in Heq. apply (f_equal (λ m, m !! call)) in Heq. rewrite !lookup_insert_eq in Heq.
  injection Heq as _ Heq. apply (f_equal (λ l, l !! i)) in Heq.
  by rewrite !list_lookup_insert_eq in Heq by (by eapply lookup_lt_Some).
Qed.

Lemma not_joined run : joined run = false → ∃ i worker, ru_workers run !! i = Some worker ∧ worker ≠ Exited.
Proof.
  unfold joined. induction (ru_workers run) as [|w ws IH]; [done|]. cbn.
  destruct w; try (intros _; by exists 0%nat; eexists). cbn.
  intros Hj. destruct (IH Hj) as (i & worker & Hi & Hne). by exists (S i), worker.
Qed.

(** A run that is under way can get nearer to its end. *)
Lemma run_can_move co call run :
  calls_ok confinement co → co_calls co !! call = Some (Active run) →
  ∃ events co', Forall (own_event call) events ∧ steps limits confinement co events = Some co' ∧
    ((∃ run', co_calls co' !! call = Some (Active run') ∧ (work_left run' < work_left run)%nat) ∨
     ∃ report, co_calls co' !! call = Some (Finished run report)).
Proof.
  intros Hok Hc. destruct (joined run) eqn:Hj.
  - destruct (ru_pending run) as [|t pending] eqn:Hp.
    + destruct (ru_phases run) as [|phase phases] eqn:Hph.
      * exists [Finish call 0]. cbn. unfold active_run. rewrite Hc.
        assert (run_over run = true) as -> by (unfold run_over; by rewrite Hj, Hp, Hph).
        eexists. split; [by repeat constructor|]. split; [done|]. right. cbn.
        rewrite lookup_insert_eq. eauto.
      * assert (is_Some (next_phase run)) as [run' Hn]
          by (unfold next_phase; rewrite Hph, Hj, Hp; by eexists).
        exists [NextPhase call]. cbn. unfold active_run. rewrite Hc, Hn.
        eexists. split; [by repeat constructor|]. split; [done|]. left. exists run'. cbn.
        rewrite lookup_insert_eq. split; [done|]. by apply next_phase_lighter.
    + assert (is_Some (next_wave limits (λ _, 0%Z) run)) as [run' Hn]
        by (unfold next_wave; rewrite Hj, Hp; by eexists).
      exists [NextWave call (λ _, 0%Z)]. cbn. unfold active_run. rewrite Hc, Hn.
      eexists. split; [by repeat constructor|]. split; [done|]. left. exists run'. cbn.
      rewrite lookup_insert_eq. split; [done|]. eapply next_wave_lighter; [|done]. exact (Hok _ _ Hc).
  - destruct (not_joined _ Hj) as (i & worker & Hi & Hne).
    set (wait := match worker with Waiting _ _ deadline => deadline | _ => 0 end).
    destruct (worker_can_move (with_clock co (co_clock co + wait)) call run i worker Hi Hne)
      as (co' & run' & Hs & Hc' & Hlt).
    { intros task queued deadline ->. cbn. lia. }
    exists [Tick wait; WorkerStep call i some_input], co'. split; [by repeat constructor|].
    split; [|eauto]. cbn. unfold active_run. cbn. by rewrite Hc, Hs.
Qed.

Lemma run_can_finish n : ∀ co call run,
  (work_left run < n)%nat → calls_ok confinement co → co_calls co !! call = Some (Active run) →
  ∃ events co' run' report, Forall (own_event call) events ∧
    steps limits confinement co events = Some co' ∧
    co_calls co' !! call = Some (Finished run' report).
Proof.
  induction n as [|n IH]; intros co call run Hlt Hok Hc; [lia|].
  destruct (run_can_move co call run Hok Hc) as (events & co1 & Ho & Hs & Hcase).
  destruct Hcase as [(run1 & Hc1 & Hlt1)|(report & Hc1)]; [|by exists events, co1, run, report].
  destruct (IH co1 call run1) as (events' & co' & run' & report & Ho' & Hs' & Hc'); [lia| |done|].
  - revert Hs. apply steps_ind; [by apply calls_step|done].
  - exists (events ++ events'), co', run', report. split_and!; [by apply Forall_app| |done].
    by rewrite steps_app, Hs.
Qed.
End progress.
