(* ===== verification/CollaborationGuarantees.v ===== *)
(** * Collaborations: the evidence that is kept, and what holds in every history

    After every report the coordinator keeps the longest list of newest entries that is within
    its two limits, and its byte count is their sum. *)

From S2P Require Import Prelude Order Text StoreBase Sessions Collaboration CollaborationRun.
From S2P Require Import CollaborationPlans CollaborationGate CollaborationRules.
From S2P Require Import CollaborationProofs CollaborationProgress.

Local Open Scope N_scope.

Abbreviation Entry := (N * CollaborationTaskEvidence)%type.

Definition entry_bytes (entries : list Entry) : N := foldr (λ entry sum, entry.1 + sum) 0 entries.

Definition within (count : nat) (bytes : N) (entries : list Entry) : Prop :=
  (length entries ≤ count)%nat ∧ entry_bytes entries <= bytes.

(** The newest entries that fit: a suffix within the limits, and none longer is. *)
Record newest (count : nat) (bytes : N) (all kept : list Entry) : Prop := {
  nw_suffix : ∃ dropped, all = dropped ++ kept;
  nw_within : within count bytes kept;
  nw_longest dropped other : all = dropped ++ other → within count bytes other →
    (length other ≤ length kept)%nat
}.

Lemma entry_bytes_cons entry l : entry_bytes (entry :: l) = entry.1 + entry_bytes l.
Proof. done. Qed.

Lemma entry_bytes_app l k : entry_bytes (l ++ k) = entry_bytes l + entry_bytes k.
Proof. unfold entry_bytes. induction l as [|e l IH]; cbn; [done|]. rewrite IH. lia. Qed.

Section evidence.
Context `{CollaborationLibraries}.
Context (count : nat) (bytes : N).

Lemma shed_newest entries : ∀ total,
  total = entry_bytes entries →
  newest count bytes entries (er_entries (shed count bytes entries total)) ∧
  er_total_bytes (shed count bytes entries total)
  = entry_bytes (er_entries (shed count bytes entries total)).
Proof.
  induction entries as [|entry entries IH]; intros total ->; cbn [shed].
  - split; [|done]. split; cbn.
    + by exists [].
    + split; cbn; lia.
    + intros dropped other Heq _. symmetry in Heq. apply app_nil in Heq as [_ ->]. done.
  - destruct (_ || _) eqn:Hover.
    + destruct (IH (entry_bytes (entry :: entries) - entry.1)) as [[(d & Hd) Hw Hl] Ht].
      { rewrite entry_bytes_cons. lia. }
      split; [|exact Ht]. split; [exists (entry :: d); by rewrite Hd at 1|done|].
      intros dropped other Heq Ho. destruct dropped as [|e dropped].
      * exfalso. cbn in Heq. subst other. destruct Ho as [Hc Hb].
        apply orb_true_iff in Hover as [Hx%Nat.ltb_lt|Hx%N.ltb_lt]; cbn in *; lia.
      * injection Heq as _ Heq. by eapply Hl.
    + split; [|done]. apply orb_false_iff in Hover as [Hc%Nat.ltb_ge Hb%N.ltb_ge]. split; cbn.
      * by exists [].
      * done.
      * intros dropped other Heq _. apply (f_equal length) in Heq. rewrite length_app in Heq.
        cbn in Heq. lia.
Qed.

Lemma newest_self entries : within count bytes entries → newest count bytes entries entries.
Proof.
  intros Hw. split; [by exists []|done|]. intros dropped other Heq _.
  apply (f_equal length) in Heq. rewrite length_app in Heq. lia.
Qed.

Lemma newest_snoc all kept kept' entry :
  newest count bytes all kept → newest count bytes (kept ++ [entry]) kept' →
  newest count bytes (all ++ [entry]) kept'.
Proof.
  intros [(d & ->) Hw Hl] [(d' & Hd') Hw' Hl']. split; [|done|].
  - exists (d ++ d'). by rewrite <- !app_assoc, <- Hd'.
  - intros dropped other Heq Ho. destruct other as [|e other] using rev_ind; [cbn; lia|]. clear IHother.
    rewrite app_assoc in Heq. apply app_inj_tail in Heq as [Heq <-].
    assert (within count bytes other) as Hwo.
    { destruct Ho as [Hc Hb]. rewrite entry_bytes_app in Hb. rewrite length_app in Hc.
      split; cbn in *; lia. }
    pose proof (Hl _ _ Heq Hwo) as Hlen.
    assert (∃ d2, kept = d2 ++ other) as (d2 & ->).
    { apply app_eq_inv in Heq as [(k & -> & ->)|(k & -> & ->)]; [|by exists k].
      rewrite length_app in Hlen. destruct k; cbn in Hlen; [by exists []|lia]. }
    apply (Hl' d2). { by rewrite app_assoc. } done.
Qed.

(** ** One entry, and those of a report *)

Definition accepted_entry (evidence : CollaborationTaskEvidence) : option Entry :=
  match evidence_bytes evidence with
  | Some size => if bytes <? size then None else Some (size, evidence)
  | None => None
  end.

Definition retention_ok (retention : EvidenceRetention) : Prop :=
  er_total_bytes retention = entry_bytes (er_entries retention) ∧
  within count bytes (er_entries retention).

Context (Hbytes : bytes + bytes <= u64_max).

Lemma retain_newest all retention evidence :
  retention_ok retention → newest count bytes all (er_entries retention) →
  let retention' := retain count bytes retention evidence in
  retention_ok retention' ∧
  newest count bytes (all ++ option_list (accepted_entry evidence)) (er_entries retention').
Proof.
  intros [Ht Hw] Hn. cbn zeta. unfold retain, accepted_entry.
  destruct (evidence_bytes evidence) as [size|]; [|by rewrite app_nil_r].
  destruct (N.ltb_spec bytes size) as [Hlt|Hle]; [by rewrite app_nil_r|]. cbn [option_list].
  assert (clamp_u64 (er_total_bytes retention + size)
          = entry_bytes (er_entries retention ++ [(size, evidence)])) as Hsum.
  { rewrite entry_bytes_app, Ht. cbn. destruct Hw as [_ Hb]. unfold clamp_u64. lia. }
  destruct (shed_newest (er_entries retention ++ [(size, evidence)]) _ Hsum) as [Hn' Ht'].
  split; [split; [done|apply Hn']|]. by eapply newest_snoc.
Qed.

Definition accepted_entries (prepared : list PreparedTask) (report : CollaborationReport) : list Entry :=
  rp_tasks report ≫= λ r,
    match prepared_of prepared r with
    | Some task => option_list (accepted_entry (task_evidence (rp_collaboration_id report) task r))
    | None => []
    end.
End evidence.

Section coordinator.
Context `{CollaborationLibraries}.
Context (limits : CollaborationLimits) (confinement : AgentProvider → CollaborationConfinement).
Context (Hbytes : maximum_retained_evidence_bytes limits + maximum_retained_evidence_bytes limits
                  <= u64_max).

Local Abbreviation count := (maximum_retained_evidence limits).
Local Abbreviation bytes := (maximum_retained_evidence_bytes limits).

Lemma report_evidence_newest prepared report retention :
  retention_ok count bytes retention →
  let retention' := retain_report_evidence limits prepared report retention in
  retention_ok count bytes retention' ∧
  newest count bytes (er_entries retention ++ accepted_entries bytes prepared report)
    (er_entries retention').
Proof.
  intros Hok. cbn zeta. unfold retain_report_evidence, accepted_entries.
  assert (newest count bytes (er_entries retention) (er_entries retention)) as Hn
    by (apply newest_self, Hok).
  revert Hn. generalize (er_entries retention) at 1 3 as all. revert retention Hok.
  generalize (rp_collaboration_id report) as id.
  induction (rp_tasks report) as [|r rs IH]; intros id retention Hok all Hn; cbn [foldl mbind list_bind].
  { by rewrite app_nil_r. }
  rewrite app_assoc. destruct (prepared_of prepared r) as [task|]; [|rewrite app_nil_r; by apply IH].
  destruct (retain_newest _ _ Hbytes all retention (task_evidence id task r) Hok Hn) as [Hok' Hn'].
  by apply IH.
Qed.

Lemma evidence_step co event co' :
  retention_ok count bytes (co_evidence co) → step limits confinement co event = Some co' →
  retention_ok count bytes (co_evidence co').
Proof.
  intros Hok. destruct event; cbn -[retain_report_evidence report_of]; intros Hs.
  1-3: by injection Hs as <-.
  - destruct (co_calls co !! call); [done|]. by injection Hs as <-.
  - destruct (active_run co call) as [run|]; [|done]. destruct (next_phase run); [|done].
    by injection Hs as <-.
  - destruct (active_run co call) as [run|]; [|done]. destruct (next_wave _ _ _); [|done].
    by injection Hs as <-.
  - destruct (active_run co call) as [run|]; [|done].
    apply worker_step_moves in Hs as (w & w' & next & results & _ & _ & _ & -> & _). done.
  - destruct (active_run co call) as [run|]; [|done]. destruct (run_over run); [|done].
    injection Hs as <-.
    by destruct (report_evidence_newest (ru_prepared run) (report_of run (co_clock co) now_ms) _ Hok).
Qed.

Lemma coordinated_evidence clock co :
  coordinated limits confinement clock co → retention_ok count bytes (co_evidence co).
Proof.
  intros (events & Hs). revert Hs.
  apply (steps_ind limits confinement (λ co, retention_ok count bytes (co_evidence co)));
    [apply evidence_step|]. split; [done|]. split; cbn; lia.
Qed.
End coordinator.

(** ** Every history

    The theorems are about all sequences of events of a coordinator: any number of calls at once,
    their threads interleaved in any way, any answers of the adapter, the clocks and the file
    system, and cancellations at any time. *)

Section guarantees.
Context `{CollaborationLibraries}.
Context (limits : CollaborationLimits) (confinement : AgentProvider → CollaborationConfinement).

(** ** Agents at work *)

Definition working_scope (worker : Worker) : option CanonicalPath :=
  match worker with Working task _ _ _ => Some (pt_scope_root task) | _ => None end.

(** The scopes of the agents at work, of all calls. *)
Definition agents_at_work (co : Coordinator) : list CanonicalPath :=
  map_to_list (co_calls co) ≫= λ entry,
    match entry.2 with Active run => omap working_scope (ru_workers run) | _ => [] end.

Lemma at_work_holders co : agents_at_work co `sublist_of` holders (co_calls co).
Proof.
  unfold agents_at_work, holders. induction (map_to_list (co_calls co)) as [|[c call] l IH]; [done|].
  cbn. apply sublist_app; [|done]. destruct call as [run| |]; cbn; [|constructor..].
  induction (ru_workers run) as [|w ws IHw]; [done|].
  rewrite !omap_app_cons. apply sublist_app; [|done]. destruct w; cbn; repeat constructor.
Qed.

Lemma pairwise_sublist {A} (R : A → A → Prop) l k : l `sublist_of` k → pairwise R k → pairwise R l.
Proof.
  induction 1 as [|x l k Hs IH|x l k Hs IH]; cbn; [done|intros [Hx Hk]|intros [_ Hk]; auto].
  split; [|auto]. rewrite Forall_forall in Hx |- *. intros y Hy. apply Hx.
  eapply elem_of_sublist; eauto.
Qed.
Context (Hlimits : limits_positive limits = true).

(** C29: At every moment at most [maximum_parallel_agents] agents are at work, over all calls of a
    coordinator; the scopes of any two do not overlap; and each works inside its workspace for a
    provider whose confinement is verified. *)
Theorem agents_confined clock co :
  coordinated limits confinement clock co →
  (length (agents_at_work co) ≤ maximum_parallel_agents limits)%nat ∧
  pairwise disjoint_paths (agents_at_work co) ∧
  ∀ call run task started_at started deadline,
    co_calls co !! call = Some (Active run) →
    Working task started_at started deadline ∈ ru_workers run →
    confinement (pt_provider task) = WorkspaceWriteIsolated ∧
    path_below (pt_workspace_root task) (pt_scope_root task) = true.
Proof.
  intros Hco. destruct (coordinated_gate _ _ _ _ Hco) as [_ _ Hd Hb].
  pose proof (at_work_holders co) as Hsub. split_and!.
  - apply sublist_length in Hsub. lia.
  - by eapply pairwise_sublist.
  - intros call run task started_at started deadline Hc Hw.
    destruct (coordinated_calls _ _ Hlimits _ _ Hco _ _ Hc) as [Hplan Hinv _].
    apply (pv_confined _ _ _ Hplan).
    destruct (ri_tasks _ _ _ _ _ _ Hinv) as (ended & _ & Ht). rewrite <- Ht, !elem_of_app.
    right. left. left. unfold in_flight. apply list_elem_of_omap. by eexists.
Qed.

(** C30: While an agent works on a task, every prerequisite of the task has succeeded, and every task
    of an earlier phase has its result. *)
Theorem agents_wait_for_prerequisites clock co call run task started_at started deadline :
  coordinated limits confinement clock co → co_calls co !! call = Some (Active run) →
  Working task started_at started deadline ∈ ru_workers run →
  (∀ parent, parent ∈ parents_of (ru_dependencies run) (pt_task_id task) →
     ∃ r, r ∈ ru_results run ∧ cr_task_id r = parent ∧ cr_state r = TaskSucceeded) ∧
  (∀ other, other ∈ ru_prepared run → pt_phase other < pt_phase task →
     ∃ r, r ∈ ru_results run ∧ cr_task_id r = pt_task_id other).
Proof.
  intros Hco Hc Hw. destruct (coordinated_calls _ _ Hlimits _ _ Hco _ _ Hc) as [Hplan Hinv _].
  assert (task ∈ in_flight run ++ untaken run) as Hin.
  { apply elem_of_app. left. apply list_elem_of_omap. by eexists. }
  pose proof (results_NoDup _ _ _ Hplan _ _ _ _ Hinv) as Hnd.
  destruct Hinv as [(ended & He & Ht) Hready _ _ [[_ Hearly]%StronglySorted_inv Hu]]. split.
  - intros parent Hp. apply completed_lookup; [done|]. by eapply Hready.
  - intros other Hother Hlt. apply Forall_cons in Hu as [Hu _].
    assert (other ∈ ended) as Hended.
    { rewrite <- Ht in Hother. rewrite Forall_forall in Hearly.
      apply elem_of_app in Hother as [Ho|Ho]; [done|]. exfalso. rewrite app_assoc in Ho.
      apply elem_of_app in Ho as [Ho|Ho].
      - assert (pt_phase task = pt_phase other); [|lia].
        apply Hu; [apply elem_of_app; by left|done].
      - apply elem_of_concat in Ho as (phase & Ho & Hphase).
        assert (pt_phase task < pt_phase other); [|lia].
        eapply Hearly; [done|apply elem_of_app; by left|done]. }
    apply list_elem_of_lookup in Hended as [i Hi].
    destruct (Forall2_lookup_l _ _ _ _ _ He Hi) as (r & Hr & Hrf).
    exists r. split; [by eapply list_elem_of_lookup_2|apply Hrf].
Qed.

(** The report of a call has one result for each task of its plan, in the order of phases and
    identifiers whatever the order of completion; a task is reported as blocked exactly when a
    prerequisite did not succeed; and each result is that of a prepared task, so evidence can be
    made of it. *)
Theorem report_is_complete clock co call run report :
  coordinated limits confinement clock co → co_calls co !! call = Some (Finished run report) →
  ((λ r, (cr_phase r, cr_task_id r)) <$> rp_tasks report)
  = sort_by (pair_cmp N.compare str_cmp) ((λ t, (pt_phase t, pt_task_id t)) <$> ru_prepared run) ∧
  ∀ r, r ∈ rp_tasks report →
    (∃ t, t ∈ ru_prepared run ∧ result_of t r) ∧
    (cr_state r = TaskDependencyBlocked ↔
     ∃ parent r', parent ∈ parents_of (ru_dependencies run) (cr_task_id r) ∧
       r' ∈ rp_tasks report ∧ cr_task_id r' = parent ∧ cr_state r' ≠ TaskSucceeded).
Proof.
  intros Hco Hc. destruct (coordinated_calls _ _ Hlimits _ _ Hco _ _ Hc) as (Hok & Hover & Hr).
  destruct (run_over_done _ _ Hok Hover) as (ended & He & Hp). rewrite Hr. split.
  - unfold report_order. rewrite (fmap_sort_by (λ r, (cr_phase r, cr_task_id r))).
    apply sort_by_perm_total; [apply _|].
    rewrite <- Hp. clear Hp Hr. induction He as [|t r ended results Hf _ IH]; [done|]. cbn.
    by rewrite IH, (rf_id _ _ Hf), (rf_phase _ _ Hf).
  - destruct Hok as [Hplan Hinv _]. pose proof (results_NoDup _ _ _ Hplan _ _ _ _ Hinv) as Hnd.
    setoid_rewrite elem_of_sort_by. intros r Hin. split.
    + apply list_elem_of_lookup in Hin as [i Hi].
      destruct (Forall2_lookup_r _ _ _ _ _ He Hi) as (t & Ht & Hf). exists t.
      split; [|done]. rewrite <- Hp. by eapply list_elem_of_lookup_2.
    + rewrite (ri_blocked _ _ _ _ _ _ Hinv r Hin). split.
      * intros (parent & Hpar & Hne).
        destruct (ri_settled _ _ _ _ _ _ Hinv r parent Hin Hpar) as [state Hs].
        apply completed_lookup in Hs as Hs'; [|done]. destruct Hs' as (r' & Hr' & Hid & Hst).
        exists parent, r'. split_and!; [done..|]. congruence.
      * intros (parent & r' & Hpar & Hr' & Hid & Hst). exists parent. split; [done|].
        rewrite completed_lookup by done. intros (r'' & Hr'' & Hid' & Hst').
        assert (r'' = r'); [|congruence]. eapply (NoDup_fmap_inj_on cr_task_id); [exact Hnd|done..|].
        congruence.
Qed.

(** C31: Every call comes to its end.  Each step of a call lowers the work it has left, at most ten
    times the number of its tasks at the start, unless the step changes nothing (a worker waits
    at the gate); and from every state of a call there is a way to its report by its own steps
    and the passage of time, whatever the other calls do or have done. *)
Theorem collaboration_ends clock co call run :
  coordinated limits confinement clock co → co_calls co !! call = Some (Active run) →
  (work_left run ≤ 10 * length (ru_prepared run))%nat ∧
  (∀ event co' run', step limits confinement co event = Some co' →
     co_calls co' !! call = Some (Active run') →
     run' = run ∨ (work_left run' < work_left run)%nat) ∧
  ∃ events co' run' report,
    Forall (own_event call) events ∧ steps limits confinement co events = Some co' ∧
    co_calls co' !! call = Some (Finished run' report) ∧ others_same call co co'.
Proof.
  intros Hco Hc. pose proof (coordinated_calls _ _ Hlimits _ _ Hco) as Hok. split_and!.
  - by eapply (coordinated_bounded limits confinement Hlimits clock co).
  - intros event co' run'. by apply run_step_lighter.
  - destruct (run_can_finish limits confinement Hlimits (S (work_left run)) co call run)
      as (events & co' & run' & report & Ho & Hs & Hc'); [lia|done..|].
    exists events, co', run', report. split_and!; [done..|]. by eapply own_steps_others.
Qed.

(** ** Cancellation *)

(** Cancellations are never taken back. *)
Lemma cancellation_stays co event co' id task_id :
  step limits confinement co event = Some co' →
  task_cancelled (control_of co id) task_id = true →
  task_cancelled (control_of co' id) task_id = true.
Proof.
  intros Hs Hcan. destruct event; cbn -[report_of retain_report_evidence] in Hs.
  - by injection Hs as <-.
  - injection Hs as <-. rewrite control_of_insert. case_bool_decide; [|done]. by subst.
  - injection Hs as <-. rewrite control_of_insert. case_bool_decide as Hid; [|done]. subst id.
    unfold task_cancelled in *. cbn. apply orb_true_iff in Hcan as [->|Ht]; [done|].
    destruct (decide (task_id0 = task_id)) as [->|Hne]; [by rewrite lookup_insert_eq, orb_true_r|].
    by rewrite lookup_insert_ne, Ht, orb_true_r.
  - destruct (co_calls co !! call); [done|]. by injection Hs as <-.
  - destruct (active_run co call); [|done]. destruct (next_phase _); [|done]. by injection Hs as <-.
  - destruct (active_run co call); [|done]. destruct (next_wave _ _ _); [|done]. by injection Hs as <-.
  - destruct (active_run co call); [|done].
    apply worker_step_moves in Hs as (w & w' & next & results & _ & _ & _ & _ & _ & ->). done.
  - destruct (active_run co call); [|done]. destruct (run_over _); [|done]. by injection Hs as <-.
Qed.

(** A call that has been made stays. *)
Lemma call_stays co event co' call c :
  step limits confinement co event = Some co' → co_calls co !! call = Some c →
  is_Some (co_calls co' !! call).
Proof.
  intros Hs Hc. destruct event; cbn -[report_of retain_report_evidence] in Hs.
  1-3: by injection Hs as <-; eexists.
  1: destruct (co_calls co !! call0); [done|].
  2: destruct (active_run co call0); [|done]; destruct (next_phase _); [|done].
  3: destruct (active_run co call0); [|done]; destruct (next_wave _ _ _); [|done].
  4: destruct (active_run co call0); [|done];
     apply worker_step_moves in Hs as (w & w' & next & results & _ & _ & -> & _).
  5: destruct (active_run co call0); [|done]; destruct (run_over _); [|done].
  all: try injection Hs as <-; cbn -[report_of]; apply lookup_insert_is_Some'; right; by eexists.
Qed.

(** An agent at work was at work before the event, or its task was not cancelled. *)
Lemma working_before co event co' call run run' task started_at started deadline :
  step limits confinement co event = Some co' →
  co_calls co !! call = Some (Active run) → co_calls co' !! call = Some (Active run') →
  Working task started_at started deadline ∈ ru_workers run' →
  ru_control run' = ru_control run ∧
  (Working task started_at started deadline ∈ ru_workers run ∨
   task_cancelled (control_of co (ru_control run)) (pt_task_id task) = false).
Proof.
  intros Hs Hc Hc' Hw.
  destruct (call_step _ _ _ _ _ _ _ Hs Hc') as [Hc2|[(Hn & _)|
    (run0 & Hc2 & [(run1 & [= <-] & Hm)|(_ & now & ?)])]]; [| | |done].
  - assert (run' = run) as -> by congruence. auto.
  - congruence.
  - rewrite Hc in Hc2. injection Hc2 as <-.
    destruct (run_moves_frame _ _ _ _ Hm) as (_ & _ & Hcontrol). split; [done|].
    destruct Hm as [run' Hn|now_ms run' Hn|i w w' next results gate Hi Hm].
    + unfold next_phase in Hn. destruct (ru_phases run); [done|]. destruct (_ && _); [|done].
      injection Hn as <-. by apply elem_of_nil in Hw.
    + unfold next_wave in Hn. destruct (_ && _); [|done]. injection Hn as <-.
      by apply elem_of_replicate in Hw as [? _].
    + cbn in Hw. apply list_elem_of_lookup in Hw as [k Hk].
      apply list_lookup_insert_Some in Hk as [(-> & Heq & _)|[_ Hk]];
        [|left; by eapply list_elem_of_lookup_2].
      right. destruct Hm; try done. by injection Heq as <- _ _ _.
Qed.

(** Once a task is cancelled, by itself or with its collaboration, no agent starts on it any
    more: whoever is seen at work on it later was at work already. *)
Theorem cancelled_task_is_not_started co call run events co' run' task started_at started deadline :
  co_calls co !! call = Some (Active run) →
  task_cancelled (control_of co (ru_control run)) (pt_task_id task) = true →
  steps limits confinement co events = Some co' → co_calls co' !! call = Some (Active run') →
  Working task started_at started deadline ∈ ru_workers run' →
  Working task started_at started deadline ∈ ru_workers run.
Proof.
  intros Hc Hcan Hs Hc' Hw.
  set (kept := λ co1, is_Some (co_calls co1 !! call) ∧
    task_cancelled (control_of co1 (ru_control run)) (pt_task_id task) = true ∧
    ∀ run1, co_calls co1 !! call = Some (Active run1) → ru_control run1 = ru_control run ∧
      (Working task started_at started deadline ∈ ru_workers run1 →
       Working task started_at started deadline ∈ ru_workers run)).
  enough (kept co') as (_ & _ & Hkept) by (by eapply Hkept). revert Hs.
  apply (steps_ind limits confinement kept).
  - clear. intros co1 event co2 ([c Hc] & Hcan & Hkept) Hs. split_and!.
    + by eapply call_stays.
    + by eapply cancellation_stays.
    + intros run2 Hc2. destruct (call_step _ _ _ _ _ _ _ Hs Hc2) as [Hc1|[(Hn & _)|
        (run1 & Hc1 & _)]]; [by apply Hkept|congruence|].
      destruct (Hkept _ Hc1) as [Hcontrol Hold]. split.
      * destruct (call_step _ _ _ _ _ _ _ Hs Hc2) as [Hc3|[(Hn & _)|
          (run3 & Hc3 & [(run4 & [= <-] & Hm)|(_ & now & ?)])]]; [|congruence| |done].
        -- by apply Hkept.
        -- destruct (run_moves_frame _ _ _ _ Hm) as (_ & _ & ->). by apply Hkept.
      * intros Hw2. destruct (working_before _ _ _ _ _ _ _ _ _ _ Hs Hc1 Hc2 Hw2) as [_ [?|Hno]];
          [by apply Hold|]. congruence.
  - split_and!; [by eexists|done|]. intros run1 Hc1. rewrite Hc in Hc1. by injection Hc1 as <-.
Qed.

(** ** Evidence *)

(** After a report the coordinator keeps, of the evidence it kept and that of the report, the
    longest list of newest entries within the two limits, and counts their bytes exactly. *)
Theorem evidence_keeps_newest clock co call run now_ms co' :
  maximum_retained_evidence_bytes limits + maximum_retained_evidence_bytes limits <= u64_max →
  coordinated limits confinement clock co → co_calls co !! call = Some (Active run) →
  step limits confinement co (Finish call now_ms) = Some co' →
  newest (maximum_retained_evidence limits) (maximum_retained_evidence_bytes limits)
    (er_entries (co_evidence co)
     ++ accepted_entries (maximum_retained_evidence_bytes limits) (ru_prepared run)
          (report_of run (co_clock co) now_ms))
    (er_entries (co_evidence co')) ∧
  er_total_bytes (co_evidence co') = entry_bytes (er_entries (co_evidence co')).
Proof.
  intros Hbytes Hco Hc Hs. pose proof (coordinated_evidence _ _ Hbytes _ _ Hco) as Hok.
  cbn -[report_of retain_report_evidence] in Hs. unfold active_run in Hs. rewrite Hc in Hs.
  destruct (run_over run); [|done]. injection Hs as <-.
  destruct (report_evidence_newest _ Hbytes (ru_prepared run) (report_of run (co_clock co) now_ms) _ Hok)
    as [[Ht _] Hn]. split; [exact Hn|exact Ht].
Qed.
End guarantees.
