(* ===== verification/CollaborationWitnesses.v ===== *)
(** * Collaborations: the theorems on a concrete history

    Two calls run at once.  The first has a task in each of two phases, the second depending on
    the first; the second call has one task in another workspace. *)

From S2P Require Import Prelude Order Text StoreBase Sessions Collaboration CollaborationRun.
From S2P Require Import CollaborationPlans CollaborationGate CollaborationRules CollaborationProofs.
From S2P Require Import CollaborationProgress CollaborationGuarantees.

Local Open Scope N_scope.

#[local] Instance sample_libraries : CollaborationLibraries := {|
  text_sha256 := λ text, text;
  evidence_bytes := λ evidence, Some (100 + byte_len (ce_task_id evidence));
  last_instant := u64_max
|}.

Definition sample_limits : CollaborationLimits :=
  {| maximum_parallel_agents := 2; maximum_tasks_per_run := 4; maximum_task_timeout := 1000;
     maximum_prompt_bytes := 64; maximum_output_bytes := 64; maximum_retained_evidence := 8;
     maximum_retained_evidence_bytes := 150 |}.

Definition codex_only (provider : AgentProvider) : CollaborationConfinement :=
  match provider with CodexAgent => WorkspaceWriteIsolated | _ => Unverified end.

Definition plain_files (_ : nat) : FileAnswers :=
  {| fa_canonicalize := λ path, Some (filter (λ name, is_empty name = false) (split_char 47 path));
     fa_directory := λ _, true |}.

Definition collab_task (id root scope : str) (workspace phase : N) : CollaborationTask :=
  {| ct_task_id := id; ct_workspace_id := workspace; ct_workspace_root := root;
     ct_scope_root := scope; ct_provider := CodexAgent; ct_prompt := lit " Do it. ";
     ct_phase := phase; ct_timeout := 1000 |}.

Definition first_plan : CollaborationPlan :=
  {| cp_collaboration_id := 11;
     cp_tasks := [collab_task (lit "b") (lit "/w1") (lit "/w1/r") 1 1;
                  collab_task (lit "a") (lit "/w1") (lit "/w1/r") 1 0] |}.
Definition first_dependencies : Dependencies := {[ lit "b" := [lit "a"] ]}.

Definition second_plan : CollaborationPlan :=
  {| cp_collaboration_id := 12;
     cp_tasks := [collab_task (lit "c") (lit "/w2") (lit "/w2") 2 0] |}.

Definition input_of (outcome : option CollaborationAdapterOutcome) : StepInput :=
  {| si_now_ms := 5; si_elapsed := 1; si_outcome := outcome |}.
Definition move (call : N) : Event := WorkerStep call 0 (input_of None).
Definition answer (call : N) (outcome : CollaborationAdapterOutcome) : Event :=
  WorkerStep call 0 (input_of (Some outcome)).

(** Both calls have an agent at work after these. *)
Definition opening : list Event :=
  [Execute 1 0 first_plan first_dependencies plain_files 1%Z;
   Execute 2 0 second_plan ∅ plain_files 1%Z;
   NextPhase 1; NextWave 1 (λ _, 2%Z); NextPhase 2; NextWave 2 (λ _, 2%Z);
   move 1; move 1; move 1; move 2; move 2; move 2].

(** The first task of the first call succeeds and the second begins. *)
Definition middle : list Event :=
  [answer 1 (AdapterSucceeded (lit "done")); move 1; move 1; move 1; move 1;
   NextPhase 1; NextWave 1 (λ _, 3%Z); move 1; move 1; move 1].

(** The second fails. *)
Definition ending : list Event :=
  [answer 1 (AdapterFailure AgentFailed (lit "no")); move 1; move 1; move 1; move 1].

Definition run_from (co : Coordinator) (events : list Event) : Coordinator :=
  default co (steps sample_limits codex_only co events).

Definition co0 : Coordinator := Eval vm_compute in run_from (new_coordinator 0) opening.
Definition co1 : Coordinator := Eval vm_compute in run_from co0 middle.
Definition co2 : Coordinator := Eval vm_compute in run_from co1 ending.
Definition co3 : Coordinator := Eval vm_compute in run_from co2 [Finish 1 9].

Definition idle_run : Run := new_run first_plan 0 ∅ [] 0 0.
Definition run_in (co : Coordinator) (call : N) : Run := default idle_run (active_run co call).
Definition working_in (run : Run) : PreparedTask :=
  match ru_workers run with
  | Working task _ _ _ :: _ => task
  | _ => {| pt_task_id := []; pt_workspace_id := 0; pt_workspace_root := []; pt_scope_root := [];
            pt_provider := CodexAgent; pt_prompt := []; pt_phase := 0; pt_timeout := 0 |}
  end.

Example opening_runs : steps sample_limits codex_only (new_coordinator 0) opening = Some co0.
Proof. vm_compute. reflexivity. Qed.
Example two_agents : agents_at_work co0 = [[lit "w2"]; [lit "w1"; lit "r"]].
Proof. vm_compute. reflexivity. Qed.
Example middle_runs : steps sample_limits codex_only co0 middle = Some co1.
Proof. vm_compute. reflexivity. Qed.
Example ending_runs : steps sample_limits codex_only co1 ending = Some co2.
Proof. vm_compute. reflexivity. Qed.

Lemma prepare_decides_witness :
  ∃ prepared, prepare sample_limits codex_only plain_files (cp_tasks first_plan) = Ok prepared ∧
    pairwise compatible_tasks prepared.
Proof.
  eexists. split; [vm_compute; reflexivity|].
  eapply (prepare_decides sample_limits codex_only plain_files (cp_tasks first_plan)).
  vm_compute. reflexivity.
Defined.

Lemma co0_reached : coordinated sample_limits codex_only 0 co0.
Proof. exists opening. vm_compute. reflexivity. Qed.
Lemma co1_reached : coordinated sample_limits codex_only 0 co1.
Proof. exists (opening ++ middle). vm_compute. reflexivity. Qed.
Lemma co2_reached : coordinated sample_limits codex_only 0 co2.
Proof. exists (opening ++ middle ++ ending). vm_compute. reflexivity. Qed.
Lemma co3_reached : coordinated sample_limits codex_only 0 co3.
Proof. exists (opening ++ middle ++ ending ++ [Finish 1 9]). vm_compute. reflexivity. Qed.

Lemma agents_confined_witness :
  (length (agents_at_work co0) ≤ maximum_parallel_agents sample_limits)%nat ∧
  pairwise disjoint_paths (agents_at_work co0) ∧
  ∀ call run task started_at started deadline,
    co_calls co0 !! call = Some (Active run) →
    Working task started_at started deadline ∈ ru_workers run →
    codex_only (pt_provider task) = WorkspaceWriteIsolated ∧
    path_below (pt_workspace_root task) (pt_scope_root task) = true.
Proof. exact (agents_confined sample_limits codex_only eq_refl 0 co0 co0_reached). Defined.

(** The second task works while the first has succeeded. *)
Definition second_task : PreparedTask := Eval vm_compute in working_in (run_in co1 1).

Lemma agents_wait_for_prerequisites_witness :
  pt_task_id second_task = lit "b" ∧
  (∀ parent, parent ∈ parents_of first_dependencies (lit "b") →
     ∃ r, r ∈ ru_results (run_in co1 1) ∧ cr_task_id r = parent ∧ cr_state r = TaskSucceeded) ∧
  (∀ other, other ∈ ru_prepared (run_in co1 1) → pt_phase other < 1 →
     ∃ r, r ∈ ru_results (run_in co1 1) ∧ cr_task_id r = pt_task_id other).
Proof.
  split; [reflexivity|].
  exact (agents_wait_for_prerequisites sample_limits codex_only eq_refl 0 co1 1 (run_in co1 1)
           second_task 5 1 1001 co1_reached eq_refl (list_elem_of_here _ _)).
Defined.

Definition the_report : CollaborationReport := report_of (run_in co2 1) (co_clock co2) 9.

Lemma report_is_complete_witness :
  cr_task_id <$> rp_tasks the_report = [lit "a"; lit "b"] ∧
  ((λ r, (cr_phase r, cr_task_id r)) <$> rp_tasks the_report)
  = sort_by (pair_cmp N.compare str_cmp)
      ((λ t, (pt_phase t, pt_task_id t)) <$> ru_prepared (run_in co2 1)) ∧
  ∀ r, r ∈ rp_tasks the_report →
    (∃ t, t ∈ ru_prepared (run_in co2 1) ∧ result_of t r) ∧
    (cr_state r = TaskDependencyBlocked ↔
     ∃ parent r', parent ∈ parents_of (ru_dependencies (run_in co2 1)) (cr_task_id r) ∧
       r' ∈ rp_tasks the_report ∧ cr_task_id r' = parent ∧ cr_state r' ≠ TaskSucceeded).
Proof.
  split; [vm_compute; reflexivity|].
  exact (report_is_complete sample_limits codex_only eq_refl 0 co3 1 (run_in co2 1) the_report
           co3_reached eq_refl).
Defined.

Lemma collaboration_ends_witness :
  work_left (run_in co0 1) = 15%nat ∧
  ∃ events co' run' report,
    Forall (own_event 1) events ∧ steps sample_limits codex_only co0 events = Some co' ∧
    co_calls co' !! 1 = Some (Finished run' report) ∧ others_same 1 co0 co'.
Proof.
  split; [vm_compute; reflexivity|].
  exact (proj2 (proj2 (collaboration_ends sample_limits codex_only eq_refl 0 co0 1 (run_in co0 1)
                         co0_reached eq_refl))).
Defined.

(** The first call is cancelled while both agents work; time passes and its agent stays. *)
Definition co_cancelled : Coordinator := Eval vm_compute in run_from co0 [CancelAll 0].
Definition co_later : Coordinator := Eval vm_compute in run_from co_cancelled [Tick 7; move 2].

Lemma cancelled_task_is_not_started_witness :
  Working (working_in (run_in co0 1)) 5 0 1000 ∈ ru_workers (run_in co_cancelled 1).
Proof.
  exact (cancelled_task_is_not_started sample_limits codex_only co_cancelled 1
           (run_in co_cancelled 1) [Tick 7; move 2] co_later (run_in co_later 1)
           (working_in (run_in co0 1)) 5 0 1000 eq_refl eq_refl eq_refl eq_refl
           (list_elem_of_here _ _)).
Defined.

(** Of the two results of the first call only the newer one fits the limit of 150 bytes. *)
Lemma evidence_keeps_newest_witness :
  (ce_task_id ∘ snd) <$> er_entries (co_evidence co3) = [lit "b"] ∧
  newest 8 150
    (er_entries (co_evidence co2) ++ accepted_entries 150 (ru_prepared (run_in co2 1)) the_report)
    (er_entries (co_evidence co3)) ∧
  er_total_bytes (co_evidence co3) = entry_bytes (er_entries (co_evidence co3)).
Proof.
  split; [vm_compute; reflexivity|].
  refine (evidence_keeps_newest sample_limits codex_only 0 co2 1 (run_in co2 1) 9 co3 _ co2_reached
           eq_refl _); vm_compute; [discriminate|reflexivity].
Defined.
