(* ===== verification/Worktrees.v ===== *)
(** * Files of a worktree: reading, saving, restoring, capturing
    ([wts-git/src/source_file.rs], [wts-git/src/checkpoint.rs])

    A worktree is a directory with an identity, nodes below it, and what Git's commands say of it.
    Other programs use it at the same time, so every access is preceded by a moment at which they
    may have changed the worktrees in any way; a moment also decides whether the system calls
    after it work.  What a function does between two moments happens at once.  In particular the
    last comparison of a file and the [rename] or [unlink] after it are one moment: an edit of
    another program between these two system calls is not modelled. *)

From S2P Require Import Prelude Order Text StoreBase Captures.

Local Open Scope N_scope.

(** ** Worktrees *)

Inductive GitError :=
| InvalidWorktreeFilePath | InvalidWorktreeFileRevision | WorktreeFileUnavailable
| WorktreeFileTooLarge | WorktreeFileConflict | WorktreeFileNotUtf8 | GitFilesystem
| GitCommandFailed.

#[export] Instance git_error_eq_dec : EqDecision GitError.
Proof. solve_decision. Defined.

(** Device, inode and the times of change of a file. *)
Record Stamp := {
  sp_dev : N; sp_ino : N;
  sp_mtime : N; sp_mtime_nsec : N;
  sp_ctime : N; sp_ctime_nsec : N
}.

(** The mode of a regular file is its permission bits; links and other special files are
    [Special]. *)
Inductive Node :=
| Directory (inode : N)
| Regular (content : list N) (mode : N) (stamp : Stamp)
| Special.

(** Nodes are found by their components; [wk_index] is the output of [ls-files --stage], and a
    missing head or branch is a command that failed. *)
Record Worktree := {
  wk_dev : N;
  wk_ino : N;
  wk_nodes : gmap (list str) Node;
  wk_head : option str;
  wk_branch : option str;
  wk_index : option (list N)
}.

Abbreviation Worktrees := (gmap str Worktree).

(** SHA-256 with its prefix, the paths Git lists in a worktree (tracked or untracked and not
    ignored; different from the head; untracked and not ignored), and whether the parent of a
    path is a directory when links are followed. *)
Class GitHost := {
  bytes_sha256 : list N → str;
  parent_is_dir : Worktree → str → bool;
  git_listed : Worktree → option (gset str);
  git_changed : Worktree → option (gset str);
  git_untracked : Worktree → option (gset str)
}.

Definition MAX_WORKTREE_SOURCE_BYTES : N := 2 * 1024 * 1024.
Definition MAX_CHECKPOINT_FILES : nat := 2048.
Definition MAX_CHECKPOINT_TOTAL_BYTES : N := 32 * 1024 * 1024.

(** ** Paths in a worktree *)

Definition valid_part (part : str) : bool :=
  negb (is_empty part || bool_decide (part = lit ".") || bool_decide (part = lit "..")
        || bool_decide (to_ascii_lowercase part = lit ".git")).

Definition components (file_path : str) : result (list str) GitError :=
  ensure guard_err (is_empty file_path || (4096 <? byte_len file_path)
                    || existsb (λ c, c =? 92) file_path || existsb is_control file_path)
           InvalidWorktreeFilePath in
  let parts := split_char 47 file_path in
  ensure guard_err ((64 <? length parts)%nat || existsb (λ part, negb (valid_part part)) parts)
           InvalidWorktreeFilePath in
  Ok parts.

(** Where a walk from the root to the parent of a path ends. *)
Inductive Walk := Reached (inode : N) | Missing | Obstructed.

(** Each component is opened in turn, without following links. *)
Fixpoint walk (nodes : gmap (list str) Node) (inode : N) (prefix parts : list str) : Walk :=
  match parts with
  | [] | [_] => Reached inode
  | part :: parts' =>
      match nodes !! (prefix ++ [part]) with
      | Some (Directory inode') => walk nodes inode' (prefix ++ [part]) parts'
      | None => Missing
      | Some _ => Obstructed
      end
  end.

(** ** Contents *)

Definition le_bytes (n : N) : list N := (λ k, N.shiftr n (8 * k) mod 256) <$> [0; 1; 2; 3; 4; 5; 6; 7].

Record RawSource := { rs_content : list N; rs_revision : str }.

Record WorktreeSource := { ws_file_path : str; ws_content : str; ws_revision : str }.

Fixpoint decode_utf8 (fuel : nat) (bytes : list N) : option str :=
  match fuel, bytes with
  | _, [] => Some []
  | O, _ => None
  | S fuel', _ =>
      match utf8_decode_char bytes with
      | Some (c, rest) => cons c <$> decode_utf8 fuel' rest
      | None => None
      end
  end.

(** [String::from_utf8]: the text whose encoding the bytes are. *)
Definition from_utf8 (bytes : list N) : option str :=
  match decode_utf8 (length bytes) bytes with
  | Some s => if bool_decide (utf8 s = bytes) && valid_str s then Some s else None
  | None => None
  end.

Definition text_source (source : RawSource) (file_path : str) : result WorktreeSource GitError :=
  ensure guard_err (existsb (λ byte, byte =? 0) (rs_content source)) WorktreeFileNotUtf8 in
  let? content := ok_or (from_utf8 (rs_content source)) WorktreeFileNotUtf8 in
  Ok {| ws_file_path := file_path; ws_content := content; ws_revision := rs_revision source |}.

(** "sha256:" and 64 lower-case hexadecimal digits. *)
Definition revision_format (value : str) : bool :=
  match strip_prefix (lit "sha256:") value with
  | Some hash => (byte_len hash =? 64) && forallb is_lower_hex hash
  | None => false
  end.

Section git.
Context `{GitHost}.

Definition revision (content : list N) (mode : N) (stamp : Stamp) : str :=
  bytes_sha256 (([sp_dev stamp; sp_ino stamp; N.of_nat (length content); sp_mtime stamp;
                  sp_mtime_nsec stamp; sp_ctime stamp; sp_ctime_nsec stamp; mode] ≫= le_bytes)
                ++ content).

(** The identity of a root: its path, device and inode. *)
Definition root_identity (root : str) (tree : Worktree) : str :=
  bytes_sha256 (utf8 (root ++ lit ":" ++ dec (wk_dev tree) ++ lit ":" ++ dec (wk_ino tree))).

(** ** Looking at a file, at one moment *)

Definition open_root (trees : Worktrees) (root : str) (expected : option str) :
    result Worktree GitError :=
  let? tree := ok_or (trees !! root) WorktreeFileUnavailable in
  match expected with
  | Some identity =>
      if bool_decide (root_identity root tree = identity) then Ok tree
      else Err WorktreeFileConflict
  | None => Ok tree
  end.

(** The inode of the parent directory. *)
Definition parent_checked (trees : Worktrees) (root : str) (parts : list str)
    (expected : option str) : result (Worktree * N) GitError :=
  let? tree := open_root trees root expected in
  match walk (wk_nodes tree) (wk_ino tree) [] parts with
  | Reached inode => Ok (tree, inode)
  | _ => Err WorktreeFileUnavailable
  end.

Definition read_node (node : option Node) : result (RawSource * N) GitError :=
  match node with
  | Some (Regular content mode stamp) =>
      if MAX_WORKTREE_SOURCE_BYTES <? N.of_nat (length content) then Err WorktreeFileTooLarge
      else Ok ({| rs_content := content; rs_revision := revision content mode stamp |}, mode)
  | _ => Err WorktreeFileUnavailable
  end.

Definition read (trees : Worktrees) (root file_path : str) : result WorktreeSource GitError :=
  let? parts := components file_path in
  let? (tree, _) := parent_checked trees root parts None in
  let? (source, _) := read_node (wk_nodes tree !! parts) in
  text_source source file_path.

(** A file and its mode, or that there is none. *)
Definition checkpoint_raw_checked (trees : Worktrees) (root file_path : str)
    (expected : option str) : result (option (RawSource * N)) GitError :=
  let? parts := components file_path in
  let? tree := open_root trees root expected in
  match walk (wk_nodes tree) (wk_ino tree) [] parts with
  | Missing => Ok None
  | Obstructed => Err WorktreeFileUnavailable
  | Reached _ =>
      match wk_nodes tree !! parts with
      | None => Ok None
      | Some node => rmap Some (read_node (Some node))
      end
  end.

(** ** Moments *)

(** What happens to the system calls after a moment: they work, they fail, or the file is
    replaced but a later call fails. *)
Inductive Fate := Works | Breaks | BreaksAfter.

#[export] Instance fate_eq_dec : EqDecision Fate.
Proof. solve_decision. Defined.

(** [mo_stamp] is the stamp of a file that is written, [mo_inode] the inode of a directory that
    is made. *)
Record Moment := {
  mo_edit : Worktrees → Worktrees;
  mo_fate : Fate;
  mo_now : Z;
  mo_stamp : Stamp;
  mo_inode : N
}.

Definition plain_moment : Moment :=
  {| mo_edit := id; mo_fate := Works; mo_now := 0;
     mo_stamp := {| sp_dev := 0; sp_ino := 0; sp_mtime := 0; sp_mtime_nsec := 0; sp_ctime := 0;
                    sp_ctime_nsec := 0 |};
     mo_inode := 0 |}.

(** A file the program replaced: the node it found there and the one it left. *)
Record FileWrite := {
  fw_root : str;
  fw_path : list str;
  fw_old : option Node;
  fw_new : option Node
}.

(** The worktrees, the moments to come, and the files replaced so far, the latest first; the
    last is kept for the theorems only. *)
Record Scene := {
  sn_trees : Worktrees;
  sn_script : list Moment;
  sn_writes : list FileWrite
}.

Definition next_moment (s : Scene) : Moment * Scene :=
  match sn_script s with
  | [] => (plain_moment, s)
  | m :: script =>
      (m, {| sn_trees := mo_edit m (sn_trees s); sn_script := script; sn_writes := sn_writes s |})
  end.

Definition GitAct (A : Type) : Type := Scene → result A GitError * Scene.

Definition git_ret {A} (x : A) : GitAct A := λ s, (Ok x, s).
Definition git_lift {A} (r : result A GitError) : GitAct A := λ s, (r, s).
Definition git_bind {A B} (m : GitAct A) (k : A → GitAct B) : GitAct B := λ s,
  match m s with
  | (Ok x, s) => k x s
  | (Err e, s) => (Err e, s)
  end.

Notation "'git!' x ':=' m 'in' k" := (git_bind m (λ x, k))
  (at level 10, x pattern, m at level 100, k at level 200,
   format "'[v' 'git!'  x  ':='  m  'in'  '/' k ']'") : wts_scope.

(** A look at the worktrees at the next moment. *)
Definition look {A} (f : Worktrees → result A GitError) : GitAct A := λ s,
  let '(m, s) := next_moment s in
  (match mo_fate m with Works => f (sn_trees s) | _ => Err WorktreeFileUnavailable end, s).

(** The node at a path becomes [new]; [None] removes it. *)
Definition with_node (tree : Worktree) (parts : list str) (new : option Node) : Worktree :=
  {| wk_dev := wk_dev tree; wk_ino := wk_ino tree;
     wk_nodes := match new with
                 | Some node => <[parts := node]> (wk_nodes tree)
                 | None => delete parts (wk_nodes tree)
                 end;
     wk_head := wk_head tree; wk_branch := wk_branch tree; wk_index := wk_index tree |}.

Definition put_node (s : Scene) (root : str) (tree : Worktree) (parts : list str)
    (new : option Node) : Scene :=
  {| sn_trees := <[root := with_node tree parts new]> (sn_trees s);
     sn_script := sn_script s;
     sn_writes := {| fw_root := root; fw_path := parts; fw_old := wk_nodes tree !! parts;
                     fw_new := new |} :: sn_writes s |}.

(** At the next moment: if [allowed], the node at a path is replaced or removed, unless the
    system calls fail before that.  The stamp of a new file is known then. *)
Definition publish {A} (root : str) (parts : list str)
    (allowed : Worktrees → result (Worktree * option (Stamp → Node) * (Stamp → A)) GitError) :
    GitAct A := λ s,
  let '(m, s) := next_moment s in
  match mo_fate m with
  | Breaks => (Err GitFilesystem, s)
  | fate =>
      match allowed (sn_trees s) with
      | Err e => (Err e, s)
      | Ok (tree, new, x) =>
          (match fate with BreaksAfter => Err GitFilesystem | _ => Ok (x (mo_stamp m)) end,
           put_node s root tree parts ((λ node, node (mo_stamp m)) <$> new))
      end
  end.

(** [same_parent], for a parent seen before. *)
Definition same_parent (trees : Worktrees) (root : str) (parts : list str) (inode : N)
    (expected : option str) : result Worktree GitError :=
  let? (tree, current) := parent_checked trees root parts expected in
  ensure guard_err (negb (current =? inode)) WorktreeFileConflict in
  Ok tree.

(** ** Saving *)

(** The file is compared, a temporary file is written, then the parent and the file are compared
    again and the temporary file is renamed over it. *)
Definition save_raw_with_mode (root file_path : str) (content : list N) (expected_revision : str)
    (mode : option N) (expected : option str) : GitAct RawSource :=
  git! parts := git_lift (components file_path) in
  git! _ := git_lift (guard_err (negb (revision_format expected_revision))
                        InvalidWorktreeFileRevision) in
  git! _ := git_lift (guard_err (MAX_WORKTREE_SOURCE_BYTES <? N.of_nat (length content))
                        WorktreeFileTooLarge) in
  git! (inode, old_mode) := look (λ trees,
      let? (tree, inode) := parent_checked trees root parts expected in
      let? (source, old_mode) := read_node (wk_nodes tree !! parts) in
      ensure guard_err (negb (bool_decide (rs_revision source = expected_revision)))
               WorktreeFileConflict in
      Ok (inode, old_mode)) in
  publish root parts (λ trees,
      let? tree := same_parent trees root parts inode expected in
      let? (source, _) := read_node (wk_nodes tree !! parts) in
      ensure guard_err (negb (bool_decide (rs_revision source = expected_revision)))
               WorktreeFileConflict in
      let mode := default old_mode mode in
      Ok (tree, Some (Regular content mode),
          λ stamp, {| rs_content := content; rs_revision := revision content mode stamp |})).

Definition save_with_mode (root file_path content expected_revision : str) (mode : option N)
    (expected : option str) : GitAct WorktreeSource :=
  git! _ := git_lift (guard_err (existsb (λ c, c =? 0) content) WorktreeFileNotUtf8) in
  git! saved := save_raw_with_mode root file_path (utf8 content) expected_revision mode expected in
  git_lift (text_source saved file_path).

Definition save (root file_path content expected_revision : str) : GitAct WorktreeSource :=
  save_with_mode root file_path content expected_revision None None.

(** ** Restoring *)

(** What a restore expects at a path: the hash and mode of a file, or that there is none. *)
Definition file_hash (current : option (RawSource * N)) : option str * option N :=
  ((λ c, bytes_sha256 (rs_content c.1)) <$> current, snd <$> current).

Definition restore_raw_checked (root file_path : str) (content : option (list N))
    (mode : option N) (expected_sha256 : option str) (expected_mode : option N)
    (expected : option str) : GitAct () :=
  git! parts := git_lift (components file_path) in
  git! _ := git_lift (guard_err
      (match content with
       | Some text => MAX_WORKTREE_SOURCE_BYTES <? N.of_nat (length text)
       | None => false end
       || match mode with Some mode => 511 <? mode | None => false end
       || negb (bool_decide (is_Some content ↔ is_Some mode)))
      WorktreeFileUnavailable) in
  git! current := look (λ trees, checkpoint_raw_checked trees root file_path expected) in
  git! _ := git_lift (guard_err (negb (bool_decide (file_hash current
                                                    = (expected_sha256, expected_mode))))
                        WorktreeFileConflict) in
  match current, content with
  | Some (source, _), Some content =>
      git! _ := save_raw_with_mode root file_path content (rs_revision source) mode expected in
      git_ret ()
  | Some (source, _), None =>
      git! inode := look (λ trees, rmap snd (parent_checked trees root parts expected)) in
      publish root parts (λ trees,
          let? tree := same_parent trees root parts inode expected in
          let? (now, _) := read_node (wk_nodes tree !! parts) in
          ensure guard_err (negb (bool_decide (rs_revision now = rs_revision source)))
                   WorktreeFileConflict in
          Ok (tree, None, λ _, ()))
  | None, None =>
      look (λ trees, rmap (λ _, ()) (parent_checked trees root parts expected))
  | None, Some content =>
      git! inode := look (λ trees, rmap snd (parent_checked trees root parts expected)) in
      publish root parts (λ trees,
          let? tree := same_parent trees root parts inode expected in
          ensure guard_err (bool_decide (is_Some (wk_nodes tree !! parts)))
                   WorktreeFileConflict in
          Ok (tree, Some (Regular content (default 420 mode)), λ _, ()))
  end.

Definition restore_checked (root file_path : str) (content : option str) (mode : option N)
    (expected_sha256 : option str) (expected_mode : option N) (expected : option str) : GitAct () :=
  git! _ := git_lift (guard_err (match content with
                                 | Some content => existsb (λ c, c =? 0) content
                                 | None => false end) WorktreeFileNotUtf8) in
  restore_raw_checked root file_path (utf8 <$> content) mode expected_sha256 expected_mode expected.

(** ** Parents *)

(** The directories a path lacks are made, the others are opened; a node that is no directory
    stops the loop. *)
Fixpoint make_parents (nodes : gmap (list str) Node) (inode : N) (prefix parts : list str) :
    result (gmap (list str) Node) (gmap (list str) Node) :=
  match parts with
  | [] | [_] => Ok nodes
  | part :: parts' =>
      let prefix := prefix ++ [part] in
      match nodes !! prefix with
      | None => make_parents (<[prefix := Directory inode]> nodes) (inode + 1) prefix parts'
      | Some (Directory _) => make_parents nodes inode prefix parts'
      | Some _ => Err nodes
      end
  end.

Definition with_nodes (tree : Worktree) (nodes : gmap (list str) Node) : Worktree :=
  {| wk_dev := wk_dev tree; wk_ino := wk_ino tree; wk_nodes := nodes; wk_head := wk_head tree;
     wk_branch := wk_branch tree; wk_index := wk_index tree |}.

Definition with_tree (s : Scene) (root : str) (tree : Worktree) : Scene :=
  {| sn_trees := <[root := tree]> (sn_trees s); sn_script := sn_script s;
     sn_writes := sn_writes s |}.

Definition prepare_parent_checked (root file_path : str) (expected : option str) : GitAct () :=
  git! parts := git_lift (components file_path) in λ s,
  let '(m, s) := next_moment s in
  match mo_fate m with
  | Breaks => (Err WorktreeFileUnavailable, s)
  | fate =>
      match open_root (sn_trees s) root expected with
      | Err e => (Err e, s)
      | Ok tree =>
          match make_parents (wk_nodes tree) (mo_inode m) [] parts with
          | Ok nodes =>
              (match fate with BreaksAfter => Err WorktreeFileUnavailable | _ => Ok () end,
               with_tree s root (with_nodes tree nodes))
          | Err nodes => (Err WorktreeFileUnavailable, with_tree s root (with_nodes tree nodes))
          end
      end
  end.

(** ** Captures *)

(** [rev-parse], [symbolic-ref] and the two [ls-files]. *)
Definition metadata (trees : Worktrees) (root : str) :
    result (str * str * str * gset str) GitError :=
  let? tree := ok_or (trees !! root) GitCommandFailed in
  let? head := ok_or (wk_head tree) GitCommandFailed in
  let? branch := ok_or (wk_branch tree) GitCommandFailed in
  let? index := ok_or (wk_index tree) GitCommandFailed in
  let? files := ok_or (git_listed tree) GitCommandFailed in
  Ok (trim head, trim branch, bytes_sha256 index, files).

Definition dirty_paths (trees : Worktrees) (root : str) : result (gset str) GitError :=
  let? tree := ok_or (trees !! root) GitCommandFailed in
  let? changed := ok_or (git_changed tree) GitCommandFailed in
  let? untracked := ok_or (git_untracked tree) GitCommandFailed in
  Ok (changed ∪ untracked).

Definition captured_file (path : str) (dirty : bool) (found : result (option (RawSource * N)) GitError)
    (total : N) : CapturedWorktreeFile * N * N :=
  let make content raw binary hash mode unsupported :=
    {| cw_file_path := path; cw_content := content; cw_raw_content := raw; cw_is_binary := binary;
       cw_sha256 := hash; cw_mode := mode; cw_unsupported := unsupported;
       cw_pre_existing_change := dirty |} in
  let unsupported := (make None None false None None true, 1, total) in
  match found with
  | Ok (Some (source, mode)) =>
      let bytes := rs_content source in
      let total' := total + N.of_nat (length bytes) in
      if total' <=? MAX_CHECKPOINT_TOTAL_BYTES then
        let hash := Some (bytes_sha256 bytes) in
        let text := if existsb (λ byte, byte =? 0) bytes then None else from_utf8 bytes in
        (match text with
         | Some text => make (Some text) None false hash (Some mode) false
         | None => make None (Some bytes) true hash (Some mode) false
         end, 0, total')
      else unsupported
  | Ok None => (make None None false None None false, 0, total)
  | Err _ => unsupported
  end.

(** The files so far, how many were left out, and the bytes read. *)
Abbreviation Capturing := (CapturedFiles * N * N)%type.

Fixpoint capture_files (root : str) (dirty : gset str) (state : Capturing) (paths : list str) :
    GitAct Capturing :=
  match paths with
  | [] => git_ret state
  | path :: paths' =>
      let '(files, omitted, total) := state in
      if (4096 <? byte_len path) || existsb is_control path
      then capture_files root dirty (files, omitted + 1, total) paths'
      else λ s,
        let '(found, s) := look (λ trees, checkpoint_raw_checked trees root path None) s in
        let '(file, left_out, total) := captured_file path (bool_decide (path ∈ dirty)) found total in
        capture_files root dirty (<[path := file]> files, omitted + left_out, total) paths' s
  end.

(** Every captured file is hashed again. *)
Fixpoint still_same (root : str) (files : list CapturedWorktreeFile) : GitAct bool :=
  match files with
  | [] => git_ret true
  | file :: files' => λ s,
      let '(found, s) := look (λ trees, checkpoint_raw_checked trees root (cw_file_path file) None) s in
      if match found with
         | Ok current => bool_decide (file_hash current = (cw_sha256 file, cw_mode file))
         | Err _ => false
         end
      then still_same root files' s else (Ok false, s)
  end.

Definition in_path_order (files : CapturedFiles) : list CapturedWorktreeFile :=
  omap (λ path, files !! path) (sort_by str_cmp (elements (dom files))).

Definition capture_worktree_checkpoint (root : str) : GitAct WorktreeCheckpointCapture :=
  git! before := look (λ trees, metadata trees root) in
  let '(head, branch, index, listed) := before in
  git! dirty := look (λ trees, dirty_paths trees root) in
  let paths := sort_by str_cmp (elements listed) in
  git! state := capture_files root dirty
                  (∅, N.of_nat (length paths - MAX_CHECKPOINT_FILES), 0)
                  (take MAX_CHECKPOINT_FILES paths) in
  let '(files, omitted, _) := state in
  git! same := still_same root (filter (λ file, cw_unsupported file = false) (in_path_order files)) in
  λ s,
  let '(stable, s) :=
    if same : bool
    then let '(after, s) := look (λ trees, metadata trees root) s in
         (bool_decide (after = Ok before), s)
    else (false, s) in
  (Ok {| wt_head_commit_oid := head; wt_branch_name := branch; wt_index_sha256 := index;
         wt_files := files; wt_omitted_file_count := omitted; wt_stable := stable |}, s).
End git.

