(* ===== verification/TurnWorld.v ===== *)
(** * What is stored about a turn, and the world of the calls on turns

    The records of restores ([wts-app/src/agent_turn_restore.rs]), of checks
    ([agent_turn_checks.rs], [evidence.rs]), of decisions ([agent_turn_decisions.rs]) and of
    integrations ([agent_work_item_integration.rs]).  Blocker codes and texts are strings, as in
    the code. *)

From S2P Require Import Prelude Order Text StoreBase Sessions Conversations Captures.
From S2P Require Import WorkServices WorkSets WorkSetScheduler Worktrees.

Local Open Scope N_scope.

(** ** Restores *)

Inductive AgentTurnRestoreAction := ActionRestore | ActionRemove.
Inductive AgentTurnRestorePreflightState := RestoreReady | RestoreBlocked | RestoreDone.
Inductive AgentTurnRestoreResultState := ResultRestored | ResultConflict | ResultIncomplete.

#[export] Instance restore_action_eq_dec : EqDecision AgentTurnRestoreAction.
Proof. solve_decision. Defined.
#[export] Instance restore_preflight_state_eq_dec : EqDecision AgentTurnRestorePreflightState.
Proof. solve_decision. Defined.
#[export] Instance restore_result_state_eq_dec : EqDecision AgentTurnRestoreResultState.
Proof. solve_decision. Defined.

Record AgentTurnRestoreFile := {
  rf_file_path : str;
  rf_action : AgentTurnRestoreAction
}.

Record AgentTurnRestoreBlocker := {
  rb_code : str;
  rb_file_path : option str;
  rb_detail : str
}.

#[export] Instance restore_file_eq_dec : EqDecision AgentTurnRestoreFile.
Proof. solve_decision. Defined.
#[export] Instance restore_blocker_eq_dec : EqDecision AgentTurnRestoreBlocker.
Proof. solve_decision. Defined.

Record AgentTurnRestorePreflight := {
  rp_schema_version : N;
  rp_conversation_id : Uuid;
  rp_request_id : Uuid;
  rp_session_id : Uuid;
  rp_workspace_id : Uuid;
  rp_repository_id : str;
  rp_after_checkpoint_id : option Uuid;
  rp_state : AgentTurnRestorePreflightState;
  rp_effect_digest : str;
  rp_resume_request_id : option Uuid;
  rp_files : list AgentTurnRestoreFile;
  rp_blockers : list AgentTurnRestoreBlocker;
  rp_detail : str;
  rp_restored_at_unix_ms : option Z
}.

Record AgentTurnRestoreRequest := {
  rq_request_id : Uuid;
  rq_effect_digest : str
}.

Record AgentTurnRestoreResult := {
  ro_schema_version : N;
  ro_conversation_id : Uuid;
  ro_request_id : Uuid;
  ro_restore_request_id : Uuid;
  ro_state : AgentTurnRestoreResultState;
  ro_restored_at_unix_ms : option Z;
  ro_files : list AgentTurnRestoreFile;
  ro_blockers : list AgentTurnRestoreBlocker;
  ro_detail : str
}.

#[export] Instance restore_request_eq_dec : EqDecision AgentTurnRestoreRequest.
Proof. solve_decision. Defined.
#[export] Instance restore_result_eq_dec : EqDecision AgentTurnRestoreResult.
Proof. solve_decision. Defined.

Record RestoreJournal := {
  rj_request : AgentTurnRestoreRequest;
  rj_result : AgentTurnRestoreResult;
  rj_finished : bool;
  rj_pending_file : option AgentTurnRestoreFile
}.

Record PendingRestore := {
  pr_session_id : Uuid;
  pr_restore_request_id : Uuid;
  pr_workspace_id : Uuid
}.

(** ** Checks *)

Inductive VerificationCheckKind :=
| CheckUnit | CheckIntegration | CheckUi | CheckContract | CheckLint | CheckBuild | CheckCustom.

Record AcceptanceFileDigest := { af_display_path : str; af_sha256 : str }.

Record VerificationCheck := {
  vk_id : str;
  vk_label : str;
  vk_kind : VerificationCheckKind;
  vk_repository_id : option str;
  vk_working_directory : str;
  vk_executable : str;
  vk_args : list str;
  vk_timeout_ms : N;
  vk_output_limit_bytes : N;
  vk_required : bool;
  vk_environment_names : list str;
  vk_acceptance_files : list AcceptanceFileDigest
}.

#[export] Instance check_kind_eq_dec : EqDecision VerificationCheckKind.
Proof. solve_decision. Defined.
#[export] Instance acceptance_file_eq_dec : EqDecision AcceptanceFileDigest.
Proof. solve_decision. Defined.
#[export] Instance verification_check_eq_dec : EqDecision VerificationCheck.
Proof. solve_decision. Defined.

Record VerifiedTurnCheck := {
  vt_check : VerificationCheck;
  vt_run_id : Uuid;
  vt_completed_at_unix_ms : Z
}.

Record VerifiedTurnChecks := {
  vc_after_checkpoint_id : Uuid;
  vc_plan_revision : N;
  vc_checks : list VerifiedTurnCheck
}.

(** A check of the plan as a caller sees it, and one run of it. *)
Inductive AgentTurnChecksState := ChecksReady | ChecksStale | ChecksUnavailable | NoChecks.
Inductive AgentTurnCheckStatus :=
| CheckRunning | CheckPassed | CheckFailed | CheckTimedOut | CheckCancelled | CheckInterrupted
| CheckStale | CheckBlocked.

#[export] Instance checks_state_eq_dec : EqDecision AgentTurnChecksState.
Proof. solve_decision. Defined.
#[export] Instance check_status_eq_dec : EqDecision AgentTurnCheckStatus.
Proof. solve_decision. Defined.

Record AgentTurnCheck := {
  ck_check_id : str;
  ck_label : str;
  ck_kind : VerificationCheckKind;
  ck_plan_revision : N
}.

Record AgentTurnCheckRun := {
  cr_run_id : Uuid;
  cr_check_id : str;
  cr_status : AgentTurnCheckStatus;
  cr_started_at_unix_ms : Z;
  cr_completed_at_unix_ms : option Z;
  cr_duration_ms : option N;
  cr_exit_code : option Z;
  cr_output : str;
  cr_output_truncated : bool;
  cr_detail : str
}.

Record AgentTurnChecks := {
  cs_schema_version : N;
  cs_conversation_id : Uuid;
  cs_request_id : Uuid;
  cs_session_id : Uuid;
  cs_workspace_id : Uuid;
  cs_repository_id : str;
  cs_after_checkpoint_id : option Uuid;
  cs_state : AgentTurnChecksState;
  cs_detail : str;
  cs_checks : list AgentTurnCheck;
  cs_runs : list AgentTurnCheckRun
}.

Record RunAgentTurnCheckRequest := {
  rr_request_id : Uuid;
  rr_check_id : str;
  rr_expected_after_checkpoint_id : Uuid;
  rr_expected_plan_revision : N
}.

#[export] Instance run_request_eq_dec : EqDecision RunAgentTurnCheckRequest.
Proof. solve_decision. Defined.

Record StoredCheckRun := {
  sr_conversation_id : Uuid;
  sr_turn_request_id : Uuid;
  sr_session_id : Uuid;
  sr_workspace_id : Uuid;
  sr_repository_id : str;
  sr_source_context_sha256 : str;
  sr_request : RunAgentTurnCheckRequest;
  sr_check : VerificationCheck;
  sr_verification_started_at_unix_ms : option Z;
  sr_run : AgentTurnCheckRun
}.

(** ** Decisions *)

Inductive AgentTurnDecisionKind := Accepted | Kept | Rejected.
Inductive AgentTurnDecisionsState := DecisionsReady | DecisionsUnavailable.

#[export] Instance decision_kind_eq_dec : EqDecision AgentTurnDecisionKind.
Proof. solve_decision. Defined.

Record RecordAgentTurnDecisionRequest := {
  dr_request_id : Uuid;
  dr_expected_revision : N;
  dr_expected_receipt_digest : str;
  dr_kind : AgentTurnDecisionKind;
  dr_reason : str
}.

#[export] Instance decision_request_eq_dec : EqDecision RecordAgentTurnDecisionRequest.
Proof. solve_decision. Defined.

Record AgentTurnDecisionCheck := {
  dk_run_id : Uuid;
  dk_check_id : str;
  dk_status : AgentTurnCheckStatus
}.

Record AgentTurnDecision := {
  de_decision_id : Uuid;
  de_revision : N;
  de_kind : AgentTurnDecisionKind;
  de_reason : str;
  de_created_at_unix_ms : Z;
  de_after_checkpoint_id : Uuid;
  de_receipt_digest : str;
  de_source_context_sha256 : str;
  de_checks_state : AgentTurnChecksState;
  de_checks : list AgentTurnDecisionCheck
}.

Record AgentTurnDecisions := {
  da_schema_version : N;
  da_conversation_id : Uuid;
  da_request_id : Uuid;
  da_session_id : Uuid;
  da_workspace_id : Uuid;
  da_repository_id : str;
  da_after_checkpoint_id : option Uuid;
  da_receipt_digest : str;
  da_source_context_sha256 : str;
  da_revision : N;
  da_state : AgentTurnDecisionsState;
  da_checks_state : AgentTurnChecksState;
  da_detail : str;
  da_decisions : list AgentTurnDecision
}.

Record StoredDecision := { sd_request : RecordAgentTurnDecisionRequest; sd_decision : AgentTurnDecision }.

Record StoredDecisions := {
  ss_schema_version : N;
  ss_conversation_id : Uuid;
  ss_turn_request_id : Uuid;
  ss_session_id : Uuid;
  ss_workspace_id : Uuid;
  ss_repository_id : str;
  ss_receipt_digest : str;
  ss_records : list StoredDecision
}.

(** ** Integrations *)

Inductive AgentWorkItemIntegrationPreflightState :=
| IntegrationReady | IntegrationBlocked | IntegrationDone.
Inductive AgentWorkItemIntegrationResultState :=
| ResultIntegrated | IntegrationConflict | IntegrationIncomplete.

#[export] Instance integration_preflight_state_eq_dec :
  EqDecision AgentWorkItemIntegrationPreflightState.
Proof. solve_decision. Defined.
#[export] Instance integration_result_state_eq_dec : EqDecision AgentWorkItemIntegrationResultState.
Proof. solve_decision. Defined.

#[export] Instance file_status_eq_dec : EqDecision AgentTurnFileStatus.
Proof. solve_decision. Defined.

Record AgentWorkItemIntegrationFile := {
  if_file_path : str;
  if_status : AgentTurnFileStatus
}.

#[export] Instance integration_file_eq_dec : EqDecision AgentWorkItemIntegrationFile.
Proof. solve_decision. Defined.

Record AgentWorkItemIntegrationBlocker := {
  ib_code : str;
  ib_file_path : option str;
  ib_detail : str
}.

#[export] Instance integration_blocker_eq_dec : EqDecision AgentWorkItemIntegrationBlocker.
Proof. solve_decision. Defined.

Record AgentWorkItemIntegrationPreflight := {
  ip_schema_version : N;
  ip_work_set_id : Uuid;
  ip_task_id : Uuid;
  ip_workspace_id : Uuid;
  ip_repository_id : str;
  ip_source_conversation_id : Uuid;
  ip_source_request_id : Uuid;
  ip_source_after_checkpoint_id : Uuid;
  ip_candidate_workspace_id : Uuid;
  ip_candidate_conversation_id : Uuid;
  ip_candidate_request_id : Uuid;
  ip_candidate_after_checkpoint_id : Uuid;
  ip_state : AgentWorkItemIntegrationPreflightState;
  ip_effect_digest : str;
  ip_resume_request_id : option Uuid;
  ip_files : list AgentWorkItemIntegrationFile;
  ip_check_run_ids : list Uuid;
  ip_blockers : list AgentWorkItemIntegrationBlocker;
  ip_detail : str;
  ip_integrated_at_unix_ms : option Z
}.

Record IntegrateAgentWorkItemRequest := {
  iq_request_id : Uuid;
  iq_effect_digest : str
}.

#[export] Instance integrate_request_eq_dec : EqDecision IntegrateAgentWorkItemRequest.
Proof. solve_decision. Defined.

Record AgentWorkItemIntegrationResult := {
  ir_schema_version : N;
  ir_work_set_id : Uuid;
  ir_task_id : Uuid;
  ir_workspace_id : Uuid;
  ir_repository_id : str;
  ir_integration_request_id : Uuid;
  ir_state : AgentWorkItemIntegrationResultState;
  ir_files : list AgentWorkItemIntegrationFile;
  ir_blockers : list AgentWorkItemIntegrationBlocker;
  ir_detail : str;
  ir_integrated_at_unix_ms : option Z
}.

Record IntegrationJournal := {
  ij_request : IntegrateAgentWorkItemRequest;
  ij_preflight : AgentWorkItemIntegrationPreflight;
  ij_proof : VerifiedTurnChecks;
  ij_target_identity : str;
  ij_source_session_id : Uuid;
  ij_candidate_session_id : Uuid;
  ij_result : AgentWorkItemIntegrationResult;
  ij_pending_file : option AgentWorkItemIntegrationFile;
  ij_finished : bool
}.

Record PendingIntegration := {
  pi_work_set_id : Uuid;
  pi_task_id : Uuid;
  pi_workspace_id : Uuid;
  pi_request_id : Uuid
}.

(** ** The world of restores and integrations

    Restores and integrations change files of worktrees and write journals, so that a host that
    stops in between can be continued by the next.  The world holds the worktrees with their
    moments (Worktrees), the stored records, and an outside: conversations, sessions and leases,
    which may answer anything.  Every effect on disk or worktree is appended to a history; a host
    that stops leaves the state it started from or one of the history. *)

(** ** What is on disk *)

(** Records and snapshots of turns; journals, results and markers of restores; journals and markers
    of integrations; runs of checks; decisions. *)
Record TurnDisk := {
  td_records : gmap Uuid StoredTurn;
  td_blobs : gmap (str * str) (list N);
  td_journals : gmap (Uuid * Uuid) RestoreJournal;
  td_completed : gmap Uuid AgentTurnRestoreResult;
  td_restores : gmap Uuid PendingRestore;
  td_integrations : gmap (Uuid * Uuid) IntegrationJournal;
  td_merges : gmap Uuid PendingIntegration;
  td_runs : gmap (Uuid * Uuid) StoredCheckRun;
  td_decisions : gmap Uuid StoredDecisions
}.

Definition with_record (d : TurnDisk) (session_id : Uuid) (stored : StoredTurn) : TurnDisk :=
  {| td_records := <[session_id := stored]> (td_records d); td_blobs := td_blobs d;
     td_journals := td_journals d; td_completed := td_completed d;
     td_restores := td_restores d; td_integrations := td_integrations d;
     td_merges := td_merges d; td_runs := td_runs d; td_decisions := td_decisions d |}.

Definition with_blob (d : TurnDisk) (directory name : str) (bytes : list N) : TurnDisk :=
  {| td_records := td_records d; td_blobs := <[(directory, name) := bytes]> (td_blobs d);
     td_journals := td_journals d; td_completed := td_completed d;
     td_restores := td_restores d; td_integrations := td_integrations d;
     td_merges := td_merges d; td_runs := td_runs d; td_decisions := td_decisions d |}.

Definition with_journal (d : TurnDisk) (key : Uuid * Uuid) (j : RestoreJournal) : TurnDisk :=
  {| td_records := td_records d; td_blobs := td_blobs d;
     td_journals := <[key := j]> (td_journals d); td_completed := td_completed d;
     td_restores := td_restores d; td_integrations := td_integrations d;
     td_merges := td_merges d; td_runs := td_runs d; td_decisions := td_decisions d |}.

Definition with_completed (d : TurnDisk) (session_id : Uuid) (r : AgentTurnRestoreResult) : TurnDisk :=
  {| td_records := td_records d; td_blobs := td_blobs d; td_journals := td_journals d;
     td_completed := <[session_id := r]> (td_completed d); td_restores := td_restores d;
     td_integrations := td_integrations d; td_merges := td_merges d; td_runs := td_runs d;
     td_decisions := td_decisions d |}.

Definition with_restores (d : TurnDisk) (restores : gmap Uuid PendingRestore) : TurnDisk :=
  {| td_records := td_records d; td_blobs := td_blobs d; td_journals := td_journals d;
     td_completed := td_completed d; td_restores := restores;
     td_integrations := td_integrations d; td_merges := td_merges d; td_runs := td_runs d;
     td_decisions := td_decisions d |}.

Definition with_integration (d : TurnDisk) (key : Uuid * Uuid) (j : IntegrationJournal) : TurnDisk :=
  {| td_records := td_records d; td_blobs := td_blobs d; td_journals := td_journals d;
     td_completed := td_completed d; td_restores := td_restores d;
     td_integrations := <[key := j]> (td_integrations d); td_merges := td_merges d;
     td_runs := td_runs d; td_decisions := td_decisions d |}.

Definition with_merges (d : TurnDisk) (merges : gmap Uuid PendingIntegration) : TurnDisk :=
  {| td_records := td_records d; td_blobs := td_blobs d; td_journals := td_journals d;
     td_completed := td_completed d; td_restores := td_restores d;
     td_integrations := td_integrations d; td_merges := merges; td_runs := td_runs d;
     td_decisions := td_decisions d |}.

Definition with_run (d : TurnDisk) (key : Uuid * Uuid) (run : StoredCheckRun) : TurnDisk :=
  {| td_records := td_records d; td_blobs := td_blobs d; td_journals := td_journals d;
     td_completed := td_completed d; td_restores := td_restores d;
     td_integrations := td_integrations d; td_merges := td_merges d;
     td_runs := <[key := run]> (td_runs d); td_decisions := td_decisions d |}.

Definition with_decisions (d : TurnDisk) (session_id : Uuid) (decisions : StoredDecisions) : TurnDisk :=
  {| td_records := td_records d; td_blobs := td_blobs d; td_journals := td_journals d;
     td_completed := td_completed d; td_restores := td_restores d;
     td_integrations := td_integrations d; td_merges := td_merges d; td_runs := td_runs d;
     td_decisions := <[session_id := decisions]> (td_decisions d) |}.

(** What outlives the host; the files replaced are kept for the theorems only. *)
Record Durable := {
  du_trees : Worktrees;
  du_disk : TurnDisk;
  du_writes : list FileWrite
}.

Record TurnWorld (W : Type) := {
  tw_out : W;
  tw_scene : Scene;
  tw_disk : TurnDisk;
  tw_history : list Durable
}.
Arguments tw_out {W} _.
Arguments tw_scene {W} _.
Arguments tw_disk {W} _.
Arguments tw_history {W} _.

(** ** Interfaces *)

(** What the process of a check left: its log, status, exit code and a text. *)
Inductive VerificationCheckStatus :=
| VerifyPassed | VerifyFailed | VerifyTimedOut | VerifyCancelled | VerifyOther.

Record CheckExecution := {
  ce_log : list N;
  ce_status : VerificationCheckStatus;
  ce_exit_code : option Z;
  ce_detail : str
}.

(** Leases, sessions, conversations after recovery, the plan of checks of a workspace and its
    processes, and candidates of work sets ([WorkSetScheduler.load_integration_candidate]). *)
Class TurnServices (W : Type) := {
  ts_recovered : Act W (list AgentConversation);
  ts_conversations : Act W (list AgentConversation);
  ts_sessions : Uuid → Act W (list AgentSessionStatus);
  ts_lock_operation : Uuid → Act W ();
  ts_lock_turn : Uuid → str → Act W ();
  ts_lock_verification : Act W ();
  ts_plan : Uuid → Act W (N * list VerificationCheck);
  ts_canonical : str → W → bool * W;
  ts_check_cancelled : Uuid → VerificationCheck → Act W bool;
  ts_execute : Uuid → VerificationCheck → W → CheckExecution * W;
  ts_file_sha256 : str → W → option str * W;
  ts_store_result : Uuid → VerificationCheck → Act W ();
  ts_reconcile : StoredCheckRun → Act W ();
  ts_elapsed : W → N * W;
  ts_candidate : Uuid → Uuid → Act W TrustedAgentWorkItem
}.

(** Lengths of stored JSON, and the digests of what a restore or an integration will do. *)
Class TurnJson := {
  restore_journal_bytes : RestoreJournal → N;
  restore_result_bytes : AgentTurnRestoreResult → N;
  pending_restore_bytes : PendingRestore → N;
  integration_journal_bytes : IntegrationJournal → N;
  pending_integration_bytes : PendingIntegration → N;
  restore_effect : Uuid → Uuid → Uuid → option AgentTurnCheckpoint → option AgentTurnCheckpoint →
    list AgentTurnRestoreFile → str;
  integration_effect : list Uuid → list str → option AgentTurnCheckpoint →
    option AgentTurnCheckpoint → list AgentWorkItemIntegrationFile →
    option (Uuid * N * list VerificationCheck) → option str
}.

(** The limit of a stored record of a turn or a restore. *)
Definition MAX_RECORD_BYTES : N := 64 * 1024 * 1024.

(** [valid_sha256] of [service.rs]: hexadecimal digits of either case. *)
Definition valid_sha256 (value : str) : bool :=
  (byte_len value =? 71) && starts_with (lit "sha256:") value
  && forallb is_ascii_hexdigit (drop 7 value).

(** Hash and mode of a file in a capture. *)
Definition file_state (file : option CapturedWorktreeFile) : option str * option N :=
  (file ≫= cw_sha256, file ≫= cw_mode).

Definition hash_of (files : CapturedFiles) (path : str) : option str := (file_state (files !! path)).1.

(** A capture with other files. *)
Definition capture_with (capture : WorktreeCheckpointCapture) (files : CapturedFiles) :
    WorktreeCheckpointCapture :=
  {| wt_head_commit_oid := wt_head_commit_oid capture; wt_branch_name := wt_branch_name capture;
     wt_index_sha256 := wt_index_sha256 capture; wt_files := files;
     wt_omitted_file_count := wt_omitted_file_count capture; wt_stable := wt_stable capture |}.

Section world.
Context {W : Type} `{WorkServices W} `{TurnServices W} `{GitHost}.

Local Abbreviation World := (TurnWorld W).

(** ** Steps *)

Definition with_scene (w : World) (scene : Scene) : World :=
  {| tw_out := tw_out w; tw_scene := scene; tw_disk := tw_disk w; tw_history := tw_history w |}.

Definition durable (w : World) : Durable :=
  {| du_trees := sn_trees (tw_scene w); du_disk := tw_disk w;
     du_writes := sn_writes (tw_scene w) |}.

(** The state on disk and in the worktrees, recorded. *)
Definition snapshot (w : World) : World :=
  {| tw_out := tw_out w; tw_scene := tw_scene w; tw_disk := tw_disk w;
     tw_history := tw_history w ++ [durable w] |}.

Definition with_disk (w : World) (disk : TurnDisk) : World :=
  snapshot {| tw_out := tw_out w; tw_scene := tw_scene w; tw_disk := disk;
              tw_history := tw_history w |}.

Definition asks {A} (m : Act W A) : Act World A := λ w,
  let '(r, out) := m (tw_out w) in
  (r, {| tw_out := out; tw_scene := tw_scene w; tw_disk := tw_disk w; tw_history := tw_history w |}).

Definition ask {A} (m : W → A * W) : World → A * World := λ w,
  let '(x, out) := m (tw_out w) in
  (x, {| tw_out := out; tw_scene := tw_scene w; tw_disk := tw_disk w; tw_history := tw_history w |}).

Definition asks_now : Act World Z := λ w, let '(now, w) := ask sv_now w in (Ok now, w).

(** A call on worktrees; its error becomes [e]. *)
Definition on_trees {A} (m : GitAct A) (e : LocalWtsError) : Act World A := λ w,
  let '(r, scene) := m (tw_scene w) in
  (match r with Ok x => Ok x | Err _ => Err e end, snapshot (with_scene w scene)).

(** A file is read at a moment; [f] is what its content decides. *)
Definition reads {A} (f : TurnDisk → result A LocalWtsError) : Act World A := λ w,
  let '(m, scene) := next_moment (tw_scene w) in
  (match mo_fate m with Works => f (tw_disk w) | _ => Err AgentConversationUnavailable end,
   with_scene w scene).

(** A file is replaced or removed at a moment. *)
Definition writes (f : TurnDisk → TurnDisk) : Act World () := λ w,
  let '(m, scene) := next_moment (tw_scene w) in
  let w := with_scene w scene in
  match mo_fate m with
  | Breaks => (Err AgentConversationUnavailable, w)
  | BreaksAfter => (Err AgentConversationUnavailable, with_disk w (f (tw_disk w)))
  | Works => (Ok (), with_disk w (f (tw_disk w)))
  end.

Definition peek {A} (f : World → A) : Act World A := λ w, (Ok (f w), w).

(** ** Turns *)

Definition read_record (session_id : Uuid) : Act World StoredTurn :=
  reads (λ d, ok_or (td_records d !! session_id) AgentConversationUnavailable).

Definition record_exists (session_id : Uuid) : Act World bool :=
  reads (λ d, Ok (bool_decide (is_Some (td_records d !! session_id)))).

Definition target_identity (target : str) : Act World str :=
  on_trees (look (λ trees, let? tree := open_root trees target None in
                           Ok (root_identity target tree))) AgentConversationUnavailable.

Definition read_blob_bytes (directory hash : str) : Act World (list N) :=
  check! guard_err (negb (valid_sha256 hash)) AgentConversationUnavailable in
  reads (λ d,
    let? bytes := ok_or (td_blobs d !! (directory, hash)) AgentConversationUnavailable in
    ensure guard_err ((MAX_WORKTREE_SOURCE_BYTES <? N.of_nat (length bytes))
                      || negb (bool_decide (bytes_sha256 bytes = hash)))
             AgentConversationUnavailable in
    Ok bytes).

(** The snapshots of the files at some paths of a capture. *)
Definition read_contents (directory : str) (files : CapturedFiles) (paths : list str) :
    Act World (gmap str (list N)) :=
  act_fold (λ contents path,
      match hash_of files path with
      | Some hash =>
          do! bytes := read_blob_bytes directory hash in
          act_ret (<[path := bytes]> contents)
      | None => act_ret contents
      end) ∅ paths.

Definition capture_checkpoint (target : str) : Act World WorktreeCheckpointCapture :=
  on_trees (capture_worktree_checkpoint target) AgentConversationUnavailable.

Definition restore_bytes (target file_path : str) (content : option (list N)) (mode : option N)
    (expected_sha256 : option str) (expected_mode : option N) (identity : str) : Act World () :=
  on_trees (restore_raw_checked target file_path content mode expected_sha256 expected_mode
              (Some identity)) AgentConversationConflict.

Definition prepare_source_parent (target file_path identity : str) : Act World () :=
  on_trees (prepare_parent_checked target file_path (Some identity)) AgentConversationConflict.

(** The services of the calls on turns, in this world. *)
#[export] Instance world_services : WorkServices World := {|
  sv_now := ask sv_now;
  sv_fresh := ask sv_fresh;
  sv_lock wait := asks (sv_lock wait);
  sv_listing := asks sv_listing;
  sv_readable := ask sv_readable;
  sv_directory := asks sv_directory;
  sv_write := ask sv_write;
  sv_conversation_count := asks sv_conversation_count;
  sv_get id := asks (sv_get id);
  sv_read_conversation id := asks (sv_read_conversation id);
  sv_work_conversations := asks sv_work_conversations;
  sv_stop_session id := asks (sv_stop_session id);
  sv_cancel_message a b c d := asks (sv_cancel_message a b c d);
  sv_store_locks := asks sv_store_locks;
  sv_write_conversation c := asks (sv_write_conversation c);
  sv_send id request := asks (sv_send id request);
  sv_verify_discussion c := asks (sv_verify_discussion c);
  sv_turn_dir := sv_turn_dir;
  sv_record_exists := record_exists;
  sv_record := read_record;
  sv_read_blob := read_blob_bytes;
  sv_lease_workspace id := asks (sv_lease_workspace id);
  sv_repository id := asks (sv_repository id);
  sv_create_workspace c := asks (sv_create_workspace c);
  sv_source_worktree id repository := asks (sv_source_worktree id repository);
  sv_preflight id := asks (sv_preflight id);
  sv_materialize id digest := asks (sv_materialize id digest);
  sv_workspace_root id := asks (sv_workspace_root id);
  sv_identity := target_identity;
  sv_capture := capture_checkpoint;
  sv_prepare_parent := prepare_source_parent;
  sv_restore := restore_bytes
|}.

(** A directory is made, or is there. *)
Definition private_dir : Act World () := reads (λ _, Ok ()).

(** ** Leases *)

(** [workspace_operation_lease]: an unfinished integration or restore keeps others out. *)
Definition workspace_operation_lease (workspace_id : Uuid) : Act World () :=
  do! busy := peek (λ w, bool_decide (is_Some (td_merges (tw_disk w) !! workspace_id))) in
  check! guard_err busy AgentConversationBusy in
  do! _ := reads (λ d, guard_err (bool_decide (is_Some (td_restores d !! workspace_id)))
                       AgentConversationBusy) in
  asks (ts_lock_operation workspace_id).

Definition turn_lease (conversation : AgentConversation) : Act World () :=
  asks (ts_lock_turn (cv_workspace_id conversation) (cv_repository_id conversation)).

Definition session_active (status : AgentSessionStatus) : bool :=
  match status with Launching | HandoffAccepted | Running | Stopping => true | _ => false end.
End world.
