(* ===== verification/TurnCaptures.v ===== *)
(** * Captures before and after a turn ([wts-app/src/agent_turn_changes.rs])

    Before the agent starts, the worktree is captured and the content of its files is kept as
    snapshots named by their hash; after it ended the worktree is captured again, and the record
    of the turn gets the list of changed files and a patch in text. *)

From S2P Require Import Prelude Order Text StoreBase Sessions Conversations Captures WorkServices.
From S2P Require Import Worktrees TurnWorld.

Local Open Scope N_scope.

Definition MAX_CHECKPOINT_PATCH_BYTES : N := 1024 * 1024.

(** The length of a stored record, the digest of the list of captured files, a string in JSON,
    and what [git diff --no-index] prints of two contents with whether it was cut off. *)
Class CaptureJson := {
  stored_turn_bytes : StoredTurn → N;
  tree_digest : list (str * option str * option N * bool) → str;
  json_string : str → str;
  git_diff : list N → list N → option (str * bool)
}.

Definition COVERAGE : str :=
  lit "Changes observed during this task. Other editors can also change these files. Capture covers tracked files and untracked files that Git does not ignore.".

(** ** Changed files and their patch *)

(** The rest of a text after the first place where [p] is found. *)
Fixpoint after_first (p s : str) : option str :=
  match strip_prefix p s, s with
  | Some rest, _ => Some rest
  | None, [] => None
  | None, _ :: s' => after_first p s'
  end.

(** [checkpoint_blob_patch]: the printed text from its first hunk on. *)
Definition hunks_of (text : str) : str :=
  match after_first (10 :: lit "@@ ") text with Some rest => lit "@@ " ++ rest | None => [] end.

Definition git_mode (mode : N) : str :=
  if N.land mode 73 =? 0 then lit "100644" else lit "100755".

Definition change_status (old_hash new_hash : option str) : AgentTurnFileStatus :=
  match old_hash, new_hash with
  | None, _ => FileAdded
  | _, None => FileDeleted
  | _, _ => FileModified
  end.

Definition BINARY_SAVED : str :=
  lit "The exact binary bytes are saved. A text patch is not available for this file.".

Definition changed_file (path : str) (old new : option CapturedWorktreeFile) : AgentTurnChangedFile :=
  let hash file := file ≫= cw_sha256 in
  let is_set f := match f with Some true => true | _ => false end in
  {| tf_file_path := path; tf_status := change_status (hash old) (hash new);
     tf_before_sha256 := hash old; tf_after_sha256 := hash new;
     tf_pre_existing_change := is_set (cw_pre_existing_change <$> old);
     tf_undo_supported := false;
     tf_detail := if is_set (cw_is_binary <$> old) || is_set (cw_is_binary <$> new)
                  then Some BINARY_SAVED else None |}.

(** The changed files, the patch, whether something is missing from it, and the paths left out. *)
Record Changes := {
  ch_files : list AgentTurnChangedFile;
  ch_patch : str;
  ch_truncated : bool;
  ch_omitted : N
}.

Definition one_omitted (c : Changes) : Changes :=
  {| ch_files := ch_files c; ch_patch := ch_patch c; ch_truncated := ch_truncated c;
     ch_omitted := ch_omitted c + 1 |}.

(** One more file; its patch when it has one and there is room for it. *)
Definition one_changed (c : Changes) (file : AgentTurnChangedFile) (patch : option (str * bool)) :
    Changes :=
  let files := ch_files c ++ [file] in
  match patch with
  | None => {| ch_files := files; ch_patch := ch_patch c; ch_truncated := true;
               ch_omitted := ch_omitted c |}
  | Some (text, truncated) =>
      let fits := byte_len (ch_patch c) + byte_len text <=? MAX_CHECKPOINT_PATCH_BYTES in
      {| ch_files := files; ch_patch := if fits then ch_patch c ++ text else ch_patch c;
         ch_truncated := (if fits then ch_truncated c else true) || truncated;
         ch_omitted := ch_omitted c |}
  end.

(** A file that cannot be compared, or that may be missing because a capture was full. *)
Definition not_comparable (old new : option CapturedWorktreeFile) : bool :=
  match cw_unsupported <$> old, cw_unsupported <$> new with
  | Some true, _ | _, Some true => true
  | _, _ => false
  end.
Definition maybe_left_out (before after : CapturedFiles) (old new : option CapturedWorktreeFile) : bool :=
  (bool_decide (old = None) && (MAX_CHECKPOINT_FILES <=? size before)%nat)
  || (bool_decide (new = None) && (MAX_CHECKPOINT_FILES <=? size after)%nat).

Definition unchanged (old new : option CapturedWorktreeFile) : bool :=
  bool_decide ((old ≫= cw_sha256) = (new ≫= cw_sha256)) && bool_decide ((old ≫= cw_mode) = (new ≫= cw_mode)).

Definition OMITTED : str :=
  lit " Some paths were omitted: files must be regular files, at most 2 MiB each, within 2,048 paths and 32 MiB per capture. Symbolic links are not followed.".
Definition UNSTABLE : str :=
  lit " Git state changed during capture. Treat this receipt as incomplete.".
Definition TRUNCATED : str :=
  lit " The text patch omits binary content or exceeds its 1 MiB limit. Exact bytes remain in the saved file captures.".
Definition RECOVERED : str :=
  lit " The after state was captured after the host restarted; it can include later edits.".

(** ** Changed copies *)

Definition with_changes (receipt : AgentTurnChanges) (c : Changes) (state : AgentTurnChangesState)
    (detail : str) : AgentTurnChanges :=
  {| tc_schema_version := tc_schema_version receipt;
     tc_conversation_id := tc_conversation_id receipt; tc_request_id := tc_request_id receipt;
     tc_session_id := tc_session_id receipt; tc_workspace_id := tc_workspace_id receipt;
     tc_repository_id := tc_repository_id receipt;
     tc_source_context_sha256 := tc_source_context_sha256 receipt;
     tc_state := state; tc_observation := tc_observation receipt;
     tc_started_at_unix_ms := tc_started_at_unix_ms receipt;
     tc_completed_at_unix_ms := tc_completed_at_unix_ms receipt;
     tc_before := tc_before receipt; tc_after := tc_after receipt; tc_files := ch_files c;
     tc_omitted_file_count := ch_omitted c; tc_patch := ch_patch c;
     tc_patch_truncated := ch_truncated c; tc_detail := detail |}.

(** When a receipt was completed, how, and its checkpoints. *)
Definition with_times (receipt : AgentTurnChanges) (observation : AgentTurnChangesObservation)
    (completed : option Z) (before after : option AgentTurnCheckpoint) : AgentTurnChanges :=
  {| tc_schema_version := tc_schema_version receipt;
     tc_conversation_id := tc_conversation_id receipt; tc_request_id := tc_request_id receipt;
     tc_session_id := tc_session_id receipt; tc_workspace_id := tc_workspace_id receipt;
     tc_repository_id := tc_repository_id receipt;
     tc_source_context_sha256 := tc_source_context_sha256 receipt;
     tc_state := tc_state receipt; tc_observation := observation;
     tc_started_at_unix_ms := tc_started_at_unix_ms receipt; tc_completed_at_unix_ms := completed;
     tc_before := before; tc_after := after; tc_files := tc_files receipt;
     tc_omitted_file_count := tc_omitted_file_count receipt; tc_patch := tc_patch receipt;
     tc_patch_truncated := tc_patch_truncated receipt; tc_detail := tc_detail receipt |}.

Definition with_receipt (stored : StoredTurn) (receipt : AgentTurnChanges)
    (after : option WorktreeCheckpointCapture) : StoredTurn :=
  {| st_receipt := receipt; st_target := st_target stored;
     st_target_identity := st_target_identity stored; st_before := st_before stored;
     st_after := after |}.

(** A captured file without the content that was saved. *)
Definition without_content (file : CapturedWorktreeFile) : CapturedWorktreeFile :=
  {| cw_file_path := cw_file_path file;
     cw_content := match cw_raw_content file with Some _ => cw_content file | None => None end;
     cw_raw_content := None; cw_is_binary := cw_is_binary file; cw_sha256 := cw_sha256 file;
     cw_mode := cw_mode file; cw_unsupported := cw_unsupported file;
     cw_pre_existing_change := cw_pre_existing_change file |}.

Definition content_of (file : CapturedWorktreeFile) : option (list N) :=
  match cw_raw_content file with Some bytes => Some bytes | None => utf8 <$> cw_content file end.

Section captures.
Context {W : Type} `{WorkServices W} `{TurnServices W} `{GitHost} `{CaptureDigests} `{CaptureJson}.

Local Abbreviation World := (TurnWorld W).

(** ** Files *)

Definition save_record (session_id : Uuid) (stored : StoredTurn) : Act World () :=
  check! guard_err (MAX_RECORD_BYTES <? stored_turn_bytes stored) AgentConversationUnavailable in
  writes (λ d, with_record d session_id stored).

(** ** Snapshots *)

(** The content of one captured file, unless it is there. *)
Definition persist_file (directory : str) (files : CapturedFiles) (path : str) :
    Act World CapturedFiles :=
  match files !! path with
  | None => act_ret files
  | Some file =>
      match content_of file with
      | None => act_ret files
      | Some content =>
          do! hash := act_lift (ok_or (cw_sha256 file) AgentConversationUnavailable) in
          do! there := reads (λ d, Ok (bool_decide (is_Some (td_blobs d !! (directory, hash))))) in
          do! _ :=
            (if there : bool then
               do! bytes := read_blob_bytes (W:=W) directory hash in
               act_lift (guard_err (negb (bool_decide (bytes = content)))
                           AgentConversationUnavailable)
             else writes (λ d, with_blob d directory hash content)) in
          act_ret (<[path := without_content file]> files)
      end
  end.

Definition persist_capture (directory : str) (capture : WorktreeCheckpointCapture) :
    Act World (AgentTurnCheckpoint * WorktreeCheckpointCapture) :=
  let paths := sort_by str_cmp (elements (dom (wt_files capture))) in
  do! files := act_fold (persist_file directory) (wt_files capture) paths in
  let tree := omap (λ path, (λ file, (path, cw_sha256 file, cw_mode file, cw_unsupported file))
                              <$> files !! path) paths in
  do! id := (λ w, let '(id, w) := ask sv_fresh w in (Ok id, w)) in
  do! now := asks_now in
  act_ret ({| tp_checkpoint_id := id; tp_head_commit_oid := wt_head_commit_oid capture;
              tp_branch_name := wt_branch_name capture; tp_captured_at_unix_ms := now;
              tp_tree_sha256 := tree_digest tree; tp_index_sha256 := wt_index_sha256 capture |},
           capture_with capture files).

(** ** What a turn changed *)

Definition checkpoint_blob_patch (directory : str) (old new : option str) : Act World (str * bool) :=
  reads (λ d,
    let blob hash := ok_or (td_blobs d !! (directory, default (lit "empty") hash))
                           AgentConversationUnavailable in
    let? before := blob old in
    let? after := blob new in
    let? (text, truncated) := ok_or (git_diff before after) AgentConversationUnavailable in
    Ok (hunks_of text, truncated)).

Definition newline : str := [10].

Definition file_patch (path : str) (old new : option CapturedWorktreeFile) (hunks : str) : str :=
  let quote (prefix : string) := json_string (lit prefix ++ lit "/" ++ path) in
  let old_hash := old ≫= cw_sha256 in
  let new_hash := new ≫= cw_sha256 in
  let old_mode := old ≫= cw_mode in
  let new_mode := new ≫= cw_mode in
  lit "diff --git " ++ quote "a" ++ lit " " ++ quote "b" ++ newline
  ++ match change_status old_hash new_hash with
     | FileAdded => lit "new file mode " ++ git_mode (default 420 new_mode) ++ newline
     | FileDeleted => lit "deleted file mode " ++ git_mode (default 420 old_mode) ++ newline
     | _ => if bool_decide (old_mode = new_mode) then []
            else lit "old mode " ++ git_mode (default 420 old_mode) ++ newline
                 ++ lit "new mode " ++ git_mode (default 420 new_mode) ++ newline
     end
  ++ match hunks with
     | [] => []
     | _ => lit "--- " ++ match old_hash with Some _ => quote "a" | None => lit "/dev/null" end
            ++ newline ++ lit "+++ "
            ++ match new_hash with Some _ => quote "b" | None => lit "/dev/null" end
            ++ newline ++ hunks
     end.

Definition one_path (directory : str) (before after : CapturedFiles) (c : Changes) (path : str) :
    Act World Changes :=
  let old := before !! path in
  let new := after !! path in
  if not_comparable old new then act_ret c
  else if maybe_left_out before after old new then act_ret (one_omitted c)
  else if unchanged old new then act_ret c
  else
    let file := changed_file path old new in
    match tf_detail file with
    | Some _ => act_ret (one_changed c file None)
    | None =>
        do! hunks := checkpoint_blob_patch directory (tf_before_sha256 file) (tf_after_sha256 file) in
        act_ret (one_changed c file (Some (file_patch path old new hunks.1, hunks.2)))
    end.

Definition changes_detail (receipt : AgentTurnChanges) (c : Changes) (stable : bool) : str :=
  COVERAGE ++ (if 0 <? ch_omitted c then OMITTED else [])
  ++ (if stable then [] else UNSTABLE) ++ (if ch_truncated c then TRUNCATED else [])
  ++ match tc_observation receipt with ObservedRecovered => RECOVERED | ObservedNormal => [] end.

Definition build_changes (directory : str) (receipt : AgentTurnChanges)
    (before after : WorktreeCheckpointCapture) : Act World AgentTurnChanges :=
  let paths := sort_by str_cmp (elements (dom (wt_files before) ∪ dom (wt_files after))) in
  let omitted := N.max (wt_omitted_file_count before) (wt_omitted_file_count after)
                 + N.of_nat (length paths - MAX_CHECKPOINT_FILES) in
  do! c := act_fold (one_path directory (wt_files before) (wt_files after))
             {| ch_files := tc_files receipt; ch_patch := tc_patch receipt;
                ch_truncated := tc_patch_truncated receipt; ch_omitted := omitted |}
             (take MAX_CHECKPOINT_FILES paths) in
  let stable := wt_stable before && wt_stable after in
  act_ret (with_changes receipt c
             (if (ch_omitted c =? 0) && stable then TurnReady else TurnIncomplete)
             (changes_detail receipt c stable)).

(** ** Before and after a turn *)

Definition BEFORE_MISSING : str :=
  lit "The before state could not be captured. Review the current files; this task cannot provide a complete change receipt.".
Definition CAPTURES_MISSING : str :=
  lit "A complete before and after capture is not available. The repository may have moved or changed identity. Review the current files.".
Definition AFTER_UNSAVED : str :=
  lit "The task ended, but its after state could not be saved. Check free disk space and app storage permissions. Review the current files; this task has no complete change result.".

Definition begin_turn_capture (c : AgentConversation) (session_id : Uuid) (target : str) : Act World () :=
  do! m := act_lift (ok_or (find_message (λ m, is_user m
                                     && bool_decide (am_session_id m = Some session_id))
                              (cv_messages c)) AgentConversationNotFound) in
  do! receipt := act_lift (unavailable c m) in
  do! _ := private_dir in
  let directory := sv_turn_dir (tc_session_id receipt) in
  do! _ := private_dir in
  do! _ := writes (λ d, with_blob d directory (lit "empty") []) in
  do! identity := target_identity target in
  do! captured := act_try (capture_checkpoint target) in
  do! result :=
    (match captured with
     | Ok capture =>
         do! saved := persist_capture directory capture in
         let receipt := with_times receipt (tc_observation receipt) (tc_completed_at_unix_ms receipt)
                          (Some saved.1) (tc_after receipt) in
         act_ret (with_receipt_state receipt TurnCapturing COVERAGE, Some saved.2)
     | Err _ => act_ret (with_receipt_state receipt (tc_state receipt) BEFORE_MISSING, None)
     end) in
  save_record (tc_session_id receipt)
    {| st_receipt := result.1; st_target := target; st_target_identity := identity;
       st_before := result.2; st_after := None |}.

Definition finish_turn_capture_inner (session_id : Uuid) (recovered : bool) : Act World () :=
  do! exists_ := record_exists session_id in
  if negb exists_ then act_ret ()
  else
    do! stored := read_record session_id in
    let receipt := st_receipt stored in
    if bool_decide (is_Some (tc_completed_at_unix_ms receipt)) then act_ret ()
    else
      let directory := sv_turn_dir session_id in
      do! now := asks_now in
      let receipt := with_times receipt (if recovered then ObservedRecovered else ObservedNormal)
                       (Some now) (tc_before receipt) (tc_after receipt) in
      do! identity := act_try (target_identity (st_target stored)) in
      do! captured :=
        (if bool_decide (identity = Ok (st_target_identity stored))
         then act_try (capture_checkpoint (st_target stored))
         else act_ret (Err AgentConversationUnavailable)) in
      do! kept :=
        (match captured with
         | Ok capture =>
             do! saved := persist_capture directory capture in
             act_ret (with_times receipt (tc_observation receipt) (tc_completed_at_unix_ms receipt)
                        (tc_before receipt) (Some saved.1), Some saved.2)
         | Err _ => act_ret (receipt, st_after stored)
         end) in
      do! receipt :=
        (match st_before stored, kept.2 with
         | Some before, Some after => build_changes directory kept.1 before after
         | _, _ => act_ret (with_receipt_state kept.1 TurnUnavailable CAPTURES_MISSING)
         end) in
      save_record session_id (with_receipt stored receipt kept.2).

(** A capture that could not be finished is marked as such; its error is returned. *)
Definition finish_turn_capture (session_id : Uuid) (recovered : bool) : Act World () :=
  do! finished := act_try (finish_turn_capture_inner session_id recovered) in
  match finished with
  | Ok _ => act_ret ()
  | Err e =>
      do! read_ := act_try (read_record session_id) in
      match read_ with
      | Ok stored =>
          do! now := asks_now in
          let receipt := st_receipt stored in
          let receipt := with_receipt_state
                           (with_times receipt (tc_observation receipt) (Some now)
                              (tc_before receipt) (tc_after receipt)) TurnUnavailable AFTER_UNSAVED in
          do! _ := act_try (save_record session_id (with_receipt stored receipt (st_after stored))) in
          act_err e
      | Err _ => act_err e
      end
  end.
End captures.
