(* ===== verification/TurnRestore.v ===== *)
(** * Restoration of the files of a turn ([wts-app/src/agent_turn_restore.rs])

    A restore puts back the files a task changed, one after the other, and keeps a journal: the
    request, the files put back, the file being put back, and whether it is finished.  A marker
    of the workspace says that a journal is unfinished; the next host, or the next task of the
    workspace, continues it. *)

From S2P Require Import Prelude Order Text StoreBase Sessions Conversations Captures WorkServices.
From S2P Require Import Worktrees TurnWorld.

Local Open Scope N_scope.

Definition blocker (code : string) (path : option str) (detail : string) : AgentTurnRestoreBlocker :=
  {| rb_code := lit code; rb_file_path := path; rb_detail := lit detail |}.

(** ** Changed copies *)

Definition with_preflight (p : AgentTurnRestorePreflight) (state : AgentTurnRestorePreflightState)
    (files : list AgentTurnRestoreFile) (blockers : list AgentTurnRestoreBlocker) (detail : str) :
    AgentTurnRestorePreflight :=
  {| rp_schema_version := rp_schema_version p; rp_conversation_id := rp_conversation_id p;
     rp_request_id := rp_request_id p; rp_session_id := rp_session_id p;
     rp_workspace_id := rp_workspace_id p; rp_repository_id := rp_repository_id p;
     rp_after_checkpoint_id := rp_after_checkpoint_id p; rp_state := state;
     rp_effect_digest := rp_effect_digest p; rp_resume_request_id := rp_resume_request_id p;
     rp_files := files; rp_blockers := blockers; rp_detail := detail;
     rp_restored_at_unix_ms := rp_restored_at_unix_ms p |}.

Definition with_restored_at (p : AgentTurnRestorePreflight) (at_ : option Z) :
    AgentTurnRestorePreflight :=
  {| rp_schema_version := rp_schema_version p; rp_conversation_id := rp_conversation_id p;
     rp_request_id := rp_request_id p; rp_session_id := rp_session_id p;
     rp_workspace_id := rp_workspace_id p; rp_repository_id := rp_repository_id p;
     rp_after_checkpoint_id := rp_after_checkpoint_id p; rp_state := rp_state p;
     rp_effect_digest := rp_effect_digest p; rp_resume_request_id := rp_resume_request_id p;
     rp_files := rp_files p; rp_blockers := rp_blockers p; rp_detail := rp_detail p;
     rp_restored_at_unix_ms := at_ |}.

Definition with_resume (p : AgentTurnRestorePreflight) (request : AgentTurnRestoreRequest) :
    AgentTurnRestorePreflight :=
  {| rp_schema_version := rp_schema_version p; rp_conversation_id := rp_conversation_id p;
     rp_request_id := rp_request_id p; rp_session_id := rp_session_id p;
     rp_workspace_id := rp_workspace_id p; rp_repository_id := rp_repository_id p;
     rp_after_checkpoint_id := rp_after_checkpoint_id p; rp_state := rp_state p;
     rp_effect_digest := rq_effect_digest request;
     rp_resume_request_id := Some (rq_request_id request);
     rp_files := rp_files p; rp_blockers := rp_blockers p; rp_detail := rp_detail p;
     rp_restored_at_unix_ms := rp_restored_at_unix_ms p |}.

Definition with_result (r : AgentTurnRestoreResult) (state : AgentTurnRestoreResultState)
    (at_ : option Z) (blockers : list AgentTurnRestoreBlocker) (detail : str) :
    AgentTurnRestoreResult :=
  {| ro_schema_version := ro_schema_version r; ro_conversation_id := ro_conversation_id r;
     ro_request_id := ro_request_id r; ro_restore_request_id := ro_restore_request_id r;
     ro_state := state; ro_restored_at_unix_ms := at_; ro_files := ro_files r;
     ro_blockers := blockers; ro_detail := detail |}.

Definition with_files (r : AgentTurnRestoreResult) (files : list AgentTurnRestoreFile) :
    AgentTurnRestoreResult :=
  {| ro_schema_version := ro_schema_version r; ro_conversation_id := ro_conversation_id r;
     ro_request_id := ro_request_id r; ro_restore_request_id := ro_restore_request_id r;
     ro_state := ro_state r; ro_restored_at_unix_ms := ro_restored_at_unix_ms r; ro_files := files;
     ro_blockers := ro_blockers r; ro_detail := ro_detail r |}.

Definition with_blockers (r : AgentTurnRestoreResult) (blockers : list AgentTurnRestoreBlocker) :
    AgentTurnRestoreResult :=
  with_result r (ro_state r) (ro_restored_at_unix_ms r) blockers (ro_detail r).

Definition journal_of (j : RestoreJournal) (result : AgentTurnRestoreResult) (finished : bool)
    (pending : option AgentTurnRestoreFile) : RestoreJournal :=
  {| rj_request := rj_request j; rj_result := result; rj_finished := finished;
     rj_pending_file := pending |}.

(** One more blocker in a journal. *)
Definition block (j : RestoreJournal) (b : AgentTurnRestoreBlocker) : RestoreJournal :=
  journal_of j (with_blockers (rj_result j) (ro_blockers (rj_result j) ++ [b])) (rj_finished j)
    (rj_pending_file j).

(** One more file that was put back. *)
Definition put_back (j : RestoreJournal) (file : AgentTurnRestoreFile)
    (pending : option AgentTurnRestoreFile) : RestoreJournal :=
  journal_of j (with_files (rj_result j) (ro_files (rj_result j) ++ [file])) (rj_finished j) pending.

(** ** The effect of a restore *)

Definition actions (receipt : AgentTurnChanges) : list AgentTurnRestoreFile :=
  (λ file, {| rf_file_path := tf_file_path file;
              rf_action := match tf_before_sha256 file with
                           | Some _ => ActionRestore
                           | None => ActionRemove
                           end |}) <$> tc_files receipt.

(** The file is done, or it was being done and is as it should be. *)
Definition file_done (before capture : CapturedFiles) (j : RestoreJournal)
    (file : AgentTurnRestoreFile) : bool :=
  bool_decide (file ∈ ro_files (rj_result j))
  || (bool_decide (rj_pending_file j = Some file)
      && bool_decide (file_state (capture !! rf_file_path file)
                      = file_state (before !! rf_file_path file))).

Definition mixed_file (before capture : CapturedFiles) (state : CapturedFiles * RestoreJournal)
    (file : AgentTurnRestoreFile) : CapturedFiles * RestoreJournal :=
  let '(expected, j) := state in
  if file_done before capture j file then
    (match before !! rf_file_path file with
     | Some original => <[rf_file_path file := original]> expected
     | None => delete (rf_file_path file) expected
     end,
     if bool_decide (file ∈ ro_files (rj_result j)) then j
     else put_back j file (rj_pending_file j))
  else (expected, j).

(** The capture expected in the middle of a restore, and the journal with the pending file when
    it was written. *)
Definition mixed_expected_state (stored : StoredTurn) (j : RestoreJournal)
    (capture : WorktreeCheckpointCapture) :
    result (WorktreeCheckpointCapture * RestoreJournal) LocalWtsError :=
  let? before := ok_or (st_before stored) AgentConversationUnavailable in
  let? after := ok_or (st_after stored) AgentConversationUnavailable in
  let '(files, j) := foldl (mixed_file (wt_files before) (wt_files capture))
                       (wt_files after, j) (actions (st_receipt stored)) in
  Ok (capture_with after files, j).

Section restore.
Context {W : Type} `{WorkServices W} `{TurnServices W} `{GitHost} `{CaptureDigests} `{TurnJson}.

Local Abbreviation World := (TurnWorld W).

Definition effect_digest (receipt : AgentTurnChanges) (files : list AgentTurnRestoreFile) : str :=
  restore_effect (tc_conversation_id receipt) (tc_request_id receipt) (tc_session_id receipt)
    (tc_before receipt) (tc_after receipt) files.

(** The digests of two captures are equal, and both exist. *)
Definition same_capture (left right : WorktreeCheckpointCapture) : bool :=
  match canonical_capture_digest left, canonical_capture_digest right with
  | Ok a, Ok b => bool_decide (a = b)
  | _, _ => false
  end.

(** ** Files *)

Definition write_json (size : N) (f : TurnDisk → TurnDisk) : Act World () :=
  check! guard_err (MAX_RECORD_BYTES <? size) AgentConversationUnavailable in
  writes f.

Definition read_journal (session_id request_id : Uuid) : Act World RestoreJournal :=
  reads (λ d, ok_or (td_journals d !! (session_id, request_id)) AgentConversationUnavailable).

Definition write_journal (session_id : Uuid) (j : RestoreJournal) : Act World () :=
  write_json (restore_journal_bytes j)
    (λ d, with_journal d (session_id, rq_request_id (rj_request j)) j).

Definition write_completed (session_id : Uuid) (r : AgentTurnRestoreResult) : Act World () :=
  write_json (restore_result_bytes r) (λ d, with_completed d session_id r).

Definition write_marker (pending : PendingRestore) : Act World () :=
  write_json (pending_restore_bytes pending)
    (λ d, with_restores d (<[pr_workspace_id pending := pending]> (td_restores d))).

(** Removing a file that is not there fails. *)
Definition remove_marker (workspace_id : Uuid) : Act World () :=
  do! present := peek (λ w, bool_decide (is_Some (td_restores (tw_disk w) !! workspace_id))) in
  check! guard_err (negb present) AgentConversationUnavailable in
  writes (λ d, with_restores d (delete workspace_id (td_restores d))).

(** ** Applying a restore *)

Definition FILES_CHANGED : AgentTurnRestoreBlocker :=
  blocker "filesChanged" None
    "Files or Git state changed during restore. Review the files before you continue.".
Definition FILE_CONFLICT (path : str) : AgentTurnRestoreBlocker :=
  blocker "fileConflict" (Some path)
    "This file changed or its folder is unavailable. The remaining files were not restored. Review the partial result.".
Definition FINAL_STATE_CHANGED : AgentTurnRestoreBlocker :=
  blocker "finalStateChanged" None
    "The final file state could not be confirmed. Review the listed effects and current files, then retry this restore.".

(** The remaining files, until one cannot be put back. *)
Fixpoint restore_files (stored : StoredTurn) (session_id : Uuid) (before after : CapturedFiles)
    (contents : gmap str (list N)) (j : RestoreJournal) (files : list AgentTurnRestoreFile) :
    Act World RestoreJournal :=
  match files with
  | [] => act_ret j
  | file :: files' =>
      if bool_decide (file ∈ ro_files (rj_result j))
      then restore_files stored session_id before after contents j files'
      else
        let path := rf_file_path file in
        let j := journal_of j (rj_result j) (rj_finished j) (Some file) in
        do! _ := write_journal session_id j in
        let '(hash, mode) := file_state (after !! path) in
        do! restored := act_try (restore_bytes (st_target stored) path (contents !! path)
                                   (file_state (before !! path)).2 hash mode
                                   (st_target_identity stored)) in
        if is_ok restored then
          let j := put_back j file None in
          do! _ := write_journal session_id j in
          restore_files stored session_id before after contents j files'
        else act_ret (block j (FILE_CONFLICT path))
  end.

Definition RESTORED : str :=
  lit "Restored the listed working files and checked their captured state. Git history and the index were not changed by this restore.".
Definition STOPPED : str :=
  lit "Restore stopped. Review the listed files and conflicts, then retry this restore. Files already restored are checked before the remaining files continue. The private snapshots were kept.".

(** The first half of [apply_restore]: what was found, and the files put back. *)
Definition restore_remaining (stored : StoredTurn) (session_id : Uuid)
    (before after : WorktreeCheckpointCapture) (j : RestoreJournal) : Act World RestoreJournal :=
  do! capture := capture_checkpoint (st_target stored) in
  do! mixed := act_lift (mixed_expected_state stored j capture) in
  let '(expected, j) := mixed in
  do! identity := target_identity (st_target stored) in
  if negb (bool_decide (identity = st_target_identity stored)) || negb (same_capture capture expected)
  then act_ret (block j FILES_CHANGED)
  else
    let files := actions (st_receipt stored) in
    (* every snapshot is read before the first file is written *)
    do! contents := read_contents (sv_turn_dir session_id) (wt_files before) (rf_file_path <$> files) in
    restore_files stored session_id (wt_files before) (wt_files after) contents j files.

(** The second half: the final state is captured once more. *)
Definition confirm_restored (stored : StoredTurn) (before : WorktreeCheckpointCapture)
    (j : RestoreJournal) : Act World RestoreJournal :=
  if bool_decide (ro_blockers (rj_result j) = []) then
    do! capture := act_try (capture_checkpoint (st_target stored)) in
    let verified := match capture with Ok capture => same_capture capture before | Err _ => false end in
    do! same_target :=
      (if verified then
         do! identity := target_identity (st_target stored) in
         act_ret (bool_decide (identity = st_target_identity stored))
       else act_ret false) in
    act_ret (if same_target then j else block j FINAL_STATE_CHANGED)
  else act_ret j.

Definition apply_restore (stored : StoredTurn) (session_id : Uuid) (j : RestoreJournal) :
    Act World RestoreJournal :=
  do! before := act_lift (ok_or (st_before stored) AgentConversationUnavailable) in
  do! after := act_lift (ok_or (st_after stored) AgentConversationUnavailable) in
  do! j := restore_remaining stored session_id before after j in
  do! j := confirm_restored stored before j in
  do! result :=
    (if bool_decide (ro_blockers (rj_result j) = []) then
       do! now := asks_now in
       act_ret (with_result (rj_result j) ResultRestored (Some now) [] RESTORED)
     else act_ret (with_result (rj_result j) ResultIncomplete
                     (ro_restored_at_unix_ms (rj_result j)) (ro_blockers (rj_result j)) STOPPED)) in
  let j := journal_of j result true (rj_pending_file j) in
  do! _ := write_journal session_id j in
  do! _ := write_completed session_id result in
  do! _ := remove_marker (tc_workspace_id (st_receipt stored)) in
  act_ret j.

(** ** Previews *)

Definition preflight_of (receipt : AgentTurnChanges) : AgentTurnRestorePreflight :=
  let files := actions receipt in
  {| rp_schema_version := 1; rp_conversation_id := tc_conversation_id receipt;
     rp_request_id := tc_request_id receipt; rp_session_id := tc_session_id receipt;
     rp_workspace_id := tc_workspace_id receipt; rp_repository_id := tc_repository_id receipt;
     rp_after_checkpoint_id := checkpoint_id receipt; rp_state := RestoreReady;
     rp_effect_digest := effect_digest receipt files; rp_resume_request_id := None;
     rp_files := files; rp_blockers := [];
     rp_detail := lit "Restore the captured working files to their state before this task. Existing dirty changes from before the task remain. Git history and the index will not change. Each file is checked before it is written. Keep other editors and Git tools idle during restore.";
     rp_restored_at_unix_ms := None |}.

(** The result of the last restore of the turn that came to an end. *)
Definition historical_result (receipt : AgentTurnChanges) :
    Act World (option AgentTurnRestoreResult) :=
  let session_id := tc_session_id receipt in
  do! exists_ := reads (λ d, Ok (bool_decide (is_Some (td_completed d !! session_id)))) in
  if exists_ : bool then
    do! result := reads (λ d, ok_or (td_completed d !! session_id) AgentConversationUnavailable) in
    do! j := read_journal session_id (ro_restore_request_id result) in
    check! guard_err (negb (ro_conversation_id result =? tc_conversation_id receipt)
                      || negb (ro_request_id result =? tc_request_id receipt)
                      || negb (ro_restore_request_id result =? rq_request_id (rj_request j))
                      || negb (bool_decide (result = rj_result j))
                      || negb (rj_finished j)
                      || negb (bool_decide (rq_effect_digest (rj_request j)
                                            = effect_digest receipt (actions receipt))))
             AgentConversationUnavailable in
    act_ret (Some result)
  else act_ret None.

Definition EARLIER_CHANGED : AgentTurnRestoreBlocker :=
  blocker "filesChanged" None
    "Files or Git state changed during the earlier restore. Review those changes, then check again. The same restore can continue when its expected file state is restored.".
Definition CONTINUE : str :=
  lit "Continue the earlier restore. Restored files and the remaining files are checked. Keep other editors and Git tools idle until restore finishes.".

Definition resume_preflight (receipt : AgentTurnChanges) (j : RestoreJournal)
    (p : AgentTurnRestorePreflight) : Act World AgentTurnRestorePreflight :=
  check! guard_err (negb (ro_conversation_id (rj_result j) =? tc_conversation_id receipt)
                    || negb (ro_request_id (rj_result j) =? tc_request_id receipt)
                    || negb (ro_restore_request_id (rj_result j) =? rq_request_id (rj_request j))
                    || negb (bool_decide (rq_effect_digest (rj_request j)
                                          = effect_digest receipt (actions receipt))))
           AgentConversationUnavailable in
  do! stored := read_record (tc_session_id receipt) in
  do! worktree := sv_source_worktree (W:=World) (tc_workspace_id receipt) (tc_repository_id receipt) in
  do! current := capture_checkpoint (st_target stored) in
  do! mixed := act_lift (mixed_expected_state stored j current) in
  let '(expected, observed) := mixed in
  let files := filter (λ file, file ∉ ro_files (rj_result observed)) (actions receipt) in
  let p := with_resume p (rj_request j) in
  do! same_target :=
    (if bool_decide (worktree = st_target stored) then
       do! identity := target_identity (st_target stored) in
       act_ret (bool_decide (identity = st_target_identity stored))
     else act_ret false) in
  act_ret (if same_target && same_capture current expected
           then with_preflight p RestoreReady files [] CONTINUE
           else with_preflight p RestoreBlocked files [EARLIER_CHANGED] (rp_detail p)).

Definition CAPTURE_NEEDED : AgentTurnRestoreBlocker :=
  blocker "captureUnavailable" None
    "Restore needs a complete capture from the original task. Incomplete, recovered, and older captures cannot be restored.".
Definition GIT_CHANGED : AgentTurnRestoreBlocker :=
  blocker "gitStateChanged" None
    "The task changed Git history, branch, or index. This restore only supports working-file changes. Review the Git state first.".
Definition CHECKPOINT_MISSING : AgentTurnRestoreBlocker :=
  blocker "captureUnavailable" None "The before or after checkpoint is missing.".
Definition LATER_CHANGES : AgentTurnRestoreBlocker :=
  blocker "filesChanged" None
    "Files or Git state changed after the task. Review the later changes before you restore.".
Definition PARENT_MISSING (path : str) : AgentTurnRestoreBlocker :=
  blocker "parentMissing" (Some path)
    "The original parent folder is missing. Restore that folder before you retry.".
Definition WORKSPACE_CHANGED : AgentTurnRestoreBlocker :=
  blocker "workspaceChanged" None
    "The workspace path or repository no longer matches this task. Review the workspace before you restore.".

Definition receipt_blockers (receipt : AgentTurnChanges) : list AgentTurnRestoreBlocker :=
  (if negb (bool_decide (tc_state receipt = TurnReady))
      || negb (bool_decide (tc_observation receipt = ObservedNormal))
   then [CAPTURE_NEEDED] else [])
  ++ match tc_before receipt, tc_after receipt with
     | Some before, Some after =>
         if negb (bool_decide (tp_head_commit_oid before = tp_head_commit_oid after))
            || negb (bool_decide (tp_branch_name before = tp_branch_name after))
            || negb (bool_decide (tp_index_sha256 before = tp_index_sha256 after))
         then [GIT_CHANGED] else []
     | _, _ => [CHECKPOINT_MISSING]
     end.

(** The folders of the files to write must be there. *)
Definition parent_blockers (target : str) (files : list AgentTurnRestoreFile) :
    Act World (list AgentTurnRestoreBlocker) :=
  act_fold (λ blockers file,
      if bool_decide (rf_action file = ActionRestore) then
        do! there := act_try (on_trees (look (λ trees,
              let? tree := ok_or (trees !! target) WorktreeFileUnavailable in
              Ok (parent_is_dir tree (rf_file_path file)))) AgentConversationUnavailable) in
        act_ret (match there with
                 | Ok true => blockers
                 | _ => blockers ++ [PARENT_MISSING (rf_file_path file)]
                 end)
      else act_ret blockers) [] files.

Definition target_blockers (receipt : AgentTurnChanges) (files : list AgentTurnRestoreFile) :
    Act World (list AgentTurnRestoreBlocker) :=
  do! target := act_try (load_check_target (tc_conversation_id receipt) (tc_request_id receipt)) in
  match target with
  | Ok target =>
      do! same := matches_check_target target in
      do! parents := parent_blockers (tt_target target) files in
      act_ret ((if same : bool then [] else [LATER_CHANGES]) ++ parents)
  | Err _ => act_ret [WORKSPACE_CHANGED]
  end.

Definition EARLIER_RESTORED : str :=
  lit "This task was restored earlier. Files may have changed since that restore.".
Definition RESTORE_BLOCKED : str :=
  lit "Restore is blocked. No files were changed. Review the listed conflicts.".

Definition validate_preflight (receipt : AgentTurnChanges) : Act World AgentTurnRestorePreflight :=
  let p := preflight_of receipt in
  do! history := historical_result receipt in
  match history with
  | Some result =>
      let restored := bool_decide (ro_state result = ResultRestored) in
      let p := with_restored_at
                 (with_preflight p (if restored then RestoreDone else RestoreBlocked) []
                    (ro_blockers result) (if restored then EARLIER_RESTORED else ro_detail result))
                 (ro_restored_at_unix_ms result) in
      if bool_decide (ro_state result = ResultIncomplete) then
        do! j := read_journal (tc_session_id receipt) (ro_restore_request_id result) in
        resume_preflight receipt j p
      else act_ret p
  | None =>
      do! blockers := (match receipt_blockers receipt with
                       | [] => target_blockers receipt (rp_files p)
                       | blockers => act_ret blockers
                       end) in
      act_ret (if bool_decide (blockers = []) then p
               else with_preflight p RestoreBlocked (rp_files p) blockers RESTORE_BLOCKED)
  end.

(** ** Leases *)

Definition active_in (workspace_id : Uuid) (conversations : list AgentConversation) : bool :=
  existsb (λ other, (cv_workspace_id other =? workspace_id)
                    && bool_decide (is_Some (cv_active_session_id other))) conversations.

Definition operation_leases (c : AgentConversation) : Act World () :=
  do! _ := sv_store_locks (W:=World) in
  do! conversations := asks ts_recovered in
  check! guard_err (active_in (cv_workspace_id c) conversations) AgentConversationBusy in
  do! sessions := asks (ts_sessions (cv_workspace_id c)) in
  check! guard_err (existsb session_active sessions) AgentConversationBusy in
  do! _ := workspace_operation_lease (cv_workspace_id c) in
  turn_lease c.

(** ** The calls *)

Definition WORKSPACE_BUSY : AgentTurnRestoreBlocker :=
  blocker "workspaceBusy" None
    "An agent or host operation is active in this workspace. Wait for it to finish, then check again.".
Definition WORKSPACE_ACTIVE : str := lit "Restore is blocked while this workspace is active.".

(** The conversations with work, unless one of them is active, and both leases without regard
    to markers. *)
Definition leases_free (c : AgentConversation) (workspace_id : Uuid) : Act World bool :=
  do! _ := sv_store_locks (W:=World) in
  do! conversations := sv_work_conversations (W:=World) in
  if active_in workspace_id conversations then act_ret false
  else
    do! operation := act_try (asks (ts_lock_operation workspace_id)) in
    if is_ok operation then
      do! repository := act_try (turn_lease c) in
      act_ret (is_ok repository)
    else act_ret false.

Definition preflight_agent_turn_restore (conversation_id request_id : Uuid) :
    Act World AgentTurnRestorePreflight :=
  do! receipt := get_agent_turn_changes conversation_id request_id in
  do! c := sv_get (W:=World) conversation_id in
  do! leases := act_try (operation_leases c) in
  match leases with
  | Ok _ => validate_preflight receipt
  | Err AgentConversationBusy =>
      let workspace_id := tc_workspace_id receipt in
      let p := preflight_of receipt in
      let p := with_preflight p RestoreBlocked (rp_files p) [WORKSPACE_BUSY] WORKSPACE_ACTIVE in
      do! marked := reads (λ d, Ok (bool_decide (is_Some (td_restores d !! workspace_id)))) in
      if marked : bool then
        do! pending := reads (λ d, ok_or (td_restores d !! workspace_id)
                                     AgentConversationUnavailable) in
        if (pr_session_id pending =? tc_session_id receipt)
           && (pr_workspace_id pending =? workspace_id)
        then
          do! j := read_journal (tc_session_id receipt) (pr_restore_request_id pending) in
          let p := with_resume p (rj_request j) in
          do! free := leases_free c workspace_id in
          if free : bool then resume_preflight receipt j p else act_ret p
        else act_ret p
      else act_ret p
  | Err e => act_err e
  end.

(** *** Recovery *)

(** What makes a journal one of the turn it is stored with. *)
Definition journal_invalid (stored : StoredTurn) (c : AgentConversation) (pending : PendingRestore)
    (before after : WorktreeCheckpointCapture) (j : RestoreJournal) : bool :=
  let receipt := st_receipt stored in
  let expected_files := actions receipt in
  negb (ro_request_id (rj_result j) =? tc_request_id receipt)
  || negb (ro_conversation_id (rj_result j) =? tc_conversation_id receipt)
  || negb (rq_request_id (rj_request j) =? pr_restore_request_id pending)
  || negb (ro_restore_request_id (rj_result j) =? rq_request_id (rj_request j))
  || negb (bool_decide (rq_effect_digest (rj_request j) = effect_digest receipt expected_files))
  || negb (bool_decide (tc_state receipt = TurnReady))
  || negb (bool_decide (tc_observation receipt = ObservedNormal))
  || negb (bool_decide (source_digest (cv_source c) = Some (tc_source_context_sha256 receipt)))
  || negb (existsb (λ m, bool_decide (am_role m = RoleAssistant)
                         && bool_decide (am_request_id m = Some (tc_request_id receipt))
                         && bool_decide (am_session_id m = Some (tc_session_id receipt)))
             (cv_messages c))
  || negb (is_ok (canonical_capture_digest before)) || negb (is_ok (canonical_capture_digest after))
  || negb (bool_decide (wt_head_commit_oid before = wt_head_commit_oid after))
  || negb (bool_decide (wt_branch_name before = wt_branch_name after))
  || negb (bool_decide (wt_index_sha256 before = wt_index_sha256 after))
  || existsb (λ file, negb (bool_decide (file ∈ expected_files))) (ro_files (rj_result j))
  || match rj_pending_file j with
     | Some file => negb (bool_decide (file ∈ expected_files))
     | None => false
     end.

(** A lease that is taken: another host is at work, and there is nothing to recover. *)
Definition unless_busy {A} (m : Act World A) (k : Act World ()) : Act World () :=
  do! lease := act_try m in
  match lease with
  | Ok _ => k
  | Err AgentConversationBusy => act_ret ()
  | Err e => act_err e
  end.

Definition recover_pending_workspace (workspace_id : Uuid) : Act World () :=
  do! marked := reads (λ d, Ok (bool_decide (is_Some (td_restores d !! workspace_id)))) in
  if marked : bool then
    unless_busy (asks (ts_lock_operation workspace_id)) (
    do! pending := reads (λ d, ok_or (td_restores d !! workspace_id) AgentConversationUnavailable) in
    check! guard_err (negb (pr_workspace_id pending =? workspace_id)) AgentConversationUnavailable in
    do! stored := read_record (pr_session_id pending) in
    let receipt := st_receipt stored in
    do! c := sv_read_conversation (W:=World) (tc_conversation_id receipt) in
    check! guard_err (negb (cv_workspace_id c =? workspace_id)
                      || negb (bool_decide (cv_repository_id c = tc_repository_id receipt))
                      || negb (tc_session_id receipt =? pr_session_id pending))
             AgentConversationUnavailable in
    unless_busy (turn_lease c) (
    do! j := read_journal (pr_session_id pending) (pr_restore_request_id pending) in
    do! before := act_lift (ok_or (st_before stored) AgentConversationUnavailable) in
    do! after := act_lift (ok_or (st_after stored) AgentConversationUnavailable) in
    check! guard_err (journal_invalid stored c pending before after j) AgentConversationUnavailable in
    if rj_finished j then
      do! _ := write_completed (pr_session_id pending) (rj_result j) in
      remove_marker workspace_id
    else
      do! _ := apply_restore stored (pr_session_id pending) j in
      act_ret ()))
  else act_ret ().

(** *** Restoring *)

Definition IN_PROGRESS : str :=
  lit "The restore is in progress. Keep WTS open until it finishes.".
Definition PREVIEW_CHANGED : AgentTurnRestoreBlocker :=
  blocker "preflightChanged" None
    "The restore preview changed. Check the task again before you restore.".

(** The journal on disk, its marker, then the files. *)
Definition start_restore (stored : StoredTurn) (workspace_id session_id : Uuid) (j : RestoreJournal) :
    Act World AgentTurnRestoreResult :=
  do! _ := write_journal session_id j in
  do! _ := write_marker {| pr_session_id := session_id;
                           pr_restore_request_id := rq_request_id (rj_request j);
                           pr_workspace_id := workspace_id |} in
  do! j := apply_restore stored session_id j in
  act_ret (rj_result j).

(** The request has a journal: it has ended, it is recovered, or it is tried again. *)
Definition repeat_restore (conversation_id request_id : Uuid) (request : AgentTurnRestoreRequest)
    (receipt : AgentTurnChanges) : Act World AgentTurnRestoreResult :=
  let session_id := tc_session_id receipt in
  do! j := read_journal session_id (rq_request_id request) in
  check! guard_err (negb (bool_decide (rj_request j = request))
                    || negb (ro_conversation_id (rj_result j) =? conversation_id)
                    || negb (ro_request_id (rj_result j) =? request_id))
           AgentConversationConflict in
  if rj_finished j && negb (bool_decide (ro_state (rj_result j) = ResultIncomplete))
  then act_ret (rj_result j)
  else if negb (rj_finished j) then
    do! _ := recover_pending_workspace (tc_workspace_id receipt) in
    do! recovered := read_journal session_id (rq_request_id request) in
    if rj_finished recovered then act_ret (rj_result recovered) else act_err AgentConversationBusy
  else
    do! c := sv_get (W:=World) conversation_id in
    do! _ := operation_leases c in
    do! stored := read_record session_id in
    do! worktree := sv_source_worktree (W:=World) (tc_workspace_id receipt)
                      (tc_repository_id receipt) in
    check! guard_err (negb (bool_decide (worktree = st_target stored))) AgentConversationConflict in
    do! identity := target_identity (st_target stored) in
    check! guard_err (negb (bool_decide (identity = st_target_identity stored)))
             AgentConversationConflict in
    start_restore stored (tc_workspace_id receipt) session_id
      (journal_of j (with_blockers (rj_result j) []) false (rj_pending_file j)).

Definition new_restore (conversation_id request_id : Uuid) (request : AgentTurnRestoreRequest)
    (receipt : AgentTurnChanges) : Act World AgentTurnRestoreResult :=
  let session_id := tc_session_id receipt in
  do! c := sv_get (W:=World) conversation_id in
  do! leases := act_try (operation_leases c) in
  do! p := (match leases with
            | Ok _ => validate_preflight receipt
            | Err AgentConversationBusy => act_err AgentConversationBusy
            | Err _ => act_err AgentConversationUnavailable
            end) in
  let result state blockers detail :=
    {| ro_schema_version := 1; ro_conversation_id := conversation_id; ro_request_id := request_id;
       ro_restore_request_id := rq_request_id request; ro_state := state;
       ro_restored_at_unix_ms := None; ro_files := []; ro_blockers := blockers;
       ro_detail := detail |} in
  if negb (bool_decide (rp_state p = RestoreReady))
     || negb (bool_decide (rp_effect_digest p = rq_effect_digest request))
     || match rp_resume_request_id p with Some id => negb (id =? rq_request_id request) | None => false end
  then
    let blockers := match rp_blockers p with [] => [PREVIEW_CHANGED] | blockers => blockers end in
    let conflict := result ResultConflict blockers (rp_detail p) in
    do! _ := private_dir in
    do! _ := private_dir in
    do! _ := write_journal session_id
               {| rj_request := request; rj_result := conflict; rj_finished := true;
                  rj_pending_file := None |} in
    act_ret conflict
  else
    do! stored := read_record session_id in
    start_restore stored (tc_workspace_id receipt) session_id
      {| rj_request := request; rj_result := result ResultIncomplete (rp_blockers p) IN_PROGRESS;
         rj_finished := false; rj_pending_file := None |}.

Definition restore_agent_turn (conversation_id request_id : Uuid)
    (request : AgentTurnRestoreRequest) : Act World AgentTurnRestoreResult :=
  check! guard_err ((rq_request_id request =? 0) || negb (valid_sha256 (rq_effect_digest request)))
           InvalidAgentConversation in
  do! receipt := get_agent_turn_changes conversation_id request_id in
  do! started := reads (λ d,
      Ok (bool_decide (is_Some (td_journals d !! (tc_session_id receipt, rq_request_id request))))) in
  if started : bool then repeat_restore conversation_id request_id request receipt
  else new_restore conversation_id request_id request receipt.
End restore.
