(* ===== verification/TurnChecks.v ===== *)
(** * Checks and decisions of a turn ([wts-app/src/agent_turn_checks.rs],
    [agent_turn_decisions.rs])

    A check of the workspace's plan runs on the worktree a turn left; each run is a file, written
    when it starts and when it ended.  The proof for an integration is read from the runs.  A user's
    decisions on a turn are one file, of which only the end grows. *)

From S2P Require Import Prelude Order Text StoreBase Sessions Conversations Captures.
From S2P Require Import WorkServices Worktrees TurnWorld.

Local Open Scope N_scope.

Definition MAX_CHECKS : nat := 64.
Definition MAX_RUNS : nat := 64.
Definition MAX_OUTPUT_BYTES : N := 65536.
Definition MAX_DETAIL_BYTES : N := 2048.
Definition MAX_RUN_BYTES : N := 512 * 1024.
Definition MAX_PLAN_REVISION : N := 9007199254740991.

(** Lengths of stored JSON, the text of an error, and the digest of a receipt. *)
Class CheckJson := {
  check_bytes : VerificationCheck → N;
  check_run_bytes : StoredCheckRun → N;
  decisions_bytes : StoredDecisions → N;
  local_error_text : LocalWtsError → str;
  receipt_digest : AgentTurnChanges → str
}.

(** ** Texts *)

(** The character a lossy decoding reads first and the bytes it takes: the longest beginning of a
    sequence that is not continued well becomes one replacement character. *)
Definition lossy_char (b0 : N) (rest : list N) : char * nat :=
  let next k lo hi := match rest !! k with Some b => in_range lo hi b | None => false end in
  let part k := match rest !! k with Some b => b mod 64 | None => 0 end in
  if b0 <? 128 then (b0, 1%nat)
  else if in_range 194 223 b0 then
    if next 0%nat 128 191 then ((b0 mod 32) * 64 + part 0%nat, 2%nat) else (65533, 1%nat)
  else if in_range 224 239 b0 then
    let lo := if b0 =? 224 then 160 else 128 in
    let hi := if b0 =? 237 then 159 else 191 in
    if negb (next 0%nat lo hi) then (65533, 1%nat)
    else if negb (next 1%nat 128 191) then (65533, 2%nat)
    else ((b0 mod 16) * 4096 + part 0%nat * 64 + part 1%nat, 3%nat)
  else if in_range 240 244 b0 then
    let lo := if b0 =? 240 then 144 else 128 in
    let hi := if b0 =? 244 then 143 else 191 in
    if negb (next 0%nat lo hi) then (65533, 1%nat)
    else if negb (next 1%nat 128 191) then (65533, 2%nat)
    else if negb (next 2%nat 128 191) then (65533, 3%nat)
    else ((b0 mod 8) * 262144 + part 0%nat * 4096 + part 1%nat * 64 + part 2%nat, 4%nat)
  else (65533, 1%nat).

Fixpoint lossy (fuel : nat) (bytes : list N) : str :=
  match fuel, bytes with
  | S fuel', b0 :: rest => let '(c, n) := lossy_char b0 rest in c :: lossy fuel' (drop (n - 1) rest)
  | _, _ => []
  end.

(** [String::from_utf8_lossy]; each step takes at least one byte. *)
Definition from_utf8_lossy (bytes : list N) : str := lossy (length bytes) bytes.

Fixpoint take_bytes (limit : N) (s : str) : str :=
  match s with
  | [] => []
  | c :: s' => if utf8_len c <=? limit then c :: take_bytes (limit - utf8_len c) s' else []
  end.

(** Tabulator, line feed and carriage return. *)
Definition layout_char (c : char) : bool := (c =? 10) || (c =? 13) || (c =? 9).

Definition bounded_text (value : str) (limit : N) : str * bool :=
  let clean := filter (λ c, negb (is_control c) || layout_char c = true) value in
  let text := take_bytes limit clean in
  (text, byte_len text <? byte_len clean).

Definition valid_check_id (value : str) : bool :=
  negb (is_empty value) && (byte_len value <=? 128)
  && forallb (λ c, is_ascii_alphanumeric c || (c =? 45) || (c =? 95) || (c =? 46)) value.

Definition approved_fixed_command (executable : str) (args : list str) : bool :=
  let named name := bool_decide (executable = lit name) in
  let takes (expected : list string) := bool_decide (args = lit <$> expected) in
  if named "cargo" then takes ["test"; "--quiet"]%string
  else if named "npm" then takes ["test"; "--silent"]%string
  else if named "pytest" then takes ["--quiet"]%string
  else if named "python" || named "python3" then takes ["-m"; "pytest"; "--quiet"]%string
  else if named "go" then takes ["test"; "./..."]%string
  else false.

(** ** Changed copies of a run *)

Definition with_verification_started (r : StoredCheckRun) (started : option Z) : StoredCheckRun :=
  {| sr_conversation_id := sr_conversation_id r; sr_turn_request_id := sr_turn_request_id r;
     sr_session_id := sr_session_id r; sr_workspace_id := sr_workspace_id r;
     sr_repository_id := sr_repository_id r;
     sr_source_context_sha256 := sr_source_context_sha256 r; sr_request := sr_request r;
     sr_check := sr_check r; sr_verification_started_at_unix_ms := started; sr_run := sr_run r |}.

Definition with_check_run (r : StoredCheckRun) (run : AgentTurnCheckRun) : StoredCheckRun :=
  {| sr_conversation_id := sr_conversation_id r; sr_turn_request_id := sr_turn_request_id r;
     sr_session_id := sr_session_id r; sr_workspace_id := sr_workspace_id r;
     sr_repository_id := sr_repository_id r;
     sr_source_context_sha256 := sr_source_context_sha256 r; sr_request := sr_request r;
     sr_check := sr_check r;
     sr_verification_started_at_unix_ms := sr_verification_started_at_unix_ms r; sr_run := run |}.

(** A run that ended without a result. *)
Definition interrupted (run : AgentTurnCheckRun) (now : Z) : AgentTurnCheckRun :=
  {| cr_run_id := cr_run_id run; cr_check_id := cr_check_id run; cr_status := CheckInterrupted;
     cr_started_at_unix_ms := cr_started_at_unix_ms run; cr_completed_at_unix_ms := Some now;
     cr_duration_ms := cr_duration_ms run; cr_exit_code := cr_exit_code run;
     cr_output := cr_output run; cr_output_truncated := cr_output_truncated run;
     cr_detail := lit "The host stopped before this check result was saved. Review the files. Start a new check to test the current recorded state." |}.

(** ** Stored runs *)

Definition run_cmp (a b : StoredCheckRun) : comparison :=
  match Z.compare (cr_started_at_unix_ms (sr_run a)) (cr_started_at_unix_ms (sr_run b)) with
  | Eq => N.compare (cr_run_id (sr_run a)) (cr_run_id (sr_run b))
  | c => c
  end.

(** [max_by_key]: the last of the greatest. *)
Definition latest_run (runs : list StoredCheckRun) : option StoredCheckRun :=
  foldl (λ best r, match best with
                   | Some b => match run_cmp b r with Gt => Some b | _ => Some r end
                   | None => Some r
                   end) None runs.

Definition run_invalid (receipt : AgentTurnChanges) (id : Uuid) (r : StoredCheckRun) : bool :=
  negb (sr_conversation_id r =? tc_conversation_id receipt)
  || negb (sr_turn_request_id r =? tc_request_id receipt)
  || negb (sr_session_id r =? tc_session_id receipt)
  || negb (sr_workspace_id r =? tc_workspace_id receipt)
  || negb (bool_decide (sr_repository_id r = tc_repository_id receipt))
  || negb (bool_decide (sr_source_context_sha256 r = tc_source_context_sha256 receipt))
  || negb (cr_run_id (sr_run r) =? id)
  || negb (rr_request_id (sr_request r) =? id)
  || negb (bool_decide (cr_check_id (sr_run r) = rr_check_id (sr_request r)))
  || negb (bool_decide (vk_id (sr_check r) = rr_check_id (sr_request r)))
  || negb (valid_check_id (cr_check_id (sr_run r)))
  || (MAX_OUTPUT_BYTES <? byte_len (cr_output (sr_run r)))
  || existsb (λ c, c =? 0) (cr_output (sr_run r))
  || (MAX_DETAIL_BYTES <? byte_len (cr_detail (sr_run r))).

(** The files of the directory of a turn, in the order of their names; the order decides only
    which error more than 64 files with an invalid one among them give. *)
Definition run_files (d : TurnDisk) (session_id : Uuid) : list (Uuid * StoredCheckRun) :=
  sort_by (λ a b, N.compare a.1 b.1)
    (omap (λ entry, if entry.1.1 =? session_id then Some (entry.1.2, entry.2) else None)
       (map_to_list (td_runs d))).

Definition stored_runs (d : TurnDisk) (receipt : AgentTurnChanges) :
    result (list StoredCheckRun) LocalWtsError :=
  let? records := try_fold (λ records entry,
      ensure guard_err (MAX_RUNS <=? length records)%nat AgentConversationLimit in
      ensure guard_err (run_invalid receipt entry.1 entry.2) AgentConversationUnavailable in
      Ok (records ++ [entry.2])) [] (run_files d (tc_session_id receipt)) in
  Ok (sort_by run_cmp records).

(** Whether a run is one of [check] that passed on this checkpoint and plan. *)
Definition run_passed (after_checkpoint_id : Uuid) (revision : N) (check : VerificationCheck)
    (r : StoredCheckRun) : bool :=
  bool_decide (cr_status (sr_run r) = CheckPassed)
  && bool_decide (cr_exit_code (sr_run r) = Some 0%Z)
  && bool_decide (is_Some (cr_completed_at_unix_ms (sr_run r)))
  && (rr_expected_after_checkpoint_id (sr_request r) =? after_checkpoint_id)
  && (rr_expected_plan_revision (sr_request r) =? revision)
  && bool_decide (sr_check r = check).

(** The proof of one check: every run with the latest start passed. *)
Definition check_proof (after_checkpoint_id : Uuid) (revision : N) (records : list StoredCheckRun)
    (check : VerificationCheck) : result VerifiedTurnCheck LocalWtsError :=
  let matching := filter (λ r, cr_check_id (sr_run r) = vk_id check) records in
  let? latest := ok_or (latest_run matching) AgentConversationConflict in
  ensure guard_err (existsb (λ r, bool_decide (cr_started_at_unix_ms (sr_run r)
                                               = cr_started_at_unix_ms (sr_run latest))
                                  && negb (run_passed after_checkpoint_id revision check r)) matching)
           AgentConversationConflict in
  let? completed := ok_or (cr_completed_at_unix_ms (sr_run latest)) AgentConversationConflict in
  Ok {| vt_check := check; vt_run_id := cr_run_id (sr_run latest);
        vt_completed_at_unix_ms := completed |}.

Fixpoint check_proofs (after_checkpoint_id : Uuid) (revision : N) (records : list StoredCheckRun)
    (ids : list str) (checks : list VerificationCheck) : result (list VerifiedTurnCheck) LocalWtsError :=
  match checks with
  | [] => Ok []
  | check :: checks' =>
      ensure guard_err (bool_decide (vk_id check ∈ ids)) AgentConversationConflict in
      let? proof := check_proof after_checkpoint_id revision records check in
      let? proofs := check_proofs after_checkpoint_id revision records (vk_id check :: ids) checks' in
      Ok (proof :: proofs)
  end.

Definition new_run (request : RunAgentTurnCheckRequest) (now : Z) : AgentTurnCheckRun :=
  {| cr_run_id := rr_request_id request; cr_check_id := rr_check_id request;
     cr_status := CheckRunning; cr_started_at_unix_ms := now; cr_completed_at_unix_ms := None;
     cr_duration_ms := None; cr_exit_code := None; cr_output := []; cr_output_truncated := false;
     cr_detail := lit "Preparing the saved check" ++ [8230] |}.

Definition new_stored_run (receipt : AgentTurnChanges) (conversation_id turn_request_id : Uuid)
    (request : RunAgentTurnCheckRequest) (check : VerificationCheck) (now : Z) : StoredCheckRun :=
  {| sr_conversation_id := conversation_id; sr_turn_request_id := turn_request_id;
     sr_session_id := tc_session_id receipt; sr_workspace_id := tc_workspace_id receipt;
     sr_repository_id := tc_repository_id receipt;
     sr_source_context_sha256 := tc_source_context_sha256 receipt; sr_request := request;
     sr_check := check; sr_verification_started_at_unix_ms := None; sr_run := new_run request now |}.

Definition status_of (status : VerificationCheckStatus) : AgentTurnCheckStatus :=
  match status with
  | VerifyPassed => CheckPassed | VerifyFailed => CheckFailed | VerifyTimedOut => CheckTimedOut
  | VerifyCancelled => CheckCancelled | VerifyOther => CheckBlocked
  end.

Definition FILES_CHANGED : str :=
  lit "The files or Git state changed before or during this check. This result does not verify the recorded task state. Review the current local changes.".

Section checks.
Context {W : Type} `{WorkServices W} `{TurnServices W} `{GitHost} `{CaptureDigests} `{CheckJson}.

Local Abbreviation World := (TurnWorld W).

Definition read_runs (receipt : AgentTurnChanges) : Act World (list StoredCheckRun) :=
  reads (λ d, stored_runs d receipt).

Definition save_run (receipt : AgentTurnChanges) (r : StoredCheckRun) : Act World () :=
  do! _ := private_dir in
  do! _ := private_dir in
  do! _ := private_dir in
  check! guard_err (MAX_RUN_BYTES <? check_run_bytes r) AgentConversationLimit in
  writes (λ d, with_run d (tc_session_id receipt, cr_run_id (sr_run r)) r).

(** ** The plan *)

(** What a check says of itself: it is of this repository, has a short name and label, runs one of
    the approved commands, and in the worktree. *)
Definition check_supported (target : TrustedTurnCheckTarget) (check : VerificationCheck) : bool :=
  bool_decide (vk_repository_id check = Some (tc_repository_id (tt_receipt target)))
  && valid_check_id (vk_id check) && negb (is_empty (trim (vk_label check)))
  && (byte_len (vk_label check) <=? 512)
  && approved_fixed_command (vk_executable check) (vk_args check)
  && bool_decide (path_components (tt_target target)
                  `prefix_of` path_components (vk_working_directory check)).

Definition check_eligible (target : TrustedTurnCheckTarget) (check : VerificationCheck) : Act World bool :=
  if check_supported target check then
    do! canonical := (λ w, let '(b, w) := ask (ts_canonical (vk_working_directory check)) w in (Ok b, w)) in
    act_ret (canonical && (check_bytes check <=? 32 * 1024))
  else act_ret false.

Definition eligible_checks (target : TrustedTurnCheckTarget) : Act World (N * list VerificationCheck) :=
  do! plan := asks (ts_plan (tc_workspace_id (tt_receipt target))) in
  let '(revision, checks) := plan in
  check! guard_err ((revision =? 0) || (MAX_PLAN_REVISION <? revision)) EvidenceUnavailable in
  do! eligible := act_fold (λ eligible check,
      do! ok := check_eligible target check in
      act_ret (if ok : bool then eligible ++ [check] else eligible)) [] checks in
  check! guard_err (MAX_CHECKS <? length eligible)%nat AgentConversationLimit in
  act_ret (revision, eligible).

(** ** The proof for an integration *)

Definition proof_from_saved_runs (receipt : AgentTurnChanges) (revision : N)
    (checks : list VerificationCheck) : Act World VerifiedTurnChecks :=
  check! guard_err (bool_decide (checks = []) || (MAX_CHECKS <? length checks)%nat || (revision =? 0))
           AgentConversationConflict in
  do! after_checkpoint_id := act_lift (ok_or (checkpoint_id receipt) AgentConversationConflict) in
  do! records := read_runs receipt in
  do! proofs := act_lift (check_proofs after_checkpoint_id revision records [] checks) in
  act_ret {| vc_after_checkpoint_id := after_checkpoint_id; vc_plan_revision := revision;
             vc_checks := proofs |}.

Definition integration_check_proof (target : TrustedTurnCheckTarget) : Act World VerifiedTurnChecks :=
  do! same := matches_check_target target in
  check! guard_err (negb same) AgentConversationConflict in
  do! plan := eligible_checks target in
  let '(revision, checks) := plan in
  check! guard_err (bool_decide (checks = [])) VerificationCheckUnavailable in
  proof_from_saved_runs (tt_receipt target) revision checks.

(** ** The checks of a turn *)

(** A run whose host has stopped: nobody holds its leases. *)
Definition recover_run (receipt : AgentTurnChanges) (c : AgentConversation) (r : StoredCheckRun) :
    Act World StoredCheckRun :=
  match cr_status (sr_run r) with
  | CheckRunning | CheckInterrupted =>
      do! operation := act_try (workspace_operation_lease (tc_workspace_id receipt)) in
      if is_ok operation then
        do! lease := act_try (turn_lease c) in
        if is_ok lease then
          do! r :=
            (if bool_decide (cr_status (sr_run r) = CheckRunning) then
               do! now := asks_now in
               let r := with_check_run r (interrupted (sr_run r) now) in
               do! _ := save_run receipt r in
               act_ret r
             else act_ret r) in
          do! _ := act_try (asks (ts_reconcile r)) in
          act_ret r
        else act_ret r
      else act_ret r
  | _ => act_ret r
  end.

Definition RECORD_NEEDED : str :=
  lit "A complete task change record is required. Review the current local changes.".
Definition PLAN_UNREADABLE : str :=
  lit "Could not read the saved verification plan. Open workspace verification to inspect the plan.".
Definition CHECKS_STALE : str :=
  lit "The files or Git state changed after this task. Review the current local changes. These checks cannot certify the changed state.".
Definition CHECKS_NONE : str :=
  lit "No saved host-approved check targets this repository. Open workspace verification to inspect or add a supported check.".
Definition CHECKS_READY : str :=
  lit "Run a saved check against the task's recorded file state. Files and Git state are compared before and after the check.".

Definition checks_view (receipt : AgentTurnChanges) (conversation_id request_id : Uuid)
    (state : AgentTurnChecksState) (detail : str) (checks : list AgentTurnCheck)
    (runs : list AgentTurnCheckRun) : AgentTurnChecks :=
  {| cs_schema_version := 1; cs_conversation_id := conversation_id; cs_request_id := request_id;
     cs_session_id := tc_session_id receipt; cs_workspace_id := tc_workspace_id receipt;
     cs_repository_id := tc_repository_id receipt; cs_after_checkpoint_id := checkpoint_id receipt;
     cs_state := state; cs_detail := detail; cs_checks := checks; cs_runs := runs |}.

(** [unwrap_or(false)] of a comparison with the recorded state. *)
Definition still_matches (target : TrustedTurnCheckTarget) : Act World bool :=
  do! same := act_try (matches_check_target target) in
  act_ret (match same with Ok same => same | Err _ => false end).

Definition get_agent_turn_checks (conversation_id request_id : Uuid) : Act World AgentTurnChecks :=
  do! receipt := get_agent_turn_changes conversation_id request_id in
  do! c := sv_get (W:=World) conversation_id in
  do! _ := sv_store_locks (W:=World) in
  do! records := read_runs receipt in
  do! runs := act_fold (λ runs r,
      do! r := recover_run receipt c r in
      act_ret (runs ++ [sr_run r])) [] records in
  let view state detail checks :=
    checks_view receipt conversation_id request_id state detail checks runs in
  do! target := act_try (load_check_target conversation_id request_id) in
  match target with
  | Err _ => act_ret (view ChecksUnavailable RECORD_NEEDED [])
  | Ok target =>
      do! plan := act_try (eligible_checks target) in
      match plan with
      | Err _ => act_ret (view ChecksUnavailable PLAN_UNREADABLE [])
      | Ok (revision, checks) =>
          let checks := (λ check, {| ck_check_id := vk_id check; ck_label := vk_label check;
                                     ck_kind := vk_kind check; ck_plan_revision := revision |})
                          <$> take MAX_CHECKS checks in
          do! same := still_matches target in
          act_ret (if negb same then view ChecksStale CHECKS_STALE checks
                   else match checks with
                        | [] => view NoChecks CHECKS_NONE []
                        | _ => view ChecksReady CHECKS_READY checks
                        end)
      end
  end.

(** ** Running a check *)

(** What the run of a check on the plan left: the time it was noted at, its log, and its result. *)
Record BoundRun := {
  bn_started : option Z;
  bn_log : list N;
  bn_outcome : result (VerificationCheckStatus * option Z * str) LocalWtsError
}.

Definition find_run (run_id : Uuid) (records : list StoredCheckRun) : option StoredCheckRun :=
  head (filter (λ r, cr_run_id (sr_run r) = run_id) records).

(** [on_started]. *)
Definition note_started (receipt : AgentTurnChanges) (run_id : Uuid) (timestamp : Z) : Act World () :=
  do! _ := sv_store_locks (W:=World) in
  do! records := read_runs receipt in
  do! persisted := act_lift (ok_or (find_run run_id records) AgentConversationUnavailable) in
  save_run receipt (with_verification_started persisted (Some timestamp)).

(** The status after the files that came with a check were hashed again. *)
Definition acceptance_status (check : VerificationCheck) (status : VerificationCheckStatus) :
    Act World VerificationCheckStatus :=
  match status with
  | VerifyCancelled => act_ret status
  | _ =>
      act_fold (λ status file,
          do! current := (λ w, let '(h, w) := ask (ts_file_sha256 (af_display_path file)) w in (Ok h, w)) in
          act_ret (if bool_decide (current = Some (af_sha256 file)) then status else VerifyFailed))
        status (vk_acceptance_files check)
  end.

Definition CANCELLED : str := lit "Cancelled before this check started.".

(** [execute_selected_workspace_verification] for a bound check. *)
Definition run_bound_check (target : TrustedTurnCheckTarget) (run_id : Uuid)
    (check : VerificationCheck) (revision : N) : Act World BoundRun :=
  let receipt := tt_receipt target in
  let workspace_id := tc_workspace_id receipt in
  let failed started e := act_ret {| bn_started := started; bn_log := []; bn_outcome := Err e |} in
  do! plan := act_try (asks (ts_plan workspace_id)) in
  match plan with
  | Err e => failed None e
  | Ok (current, checks) =>
      if negb (current =? revision) || negb (bool_decide (check ∈ checks))
      then failed None AgentConversationConflict
      else
        do! started_at := asks_now in
        do! noted := act_try (note_started receipt run_id started_at) in
        match noted with
        | Err e => failed None e
        | Ok _ =>
            do! cancelled := act_try (asks (ts_check_cancelled workspace_id check)) in
            match cancelled with
            | Err e => failed (Some started_at) e
            | Ok true =>
                do! stored := act_try (asks (ts_store_result workspace_id check)) in
                act_ret {| bn_started := Some started_at; bn_log := [];
                           bn_outcome := rmap (λ _, (VerifyCancelled, None, CANCELLED)) stored |}
            | Ok false =>
                do! same := still_matches target in
                if negb same then
                  do! stored := act_try (asks (ts_store_result workspace_id check)) in
                  failed (Some started_at)
                    (match stored with Ok _ => AgentConversationConflict | Err e => e end)
                else
                  do! execution := (λ w, let '(x, w) := ask (ts_execute workspace_id check) w in (Ok x, w)) in
                  do! status := acceptance_status check (ce_status execution) in
                  do! stored := act_try (asks (ts_store_result workspace_id check)) in
                  act_ret {| bn_started := Some started_at; bn_log := ce_log execution;
                             bn_outcome := rmap (λ _, (status, ce_exit_code execution,
                                                       ce_detail execution)) stored |}
            end
        end
  end.

(** The run with its result. *)
Definition finished_run (r : StoredCheckRun) (bound : BoundRun) (same : bool) (now : Z) (elapsed : N) :
    StoredCheckRun :=
  let run := sr_run r in
  let '(status, exit_code, detail) :=
    match bn_outcome bound with
    | Ok (status, exit_code, detail) =>
        (status_of status, exit_code, (bounded_text detail MAX_DETAIL_BYTES).1)
    | Err e => (CheckBlocked, cr_exit_code run,
                (bounded_text (lit "The host check could not run: " ++ local_error_text e
                               ++ lit ". Open workspace verification to inspect the saved check.")
                   MAX_DETAIL_BYTES).1)
    end in
  let '(output, truncated) := bounded_text (from_utf8_lossy (bn_log bound)) MAX_OUTPUT_BYTES in
  with_check_run (with_verification_started r (bn_started bound))
    {| cr_run_id := cr_run_id run; cr_check_id := cr_check_id run;
       cr_status := if same then status else CheckStale;
       cr_started_at_unix_ms := cr_started_at_unix_ms run; cr_completed_at_unix_ms := Some now;
       cr_duration_ms := Some (clamp_u64 elapsed); cr_exit_code := exit_code;
       cr_output := output; cr_output_truncated := truncated;
       cr_detail := if same then detail else FILES_CHANGED |}.

Definition run_request_invalid (request : RunAgentTurnCheckRequest) : bool :=
  (rr_request_id request =? 0) || (rr_expected_after_checkpoint_id request =? 0)
  || (rr_expected_plan_revision request =? 0)
  || (MAX_PLAN_REVISION <? rr_expected_plan_revision request)
  || negb (valid_check_id (rr_check_id request)).

Definition active_conversation (workspace_id : Uuid) (c : AgentConversation) : bool :=
  (cv_workspace_id c =? workspace_id) && bool_decide (is_Some (cv_active_session_id c)).

(** The run is stored as running, unless the workspace is busy. *)
Definition start_run (conversation_id turn_request_id : Uuid) (request : RunAgentTurnCheckRequest)
    (receipt : AgentTurnChanges) (target : TrustedTurnCheckTarget) (check : VerificationCheck) :
    Act World StoredCheckRun :=
  do! conversations := asks ts_conversations in
  check! guard_err (existsb (active_conversation (tc_workspace_id receipt)) conversations)
           AgentConversationBusy in
  do! sessions := asks (ts_sessions (tc_workspace_id receipt)) in
  check! guard_err (existsb session_active sessions) AgentConversationBusy in
  do! _ := workspace_operation_lease (tc_workspace_id receipt) in
  do! _ := turn_lease (tt_conversation target) in
  do! now := asks_now in
  let r := new_stored_run receipt conversation_id turn_request_id request check now in
  do! _ := save_run receipt r in
  act_ret r.

Definition run_agent_turn_check (conversation_id turn_request_id : Uuid)
    (request : RunAgentTurnCheckRequest) : Act World AgentTurnChecks :=
  let repeated r :=
    if bool_decide (sr_request r = request) then get_agent_turn_checks conversation_id turn_request_id
    else act_err AgentConversationConflict in
  check! guard_err (run_request_invalid request) InvalidAgentConversation in
  do! receipt := get_agent_turn_changes conversation_id turn_request_id in
  do! _ := sv_store_locks (W:=World) in
  do! records := read_runs receipt in
  match find_run (rr_request_id request) records with
  | Some r => repeated r
  | None =>
      do! target := load_check_target conversation_id turn_request_id in
      do! plan := eligible_checks target in
      let '(revision, checks) := plan in
      do! check := act_lift (ok_or (head (filter (λ check, vk_id check = rr_check_id request) checks))
                               VerificationCheckUnavailable) in
      check! guard_err (negb (bool_decide (checkpoint_id receipt
                                           = Some (rr_expected_after_checkpoint_id request)))
                        || negb (rr_expected_plan_revision request =? revision))
               AgentConversationConflict in
      do! _ := sv_store_locks (W:=World) in
      do! records := read_runs receipt in
      match find_run (rr_request_id request) records with
      | Some r => repeated r
      | None =>
          check! guard_err (MAX_RUNS <=? length records)%nat AgentConversationLimit in
          do! r := start_run conversation_id turn_request_id request receipt target check in
          do! bound := run_bound_check target (rr_request_id request) check revision in
          do! same := still_matches target in
          do! now := asks_now in
          do! elapsed := (λ w, let '(x, w) := ask ts_elapsed w in (Ok x, w)) in
          do! _ := sv_store_locks (W:=World) in
          do! _ := save_run receipt (finished_run r bound same now elapsed) in
          get_agent_turn_checks conversation_id turn_request_id
      end
  end.
End checks.

(** ** Decisions *)

Definition MAX_DECISIONS : nat := 64.
Definition MAX_REASON_BYTES : N := 4096.
Definition MAX_DECISIONS_BYTES : N := 2 * 1024 * 1024.
Definition MAX_CREATED_AT : Z := 8640000000000000.

Definition valid_request (request : RecordAgentTurnDecisionRequest) : bool :=
  negb (dr_request_id request =? 0)
  && (dr_expected_revision request <? N.of_nat MAX_DECISIONS)
  && (byte_len (dr_reason request) <=? MAX_REASON_BYTES)
  && forallb (λ c, negb (is_control c) || layout_char c) (dr_reason request)
  && revision_format (dr_expected_receipt_digest request).

(** The checks of a decision: few, each of another run, with valid names. *)
Definition decision_checks_valid (checks : list AgentTurnDecisionCheck) : bool :=
  (length checks <=? 64)%nat
  && forallb (λ check, negb (dk_run_id check =? 0) && valid_check_id (dk_check_id check)) checks
  && bool_decide (NoDup (dk_run_id <$> checks)).

Definition decision_valid (receipt : AgentTurnChanges) (digest : str) (index : N)
    (record : StoredDecision) : bool :=
  let request := sd_request record in
  let decision := sd_decision record in
  valid_request request
  && (de_decision_id decision =? dr_request_id request)
  && (de_revision decision =? index + 1) && (dr_expected_revision request =? index)
  && bool_decide (de_kind decision = dr_kind request)
  && bool_decide (de_reason decision = dr_reason request)
  && (0 <=? de_created_at_unix_ms decision)%Z && (de_created_at_unix_ms decision <=? MAX_CREATED_AT)%Z
  && bool_decide (de_receipt_digest decision = digest)
  && bool_decide (dr_expected_receipt_digest request = digest)
  && bool_decide (de_source_context_sha256 decision = tc_source_context_sha256 receipt)
  && bool_decide (Some (de_after_checkpoint_id decision) = checkpoint_id receipt)
  && decision_checks_valid (de_checks decision).

Fixpoint decisions_valid (receipt : AgentTurnChanges) (digest : str) (index : N)
    (records : list StoredDecision) : bool :=
  match records with
  | [] => true
  | record :: records' =>
      decision_valid receipt digest index record && decisions_valid receipt digest (index + 1) records'
  end.

Definition no_decisions (receipt : AgentTurnChanges) (digest : str) : StoredDecisions :=
  {| ss_schema_version := 1; ss_conversation_id := tc_conversation_id receipt;
     ss_turn_request_id := tc_request_id receipt; ss_session_id := tc_session_id receipt;
     ss_workspace_id := tc_workspace_id receipt; ss_repository_id := tc_repository_id receipt;
     ss_receipt_digest := digest; ss_records := [] |}.

Definition stored_decisions_valid (receipt : AgentTurnChanges) (digest : str)
    (stored : StoredDecisions) : bool :=
  (ss_schema_version stored =? 1) && (ss_conversation_id stored =? tc_conversation_id receipt)
  && (ss_turn_request_id stored =? tc_request_id receipt)
  && (ss_session_id stored =? tc_session_id receipt)
  && (ss_workspace_id stored =? tc_workspace_id receipt)
  && bool_decide (ss_repository_id stored = tc_repository_id receipt)
  && bool_decide (ss_receipt_digest stored = digest)
  && (length (ss_records stored) <=? MAX_DECISIONS)%nat
  && decisions_valid receipt digest 0 (ss_records stored)
  && bool_decide (NoDup (de_decision_id ∘ sd_decision <$> ss_records stored)).

Definition with_decision_records (stored : StoredDecisions) (records : list StoredDecision) :
    StoredDecisions :=
  {| ss_schema_version := ss_schema_version stored; ss_conversation_id := ss_conversation_id stored;
     ss_turn_request_id := ss_turn_request_id stored; ss_session_id := ss_session_id stored;
     ss_workspace_id := ss_workspace_id stored; ss_repository_id := ss_repository_id stored;
     ss_receipt_digest := ss_receipt_digest stored; ss_records := records |}.

(** The receipt is one a user can decide on. *)
Definition receipt_ended (receipt : AgentTurnChanges) : bool :=
  match tc_state receipt with TurnReady | TurnIncomplete => true | _ => false end
  && bool_decide (is_Some (tc_completed_at_unix_ms receipt)).

Definition DECISIONS_READY : str :=
  lit "Record your review choice for this saved result. A decision records your choice and check results. It does not apply files or publish changes.".
Definition DECISIONS_FULL : str :=
  lit "This result has reached its limit of 64 decisions. Review the saved history.".
Definition NO_AFTER_STATE : str :=
  lit "This task has no saved after state. Review its available changes. A new task will capture a new result.".

Definition response (receipt : AgentTurnChanges) (stored : StoredDecisions)
    (checks_state : AgentTurnChecksState) : AgentTurnDecisions :=
  let full := (MAX_DECISIONS <=? length (ss_records stored))%nat in
  let ready := receipt_ended receipt && bool_decide (is_Some (tc_after receipt)) && negb full in
  {| da_schema_version := 1; da_conversation_id := tc_conversation_id receipt;
     da_request_id := tc_request_id receipt; da_session_id := tc_session_id receipt;
     da_workspace_id := tc_workspace_id receipt; da_repository_id := tc_repository_id receipt;
     da_after_checkpoint_id := checkpoint_id receipt; da_receipt_digest := ss_receipt_digest stored;
     da_source_context_sha256 := tc_source_context_sha256 receipt;
     da_revision := N.of_nat (length (ss_records stored));
     da_state := if ready then DecisionsReady else DecisionsUnavailable;
     da_checks_state := checks_state;
     da_detail := if ready then DECISIONS_READY else if full then DECISIONS_FULL else NO_AFTER_STATE;
     da_decisions := sd_decision <$> ss_records stored |}.

(** What a decision takes along of the checks. *)
Definition decision_checks (checks : option AgentTurnChecks) : list AgentTurnDecisionCheck :=
  match checks with
  | Some checks => (λ run, {| dk_run_id := cr_run_id run; dk_check_id := cr_check_id run;
                              dk_status := cr_status run |}) <$> take 64 (cs_runs checks)
  | None => []
  end.

Definition checks_state_of (checks : option AgentTurnChecks) : AgentTurnChecksState :=
  match checks with Some checks => cs_state checks | None => ChecksUnavailable end.

Definition new_decision (receipt : AgentTurnChanges) (stored : StoredDecisions) (after : AgentTurnCheckpoint)
    (request : RecordAgentTurnDecisionRequest) (checks : option AgentTurnChecks) (now : Z) :
    StoredDecision :=
  {| sd_request := request;
     sd_decision :=
       {| de_decision_id := dr_request_id request;
          de_revision := N.of_nat (length (ss_records stored)) + 1; de_kind := dr_kind request;
          de_reason := dr_reason request; de_created_at_unix_ms := now;
          de_after_checkpoint_id := tp_checkpoint_id after;
          de_receipt_digest := ss_receipt_digest stored;
          de_source_context_sha256 := tc_source_context_sha256 receipt;
          de_checks_state := checks_state_of checks; de_checks := decision_checks checks |} |}.

Section decisions.
Context {W : Type} `{WorkServices W} `{TurnServices W} `{GitHost} `{CaptureDigests} `{CheckJson}.

Local Abbreviation World := (TurnWorld W).

Definition stored_decisions (d : TurnDisk) (receipt : AgentTurnChanges) :
    result StoredDecisions LocalWtsError :=
  let digest := receipt_digest receipt in
  match td_decisions d !! tc_session_id receipt with
  | None => Ok (no_decisions receipt digest)
  | Some stored =>
      ensure guard_err (negb (stored_decisions_valid receipt digest stored)) AgentConversationUnavailable in
      Ok stored
  end.

Definition read_decisions (receipt : AgentTurnChanges) : Act World StoredDecisions :=
  reads (λ d, stored_decisions d receipt).

Definition optional_checks (conversation_id request_id : Uuid) : Act World (option AgentTurnChecks) :=
  do! checks := act_try (get_agent_turn_checks conversation_id request_id) in
  act_ret (match checks with Ok checks => Some checks | Err _ => None end).

Definition get_agent_turn_decisions (conversation_id request_id : Uuid) : Act World AgentTurnDecisions :=
  do! receipt := get_agent_turn_changes conversation_id request_id in
  do! checks := optional_checks conversation_id request_id in
  do! _ := sv_store_locks (W:=World) in
  do! stored := read_decisions receipt in
  act_ret (response receipt stored (checks_state_of checks)).

(** A decision that was not recorded before. *)
Definition append_decision (receipt : AgentTurnChanges) (stored : StoredDecisions)
    (checks : option AgentTurnChecks) (request : RecordAgentTurnDecisionRequest) :
    Act World AgentTurnDecisions :=
  check! guard_err (negb (dr_expected_revision request =? N.of_nat (length (ss_records stored)))
                    || negb (bool_decide (dr_expected_receipt_digest request
                                          = ss_receipt_digest stored)))
           AgentConversationConflict in
  do! after := act_lift (ok_or (tc_after receipt) InvalidAgentConversation) in
  check! guard_err (negb (receipt_ended receipt)
                    || (MAX_DECISIONS <=? length (ss_records stored))%nat)
           InvalidAgentConversation in
  do! now := asks_now in
  let stored := with_decision_records stored
                  (ss_records stored ++ [new_decision receipt stored after request checks now]) in
  do! _ := private_dir in
  check! guard_err (MAX_DECISIONS_BYTES <? decisions_bytes stored) AgentConversationStorageFull in
  do! _ := writes (λ d, with_decisions d (tc_session_id receipt) stored) in
  act_ret (response receipt stored (checks_state_of checks)).

Definition record_agent_turn_decision (conversation_id turn_request_id : Uuid)
    (request : RecordAgentTurnDecisionRequest) : Act World AgentTurnDecisions :=
  check! guard_err (negb (valid_request request)) InvalidAgentConversation in
  do! receipt := get_agent_turn_changes conversation_id turn_request_id in
  do! checks := optional_checks conversation_id turn_request_id in
  do! _ := sv_store_locks (W:=World) in
  do! stored := read_decisions receipt in
  match head (filter (λ record, dr_request_id (sd_request record) = dr_request_id request)
                (ss_records stored)) with
  | Some previous =>
      if bool_decide (sd_request previous = request)
      then act_ret (response receipt stored (checks_state_of checks))
      else act_err AgentConversationConflict
  | None => append_decision receipt stored checks request
  end.
End decisions.
