(* ===== verification/TurnIntegration.v ===== *)
(** * Integration of a candidate ([wts-app/src/agent_work_item_integration.rs])

    The result of a task of a work set, made in a worktree of its own, is applied to the worktree
    its set started from: every check of the candidate must have passed on that result, and the
    original must be as it was captured.  The journal says which files were applied and which was
    being applied; a marker keeps other calls out of the workspace while files are written. *)

From S2P Require Import Prelude Order Text StoreBase Sessions Conversations Captures.
From S2P Require Import WorkServices WorkSets WorkSetScheduler Worktrees TurnWorld TurnChecks.

Local Open Scope N_scope.

Definition MAX_JOURNAL_BYTES : N := 32 * 1024 * 1024.
Definition MAX_FILES : nat := 2048.
Definition MAX_PROOF_CHECKS : nat := 64.

Definition blocker (code : string) (path : option str) (detail : string) :
    AgentWorkItemIntegrationBlocker :=
  {| ib_code := lit code; ib_file_path := path; ib_detail := lit detail |}.

(** ** Changed copies *)

Definition with_result (r : AgentWorkItemIntegrationResult)
    (state : AgentWorkItemIntegrationResultState) (blockers : list AgentWorkItemIntegrationBlocker)
    (detail : str) (at_ : option Z) : AgentWorkItemIntegrationResult :=
  {| ir_schema_version := ir_schema_version r; ir_work_set_id := ir_work_set_id r;
     ir_task_id := ir_task_id r; ir_workspace_id := ir_workspace_id r;
     ir_repository_id := ir_repository_id r;
     ir_integration_request_id := ir_integration_request_id r; ir_state := state;
     ir_files := ir_files r; ir_blockers := blockers; ir_detail := detail;
     ir_integrated_at_unix_ms := at_ |}.

Definition with_result_files (r : AgentWorkItemIntegrationResult)
    (files : list AgentWorkItemIntegrationFile) : AgentWorkItemIntegrationResult :=
  {| ir_schema_version := ir_schema_version r; ir_work_set_id := ir_work_set_id r;
     ir_task_id := ir_task_id r; ir_workspace_id := ir_workspace_id r;
     ir_repository_id := ir_repository_id r;
     ir_integration_request_id := ir_integration_request_id r; ir_state := ir_state r;
     ir_files := files; ir_blockers := ir_blockers r; ir_detail := ir_detail r;
     ir_integrated_at_unix_ms := ir_integrated_at_unix_ms r |}.

Definition with_blockers (r : AgentWorkItemIntegrationResult)
    (blockers : list AgentWorkItemIntegrationBlocker) : AgentWorkItemIntegrationResult :=
  with_result r (ir_state r) blockers (ir_detail r) (ir_integrated_at_unix_ms r).

Definition journal_with (j : IntegrationJournal) (proof : VerifiedTurnChecks)
    (result : AgentWorkItemIntegrationResult) (pending : option AgentWorkItemIntegrationFile)
    (finished : bool) : IntegrationJournal :=
  {| ij_request := ij_request j; ij_preflight := ij_preflight j; ij_proof := proof;
     ij_target_identity := ij_target_identity j; ij_source_session_id := ij_source_session_id j;
     ij_candidate_session_id := ij_candidate_session_id j; ij_result := result;
     ij_pending_file := pending; ij_finished := finished |}.

Definition journal_result (j : IntegrationJournal) (result : AgentWorkItemIntegrationResult)
    (pending : option AgentWorkItemIntegrationFile) : IntegrationJournal :=
  journal_with j (ij_proof j) result pending (ij_finished j).

Definition block (j : IntegrationJournal) (b : AgentWorkItemIntegrationBlocker) : IntegrationJournal :=
  journal_result j (with_blockers (ij_result j) (ir_blockers (ij_result j) ++ [b])) (ij_pending_file j).

(** One more file that was applied. *)
Definition applied (j : IntegrationJournal) (file : AgentWorkItemIntegrationFile)
    (pending : option AgentWorkItemIntegrationFile) : IntegrationJournal :=
  journal_result j (with_result_files (ij_result j) (ir_files (ij_result j) ++ [file])) pending.

Definition with_preview (p : AgentWorkItemIntegrationPreflight)
    (state : AgentWorkItemIntegrationPreflightState) (digest : str) (resume : option Uuid)
    (runs : list Uuid) (blockers : list AgentWorkItemIntegrationBlocker) (detail : str)
    (at_ : option Z) : AgentWorkItemIntegrationPreflight :=
  {| ip_schema_version := ip_schema_version p; ip_work_set_id := ip_work_set_id p;
     ip_task_id := ip_task_id p; ip_workspace_id := ip_workspace_id p;
     ip_repository_id := ip_repository_id p;
     ip_source_conversation_id := ip_source_conversation_id p;
     ip_source_request_id := ip_source_request_id p;
     ip_source_after_checkpoint_id := ip_source_after_checkpoint_id p;
     ip_candidate_workspace_id := ip_candidate_workspace_id p;
     ip_candidate_conversation_id := ip_candidate_conversation_id p;
     ip_candidate_request_id := ip_candidate_request_id p;
     ip_candidate_after_checkpoint_id := ip_candidate_after_checkpoint_id p; ip_state := state;
     ip_effect_digest := digest; ip_resume_request_id := resume; ip_files := ip_files p;
     ip_check_run_ids := runs; ip_blockers := blockers; ip_detail := detail;
     ip_integrated_at_unix_ms := at_ |}.

(** ** Journals *)

Definition valid_digest (value : str) : bool := revision_format value.

Definition valid_file_path (path : str) : bool :=
  negb (is_empty path) && (byte_len path <=? 4096) && negb (existsb (λ c, c =? 92) path)
  && negb (existsb is_control path) && (length (split_char 47 path) <=? 64)%nat
  && forallb valid_part (split_char 47 path).

(** A result that says it is integrated must be complete. *)
Definition claims_too_much (j : IntegrationJournal) : bool :=
  let result := ij_result j in
  bool_decide (ir_state result = ResultIntegrated)
  && (negb (ij_finished j) || bool_decide (ir_integrated_at_unix_ms result = None)
      || negb (bool_decide (ir_blockers result = []))
      || bool_decide (is_Some (ij_pending_file j))
      || negb (length (ir_files result) =? length (ip_files (ij_preflight j)))%nat).

Definition journal_invalid (work_set_id task_id : Uuid) (j : IntegrationJournal) : bool :=
  let p := ij_preflight j in
  let result := ij_result j in
  negb (ip_work_set_id p =? work_set_id) || negb (ip_task_id p =? task_id)
  || negb (ir_work_set_id result =? work_set_id) || negb (ir_task_id result =? task_id)
  || negb (ir_schema_version result =? 1) || negb (ip_schema_version p =? 1)
  || (iq_request_id (ij_request j) =? 0)
  || negb (ir_integration_request_id result =? iq_request_id (ij_request j))
  || negb (ir_workspace_id result =? ip_workspace_id p)
  || negb (bool_decide (ir_repository_id result = ip_repository_id p))
  || negb (bool_decide (iq_effect_digest (ij_request j) = ip_effect_digest p))
  || (MAX_FILES <? length (ip_files p))%nat
  || (length (ip_files p) <? length (ir_files result))%nat
  || existsb (λ file, negb (bool_decide (file ∈ ip_files p))) (ir_files result)
  || match ij_pending_file j with
     | Some file => negb (bool_decide (file ∈ ip_files p))
     | None => false
     end
  || negb (vc_after_checkpoint_id (ij_proof j) =? ip_candidate_after_checkpoint_id p)
  || (ij_source_session_id j =? 0) || (ij_candidate_session_id j =? 0)
  || bool_decide (vc_checks (ij_proof j) = [])
  || (MAX_PROOF_CHECKS <? length (vc_checks (ij_proof j)))%nat
  || negb (valid_digest (iq_effect_digest (ij_request j)))
  || existsb (λ file, negb (valid_file_path (if_file_path file))) (ip_files p)
  || claims_too_much j
  || negb (bool_decide (NoDup (if_file_path <$> ir_files result)))
  || negb (bool_decide (NoDup (if_file_path <$> ip_files p))).

(** ** What an integration changes *)

Definition changed_status (before after : option str) : AgentTurnFileStatus :=
  match before, after with
  | None, Some _ => FileAdded
  | Some _, None => FileDeleted
  | _, _ => FileModified
  end.

(** The expected capture when some files were applied, and the journal with the pending file when
    it was. *)
Definition applied_file (desired current : CapturedFiles) (state : CapturedFiles * IntegrationJournal)
    (file : AgentWorkItemIntegrationFile) : CapturedFiles * IntegrationJournal :=
  let '(expected, j) := state in
  let path := if_file_path file in
  if bool_decide (file ∈ ir_files (ij_result j))
     || (bool_decide (ij_pending_file j = Some file)
         && bool_decide (file_state (current !! path) = file_state (desired !! path)))
  then
    (match desired !! path with Some f => <[path := f]> expected | None => delete path expected end,
     if bool_decide (file ∈ ir_files (ij_result j)) then j else applied j file (ij_pending_file j))
  else (expected, j).

Definition expected_target (item : TrustedAgentWorkItem) (j : IntegrationJournal)
    (current : WorktreeCheckpointCapture) : WorktreeCheckpointCapture * IntegrationJournal :=
  let '(files, j) := foldl (applied_file (wt_files (ti_result item)) (wt_files current))
                       (wt_files (ti_baseline item), j) (ip_files (ij_preflight j)) in
  (capture_with (ti_baseline item) files, j).

(** The baseline with every file of the journal as the candidate has it. *)
Definition final_target (item : TrustedAgentWorkItem) (j : IntegrationJournal) :
    WorktreeCheckpointCapture :=
  let desired := wt_files (ti_result item) in
  capture_with (ti_baseline item)
    (foldl (λ expected file, let path := if_file_path file in
                             match desired !! path with
                             | Some f => <[path := f]> expected
                             | None => delete path expected
                             end) (wt_files (ti_baseline item)) (ip_files (ij_preflight j))).

Definition result_for (p : AgentWorkItemIntegrationPreflight) (request_id : Uuid) :
    AgentWorkItemIntegrationResult :=
  {| ir_schema_version := 1; ir_work_set_id := ip_work_set_id p; ir_task_id := ip_task_id p;
     ir_workspace_id := ip_workspace_id p; ir_repository_id := ip_repository_id p;
     ir_integration_request_id := request_id; ir_state := IntegrationConflict; ir_files := [];
     ir_blockers := ip_blockers p; ir_detail := ip_detail p; ir_integrated_at_unix_ms := None |}.

Definition INTEGRATED_EARLIER : str :=
  lit "This candidate was integrated. The saved result records that operation. Later workspace edits remain unchanged.".

Definition terminal_preflight (j : IntegrationJournal) : AgentWorkItemIntegrationPreflight :=
  let p := ij_preflight j in
  with_preview p IntegrationDone (ip_effect_digest p) None (ip_check_run_ids p) []
    INTEGRATED_EARLIER (ir_integrated_at_unix_ms (ij_result j)).

Definition integrated (j : IntegrationJournal) : bool :=
  ij_finished j && bool_decide (ir_state (ij_result j) = ResultIntegrated).

Section integration.
Context {W : Type} `{WorkServices W} `{TurnServices W} `{GitHost} `{CaptureDigests} `{TurnJson} `{CheckJson}.

Local Abbreviation World := (TurnWorld W).

Definition changes (baseline result : WorktreeCheckpointCapture) :
    Prelude.result (list AgentWorkItemIntegrationFile) LocalWtsError :=
  let? _ := canonical_capture_digest baseline in
  let? _ := canonical_capture_digest result in
  let keys := sort_by str_cmp (elements (dom (wt_files baseline) ∪ dom (wt_files result))) in
  let changed := omap (λ path,
      let before := file_state (wt_files baseline !! path) in
      let after := file_state (wt_files result !! path) in
      if bool_decide (before = after) then None
      else Some {| if_file_path := path; if_status := changed_status before.1 after.1 |}) keys in
  ensure guard_err (MAX_FILES <? length changed)%nat AgentConversationLimit in
  Ok changed.

Definition matches_capture (expected current : WorktreeCheckpointCapture) : bool :=
  match canonical_capture_digest expected, canonical_capture_digest current with
  | Ok a, Ok b => bool_decide (a = b)
  | _, _ => false
  end.

(** ** Files *)

Definition nil_ids (work_set_id task_id : Uuid) : result () LocalWtsError :=
  guard_err ((work_set_id =? 0) || (task_id =? 0)) InvalidAgentConversation.

Definition read_journal (work_set_id task_id : Uuid) : Act World (option IntegrationJournal) :=
  check! nil_ids work_set_id task_id in
  reads (λ d, match td_integrations d !! (work_set_id, task_id) with
              | None => Ok None
              | Some j => ensure guard_err (journal_invalid work_set_id task_id j)
                                   AgentConversationUnavailable in
                          Ok (Some j)
              end).

Definition save_journal (j : IntegrationJournal) : Act World () :=
  let p := ij_preflight j in
  check! nil_ids (ip_work_set_id p) (ip_task_id p) in
  do! _ := private_dir in
  do! _ := private_dir in
  do! _ := private_dir in
  check! guard_err (MAX_JOURNAL_BYTES <? integration_journal_bytes j) AgentConversationLimit in
  writes (λ d, with_integration d (ip_work_set_id p, ip_task_id p) j).

Definition read_marker (workspace_id : Uuid) : Act World (option PendingIntegration) :=
  reads (λ d, Ok (td_merges d !! workspace_id)).

Definition write_marker (marker : PendingIntegration) : Act World () :=
  check! guard_err (MAX_JOURNAL_BYTES <? pending_integration_bytes marker) AgentConversationLimit in
  writes (λ d, with_merges d (<[pi_workspace_id marker := marker]> (td_merges d))).

(** Removing a file that is not there fails. *)
Definition remove_marker (workspace_id : Uuid) : Act World () :=
  do! present := peek (λ w, bool_decide (is_Some (td_merges (tw_disk w) !! workspace_id))) in
  check! guard_err (negb present) AgentConversationUnavailable in
  writes (λ d, with_merges d (delete workspace_id (td_merges d))).

(** ** Previews *)

Definition CHECK_CANDIDATE : str :=
  lit "Check the isolated candidate and the original workspace before integration.".

Definition initial_preflight (item : TrustedAgentWorkItem) :
    result AgentWorkItemIntegrationPreflight LocalWtsError :=
  let source := tt_receipt (ti_source item) in
  let candidate := tt_receipt (ti_candidate item) in
  let? source_after := ok_or (checkpoint_id source) AgentConversationConflict in
  let? candidate_after := ok_or (checkpoint_id candidate) AgentConversationConflict in
  let? files := changes (ti_baseline item) (ti_result item) in
  Ok {| ip_schema_version := 1; ip_work_set_id := ti_work_set_id item; ip_task_id := ti_task_id item;
        ip_workspace_id := tc_workspace_id source; ip_repository_id := tc_repository_id source;
        ip_source_conversation_id := ti_origin_conversation_id item;
        ip_source_request_id := ti_origin_request_id item;
        ip_source_after_checkpoint_id := source_after;
        ip_candidate_workspace_id := tc_workspace_id candidate;
        ip_candidate_conversation_id := ti_child_conversation_id item;
        ip_candidate_request_id := ti_child_request_id item;
        ip_candidate_after_checkpoint_id := candidate_after; ip_state := IntegrationBlocked;
        ip_effect_digest := []; ip_resume_request_id := None; ip_files := files;
        ip_check_run_ids := []; ip_blockers := []; ip_detail := CHECK_CANDIDATE;
        ip_integrated_at_unix_ms := None |}.

Definition effect_digest (item : TrustedAgentWorkItem) (files : list AgentWorkItemIntegrationFile)
    (proof : option VerifiedTurnChecks) : Act World str :=
  let source := ti_source item in
  let candidate := ti_candidate item in
  do! identity := target_identity (tt_target source) in
  do! baseline := act_lift (canonical_capture_digest (ti_baseline item)) in
  do! result := act_lift (canonical_capture_digest (ti_result item)) in
  act_lift (ok_or (integration_effect
      [ti_work_set_id item; ti_task_id item; ti_origin_conversation_id item;
       ti_origin_request_id item; ti_child_conversation_id item; ti_child_request_id item]
      [tc_source_context_sha256 (tt_receipt source); tc_source_context_sha256 (tt_receipt candidate);
       tt_target source; identity; baseline; result]
      (tc_after (tt_receipt source)) (tc_after (tt_receipt candidate)) files
      ((λ proof, (vc_after_checkpoint_id proof, vc_plan_revision proof, vt_check <$> vc_checks proof))
         <$> proof)) AgentConversationUnavailable).

(** The journal is of the candidate as it is now. *)
Definition validate_journal_identity (item : TrustedAgentWorkItem) (j : IntegrationJournal) :
    Act World () :=
  do! current := act_lift (initial_preflight item) in
  let saved := ij_preflight j in
  check! guard_err (negb (ip_workspace_id saved =? ip_workspace_id current)
      || negb (bool_decide (ip_repository_id saved = ip_repository_id current))
      || negb (ip_source_conversation_id saved =? ip_source_conversation_id current)
      || negb (ip_source_request_id saved =? ip_source_request_id current)
      || negb (ip_source_after_checkpoint_id saved =? ip_source_after_checkpoint_id current)
      || negb (ip_candidate_workspace_id saved =? ip_candidate_workspace_id current)
      || negb (ip_candidate_conversation_id saved =? ip_candidate_conversation_id current)
      || negb (ip_candidate_request_id saved =? ip_candidate_request_id current)
      || negb (ip_candidate_after_checkpoint_id saved =? ip_candidate_after_checkpoint_id current)
      || negb (bool_decide (ip_files saved = ip_files current))) AgentConversationConflict in
  do! identity := target_identity (tt_target (ti_source item)) in
  check! guard_err (negb (bool_decide (ij_target_identity j = identity))
      || negb (ij_source_session_id j =? tc_session_id (tt_receipt (ti_source item)))
      || negb (ij_candidate_session_id j =? tc_session_id (tt_receipt (ti_candidate item))))
           AgentConversationConflict in
  do! digest := effect_digest item (ip_files current) (Some (ij_proof j)) in
  act_lift (guard_err (negb (bool_decide (iq_effect_digest (ij_request j) = digest)))
              AgentConversationConflict).

(** ** Leases *)

Definition lease_workspaces (item : TrustedAgentWorkItem) : list Uuid :=
  let a := tc_workspace_id (tt_receipt (ti_source item)) in
  let b := tc_workspace_id (tt_receipt (ti_candidate item)) in
  if a =? b then [a] else if a <? b then [a; b] else [b; a].

(** The marker of this integration does not keep it out. *)
Definition lease_workspace (item : TrustedAgentWorkItem) (journal : option IntegrationJournal)
    (workspace_id : Uuid) : Act World () :=
  do! sessions := asks (ts_sessions workspace_id) in
  check! guard_err (existsb session_active sessions) AgentConversationBusy in
  do! marker := read_marker workspace_id in
  match marker with
  | Some marker =>
      do! saved := act_lift (ok_or journal AgentConversationBusy) in
      check! guard_err (negb (pi_workspace_id marker =? workspace_id)
                        || negb (pi_work_set_id marker =? ti_work_set_id item)
                        || negb (pi_task_id marker =? ti_task_id item)
                        || negb (pi_request_id marker =? iq_request_id (ij_request saved))
                        || negb (workspace_id =? tc_workspace_id (tt_receipt (ti_source item))))
               AgentConversationBusy in
      do! restoring := peek (λ w, bool_decide (is_Some (td_restores (tw_disk w) !! workspace_id))) in
      check! guard_err restoring AgentConversationBusy in
      asks (ts_lock_operation workspace_id)
  | None => workspace_operation_lease workspace_id
  end.

Definition operation_leases (item : TrustedAgentWorkItem) (journal : option IntegrationJournal) :
    Act World () :=
  let workspaces := lease_workspaces item in
  do! _ := act_fold (λ _ workspace_id, lease_workspace item journal workspace_id) () workspaces in
  do! conversations := asks ts_conversations in
  check! guard_err (existsb (λ c, bool_decide (cv_workspace_id c ∈ workspaces)
                                  && bool_decide (is_Some (cv_active_session_id c))) conversations)
           AgentConversationBusy in
  do! _ := turn_lease (tt_conversation (ti_source item)) in
  turn_lease (tt_conversation (ti_candidate item)).

(** ** The preview of a candidate *)

Definition CAPTURE_MISSING : AgentWorkItemIntegrationBlocker :=
  blocker "captureUnavailable" None
    "Saved files for this integration are unavailable. Review the current files and run a new task to capture a new result.".
Definition NO_CHECKS : AgentWorkItemIntegrationBlocker :=
  blocker "noChecks" None
    "This candidate has no supported host checks. Open its workspace verification to add a supported check, then run it.".
Definition CHECKS_NOT_PASSED : AgentWorkItemIntegrationBlocker :=
  blocker "checksNotPassed" None
    "Run every saved check in the candidate workspace. Each latest result must pass against this candidate's recorded files and current check plan.".
Definition TARGET_CHANGED : AgentWorkItemIntegrationBlocker :=
  blocker "targetChanged" None
    "The original workspace changed after this work set started. Review those changes. Start a new work set from the current result to keep later edits.".
Definition CANDIDATE_CHANGED : AgentWorkItemIntegrationBlocker :=
  blocker "candidateChanged" None
    "The candidate changed after its saved result. Review its current files and run a new task to capture them.".
Definition NO_CHANGES : AgentWorkItemIntegrationBlocker :=
  blocker "noChanges" None
    "This candidate has no file changes to integrate. Keep it as a comparison or select another candidate.".
Definition CONTINUE : str :=
  lit "Continue this integration. Completed file effects and the remaining files are checked. Keep other editors and Git tools idle until it finishes.".
Definition APPLY : str :=
  lit "Apply this checked candidate's file changes to the original workspace. Existing files, Git history, and the index stay unchanged. Keep other editors and Git tools idle until it finishes.".
Definition RESOLVE : str :=
  lit "Resolve the listed conditions before integration. The candidate and its saved changes remain available.".

(** The first snapshot that cannot be read ends the search. *)
Fixpoint some_unreadable (snapshots : list (str * str)) : Act World bool :=
  match snapshots with
  | [] => act_ret false
  | (directory, hash) :: snapshots' =>
      do! bytes := act_try (read_blob_bytes directory hash) in
      if is_ok bytes then some_unreadable snapshots' else act_ret true
  end.

Definition snapshots (item : TrustedAgentWorkItem) (files : list AgentWorkItemIntegrationFile) :
    list (str * str) :=
  files ≫= λ file,
    let at_ (capture : WorktreeCheckpointCapture) (directory : str) :=
      match hash_of (wt_files capture) (if_file_path file) with
      | Some hash => [(directory, hash)]
      | None => []
      end in
    at_ (ti_baseline item) (ti_baseline_blob_dir item) ++ at_ (ti_result item) (ti_result_blob_dir item).

(** The proof of the candidate's checks, or why there is none. *)
Definition candidate_proof (item : TrustedAgentWorkItem) :
    Act World (option VerifiedTurnChecks * list AgentWorkItemIntegrationBlocker) :=
  do! proof := act_try (integration_check_proof (ti_candidate item)) in
  act_ret (match proof with
           | Ok proof => (Some proof, [])
           | Err VerificationCheckUnavailable => (None, [NO_CHECKS])
           | Err _ => (None, [CHECKS_NOT_PASSED])
           end).

(** The original is not as it is expected. *)
Definition target_changed (item : TrustedAgentWorkItem) (resumed : bool)
    (expected current : WorktreeCheckpointCapture) : Act World bool :=
  if negb (matches_capture expected current) then act_ret true
  else
    do! identity := act_try (target_identity (tt_target (ti_source item))) in
    if negb (is_ok identity) then act_ret true
    else if resumed then act_ret false
    else do! same := still_matches (ti_source item) in act_ret (negb same).

Definition current_preflight (item : TrustedAgentWorkItem) (journal : option IntegrationJournal) :
    Act World (AgentWorkItemIntegrationPreflight * option VerifiedTurnChecks
               * option IntegrationJournal) :=
  do! p := act_lift (initial_preflight item) in
  do! unreadable := some_unreadable (snapshots item (ip_files p)) in
  do! proof := candidate_proof item in
  do! current := capture_checkpoint (tt_target (ti_source item)) in
  do! resumed :=
    (match journal with
     | Some j =>
         do! _ := validate_journal_identity item j in
         let '(expected, j) := expected_target item j current in
         act_ret (expected, Some j)
     | None => act_ret (ti_baseline item, None)
     end) in
  let '(expected, journal) := resumed in
  let resume := (λ j, iq_request_id (ij_request j)) <$> journal in
  do! changed := target_changed item (bool_decide (is_Some resume)) expected current in
  do! candidate := still_matches (ti_candidate item) in
  let blockers := (if unreadable : bool then [CAPTURE_MISSING] else []) ++ proof.2
                  ++ (if changed : bool then [TARGET_CHANGED] else [])
                  ++ (if candidate : bool then [] else [CANDIDATE_CHANGED])
                  ++ (match ip_files p with [] => [NO_CHANGES] | _ => [] end) in
  do! digest := effect_digest item (ip_files p) proof.1 in
  let runs := match proof.1 with Some proof => vt_run_id <$> vc_checks proof | None => [] end in
  let p :=
    match blockers with
    | [] => with_preview p IntegrationReady digest resume runs []
              (if bool_decide (is_Some resume) then CONTINUE else APPLY) None
    | _ => with_preview p IntegrationBlocked digest resume runs blockers RESOLVE None
    end in
  act_ret (p, proof.1, journal).

(** ** Applying a candidate *)

Definition TARGET_CHANGED_BEFORE : AgentWorkItemIntegrationBlocker :=
  blocker "targetChanged" None
    "The original workspace changed before integration. Review the current files before you continue.".
Definition FOLDER_CONFLICT (path : str) : AgentWorkItemIntegrationBlocker :=
  blocker "fileConflict" (Some path)
    "The destination folder is unavailable or changed. Review the listed effects, then continue this integration.".
Definition FILE_CONFLICT (path : str) : AgentWorkItemIntegrationBlocker :=
  blocker "fileConflict" (Some path)
    "This file or its folder changed. The remaining files were not applied. Review the listed effects, then continue this integration.".
Definition FINAL_STATE_CHANGED : AgentWorkItemIntegrationBlocker :=
  blocker "finalStateChanged" None
    "Could not confirm the final file state. Review the listed effects and current files, then continue this integration.".
Definition INTEGRATED : str :=
  lit "Applied the listed candidate files and checked the final state. Git history, the index, and other original files remain unchanged. Alternative candidates remain available.".
Definition STOPPED : str :=
  lit "Integration stopped. Review the listed effects and conditions. Continue the same integration to apply the remaining files. Candidate snapshots remain available.".

(** The remaining files, until one cannot be applied. *)
Fixpoint apply_files (item : TrustedAgentWorkItem) (contents : gmap str (list N))
    (j : IntegrationJournal) (files : list AgentWorkItemIntegrationFile) : Act World IntegrationJournal :=
  match files with
  | [] => act_ret j
  | file :: files' =>
      if bool_decide (file ∈ ir_files (ij_result j)) then apply_files item contents j files'
      else
        let target := tt_target (ti_source item) in
        let path := if_file_path file in
        do! identity := target_identity target in
        check! guard_err (negb (bool_decide (identity = ij_target_identity j)))
                 AgentConversationConflict in
        let '(hash, mode) := file_state (wt_files (ti_baseline item) !! path) in
        let j := journal_result j (ij_result j) (Some file) in
        do! _ := save_journal j in
        do! parent :=
          (if bool_decide (is_Some (contents !! path))
           then act_try (prepare_source_parent target path (ij_target_identity j))
           else act_ret (Ok ())) in
        if negb (is_ok parent) then act_ret (block j (FOLDER_CONFLICT path))
        else
          do! restored := act_try (restore_bytes target path (contents !! path)
                                     (file_state (wt_files (ti_result item) !! path)).2 hash mode
                                     (ij_target_identity j)) in
          if negb (is_ok restored) then act_ret (block j (FILE_CONFLICT path))
          else
            let j := applied j file None in
            do! _ := save_journal j in
            apply_files item contents j files'
  end.

(** The first half of [apply_integration]: what was found, and the files applied. *)
Definition apply_remaining (item : TrustedAgentWorkItem) (j : IntegrationJournal) :
    Act World IntegrationJournal :=
  let target := tt_target (ti_source item) in
  do! current := capture_checkpoint target in
  let '(expected, j) := expected_target item j current in
  do! there :=
    (if matches_capture expected current then
       do! identity := target_identity target in
       act_ret (bool_decide (identity = ij_target_identity j))
     else act_ret false) in
  if negb there then act_ret (block j TARGET_CHANGED_BEFORE)
  else
    (* every snapshot is read before the first file is written *)
    do! contents := read_contents (ti_result_blob_dir item) (wt_files (ti_result item))
                      (if_file_path <$> ip_files (ij_preflight j)) in
    apply_files item contents j (ip_files (ij_preflight j)).

(** The second half: the final state is captured once more. *)
Definition confirm_applied (item : TrustedAgentWorkItem) (j : IntegrationJournal) :
    Act World IntegrationJournal :=
  if bool_decide (ir_blockers (ij_result j) = []) then
    let target := tt_target (ti_source item) in
    do! current := act_try (capture_checkpoint target) in
    do! there :=
      (if match current with Ok current => matches_capture (final_target item j) current | Err _ => false end
       then
         do! identity := target_identity target in
         act_ret (bool_decide (identity = ij_target_identity j))
       else act_ret false) in
    act_ret (if there then j else block j FINAL_STATE_CHANGED)
  else act_ret j.

Definition apply_integration (item : TrustedAgentWorkItem) (j : IntegrationJournal) :
    Act World IntegrationJournal :=
  do! j := apply_remaining item j in
  do! j := confirm_applied item j in
  do! result :=
    (if bool_decide (ir_blockers (ij_result j) = []) then
       do! now := asks_now in
       act_ret (with_result (ij_result j) ResultIntegrated [] INTEGRATED (Some now))
     else act_ret (with_result (ij_result j) IntegrationIncomplete (ir_blockers (ij_result j)) STOPPED
                     (ir_integrated_at_unix_ms (ij_result j)))) in
  let j := journal_with j (ij_proof j) result (ij_pending_file j) true in
  do! _ := save_journal j in
  do! _ := remove_marker (tc_workspace_id (tt_receipt (ti_source item))) in
  act_ret j.

(** ** The calls *)

Definition VERIFICATION_BUSY : AgentWorkItemIntegrationBlocker :=
  blocker "workspaceBusy" None
    "A host verification task is active. Wait for it to finish, then check integration again.".
Definition WORKSPACE_BUSY : AgentWorkItemIntegrationBlocker :=
  blocker "workspaceBusy" None
    "Another WTS task is active in the original or candidate workspace. Wait for it to finish, then check integration again.".
Definition PREVIEW_CHANGED : AgentWorkItemIntegrationBlocker :=
  blocker "preflightChanged" None
    "The integration preview changed. Check the candidate again before integration.".
Definition EARLIER_INCOMPLETE : str :=
  lit "The earlier integration remains incomplete. Its confirmed file effects are listed. Review the current conditions before you continue.".
Definition IN_PROGRESS : str := lit "Integration is in progress. Keep WTS open until it finishes.".

Definition busy_preview (item : TrustedAgentWorkItem) (b : AgentWorkItemIntegrationBlocker) :
    Act World AgentWorkItemIntegrationPreflight :=
  do! p := act_lift (initial_preflight item) in
  do! digest := effect_digest item (ip_files p) None in
  act_ret (with_preview p (ip_state p) digest None [] [b] (ip_detail p) None).

Definition preflight_agent_work_item_integration (work_set_id task_id : Uuid) :
    Act World AgentWorkItemIntegrationPreflight :=
  let ended journal := match journal with
                       | Some j => if integrated j then Some (terminal_preflight j) else None
                       | None => None
                       end in
  do! _ := sv_store_locks (W:=World) in
  do! journal := read_journal work_set_id task_id in
  match ended journal with
  | Some p => act_ret p
  | None =>
      do! item := asks (ts_candidate work_set_id task_id) in
      do! verification := act_try (asks ts_lock_verification) in
      match verification with
      | Err AgentConversationBusy => busy_preview item VERIFICATION_BUSY
      | Err _ => act_err AgentConversationUnavailable
      | Ok _ =>
          do! _ := sv_store_locks (W:=World) in
          do! journal := read_journal work_set_id task_id in
          match ended journal with
          | Some p => act_ret p
          | None =>
              do! leases := act_try (operation_leases item journal) in
              match leases with
              | Err AgentConversationBusy => busy_preview item WORKSPACE_BUSY
              | Err e => act_err e
              | Ok _ =>
                  do! current := current_preflight item journal in
                  act_ret current.1.1
              end
          end
      end
  end.

(** The journal of the request: none, one that is to be continued, or the result it came to. *)
Definition journal_for (work_set_id task_id : Uuid) (request : IntegrateAgentWorkItemRequest) :
    Act World (option IntegrationJournal * option AgentWorkItemIntegrationResult) :=
  do! _ := sv_store_locks (W:=World) in
  do! journal := read_journal work_set_id task_id in
  match journal with
  | None => act_ret (None, None)
  | Some j =>
      check! guard_err (negb (bool_decide (ij_request j = request))) AgentConversationConflict in
      act_ret (Some j, if integrated j then Some (ij_result j) else None)
  end.

(** The result of a request whose preview is not the one it was made for. *)
Definition refused (p : AgentWorkItemIntegrationPreflight) (request : IntegrateAgentWorkItemRequest)
    (previous : option IntegrationJournal) : AgentWorkItemIntegrationResult :=
  let result := result_for p (iq_request_id request) in
  let result := match ir_blockers result with [] => with_blockers result [PREVIEW_CHANGED] | _ => result end in
  match previous with
  | None => result
  | Some j => with_result_files (with_result result IntegrationIncomplete (ir_blockers result)
                                   EARLIER_INCOMPLETE (ir_integrated_at_unix_ms result))
                (ir_files (ij_result j))
  end.

(** The journal to start with. *)
Definition starting_journal (item : TrustedAgentWorkItem) (p : AgentWorkItemIntegrationPreflight)
    (proof : VerifiedTurnChecks) (request : IntegrateAgentWorkItemRequest)
    (previous : option IntegrationJournal) : Act World IntegrationJournal :=
  match previous with
  | Some j => act_ret (journal_with j proof (with_blockers (ij_result j) []) (ij_pending_file j) false)
  | None =>
      let result := result_for p (iq_request_id request) in
      do! identity := target_identity (tt_target (ti_source item)) in
      act_ret {| ij_request := request; ij_preflight := p; ij_proof := proof;
                 ij_target_identity := identity;
                 ij_source_session_id := tc_session_id (tt_receipt (ti_source item));
                 ij_candidate_session_id := tc_session_id (tt_receipt (ti_candidate item));
                 ij_result := with_result result IntegrationIncomplete (ir_blockers result) IN_PROGRESS None;
                 ij_pending_file := None; ij_finished := false |}
  end.

Definition integrate_item (work_set_id task_id : Uuid) (request : IntegrateAgentWorkItemRequest)
    (item : TrustedAgentWorkItem) (previous : option IntegrationJournal) :
    Act World AgentWorkItemIntegrationResult :=
  do! _ := operation_leases item previous in
  do! current := current_preflight item previous in
  let '(p, proof, previous) := current in
  if negb (bool_decide (ip_state p = IntegrationReady))
     || negb (bool_decide (ip_effect_digest p = iq_effect_digest request))
  then act_ret (refused p request previous)
  else
    do! proof := act_lift (ok_or proof AgentConversationConflict) in
    do! j := starting_journal item p proof request previous in
    let workspace_id := tc_workspace_id (tt_receipt (ti_source item)) in
    do! _ := save_journal j in
    do! _ := write_marker {| pi_work_set_id := work_set_id; pi_task_id := task_id;
                             pi_workspace_id := workspace_id;
                             pi_request_id := iq_request_id (ij_request j) |} in
    do! j := apply_integration item j in
    act_ret (ij_result j).

Definition integrate_agent_work_item (work_set_id task_id : Uuid)
    (request : IntegrateAgentWorkItemRequest) : Act World AgentWorkItemIntegrationResult :=
  check! guard_err ((iq_request_id request =? 0) || negb (valid_digest (iq_effect_digest request)))
           InvalidAgentConversation in
  do! first := journal_for work_set_id task_id request in
  match first.2 with
  | Some result => act_ret result
  | None =>
      do! item := asks (ts_candidate work_set_id task_id) in
      do! verification := act_try (asks ts_lock_verification) in
      match verification with
      | Err AgentConversationBusy => act_err AgentConversationBusy
      | Err _ => act_err AgentConversationUnavailable
      | Ok _ =>
          do! second := journal_for work_set_id task_id request in
          match second.2 with
          | Some result => act_ret result
          | None => integrate_item work_set_id task_id request item second.1
          end
      end
  end.

(** ** Recovery *)

Definition EFFECT_UNKNOWN (path : str) : AgentWorkItemIntegrationBlocker :=
  blocker "fileEffectUnknown" (Some path)
    "This file changed before the pending write was confirmed. Review its current contents before you continue.".
Definition HOST_STOPPED : AgentWorkItemIntegrationBlocker :=
  blocker "hostStopped" None
    "The host stopped before integration finished. The confirmed file effects are saved. Review them, then continue the same integration if its expected files still match.".
Definition STOPPED_BEFORE_RESULT : str :=
  lit "Integration stopped before its final result was saved. The workspace is available. Saved file effects remain attached to this integration.".

(** The records are not those of the journal. *)
Definition records_differ (j : IntegrationJournal) (workspace_id : Uuid) (source candidate : StoredTurn) :
    bool :=
  let p := ij_preflight j in
  let s := st_receipt source in
  let c := st_receipt candidate in
  negb (tc_session_id s =? ij_source_session_id j)
  || negb (tc_session_id c =? ij_candidate_session_id j)
  || negb (tc_conversation_id s =? ip_source_conversation_id p)
  || negb (tc_request_id s =? ip_source_request_id p)
  || negb (tc_workspace_id s =? workspace_id)
  || negb (bool_decide (tc_repository_id s = ip_repository_id p))
  || negb (tc_conversation_id c =? ip_candidate_conversation_id p)
  || negb (tc_request_id c =? ip_candidate_request_id p)
  || negb (tc_workspace_id c =? ip_candidate_workspace_id p)
  || negb (bool_decide (checkpoint_id s = Some (ip_source_after_checkpoint_id p)))
  || negb (bool_decide (checkpoint_id c = Some (ip_candidate_after_checkpoint_id p)))
  || negb (bool_decide (st_target_identity source = ij_target_identity j)).

(** Whether the file that was being applied was. *)
Definition resolve_pending (j : IntegrationJournal) (source : StoredTurn)
    (baseline desired : WorktreeCheckpointCapture) : Act World IntegrationJournal :=
  match ij_pending_file j with
  | None => act_ret j
  | Some file =>
      let path := if_file_path file in
      do! identity := act_try (target_identity (st_target source)) in
      do! current :=
        (if bool_decide (identity = Ok (ij_target_identity j))
         then act_try (capture_checkpoint (st_target source))
         else act_ret (Err AgentConversationUnavailable)) in
      let is_as files := match current with
                         | Ok current => bool_decide (file_state (wt_files current !! path)
                                                      = file_state ((wt_files files) !! path))
                         | Err _ => false
                         end in
      act_ret (if is_as desired then
                 if bool_decide (file ∈ ir_files (ij_result j)) then journal_result j (ij_result j) None
                 else applied j file None
               else if is_as baseline then journal_result j (ij_result j) None
               else block j (EFFECT_UNKNOWN path))
  end.

Definition recover_pending_workspace (workspace_id : Uuid) : Act World () :=
  do! found := read_marker workspace_id in
  match found with
  | None => act_ret ()
  | Some marker =>
      do! journal := read_journal (pi_work_set_id marker) (pi_task_id marker) in
      do! j := act_lift (ok_or journal AgentConversationUnavailable) in
      check! guard_err (negb (pi_workspace_id marker =? workspace_id)
                        || negb (ip_workspace_id (ij_preflight j) =? workspace_id)
                        || negb (iq_request_id (ij_request j) =? pi_request_id marker))
               AgentConversationUnavailable in
      do! _ := asks (ts_lock_operation workspace_id) in
      do! _ :=
        (if ij_finished j then act_ret ()
         else
           do! source := read_record (ij_source_session_id j) in
           do! candidate := read_record (ij_candidate_session_id j) in
           check! guard_err (records_differ j workspace_id source candidate)
                    AgentConversationUnavailable in
           do! baseline := act_lift (ok_or (st_after source) AgentConversationUnavailable) in
           do! desired := act_lift (ok_or (st_after candidate) AgentConversationUnavailable) in
           do! files := act_lift (changes baseline desired) in
           check! guard_err (negb (bool_decide (files = ip_files (ij_preflight j))))
                    AgentConversationUnavailable in
           let j := journal_result j (with_blockers (ij_result j) []) (ij_pending_file j) in
           do! j := resolve_pending j source baseline desired in
           let result := with_result (ij_result j) IntegrationIncomplete
                           (ir_blockers (ij_result j) ++ [HOST_STOPPED]) STOPPED_BEFORE_RESULT
                           (ir_integrated_at_unix_ms (ij_result j)) in
           save_journal (journal_with j (ij_proof j) result (ij_pending_file j) true)) in
      remove_marker workspace_id
  end.
End integration.
