(* ===== verification/WorktreeProofs.v ===== *)
(** * What the calls on worktrees change

    A look changes nothing; a save or a restore replaces at most one file, and only a file that is
    as the caller expects it. *)

From S2P Require Import Prelude Order Text StoreBase Captures Worktrees.

Local Open Scope N_scope.

Section worktrees.
Context `{GitHost}.

(** ** Rules *)

Lemma git_bind_inv {A B} (m : GitAct A) (k : A → GitAct B) s r s' :
  git_bind m k s = (r, s') →
  (∃ x s1, m s = (Ok x, s1) ∧ k x s1 = (r, s')) ∨ (∃ e, m s = (Err e, s') ∧ r = Err e).
Proof.
  unfold git_bind. destruct (m s) as [[x|e] s1] eqn:Hm; intros Hrun.
  - left. by exists x, s1.
  - right. injection Hrun as <- <-. by exists e.
Qed.

(** No file is replaced. *)
Definition watching {A} (m : GitAct A) : Prop :=
  ∀ s r s', m s = (r, s') → sn_writes s' = sn_writes s.

Lemma next_moment_writes s : sn_writes (next_moment s).2 = sn_writes s.
Proof. unfold next_moment. by destruct (sn_script s). Qed.

Lemma watching_ret {A} (x : A) : watching (git_ret x).
Proof. by intros s r s' [= <- <-]. Qed.
Lemma watching_lift {A} (r : result A GitError) : watching (git_lift r).
Proof. by intros s r' s' [= <- <-]. Qed.
Lemma watching_look {A} (f : Worktrees → result A GitError) : watching (look f).
Proof.
  intros s r s' Hrun. unfold look in Hrun. pose proof (next_moment_writes s) as Hw.
  destruct (next_moment s) as [m s1]. injection Hrun as <- <-. exact Hw.
Qed.
Lemma watching_bind {A B} (m : GitAct A) (k : A → GitAct B) :
  watching m → (∀ x, watching (k x)) → watching (git_bind m k).
Proof.
  intros Hm Hk s r s' [(x & s1 & Hx & Hrun)|(e & He & ->)]%git_bind_inv.
  - rewrite (Hk _ _ _ _ Hrun). by eapply Hm.
  - by eapply Hm.
Qed.

Lemma look_Ok {A} (f : Worktrees → result A GitError) s x s' :
  look f s = (Ok x, s') → f (sn_trees s') = Ok x.
Proof.
  unfold look. destruct (next_moment s) as [m s1]. intros [= Hr <-]. by destruct (mo_fate m).
Qed.

(** A publication replaces one node, that of the tree it was allowed for. *)
Lemma publish_writes {A} (root : str) (parts : list str)
    (allowed : Worktrees → result (Worktree * option (Stamp → Node) * (Stamp → A)) GitError) s r s' :
  publish root parts allowed s = (r, s') →
  sn_writes s' = sn_writes s ∨
  ∃ trees tree new x stamp, allowed trees = Ok (tree, new, x) ∧
    sn_writes s' = {| fw_root := root; fw_path := parts; fw_old := wk_nodes tree !! parts;
                      fw_new := (λ node, node stamp) <$> new |} :: sn_writes s.
Proof.
  unfold publish. pose proof (next_moment_writes s) as Hw.
  destruct (next_moment s) as [m s1]. cbn in Hw. intros Hrun.
  destruct (mo_fate m); [| |];
    try (destruct (allowed (sn_trees s1)) as [[[tree new] x]|e] eqn:Ha);
    injection Hrun as <- <-; try (by left);
    right; exists (sn_trees s1), tree, new, x, (mo_stamp m); (split; [done|]); cbn; by rewrite Hw.
Qed.

(** ** Captures only look *)

Lemma watching_capture_files root dirty state paths : watching (capture_files root dirty state paths).
Proof.
  revert state. induction paths as [|path paths IH]; intros [[files omitted] total]; cbn.
  - apply watching_ret.
  - case_match; [apply IH|]. intros s r s' Hrun.
    destruct (look _ s) as [found s1] eqn:Hl. destruct (captured_file _ _ _ _) as [[file left_out] t].
    rewrite (IH _ _ _ _ Hrun). by eapply watching_look.
Qed.

Lemma watching_still_same root files : watching (still_same root files).
Proof.
  induction files as [|file files IH]; cbn; [apply watching_ret|].
  intros s r s' Hrun. destruct (look _ s) as [found s1] eqn:Hl.
  case_match; [rewrite (IH _ _ _ Hrun)|injection Hrun as <- <-]; by eapply watching_look.
Qed.

Lemma watching_capture root : watching (capture_worktree_checkpoint root).
Proof.
  apply watching_bind; [apply watching_look|]. intros [[[head branch] index] listed].
  apply watching_bind; [apply watching_look|]. intros dirty.
  apply watching_bind; [apply watching_capture_files|]. intros [[files omitted] total].
  apply watching_bind; [apply watching_still_same|]. intros same s r s' Hrun.
  destruct same; [|by injection Hrun as <- <-].
  destruct (look _ s) as [after s1] eqn:Hl. injection Hrun as <- <-. by eapply watching_look.
Qed.

Lemma watching_prepare_parent root path expected : watching (prepare_parent_checked root path expected).
Proof.
  apply watching_bind; [apply watching_lift|]. intros parts s r s' Hrun.
  pose proof (next_moment_writes s) as Hw. destruct (next_moment s) as [m s1]. cbn in Hw.
  destruct (mo_fate m); [| |]; repeat case_match; by injection Hrun as <- <-.
Qed.

(** ** Restores *)

(** The node a restore finds: none, or a file that has the revision of one with the expected hash
    and mode. *)
Inductive found_as : option str → option N → option Node → Prop :=
| found_nothing : found_as None None None
| found_file content mode stamp content' mode' stamp' :
    revision content mode stamp = revision content' mode' stamp' →
    found_as (Some (bytes_sha256 content')) (Some mode') (Some (Regular content mode stamp)).

(** The node it leaves. *)
Definition left_as (content : option (list N)) (mode : option N) (new : option Node) : Prop :=
  match content, mode with
  | Some content, Some mode => ∃ stamp, new = Some (Regular content mode stamp)
  | None, None => new = None
  | _, _ => False
  end.

Definition one_write (root : str) (parts : list str) (old new : option Node → Prop) (s s' : Scene) :
    Prop :=
  ∃ write, sn_writes s' = write :: sn_writes s ∧ fw_root write = root ∧ fw_path write = parts
           ∧ old (fw_old write) ∧ new (fw_new write).

Lemma read_node_Ok node source mode :
  read_node node = Ok (source, mode) →
  ∃ stamp, node = Some (Regular (rs_content source) mode stamp)
           ∧ rs_revision source = revision (rs_content source) mode stamp.
Proof. unfold read_node. repeat case_match; try done. intros [= <- <-]. by eexists. Qed.

Lemma open_root_Ok trees root expected tree :
  open_root trees root expected = Ok tree →
  trees !! root = Some tree ∧ ∀ id, expected = Some id → root_identity root tree = id.
Proof.
  unfold open_root. intros (t & Ht%ok_or_Ok & Hid)%rbind_Ok.
  destruct expected as [id|]; [case_bool_decide; [|done]|]; injection Hid as ->; split; try done.
  by intros ? [= <-].
Qed.

Lemma same_parent_Ok trees root parts inode expected tree :
  same_parent trees root parts inode expected = Ok tree → trees !! root = Some tree.
Proof.
  unfold same_parent, parent_checked.
  intros ([t i] & (t' & Ho & Hw)%rbind_Ok & [_ [= <-]]%ensure_Ok)%rbind_Ok.
  apply open_root_Ok in Ho as [Ho _]. case_match; try done. by injection Hw as -> _.
Qed.

Lemma save_raw_writes root path content expected_revision mode expected s r s' :
  save_raw_with_mode root path content expected_revision mode expected s = (r, s') →
  sn_writes s' = sn_writes s ∨
  ∃ parts, components path = Ok parts ∧
    one_write root parts
      (λ old, ∃ content mode stamp, old = Some (Regular content mode stamp)
              ∧ revision content mode stamp = expected_revision)
      (λ new, ∃ mode' stamp, new = Some (Regular content mode' stamp)
              ∧ ∀ m, mode = Some m → mode' = m) s s'.
Proof.
  unfold save_raw_with_mode.
  intros [(parts & s1 & [= Hc <-] & Hrun)|(e & [= _ <-] & ->)]%git_bind_inv; [|by left].
  apply git_bind_inv in Hrun as [([] & s1 & [= _ <-] & Hrun)|(e & [= _ <-] & ->)]; [|by left].
  apply git_bind_inv in Hrun as [([] & s1 & [= _ <-] & Hrun)|(e & [= _ <-] & ->)]; [|by left].
  apply git_bind_inv in Hrun as [([inode old_mode] & s1 & Hl & Hrun)|(e & Hl & ->)];
    [|left; by eapply watching_look].
  apply watching_look in Hl.
  apply publish_writes in Hrun; rewrite Hl in Hrun; destruct Hrun as [Hw|(trees & tree & new & x & stamp & Ha & Hw)]; [by left|].
  right. exists parts. split; [done|].
  apply rbind_Ok in Ha as (t & Hp & Ha). apply rbind_Ok in Ha as ([source m] & Hr & Ha).
  apply ensure_Ok in Ha as [Hrev [= <- <- <-]].
  apply read_node_Ok in Hr as (old_stamp & Hnode & Hold).
  eexists. split; [exact Hw|]. cbn. split; [done|]. split; [done|].
  split.
  - exists (rs_content source), m, old_stamp. split; [exact Hnode|]. rewrite <- Hold.
    by case_bool_decide.
  - exists (default old_mode mode), stamp. split; [done|]. by intros m' ->.
Qed.

Lemma restore_raw_writes root path content mode hash em expected s r s' :
  restore_raw_checked root path content mode hash em expected s = (r, s') →
  sn_writes s' = sn_writes s ∨
  ∃ parts, components path = Ok parts
           ∧ one_write root parts (found_as hash em) (left_as content mode) s s'.
Proof.
  unfold restore_raw_checked.
  intros [(parts & s1 & [= Hc <-] & Hrun)|(e & [= _ <-] & ->)]%git_bind_inv; [|by left].
  apply git_bind_inv in Hrun as [([] & s1 & [= Hg <-] & Hrun)|(e & [= _ <-] & ->)]; [|by left].
  apply git_bind_inv in Hrun as [(current & s1 & Hl & Hrun)|(e & Hl & ->)];
    [|left; by eapply watching_look].
  pose proof (watching_look _ _ _ _ Hl) as Hw1. apply look_Ok in Hl.
  apply git_bind_inv in Hrun as [([] & s2 & [= Hh <-] & Hrun)|(e & [= _ <-] & ->)]; [|by left].
  apply guard_err_Ok in Hg, Hh. apply negb_false_iff, bool_decide_eq_true in Hh.
  apply orb_false_iff in Hg as [_ Hmode]. apply negb_false_iff, bool_decide_eq_true in Hmode.
  assert (∀ source m, current = Some (source, m) → ∃ stamp,
            hash = Some (bytes_sha256 (rs_content source)) ∧ em = Some m
            ∧ rs_revision source = revision (rs_content source) m stamp) as Hcur.
  { intros source m ->. injection Hh as <- <-. unfold checkpoint_raw_checked in Hl.
    apply rbind_Ok in Hl as (p & _ & Hl). apply rbind_Ok in Hl as (t & _ & Hl).
    destruct (walk _ _ _ _); try done. destruct (wk_nodes t !! p) as [node|]; [|done].
    unfold rmap in Hl. destruct (read_node (Some node)) as [[s3 m3]|] eqn:Hn; [|done].
    injection Hl as -> ->. apply read_node_Ok in Hn as (stamp & _ & Hrev). by exists stamp. }
  destruct current as [[source m]|], content as [text|].
  - destruct (Hcur _ _ eq_refl) as (stamp & -> & -> & Hrev).
    assert (∃ saved, save_raw_with_mode root path text (rs_revision source) mode expected s1
                     = (saved, s')) as [saved Hs].
    { apply git_bind_inv in Hrun as [(saved & s2 & Hs & [= _ <-])|(e & Hs & _)]; eauto. }
    unfold one_write. rewrite <- Hw1. apply save_raw_writes in Hs as [Hs|(p & Hp & write & Hw & Hr & Hpath & Hold & Hnew)]; [by left|].
    right. exists parts. split; [done|]. assert (p = parts) as -> by congruence.
    exists write. split; [done|]. split; [done|]. split; [done|]. split.
    + destruct Hold as (c & md & st & -> & Heq). rewrite Hrev in Heq.
      by apply (found_file _ _ _ _ _ stamp).
    + destruct Hnew as (m' & st' & -> & Hm'). unfold left_as.
      destruct mode as [md|]; [exists st'; by rewrite (Hm' _ eq_refl)|].
      by destruct (proj1 Hmode (mk_is_Some _ _ eq_refl)) as [? ?].
  - destruct (Hcur _ _ eq_refl) as (stamp & -> & -> & Hrev).
    apply git_bind_inv in Hrun as [(inode & s2 & Hi & Hrun)|(e & Hi & ->)];
      [|left; rewrite <- Hw1; by eapply watching_look].
    unfold one_write. rewrite <- Hw1, <- (watching_look _ _ _ _ Hi).
    apply publish_writes in Hrun as [Hw|(trees & tree & new & x & st & Ha & Hw)]; [by left|].
    right. exists parts. split; [done|]. apply rbind_Ok in Ha as (t & Hp & Ha).
    apply rbind_Ok in Ha as ([now m'] & Hr & Ha). apply ensure_Ok in Ha as [Heq [= <- <- <-]].
    apply read_node_Ok in Hr as (st' & Hnode & Hnow).
    eexists. split; [exact Hw|]. cbn. split; [done|]. split; [done|]. split.
    + rewrite Hnode. apply (found_file _ _ _ _ _ stamp).
      apply negb_false_iff, bool_decide_eq_true in Heq. congruence.
    + destruct mode; [|done]. by destruct (proj2 Hmode (mk_is_Some _ _ eq_refl)) as [? ?].
  - injection Hh as <- <-.
    apply git_bind_inv in Hrun as [(inode & s2 & Hi & Hrun)|(e & Hi & ->)];
      [|left; rewrite <- Hw1; by eapply watching_look].
    unfold one_write. rewrite <- Hw1, <- (watching_look _ _ _ _ Hi).
    apply publish_writes in Hrun as [Hw|(trees & tree & new & x & st & Ha & Hw)]; [by left|].
    right. exists parts. split; [done|]. apply rbind_Ok in Ha as (t & Hp & Ha).
    apply ensure_Ok in Ha as [Hnone [= <- <- <-]].
    eexists. split; [exact Hw|]. cbn. split; [done|]. split; [done|]. split.
    + apply bool_decide_eq_false, eq_None_not_Some in Hnone. rewrite Hnone. constructor.
    + unfold left_as. destruct mode as [md|]; [by exists st|].
      by destruct (proj1 Hmode (mk_is_Some _ _ eq_refl)) as [? ?].
  - left. rewrite <- Hw1. by eapply watching_look.
Qed.
End worktrees.
