(* ===== verification/TurnRestoreRules.v ===== *)
(** * Restores and integrations: what every call keeps

    [kept inv m Q]: whatever the outside answers, others edit and fails, the call [m] keeps [inv]
    of the disk and of the files replaced, at its end and in every state on the way; when it
    succeeds, its result satisfies [Q]. *)

From S2P Require Import Prelude Order Text StoreBase Sessions Conversations Captures WorkServices.
From S2P Require Import WorkSetTriples Worktrees TurnWorld TurnRestore WorktreeProofs.

Local Open Scope N_scope.

Section rules.
Context {W : Type} `{WorkServices W} `{TurnServices W} `{GitHost} `{CaptureDigests} `{TurnJson}.

Local Abbreviation World := (TurnWorld W).

Context (inv : TurnDisk → list FileWrite → Prop).

Definition keeps_inv (w : World) : Prop :=
  inv (tw_disk w) (sn_writes (tw_scene w))
  ∧ Forall (λ d, inv (du_disk d) (du_writes d)) (tw_history w).

Definition kept {A} (m : Act World A) (Q : A → Prop) : Prop :=
  ∀ w, keeps_inv w → runs keeps_inv w m (λ x _, Q x).

(** ** Composition *)

Lemma kept_ret {A} (x : A) (Q : A → Prop) : Q x → kept (act_ret x) Q.
Proof. intros Hq w Hw. by apply runs_ret. Qed.
Lemma kept_err {A} e (Q : A → Prop) : kept (act_err e) Q.
Proof. intros w Hw. by apply runs_err. Qed.
Lemma kept_lift {A} (r : result A LocalWtsError) (Q : A → Prop) :
  (∀ x, r = Ok x → Q x) → kept (act_lift r) Q.
Proof. intros Hq w Hw. apply runs_lift; eauto. Qed.
Lemma kept_bind {A B} (m : Act World A) (k : A → Act World B) (R : A → Prop) (Q : B → Prop) :
  kept m R → (∀ x, R x → kept (k x) Q) → kept (act_bind m k) Q.
Proof.
  intros Hm Hk w Hw. eapply runs_bind; [by apply Hm|]. intros x w' Hw' Hx. by apply Hk.
Qed.
Lemma kept_weaken {A} (m : Act World A) (R Q : A → Prop) :
  kept m R → (∀ x, R x → Q x) → kept m Q.
Proof. intros Hm Hq w Hw. eapply runs_weaken; [by apply Hm|]. auto. Qed.
Lemma kept_any {A} (m : Act World A) (Q : A → Prop) : kept m Q → kept m (λ _, True).
Proof. intros Hm. by eapply kept_weaken. Qed.
Lemma kept_check {A} (r : result () LocalWtsError) (k : Act World A) (Q : A → Prop) :
  (r = Ok () → kept k Q) → kept (act_bind (act_lift r) (λ _, k)) Q.
Proof. intros Hk w Hw. apply runs_check; [done|]. intros Hr. by apply Hk. Qed.
Lemma kept_try {A} (m : Act World A) (Q : A → Prop) :
  kept m Q → kept (act_try m) (λ r, ∀ x, r = Ok x → Q x).
Proof. intros Hm w Hw. by apply runs_try, Hm. Qed.
Lemma kept_or {A} (m : Act World A) e (Q : A → Prop) : kept m Q → kept (act_or m e) Q.
Proof.
  intros Hm w Hw r w' Hrun. unfold act_or in Hrun. destruct (m w) as [[x|e'] w1] eqn:Hx;
    injection Hrun as <- <-; destruct (Hm _ Hw _ _ Hx) as [Ha Hq]; split; try done.
Qed.
Lemma kept_fold {A B} (J : B → Prop) (f : B → A → Act World B) b l :
  J b → (∀ b x, x ∈ l → J b → kept (f b x) J) → kept (act_fold f b l) J.
Proof.
  intros Hb Hf w Hw. apply (runs_fold _ (λ b _, J b)); [done..|]. intros c x s Hx Hs Hc.
  by apply Hf.
Qed.
(** The same, where the invariant is of the elements seen. *)
Lemma kept_fold_seen {A B} (J : list A → B → Prop) (f : B → A → Act World B) b l :
  J [] b → (∀ seen x b, x ∈ l → J seen b → kept (f b x) (J (seen ++ [x]))) →
  kept (act_fold f b l) (J l).
Proof.
  intros Hb Hf. enough (∀ seen b, J seen b → kept (act_fold f b l) (J (seen ++ l))) as Hall
    by by apply (Hall []).
  clear b Hb. induction l as [|x l IH]; intros seen b Hb; cbn [act_fold].
  { apply kept_ret. by rewrite app_nil_r. }
  eapply kept_bind; [apply Hf; [by left|done]|]. intros c Hc.
  rewrite cons_middle, (assoc_L (++)). apply IH; [|done]. intros s y d Hy. apply Hf. by right.
Qed.

(** ** Steps *)

Lemma kept_asks {A} (m : Act W A) : kept (asks m) (λ _, True).
Proof.
  intros w Hw r w' Hrun. unfold asks in Hrun. destruct (m (tw_out w)) as [o out].
  injection Hrun as <- <-. by split.
Qed.
Lemma kept_answer {A} (m : Act W A) : kept (asks m) (λ x, ∃ out out', m out = (Ok x, out')).
Proof.
  intros w Hw r w' Hrun. unfold asks in Hrun. destruct (m (tw_out w)) as [o out] eqn:Hm.
  injection Hrun as <- <-. split; [done|]. intros x ->. by exists (tw_out w), out.
Qed.
Lemma kept_ask {A} (m : W → A * W) :
  kept (λ w, let '(x, w) := ask m w in (Ok x, w)) (λ x, ∃ out out', m out = (x, out')).
Proof.
  intros w Hw r w' Hrun. unfold ask in Hrun. destruct (m (tw_out w)) as [o out] eqn:Hm.
  injection Hrun as <- <-. split; [done|]. intros x [= <-]. by exists (tw_out w), out.
Qed.
Lemma kept_asks_now : kept asks_now (λ _, True).
Proof.
  intros w Hw r w' Hrun. unfold asks_now, ask in Hrun. destruct (sv_now (tw_out w)) as [o out].
  injection Hrun as <- <-. by split.
Qed.
Lemma kept_peek {A} (f : World → A) : kept (peek f) (λ _, True).
Proof. intros w Hw r w' [= <- <-]. by split. Qed.

Lemma kept_reads {A} (f : TurnDisk → result A LocalWtsError) (Q : A → Prop) :
  (∀ d l x, inv d l → f d = Ok x → Q x) → kept (reads f) Q.
Proof.
  intros Hq w [Hd Hh] r w' Hrun. unfold reads in Hrun.
  pose proof (next_moment_writes (tw_scene w)) as Hw. destruct (next_moment (tw_scene w)) as [m sc].
  injection Hrun as <- <-. split; [split; [by cbn in *; rewrite Hw|done]|].
  intros x Hx. destruct (mo_fate m); try done. by eapply Hq.
Qed.

Lemma keeps_snapshot w : keeps_inv w → keeps_inv (snapshot w).
Proof. intros [Hd Hh]. split; [done|]. apply Forall_app. by split; [|constructor]. Qed.

Lemma kept_writes (f : TurnDisk → TurnDisk) :
  (∀ d l, inv d l → inv (f d) l) → kept (writes f) (λ _, True).
Proof.
  intros Hf w [Hd Hh] r w' Hrun. unfold writes in Hrun.
  pose proof (next_moment_writes (tw_scene w)) as Hw. destruct (next_moment (tw_scene w)) as [m sc].
  cbn in Hw. assert (keeps_inv (with_scene w sc)) as Ha.
  { split; [by cbn in *; rewrite Hw|done]. }
  assert (keeps_inv (with_disk (with_scene w sc) (f (tw_disk (with_scene w sc))))) as Hb.
  { apply keeps_snapshot. split; [apply Hf, Ha|done]. }
  by destruct (mo_fate m); injection Hrun as <- <-.
Qed.

Lemma kept_watching {A} (m : GitAct A) e : watching m → kept (on_trees m e) (λ _, True).
Proof.
  intros Hm w [Hd Hh] r w' Hrun. unfold on_trees in Hrun.
  destruct (m (tw_scene w)) as [o sc] eqn:Ho. apply Hm in Ho. injection Hrun as <- <-.
  split; [|done]. apply keeps_snapshot. split; [by cbn in *; rewrite Ho|done].
Qed.

(** The restore of one file: what it would write must be allowed. *)
Lemma kept_restore target path content mode hash em identity :
  (∀ d l write, inv d l → fw_root write = target → components path = Ok (fw_path write) →
     found_as hash em (fw_old write) → left_as content mode (fw_new write) → inv d (write :: l)) →
  kept (restore_bytes target path content mode hash em identity) (λ _, True).
Proof.
  intros Hok w [Hd Hh] r w' Hrun. unfold restore_bytes, on_trees in Hrun.
  destruct (restore_raw_checked _ _ _ _ _ _ _ _) as [o sc] eqn:Ho. injection Hrun as <- <-.
  split; [|done]. apply keeps_snapshot.
  apply restore_raw_writes in Ho as [Ho|(parts & Hp & write & Ho & Hr & Hpath & Hold & Hnew)];
    (split; [|done]); cbn in *; rewrite Ho; [done|].
  apply Hok; [done|done|by rewrite Hpath|done..].
Qed.

(** ** Calls on turns *)

Lemma kept_record session_id (Q : StoredTurn → Prop) :
  (∀ d l s, inv d l → td_records d !! session_id = Some s → Q s) →
  kept (read_record session_id) Q.
Proof. intros Hq. apply kept_reads. intros d l x Hd Hx%ok_or_Ok. by eapply Hq. Qed.

Lemma kept_identity target : kept (target_identity target) (λ _, True).
Proof. apply kept_watching, watching_look. Qed.

Lemma kept_capture target : kept (capture_checkpoint target) (λ _, True).
Proof. apply kept_watching, watching_capture. Qed.

Lemma kept_prepare_parent target path identity :
  kept (prepare_source_parent target path identity) (λ _, True).
Proof. apply kept_watching, watching_prepare_parent. Qed.

Lemma kept_blob directory hash : kept (read_blob_bytes directory hash) (λ b, bytes_sha256 b = hash).
Proof.
  apply kept_check. intros _. apply kept_reads.
  intros d l x _ (b & _ & [Hb [= <-]]%ensure_Ok)%rbind_Ok.
  apply orb_false_iff in Hb as [_ Hb]. by apply negb_false_iff, bool_decide_eq_true in Hb.
Qed.

(** The snapshots that were read are those of the capture. *)
Definition snapshots_of (files : CapturedFiles) (paths : list str) (contents : gmap str (list N)) :
    Prop :=
  (∀ path bytes, contents !! path = Some bytes → hash_of files path = Some (bytes_sha256 bytes))
  ∧ ∀ path, path ∈ paths → is_Some (hash_of files path) → is_Some (contents !! path).

Lemma kept_contents directory files paths :
  kept (read_contents directory files paths) (snapshots_of files paths).
Proof.
  apply (kept_fold_seen (snapshots_of files)).
  { split; [done|]. by intros f Hf%elem_of_nil. }
  intros seen path contents _ [Hbytes Hseen]. destruct (hash_of files path) as [hash|] eqn:Hh.
  - eapply kept_bind; [apply kept_blob|]. intros bytes Hb. apply kept_ret. split.
    + intros p b [[<- <-]|[_ Hp]]%lookup_insert_Some; [by rewrite Hh, Hb|by apply Hbytes].
    + intros p Hf Hsome. destruct (decide (p = path)) as [->|Hne].
      { rewrite lookup_insert_eq. by eexists. }
      rewrite lookup_insert_ne by done. apply Hseen; [|done].
      by apply elem_of_app in Hf as [Hf|Hf%list_elem_of_singleton].
  - apply kept_ret. split; [done|]. intros p Hf Hsome.
    apply elem_of_app in Hf as [Hf|Hf%list_elem_of_singleton]; [by apply Hseen|].
    subst p. rewrite Hh in Hsome. by destruct Hsome.
Qed.

(** The version of a file in a capture. *)
Definition version_of (state : option str * option N) (node : option Node) : Prop :=
  match state with
  | (Some hash, Some mode) => ∃ content stamp, node = Some (Regular content mode stamp)
                              ∧ bytes_sha256 content = hash
  | (None, None) => node = None
  | _ => False
  end.

(** What a restore with the snapshots of a capture leaves is the version of that capture. *)
Lemma left_version files paths contents path node :
  snapshots_of files paths contents → path ∈ paths →
  left_as (contents !! path) (file_state (files !! path)).2 node →
  version_of (file_state (files !! path)) node.
Proof.
  intros [Hbytes Hseen] Hp Hnew. specialize (Hseen path Hp). specialize (Hbytes path).
  unfold hash_of in *. destruct (file_state (files !! path)) as [h m]. cbn in *.
  destruct (contents !! path) as [bytes|] eqn:Hc.
  - specialize (Hbytes _ eq_refl) as [= ->]. destruct m as [m|]; [|done].
    destruct Hnew as [stamp ->]. by exists bytes, stamp.
  - destruct h as [h|]; [by destruct (Hseen (mk_is_Some _ _ eq_refl))|]. by destruct m.
Qed.
End rules.

(** Calls that are read and checked through; [True] where nothing is known of a result.  What is
    left are the calls with an effect of their own. *)
Ltac kept_step :=
  match goal with
  | |- kept _ (act_bind (act_lift (guard_err _ _)) (λ _, _)) _ => apply kept_check; intros ?
  | |- kept _ (act_bind (read_contents _ _ _) _) _ => fail 1
  | |- kept _ (act_bind _ _) _ => apply (kept_bind _ _ _ (λ _, True)); [|intros ? _]
  | |- kept _ (act_ret _) _ => apply kept_ret
  | |- kept _ (act_err _) _ => apply kept_err
  | |- kept _ (act_lift _) (λ _, True) => apply kept_lift; done
  | |- kept _ (act_try _) (λ _, True) => eapply kept_any; apply (kept_try _ _ (λ _, True))
  | |- kept _ (asks _) _ => apply kept_asks
  | |- kept _ asks_now _ => apply kept_asks_now
  | |- kept _ (λ w, let '(_, _) := ask _ w in _) (λ _, True) => eapply kept_any, kept_ask
  | |- kept _ (peek _) _ => apply kept_peek
  | |- kept _ (read_record _) (λ _, True) => apply kept_record; done
  | |- kept _ (reads _) (λ _, True) => apply kept_reads; done
  | |- kept _ (target_identity _) _ => apply kept_identity
  | |- kept _ (capture_checkpoint _) _ => apply kept_capture
  | |- kept _ (on_trees (look _) _) _ => apply kept_watching, watching_look
  | |- kept _ (turn_lease _) _ => apply kept_asks
  | |- kept _ private_dir _ => apply kept_reads; done
  | |- kept _ (act_or _ _) _ => apply kept_or
  | |- kept _ (sv_get _) _ => apply kept_asks
  | |- kept _ (sv_read_conversation _) _ => apply kept_asks
  | |- kept _ sv_work_conversations _ => apply kept_asks
  | |- kept _ sv_store_locks _ => apply kept_asks
  | |- kept _ (sv_source_worktree _ _) _ => apply kept_asks
  | |- kept _ (sv_record_exists _) _ => apply kept_reads; done
  | |- kept _ (sv_record _) _ => apply kept_record; done
  | |- kept _ (sv_identity _) _ => apply kept_identity
  | |- kept _ (sv_capture _) _ => apply kept_capture
  | |- kept _ (act_fold _ _ _) (λ _, True) =>
      apply (kept_fold _ (λ _, True)); [done|intros ? ? ? ?]
  | |- kept _ (if ?b then _ else _) _ => destruct b
  | |- kept _ (match ?x with _ => _ end) _ => destruct x
  | |- kept _ (let '(_, _) := ?x in _) _ => destruct x
  | |- True => done
  end.
Ltac keep := repeat kept_step.

(** ** Calls that only read *)

Section reading.
Context {W : Type} `{WorkServices W} `{TurnServices W} `{GitHost} `{CaptureDigests} `{TurnJson}.
Context (inv : TurnDisk → list FileWrite → Prop).

Local Abbreviation kept := (kept (W:=W)).

Lemma kept_changes conversation_id request_id :
  kept inv (get_agent_turn_changes conversation_id request_id) (λ _, True).
Proof. unfold get_agent_turn_changes. keep. Qed.

Lemma kept_check_target conversation_id request_id :
  kept inv (load_check_target conversation_id request_id) (λ _, True).
Proof. unfold load_check_target. keep. apply kept_changes. Qed.

Lemma kept_matches target : kept inv (matches_check_target target) (λ _, True).
Proof. unfold matches_check_target. keep. Qed.

Lemma kept_resume receipt j p : kept inv (resume_preflight receipt j p) (λ _, True).
Proof. unfold resume_preflight. keep. Qed.

Lemma kept_history receipt : kept inv (historical_result receipt) (λ _, True).
Proof. unfold historical_result, read_journal. keep. Qed.

Lemma kept_target_blockers receipt files : kept inv (target_blockers receipt files) (λ _, True).
Proof.
  unfold target_blockers, parent_blockers. keep; [apply kept_check_target|apply kept_matches].
Qed.

Lemma kept_validate receipt : kept inv (validate_preflight receipt) (λ _, True).
Proof.
  unfold validate_preflight, read_journal. keep.
  all: first [apply kept_history|apply kept_resume|apply kept_target_blockers].
Qed.

Lemma kept_leases c : kept inv (operation_leases c) (λ _, True).
Proof. unfold operation_leases, workspace_operation_lease. keep. Qed.

Lemma kept_preflight conversation_id request_id :
  kept inv (preflight_agent_turn_restore conversation_id request_id) (λ _, True).
Proof.
  unfold preflight_agent_turn_restore, leases_free, read_journal. keep.
  all: first [apply kept_changes|apply kept_leases|apply kept_validate|apply kept_resume].
Qed.
End reading.
