(* ===== verification/TurnRestoreProofs.v ===== *)
(** * Restores: what is overwritten, and a retry that stops *)

From S2P Require Import Prelude Order Text StoreBase Sessions Conversations Captures.
From S2P Require Import WorkServices WorkSetTriples Worktrees TurnWorld.
From S2P Require Import TurnRestore WorktreeProofs TurnRestoreRules.

Local Open Scope N_scope.

(** ** The calls *)

Inductive RestoreCall :=
| CallPreflight (conversation_id request_id : Uuid)
| CallRestore (conversation_id request_id : Uuid) (request : AgentTurnRestoreRequest)
| CallRecover (workspace_id : Uuid).

Section proofs.
Context {W : Type} `{WorkServices W} `{TurnServices W} `{GitHost} `{CaptureDigests} `{TurnJson}.

Local Abbreviation World := (TurnWorld W).

Definition run_restore_call (call : RestoreCall) : Act World () :=
  match call with
  | CallPreflight c r => do! _ := preflight_agent_turn_restore c r in act_ret ()
  | CallRestore c r request => do! _ := restore_agent_turn c r request in act_ret ()
  | CallRecover workspace_id => recover_pending_workspace workspace_id
  end.

(** A file of the record of a turn, found as the task left it, gets its version from before. *)
Definition turn_write (records : gmap Uuid StoredTurn) (write : FileWrite) : Prop :=
  ∃ session_id stored before after file,
    records !! session_id = Some stored
    ∧ st_before stored = Some before ∧ st_after stored = Some after
    ∧ file ∈ actions (st_receipt stored)
    ∧ fw_root write = st_target stored
    ∧ components (rf_file_path file) = Ok (fw_path write)
    ∧ found_as (file_state (wt_files after !! rf_file_path file)).1
        (file_state (wt_files after !! rf_file_path file)).2 (fw_old write)
    ∧ version_of (file_state (wt_files before !! rf_file_path file)) (fw_new write).

Section kept.
Context (records : gmap Uuid StoredTurn) (start : list FileWrite).

(** Only allowed writes since the start, and the records as they were. *)
Definition allowed_since (d : TurnDisk) (writes : list FileWrite) : Prop :=
  td_records d = records ∧ ∃ new, writes = new ++ start ∧ Forall (turn_write records) new.

Local Abbreviation keeps := (kept (W:=W) allowed_since).

Lemma keeps_record session_id : keeps (read_record session_id) (λ s, records !! session_id = Some s).
Proof. apply kept_record. by intros d l s [<- _]. Qed.

Local Ltac keep :=
  repeat first [eapply kept_bind; [apply keeps_record|intros ? ?]|kept_step].

Lemma keeps_write_json size (f : TurnDisk → TurnDisk) :
  (∀ d, td_records (f d) = td_records d) → keeps (write_json size f) (λ _, True).
Proof.
  intros Hf. unfold write_json. keep. apply kept_writes. intros d l [Hd Hl].
  split; [by rewrite Hf|done].
Qed.
Lemma keeps_journal session_id j : keeps (write_journal session_id j) (λ _, True).
Proof. by apply keeps_write_json. Qed.
Lemma keeps_completed session_id r : keeps (write_completed session_id r) (λ _, True).
Proof. by apply keeps_write_json. Qed.
Lemma keeps_marker pending : keeps (write_marker pending) (λ _, True).
Proof. by apply keeps_write_json. Qed.
Lemma keeps_remove_marker workspace_id : keeps (remove_marker workspace_id) (λ _, True).
Proof. unfold remove_marker. keep. by apply kept_writes. Qed.

Lemma keeps_restore_files stored session_id before after paths contents files j :
  records !! session_id = Some stored → st_before stored = Some before →
  st_after stored = Some after → files ⊆ actions (st_receipt stored) →
  snapshots_of (wt_files before) paths contents → rf_file_path <$> files ⊆ paths →
  keeps (restore_files stored session_id (wt_files before) (wt_files after) contents j files)
    (λ _, True).
Proof.
  intros Hr Hb Ha Hf Hs Hp. revert j.
  induction files as [|file files IH]; intros j; cbn -[file_state]; [by apply kept_ret|].
  assert (∀ j, keeps (restore_files stored session_id (wt_files before) (wt_files after) contents j
                        files) (λ _, True)) as Hrest.
  { apply IH; [intros f Hin; apply Hf; by right|]. intros p Hin. apply Hp. by right. }
  case_match; [apply Hrest|].
  destruct (file_state (wt_files after !! rf_file_path file)) as [hash mode] eqn:Hstate. keep.
  - apply keeps_journal.
  - apply kept_restore. intros d l write [Hd (new & -> & Hall)] Hroot Hpath Hold Hnew.
    split; [done|]. exists (write :: new). split; [done|]. constructor; [|done].
    exists session_id, stored, before, after, file. rewrite Hstate. split_and!; try done.
    { apply Hf. by left. }
    eapply left_version; [done| |done]. apply Hp. by left.
  - apply keeps_journal.
  - apply Hrest.
Qed.

Lemma keeps_apply stored session_id j :
  records !! session_id = Some stored → keeps (apply_restore stored session_id j) (λ _, True).
Proof.
  intros Hr. unfold apply_restore.
  eapply kept_bind; [apply (kept_lift _ _ (λ b, st_before stored = Some b)); by intros b ?%ok_or_Ok|].
  intros before Hb.
  eapply kept_bind; [apply (kept_lift _ _ (λ b, st_after stored = Some b)); by intros b ?%ok_or_Ok|].
  intros after Ha. apply (kept_bind _ _ _ (λ _, True)); [|intros j1 _].
  - unfold restore_remaining. keep.
    eapply kept_bind; [apply kept_contents|]. intros contents Hc. by eapply keeps_restore_files.
  - apply (kept_bind _ _ _ (λ _, True)); [unfold confirm_restored; keep|intros j2 _].
    keep; [apply keeps_journal|apply keeps_completed|apply keeps_remove_marker].
Qed.

(** ** The calls *)

Lemma keeps_recover workspace_id : keeps (recover_pending_workspace workspace_id) (λ _, True).
Proof.
  unfold recover_pending_workspace, unless_busy, read_journal. keep.
  all: first [apply keeps_completed|apply keeps_remove_marker|by apply keeps_apply].
Qed.

Lemma keeps_start stored workspace_id session_id j :
  records !! session_id = Some stored →
  keeps (start_restore stored workspace_id session_id j) (λ _, True).
Proof.
  intros Hr. unfold start_restore. keep.
  all: first [apply keeps_journal|apply keeps_marker|by apply keeps_apply].
Qed.

Lemma keeps_restore conversation_id request_id request :
  keeps (restore_agent_turn conversation_id request_id request) (λ _, True).
Proof.
  unfold restore_agent_turn, repeat_restore, new_restore, read_journal. keep.
  all: first [apply kept_changes|apply keeps_recover|apply kept_leases|apply kept_validate
             |apply keeps_journal|by apply keeps_start].
Qed.
End kept.

(** C32: WTS replaces only files of a turn it is asked to restore, each found as the task left it, by
    their version from before the task; whatever others edit in the meantime and the outside
    answers, whatever fails, and wherever the host stops.  The record of the turn stays. *)
Theorem restore_spares_other_versions call w r w' d :
  run_restore_call call w = (r, w') → tw_history w = [] → d ∈ durable w' :: tw_history w' →
  td_records (du_disk d) = td_records (tw_disk w)
  ∧ ∃ new, du_writes d = new ++ sn_writes (tw_scene w)
           ∧ Forall (turn_write (td_records (tw_disk w))) new.
Proof.
  intros Hrun Hh Hd.
  assert (kept (allowed_since (td_records (tw_disk w)) (sn_writes (tw_scene w)))
            (run_restore_call call) (λ _, True)) as Hk.
  { destruct call; cbn [run_restore_call]; keep;
      first [apply kept_preflight|apply keeps_restore|apply keeps_recover]. }
  edestruct Hk as [[Ha Hall] _]; [|exact Hrun|].
  { split; [by split; [|exists []]|by rewrite Hh]. }
  apply elem_of_cons in Hd as [->|Hd]; [exact Ha|]. by apply (proj1 (Forall_forall _ _) Hall).
Qed.
End proofs.

(** ** A retry that stops before its marker is written

    A retry writes its journal as unfinished, then the marker of the workspace.  When nothing
    follows the first of these writes, the turn can never be restored again: its journal waits
    for a recovery that only a marker starts, and every other request wants the journal of the
    last result to be finished. *)

(** The last result of the turn has an unfinished journal, no restore of the workspace is marked,
    and the other journals of the turn are of requests that ended for good. *)
Record retry_unmarked (session_id workspace_id : Uuid) (d : TurnDisk) : Prop := {
  ru_journal : ∃ result j, td_completed d !! session_id = Some result
                 ∧ td_journals d !! (session_id, ro_restore_request_id result) = Some j
                 ∧ rj_finished j = false;
  ru_marker : td_restores d !! workspace_id = None;
  ru_others : ∀ id j, td_journals d !! (session_id, id) = Some j → rj_finished j = true →
                ro_state (rj_result j) ≠ ResultIncomplete
}.

Section stuck.
Context {W : Type} `{WorkServices W} `{TurnServices W} `{GitHost} `{CaptureDigests} `{TurnJson}.

Local Abbreviation World := (TurnWorld W).

Context (disk : TurnDisk) (start : list FileWrite) (receipt : AgentTurnChanges).
Context (stuck : retry_unmarked (tc_session_id receipt) (tc_workspace_id receipt) disk).

Definition untouched (d : TurnDisk) (writes : list FileWrite) : Prop := d = disk ∧ writes = start.

Local Abbreviation keeps := (kept (W:=W) untouched).

Lemma stuck_journal id : keeps (read_journal (tc_session_id receipt) id)
  (λ j, td_journals disk !! (tc_session_id receipt, id) = Some j).
Proof. apply kept_reads. by intros d l j [-> _] Hj%ok_or_Ok. Qed.

Lemma stuck_history : keeps (historical_result receipt) (λ _, False).
Proof.
  destruct stuck as [(result & j & Hr & Hj & Hf) _ _]. unfold historical_result.
  eapply kept_bind; [apply (kept_reads _ _ (λ b, b = true))|].
  { intros d l x [-> _] [= <-]. rewrite Hr. by apply bool_decide_eq_true_2. }
  intros _ ->. eapply kept_bind; [apply (kept_reads _ _ (λ r, r = result))|].
  { intros d l x [-> _] Hx%ok_or_Ok. congruence. }
  intros _ ->. eapply kept_bind; [apply stuck_journal|]. intros j' Hj'.
  assert (j' = j) as -> by congruence.
  apply kept_check. intros Hg. exfalso. revert Hg. rewrite Hf. cbn [negb].
  rewrite !orb_true_r. done.
Qed.

Lemma stuck_validate : keeps (validate_preflight receipt) (λ _, False).
Proof. eapply kept_bind; [apply stuck_history|]. by intros ? []. Qed.

Lemma stuck_unmarked :
  keeps (reads (λ d, Ok (bool_decide (is_Some (td_restores d !! tc_workspace_id receipt)))))
    (λ b, b = false).
Proof.
  apply kept_reads. intros d l b [-> _] [= <-]. rewrite (ru_marker _ _ _ stuck).
  apply bool_decide_eq_false_2. by intros [].
Qed.

Lemma stuck_recover : keeps (recover_pending_workspace (tc_workspace_id receipt)) (λ _, True).
Proof.
  eapply kept_bind; [exact stuck_unmarked|]. intros b ->. by apply kept_ret.
Qed.

(** What a request may still be given: the end it came to. *)
Definition ended (request : AgentTurnRestoreRequest) (result : AgentTurnRestoreResult) : Prop :=
  ∃ j, td_journals disk !! (tc_session_id receipt, rq_request_id request) = Some j
       ∧ rj_finished j = true ∧ rj_result j = result.

Lemma stuck_repeat conversation_id request_id request :
  keeps (repeat_restore conversation_id request_id request receipt) (ended request).
Proof.
  unfold repeat_restore. eapply kept_bind; [apply stuck_journal|]. intros j Hj.
  apply kept_check. intros _. destruct (rj_finished j) eqn:Hf; cbn [negb andb].
  - rewrite bool_decide_eq_false_2 by exact (ru_others _ _ _ stuck _ _ Hj Hf).
    apply kept_ret. by exists j.
  - eapply kept_bind; [apply stuck_recover|]. intros _ _.
    eapply kept_bind; [apply stuck_journal|]. intros j' Hj'.
    assert (j' = j) as -> by congruence. rewrite Hf. apply kept_err.
Qed.

Lemma stuck_new conversation_id request_id request :
  keeps (new_restore conversation_id request_id request receipt) (λ _, False).
Proof.
  unfold new_restore. apply (kept_bind _ _ _ (λ _, True)); [apply kept_asks|]. intros c _.
  apply (kept_bind _ _ _ (λ _, True)).
  { eapply kept_any, kept_try, kept_leases. }
  intros leases _. apply (kept_bind _ _ _ (λ _, False)); [|by intros ? []].
  destruct leases as [|[]]; try apply kept_err. apply stuck_validate.
Qed.

(** The rest of a preview, after the receipt was read. *)
Lemma stuck_preview conversation_id request_id w r w' w1 :
  preflight_agent_turn_restore conversation_id request_id w = (r, w') →
  get_agent_turn_changes conversation_id request_id w = (Ok receipt, w1) →
  keeps_inv untouched w → keeps_inv untouched w' ∧ ∀ p, r = Ok p → rp_state p = RestoreBlocked.
Proof.
  intros Hrun Hget Hw. unfold preflight_agent_turn_restore, act_bind at 1 in Hrun.
  rewrite Hget in Hrun. destruct (kept_changes untouched _ _ _ Hw _ _ Hget) as [Hw1 _].
  revert Hrun. eapply (kept_bind untouched _ _ (λ _, True)); [apply kept_asks| |done].
  intros c _. apply (kept_bind _ _ _ (λ _, True)); [eapply kept_any, kept_try, kept_leases|].
  intros leases _. destruct leases as [|[]]; try apply kept_err.
  - eapply kept_weaken; [apply stuck_validate|]. by intros ? [].
  - eapply kept_bind; [exact stuck_unmarked|]. intros b ->. by apply kept_ret.
Qed.

Lemma stuck_restore conversation_id request_id request w r w' w1 :
  restore_agent_turn conversation_id request_id request w = (r, w') →
  get_agent_turn_changes conversation_id request_id w = (Ok receipt, w1) →
  keeps_inv untouched w → keeps_inv untouched w' ∧ ∀ result, r = Ok result → ended request result.
Proof.
  intros Hrun Hget Hw. unfold restore_agent_turn, act_bind at 1, act_lift in Hrun.
  destruct (guard_err _ _); [|by injection Hrun as <- <-].
  unfold act_bind at 1 in Hrun. rewrite Hget in Hrun.
  destruct (kept_changes untouched _ _ _ Hw _ _ Hget) as [Hw1 _].
  revert Hrun. eapply (kept_bind untouched _ _ (λ _, True)); [by apply kept_reads| |done].
  intros [] _; [apply stuck_repeat|].
  eapply kept_weaken; [apply stuck_new|]. by intros ? [].
Qed.
End stuck.

(** C34: A retry whose marker was not written leaves the turn for good: no restore and no preview
    changes a record or a file, every request is refused or given the end it came to before, and
    no preview is ready, whatever the outside answers. *)
Theorem lost_marker_wedges_restore {W : Type} `{WorkServices W} `{TurnServices W} `{GitHost}
    `{CaptureDigests} `{TurnJson} conversation_id request_id (w : TurnWorld W) receipt w1 :
  get_agent_turn_changes conversation_id request_id w = (Ok receipt, w1) →
  tw_history w = [] → retry_unmarked (tc_session_id receipt) (tc_workspace_id receipt) (tw_disk w) →
  (∀ request r w', restore_agent_turn conversation_id request_id request w = (r, w') →
     tw_disk w' = tw_disk w ∧ sn_writes (tw_scene w') = sn_writes (tw_scene w) ∧
     ∀ result, r = Ok result → ended (tw_disk w) receipt request result) ∧
  (∀ r w', preflight_agent_turn_restore conversation_id request_id w = (r, w') →
     tw_disk w' = tw_disk w ∧ ∀ p, r = Ok p → rp_state p = RestoreBlocked) ∧
  (∀ r w', recover_pending_workspace (tc_workspace_id receipt) w = (r, w') →
     tw_disk w' = tw_disk w ∧ sn_writes (tw_scene w') = sn_writes (tw_scene w)).
Proof.
  intros Hget Hh Hstuck.
  assert (keeps_inv (untouched (tw_disk w) (sn_writes (tw_scene w))) w) as Hw.
  { by split; [|rewrite Hh]. }
  split_and!.
  - intros request r w' Hrun.
    by destruct (stuck_restore _ _ _ Hstuck _ _ _ _ _ _ _ Hrun Hget Hw) as [[[Hd Hl] _] Hr].
  - intros r w' Hrun.
    by destruct (stuck_preview _ _ _ Hstuck _ _ _ _ _ _ Hrun Hget Hw) as [[[Hd Hl] _] Hr].
  - intros r w' Hrun.
    by destruct (stuck_recover _ _ _ Hstuck _ Hw _ _ Hrun) as [[[Hd Hl] _] _].
Qed.
