(* ===== verification/TurnCaptureProofs.v ===== *)
(** * Captures of turns: what a record is worth

    The record of a turn that is ready lists every file the task changed, and the content of
    every captured file is among its snapshots. *)

From S2P Require Import Prelude Order Text StoreBase Sessions Conversations Captures WorkServices.
From S2P Require Import ConversationProofs WorkSetTriples Worktrees TurnWorld TurnCaptures.

Local Open Scope N_scope.

Section proofs.
Context {W : Type} `{WorkServices W} `{TurnServices W} `{GitHost} `{CaptureDigests} `{CaptureJson}.

Local Abbreviation World := (TurnWorld W).

(** ** Calls that leave the disk *)

Definition same_disk {A} (m : Act World A) : Prop :=
  ∀ w r w', m w = (r, w') → tw_disk w' = tw_disk w.

Lemma same_disk_ret {A} (x : A) : same_disk (act_ret x).
Proof. by intros w r w' [= <- <-]. Qed.
Lemma same_disk_reads {A} (f : TurnDisk → result A LocalWtsError) : same_disk (reads f).
Proof. intros w r w' Hrun. unfold reads in Hrun. destruct (next_moment _). by injection Hrun as <- <-. Qed.
Lemma same_disk_on_trees {A} (m : GitAct A) e : same_disk (on_trees m e).
Proof. intros w r w' Hrun. unfold on_trees in Hrun. destruct (m _). by injection Hrun as <- <-. Qed.
Lemma same_disk_now : same_disk asks_now.
Proof. intros w r w' Hrun. unfold asks_now, ask in Hrun. destruct (sv_now _). by injection Hrun as <- <-. Qed.
Lemma same_disk_try {A} (m : Act World A) : same_disk m → same_disk (act_try m).
Proof.
  intros Hm w r w' Hrun. unfold act_try in Hrun. destruct (m w) as [o w1] eqn:Ho.
  injection Hrun as <- <-. by eapply Hm.
Qed.

Lemma reads_Ok {A} (f : TurnDisk → result A LocalWtsError) (w : World) x w' :
  reads f w = (Ok x, w') → f (tw_disk w) = Ok x ∧ tw_disk w' = tw_disk w.
Proof.
  intros Hrun. split; [|by eapply same_disk_reads]. unfold reads in Hrun.
  destruct (next_moment _) as [m sc]. injection Hrun as Hf <-. by destruct (mo_fate m).
Qed.
Lemma writes_Ok f (w w' : World) : writes f w = (Ok (), w') → tw_disk w' = f (tw_disk w).
Proof.
  unfold writes. destruct (next_moment _) as [m sc]. destruct (mo_fate m); [|done..].
  by intros [= <-].
Qed.

Lemma read_blob_Ok directory hash (w : World) bytes w' :
  read_blob_bytes directory hash w = (Ok bytes, w') →
  td_blobs (tw_disk w) !! (directory, hash) = Some bytes ∧ bytes_sha256 bytes = hash
  ∧ tw_disk w' = tw_disk w.
Proof.
  intros ([] & w1 & Hg & [Hf Hd]%reads_Ok)%act_bind_Ok. injection Hg as _ <-.
  apply rbind_Ok in Hf as (b & Hb%ok_or_Ok & [Hs [= <-]]%ensure_Ok).
  apply orb_false_iff in Hs as [_ Hs]. by apply negb_false_iff, bool_decide_eq_true in Hs.
Qed.

(** ** Captures *)

Lemma from_utf8_bytes bytes s : from_utf8 bytes = Some s → utf8 s = bytes.
Proof.
  unfold from_utf8. destruct (decode_utf8 _ _) as [t|]; [|done]. case_match eqn:Hc; [|done].
  intros [= <-]. apply andb_true_iff in Hc as [Hc _]. by apply bool_decide_eq_true in Hc.
Qed.

(** A captured file has the content of its hash. *)
Definition hashed (file : CapturedWorktreeFile) : Prop :=
  ∀ hash, cw_sha256 file = Some hash →
    ∃ bytes, content_of file = Some bytes ∧ bytes_sha256 bytes = hash.

Definition all_hashed (files : CapturedFiles) : Prop :=
  ∀ path file, files !! path = Some file → hashed file.
Definition all_supported (files : CapturedFiles) : Prop :=
  ∀ path file, files !! path = Some file → cw_unsupported file = false.

Lemma captured_file_ok path dirty found total file n total' :
  captured_file path dirty found total = (file, n, total') →
  hashed file ∧ (n = 0 → cw_unsupported file = false).
Proof.
  unfold captured_file. destruct found as [[[source mode]|]|e]; cbn.
  - case_match; [|by intros [= <- <- <-]].
    destruct (if existsb _ _ then None else from_utf8 _) as [text|] eqn:Ht;
      intros [= <- <- <-]; (split; [|done]); intros hash [= <-]; cbn; eexists; (split; [done|]).
    + by destruct (existsb _ _); [|apply from_utf8_bytes in Ht as ->].
    + done.
  - by intros [= <- <- <-].
  - by intros [= <- <- <-].
Qed.

Definition sound_capture (state : CapturedFiles * N) : Prop :=
  all_hashed state.1 ∧ (state.2 = 0 → all_supported state.1).

Lemma capture_files_sound root dirty paths files omitted total s files' omitted' total' s' :
  capture_files root dirty (files, omitted, total) paths s = (Ok (files', omitted', total'), s') →
  sound_capture (files, omitted) → sound_capture (files', omitted').
Proof.
  revert files omitted total s. induction paths as [|path paths IH]; intros files omitted total s; cbn.
  { by intros [= <- <- <- <-]. }
  case_match.
  { intros Hrun [Hh Hs]. apply IH in Hrun; [done|]. split; [done|]. cbn. lia. }
  destruct (look _ s) as [found s1]. destruct (captured_file _ _ _ _) as [[file n] t] eqn:Hf.
  apply captured_file_ok in Hf as [Hfh Hfs]. intros Hrun [Hh Hs]. apply IH in Hrun; [done|].
  split; cbn in *.
  - by intros p f [[<- <-]|[_ Hp]]%lookup_insert_Some; [|eapply Hh].
  - intros Hz p f [[<- <-]|[_ Hp]]%lookup_insert_Some; [apply Hfs; lia|].
    eapply Hs; [lia|done].
Qed.

Lemma capture_sound target (w : World) capture w' :
  capture_checkpoint target w = (Ok capture, w') →
  sound_capture (wt_files capture, wt_omitted_file_count capture) ∧ tw_disk w' = tw_disk w.
Proof.
  intros Hrun. split; [|by eapply same_disk_on_trees]. unfold capture_checkpoint, on_trees in Hrun.
  destruct (capture_worktree_checkpoint target (tw_scene w)) as [[c|e] sc] eqn:Hc; [|done].
  injection Hrun as -> _. revert Hc. unfold capture_worktree_checkpoint.
  unfold git_bind at 1. destruct (look _ (tw_scene w)) as [[[[[head branch] index] listed]|] s1]; [|done].
  unfold git_bind at 1. destruct (look _ s1) as [[dirty|] s2]; [|done].
  unfold git_bind at 1. destruct (capture_files _ _ _ _ s2) as [[[[files omitted] total]|] s3] eqn:Hf; [|done].
  unfold git_bind. destruct (still_same _ _ s3) as [[same|] s4]; [|done].
  destruct (if same then _ else _) as [stable s5]. intros [= <- _]. cbn.
  (* what the limit left out is counted already *)
  revert Hf. generalize (N.of_nat (length (sort_by str_cmp (elements listed)) - MAX_CHECKPOINT_FILES)).
  intros n Hf. eapply capture_files_sound; [exact Hf|].
  split; [|intros _]; intros p f Hp; cbn in Hp; by rewrite lookup_empty in Hp.
Qed.

(** ** Snapshots *)

(** Every snapshot of the files is on disk. *)
Definition saved (d : TurnDisk) (directory : str) (files : CapturedFiles) : Prop :=
  ∀ path file hash, files !! path = Some file → cw_sha256 file = Some hash →
    ∃ bytes, td_blobs d !! (directory, hash) = Some bytes ∧ bytes_sha256 bytes = hash.

(** Snapshots are only added. *)
Definition more_blobs (d d' : TurnDisk) : Prop :=
  td_records d' = td_records d ∧ td_blobs d ⊆ td_blobs d'.

#[local] Instance more_blobs_preorder : PreOrder more_blobs.
Proof.
  split; [by intros d; split|]. intros a b c [? ?] [? ?]. split; [congruence|by etrans].
Qed.

Lemma saved_more d d' directory files : more_blobs d d' → saved d directory files → saved d' directory files.
Proof.
  intros [_ Hb] Hs path file hash Hp Hh. destruct (Hs _ _ _ Hp Hh) as (bytes & Hd & He).
  exists bytes. split; [by eapply lookup_weaken|done].
Qed.

(** What a comparison of versions sees of a file. *)
Definition version (file : CapturedWorktreeFile) : option str * option N * bool * bool * bool :=
  (cw_sha256 file, cw_mode file, cw_unsupported file, cw_is_binary file, cw_pre_existing_change file).

Lemma version_without file : version (without_content file) = version file.
Proof. done. Qed.

Lemma persist_file_Ok directory files path (w : World) files' w' :
  persist_file directory files path w = (Ok files', w') →
  (∀ file, files !! path = Some file → hashed file) →
  more_blobs (tw_disk w) (tw_disk w')
  ∧ (∀ p, p ≠ path → files' !! p = files !! p)
  ∧ version <$> files' !! path = version <$> files !! path
  ∧ ∀ file hash, files' !! path = Some file → cw_sha256 file = Some hash →
      ∃ bytes, td_blobs (tw_disk w') !! (directory, hash) = Some bytes ∧ bytes_sha256 bytes = hash.
Proof.
  unfold persist_file. intros Hrun Hh. destruct (files !! path) as [file|] eqn:Hp.
  2: { injection Hrun as <- <-. rewrite Hp. split_and!; try done. }
  destruct (content_of file) as [content|] eqn:Hc.
  2: { injection Hrun as <- <-. rewrite Hp. split_and!; try done.
       intros f hash [= <-] Hs. destruct (Hh _ eq_refl _ Hs) as (b & Hb & _). congruence. }
  apply act_bind_Ok in Hrun as (hash & w1 & [= Hs <-] & Hrun). apply ok_or_Ok in Hs.
  destruct (Hh _ eq_refl _ Hs) as (b & Hb & Hhash). assert (b = content) as -> by congruence.
  apply act_bind_Ok in Hrun as (there & w2 & [[= <-] Hd]%reads_Ok & Hrun).
  apply act_bind_Ok in Hrun as ([] & w3 & Hstore & Hrun). injection Hrun as <- <-.
  assert (more_blobs (tw_disk w) (tw_disk w3)
          ∧ td_blobs (tw_disk w3) !! (directory, hash) = Some content) as [Hmore Hblob].
  { case_bool_decide as Hthere.
    - apply act_bind_Ok in Hstore as (bytes & w4 & (Hblob & _ & Hd')%read_blob_Ok & Hg).
      injection Hg as Hg <-. case_bool_decide as Heq; [subst bytes|done].
      rewrite Hd', Hd. rewrite Hd in Hblob. by split.
    - apply writes_Ok in Hstore. rewrite Hstore, Hd. split; [split; [done|]|by apply lookup_insert_eq].
      apply insert_subseteq. by apply eq_None_not_Some. }
  split_and!; [done|by intros p Hne; apply lookup_insert_ne| |].
  - by rewrite lookup_insert_eq.
  - rewrite lookup_insert_eq. intros f h [= <-] Hf. cbn in Hf. exists content. split; congruence.
Qed.

Lemma persist_fold_Ok directory paths files (w : World) files' w' :
  act_fold (persist_file directory) files paths w = (Ok files', w') →
  NoDup paths → (∀ path file, path ∈ paths → files !! path = Some file → hashed file) →
  more_blobs (tw_disk w) (tw_disk w')
  ∧ (∀ p, version <$> files' !! p = version <$> files !! p)
  ∧ ∀ path file hash, path ∈ paths → files' !! path = Some file → cw_sha256 file = Some hash →
      ∃ bytes, td_blobs (tw_disk w') !! (directory, hash) = Some bytes ∧ bytes_sha256 bytes = hash.
Proof.
  revert files w. induction paths as [|path paths IH]; intros files w Hrun Hnd Hh.
  { injection Hrun as <- <-. split_and!; try done. by intros ? ? ? ?%elem_of_nil. }
  apply NoDup_cons in Hnd as [Hnin Hnd]. cbn in Hrun.
  apply act_bind_Ok in Hrun as (files1 & w1 & Hone & Hrun).
  apply persist_file_Ok in Hone as (Hm1 & Hother & Hver & Hsaved).
  2: { intros file. apply Hh. by left. }
  apply IH in Hrun as (Hm2 & Hver2 & Hsaved2); [|done|].
  2: { intros p file Hp. rewrite Hother by (by intros ->). apply Hh. by right. }
  split_and!.
  - by etrans.
  - intros p. rewrite Hver2. destruct (decide (p = path)) as [->|Hne]; [done|by rewrite Hother].
  - intros p file hash [->|Hp]%elem_of_cons Hf Hs; [|by eapply Hsaved2].
    specialize (Hver2 path). rewrite Hf in Hver2. symmetry in Hver2.
    apply fmap_Some in Hver2 as (file1 & Hf1 & Hv). injection Hv as Hsha _ _ _ _.
    destruct (Hsaved file1 hash Hf1) as (bytes & Hb & He); [congruence|].
    exists bytes. split; [|done]. destruct Hm2 as [_ Hsub]. by eapply lookup_weaken.
Qed.

Definition paths_of (files : CapturedFiles) : list str := sort_by str_cmp (elements (dom files)).

Lemma elem_of_paths files path : path ∈ paths_of files ↔ is_Some (files !! path).
Proof. unfold paths_of. by rewrite elem_of_sort_by, elem_of_elements, elem_of_dom. Qed.

Lemma version_supported f f' : version f = version f' → cw_unsupported f = cw_unsupported f'.
Proof. by intros [= ]. Qed.

Lemma persist_capture_Ok directory capture (w : World) point capture' w' :
  persist_capture directory capture w = (Ok (point, capture'), w') →
  sound_capture (wt_files capture, wt_omitted_file_count capture) →
  more_blobs (tw_disk w) (tw_disk w')
  ∧ saved (tw_disk w') directory (wt_files capture')
  ∧ (wt_omitted_file_count capture' = 0 → all_supported (wt_files capture')).
Proof.
  intros Hrun [Hh Hs].
  apply act_bind_Ok in Hrun as (files & w1 & Hfold & Hrun).
  apply act_bind_Ok in Hrun as (id & w2 & Hid & Hrun).
  assert (tw_disk w2 = tw_disk w1) as Hd2.
  { unfold ask in Hid. destruct (sv_fresh _). by injection Hid as <- <-. }
  apply act_bind_Ok in Hrun as (now & w3 & Hnow%same_disk_now & Hrun).
  injection Hrun as <- <- <-. rewrite Hnow, Hd2. cbn.
  apply persist_fold_Ok in Hfold as (Hm & Hver & Hsaved).
  - split_and!; [done| |].
    + intros path file hash Hp. apply (Hsaved path); [|done]. apply elem_of_paths.
      specialize (Hver path). rewrite Hp in Hver. symmetry in Hver.
      apply fmap_Some in Hver as (f & Hf & _). by eexists.
    + intros Hz path file Hp. specialize (Hver path). rewrite Hp in Hver. symmetry in Hver.
      apply fmap_Some in Hver as (f & Hf & Hv). rewrite (version_supported _ _ Hv).
      by eapply (Hs Hz).
  - rewrite (sort_by_perm str_cmp). apply NoDup_elements.
  - intros path file _ Hp. exact (Hh path file Hp).
Qed.

(** ** What a turn changed *)

Definition path_files (before after : CapturedFiles) (path : str) : list AgentTurnChangedFile :=
  let old := before !! path in
  let new := after !! path in
  if not_comparable old new || maybe_left_out before after old new || unchanged old new then []
  else [changed_file path old new].

Definition path_omitted (before after : CapturedFiles) (path : str) : N :=
  let old := before !! path in
  let new := after !! path in
  if negb (not_comparable old new) && maybe_left_out before after old new then 1 else 0.

Lemma one_path_Ok directory before after c path (w : World) c' w' :
  one_path directory before after c path w = (Ok c', w') →
  tw_disk w' = tw_disk w ∧ ch_files c' = ch_files c ++ path_files before after path
  ∧ ch_omitted c' = ch_omitted c + path_omitted before after path.
Proof.
  unfold one_path, path_files, path_omitted. intros Hrun.
  destruct (not_comparable _ _); [injection Hrun as <- <-; cbn; by rewrite app_nil_r, N.add_0_r|].
  destruct (maybe_left_out _ _ _ _); [injection Hrun as <- <-; cbn; by rewrite app_nil_r|].
  destruct (unchanged _ _); [injection Hrun as <- <-; cbn; by rewrite app_nil_r, N.add_0_r|].
  cbn [orb negb andb]. rewrite N.add_0_r.
  destruct (tf_detail _).
  - by injection Hrun as <- <-.
  - apply act_bind_Ok in Hrun as (hunks & w1 & Hhunks & Hrun). injection Hrun as <- <-.
    by apply same_disk_reads in Hhunks.
Qed.

Lemma one_path_fold directory before after paths c (w : World) c' w' :
  act_fold (one_path directory before after) c paths w = (Ok c', w') →
  tw_disk w' = tw_disk w ∧ ch_files c' = ch_files c ++ (paths ≫= path_files before after)
  ∧ ch_omitted c ≤ ch_omitted c'
  ∧ (ch_omitted c' = 0 → Forall (λ path, path_omitted before after path = 0) paths).
Proof.
  revert c w. induction paths as [|path paths IH]; intros c w Hrun.
  { injection Hrun as <- <-. cbn. rewrite app_nil_r. split_and!; try done. }
  cbn in Hrun. apply act_bind_Ok in Hrun as (c1 & w1 & (Hd1 & Hf1 & Ho1)%one_path_Ok & Hrun).
  apply IH in Hrun as (Hd & Hf & Hle & Hall). split_and!.
  - congruence.
  - by rewrite Hf, Hf1, <- app_assoc.
  - lia.
  - intros Hz. constructor; [lia|by apply Hall].
Qed.

(** The files at which two captures differ, in the order of their paths. *)
Definition differing (before after : CapturedFiles) : list AgentTurnChangedFile :=
  (λ path, changed_file path (before !! path) (after !! path)) <$>
    filter (λ path, unchanged (before !! path) (after !! path) = false)
      (sort_by str_cmp (elements (dom before ∪ dom after))).

Lemma path_files_supported before after path :
  all_supported before → all_supported after → path_omitted before after path = 0 →
  path_files before after path =
    if unchanged (before !! path) (after !! path) then []
    else [changed_file path (before !! path) (after !! path)].
Proof.
  unfold path_omitted, path_files. intros Hb Ha Ho.
  assert (not_comparable (before !! path) (after !! path) = false) as Hn.
  { unfold not_comparable. destruct (before !! path) as [f|] eqn:Hf; cbn; [rewrite (Hb _ _ Hf)|];
      (destruct (after !! path) as [g|] eqn:Hg; cbn; [by rewrite (Ha _ _ Hg)|done]). }
  rewrite Hn in *. cbn [orb negb andb] in *. by destruct (maybe_left_out _ _ _ _).
Qed.

Lemma build_changes_Ok directory receipt before after (w : World) receipt' w' :
  build_changes directory receipt before after w = (Ok receipt', w') →
  tc_files receipt = [] →
  (wt_omitted_file_count before = 0 → all_supported (wt_files before)) →
  (wt_omitted_file_count after = 0 → all_supported (wt_files after)) →
  tw_disk w' = tw_disk w
  ∧ (tc_state receipt' = TurnReady → tc_files receipt' = differing (wt_files before) (wt_files after)).
Proof.
  intros Hrun Hnone Hb Ha. apply act_bind_Ok in Hrun as (c & w1 & Hfold & Hrun).
  injection Hrun as <- <-. apply one_path_fold in Hfold as (Hd & Hf & Hle & Hall).
  split; [done|]. cbn [ch_files ch_omitted app] in Hf, Hle. rewrite Hnone in Hf.
  cbn [tc_state with_changes tc_files]. intros Hready. destruct (ch_omitted c =? 0) eqn:Hz; [|done]. apply N.eqb_eq in Hz. specialize (Hall Hz).
  rewrite take_ge in Hf, Hall by lia. rewrite Hf. unfold differing. cbn [app].
  assert (all_supported (wt_files before)) as Hsb by (apply Hb; lia).
  assert (all_supported (wt_files after)) as Hsa by (apply Ha; lia).
  clear Hf Hle. induction Hall as [|path paths Ho _ IH]; [done|]. cbn [mbind list_bind].
  rewrite filter_cons, path_files_supported by done.
  destruct (unchanged (wt_files before !! path) (wt_files after !! path)) eqn:Hu;
    [rewrite decide_False by done|rewrite decide_True by done]; cbn; by rewrite <- IH.
Qed.

(** ** Before and after *)

(** What is known of a capture in a record. *)
Definition kept_capture (d : TurnDisk) (directory : str) (capture : option WorktreeCheckpointCapture) :
    Prop :=
  ∀ c, capture = Some c → saved d directory (wt_files c)
       ∧ (wt_omitted_file_count c = 0 → all_supported (wt_files c)).

Record begun (d : TurnDisk) (session_id : Uuid) (stored : StoredTurn) : Prop := {
  bg_record : td_records d !! session_id = Some stored;
  bg_files : tc_files (st_receipt stored) = [];
  bg_open : tc_completed_at_unix_ms (st_receipt stored) = None;
  bg_before : kept_capture d (sv_turn_dir session_id) (st_before stored);
  bg_after : st_after stored = None
}.

Lemma kept_more d d' directory capture :
  more_blobs d d' → kept_capture d directory capture → kept_capture d' directory capture.
Proof. intros Hm Hk c Hc. destruct (Hk c Hc). split; [by eapply saved_more|done]. Qed.

Lemma save_record_Ok session_id stored (w w' : World) :
  save_record session_id stored w = (Ok (), w') → tw_disk w' = with_record (tw_disk w) session_id stored.
Proof. intros ([] & w1 & Hg & Hw%writes_Ok)%act_bind_Ok. by injection Hg as _ <-. Qed.

Lemma unavailable_Ok c m receipt :
  unavailable c m = Ok receipt →
  am_session_id m = Some (tc_session_id receipt) ∧ tc_files receipt = []
  ∧ tc_completed_at_unix_ms receipt = None.
Proof.
  unfold unavailable. intros (id & _ & (s & Hs%ok_or_Ok & (digest & _ & [= <-])%rbind_Ok)%rbind_Ok)%rbind_Ok.
  done.
Qed.

Lemma begin_Ok c session_id target (w w' : World) :
  begin_turn_capture c session_id target w = (Ok (), w') →
  ∃ stored, begun (tw_disk w') session_id stored.
Proof.
  intros (m & w1 & [= Hm <-] & Hrun)%act_bind_Ok.
  apply act_bind_Ok in Hrun as (receipt & w2 & [= Hr <-] & Hrun).
  apply unavailable_Ok in Hr as (Hs & Hf & Hc).
  assert (tc_session_id receipt = session_id) as Hid.
  { apply ok_or_Ok, find_message_Some in Hm as [_ Hm]. apply andb_true_iff in Hm as [_ Hm].
    apply bool_decide_eq_true in Hm. congruence. }
  apply act_bind_Ok in Hrun as ([] & w3 & [_ Hd3]%reads_Ok & Hrun).
  apply act_bind_Ok in Hrun as ([] & w4 & [_ Hd4]%reads_Ok & Hrun).
  apply act_bind_Ok in Hrun as ([] & w5 & _ & Hrun).
  apply act_bind_Ok in Hrun as (identity & w6 & _ & Hrun).
  apply act_bind_Ok in Hrun as (captured & w7 & Hcap & Hrun).
  apply act_bind_Ok in Hrun as (kept & w8 & Hkept & Hsave%save_record_Ok).
  rewrite Hid in *. eexists. rewrite Hsave. clear Hsave.
  assert (tc_files kept.1 = [] ∧ tc_completed_at_unix_ms kept.1 = None
          ∧ kept_capture (tw_disk w8) (sv_turn_dir session_id) kept.2) as (Hkf & Hkc & Hk).
  { unfold act_try in Hcap. destruct (capture_checkpoint target w6) as [[capture|e] w7'] eqn:Hc7;
      injection Hcap as <- <-.
    - apply capture_sound in Hc7 as [Hsound _].
      apply act_bind_Ok in Hkept as ([point saved_] & w9 & Hp & Hkept). injection Hkept as <- <-.
      apply persist_capture_Ok in Hp as (_ & Hsv & Hsup); [|done].
      split_and!; [done|done|]. by intros c0 [= <-].
    - injection Hkept as <- <-. by split_and!. }
  split; [apply lookup_insert_eq|done..| |done]. exact Hk.
Qed.

(** The last save of [finish_turn_capture_inner]. *)
Lemma finish_inner_Ok session_id recovered (w w' : World) stored :
  finish_turn_capture_inner session_id recovered w = (Ok (), w') →
  begun (tw_disk w) session_id stored →
  ∃ stored', td_records (tw_disk w') !! session_id = Some stored'
    ∧ st_before stored' = st_before stored
    ∧ kept_capture (tw_disk w') (sv_turn_dir session_id) (st_before stored')
    ∧ kept_capture (tw_disk w') (sv_turn_dir session_id) (st_after stored')
    ∧ (tc_state (st_receipt stored') = TurnReady →
       ∃ before after, st_before stored' = Some before ∧ st_after stored' = Some after
         ∧ tc_files (st_receipt stored') = differing (wt_files before) (wt_files after)).
Proof.
  intros Hrun [Hrec Hfiles Hopen Hbefore Hafter].
  apply act_bind_Ok in Hrun as (there & w1 & [[= <-] Hd1]%reads_Ok & Hrun).
  rewrite Hrec, bool_decide_eq_true_2 in Hrun by done. cbn [negb] in Hrun.
  apply act_bind_Ok in Hrun as (s & w2 & [Hs%ok_or_Ok Hd2]%reads_Ok & Hrun).
  assert (s = stored) as -> by congruence.
  rewrite Hopen, bool_decide_eq_false_2 in Hrun by (by intros []).
  apply act_bind_Ok in Hrun as (now & w3 & Hd3%same_disk_now & Hrun).
  apply act_bind_Ok in Hrun as (identity & w4 & Hid & Hrun).
  apply (same_disk_try _ (same_disk_on_trees _ _)) in Hid as Hd4.
  apply act_bind_Ok in Hrun as (captured & w5 & Hcap & Hrun).
  assert (tw_disk w5 = tw_disk w4 ∧ ∀ c, captured = Ok c →
            sound_capture (wt_files c, wt_omitted_file_count c)) as [Hd5 Hsound].
  { case_bool_decide.
    - split; [by eapply (same_disk_try _ (same_disk_on_trees _ _))|]. intros c ->.
      unfold act_try in Hcap. destruct (capture_checkpoint _ w4) as [o w5'] eqn:Hc5.
      injection Hcap as -> <-. by apply capture_sound in Hc5 as [Hc5 _].
    - by injection Hcap as <- <-. }
  apply act_bind_Ok in Hrun as (kept & w6 & Hkept & Hrun).
  assert (more_blobs (tw_disk w5) (tw_disk w6) ∧ tc_files kept.1 = []
          ∧ kept_capture (tw_disk w6) (sv_turn_dir session_id) kept.2) as (Hm & Hkf & Hk).
  { destruct captured as [capture|e].
    - apply act_bind_Ok in Hkept as ([point saved_] & w7 & Hp & Hkept). injection Hkept as <- <-.
      apply persist_capture_Ok in Hp as (Hm & Hsv & Hsup); [|by apply Hsound].
      split_and!; [done|done|]. by intros c [= <-].
    - injection Hkept as <- <-. split_and!; [done|done|]. cbn. by rewrite Hafter. }
  assert (tw_disk w5 = tw_disk w) as Hd by congruence. rewrite Hd in Hm.
  apply (kept_more _ _ _ _ Hm) in Hbefore.
  apply act_bind_Ok in Hrun as (receipt & w7 & Hbuild & Hsave%save_record_Ok).
  assert (tw_disk w7 = tw_disk w6 ∧ (tc_state receipt = TurnReady →
       ∃ before after, st_before stored = Some before ∧ kept.2 = Some after
         ∧ tc_files receipt = differing (wt_files before) (wt_files after))) as [Hd7 Hready].
  { destruct (st_before stored) as [before|]; [|by injection Hbuild as <- <-].
    destruct kept.2 as [after|]; [|by injection Hbuild as <- <-].
    apply build_changes_Ok in Hbuild as [Hd7 Hready];
      [|done|by apply Hbefore|by apply Hk].
    split; [done|]. intros Hr. exists before, after. split_and!; auto. }
  exists (with_receipt stored receipt kept.2). rewrite Hsave, Hd7. split_and!; try done.
  apply lookup_insert_eq.
Qed.
End proofs.

(** C33: A turn whose captures were both taken and saved, and whose record is ready: its receipt lists
    exactly the paths at which content or mode differ, in order and with both hashes; and the
    content of every file of both captures is among its snapshots.  What happens in between, and
    what others edit at any time, is arbitrary. *)
Theorem ready_receipt_is_exact {W : Type} `{WorkServices W} `{TurnServices W} `{GitHost}
    `{CaptureDigests} `{CaptureJson} c session_id target recovered (w0 w1 w2 w3 : TurnWorld W) stored :
  begin_turn_capture c session_id target w0 = (Ok (), w1) → tw_disk w2 = tw_disk w1 →
  finish_turn_capture session_id recovered w2 = (Ok (), w3) →
  td_records (tw_disk w3) !! session_id = Some stored → tc_state (st_receipt stored) = TurnReady →
  ∃ before after, st_before stored = Some before ∧ st_after stored = Some after
    ∧ tc_files (st_receipt stored) = differing (wt_files before) (wt_files after)
    ∧ saved (tw_disk w3) (sv_turn_dir session_id) (wt_files before)
    ∧ saved (tw_disk w3) (sv_turn_dir session_id) (wt_files after).
Proof.
  intros Hbegin Hd Hfinish Hrec Hready. apply begin_Ok in Hbegin as [stored0 Hbegun].
  rewrite <- Hd in Hbegun.
  apply act_bind_Ok in Hfinish as (o & w4 & Hinner & Hfinish). unfold act_try in Hinner.
  destruct (finish_turn_capture_inner session_id recovered w2) as [[[]|e] w5] eqn:Hrun;
    injection Hinner as <- <-.
  - injection Hfinish as <-. eapply finish_inner_Ok in Hrun; [|done].
    destruct Hrun as (stored' & Hr & _ & Hb & Ha & Hx). assert (stored' = stored) as -> by congruence.
    destruct (Hx Hready) as (before & after & Hbe & Haf & Hf).
    exists before, after. split_and!; [done..|by apply Hb|by apply Ha].
  - apply act_bind_Ok in Hfinish as (o & w6 & _ & Hfinish). destruct o; [|done].
    apply act_bind_Ok in Hfinish as (? & ? & _ & Hfinish).
    by apply act_bind_Ok in Hfinish as (? & ? & _ & Hfinish).
Qed.
