(* ===== verification/TurnIntegrationProofs.v ===== *)
(** * Checks and integrations: what a proof means, and what is overwritten *)

From S2P Require Import Prelude Order Text StoreBase Sessions Conversations Captures.
From S2P Require Import WorkServices WorkSets WorkSetRequests WorkSetScheduler WorkSetTriples Worktrees TurnWorld.
From S2P Require Import TurnCaptureProofs TurnChecks WorktreeProofs TurnRestoreRules TurnIntegration.

Local Open Scope N_scope.

(** ** The proof of a check *)

Definition runs_of_check (check : VerificationCheck) (records : list StoredCheckRun) :
    list StoredCheckRun :=
  filter (λ r, cr_check_id (sr_run r) = vk_id check) records.

(** No run of [l] started later. *)
Definition started_last (l : list StoredCheckRun) (r : StoredCheckRun) : Prop :=
  r ∈ l ∧ ∀ r', r' ∈ l → (cr_started_at_unix_ms (sr_run r') ≤ cr_started_at_unix_ms (sr_run r))%Z.

(** The run ended well, on this checkpoint, with this plan and this very check. *)
Definition passed_run (after_checkpoint_id : Uuid) (revision : N) (check : VerificationCheck)
    (r : StoredCheckRun) : Prop :=
  cr_status (sr_run r) = CheckPassed ∧ cr_exit_code (sr_run r) = Some 0%Z
  ∧ is_Some (cr_completed_at_unix_ms (sr_run r))
  ∧ rr_expected_after_checkpoint_id (sr_request r) = after_checkpoint_id
  ∧ rr_expected_plan_revision (sr_request r) = revision ∧ sr_check r = check.

(** The check has runs, and those that started last passed. *)
Definition latest_passed (after_checkpoint_id : Uuid) (revision : N) (records : list StoredCheckRun)
    (check : VerificationCheck) : Prop :=
  runs_of_check check records ≠ [] ∧
  ∀ r, started_last (runs_of_check check records) r →
    passed_run after_checkpoint_id revision check r.

Lemma run_passed_spec after revision check r :
  run_passed after revision check r = true ↔ passed_run after revision check r.
Proof.
  unfold run_passed, passed_run. rewrite !andb_true_iff, !bool_decide_eq_true, !N.eqb_eq.
  by rewrite !(assoc and).
Qed.

Lemma run_cmp_started a b :
  run_cmp a b ≠ Gt → (cr_started_at_unix_ms (sr_run a) ≤ cr_started_at_unix_ms (sr_run b))%Z.
Proof. unfold run_cmp. destruct (_ ?= _)%Z eqn:Hz; rewrite ?Z.compare_eq_iff, ?Z.compare_lt_iff in Hz; [lia..|done]. Qed.

Lemma run_cmp_gt a b :
  run_cmp a b = Gt → (cr_started_at_unix_ms (sr_run b) ≤ cr_started_at_unix_ms (sr_run a))%Z.
Proof. unfold run_cmp. destruct (_ ?= _)%Z eqn:Hz; rewrite ?Z.compare_eq_iff, ?Z.compare_gt_iff in Hz; [lia|done|lia]. Qed.

Lemma latest_run_spec l :
  match latest_run l with Some r => started_last l r | None => l = [] end.
Proof.
  unfold latest_run.
  assert (∀ seen best, match best with Some r => started_last seen r | None => seen = [] end →
    match foldl (λ best r, match best with
                           | Some b => match run_cmp b r with Gt => Some b | _ => Some r end
                           | None => Some r
                           end) best l with
    | Some r => started_last (seen ++ l) r
    | None => seen ++ l = []
    end) as Hfold.
  { induction l as [|r l IH]; intros seen best Hb; cbn [foldl].
    { by rewrite app_nil_r. }
    rewrite cons_middle, (assoc_L (++)). apply IH. destruct best as [b|].
    - destruct Hb as [Hin Hall]. destruct (run_cmp b r) eqn:Hc.
      1,2: split; [set_solver|]; intros r' [Hr'|Hr'%list_elem_of_singleton]%elem_of_app; [|by subst];
        etrans; [by apply Hall|]; apply run_cmp_started; congruence.
      split; [set_solver|]. intros r' [Hr'|Hr'%list_elem_of_singleton]%elem_of_app; [by apply Hall|].
      subst. by apply run_cmp_gt.
    - subst seen. cbn. split; [by left|]. by intros r' ->%list_elem_of_singleton. }
  by apply (Hfold [] None).
Qed.

Lemma check_proof_decides after revision records check :
  is_ok (check_proof after revision records check) = true ↔ latest_passed after revision records check.
Proof.
  unfold check_proof, latest_passed. fold (runs_of_check check records).
  pose proof (latest_run_spec (runs_of_check check records)) as Hl.
  destruct (latest_run _) as [latest|]; cbn; [|by split; [|intros []]].
  assert (started_last (runs_of_check check records) latest) as Hlast by done.
  destruct Hl as [Hin Hall].
  destruct (existsb _ _) eqn:He; cbn.
  - split; [done|]. intros [_ Hp]. exfalso.
    apply existsb_spec in He as (r & Hr & [Hs%bool_decide_eq_true Hf]%andb_prop).
    rewrite (proj2 (run_passed_spec _ _ _ _)) in Hf; [done|]. apply Hp. split; [done|]. rewrite Hs. exact Hall.
  - assert (∀ r, started_last (runs_of_check check records) r →
      passed_run after revision check r) as Hpass.
    { intros r [Hr Hmax]. apply run_passed_spec. destruct (run_passed after revision check r) eqn:Hp; [done|].
      rewrite existsb_false in He. rewrite <- (He r Hr), Hp, bool_decide_eq_true_2; [done|].
      apply Z.le_antisymm; [by apply Hall|by apply Hmax]. }
    destruct (Hpass _ Hlast) as (_ & _ & [t Ht] & _). rewrite Ht. cbn. split; [|done]. intros _. split; [|done]. intros Hn. rewrite Hn in Hin.
    by apply elem_of_nil in Hin.
Qed.

Lemma check_proofs_decides after revision records ids checks :
  is_ok (check_proofs after revision records ids checks) = true ↔
  (NoDup (vk_id <$> checks) ∧ ∀ check, check ∈ checks → vk_id check ∉ ids)
  ∧ ∀ check, check ∈ checks → latest_passed after revision records check.
Proof.
  revert ids. induction checks as [|check checks IH]; intros ids; cbn [check_proofs].
  { cbn. split; [|done]. intros _. split; [split; [constructor|]|]; by intros c Hc%elem_of_nil. }
  setoid_rewrite elem_of_cons. rewrite fmap_cons, NoDup_cons, list_elem_of_fmap.
  pose proof (check_proof_decides after revision records check) as Hc.
  specialize (IH (vk_id check :: ids)). setoid_rewrite elem_of_cons in IH.
  destruct (decide (vk_id check ∈ ids)) as [Hi|Hi].
  { rewrite bool_decide_eq_true_2 by done. cbn. split; [done|]. intros [[_ Hn] _].
    by destruct (Hn check (or_introl eq_refl)). }
  rewrite bool_decide_eq_false_2 by done. cbn [guard_err].
  destruct (check_proof after revision records check) as [proof|e]; cbn in *.
  2: { split; [done|]. intros [_ Hp]. by apply Hc, Hp; left. }
  transitivity (is_ok (check_proofs after revision records (vk_id check :: ids) checks) = true).
  { by destruct (check_proofs _ _ _ _ _). }
  rewrite IH. destruct Hc as [Hc _]. specialize (Hc eq_refl). naive_solver.
Qed.

(** The saved runs prove the checks of a candidate exactly when every check has another name and
    every run of it that started last passed on this checkpoint, with this plan and this very
    check. *)
Theorem proof_needs_latest_passes after revision records checks :
  is_ok (check_proofs after revision records [] checks) = true ↔
  NoDup (vk_id <$> checks) ∧ ∀ check, check ∈ checks → latest_passed after revision records check.
Proof.
  rewrite check_proofs_decides. split; [by intros [[Hn _] Hp]|]. intros [Hn Hp].
  split; [split; [done|]|done]. by intros c _ Hc%elem_of_nil.
Qed.

(** ** What an integration writes *)

Inductive IntegrationCall :=
| CallIntegrationPreview (work_set_id task_id : Uuid)
| CallIntegrate (work_set_id task_id : Uuid) (request : IntegrateAgentWorkItemRequest)
| CallIntegrationRecovery (workspace_id : Uuid).

Section proofs.
Context {W : Type} `{WorkServices W} `{TurnServices W} `{GitHost} `{CaptureDigests} `{TurnJson} `{CheckJson}.

Local Abbreviation World := (TurnWorld W).

Definition run_integration_call (call : IntegrationCall) : Act World () :=
  match call with
  | CallIntegrationPreview s t => do! _ := preflight_agent_work_item_integration s t in act_ret ()
  | CallIntegrate s t request => do! _ := integrate_agent_work_item s t request in act_ret ()
  | CallIntegrationRecovery workspace_id => recover_pending_workspace workspace_id
  end.

(** A check of the plan that an integration leaves out. *)
Definition ineligible (target : TrustedTurnCheckTarget) (check : VerificationCheck) : Prop :=
  check_supported target check = false ∨ 32 * 1024 < check_bytes check
  ∨ ∃ out out' : W, ts_canonical (vk_working_directory check) out = (false, out').

(** All eligible checks of a plan that was answered, at least one, have passed on this turn. *)
Definition checked (disk : TurnDisk) (target : TrustedTurnCheckTarget) : Prop :=
  ∃ (out out' : W) revision plan checks after records,
    ts_plan (tc_workspace_id (tt_receipt target)) out = (Ok (revision, plan), out')
    ∧ checks ≠ [] ∧ checks ⊆ plan
    ∧ (∀ check, check ∈ plan → check ∈ checks ∨ ineligible target check)
    ∧ checkpoint_id (tt_receipt target) = Some after
    ∧ stored_runs disk (tt_receipt target) = Ok records
    ∧ ∀ check, check ∈ checks → latest_passed after revision records check.

(** A file that the candidate changed, found as the set started from it, gets the candidate's
    version. *)
Definition candidate_write (item : TrustedAgentWorkItem) (write : FileWrite) : Prop :=
  ∃ files file, changes (ti_baseline item) (ti_result item) = Ok files ∧ file ∈ files
    ∧ fw_root write = tt_target (ti_source item)
    ∧ components (if_file_path file) = Ok (fw_path write)
    ∧ found_as (file_state (wt_files (ti_baseline item) !! if_file_path file)).1
        (file_state (wt_files (ti_baseline item) !! if_file_path file)).2 (fw_old write)
    ∧ version_of (file_state (wt_files (ti_result item) !! if_file_path file)) (fw_new write).

Definition integration_write (call : IntegrationCall) (disk : TurnDisk) (write : FileWrite) : Prop :=
  match call with
  | CallIntegrate work_set_id task_id _ =>
      ∃ (out out' : W) item, ts_candidate work_set_id task_id out = (Ok item, out')
        ∧ candidate_write item write ∧ checked disk (ti_candidate item)
  | _ => False
  end.

(** ** Calls that only read *)

Section reading.
Context (inv : TurnDisk → list FileWrite → Prop).

Local Abbreviation keeps := (kept (W:=W) inv).

Lemma keeps_still_matches target : keeps (still_matches target) (λ _, True).
Proof. unfold still_matches. keep. apply kept_matches. Qed.

Lemma keeps_effect_digest item files proof : keeps (effect_digest item files proof) (λ _, True).
Proof. unfold effect_digest. keep. Qed.

Lemma keeps_leases item journal : keeps (operation_leases item journal) (λ _, True).
Proof.
  unfold operation_leases, lease_workspace, read_marker, workspace_operation_lease. keep.
Qed.

Lemma keeps_unreadable l : keeps (some_unreadable l) (λ _, True).
Proof.
  induction l as [|[directory hash] l IH]; cbn [some_unreadable]; keep; [|done].
  eapply kept_any, kept_blob.
Qed.

Lemma keeps_target_changed item resumed expected current :
  keeps (target_changed item resumed expected current) (λ _, True).
Proof. unfold target_changed. keep. apply keeps_still_matches. Qed.

Lemma keeps_read_journal s t : keeps (read_journal s t) (λ _, True).
Proof. unfold read_journal. keep. Qed.

Lemma keeps_journal_for s t request : keeps (journal_for s t request) (λ _, True).
Proof. unfold journal_for. keep; apply keeps_read_journal. Qed.

(** The eligible checks are those of a plan that was answered, without the ineligible ones. *)
Definition eligible_of (target : TrustedTurnCheckTarget) (x : N * list VerificationCheck) : Prop :=
  ∃ (out out' : W) plan,
    ts_plan (tc_workspace_id (tt_receipt target)) out = (Ok (x.1, plan), out')
    ∧ x.2 ⊆ plan ∧ ∀ check, check ∈ plan → check ∈ x.2 ∨ ineligible target check.

Lemma keeps_eligible target check :
  keeps (check_eligible target check) (λ b, b = false → ineligible target check).
Proof.
  unfold check_eligible. destruct (check_supported _ _) eqn:Hs.
  - eapply kept_bind; [apply kept_ask|]. intros b (out & out' & Hb). apply kept_ret.
    intros [->|Hn]%andb_false_iff; [right; right; by exists out, out'|].
    right; left. by apply N.leb_gt.
  - apply kept_ret. by left.
Qed.

Lemma keeps_eligible_checks target : keeps (eligible_checks target) (eligible_of target).
Proof.
  unfold eligible_checks. eapply kept_bind; [apply kept_answer|].
  intros [revision plan] (out & out' & Hplan). apply kept_check. intros _.
  pose (J := λ seen (checks : list VerificationCheck),
    checks ⊆ seen ∧ ∀ check, check ∈ seen → check ∈ checks ∨ ineligible target check).
  apply (kept_bind _ _ _ (J plan)).
  - apply (kept_fold_seen _ J); [split; set_solver|]. intros seen check checks _ [Hsub Hseen].
    eapply kept_bind; [apply keeps_eligible|]. intros ok Hok. apply kept_ret.
    destruct ok; (split; [set_solver|]);
      intros k [Hk| ->%list_elem_of_singleton]%elem_of_app.
    + destruct (Hseen k Hk); [left; set_solver|by right].
    + left. set_solver.
    + by apply Hseen.
    + right. by apply Hok.
  - intros checks [Hsub Hall]. apply kept_check. intros _. apply kept_ret. by exists out, out', plan.
Qed.
End reading.

(** ** Calls that check and write *)

Section kept.
Context (disk : TurnDisk) (start : list FileWrite) (allowed : FileWrite → Prop).

(** Only allowed writes since the start; records and runs as they were. *)
Definition integrated_since (d : TurnDisk) (writes : list FileWrite) : Prop :=
  td_records d = td_records disk ∧ td_runs d = td_runs disk
  ∧ ∃ new, writes = new ++ start ∧ Forall allowed new.

Local Abbreviation keeps := (kept (W:=W) integrated_since).

Lemma same_stored_runs d receipt :
  td_runs d = td_runs disk → stored_runs d receipt = stored_runs disk receipt.
Proof. intros Hr. unfold stored_runs, run_files. by rewrite Hr. Qed.

Lemma keeps_proof target x :
  eligible_of target x → keeps (proof_from_saved_runs (tt_receipt target) x.1 x.2)
                           (λ _, checked disk target).
Proof.
  intros (out & out' & plan & Hplan & Hsub & Hall). unfold proof_from_saved_runs.
  apply kept_check. intros [[Hne _]%orb_false_iff _]%guard_err_Ok%orb_false_iff.
  apply bool_decide_eq_false in Hne.
  eapply kept_bind; [apply (kept_lift _ _ (λ a, checkpoint_id (tt_receipt target) = Some a));
                     by intros a ?%ok_or_Ok|].
  intros after Ha.
  eapply kept_bind; [apply (kept_reads _ _ (λ r, stored_runs disk (tt_receipt target) = Ok r))|].
  { intros d l r (_ & Hr & _) Hx. by rewrite (same_stored_runs _ _ Hr) in Hx. }
  intros records Hrec.
  eapply kept_bind; [apply (kept_lift _ _ (λ proofs, check_proofs after x.1 records [] x.2 = Ok proofs));
                     done|].
  intros proofs Hp. apply kept_ret.
  exists out, out', x.1, plan, x.2, after, records. split_and!; try done.
  by eapply proj2, check_proofs_decides; rewrite Hp.
Qed.

Lemma keeps_check_proof target :
  keeps (integration_check_proof target) (λ _, checked disk target).
Proof.
  unfold integration_check_proof. apply (kept_bind _ _ _ (λ _, True)); [apply kept_matches|].
  intros same _. apply kept_check. intros _.
  eapply kept_bind; [apply keeps_eligible_checks|]. intros [revision checks] Hx.
  apply kept_check. intros _. by apply (keeps_proof target (revision, checks)).
Qed.

Lemma keeps_candidate_proof item :
  keeps (candidate_proof item) (λ x, ∀ proof, x.1 = Some proof → checked disk (ti_candidate item)).
Proof.
  unfold candidate_proof. eapply kept_bind; [apply kept_try, keeps_check_proof|].
  intros [proof|e] Hp; apply kept_ret; [|by destruct e].
  intros _ _. by apply (Hp proof).
Qed.

(** A journal about exactly the files of the candidate. *)
Definition about (item : TrustedAgentWorkItem) (j : IntegrationJournal) : Prop :=
  changes (ti_baseline item) (ti_result item) = Ok (ip_files (ij_preflight j)).

Lemma initial_files item p :
  initial_preflight item = Ok p → changes (ti_baseline item) (ti_result item) = Ok (ip_files p).
Proof.
  intros (a & _ & (b & _ & (files & Hc & [= <-])%rbind_Ok)%rbind_Ok)%rbind_Ok. exact Hc.
Qed.

Lemma keeps_validate item j :
  keeps (validate_journal_identity item j) (λ _, about item j).
Proof.
  unfold validate_journal_identity.
  eapply kept_bind; [apply (kept_lift _ _ (λ p, initial_preflight item = Ok p)); done|].
  intros p Hp%initial_files. apply kept_check. intros Hg%guard_err_Ok.
  apply orb_false_iff in Hg as [_ Hf]. apply negb_false_iff, bool_decide_eq_true in Hf.
  apply (kept_bind _ _ _ (λ _, True)); [apply kept_identity|]. intros identity _.
  apply kept_check. intros _.
  apply (kept_bind _ _ _ (λ _, True)); [apply keeps_effect_digest|]. intros digest _.
  apply kept_lift. intros _ _. unfold about. by rewrite Hf.
Qed.

Lemma expected_about item j current expected j' :
  expected_target item j current = (expected, j') → about item j → about item j'.
Proof.
  intros He. enough (ij_preflight j' = ij_preflight j) as Hj by (by unfold about; rewrite Hj).
  revert He. unfold expected_target. generalize (ip_files (ij_preflight j)). intros files.
  generalize (wt_files (ti_baseline item)). intros base.
  destruct (foldl _ (base, j) files) as [out k] eqn:Hf. intros [= _ <-].
  revert base j Hf. induction files as [|file files IH]; intros base j Hf; cbn -[file_state] in Hf.
  { by injection Hf as _ <-. }
  case_match; [|by eapply IH]. apply IH in Hf. rewrite Hf. by case_match.
Qed.

(** What [current_preflight] promises to [integrate_item]. *)
Definition preview_of (item : TrustedAgentWorkItem)
    (x : AgentWorkItemIntegrationPreflight * option VerifiedTurnChecks * option IntegrationJournal) :
    Prop :=
  (∀ proof, x.1.2 = Some proof → checked disk (ti_candidate item))
  ∧ changes (ti_baseline item) (ti_result item) = Ok (ip_files x.1.1)
  ∧ ∀ j, x.2 = Some j → about item j.

Lemma keeps_current item journal : keeps (current_preflight item journal) (preview_of item).
Proof.
  unfold current_preflight.
  eapply kept_bind; [apply (kept_lift _ _ (λ p, initial_preflight item = Ok p)); done|].
  intros p Hp%initial_files.
  apply (kept_bind _ _ _ (λ _, True)); [apply keeps_unreadable|]. intros unreadable _.
  eapply kept_bind; [apply keeps_candidate_proof|]. intros proof Hproof.
  apply (kept_bind _ _ _ (λ _, True)); [apply kept_capture|]. intros current _.
  apply (kept_bind _ _ _ (λ x, ∀ j, x.2 = Some j → about item j)).
  { destruct journal as [j|]; [|by apply kept_ret].
    eapply kept_bind; [apply keeps_validate|]. intros ? Hj.
    destruct (expected_target item j current) as [expected j'] eqn:He. apply kept_ret.
    intros ? [= <-]. by eapply expected_about. }
  intros [expected j] Hj.
  apply (kept_bind _ _ _ (λ _, True)); [apply keeps_target_changed|]. intros changed _.
  apply (kept_bind _ _ _ (λ _, True)); [apply keeps_still_matches|]. intros candidate _.
  apply (kept_bind _ _ _ (λ _, True)); [apply keeps_effect_digest|]. intros digest _.
  apply kept_ret. split; [done|]. split; [|done]. cbn. by case_match.
Qed.

Lemma keeps_write (f : TurnDisk → TurnDisk) :
  (∀ d, td_records (f d) = td_records d ∧ td_runs (f d) = td_runs d) → keeps (writes f) (λ _, True).
Proof.
  intros Hf. apply kept_writes. intros d l (Hd & Hr & Hl). destruct (Hf d) as [Hf1 Hf2].
  split; [by rewrite Hf1|]. split; [by rewrite Hf2|done].
Qed.

Lemma keeps_save_journal j : keeps (save_journal j) (λ _, True).
Proof. unfold save_journal, nil_ids. keep. by apply keeps_write. Qed.
Lemma keeps_merge_marker marker : keeps (write_marker marker) (λ _, True).
Proof. unfold write_marker. keep. by apply keeps_write. Qed.
Lemma keeps_merge_removed workspace_id : keeps (remove_marker workspace_id) (λ _, True).
Proof. unfold remove_marker. keep. by apply keeps_write. Qed.

Section item.
Context (item : TrustedAgentWorkItem) (ok : ∀ write, candidate_write item write → allowed write).

Lemma keeps_apply_files all paths contents files j :
  changes (ti_baseline item) (ti_result item) = Ok all → files ⊆ all →
  snapshots_of (wt_files (ti_result item)) paths contents → if_file_path <$> files ⊆ paths →
  keeps (apply_files item contents j files) (λ _, True).
Proof.
  intros Hall Hf Hs Hp. revert j.
  induction files as [|file files IH]; intros j; cbn -[file_state]; [by apply kept_ret|].
  assert (∀ j, keeps (apply_files item contents j files) (λ _, True)) as Hrest.
  { apply IH; [intros f Hin; apply Hf; by right|]. intros p Hin. apply Hp. by right. }
  case_match; [apply Hrest|].
  destruct (file_state (wt_files (ti_baseline item) !! if_file_path file)) as [hash mode] eqn:Hstate.
  keep; try apply keeps_save_journal; try apply kept_prepare_parent; try apply Hrest.
  apply kept_restore. intros d l write (Hd & Hr & new & -> & Hnews) Hroot Hpath Hold Hnew.
  split; [done|]. split; [done|]. exists (write :: new). split; [done|].
  constructor; [|done]. apply ok. exists all, file. rewrite Hstate. split_and!; try done.
  { apply Hf. by left. }
  eapply left_version; [done| |done]. apply Hp. by left.
Qed.

Lemma keeps_integration j : about item j → keeps (apply_integration item j) (λ _, True).
Proof.
  intros Hj. unfold apply_integration. apply (kept_bind _ _ _ (λ _, True)); [|intros j1 _].
  - unfold apply_remaining. apply (kept_bind _ _ _ (λ _, True)); [apply kept_capture|].
    intros current _. destruct (expected_target item j current) as [expected j1] eqn:He.
    pose proof (expected_about _ _ _ _ _ He Hj) as Hj1.
    apply (kept_bind _ _ _ (λ _, True)); [keep|]. intros there _.
    destruct (negb there); [by apply kept_ret|].
    eapply kept_bind; [apply kept_contents|]. intros contents Hc. by eapply keeps_apply_files.
  - apply (kept_bind _ _ _ (λ _, True)); [unfold confirm_applied; keep|intros j2 _].
    keep; [apply keeps_save_journal|apply keeps_merge_removed].
Qed.

Lemma keeps_starting p proof request previous :
  changes (ti_baseline item) (ti_result item) = Ok (ip_files p) →
  (∀ j, previous = Some j → about item j) →
  keeps (starting_journal item p proof request previous) (about item).
Proof.
  intros Hp Hj. destruct previous as [j|]; cbn [starting_journal].
  - apply kept_ret. exact (Hj j eq_refl).
  - apply (kept_bind _ _ _ (λ _, True)); [apply kept_identity|]. intros identity _.
    by apply kept_ret.
Qed.
End item.

Lemma keeps_integrate_item item s t request previous :
  (∀ write, candidate_write item write → checked disk (ti_candidate item) → allowed write) →
  keeps (integrate_item s t request item previous) (λ _, True).
Proof.
  intros Hok. unfold integrate_item. apply (kept_bind _ _ _ (λ _, True)); [apply keeps_leases|].
  intros ? _. eapply kept_bind; [apply keeps_current|]. intros [[p proof] j] (Hc & Hp & Hj).
  cbn in *. case_match; [by apply kept_ret|].
  eapply kept_bind; [apply (kept_lift _ _ (λ pr, proof = Some pr)); by intros pr ?%ok_or_Ok|].
  intros pr Hpr. eapply kept_bind; [by apply keeps_starting|]. intros k Hk.
  apply (kept_bind _ _ _ (λ _, True)); [apply keeps_save_journal|]. intros ? _.
  apply (kept_bind _ _ _ (λ _, True)); [apply keeps_merge_marker|]. intros ? _.
  apply (kept_bind _ _ _ (λ _, True)); [|intros ? _; by apply kept_ret].
  apply keeps_integration; [|done]. intros write Hw. apply Hok; [done|exact (Hc pr Hpr)].
Qed.

Lemma keeps_integrate s t request :
  (∀ (out out' : W) item write, ts_candidate s t out = (Ok item, out') →
     candidate_write item write → checked disk (ti_candidate item) → allowed write) →
  keeps (integrate_agent_work_item s t request) (λ _, True).
Proof.
  intros Hok. unfold integrate_agent_work_item. apply kept_check. intros _.
  apply (kept_bind _ _ _ (λ _, True)); [apply keeps_journal_for|]. intros first _.
  destruct (first.2); [by apply kept_ret|].
  eapply kept_bind; [apply kept_answer|]. intros item (out & out' & Hitem).
  keep; try apply keeps_journal_for. apply keeps_integrate_item. intros write. by eapply Hok.
Qed.

Lemma keeps_preview s t : keeps (preflight_agent_work_item_integration s t) (λ _, True).
Proof.
  unfold preflight_agent_work_item_integration, busy_preview. keep.
  all: first [apply keeps_read_journal|apply keeps_effect_digest|apply keeps_leases
             |eapply kept_any, keeps_current].
Qed.

Lemma keeps_recovery workspace_id : keeps (recover_pending_workspace workspace_id) (λ _, True).
Proof.
  unfold recover_pending_workspace, read_marker, resolve_pending. keep.
  all: first [apply keeps_read_journal|apply keeps_save_journal|apply keeps_merge_removed].
Qed.
End kept.

(** C36: Integrating replaces only files that the candidate of the asked task changed, each found as the
    work set started from it, by the candidate's version, and only after all eligible checks of
    the plan passed on the candidate; whatever others edit and the outside answers, whatever
    fails, and wherever the host stops.  Previews and recoveries change no file, and the records
    and the runs of checks stay. *)
Theorem integration_applies_checked_candidate call w r w' d :
  run_integration_call call w = (r, w') → tw_history w = [] → d ∈ durable w' :: tw_history w' →
  td_records (du_disk d) = td_records (tw_disk w) ∧ td_runs (du_disk d) = td_runs (tw_disk w)
  ∧ ∃ new, du_writes d = new ++ sn_writes (tw_scene w)
           ∧ Forall (integration_write call (tw_disk w)) new.
Proof.
  intros Hrun Hh Hd.
  assert (kept (integrated_since (tw_disk w) (sn_writes (tw_scene w))
                  (integration_write call (tw_disk w)))
            (run_integration_call call) (λ _, True)) as Hk.
  { destruct call; cbn [run_integration_call]; keep;
      first [apply keeps_preview|apply keeps_integrate|apply keeps_recovery].
    intros out out' item write Hitem Hw Hc. by exists out, out', item. }
  edestruct Hk as [[Ha Hall] _]; [|exact Hrun|].
  { split; [by split_and!; [..|exists []]|by rewrite Hh]. }
  apply elem_of_cons in Hd as [->|Hd]; [exact Ha|]. by apply (proj1 (Forall_forall _ _) Hall).
Qed.
End proofs.

(** ** A pending file that was found applied

    A file whose write failed after it took effect stays the pending file of its journal.  When
    the integration is continued, the file is found as the candidate has it and counted as applied,
    but it stays pending; when it was the last one, the journal ends as integrated with a pending
    file, which is not a journal that can be read. *)

(** The calls about one task; a recovery is of the workspace whose marker was removed. *)
Definition call_about (work_set_id task_id workspace_id : Uuid) (call : IntegrationCall) : Prop :=
  match call with
  | CallIntegrationPreview s t | CallIntegrate s t _ => s = work_set_id ∧ t = task_id
  | CallIntegrationRecovery w => w = workspace_id
  end.

Section lost.
Context {W : Type} `{WorkServices W} `{TurnServices W} `{GitHost} `{CaptureDigests} `{TurnJson} `{CheckJson}.

Local Abbreviation World := (TurnWorld W).

Section stuck.
Context (disk : TurnDisk) (start : list FileWrite) (s t workspace_id : Uuid) (j : IntegrationJournal).
Context (stored : td_integrations disk !! (s, t) = Some j) (invalid : journal_invalid s t j = true).
Context (unmarked : td_merges disk !! workspace_id = None).

Local Abbreviation keeps := (kept (W:=W) (λ d l, d = disk ∧ l = start)).

Lemma lost_journal : keeps (read_journal s t) (λ _, False).
Proof.
  unfold read_journal. apply kept_check. intros _. apply kept_reads. intros d l x [-> _].
  by rewrite stored, invalid.
Qed.

Lemma lost_journal_for request : keeps (journal_for s t request) (λ _, False).
Proof.
  apply (kept_bind _ _ _ (λ _, True)); [apply kept_asks|]. intros ? _.
  eapply kept_bind; [apply lost_journal|]. by intros ? [].
Qed.

Lemma lost_call call :
  call_about s t workspace_id call →
  keeps (run_integration_call call)
    (λ _, match call with CallIntegrationRecovery _ => True | _ => False end).
Proof.
  destruct call as [s' t'|s' t' request|w']; cbn [call_about run_integration_call].
  - intros [-> ->]. apply (kept_bind _ _ _ (λ _, False)); [|by intros ? []].
    apply (kept_bind _ _ _ (λ _, True)); [apply kept_asks|]. intros ? _. eapply kept_bind; [apply lost_journal|]. by intros ? [].
  - intros [-> ->]. apply (kept_bind _ _ _ (λ _, False)); [|by intros ? []].
    apply kept_check. intros _.
    eapply kept_bind; [apply lost_journal_for|]. by intros ? [].
  - intros ->. eapply kept_bind; [apply (kept_reads _ _ (λ m, m = None))|].
    { intros d l m [-> _] [= <-]. exact unmarked. }
    intros ? ->. by apply kept_ret.
Qed.
End stuck.

Lemma expected_counted item j current :
  (∀ file, file ∈ ip_files (ij_preflight j) → file ∈ ir_files (ij_result j)) →
  (expected_target item j current).2 = j.
Proof.
  unfold expected_target. generalize (wt_files (ti_baseline item)). intros base Hall.
  enough (∀ files base', (∀ file, file ∈ files → file ∈ ir_files (ij_result j)) →
    (foldl (applied_file (wt_files (ti_result item)) (wt_files current)) (base', j) files).2 = j)
    as Hfold by (specialize (Hfold _ base Hall); by destruct (foldl _ (base, j) _)).
  induction files as [|file files IH]; intros base' Hin; [done|]. cbn [foldl].
  unfold applied_file at 2. rewrite bool_decide_eq_true_2 by (apply Hin; by left).
  apply IH. intros f Hf. apply Hin. by right.
Qed.

Lemma apply_counted item contents (j : IntegrationJournal) files (w w' : World) j' :
  (∀ file, file ∈ files → file ∈ ir_files (ij_result j)) →
  apply_files item contents j files w = (Ok j', w') → j' = j.
Proof.
  induction files as [|file files IH]; intros Hin; cbn -[file_state].
  { by intros [= <- _]. }
  rewrite bool_decide_eq_true_2 by (apply Hin; by left). apply IH. intros f Hf. apply Hin. by right.
Qed.

Lemma save_journal_Ok j (w w' : World) :
  save_journal j w = (Ok (), w') →
  td_integrations (tw_disk w') !! (ip_work_set_id (ij_preflight j), ip_task_id (ij_preflight j)) = Some j.
Proof.
  unfold save_journal. intros (? & w1 & _ & (? & w2 & _ & (? & w3 & _ & (? & w4 & _ & Hw)
    %act_bind_Ok)%act_bind_Ok)%act_bind_Ok)%act_bind_Ok.
  apply act_bind_Ok in Hw as (? & w5 & _ & Hw%writes_Ok). rewrite Hw. apply lookup_insert_eq.
Qed.

Lemma remove_marker_Ok workspace_id (w w' : World) :
  remove_marker workspace_id w = (Ok (), w') →
  tw_disk w' = with_merges (tw_disk w) (delete workspace_id (td_merges (tw_disk w))).
Proof.
  intros (? & w1 & [= _ <-] & (? & w2 & [= _ <-] & Hw%writes_Ok)%act_bind_Ok)%act_bind_Ok. exact Hw.
Qed.

(** What is kept of a journal of which everything was counted. *)
Lemma remaining_counted item j (w w1 : World) j1 :
  (∀ file, file ∈ ip_files (ij_preflight j) → file ∈ ir_files (ij_result j)) →
  apply_remaining item j w = (Ok j1, w1) →
  ij_pending_file j1 = ij_pending_file j ∧ ij_preflight j1 = ij_preflight j.
Proof.
  intros Hall (current & wa & _ & Hrun)%act_bind_Ok.
  pose proof (expected_counted item j current Hall) as He.
  destruct (expected_target item j current) as [expected j2]. cbn in He. subst j2.
  apply act_bind_Ok in Hrun as (there & wb & _ & Hrun). destruct (negb there).
  { by injection Hrun as <- _. }
  apply act_bind_Ok in Hrun as (contents & wc & _ & Hrun). by apply apply_counted in Hrun as ->.
Qed.

Lemma confirm_kept item j (w w1 : World) j1 :
  confirm_applied item j w = (Ok j1, w1) →
  ij_pending_file j1 = ij_pending_file j ∧ ij_preflight j1 = ij_preflight j.
Proof.
  unfold confirm_applied. destruct (bool_decide _); [|by intros [= <- _]].
  intros (current & wa & _ & (there & wb & _ & Hrun)%act_bind_Ok)%act_bind_Ok.
  injection Hrun as <- _. by destruct there.
Qed.

Lemma apply_counted_saves item j (w w1 : World) j' :
  (∀ file, file ∈ ip_files (ij_preflight j) → file ∈ ir_files (ij_result j)) →
  apply_integration item j w = (Ok j', w1) →
  let p := ij_preflight j in
  (ij_pending_file j' = ij_pending_file j ∧ ij_preflight j' = p)
  ∧ td_integrations (tw_disk w1) !! (ip_work_set_id p, ip_task_id p) = Some j'
  ∧ td_merges (tw_disk w1) !! tc_workspace_id (tt_receipt (ti_source item)) = None.
Proof.
  intros Hall (j1 & wa & [Hp1 Hf1]%(remaining_counted _ _ _ _ _ Hall) & Hrun)%act_bind_Ok p.
  apply act_bind_Ok in Hrun as (j2 & wb & [Hp2 Hf2]%confirm_kept & Hrun).
  apply act_bind_Ok in Hrun as (result & wc & _ & Hrun).
  apply act_bind_Ok in Hrun as ([] & wd & Hs%save_journal_Ok & Hrun).
  apply act_bind_Ok in Hrun as ([] & we & Hm%remove_marker_Ok & Hrun).
  injection Hrun as <- <-. rewrite Hm. cbn in *. unfold p. rewrite Hf2, Hf1 in *.
  split_and!; [congruence|done|done|]. apply lookup_delete_eq.
Qed.

(** C37: An integration that is continued when every file is counted as applied while one is still
    pending, and that ends as integrated, is lost: its journal cannot be read, so that from then
    on every preview and every request for the task fails, even the same request again; no call
    repairs it. *)
Theorem lingering_pending_file_loses_result item j (w w1 : World) j' :
  (∀ file, file ∈ ip_files (ij_preflight j) → file ∈ ir_files (ij_result j)) →
  is_Some (ij_pending_file j) →
  apply_integration item j w = (Ok j', w1) → ir_state (ij_result j') = ResultIntegrated →
  ∀ call w2 r w3,
    call_about (ip_work_set_id (ij_preflight j)) (ip_task_id (ij_preflight j))
      (tc_workspace_id (tt_receipt (ti_source item))) call →
    tw_disk w2 = tw_disk w1 → tw_history w2 = [] → run_integration_call call w2 = (r, w3) →
    (tw_disk w3 = tw_disk w1 ∧ sn_writes (tw_scene w3) = sn_writes (tw_scene w2))
    ∧ match call with CallIntegrationRecovery _ => True | _ => is_ok r = false end.
Proof.
  intros Hall Hpending Hrun Hstate call w2 r w3 Hcall Hdisk Hh Hrun2.
  destruct (apply_counted_saves _ _ _ _ _ Hall Hrun) as ([Hp Hf] & Hstored & Hmarker).
  assert (journal_invalid (ip_work_set_id (ij_preflight j)) (ip_task_id (ij_preflight j)) j' = true)
    as Hinvalid.
  { unfold journal_invalid, claims_too_much. rewrite Hstate, Hp.
    rewrite (bool_decide_eq_true_2 (is_Some _)) by done.
    rewrite (bool_decide_eq_true_2 (ResultIntegrated = _)) by done.
    by rewrite ?orb_true_r, ?orb_true_l, ?orb_true_r. }
  edestruct (lost_call (tw_disk w1) (sn_writes (tw_scene w2)) _ _ _ _ Hstored Hinvalid Hmarker call
               Hcall w2) as [[Hd _] Hr]; [|exact Hrun2|].
  { by split; [|rewrite Hh]. }
  split; [exact Hd|]. destruct r as [x|e]; [|by destruct call]. specialize (Hr x eq_refl).
  by destruct call.
Qed.
End lost.

(** ** Decisions *)

Section decisions.
Context {W : Type} `{WorkServices W} `{TurnServices W} `{GitHost} `{CaptureDigests} `{TurnJson} `{CheckJson}.

Local Abbreviation World := (TurnWorld W).

(** A run whose id and check may stand in a decision. *)
Definition named_run (run : AgentTurnCheckRun) : Prop :=
  cr_run_id run ≠ 0 ∧ valid_check_id (cr_check_id run) = true.

Definition named_runs (runs : list AgentTurnCheckRun) : Prop :=
  Forall named_run runs ∧ NoDup (cr_run_id <$> runs).

Lemma run_entries_distinct session_id (l : list (Uuid * Uuid * StoredCheckRun)) :
  NoDup l →
  NoDup (omap (λ entry, if entry.1.1 =? session_id then Some (entry.1.2, entry.2) else None) l).
Proof.
  induction 1 as [|[[s i] x] l Hx Hnd IH]; cbn; [constructor|].
  destruct (N.eqb_spec s session_id) as [->|]; [|done]. constructor; [|done].
  rewrite list_elem_of_omap. intros ([[s' i'] x'] & Hin & He). cbn in He.
  destruct (N.eqb_spec s' session_id); by simplify_eq.
Qed.

Lemma run_files_ids d session_id :
  (∀ s, td_runs d !! (s, 0) = None) →
  NoDup (run_files d session_id).*1 ∧ ∀ entry, entry ∈ run_files d session_id → entry.1 ≠ 0.
Proof.
  intros Hzero. unfold run_files. rewrite sort_by_perm. split.
  - apply NoDup_fmap_fst.
    + intros id r1 r2. rewrite !list_elem_of_omap.
      intros ([[s1 i1] x1] & Hx1 & He1) ([[s2 i2] x2] & Hx2 & He2). cbn in *.
      destruct (N.eqb_spec s1 session_id), (N.eqb_spec s2 session_id); simplify_eq.
      apply elem_of_map_to_list in Hx1, Hx2. congruence.
    + apply run_entries_distinct, NoDup_map_to_list.
  - intros [id r]. rewrite sort_by_perm, list_elem_of_omap.
    intros ([[s i] x] & Hin & He). cbn in *. destruct (s =? session_id); simplify_eq.
    apply elem_of_map_to_list in Hin. intros ->. by rewrite Hzero in Hin.
Qed.

Lemma stored_runs_files d receipt records :
  stored_runs d receipt = Ok records →
  records ≡ₚ (run_files d (tc_session_id receipt)).*2
  ∧ ∀ entry, entry ∈ run_files d (tc_session_id receipt) → run_invalid receipt entry.1 entry.2 = false.
Proof.
  intros (l & Hl & [= <-])%rbind_Ok. rewrite sort_by_perm.
  apply (try_fold_ind _ (λ seen records, records = seen.*2
    ∧ ∀ entry, entry ∈ seen → run_invalid receipt entry.1 entry.2 = false)) in Hl as [-> Hall]; [done| |].
  { split; [done|]. by intros e He%elem_of_nil. }
  intros seen entry rest records t _ [-> Hall] [_ [Hg [= <-]]%ensure_Ok]%ensure_Ok.
  rewrite fmap_app. split; [done|].
  intros e [He| ->%list_elem_of_singleton]%elem_of_app; [by apply Hall|done].
Qed.

Lemma stored_runs_named d receipt records :
  (∀ s, td_runs d !! (s, 0) = None) → stored_runs d receipt = Ok records →
  named_runs (sr_run <$> records).
Proof.
  intros Hzero [Hperm Hvalid]%stored_runs_files.
  destruct (run_files_ids d (tc_session_id receipt) Hzero) as [Hnd Hids].
  assert (∀ entry, entry ∈ run_files d (tc_session_id receipt) →
    cr_run_id (sr_run entry.2) = entry.1 ∧ valid_check_id (cr_check_id (sr_run entry.2)) = true) as Hrun.
  { intros entry He%Hvalid. unfold run_invalid in He. rewrite !orb_false_iff, !negb_false_iff in He.
    destruct_and!. split; [by apply N.eqb_eq|done]. }
  split.
  - rewrite Hperm, Forall_fmap, Forall_fmap. apply Forall_forall. intros entry He.
    destruct (Hrun _ He) as [Hid Hck]. split; [|done]. cbn. rewrite Hid. by apply Hids.
  - rewrite Hperm, <- !list_fmap_compose.
    rewrite (Forall_fmap_ext_1 _ fst); [exact Hnd|]. apply Forall_forall. intros entry He.
    by apply Hrun.
Qed.

Lemma decision_checks_named checks :
  named_runs (cs_runs checks) → decision_checks_valid (decision_checks (Some checks)) = true.
Proof.
  intros [Hnamed Hnd]. unfold decision_checks_valid. cbn [decision_checks].
  rewrite !andb_true_iff. split_and!.
  - apply Nat.leb_le. rewrite length_fmap, length_take. lia.
  - apply forallb_forall. intros check (run & -> & Hrun)%list_elem_of_In%list_elem_of_fmap. cbn.
    apply elem_of_take in Hrun as (i & Hrun%list_elem_of_lookup_2 & _).
    rewrite Forall_forall in Hnamed. destruct (Hnamed _ Hrun) as [Hid Hck].
    by rewrite Hck, andb_true_r, negb_true_iff, N.eqb_neq.
  - apply bool_decide_eq_true. rewrite <- list_fmap_compose. rewrite fmap_take in *.
    eapply sublist_NoDup; [exact Hnd|]. apply sublist_take.
Qed.

Section log.
Context (log : gmap Uuid StoredDecisions).

(** The decisions as they were; no run without an id. *)
Definition log_kept (d : TurnDisk) (writes : list FileWrite) : Prop :=
  td_decisions d = log ∧ ∀ s, td_runs d !! (s, 0) = None.

Local Abbreviation keeps := (kept (W:=W) log_kept).

Lemma keeps_save_run receipt r : cr_run_id (sr_run r) ≠ 0 → keeps (save_run receipt r) (λ _, True).
Proof.
  intros Hid. unfold save_run. keep. apply kept_writes. intros d l [Hlog Hzero].
  split; [done|]. intros s. cbn. rewrite lookup_insert_ne by congruence. apply Hzero.
Qed.

Lemma keeps_recover_run receipt c r :
  cr_run_id (sr_run r) ≠ 0 →
  keeps (recover_run receipt c r)
    (λ r', cr_run_id (sr_run r') = cr_run_id (sr_run r)
           ∧ cr_check_id (sr_run r') = cr_check_id (sr_run r)).
Proof.
  intros Hid. unfold recover_run.
  destruct (cr_status (sr_run r)) eqn:Hs; try (by apply kept_ret).
  all: apply (kept_bind _ _ _ (λ _, True)); [unfold workspace_operation_lease; keep|intros operation _].
  all: destruct (is_ok operation); [|by apply kept_ret].
  all: apply (kept_bind _ _ _ (λ _, True)); [keep|intros lease _].
  all: destruct (is_ok lease); [|by apply kept_ret].
  all: eapply (kept_bind _ _ _ (λ r', cr_run_id (sr_run r') = cr_run_id (sr_run r)
           ∧ cr_check_id (sr_run r') = cr_check_id (sr_run r))).
  1, 3: case_match; [|by apply kept_ret].
  1, 2: apply (kept_bind _ _ _ (λ _, True)); [apply kept_asks_now|intros now _];
    apply (kept_bind _ _ _ (λ _, True)); [by apply keeps_save_run|intros ? _]; by apply kept_ret.
  all: intros r' Hr'; apply (kept_bind _ _ _ (λ _, True)); [keep|intros ? _]; by apply kept_ret.
Qed.

Lemma keeps_recovered receipt c records :
  named_runs (sr_run <$> records) →
  keeps (act_fold (λ runs r,
      do! r := recover_run receipt c r in
      act_ret (runs ++ [sr_run r])) [] records) named_runs.
Proof.
  intros Hnamed. eapply kept_weaken.
  - apply (kept_fold_seen _ (λ seen runs, cr_run_id <$> runs = cr_run_id ∘ sr_run <$> seen
      ∧ cr_check_id <$> runs = cr_check_id ∘ sr_run <$> seen)); [done|].
    intros seen r runs Hr [Hids Hchecks]. eapply kept_bind; [apply keeps_recover_run|].
    + destruct Hnamed as [Hall _]. rewrite Forall_fmap, Forall_forall in Hall. by apply Hall.
    + intros r' [Hid Hck]. apply kept_ret. rewrite !fmap_app, Hids, Hchecks. cbn.
      by rewrite Hid, Hck.
  - intros runs [Hids Hchecks]. destruct Hnamed as [Hall Hnd].
    rewrite <- list_fmap_compose in Hnd. split; [|by rewrite Hids].
    rewrite Forall_fmap in Hall. clear Hnd. revert records Hids Hchecks Hall.
    induction runs as [|run runs IH]; intros [|r records] Hids Hchecks Hall; try done.
    cbn in Hids, Hchecks. injection Hids as Hid Hids. injection Hchecks as Hck Hchecks.
    inversion_clear Hall as [|? ? [Hi Hv] Hrest]. constructor; [|by eapply IH].
    split; [by rewrite Hid|]. cbn in Hck. by rewrite Hck.
Qed.

Lemma keeps_checks conversation_id request_id :
  keeps (get_agent_turn_checks conversation_id request_id) (λ checks, named_runs (cs_runs checks)).
Proof.
  unfold get_agent_turn_checks. apply (kept_bind _ _ _ (λ _, True)); [apply kept_changes|].
  intros receipt _. apply (kept_bind _ _ _ (λ _, True)); [apply kept_asks|]. intros c _.
  apply (kept_bind _ _ _ (λ _, True)); [apply kept_asks|]. intros ? _.
  eapply kept_bind; [apply (kept_reads _ _ (λ records, named_runs (sr_run <$> records)))|].
  { intros d l records [_ Hzero]. by apply stored_runs_named. }
  intros records Hnamed. eapply kept_bind; [by apply keeps_recovered|]. intros runs Hruns.
  apply (kept_bind _ _ _ (λ _, True)); [keep; apply kept_check_target|]. intros [target|e] _;
    [|by apply kept_ret].
  apply (kept_bind _ _ _ (λ _, True)).
  { eapply kept_any, kept_try, keeps_eligible_checks. }
  intros [[revision checks]|e] _; [|by apply kept_ret].
  apply (kept_bind _ _ _ (λ _, True)); [apply keeps_still_matches|]. intros same _.
  apply kept_ret. by repeat case_match.
Qed.

Lemma keeps_optional conversation_id request_id :
  keeps (optional_checks conversation_id request_id)
    (λ checks, decision_checks_valid (decision_checks checks) = true).
Proof.
  unfold optional_checks. eapply kept_bind; [apply kept_try, keeps_checks|].
  intros [checks|e] Hc; apply kept_ret; [|done]. apply decision_checks_named. by apply Hc.
Qed.
End log.

(** *** A log and its next decision *)

Lemma stored_decisions_readable d receipt stored :
  stored_decisions d receipt = Ok stored →
  stored_decisions_valid receipt (receipt_digest receipt) stored = true.
Proof.
  unfold stored_decisions. destruct (td_decisions d !! _) as [s|].
  - intros [Hv [= <-]]%ensure_Ok. by apply negb_false_iff in Hv.
  - intros [= <-]. unfold stored_decisions_valid. cbn. rewrite !N.eqb_refl, !bool_decide_eq_true_2; try done.
Qed.

Lemma decisions_valid_app receipt digest index records record :
  decisions_valid receipt digest index (records ++ [record])
  = decisions_valid receipt digest index records
    && decision_valid receipt digest (index + N.of_nat (length records)) record.
Proof.
  revert index. induction records as [|r records IH]; intros index; cbn [app decisions_valid length].
  { by rewrite N.add_0_r, andb_true_r. }
  rewrite IH, andb_assoc.
  by replace (index + 1 + N.of_nat (length records)) with (index + N.of_nat (S (length records))) by lia.
Qed.

Lemma decisions_valid_ids receipt digest index records :
  decisions_valid receipt digest index records = true →
  de_decision_id ∘ sd_decision <$> records = dr_request_id ∘ sd_request <$> records.
Proof.
  revert index. induction records as [|r records IH]; intros index; cbn [decisions_valid]; [done|].
  intros [Hr Hrest]%andb_prop. rewrite !fmap_cons. f_equal; [|by eapply IH].
  unfold decision_valid in Hr. rewrite !andb_true_iff in Hr. destruct_and!. by apply N.eqb_eq.
Qed.

Lemma next_decision_valid receipt stored record :
  stored_decisions_valid receipt (receipt_digest receipt) stored = true →
  decision_valid receipt (receipt_digest receipt) (N.of_nat (length (ss_records stored))) record = true →
  (length (ss_records stored) < MAX_DECISIONS)%nat →
  (∀ r, r ∈ ss_records stored → dr_request_id (sd_request r) ≠ dr_request_id (sd_request record)) →
  stored_decisions_valid receipt (receipt_digest receipt)
    (with_decision_records stored (ss_records stored ++ [record])) = true.
Proof.
  intros Hstored Hrecord Hlen Hfresh. unfold stored_decisions_valid in *. cbn.
  rewrite !andb_true_iff in Hstored. destruct Hstored as [[[Hhead Hl] Hvalid] Hnd].
  rewrite decisions_valid_app, Hvalid, N.add_0_l, Hrecord. cbn [andb].
  rewrite !andb_true_iff. split_and!; try (by destruct_and!); [|].
  - rewrite length_app. apply Nat.leb_le. cbn. lia.
  - apply bool_decide_eq_true_2. apply bool_decide_eq_true in Hnd.
    rewrite fmap_app. apply NoDup_app. split_and!; [done| |apply NoDup_singleton].
    intros id. rewrite (decisions_valid_ids _ _ _ _ Hvalid). intros (r & -> & Hr)%list_elem_of_fmap.
    cbn. intros Hid%list_elem_of_singleton. apply (Hfresh r Hr). cbn in Hid. rewrite Hid.
    unfold decision_valid in Hrecord. rewrite !andb_true_iff in Hrecord. destruct_and!.
    by apply N.eqb_eq.
Qed.

Lemma lift_Ok {A} (r : result A LocalWtsError) (w w' : World) x :
  act_lift r w = (Ok x, w') → r = Ok x ∧ w' = w.
Proof. intros Heq. by injection Heq as -> <-. Qed.

Lemma asks_now_Ok (w w' : World) now :
  asks_now w = (Ok now, w') → (∃ out out' : W, sv_now out = (now, out')) ∧ tw_disk w' = tw_disk w.
Proof.
  unfold asks_now, ask. destruct (sv_now (tw_out w)) as [n out] eqn:Hn. intros [= -> <-].
  split; [by eexists _, _|done].
Qed.

(** The rest of the call, from the log that was read. *)
Lemma new_decision_valid receipt stored after request checks now :
  valid_request request = true →
  dr_expected_revision request = N.of_nat (length (ss_records stored)) →
  dr_expected_receipt_digest request = ss_receipt_digest stored →
  ss_receipt_digest stored = receipt_digest receipt → tc_after receipt = Some after →
  (0 ≤ now ≤ MAX_CREATED_AT)%Z → decision_checks_valid (decision_checks checks) = true →
  decision_valid receipt (receipt_digest receipt) (N.of_nat (length (ss_records stored)))
    (new_decision receipt stored after request checks now) = true.
Proof.
  intros Hv Hrev Hdig Hstored Hafter [Hn1 Hn2] Hchecks. unfold decision_valid, checkpoint_id. cbn.
  rewrite Hv, Hrev, Hdig, Hstored, Hafter, Hchecks, !N.eqb_refl.
  apply Z.leb_le in Hn1, Hn2. rewrite Hn1, Hn2. by rewrite !bool_decide_eq_true_2.
Qed.

Lemma stored_digest d receipt stored :
  stored_decisions d receipt = Ok stored → ss_receipt_digest stored = receipt_digest receipt.
Proof.
  intros Hv%stored_decisions_readable. unfold stored_decisions_valid in Hv.
  rewrite !andb_true_iff, !bool_decide_eq_true in Hv. by destruct_and!.
Qed.

(** What recording a decision made of the log of a turn. *)
Definition recorded (receipt : AgentTurnChanges) (request : RecordAgentTurnDecisionRequest)
    (d d' : TurnDisk) (view : AgentTurnDecisions) : Prop :=
  ∃ stored stored',
    stored_decisions d receipt = Ok stored ∧ stored_decisions d' receipt = Ok stored'
    ∧ da_decisions view = sd_decision <$> ss_records stored'
    ∧ (stored' = stored ∧ (∃ record, record ∈ ss_records stored ∧ sd_request record = request)
       ∨ ∃ record, ss_records stored' = ss_records stored ++ [record] ∧ sd_request record = request)
    ∧ ∀ s, s ≠ tc_session_id receipt → td_decisions d' !! s = td_decisions d !! s.

(** The branch that appends. *)
Lemma append_decision_Ok receipt stored checks request (w w' : World) view :
  append_decision receipt stored checks request w = (Ok view, w') →
  stored_decisions (tw_disk w) receipt = Ok stored → valid_request request = true →
  decision_checks_valid (decision_checks checks) = true →
  head (filter (λ record, dr_request_id (sd_request record) = dr_request_id request)
          (ss_records stored)) = None →
  (∀ (out out' : W) now, sv_now out = (now, out') → (0 ≤ now ≤ MAX_CREATED_AT)%Z) →
  recorded receipt request (tw_disk w) (tw_disk w') view.
Proof.
  intros Hrun Hstored Hv Hchecks Hhead%head_None Hclock. unfold append_decision in Hrun.
  apply act_bind_Ok in Hrun as ([] & we & [[Hrev Hdig]%guard_err_Ok%orb_false_iff ->]%lift_Ok & Hrun).
  apply negb_false_iff, N.eqb_eq in Hrev. apply negb_false_iff, bool_decide_eq_true in Hdig.
  apply act_bind_Ok in Hrun as (after & we & [Hafter%ok_or_Ok ->]%lift_Ok & Hrun).
  apply act_bind_Ok in Hrun as ([] & we & [[_ Hlen]%guard_err_Ok%orb_false_iff ->]%lift_Ok & Hrun).
  apply Nat.leb_gt in Hlen.
  apply act_bind_Ok in Hrun as (now & wf & [(out & out' & Hnow) Hf]%asks_now_Ok & Hrun).
  apply act_bind_Ok in Hrun as ([] & wg & [_ Hg]%reads_Ok & Hrun).
  apply act_bind_Ok in Hrun as ([] & wh & [_ ->]%lift_Ok & Hrun).
  apply act_bind_Ok in Hrun as ([] & wi & Hwrite%writes_Ok & Hrun). injection Hrun as <- <-.
  set (record := new_decision _ _ _ _ _ _) in *.
  exists stored, (with_decision_records stored (ss_records stored ++ [record])).
  split_and!; [done| |done|right; by exists record|].
  - rewrite Hwrite. unfold stored_decisions. cbn. rewrite lookup_insert_eq.
    rewrite next_decision_valid; [done|by eapply stored_decisions_readable| |done|].
    + apply new_decision_valid; try done; [by eapply stored_digest|by eapply Hclock].
    + intros r Hr He. eapply (not_elem_of_nil r). rewrite <- Hhead. by apply list_elem_of_filter.
  - intros s Hs. rewrite Hwrite. cbn. rewrite lookup_insert_ne by done. congruence.
Qed.

(** C38: A decision that was recorded can be read again: the log of the turn is the one before with
    this decision at its end, or the same when the request was recorded before; the answer shows
    it, and the logs of other turns stay. *)
Theorem decisions_stay_readable conversation_id request_id request (w w1 w' : World) receipt view :
  get_agent_turn_changes conversation_id request_id w = (Ok receipt, w1) →
  record_agent_turn_decision conversation_id request_id request w = (Ok view, w') →
  tw_history w = [] → (∀ s, td_runs (tw_disk w) !! (s, 0) = None) →
  (∀ (out out' : W) now, sv_now out = (now, out') → (0 ≤ now ≤ MAX_CREATED_AT)%Z) →
  recorded receipt request (tw_disk w) (tw_disk w') view.
Proof.
  intros Hget Hrun Hh Hzero Hclock. unfold record_agent_turn_decision in Hrun.
  apply act_bind_Ok in Hrun as ([] & wa & [Hv%guard_err_Ok%negb_false_iff ->]%lift_Ok & Hrun).
  apply act_bind_Ok in Hrun as (receipt' & wa & Hget' & Hrun).
  rewrite Hget in Hget'. injection Hget' as <- <-.
  assert (keeps_inv (log_kept (td_decisions (tw_disk w))) w) as Hw by (by split; [|rewrite Hh]).
  destruct (kept_changes (log_kept (td_decisions (tw_disk w))) _ _ _ Hw _ _ Hget) as [Hw1 _].
  apply act_bind_Ok in Hrun as (checks & wb & Hchecks & Hrun).
  destruct (keeps_optional _ _ _ _ Hw1 _ _ Hchecks) as [[[Hlog _] _] Hvalid].
  specialize (Hvalid _ eq_refl).
  apply act_bind_Ok in Hrun as (? & wc & Hlocks & Hrun).
  assert (tw_disk wc = tw_disk wb) as Hc.
  { unfold sv_store_locks, world_services, asks in Hlocks. by destruct (sv_store_locks _); simplify_eq. }
  apply act_bind_Ok in Hrun as (stored & wd & [Hstored Hd]%reads_Ok & Hrun).
  assert (td_decisions (tw_disk wd) = td_decisions (tw_disk w)) as Hkept by congruence.
  rewrite <- Hd in Hstored.
  enough (recorded receipt request (tw_disk wd) (tw_disk w') view) as Hrec.
  { unfold recorded, stored_decisions in *. by rewrite Hkept in Hrec. }
  destruct (head _) as [previous|] eqn:Hhead; [|by eapply append_decision_Ok].
  apply head_Some_elem_of, list_elem_of_filter in Hhead as [_ Hprev].
  destruct (bool_decide_reflect (sd_request previous = request)); [|done].
  injection Hrun as <- <-. exists stored, stored.
  split_and!; [done..|left; split; [done|by exists previous]|done].
Qed.
End decisions.
