(* ===== verification/TurnWitnesses.v ===== *)
(** * Concrete tasks, their restores, and the integration of a candidate

    A worktree with three files, one of them ignored, and a task that edits two of them; Git lists
    the files that no line of [.gitignore] names. *)

From S2P Require Import Prelude Order Text StoreBase StoreSample Sessions SessionWitnesses.
From S2P Require Import Conversations Captures WorkServices WorkSets WorkSetSample.
From S2P Require Import WorkSetSample WorkSetScheduler Worktrees TurnWorld TurnCaptures TurnChecks.
From S2P Require Import TurnIntegration TurnIntegrationProofs TurnRestore TurnRestoreProofs TurnCaptureProofs.

Local Open Scope N_scope.

(** ** Digests *)

Definition hex_digit (n : N) : char := if n <? 10 then 48 + n else 87 + n.

Fixpoint hex_of (digits : nat) (n : N) : str :=
  match digits with
  | O => []
  | S digits' => hex_of digits' (N.shiftr n 4) ++ [hex_digit (n mod 16)]
  end.

(** Not a hash of contents that differ in more than 31 bytes, but enough for short ones. *)
Definition sample_hash (bytes : list N) : str :=
  lit "sha256:" ++ hex_of 64 (foldl (λ acc b, (acc * 257 + b + 1) mod 2 ^ 256) 1 bytes).

(** ** Git *)

Definition text_at (tree : Worktree) (parts : list str) : str :=
  match wk_nodes tree !! parts with Some (Regular content _ _) => content | _ => [] end.

Definition listed_in (tree : Worktree) : gset str :=
  let ignored := split_char 10 (text_at tree [lit ".gitignore"]) in
  list_to_set (omap (λ entry, match entry.2 with
                              | Directory _ => None
                              | _ => let path := join (lit "/") entry.1 in
                                     if bool_decide (path ∈ ignored) then None else Some path
                              end) (map_to_list (wk_nodes tree))).

#[export] Instance sample_git : GitHost := {|
  bytes_sha256 := sample_hash;
  parent_is_dir tree path :=
    match reverse (split_char 47 path) with
    | _ :: [] => true
    | _ :: parents => match wk_nodes tree !! reverse parents with
                      | Some (Directory _) => true
                      | _ => false
                      end
    | [] => false
    end;
  git_listed tree := Some (listed_in tree);
  git_changed _ := Some ∅;
  git_untracked _ := Some ∅
|}.

Definition sample_check : VerificationCheck :=
  {| vk_id := lit "unit"; vk_label := lit "Unit tests"; vk_kind := CheckUnit;
     vk_repository_id := Some (lit "app"); vk_working_directory := tree_path 6;
     vk_executable := lit "cargo"; vk_args := [lit "test"; lit "--quiet"]; vk_timeout_ms := 1000;
     vk_output_limit_bytes := 1000; vk_required := true; vk_environment_names := [];
     vk_acceptance_files := [] |}.

(** The services, with the candidate of a work set. *)
Definition turn_services (item : option TrustedAgentWorkItem) : TurnServices SampleHost := {|
  ts_recovered := λ h, (Ok (map_to_list (sh_conversations h)).*2, h);
  ts_conversations := λ h, (Ok (map_to_list (sh_conversations h)).*2, h);
  ts_sessions _ := act_ret [];
  ts_lock_operation _ := act_ret tt;
  ts_lock_turn _ _ := act_ret tt;
  ts_lock_verification := act_ret tt;
  ts_plan _ := act_ret (1, [sample_check]);
  ts_canonical _ h := (true, h);
  ts_check_cancelled _ _ := act_ret false;
  ts_execute _ _ h := ({| ce_log := utf8 (lit "ok"); ce_status := VerifyPassed;
                       ce_exit_code := Some 0%Z; ce_detail := [] |}, h);
  ts_file_sha256 _ h := (None, h);
  ts_store_result _ _ := act_ret tt;
  ts_reconcile _ := act_ret tt;
  ts_elapsed h := (5, h);
  ts_candidate _ _ := or_missing item
|}.

#[export] Instance sample_turn_services : TurnServices SampleHost := turn_services None.

#[export] Instance sample_check_json : CheckJson := {|
  check_bytes _ := 1; check_run_bytes _ := 1; decisions_bytes _ := 1;
  local_error_text _ := lit "error";
  receipt_digest receipt := sample_hash (utf8 (dec (tc_session_id receipt)))
|}.

#[export] Instance sample_turn_json : TurnJson := {|
  restore_journal_bytes _ := 1; restore_result_bytes _ := 1; pending_restore_bytes _ := 1;
  integration_journal_bytes _ := 1; pending_integration_bytes _ := 1;
  restore_effect c r s _ _ files := sample_hash (utf8 (concat (rf_file_path <$> files)));
  integration_effect runs _ _ _ files _ := Some (sample_hash (utf8 (concat (if_file_path <$> files))))
|}.

#[export] Instance sample_capture_json : CaptureJson := {|
  stored_turn_bytes _ := 1;
  tree_digest tree := sample_hash (ser tree);
  json_string s := lit "'" ++ s ++ lit "'";
  git_diff before after := Some (lit "header" ++ (10 :: lit "@@ ") ++ after, false)
|}.

(** ** A worktree and its task *)

Definition sample_stamp : Stamp :=
  {| sp_dev := 1; sp_ino := 7; sp_mtime := 0; sp_mtime_nsec := 0; sp_ctime := 0; sp_ctime_nsec := 0 |}.

Definition text_node (content : string) : Node := Regular (utf8 (lit content)) 420 sample_stamp.

Definition tree_of (nodes : list (string * string)) : Worktree :=
  {| wk_dev := 1; wk_ino := 2;
     wk_nodes := list_to_map ((λ '(path, content), ([lit path], text_node content)) <$> nodes);
     wk_head := Some (lit "head"); wk_branch := Some (lit "main"); wk_index := Some [] |}.

Definition quiet (trees : Worktrees) : Scene :=
  {| sn_trees := trees; sn_script := []; sn_writes := [] |}.

Definition empty_disk : TurnDisk :=
  {| td_records := ∅; td_blobs := ∅; td_journals := ∅; td_completed := ∅; td_restores := ∅;
     td_integrations := ∅; td_merges := ∅; td_runs := ∅; td_decisions := ∅ |}.

Local Abbreviation World := (TurnWorld SampleHost).

Definition world_with (trees : Worktrees) (disk : TurnDisk) : World :=
  {| tw_out := host_with [] false; tw_scene := quiet trees; tw_disk := disk; tw_history := [] |}.

(** The next call starts here, at a host that may have edits and failures ahead. *)
Definition later (w : World) (edit : Worktrees → Worktrees) (script : list Moment) : World :=
  {| tw_out := tw_out w;
     tw_scene := {| sn_trees := edit (sn_trees (tw_scene w)); sn_script := script; sn_writes := [] |};
     tw_disk := tw_disk w; tw_history := [] |}.

Definition the_user : AgentConversation := finished_conversation origin 201 50.
Definition root5 : str := tree_path 5.

Definition before_task : Worktree :=
  tree_of [(".gitignore", "notes"); ("notes", "mine"); ("a", "one")]%string.
Definition after_task : Worktree :=
  tree_of [(".gitignore", "none"); ("notes", "mine"); ("a", "two")]%string.

Definition t0 : World := world_with {[root5 := before_task]} empty_disk.
Definition t1 : result () LocalWtsError * World := begin_turn_capture the_user 50 root5 t0.
Definition t2 : result () LocalWtsError * World :=
  finish_turn_capture 50 false (later t1.2 (λ _, {[root5 := after_task]}) []).

Definition restore_request (id : Uuid) (w : World) : AgentTurnRestoreRequest :=
  {| rq_request_id := id;
     rq_effect_digest := match preflight_agent_turn_restore 11 201 w with
                         | (Ok p, _) => rp_effect_digest p
                         | _ => []
                         end |}.

(** ** Runs

    The files of the sample task are put back; a retry stops before its marker is written; and a
    file that only the task made visible is removed. *)

Lemma with_first {A B} (p : A * B) (a : A) : p.1 = a → p = (a, p.2).
Proof. destruct p. by intros <-. Qed.

(** ** The record of the task *)

Definition t1' : World := later t1.2 (λ _, {[root5 := after_task]}) [].

Lemma later_disk (w : World) edit script : tw_disk (later w edit script) = tw_disk w.
Proof. reflexivity. Qed.

Lemma ready_receipt_is_exact_witness :
  ∃ stored, td_records (tw_disk t2.2) !! 50 = Some stored ∧
  tf_status <$> tc_files (st_receipt stored) = [FileModified; FileModified; FileAdded] ∧
  ∃ before after, st_before stored = Some before ∧ st_after stored = Some after
    ∧ tc_files (st_receipt stored) = differing (wt_files before) (wt_files after)
    ∧ saved (tw_disk t2.2) (sv_turn_dir (WorkServices:=sample_work_services) 50) (wt_files before)
    ∧ saved (tw_disk t2.2) (sv_turn_dir (WorkServices:=sample_work_services) 50) (wt_files after).
Proof.
  assert ((λ s, (tc_state (st_receipt s), tf_status <$> tc_files (st_receipt s)))
            <$> td_records (tw_disk t2.2) !! 50
          = Some (TurnReady, [FileModified; FileModified; FileAdded])) as Hs
    by (vm_compute; reflexivity).
  apply fmap_Some in Hs as (stored & Hrec & Hs). injection Hs as Hready Hstatus.
  exists stored. split; [exact Hrec|]. split; [by rewrite <- Hstatus|].
  assert (begin_turn_capture the_user 50 root5 t0 = (Ok (), t1.2)) as Hbegin.
  { apply with_first. vm_compute. reflexivity. }
  assert (finish_turn_capture 50 false t1' = (Ok (), t2.2)) as Hfinish.
  { apply (with_first (finish_turn_capture 50 false t1') (Ok ())). vm_compute. reflexivity. }
  exact (ready_receipt_is_exact the_user 50 root5 false t0 t1.2 t1' t2.2 stored
           Hbegin (later_disk t1.2 (λ _, {[root5 := after_task]}) []) Hfinish Hrec (eq_sym Hready)).
Defined.

(** ** A restore *)

Definition t3 : World := later t2.2 id [].
Definition first_request : AgentTurnRestoreRequest := restore_request 900 t3.


Definition state_of (r : result AgentTurnRestoreResult LocalWtsError) :
    option AgentTurnRestoreResultState :=
  match r with Ok result => Some (ro_state result) | Err _ => None end.

Lemma call_result (call : RestoreCall) (w : World) :
  run_restore_call call w = ((run_restore_call call w).1, (run_restore_call call w).2).
Proof. apply surjective_pairing. Qed.

Lemma restore_spares_other_versions_witness :
  let call := CallRestore 11 201 first_request in
  let w' := (run_restore_call call t3).2 in
  length (du_writes (durable w')) = 3%nat ∧
  td_records (du_disk (durable w')) = td_records (tw_disk t3)
  ∧ ∃ new, du_writes (durable w') = new ++ sn_writes (tw_scene t3)
           ∧ Forall (turn_write (td_records (tw_disk t3))) new.
Proof.
  intros call w'. split; [vm_compute; reflexivity|].
  exact (restore_spares_other_versions call t3 _ w' (durable w') (call_result call t3) eq_refl
           (list_elem_of_here _ _)).
Defined.

(** ** A retry that stops *)

Definition at_moment (edit : Worktrees → Worktrees) (fate : Fate) : Moment :=
  {| mo_edit := edit; mo_fate := fate; mo_now := 0; mo_stamp := sample_stamp; mo_inode := 0 |}.

Definition set_a (content : string) (trees : Worktrees) : Worktrees :=
  alter (λ tree, with_node tree [lit "a"] (Some (text_node content))) root5 trees.

(** Another editor changes a file during the first restore, and undoes it; the retry fails when
    the marker is written. *)
Definition t5 : result AgentTurnRestoreResult LocalWtsError * World :=
  restore_agent_turn 11 201 first_request
    (later t2.2 id (replicate 20 plain_moment ++ [at_moment (set_a "three") Works])).
Definition t6 : result AgentTurnRestoreResult LocalWtsError * World :=
  restore_agent_turn 11 201 first_request
    (later t5.2 (set_a "two") (replicate 8 plain_moment ++ [at_moment id Breaks])).
Definition t7 : World := later t6.2 id [].

Definition receipt7 : AgentTurnChanges :=
  match td_records (tw_disk t7) !! 50 with Some stored => st_receipt stored | None => st_receipt (record_of origin 201 50 70 (tree_with (lit "one"))) end.

Definition ended_for_good (entry : Uuid * Uuid * RestoreJournal) : bool :=
  negb (rj_finished entry.2) || negb (bool_decide (ro_state (rj_result entry.2) = ResultIncomplete)).

Lemma retry7 : retry_unmarked 50 5 (tw_disk t7).
Proof.
  split.
  - destruct (td_completed (tw_disk t7) !! 50) as [result|] eqn:Hr; [|by vm_compute in Hr].
    assert (ro_restore_request_id <$> td_completed (tw_disk t7) !! 50 = Some 900) as Hid
      by (vm_compute; reflexivity).
    assert (rj_finished <$> td_journals (tw_disk t7) !! (50, 900) = Some false) as Hj
      by (vm_compute; reflexivity).
    rewrite Hr in Hid. injection Hid as Hid. rewrite <- Hid in Hj.
    apply fmap_Some in Hj as (j & Hj & Hf). exists result, j. by split_and!.
  - vm_compute. reflexivity.
  - assert (forallb ended_for_good (map_to_list (td_journals (tw_disk t7))) = true) as Hall
      by (vm_compute; reflexivity).
    rewrite forallb_forall in Hall. intros id j Hj Hf Hs.
    apply elem_of_map_to_list, list_elem_of_In in Hj. apply Hall in Hj.
    unfold ended_for_good in Hj. cbn in Hj. by rewrite Hf, bool_decide_eq_true_2 in Hj.
Qed.

Lemma lost_marker_wedges_restore_witness :
  state_of t5.1 = Some ResultIncomplete ∧
  (∀ request r w', restore_agent_turn 11 201 request t7 = (r, w') →
     tw_disk w' = tw_disk t7 ∧ sn_writes (tw_scene w') = sn_writes (tw_scene t7) ∧
     ∀ result, r = Ok result → ended (tw_disk t7) receipt7 request result) ∧
  (∀ r w', preflight_agent_turn_restore 11 201 t7 = (r, w') →
     tw_disk w' = tw_disk t7 ∧ ∀ p, r = Ok p → rp_state p = RestoreBlocked) ∧
  (∀ r w', recover_pending_workspace (tc_workspace_id receipt7) t7 = (r, w') →
     tw_disk w' = tw_disk t7 ∧ sn_writes (tw_scene w') = sn_writes (tw_scene t7)).
Proof.
  split; [vm_compute; reflexivity|].
  assert (get_agent_turn_changes 11 201 t7 = (Ok receipt7, (get_agent_turn_changes 11 201 t7).2)) as Hget.
  { apply with_first. vm_compute. reflexivity. }
  assert (retry_unmarked (tc_session_id receipt7) (tc_workspace_id receipt7) (tw_disk t7)) as Hstuck.
  { assert (tc_session_id receipt7 = 50) as -> by (vm_compute; reflexivity).
    assert (tc_workspace_id receipt7 = 5) as -> by (vm_compute; reflexivity). exact retry7. }
  exact (lost_marker_wedges_restore 11 201 t7 receipt7 _ Hget eq_refl Hstuck).
Defined.

(** ** A file that was ignored *)


(** ** A candidate of a work set

    The origin's task changed nothing; the candidate starts from the same files in a worktree of
    its own, edits one and adds another, and its check passes. *)

Definition candidate_conversation : AgentConversation :=
  {| cv_queue_mutations := []; cv_schema_version := 1; cv_conversation_id := 12;
     cv_workspace_id := 6; cv_workspace_display_path := lit "/w"; cv_repository_id := lit "app";
     cv_provider := CodexAgent;
     cv_source := Ui (lit "/route") (lit "callout") (lit "Label") None None None;
     cv_revision := 1; cv_created_at_unix_ms := 10; cv_updated_at_unix_ms := 10;
     cv_messages := []; cv_active_session_id := None; cv_preview := None |}.
Definition the_candidate : AgentConversation := finished_conversation candidate_conversation 202 60.
Definition root6 : str := tree_path 6.

Definition candidate_task : Worktree :=
  tree_of [(".gitignore", "notes"); ("notes", "mine"); ("a", "two"); ("b", "new")]%string.

Definition two_hosts : SampleHost :=
  {| sh_next := 100; sh_conversations := {[11 := the_user; 12 := the_candidate]}; sh_records := ∅;
     sh_trees := {[root5 := tree_with (lit "one"); root6 := tree_with (lit "one")]};
     sh_base := tree_with (lit "one"); sh_writes := []; sh_send_fails := false |}.

Definition c0 : World :=
  {| tw_out := two_hosts; tw_scene := quiet {[root5 := before_task; root6 := before_task]};
     tw_disk := empty_disk; tw_history := [] |}.
Definition c1 : World := (finish_turn_capture 50 false (begin_turn_capture the_user 50 root5 c0).2).2.
Definition c2 : World := (begin_turn_capture the_candidate 60 root6 c1).2.
Definition c3 : World :=
  (finish_turn_capture 60 false (later c2 (λ trees, <[root6 := candidate_task]> trees) [])).2.

Definition check_request (id : Uuid) (w : World) : RunAgentTurnCheckRequest :=
  {| rr_request_id := id; rr_check_id := lit "unit";
     rr_expected_after_checkpoint_id :=
       match get_agent_turn_changes 12 202 w with
       | (Ok receipt, _) => default 0 (checkpoint_id receipt)
       | _ => 0
       end;
     rr_expected_plan_revision := 1 |}.

Definition c4 : World := later c3 id [].
Definition c5 : result AgentTurnChecks LocalWtsError * World :=
  run_agent_turn_check 12 202 (check_request 800 c4) c4.

(** The candidate as [load_integration_candidate] gives it. *)
Definition target_of (conversation_id request_id : Uuid) (w : World) : option TrustedTurnCheckTarget :=
  match load_check_target conversation_id request_id w with (Ok target, _) => Some target | _ => None end.
Definition capture_of (session_id : Uuid) (w : World) : option WorktreeCheckpointCapture :=
  td_records (tw_disk w) !! session_id ≫= st_after.

Definition the_item : option TrustedAgentWorkItem :=
  let w := later c5.2 id [] in
  source ← target_of 11 201 w; candidate ← target_of 12 202 w;
  baseline ← capture_of 50 w; result ← capture_of 60 w;
  Some {| ti_work_set_id := 300; ti_task_id := 1; ti_origin_conversation_id := 11;
          ti_origin_request_id := 201; ti_child_conversation_id := 12; ti_child_request_id := 202;
          ti_source := source; ti_candidate := candidate; ti_baseline := baseline; ti_result := result;
          ti_baseline_blob_dir := sv_turn_dir (WorkServices:=sample_work_services) 50;
          ti_result_blob_dir := sv_turn_dir (WorkServices:=sample_work_services) 60 |}.

Definition item_services : TurnServices SampleHost := turn_services the_item.

Section integration.
#[local] Existing Instance item_services.

Definition integration_request (id : Uuid) (w : World) : IntegrateAgentWorkItemRequest :=
  {| iq_request_id := id;
     iq_effect_digest := match preflight_agent_work_item_integration 300 1 w with
                         | (Ok p, _) => ip_effect_digest p
                         | _ => []
                         end |}.

Definition c6 : World := later c5.2 id [].
Definition the_integration : IntegrateAgentWorkItemRequest := integration_request 950 c6.
Definition c7 : result AgentWorkItemIntegrationResult LocalWtsError * World :=
  integrate_agent_work_item 300 1 the_integration c6.

(** The journal cannot be saved after the last file was written; the request is repeated. *)
Definition c8 : result AgentWorkItemIntegrationResult LocalWtsError * World :=
  integrate_agent_work_item 300 1 the_integration
    (later c5.2 id (replicate 88 plain_moment ++ [at_moment id Breaks])).
Definition c9 : World := later c8.2 id [].
Definition c10 : result AgentWorkItemIntegrationResult LocalWtsError * World :=
  integrate_agent_work_item 300 1 the_integration c9.
Definition c11 : World := later c10.2 id [].
End integration.

(** ** Witnesses of checks, decisions and integrations *)

Definition integration_state (r : result AgentWorkItemIntegrationResult LocalWtsError) :
    option AgentWorkItemIntegrationResultState :=
  match r with Ok result => Some (ir_state result) | Err _ => None end.

Section integration_runs.
#[local] Existing Instance item_services.

Lemma integration_result (call : IntegrationCall) (w : World) :
  run_integration_call call w = ((run_integration_call call w).1, (run_integration_call call w).2).
Proof. apply surjective_pairing. Qed.

Lemma integration_applies_checked_candidate_witness :
  let call := CallIntegrate 300 1 the_integration in
  let w' := (run_integration_call call c6).2 in
  length (du_writes (durable w')) = 2%nat ∧
  td_records (du_disk (durable w')) = td_records (tw_disk c6)
  ∧ td_runs (du_disk (durable w')) = td_runs (tw_disk c6)
  ∧ ∃ new, du_writes (durable w') = new ++ sn_writes (tw_scene c6)
           ∧ Forall (integration_write call (tw_disk c6)) new.
Proof.
  intros call w'. split; [vm_compute; reflexivity|].
  exact (integration_applies_checked_candidate call c6 _ w' (durable w')
           (integration_result call c6) eq_refl (list_elem_of_here _ _)).
Defined.

(** The journal that the repeated request goes on with: the pending file is counted as applied. *)
Definition counted : option (TrustedAgentWorkItem * IntegrationJournal) :=
  item ← the_item; saved ← td_integrations (tw_disk c9) !! (300, 1);
  match capture_checkpoint root5 c9 with
  | (Ok current, _) => Some (item, (expected_target item saved current).2)
  | _ => None
  end.

(** It is continued, and ends as integrated. *)
Definition ends_integrated (x : TrustedAgentWorkItem * IntegrationJournal) : bool :=
  let '(item, j) := x in
  forallb (λ file, bool_decide (file ∈ ir_files (ij_result j))) (ip_files (ij_preflight j))
  && bool_decide (is_Some (ij_pending_file j))
  && bool_decide ((ip_work_set_id (ij_preflight j), ip_task_id (ij_preflight j),
                   tc_workspace_id (tt_receipt (ti_source item))) = (300, 1, 5))
  && match apply_integration item j c9 with
     | (Ok j', _) => bool_decide (ir_state (ij_result j') = ResultIntegrated)
     | _ => false
     end.

Lemma lingering_pending_file_loses_result_witness :
  integration_state c10.1 = Some ResultIntegrated ∧
  is_ok (preflight_agent_work_item_integration 300 1 c11).1 = false ∧
  ∃ w1 : World, ∀ call (w2 : World) r w3, call_about 300 1 5 call →
    tw_disk w2 = tw_disk w1 → tw_history w2 = [] → run_integration_call call w2 = (r, w3) →
    (tw_disk w3 = tw_disk w1 ∧ sn_writes (tw_scene w3) = sn_writes (tw_scene w2))
    ∧ match call with CallIntegrationRecovery _ => True | _ => is_ok r = false end.
Proof.
  split; [vm_compute; reflexivity|]. split; [vm_compute; reflexivity|].
  assert (ends_integrated <$> counted = Some true) as Hends by (vm_compute; reflexivity).
  apply fmap_Some in Hends as ([item j] & _ & Hends). unfold ends_integrated in Hends.
  symmetry in Hends. apply andb_prop in Hends as [[[Hall Hpending]%andb_prop Hids]%andb_prop Hrun].
  destruct (apply_integration item j c9) as [[j'|] w1] eqn:Happly; [|done].
  apply bool_decide_eq_true in Hpending, Hids, Hrun. injection Hids as Hs Ht Hw. exists w1.
  rewrite <- Hs, <- Ht, <- Hw.
  apply (lingering_pending_file_loses_result item j c9 w1 j'); [|exact Hpending|exact Happly|exact Hrun].
  intros file Hfile. rewrite forallb_forall in Hall.
  exact (proj1 (bool_decide_eq_true _) (Hall file (proj1 (list_elem_of_In _ _) Hfile))).
Defined.
End integration_runs.

Definition c12 : World := later c5.2 id [].
Definition receipt12 : AgentTurnChanges :=
  match get_agent_turn_changes 12 202 c12 with
  | (Ok receipt, _) => receipt
  | _ => st_receipt (record_of origin 201 50 70 (tree_with (lit "one")))
  end.
Definition decision_request : RecordAgentTurnDecisionRequest :=
  {| dr_request_id := 970; dr_expected_revision := 0;
     dr_expected_receipt_digest := receipt_digest receipt12; dr_kind := Accepted;
     dr_reason := lit "fine" |}.
Definition c13 : result AgentTurnDecisions LocalWtsError * World :=
  record_agent_turn_decision 12 202 decision_request c12.

Lemma c13_run : record_agent_turn_decision 12 202 decision_request c12 = c13.
Proof. unfold c13. reflexivity. Qed.

Lemma decisions_stay_readable_witness :
  ∃ view, c13.1 = Ok view ∧ length (da_decisions view) = 1%nat
  ∧ recorded receipt12 decision_request (tw_disk c12) (tw_disk c13.2) view.
Proof.
  assert ((λ view, length (da_decisions view)) <$> (match c13.1 with Ok v => Some v | Err _ => None end)
          = Some 1%nat) as Hlen by (vm_compute; reflexivity).
  destruct c13.1 as [view|e] eqn:Hview; [|done]. injection Hlen as Hlen.
  exists view. split; [done|]. split; [exact Hlen|].
  assert (get_agent_turn_changes 12 202 c12 = (Ok receipt12, (get_agent_turn_changes 12 202 c12).2)) as Hget.
  { apply with_first. vm_compute. reflexivity. }
  assert (forallb (λ entry, negb (entry.1.2 =? 0)) (map_to_list (td_runs (tw_disk c12))) = true) as Hids
    by (vm_compute; reflexivity).
  apply (decisions_stay_readable 12 202 decision_request c12 _ c13.2 receipt12 view Hget);
    [exact (eq_trans c13_run (with_first c13 (Ok view) Hview))|reflexivity| |].
  - intros s. destruct (td_runs (tw_disk c12) !! (s, 0)) as [run|] eqn:Hrun; [|done].
    apply elem_of_map_to_list, list_elem_of_In in Hrun. rewrite forallb_forall in Hids.
    by apply Hids in Hrun.
  - intros out out' now [= <- _]. unfold MAX_CREATED_AT. lia.
Defined.
