(* ===== verification/AgentReports.v ===== *)
(** * Reports of agents ([wts-app/src/evidence.rs])

    An agent reports on a workspace: the repositories it reviewed, flows, findings, checks and the
    setup it proposes.  The workspace's context is the authority for identities and paths; a report
    that names anything else is rejected, with the field at fault.  What the code asks of the file
    system is a parameter. *)

From S2P Require Import Prelude Order Text StoreBase Workspace Runtime TurnWorld TurnChecks.

Local Open Scope N_scope.

Definition WORKSPACE_EVIDENCE_SCHEMA_VERSION : N := 1.
Definition MAX_AGENT_REPORT_BYTES : N := 512 * 1024.
Definition MAX_AGENT_FINDINGS : N := 128.
Definition MAX_AGENT_NEXT_ACTIONS : N := 64.
Definition MAX_AGENT_PROPOSED_CHECKS : N := 64.
Definition MAX_AGENT_VALIDATION_FLOWS : N := 32.
Definition MAX_AGENT_FLOWS : N := 128.
Definition MAX_ENVIRONMENT_REQUIREMENTS : N := 256.
Definition MAX_ENVIRONMENT_SETUP_STEPS : N := 128.
Definition MAX_ENVIRONMENT_UNRESOLVED : N := 128.
Definition MAX_VALIDATION_FLOW_STEPS : N := 64.
Definition MAX_AGENT_FLOW_STEPS : N := 128.
Definition MAX_FINDING_EVIDENCE : N := 16.
Definition MAX_FLOW_TEXT_ITEMS : N := 64.
Definition MAX_PROPOSAL_ARGUMENTS : N := 16.
Definition MAX_PROPOSAL_ENVIRONMENT_NAMES : N := 16.
Definition MAX_AGENT_SUMMARY_CHARS : N := 16 * 1024.
Definition MAX_FINDING_TITLE_CHARS : N := 256.
Definition MAX_FINDING_DETAIL_CHARS : N := 8 * 1024.
Definition MAX_FINDING_EVIDENCE_CHARS : N := 1024.
Definition MAX_NEXT_ACTION_CHARS : N := 2048.
Definition MAX_PROPOSAL_REASON_CHARS : N := 4 * 1024.
Definition MAX_PROPOSAL_ARGUMENT_CHARS : N := 1024.
Definition MAX_VALIDATION_TEXT_CHARS : N := 4 * 1024.
Definition MAX_PROPOSED_TIMEOUT_MS : N := 15 * 60 * 1000.

(** ** Data *)

Inductive AgentFindingSeverity := SeverityInfo | SeverityWarning | SeverityCritical.
Inductive AgentReportCoverage := CoverageUnassessed | CoveragePartial | CoverageComplete.
Inductive WorkspaceGraphEvidenceStatus := GraphNotStarted | GraphReady | GraphFailed.

Record AgentSkippedRepository := { sk_repository_id : str; sk_reason : str }.

Record AgentReportScope := {
  sc_coverage : AgentReportCoverage;
  sc_graph_status : WorkspaceGraphEvidenceStatus;
  sc_graph_sha256 : option str;
  sc_reviewed_repository_ids : list str;
  sc_unresolved_repository_ids : list str;
  sc_skipped_repositories : list AgentSkippedRepository
}.

Inductive AgentFlowKind := FlowUser | FlowService | FlowOperational.

Record AgentFlowEvidence := { fe_repository_id : str; fe_path : str; fe_line : option N }.

Record AgentFlowStep := {
  fp_id : str;
  fp_repository_id : str;
  fp_component : str;
  fp_action : str;
  fp_evidence : list AgentFlowEvidence
}.

Record AgentFlow := {
  fl_id : str;
  fl_title : str;
  fl_kind : AgentFlowKind;
  fl_actors : list str;
  fl_entry_points : list str;
  fl_steps : list AgentFlowStep;
  fl_expected_outcome : str;
  fl_risks : list str;
  fl_existing_coverage : list str;
  fl_verification_candidate_ids : list str
}.

Inductive AgentEnvironmentStatus :=
| EnvironmentUnassessed | EnvironmentPlanned | EnvironmentNeedsInput | EnvironmentBlocked.
Inductive AgentEnvironmentRequirementKind :=
| NeedsToolchain | NeedsConfiguration | NeedsSecret | NeedsService.
Inductive AgentEnvironmentRequirementSource :=
| FromRepository | FromGenerated | FromUser | FromExternal.

Record AgentEnvironmentRequirement := {
  er_id : str;
  er_repository_id : str;
  er_kind : AgentEnvironmentRequirementKind;
  er_name : str;
  er_required : bool;
  er_source : AgentEnvironmentRequirementSource;
  er_detail : str;
  er_evidence : list AgentFlowEvidence
}.

Record AgentEnvironmentSetupStep := {
  es_id : str;
  es_repository_id : str;
  es_working_directory : str;
  es_action : str;
  es_command : list str;
  es_evidence : list AgentFlowEvidence
}.

Record AgentEnvironmentPlan := {
  ep_status : AgentEnvironmentStatus;
  ep_summary : str;
  ep_requirements : list AgentEnvironmentRequirement;
  ep_setup_steps : list AgentEnvironmentSetupStep;
  ep_unresolved : list str
}.

Record AgentFinding := {
  fi_id : str;
  fi_title : str;
  fi_detail : str;
  fi_severity : AgentFindingSeverity;
  fi_repository_id : option str;
  fi_evidence : list str;
  fi_flow_ids : list str
}.

Record AgentProposedCheck := {
  pc_id : str;
  pc_label : str;
  pc_kind : VerificationCheckKind;
  pc_repository_id : str;
  pc_working_directory : str;
  pc_executable : str;
  pc_args : list str;
  pc_timeout_ms : N;
  pc_environment_names : list str;
  pc_reason : str;
  pc_evidence : list str
}.

Record AgentValidationStep := {
  vs_id : str;
  vs_action : str;
  vs_expected : str;
  vs_evidence : list str
}.

Record AgentValidationFlow := {
  vf_id : str;
  vf_title : str;
  vf_goal : str;
  vf_prerequisites : list str;
  vf_steps : list AgentValidationStep
}.

Record AgentReportDocument := {
  ad_schema_version : N;
  ad_workspace_id : Uuid;
  ad_updated_at_unix_ms : option Z;
  ad_summary : str;
  ad_scope : AgentReportScope;
  ad_environment : AgentEnvironmentPlan;
  ad_flows : list AgentFlow;
  ad_findings : list AgentFinding;
  ad_next_actions : list str;
  ad_proposed_checks : list AgentProposedCheck;
  ad_validation_flows : list AgentValidationFlow
}.

(** *** What the workspace says of itself *)

Record EvidenceRepository := {
  eo_repository_id : str;
  eo_label : str;
  eo_requested_base_ref : str;
  eo_resolved_base_ref : str;
  eo_base_commit_oid : str;
  eo_worktree_display_path : str
}.

Record WorkspaceEvidenceContext := {
  ec_schema_version : N;
  ec_workspace_id : Uuid;
  ec_workspace_record_version : N;
  ec_title : str;
  ec_intent : WorkspaceIntent;
  ec_preferred_provider : WorkspaceProvider;
  ec_branch_name : str;
  ec_workspace_display_path : str;
  ec_code_workspace_display_path : str;
  ec_evidence_display_path : str;
  ec_created_at_unix_ms : Z;
  ec_wts_version : str;
  ec_repositories : list EvidenceRepository;
  ec_allowed_repository_ids : list str
}.

Record GraphIndexedRepository := { gi_repository_id : str; gi_commit_oid : str }.

Record WorkspaceGraphManifest := {
  gm_schema_version : N;
  gm_workspace_id : Uuid;
  gm_status : WorkspaceGraphEvidenceStatus;
  gm_graph_display_path : option str;
  gm_graph_sha256 : option str;
  gm_indexed_at_unix_ms : option Z;
  gm_indexed_repositories : list GraphIndexedRepository;
  gm_detail : str
}.

Inductive AgentReportPublishError :=
| InvalidWorkspacePath
| ReportEvidenceUnavailable
| InvalidContext (message : str)
| ReportTooLarge
| InvalidJson (line column : N) (message : str)
| InvalidReport (field message : str)
| PublishUnavailable.

#[export] Instance coverage_eq_dec : EqDecision AgentReportCoverage.
Proof. solve_decision. Defined.
#[export] Instance graph_status_eq_dec : EqDecision WorkspaceGraphEvidenceStatus.
Proof. solve_decision. Defined.
#[export] Instance skipped_eq_dec : EqDecision AgentSkippedRepository.
Proof. solve_decision. Defined.
#[export] Instance scope_eq_dec : EqDecision AgentReportScope.
Proof. solve_decision. Defined.
#[export] Instance flow_evidence_eq_dec : EqDecision AgentFlowEvidence.
Proof. solve_decision. Defined.
#[export] Instance environment_status_eq_dec : EqDecision AgentEnvironmentStatus.
Proof. solve_decision. Defined.
#[export] Instance requirement_kind_eq_dec : EqDecision AgentEnvironmentRequirementKind.
Proof. solve_decision. Defined.
#[export] Instance requirement_source_eq_dec : EqDecision AgentEnvironmentRequirementSource.
Proof. solve_decision. Defined.
#[export] Instance requirement_eq_dec : EqDecision AgentEnvironmentRequirement.
Proof. solve_decision. Defined.
#[export] Instance setup_step_eq_dec : EqDecision AgentEnvironmentSetupStep.
Proof. solve_decision. Defined.
#[export] Instance environment_plan_eq_dec : EqDecision AgentEnvironmentPlan.
Proof. solve_decision. Defined.

(** The defaults of a report that assesses nothing. *)
Definition default_scope : AgentReportScope :=
  {| sc_coverage := CoverageUnassessed; sc_graph_status := GraphNotStarted; sc_graph_sha256 := None;
     sc_reviewed_repository_ids := []; sc_unresolved_repository_ids := [];
     sc_skipped_repositories := [] |}.

Definition default_environment : AgentEnvironmentPlan :=
  {| ep_status := EnvironmentUnassessed; ep_summary := []; ep_requirements := [];
     ep_setup_steps := []; ep_unresolved := [] |}.

Definition empty_document (workspace_id : Uuid) : AgentReportDocument :=
  {| ad_schema_version := WORKSPACE_EVIDENCE_SCHEMA_VERSION; ad_workspace_id := workspace_id;
     ad_updated_at_unix_ms := None; ad_summary := []; ad_scope := default_scope;
     ad_environment := default_environment; ad_flows := []; ad_findings := [];
     ad_next_actions := []; ad_proposed_checks := []; ad_validation_flows := [] |}.

(** ** Texts and fields *)

Definition chars (s : str) : N := N.of_nat (length s).
Definition items {A} (l : list A) : N := N.of_nat (length l).

(** [base[index].name]. *)
Definition indexed (base : str) (index : N) : str := base ++ lit "[" ++ dec index ++ lit "]".
Definition field_of (base : str) (index : N) (name : string) : str :=
  indexed base index ++ lit "." ++ lit name.

Definition invalid_report (field message : str) : AgentReportPublishError := InvalidReport field message.

Definition at_most (limit : N) : str := lit "must be non-empty and at most " ++ dec limit ++ lit " characters".
Definition not_exceed (limit : N) : str := lit "must not exceed " ++ dec limit ++ lit " characters".
Definition not_more (limit : N) : str := lit "must not contain more than " ++ dec limit ++ lit " items".
Definition ID_TEXT : str := lit "must contain only letters, digits, period, hyphen, or underscore".
Definition FROM_CONTEXT : str := lit "must name a repository from .wts/context.json".
Definition FROM_REVIEWED : str := lit "must name a repository listed in scope.reviewedRepositoryIds".

Definition valid_agent_id (value : str) : bool :=
  negb (is_empty value) && (byte_len value <=? 128)
  && forallb (λ c, is_ascii_alphanumeric c || (c =? 45) || (c =? 95) || (c =? 46)) value.

Definition bounded (limit : N) (value : str) : bool :=
  negb (is_empty (trim value)) && (chars value <=? limit).

Definition valid_evidence_text (value : str) : bool := bounded MAX_FINDING_EVIDENCE_CHARS value.
Definition valid_validation_text (value : str) : bool := bounded MAX_VALIDATION_TEXT_CHARS value.

Definition unique_ids (ids : list str) : bool := bool_decide (NoDup ids).

(** [sha256:] and 64 lower-case hexadecimal digits. *)
Definition report_sha256 (value : str) : bool :=
  match strip_prefix (lit "sha256:") value with
  | Some hex => (byte_len hex =? 64) && forallb is_lower_hex hex
  | None => false
  end.

(** A loop with [enumerate()] that ends at the first error. *)
Fixpoint each {A E} (f : N → A → result () E) (index : N) (l : list A) : result () E :=
  match l with
  | [] => Ok tt
  | x :: l' => let? _ := f index x in each f (index + 1) l'
  end.

Definition validate_evidence_list (evidence : list str) (field : str) :
    result () AgentReportPublishError :=
  guard_err ((MAX_FINDING_EVIDENCE <? items evidence)
             || existsb (λ item, negb (valid_evidence_text item)) evidence)
    (invalid_report field
       (lit "must contain at most " ++ dec MAX_FINDING_EVIDENCE ++ lit " non-empty entries of at most "
        ++ dec MAX_FINDING_EVIDENCE_CHARS ++ lit " characters")).

Definition validate_flow_text_list (values : list str) (field : str) (required : bool) :
    result () AgentReportPublishError :=
  guard_err ((required && bool_decide (values = [])) || (MAX_FLOW_TEXT_ITEMS <? items values)
             || existsb (λ value, negb (valid_validation_text value)) values)
    (invalid_report field
       (lit "must contain " ++ lit (if required then "at least one entry" else "zero or more entries")
        ++ lit " and at most " ++ dec MAX_FLOW_TEXT_ITEMS ++ lit " bounded entries")).

(** ** The file system *)

(** [symlink_metadata], [canonicalize] and [is_file]. *)
Inductive FileKind := KindDirectory | KindFile | KindLink | KindOther.

Record ReportFiles := {
  rf_kind : str → option FileKind;
  rf_canonicalize : str → option str;
  rf_is_file : str → bool
}.

#[export] Instance file_kind_eq_dec : EqDecision FileKind.
Proof. solve_decision. Defined.

Section files.
Variable files : ReportFiles.

Definition trusted_directory (path field : str) : result str str :=
  ensure guard_err (negb (is_absolute path)) (field ++ lit " must be absolute") in
  let? kind := ok_or (rf_kind files path) (field ++ lit " does not identify an existing directory") in
  ensure guard_err (negb (bool_decide (kind = KindDirectory)))
           (field ++ lit " must identify a directory and may not be a symbolic link") in
  ok_or (rf_canonicalize files path) (field ++ lit " could not be resolved").

(** The components after those of [base]. *)
Fixpoint components_after (base path : list component) : option (list component) :=
  match base, path with
  | [], _ => Some path
  | a :: base', b :: path' => if bool_decide (a = b) then components_after base' path' else None
  | _ :: _, [] => None
  end.

Definition is_normal (c : component) : bool := match c with NormalDir _ => true | _ => false end.

(** Each directory on the way down is one and not a link. *)
Fixpoint plain_directories (current : str) (relative : list component) : bool :=
  match relative with
  | [] => true
  | NormalDir name :: relative' =>
      let current := path_join current name in
      bool_decide (rf_kind files current = Some KindDirectory) && plain_directories current relative'
  | _ => false
  end.

Definition trusted_nested_working_directory (repository_root candidate : str) : bool :=
  match trusted_directory repository_root (lit "repository worktree") with
  | Err _ => false
  | Ok root =>
      is_absolute candidate
      && match components_after (path_components repository_root) (path_components candidate) with
         | None => false
         | Some relative =>
             if existsb (λ c, negb (is_normal c)) relative
             then bool_decide (relative = []) && path_eqb candidate repository_root
             else plain_directories repository_root relative
                  && match rf_canonicalize files candidate with
                     | Some canonical => path_eqb canonical root || path_starts_with canonical root
                     | None => false
                     end
         end
  end.

(** ** The context *)

Definition validate_agent_report_context (workspace evidence_root : str)
    (context : WorkspaceEvidenceContext) : result () str :=
  ensure guard_err (negb (ec_schema_version context =? WORKSPACE_EVIDENCE_SCHEMA_VERSION))
           (lit "context schemaVersion must be " ++ dec WORKSPACE_EVIDENCE_SCHEMA_VERSION) in
  let? workspace_canonical := trusted_directory workspace (lit "workspaceDisplayPath") in
  let? context_workspace :=
    trusted_directory (ec_workspace_display_path context) (lit "workspaceDisplayPath") in
  ensure guard_err (negb (path_eqb context_workspace workspace_canonical))
           (lit "context workspaceDisplayPath does not identify this workspace") in
  let? evidence_canonical := trusted_directory evidence_root (lit "evidenceDisplayPath") in
  let? context_evidence :=
    trusted_directory (ec_evidence_display_path context) (lit "evidenceDisplayPath") in
  ensure guard_err (negb (path_eqb context_evidence evidence_canonical))
           (lit "context evidenceDisplayPath does not identify this .wts directory") in
  let? repository_ids := try_fold_i (λ index ids repository,
      let field := field_of (lit "repositories") (N.of_nat index) in
      ensure guard_err (negb (valid_agent_id (eo_repository_id repository)))
               (field "repositoryId" ++ lit " contains unsupported characters") in
      ensure guard_err (bool_decide (eo_repository_id repository ∈ ids))
               (field "repositoryId" ++ lit " is duplicated") in
      let? worktree := trusted_directory (eo_worktree_display_path repository)
                         (field "worktreeDisplayPath") in
      ensure guard_err (negb (path_starts_with worktree workspace_canonical)
                        || path_eqb worktree workspace_canonical)
               (field "worktreeDisplayPath" ++ lit " must be inside this workspace") in
      Ok ({[eo_repository_id repository]} ∪ ids)) 0%nat (∅ : gset str) (ec_repositories context) in
  let allowed : gset str := list_to_set (ec_allowed_repository_ids context) in
  guard_err (negb (size allowed =? length (ec_allowed_repository_ids context))%nat
             || negb (bool_decide (allowed = repository_ids)))
    (lit "allowedRepositoryIds must contain each context repository exactly once").

(** ** The scope *)

Definition validate_agent_report_scope (scope : AgentReportScope) (context : WorkspaceEvidenceContext)
    (graph : WorkspaceGraphManifest) : result () AgentReportPublishError :=
  if bool_decide (sc_coverage scope = CoverageUnassessed) then
    guard_err (negb (bool_decide (scope = default_scope)))
      (invalid_report (lit "scope.coverage") (lit "unassessed coverage must use an empty default scope"))
  else
    ensure guard_err (negb (gm_schema_version graph =? WORKSPACE_EVIDENCE_SCHEMA_VERSION)
                      || negb (gm_workspace_id graph =? ec_workspace_id context))
             (invalid_report (lit "scope.graphStatus")
                (lit "trusted graph manifest does not match this workspace")) in
    ensure guard_err (negb (bool_decide (sc_graph_status scope = gm_status graph)))
             (invalid_report (lit "scope.graphStatus")
                (lit "must match the current trusted graph manifest")) in
    let? _ :=
      match sc_graph_status scope with
      | GraphReady =>
          let? digest := ok_or (sc_graph_sha256 scope)
                           (invalid_report (lit "scope.graphSha256")
                              (lit "is required when graphStatus is ready")) in
          guard_err (negb (report_sha256 digest)
                     || negb (bool_decide (gm_graph_sha256 graph = Some digest)))
            (invalid_report (lit "scope.graphSha256")
               (lit "must exactly match the current trusted graph manifest digest"))
      | _ =>
          guard_err (bool_decide (is_Some (sc_graph_sha256 scope)))
            (invalid_report (lit "scope.graphSha256")
               (lit "must be absent unless graphStatus is ready"))
      end in
    let allowed : gset str := list_to_set (ec_allowed_repository_ids context) in
    let reviewed : gset str := list_to_set (sc_reviewed_repository_ids scope) in
    let unresolved : gset str := list_to_set (sc_unresolved_repository_ids scope) in
    let skipped_ids := sk_repository_id <$> sc_skipped_repositories scope in
    let skipped : gset str := list_to_set skipped_ids in
    ensure guard_err (negb (size reviewed =? length (sc_reviewed_repository_ids scope))%nat
                      || negb (size unresolved =? length (sc_unresolved_repository_ids scope))%nat
                      || negb (size skipped =? length (sc_skipped_repositories scope))%nat)
             (invalid_report (lit "scope")
                (lit "repository ids must be unique within each coverage group")) in
    let? _ := each (λ index item,
        guard_err (negb (valid_validation_text (sk_reason item)))
          (invalid_report (field_of (lit "scope.skippedRepositories") index "reason")
             (at_most MAX_VALIDATION_TEXT_CHARS))) 0 (sc_skipped_repositories scope) in
    ensure guard_err (negb (bool_decide (reviewed ∩ unresolved = ∅))
                      || negb (bool_decide (reviewed ∩ skipped = ∅))
                      || negb (bool_decide (unresolved ∩ skipped = ∅)))
             (invalid_report (lit "scope")
                (lit "each repository must appear in exactly one coverage group")) in
    match sc_coverage scope with
    | CoverageComplete =>
        guard_err (negb (bool_decide (reviewed = allowed)) || negb (bool_decide (unresolved = ∅))
                   || negb (bool_decide (skipped = ∅)))
          (invalid_report (lit "scope.coverage")
             (lit "complete coverage requires every workspace repository to be reviewed"))
    | _ =>
        guard_err (negb (bool_decide (reviewed ∪ unresolved ∪ skipped = allowed))
                   || bool_decide (reviewed = ∅)
                   || (bool_decide (unresolved = ∅) && bool_decide (skipped = ∅)))
          (invalid_report (lit "scope.coverage")
             (lit "partial coverage must review at least one repository and account for every other repository as unresolved or skipped"))
    end.

(** ** Evidence in the worktrees *)

Definition find_repository (context : WorkspaceEvidenceContext) (repository_id : str) :
    option EvidenceRepository :=
  head (filter (λ r, eo_repository_id r = repository_id) (ec_repositories context)).

Definition validate_flow_evidence_path (evidence : AgentFlowEvidence) (repository : EvidenceRepository)
    (field : str) : result () AgentReportPublishError :=
  let path_field := field ++ lit ".path" in
  ensure guard_err (is_empty (fe_path evidence) || (MAX_FINDING_EVIDENCE_CHARS <? chars (fe_path evidence))
                    || is_absolute (fe_path evidence)
                    || existsb (λ c, negb (is_normal c)) (path_components (fe_path evidence)))
           (invalid_report path_field
              (lit "must be a bounded relative path inside the stated repository")) in
  let? root :=
    match trusted_directory (eo_worktree_display_path repository) (field ++ lit ".repositoryId") with
    | Ok root => Ok root
    | Err message => Err (invalid_report (field ++ lit ".repositoryId") message)
    end in
  let? canonical := ok_or (rf_canonicalize files (path_join root (fe_path evidence)))
                      (invalid_report path_field
                         (lit "must identify existing evidence inside the stated repository")) in
  ensure guard_err (negb (path_starts_with canonical root) || path_eqb canonical root)
           (invalid_report path_field (lit "must remain inside the stated repository")) in
  guard_err (bool_decide (fe_line evidence = Some 0)
             || (bool_decide (is_Some (fe_line evidence)) && negb (rf_is_file files canonical)))
    (invalid_report (field ++ lit ".line") (lit "must be a positive line number on file evidence")).

(** The evidence of an item that names one repository. *)
Definition validate_evidence (noun : string) (evidence : list AgentFlowEvidence) (repository_id : str)
    (repository : EvidenceRepository) (field : str) : result () AgentReportPublishError :=
  ensure guard_err (bool_decide (evidence = []) || (MAX_FINDING_EVIDENCE <? items evidence))
           (invalid_report field
              (lit "must contain between 1 and " ++ dec MAX_FINDING_EVIDENCE ++ lit " entries")) in
  each (λ index item,
      ensure guard_err (negb (bool_decide (fe_repository_id item = repository_id)))
               (invalid_report (field_of field index "repositoryId")
                  (lit "must match the containing " ++ lit noun ++ lit " repositoryId")) in
      validate_flow_evidence_path item repository (indexed field index)) 0 evidence.

(** ** The proposed setup *)

Definition reviewed_by (scope : AgentReportScope) (repository_id : str) : bool :=
  bool_decide (repository_id ∈ sc_reviewed_repository_ids scope).

Definition validate_environment_repository (repository_id : str) (scope : AgentReportScope)
    (context : WorkspaceEvidenceContext) (field : str) :
    result EvidenceRepository AgentReportPublishError :=
  let? repository := ok_or (find_repository context repository_id) (invalid_report field FROM_CONTEXT) in
  ensure guard_err (negb (reviewed_by scope repository_id)) (invalid_report field FROM_REVIEWED) in
  Ok repository.

Definition validate_requirement (scope : AgentReportScope) (context : WorkspaceEvidenceContext)
    (index : N) (requirement : AgentEnvironmentRequirement) : result () AgentReportPublishError :=
  let field := field_of (lit "environment.requirements") index in
  let? repository := validate_environment_repository (er_repository_id requirement) scope context
                       (field "repositoryId") in
  ensure guard_err (negb (valid_agent_id (er_id requirement))) (invalid_report (field "id") ID_TEXT) in
  ensure guard_err (negb (valid_validation_text (er_name requirement))
                    || negb (valid_validation_text (er_detail requirement)))
           (invalid_report (field "detail") (lit "name and detail " ++ at_most MAX_VALIDATION_TEXT_CHARS)) in
  validate_evidence "environment item" (er_evidence requirement) (er_repository_id requirement)
    repository (field "evidence").

Definition bounded_arguments (arguments : list str) : bool :=
  forallb (λ argument, negb (is_empty argument) && (chars argument <=? MAX_PROPOSAL_ARGUMENT_CHARS))
    arguments.

Definition validate_setup_step (scope : AgentReportScope) (context : WorkspaceEvidenceContext)
    (index : N) (step : AgentEnvironmentSetupStep) : result () AgentReportPublishError :=
  let field := field_of (lit "environment.setupSteps") index in
  let? repository := validate_environment_repository (es_repository_id step) scope context
                       (field "repositoryId") in
  ensure guard_err (negb (valid_agent_id (es_id step)) || negb (valid_validation_text (es_action step)))
           (invalid_report (field "id") (lit "id and action must be non-empty bounded values")) in
  ensure guard_err (negb (trusted_nested_working_directory (eo_worktree_display_path repository)
                            (es_working_directory step)))
           (invalid_report (field "workingDirectory")
              (lit "must identify an existing non-symlink directory in the stated repository")) in
  ensure guard_err (bool_decide (es_command step = [])
                    || (MAX_PROPOSAL_ARGUMENTS + 1 <? items (es_command step))
                    || negb (bounded_arguments (es_command step)))
           (invalid_report (field "command")
              (lit "must contain a bounded executable and argument vector")) in
  validate_evidence "environment item" (es_evidence step) (es_repository_id step) repository
    (field "evidence").

Definition validate_agent_environment_plan (environment : AgentEnvironmentPlan)
    (scope : AgentReportScope) (context : WorkspaceEvidenceContext) :
    result () AgentReportPublishError :=
  if bool_decide (ep_status environment = EnvironmentUnassessed) then
    guard_err (negb (bool_decide (environment = default_environment)))
      (invalid_report (lit "environment.status")
         (lit "unassessed environment setup must use an empty default plan"))
  else
    ensure guard_err (bool_decide (sc_coverage scope = CoverageUnassessed)
                      || negb (bool_decide (sc_graph_status scope = GraphReady)))
             (invalid_report (lit "environment.status")
                (lit "an assessed environment setup requires graph-backed repository coverage")) in
    ensure guard_err (negb (valid_validation_text (ep_summary environment)))
             (invalid_report (lit "environment.summary") (at_most MAX_VALIDATION_TEXT_CHARS)) in
    ensure guard_err (MAX_ENVIRONMENT_REQUIREMENTS <? items (ep_requirements environment))
             (invalid_report (lit "environment.requirements") (not_more MAX_ENVIRONMENT_REQUIREMENTS)) in
    ensure guard_err (MAX_ENVIRONMENT_SETUP_STEPS <? items (ep_setup_steps environment))
             (invalid_report (lit "environment.setupSteps") (not_more MAX_ENVIRONMENT_SETUP_STEPS)) in
    ensure guard_err ((MAX_ENVIRONMENT_UNRESOLVED <? items (ep_unresolved environment))
                      || existsb (λ item, negb (valid_validation_text item)) (ep_unresolved environment))
             (invalid_report (lit "environment.unresolved")
                (lit "must contain at most " ++ dec MAX_ENVIRONMENT_UNRESOLVED ++ lit " bounded entries")) in
    let? _ :=
      match ep_status environment with
      | EnvironmentPlanned =>
          guard_err (negb (bool_decide (ep_unresolved environment = [])))
            (invalid_report (lit "environment.status")
               (lit "planned setup cannot contain unresolved items"))
      | _ =>
          guard_err (bool_decide (ep_unresolved environment = []))
            (invalid_report (lit "environment.status")
               (lit "needsInput and blocked setup plans require at least one unresolved item"))
      end in
    ensure guard_err (bool_decide (ep_requirements environment = [])
                      && bool_decide (ep_setup_steps environment = []))
             (invalid_report (lit "environment")
                (lit "an assessed setup plan must contain a requirement or setup step")) in
    ensure guard_err (negb (unique_ids (er_id <$> ep_requirements environment)))
             (invalid_report (lit "environment.requirements") (lit "requirement ids must be unique")) in
    let? _ := each (validate_requirement scope context) 0 (ep_requirements environment) in
    ensure guard_err (negb (unique_ids (es_id <$> ep_setup_steps environment)))
             (invalid_report (lit "environment.setupSteps") (lit "setup step ids must be unique")) in
    each (validate_setup_step scope context) 0 (ep_setup_steps environment).

(** ** Flows *)

Definition validate_agent_flow_step (scope : AgentReportScope) (context : WorkspaceEvidenceContext)
    (flow_index step_index : N) (step : AgentFlowStep) : result () AgentReportPublishError :=
  let field := field_of (indexed (lit "flows") flow_index ++ lit ".steps") step_index in
  ensure guard_err (negb (valid_agent_id (fp_id step))) (invalid_report (field "id") ID_TEXT) in
  let? repository := ok_or (find_repository context (fp_repository_id step))
                       (invalid_report (field "repositoryId") FROM_CONTEXT) in
  ensure guard_err (negb (reviewed_by scope (fp_repository_id step)))
           (invalid_report (field "repositoryId") FROM_REVIEWED) in
  ensure guard_err (negb (valid_validation_text (fp_component step)))
           (invalid_report (field "component") (at_most MAX_VALIDATION_TEXT_CHARS)) in
  ensure guard_err (negb (valid_validation_text (fp_action step)))
           (invalid_report (field "action") (at_most MAX_VALIDATION_TEXT_CHARS)) in
  validate_evidence "step" (fp_evidence step) (fp_repository_id step) repository (field "evidence").

Definition valid_title (title : str) : bool := bounded MAX_FINDING_TITLE_CHARS title.

Definition validate_agent_flow (scope : AgentReportScope) (proposed_checks : list AgentProposedCheck)
    (context : WorkspaceEvidenceContext) (index : N) (flow : AgentFlow) :
    result () AgentReportPublishError :=
  let field := field_of (lit "flows") index in
  ensure guard_err (bool_decide (sc_coverage scope = CoverageUnassessed))
           (invalid_report (field "id") (lit "flows require partial or complete repository coverage")) in
  ensure guard_err (negb (valid_agent_id (fl_id flow))) (invalid_report (field "id") ID_TEXT) in
  ensure guard_err (negb (valid_title (fl_title flow)))
           (invalid_report (field "title") (at_most MAX_FINDING_TITLE_CHARS)) in
  let? _ := validate_flow_text_list (fl_actors flow) (field "actors") true in
  let? _ := validate_flow_text_list (fl_entry_points flow) (field "entryPoints") true in
  let? _ := validate_flow_text_list (fl_risks flow) (field "risks") false in
  let? _ := validate_flow_text_list (fl_existing_coverage flow) (field "existingCoverage") false in
  ensure guard_err (negb (valid_validation_text (fl_expected_outcome flow)))
           (invalid_report (field "expectedOutcome") (at_most MAX_VALIDATION_TEXT_CHARS)) in
  ensure guard_err (bool_decide (fl_steps flow = []) || (MAX_AGENT_FLOW_STEPS <? items (fl_steps flow)))
           (invalid_report (field "steps")
              (lit "must contain between 1 and " ++ dec MAX_AGENT_FLOW_STEPS ++ lit " steps")) in
  ensure guard_err (negb (unique_ids (fp_id <$> fl_steps flow)))
           (invalid_report (field "steps") (lit "step ids must be unique")) in
  let? _ := each (validate_agent_flow_step scope context index) 0 (fl_steps flow) in
  ensure guard_err ((MAX_AGENT_PROPOSED_CHECKS <? items (fl_verification_candidate_ids flow))
                    || negb (unique_ids (fl_verification_candidate_ids flow)))
           (invalid_report (field "verificationCandidateIds")
              (lit "must contain unique bounded check ids")) in
  each (λ _ candidate_id,
      guard_err (negb (bool_decide (candidate_id ∈ pc_id <$> proposed_checks)))
        (invalid_report (field "verificationCandidateIds")
           (lit "references unknown proposed check " ++ candidate_id)))
    0 (fl_verification_candidate_ids flow).

(** ** Proposed checks and flows of validation *)

Definition COMMANDS : str :=
  lit "supported commands are `cargo test --quiet`, `npm test --silent`, `pytest --quiet`, `python[3] -m pytest --quiet`, and `go test ./...`".

Definition validate_agent_proposed_check (context : WorkspaceEvidenceContext) (index : N)
    (check : AgentProposedCheck) : result () AgentReportPublishError :=
  let field := field_of (lit "proposedChecks") index in
  let? repository := ok_or (find_repository context (pc_repository_id check))
                       (invalid_report (field "repositoryId") FROM_CONTEXT) in
  ensure guard_err (negb (valid_agent_id (pc_id check))) (invalid_report (field "id") ID_TEXT) in
  ensure guard_err (negb (valid_title (pc_label check)))
           (invalid_report (field "label") (at_most MAX_FINDING_TITLE_CHARS)) in
  ensure guard_err (negb (trusted_nested_working_directory (eo_worktree_display_path repository)
                            (pc_working_directory check)))
           (invalid_report (field "workingDirectory")
              (lit "must identify a non-symlink directory at or beneath repository "
               ++ pc_repository_id check ++ lit " worktreeDisplayPath")) in
  ensure guard_err ((MAX_PROPOSAL_ARGUMENTS <? items (pc_args check))
                    || negb (bounded_arguments (pc_args check)))
           (invalid_report (field "args")
              (lit "must contain at most " ++ dec MAX_PROPOSAL_ARGUMENTS
               ++ lit " non-empty bounded arguments")) in
  ensure guard_err (negb (approved_fixed_command (pc_executable check) (pc_args check)))
           (invalid_report (field "executable") COMMANDS) in
  ensure guard_err ((pc_timeout_ms check =? 0) || (MAX_PROPOSED_TIMEOUT_MS <? pc_timeout_ms check))
           (invalid_report (field "timeoutMs")
              (lit "must be between 1 and " ++ dec MAX_PROPOSED_TIMEOUT_MS ++ lit " milliseconds")) in
  ensure guard_err ((MAX_PROPOSAL_ENVIRONMENT_NAMES <? items (pc_environment_names check))
                    || existsb (λ name, negb (bool_decide (name = lit "CI"))) (pc_environment_names check))
           (invalid_report (field "environmentNames")
              (lit "may contain only the trusted CI environment name")) in
  ensure guard_err (negb (bounded MAX_PROPOSAL_REASON_CHARS (pc_reason check)))
           (invalid_report (field "reason") (at_most MAX_PROPOSAL_REASON_CHARS)) in
  validate_evidence_list (pc_evidence check) (field "evidence").

Definition validate_validation_step (index step_index : N) (step : AgentValidationStep) :
    result () AgentReportPublishError :=
  let field := field_of (indexed (lit "validationFlows") index ++ lit ".steps") step_index in
  ensure guard_err (negb (valid_agent_id (vs_id step))) (invalid_report (field "id") ID_TEXT) in
  ensure guard_err (negb (valid_validation_text (vs_action step)))
           (invalid_report (field "action") (at_most MAX_VALIDATION_TEXT_CHARS)) in
  ensure guard_err (negb (valid_validation_text (vs_expected step)))
           (invalid_report (field "expected") (at_most MAX_VALIDATION_TEXT_CHARS)) in
  validate_evidence_list (vs_evidence step) (field "evidence").

Definition validate_agent_validation_flow (index : N) (flow : AgentValidationFlow) :
    result () AgentReportPublishError :=
  let field := field_of (lit "validationFlows") index in
  ensure guard_err (negb (valid_agent_id (vf_id flow))) (invalid_report (field "id") ID_TEXT) in
  ensure guard_err (negb (valid_title (vf_title flow)))
           (invalid_report (field "title") (at_most MAX_FINDING_TITLE_CHARS)) in
  ensure guard_err (negb (valid_validation_text (vf_goal flow)))
           (invalid_report (field "goal") (at_most MAX_VALIDATION_TEXT_CHARS)) in
  ensure guard_err ((MAX_FINDING_EVIDENCE <? items (vf_prerequisites flow))
                    || existsb (λ item, negb (valid_validation_text item)) (vf_prerequisites flow))
           (invalid_report (field "prerequisites")
              (lit "must contain at most " ++ dec MAX_FINDING_EVIDENCE
               ++ lit " non-empty bounded prerequisites")) in
  ensure guard_err (bool_decide (vf_steps flow = []) || (MAX_VALIDATION_FLOW_STEPS <? items (vf_steps flow)))
           (invalid_report (field "steps")
              (lit "must contain between 1 and " ++ dec MAX_VALIDATION_FLOW_STEPS ++ lit " steps")) in
  ensure guard_err (negb (unique_ids (vs_id <$> vf_steps flow)))
           (invalid_report (field "steps") (lit "step ids must be unique")) in
  each (validate_validation_step index) 0 (vf_steps flow).

(** ** Findings and the whole report *)

Definition validate_finding (context : WorkspaceEvidenceContext) (flow_ids : list str) (index : N)
    (finding : AgentFinding) : result () AgentReportPublishError :=
  let field := field_of (lit "findings") index in
  ensure guard_err (negb (valid_agent_id (fi_id finding))) (invalid_report (field "id") ID_TEXT) in
  ensure guard_err (negb (valid_title (fi_title finding)))
           (invalid_report (field "title") (at_most MAX_FINDING_TITLE_CHARS)) in
  ensure guard_err (MAX_FINDING_DETAIL_CHARS <? chars (fi_detail finding))
           (invalid_report (field "detail") (not_exceed MAX_FINDING_DETAIL_CHARS)) in
  let? _ := validate_evidence_list (fi_evidence finding) (field "evidence") in
  ensure guard_err (match fi_repository_id finding with
                    | Some id => negb (bool_decide (id ∈ ec_allowed_repository_ids context))
                    | None => false
                    end)
           (invalid_report (field "repositoryId") FROM_CONTEXT) in
  ensure guard_err ((MAX_AGENT_FLOWS <? items (fi_flow_ids finding))
                    || negb (unique_ids (fi_flow_ids finding)))
           (invalid_report (field "flowIds") (lit "must contain unique bounded flow ids")) in
  each (λ _ flow_id,
      guard_err (negb (bool_decide (flow_id ∈ flow_ids)))
        (invalid_report (field "flowIds") (lit "references unknown flow " ++ flow_id)))
    0 (fi_flow_ids finding).

Definition validate_next_action (index : N) (action : str) : result () AgentReportPublishError :=
  guard_err (negb (bounded MAX_NEXT_ACTION_CHARS action))
    (invalid_report (indexed (lit "nextActions") index) (at_most MAX_NEXT_ACTION_CHARS)).

Definition validate_agent_report_document (report : AgentReportDocument)
    (context : WorkspaceEvidenceContext) (graph : WorkspaceGraphManifest) :
    result () AgentReportPublishError :=
  ensure guard_err (negb (ad_schema_version report =? WORKSPACE_EVIDENCE_SCHEMA_VERSION))
           (invalid_report (lit "schemaVersion")
              (lit "must be " ++ dec WORKSPACE_EVIDENCE_SCHEMA_VERSION)) in
  ensure guard_err (negb (ad_workspace_id report =? ec_workspace_id context))
           (invalid_report (lit "workspaceId") (lit "must exactly match .wts/context.json")) in
  ensure guard_err (match ad_updated_at_unix_ms report with Some t => (t <? 0)%Z | None => false end)
           (invalid_report (lit "updatedAtUnixMs") (lit "must be a non-negative Unix timestamp")) in
  ensure guard_err (MAX_AGENT_SUMMARY_CHARS <? chars (ad_summary report))
           (invalid_report (lit "summary") (not_exceed MAX_AGENT_SUMMARY_CHARS)) in
  let? _ := validate_agent_report_scope (ad_scope report) context graph in
  let? _ := validate_agent_environment_plan (ad_environment report) (ad_scope report) context in
  ensure guard_err (MAX_AGENT_FLOWS <? items (ad_flows report))
           (invalid_report (lit "flows") (not_more MAX_AGENT_FLOWS)) in
  ensure guard_err (MAX_AGENT_FINDINGS <? items (ad_findings report))
           (invalid_report (lit "findings") (not_more MAX_AGENT_FINDINGS)) in
  ensure guard_err (MAX_AGENT_NEXT_ACTIONS <? items (ad_next_actions report))
           (invalid_report (lit "nextActions") (not_more MAX_AGENT_NEXT_ACTIONS)) in
  ensure guard_err (MAX_AGENT_PROPOSED_CHECKS <? items (ad_proposed_checks report))
           (invalid_report (lit "proposedChecks") (not_more MAX_AGENT_PROPOSED_CHECKS)) in
  ensure guard_err (MAX_AGENT_VALIDATION_FLOWS <? items (ad_validation_flows report))
           (invalid_report (lit "validationFlows") (not_more MAX_AGENT_VALIDATION_FLOWS)) in
  let? _ := each validate_next_action 0 (ad_next_actions report) in
  ensure guard_err (negb (unique_ids (fi_id <$> ad_findings report)))
           (invalid_report (lit "findings") (lit "finding ids must be unique")) in
  let? _ := each (validate_finding context (fl_id <$> ad_flows report)) 0 (ad_findings report) in
  ensure guard_err (negb (unique_ids (pc_id <$> ad_proposed_checks report)))
           (invalid_report (lit "proposedChecks") (lit "check ids must be unique")) in
  let? _ := each (validate_agent_proposed_check context) 0 (ad_proposed_checks report) in
  ensure guard_err (negb (unique_ids (vf_id <$> ad_validation_flows report)))
           (invalid_report (lit "validationFlows") (lit "flow ids must be unique")) in
  let? _ := each validate_agent_validation_flow 0 (ad_validation_flows report) in
  ensure guard_err (negb (unique_ids (fl_id <$> ad_flows report)))
           (invalid_report (lit "flows") (lit "flow ids must be unique")) in
  each (validate_agent_flow (ad_scope report) (ad_proposed_checks report) context) 0 (ad_flows report).
End files.
