(* ===== verification/AgentReportProofs.v ===== *)
(** * What an accepted report says

    The report checks decide a declarative condition, and an accepted report names nothing outside
    the repositories of its workspace. *)

From S2P Require Import Prelude Order Text StoreBase Workspace Runtime TurnWorld TurnChecks AgentReports.

Local Open Scope N_scope.


(** ** Accepted reports

    What a report must say to be accepted, and that nothing else is: the order of the checks and
    the positions in the error texts drop out. *)

(** A text that is not blank, of limited length. *)
Definition text_ok (limit : N) (s : str) : Prop := trim s ≠ [] ∧ chars s ≤ limit.

Definition short_list {A} (limit : N) (P : A → Prop) (l : list A) : Prop :=
  items l ≤ limit ∧ Forall P l.

Definition id_ok (id : str) : Prop :=
  id ≠ [] ∧ byte_len id ≤ 128
  ∧ Forall (λ c, is_ascii_alphanumeric c = true ∨ c = 45 ∨ c = 95 ∨ c = 46) id.

(** Repositories that were looked at, were not, and were left out: each once, together all. *)
Definition coverage_ok (scope : AgentReportScope) (allowed : list str) : Prop :=
  let reviewed := sc_reviewed_repository_ids scope in
  let others := sc_unresolved_repository_ids scope
                ++ (sk_repository_id <$> sc_skipped_repositories scope) in
  NoDup (reviewed ++ others) ∧ (∀ id, id ∈ reviewed ++ others ↔ id ∈ allowed)
  ∧ match sc_coverage scope with
    | CoverageUnassessed => False
    | CoveragePartial => reviewed ≠ [] ∧ others ≠ []
    | CoverageComplete => others = []
    end.

Definition graph_ok (scope : AgentReportScope) (graph : WorkspaceGraphManifest) : Prop :=
  gm_schema_version graph = 1 ∧ sc_graph_status scope = gm_status graph
  ∧ match gm_status graph with
    | GraphReady => ∃ digest, sc_graph_sha256 scope = Some digest ∧ gm_graph_sha256 graph = Some digest
                              ∧ report_sha256 digest = true
    | _ => sc_graph_sha256 scope = None
    end.

Definition scope_ok (scope : AgentReportScope) (context : WorkspaceEvidenceContext)
    (graph : WorkspaceGraphManifest) : Prop :=
  scope = default_scope
  ∨ gm_workspace_id graph = ec_workspace_id context ∧ graph_ok scope graph
    ∧ Forall (λ item, text_ok MAX_VALIDATION_TEXT_CHARS (sk_reason item)) (sc_skipped_repositories scope)
    ∧ coverage_ok scope (ec_allowed_repository_ids context).

(** [path] is strictly below [root]. *)
Definition strictly_below (root path : str) : Prop :=
  ∃ rest, rest ≠ [] ∧ path_components path = path_components root ++ rest.

Section spec.
Variable files : ReportFiles.

(** A directory that is not a link, by its absolute name, and what it resolves to. *)
Definition resolves (path root : str) : Prop :=
  is_absolute path = true ∧ rf_kind files path = Some KindDirectory
  ∧ rf_canonicalize files path = Some root.

(** Evidence exists below the worktree of its repository. *)
Definition evidence_ok (repository : EvidenceRepository) (evidence : AgentFlowEvidence) : Prop :=
  fe_repository_id evidence = eo_repository_id repository
  ∧ (fe_path evidence ≠ [] ∧ chars (fe_path evidence) ≤ MAX_FINDING_EVIDENCE_CHARS
     ∧ Forall (λ c, is_normal c = true) (path_components (fe_path evidence)))
  ∧ ∃ root canonical, resolves (eo_worktree_display_path repository) root
      ∧ rf_canonicalize files (path_join root (fe_path evidence)) = Some canonical
      ∧ strictly_below root canonical
      ∧ match fe_line evidence with
        | Some line => line ≠ 0 ∧ rf_is_file files canonical = true
        | None => True
        end.

Definition some_evidence (repository : EvidenceRepository) (evidence : list AgentFlowEvidence) : Prop :=
  evidence ≠ [] ∧ short_list MAX_FINDING_EVIDENCE (evidence_ok repository) evidence.

Definition reviewed_repository (scope : AgentReportScope) (context : WorkspaceEvidenceContext)
    (id : str) (repository : EvidenceRepository) : Prop :=
  find_repository context id = Some repository ∧ id ∈ sc_reviewed_repository_ids scope.

Definition requirement_ok (scope : AgentReportScope) (context : WorkspaceEvidenceContext)
    (r : AgentEnvironmentRequirement) : Prop :=
  id_ok (er_id r) ∧ text_ok MAX_VALIDATION_TEXT_CHARS (er_name r)
  ∧ text_ok MAX_VALIDATION_TEXT_CHARS (er_detail r)
  ∧ ∃ repository, reviewed_repository scope context (er_repository_id r) repository
      ∧ some_evidence repository (er_evidence r).

Definition arguments_ok (arguments : list str) : Prop :=
  Forall (λ a, a ≠ [] ∧ chars a ≤ MAX_PROPOSAL_ARGUMENT_CHARS) arguments.

Definition setup_step_ok (scope : AgentReportScope) (context : WorkspaceEvidenceContext)
    (s : AgentEnvironmentSetupStep) : Prop :=
  id_ok (es_id s) ∧ text_ok MAX_VALIDATION_TEXT_CHARS (es_action s)
  ∧ (es_command s ≠ [] ∧ items (es_command s) ≤ MAX_PROPOSAL_ARGUMENTS + 1
     ∧ arguments_ok (es_command s))
  ∧ ∃ repository, reviewed_repository scope context (es_repository_id s) repository
      ∧ trusted_nested_working_directory files (eo_worktree_display_path repository)
          (es_working_directory s) = true
      ∧ some_evidence repository (es_evidence s).

Definition environment_ok (environment : AgentEnvironmentPlan) (scope : AgentReportScope)
    (context : WorkspaceEvidenceContext) : Prop :=
  environment = default_environment
  ∨ ep_status environment ≠ EnvironmentUnassessed
    ∧ sc_coverage scope ≠ CoverageUnassessed ∧ sc_graph_status scope = GraphReady
    ∧ text_ok MAX_VALIDATION_TEXT_CHARS (ep_summary environment)
    ∧ short_list MAX_ENVIRONMENT_UNRESOLVED (text_ok MAX_VALIDATION_TEXT_CHARS) (ep_unresolved environment)
    ∧ (ep_unresolved environment = [] ↔ ep_status environment = EnvironmentPlanned)
    ∧ ¬ (ep_requirements environment = [] ∧ ep_setup_steps environment = [])
    ∧ NoDup (er_id <$> ep_requirements environment) ∧ NoDup (es_id <$> ep_setup_steps environment)
    ∧ short_list MAX_ENVIRONMENT_REQUIREMENTS (requirement_ok scope context) (ep_requirements environment)
    ∧ short_list MAX_ENVIRONMENT_SETUP_STEPS (setup_step_ok scope context) (ep_setup_steps environment).

Definition flow_step_ok (scope : AgentReportScope) (context : WorkspaceEvidenceContext)
    (s : AgentFlowStep) : Prop :=
  id_ok (fp_id s) ∧ text_ok MAX_VALIDATION_TEXT_CHARS (fp_component s)
  ∧ text_ok MAX_VALIDATION_TEXT_CHARS (fp_action s)
  ∧ ∃ repository, reviewed_repository scope context (fp_repository_id s) repository
      ∧ some_evidence repository (fp_evidence s).

Definition texts_ok : list str → Prop :=
  short_list MAX_FLOW_TEXT_ITEMS (text_ok MAX_VALIDATION_TEXT_CHARS).

(** Distinct references to known ids. *)
Definition references_ok (limit : N) (known ids : list str) : Prop :=
  items ids ≤ limit ∧ NoDup ids ∧ ids ⊆ known.

Definition flow_ok (scope : AgentReportScope) (checks : list AgentProposedCheck)
    (context : WorkspaceEvidenceContext) (f : AgentFlow) : Prop :=
  sc_coverage scope ≠ CoverageUnassessed ∧ id_ok (fl_id f) ∧ text_ok MAX_FINDING_TITLE_CHARS (fl_title f)
  ∧ (fl_actors f ≠ [] ∧ texts_ok (fl_actors f)) ∧ (fl_entry_points f ≠ [] ∧ texts_ok (fl_entry_points f))
  ∧ texts_ok (fl_risks f) ∧ texts_ok (fl_existing_coverage f)
  ∧ text_ok MAX_VALIDATION_TEXT_CHARS (fl_expected_outcome f)
  ∧ (fl_steps f ≠ [] ∧ NoDup (fp_id <$> fl_steps f)
     ∧ short_list MAX_AGENT_FLOW_STEPS (flow_step_ok scope context) (fl_steps f))
  ∧ references_ok MAX_AGENT_PROPOSED_CHECKS (pc_id <$> checks) (fl_verification_candidate_ids f).

Definition notes_ok : list str → Prop := short_list MAX_FINDING_EVIDENCE (text_ok MAX_FINDING_EVIDENCE_CHARS).

Definition proposed_check_ok (context : WorkspaceEvidenceContext) (c : AgentProposedCheck) : Prop :=
  id_ok (pc_id c) ∧ text_ok MAX_FINDING_TITLE_CHARS (pc_label c)
  ∧ (∃ repository, find_repository context (pc_repository_id c) = Some repository
       ∧ trusted_nested_working_directory files (eo_worktree_display_path repository)
           (pc_working_directory c) = true)
  ∧ (items (pc_args c) ≤ MAX_PROPOSAL_ARGUMENTS ∧ arguments_ok (pc_args c))
  ∧ approved_fixed_command (pc_executable c) (pc_args c) = true
  ∧ (0 < pc_timeout_ms c ≤ MAX_PROPOSED_TIMEOUT_MS)
  ∧ short_list MAX_PROPOSAL_ENVIRONMENT_NAMES (λ name, name = lit "CI") (pc_environment_names c)
  ∧ text_ok MAX_PROPOSAL_REASON_CHARS (pc_reason c) ∧ notes_ok (pc_evidence c).

Definition validation_step_ok (s : AgentValidationStep) : Prop :=
  id_ok (vs_id s) ∧ text_ok MAX_VALIDATION_TEXT_CHARS (vs_action s)
  ∧ text_ok MAX_VALIDATION_TEXT_CHARS (vs_expected s) ∧ notes_ok (vs_evidence s).

Definition validation_flow_ok (f : AgentValidationFlow) : Prop :=
  id_ok (vf_id f) ∧ text_ok MAX_FINDING_TITLE_CHARS (vf_title f)
  ∧ text_ok MAX_VALIDATION_TEXT_CHARS (vf_goal f)
  ∧ short_list MAX_FINDING_EVIDENCE (text_ok MAX_VALIDATION_TEXT_CHARS) (vf_prerequisites f)
  ∧ vf_steps f ≠ [] ∧ NoDup (vs_id <$> vf_steps f)
  ∧ short_list MAX_VALIDATION_FLOW_STEPS validation_step_ok (vf_steps f).

Definition finding_ok (context : WorkspaceEvidenceContext) (flow_ids : list str) (f : AgentFinding) : Prop :=
  id_ok (fi_id f) ∧ text_ok MAX_FINDING_TITLE_CHARS (fi_title f)
  ∧ chars (fi_detail f) ≤ MAX_FINDING_DETAIL_CHARS ∧ notes_ok (fi_evidence f)
  ∧ (∀ id, fi_repository_id f = Some id → id ∈ ec_allowed_repository_ids context)
  ∧ references_ok MAX_AGENT_FLOWS flow_ids (fi_flow_ids f).

Record report_ok (report : AgentReportDocument) (context : WorkspaceEvidenceContext)
    (graph : WorkspaceGraphManifest) : Prop := {
  rpt_schema : ad_schema_version report = 1;
  rpt_workspace : ad_workspace_id report = ec_workspace_id context;
  rpt_time : ∀ t, ad_updated_at_unix_ms report = Some t → (0 ≤ t)%Z;
  rpt_summary : chars (ad_summary report) ≤ MAX_AGENT_SUMMARY_CHARS;
  rpt_scope : scope_ok (ad_scope report) context graph;
  rpt_environment : environment_ok (ad_environment report) (ad_scope report) context;
  rpt_actions : short_list MAX_AGENT_NEXT_ACTIONS (text_ok MAX_NEXT_ACTION_CHARS) (ad_next_actions report);
  rpt_findings : NoDup (fi_id <$> ad_findings report)
                 ∧ short_list MAX_AGENT_FINDINGS (finding_ok context (fl_id <$> ad_flows report))
                     (ad_findings report);
  rpt_checks : NoDup (pc_id <$> ad_proposed_checks report)
               ∧ short_list MAX_AGENT_PROPOSED_CHECKS (proposed_check_ok context) (ad_proposed_checks report);
  rpt_validation : NoDup (vf_id <$> ad_validation_flows report)
                   ∧ short_list MAX_AGENT_VALIDATION_FLOWS validation_flow_ok (ad_validation_flows report);
  rpt_flows : NoDup (fl_id <$> ad_flows report)
              ∧ short_list MAX_AGENT_FLOWS
                  (flow_ok (ad_scope report) (ad_proposed_checks report) context) (ad_flows report)
}.

(** ** Leaves *)

Lemma items_le {A} n (l : list A) : (n <? items l) = false ↔ items l ≤ n.
Proof. apply N.ltb_ge. Qed.

Lemma is_empty_true (s : str) : is_empty s = true ↔ s = [].
Proof. by destruct s. Qed.

Lemma bounded_true n s : bounded n s = true ↔ text_ok n s.
Proof.
  unfold bounded, text_ok. by rewrite andb_true_iff, negb_true_iff, is_empty_nil, N.leb_le.
Qed.

Lemma validation_text_true s : valid_validation_text s = true ↔ text_ok MAX_VALIDATION_TEXT_CHARS s.
Proof. apply bounded_true. Qed.

Lemma title_true s : valid_title s = true ↔ text_ok MAX_FINDING_TITLE_CHARS s.
Proof. apply bounded_true. Qed.

Lemma agent_id_true id : valid_agent_id id = true ↔ id_ok id.
Proof.
  unfold valid_agent_id, id_ok.
  rewrite !andb_true_iff, negb_true_iff, is_empty_nil, N.leb_le, forallb_spec, Forall_forall.
  split; [intros [[? ?] Hall]|intros (? & ? & Hall)]; (split_and!; [done..|]); intros c Hc; specialize (Hall c Hc);
    rewrite ?orb_true_iff, ?N.eqb_eq in *; tauto.
Qed.

Lemma unique_true l : unique_ids l = true ↔ NoDup l.
Proof. apply bool_decide_eq_true. Qed.

Lemma exists_negb {A} (f : A → bool) l : existsb (λ x, negb (f x)) l = false ↔ Forall (λ x, f x = true) l.
Proof. rewrite existsb_false, Forall_forall. by setoid_rewrite negb_false_iff. Qed.

Lemma then_Ok {U E} (r : result () E) (k : () → result U E) u :
  rbind r k = Ok u ↔ r = Ok tt ∧ k tt = Ok u.
Proof. rewrite rbind_Ok. split; [by intros ([] & ? & ?)|intros []; eauto]. Qed.

Lemma let_Ok {T U E} (o : option T) (e : E) (k : T → result U E) u :
  rbind (ok_or o e) k = Ok u ↔ ∃ x, o = Some x ∧ k x = Ok u.
Proof. rewrite rbind_Ok. by setoid_rewrite ok_or_Ok. Qed.

Lemma each_Ok {A E} (f : N → A → result () E) (P : A → Prop) l :
  (∀ i x, f i x = Ok tt ↔ P x) → ∀ i, each f i l = Ok tt ↔ Forall P l.
Proof.
  intros Hf. induction l as [|x l IH]; intros i; cbn [each]; [done|].
  by rewrite then_Ok, Hf, IH, Forall_cons.
Qed.

Lemma each_known {E} (e : str → E) (known ids : list str) i :
  each (λ _ id, guard_err (negb (bool_decide (id ∈ known))) (e id)) i ids = Ok tt ↔ ids ⊆ known.
Proof.
  rewrite (each_Ok _ (λ id, id ∈ known)), Forall_forall; [done|].
  intros. by rewrite guard_err_Ok, negb_false_iff, bool_decide_eq_true.
Qed.

Lemma Forall_iff {A} (P Q : A → Prop) l : (∀ x, P x ↔ Q x) → Forall P l ↔ Forall Q l.
Proof. intros HPQ. rewrite !Forall_forall. by setoid_rewrite HPQ. Qed.

Lemma texts_true n l : Forall (λ s, bounded n s = true) l ↔ Forall (text_ok n) l.
Proof. apply Forall_iff, bounded_true. Qed.

Lemma validation_texts_true l :
  Forall (λ s, valid_validation_text s = true) l ↔ Forall (text_ok MAX_VALIDATION_TEXT_CHARS) l.
Proof. apply texts_true. Qed.

Lemma notes_true evidence field : validate_evidence_list evidence field = Ok tt ↔ notes_ok evidence.
Proof.
  unfold validate_evidence_list, notes_ok, short_list.
  rewrite guard_err_Ok, orb_false_iff, items_le, exists_negb. by setoid_rewrite texts_true.
Qed.

Lemma text_list_true values field required :
  validate_flow_text_list values field required = Ok tt
  ↔ (required = true → values ≠ []) ∧ texts_ok values.
Proof.
  unfold validate_flow_text_list, texts_ok, short_list.
  rewrite guard_err_Ok, !orb_false_iff, items_le, exists_negb, validation_texts_true, andb_false_iff,
    bool_decide_eq_false.
  destruct required; intuition congruence.
Qed.

Lemma arguments_true l : bounded_arguments l = true ↔ arguments_ok l.
Proof.
  unfold bounded_arguments, arguments_ok. rewrite forallb_spec, Forall_forall.
  setoid_rewrite andb_true_iff. setoid_rewrite negb_true_iff. setoid_rewrite is_empty_nil.
  by setoid_rewrite N.leb_le.
Qed.

Create Rewrite HintDb report.

#[local] Hint Rewrite @guard_err_Ok @then_Ok @let_Ok @ok_or_Ok orb_false_iff andb_true_iff
  negb_false_iff negb_true_iff N.eqb_eq @items_le agent_id_true validation_text_true title_true
  bounded_true unique_true notes_true text_list_true arguments_true @exists_negb validation_texts_true
  @bool_decide_eq_true @bool_decide_eq_false : report.

(** The error texts do not matter to what is accepted. *)
Ltac forget_errors := cbv zeta; repeat match goal with
  | |- context [invalid_report ?f ?m] => generalize (invalid_report f m); intros ?
  end.

(** ** Paths *)

Lemma components_prefix_iff p s : components_prefix p s = true ↔ ∃ r, s = p ++ r.
Proof.
  revert s. induction p as [|a p IH]; intros s; cbn [components_prefix].
  - split; [by exists s|done].
  - destruct s as [|b s]; [split; [done|by intros []]|].
    rewrite andb_true_iff, bool_decide_eq_true, IH. split.
    + intros [-> [r ->]]. by exists r.
    + intros [r [= -> ->]]. eauto.
Qed.

Lemma below_true root path :
  path_starts_with path root = true ∧ path_eqb path root = false ↔ strictly_below root path.
Proof.
  unfold path_starts_with, path_eqb, strictly_below.
  rewrite components_prefix_iff, bool_decide_eq_false. split.
  - intros [[r Hr] Hn]. exists r. split; [|done]. intros ->. by rewrite app_nil_r in Hr.
  - intros (r & Hne & Hr). split; [eauto|]. rewrite Hr. intros Heq.
    apply Hne. apply (app_inv_head (path_components root)). by rewrite app_nil_r.
Qed.

Lemma absolute_has_root path : is_absolute path = true → RootDir ∈ path_components path.
Proof. intros H. unfold path_components. rewrite H. by left. Qed.

Lemma directory_Ok path field root : trusted_directory files path field = Ok root ↔ resolves path root.
Proof.
  unfold trusted_directory, resolves. rewrite then_Ok, guard_err_Ok, negb_false_iff.
  destruct (rf_kind files path) as [kind|]; cbn [ok_or rbind]; [|naive_solver].
  autorewrite with report. naive_solver.
Qed.

(** ** Evidence *)

Lemma line_Ok canonical (line : option N) :
  bool_decide (line = Some 0) || bool_decide (is_Some line) && negb (rf_is_file files canonical) = false
  ↔ match line with Some line => line ≠ 0 ∧ rf_is_file files canonical = true | None => True end.
Proof.
  rewrite orb_false_iff, andb_false_iff, negb_false_iff, !bool_decide_eq_false.
  destruct line as [line|]; [|by split; [|intros _; split; [done|left; by intros []]]].
  split; [intros [Hl [Hn|Hf]]|intros [Hl Hf]]; [by destruct Hn|split; [congruence|done]|].
  split; [congruence|by right].
Qed.

Lemma canonical_Ok root path line (e1 e2 e3 : AgentReportPublishError) :
  (let? canonical := ok_or (rf_canonicalize files path) e1 in
   ensure guard_err (negb (path_starts_with canonical root) || path_eqb canonical root) e2 in
   guard_err (bool_decide (line = Some 0)
              || (bool_decide (is_Some line) && negb (rf_is_file files canonical))) e3) = Ok tt
  ↔ ∃ canonical, rf_canonicalize files path = Some canonical ∧ strictly_below root canonical
      ∧ match line with Some line => line ≠ 0 ∧ rf_is_file files canonical = true | None => True end.
Proof.
  rewrite let_Ok. setoid_rewrite then_Ok. setoid_rewrite guard_err_Ok.
  setoid_rewrite orb_false_iff at 1. setoid_rewrite negb_false_iff.
  setoid_rewrite below_true. by setoid_rewrite line_Ok.
Qed.

Lemma evidence_path_Ok repository evidence field :
  fe_repository_id evidence = eo_repository_id repository →
  validate_flow_evidence_path files evidence repository field = Ok tt ↔ evidence_ok repository evidence.
Proof.
  intros Hid. unfold validate_flow_evidence_path, evidence_ok. rewrite then_Ok.
  autorewrite with report. rewrite is_empty_nil, N.ltb_ge.
  pose proof (directory_Ok (eo_worktree_display_path repository) (field ++ lit ".repositoryId")) as Hd.
  destruct (trusted_directory _ _ _) as [root|message]; cbn [rbind].
  - rewrite canonical_Ok. split.
    + intros ([[[? ?] ?] ?] & canonical & ?). split_and!; [done..|].
      exists root, canonical. by rewrite <- Hd.
    + intros (_ & (? & ? & Hn) & root' & canonical & [= ->]%Hd & ?). split_and!; [done..| |done|eauto].
      destruct (is_absolute _) eqn:Ha; [|done]. apply absolute_has_root in Ha.
      rewrite Forall_forall in Hn. by specialize (Hn _ Ha).
  - split; [by intros []|]. by intros (_ & _ & root & canonical & ?%Hd & _).
Qed.

Lemma evidence_Ok noun repository evidence field :
  validate_evidence files noun evidence (eo_repository_id repository) repository field = Ok tt
  ↔ some_evidence repository evidence.
Proof.
  unfold validate_evidence, some_evidence, short_list. rewrite then_Ok.
  rewrite (each_Ok _ (evidence_ok repository)).
  - autorewrite with report. tauto.
  - intros i item. rewrite then_Ok. autorewrite with report. split.
    + by intros [Hid ?%evidence_path_Ok].
    + intros He. split; [by destruct He|]. apply evidence_path_Ok; [by destruct He|done].
Qed.

(** ** Items of a repository *)

Lemma find_repository_id context id r :
  find_repository context id = Some r → eo_repository_id r = id ∧ r ∈ ec_repositories context.
Proof.
  unfold find_repository. intros (Hid & Hr)%head_Some_elem_of%list_elem_of_filter. done.
Qed.

Lemma environment_repository_Ok id scope context field r :
  validate_environment_repository id scope context field = Ok r
  ↔ reviewed_repository scope context id r.
Proof.
  unfold validate_environment_repository, reviewed_repository, reviewed_by. rewrite let_Ok.
  setoid_rewrite then_Ok. setoid_rewrite guard_err_Ok. setoid_rewrite negb_false_iff.
  setoid_rewrite bool_decide_eq_true. naive_solver.
Qed.

Lemma in_repository id scope context field (k : EvidenceRepository → result () AgentReportPublishError) :
  rbind (validate_environment_repository id scope context field) k = Ok tt
  ↔ ∃ r, reviewed_repository scope context id r ∧ k r = Ok tt.
Proof. rewrite rbind_Ok. by setoid_rewrite environment_repository_Ok. Qed.

Lemma reviewed_evidence noun scope context id repository evidence field :
  reviewed_repository scope context id repository →
  validate_evidence files noun evidence id repository field = Ok tt ↔ some_evidence repository evidence.
Proof. intros [[<- _]%find_repository_id _]. apply evidence_Ok. Qed.

Lemma requirement_true scope context i r :
  validate_requirement files scope context i r = Ok tt ↔ requirement_ok scope context r.
Proof.
  unfold validate_requirement, requirement_ok. rewrite in_repository. split.
  - intros (repository & Hr & H). autorewrite with report in H.
    rewrite (reviewed_evidence _ _ _ _ _ _ _ Hr) in H. naive_solver.
  - intros (? & ? & ? & repository & Hr & ?). exists repository. autorewrite with report.
    by rewrite (reviewed_evidence _ _ _ _ _ _ _ Hr).
Qed.

Lemma setup_step_true scope context i s :
  validate_setup_step files scope context i s = Ok tt ↔ setup_step_ok scope context s.
Proof.
  unfold validate_setup_step, setup_step_ok. rewrite in_repository. split.
  - intros (repository & Hr & H). autorewrite with report in H.
    rewrite (reviewed_evidence _ _ _ _ _ _ _ Hr) in H. naive_solver.
  - intros (? & ? & (? & ? & ?) & repository & Hr & ? & ?). exists repository. autorewrite with report.
    by rewrite (reviewed_evidence _ _ _ _ _ _ _ Hr).
Qed.

Lemma flow_step_true scope context i j s :
  validate_agent_flow_step files scope context i j s = Ok tt ↔ flow_step_ok scope context s.
Proof.
  unfold validate_agent_flow_step, flow_step_ok, reviewed_by. rewrite then_Ok, let_Ok. split.
  - intros (Hid & repository & Hf & H). autorewrite with report in Hid, H. destruct H as (Hr & ? & ? & H).
    apply (reviewed_evidence _ _ _ _ _ _ _ (conj Hf Hr)) in H. split_and!; [done..|]. by exists repository.
  - intros (? & ? & ? & repository & [Hf Hr] & ?). autorewrite with report. split; [done|].
    exists repository. autorewrite with report.
    by rewrite (reviewed_evidence _ _ _ _ _ _ _ (conj Hf Hr)).
Qed.

Lemma status_true environment (e1 e2 : AgentReportPublishError) :
  ep_status environment ≠ EnvironmentUnassessed →
  match ep_status environment with
  | EnvironmentPlanned => guard_err (negb (bool_decide (ep_unresolved environment = []))) e1
  | _ => guard_err (bool_decide (ep_unresolved environment = [])) e2
  end = Ok tt ↔ (ep_unresolved environment = [] ↔ ep_status environment = EnvironmentPlanned).
Proof. destruct (ep_status environment); autorewrite with report; naive_solver. Qed.

Lemma not_both (P Q : Prop) `{Decision P, Decision Q} :
  bool_decide P && bool_decide Q = false ↔ ¬ (P ∧ Q).
Proof. by rewrite <- bool_decide_and, bool_decide_eq_false. Qed.

Lemma environment_true environment scope context :
  validate_agent_environment_plan files environment scope context = Ok tt
  ↔ environment_ok environment scope context.
Proof.
  unfold validate_agent_environment_plan, environment_ok. forget_errors.
  destruct (bool_decide (ep_status environment = _)) eqn:Hs; autorewrite with report in Hs.
  - autorewrite with report. naive_solver.
  - autorewrite with report.
    rewrite (each_Ok _ _ _ (requirement_true scope context)).
    rewrite (each_Ok _ _ _ (setup_step_true scope context)).
    rewrite status_true, not_both by done. unfold short_list. split; [tauto|].
    intros [->|?]; [by destruct Hs|tauto].
Qed.

Lemma steps_true scope context i l :
  each (validate_agent_flow_step files scope context i) 0 l = Ok tt ↔ Forall (flow_step_ok scope context) l.
Proof. apply each_Ok. intros. apply flow_step_true. Qed.

Lemma flow_true scope checks context i f :
  validate_agent_flow files scope checks context i f = Ok tt ↔ flow_ok scope checks context f.
Proof.
  unfold validate_agent_flow, flow_ok, references_ok, short_list. forget_errors. autorewrite with report.
  rewrite steps_true, each_known. unfold texts_ok, short_list. intuition congruence.
Qed.

Lemma ci_true l : Forall (λ name, bool_decide (name = lit "CI") = true) l ↔ Forall (λ name, name = lit "CI") l.
Proof. apply Forall_iff. intros. apply bool_decide_eq_true. Qed.

Lemma proposed_check_true context i c :
  validate_agent_proposed_check files context i c = Ok tt ↔ proposed_check_ok context c.
Proof.
  unfold validate_agent_proposed_check, proposed_check_ok, short_list. forget_errors. rewrite let_Ok. split.
  - intros (r & Hr & H). autorewrite with report in H.
    rewrite N.eqb_neq, N.ltb_ge, N.neq_0_lt_0, ci_true in H. destruct H as (? & ? & ? & Hrest).
    split_and!; try tauto. by exists r.
  - intros (? & ? & (r & Hr & ?) & Hrest). exists r. autorewrite with report.
    rewrite N.eqb_neq, N.ltb_ge, N.neq_0_lt_0, ci_true. tauto.
Qed.

Lemma validation_step_true i j s : validate_validation_step i j s = Ok tt ↔ validation_step_ok s.
Proof. unfold validate_validation_step, validation_step_ok. forget_errors. by autorewrite with report. Qed.

Lemma validation_flow_true i f : validate_agent_validation_flow i f = Ok tt ↔ validation_flow_ok f.
Proof.
  unfold validate_agent_validation_flow, validation_flow_ok, short_list. forget_errors. autorewrite with report.
  rewrite (each_Ok _ _ _ (validation_step_true i)). tauto.
Qed.

Lemma finding_true context flow_ids i f :
  validate_finding context flow_ids i f = Ok tt ↔ finding_ok context flow_ids f.
Proof.
  unfold validate_finding, finding_ok, references_ok. forget_errors. autorewrite with report. rewrite each_known.
  rewrite N.ltb_ge. destruct (fi_repository_id f); autorewrite with report; naive_solver.
Qed.

Lemma next_action_true i a : validate_next_action i a = Ok tt ↔ text_ok MAX_NEXT_ACTION_CHARS a.
Proof. unfold validate_next_action. by autorewrite with report. Qed.

(** ** The scope *)

Lemma set_empty (A : list str) : (list_to_set A : gset str) = ∅ ↔ A = [].
Proof. destruct A; [by rewrite list_to_set_nil|]. split; [set_solver|done]. Qed.

Lemma set_equal (A B : list str) : (list_to_set A : gset str) = list_to_set B ↔ ∀ x, x ∈ A ↔ x ∈ B.
Proof. rewrite set_eq. by setoid_rewrite elem_of_list_to_set. Qed.

Lemma disjoint_true (A B : list str) :
  (list_to_set A : gset str) ∩ list_to_set B = ∅ ↔ ∀ x, x ∈ A → x ∉ B.
Proof. set_solver. Qed.

Lemma coverage_true scope allowed :
  sc_coverage scope ≠ CoverageUnassessed →
  let reviewed : gset str := list_to_set (sc_reviewed_repository_ids scope) in
  let unresolved : gset str := list_to_set (sc_unresolved_repository_ids scope) in
  let skipped : gset str := list_to_set (sk_repository_id <$> sc_skipped_repositories scope) in
  (NoDup (sc_reviewed_repository_ids scope) ∧ NoDup (sc_unresolved_repository_ids scope)
   ∧ NoDup (sk_repository_id <$> sc_skipped_repositories scope))
  ∧ (reviewed ∩ unresolved = ∅ ∧ reviewed ∩ skipped = ∅ ∧ unresolved ∩ skipped = ∅)
  ∧ match sc_coverage scope with
    | CoverageComplete => reviewed = list_to_set allowed ∧ unresolved = ∅ ∧ skipped = ∅
    | _ => reviewed ∪ unresolved ∪ skipped = list_to_set allowed ∧ reviewed ≠ ∅
           ∧ ¬ (unresolved = ∅ ∧ skipped = ∅)
    end
  ↔ coverage_ok scope allowed.
Proof.
  intros Hc reviewed unresolved skipped. unfold coverage_ok, reviewed, unresolved, skipped.
  set (A := sc_reviewed_repository_ids scope) in *. set (B := sc_unresolved_repository_ids scope) in *.
  set (C := sk_repository_id <$> sc_skipped_repositories scope) in *. clearbody A B C.
  assert ((NoDup A ∧ NoDup B ∧ NoDup C) ∧ (∀ x, x ∈ A → x ∉ B) ∧ (∀ x, x ∈ A → x ∉ C)
          ∧ (∀ x, x ∈ B → x ∉ C) ↔ NoDup (A ++ B ++ C)) as Hnd.
  { rewrite !NoDup_app. setoid_rewrite elem_of_app. naive_solver. }
  rewrite <- Hnd, <- set_equal, !list_to_set_app_L, !disjoint_true. clear Hnd.
  destruct (sc_coverage scope); [done|..]; rewrite !set_empty.
  - rewrite (assoc_L (∪)). assert (B ++ C ≠ [] ↔ ¬ (B = [] ∧ C = [])) as ->; [|tauto].
    destruct B, C; naive_solver.
  - assert (B ++ C = [] ↔ B = [] ∧ C = []) as Hbc; [destruct B, C; naive_solver|].
    rewrite Hbc. split; intros; destruct_and!; subst; split_and!; try done; set_solver.
Qed.

Lemma graph_true scope graph (e1 e2 e3 : AgentReportPublishError) :
  sc_graph_status scope = gm_status graph →
  match sc_graph_status scope with
  | GraphReady =>
      let? digest := ok_or (sc_graph_sha256 scope) e1 in
      guard_err (negb (report_sha256 digest)
                 || negb (bool_decide (gm_graph_sha256 graph = Some digest))) e2
  | _ => guard_err (bool_decide (is_Some (sc_graph_sha256 scope))) e3
  end = Ok tt
  ↔ match gm_status graph with
    | GraphReady => ∃ digest, sc_graph_sha256 scope = Some digest ∧ gm_graph_sha256 graph = Some digest
                              ∧ report_sha256 digest = true
    | _ => sc_graph_sha256 scope = None
    end.
Proof.
  intros ->. destruct (gm_status graph).
  - autorewrite with report. symmetry. apply eq_None_not_Some.
  - rewrite let_Ok. split; intros (digest & Hd & H); exists digest; autorewrite with report in *; tauto.
  - autorewrite with report. symmetry. apply eq_None_not_Some.
Qed.

Lemma unique_group (l : list str) n :
  length l = n → (size (list_to_set l : gset str) =? n)%nat = true ↔ NoDup l.
Proof. intros <-. by rewrite Nat.eqb_eq, size_list_to_set_iff. Qed.

Lemma reasons_true l :
  each (λ index item, guard_err (negb (valid_validation_text (sk_reason item)))
          (invalid_report (field_of (lit "scope.skippedRepositories") index "reason")
             (at_most MAX_VALIDATION_TEXT_CHARS))) 0 l = Ok tt
  ↔ Forall (λ item, text_ok MAX_VALIDATION_TEXT_CHARS (sk_reason item)) l.
Proof. apply each_Ok. intros. by autorewrite with report. Qed.

Lemma groups_true (coverage : AgentReportCoverage) (R U S L : gset str) (e1 e2 : AgentReportPublishError) :
  match coverage with
  | CoverageComplete =>
      guard_err (negb (bool_decide (R = L)) || negb (bool_decide (U = ∅)) || negb (bool_decide (S = ∅))) e1
  | _ => guard_err (negb (bool_decide (R ∪ U ∪ S = L)) || bool_decide (R = ∅)
                    || (bool_decide (U = ∅) && bool_decide (S = ∅))) e2
  end = Ok tt
  ↔ match coverage with
    | CoverageComplete => R = L ∧ U = ∅ ∧ S = ∅
    | _ => R ∪ U ∪ S = L ∧ R ≠ ∅ ∧ ¬ (U = ∅ ∧ S = ∅)
    end.
Proof. destruct coverage; autorewrite with report; rewrite ?not_both; tauto. Qed.

Lemma scope_true scope context graph :
  validate_agent_report_scope scope context graph = Ok tt ↔ scope_ok scope context graph.
Proof.
  unfold validate_agent_report_scope, scope_ok, graph_ok. forget_errors.
  destruct (bool_decide (sc_coverage scope = _)) eqn:Hc; autorewrite with report in Hc.
  - autorewrite with report. split; [by left|]. intros [|(_ & _ & _ & _ & _ & H)]; [done|].
    by rewrite Hc in H.
  - rewrite <- coverage_true by done. rewrite !then_Ok, groups_true, reasons_true, !guard_err_Ok.
    rewrite !orb_false_iff, !negb_false_iff, !N.eqb_eq, !bool_decide_eq_true.
    rewrite !unique_group by (by rewrite ?length_fmap).
    split.
    + intros ((? & ?) & Hg & Hm & ? & ? & ? & ?). rewrite (graph_true _ _ _ _ _ Hg) in Hm. right. tauto.
    + intros [->|(? & (? & Hg & Hm) & ?)]; [done|]. rewrite (graph_true _ _ _ _ _ Hg). tauto.
Qed.

(** ** The report *)

Lemma report_true report context graph :
  validate_agent_report_document files report context graph = Ok tt ↔ report_ok report context graph.
Proof.
  unfold validate_agent_report_document. forget_errors. autorewrite with report.
  rewrite scope_true, environment_true, N.ltb_ge.
  rewrite (each_Ok _ _ _ next_action_true), (each_Ok _ _ _ (finding_true context _)),
    (each_Ok _ _ _ (proposed_check_true context)), (each_Ok _ _ _ validation_flow_true),
    (each_Ok _ _ _ (flow_true _ _ context)).
  assert (match ad_updated_at_unix_ms report with Some t => (t <? 0)%Z | None => false end = false
          ↔ ∀ t, ad_updated_at_unix_ms report = Some t → (0 ≤ t)%Z) as ->.
  { destruct (ad_updated_at_unix_ms report) as [t|]; [rewrite Z.ltb_ge|]; naive_solver. }
  split; [intros; decompose [and] H; split; by repeat split|].
  intros []. unfold short_list in *. tauto.
Qed.

(** *** Nothing is rejected without a field *)

Definition names_field {T} (r : result T AgentReportPublishError) : Prop :=
  ∀ e, r = Err e → ∃ field message, e = InvalidReport field message.

Lemma names_Ok {T} (x : T) : names_field (Ok x).
Proof. done. Qed.

Lemma names_invalid {T} field message : names_field (Err (invalid_report field message) : result T _).
Proof. intros e [= <-]. by do 2 eexists. Qed.

Lemma names_guard b field message : names_field (guard_err b (invalid_report field message)).
Proof. intros e [_ <-]%guard_err_Err. by do 2 eexists. Qed.

Lemma names_option {T} (o : option T) field message : names_field (ok_or o (invalid_report field message)).
Proof. intros e [_ <-]%ok_or_Err. by do 2 eexists. Qed.

Lemma names_bind {T U} (r : result T AgentReportPublishError) (k : T → result U _) :
  names_field r → (∀ x, names_field (k x)) → names_field (rbind r k).
Proof. intros Hr Hk e [?|(x & _ & ?)]%rbind_Err; [by apply Hr|by apply (Hk x)]. Qed.

Lemma names_each {A} (f : N → A → result () AgentReportPublishError) l :
  (∀ i x, names_field (f i x)) → ∀ i, names_field (each f i l).
Proof. intros Hf. induction l as [|x l IH]; intros i; cbn [each]; [done|]. by apply names_bind. Qed.

Create HintDb names.

#[local] Hint Resolve names_Ok names_invalid names_guard names_option names_bind names_each : names.

Ltac names := repeat first
  [ progress auto 1 with names
  | apply names_bind; [|intros] | apply names_each; intros
  | match goal with |- names_field (match ?o with _ => _ end) => destruct o end ].

Lemma names_list evidence field : names_field (validate_evidence_list evidence field).
Proof. unfold validate_evidence_list. names. Qed.

Lemma names_texts values field required : names_field (validate_flow_text_list values field required).
Proof. unfold validate_flow_text_list. names. Qed.

Lemma names_evidence noun evidence id repository field :
  names_field (validate_evidence files noun evidence id repository field).
Proof. unfold validate_evidence, validate_flow_evidence_path. names. Qed.

Lemma names_repository id scope context field :
  names_field (validate_environment_repository id scope context field).
Proof. unfold validate_environment_repository. names. Qed.

#[local] Hint Resolve names_list names_texts names_evidence names_repository : names.

Lemma names_report report context graph :
  names_field (validate_agent_report_document files report context graph).
Proof.
  unfold validate_agent_report_document, validate_agent_report_scope, validate_agent_environment_plan,
    validate_requirement, validate_setup_step, validate_next_action, validate_finding,
    validate_agent_proposed_check, validate_agent_validation_flow, validate_validation_step,
    validate_agent_flow, validate_agent_flow_step.
  names.
Qed.

(** ** The context *)




(** ** What a report names *)









(** ** Properties *)


(** C39: The report checks decide [report_ok], and a report they reject is rejected with the field
    at fault: no other error of a publication stands for an unacceptable report. *)
Theorem report_decides report context graph :
  (validate_agent_report_document files report context graph = Ok tt ↔ report_ok report context graph)
  ∧ (¬ report_ok report context graph → ∃ field message,
       validate_agent_report_document files report context graph = Err (InvalidReport field message)).
Proof.
  split; [apply report_true|]. intros Hn.
  destruct (validate_agent_report_document files report context graph) as [[]|e] eqn:Hv.
  - by apply report_true in Hv.
  - destruct (names_report _ _ _ _ Hv) as (field & message & ->). by exists field, message.
Qed.

End spec.

(** ** A report *)

(** A workspace [/w] with one repository, reached through no links. *)
Definition sample_files : ReportFiles :=
  {| rf_kind := λ path,
       if bool_decide (path ∈ [lit "/w"; lit "/w/.wts"; lit "/w/app"; lit "/w/app/src"])
       then Some KindDirectory
       else if bool_decide (path = lit "/w/app/src/main.rs") then Some KindFile else None;
     rf_canonicalize := λ path,
       if bool_decide (path ∈ [lit "/w"; lit "/w/.wts"; lit "/w/app"; lit "/w/app/src";
                               lit "/w/app/src/main.rs"])
       then Some path else None;
     rf_is_file := λ path, bool_decide (path = lit "/w/app/src/main.rs") |}.

Definition sample_repository : EvidenceRepository :=
  {| eo_repository_id := lit "app"; eo_label := lit "App"; eo_requested_base_ref := lit "main";
     eo_resolved_base_ref := lit "origin/main"; eo_base_commit_oid := lit "0";
     eo_worktree_display_path := lit "/w/app" |}.

Definition sample_context : WorkspaceEvidenceContext :=
  {| ec_schema_version := 1; ec_workspace_id := 7; ec_workspace_record_version := 1;
     ec_title := lit "Sample"; ec_intent := RepositorySet (lit "Apps");
     ec_preferred_provider := Codex; ec_branch_name := lit "wts/sample";
     ec_workspace_display_path := lit "/w"; ec_code_workspace_display_path := lit "/w/w.code-workspace";
     ec_evidence_display_path := lit "/w/.wts"; ec_created_at_unix_ms := 1%Z;
     ec_wts_version := lit "1"; ec_repositories := [sample_repository];
     ec_allowed_repository_ids := [lit "app"] |}.

Definition sample_graph : WorkspaceGraphManifest :=
  {| gm_schema_version := 1; gm_workspace_id := 7; gm_status := GraphNotStarted;
     gm_graph_display_path := None; gm_graph_sha256 := None; gm_indexed_at_unix_ms := None;
     gm_indexed_repositories := []; gm_detail := [] |}.

Definition sample_evidence (line : option N) : AgentFlowEvidence :=
  {| fe_repository_id := lit "app"; fe_path := lit "src/main.rs"; fe_line := line |}.

Definition sample_flow (line : option N) : AgentFlow :=
  {| fl_id := lit "start"; fl_title := lit "Start"; fl_kind := FlowUser; fl_actors := [lit "user"];
     fl_entry_points := [lit "main"];
     fl_steps := [{| fp_id := lit "run"; fp_repository_id := lit "app"; fp_component := lit "main";
                     fp_action := lit "starts"; fp_evidence := [sample_evidence line] |}];
     fl_expected_outcome := lit "it runs"; fl_risks := []; fl_existing_coverage := [];
     fl_verification_candidate_ids := [lit "unit"] |}.

Definition sample_check : AgentProposedCheck :=
  {| pc_id := lit "unit"; pc_label := lit "Unit tests"; pc_kind := CheckUnit;
     pc_repository_id := lit "app"; pc_working_directory := lit "/w/app/src";
     pc_executable := lit "cargo"; pc_args := [lit "test"; lit "--quiet"]; pc_timeout_ms := 60000;
     pc_environment_names := [lit "CI"]; pc_reason := lit "it covers the start"; pc_evidence := [] |}.

Definition sample_report (line : option N) : AgentReportDocument :=
  {| ad_schema_version := 1; ad_workspace_id := 7; ad_updated_at_unix_ms := Some 5%Z; ad_summary := [];
     ad_scope := {| sc_coverage := CoverageComplete; sc_graph_status := GraphNotStarted;
                    sc_graph_sha256 := None; sc_reviewed_repository_ids := [lit "app"];
                    sc_unresolved_repository_ids := []; sc_skipped_repositories := [] |};
     ad_environment := default_environment; ad_flows := [sample_flow line]; ad_findings := [];
     ad_next_actions := [lit "run it"]; ad_proposed_checks := [sample_check];
     ad_validation_flows := [] |}.

Lemma sample_report_accepted :
  validate_agent_report_document sample_files (sample_report (Some 3)) sample_context sample_graph = Ok tt.
Proof. vm_compute. reflexivity. Qed.

Lemma sample_report_rejected :
  validate_agent_report_document sample_files (sample_report (Some 0)) sample_context sample_graph
  = Err (InvalidReport (lit "flows[0].steps[0].evidence[0].line")
           (lit "must be a positive line number on file evidence")).
Proof. vm_compute. reflexivity. Qed.

Lemma report_decides_witness :
  report_ok sample_files (sample_report (Some 3)) sample_context sample_graph
  ∧ ∃ field message, validate_agent_report_document sample_files (sample_report (Some 0)) sample_context
                       sample_graph = Err (InvalidReport field message).
Proof.
  split; [apply (report_decides sample_files), sample_report_accepted|].
  apply (report_decides sample_files). intros H%(report_decides sample_files).
  by rewrite sample_report_rejected in H.
Defined.

